(* ===== verification/_CoqProject ===== *)
-Q . S2P
Prelude.v
InterruptVector.v
Multiboot2.v
Acpi.v
AcpiTables.v
AcpiMadt.v
PhysicalMemory.v
Heap.v
ApicTimer.v
Timer.v
PageTable.v
PageRange.v
PageSpace.v
DeviceWindows.v
IdentityMap.v
Paging.v
BootLedger.v
BootLedgerPlan.v
BootLedgerRun.v
BootPlan.v
Dma.v
Thread.v
ThreadRun.v
ThreadSteps.v
Pixels.v
Framebuffer.v
Surface.v
Keyboard.v
UiLayout.v
UiEvents.v
Pointer.v
