(* ===== verification/Prelude.v ===== *)
(** A verification library for Sapote, a freestanding x86_64 kernel written in
    C (src/src/kernel/*.c, headers under src/include/sapote/).

    * The program

    Sapote boots through Multiboot2, reads the firmware's memory map, gives the
    free frames to a bitmap allocator, builds a hardened identity map with
    four-level page tables, and then brings its services up: a guarded heap,
    the local APIC timer and the deadline timers over it, DMA buffers, threads.
    None of this is called in a fixed order by hand: every step of the boot is
    a stage that declares the capabilities it requires and provides, and the
    boot ledger computes the order, runs the stages and audits the receipts.
    An operation is modelled as one function on an explicit state; where an
    interrupt can come between two steps (a halt in a wait loop, a turn of the
    loop that drains the shell's events) what it does is a parameter of the loop.

    * The files, the code they model and what they prove

    [Prelude] (this file): unsigned machine integers as [Z] with their
    reductions written out, C arrays as lists with [aget] and [aset], and the
    lemmas, tactics and hints every component shares.

    [Multiboot2] (multiboot2.c): physical memory is a function from addresses to
    bytes; [boot_information_parse] walks the tags of the information block.  It
    returns on every input, reads nothing outside the block, and what it accepts
    (memory map, framebuffer, ACPI pointers) lies inside the block.

    [PhysicalMemory] (physical_memory.c): the two bitmaps as lists of bytes.
    Initialization makes exactly the whole free frames available; the invariant
    of every reachable state; single and contiguous allocation against first
    fit; release round trips; late reservation.  The extent of the early map is
    a class parameter, with the kernel's 4 GiB map and a small one as instances.

    [InterruptVector] (interrupt_vector.c): the dynamic vectors 0x90..0xEF with
    their generations; a handle releases exactly once.

    [Heap] (heap.c): the fixed block table, first fit, split, merge, page commit
    and its rollback over a class for frames and page tables.  Blocks tile the
    committed range in every reachable state; an allocation lies in the heap
    window, in mapped pages of its own frames, and never overlaps a live one;
    free accepts exactly the live addresses; freeing undoes allocating.

    [ApicTimer] (apic_timer.c): calibration against the power management timer,
    periodic and one-shot modes, the interrupt handler and the wait loop.

    [Timer] (timer.c): the table of pending deadlines on the one-shot timer: which
    callbacks an expiry interrupt calls, in which order and with what, the
    invariant, arm and cancel on every branch, and sleep.

    [PageTable], [PageRange], [PageSpace] (paging.c): page-table words in a
    finite map, the walk, mapping, unmapping, protection, translation,
    reclaiming of empty tables and the audit.  Against the abstract meaning
    [leaf] of a hierarchy: operations change exactly their range, a refused one
    changes no translation, unmapping undoes mapping to the frames held, no reachable
    hierarchy holds a writable and executable page, and every changed page of a
    live hierarchy is invalidated.  The frame supply is the class [TableFrames],
    discharged by the frame allocator.

    [DeviceWindows] (paging.c): the registry of device ranges and its canonical
    form.  [IdentityMap] (paging.c): the permissions of every page below 4 GiB,
    how the map is built and how it is validated.  Its specification [should_be]
    says from the layout of linker.ld and the declared device windows what every
    address is and which rights that gives it, without the code's own tables.
    [Paging] (paging.c): paging_map, paging_unmap and paging_protect with the
    registry of supervisor mappings and its replay into a fresh hierarchy, for
    callers that name any range; the registry follows the hierarchy as long as no
    call unmaps or protects something else than one recorded range.

    [BootLedger], [BootLedgerPlan], [BootLedgerRun] (boot_ledger.c): descriptors,
    plan validation, the canonical order, execution, receipts, fingerprints and
    the audit.  Validation accepts exactly the acceptable plans and names a defect
    a refused plan really has; the order holds
    every stage once after its providers and does not depend on the order of
    declaration; a finished execution has the receipts the plan asks for and its
    own audit accepts them.  [BootPlan] (boot_plan.c): the table of stages the
    kernel installs; it validates, its order is computed, and it boots.

    [Dma] (dma.c): the buffers a device and the processor pass to each other.
    Handles live in a shared store that callers may overwrite; records and
    counters are the file's own state, frames come from [PhysicalMemory].  The
    four operations implement an abstract ownership machine, a buffer a device
    holds keeps its frames, and the audit accepts every reachable state.

    [Thread], [ThreadRun], [ThreadSteps] (thread.c and the context switch of
    thread.S): the thread table, stacks with their guard pages, round robin,
    preemption from the timer interrupt, exit, join and stop.  The switch pushes
    and pops the registers through memory words, as the assembly does.  Reachable
    states have exactly one running thread; a ready thread runs after fewer
    switches than it is slots away; a thread whose frame is intact resumes with
    the stack pointer, registers and flags it left, and a new one at the call of
    its entry; the scheduler panics exactly where it must; stopping returns every
    page and frame.

    [Pixels], [Framebuffer], [Surface] (framebuffer.c, surface.c): byte memory
    and 32-bit words in it, the adopted framebuffer and a back buffer in the
    kernel heap.  No pixel address leaves the buffer; drawing equals a reference
    picture, overlapping blits included; the damage rectangle covers every
    change, so presenting it makes the screen the whole picture.

    [Keyboard], [Pointer] (keyboard.c, pointer.c): the two PS/2 drivers over one
    class for the 8042 ports, the interrupt table and the I/O APIC.  The key ring
    is a queue of the decoded byte stream; packets move a cursor that stays in
    its bounds; bring-up installs everything or leaves nothing behind.

    [UiLayout], [UiEvents] (ui.c): the rectangles, layout, validation and hit
    test of the graphical shell, and its bounded event queue with what every
    event does to focus, hover, panels and damage.  Every supported geometry has
    a layout its own validation accepts; presses and keys are never lost while a
    movement can be; processing, with handlers publishing meanwhile, ends once
    they stop, and only rectangles inside the surface are drawn.

    [Acpi], [AcpiTables], [AcpiMadt] (acpi.c, acpi_util.c, acpi_tables.c,
    acpi_madt.c): the root pointer the boot information carries, the walk over
    the root table to the one table of a signature, the MADT, FADT and MCFG, and
    the interrupt topology.  Tables are functions from offsets to bytes.  Each
    discovery is given exactly the inputs it accepts and what it then holds;
    nothing outside the early map is read; processors, I/O APICs and overrides
    stay inside their arrays; configuration windows share no bus and no byte; a
    refusal leaves nothing behind.

    * Conventions

    Definitions have the names of the C functions; the file-scope variables of a
    source file are the fields of a record passed through its operations; a
    status enumeration is an inductive type, or [Z] where the code checks for
    values outside it.  A NULL pointer argument is [None].  Other components and
    the processor are classes of operations over an abstract world, with the
    laws the component relies on stated separately, and an instance that shows
    the laws can hold.  Property theorems carry their claim number; each has,
    where it has hypotheses, a lemma [<name>_witness] that applies it to a
    concrete input.

    * Loops and fuel

    A C [for] loop over an index range is a fold over [seqZ]; loops that leave
    early are [for_each] over the control type [ctl].  The loops that are not
    bounded by an index carry fuel: the tag walk of [Multiboot2] has one unit
    more than a block can hold tags, and a theorem shows it never runs out; the
    wait and sleep loops, which in C spin until hardware moves, are related to
    their fuel by theorems that give the amount that suffices; the loop that
    drains the shell's queue ends within 65 turns of the last event published.

    * Not modelled

    Device drivers that are mostly register traffic (nvme.c, xhci.c, virtio),
    PCI and interrupt-controller discovery, the clocks, the drawing routines of ui.c,
    the text screen and shell (screen.c, shell.c), the proof stages and report of
    the boot (boot_proofs.c, boot_report.c, test.c), the Rust parsers and the
    assembly other than the context switch.  Of paging.c the control-register
    switch of paging_initialize and the process address spaces.  The manifest
    lists every part and its state. *)
From Stdlib Require Export ZArith Lia Bool.
From stdpp Require Export prelude.

Open Scope Z_scope.

(** * Machine integers

    A [w]-bit unsigned integer is a [Z]; every C operation that can wrap is
    written with the reduction it performs. *)

Definition u8 (x : Z) : Z := x mod 256.
Definition u16 (x : Z) : Z := x mod 65536.
Definition u32 (x : Z) : Z := x mod 4294967296.
Definition u64 (x : Z) : Z := x mod 18446744073709551616.
Definition UINT8_MAX : Z := 255.
Definition UINT32_MAX : Z := 4294967295.
Definition UINT64_MAX : Z := 18446744073709551615.

(** The complement of a 64-bit value, C's [~x] on [uint64_t]. *)
Definition not64 (x : Z) : Z := u64 (Z.lnot x).

Definition is_u64 (x : Z) : Prop := 0 <= x <= UINT64_MAX.
Definition is_u32 (x : Z) : Prop := 0 <= x <= UINT32_MAX.

(** * Arrays

    A C array is the list of its elements, read and written by a [Z] index.
    A read out of range yields the default and a write out of range does
    nothing; the components prove that neither happens. *)

Definition aget {A} (d : A) (l : list A) (i : Z) : A := nth (Z.to_nat i) l d.
Definition aset {A} (l : list A) (i : Z) (x : A) : list A :=
  <[Z.to_nat i := x]> l.
Definition zlength {A} (l : list A) : Z := Z.of_nat (length l).

#[global] Arguments u8 : simpl never.
#[global] Arguments u16 : simpl never.
#[global] Arguments u32 : simpl never.
#[global] Arguments u64 : simpl never.
#[global] Arguments not64 : simpl never.
#[global] Arguments aget : simpl never.
#[global] Arguments aset : simpl never.
#[global] Arguments zlength : simpl never.
#[global] Arguments Z.to_nat : simpl never.
#[global] Arguments Z.of_nat : simpl never.
#[global] Arguments Z.land : simpl never.
#[global] Arguments Z.lor : simpl never.
#[global] Arguments Z.modulo : simpl never.
#[global] Arguments Z.div : simpl never.
#[global] Arguments Z.pow : simpl never.
#[global] Arguments Z.mul : simpl never.
#[global] Arguments Z.add : simpl never.
#[global] Arguments Z.sub : simpl never.

(** * Loops

    [for_each body l s] runs a C [for] loop over the indices [l]; the body
    either goes on with a new state or leaves the function with a value. *)

Inductive ctl (S R : Type) : Type :=
| Next (s : S)
| Return (r : R).
Arguments Next {S R} _.
Arguments Return {S R} _.

Fixpoint for_each {A S R} (body : A -> S -> ctl S R) (l : list A) (s : S)
  : ctl S R :=
  match l with
  | [] => Next s
  | x :: l' =>
      match body x s with
      | Next s' => for_each body l' s'
      | Return r => Return r
      end
  end.

(** The index of the first element that satisfies [p]: the linear scans of the
    kernel's fixed tables. *)
Fixpoint find_index {A} (p : A -> bool) (l : list A) : option Z :=
  match l with
  | [] => None
  | x :: l' => if p x then Some 0 else Z.succ <$> find_index p l'
  end.

(** How many elements satisfy [p]. *)
Fixpoint countb {A} (p : A -> bool) (l : list A) : Z :=
  match l with
  | [] => 0
  | x :: l' => (if p x then 1 else 0) + countb p l'
  end.

(** * Automation *)

Create HintDb sapote.
Create Rewrite HintDb sapote.

(** Turn the boolean tests of the code in the hypotheses into propositions. *)
Ltac bool_hyps :=
  repeat match goal with
  | H : _ && _ = true |- _ => apply andb_prop in H; destruct H
  | H : _ || _ = false |- _ => apply orb_false_elim in H; destruct H
  | H : _ && _ = false |- _ => apply andb_false_iff in H
  | H : _ || _ = true |- _ => apply orb_true_iff in H
  | H : negb _ = true |- _ => apply negb_true_iff in H
  | H : negb _ = false |- _ => apply negb_false_iff in H
  | H : (_ =? _) = true |- _ => apply Z.eqb_eq in H
  | H : (_ =? _) = false |- _ => apply Z.eqb_neq in H
  | H : (_ <? _) = true |- _ => apply Z.ltb_lt in H
  | H : (_ <? _) = false |- _ => apply Z.ltb_ge in H
  | H : (_ <=? _) = true |- _ => apply Z.leb_le in H
  | H : (_ <=? _) = false |- _ => apply Z.leb_gt in H
  | H : (_ >? _) = true |- _ => rewrite Z.gtb_ltb in H
  | H : (_ >? _) = false |- _ => rewrite Z.gtb_ltb in H
  | H : (_ >=? _) = true |- _ => rewrite Z.geb_leb in H
  | H : (_ >=? _) = false |- _ => rewrite Z.geb_leb in H
  end.

(** Split on the next test of the function under analysis. *)
Ltac split_if :=
  match goal with
  | |- context [if ?b then _ else _] => destruct b eqn:?
  end.
Ltac split_if_in H :=
  match type of H with
  | context [if ?b then _ else _] => destruct b eqn:?
  end.
Ltac split_ifs_in H := repeat (split_if_in H; try discriminate; simplify_eq/=).

(** * Machine-integer lemmas *)

Lemma u64_small x : is_u64 x -> u64 x = x.
Proof. unfold is_u64, u64, UINT64_MAX. intros. apply Z.mod_small. lia. Qed.

Lemma u64_range x : is_u64 (u64 x).
Proof.
  unfold is_u64, u64, UINT64_MAX.
  pose proof (Z.mod_pos_bound x 18446744073709551616). lia.
Qed.

Lemma u32_range x : is_u32 (u32 x).
Proof.
  unfold is_u32, u32, UINT32_MAX.
  pose proof (Z.mod_pos_bound x 4294967296). lia.
Qed.

Lemma u32_small x : is_u32 x -> u32 x = x.
Proof. unfold is_u32, u32, UINT32_MAX. intros. apply Z.mod_small. lia. Qed.

(** A disjunction of [k]-bit values is a [k]-bit value. *)
Lemma lor_range k x y :
  0 <= k -> 0 <= x < 2 ^ k -> 0 <= y < 2 ^ k -> 0 <= Z.lor x y < 2 ^ k.
Proof.
  intros Hk Hx Hy.
  assert (Z.lor x y = Z.lor x y mod 2 ^ k) as ->.
  { rewrite <- Z.land_ones, Z.land_lor_distr_l, !Z.land_ones by done.
    by rewrite !Z.mod_small. }
  apply Z.mod_pos_bound. lia.
Qed.

Lemma land_range k x y : 0 <= k -> 0 <= x < 2 ^ k -> 0 <= Z.land x y < 2 ^ k.
Proof.
  intros Hk Hx. assert (Z.land x y = Z.land x y mod 2 ^ k) as ->.
  { rewrite <- Z.land_ones, <- Z.land_assoc, (Z.land_comm y), Z.land_assoc,
      Z.land_ones by done. by rewrite (Z.mod_small x). }
  apply Z.mod_pos_bound. lia.
Qed.

Lemma shiftl_range k x n :
  0 <= n <= k -> 0 <= x < 2 ^ (k - n) -> 0 <= Z.shiftl x n < 2 ^ k.
Proof.
  intros Hn Hx. rewrite Z.shiftl_mul_pow2 by lia.
  replace (2 ^ k) with (2 ^ (k - n) * 2 ^ n)
    by (rewrite <- Z.pow_add_r by lia; f_equal; lia). nia.
Qed.

(** Masking with [2^k - 1] is the remainder. *)
Lemma land_low_mask x k : 0 <= k -> Z.land x (2 ^ k - 1) = x mod 2 ^ k.
Proof.
  intros. rewrite <- Z.land_ones by lia.
  by rewrite Z.ones_equiv, <- Z.sub_1_r.
Qed.

(** Masking with [~(2^k - 1)] rounds down, on a 64-bit value. *)
Lemma land_high_mask x k :
  0 <= k < 64 -> is_u64 x -> Z.land x (not64 (2 ^ k - 1)) = x - x mod 2 ^ k.
Proof.
  intros Hk Hx. unfold not64, u64.
  change 18446744073709551616 with (2 ^ 64).
  rewrite <- Z.land_ones by lia. rewrite Z.land_assoc, <- (Z.land_assoc x).
  rewrite (Z.land_comm (Z.lnot _)), Z.land_assoc.
  rewrite (Z.land_ones x) by lia.
  assert (x mod 2 ^ 64 = x) as -> by
    (apply Z.mod_small; unfold is_u64, UINT64_MAX in Hx; lia).
  replace (2 ^ k - 1) with (Z.ones k) by (rewrite Z.ones_equiv; lia).
  rewrite <- Z.ldiff_land, Z.ldiff_ones_r by lia.
  rewrite Z.shiftr_div_pow2, Z.shiftl_mul_pow2 by lia.
  pose proof (Z.div_mod x (2 ^ k)). nia.
Qed.

(** * Array lemmas *)

Section arrays.
Context {A : Type}.
Implicit Types (l : list A) (i j : Z).

Lemma length_aset l i x : length (aset l i x) = length l.
Proof. apply length_insert. Qed.

Lemma zlength_aset l i x : zlength (aset l i x) = zlength l.
Proof. unfold zlength. by rewrite length_aset. Qed.

Lemma aget_lookup d l i x : l !! Z.to_nat i = Some x -> aget d l i = x.
Proof. intros H. apply nth_lookup_Some with (d := d) in H. done. Qed.

Lemma lookup_aget d l i :
  0 <= i < zlength l -> l !! Z.to_nat i = Some (aget d l i).
Proof.
  unfold zlength. intros. destruct (lookup_lt_is_Some_2 l (Z.to_nat i)) as [x E];
    [lia|]. rewrite E. f_equal. symmetry. by apply aget_lookup.
Qed.

Lemma aget_aset_eq d l i x : 0 <= i < zlength l -> aget d (aset l i x) i = x.
Proof.
  unfold zlength. intros. apply aget_lookup. unfold aset.
  apply list_lookup_insert_eq. lia.
Qed.

Lemma aget_aset_ne d l i j x :
  0 <= i -> 0 <= j -> i <> j -> aget d (aset l i x) j = aget d l j.
Proof.
  intros. unfold aget, aset. rewrite !nth_lookup.
  rewrite list_lookup_insert_ne; [done|lia].
Qed.

Lemma aget_aset d l i j x :
  0 <= i < zlength l -> 0 <= j ->
  aget d (aset l i x) j = if i =? j then x else aget d l j.
Proof.
  intros. destruct (i =? j) eqn:E; bool_hyps; subst.
  - by apply aget_aset_eq.
  - apply aget_aset_ne; lia.
Qed.

Lemma aget_replicate (d x : A) n i :
  0 <= i < Z.of_nat n -> aget d (replicate n x) i = x.
Proof. intros. apply aget_lookup, lookup_replicate_2. lia. Qed.

Lemma zlength_nonneg l : 0 <= zlength l.
Proof. unfold zlength. lia. Qed.

Lemma elem_of_aget d l x : x ∈ l <-> exists i, 0 <= i < zlength l /\ aget d l i = x.
Proof.
  unfold zlength. split.
  - intros [i Hi]%list_elem_of_lookup. exists (Z.of_nat i).
    pose proof (lookup_lt_Some _ _ _ Hi). split; [lia|].
    apply aget_lookup. by rewrite Nat2Z.id.
  - intros (i & Hi & <-). apply list_elem_of_lookup. exists (Z.to_nat i).
    by apply lookup_aget.
Qed.

Lemma list_eq_aget d l1 l2 :
  zlength l1 = zlength l2 ->
  (forall i, 0 <= i < zlength l1 -> aget d l1 i = aget d l2 i) -> l1 = l2.
Proof.
  unfold zlength. intros Hlen Heq. apply list_eq. intros i.
  destruct (decide (i < length l1)%nat) as [Hi|Hi].
  - specialize (Heq (Z.of_nat i) ltac:(lia)).
    rewrite <- (Nat2Z.id i). rewrite !(lookup_aget d); unfold zlength; try lia.
    by f_equal.
  - rewrite !lookup_ge_None_2 by lia. done.
Qed.

Lemma zlength_app l1 l2 : zlength (l1 ++ l2) = zlength l1 + zlength l2.
Proof. unfold zlength. rewrite length_app. lia. Qed.

Lemma zlength_cons x l : zlength (x :: l) = zlength l + 1.
Proof. unfold zlength. simpl. lia. Qed.

Lemma zlength_take n l : 0 <= n <= zlength l -> zlength (take (Z.to_nat n) l) = n.
Proof. unfold zlength. intros. rewrite length_take. lia. Qed.

Lemma aget_take d n l i : 0 <= i < n -> aget d (take (Z.to_nat n) l) i = aget d l i.
Proof.
  intros. unfold aget. rewrite !nth_lookup, lookup_take_lt; [done|lia].
Qed.

Lemma aget_cons d x l i : 0 <= i -> aget d (x :: l) i = if i =? 0 then x else aget d l (i - 1).
Proof.
  intros. unfold aget. destruct (i =? 0) eqn:E; bool_hyps; [by subst|].
  replace (Z.to_nat i) with (S (Z.to_nat (i - 1))) by lia. done.
Qed.

Lemma aget_app d l1 l2 i :
  0 <= i -> aget d (l1 ++ l2) i =
  if i <? zlength l1 then aget d l1 i else aget d l2 (i - zlength l1).
Proof.
  intros. unfold aget, zlength. destruct (i <? _) eqn:E; bool_hyps.
  - apply app_nth1. lia.
  - rewrite app_nth2 by lia. f_equal. lia.
Qed.

(** ** Linear scans *)

Lemma find_index_Some d (p : A -> bool) l i :
  find_index p l = Some i ->
  0 <= i < zlength l /\ p (aget d l i) = true /\
  forall j, 0 <= j < i -> p (aget d l j) = false.
Proof.
  unfold zlength. revert i. induction l as [|x l IH]; intros i; [done|]. simpl.
  destruct (p x) eqn:Hp.
  - intros [= <-]. split; [lia|]. split; [done|lia].
  - destruct (find_index p l) as [k|]; [|done]. intros [= <-].
    destruct (IH k eq_refl) as (Hk & Hpk & Hlt).
    split; [lia|]. unfold aget in *.
    rewrite Z2Nat.inj_succ by lia. split; [done|].
    intros j Hj. destruct (decide (j = 0)) as [->|]; [done|].
    replace (Z.to_nat j) with (S (Z.to_nat (j - 1))) by lia. apply Hlt. lia.
Qed.

Lemma find_index_None (p : A -> bool) l :
  find_index p l = None <-> Forall (fun x => p x = false) l.
Proof.
  induction l as [|x l IH]; simpl; [by split; constructor|].
  rewrite Forall_cons. destruct (p x) eqn:Hp.
  - split; [done|]. intros [? _]. congruence.
  - destruct (find_index p l); simpl; [split; [done|]|split; [|done]].
    + intros [_ H%IH]. done.
    + intros _. split; [done|]. by apply IH.
Qed.

Lemma find_index_None_aget d (p : A -> bool) l i :
  find_index p l = None -> 0 <= i < zlength l -> p (aget d l i) = false.
Proof.
  intros H%find_index_None Hi. rewrite Forall_forall in H. apply H.
  apply (elem_of_aget d). eauto.
Qed.

(** ** Counting *)

Lemma countb_nonneg (p : A -> bool) l : 0 <= countb p l.
Proof. induction l as [|x l IH]; simpl; [lia|]. destruct (p x); lia. Qed.

Lemma countb_le_length (p : A -> bool) l : countb p l <= zlength l.
Proof.
  unfold zlength. induction l as [|x l IH]; simpl; [lia|]. destruct (p x); lia.
Qed.

Lemma countb_app (p : A -> bool) l1 l2 :
  countb p (l1 ++ l2) = countb p l1 + countb p l2.
Proof. induction l1 as [|x l IH]; simpl; lia. Qed.

Lemma countb_ext (p q : A -> bool) l :
  (forall x, x ∈ l -> p x = q x) -> countb p l = countb q l.
Proof.
  induction l as [|x l IH]; intros H; [done|]. simpl.
  rewrite H by set_solver. rewrite IH; [done|]. intros. apply H. set_solver.
Qed.

Lemma countb_zero (p : A -> bool) l :
  countb p l = 0 <-> Forall (fun x => p x = false) l.
Proof.
  induction l as [|x l IH]; simpl; [by split; constructor|].
  rewrite Forall_cons, <- IH. pose proof (countb_nonneg p l).
  destruct (p x); split; [lia|intros []; done|intros; split; [done|lia]|].
  intros []. lia.
Qed.

Lemma countb_insert (p : A -> bool) l (n : nat) (x y : A) :
  l !! n = Some x ->
  countb p (<[n := y]> l) =
  countb p l - (if p x then 1 else 0) + (if p y then 1 else 0).
Proof.
  revert n. induction l as [|z l IH]; intros n; [done|].
  destruct n as [|n]; simpl.
  - intros [= ->]. lia.
  - intros H. rewrite (IH _ H). lia.
Qed.

Lemma countb_aset d (p : A -> bool) l i y :
  0 <= i < zlength l ->
  countb p (aset l i y) =
  countb p l - (if p (aget d l i) then 1 else 0) + (if p y then 1 else 0).
Proof. intros H. apply countb_insert. by apply lookup_aget. Qed.

Lemma countb_replicate (p : A -> bool) n x :
  countb p (replicate n x) = if p x then Z.of_nat n else 0.
Proof. induction n; simpl; destruct (p x); lia. Qed.

Lemma countb_pos (p : A -> bool) l :
  0 < countb p l <-> exists x, x ∈ l /\ p x = true.
Proof.
  split.
  - intros Hpos. destruct (find_index p l) as [i|] eqn:E.
    + destruct l as [|d l']; [simpl in *; lia|].
      apply (find_index_Some d) in E as (Hi & Hp & _).
      eexists. split; [|exact Hp]. apply (elem_of_aget d). eauto.
    + apply find_index_None, countb_zero in E. lia.
  - intros (x & Hx & Hp). pose proof (countb_nonneg p l).
    destruct (decide (countb p l = 0)) as [E|]; [|lia].
    rewrite countb_zero, Forall_forall in E. rewrite E in Hp; done.
Qed.
End arrays.

(** * Loop rules *)

(** The invariant rule: an invariant indexed by the elements still to visit. *)
Lemma for_each_inv {A S R} (P : list A -> S -> Prop) (Q : R -> Prop)
    (body : A -> S -> ctl S R) l s :
  (forall x l' s, P (x :: l') s ->
     match body x s with Next s' => P l' s' | Return r => Q r end) ->
  P l s ->
  match for_each body l s with Next s' => P [] s' | Return r => Q r end.
Proof.
  intros Hstep. revert s. induction l as [|x l IH]; intros s Hs; [done|]. simpl.
  specialize (Hstep x l s Hs). destruct (body x s); [by apply IH|done].
Qed.

(** Two loops whose bodies agree on every state the loop can be in. *)
Lemma for_each_ext {A S R} (I : S -> Prop) (body1 body2 : A -> S -> ctl S R) l s :
  (forall x s, x ∈ l -> I s -> body1 x s = body2 x s) ->
  (forall x s s', x ∈ l -> I s -> body1 x s = Next s' -> I s') ->
  I s -> for_each body1 l s = for_each body2 l s.
Proof.
  revert s. induction l as [|x l IH]; intros s Heq Hinv Hs; [done|]. simpl.
  rewrite <- Heq by (done || set_solver).
  destruct (body1 x s) as [s'|] eqn:E; [|done].
  apply IH; [set_solver|set_solver|]. eapply Hinv; eauto. set_solver.
Qed.

Lemma foldl_inv {A S} (P : S -> Prop) (f : S -> A -> S) l s :
  (forall x s, P s -> P (f s x)) -> P s -> P (foldl f s l).
Proof. intros Hf. revert s. induction l; simpl; eauto. Qed.

(** A fold over the indices of a prefix is a fold over its elements. *)
Lemma foldl_aget {A B} (d : A) (f : B -> A -> B) (l : list A) (a : B) n :
  0 <= n <= zlength l ->
  foldl (fun x i => f x (aget d l i)) a (seqZ 0 n) = foldl f a (take (Z.to_nat n) l).
Proof.
  intros [Hn Hle]. revert Hle. pattern n. apply natlike_ind; [| |done]; clear n Hn.
  - intros _. by rewrite seqZ_nil.
  - intros n Hn IH Hle.
    assert (seqZ 0 (Z.succ n) = seqZ 0 n ++ [n]) as ->
      by (rewrite <- Z.add_1_r, seqZ_app by lia; done).
    rewrite foldl_app, IH by lia. cbn. rewrite Z2Nat.inj_succ by lia.
    rewrite (take_S_r _ _ (aget d l n)) by (apply lookup_aget; lia).
    by rewrite foldl_app.
Qed.

(** A loop that returns at the first index satisfying [p]. *)
Lemma for_each_scan {A R} (p : A -> bool) (f : A -> R) l :
  for_each (fun x (_ : unit) => if p x then Return (f x) else Next tt) l tt =
  match List.find p l with Some x => Return (f x) | None => Next tt end.
Proof. induction l as [|x l IH]; simpl; [done|]. by destruct (p x). Qed.

Lemma find_seqZ_Some p a n x :
  List.find p (seqZ a n) = Some x ->
  a <= x < a + n /\ p x = true /\ forall y, a <= y < x -> p y = false.
Proof.
  destruct (decide (0 <= n)).
  2: { by rewrite seqZ_nil by lia. }
  revert a. pattern n. apply natlike_ind; [done| |lia]. clear n l.
  intros n Hn IH a. rewrite seqZ_cons by lia. rewrite Z.pred_succ. simpl.
  destruct (p a) eqn:Hp.
  - intros [= <-]. split_and!; [lia|lia|done|lia].
  - intros (Hx & Hpx & Hlt)%IH. split_and!; [lia|lia|done|].
    intros y Hy. destruct (decide (y = a)) as [->|]; [done|]. apply Hlt. lia.
Qed.

Lemma find_seqZ_None p a n :
  List.find p (seqZ a n) = None <-> forall y, a <= y < a + n -> p y = false.
Proof.
  destruct (decide (0 <= n)).
  2: { rewrite seqZ_nil by lia. split; [lia|done]. }
  revert a. pattern n. apply natlike_ind; [| |lia]; clear n l.
  { intros a. rewrite seqZ_nil by lia. split; [lia|done]. }
  intros n Hn IH a. rewrite seqZ_cons by lia. rewrite Z.pred_succ. simpl.
  destruct (p a) eqn:Hp.
  - split; [done|]. intros H. rewrite H in Hp by lia. done.
  - rewrite IH. split; intros H y Hy.
    + destruct (decide (y = a)) as [->|]; [done|]. apply H. lia.
    + apply H. lia.
Qed.

#[export] Hint Resolve u64_range u32_range zlength_nonneg countb_nonneg : sapote.
#[export] Hint Rewrite @length_aset @zlength_aset : sapote.
