(* ===== verification/InterruptVector.v ===== *)
(** Dynamic interrupt vectors: src/src/kernel/interrupt_vector.c.

    The allocator owns the vectors [0x90, 0xF0), one [allocated] flag and one
    32-bit [generation] per vector.  The statics of the file are the record
    [vectors]; every operation takes and returns it, the caller's handle is the
    option that stands for the pointer argument ([None] is NULL).  What the file
    asks of other components (interrupts_ready, apic_is_online and
    cpu_interrupts_enabled) is the record [vector_env]. *)
From S2P Require Import Prelude.

Module InterruptVector.

Definition INTERRUPT_EXCEPTION_COUNT : Z := 32.
Definition INTERRUPT_LOCAL_APIC_LIMIT : Z := 72.
Definition INTERRUPT_UNEXPECTED_TEST_VECTOR : Z := 128.
Definition INTERRUPT_DYNAMIC_BASE : Z := 144.
Definition INTERRUPT_DYNAMIC_LIMIT : Z := 240.
Definition INTERRUPT_IST_TEST_VECTOR : Z := 240.
Definition APIC_SPURIOUS_VECTOR : Z := 255.

Definition DYNAMIC_VECTOR_COUNT : Z :=
  INTERRUPT_DYNAMIC_LIMIT - INTERRUPT_DYNAMIC_BASE.

Inductive interrupt_vector_status : Type :=
| INTERRUPT_VECTOR_STATUS_OK
| INTERRUPT_VECTOR_STATUS_NULL_ARGUMENT
| INTERRUPT_VECTOR_STATUS_ALREADY_INITIALIZED
| INTERRUPT_VECTOR_STATUS_NOT_INITIALIZED
| INTERRUPT_VECTOR_STATUS_INTERRUPTS_ENABLED
| INTERRUPT_VECTOR_STATUS_RESERVED
| INTERRUPT_VECTOR_STATUS_ALREADY_ALLOCATED
| INTERRUPT_VECTOR_STATUS_EXHAUSTED
| INTERRUPT_VECTOR_STATUS_DOUBLE_RELEASE
| INTERRUPT_VECTOR_STATUS_STALE_ALLOCATION.

#[export] Instance interrupt_vector_status_eq_dec :
  EqDecision interrupt_vector_status.
Proof. solve_decision. Defined.

Record interrupt_vector_allocation : Type := MkAllocation {
  vector : Z;
  generation : Z;
  active : bool
}.

(** The file's statics: [allocated], [generations] and the fields of [state]. *)
Record vectors : Type := MkVectors {
  allocated : list bool;
  generations : list Z;
  state_capacity : Z;
  state_allocated : Z;
  state_free : Z;
  state_active : bool
}.

(** The answers of the components this file calls. *)
Record vector_env : Type := MkEnv {
  interrupts_ready : bool;
  apic_is_online : bool;
  cpu_interrupts_enabled : bool
}.

(** Zero-initialised static storage. *)
Definition vectors_bss : vectors :=
  MkVectors (replicate (Z.to_nat DYNAMIC_VECTOR_COUNT) false)
            (replicate (Z.to_nat DYNAMIC_VECTOR_COUNT) 0) 0 0 0 false.

Definition vector_is_dynamic (v : Z) : bool :=
  (v >=? INTERRUPT_DYNAMIC_BASE) && (v <? INTERRUPT_DYNAMIC_LIMIT).

Definition vector_index (v : Z) : Z := u64 (v - INTERRUPT_DYNAMIC_BASE).

Definition interrupt_vector_initialize (e : vector_env) (s : vectors)
  : interrupt_vector_status * vectors :=
  if s.(state_active) then
    (INTERRUPT_VECTOR_STATUS_ALREADY_INITIALIZED, s)
  else if negb e.(interrupts_ready) || negb e.(apic_is_online) then
    (INTERRUPT_VECTOR_STATUS_NOT_INITIALIZED, s)
  else if e.(cpu_interrupts_enabled) then
    (INTERRUPT_VECTOR_STATUS_INTERRUPTS_ENABLED, s)
  else
    let '(al, ge) :=
      foldl (fun '(al, ge) index => (aset al index false, aset ge index 0))
            (s.(allocated), s.(generations)) (seqZ 0 DYNAMIC_VECTOR_COUNT) in
    (INTERRUPT_VECTOR_STATUS_OK,
     MkVectors al ge DYNAMIC_VECTOR_COUNT 0 DYNAMIC_VECTOR_COUNT true).

(** [++generations[index]], skipping zero. *)
Definition next_generation (g : Z) : Z :=
  let g1 := u32 (g + 1) in if g1 =? 0 then u32 (g1 + 1) else g1.

Definition interrupt_vector_allocate_specific (e : vector_env) (v : Z)
    (handle : option interrupt_vector_allocation) (s : vectors)
  : interrupt_vector_status * option interrupt_vector_allocation * vectors :=
  match handle with
  | None => (INTERRUPT_VECTOR_STATUS_NULL_ARGUMENT, None, s)
  | Some _ =>
      let cleared := Some (MkAllocation 0 0 false) in
      if negb s.(state_active) then
        (INTERRUPT_VECTOR_STATUS_NOT_INITIALIZED, cleared, s)
      else if e.(cpu_interrupts_enabled) then
        (INTERRUPT_VECTOR_STATUS_INTERRUPTS_ENABLED, cleared, s)
      else if negb (vector_is_dynamic v) then
        (INTERRUPT_VECTOR_STATUS_RESERVED, cleared, s)
      else
        let index := vector_index v in
        if aget false s.(allocated) index then
          (INTERRUPT_VECTOR_STATUS_ALREADY_ALLOCATED, cleared, s)
        else
          let g := next_generation (aget 0 s.(generations) index) in
          (INTERRUPT_VECTOR_STATUS_OK,
           Some (MkAllocation v g true),
           MkVectors (aset s.(allocated) index true)
                     (aset s.(generations) index g)
                     s.(state_capacity)
                     (u64 (s.(state_allocated) + 1))
                     (u64 (s.(state_free) - 1))
                     s.(state_active))
  end.

Definition deactivate (h : interrupt_vector_allocation) :=
  MkAllocation h.(vector) h.(generation) false.

Definition interrupt_vector_allocate (e : vector_env)
    (handle : option interrupt_vector_allocation) (s : vectors)
  : interrupt_vector_status * option interrupt_vector_allocation * vectors :=
  match handle with
  | None => (INTERRUPT_VECTOR_STATUS_NULL_ARGUMENT, None, s)
  | Some h =>
      if negb s.(state_active) then
        (INTERRUPT_VECTOR_STATUS_NOT_INITIALIZED, Some (deactivate h), s)
      else if e.(cpu_interrupts_enabled) then
        (INTERRUPT_VECTOR_STATUS_INTERRUPTS_ENABLED, Some (deactivate h), s)
      else
        match
          for_each (fun v (_ : unit) =>
              if negb (aget false s.(allocated) (vector_index (u8 v))) then
                Return (interrupt_vector_allocate_specific e (u8 v) handle s)
              else Next tt)
            (seqZ INTERRUPT_DYNAMIC_BASE DYNAMIC_VECTOR_COUNT) tt
        with
        | Return r => r
        | Next _ =>
            (INTERRUPT_VECTOR_STATUS_EXHAUSTED,
             Some (MkAllocation 0 0 false), s)
        end
  end.

Definition interrupt_vector_release (e : vector_env)
    (handle : option interrupt_vector_allocation) (s : vectors)
  : interrupt_vector_status * option interrupt_vector_allocation * vectors :=
  match handle with
  | None => (INTERRUPT_VECTOR_STATUS_NULL_ARGUMENT, None, s)
  | Some h =>
      if negb s.(state_active) then
        (INTERRUPT_VECTOR_STATUS_NOT_INITIALIZED, handle, s)
      else if e.(cpu_interrupts_enabled) then
        (INTERRUPT_VECTOR_STATUS_INTERRUPTS_ENABLED, handle, s)
      else if negb (vector_is_dynamic h.(vector)) then
        (INTERRUPT_VECTOR_STATUS_RESERVED, handle, s)
      else
        let index := vector_index h.(vector) in
        if negb h.(active) || negb (aget false s.(allocated) index) then
          (INTERRUPT_VECTOR_STATUS_DOUBLE_RELEASE, handle, s)
        else if negb (aget 0 s.(generations) index =? h.(generation)) then
          (INTERRUPT_VECTOR_STATUS_STALE_ALLOCATION, handle, s)
        else
          (INTERRUPT_VECTOR_STATUS_OK, Some (deactivate h),
           MkVectors (aset s.(allocated) index false) s.(generations)
                     s.(state_capacity)
                     (u64 (s.(state_allocated) - 1))
                     (u64 (s.(state_free) + 1))
                     s.(state_active))
  end.

Definition interrupt_vector_is_allocated (v : Z) (s : vectors) : bool :=
  s.(state_active) && vector_is_dynamic v &&
  aget false s.(allocated) (vector_index v).

(** [r != st] of the self-test's conditions. *)
Definition fails (r st : interrupt_vector_status) : bool :=
  negb (bool_decide (r = st)).

Definition blank : option interrupt_vector_allocation :=
  Some (MkAllocation 0 0 false).

(** The installed self-test.  Its automatic arrays start uninitialised and each
    element is written before it is read; [blank] stands for that content. *)
Definition interrupt_vector_self_test (e : vector_env) (s : vectors)
  : bool * vectors :=
  if negb s.(state_active) || negb (s.(state_allocated) =? 0) ||
     negb (s.(state_free) =? DYNAMIC_VECTOR_COUNT) then (false, s)
  else
  let specific v s := interrupt_vector_allocate_specific e v blank s in
  let '(r, _, s) := specific (u8 (INTERRUPT_LOCAL_APIC_LIMIT - 1)) s in
  if fails r INTERRUPT_VECTOR_STATUS_RESERVED then (false, s) else
  let '(r, _, s) := specific INTERRUPT_UNEXPECTED_TEST_VECTOR s in
  if fails r INTERRUPT_VECTOR_STATUS_RESERVED then (false, s) else
  let '(r, _, s) := specific INTERRUPT_IST_TEST_VECTOR s in
  if fails r INTERRUPT_VECTOR_STATUS_RESERVED then (false, s) else
  let '(r, _, s) := specific APIC_SPURIOUS_VECTOR s in
  if fails r INTERRUPT_VECTOR_STATUS_RESERVED then (false, s) else
  match
    for_each (fun index '(allocations, s) =>
        let '(r, h, s) := interrupt_vector_allocate e blank s in
        let a := default (MkAllocation 0 0 false) h in
        if fails r INTERRUPT_VECTOR_STATUS_OK ||
           negb (a.(vector) =? u8 (INTERRUPT_DYNAMIC_BASE + index)) then
          Return (false, s)
        else Next (aset allocations index a, s))
      (seqZ 0 DYNAMIC_VECTOR_COUNT)
      (replicate (Z.to_nat DYNAMIC_VECTOR_COUNT) (MkAllocation 0 0 false), s)
  with
  | Return r => r
  | Next (allocations, s) =>
      let first := aget (MkAllocation 0 0 false) allocations 0 in
      let '(r, _, s) := interrupt_vector_allocate e blank s in
      if fails r INTERRUPT_VECTOR_STATUS_EXHAUSTED then (false, s) else
      let '(r, h0, s) := interrupt_vector_release e (Some first) s in
      if fails r INTERRUPT_VECTOR_STATUS_OK then (false, s) else
      let '(r, _, s) := interrupt_vector_release e h0 s in
      if fails r INTERRUPT_VECTOR_STATUS_DOUBLE_RELEASE then (false, s) else
      let '(r, extra, s) := specific INTERRUPT_DYNAMIC_BASE s in
      if fails r INTERRUPT_VECTOR_STATUS_OK then (false, s) else
      let '(r, _, s) := interrupt_vector_release e extra s in
      if fails r INTERRUPT_VECTOR_STATUS_OK then (false, s) else
      match
        for_each (fun index s =>
            let h := aget (MkAllocation 0 0 false) allocations index in
            let '(r, _, s) := interrupt_vector_release e (Some h) s in
            if fails r INTERRUPT_VECTOR_STATUS_OK then Return (false, s)
            else Next s)
          (seqZ 1 (DYNAMIC_VECTOR_COUNT - 1)) s
      with
      | Return r => r
      | Next s =>
          ((s.(state_allocated) =? 0) &&
           (s.(state_free) =? DYNAMIC_VECTOR_COUNT), s)
      end
  end.

(** * Invariant and reachable states *)

(** The bookkeeping every operation keeps: table sizes, 32-bit generations, and
    the published counters equal to what the table says. *)
Record wf (s : vectors) : Prop := MkWf {
  wf_allocated : zlength s.(allocated) = DYNAMIC_VECTOR_COUNT;
  wf_generations : zlength s.(generations) = DYNAMIC_VECTOR_COUNT;
  wf_gen_range : forall i, 0 <= i < DYNAMIC_VECTOR_COUNT ->
    is_u32 (aget 0 s.(generations) i);
  wf_counts : s.(state_active) = true ->
    s.(state_capacity) = DYNAMIC_VECTOR_COUNT /\
    s.(state_allocated) = countb id s.(allocated) /\
    s.(state_free) = DYNAMIC_VECTOR_COUNT - s.(state_allocated)
}.

(** One call of the public interface, with any environment and any handle. *)
Inductive step : vectors -> vectors -> Prop :=
| step_initialize e s :
    step s (interrupt_vector_initialize e s).2
| step_allocate_specific e v h s :
    step s (interrupt_vector_allocate_specific e v h s).2
| step_allocate e h s :
    step s (interrupt_vector_allocate e h s).2
| step_release e h s :
    step s (interrupt_vector_release e h s).2.

Definition reachable (s : vectors) : Prop := rtc step vectors_bss s.

Ltac unfold_constants :=
  unfold DYNAMIC_VECTOR_COUNT, INTERRUPT_DYNAMIC_LIMIT, INTERRUPT_DYNAMIC_BASE in *.

Lemma vector_index_dynamic v :
  vector_is_dynamic v = true ->
  vector_index v = v - INTERRUPT_DYNAMIC_BASE /\
  0 <= vector_index v < DYNAMIC_VECTOR_COUNT.
Proof.
  unfold vector_is_dynamic, vector_index. intros H. bool_hyps.
  rewrite u64_small; unfold is_u64, UINT64_MAX; unfold_constants; lia.
Qed.

Lemma vector_index_inj v w :
  vector_is_dynamic v = true -> vector_is_dynamic w = true ->
  vector_index v = vector_index w -> v = w.
Proof.
  intros [Hv _]%vector_index_dynamic [Hw _]%vector_index_dynamic. lia.
Qed.

Lemma next_generation_range g : is_u32 (next_generation g).
Proof. unfold next_generation. split_if; auto with sapote. Qed.

Lemma next_generation_val g :
  is_u32 g -> next_generation g = if g =? UINT32_MAX then 1 else g + 1.
Proof.
  unfold next_generation, is_u32, UINT32_MAX. intros.
  destruct (g =? 4294967295) eqn:E; bool_hyps.
  - by subst.
  - rewrite u32_small by (unfold is_u32, UINT32_MAX; lia).
    destruct (g + 1 =? 0) eqn:E'; bool_hyps; lia.
Qed.

Lemma wf_bss : wf vectors_bss.
Proof.
  split; try done. intros i Hi. unfold vectors_bss. cbn [generations].
  rewrite aget_replicate by done. unfold is_u32, UINT32_MAX. lia.
Qed.

(** The clearing loop of the initialiser is a table of falses and zeros. *)
Lemma initialize_loop al ge :
  zlength al = DYNAMIC_VECTOR_COUNT -> zlength ge = DYNAMIC_VECTOR_COUNT ->
  foldl (fun '(al, ge) index => (aset al index false, aset ge index 0))
    (al, ge) (seqZ 0 DYNAMIC_VECTOR_COUNT) =
  (replicate (Z.to_nat DYNAMIC_VECTOR_COUNT) false,
   replicate (Z.to_nat DYNAMIC_VECTOR_COUNT) 0).
Proof.
  intros Hal Hge.
  assert (forall k, 0 <= k <= DYNAMIC_VECTOR_COUNT ->
    exists al' ge',
      foldl (fun '(al, ge) index => (aset al index false, aset ge index 0))
        (al, ge) (seqZ 0 k) = (al', ge') /\
      zlength al' = DYNAMIC_VECTOR_COUNT /\ zlength ge' = DYNAMIC_VECTOR_COUNT /\
      forall i, 0 <= i < k -> aget false al' i = false /\ aget 0 ge' i = 0)
    as Hloop.
  { intros k Hk. rewrite <- (Z2Nat.id k) in * by lia.
    induction (Z.to_nat k) as [|n IH].
    { exists al, ge. split_and!; try done. intros; lia. }
    destruct IH as (al' & ge' & Heq & Hal' & Hge' & Hi); [lia|].
    rewrite seqZ_S, foldl_app, Heq. simpl.
    do 2 eexists. split; [done|]. rewrite !zlength_aset. do 2 (split; [done|]).
    intros i Hlt. rewrite !aget_aset by lia.
    destruct (0 + Z.of_nat n =? i) eqn:E; bool_hyps; [done|]. apply Hi. lia. }
  destruct (Hloop DYNAMIC_VECTOR_COUNT) as (al' & ge' & -> & Hal' & Hge' & Hi);
    [unfold_constants; lia|].
  f_equal.
  - apply (list_eq_aget false); [done|]. intros i Hlt. rewrite Hal' in Hlt.
    rewrite aget_replicate by done. by apply Hi.
  - apply (list_eq_aget 0); [done|]. intros i Hlt. rewrite Hge' in Hlt.
    rewrite aget_replicate by done. by apply Hi.
Qed.

Lemma initialize_wf e s : wf s -> wf (interrupt_vector_initialize e s).2.
Proof.
  intros Hwf. pose proof Hwf as [Hal Hge Hgr Hc].
  unfold interrupt_vector_initialize.
  repeat (split_if; [exact Hwf|]). rewrite initialize_loop by done.
  split; try done. intros i Hi. cbn [generations snd].
  rewrite aget_replicate by done. unfold is_u32, UINT32_MAX. lia.
Qed.

(** A successful allocation, described from the table. *)
Definition allocated_as (v : Z) (s s' : vectors)
    (h : interrupt_vector_allocation) : Prop :=
  let i := vector_index v in
  vector_is_dynamic v = true /\ s.(state_active) = true /\
  aget false s.(allocated) i = false /\
  h = MkAllocation v (next_generation (aget 0 s.(generations) i)) true /\
  s' = MkVectors (aset s.(allocated) i true)
         (aset s.(generations) i h.(generation))
         s.(state_capacity) (u64 (s.(state_allocated) + 1))
         (u64 (s.(state_free) - 1)) s.(state_active).

Lemma allocate_specific_cases e v h s :
  let '(r, h', s') := interrupt_vector_allocate_specific e v h s in
  (r = INTERRUPT_VECTOR_STATUS_OK /\ exists a, h' = Some a /\ allocated_as v s s' a)
  \/ (r <> INTERRUPT_VECTOR_STATUS_OK /\ s' = s /\
      forall a, h' = Some a -> a.(active) = false).
Proof.
  unfold interrupt_vector_allocate_specific. destruct h as [h|]; [|by right].
  repeat (split_if; [right; split; [done|split; [done|]]; by intros ? [= <-]|]).
  left. split; [done|]. bool_hyps. eexists. split; [done|].
  unfold allocated_as. repeat split; done.
Qed.

Lemma allocate_specific_free e v h s :
  s.(state_active) = true -> e.(cpu_interrupts_enabled) = false ->
  vector_is_dynamic v = true -> aget false s.(allocated) (vector_index v) = false ->
  exists a s', interrupt_vector_allocate_specific e v (Some h) s =
    (INTERRUPT_VECTOR_STATUS_OK, Some a, s') /\ allocated_as v s s' a.
Proof.
  intros Hact Hif Hd Hfree. unfold interrupt_vector_allocate_specific.
  rewrite Hact, Hif, Hd, Hfree. cbn [negb]. do 2 eexists. split; [done|].
  unfold allocated_as. by rewrite Hact.
Qed.

Lemma u8_dynamic w :
  INTERRUPT_DYNAMIC_BASE <= w < INTERRUPT_DYNAMIC_LIMIT ->
  u8 w = w /\ vector_is_dynamic w = true.
Proof.
  intros Hw. split; [apply Z.mod_small; unfold_constants; lia|].
  unfold vector_is_dynamic. rewrite Z.geb_leb. apply andb_true_iff. lia.
Qed.

(** What [interrupt_vector_allocate] does once its guards have passed. *)
Lemma allocate_active_cases e h s :
  s.(state_active) = true -> e.(cpu_interrupts_enabled) = false ->
  (exists v a s', interrupt_vector_allocate e (Some h) s =
      (INTERRUPT_VECTOR_STATUS_OK, Some a, s') /\ allocated_as v s s' a /\
     forall w, INTERRUPT_DYNAMIC_BASE <= w < v ->
       aget false s.(allocated) (vector_index w) = true)
  \/ (interrupt_vector_allocate e (Some h) s =
      (INTERRUPT_VECTOR_STATUS_EXHAUSTED, Some (MkAllocation 0 0 false), s) /\
      forall w, INTERRUPT_DYNAMIC_BASE <= w < INTERRUPT_DYNAMIC_LIMIT ->
        aget false s.(allocated) (vector_index w) = true).
Proof.
  intros Hact Hif. unfold interrupt_vector_allocate. rewrite Hact, Hif. cbn [negb].
  rewrite (for_each_scan
    (fun v => negb (aget false s.(allocated) (vector_index (u8 v))))).
  assert (INTERRUPT_DYNAMIC_BASE + DYNAMIC_VECTOR_COUNT = INTERRUPT_DYNAMIC_LIMIT)
    as Hlim by done.
  destruct (List.find _ _) as [v|] eqn:E.
  - apply find_seqZ_Some in E as (Hv & Hfree & Hlow). rewrite Hlim in Hv. left.
    destruct (u8_dynamic v Hv) as [Hu Hd]. rewrite Hu in *. bool_hyps.
    destruct (allocate_specific_free e v h s) as (a & s' & -> & Ha); try done.
    exists v, a, s'. split_and!; [done..|]. intros w Hw.
    specialize (Hlow w ltac:(lia)). bool_hyps.
    destruct (u8_dynamic w ltac:(lia)) as [Hu' _]. by rewrite Hu' in Hlow.
  - right. split; [done|]. intros w Hw.
    pose proof (proj1 (find_seqZ_None _ _ _) E w ltac:(lia)) as Hx. cbv beta in Hx.
    destruct (u8_dynamic w Hw) as [Hu _]. rewrite Hu in Hx. by bool_hyps.
Qed.

Lemma allocate_cases e h s :
  let '(r, h', s') := interrupt_vector_allocate e h s in
  (r = INTERRUPT_VECTOR_STATUS_OK /\ exists v a, h' = Some a /\ allocated_as v s s' a)
  \/ (r <> INTERRUPT_VECTOR_STATUS_OK /\ s' = s).
Proof.
  destruct h as [h|]; [|by right].
  destruct (s.(state_active)) eqn:Hact.
  2: { unfold interrupt_vector_allocate. rewrite Hact. by right. }
  destruct (e.(cpu_interrupts_enabled)) eqn:Hif.
  { unfold interrupt_vector_allocate. rewrite Hact, Hif. by right. }
  destruct (allocate_active_cases e h s Hact Hif) as
    [(v & a & s' & -> & Ha & _)|[-> _]]; [left; eauto 10|by right].
Qed.

Lemma allocated_as_wf v s s' h : wf s -> allocated_as v s s' h -> wf s'.
Proof.
  intros [Hal Hge Hgr Hc] (Hd & Hact & Hfree & -> & ->).
  destruct (vector_index_dynamic v Hd) as [_ Hi]. destruct (Hc Hact) as (Hcap & Hn & Hf).
  split; simpl.
  - by rewrite zlength_aset.
  - by rewrite zlength_aset.
  - intros i Hlt. rewrite aget_aset by lia. split_if; [|by apply Hgr].
    apply next_generation_range.
  - intros _. pose proof (countb_nonneg id s.(allocated)).
    pose proof (countb_le_length id (aset s.(allocated) (vector_index v) true)) as Hle.
    rewrite zlength_aset in Hle. rewrite (countb_aset false) in * by lia.
    rewrite Hfree in *. simpl in *. unfold_constants.
    rewrite !u64_small by (unfold is_u64, UINT64_MAX; lia). lia.
Qed.

(** A successful release, described from the table. *)
Definition released_as (s s' : vectors) (h : interrupt_vector_allocation) : Prop :=
  let i := vector_index h.(vector) in
  vector_is_dynamic h.(vector) = true /\ s.(state_active) = true /\
  h.(active) = true /\ aget false s.(allocated) i = true /\
  aget 0 s.(generations) i = h.(generation) /\
  s' = MkVectors (aset s.(allocated) i false) s.(generations)
         s.(state_capacity) (u64 (s.(state_allocated) - 1))
         (u64 (s.(state_free) + 1)) s.(state_active).

Lemma release_cases e h s :
  let '(r, h', s') := interrupt_vector_release e h s in
  (r = INTERRUPT_VECTOR_STATUS_OK /\
     exists a, h = Some a /\ h' = Some (deactivate a) /\ released_as s s' a)
  \/ (r <> INTERRUPT_VECTOR_STATUS_OK /\ s' = s /\ h' = h).
Proof.
  unfold interrupt_vector_release. destruct h as [h|]; [|by right].
  repeat (split_if; [by right|]). left. split; [done|]. bool_hyps.
  exists h. unfold released_as. split_and!; done.
Qed.

Lemma released_as_wf s s' h : wf s -> released_as s s' h -> wf s'.
Proof.
  intros [Hal Hge Hgr Hc] (Hd & Hact & _ & Hused & _ & ->).
  destruct (vector_index_dynamic _ Hd) as [_ Hi]. destruct (Hc Hact) as (Hcap & Hn & Hf).
  split; simpl; try done.
  - by rewrite zlength_aset.
  - intros _. pose proof (countb_nonneg id (aset s.(allocated) (vector_index (vector h)) false)).
    pose proof (countb_le_length id s.(allocated)).
    rewrite (countb_aset false) in * by lia.
    rewrite Hused in *. simpl in *. unfold_constants.
    rewrite !u64_small by (unfold is_u64, UINT64_MAX; lia). lia.
Qed.

Lemma step_wf s s' : step s s' -> wf s -> wf s'.
Proof.
  intros [e s1|e v h s1|e h s1|e h s1] Hwf.
  - by apply initialize_wf.
  - pose proof (allocate_specific_cases e v h s1) as H.
    destruct (interrupt_vector_allocate_specific _ _ _ _) as [[r h'] s2].
    destruct H as [(_ & a & _ & Ha)|(_ & -> & _)]; [|done].
    by apply allocated_as_wf in Ha.
  - pose proof (allocate_cases e h s1) as H.
    destruct (interrupt_vector_allocate _ _ _) as [[r h'] s2].
    destruct H as [(_ & v & a & _ & Ha)|(_ & ->)]; [|done].
    by apply allocated_as_wf in Ha.
  - pose proof (release_cases e h s1) as H.
    destruct (interrupt_vector_release _ _ _) as [[r h'] s2].
    destruct H as [(_ & a & _ & _ & Ha)|(_ & -> & _)]; [|done].
    by apply released_as_wf in Ha.
Qed.

Lemma reachable_wf_aux s : reachable s -> wf s.
Proof.
  intros Hr. unfold reachable in Hr. revert Hr. generalize wf_bss.
  intros H0 Hr. induction Hr; eauto using step_wf.
Qed.

(** * Generations over a history *)

(** The generation of a vector after [k] further allocations of it. *)
Fixpoint generation_after (k : nat) (g : Z) : Z :=
  match k with O => g | S k => generation_after k (next_generation g) end.

Lemma generation_after_val k g :
  1 <= g <= UINT32_MAX ->
  generation_after k g = (g - 1 + Z.of_nat k) mod UINT32_MAX + 1.
Proof.
  revert g. induction k as [|k IH]; intros g Hg; cbn [generation_after].
  - rewrite Z.mod_small; unfold UINT32_MAX in *; lia.
  - rewrite next_generation_val by (unfold is_u32; lia).
    destruct (g =? UINT32_MAX) eqn:E; bool_hyps.
    + rewrite IH by (unfold UINT32_MAX; lia). subst g.
      replace (UINT32_MAX - 1 + Z.of_nat (S k))
        with (Z.of_nat k + 1 * UINT32_MAX) by lia.
      rewrite Z.mod_add by done.
      by replace (1 - 1 + Z.of_nat k) with (Z.of_nat k) by lia.
    + rewrite IH by (unfold UINT32_MAX in *; lia).
      by replace (g + 1 - 1 + Z.of_nat k) with (g - 1 + Z.of_nat (S k)) by lia.
Qed.

Lemma generation_after_fresh k g :
  1 <= g <= UINT32_MAX -> 0 < Z.of_nat k < UINT32_MAX ->
  generation_after k g <> g.
Proof.
  intros Hg Hk. rewrite generation_after_val by done. intros Heq.
  assert ((g - 1 + Z.of_nat k) mod UINT32_MAX = (g - 1) mod UINT32_MAX) as Hm.
  { rewrite (Z.mod_small (g - 1)) by lia. lia. }
  assert (Z.of_nat k mod UINT32_MAX = 0) as Hz.
  { replace (Z.of_nat k) with (g - 1 + Z.of_nat k - (g - 1)) by lia.
    rewrite Zminus_mod, Hm, Z.sub_diag. done. }
  rewrite Z.mod_small in Hz by lia. lia.
Qed.

(** A history of calls in which vector [v] was allocated [k] times and the
    allocator was not started over. *)
Inductive history (v : Z) : nat -> vectors -> vectors -> Prop :=
| history_refl s : history v 0 s s
| history_allocate k w s s1 s2 h :
    history v k s s1 -> allocated_as w s1 s2 h ->
    history v (if w =? v then S k else k) s s2
| history_release k s s1 s2 h :
    history v k s s1 -> released_as s1 s2 h -> history v k s s2.

Lemma history_generation v k s s' :
  wf s -> vector_is_dynamic v = true -> history v k s s' ->
  wf s' /\
  aget 0 s'.(generations) (vector_index v) =
  generation_after k (aget 0 s.(generations) (vector_index v)).
Proof.
  intros Hwf Hd. induction 1 as [s|k w s s1 s2 h Hh IH Ha|k s s1 s2 h Hh IH Hr].
  - done.
  - destruct (IH Hwf) as [Hwf1 Hg1]. split; [by eapply allocated_as_wf|].
    destruct Hwf1 as [Hal Hge _ _].
    destruct Ha as (Hdw & _ & _ & -> & ->). simpl.
    destruct (vector_index_dynamic w Hdw) as [_ Hw].
    destruct (vector_index_dynamic v Hd) as [_ Hv].
    rewrite aget_aset by lia. destruct (w =? v) eqn:E; bool_hyps.
    + subst. rewrite Z.eqb_refl, Hg1. clear.
      generalize (aget 0 (generations s) (vector_index v)).
      induction k as [|k IH]; intros g; [done|]. apply IH.
    + destruct (vector_index w =? vector_index v) eqn:E'; bool_hyps; [|done].
      apply vector_index_inj in E'; done.
  - destruct (IH Hwf) as [Hwf1 Hg1]. split; [by eapply released_as_wf|].
    by destruct Hr as (_ & _ & _ & _ & _ & ->).
Qed.

(** * Properties *)

(** Every state reachable through the public interface is well formed: the
    tables keep their size, the published counters are the number of allocated
    and of free vectors, and no counter ever wraps. *)
Theorem vectors_reachable_wf s : reachable s -> wf s.
Proof. apply reachable_wf_aux. Qed.

Definition quiet : vector_env := MkEnv true true false.

Lemma vectors_reachable_wf_witness :
  wf (interrupt_vector_allocate quiet blank
        (interrupt_vector_initialize quiet vectors_bss).2).2.
Proof.
  apply (vectors_reachable_wf _).
  eapply rtc_l; [apply (step_initialize quiet)|].
  eapply rtc_l; [apply (step_allocate quiet blank)|]. apply rtc_refl.
Defined.

(** With interrupts off, [interrupt_vector_allocate] on a started allocator
    succeeds exactly when a dynamic vector is free, and then hands out the lowest
    one: it lies in [0x90, 0xF0), was free, becomes allocated under a non-zero
    generation, and no other vector changes.  Otherwise the answer is EXHAUSTED
    and nothing changes. *)
Theorem vector_allocate_lowest_free e h s :
  wf s -> s.(state_active) = true -> e.(cpu_interrupts_enabled) = false ->
  match interrupt_vector_allocate e (Some h) s with
  | (INTERRUPT_VECTOR_STATUS_OK, Some a, s') =>
      vector_is_dynamic a.(vector) = true /\ a.(active) = true /\
      a.(generation) <> 0 /\
      interrupt_vector_is_allocated a.(vector) s = false /\
      interrupt_vector_is_allocated a.(vector) s' = true /\
      (forall w, INTERRUPT_DYNAMIC_BASE <= w < a.(vector) ->
         interrupt_vector_is_allocated w s = true) /\
      (forall w, w <> a.(vector) ->
         interrupt_vector_is_allocated w s' = interrupt_vector_is_allocated w s)
  | (INTERRUPT_VECTOR_STATUS_EXHAUSTED, Some a, s') =>
      a.(active) = false /\ s' = s /\
      forall w, vector_is_dynamic w = true -> interrupt_vector_is_allocated w s = true
  | _ => False
  end.
Proof.
  intros Hwf Hact Hif. unfold interrupt_vector_is_allocated.
  destruct (allocate_active_cases e h s Hact Hif) as
    [(v & a & s' & -> & Ha & Hlow)|[-> Hall]].
  - destruct Ha as (Hd & _ & Hfree & -> & ->). cbn.
    destruct Hwf as [Hal Hge Hgr _]. destruct (vector_index_dynamic v Hd) as [_ Hi].
    rewrite Hact, Hd, Hfree. cbn. split_and!; try done.
    + rewrite next_generation_val by auto. split_if; [done|].
      specialize (Hgr _ Hi). unfold is_u32 in Hgr. lia.
    + by rewrite aget_aset_eq by lia.
    + intros w Hw. rewrite Hlow by done. unfold vector_is_dynamic in Hd. bool_hyps.
      destruct (u8_dynamic w ltac:(lia)) as [_ ->]. done.
    + intros w Hw. destruct (vector_is_dynamic w) eqn:Hdw; [|done]. cbn.
      destruct (vector_index_dynamic w Hdw) as [_ Hwi]. rewrite aget_aset by lia.
      destruct (vector_index v =? vector_index w) eqn:E; bool_hyps; [|done].
      apply vector_index_inj in E; [congruence|done..].
  - split_and!; [done..|]. intros w Hd. rewrite Hact, Hd, Hall; [done|].
    unfold vector_is_dynamic in Hd. bool_hyps. lia.
Qed.

Lemma vector_allocate_lowest_free_witness :
  let s := (interrupt_vector_initialize quiet vectors_bss).2 in
  exists a s', interrupt_vector_allocate quiet blank s =
    (INTERRUPT_VECTOR_STATUS_OK, Some a, s') /\
    interrupt_vector_is_allocated a.(vector) s' = true.
Proof.
  set (s := (interrupt_vector_initialize quiet vectors_bss).2).
  assert (wf s) as Hwf by (apply initialize_wf, wf_bss).
  pose proof (vector_allocate_lowest_free quiet (MkAllocation 0 0 false) s
                Hwf eq_refl eq_refl) as H.
  fold blank in H.
  destruct (interrupt_vector_allocate quiet blank s) as [[r [a|]] s'] eqn:E;
    destruct r; try (exfalso; exact H); [|vm_compute in E; discriminate].
  exists a, s'. split; [exact E|]. apply H.
Defined.

(** A handle is accepted by [interrupt_vector_release] exactly while it is
    live.  Whatever sequence of allocations and releases follows its issue, as
    long as its vector was not re-issued a multiple of 2^32 - 1 times: the
    release succeeds if the vector is still held under this handle, is refused
    as DOUBLE_RELEASE if the vector is free, and as STALE_ALLOCATION if the
    vector now belongs to a later handle; a refusal changes nothing. *)
Theorem vector_release_exact e v k h s0 s1 s2 :
  wf s0 -> e.(cpu_interrupts_enabled) = false ->
  allocated_as v s0 s1 h -> history v k s1 s2 -> Z.of_nat k < UINT32_MAX ->
  let r := interrupt_vector_release e (Some h) s2 in
  if interrupt_vector_is_allocated v s2 then
    match k with
    | O => r.1.1 = INTERRUPT_VECTOR_STATUS_OK /\
           interrupt_vector_is_allocated v r.2 = false
    | S _ => r = (INTERRUPT_VECTOR_STATUS_STALE_ALLOCATION, Some h, s2)
    end
  else r = (INTERRUPT_VECTOR_STATUS_DOUBLE_RELEASE, Some h, s2).
Proof.
  intros Hwf Hif Ha Hh Hk r. subst r.
  pose proof (allocated_as_wf _ _ _ _ Hwf Ha) as Hwf1.
  destruct Ha as (Hd & Hact & Hfree & -> & ->).
  destruct (history_generation v k _ _ Hwf1 Hd Hh) as [Hwf2 Hg].
  assert (s2.(state_active) = true) as Hact2.
  { clear -Hh Hact. remember (MkVectors _ _ _ _ _ _) as s1 eqn:E in Hh.
    induction Hh as [s|k w s s1 s2 h Hh IH Ha|k s s1 s2 h Hh IH Hr];
      [by subst|..]; specialize (IH E).
    - by destruct Ha as (_ & _ & _ & -> & ->).
    - by destruct Hr as (_ & _ & _ & _ & _ & ->). }
  destruct Hwf as [Hal Hge Hgr _]. destruct (vector_index_dynamic v Hd) as [_ Hi].
  cbn in Hg. rewrite aget_aset_eq in Hg by lia.
  set (g := next_generation (aget 0 (generations s0) (vector_index v))) in *.
  assert (1 <= g <= UINT32_MAX) as Hgpos.
  { specialize (Hgr _ Hi). subst g. rewrite next_generation_val by done.
    unfold is_u32 in *. split_if; bool_hyps; unfold UINT32_MAX in *; lia. }
  unfold interrupt_vector_release, interrupt_vector_is_allocated. cbn.
  rewrite Hact2, Hif, Hd. cbn.
  destruct (aget false (allocated s2) (vector_index v)) eqn:Hused; cbn; [|done].
  destruct k as [|k].
  - cbn in Hg. rewrite Hg, Z.eqb_refl. cbn. rewrite ?Hd. cbn.
    split; [done|]. destruct Hwf2 as [Hal2 _ _ _]. by rewrite aget_aset_eq by lia.
  - pose proof (generation_after_fresh (S k) g Hgpos ltac:(lia)) as Hne.
    rewrite Hg, (proj2 (Z.eqb_neq _ _)) by done. done.
Qed.

Lemma vector_release_exact_witness :
  exists h s2,
    interrupt_vector_release quiet (Some h) s2 =
      (INTERRUPT_VECTOR_STATUS_STALE_ALLOCATION, Some h, s2).
Proof.
  set (s0 := (interrupt_vector_initialize quiet vectors_bss).2).
  assert (wf s0) as Hwf by (apply initialize_wf, wf_bss).
  destruct (allocate_specific_free quiet 144 (MkAllocation 0 0 false) s0)
    as (h1 & s1 & E1 & A1); [reflexivity..|].
  assert (released_as s1 (interrupt_vector_release quiet (Some h1) s1).2 h1) as R1.
  { vm_compute in E1. injection E1 as <- <-. repeat split. }
  set (s2 := (interrupt_vector_release quiet (Some h1) s1).2) in *.
  destruct (allocate_specific_free quiet 144 (MkAllocation 0 0 false) s2)
    as (h3 & s3 & E3 & A3).
  1-4: subst s2; vm_compute in E1; injection E1 as <- <-; reflexivity.
  exists h1, s3.
  pose proof (vector_release_exact quiet 144 1 h1 s0 s1 s3 Hwf eq_refl A1) as H.
  cbv zeta in H.
  assert (interrupt_vector_is_allocated 144 s3 = true) as Hal.
  { subst s2. vm_compute in E1. injection E1 as <- <-.
    vm_compute in E3. injection E3 as <- <-. reflexivity. }
  rewrite Hal in H. apply H; [|reflexivity].
  apply (history_allocate 144 0 144 s1 s2 s3 h3); [|exact A3].
  apply (history_release 144 0 s1 s1 s2 h1); [constructor|exact R1].
Defined.

(** The repository's own self-test succeeds on the model and gives back every
    vector it took. *)
Example vector_self_test_passes :
  (fun r => (r.1, r.2.(state_allocated), r.2.(allocated)))
    (interrupt_vector_self_test quiet (interrupt_vector_initialize quiet vectors_bss).2)
  = (true, 0, replicate 96 false).
Proof. vm_compute. reflexivity. Qed.

End InterruptVector.
