(* ===== verification/Multiboot2.v ===== *)
(** The Multiboot2 information parser: src/src/kernel/multiboot2.c.

    Physical memory is a function from addresses to byte values; pointers into
    the information block are the addresses themselves ([None] is NULL).  The
    packed structures of include/sapote/boot.h are little-endian loads at their
    field offsets.  [boot_information_parse] walks the tags with fuel
    [total_size / 8 + 1], one more than the number of tags a block can hold. *)
From S2P Require Import Prelude.

Module Multiboot2.

Definition memory : Type := Z -> Z.

Definition MULTIBOOT2_BOOT_MAGIC : Z := 0x36D76289.
Definition MULTIBOOT2_TAG_ALIGNMENT : Z := 8.
Definition MULTIBOOT2_MAX_INFORMATION_SIZE : Z := 16 * 1024 * 1024.
Definition SAPOTE_EARLY_PHYSICAL_LIMIT : Z := 0x100000000.
Definition ACPI_RSDP_V1_SIZE : Z := 20.
Definition ACPI_RSDP_V2_SIZE : Z := 36.
Definition MULTIBOOT2_FRAMEBUFFER_COMMON_SIZE : Z := 32.
Definition MULTIBOOT2_FRAMEBUFFER_RGB_SIZE : Z := 38.
Definition MULTIBOOT2_FRAMEBUFFER_TYPE_RGB : Z := 1.
Definition BOOT_FRAMEBUFFER_BITS_PER_PIXEL : Z := 32.
Definition BOOT_FRAMEBUFFER_BYTES_PER_PIXEL : Z := 4.

Definition MULTIBOOT2_TAG_END : Z := 0.
Definition MULTIBOOT2_TAG_COMMAND_LINE : Z := 1.
Definition MULTIBOOT2_TAG_BOOT_LOADER_NAME : Z := 2.
Definition MULTIBOOT2_TAG_MODULE : Z := 3.
Definition MULTIBOOT2_TAG_MEMORY_MAP : Z := 6.
Definition MULTIBOOT2_TAG_FRAMEBUFFER : Z := 8.
Definition MULTIBOOT2_TAG_ACPI_OLD : Z := 14.
Definition MULTIBOOT2_TAG_ACPI_NEW : Z := 15.
Definition MULTIBOOT2_MEMORY_AVAILABLE : Z := 1.

(** Sizes of the packed structures. *)
Definition sizeof_information_header : Z := 8.
Definition sizeof_tag : Z := 8.
Definition sizeof_memory_map_tag : Z := 16.
Definition sizeof_memory_map_entry : Z := 24.
Definition sizeof_acpi_tag : Z := 8.

Inductive boot_status : Type :=
| BOOT_STATUS_OK
| BOOT_STATUS_NULL_CONTEXT
| BOOT_STATUS_BAD_MAGIC
| BOOT_STATUS_NULL_INFORMATION
| BOOT_STATUS_MISALIGNED_INFORMATION
| BOOT_STATUS_INFORMATION_TOO_SMALL
| BOOT_STATUS_INFORMATION_TOO_LARGE
| BOOT_STATUS_INFORMATION_SIZE_MISALIGNED
| BOOT_STATUS_INFORMATION_OVERFLOW
| BOOT_STATUS_RESERVED_FIELD_NONZERO
| BOOT_STATUS_TRUNCATED_TAG
| BOOT_STATUS_TAG_TOO_SMALL
| BOOT_STATUS_TAG_OVERFLOW
| BOOT_STATUS_DUPLICATE_MEMORY_MAP
| BOOT_STATUS_MEMORY_MAP_TOO_SMALL
| BOOT_STATUS_MEMORY_ENTRY_TOO_SMALL
| BOOT_STATUS_MEMORY_ENTRY_VERSION
| BOOT_STATUS_MEMORY_MAP_REMAINDER
| BOOT_STATUS_MEMORY_REGION_OVERFLOW
| BOOT_STATUS_UNSUPPORTED_MODULE
| BOOT_STATUS_STRING_NOT_TERMINATED
| BOOT_STATUS_ACPI_TAG_TOO_SMALL
| BOOT_STATUS_DUPLICATE_ACPI_TAG
| BOOT_STATUS_BAD_END_TAG
| BOOT_STATUS_MISSING_END_TAG
| BOOT_STATUS_MISSING_MEMORY_MAP
| BOOT_STATUS_DUPLICATE_FRAMEBUFFER
| BOOT_STATUS_FRAMEBUFFER_TAG_TOO_SMALL
| BOOT_STATUS_FRAMEBUFFER_NOT_DIRECT_COLOUR
| BOOT_STATUS_BAD_FRAMEBUFFER_DEPTH
| BOOT_STATUS_BAD_FRAMEBUFFER_GEOMETRY
| BOOT_STATUS_BAD_FRAMEBUFFER_PITCH
| BOOT_STATUS_BAD_FRAMEBUFFER_ADDRESS
| BOOT_STATUS_BAD_FRAMEBUFFER_CHANNEL
| BOOT_STATUS_FRAMEBUFFER_OUTSIDE_EARLY_MAP.

#[export] Instance boot_status_eq_dec : EqDecision boot_status.
Proof. solve_decision. Defined.

Record boot_framebuffer : Type := MkFramebuffer {
  fb_address : Z;
  fb_pitch : Z;
  fb_width : Z;
  fb_height : Z;
  fb_size : Z;
  fb_bits_per_pixel : Z;
  fb_red_position : Z;
  fb_green_position : Z;
  fb_blue_position : Z;
  fb_present : bool
}.

Record boot_memory_region : Type := MkRegion {
  base_address : Z;
  region_length : Z;
  region_type : Z
}.

Record boot_information : Type := MkInformation {
  information_start : Z;
  information_end : Z;
  memory_map : option Z;
  acpi_old : option Z;
  acpi_new : option Z;
  boot_loader_name : option Z;
  command_line : option Z;
  boot_loader_name_length : Z;
  command_line_length : Z;
  memory_map_entry_count : Z;
  reported_usable_bytes : Z;
  highest_reported_address : Z;
  framebuffer : boot_framebuffer
}.

(** Field updates of the context. *)
Definition with_block (c : boot_information) (s e : Z) :=
  MkInformation s e c.(memory_map) c.(acpi_old) c.(acpi_new) c.(boot_loader_name)
    c.(command_line) c.(boot_loader_name_length) c.(command_line_length)
    c.(memory_map_entry_count) c.(reported_usable_bytes)
    c.(highest_reported_address) c.(framebuffer).
Definition with_memory_map (c : boot_information) (map : option Z) (n : Z) :=
  MkInformation c.(information_start) c.(information_end) map c.(acpi_old)
    c.(acpi_new) c.(boot_loader_name) c.(command_line)
    c.(boot_loader_name_length) c.(command_line_length) n
    c.(reported_usable_bytes) c.(highest_reported_address) c.(framebuffer).
Definition with_totals (c : boot_information) (usable highest : Z) :=
  MkInformation c.(information_start) c.(information_end) c.(memory_map)
    c.(acpi_old) c.(acpi_new) c.(boot_loader_name) c.(command_line)
    c.(boot_loader_name_length) c.(command_line_length)
    c.(memory_map_entry_count) usable highest c.(framebuffer).
Definition with_acpi (c : boot_information) (old new : option Z) :=
  MkInformation c.(information_start) c.(information_end) c.(memory_map) old new
    c.(boot_loader_name) c.(command_line) c.(boot_loader_name_length)
    c.(command_line_length) c.(memory_map_entry_count)
    c.(reported_usable_bytes) c.(highest_reported_address) c.(framebuffer).
Definition with_framebuffer (c : boot_information) (fb : boot_framebuffer) :=
  MkInformation c.(information_start) c.(information_end) c.(memory_map)
    c.(acpi_old) c.(acpi_new) c.(boot_loader_name) c.(command_line)
    c.(boot_loader_name_length) c.(command_line_length)
    c.(memory_map_entry_count) c.(reported_usable_bytes)
    c.(highest_reported_address) fb.
Definition with_loader_name (c : boot_information) (p : option Z) (n : Z) :=
  MkInformation c.(information_start) c.(information_end) c.(memory_map)
    c.(acpi_old) c.(acpi_new) p c.(command_line) n c.(command_line_length)
    c.(memory_map_entry_count) c.(reported_usable_bytes)
    c.(highest_reported_address) c.(framebuffer).
Definition with_command_line (c : boot_information) (p : option Z) (n : Z) :=
  MkInformation c.(information_start) c.(information_end) c.(memory_map)
    c.(acpi_old) c.(acpi_new) c.(boot_loader_name) p
    c.(boot_loader_name_length) n c.(memory_map_entry_count)
    c.(reported_usable_bytes) c.(highest_reported_address) c.(framebuffer).

Definition range_fits (offset length total : Z) : bool :=
  (offset <=? total) && (length <=? u64 (total - offset)).

Definition align_tag_size (size : Z) : Z :=
  let mask := MULTIBOOT2_TAG_ALIGNMENT - 1 in
  Z.land (u64 (size + mask)) (not64 mask).

Definition boot_information_reset : boot_information :=
  MkInformation 0 0 None None None None None 0 0 0 0 0
    (MkFramebuffer 0 0 0 0 0 0 0 0 0 false).

(** One byte, and the little-endian loads of read_u32 and read_u64. *)
Definition byte_at (m : memory) (a : Z) : Z := u8 (m a).

Definition read_u32 (m : memory) (a : Z) : Z :=
  Z.lor (Z.lor (Z.lor (byte_at m a) (Z.shiftl (byte_at m (a + 1)) 8))
    (Z.shiftl (byte_at m (a + 2)) 16)) (Z.shiftl (byte_at m (a + 3)) 24).

Definition read_u64 (m : memory) (a : Z) : Z :=
  Z.lor (read_u32 m a) (Z.shiftl (read_u32 m (a + 4)) 32).

(** The fields of a tag at address [a]. *)
Definition tag_type (m : memory) (a : Z) : Z := read_u32 m a.
Definition tag_size (m : memory) (a : Z) : Z := read_u32 m (a + 4).
Definition map_entry_size (m : memory) (a : Z) : Z := read_u32 m (a + 8).
Definition map_entry_version (m : memory) (a : Z) : Z := read_u32 m (a + 12).

Definition string_length_within (m : memory) (tag size : Z) : option Z :=
  let header_size := sizeof_tag in
  if size <=? header_size then None
  else
    match
      for_each (fun index (_ : unit) =>
          if byte_at m (tag + index) =? 0 then Return (index - header_size)
          else Next tt)
        (seqZ header_size (size - header_size)) tt
    with
    | Return n => Some n
    | Next _ => None
    end.

Definition boot_information_region_at (m : memory) (c : boot_information)
    (index : Z) : option boot_memory_region :=
  match c.(memory_map) with
  | None => None
  | Some map =>
      if index >=? c.(memory_map_entry_count) then None
      else
        let entry :=
          u64 (map + sizeof_memory_map_tag + u64 (index * map_entry_size m map)) in
        Some (MkRegion (read_u64 m entry) (read_u64 m (entry + 8))
                (read_u32 m (entry + 16)))
  end.

(** The loop body of validate_memory_map: one region of the map. *)
Definition account_region (m : memory) (index : Z) (c : boot_information)
  : ctl boot_information (boot_status * boot_information) :=
  match boot_information_region_at m c index with
  | None => Return (BOOT_STATUS_TRUNCATED_TAG, c)
  | Some region =>
      if region.(region_length) >? u64 (UINT64_MAX - region.(base_address)) then
        Return (BOOT_STATUS_MEMORY_REGION_OVERFLOW, c)
      else
        let region_end := u64 (region.(base_address) + region.(region_length)) in
        let highest :=
          if region_end >? c.(highest_reported_address) then region_end
          else c.(highest_reported_address) in
        let usable :=
          if region.(region_type) =? MULTIBOOT2_MEMORY_AVAILABLE then
            if region.(region_length) >?
               u64 (UINT64_MAX - c.(reported_usable_bytes)) then UINT64_MAX
            else u64 (c.(reported_usable_bytes) + region.(region_length))
          else c.(reported_usable_bytes) in
        Next (with_totals c usable highest)
  end.

Definition validate_memory_map (m : memory) (map : Z) (c : boot_information)
  : boot_status * boot_information :=
  if tag_size m map <? sizeof_memory_map_tag then
    (BOOT_STATUS_MEMORY_MAP_TOO_SMALL, c)
  else if map_entry_size m map <? sizeof_memory_map_entry then
    (BOOT_STATUS_MEMORY_ENTRY_TOO_SMALL, c)
  else if negb (map_entry_version m map =? 0) then
    (BOOT_STATUS_MEMORY_ENTRY_VERSION, c)
  else
    let payload_size := u64 (tag_size m map - sizeof_memory_map_tag) in
    if negb (payload_size mod map_entry_size m map =? 0) then
      (BOOT_STATUS_MEMORY_MAP_REMAINDER, c)
    else
      let entry_count := payload_size / map_entry_size m map in
      let c := with_memory_map c (Some map) entry_count in
      match for_each (account_region m) (seqZ 0 entry_count) c
      with
      | Return r => r
      | Next c => (BOOT_STATUS_OK, c)
      end.

(** One colour channel: a whole byte at a byte boundary of the pixel. *)
Definition channel_bad (position mask_size : Z) : bool :=
  negb (mask_size =? 8) || negb (position mod 8 =? 0) ||
  (position >=? BOOT_FRAMEBUFFER_BITS_PER_PIXEL).

Definition decode_framebuffer (m : memory) (tag : Z) (fb : boot_framebuffer)
  : boot_status * boot_framebuffer :=
  if tag_size m tag <? MULTIBOOT2_FRAMEBUFFER_COMMON_SIZE then
    (BOOT_STATUS_FRAMEBUFFER_TAG_TOO_SMALL, fb)
  else
  let address := read_u64 m (tag + 8) in
  let pitch := read_u32 m (tag + 16) in
  let width := read_u32 m (tag + 20) in
  let height := read_u32 m (tag + 24) in
  let depth := byte_at m (tag + 28) in
  let kind := byte_at m (tag + 29) in
  if negb (kind =? MULTIBOOT2_FRAMEBUFFER_TYPE_RGB) then
    (BOOT_STATUS_FRAMEBUFFER_NOT_DIRECT_COLOUR, fb)
  else if tag_size m tag <? MULTIBOOT2_FRAMEBUFFER_RGB_SIZE then
    (BOOT_STATUS_FRAMEBUFFER_TAG_TOO_SMALL, fb)
  else if negb (depth =? BOOT_FRAMEBUFFER_BITS_PER_PIXEL) then
    (BOOT_STATUS_BAD_FRAMEBUFFER_DEPTH, fb)
  else if (width =? 0) || (height =? 0) then
    (BOOT_STATUS_BAD_FRAMEBUFFER_GEOMETRY, fb)
  else if (pitch <? u64 (width * BOOT_FRAMEBUFFER_BYTES_PER_PIXEL)) ||
          negb (pitch mod BOOT_FRAMEBUFFER_BYTES_PER_PIXEL =? 0) then
    (BOOT_STATUS_BAD_FRAMEBUFFER_PITCH, fb)
  else if (address =? 0) ||
          negb (address mod BOOT_FRAMEBUFFER_BYTES_PER_PIXEL =? 0) then
    (BOOT_STATUS_BAD_FRAMEBUFFER_ADDRESS, fb)
  else
  let size := u64 (pitch * height) in
  if (size =? 0) || (size >? SAPOTE_EARLY_PHYSICAL_LIMIT) ||
     (address >? u64 (SAPOTE_EARLY_PHYSICAL_LIMIT - size)) then
    (BOOT_STATUS_FRAMEBUFFER_OUTSIDE_EARLY_MAP, fb)
  else
  let red := byte_at m (tag + 32) in
  let green := byte_at m (tag + 34) in
  let blue := byte_at m (tag + 36) in
  if channel_bad red (byte_at m (tag + 33)) ||
     channel_bad green (byte_at m (tag + 35)) ||
     channel_bad blue (byte_at m (tag + 37)) then
    (BOOT_STATUS_BAD_FRAMEBUFFER_CHANNEL, fb)
  else if (red =? green) || (green =? blue) || (red =? blue) then
    (BOOT_STATUS_BAD_FRAMEBUFFER_CHANNEL, fb)
  else
    (BOOT_STATUS_OK,
     MkFramebuffer address pitch width height size depth red green blue true).

(** The body of the tag loop for one tag that is not the end tag; [inr] leaves
    [boot_information_parse] with a refusal. *)
Definition parse_tag (m : memory) (tag : Z) (c : boot_information)
  : boot_information + (boot_status * boot_information) :=
  if tag_type m tag =? MULTIBOOT2_TAG_MEMORY_MAP then
    match c.(memory_map) with
    | Some _ => inr (BOOT_STATUS_DUPLICATE_MEMORY_MAP, c)
    | None =>
        let '(status, c) := validate_memory_map m tag c in
        if negb (bool_decide (status = BOOT_STATUS_OK)) then inr (status, c)
        else inl c
    end
  else if tag_type m tag =? MULTIBOOT2_TAG_MODULE then
    inr (BOOT_STATUS_UNSUPPORTED_MODULE, c)
  else if (tag_type m tag =? MULTIBOOT2_TAG_ACPI_OLD) ||
          (tag_type m tag =? MULTIBOOT2_TAG_ACPI_NEW) then
    let is_new := tag_type m tag =? MULTIBOOT2_TAG_ACPI_NEW in
    let minimum_payload := if is_new then ACPI_RSDP_V2_SIZE else ACPI_RSDP_V1_SIZE in
    let destination := if is_new then c.(acpi_new) else c.(acpi_old) in
    if tag_size m tag <? sizeof_acpi_tag + minimum_payload then
      inr (BOOT_STATUS_ACPI_TAG_TOO_SMALL, c)
    else
      match destination with
      | Some _ => inr (BOOT_STATUS_DUPLICATE_ACPI_TAG, c)
      | None =>
          inl (if is_new then with_acpi c c.(acpi_old) (Some tag)
               else with_acpi c (Some tag) c.(acpi_new))
      end
  else if tag_type m tag =? MULTIBOOT2_TAG_FRAMEBUFFER then
    if c.(framebuffer).(fb_present) then inr (BOOT_STATUS_DUPLICATE_FRAMEBUFFER, c)
    else
      let '(status, fb) := decode_framebuffer m tag c.(framebuffer) in
      let c := with_framebuffer c fb in
      if negb (bool_decide (status = BOOT_STATUS_OK)) then inr (status, c)
      else inl c
  else if (tag_type m tag =? MULTIBOOT2_TAG_BOOT_LOADER_NAME) ||
          (tag_type m tag =? MULTIBOOT2_TAG_COMMAND_LINE) then
    match string_length_within m tag (tag_size m tag) with
    | None => inr (BOOT_STATUS_STRING_NOT_TERMINATED, c)
    | Some n =>
        inl (if tag_type m tag =? MULTIBOOT2_TAG_BOOT_LOADER_NAME then
               with_loader_name c (Some (tag + sizeof_tag)) n
             else with_command_line c (Some (tag + sizeof_tag)) n)
    end
  else inl c.

(** The tag loop and what follows it.  [None]: the fuel ran out. *)
Fixpoint tag_loop (fuel : nat) (m : memory) (bytes total_size offset : Z)
    (c : boot_information) : option (boot_status * boot_information) :=
  match fuel with
  | O => None
  | S fuel =>
      if offset <? total_size then
        if negb (range_fits offset sizeof_tag total_size) then
          Some (BOOT_STATUS_TRUNCATED_TAG, c)
        else
          let tag := bytes + offset in
          if tag_size m tag <? sizeof_tag then
            Some (BOOT_STATUS_TAG_TOO_SMALL, c)
          else if negb (range_fits offset (tag_size m tag) total_size) then
            Some (BOOT_STATUS_TAG_OVERFLOW, c)
          else if tag_type m tag =? MULTIBOOT2_TAG_END then
            if negb (tag_size m tag =? sizeof_tag) ||
               negb (u64 (offset + tag_size m tag) =? total_size) then
              Some (BOOT_STATUS_BAD_END_TAG, c)
            else
              match c.(memory_map) with
              | None => Some (BOOT_STATUS_MISSING_MEMORY_MAP, c)
              | Some _ => Some (BOOT_STATUS_OK, c)
              end
          else
            match parse_tag m tag c with
            | inr r => Some r
            | inl c =>
                let aligned_size := align_tag_size (tag_size m tag) in
                if (aligned_size <? tag_size m tag) ||
                   negb (range_fits offset aligned_size total_size) then
                  Some (BOOT_STATUS_TAG_OVERFLOW, c)
                else
                  tag_loop fuel m bytes total_size
                    (u64 (offset + aligned_size)) c
            end
      else Some (BOOT_STATUS_MISSING_END_TAG, c)
  end.

Definition parse_fuel (total_size : Z) : nat := S (Z.to_nat (total_size / 8)).

Definition boot_information_parse (m : memory) (magic information_address : Z)
    (context : option boot_information)
  : option (boot_status * option boot_information) :=
  match context with
  | None => Some (BOOT_STATUS_NULL_CONTEXT, None)
  | Some _ =>
      let c := boot_information_reset in
      let refuse st := Some (st, Some c) in
      if negb (magic =? MULTIBOOT2_BOOT_MAGIC) then refuse BOOT_STATUS_BAD_MAGIC
      else if information_address =? 0 then refuse BOOT_STATUS_NULL_INFORMATION
      else if negb (Z.land information_address (MULTIBOOT2_TAG_ALIGNMENT - 1) =? 0)
      then refuse BOOT_STATUS_MISALIGNED_INFORMATION
      else if information_address >?
              SAPOTE_EARLY_PHYSICAL_LIMIT - sizeof_information_header
      then refuse BOOT_STATUS_INFORMATION_TOO_LARGE
      else
      let total_size := read_u32 m information_address in
      if total_size <? sizeof_information_header + sizeof_tag then
        refuse BOOT_STATUS_INFORMATION_TOO_SMALL
      else if total_size >? MULTIBOOT2_MAX_INFORMATION_SIZE then
        refuse BOOT_STATUS_INFORMATION_TOO_LARGE
      else if negb (Z.land total_size (MULTIBOOT2_TAG_ALIGNMENT - 1) =? 0) then
        refuse BOOT_STATUS_INFORMATION_SIZE_MISALIGNED
      else if information_address >? u64 (UINT64_MAX - total_size) then
        refuse BOOT_STATUS_INFORMATION_OVERFLOW
      else if u64 (information_address + total_size) >? SAPOTE_EARLY_PHYSICAL_LIMIT
      then refuse BOOT_STATUS_INFORMATION_TOO_LARGE
      else if negb (read_u32 m (information_address + 4) =? 0) then
        refuse BOOT_STATUS_RESERVED_FIELD_NONZERO
      else
        let c := with_block c information_address
                   (u64 (information_address + total_size)) in
        match tag_loop (parse_fuel total_size) m information_address total_size
                sizeof_information_header c with
        | None => None
        | Some (st, c) => Some (st, Some c)
        end
  end.

(** * Loads *)

Lemma byte_at_range m a : 0 <= byte_at m a < 2 ^ 8.
Proof. unfold byte_at, u8. apply Z.mod_pos_bound. lia. Qed.

Lemma read_u32_range m a : is_u32 (read_u32 m a).
Proof.
  assert (0 <= read_u32 m a < 2 ^ 32); [|unfold is_u32, UINT32_MAX; lia].
  pose proof (byte_at_range m a). pose proof (byte_at_range m (a + 1)).
  pose proof (byte_at_range m (a + 2)). pose proof (byte_at_range m (a + 3)).
  unfold read_u32. repeat apply lor_range; try lia; apply shiftl_range; lia.
Qed.

Lemma read_u64_range m a : is_u64 (read_u64 m a).
Proof.
  assert (0 <= read_u64 m a < 2 ^ 64); [|unfold is_u64, UINT64_MAX; lia].
  pose proof (read_u32_range m a). pose proof (read_u32_range m (a + 4)).
  unfold is_u32, UINT32_MAX in *.
  unfold read_u64. apply lor_range; [lia..|]. apply shiftl_range; lia.
Qed.

(** Two memories that hold the same bytes in [lo, hi). *)
Definition agree (m1 m2 : memory) (lo hi : Z) : Prop :=
  forall a, lo <= a < hi -> byte_at m1 a = byte_at m2 a.

Section agreement.
Context (m1 m2 : memory) (lo hi : Z) (Hagree : agree m1 m2 lo hi).

Lemma read_u32_agree a : lo <= a -> a + 4 <= hi -> read_u32 m1 a = read_u32 m2 a.
Proof. intros. unfold read_u32. by rewrite !Hagree by lia. Qed.

Lemma read_u64_agree a : lo <= a -> a + 8 <= hi -> read_u64 m1 a = read_u64 m2 a.
Proof. intros. unfold read_u64. by rewrite !read_u32_agree by lia. Qed.

Lemma string_length_within_agree tag size :
  lo <= tag -> tag + size <= hi ->
  string_length_within m1 tag size = string_length_within m2 tag size.
Proof.
  intros Hlo Hhi. unfold string_length_within, sizeof_tag. split_if; [done|].
  erewrite (for_each_ext (fun _ => True)); [done| |done|done].
  intros x ? Hx%elem_of_seqZ _. by rewrite Hagree by lia.
Qed.

Lemma decode_framebuffer_agree tag fb :
  lo <= tag -> tag + 8 <= hi -> tag + tag_size m1 tag <= hi ->
  decode_framebuffer m1 tag fb = decode_framebuffer m2 tag fb.
Proof.
  intros Hlo Hhdr Hhi. unfold decode_framebuffer, tag_size in *.
  rewrite <- read_u32_agree by lia.
  split_if; [done|]. unfold MULTIBOOT2_FRAMEBUFFER_COMMON_SIZE in *. bool_hyps.
  rewrite <- (read_u64_agree (tag + 8)), <- (read_u32_agree (tag + 16)),
    <- (read_u32_agree (tag + 20)), <- (read_u32_agree (tag + 24)) by lia.
  rewrite <- (Hagree (tag + 28)), <- (Hagree (tag + 29)) by lia.
  split_if; [done|]. split_if; [done|].
  unfold MULTIBOOT2_FRAMEBUFFER_RGB_SIZE in *. bool_hyps.
  by rewrite <- (Hagree (tag + 32)), <- (Hagree (tag + 33)),
    <- (Hagree (tag + 34)), <- (Hagree (tag + 35)), <- (Hagree (tag + 36)),
    <- (Hagree (tag + 37)) by lia.
Qed.
End agreement.

(** * The memory map *)

(** The map tag at [map] lies below [hi] and is exactly its header and [n]
    entries. *)
Record map_fits (m : memory) (map n hi : Z) : Prop := {
  mf_map : 0 <= map;
  mf_hi : map + tag_size m map <= hi;
  mf_limit : hi <= SAPOTE_EARLY_PHYSICAL_LIMIT;
  mf_entry : sizeof_memory_map_entry <= map_entry_size m map;
  mf_count : 0 <= n;
  mf_size : sizeof_memory_map_tag + n * map_entry_size m map = tag_size m map
}.

Definition entry_at (m : memory) (map index : Z) : Z :=
  map + sizeof_memory_map_tag + index * map_entry_size m map.

Lemma entry_inside m map n hi i :
  map_fits m map n hi -> 0 <= i < n ->
  map + sizeof_memory_map_tag <= entry_at m map i /\
  entry_at m map i + sizeof_memory_map_entry <= map + tag_size m map.
Proof.
  intros [] Hi. unfold entry_at, sizeof_memory_map_entry in *. nia.
Qed.

Lemma region_at_entry m c map n hi i :
  map_fits m map n hi -> c.(memory_map) = Some map ->
  c.(memory_map_entry_count) = n -> 0 <= i < n ->
  let e := entry_at m map i in
  boot_information_region_at m c i =
  Some (MkRegion (read_u64 m e) (read_u64 m (e + 8)) (read_u32 m (e + 16))).
Proof.
  intros Hfit Hmap Hn Hi e. pose proof (entry_inside _ _ _ _ _ Hfit Hi).
  destruct Hfit as [? ? ? ? ? Hsz].
  unfold boot_information_region_at. rewrite Hmap, Hn.
  destruct (i >=? n) eqn:E; bool_hyps; [lia|]. fold e in H. subst e.
  unfold entry_at, SAPOTE_EARLY_PHYSICAL_LIMIT, sizeof_memory_map_tag,
    sizeof_memory_map_entry in *.
  rewrite (u64_small (i * _)) by (unfold is_u64, UINT64_MAX; nia).
  rewrite u64_small by (unfold is_u64, UINT64_MAX; nia). done.
Qed.

Lemma region_at_outside m c i :
  boot_information_region_at m c i = None <->
  c.(memory_map) = None \/ c.(memory_map_entry_count) <= i.
Proof.
  unfold boot_information_region_at. destruct c.(memory_map); [|naive_solver].
  split_if; bool_hyps; split; intros; destruct_or?; try done; try lia; by right.
Qed.

Lemma account_region_keeps m i c c' :
  account_region m i c = Next c' ->
  exists u h, c' = with_totals c u h.
Proof.
  unfold account_region. destruct (boot_information_region_at m c i); [|done].
  split_if; [done|]. intros [= <-]. eauto.
Qed.

Lemma map_payload m map hi :
  0 <= map -> map + tag_size m map <= hi -> hi <= SAPOTE_EARLY_PHYSICAL_LIMIT ->
  (tag_size m map <? sizeof_memory_map_tag) = false ->
  (map_entry_size m map <? sizeof_memory_map_entry) = false ->
  negb (u64 (tag_size m map - sizeof_memory_map_tag) mod map_entry_size m map =? 0)
    = false ->
  map_fits m map
    (u64 (tag_size m map - sizeof_memory_map_tag) / map_entry_size m map) hi.
Proof.
  intros Hmap Hhi Hlim Hsz He Hrem. bool_hyps.
  pose proof (read_u32_range m (map + 4)) as Hr.
  change (read_u32 m (map + 4)) with (tag_size m map) in Hr.
  unfold is_u32, UINT32_MAX, sizeof_memory_map_tag, sizeof_memory_map_entry in *.
  rewrite u64_small in * by (unfold is_u64, UINT64_MAX; lia).
  pose proof (Z.div_mod (tag_size m map - 16) (map_entry_size m map)).
  pose proof (Z.div_pos (tag_size m map - 16) (map_entry_size m map)).
  split; unfold sizeof_memory_map_tag, sizeof_memory_map_entry; nia.
Qed.

Section agreement_map.
Context (m1 m2 : memory) (lo hi : Z) (Hagree : agree m1 m2 lo hi).
Context (Hlo : 0 <= lo) (Hhi : hi <= SAPOTE_EARLY_PHYSICAL_LIMIT).

Lemma account_region_agree map n i c :
  lo <= map -> map_fits m1 map n hi -> c.(memory_map) = Some map ->
  c.(memory_map_entry_count) = n -> 0 <= i < n ->
  account_region m1 i c = account_region m2 i c.
Proof.
  intros Hmap Hfit Hc Hn Hi.
  pose proof (entry_inside _ _ _ _ _ Hfit Hi) as He.
  unfold account_region. rewrite (region_at_entry _ _ _ _ _ _ Hfit Hc Hn Hi).
  assert (tag_size m1 map = tag_size m2 map /\
          map_entry_size m1 map = map_entry_size m2 map) as [Es Ee].
  { destruct Hfit. unfold sizeof_memory_map_tag, sizeof_memory_map_entry in *.
    split; apply (read_u32_agree _ _ lo hi); try done; nia. }
  assert (map_fits m2 map n hi) as Hfit2.
  { destruct Hfit. rewrite Es, Ee in *. by split. }
  rewrite (region_at_entry _ _ _ _ _ _ Hfit2 Hc Hn Hi).
  unfold entry_at in *. rewrite <- Ee. destruct Hfit as [? Htop _ _ _ _].
  unfold sizeof_memory_map_tag, sizeof_memory_map_entry in *.
  by rewrite <- !(read_u64_agree m1 m2 lo hi), <- !(read_u32_agree m1 m2 lo hi)
    by (done || lia).
Qed.

Lemma validate_memory_map_agree map c :
  lo <= map -> map + 8 <= hi -> map + tag_size m1 map <= hi ->
  validate_memory_map m1 map c = validate_memory_map m2 map c.
Proof.
  intros Hmap Hhdr Htop. unfold validate_memory_map.
  assert (tag_size m1 map = tag_size m2 map) as Es.
  { apply (read_u32_agree _ _ lo hi); [done|lia..]. }
  rewrite <- Es. split_if; [done|].
  assert (map_entry_size m1 map = map_entry_size m2 map /\
          map_entry_version m1 map = map_entry_version m2 map) as [Ee Ev].
  { unfold sizeof_memory_map_tag in *. bool_hyps.
    split; apply (read_u32_agree _ _ lo hi); try done; lia. }
  rewrite <- Ee, <- Ev. split_if; [done|]. split_if; [done|]. split_if; [done|].
  assert (map_fits m1 map _ hi) as Hfit by (apply map_payload; try done; lia).
  set (n := _ / _) in *.
  erewrite (for_each_ext (fun c => c.(memory_map) = Some map /\
                            c.(memory_map_entry_count) = n)); [done| | |done].
  - intros i c' Hi%elem_of_seqZ [Hc Hn]. eapply account_region_agree; eauto.
  - intros i c' c'' Hi [Hc Hn] (u & h & ->)%account_region_keeps. done.
Qed.

Lemma parse_tag_agree tag c :
  lo <= tag -> tag + 8 <= hi -> tag + tag_size m1 tag <= hi ->
  parse_tag m1 tag c = parse_tag m2 tag c.
Proof.
  intros Hmap Hhdr Htop. unfold parse_tag.
  assert (tag_type m1 tag = tag_type m2 tag) as <-.
  { apply (read_u32_agree _ _ lo hi); [done|lia..]. }
  rewrite (validate_memory_map_agree tag c), (decode_framebuffer_agree m1 m2 lo hi),
    (string_length_within_agree m1 m2 lo hi) by done.
  assert (tag_size m1 tag = tag_size m2 tag) as <-.
  { apply (read_u32_agree _ _ lo hi); [done|lia..]. }
  done.
Qed.
End agreement_map.

(** * The tag loop *)

Lemma align_tag_size_spec size :
  is_u32 size ->
  size <= align_tag_size size < size + 8 /\ align_tag_size size mod 8 = 0.
Proof.
  unfold is_u32, UINT32_MAX, align_tag_size, MULTIBOOT2_TAG_ALIGNMENT. intros.
  rewrite u64_small by (unfold is_u64, UINT64_MAX; lia).
  change (8 - 1) with (2 ^ 3 - 1).
  rewrite land_high_mask by (unfold is_u64, UINT64_MAX; lia).
  change (2 ^ 3 - 1) with 7. change (2 ^ 3) with 8.
  pose proof (Z.mod_pos_bound (size + 7) 8). split; [lia|].
  rewrite Zminus_mod_idemp_r, Z.sub_diag. done.
Qed.

Lemma range_fits_spec offset length total :
  0 <= offset -> is_u64 total ->
  range_fits offset length total = true <-> offset <= total /\ offset + length <= total.
Proof.
  unfold range_fits, is_u64, UINT64_MAX. intros. rewrite andb_true_iff.
  split; intros []; bool_hyps; (split; [lia|]);
    rewrite u64_small in * by (unfold is_u64, UINT64_MAX; lia); lia.
Qed.

(** What the loop may assume of its block: the header has been accepted. *)
Record block_fits (bytes total_size : Z) : Prop := {
  bf_bytes : 0 <= bytes;
  bf_total : sizeof_information_header + sizeof_tag <= total_size
             <= MULTIBOOT2_MAX_INFORMATION_SIZE;
  bf_limit : bytes + total_size <= SAPOTE_EARLY_PHYSICAL_LIMIT
}.

(** One induction for every fact about the loop: [P] holds of the context
    whenever the loop head is reached, and a tag the loop dispatches on lies
    inside the block. *)
Lemma tag_loop_ind (P : boot_information -> Prop)
    (Q : boot_status * boot_information -> Prop) m bytes total_size :
  block_fits bytes total_size ->
  (forall tag c, P c -> bytes <= tag -> tag + tag_size m tag <= bytes + total_size ->
     sizeof_tag <= tag_size m tag ->
     match parse_tag m tag c with inl c' => P c' | inr r => Q r end) ->
  (forall st c, P c -> (st = BOOT_STATUS_OK -> is_Some c.(memory_map)) -> Q (st, c)) ->
  forall fuel offset c,
    0 <= offset <= total_size -> (Z.to_nat ((total_size - offset) / 8) < fuel)%nat ->
    P c -> exists r, tag_loop fuel m bytes total_size offset c = Some r /\ Q r.
Proof.
  intros [Hb Ht Hl] Hstep Hstop.
  assert (is_u64 total_size) as Hu.
  { unfold is_u64, UINT64_MAX, MULTIBOOT2_MAX_INFORMATION_SIZE in *.
    unfold sizeof_information_header, sizeof_tag in Ht. lia. }
  induction fuel as [|fuel IH]; intros offset c Ho Hf Hc; [lia|]. simpl.
  split_if; [|eexists; split; [done|by apply Hstop]].
  destruct (range_fits offset sizeof_tag total_size) eqn:Hr1; simpl;
    [|eexists; split; [done|by apply Hstop]].
  split_if; [eexists; split; [done|by apply Hstop]|].
  destruct (range_fits offset (tag_size _ _) _) eqn:Hr2; simpl;
    [|eexists; split; [done|by apply Hstop]].
  apply range_fits_spec in Hr1; [|lia|done]. apply range_fits_spec in Hr2; [|lia|done].
  split_if.
  { split_if; [eexists; split; [done|by apply Hstop]|].
    destruct c.(memory_map) eqn:Em; eexists; (split; [done|]); apply Hstop; done. }
  bool_hyps. specialize (Hstep (bytes + offset) c Hc).
  destruct (parse_tag _ _ _) as [c'|r]; [|eexists; split; [done|apply Hstep; lia]].
  specialize (Hstep ltac:(lia) ltac:(lia) ltac:(lia)).
  pose proof (align_tag_size_spec _ (read_u32_range m (bytes + offset + 4))) as [Ha _].
  fold (tag_size m (bytes + offset)) in Ha. set (a := align_tag_size _) in *.
  destruct (range_fits offset a total_size) eqn:Hr3; simpl.
  2: { rewrite orb_true_r. eexists; split; [done|by apply Hstop]. }
  apply range_fits_spec in Hr3; [|lia|done].
  split_if; [eexists; split; [done|by apply Hstop]|].
  unfold sizeof_tag in *.
  rewrite u64_small by (unfold is_u64 in *; lia).
  apply IH; [lia| |done].
  pose proof (Z.div_le_mono (total_size - (offset + a) + 1 * 8)
                (total_size - offset) 8) as Hd.
  rewrite Z.div_add in Hd by lia.
  pose proof (Z.div_pos (total_size - (offset + a)) 8). lia.
Qed.

Lemma parse_fuel_enough total_size :
  0 <= total_size ->
  (Z.to_nat ((total_size - sizeof_information_header) / 8) < parse_fuel total_size)%nat.
Proof.
  intros. unfold parse_fuel, sizeof_information_header.
  pose proof (Z.div_le_mono (total_size - 8) total_size 8). lia.
Qed.

Lemma tag_loop_agree m1 m2 bytes total_size fuel offset c :
  block_fits bytes total_size -> agree m1 m2 bytes (bytes + total_size) ->
  0 <= offset <= total_size ->
  tag_loop fuel m1 bytes total_size offset c =
  tag_loop fuel m2 bytes total_size offset c.
Proof.
  intros [Hb Ht Hl] Hag. revert offset c.
  assert (is_u64 total_size) as Hu.
  { unfold is_u64, UINT64_MAX, MULTIBOOT2_MAX_INFORMATION_SIZE in *.
    unfold sizeof_information_header, sizeof_tag in Ht. lia. }
  induction fuel as [|fuel IH]; intros offset c Ho; [done|]. simpl.
  split_if; [|done].
  destruct (range_fits offset sizeof_tag total_size) eqn:Hr1; simpl; [|done].
  apply range_fits_spec in Hr1; [|lia|done]. unfold sizeof_tag in *.
  assert (tag_size m1 (bytes + offset) = tag_size m2 (bytes + offset)) as Es.
  { eapply read_u32_agree; [done|lia..]. }
  assert (tag_type m1 (bytes + offset) = tag_type m2 (bytes + offset)) as Et.
  { eapply read_u32_agree; [done|lia..]. }
  rewrite <- Es, <- Et. split_if; [done|].
  destruct (range_fits offset (tag_size _ _) _) eqn:Hr2; simpl; [|done].
  apply range_fits_spec in Hr2; [|lia|done].
  split_if; [done|]. rewrite <- (parse_tag_agree m1 m2 bytes (bytes + total_size))
    by (done || lia).
  destruct (parse_tag _ _ _) as [c'|r]; [|done].
  destruct (range_fits offset (align_tag_size _) _) eqn:Hr3; simpl;
    [|by rewrite orb_true_r].
  split_if; [done|]. bool_hyps. apply range_fits_spec in Hr3; [|lia|done].
  apply IH. rewrite u64_small by (unfold is_u64 in *; lia). lia.
Qed.

(** * What a parsed context promises *)

(** The regions a context reports, through the accessor the rest of the kernel
    uses. *)
Definition boot_regions (m : memory) (c : boot_information)
  : list boot_memory_region :=
  omap (boot_information_region_at m c) (seqZ 0 c.(memory_map_entry_count)).

Definition usable_sum (rs : list boot_memory_region) : Z :=
  foldr (fun r t =>
    if r.(region_type) =? MULTIBOOT2_MEMORY_AVAILABLE then r.(region_length) + t
    else t) 0 rs.
Definition highest_end (rs : list boot_memory_region) : Z :=
  foldr (fun r t => Z.max (r.(base_address) + r.(region_length)) t) 0 rs.
Definition region_ok (r : boot_memory_region) : Prop :=
  0 <= r.(base_address) /\ 0 <= r.(region_length) /\
  r.(base_address) + r.(region_length) <= UINT64_MAX.

Record memory_map_ok (m : memory) (c : boot_information) (map : Z) : Prop := {
  mm_start : c.(information_start) <= map;
  mm_fits : map_fits m map c.(memory_map_entry_count) c.(information_end);
  mm_count : zlength (boot_regions m c) = c.(memory_map_entry_count);
  mm_regions : Forall region_ok (boot_regions m c);
  mm_usable : c.(reported_usable_bytes) =
              Z.min UINT64_MAX (usable_sum (boot_regions m c));
  mm_highest : c.(highest_reported_address) = highest_end (boot_regions m c)
}.

Record framebuffer_ok (fb : boot_framebuffer) : Prop := {
  fo_depth : fb.(fb_bits_per_pixel) = 32;
  fo_width : 0 < fb.(fb_width);
  fo_height : 0 < fb.(fb_height);
  fo_row : 4 * fb.(fb_width) <= fb.(fb_pitch);
  fo_pitch : fb.(fb_pitch) mod 4 = 0;
  fo_address : 0 < fb.(fb_address);
  fo_aligned : fb.(fb_address) mod 4 = 0;
  fo_size : fb.(fb_size) = fb.(fb_pitch) * fb.(fb_height);
  fo_inside : fb.(fb_address) + fb.(fb_size) <= SAPOTE_EARLY_PHYSICAL_LIMIT;
  fo_channels :
    Forall (fun p => 0 <= p < 32 /\ p mod 8 = 0)
      [fb.(fb_red_position); fb.(fb_green_position); fb.(fb_blue_position)];
  fo_distinct :
    NoDup [fb.(fb_red_position); fb.(fb_green_position); fb.(fb_blue_position)]
}.

(** A string the context points at: inside the block, its length the distance
    to its first NUL. *)
Definition string_ok (m : memory) (lo hi p n : Z) : Prop :=
  lo <= p /\ 0 <= n /\ p + n < hi /\ byte_at m (p + n) = 0 /\
  forall i, 0 <= i < n -> byte_at m (p + i) <> 0.

(** An ACPI tag the context points at: whole inside the block, large enough for
    the root pointer it carries. *)
Definition acpi_ok (m : memory) (lo hi type payload tag : Z) : Prop :=
  tag_type m tag = type /\ lo <= tag /\ sizeof_acpi_tag + payload <= tag_size m tag /\
  tag + tag_size m tag <= hi.

Record context_ok (m : memory) (c : boot_information) : Prop := {
  co_map : match c.(memory_map) with
           | Some map => memory_map_ok m c map
           | None => c.(reported_usable_bytes) = 0 /\ c.(highest_reported_address) = 0
           end;
  co_framebuffer : c.(framebuffer).(fb_present) = true ->
                   framebuffer_ok c.(framebuffer);
  co_old : forall t, c.(acpi_old) = Some t ->
    acpi_ok m c.(information_start) c.(information_end)
      MULTIBOOT2_TAG_ACPI_OLD ACPI_RSDP_V1_SIZE t;
  co_new : forall t, c.(acpi_new) = Some t ->
    acpi_ok m c.(information_start) c.(information_end)
      MULTIBOOT2_TAG_ACPI_NEW ACPI_RSDP_V2_SIZE t;
  co_name : forall p, c.(boot_loader_name) = Some p ->
    string_ok m c.(information_start) c.(information_end) p
      c.(boot_loader_name_length);
  co_line : forall p, c.(command_line) = Some p ->
    string_ok m c.(information_start) c.(information_end) p c.(command_line_length)
}.

Definition region_entry (m : memory) (map i : Z) : boot_memory_region :=
  let e := entry_at m map i in
  MkRegion (read_u64 m e) (read_u64 m (e + 8)) (read_u32 m (e + 16)).

Lemma boot_regions_entries m c map n hi :
  map_fits m map n hi -> c.(memory_map) = Some map ->
  c.(memory_map_entry_count) = n ->
  boot_regions m c = region_entry m map <$> seqZ 0 n.
Proof.
  intros Hfit Hc Hn. unfold boot_regions. rewrite Hn.
  assert (forall l : list Z, (forall i, i ∈ l -> 0 <= i < n) ->
    omap (boot_information_region_at m c) l = region_entry m map <$> l) as H.
  { induction l as [|i l IH]; intros Hl; [done|]. cbn.
    rewrite (region_at_entry _ _ _ _ _ _ Hfit Hc Hn) by (apply Hl; left).
    f_equal. apply IH. intros. apply Hl. by right. }
  apply H. intros i Hi%elem_of_seqZ. lia.
Qed.

Lemma usable_sum_nonneg rs : Forall region_ok rs -> 0 <= usable_sum rs.
Proof.
  induction 1 as [|r rs (? & ? & ?) _ IH]; [done|].
  unfold usable_sum in *. cbn. split_if; lia.
Qed.

Lemma highest_end_nonneg rs : 0 <= highest_end rs.
Proof. unfold highest_end. induction rs; cbn; lia. Qed.

Lemma usable_sum_snoc rs r :
  usable_sum (rs ++ [r]) = usable_sum rs + usable_sum [r].
Proof.
  unfold usable_sum. induction rs; cbn in *; [done|]. repeat split_if; lia.
Qed.

Lemma highest_end_snoc rs r :
  highest_end (rs ++ [r]) = Z.max (highest_end rs) (highest_end [r]).
Proof. unfold highest_end. induction rs; cbn in *; lia. Qed.

(** One turn of the accounting loop. *)
Lemma account_region_spec m map hi i c rs :
  map_fits m map c.(memory_map_entry_count) hi -> c.(memory_map) = Some map ->
  0 <= i < c.(memory_map_entry_count) -> Forall region_ok rs ->
  c.(reported_usable_bytes) = Z.min UINT64_MAX (usable_sum rs) ->
  c.(highest_reported_address) = highest_end rs ->
  match account_region m i c with
  | Next c' =>
      let rs' := rs ++ [region_entry m map i] in
      Forall region_ok rs' /\
      c' = with_totals c (Z.min UINT64_MAX (usable_sum rs')) (highest_end rs')
  | Return (st, c') => st <> BOOT_STATUS_OK
  end.
Proof.
  intros Hfit Hc Hi Hrs Hu Hh. unfold account_region.
  rewrite (region_at_entry _ _ _ _ _ _ Hfit Hc eq_refl Hi).
  change (MkRegion _ _ _) with (region_entry m map i).
  set (r := region_entry m map i).
  assert (is_u64 r.(base_address) /\ is_u64 r.(region_length)) as [Hb Hl]
    by (split; apply read_u64_range).
  clearbody r. rewrite u64_small by (unfold is_u64 in *; lia).
  split_if; [done|]. bool_hyps.
  assert (region_ok r) as Hr by (unfold region_ok, is_u64 in *; lia).
  split; [by apply Forall_app; split; [|constructor]|].
  pose proof (usable_sum_nonneg _ Hrs).
  rewrite (u64_small (base_address r + region_length r)) by (unfold is_u64 in *; lia).
  pose proof (highest_end_nonneg rs).
  rewrite Hu, Hh, usable_sum_snoc, highest_end_snoc.
  rewrite (u64_small (UINT64_MAX - _)) by (unfold is_u64, UINT64_MAX in *; lia).
  unfold is_u64 in *. f_equal; cbn.
  - split_if; [|rewrite Z.add_0_r; done]. split_if; bool_hyps; [lia|].
    rewrite u64_small; unfold is_u64; lia.
  - split_if; bool_hyps; lia.
Qed.

(** The accounting loop with [k] regions behind it. *)
Definition accounted (m : memory) (map n : Z) (c : boot_information)
    (todo : list Z) (c' : boot_information) : Prop :=
  exists k, 0 <= k <= n /\ todo = seqZ k (n - k) /\
    Forall region_ok (region_entry m map <$> seqZ 0 k) /\
    c' = with_totals c
           (Z.min UINT64_MAX (usable_sum (region_entry m map <$> seqZ 0 k)))
           (highest_end (region_entry m map <$> seqZ 0 k)).

Lemma accounted_step m map hi n c i todo c' :
  map_fits m map n hi -> c.(memory_map) = Some map ->
  c.(memory_map_entry_count) = n -> accounted m map n c (i :: todo) c' ->
  match account_region m i c' with
  | Next c' => accounted m map n c todo c'
  | Return r => r.1 <> BOOT_STATUS_OK
  end.
Proof.
  intros Hfit Hc Hn (k & Hk & Ht & Hrs & ->).
  assert (k < n) by (destruct (decide (k < n)); [done|];
    rewrite seqZ_nil in Ht by lia; done).
  rewrite seqZ_cons in Ht by lia. injection Ht as -> ->.
  pose proof (account_region_spec m map hi k
    (with_totals c
       (Z.min UINT64_MAX (usable_sum (region_entry m map <$> seqZ 0 k)))
       (highest_end (region_entry m map <$> seqZ 0 k)))
    (region_entry m map <$> seqZ 0 k)) as Hs.
  cbn in Hs. rewrite Hn in Hs.
  specialize (Hs Hfit Hc ltac:(lia) Hrs eq_refl eq_refl).
  destruct (account_region _ _ _) as [c'|[st c']]; [|done].
  destruct Hs as [Hrs' ->]. exists (Z.succ k). split; [lia|].
  split; [f_equal; lia|].
  assert (seqZ 0 (Z.succ k) = seqZ 0 k ++ [k]) as ->.
  { rewrite <- Z.add_1_r, seqZ_app by lia. done. }
  rewrite fmap_app. done.
Qed.

Lemma account_loop_spec m map hi n c :
  map_fits m map n hi -> c.(memory_map) = Some map ->
  c.(memory_map_entry_count) = n ->
  c.(reported_usable_bytes) = 0 -> c.(highest_reported_address) = 0 ->
  match for_each (account_region m) (seqZ 0 n) c with
  | Next c' => accounted m map n c [] c'
  | Return r => r.1 <> BOOT_STATUS_OK
  end.
Proof.
  intros Hfit Hc Hn Hu Hh.
  apply (for_each_inv (accounted m map n c) (fun r => r.1 <> BOOT_STATUS_OK)).
  - intros. by eapply accounted_step.
  - pose proof (mf_count _ _ _ _ Hfit). exists 0. rewrite Z.sub_0_r.
    split_and!; [lia|lia|done|constructor|].
    destruct c; simpl in *; subst; done.
Qed.

Lemma validate_memory_map_spec m map c c' :
  0 <= c.(information_start) <= map ->
  map + tag_size m map <= c.(information_end) ->
  c.(information_end) <= SAPOTE_EARLY_PHYSICAL_LIMIT ->
  c.(reported_usable_bytes) = 0 -> c.(highest_reported_address) = 0 ->
  validate_memory_map m map c = (BOOT_STATUS_OK, c') ->
  memory_map_ok m c' map /\
  exists n u h, c' = with_totals (with_memory_map c (Some map) n) u h.
Proof.
  intros Hs Htop Hlim Hu Hh Hv. unfold validate_memory_map in Hv.
  split_if_in Hv; [done|]. split_if_in Hv; [done|].
  split_if_in Hv; [done|]. split_if_in Hv; [done|].
  assert (map_fits m map _ c.(information_end)) as Hfit
    by (apply map_payload; try done; lia).
  set (n := _ / _) in *.
  pose proof (account_loop_spec m map _ n (with_memory_map c (Some map) n) Hfit
    eq_refl eq_refl Hu Hh) as Hl.
  destruct (for_each _ _ _) as [c1|[st c1]]; [|simpl in Hl; congruence].
  injection Hv as <-. destruct Hl as (k & Hk & Hnil & Hrs & ->).
  assert (k = n) as ->.
  { destruct (decide (k < n)); [|lia]. rewrite seqZ_cons in Hnil by lia. done. }
  split; [|eauto].
  assert (forall u h, boot_regions m (with_totals (with_memory_map c (Some map) n) u h)
    = region_entry m map <$> seqZ 0 n) as Hregs
    by (intros; eapply boot_regions_entries; done).
  split; rewrite ?Hregs; try done; [simpl; lia|].
  unfold zlength. rewrite length_fmap, length_seqZ. simpl. lia.
Qed.

Lemma decode_framebuffer_spec m tag fb fb' :
  decode_framebuffer m tag fb = (BOOT_STATUS_OK, fb') ->
  fb'.(fb_present) = true /\ framebuffer_ok fb'.
Proof.
  unfold decode_framebuffer. intros H.
  repeat (split_if_in H; [done|]). injection H as <-. split; [done|].
  pose proof (read_u64_range m (tag + 8)). pose proof (read_u32_range m (tag + 16)).
  pose proof (read_u32_range m (tag + 20)). pose proof (read_u32_range m (tag + 24)).
  pose proof (byte_at_range m (tag + 32)). pose proof (byte_at_range m (tag + 34)).
  pose proof (byte_at_range m (tag + 36)).
  unfold channel_bad, BOOT_FRAMEBUFFER_BITS_PER_PIXEL,
    BOOT_FRAMEBUFFER_BYTES_PER_PIXEL, SAPOTE_EARLY_PHYSICAL_LIMIT,
    is_u64, is_u32, UINT64_MAX, UINT32_MAX in *. bool_hyps.
  rewrite (u64_small (_ * 4)) in * by (unfold is_u64, UINT64_MAX; lia).
  rewrite (u64_small (read_u32 m (tag + 16) * _)) in *
    by (unfold is_u64, UINT64_MAX; nia).
  rewrite u64_small in * by (unfold is_u64, UINT64_MAX; lia).
  split; simpl; unfold SAPOTE_EARLY_PHYSICAL_LIMIT; try done; try lia.
  - repeat constructor; done || lia.
  - rewrite !NoDup_cons, !not_elem_of_cons.
    split_and!; try done; apply not_elem_of_nil || apply NoDup_nil_2.
Qed.

Lemma string_length_within_spec m tag size n :
  string_length_within m tag size = Some n ->
  0 <= n < size - sizeof_tag /\ byte_at m (tag + sizeof_tag + n) = 0 /\
  forall i, 0 <= i < n -> byte_at m (tag + sizeof_tag + i) <> 0.
Proof.
  unfold string_length_within. split_if; [done|].
  rewrite (for_each_scan (fun i => byte_at m (tag + i) =? 0)).
  destruct (List.find _ _) as [k|] eqn:E; [|done]. intros [= <-].
  apply find_seqZ_Some in E as (Hk & Hz & Hnz). bool_hyps.
  split; [lia|]. split.
  - replace (tag + sizeof_tag + (k - sizeof_tag)) with (tag + k) by lia. done.
  - intros i Hi. specialize (Hnz (sizeof_tag + i) ltac:(lia)). bool_hyps.
    by rewrite Z.add_assoc in Hnz.
Qed.

(** * The parser *)

(** The promises about the map read only these fields. *)
Definition map_fields (c : boot_information) :=
  (c.(information_start), c.(information_end), c.(memory_map),
   c.(memory_map_entry_count), c.(reported_usable_bytes),
   c.(highest_reported_address)).

Lemma co_map_keep m c c' :
  map_fields c' = map_fields c ->
  match c.(memory_map) with
  | Some map => memory_map_ok m c map
  | None => c.(reported_usable_bytes) = 0 /\ c.(highest_reported_address) = 0
  end ->
  match c'.(memory_map) with
  | Some map => memory_map_ok m c' map
  | None => c'.(reported_usable_bytes) = 0 /\ c'.(highest_reported_address) = 0
  end.
Proof.
  intros [= Es Ee Em En Eu Eh]. rewrite Em, Eu, Eh. destruct c.(memory_map) eqn:E; [|done].
  assert (boot_regions m c' = boot_regions m c) as Er.
  { unfold boot_regions, boot_information_region_at. by rewrite Em, En, E. }
  intros []. split; rewrite ?Es, ?Ee, ?En, ?Eu, ?Eh, ?Er; done.
Qed.

Lemma parse_tag_ok m lo hi tag c :
  0 <= lo -> hi <= SAPOTE_EARLY_PHYSICAL_LIMIT ->
  lo <= tag -> tag + tag_size m tag <= hi -> sizeof_tag <= tag_size m tag ->
  context_ok m c -> c.(information_start) = lo -> c.(information_end) = hi ->
  match parse_tag m tag c with
  | inl c' => context_ok m c' /\ c'.(information_start) = lo /\
              c'.(information_end) = hi
  | inr r => r.1 <> BOOT_STATUS_OK
  end.
Proof.
  intros Hlo Hlim Htag Htop Hsz [Hmap Hfb Hold Hnew Hname Hline] Hs He.
  unfold parse_tag. split_if.
  { destruct c.(memory_map) as [m0|] eqn:Em; [done|]. destruct Hmap as [Hu Hh].
    destruct (validate_memory_map m tag c) as [st c'] eqn:Ev.
    destruct (bool_decide (st = BOOT_STATUS_OK)) eqn:Est; simpl.
    - apply bool_decide_eq_true in Est. subst st.
      apply validate_memory_map_spec in Ev as [Hok (n & u & h & ->)];
        [|lia|lia|lia|done|done].
      simpl. split_and!; [|done|done]. by split.
    - by apply bool_decide_eq_false in Est. }
  split_if; [done|]. split_if.
  { bool_hyps. destruct (tag_type m tag =? MULTIBOOT2_TAG_ACPI_NEW) eqn:En;
      (split_if; [done|]); bool_hyps.
    - destruct c.(acpi_new) eqn:E1; [done|]. split_and!; [|done|done].
      split; try done; [by apply (co_map_keep m c)|].
      intros t [= <-]. unfold acpi_ok. simpl. lia.
    - destruct c.(acpi_old) eqn:E1; [done|]. split_and!; [|done|done].
      split; try done; [by apply (co_map_keep m c)|].
      intros t [= <-]. unfold acpi_ok. simpl. lia. }
  split_if.
  { split_if; [done|]. destruct (decode_framebuffer _ _ _) as [st fb] eqn:Ed.
    destruct (bool_decide (st = BOOT_STATUS_OK)) eqn:Est; simpl.
    - apply bool_decide_eq_true in Est. subst st.
      apply decode_framebuffer_spec in Ed as [_ Hok].
      split_and!; [|done|done]. split; try done. by apply (co_map_keep m c).
    - by apply bool_decide_eq_false in Est. }
  split_if; [|done].
  destruct (string_length_within _ _ _) as [n|] eqn:Est; [|done].
  apply string_length_within_spec in Est as (Hn & Hz & Hnz).
  unfold sizeof_tag in *.
  split_if; (split_and!; [|done|done]); split; try done;
    (by apply (co_map_keep m c)) || intros p [= <-];
    simpl; unfold string_ok, sizeof_tag; split_and!; done || lia.
Qed.

Lemma reset_context_ok m s e : context_ok m (with_block boot_information_reset s e).
Proof. by split. Qed.

(** The size checks of the entry, read as bounds. *)
Lemma entry_checks addr total :
  is_u64 addr ->
  (addr >? SAPOTE_EARLY_PHYSICAL_LIMIT - sizeof_information_header) = false ->
  (total <? sizeof_information_header + sizeof_tag) = false ->
  (total >? MULTIBOOT2_MAX_INFORMATION_SIZE) = false ->
  (u64 (addr + total) >? SAPOTE_EARLY_PHYSICAL_LIMIT) = false ->
  block_fits addr total /\ u64 (addr + total) = addr + total.
Proof.
  intros Ha Hl Hs Hb He. bool_hyps.
  unfold is_u64, MULTIBOOT2_MAX_INFORMATION_SIZE, SAPOTE_EARLY_PHYSICAL_LIMIT,
    sizeof_information_header, sizeof_tag in *.
  rewrite u64_small in * by (unfold is_u64, UINT64_MAX; lia).
  split; [|done]. split; unfold MULTIBOOT2_MAX_INFORMATION_SIZE,
    SAPOTE_EARLY_PHYSICAL_LIMIT, sizeof_information_header, sizeof_tag; lia.
Qed.

(** The entry checks of boot_information_parse: either a refusal that touches
    nothing but the reset, or the tag loop over an accepted block. *)
Lemma parse_entry m magic addr c :
  is_u64 addr ->
  (exists st, st <> BOOT_STATUS_OK /\
     boot_information_parse m magic addr (Some c) =
     Some (st, Some boot_information_reset)) \/
  (let total := read_u32 m addr in
   magic = MULTIBOOT2_BOOT_MAGIC /\ block_fits addr total /\
   boot_information_parse m magic addr (Some c) =
   match tag_loop (parse_fuel total) m addr total sizeof_information_header
           (with_block boot_information_reset addr (addr + total)) with
   | None => None
   | Some (st, c) => Some (st, Some c)
   end).
Proof.
  intros Ha. unfold boot_information_parse.
  repeat (split_if; [left; eexists; split; [|done]; done|]).
  destruct (entry_checks addr (read_u32 m addr)) as [Hfit ->]; try done.
  right. bool_hyps. done.
Qed.

(** What the tag loop leaves behind. *)
Lemma tag_loop_result m addr total :
  block_fits addr total ->
  exists st c,
    tag_loop (parse_fuel total) m addr total sizeof_information_header
      (with_block boot_information_reset addr (addr + total)) = Some (st, c) /\
    (st = BOOT_STATUS_OK -> context_ok m c /\ is_Some c.(memory_map) /\
       c.(information_start) = addr /\ c.(information_end) = addr + total).
Proof.
  intros Hfit.
  destruct (tag_loop_ind
    (fun c => context_ok m c /\ c.(information_start) = addr /\
              c.(information_end) = addr + total)
    (fun r => r.1 = BOOT_STATUS_OK -> context_ok m r.2 /\ is_Some r.2.(memory_map) /\
       r.2.(information_start) = addr /\ r.2.(information_end) = addr + total)
    m addr total Hfit) with (fuel := parse_fuel total)
      (offset := sizeof_information_header)
      (c := with_block boot_information_reset addr (addr + total))
    as ([st c] & Hl & HQ); [..|by eauto].
  - intros tag c (Hok & Hs & He) Hlo Htop Hsz. destruct Hfit.
    pose proof (parse_tag_ok m addr (addr + total) tag c) as Hp.
    destruct (parse_tag m tag c); [by apply Hp|]. intros HOK.
    exfalso. apply Hp; done.
  - intros st c (Hok & Hs & He) Hsome HOK. auto.
  - destruct Hfit. unfold sizeof_information_header, sizeof_tag in *. lia.
  - apply parse_fuel_enough. destruct Hfit.
    unfold sizeof_information_header, sizeof_tag in *. lia.
  - split; [apply reset_context_ok|done].
Qed.

Lemma parse_ok_context m magic addr c c' :
  is_u64 addr ->
  boot_information_parse m magic addr (Some c) = Some (BOOT_STATUS_OK, Some c') ->
  context_ok m c' /\ is_Some c'.(memory_map) /\ c'.(information_start) = addr /\
  c'.(information_end) = addr + read_u32 m addr /\
  c'.(information_end) <= SAPOTE_EARLY_PHYSICAL_LIMIT.
Proof.
  intros Ha Hp. destruct (parse_entry m magic addr c Ha) as [(st & Hst & E)|E].
  - congruence.
  - destruct E as (_ & Hfit & E). rewrite E in Hp.
    destruct (tag_loop_result m addr _ Hfit) as (st & c1 & El & Hok).
    rewrite El in Hp. injection Hp as -> ->. destruct Hfit.
    destruct (Hok eq_refl) as (? & ? & ? & Hend). rewrite Hend. auto.
Qed.

(** The address of the pixel in column [x] of row [y]. *)
Definition pixel_address (fb : boot_framebuffer) (x y : Z) : Z :=
  fb.(fb_address) + y * fb.(fb_pitch) + x * BOOT_FRAMEBUFFER_BYTES_PER_PIXEL.

(** A block with a memory map of two regions, a 2x2 framebuffer at 0x10000 and a
    command line, at address 0x1000. *)
Definition le32 (x : Z) : list Z :=
  [u8 x; u8 (x / 256); u8 (x / 65536); u8 (x / 16777216)].
Definition le64 (x : Z) : list Z := le32 (u32 x) ++ le32 (x / 4294967296).

Definition sample_block : list Z :=
  le32 136 ++ le32 0 ++
  le32 6 ++ le32 64 ++ le32 24 ++ le32 0 ++
    le64 0 ++ le64 0x9f000 ++ le32 1 ++ le32 0 ++
    le64 0x9f000 ++ le64 0x1000 ++ le32 2 ++ le32 0 ++
  le32 8 ++ le32 38 ++ le64 0x10000 ++ le32 8 ++ le32 2 ++ le32 2 ++
    [32; 1; 0; 0; 16; 8; 8; 8; 0; 8; 0; 0] ++
  le32 1 ++ le32 11 ++ [111; 107; 0; 0; 0; 0; 0; 0] ++
  le32 0 ++ le32 8.

(** The block in a memory that holds [d] everywhere else. *)
Definition sample_memory (d : Z) : memory := fun a => aget d sample_block (a - 0x1000).

Definition sample_context : boot_information :=
  MkInformation 0x1000 0x1088 (Some 0x1008) None None None (Some 0x1078) 0 2 2
    0x9f000 0xa0000 (MkFramebuffer 0x10000 8 2 2 16 32 16 8 0 true).

Lemma sample_parses d :
  boot_information_parse (sample_memory d) MULTIBOOT2_BOOT_MAGIC 0x1000
    (Some boot_information_reset) = Some (BOOT_STATUS_OK, Some sample_context).
Proof. vm_compute. reflexivity. Qed.

Lemma sample_agree d1 d2 :
  agree (sample_memory d1) (sample_memory d2) 0x1000 (0x1000 + 136).
Proof.
  intros a Ha. unfold byte_at, sample_memory, aget. f_equal.
  apply nth_indep. change (length sample_block) with 136%nat. lia.
Qed.

(** * Properties *)

(** C30 (memory safety): the parser reads nothing but the eight bytes of the
    header and the block whose size that header declares.  Two memories that
    agree there give the same status and the same context, whatever lies
    anywhere else. *)
Theorem parse_reads_inside_block m1 m2 magic addr context :
  is_u64 addr ->
  agree m1 m2 addr (addr + sizeof_information_header) ->
  agree m1 m2 addr (addr + read_u32 m1 addr) ->
  boot_information_parse m1 magic addr context =
  boot_information_parse m2 magic addr context.
Proof.
  intros Ha Hhdr Hblk. destruct context as [c|]; [|done].
  assert (read_u32 m1 addr = read_u32 m2 addr) as Et
    by (apply (read_u32_agree _ _ _ _ Hhdr); unfold sizeof_information_header; lia).
  assert (read_u32 m1 (addr + 4) = read_u32 m2 (addr + 4)) as Er
    by (apply (read_u32_agree _ _ _ _ Hhdr); unfold sizeof_information_header; lia).
  unfold boot_information_parse. rewrite <- Et, <- Er.
  repeat (split_if; [done|]).
  destruct (entry_checks addr (read_u32 m1 addr)) as [Hfit ->]; try done.
  rewrite (tag_loop_agree m1 m2) by (try done; destruct Hfit;
    unfold sizeof_information_header, sizeof_tag in *; lia). done.
Qed.

Lemma parse_reads_inside_block_witness :
  boot_information_parse (sample_memory 0) MULTIBOOT2_BOOT_MAGIC 0x1000
    (Some boot_information_reset) =
  boot_information_parse (sample_memory 0xff) MULTIBOOT2_BOOT_MAGIC 0x1000
    (Some boot_information_reset).
Proof.
  apply parse_reads_inside_block.
  - unfold is_u64, UINT64_MAX. lia.
  - intros a Ha. apply sample_agree. unfold sizeof_information_header in *. lia.
  - apply sample_agree.
Defined.

(** C31 (termination): on every memory, magic and 64-bit address the parser
    returns a status; the fuel of the tag loop is never exhausted, because
    every tag that is not refused advances by at least eight bytes. *)
Theorem parse_terminates m magic addr context :
  is_u64 addr -> is_Some (boot_information_parse m magic addr context).
Proof.
  intros Ha. destruct context as [c|]; [|done].
  destruct (parse_entry m magic addr c Ha) as [(st & Hst & ->)|(_ & Hfit & ->)].
  - done.
  - destruct (tag_loop_result m addr _ Hfit) as (st & c1 & -> & _). done.
Qed.

Lemma parse_terminates_witness :
  is_Some (boot_information_parse (sample_memory 0) MULTIBOOT2_BOOT_MAGIC 0x1000
             (Some boot_information_reset)).
Proof. apply parse_terminates. unfold is_u64, UINT64_MAX. lia. Defined.

(** An accepted block has a memory map that lies whole inside
    the block; every entry [boot_information_region_at] gives out is read from
    inside that tag and describes a region that does not wrap; and the totals
    the context carries are the saturating sum of the available regions and
    the highest end of any region. *)
Theorem parse_memory_map_sound m magic addr c c' :
  is_u64 addr ->
  boot_information_parse m magic addr (Some c) = Some (BOOT_STATUS_OK, Some c') ->
  exists map, c'.(memory_map) = Some map /\
    addr <= map /\ map + tag_size m map <= addr + read_u32 m addr /\
    (forall i, 0 <= i < c'.(memory_map_entry_count) ->
       exists r, boot_information_region_at m c' i = Some r /\ region_ok r /\
         map + sizeof_memory_map_tag <= entry_at m map i /\
         entry_at m map i + sizeof_memory_map_entry <= map + tag_size m map) /\
    c'.(reported_usable_bytes) = Z.min UINT64_MAX (usable_sum (boot_regions m c')) /\
    c'.(highest_reported_address) = highest_end (boot_regions m c').
Proof.
  intros Ha Hp. apply parse_ok_context in Hp as (Hok & [map Hm] & Hs & He & _);
    [|done]. destruct Hok as [Hmap _ _ _ _ _]. rewrite Hm in Hmap.
  destruct Hmap as [Hst Hfit _ Hrs Hu Hh]. exists map.
  pose proof (mf_hi _ _ _ _ Hfit). split_and!; try done; [lia|lia|].
  intros i Hi. pose proof (entry_inside _ _ _ _ _ Hfit Hi).
  eexists. split; [by eapply region_at_entry|]. split; [|done].
  rewrite Forall_forall in Hrs. apply Hrs.
  rewrite (boot_regions_entries _ _ _ _ _ Hfit Hm eq_refl).
  apply list_elem_of_fmap. exists i. split; [done|]. apply elem_of_seqZ. lia.
Qed.

Lemma parse_memory_map_sound_witness :
  exists map, sample_context.(memory_map) = Some map /\ 0x1000 <= map.
Proof.
  destruct (parse_memory_map_sound (sample_memory 0) MULTIBOOT2_BOOT_MAGIC 0x1000
    boot_information_reset sample_context) as (map & Hm & Hl & _);
    [unfold is_u64, UINT64_MAX; lia|apply sample_parses|eauto].
Defined.

(** When an accepted block carries a framebuffer, every pixel of
    it is a 4-aligned word between the framebuffer's address and the 4 GiB
    limit of the early map, two different pixels never share a byte, and the
    three colour channels are different whole bytes of the word. *)
Theorem parse_framebuffer_pixels m magic addr c c' x y x' y' :
  is_u64 addr ->
  boot_information_parse m magic addr (Some c) = Some (BOOT_STATUS_OK, Some c') ->
  c'.(framebuffer).(fb_present) = true ->
  0 <= x < c'.(framebuffer).(fb_width) -> 0 <= y < c'.(framebuffer).(fb_height) ->
  0 <= x' < c'.(framebuffer).(fb_width) -> 0 <= y' < c'.(framebuffer).(fb_height) ->
  let fb := c'.(framebuffer) in
  let a := pixel_address fb x y in
  fb.(fb_address) <= a /\ a + 4 <= fb.(fb_address) + fb.(fb_size) /\
  fb.(fb_address) + fb.(fb_size) <= SAPOTE_EARLY_PHYSICAL_LIMIT /\ a mod 4 = 0 /\
  ((x, y) <> (x', y') -> a + 4 <= pixel_address fb x' y' \/
                         pixel_address fb x' y' + 4 <= a) /\
  NoDup [fb.(fb_red_position); fb.(fb_green_position); fb.(fb_blue_position)] /\
  Forall (fun p => 0 <= p < 32 /\ p mod 8 = 0)
    [fb.(fb_red_position); fb.(fb_green_position); fb.(fb_blue_position)].
Proof.
  intros Ha Hp Hpr Hx Hy Hx' Hy'. apply parse_ok_context in Hp as (Hok & _);
    [|done]. destruct Hok as [_ Hfb _ _ _ _]. specialize (Hfb Hpr). cbv zeta.
  set (fb := c'.(framebuffer)) in *. destruct Hfb.
  unfold pixel_address, BOOT_FRAMEBUFFER_BYTES_PER_PIXEL.
  split_and!; try done; [nia|nia| |].
  - rewrite Z.add_mod, (Z.add_mod (fb_address fb)), Z.mul_mod, fo_pitch0, fo_aligned0,
      Z.mul_0_r by lia. rewrite Z.mod_mul by lia. done.
  - intros Hne. assert (y < y' \/ y' < y \/ (y = y' /\ x <> x')) as [?|[?|[-> ?]]].
    { destruct (decide (y = y')) as [->|]; [|lia]. right; right.
      split; [done|congruence]. }
    all: nia.
Qed.

Lemma parse_framebuffer_pixels_witness :
  pixel_address sample_context.(framebuffer) 1 1 + 4 <=
  sample_context.(framebuffer).(fb_address) + sample_context.(framebuffer).(fb_size).
Proof.
  apply (parse_framebuffer_pixels (sample_memory 0) MULTIBOOT2_BOOT_MAGIC 0x1000
    boot_information_reset sample_context 1 1 0 0);
    [unfold is_u64, UINT64_MAX; lia|apply sample_parses|reflexivity|simpl; lia..].
Defined.

(** Every other pointer an accepted context carries stays inside
    the block: a loader name or command line ends at its first NUL before the
    block does, and an ACPI tag is whole and large enough for the root pointer
    of its revision. *)
Theorem parse_references_inside m magic addr c c' :
  is_u64 addr ->
  boot_information_parse m magic addr (Some c) = Some (BOOT_STATUS_OK, Some c') ->
  let hi := addr + read_u32 m addr in
  (forall p, c'.(boot_loader_name) = Some p ->
     string_ok m addr hi p c'.(boot_loader_name_length)) /\
  (forall p, c'.(command_line) = Some p ->
     string_ok m addr hi p c'.(command_line_length)) /\
  (forall t, c'.(acpi_old) = Some t ->
     acpi_ok m addr hi MULTIBOOT2_TAG_ACPI_OLD ACPI_RSDP_V1_SIZE t) /\
  (forall t, c'.(acpi_new) = Some t ->
     acpi_ok m addr hi MULTIBOOT2_TAG_ACPI_NEW ACPI_RSDP_V2_SIZE t).
Proof.
  intros Ha Hp. apply parse_ok_context in Hp as (Hok & _ & Hs & He & _); [|done].
  destruct Hok. rewrite Hs, He in *. done.
Qed.

Lemma parse_references_inside_witness :
  string_ok (sample_memory 0) 0x1000 0x1088 0x1078 2.
Proof.
  destruct (parse_references_inside (sample_memory 0) MULTIBOOT2_BOOT_MAGIC 0x1000
    boot_information_reset sample_context) as (_ & Hc & _);
    [unfold is_u64, UINT64_MAX; lia|apply sample_parses|].
  apply (Hc 0x1078). reflexivity.
Defined.

End Multiboot2.
