(* ===== verification/Acpi.v ===== *)
(** ACPI byte primitives and root pointer discovery: src/src/kernel/acpi_util.c
    and src/src/kernel/acpi.c.

    A [const uint8_t *] or a [const void *] is a [bytes]: the function from an
    offset to the byte there, [at_address m a] for the object at a physical
    address and [advance b k] for [b + k].  The packed structures of the tables
    are loads at their field offsets.  Fixed [char] arrays are lists of byte
    values.  The theorems say which root pointers are accepted, that a refusal
    leaves the caller's structure reset, and that after a successful
    [boot_information_parse] the discovery reads only the boot information
    block. *)
From stdpp Require Import strings.
From S2P Require Import Prelude Multiboot2.

Module Acpi.
Import Multiboot2.

Open Scope Z_scope.

(** * acpi_util.c *)

Definition ACPI_SDT_HEADER_SIZE : Z := 36.
Definition ACPI_MADT_FIXED_SIZE : Z := 44.
Definition ACPI_MAX_TABLE_SIZE : Z := 1024 * 1024.

Definition bytes : Type := Z -> Z.
Definition at_address (m : memory) (a : Z) : bytes := fun i => byte_at m (a + i).
Definition advance (b : bytes) (k : Z) : bytes := fun i => b (k + i).
(** The bytes of a fixed array. *)
Definition of_list (l : list Z) : bytes := fun i => aget 0 l i.

Definition acpi_span_is_early_mapped (address length : Z) : bool :=
  (address <? SAPOTE_EARLY_PHYSICAL_LIMIT) &&
  (length <=? u64 (SAPOTE_EARLY_PHYSICAL_LIMIT - address)).

Definition acpi_byte_sum (data : bytes) (size : Z) : Z :=
  foldl (fun sum index => u8 (sum + data index)) 0 (seqZ 0 size).

Definition acpi_bytes_equal (left right : bytes) (size : Z) : bool :=
  match
    for_each (fun index (_ : unit) =>
        if negb (left index =? right index) then Return false else Next tt)
      (seqZ 0 size) tt
  with
  | Return b => b
  | Next _ => true
  end.

(** [acpi_bytes_zero] over an array of [size] bytes. *)
Definition acpi_bytes_zero (size : Z) : list Z := replicate (Z.to_nat size) 0.

Definition acpi_read_u16 (b : bytes) : Z := u16 (Z.lor (b 0) (Z.shiftl (b 1) 8)).

Definition acpi_read_u32 (b : bytes) : Z :=
  Z.lor (Z.lor (Z.lor (b 0) (Z.shiftl (b 1) 8)) (Z.shiftl (b 2) 16))
    (Z.shiftl (b 3) 24).

Definition acpi_read_u64 (b : bytes) : Z :=
  Z.lor (acpi_read_u32 b) (Z.shiftl (acpi_read_u32 (advance b 4)) 32).

Definition acpi_copy_string (destination : list Z) (source : bytes) (length : Z)
  : list Z :=
  aset (foldl (fun d index => aset d index (source index)) destination
          (seqZ 0 length)) length 0.

(** * acpi.h *)

Inductive acpi_root_kind : Type := ACPI_ROOT_NONE | ACPI_ROOT_RSDT | ACPI_ROOT_XSDT.

#[export] Instance acpi_root_kind_eq_dec : EqDecision acpi_root_kind.
Proof. solve_decision. Defined.

Inductive acpi_status : Type :=
| ACPI_STATUS_OK
| ACPI_STATUS_NULL_ARGUMENT
| ACPI_STATUS_MISSING_RSDP
| ACPI_STATUS_BAD_TAG_SIZE
| ACPI_STATUS_BAD_SIGNATURE
| ACPI_STATUS_BAD_LEGACY_CHECKSUM
| ACPI_STATUS_BAD_REVISION
| ACPI_STATUS_BAD_LENGTH
| ACPI_STATUS_BAD_EXTENDED_CHECKSUM
| ACPI_STATUS_NULL_ROOT
| ACPI_STATUS_ROOT_OUTSIDE_EARLY_MAP
| ACPI_STATUS_BAD_ROOT_SIGNATURE
| ACPI_STATUS_BAD_ROOT_LENGTH
| ACPI_STATUS_BAD_ROOT_ENTRY_SIZE
| ACPI_STATUS_TOO_MANY_ROOT_ENTRIES
| ACPI_STATUS_BAD_ROOT_CHECKSUM
| ACPI_STATUS_NULL_TABLE
| ACPI_STATUS_TABLE_OUTSIDE_EARLY_MAP
| ACPI_STATUS_BAD_TABLE_LENGTH
| ACPI_STATUS_BAD_TABLE_CHECKSUM
| ACPI_STATUS_MISSING_MADT
| ACPI_STATUS_DUPLICATE_MADT
| ACPI_STATUS_BAD_MADT_LENGTH
| ACPI_STATUS_BAD_MADT_FLAGS
| ACPI_STATUS_TRUNCATED_MADT_ENTRY
| ACPI_STATUS_BAD_MADT_ENTRY_LENGTH
| ACPI_STATUS_BAD_PROCESSOR_FLAGS
| ACPI_STATUS_DUPLICATE_PROCESSOR_UID
| ACPI_STATUS_TOO_MANY_LOCAL_APICS
| ACPI_STATUS_DUPLICATE_IO_APIC_ID
| ACPI_STATUS_TOO_MANY_IO_APICS
| ACPI_STATUS_APIC_OUTSIDE_EARLY_MAP
| ACPI_STATUS_BAD_OVERRIDE_BUS
| ACPI_STATUS_BAD_OVERRIDE_SOURCE
| ACPI_STATUS_BAD_OVERRIDE_FLAGS
| ACPI_STATUS_DUPLICATE_OVERRIDE_SOURCE
| ACPI_STATUS_DUPLICATE_APIC_ADDRESS_OVERRIDE
| ACPI_STATUS_MISSING_BOOT_PROCESSOR
| ACPI_STATUS_MISSING_IO_APIC
| ACPI_STATUS_MISSING_FADT
| ACPI_STATUS_DUPLICATE_FADT
| ACPI_STATUS_BAD_FADT_LENGTH
| ACPI_STATUS_BAD_PM_TIMER_LENGTH
| ACPI_STATUS_MISSING_PM_TIMER
| ACPI_STATUS_BAD_PM_TIMER_BLOCK
| ACPI_STATUS_BAD_PM_TIMER_PORT
| ACPI_STATUS_MISSING_MCFG
| ACPI_STATUS_DUPLICATE_MCFG
| ACPI_STATUS_BAD_MCFG_LENGTH
| ACPI_STATUS_NO_ECAM_ALLOCATIONS
| ACPI_STATUS_TOO_MANY_ECAM_ALLOCATIONS
| ACPI_STATUS_BAD_ECAM_BUS_RANGE
| ACPI_STATUS_BAD_ECAM_BASE
| ACPI_STATUS_OVERLAPPING_ECAM_RANGE.

#[export] Instance acpi_status_eq_dec : EqDecision acpi_status.
Proof. solve_decision. Defined.

(** [status == expected]. *)
Definition is_status (status expected : acpi_status) : bool :=
  bool_decide (status = expected).

Record acpi_root : Type := MkRoot {
  kind : acpi_root_kind;
  root_revision : Z;
  root_oem_id : list Z;
  root_address : Z
}.

(** * acpi.c *)

(** struct acpi_rsdp. *)
Definition rsdp_revision (b : bytes) : Z := b 15.
Definition rsdp_rsdt_address (b : bytes) : Z := acpi_read_u32 (advance b 16).
Definition rsdp_length (b : bytes) : Z := acpi_read_u32 (advance b 20).
Definition rsdp_xsdt_address (b : bytes) : Z := acpi_read_u64 (advance b 24).

(** "RSD PTR " and "SAPOTE". *)
Definition rsdp_signature : list Z := [82; 83; 68; 32; 80; 84; 82; 32].
Definition test_oem_id : list Z := [83; 65; 80; 79; 84; 69].

Definition root_reset : acpi_root := MkRoot ACPI_ROOT_NONE 0 (acpi_bytes_zero 7) 0.

(** The checks on the structure itself, [payload_size] bytes of it. *)
Definition decode_rsdp (modern : bool) (rsdp : bytes) (payload_size : Z)
  : acpi_status * acpi_root :=
  let refuse st := (st, root_reset) in
  if negb (acpi_bytes_equal rsdp (of_list rsdp_signature) 8) then
    refuse ACPI_STATUS_BAD_SIGNATURE
  else if negb (acpi_byte_sum rsdp ACPI_RSDP_V1_SIZE =? 0) then
    refuse ACPI_STATUS_BAD_LEGACY_CHECKSUM
  else
  match
    if modern then
      if rsdp_revision rsdp <? 2 then inr ACPI_STATUS_BAD_REVISION
      else if (rsdp_length rsdp <? ACPI_RSDP_V2_SIZE) ||
              (rsdp_length rsdp >? payload_size) then inr ACPI_STATUS_BAD_LENGTH
      else if negb (acpi_byte_sum rsdp (rsdp_length rsdp) =? 0) then
        inr ACPI_STATUS_BAD_EXTENDED_CHECKSUM
      else
        inl (if negb (rsdp_xsdt_address rsdp =? 0) then ACPI_ROOT_XSDT
             else ACPI_ROOT_RSDT,
             if negb (rsdp_xsdt_address rsdp =? 0) then rsdp_xsdt_address rsdp
             else rsdp_rsdt_address rsdp)
    else if negb (rsdp_revision rsdp =? 0) then inr ACPI_STATUS_BAD_REVISION
    else inl (ACPI_ROOT_RSDT, rsdp_rsdt_address rsdp)
  with
  | inr st => refuse st
  | inl (root_kind, address) =>
      if address =? 0 then refuse ACPI_STATUS_NULL_ROOT
      else if negb (acpi_span_is_early_mapped address ACPI_SDT_HEADER_SIZE) then
        refuse ACPI_STATUS_ROOT_OUTSIDE_EARLY_MAP
      else
        (ACPI_STATUS_OK,
         MkRoot root_kind (rsdp_revision rsdp)
           (foldl (fun d index => aset d index (rsdp (9 + index)))
              root_reset.(root_oem_id) (seqZ 0 6)) address)
  end.

(** The discovery from the tag on; [modern] says which tag it is. *)
Definition discover_from_tag (m : memory) (modern : bool) (tag : Z)
  : acpi_status * acpi_root :=
  if negb (tag_type m tag =?
           (if modern then MULTIBOOT2_TAG_ACPI_NEW else MULTIBOOT2_TAG_ACPI_OLD)) ||
     (tag_size m tag <?
        sizeof_tag + (if modern then ACPI_RSDP_V2_SIZE else ACPI_RSDP_V1_SIZE)) then
    (ACPI_STATUS_BAD_TAG_SIZE, root_reset)
  else
    decode_rsdp modern (at_address m (tag + sizeof_tag))
      (u64 (tag_size m tag - sizeof_tag)).

Definition acpi_root_discover (m : memory) (context : option boot_information)
    (root : option acpi_root) : acpi_status * option acpi_root :=
  match context, root with
  | Some c, Some _ =>
      let modern := bool_decide (is_Some c.(acpi_new)) in
      match (if modern then c.(acpi_new) else c.(acpi_old)) with
      | None => (ACPI_STATUS_MISSING_RSDP, Some root_reset)
      | Some tag =>
          let '(st, r) := discover_from_tag m modern tag in (st, Some r)
      end
  | _, _ => (ACPI_STATUS_NULL_ARGUMENT, root)
  end.

(** struct acpi_test_tag on the stack: 48 bytes at some address. *)
Definition store32 (l : list Z) (offset value : Z) : list Z :=
  foldl (fun d i => aset d (offset + i) (u8 (Z.shiftr value (8 * i)))) l (seqZ 0 4).
Definition store64 (l : list Z) (offset value : Z) : list Z :=
  foldl (fun d i => aset d (offset + i) (u8 (Z.shiftr value (8 * i)))) l (seqZ 0 8).
(** A loop that stores an array from [offset] on. *)
Definition store_list (l : list Z) (offset : Z) (s : list Z) : list Z :=
  foldl (fun d i => aset d (offset + i) (aget 0 s i)) l (seqZ 0 (zlength s)).

Definition make_test_tag (modern : bool) : list Z :=
  let tag := acpi_bytes_zero 48 in
  let tag := store32 tag 0
    (if modern then MULTIBOOT2_TAG_ACPI_NEW else MULTIBOOT2_TAG_ACPI_OLD) in
  let tag := store32 tag 4
    (sizeof_tag + (if modern then ACPI_RSDP_V2_SIZE else ACPI_RSDP_V1_SIZE)) in
  let tag := store_list tag 8 rsdp_signature in
  let tag := store_list tag 17 test_oem_id in
  let tag := aset tag 23 (if modern then 2 else 0) in
  let tag := store32 tag 24 0x12345000 in
  let tag := store32 tag 28 ACPI_RSDP_V2_SIZE in
  let tag := store64 tag 32 0x23456000 in
  let tag := aset tag 16
    (u8 (0 - acpi_byte_sum (of_list (drop 8 tag)) ACPI_RSDP_V1_SIZE)) in
  aset tag 40 (u8 (0 - acpi_byte_sum (of_list (drop 8 tag)) ACPI_RSDP_V2_SIZE)).

(** The memory [m] with the object [l] at [address]. *)
Definition with_object (m : memory) (address : Z) (l : list Z) : memory :=
  fun a => if (address <=? a) && (a <? address + zlength l)
           then aget 0 l (a - address) else m a.

(** [acpi_root_discover] on a context whose only ACPI tag is the test tag. *)
Definition test_discover (m : memory) (address : Z) (modern : bool) (tag : list Z)
  : acpi_status * option acpi_root :=
  acpi_root_discover (with_object m address tag)
    (Some (if modern then with_acpi boot_information_reset None (Some address)
           else with_acpi boot_information_reset (Some address) None))
    (Some root_reset).

Definition acpi_self_test (m : memory) (address : Z) : bool :=
  let tag := make_test_tag true in
  match test_discover m address true tag with
  | (st, Some root) =>
      is_status st ACPI_STATUS_OK &&
      bool_decide (root.(kind) = ACPI_ROOT_XSDT) &&
      (root.(root_address) =? 0x23456000) &&
      acpi_bytes_equal (of_list root.(root_oem_id)) (of_list test_oem_id) 6
  | _ => false
  end &&
  (let tag := aset tag 8 66 in
   is_status (test_discover m address true tag).1 ACPI_STATUS_BAD_SIGNATURE) &&
  (let tag := make_test_tag true in
   let tag := aset tag 16 (Z.lxor (aget 0 tag 16) 1) in
   is_status (test_discover m address true tag).1 ACPI_STATUS_BAD_LEGACY_CHECKSUM) &&
  (let tag := make_test_tag true in
   let tag := store32 tag 28 (ACPI_RSDP_V2_SIZE - 1) in
   is_status (test_discover m address true tag).1 ACPI_STATUS_BAD_LENGTH) &&
  (let tag := make_test_tag true in
   let tag := aset tag 40 (Z.lxor (aget 0 tag 40) 1) in
   is_status (test_discover m address true tag).1
     ACPI_STATUS_BAD_EXTENDED_CHECKSUM) &&
  (let tag := make_test_tag false in
   match test_discover m address false tag with
   | (st, Some root) =>
       is_status st ACPI_STATUS_OK && bool_decide (root.(kind) = ACPI_ROOT_RSDT) &&
       (root.(root_address) =? 0x12345000)
   | _ => false
   end).

Definition acpi_root_kind_string (k : acpi_root_kind) : string :=
  match k with
  | ACPI_ROOT_XSDT => "XSDT"
  | ACPI_ROOT_RSDT => "RSDT"
  | ACPI_ROOT_NONE => "none"
  end.

#[global] Arguments acpi_byte_sum : simpl never.
#[global] Arguments acpi_bytes_equal : simpl never.
#[global] Arguments acpi_span_is_early_mapped : simpl never.
#[global] Arguments acpi_read_u16 : simpl never.
#[global] Arguments acpi_read_u32 : simpl never.
#[global] Arguments acpi_read_u64 : simpl never.
#[global] Arguments advance : simpl never.
#[global] Arguments at_address : simpl never.

(** * What the primitives compute *)

(** Two byte views that agree on the first [n] bytes. *)
Definition agree_on (n : Z) (a b : bytes) : Prop := forall i, 0 <= i < n -> a i = b i.

#[export] Instance agree_on_equivalence n : Equivalence (agree_on n).
Proof.
  split; [by intros a i|intros a b H i Hi; by rewrite H|].
  intros a b c H1 H2 i Hi. by rewrite H1, H2.
Qed.

Lemma agree_on_le n k a b : k <= n -> agree_on n a b -> agree_on k a b.
Proof. intros Hk H i Hi. apply H. lia. Qed.

Lemma agree_advance n k a b :
  0 <= k -> agree_on n a b -> agree_on (n - k) (advance a k) (advance b k).
Proof. intros Hk H i Hi. apply H. lia. Qed.

Lemma read_u16_agree n a b : 2 <= n -> agree_on n a b -> acpi_read_u16 a = acpi_read_u16 b.
Proof. intros Hn H. unfold acpi_read_u16. by rewrite !H by lia. Qed.

Lemma acpi_read_u32_agree n a b :
  4 <= n -> agree_on n a b -> acpi_read_u32 a = acpi_read_u32 b.
Proof. intros Hn H. unfold acpi_read_u32. by rewrite !H by lia. Qed.

Lemma acpi_read_u64_agree n a b :
  8 <= n -> agree_on n a b -> acpi_read_u64 a = acpi_read_u64 b.
Proof.
  intros Hn H. unfold acpi_read_u64. f_equal; [by apply (acpi_read_u32_agree n); [lia|]|].
  f_equal. apply (acpi_read_u32_agree (n - 4)); [lia|]. by apply agree_advance.
Qed.

Lemma byte_sum_agree n a b : agree_on n a b -> acpi_byte_sum a n = acpi_byte_sum b n.
Proof.
  intros H. unfold acpi_byte_sum.
  assert (forall l s, (forall i, i ∈ l -> 0 <= i < n) ->
    foldl (fun sum index => u8 (sum + a index)) s l =
    foldl (fun sum index => u8 (sum + b index)) s l) as Hl.
  { induction l as [|i l IH]; intros s Hl; [done|]. simpl.
    rewrite H by (apply Hl; left). apply IH. intros. apply Hl. by right. }
  apply Hl. intros i Hi%elem_of_seqZ. lia.
Qed.

Lemma bytes_equal_spec left right n :
  acpi_bytes_equal left right n = true <-> agree_on n left right.
Proof.
  unfold acpi_bytes_equal, agree_on.
  assert (forall l, match for_each (fun index (_ : unit) =>
      if negb (left index =? right index) then Return false else Next tt) l tt with
    | Return b => b | Next _ => true end = true <->
    forall i, i ∈ l -> left i = right i) as Hl.
  { induction l as [|i l IH]; simpl; [split; [intros _ i Hi; by inversion Hi|done]|].
    destruct (left i =? right i) eqn:E; simpl; bool_hyps.
    - rewrite IH. split; intros H j Hj; [|by apply H; right].
      apply elem_of_cons in Hj as [->|Hj]; auto.
    - split; [done|]. intros H. exfalso. apply E, H. left. }
  rewrite Hl. split; intros H i Hi; apply H; [apply elem_of_seqZ; lia|].
  apply elem_of_seqZ in Hi. lia.
Qed.

Lemma bytes_equal_agree n a b r :
  agree_on n a b -> acpi_bytes_equal a r n = acpi_bytes_equal b r n.
Proof.
  intros H. apply eq_true_iff_eq. rewrite !bytes_equal_spec. by rewrite H.
Qed.

(** The checksum is the sum of the bytes, modulo 256. *)
Definition byte_total (b : bytes) (n : Z) : Z := foldr Z.add 0 (b <$> seqZ 0 n).

Lemma byte_sum_total b n : acpi_byte_sum b n = byte_total b n mod 256.
Proof.
  unfold acpi_byte_sum, byte_total.
  assert (forall l s, foldl (fun sum index => u8 (sum + b index)) (s mod 256) l =
    (s + foldr Z.add 0 (b <$> l)) mod 256) as H.
  { induction l as [|i l IH]; intros s; simpl; [by rewrite Z.add_0_r|].
    replace (u8 (s mod 256 + b i)) with ((s + b i) mod 256)
      by (unfold u8; by rewrite Zplus_mod_idemp_l).
    rewrite IH. by rewrite Z.add_assoc. }
  by apply (H (seqZ 0 n) 0).
Qed.

Lemma early_mapped_spec a n :
  is_u64 a -> 0 <= n ->
  acpi_span_is_early_mapped a n = true <->
  a < SAPOTE_EARLY_PHYSICAL_LIMIT /\ a + n <= SAPOTE_EARLY_PHYSICAL_LIMIT.
Proof.
  intros Ha Hn. unfold acpi_span_is_early_mapped.
  destruct (a <? SAPOTE_EARLY_PHYSICAL_LIMIT) eqn:E; simpl; bool_hyps.
  - rewrite u64_small
      by (unfold is_u64, UINT64_MAX, SAPOTE_EARLY_PHYSICAL_LIMIT in *; lia).
    rewrite Z.leb_le. lia.
  - split; [done|lia].
Qed.

(** Bytes and the loads built from them stay in their widths. *)
Definition is_bytes (b : bytes) : Prop := forall i, 0 <= b i < 256.

Lemma at_address_bytes m a : is_bytes (at_address m a).
Proof. intros i. apply (byte_at_range m (a + i)). Qed.

Lemma advance_bytes b k : is_bytes b -> is_bytes (advance b k).
Proof. intros H i. apply H. Qed.

#[export] Hint Resolve at_address_bytes advance_bytes : sapote.

Lemma acpi_read_u32_range b : is_bytes b -> is_u32 (acpi_read_u32 b).
Proof.
  intros Hb. assert (0 <= acpi_read_u32 b < 2 ^ 32) as H; [|unfold is_u32, UINT32_MAX; lia].
  unfold acpi_read_u32.
  pose proof (Hb 0). pose proof (Hb 1). pose proof (Hb 2). pose proof (Hb 3).
  repeat apply lor_range; try lia; apply shiftl_range; lia.
Qed.

Lemma acpi_read_u64_range b : is_bytes b -> is_u64 (acpi_read_u64 b).
Proof.
  intros Hb.
  pose proof (acpi_read_u32_range b Hb) as H0.
  pose proof (acpi_read_u32_range _ (advance_bytes b 4 Hb)) as H1.
  assert (0 <= acpi_read_u64 b < 2 ^ 64) as H; [|unfold is_u64, UINT64_MAX; lia].
  unfold acpi_read_u64, is_u32, UINT32_MAX in *.
  apply lor_range; [lia|lia|]. apply shiftl_range; lia.
Qed.

#[export] Hint Resolve acpi_read_u32_range acpi_read_u64_range : sapote.

Lemma at_address_advance m a k i : advance (at_address m a) k i = at_address m (a + k) i.
Proof. unfold advance, at_address. f_equal. lia. Qed.

(** Masking with [~(2^k - 1)] is zero exactly below [2^k]. *)
Lemma masked_zero k w x :
  0 <= k <= w -> 0 <= x < 2 ^ w ->
  Z.land x (Z.lnot (2 ^ k - 1) mod 2 ^ w) = 0 <-> 0 <= x < 2 ^ k.
Proof.
  intros Hk Hx. rewrite <- (Z.land_ones _ w), Z.land_assoc by lia.
  rewrite <- Z.land_assoc, (Z.land_comm (Z.lnot _)), Z.land_assoc.
  rewrite (Z.land_ones x w), (Z.mod_small x) by lia.
  replace (2 ^ k - 1) with (Z.ones k) by (rewrite Z.ones_equiv; lia).
  rewrite <- Z.ldiff_land, Z.ldiff_ones_r, Z.shiftr_div_pow2, Z.shiftl_mul_pow2 by lia.
  assert (0 < 2 ^ k) as Hp by lia. split.
  - intros H. assert (x / 2 ^ k = 0) as Hd by nia. apply Z.div_small_iff in Hd; lia.
  - intros H. by rewrite Z.div_small.
Qed.

Lemma flag_bit x k : 0 <= k -> negb (Z.land x (2 ^ k) =? 0) = Z.testbit x k.
Proof.
  intros Hk. destruct (Z.testbit x k) eqn:E.
  - destruct (Z.eqb_spec (Z.land x (2 ^ k)) 0) as [Ez|]; [|done].
    apply (f_equal (fun y => Z.testbit y k)) in Ez.
    by rewrite Z.land_spec, E, Z.pow2_bits_true, Z.bits_0 in Ez.
  - assert (Z.land x (2 ^ k) = 0) as ->; [|done].
    apply Z.bits_inj'. intros n Hn. rewrite Z.land_spec, Z.bits_0.
    destruct (decide (n = k)) as [->|Hne]; [by rewrite E|].
    by rewrite Z.pow2_bits_false, andb_false_r by done.
Qed.

(** A copied string is the copied bytes and their terminator. *)
Lemma copy_loop (d : list Z) (s : bytes) k n :
  0 <= k -> 0 <= n -> k + n <= zlength d ->
  foldl (fun d i => aset d i (s i)) d (seqZ k n) =
  take (Z.to_nat k) d ++ (s <$> seqZ k n) ++ drop (Z.to_nat (k + n)) d.
Proof.
  intros Hk Hn Hl. revert k d Hk Hl. pattern n. apply natlike_ind; [|clear n Hn|done].
  - intros k d Hk Hl. rewrite seqZ_nil by lia. simpl. rewrite Z.add_0_r.
    by rewrite take_drop.
  - intros n Hn IH k d Hk Hl. rewrite seqZ_cons by lia. simpl.
    rewrite Z.pred_succ, IH by (rewrite ?zlength_aset; lia).
    unfold aset. unfold zlength in *.
    replace (Z.to_nat (Z.succ k)) with (S (Z.to_nat k)) by lia.
    rewrite (take_S_r _ _ (s k))
      by (apply list_lookup_insert_eq; lia).
    rewrite take_insert_ge, drop_insert_lt by lia.
    rewrite <- app_assoc. simpl. do 4 f_equal. lia.
Qed.

Lemma copy_string_spec (d : list Z) (s : bytes) n :
  0 <= n -> zlength d = n + 1 -> acpi_copy_string d s n = (s <$> seqZ 0 n) ++ [0].
Proof.
  intros Hn Hd. unfold acpi_copy_string. rewrite copy_loop by lia. simpl.
  unfold aset, zlength in *. rewrite Z.add_0_l. change (Z.to_nat 0) with 0%nat.
  assert (length (s <$> seqZ 0 n) = Z.to_nat n) as Hs
    by (rewrite length_fmap, length_seqZ; lia).
  simpl. rewrite insert_app_r_alt by lia. rewrite Hs, Nat.sub_diag.
  f_equal. destruct (drop (Z.to_nat n) d) as [|x [|y l]] eqn:E;
    apply (f_equal length) in E; rewrite length_drop in E; simpl in E; [lia|done|lia].
Qed.

(** * Root discovery *)

Lemma tag_type_view m tag : tag_type m tag = acpi_read_u32 (at_address m tag).
Proof. unfold tag_type, read_u32, acpi_read_u32, at_address. by rewrite Z.add_0_r. Qed.

Lemma tag_size_view m tag : tag_size m tag = acpi_read_u32 (advance (at_address m tag) 4).
Proof.
  unfold tag_size, read_u32, acpi_read_u32, advance, at_address.
  by rewrite !Z.add_assoc, !Z.add_0_r.
Qed.

Lemma payload_small m tag :
  sizeof_tag <= tag_size m tag ->
  u64 (tag_size m tag - sizeof_tag) = tag_size m tag - sizeof_tag.
Proof.
  intros Ht. pose proof (read_u32_range m (tag + 4)) as H.
  apply u64_small. unfold is_u64, is_u32, tag_size, sizeof_tag, UINT32_MAX, UINT64_MAX in *.
  lia.
Qed.

Definition rsdp_size (modern : bool) : Z :=
  if modern then ACPI_RSDP_V2_SIZE else ACPI_RSDP_V1_SIZE.

Lemma decode_rsdp_local modern a b n :
  rsdp_size modern <= n -> agree_on n a b -> decode_rsdp modern a n = decode_rsdp modern b n.
Proof.
  intros Hn Hv. assert (20 <= n) by (destruct modern; simpl in Hn;
    unfold ACPI_RSDP_V1_SIZE, ACPI_RSDP_V2_SIZE in *; lia).
  unfold decode_rsdp. rewrite (bytes_equal_agree 8 a b) by (by apply (agree_on_le n); [lia|]).
  rewrite (byte_sum_agree _ a b)
    by (by apply (agree_on_le n); [unfold ACPI_RSDP_V1_SIZE; lia|]).
  assert (rsdp_revision a = rsdp_revision b) as -> by (apply Hv; lia).
  assert (rsdp_rsdt_address a = rsdp_rsdt_address b) as ->.
  { eapply acpi_read_u32_agree; [|by apply agree_advance]. lia. }
  change (seqZ 0 6) with [0; 1; 2; 3; 4; 5]. simpl foldl. rewrite !(Hv (9 + _)) by lia.
  destruct modern; [|done]. simpl in Hn. unfold ACPI_RSDP_V2_SIZE in Hn.
  assert (rsdp_length a = rsdp_length b) as ->.
  { eapply acpi_read_u32_agree; [|by apply agree_advance]. lia. }
  assert (rsdp_xsdt_address a = rsdp_xsdt_address b) as ->.
  { eapply acpi_read_u64_agree; [|by apply agree_advance]. lia. }
  destruct ((rsdp_length b <? ACPI_RSDP_V2_SIZE) || (rsdp_length b >? n)) eqn:El; [done|].
  bool_hyps. rewrite (byte_sum_agree (rsdp_length b) a b)
    by (by apply (agree_on_le n); [lia|]). done.
Qed.

(** The discovery reads the tag and nothing else, wherever the tag is. *)
Lemma discover_local m1 m2 modern t1 t2 :
  agree_on (Z.max sizeof_tag (tag_size m1 t1)) (at_address m1 t1) (at_address m2 t2) ->
  discover_from_tag m1 modern t1 = discover_from_tag m2 modern t2.
Proof.
  intros H.
  assert (tag_type m1 t1 = tag_type m2 t2) as Ht.
  { rewrite !tag_type_view. eapply acpi_read_u32_agree; [|done]. unfold sizeof_tag. lia. }
  assert (tag_size m1 t1 = tag_size m2 t2) as Hs.
  { rewrite !tag_size_view. eapply acpi_read_u32_agree; [|by apply agree_advance].
    unfold sizeof_tag. lia. }
  unfold discover_from_tag. rewrite Ht, Hs. split_if; [done|]. bool_hyps.
  rewrite Hs in H.
  change (if modern then ACPI_RSDP_V2_SIZE else ACPI_RSDP_V1_SIZE) with (rsdp_size modern) in *.
  assert (20 <= rsdp_size modern) by (by destruct modern).
  rewrite payload_small by (unfold sizeof_tag in *; lia).
  apply decode_rsdp_local; [lia|].
  intros i Hi. rewrite <- !at_address_advance.
  apply (agree_advance _ sizeof_tag) in H; [|done]. apply H. lia.
Qed.

(** What the discovery accepts: a root pointer structure of [payload] bytes and
    the root it describes. *)
Record rsdp_accepts (modern : bool) (b : bytes) (payload : Z) (r : acpi_root) : Prop := {
  ra_signature : forall i, 0 <= i < 8 -> b i = aget 0 rsdp_signature i;
  ra_checksum : byte_total b 20 mod 256 = 0;
  ra_revision : if modern then 2 <= b 15 else b 15 = 0;
  ra_extended : if modern then 36 <= rsdp_length b <= payload /\
                  byte_total b (rsdp_length b) mod 256 = 0 else True;
  ra_kind : r.(kind) = if modern && negb (rsdp_xsdt_address b =? 0)
                       then ACPI_ROOT_XSDT else ACPI_ROOT_RSDT;
  ra_address : r.(root_address) = if bool_decide (r.(kind) = ACPI_ROOT_XSDT)
                       then rsdp_xsdt_address b else rsdp_rsdt_address b;
  ra_inside : 0 < r.(root_address) /\
              r.(root_address) + ACPI_SDT_HEADER_SIZE <= SAPOTE_EARLY_PHYSICAL_LIMIT;
  ra_fields : r.(root_revision) = b 15 /\
              r.(root_oem_id) = [b 9; b 10; b 11; b 12; b 13; b 14; 0]
}.

Lemma oem_copied b :
  foldl (fun d index => aset d index (b (9 + index))) root_reset.(root_oem_id) (seqZ 0 6) =
  [b 9; b 10; b 11; b 12; b 13; b 14; 0].
Proof. by change (seqZ 0 6) with [0; 1; 2; 3; 4; 5]. Qed.

Lemma decode_rsdp_refused modern b n st r :
  decode_rsdp modern b n = (st, r) -> st <> ACPI_STATUS_OK -> r = root_reset.
Proof.
  unfold decode_rsdp. intros H Hst.
  repeat (split_if_in H; [by injection H|]).
  destruct (if modern then _ else _) as [[k a]|st']; [|by injection H].
  repeat (split_if_in H; [by injection H|]). congruence.
Qed.

Lemma decode_rsdp_never_tag modern b n r :
  decode_rsdp modern b n <> (ACPI_STATUS_BAD_TAG_SIZE, r).
Proof.
  unfold decode_rsdp. intros H.
  repeat (split_if_in H; [by injection H|]).
  destruct (if modern then _ else _) as [[k a]|st'] eqn:Ek;
    [repeat (split_if_in H; [by injection H|]); congruence|].
  injection H as -> _. destruct modern; cbv beta iota in Ek;
    repeat (split_if_in Ek; [congruence|]); congruence.
Qed.

(** Both table addresses are 64-bit values, so the span test is the bound. *)
Lemma rsdp_addresses b :
  is_bytes b -> is_u64 (rsdp_rsdt_address b) /\ is_u64 (rsdp_xsdt_address b).
Proof.
  intros Hb. pose proof (acpi_read_u32_range _ (advance_bytes b 16 Hb)) as Hr.
  split; [|by apply acpi_read_u64_range, advance_bytes].
  fold (rsdp_rsdt_address b) in Hr.
  unfold is_u32, is_u64, UINT32_MAX, UINT64_MAX in *. lia.
Qed.

Lemma header_mapped a :
  is_u64 a -> a <> 0 ->
  acpi_span_is_early_mapped a ACPI_SDT_HEADER_SIZE = true <->
  0 < a /\ a + ACPI_SDT_HEADER_SIZE <= SAPOTE_EARLY_PHYSICAL_LIMIT.
Proof.
  intros Ha Hz. rewrite early_mapped_spec by done.
  unfold is_u64, ACPI_SDT_HEADER_SIZE in *. lia.
Qed.

Lemma decode_rsdp_sound modern b n r :
  is_bytes b -> decode_rsdp modern b n = (ACPI_STATUS_OK, r) -> rsdp_accepts modern b n r.
Proof.
  intros Hb H. destruct (rsdp_addresses b Hb) as [Hr Hx].
  unfold decode_rsdp in H. rewrite oem_copied in H.
  split_if_in H; [done|]. split_if_in H; [done|].
  destruct (if modern then _ else _) as [[k a]|st'] eqn:Ek;
    [|by destruct modern; cbv beta iota in Ek; repeat (split_if_in Ek; [congruence|]);
       congruence].
  split_if_in H; [done|]. split_if_in H; [done|]. injection H as <-. bool_hyps.
  rewrite bytes_equal_spec, byte_sum_total in *.
  assert (is_u64 a) as Ha.
  { destruct modern; cbv beta iota in Ek; repeat (split_if_in Ek; [done|]);
      injection Ek as <- <-; [by split_if|done]. }
  apply header_mapped in Heqb3; [|done..].
  destruct modern; cbv beta iota in Ek; repeat (split_if_in Ek; [done|]);
    injection Ek as <- <-; bool_hyps; rewrite ?byte_sum_total in *;
    unfold ACPI_RSDP_V2_SIZE, rsdp_revision in *.
  - split; try done; try lia. by destruct (rsdp_xsdt_address b =? 0).
  - split; done.
Qed.

Lemma decode_rsdp_complete modern b n r :
  is_bytes b -> rsdp_accepts modern b n r -> decode_rsdp modern b n = (ACPI_STATUS_OK, r).
Proof.
  intros Hb [Hsig Hsum Hrev Hext Hk Ha Hin Hf]. destruct (rsdp_addresses b Hb) as [Hr Hx].
  unfold decode_rsdp. rewrite oem_copied.
  rewrite (proj2 (bytes_equal_spec b (of_list rsdp_signature) 8) Hsig), byte_sum_total.
  change ACPI_RSDP_V1_SIZE with 20. rewrite Hsum. simpl.
  assert ((if modern
    then if rsdp_revision b <? 2 then inr ACPI_STATUS_BAD_REVISION
      else if (rsdp_length b <? ACPI_RSDP_V2_SIZE) || (rsdp_length b >? n)
        then inr ACPI_STATUS_BAD_LENGTH
      else if negb (acpi_byte_sum b (rsdp_length b) =? 0)
        then inr ACPI_STATUS_BAD_EXTENDED_CHECKSUM
      else inl (if negb (rsdp_xsdt_address b =? 0) then ACPI_ROOT_XSDT else ACPI_ROOT_RSDT,
                if negb (rsdp_xsdt_address b =? 0) then rsdp_xsdt_address b
                else rsdp_rsdt_address b)
    else if negb (rsdp_revision b =? 0) then inr ACPI_STATUS_BAD_REVISION
    else inl (ACPI_ROOT_RSDT, rsdp_rsdt_address b)) = inl (kind r, root_address r)) as ->.
  { rewrite Ha, Hk. unfold rsdp_revision. destruct modern; simpl.
    - destruct Hext as [[Hl1 Hl2] Hs2]. rewrite (proj2 (Z.ltb_ge _ _)) by lia.
      rewrite (proj2 (Z.ltb_ge _ _)) by (unfold ACPI_RSDP_V2_SIZE; lia).
      rewrite Z.gtb_ltb, (proj2 (Z.ltb_ge _ _)) by lia. rewrite byte_sum_total, Hs2. simpl.
      by destruct (rsdp_xsdt_address b =? 0).
    - by rewrite Hrev. }
  rewrite (proj2 (Z.eqb_neq _ _)) by lia.
  assert (is_u64 (root_address r)) as Hu by (rewrite Ha; split_if; done).
  rewrite (proj2 (header_mapped _ Hu ltac:(lia)) Hin). simpl.
  destruct r, Hf. simpl in *. by subst.
Qed.

Lemma discover_from_tag_exact m modern tag r :
  discover_from_tag m modern tag = (ACPI_STATUS_OK, r) <->
  tag_type m tag = (if modern then MULTIBOOT2_TAG_ACPI_NEW else MULTIBOOT2_TAG_ACPI_OLD) /\
  sizeof_tag + rsdp_size modern <= tag_size m tag /\
  rsdp_accepts modern (at_address m (tag + sizeof_tag)) (tag_size m tag - sizeof_tag) r.
Proof.
  unfold discover_from_tag.
  change (if modern then ACPI_RSDP_V2_SIZE else ACPI_RSDP_V1_SIZE) with (rsdp_size modern).
  assert (20 <= rsdp_size modern) by (by destruct modern).
  split.
  - intros E. split_if_in E; [done|]. bool_hyps.
    rewrite payload_small in E by (unfold sizeof_tag in *; lia).
    split_and!; [done|lia|]. by apply decode_rsdp_sound; [apply at_address_bytes|].
  - intros (Ht & Hs & Hr). rewrite Ht, Z.eqb_refl, (proj2 (Z.ltb_ge _ _)) by lia. simpl.
    rewrite payload_small by (unfold sizeof_tag in *; lia).
    by apply decode_rsdp_complete; [apply at_address_bytes|].
Qed.

(** The tag the discovery goes by: the ACPI 2.0 one if the loader passed it. *)
Definition rsdp_tag (c : boot_information) : option (bool * Z) :=
  match c.(acpi_new), c.(acpi_old) with
  | Some tag, _ => Some (true, tag)
  | None, Some tag => Some (false, tag)
  | None, None => None
  end.

Lemma discover_by_tag m c r0 :
  acpi_root_discover m (Some c) (Some r0) =
  match rsdp_tag c with
  | None => (ACPI_STATUS_MISSING_RSDP, Some root_reset)
  | Some (modern, tag) =>
      let '(st, r) := discover_from_tag m modern tag in (st, Some r)
  end.
Proof.
  unfold acpi_root_discover, rsdp_tag. destruct c.(acpi_new) eqn:E.
  - by rewrite bool_decide_eq_true_2 by eauto.
  - rewrite bool_decide_eq_false_2 by (intros [? ?]; done). by destruct c.(acpi_old).
Qed.

(** An object on the stack is the same object at any address. *)
Lemma with_object_agree m1 m2 a1 a2 l :
  agree_on (zlength l) (at_address (with_object m1 a1 l) a1) (at_address (with_object m2 a2 l) a2).
Proof.
  intros i Hi. unfold at_address, byte_at, with_object.
  rewrite !(proj2 (Z.leb_le _ _)), !(proj2 (Z.ltb_lt _ _)) by lia. simpl.
  do 2 f_equal. lia.
Qed.

Lemma test_discover_anywhere m a modern tag :
  sizeof_tag <= zlength tag ->
  tag_size (with_object (fun _ => 0) 0 tag) 0 <= zlength tag ->
  test_discover m a modern tag = test_discover (fun _ => 0) 0 modern tag.
Proof.
  intros H8 Hs. unfold test_discover. rewrite !discover_by_tag.
  pose proof (with_object_agree (fun _ => 0) m 0 a tag) as Hag.
  assert (rsdp_tag (if modern then with_acpi boot_information_reset None (Some a)
    else with_acpi boot_information_reset (Some a) None) = Some (modern, a)) as ->
    by by destruct modern.
  assert (rsdp_tag (if modern then with_acpi boot_information_reset None (Some 0)
    else with_acpi boot_information_reset (Some 0) None) = Some (modern, 0)) as ->
    by by destruct modern.
  by rewrite (discover_local _ (with_object m a tag) modern 0 a)
    by (apply (agree_on_le (zlength tag)); [lia|done]).
Qed.

(** The kernel's own test of root discovery passes wherever its tag is placed. *)
Lemma acpi_self_test_passes m address : acpi_self_test m address = true.
Proof.
  transitivity (acpi_self_test (fun _ => 0) 0); [|vm_compute; reflexivity].
  unfold acpi_self_test. by rewrite !(test_discover_anywhere m address) by (vm_compute; discriminate).
Qed.

(** [acpi_root_discover] succeeds exactly on a root pointer
    whose signature, checksums, revision and lengths are what its tag promises
    and whose table address is nonzero with a header inside the early map; the
    result is that structure's fields, the XSDT preferred when there is one.
    Every refusal leaves the caller's structure reset. *)
Theorem acpi_root_discover_exact m c r0 :
  let '(st, r) := acpi_root_discover m (Some c) (Some r0) in
  (st <> ACPI_STATUS_OK -> r = Some root_reset) /\
  forall root, (st = ACPI_STATUS_OK /\ r = Some root) <->
    exists modern tag, rsdp_tag c = Some (modern, tag) /\
      tag_type m tag = (if modern then MULTIBOOT2_TAG_ACPI_NEW else MULTIBOOT2_TAG_ACPI_OLD) /\
      sizeof_tag + rsdp_size modern <= tag_size m tag /\
      rsdp_accepts modern (at_address m (tag + sizeof_tag)) (tag_size m tag - sizeof_tag) root.
Proof.
  rewrite discover_by_tag. destruct (rsdp_tag c) as [[modern tag]|].
  - destruct (discover_from_tag m modern tag) as [st r] eqn:E. split.
    + intros Hst. f_equal. unfold discover_from_tag in E. split_if_in E; [congruence|].
      by eapply decode_rsdp_refused.
    + intros root. split.
      * intros [-> [= ->]]. exists modern, tag. split; [done|]. by apply discover_from_tag_exact.
      * intros (? & ? & [= <- <-] & H). apply discover_from_tag_exact in H.
        rewrite E in H. by injection H as -> ->.
  - split; [done|]. intros root. split; [by intros [? ?]|by intros (? & ? & ? & ?)].
Qed.

(** C36 (safety): after a successful [boot_information_parse] the discovery of
    the root pointer never meets a tag of the wrong type or size, and its answer
    depends on the bytes of the boot information block alone. *)
Theorem acpi_root_inside_block m1 m2 magic addr c c' r0 :
  is_u64 addr ->
  boot_information_parse m1 magic addr (Some c) = Some (BOOT_STATUS_OK, Some c') ->
  agree m1 m2 addr (addr + read_u32 m1 addr) ->
  acpi_root_discover m1 (Some c') (Some r0) = acpi_root_discover m2 (Some c') (Some r0) /\
  (acpi_root_discover m1 (Some c') (Some r0)).1 <> ACPI_STATUS_BAD_TAG_SIZE.
Proof.
  intros Ha Hp Hag. apply parse_ok_context in Hp as (Hok & _ & Hs & He & _); [|done].
  assert (forall modern tag, rsdp_tag c' = Some (modern, tag) ->
    acpi_ok m1 addr (addr + read_u32 m1 addr)
      (if modern then MULTIBOOT2_TAG_ACPI_NEW else MULTIBOOT2_TAG_ACPI_OLD)
      (rsdp_size modern) tag) as Hr.
  { intros modern tag. unfold rsdp_tag. destruct c'.(acpi_new) eqn:En.
    - intros [= <- <-]. apply (co_new _ _ Hok) in En. by rewrite Hs, He in En.
    - destruct c'.(acpi_old) eqn:Eo; [|done]. intros [= <- <-].
      apply (co_old _ _ Hok) in Eo. by rewrite Hs, He in Eo. }
  rewrite !discover_by_tag. destruct (rsdp_tag c') as [[modern tag]|]; [|done].
  destruct (Hr _ _ eq_refl) as (Ht & Hlo & Hsz & Hhi). clear Hr.
  assert (20 <= rsdp_size modern) by (by destruct modern).
  unfold sizeof_acpi_tag in Hsz. split.
  - rewrite (discover_local m1 m2 modern tag tag); [done|].
    intros i Hi. unfold at_address, sizeof_tag in *. apply Hag; lia.
  - unfold discover_from_tag. rewrite Ht, Z.eqb_refl. simpl.
    rewrite (proj2 (Z.ltb_ge _ _)) by (unfold sizeof_tag; destruct modern; simpl in *; lia).
    destruct (decode_rsdp _ _ _) as [st r] eqn:E. simpl. intros ->.
    by apply decode_rsdp_never_tag in E.
Qed.

(** A block with one memory region and the test's ACPI 2.0 tag, at 0x1000. *)
Definition acpi_block : list Z :=
  le32 104 ++ le32 0 ++
  le32 6 ++ le32 40 ++ le32 24 ++ le32 0 ++
    le64 0 ++ le64 0x9f000 ++ le32 1 ++ le32 0 ++
  make_test_tag true ++
  le32 0 ++ le32 8.

Definition acpi_memory (d : Z) : memory := with_object (fun _ => d) 0x1000 acpi_block.

Definition acpi_context : boot_information :=
  MkInformation 0x1000 0x1068 (Some 0x1008) None (Some 0x1030) None None 0 0 1
    0x9f000 0x9f000 (MkFramebuffer 0 0 0 0 0 0 0 0 0 false).

Lemma acpi_block_parses :
  boot_information_parse (acpi_memory 0) MULTIBOOT2_BOOT_MAGIC 0x1000
    (Some boot_information_reset) = Some (BOOT_STATUS_OK, Some acpi_context).
Proof. vm_compute. reflexivity. Qed.

Lemma acpi_root_inside_block_witness :
  acpi_root_discover (acpi_memory 0) (Some acpi_context) (Some root_reset) =
  acpi_root_discover (acpi_memory 0xff) (Some acpi_context) (Some root_reset) /\
  (acpi_root_discover (acpi_memory 0) (Some acpi_context) (Some root_reset)).1 =
    ACPI_STATUS_OK.
Proof.
  split; [|vm_compute; reflexivity].
  apply (acpi_root_inside_block _ _ MULTIBOOT2_BOOT_MAGIC 0x1000 boot_information_reset);
    [unfold is_u64, UINT64_MAX; lia|apply acpi_block_parses|].
  change (read_u32 (acpi_memory 0) 0x1000) with 104. intros a Ha.
  unfold byte_at, acpi_memory, with_object. change (zlength acpi_block) with 104.
  by rewrite (proj2 (Z.leb_le _ _)), (proj2 (Z.ltb_lt _ _)) by lia.
Defined.

End Acpi.
