(* ===== verification/AcpiTables.v ===== *)
(** ACPI table discovery: src/src/kernel/acpi_tables.c.

    [find_unique_table] walks the root table and yields the one table of a
    signature; the MADT, the FADT and the MCFG are read through it.  A table
    pointer is its physical address and its bytes are [at_address m] of it.  A
    function that fills an out-parameter or fails is a sum: [inl] of what it
    filled in, [inr] of the refusal.  The theorems give the walk, each reader and
    the configuration windows an exact specification. *)
From S2P Require Import Prelude Multiboot2 Acpi.

Module AcpiTables.
Import Multiboot2 Acpi.

Open Scope Z_scope.

Definition ACPI_MADT_PCAT_COMPAT : Z := 1.
Definition ACPI_FADT_TMR_VAL_EXT : Z := 0x100.
Definition ACPI_PM_TIMER_BLOCK_LENGTH : Z := 4.
Definition ACPI_PM_TIMER_BASE_BITS : Z := 24.
Definition ACPI_PM_TIMER_EXTENDED_BITS : Z := 32.
Definition ACPI_PM_TIMER_REGISTER_BITS : Z := 32.
Definition ACPI_MCFG_FIXED_SIZE : Z := 44.
Definition ACPI_MCFG_ALLOCATION_SIZE : Z := 16.
Definition ACPI_ECAM_BUS_SIZE : Z := 0x100000.
Definition ACPI_MAX_ECAM_ALLOCATIONS : Z := 8.
Definition ACPI_MAX_ROOT_ENTRIES : Z := 256.
Definition UINT16_MAX : Z := 65535.

Definition FADT_OFFSET_PM_TMR_BLK : Z := 76.
Definition FADT_OFFSET_PM_TMR_LEN : Z := 91.
Definition FADT_OFFSET_FLAGS : Z := 112.
Definition FADT_OFFSET_X_PM_TMR_BLK : Z := 208.
Definition FADT_MINIMUM_SIZE : Z := 116.
Definition ACPI_GAS_SIZE : Z := 12.
Definition ACPI_GAS_OFFSET_SPACE_ID : Z := 0.
Definition ACPI_GAS_OFFSET_BIT_WIDTH : Z := 1.
Definition ACPI_GAS_OFFSET_BIT_OFFSET : Z := 2.
Definition ACPI_GAS_OFFSET_ADDRESS : Z := 4.
Definition ACPI_GAS_SPACE_SYSTEM_IO : Z := 1.
Definition FADT_X_PM_TMR_BLK_END : Z := FADT_OFFSET_X_PM_TMR_BLK + ACPI_GAS_SIZE.
Definition MCFG_OFFSET_BASE_ADDRESS : Z := 0.
Definition MCFG_OFFSET_SEGMENT : Z := 8.
Definition MCFG_OFFSET_START_BUS : Z := 10.
Definition MCFG_OFFSET_END_BUS : Z := 11.

(** struct acpi_sdt_header and struct acpi_madt_table. *)
Definition sdt_length (b : bytes) : Z := acpi_read_u32 (advance b 4).
Definition sdt_revision (b : bytes) : Z := b 8.
Definition sdt_oem_id (b : bytes) : bytes := advance b 10.
Definition sdt_oem_table_id (b : bytes) : bytes := advance b 16.
Definition madt_table_local_apic_address (b : bytes) : Z := acpi_read_u32 (advance b 36).
Definition madt_table_flags (b : bytes) : Z := acpi_read_u32 (advance b 40).

(** "RSDT", "XSDT", "APIC", "FACP", "MCFG". *)
Definition rsdt_signature : list Z := [82; 83; 68; 84].
Definition xsdt_signature : list Z := [88; 83; 68; 84].
Definition madt_signature : list Z := [65; 80; 73; 67].
Definition fadt_signature : list Z := [70; 65; 67; 80].
Definition mcfg_signature : list Z := [77; 67; 70; 71].

Record acpi_madt : Type := MkMadt {
  madt_physical_address : Z;
  madt_length : Z;
  madt_local_apic_address : Z;
  madt_flags : Z;
  madt_root_entry_count : Z;
  madt_revision : Z;
  madt_oem_id : list Z;
  madt_oem_table_id : list Z
}.

Record acpi_fadt : Type := MkFadt {
  fadt_physical_address : Z;
  fadt_length : Z;
  fadt_flags : Z;
  pm_timer_port : Z;
  pm_timer_counter_bits : Z;
  fadt_revision : Z;
  pm_timer_extended_address : bool;
  fadt_oem_id : list Z;
  fadt_oem_table_id : list Z
}.

Record acpi_ecam_allocation : Type := MkEcam {
  ecam_base_address : Z;
  segment : Z;
  start_bus : Z;
  end_bus : Z
}.

Record acpi_mcfg : Type := MkMcfg {
  mcfg_physical_address : Z;
  mcfg_length : Z;
  allocation_count : Z;
  mcfg_revision : Z;
  mcfg_oem_id : list Z;
  mcfg_oem_table_id : list Z;
  allocations : list acpi_ecam_allocation
}.

Definition ecam_zero : acpi_ecam_allocation := MkEcam 0 0 0 0.

Definition madt_reset : acpi_madt :=
  MkMadt 0 0 0 0 0 0 (acpi_bytes_zero 7) (acpi_bytes_zero 9).
Definition fadt_reset : acpi_fadt :=
  MkFadt 0 0 0 0 0 0 false (acpi_bytes_zero 7) (acpi_bytes_zero 9).
Definition mcfg_reset : acpi_mcfg :=
  MkMcfg 0 0 0 0 (acpi_bytes_zero 7) (acpi_bytes_zero 9)
    (replicate (Z.to_nat ACPI_MAX_ECAM_ALLOCATIONS) ecam_zero).

(** The signature and entry size of a kind of root table. *)
Definition root_format (k : acpi_root_kind) : option (list Z * Z) :=
  match k with
  | ACPI_ROOT_XSDT => Some (xsdt_signature, 8)
  | ACPI_ROOT_RSDT => Some (rsdt_signature, 4)
  | ACPI_ROOT_NONE => None
  end.

(** The root table's address, the size of its entries and how many it has. *)
Definition validate_root_table (m : memory) (root : acpi_root)
  : (Z * Z * Z) + acpi_status :=
  let header := at_address m root.(root_address) in
  if root.(root_address) =? 0 then inr ACPI_STATUS_NULL_ROOT
  else if negb (acpi_span_is_early_mapped root.(root_address) ACPI_SDT_HEADER_SIZE)
  then inr ACPI_STATUS_ROOT_OUTSIDE_EARLY_MAP
  else
  match root_format root.(kind) with
  | None => inr ACPI_STATUS_BAD_ROOT_SIGNATURE
  | Some (expected_signature, entry_size) =>
      if negb (acpi_bytes_equal header (of_list expected_signature) 4) then
        inr ACPI_STATUS_BAD_ROOT_SIGNATURE
      else if (sdt_length header <? ACPI_SDT_HEADER_SIZE) ||
              (sdt_length header >? ACPI_MAX_TABLE_SIZE) then
        inr ACPI_STATUS_BAD_ROOT_LENGTH
      else
      let payload_size := u64 (sdt_length header - ACPI_SDT_HEADER_SIZE) in
      if negb (payload_size mod entry_size =? 0) then
        inr ACPI_STATUS_BAD_ROOT_ENTRY_SIZE
      else
      let entry_count := payload_size / entry_size in
      if entry_count >? ACPI_MAX_ROOT_ENTRIES then
        inr ACPI_STATUS_TOO_MANY_ROOT_ENTRIES
      else if negb (acpi_span_is_early_mapped root.(root_address) (sdt_length header))
      then inr ACPI_STATUS_ROOT_OUTSIDE_EARLY_MAP
      else if negb (acpi_byte_sum header (sdt_length header) =? 0) then
        inr ACPI_STATUS_BAD_ROOT_CHECKSUM
      else inl (root.(root_address), entry_size, entry_count)
  end.

Definition validate_referenced_table (m : memory) (physical_address : Z)
  : Z + acpi_status :=
  let header := at_address m physical_address in
  if physical_address =? 0 then inr ACPI_STATUS_NULL_TABLE
  else if negb (acpi_span_is_early_mapped physical_address ACPI_SDT_HEADER_SIZE)
  then inr ACPI_STATUS_TABLE_OUTSIDE_EARLY_MAP
  else if (sdt_length header <? ACPI_SDT_HEADER_SIZE) ||
          (sdt_length header >? ACPI_MAX_TABLE_SIZE) then
    inr ACPI_STATUS_BAD_TABLE_LENGTH
  else if negb (acpi_span_is_early_mapped physical_address (sdt_length header))
  then inr ACPI_STATUS_TABLE_OUTSIDE_EARLY_MAP
  else if negb (acpi_byte_sum header (sdt_length header) =? 0) then
    inr ACPI_STATUS_BAD_TABLE_CHECKSUM
  else inl physical_address.

(** The address the root entry at [index] declares. *)
Definition root_entry (m : memory) (header entry_size index : Z) : Z :=
  let entry := at_address m (header + ACPI_SDT_HEADER_SIZE + index * entry_size) in
  if entry_size =? 8 then acpi_read_u64 entry else acpi_read_u32 entry.

(** The loop body of find_unique_table; the state is the table found so far. *)
Definition visit_root_entry (m : memory) (header entry_size : Z) (signature : list Z)
    (duplicate_status : acpi_status) (index : Z) (found : option Z)
  : ctl (option Z) acpi_status :=
  let physical_address := root_entry m header entry_size index in
  match validate_referenced_table m physical_address with
  | inr st => Return st
  | inl table =>
      if negb (acpi_bytes_equal (at_address m table) (of_list signature) 4) then
        Next found
      else
        match found with
        | Some _ => Return duplicate_status
        | None => Next (Some physical_address)
        end
  end.

(** The table's address and the number of root entries. *)
Definition find_unique_table (m : memory) (root : acpi_root) (signature : list Z)
    (missing_status duplicate_status : acpi_status) : (Z * Z) + acpi_status :=
  match validate_root_table m root with
  | inr st => inr st
  | inl (root_header, entry_size, entry_count) =>
      match
        for_each (visit_root_entry m root_header entry_size signature duplicate_status)
          (seqZ 0 entry_count) None
      with
      | Return st => inr st
      | Next None => inr missing_status
      | Next (Some physical_address) => inl (physical_address, entry_count)
      end
  end.

Definition acpi_madt_discover (m : memory) (root : option acpi_root)
    (madt : option acpi_madt) : acpi_status * option acpi_madt :=
  match root, madt with
  | Some root, Some _ =>
      let refuse st := (st, Some madt_reset) in
      match find_unique_table m root madt_signature ACPI_STATUS_MISSING_MADT
              ACPI_STATUS_DUPLICATE_MADT with
      | inr st => refuse st
      | inl (physical_address, entry_count) =>
          let header := at_address m physical_address in
          if sdt_length header <? ACPI_MADT_FIXED_SIZE then
            refuse ACPI_STATUS_BAD_MADT_LENGTH
          else if negb (Z.land (madt_table_flags header)
                          (u32 (Z.lnot ACPI_MADT_PCAT_COMPAT)) =? 0) then
            refuse ACPI_STATUS_BAD_MADT_FLAGS
          else
            (ACPI_STATUS_OK,
             Some (MkMadt physical_address (sdt_length header)
               (madt_table_local_apic_address header) (madt_table_flags header)
               entry_count (sdt_revision header)
               (acpi_copy_string madt_reset.(madt_oem_id) (sdt_oem_id header) 6)
               (acpi_copy_string madt_reset.(madt_oem_table_id)
                  (sdt_oem_table_id header) 8)))
      end
  | _, _ => (ACPI_STATUS_NULL_ARGUMENT, madt)
  end.

(** The extended address block: [inl (Some port)] when it is selected,
    [inl None] when the fixed field stands. *)
Definition extended_pm_timer (table : bytes) (length : Z) : option Z + acpi_status :=
  if length >=? FADT_X_PM_TMR_BLK_END then
    let block := advance table FADT_OFFSET_X_PM_TMR_BLK in
    let address := acpi_read_u64 (advance block ACPI_GAS_OFFSET_ADDRESS) in
    if negb (address =? 0) &&
       (block ACPI_GAS_OFFSET_SPACE_ID =? ACPI_GAS_SPACE_SYSTEM_IO) then
      if negb (block ACPI_GAS_OFFSET_BIT_WIDTH =? ACPI_PM_TIMER_REGISTER_BITS) ||
         negb (block ACPI_GAS_OFFSET_BIT_OFFSET =? 0) then
        inr ACPI_STATUS_BAD_PM_TIMER_BLOCK
      else inl (Some address)
    else inl None
  else inl None.

Definition decode_pm_timer (table : bytes) (length : Z) (fadt : acpi_fadt)
  : acpi_status * acpi_fadt :=
  if length <? FADT_MINIMUM_SIZE then (ACPI_STATUS_BAD_FADT_LENGTH, fadt)
  else if negb (table FADT_OFFSET_PM_TMR_LEN =? ACPI_PM_TIMER_BLOCK_LENGTH) then
    (ACPI_STATUS_BAD_PM_TIMER_LENGTH, fadt)
  else
  let flags := acpi_read_u32 (advance table FADT_OFFSET_FLAGS) in
  match extended_pm_timer table length with
  | inr st => (st, fadt)
  | inl selected =>
      let extended := bool_decide (is_Some selected) in
      let port :=
        match selected with
        | Some address => address
        | None => acpi_read_u32 (advance table FADT_OFFSET_PM_TMR_BLK)
        end in
      if negb extended && (port =? 0) then (ACPI_STATUS_MISSING_PM_TIMER, fadt)
      else if port >? UINT16_MAX - (ACPI_PM_TIMER_BLOCK_LENGTH - 1) then
        (ACPI_STATUS_BAD_PM_TIMER_PORT, fadt)
      else
        (ACPI_STATUS_OK,
         MkFadt fadt.(fadt_physical_address) fadt.(fadt_length) flags (u16 port)
           (if negb (Z.land flags ACPI_FADT_TMR_VAL_EXT =? 0)
            then ACPI_PM_TIMER_EXTENDED_BITS else ACPI_PM_TIMER_BASE_BITS)
           fadt.(fadt_revision) extended fadt.(fadt_oem_id) fadt.(fadt_oem_table_id))
  end.

Definition acpi_fadt_discover (m : memory) (root : option acpi_root)
    (fadt : option acpi_fadt) : acpi_status * option acpi_fadt :=
  match root, fadt with
  | Some root, Some _ =>
      match find_unique_table m root fadt_signature ACPI_STATUS_MISSING_FADT
              ACPI_STATUS_DUPLICATE_FADT with
      | inr st => (st, Some fadt_reset)
      | inl (physical_address, _) =>
          let header := at_address m physical_address in
          let '(st, fadt) := decode_pm_timer header (sdt_length header) fadt_reset in
          if negb (is_status st ACPI_STATUS_OK) then (st, Some fadt_reset)
          else
            (ACPI_STATUS_OK,
             Some (MkFadt physical_address (sdt_length header) fadt.(fadt_flags)
               fadt.(pm_timer_port) fadt.(pm_timer_counter_bits) (sdt_revision header)
               fadt.(pm_timer_extended_address)
               (acpi_copy_string fadt.(fadt_oem_id) (sdt_oem_id header) 6)
               (acpi_copy_string fadt.(fadt_oem_table_id)
                  (sdt_oem_table_id header) 8)))
      end
  | _, _ => (ACPI_STATUS_NULL_ARGUMENT, fadt)
  end.

Definition acpi_ecam_allocation_size (allocation : option acpi_ecam_allocation) : Z :=
  match allocation with
  | None => 0
  | Some a => u64 (u64 (u64 (a.(end_bus) - a.(start_bus)) + 1) * ACPI_ECAM_BUS_SIZE)
  end.

Definition ecam_allocations_conflict (left right : acpi_ecam_allocation) : bool :=
  let left_end :=
    u64 (left.(ecam_base_address) + acpi_ecam_allocation_size (Some left)) in
  let right_end :=
    u64 (right.(ecam_base_address) + acpi_ecam_allocation_size (Some right)) in
  ((left.(segment) =? right.(segment)) && (left.(start_bus) <=? right.(end_bus)) &&
   (right.(start_bus) <=? left.(end_bus))) ||
  ((left.(ecam_base_address) <? right_end) && (right.(ecam_base_address) <? left_end)).

(** The allocation structure at [record]. *)
Definition ecam_record (record : bytes) : acpi_ecam_allocation :=
  MkEcam (acpi_read_u64 (advance record MCFG_OFFSET_BASE_ADDRESS))
    (acpi_read_u16 (advance record MCFG_OFFSET_SEGMENT))
    (record MCFG_OFFSET_START_BUS) (record MCFG_OFFSET_END_BUS).

(** The loop body of decode_ecam_allocations; the state is the array. *)
Definition decode_ecam_record (records : bytes) (index : Z)
    (allocs : list acpi_ecam_allocation)
  : ctl (list acpi_ecam_allocation) (acpi_status * list acpi_ecam_allocation) :=
  let refuse st := Return (st, allocs) in
  let allocation := ecam_record (advance records (index * ACPI_MCFG_ALLOCATION_SIZE)) in
  if allocation.(end_bus) <? allocation.(start_bus) then
    refuse ACPI_STATUS_BAD_ECAM_BUS_RANGE
  else if (allocation.(ecam_base_address) =? 0) ||
          negb (allocation.(ecam_base_address) mod ACPI_ECAM_BUS_SIZE =? 0) then
    refuse ACPI_STATUS_BAD_ECAM_BASE
  else
  let size := acpi_ecam_allocation_size (Some allocation) in
  if allocation.(ecam_base_address) >? u64 (UINT64_MAX - size) then
    refuse ACPI_STATUS_BAD_ECAM_BASE
  else
  match
    for_each (fun earlier (_ : unit) =>
        if ecam_allocations_conflict (aget ecam_zero allocs earlier) allocation
        then Return tt else Next tt)
      (seqZ 0 index) tt
  with
  | Return _ => refuse ACPI_STATUS_OVERLAPPING_ECAM_RANGE
  | Next _ => Next (aset allocs index allocation)
  end.

Definition with_allocations (g : acpi_mcfg) (count : Z) (l : list acpi_ecam_allocation) :=
  MkMcfg g.(mcfg_physical_address) g.(mcfg_length) count g.(mcfg_revision)
    g.(mcfg_oem_id) g.(mcfg_oem_table_id) l.

Definition decode_ecam_allocations (table : bytes) (length : Z) (mcfg : acpi_mcfg)
  : acpi_status * acpi_mcfg :=
  let records := advance table ACPI_MCFG_FIXED_SIZE in
  if length <? ACPI_MCFG_FIXED_SIZE then (ACPI_STATUS_BAD_MCFG_LENGTH, mcfg)
  else
  let payload := u32 (length - ACPI_MCFG_FIXED_SIZE) in
  if negb (payload mod ACPI_MCFG_ALLOCATION_SIZE =? 0) then
    (ACPI_STATUS_BAD_MCFG_LENGTH, mcfg)
  else
  let count := payload / ACPI_MCFG_ALLOCATION_SIZE in
  if count =? 0 then (ACPI_STATUS_NO_ECAM_ALLOCATIONS, mcfg)
  else if count >? ACPI_MAX_ECAM_ALLOCATIONS then
    (ACPI_STATUS_TOO_MANY_ECAM_ALLOCATIONS, mcfg)
  else
  match
    for_each (decode_ecam_record records) (seqZ 0 count) mcfg.(allocations)
  with
  | Return (st, allocs) => (st, with_allocations mcfg mcfg.(allocation_count) allocs)
  | Next allocs => (ACPI_STATUS_OK, with_allocations mcfg count allocs)
  end.

Definition acpi_mcfg_discover (m : memory) (root : option acpi_root)
    (mcfg : option acpi_mcfg) : acpi_status * option acpi_mcfg :=
  match root, mcfg with
  | Some root, Some _ =>
      match find_unique_table m root mcfg_signature ACPI_STATUS_MISSING_MCFG
              ACPI_STATUS_DUPLICATE_MCFG with
      | inr st => (st, Some mcfg_reset)
      | inl (physical_address, _) =>
          let header := at_address m physical_address in
          let '(st, mcfg) := decode_ecam_allocations header (sdt_length header) mcfg_reset in
          if negb (is_status st ACPI_STATUS_OK) then (st, Some mcfg_reset)
          else
            (ACPI_STATUS_OK,
             Some (MkMcfg physical_address (sdt_length header) mcfg.(allocation_count)
               (sdt_revision header)
               (acpi_copy_string mcfg.(mcfg_oem_id) (sdt_oem_id header) 6)
               (acpi_copy_string mcfg.(mcfg_oem_table_id)
                  (sdt_oem_table_id header) 8)
               mcfg.(allocations)))
      end
  | _, _ => (ACPI_STATUS_NULL_ARGUMENT, mcfg)
  end.

(** * The self test

    struct acpi_test_fixture is 560 bytes on the stack: the "TEST" table at 0, the
    MADT at 40, the FADT at 84, the MCFG at 360, the XSDT at 436 and the RSDT at
    504; [address] is where it lies. *)
Definition test_signature : list Z := [84; 69; 83; 84].
Definition test_oem_table_id : list Z := [83; 65; 80; 79; 84; 69; 84; 32].
Definition other_at : Z := 0.
Definition madt_at : Z := 40.
Definition fadt_at : Z := 84.
Definition mcfg_at : Z := 360.
Definition xsdt_at : Z := 436.
Definition rsdt_at : Z := 504.
Definition sizeof_other : Z := 40.
Definition sizeof_madt : Z := 44.
Definition ACPI_TEST_FADT_SIZE : Z := 276.
Definition ACPI_TEST_MCFG_ALLOCATIONS : Z := 2.
Definition ACPI_TEST_MCFG_SIZE : Z :=
  ACPI_MCFG_FIXED_SIZE + ACPI_TEST_MCFG_ALLOCATIONS * ACPI_MCFG_ALLOCATION_SIZE.
Definition ACPI_TEST_OVERSIZED_MCFG_SIZE : Z :=
  ACPI_MCFG_FIXED_SIZE + (ACPI_MAX_ECAM_ALLOCATIONS + 1) * ACPI_MCFG_ALLOCATION_SIZE.
Definition sizeof_xsdt : Z := 68.
Definition sizeof_rsdt : Z := 52.

Definition TEST_PM_TIMER_FIXED_PORT : Z := 0x0408.
Definition TEST_PM_TIMER_EXTENDED_PORT : Z := 0x1008.
Definition TEST_ECAM_BASE : Z := 0xE0000000.
Definition TEST_ECAM_SECOND_BASE : Z := 0xE8000000.
Definition TEST_ECAM_SEGMENT : Z := 0.
Definition TEST_ECAM_SECOND_SEGMENT : Z := 1.
Definition TEST_ECAM_END_BUS : Z := 3.

Definition store16 (l : list Z) (offset value : Z) : list Z :=
  foldl (fun d i => aset d (offset + i) (u8 (Z.shiftr value (8 * i)))) l (seqZ 0 2).

Definition set_length (l : list Z) (at_ length : Z) : list Z := store32 l (at_ + 4) length.

Definition initialize_header (l : list Z) (at_ : Z) (signature : list Z) (length : Z)
  : list Z :=
  let l := store_list l at_ (acpi_bytes_zero ACPI_SDT_HEADER_SIZE) in
  let l := store_list l at_ signature in
  let l := store_list l (at_ + 10) test_oem_id in
  let l := store_list l (at_ + 16) test_oem_table_id in
  let l := set_length l at_ length in
  let l := aset l (at_ + 8) 1 in
  let l := store32 l (at_ + 24) 1 in
  let l := store32 l (at_ + 28) 0x45525950 in
  store32 l (at_ + 32) 1.

Definition set_checksum (l : list Z) (at_ size : Z) : list Z :=
  let l := aset l (at_ + 9) 0 in
  aset l (at_ + 9) (u8 (0 - acpi_byte_sum (of_list (drop (Z.to_nat at_) l)) size)).

Definition fadt_field (offset : Z) : Z := fadt_at + offset.
Definition mcfg_field (allocation offset : Z) : Z :=
  mcfg_at + ACPI_MCFG_FIXED_SIZE + allocation * ACPI_MCFG_ALLOCATION_SIZE + offset.

Definition prepare_test_fixture (address : Z) : list Z :=
  let l := acpi_bytes_zero 560 in
  let l := initialize_header l other_at test_signature sizeof_other in
  let l := store32 l (other_at + 36) 0x12345678 in
  let l := set_checksum l other_at sizeof_other in
  let l := initialize_header l madt_at madt_signature sizeof_madt in
  let l := aset l (madt_at + 8) 7 in
  let l := store32 l (madt_at + 36) 0xFEE00000 in
  let l := store32 l (madt_at + 40) ACPI_MADT_PCAT_COMPAT in
  let l := set_checksum l madt_at sizeof_madt in
  let l := initialize_header l fadt_at fadt_signature ACPI_TEST_FADT_SIZE in
  let l := aset l (fadt_at + 8) 6 in
  let l := store32 l (fadt_field FADT_OFFSET_PM_TMR_BLK) TEST_PM_TIMER_FIXED_PORT in
  let l := aset l (fadt_field FADT_OFFSET_PM_TMR_LEN) ACPI_PM_TIMER_BLOCK_LENGTH in
  let l := store32 l (fadt_field FADT_OFFSET_FLAGS) 0 in
  let block := fadt_field FADT_OFFSET_X_PM_TMR_BLK in
  let l := aset l (block + ACPI_GAS_OFFSET_SPACE_ID) ACPI_GAS_SPACE_SYSTEM_IO in
  let l := aset l (block + ACPI_GAS_OFFSET_BIT_WIDTH) ACPI_PM_TIMER_REGISTER_BITS in
  let l := aset l (block + ACPI_GAS_OFFSET_BIT_OFFSET) 0 in
  let l := store64 l (block + ACPI_GAS_OFFSET_ADDRESS) TEST_PM_TIMER_EXTENDED_PORT in
  let l := set_checksum l fadt_at ACPI_TEST_FADT_SIZE in
  let l := initialize_header l mcfg_at mcfg_signature ACPI_TEST_MCFG_SIZE in
  let l := aset l (mcfg_at + 8) 1 in
  let l := store64 l (mcfg_field 0 MCFG_OFFSET_BASE_ADDRESS) TEST_ECAM_BASE in
  let l := store16 l (mcfg_field 0 MCFG_OFFSET_SEGMENT) TEST_ECAM_SEGMENT in
  let l := aset l (mcfg_field 0 MCFG_OFFSET_START_BUS) 0 in
  let l := aset l (mcfg_field 0 MCFG_OFFSET_END_BUS) TEST_ECAM_END_BUS in
  let l := store64 l (mcfg_field 1 MCFG_OFFSET_BASE_ADDRESS) TEST_ECAM_SECOND_BASE in
  let l := store16 l (mcfg_field 1 MCFG_OFFSET_SEGMENT) TEST_ECAM_SECOND_SEGMENT in
  let l := aset l (mcfg_field 1 MCFG_OFFSET_START_BUS) 0 in
  let l := aset l (mcfg_field 1 MCFG_OFFSET_END_BUS) TEST_ECAM_END_BUS in
  let l := set_checksum l mcfg_at ACPI_TEST_MCFG_SIZE in
  let l := initialize_header l xsdt_at xsdt_signature sizeof_xsdt in
  let l := store64 l (xsdt_at + 36) (address + other_at) in
  let l := store64 l (xsdt_at + 44) (address + madt_at) in
  let l := store64 l (xsdt_at + 52) (address + fadt_at) in
  let l := store64 l (xsdt_at + 60) (address + mcfg_at) in
  let l := set_checksum l xsdt_at sizeof_xsdt in
  let l := initialize_header l rsdt_at rsdt_signature sizeof_rsdt in
  let l := store32 l (rsdt_at + 36) (u32 (address + other_at)) in
  let l := store32 l (rsdt_at + 40) (u32 (address + madt_at)) in
  let l := store32 l (rsdt_at + 44) (u32 (address + fadt_at)) in
  let l := store32 l (rsdt_at + 48) (u32 (address + mcfg_at)) in
  set_checksum l rsdt_at sizeof_rsdt.

Definition test_root (address : Z) (k : acpi_root_kind) : acpi_root :=
  MkRoot k 2 [83; 65; 80; 79; 84; 69; 0]
    (if bool_decide (k = ACPI_ROOT_XSDT) then address + xsdt_at else address + rsdt_at).

Section self_test.
Context (m : memory) (address : Z).
Let fixture : list Z := prepare_test_fixture address.

(** Discovery over an edited fixture. *)
Definition test_madt (l : list Z) (root : acpi_root) :=
  acpi_madt_discover (with_object m address l) (Some root) (Some madt_reset).
Definition test_fadt (l : list Z) (k : acpi_root_kind) :=
  acpi_fadt_discover (with_object m address l) (Some (test_root address k)) (Some fadt_reset).
Definition test_mcfg (l : list Z) (k : acpi_root_kind) :=
  acpi_mcfg_discover (with_object m address l) (Some (test_root address k)) (Some mcfg_reset).

Definition valid_fixture_is_accepted : bool :=
  match test_madt fixture (test_root address ACPI_ROOT_XSDT) with
  | (st, Some madt) =>
      is_status st ACPI_STATUS_OK &&
      (madt.(madt_physical_address) =? address + madt_at) &&
      (madt.(madt_length) =? sizeof_madt) &&
      (madt.(madt_local_apic_address) =? 0xFEE00000) &&
      (madt.(madt_flags) =? ACPI_MADT_PCAT_COMPAT) &&
      (madt.(madt_root_entry_count) =? 4) && (madt.(madt_revision) =? 7) &&
      acpi_bytes_equal (of_list madt.(madt_oem_id)) (of_list test_oem_id) 6 &&
      acpi_bytes_equal (of_list madt.(madt_oem_table_id)) (of_list test_oem_table_id) 8
  | _ => false
  end &&
  match test_madt fixture (test_root address ACPI_ROOT_RSDT) with
  | (st, Some madt) =>
      is_status st ACPI_STATUS_OK && (madt.(madt_physical_address) =? address + madt_at)
  | _ => false
  end.

Definition valid_fadt_is_accepted : bool :=
  let accepted (r : acpi_status * option acpi_fadt) (p : acpi_fadt -> bool) :=
    match r with
    | (st, Some fadt) => is_status st ACPI_STATUS_OK && p fadt
    | _ => false
    end in
  let short :=
    set_checksum (set_length fixture fadt_at FADT_MINIMUM_SIZE) fadt_at
      FADT_MINIMUM_SIZE in
  accepted (test_fadt fixture ACPI_ROOT_XSDT) (fun fadt =>
    (fadt.(fadt_physical_address) =? address + fadt_at) &&
    (fadt.(fadt_length) =? ACPI_TEST_FADT_SIZE) && (fadt.(fadt_revision) =? 6) &&
    fadt.(pm_timer_extended_address) &&
    (fadt.(pm_timer_port) =? u16 TEST_PM_TIMER_EXTENDED_PORT) &&
    (fadt.(pm_timer_counter_bits) =? ACPI_PM_TIMER_BASE_BITS) &&
    acpi_bytes_equal (of_list fadt.(fadt_oem_id)) (of_list test_oem_id) 6 &&
    acpi_bytes_equal (of_list fadt.(fadt_oem_table_id)) (of_list test_oem_table_id) 8) &&
  accepted
    (test_fadt (set_checksum (store32 fixture (fadt_field FADT_OFFSET_FLAGS)
       ACPI_FADT_TMR_VAL_EXT) fadt_at ACPI_TEST_FADT_SIZE) ACPI_ROOT_XSDT) (fun fadt =>
    (fadt.(fadt_flags) =? ACPI_FADT_TMR_VAL_EXT) &&
    (fadt.(pm_timer_counter_bits) =? ACPI_PM_TIMER_EXTENDED_BITS) &&
    (fadt.(pm_timer_port) =? u16 TEST_PM_TIMER_EXTENDED_PORT)) &&
  accepted
    (test_fadt (set_checksum (store64 fixture (fadt_field FADT_OFFSET_X_PM_TMR_BLK +
       ACPI_GAS_OFFSET_ADDRESS) 0) fadt_at ACPI_TEST_FADT_SIZE) ACPI_ROOT_XSDT) (fun fadt =>
    negb fadt.(pm_timer_extended_address) &&
    (fadt.(pm_timer_port) =? u16 TEST_PM_TIMER_FIXED_PORT)) &&
  accepted
    (test_fadt (set_checksum (aset fixture (fadt_field FADT_OFFSET_X_PM_TMR_BLK +
       ACPI_GAS_OFFSET_SPACE_ID) 0) fadt_at ACPI_TEST_FADT_SIZE) ACPI_ROOT_XSDT) (fun fadt =>
    negb fadt.(pm_timer_extended_address) &&
    (fadt.(pm_timer_port) =? u16 TEST_PM_TIMER_FIXED_PORT)) &&
  accepted (test_fadt short ACPI_ROOT_XSDT) (fun fadt =>
    negb fadt.(pm_timer_extended_address) &&
    (fadt.(fadt_length) =? FADT_MINIMUM_SIZE) &&
    (fadt.(pm_timer_port) =? u16 TEST_PM_TIMER_FIXED_PORT)) &&
  is_status (test_fadt short ACPI_ROOT_RSDT).1 ACPI_STATUS_OK.

(** One edit of the FADT, resealed, and the refusal it must meet. *)
Definition fadt_edit_refused (l : list Z) (expected : acpi_status) : bool :=
  is_status (test_fadt (set_checksum l fadt_at ACPI_TEST_FADT_SIZE) ACPI_ROOT_XSDT).1
    expected.

Definition fadt_rejections_are_refused : bool :=
  let x_block := fadt_field FADT_OFFSET_X_PM_TMR_BLK in
  let no_extended := store64 fixture (x_block + ACPI_GAS_OFFSET_ADDRESS) 0 in
  is_status (acpi_fadt_discover (with_object m address fixture) None (Some fadt_reset)).1
    ACPI_STATUS_NULL_ARGUMENT &&
  is_status (acpi_fadt_discover (with_object m address fixture)
    (Some (test_root address ACPI_ROOT_XSDT)) None).1 ACPI_STATUS_NULL_ARGUMENT &&
  match
    test_fadt (set_checksum (set_length fixture fadt_at (FADT_MINIMUM_SIZE - 1)) fadt_at
      (FADT_MINIMUM_SIZE - 1)) ACPI_ROOT_XSDT
  with
  | (st, Some fadt) =>
      is_status st ACPI_STATUS_BAD_FADT_LENGTH &&
      (fadt.(fadt_physical_address) =? 0) && (fadt.(fadt_length) =? 0) &&
      (fadt.(pm_timer_port) =? 0) && (fadt.(pm_timer_counter_bits) =? 0) &&
      negb fadt.(pm_timer_extended_address)
  | _ => false
  end &&
  fadt_edit_refused (aset fixture (fadt_field FADT_OFFSET_PM_TMR_LEN) 0)
    ACPI_STATUS_BAD_PM_TIMER_LENGTH &&
  fadt_edit_refused (aset fixture (fadt_field FADT_OFFSET_PM_TMR_LEN) 8)
    ACPI_STATUS_BAD_PM_TIMER_LENGTH &&
  fadt_edit_refused (store32 no_extended (fadt_field FADT_OFFSET_PM_TMR_BLK) 0)
    ACPI_STATUS_MISSING_PM_TIMER &&
  fadt_edit_refused (store32 no_extended (fadt_field FADT_OFFSET_PM_TMR_BLK) 0xFFFE)
    ACPI_STATUS_BAD_PM_TIMER_PORT &&
  fadt_edit_refused (store64 fixture (x_block + ACPI_GAS_OFFSET_ADDRESS) 0x10000)
    ACPI_STATUS_BAD_PM_TIMER_PORT &&
  fadt_edit_refused (aset fixture (x_block + ACPI_GAS_OFFSET_BIT_WIDTH)
    ACPI_PM_TIMER_BASE_BITS) ACPI_STATUS_BAD_PM_TIMER_BLOCK &&
  fadt_edit_refused (aset fixture (x_block + ACPI_GAS_OFFSET_BIT_OFFSET) 8)
    ACPI_STATUS_BAD_PM_TIMER_BLOCK &&
  is_status (test_fadt (set_checksum (set_length fixture xsdt_at (36 + 2 * 8)) xsdt_at
    (36 + 2 * 8)) ACPI_ROOT_XSDT).1 ACPI_STATUS_MISSING_FADT &&
  is_status (test_fadt (set_checksum (store64 fixture (xsdt_at + 36) (address + fadt_at))
    xsdt_at sizeof_xsdt) ACPI_ROOT_XSDT).1 ACPI_STATUS_DUPLICATE_FADT.

Definition valid_mcfg_is_accepted : bool :=
  match test_mcfg fixture ACPI_ROOT_XSDT with
  | (st, Some mcfg) =>
      let first := aget ecam_zero mcfg.(allocations) 0 in
      let second := aget ecam_zero mcfg.(allocations) 1 in
      is_status st ACPI_STATUS_OK &&
      (mcfg.(mcfg_physical_address) =? address + mcfg_at) &&
      (mcfg.(mcfg_length) =? ACPI_TEST_MCFG_SIZE) && (mcfg.(mcfg_revision) =? 1) &&
      (mcfg.(allocation_count) =? ACPI_TEST_MCFG_ALLOCATIONS) &&
      (first.(ecam_base_address) =? TEST_ECAM_BASE) &&
      (first.(segment) =? TEST_ECAM_SEGMENT) && (first.(start_bus) =? 0) &&
      (first.(end_bus) =? TEST_ECAM_END_BUS) &&
      (second.(ecam_base_address) =? TEST_ECAM_SECOND_BASE) &&
      (second.(segment) =? TEST_ECAM_SECOND_SEGMENT) &&
      acpi_bytes_equal (of_list mcfg.(mcfg_oem_id)) (of_list test_oem_id) 6 &&
      (acpi_ecam_allocation_size (Some first) =?
         (TEST_ECAM_END_BUS + 1) * ACPI_ECAM_BUS_SIZE) &&
      (acpi_ecam_allocation_size None =? 0)
  | _ => false
  end &&
  match test_mcfg fixture ACPI_ROOT_RSDT with
  | (st, Some mcfg) =>
      is_status st ACPI_STATUS_OK &&
      (mcfg.(allocation_count) =? ACPI_TEST_MCFG_ALLOCATIONS)
  | _ => false
  end.

(** One edit of the MCFG, resealed, and the refusal it must meet. *)
Definition mcfg_edit_refused (l : list Z) (expected : acpi_status) : bool :=
  is_status (test_mcfg (set_checksum l mcfg_at ACPI_TEST_MCFG_SIZE) ACPI_ROOT_XSDT).1
    expected.

(** The oversized table and the one-entry XSDT lie on the stack at addresses of
    their own. *)
Definition oversized_is_refused (oversized_address xsdt_address : Z) : bool :=
  let oversized := acpi_bytes_zero ACPI_TEST_OVERSIZED_MCFG_SIZE in
  let oversized :=
    initialize_header oversized 0 mcfg_signature ACPI_TEST_OVERSIZED_MCFG_SIZE in
  let oversized := set_checksum oversized 0 ACPI_TEST_OVERSIZED_MCFG_SIZE in
  let xsdt := acpi_bytes_zero sizeof_xsdt in
  let xsdt := initialize_header xsdt 0 xsdt_signature (ACPI_SDT_HEADER_SIZE + 8) in
  let xsdt := store64 xsdt 36 oversized_address in
  let xsdt := set_checksum xsdt 0 (ACPI_SDT_HEADER_SIZE + 8) in
  let stack := with_object (with_object m oversized_address oversized) xsdt_address xsdt in
  is_status (acpi_mcfg_discover stack
    (Some (MkRoot ACPI_ROOT_XSDT 2 [83; 65; 80; 79; 84; 69; 0] xsdt_address))
    (Some mcfg_reset)).1 ACPI_STATUS_TOO_MANY_ECAM_ALLOCATIONS.

Definition mcfg_rejections_are_named (oversized_address xsdt_address : Z) : bool :=
  is_status (acpi_mcfg_discover (with_object m address fixture) None (Some mcfg_reset)).1
    ACPI_STATUS_NULL_ARGUMENT &&
  is_status (acpi_mcfg_discover (with_object m address fixture)
    (Some (test_root address ACPI_ROOT_XSDT)) None).1 ACPI_STATUS_NULL_ARGUMENT &&
  is_status (test_mcfg (set_checksum (set_length fixture mcfg_at (ACPI_TEST_MCFG_SIZE - 1))
    mcfg_at (ACPI_TEST_MCFG_SIZE - 1)) ACPI_ROOT_XSDT).1 ACPI_STATUS_BAD_MCFG_LENGTH &&
  is_status (test_mcfg (set_checksum (set_length fixture mcfg_at ACPI_MCFG_FIXED_SIZE)
    mcfg_at ACPI_MCFG_FIXED_SIZE) ACPI_ROOT_XSDT).1 ACPI_STATUS_NO_ECAM_ALLOCATIONS &&
  oversized_is_refused oversized_address xsdt_address &&
  mcfg_edit_refused (aset fixture (mcfg_field 0 MCFG_OFFSET_START_BUS)
    (TEST_ECAM_END_BUS + 1)) ACPI_STATUS_BAD_ECAM_BUS_RANGE &&
  mcfg_edit_refused (store64 fixture (mcfg_field 0 MCFG_OFFSET_BASE_ADDRESS) 0)
    ACPI_STATUS_BAD_ECAM_BASE &&
  mcfg_edit_refused (store64 fixture (mcfg_field 0 MCFG_OFFSET_BASE_ADDRESS)
    (TEST_ECAM_BASE + 1)) ACPI_STATUS_BAD_ECAM_BASE &&
  mcfg_edit_refused (store64 fixture (mcfg_field 0 MCFG_OFFSET_BASE_ADDRESS)
    (UINT64_MAX - ACPI_ECAM_BUS_SIZE + 1)) ACPI_STATUS_BAD_ECAM_BASE &&
  mcfg_edit_refused (store64 fixture (mcfg_field 1 MCFG_OFFSET_BASE_ADDRESS)
    TEST_ECAM_BASE) ACPI_STATUS_OVERLAPPING_ECAM_RANGE &&
  mcfg_edit_refused (store16 fixture (mcfg_field 1 MCFG_OFFSET_SEGMENT)
    TEST_ECAM_SEGMENT) ACPI_STATUS_OVERLAPPING_ECAM_RANGE &&
  match
    test_mcfg (set_checksum (aset fixture mcfg_at 78) mcfg_at ACPI_TEST_MCFG_SIZE)
      ACPI_ROOT_XSDT
  with
  | (st, Some mcfg) =>
      is_status st ACPI_STATUS_MISSING_MCFG && (mcfg.(allocation_count) =? 0)
  | _ => false
  end &&
  is_status (test_mcfg (set_checksum (store_list fixture other_at mcfg_signature) other_at
    sizeof_other) ACPI_ROOT_XSDT).1 ACPI_STATUS_DUPLICATE_MCFG.

(** One edit of the fixture and the refusal MADT discovery must meet. *)
Definition madt_edit_refused (l : list Z) (expected : acpi_status) : bool :=
  is_status (test_madt l (test_root address ACPI_ROOT_XSDT)).1 expected.

Definition root_moved_refused (root_at : Z) (expected : acpi_status) : bool :=
  is_status (test_madt fixture
    (MkRoot ACPI_ROOT_XSDT 2 [83; 65; 80; 79; 84; 69; 0] root_at)).1 expected.

Definition acpi_tables_self_test (oversized_address xsdt_address : Z) : bool :=
  valid_fixture_is_accepted && valid_fadt_is_accepted && valid_mcfg_is_accepted &&
  mcfg_rejections_are_named oversized_address xsdt_address &&
  madt_edit_refused (aset fixture xsdt_at 66) ACPI_STATUS_BAD_ROOT_SIGNATURE &&
  root_moved_refused 0 ACPI_STATUS_NULL_ROOT &&
  root_moved_refused (SAPOTE_EARLY_PHYSICAL_LIMIT - ACPI_SDT_HEADER_SIZE + 1)
    ACPI_STATUS_ROOT_OUTSIDE_EARLY_MAP &&
  madt_edit_refused (set_length fixture xsdt_at (36 - 1)) ACPI_STATUS_BAD_ROOT_LENGTH &&
  madt_edit_refused (set_length fixture xsdt_at (36 + 1)) ACPI_STATUS_BAD_ROOT_ENTRY_SIZE &&
  madt_edit_refused (set_length fixture xsdt_at (36 + (ACPI_MAX_ROOT_ENTRIES + 1) * 8))
    ACPI_STATUS_TOO_MANY_ROOT_ENTRIES &&
  madt_edit_refused
    (aset fixture (xsdt_at + 9) (Z.lxor (aget 0 fixture (xsdt_at + 9)) 1))
    ACPI_STATUS_BAD_ROOT_CHECKSUM &&
  madt_edit_refused (set_checksum (store64 fixture (xsdt_at + 36) 0) xsdt_at sizeof_xsdt)
    ACPI_STATUS_NULL_TABLE &&
  madt_edit_refused
    (set_checksum (store64 fixture (xsdt_at + 36)
       (SAPOTE_EARLY_PHYSICAL_LIMIT - ACPI_SDT_HEADER_SIZE + 1)) xsdt_at sizeof_xsdt)
    ACPI_STATUS_TABLE_OUTSIDE_EARLY_MAP &&
  madt_edit_refused (set_length fixture other_at (36 - 1)) ACPI_STATUS_BAD_TABLE_LENGTH &&
  madt_edit_refused
    (aset fixture (other_at + 9) (Z.lxor (aget 0 fixture (other_at + 9)) 1))
    ACPI_STATUS_BAD_TABLE_CHECKSUM &&
  madt_edit_refused
    (set_checksum (set_length fixture xsdt_at (36 + 8)) xsdt_at (36 + 8))
    ACPI_STATUS_MISSING_MADT &&
  madt_edit_refused
    (set_checksum (store64 fixture (xsdt_at + 36) (address + madt_at)) xsdt_at sizeof_xsdt)
    ACPI_STATUS_DUPLICATE_MADT &&
  madt_edit_refused (set_checksum (set_length fixture madt_at 36) madt_at 36)
    ACPI_STATUS_BAD_MADT_LENGTH &&
  madt_edit_refused
    (set_checksum (store32 fixture (madt_at + 40) 2) madt_at sizeof_madt)
    ACPI_STATUS_BAD_MADT_FLAGS &&
  fadt_rejections_are_refused.
End self_test.

#[global] Arguments sdt_length : simpl never.
#[global] Arguments root_entry : simpl never.
#[global] Arguments acpi_ecam_allocation_size : simpl never.

(** Refute [st ∈ l] on a concrete status and list. *)
Ltac vm_compute_elem H :=
  apply (bool_decide_eq_true_2 _) in H; vm_compute in H; discriminate H.

(** * The walk over the root table *)

Lemma sdt_length_range m a : is_u32 (sdt_length (at_address m a)).
Proof. apply acpi_read_u32_range. auto with sapote. Qed.

(** A table a reader may be given: inside the early map, of a sane length, its
    bytes summing to zero. *)
Record table_ok (m : memory) (a : Z) : Prop := {
  to_start : 0 < a;
  to_length : ACPI_SDT_HEADER_SIZE <= sdt_length (at_address m a) <= ACPI_MAX_TABLE_SIZE;
  to_inside : a + sdt_length (at_address m a) <= SAPOTE_EARLY_PHYSICAL_LIMIT;
  to_checksum : byte_total (at_address m a) (sdt_length (at_address m a)) mod 256 = 0
}.

Lemma validate_referenced_spec m a t :
  is_u64 a ->
  validate_referenced_table m a = inl t <-> t = a /\ table_ok m a.
Proof.
  intros Ha. unfold validate_referenced_table. rewrite byte_sum_total.
  pose proof (sdt_length_range m a) as Hl. split.
  - intros H. repeat (split_if_in H; [done|]). bool_hyps.
    rewrite early_mapped_spec in * by (done || (unfold is_u32 in *; lia)).
    injection H as <-. split; [done|]. unfold is_u64 in *. split; try done; lia.
  - intros [-> []]. unfold ACPI_SDT_HEADER_SIZE in *.
    rewrite (proj2 (Z.eqb_neq _ _)) by lia.
    rewrite (proj2 (early_mapped_spec a 36 Ha ltac:(lia))) by lia.
    rewrite (proj2 (Z.ltb_ge _ _)), Z.gtb_ltb, (proj2 (Z.ltb_ge _ _)) by lia.
    rewrite (proj2 (early_mapped_spec a (sdt_length (at_address m a)) Ha ltac:(lia))) by lia.
    by rewrite (proj2 (Z.eqb_eq _ _)).
Qed.

(** The statuses [validate_referenced_table] refuses with. *)
Definition table_refusals : list acpi_status :=
  [ACPI_STATUS_NULL_TABLE; ACPI_STATUS_TABLE_OUTSIDE_EARLY_MAP;
   ACPI_STATUS_BAD_TABLE_LENGTH; ACPI_STATUS_BAD_TABLE_CHECKSUM].

Lemma validate_referenced_refuses m a st :
  validate_referenced_table m a = inr st -> st ∈ table_refusals.
Proof.
  unfold validate_referenced_table. intros H.
  repeat (split_if_in H; [injection H as <-; set_solver|]). done.
Qed.

Lemma root_entry_range m h es i : is_u64 (root_entry m h es i).
Proof.
  unfold root_entry. split_if; [auto with sapote|].
  pose proof (acpi_read_u32_range (at_address m (h + ACPI_SDT_HEADER_SIZE + i * es))
    ltac:(auto with sapote)).
  unfold is_u64, is_u32, UINT32_MAX, UINT64_MAX in *. lia.
Qed.

(** The table at [a] carries the signature. *)
Definition signed (m : memory) (signature : list Z) (a : Z) : bool :=
  acpi_bytes_equal (at_address m a) (of_list signature) 4.

Lemma root_walk m h es signature dup l found found' :
  for_each (visit_root_entry m h es signature dup) l found = Next found' <->
  Forall (table_ok m) (root_entry m h es <$> l) /\
  option_list found ++ filter (fun a => signed m signature a = true)
    (root_entry m h es <$> l) = option_list found'.
Proof.
  revert found. induction l as [|i l IH]; intros found; simpl.
  - rewrite app_nil_r. split; [intros [= <-]; done|].
    intros [_ H]. f_equal. by destruct found, found'; simplify_eq/=.
  - unfold visit_root_entry at 1. set (a := root_entry m h es i).
    destruct (validate_referenced_table m a) as [t|st] eqn:Ev.
    + apply validate_referenced_spec in Ev as [-> Hok]; [|apply root_entry_range].
      rewrite filter_cons. fold (signed m signature a).
      destruct (decide (signed m signature a = true)) as [E|E];
        [rewrite E|apply not_true_is_false in E; rewrite E]; simpl.
      * destruct found as [f|]; simpl.
        -- split; [done|]. intros [_ H]. by destruct found'.
        -- rewrite IH. simpl. rewrite Forall_cons. tauto.
      * rewrite IH, Forall_cons. tauto.
    + split; [done|]. intros [H _]. apply Forall_cons in H as [Hok _].
      rewrite (proj2 (validate_referenced_spec m a a (root_entry_range _ _ _ _)))
        in Ev by done. done.
Qed.

Lemma root_walk_refuses m h es signature dup l found st :
  for_each (visit_root_entry m h es signature dup) l found = Return st ->
  st = dup \/ st ∈ table_refusals.
Proof.
  revert found. induction l as [|i l IH]; intros found; simpl; [done|].
  unfold visit_root_entry at 1.
  destruct (validate_referenced_table _ _) eqn:Ev.
  - split_if; [apply IH|]. destruct found; [|apply IH]. intros [= <-]. by left.
  - intros [= <-]. right. by eapply validate_referenced_refuses.
Qed.

(** A root table of [n] entries of [es] bytes each. *)
Record root_ok (m : memory) (root : acpi_root) (es n : Z) : Prop := {
  ro_start : 0 < root.(root_address);
  ro_signature : exists s, root_format root.(kind) = Some (s, es) /\
    agree_on 4 (at_address m root.(root_address)) (of_list s);
  ro_length : sdt_length (at_address m root.(root_address)) = ACPI_SDT_HEADER_SIZE + n * es;
  ro_bound : 0 <= n <= ACPI_MAX_ROOT_ENTRIES;
  ro_inside : root.(root_address) + sdt_length (at_address m root.(root_address)) <=
              SAPOTE_EARLY_PHYSICAL_LIMIT;
  ro_checksum : byte_total (at_address m root.(root_address))
                  (sdt_length (at_address m root.(root_address))) mod 256 = 0
}.

Lemma root_format_size k s es : root_format k = Some (s, es) -> 4 <= es <= 8.
Proof. destruct k; intros [= <- <-] || done; lia. Qed.

(** The size of a root payload, read back from its entry count. *)
Lemma root_payload len es n :
  ACPI_SDT_HEADER_SIZE <= len <= ACPI_MAX_TABLE_SIZE -> 4 <= es <= 8 ->
  (u64 (len - ACPI_SDT_HEADER_SIZE) mod es = 0 /\
   n = u64 (len - ACPI_SDT_HEADER_SIZE) / es) <->
  len = ACPI_SDT_HEADER_SIZE + n * es /\ 0 <= n.
Proof.
  unfold ACPI_SDT_HEADER_SIZE, ACPI_MAX_TABLE_SIZE. intros Hl He.
  rewrite u64_small by (unfold is_u64, UINT64_MAX; lia).
  remember (len - 36) as p eqn:Ep. split.
  - intros [Hm ->]. pose proof (Z.div_mod p es ltac:(lia)). pose proof (Z.div_pos p es). lia.
  - intros [Hp Hn]. assert (p = n * es) as -> by lia.
    rewrite Z_mod_mult, Z.div_mul by lia. done.
Qed.

Lemma validate_root_spec m root h es n :
  is_u64 root.(root_address) ->
  validate_root_table m root = inl (h, es, n) <->
  h = root.(root_address) /\ root_ok m root es n.
Proof.
  intros Ha. unfold validate_root_table. rewrite byte_sum_total.
  pose proof (sdt_length_range m root.(root_address)) as Hl.
  set (b := at_address m (root_address root)) in *. split.
  - intros H. split_if_in H; [done|]. split_if_in H; [done|].
    destruct (root_format (kind root)) as [[s es']|] eqn:Ef; [|done].
    repeat (split_if_in H; [done|]). injection H as <- <- <-. bool_hyps.
    rewrite early_mapped_spec in * by (done || (unfold is_u32 in *; lia)).
    rewrite bytes_equal_spec in *. pose proof (root_format_size _ _ _ Ef).
    destruct (proj1 (root_payload (sdt_length b) es' _ ltac:(lia) ltac:(lia))
      (conj Heqb4 eq_refl)) as [Hlen Hn].
    split; [done|]. unfold is_u64 in *. split; fold b; try done; try lia. by exists s.
  - intros [-> [Hs (s & Ef & Hsig) Hlen Hn Hin Hsum]].
    fold b in Hsig, Hlen, Hin, Hsum.
    pose proof (root_format_size _ _ _ Ef) as Hes. rewrite Ef.
    unfold ACPI_MAX_ROOT_ENTRIES, ACPI_SDT_HEADER_SIZE in *.
    assert (36 <= sdt_length b <= ACPI_MAX_TABLE_SIZE) as Hlb
      by (unfold ACPI_MAX_TABLE_SIZE; nia).
    destruct (proj2 (root_payload (sdt_length b) es n Hlb Hes)) as [Hm Hdiv];
      [split; [exact Hlen|lia]|]. unfold ACPI_SDT_HEADER_SIZE in *.
    rewrite (proj2 (Z.eqb_neq _ _)) by lia.
    rewrite (proj2 (early_mapped_spec _ 36 Ha ltac:(lia))) by lia. cbn [negb].
    rewrite (proj2 (bytes_equal_spec b (of_list s) 4)) by done. cbn [negb].
    rewrite (proj2 (Z.ltb_ge _ _)), Z.gtb_ltb, (proj2 (Z.ltb_ge _ _)) by lia.
    rewrite Hm, <- Hdiv, Z.gtb_ltb, (proj2 (Z.ltb_ge _ _)) by lia.
    rewrite (proj2 (early_mapped_spec _ (sdt_length b) Ha ltac:(lia))) by lia.
    by rewrite Hsum.
Qed.

(** The statuses [validate_root_table] refuses with. *)
Definition root_refusals : list acpi_status :=
  [ACPI_STATUS_NULL_ROOT; ACPI_STATUS_ROOT_OUTSIDE_EARLY_MAP;
   ACPI_STATUS_BAD_ROOT_SIGNATURE; ACPI_STATUS_BAD_ROOT_LENGTH;
   ACPI_STATUS_BAD_ROOT_ENTRY_SIZE; ACPI_STATUS_TOO_MANY_ROOT_ENTRIES;
   ACPI_STATUS_BAD_ROOT_CHECKSUM].

Lemma validate_root_refuses m root st :
  validate_root_table m root = inr st -> st ∈ root_refusals.
Proof.
  unfold validate_root_table. intros H.
  split_if_in H; [injection H as <-; set_solver|].
  split_if_in H; [injection H as <-; set_solver|].
  destruct (root_format _) as [[s es]|]; [|injection H as <-; set_solver].
  repeat (split_if_in H; [injection H as <-; set_solver|]). done.
Qed.

Lemma find_unique_table_refuses m root signature missing dup st :
  find_unique_table m root signature missing dup = inr st ->
  st ∈ missing :: dup :: root_refusals ++ table_refusals.
Proof.
  unfold find_unique_table. rewrite !elem_of_cons, elem_of_app.
  destruct (validate_root_table m root) as [[[h es] n]|st'] eqn:Ev.
  - destruct (for_each _ _ _) as [[f|]|st'] eqn:Ef; intros [= <-]; [by left|].
    apply root_walk_refuses in Ef. tauto.
  - intros [= <-]. apply validate_root_refuses in Ev. tauto.
Qed.

(** The addresses a root table declares. *)
Definition root_entries (m : memory) (root : acpi_root) (es n : Z) : list Z :=
  root_entry m root.(root_address) es <$> seqZ 0 n.

(** The root declares [n] tables, all valid, of which those with the signature are
    [hits]. *)
Definition declares (m : memory) (root : acpi_root) (signature : list Z) (n : Z)
    (hits : list Z) : Prop :=
  exists es, root_ok m root es n /\ Forall (table_ok m) (root_entries m root es n) /\
    filter (fun t => signed m signature t = true) (root_entries m root es n) = hits.

Lemma root_ok_det m root es n es' n' : root_ok m root es n -> root_ok m root es' n' ->
  es' = es /\ n' = n.
Proof.
  intros Hr Hr'. destruct (ro_signature _ _ _ _ Hr) as (s & E & _).
  destruct (ro_signature _ _ _ _ Hr') as (s' & E' & _).
  assert (es' = es) as -> by congruence. split; [done|].
  pose proof (ro_length _ _ _ _ Hr). pose proof (ro_length _ _ _ _ Hr').
  apply root_format_size in E. nia.
Qed.

Lemma find_unique_table_spec m root signature missing dup a n :
  is_u64 root.(root_address) ->
  find_unique_table m root signature missing dup = inl (a, n) <->
  declares m root signature n [a].
Proof.
  intros Ha. unfold find_unique_table.
  destruct (validate_root_table m root) as [[[h es] n']|st] eqn:Ev.
  - apply validate_root_spec in Ev as [-> Hr]; [|done]. split.
    + destruct (for_each _ _ _) as [[f|]|st] eqn:Ef; intros [= -> ->].
      apply root_walk in Ef as [Hall Hf]. exists es. done.
    + intros (es' & Hr' & Hall & Hf).
      destruct (root_ok_det _ _ _ _ _ _ Hr Hr') as [-> ->].
      by rewrite (proj2 (root_walk m _ es signature dup (seqZ 0 _) None (Some a))).
  - split; [done|]. intros (es & Hr & _).
    rewrite (proj2 (validate_root_spec m root _ es n Ha)) in Ev by done. done.
Qed.

Lemma find_unique_table_missing m root signature missing dup :
  is_u64 root.(root_address) -> missing ∉ dup :: root_refusals ++ table_refusals ->
  find_unique_table m root signature missing dup = inr missing <->
  exists n, declares m root signature n [].
Proof.
  intros Ha Hmiss. rewrite elem_of_cons, elem_of_app in Hmiss. unfold find_unique_table.
  destruct (validate_root_table m root) as [[[h es] n]|st] eqn:Ev.
  - apply validate_root_spec in Ev as [-> Hr]; [|done]. split.
    + destruct (for_each _ _ _) as [[f|]|st] eqn:Ef; [done| |intros [= ->]].
      * apply root_walk in Ef as [Hall Hf]. exists n, es. done.
      * apply root_walk_refuses in Ef. tauto.
    + intros (n' & es' & Hr' & Hall & Hf).
      destruct (root_ok_det _ _ _ _ _ _ Hr Hr') as [-> ->].
      by rewrite (proj2 (root_walk m _ es signature dup (seqZ 0 _) None None)).
  - split.
    + intros [= ->]. apply validate_root_refuses in Ev. tauto.
    + intros (n & es & Hr & _).
      rewrite (proj2 (validate_root_spec m root _ es n Ha)) in Ev by done. done.
Qed.

(** * The MADT and the FADT *)

(** [flags & ~1] is zero exactly on 0 and 1. *)
Lemma madt_flags_ok x :
  is_u32 x -> Z.land x (u32 (Z.lnot ACPI_MADT_PCAT_COMPAT)) = 0 <-> x = 0 \/ x = 1.
Proof.
  intros Hx. unfold is_u32, UINT32_MAX in Hx.
  rewrite (masked_zero 1 32 x) by lia. lia.
Qed.

(** What a discovered MADT holds: the fields of the table it was found at. *)
Record madt_read (m : memory) (g : acpi_madt) : Prop := {
  mr_length : g.(madt_length) = sdt_length (at_address m g.(madt_physical_address));
  mr_minimum : ACPI_MADT_FIXED_SIZE <= g.(madt_length);
  mr_apic : g.(madt_local_apic_address) =
            acpi_read_u32 (at_address m (g.(madt_physical_address) + 36));
  mr_flags : g.(madt_flags) = acpi_read_u32 (at_address m (g.(madt_physical_address) + 40));
  mr_flags_known : g.(madt_flags) = 0 \/ g.(madt_flags) = ACPI_MADT_PCAT_COMPAT;
  mr_revision : g.(madt_revision) = byte_at m (g.(madt_physical_address) + 8);
  mr_oem : g.(madt_oem_id) =
    (at_address m (g.(madt_physical_address) + 10) <$> seqZ 0 6) ++ [0];
  mr_oem_table : g.(madt_oem_table_id) =
    (at_address m (g.(madt_physical_address) + 16) <$> seqZ 0 8) ++ [0]
}.

Lemma at_address_fmap m a k (l : list Z) :
  advance (at_address m a) k <$> l = at_address m (a + k) <$> l.
Proof. apply list_fmap_ext. intros. apply at_address_advance. Qed.

Lemma read_u32_at m a k :
  acpi_read_u32 (advance (at_address m a) k) = acpi_read_u32 (at_address m (a + k)).
Proof. unfold acpi_read_u32. by rewrite !at_address_advance. Qed.

Lemma madt_copies m a (g := madt_reset) :
  acpi_copy_string g.(madt_oem_id) (sdt_oem_id (at_address m a)) 6 =
    (at_address m (a + 10) <$> seqZ 0 6) ++ [0] /\
  acpi_copy_string g.(madt_oem_table_id) (sdt_oem_table_id (at_address m a)) 8 =
    (at_address m (a + 16) <$> seqZ 0 8) ++ [0].
Proof. unfold sdt_oem_id, sdt_oem_table_id. rewrite !copy_string_spec by done. by rewrite !at_address_fmap. Qed.

Lemma madt_discover_ok m root g0 g :
  acpi_madt_discover m (Some root) (Some g0) = (ACPI_STATUS_OK, Some g) <->
  find_unique_table m root madt_signature ACPI_STATUS_MISSING_MADT
    ACPI_STATUS_DUPLICATE_MADT = inl (g.(madt_physical_address), g.(madt_root_entry_count)) /\
  madt_read m g.
Proof.
  unfold acpi_madt_discover.
  destruct (find_unique_table _ _ _ _ _) as [[a n]|st] eqn:Ef; cycle 1.
  { split; [|by intros [? _]]. intros [= -> _].
    apply find_unique_table_refuses in Ef. vm_compute_elem Ef. }
  destruct (madt_copies m a) as [-> ->].
  assert (is_u32 (madt_table_flags (at_address m a))) as Hf
    by (apply acpi_read_u32_range; auto with sapote).
  split.
  - intros H. repeat (split_if_in H; [done|]). injection H as <-. bool_hyps.
    rewrite madt_flags_ok in * by done. split; [done|].
    split; simpl; try done; apply read_u32_at.
  - intros [[= -> ->] []]. destruct g; simpl in *. unfold madt_table_flags in *.
    rewrite read_u32_at in *. rewrite (proj2 (Z.ltb_ge _ _)) by lia.
    rewrite (proj2 (Z.eqb_eq _ _)) by (apply madt_flags_ok; [done|]; by rewrite <- mr_flags0).
    simpl. unfold madt_table_local_apic_address. rewrite read_u32_at. by subst.
Qed.

Lemma madt_discover_refused m root g0 st g :
  acpi_madt_discover m (Some root) (Some g0) = (st, g) -> st <> ACPI_STATUS_OK ->
  g = Some madt_reset.
Proof.
  unfold acpi_madt_discover. intros H Hst.
  destruct (find_unique_table _ _ _ _ _) as [[a n]|st'] eqn:Ef; [|congruence].
  repeat (split_if_in H; [congruence|]). congruence.
Qed.

(** Where the power management timer is, and whether the extended field says so:
    a System I/O block of the extended field is preferred, and has to be a whole
    32-bit register. *)
Inductive pm_timer_at (b : bytes) (len : Z) : bool -> Z -> Prop :=
| timer_extended p :
    FADT_X_PM_TMR_BLK_END <= len -> b 208 = ACPI_GAS_SPACE_SYSTEM_IO ->
    b 209 = ACPI_PM_TIMER_REGISTER_BITS -> b 210 = 0 ->
    p = acpi_read_u64 (advance b 212) -> p <> 0 -> pm_timer_at b len true p
| timer_fixed p :
    len < FADT_X_PM_TMR_BLK_END \/ b 208 <> ACPI_GAS_SPACE_SYSTEM_IO \/
      acpi_read_u64 (advance b 212) = 0 ->
    p = acpi_read_u32 (advance b 76) -> p <> 0 -> pm_timer_at b len false p.

(** The timer a FADT of [len] bytes describes. *)
Definition fadt_timer (b : bytes) (len : Z) (extended : bool) (port flags bits : Z) : Prop :=
  FADT_MINIMUM_SIZE <= len /\ b 91 = ACPI_PM_TIMER_BLOCK_LENGTH /\
  pm_timer_at b len extended port /\ 0 < port /\ port + 3 <= UINT16_MAX /\
  flags = acpi_read_u32 (advance b 112) /\
  bits = if Z.testbit flags 8 then 32 else 24.

Lemma tmr_val_ext x : negb (Z.land x ACPI_FADT_TMR_VAL_EXT =? 0) = Z.testbit x 8.
Proof.
  by apply (flag_bit x 8).
Qed.

Lemma extended_pm_timer_some b len p :
  extended_pm_timer b len = inl (Some p) <-> pm_timer_at b len true p.
Proof.
  unfold extended_pm_timer.
  change (acpi_read_u64 (advance (advance b FADT_OFFSET_X_PM_TMR_BLK) ACPI_GAS_OFFSET_ADDRESS))
    with (acpi_read_u64 (advance b 212)).
  change (advance b FADT_OFFSET_X_PM_TMR_BLK ACPI_GAS_OFFSET_SPACE_ID) with (b 208).
  change (advance b FADT_OFFSET_X_PM_TMR_BLK ACPI_GAS_OFFSET_BIT_WIDTH) with (b 209).
  change (advance b FADT_OFFSET_X_PM_TMR_BLK ACPI_GAS_OFFSET_BIT_OFFSET) with (b 210).
  split.
  - intros H. split_if_in H; [|done]. split_if_in H; [|done]. split_if_in H; [done|].
    injection H as <-. bool_hyps. by constructor.
  - inversion 1 as [? Hl Hs Hw Ho Hp Hz|]; subst.
    rewrite Z.geb_leb, (proj2 (Z.leb_le _ _)) by done.
    by rewrite (proj2 (Z.eqb_neq _ _) Hz), Hs, Hw, Ho.
Qed.

Lemma extended_pm_timer_none b len :
  extended_pm_timer b len = inl None <->
  len < FADT_X_PM_TMR_BLK_END \/ b 208 <> ACPI_GAS_SPACE_SYSTEM_IO \/
    acpi_read_u64 (advance b 212) = 0.
Proof.
  unfold extended_pm_timer.
  change (acpi_read_u64 (advance (advance b FADT_OFFSET_X_PM_TMR_BLK) ACPI_GAS_OFFSET_ADDRESS))
    with (acpi_read_u64 (advance b 212)).
  change (advance b FADT_OFFSET_X_PM_TMR_BLK ACPI_GAS_OFFSET_SPACE_ID) with (b 208).
  rewrite Z.geb_leb.
  destruct (Z.leb_spec FADT_X_PM_TMR_BLK_END len); [|tauto].
  destruct (Z.eqb_spec (acpi_read_u64 (advance b 212)) 0); [tauto|].
  destruct (Z.eqb_spec (b 208) ACPI_GAS_SPACE_SYSTEM_IO); simpl; [|tauto].
  split; [by split_if|]. intros [?|[?|?]]; [lia|done|done].
Qed.

Lemma pm_timer_choice b len extended p :
  pm_timer_at b len extended p <->
  exists selected, extended_pm_timer b len = inl selected /\
    extended = bool_decide (is_Some selected) /\
    p = match selected with Some a => a | None => acpi_read_u32 (advance b 76) end /\ p <> 0.
Proof.
  split.
  - intros H. destruct extended.
    + exists (Some p). split; [by apply extended_pm_timer_some|].
      rewrite bool_decide_eq_true_2 by done. by inversion H.
    + exists None. inversion H. split; [by apply extended_pm_timer_none|]. done.
  - intros ([a|] & Hs & -> & -> & Hz).
    + rewrite bool_decide_eq_true_2 by done. by apply extended_pm_timer_some.
    + rewrite bool_decide_eq_false_2 by (by intros []).
      constructor; [by apply extended_pm_timer_none|done|done].
Qed.

Lemma extended_pm_timer_refuses b len st :
  extended_pm_timer b len = inr st -> st = ACPI_STATUS_BAD_PM_TIMER_BLOCK.
Proof.
  unfold extended_pm_timer. intros H.
  split_if_in H; [|done]. split_if_in H; [|done]. split_if_in H; congruence.
Qed.

Lemma decode_pm_timer_spec b len f f' :
  is_bytes b ->
  decode_pm_timer b len f = (ACPI_STATUS_OK, f') <->
  exists extended port flags bits, fadt_timer b len extended port flags bits /\
    f' = MkFadt f.(fadt_physical_address) f.(fadt_length) flags port bits
           f.(fadt_revision) extended f.(fadt_oem_id) f.(fadt_oem_table_id).
Proof.
  intros Hb. unfold decode_pm_timer, fadt_timer. rewrite tmr_val_ext.
  change (UINT16_MAX - (ACPI_PM_TIMER_BLOCK_LENGTH - 1)) with (UINT16_MAX - 3).
  change (b FADT_OFFSET_PM_TMR_LEN) with (b 91).
  change FADT_OFFSET_PM_TMR_BLK with 76. change FADT_OFFSET_FLAGS with 112.
  assert (forall sel, extended_pm_timer b len = inl sel ->
    0 <= match sel with Some a => a | None => acpi_read_u32 (advance b 76) end) as Hpos.
  { intros [a|] Hs; [|by apply (acpi_read_u32_range _ (advance_bytes b 76 Hb))].
    apply extended_pm_timer_some in Hs. inversion Hs; subst.
    apply (acpi_read_u64_range _ (advance_bytes b 212 Hb)). }
  split.
  - intros H. split_if_in H; [done|]. split_if_in H; [done|]. bool_hyps.
    destruct (extended_pm_timer b len) as [sel|st] eqn:Es;
      [|apply extended_pm_timer_refuses in Es; congruence].
    specialize (Hpos _ eq_refl).
    set (p := match sel with Some a => a | None => acpi_read_u32 (advance b 76) end) in *.
    split_if_in H; [done|]. split_if_in H; [done|]. injection H as <-.
    assert (p <> 0) as Hz.
    { destruct sel as [a|]; [apply extended_pm_timer_some in Es; by inversion Es; subst|].
      rewrite bool_decide_eq_false_2 in Heqb2 by (by intros []). simpl in *. by bool_hyps. }
    bool_hyps.
    assert (u16 p = p) as -> by (apply Z.mod_small; unfold UINT16_MAX in *; lia).
    eexists _, _, _, _. split; [|done]. split_and!; try done; try lia.
    apply pm_timer_choice. by exists sel.
  - intros (ext & p & flags & bits & (Hl & H91 & Ht & Hp & Hmax & -> & ->) & ->).
    apply pm_timer_choice in Ht as (sel & Es & -> & Ep & Hz).
    rewrite (proj2 (Z.ltb_ge _ _)), H91, Z.eqb_refl, Es, <- Ep by lia. simpl.
    rewrite (proj2 (Z.eqb_neq _ _) Hz), andb_false_r, Z.gtb_ltb, (proj2 (Z.ltb_ge _ _)) by lia.
    assert (u16 p = p) as -> by (apply Z.mod_small; unfold UINT16_MAX in *; lia). done.
Qed.

(** * The configuration windows *)

(** The memory a window covers, without wrap-around. *)
Definition window_size (w : acpi_ecam_allocation) : Z :=
  (w.(end_bus) - w.(start_bus) + 1) * ACPI_ECAM_BUS_SIZE.

(** A usable window: a bus range, a base aligned to a bus, inside the 64-bit
    address space. *)
Record window_ok (w : acpi_ecam_allocation) : Prop := {
  wo_buses : w.(start_bus) <= w.(end_bus);
  wo_base : 0 < w.(ecam_base_address);
  wo_aligned : w.(ecam_base_address) mod ACPI_ECAM_BUS_SIZE = 0;
  wo_fits : w.(ecam_base_address) + window_size w <= UINT64_MAX
}.

(** Two windows share no bus of a segment group and no byte of memory. *)
Definition windows_apart (l r : acpi_ecam_allocation) : Prop :=
  (l.(segment) = r.(segment) ->
     l.(end_bus) < r.(start_bus) \/ r.(end_bus) < l.(start_bus)) /\
  (l.(ecam_base_address) + window_size l <= r.(ecam_base_address) \/
   r.(ecam_base_address) + window_size r <= l.(ecam_base_address)).

(** The widths of the fields of a window read from a table. *)
Definition window_typed (w : acpi_ecam_allocation) : Prop :=
  is_u64 w.(ecam_base_address) /\ 0 <= w.(start_bus) < 256 /\ 0 <= w.(end_bus) < 256.

Lemma ecam_size_exact w :
  window_typed w -> w.(start_bus) <= w.(end_bus) ->
  acpi_ecam_allocation_size (Some w) = window_size w /\
  0 < window_size w <= 256 * ACPI_ECAM_BUS_SIZE.
Proof.
  intros (_ & Hs & He) Hle. unfold acpi_ecam_allocation_size, window_size, ACPI_ECAM_BUS_SIZE.
  rewrite (u64_small (_ - _)) by (unfold is_u64, UINT64_MAX; lia).
  rewrite (u64_small (_ + 1)) by (unfold is_u64, UINT64_MAX; lia).
  rewrite u64_small by (unfold is_u64, UINT64_MAX; lia). lia.
Qed.

Lemma conflict_exact l r :
  window_typed l -> window_typed r -> window_ok l -> window_ok r ->
  ecam_allocations_conflict l r = false <-> windows_apart l r.
Proof.
  intros Tl Tr [Hl1 Hl2 _ Hl4] [Hr1 Hr2 _ Hr4].
  destruct (ecam_size_exact l Tl Hl1) as [El Pl].
  destruct (ecam_size_exact r Tr Hr1) as [Er Pr].
  unfold ecam_allocations_conflict, windows_apart. rewrite El, Er.
  rewrite !u64_small by (unfold is_u64; lia).
  rewrite orb_false_iff, !andb_false_iff, Z.eqb_neq, !Z.leb_gt, !Z.ltb_ge.
  split; [|lia]. lia.
Qed.

Lemma ecam_record_typed b : is_bytes b -> window_typed (ecam_record b).
Proof.
  intros Hb. split; [|split; apply Hb]. simpl. auto with sapote.
Qed.

Section windows.
Context (records : bytes) (Hb : is_bytes records).

(** The window the record at index [i] describes. *)
Definition window_at (i : Z) : acpi_ecam_allocation :=
  ecam_record (advance records (i * ACPI_MCFG_ALLOCATION_SIZE)).

(** The array with the first [k] windows stored. *)
Definition stored (k : Z) : list acpi_ecam_allocation :=
  (window_at <$> seqZ 0 k) ++
  replicate (Z.to_nat (ACPI_MAX_ECAM_ALLOCATIONS - k)) ecam_zero.

(** The window at [i] is usable and apart from those before it. *)
Definition window_fits (i : Z) : Prop :=
  window_ok (window_at i) /\
  forall j, 0 <= j < i -> windows_apart (window_at j) (window_at i).

Lemma window_at_typed i : window_typed (window_at i).
Proof. by apply ecam_record_typed, advance_bytes. Qed.

Lemma stored_get k j : 0 <= j < k -> aget ecam_zero (stored k) j = window_at j.
Proof.
  intros Hj. apply aget_lookup. unfold stored.
  rewrite lookup_app_l by (rewrite length_fmap, length_seqZ; lia).
  rewrite list_lookup_fmap, lookup_seqZ_lt by lia. simpl. do 2 f_equal. lia.
Qed.

Lemma stored_set k :
  0 <= k < ACPI_MAX_ECAM_ALLOCATIONS ->
  aset (stored k) k (window_at k) = stored (k + 1).
Proof.
  intros Hk. unfold aset, stored.
  assert (length (window_at <$> seqZ 0 k) = Z.to_nat k) as Hl
    by (rewrite length_fmap, length_seqZ; lia).
  rewrite insert_app_r_alt, Hl, Nat.sub_diag by lia.
  rewrite (seqZ_app 0 k 1), fmap_app by lia. rewrite <- app_assoc. f_equal.
  replace (Z.to_nat (ACPI_MAX_ECAM_ALLOCATIONS - k))
    with (S (Z.to_nat (ACPI_MAX_ECAM_ALLOCATIONS - (k + 1)))) by lia.
  rewrite Z.add_0_l. done.
Qed.

Lemma no_conflict_scan k (w : acpi_ecam_allocation) allocs :
  for_each (fun earlier (_ : unit) =>
      if ecam_allocations_conflict (aget ecam_zero allocs earlier) w
      then Return tt else Next tt) (seqZ 0 k) tt = Next tt <->
  forall j, 0 <= j < k -> ecam_allocations_conflict (aget ecam_zero allocs j) w = false.
Proof.
  assert (forall l, for_each (fun earlier (_ : unit) =>
      if ecam_allocations_conflict (aget ecam_zero allocs earlier) w
      then Return tt else Next tt) l tt = Next tt <->
    forall j, j ∈ l -> ecam_allocations_conflict (aget ecam_zero allocs j) w = false) as H.
  { induction l as [|i l IH]; simpl; [split; [intros _ j Hj; by apply not_elem_of_nil in Hj|done]|].
    destruct (ecam_allocations_conflict (aget ecam_zero allocs i) w) eqn:E.
    - split; [done|]. intros H. rewrite H in E by left. done.
    - rewrite IH. split; intros H j Hj; [|by apply H; right].
      apply elem_of_cons in Hj as [->|Hj]; auto. }
  rewrite H. split; intros Hj j Hin; apply Hj; [apply elem_of_seqZ; lia|].
  apply elem_of_seqZ in Hin. lia.
Qed.

Lemma decode_ecam_step k allocs :
  0 <= k < ACPI_MAX_ECAM_ALLOCATIONS -> (forall j, 0 <= j < k -> window_fits j) ->
  decode_ecam_record records k (stored k) = Next allocs <->
  window_fits k /\ allocs = stored (k + 1).
Proof.
  intros Hk Hprev. unfold decode_ecam_record. fold (window_at k).
  pose proof (window_at_typed k) as Ht. rewrite stored_set by done.
  destruct (Z.ltb_spec (end_bus (window_at k)) (start_bus (window_at k))).
  { split; [done|]. intros [[[] _] _]. lia. }
  destruct (ecam_size_exact _ Ht ltac:(lia)) as [-> Hw].
  destruct ((ecam_base_address (window_at k) =? 0) || _) eqn:Eb.
  { split; [done|]. intros [[[] _] _]. apply orb_true_iff in Eb as [Eb|Eb]; bool_hyps; lia. }
  destruct (ecam_base_address (window_at k) >? _) eqn:Ef.
  { split; [done|]. intros [[[] _] _]. bool_hyps.
    rewrite u64_small in Ef by (unfold is_u64, UINT64_MAX, ACPI_ECAM_BUS_SIZE in *; lia). lia. }
  bool_hyps. rewrite u64_small in Ef by (unfold is_u64, UINT64_MAX, ACPI_ECAM_BUS_SIZE in *; lia).
  destruct Ht as ([Hbase _] & _).
  assert (window_ok (window_at k)) as Hok by (split; lia).
  destruct (for_each _ _ _) as [[]|[]] eqn:Es.
  - split; [|by intros [_ ->]]. intros [= <-]. split; [|done]. split; [done|]. intros j Hj.
    apply conflict_exact; [apply window_at_typed..|apply Hprev; lia|done|].
    rewrite <- (stored_get k) by done. by apply no_conflict_scan with (k := k).
  - split; [done|]. intros [[_ Hap] _]. exfalso.
    assert (Return tt = Next tt :> ctl unit unit) as E; [|done]. rewrite <- Es.
    apply no_conflict_scan. intros j Hj. rewrite stored_get by done.
    apply conflict_exact; [apply window_at_typed..|apply Hprev; lia|done|auto].
Qed.

Lemma decode_ecam_loop n k allocs :
  0 <= n -> 0 <= k -> k + n <= ACPI_MAX_ECAM_ALLOCATIONS ->
  (forall j, 0 <= j < k -> window_fits j) ->
  for_each (decode_ecam_record records) (seqZ k n) (stored k) = Next allocs <->
  (forall j, 0 <= j < k + n -> window_fits j) /\ allocs = stored (k + n).
Proof.
  intros Hn. revert k. pattern n. apply natlike_ind; [|clear n Hn|done].
  - intros k Hk Hb8 Hprev. rewrite seqZ_nil by lia. simpl. rewrite Z.add_0_r. naive_solver.
  - intros n Hn IH k Hk Hb8 Hprev. rewrite seqZ_cons by lia. simpl. rewrite Z.pred_succ.
    destruct (decode_ecam_record records k (stored k)) as [allocs'|st] eqn:Ed.
    + apply decode_ecam_step in Ed as [Hf ->]; [|lia|done].
      change (Z.succ k) with (k + 1).
      rewrite IH; [|lia|lia|].
      * by replace (k + 1 + n) with (k + Z.succ n) by lia.
      * intros j Hj. destruct (decide (j = k)) as [->|]; [done|apply Hprev; lia].
    + split; [done|]. intros [Hall _].
      assert (decode_ecam_record records k (stored k) = Next (stored (k + 1))) as E; [|congruence].
      apply decode_ecam_step; [lia|done|]. split; [apply Hall; lia|done].
Qed.
End windows.

(** The statuses a window is refused with. *)
Definition window_refusals : list acpi_status :=
  [ACPI_STATUS_BAD_ECAM_BUS_RANGE; ACPI_STATUS_BAD_ECAM_BASE;
   ACPI_STATUS_OVERLAPPING_ECAM_RANGE].

Lemma ecam_loop_refuses records l allocs st allocs' :
  for_each (decode_ecam_record records) l allocs = Return (st, allocs') ->
  st ∈ window_refusals.
Proof.
  revert allocs. induction l as [|i l IH]; intros allocs; simpl; [done|].
  destruct (decode_ecam_record records i allocs) as [a|r] eqn:Ed; [apply IH|].
  intros [= ->]. unfold decode_ecam_record in Ed.
  repeat (split_if_in Ed; [injection Ed as <- _; set_solver|]).
  destruct (for_each _ _ _); [done|]. injection Ed as <- _. set_solver.
Qed.

Lemma decode_ecam_never_missing b len g g' :
  decode_ecam_allocations b len g <> (ACPI_STATUS_MISSING_MCFG, g').
Proof.
  unfold decode_ecam_allocations. intros H. repeat (split_if_in H; [done|]).
  destruct (for_each _ _ _) as [?|[st ?]] eqn:Ef; [done|]. injection H as -> _.
  apply ecam_loop_refuses in Ef. vm_compute_elem Ef.
Qed.

(** The windows of a table of [len] bytes. *)
Definition windows_read (b : bytes) (len n : Z) (allocs : list acpi_ecam_allocation) : Prop :=
  1 <= n <= ACPI_MAX_ECAM_ALLOCATIONS /\
  len = ACPI_MCFG_FIXED_SIZE + n * ACPI_MCFG_ALLOCATION_SIZE /\
  (forall j, 0 <= j < n -> window_fits (advance b ACPI_MCFG_FIXED_SIZE) j) /\
  allocs = stored (advance b ACPI_MCFG_FIXED_SIZE) n.

Lemma decode_ecam_spec b len g :
  is_bytes b -> is_u32 len ->
  decode_ecam_allocations b len mcfg_reset = (ACPI_STATUS_OK, g) <->
  windows_read b len g.(allocation_count) g.(allocations) /\
  g = with_allocations mcfg_reset g.(allocation_count) g.(allocations).
Proof.
  intros Hb Hl. unfold decode_ecam_allocations, windows_read.
  change (allocations mcfg_reset) with (stored (advance b ACPI_MCFG_FIXED_SIZE) 0).
  destruct (Z.ltb_spec len ACPI_MCFG_FIXED_SIZE).
  { split; [done|]. intros [(Hn & -> & _) _].
    unfold ACPI_MCFG_ALLOCATION_SIZE, ACPI_MCFG_FIXED_SIZE in *. lia. }
  rewrite u32_small by (unfold is_u32, ACPI_MCFG_FIXED_SIZE in *; lia).
  set (p := len - ACPI_MCFG_FIXED_SIZE).
  assert (forall n, len = ACPI_MCFG_FIXED_SIZE + n * ACPI_MCFG_ALLOCATION_SIZE <->
    p mod ACPI_MCFG_ALLOCATION_SIZE = 0 /\ n = p / ACPI_MCFG_ALLOCATION_SIZE) as Hp.
  { intros n. unfold p, ACPI_MCFG_ALLOCATION_SIZE. set (q := len - ACPI_MCFG_FIXED_SIZE).
    split; [|pose proof (Z.div_mod q 16); lia]. intros E.
    assert (q = n * 16) as -> by lia. by rewrite Z_mod_mult, Z.div_mul. }
  destruct (Z.eqb_spec (p mod ACPI_MCFG_ALLOCATION_SIZE) 0) as [Em|Em]; simpl;
    [|split; [done|]; intros [(_ & Hlen & _) _]; apply Hp in Hlen; tauto].
  set (n := p / ACPI_MCFG_ALLOCATION_SIZE) in *.
  assert (0 <= n) by (apply Z.div_pos; [lia|done]).
  destruct (Z.eqb_spec n 0) as [E0|E0];
    [split; [done|]; intros [(Hn & Hlen & _) _]; apply Hp in Hlen; lia|].
  destruct (n >? ACPI_MAX_ECAM_ALLOCATIONS) eqn:E8; bool_hyps;
    [split; [done|]; intros [(Hn & Hlen & _) _]; apply Hp in Hlen; lia|].
  pose proof (decode_ecam_loop (advance b ACPI_MCFG_FIXED_SIZE) ltac:(auto with sapote) n 0)
    as Hloop. rewrite Z.add_0_l in Hloop.
  destruct (for_each _ _ _) as [allocs|[st allocs]] eqn:Ef.
  - destruct (proj1 (Hloop allocs ltac:(lia) ltac:(lia) ltac:(lia) ltac:(lia)) eq_refl)
      as [Hfit ->].
    split; [intros [= <-]; simpl; split_and!; try done; try lia; by apply Hp|].
    intros [(_ & Hlen & _ & Ha) ->]. f_equal. apply Hp in Hlen as [_ Hn].
    destruct g; simpl in *. by rewrite Ha, Hn.
  - split; [intros [= -> _]; apply ecam_loop_refuses in Ef; vm_compute_elem Ef|].
    intros [(_ & Hlen & Hfit & _) _]. apply Hp in Hlen as [_ Hn]. rewrite Hn in Hfit.
    discriminate (proj2 (Hloop (stored (advance b ACPI_MCFG_FIXED_SIZE) n)
      ltac:(lia) ltac:(lia) ltac:(lia) ltac:(lia)) (conj Hfit eq_refl)).
Qed.

(** What a discovered MCFG holds. *)
Record mcfg_read (m : memory) (g : acpi_mcfg) : Prop := {
  cr_length : g.(mcfg_length) = sdt_length (at_address m g.(mcfg_physical_address));
  cr_windows : windows_read (at_address m g.(mcfg_physical_address)) g.(mcfg_length)
                 g.(allocation_count) g.(allocations);
  cr_revision : g.(mcfg_revision) = byte_at m (g.(mcfg_physical_address) + 8);
  cr_oem : g.(mcfg_oem_id) =
    (at_address m (g.(mcfg_physical_address) + 10) <$> seqZ 0 6) ++ [0];
  cr_oem_table : g.(mcfg_oem_table_id) =
    (at_address m (g.(mcfg_physical_address) + 16) <$> seqZ 0 8) ++ [0]
}.

(** What a discovered FADT holds. *)
Record fadt_read (m : memory) (g : acpi_fadt) : Prop := {
  fr_length : g.(fadt_length) = sdt_length (at_address m g.(fadt_physical_address));
  fr_timer : fadt_timer (at_address m g.(fadt_physical_address)) g.(fadt_length)
               g.(pm_timer_extended_address) g.(pm_timer_port) g.(fadt_flags)
               g.(pm_timer_counter_bits);
  fr_revision : g.(fadt_revision) = byte_at m (g.(fadt_physical_address) + 8);
  fr_oem : g.(fadt_oem_id) =
    (at_address m (g.(fadt_physical_address) + 10) <$> seqZ 0 6) ++ [0];
  fr_oem_table : g.(fadt_oem_table_id) =
    (at_address m (g.(fadt_physical_address) + 16) <$> seqZ 0 8) ++ [0]
}.

(** The two names every reader copies into a structure it has just reset. *)
Lemma names_copied m a :
  acpi_copy_string (acpi_bytes_zero 7) (sdt_oem_id (at_address m a)) 6 =
    (at_address m (a + 10) <$> seqZ 0 6) ++ [0] /\
  acpi_copy_string (acpi_bytes_zero 9) (sdt_oem_table_id (at_address m a)) 8 =
    (at_address m (a + 16) <$> seqZ 0 8) ++ [0].
Proof. exact (madt_copies m a). Qed.

Lemma mcfg_discover_ok m root g0 g :
  acpi_mcfg_discover m (Some root) (Some g0) = (ACPI_STATUS_OK, Some g) <->
  (exists n, find_unique_table m root mcfg_signature ACPI_STATUS_MISSING_MCFG
     ACPI_STATUS_DUPLICATE_MCFG = inl (g.(mcfg_physical_address), n)) /\ mcfg_read m g.
Proof.
  unfold acpi_mcfg_discover.
  destruct (find_unique_table _ _ _ _ _) as [[a n]|st] eqn:Ef; cycle 1.
  { split; [|by intros [[? ?] _]]. intros [= -> _].
    apply find_unique_table_refuses in Ef. vm_compute_elem Ef. }
  pose proof (sdt_length_range m a) as Hl.
  pose proof (fun g => decode_ecam_spec _ _ g (at_address_bytes m a) Hl) as Hspec.
  split.
  - destruct (decode_ecam_allocations _ _ _) as [st g1] eqn:Ed.
    destruct (negb (is_status st ACPI_STATUS_OK)) eqn:Es.
    { intros [= -> _]. done. }
    apply negb_false_iff, bool_decide_eq_true in Es. subst st.
    destruct (proj1 (Hspec g1) eq_refl) as [Hw Hg]. intros [= <-]. split; [by exists n|].
    rewrite Hg. split; simpl; try done; apply names_copied.
  - intros [[? [= -> ->]] [Hlen Hw Hr Ho Ht]]. rewrite Hlen in Hw.
    set (g1 := with_allocations mcfg_reset g.(allocation_count) g.(allocations)).
    rewrite (proj2 (Hspec g1)) by done. cbn.
    destruct (names_copied m g.(mcfg_physical_address)) as [-> ->].
    destruct g; simpl in *. by subst.
Qed.

Lemma fadt_discover_ok m root g0 g :
  acpi_fadt_discover m (Some root) (Some g0) = (ACPI_STATUS_OK, Some g) <->
  (exists n, find_unique_table m root fadt_signature ACPI_STATUS_MISSING_FADT
     ACPI_STATUS_DUPLICATE_FADT = inl (g.(fadt_physical_address), n)) /\ fadt_read m g.
Proof.
  unfold acpi_fadt_discover.
  destruct (find_unique_table _ _ _ _ _) as [[a n]|st] eqn:Ef; cycle 1.
  { split; [|by intros [[? ?] _]]. intros [= -> _].
    apply find_unique_table_refuses in Ef. vm_compute_elem Ef. }
  pose proof (fun f => decode_pm_timer_spec _ (sdt_length (at_address m a)) fadt_reset f
    (at_address_bytes m a)) as Hspec.
  split.
  - destruct (decode_pm_timer _ _ _) as [st g1] eqn:Ed.
    destruct (negb (is_status st ACPI_STATUS_OK)) eqn:Es.
    { intros [= -> _]. done. }
    apply negb_false_iff, bool_decide_eq_true in Es. subst st.
    destruct (proj1 (Hspec g1) eq_refl) as (ext & port & flags & bits & Ht & ->). intros [= <-].
    split; [by exists n|]. split; simpl; try done; apply names_copied.
  - intros [[? [= -> ->]] [Hlen Ht Hr Ho Hot]]. rewrite Hlen in Ht.
    rewrite (proj2 (Hspec _) (ex_intro _ _ (ex_intro _ _ (ex_intro _ _ (ex_intro _ _
      (conj Ht eq_refl)))))). cbn.
    destruct (names_copied m g.(fadt_physical_address)) as [-> ->].
    destruct g; simpl in *. by subst.
Qed.

(** * What the readers read *)

Lemma sdt_length_agree n a b : 8 <= n -> agree_on n a b -> sdt_length a = sdt_length b.
Proof.
  intros Hn H. eapply acpi_read_u32_agree; [|by apply agree_advance]. lia.
Qed.

Lemma decode_pm_timer_local a b len f :
  agree_on len a b -> decode_pm_timer a len f = decode_pm_timer b len f.
Proof.
  intros H. unfold decode_pm_timer, FADT_MINIMUM_SIZE, FADT_OFFSET_PM_TMR_LEN,
    FADT_OFFSET_FLAGS, FADT_OFFSET_PM_TMR_BLK.
  destruct (Z.ltb_spec len 116); [done|]. rewrite (H 91) by lia.
  rewrite (acpi_read_u32_agree (len - 112) (advance a 112) (advance b 112))
    by (lia || by apply agree_advance).
  rewrite (acpi_read_u32_agree (len - 76) (advance a 76) (advance b 76))
    by (lia || by apply agree_advance).
  assert (extended_pm_timer a len = extended_pm_timer b len) as ->; [|done].
  unfold extended_pm_timer.
  change FADT_X_PM_TMR_BLK_END with 220. rewrite Z.geb_leb.
  destruct (Z.leb_spec 220 len); [|done].
  change FADT_OFFSET_X_PM_TMR_BLK with 208.
  change (acpi_read_u64 (advance (advance a 208) ACPI_GAS_OFFSET_ADDRESS))
    with (acpi_read_u64 (advance a 212)).
  change (acpi_read_u64 (advance (advance b 208) ACPI_GAS_OFFSET_ADDRESS))
    with (acpi_read_u64 (advance b 212)).
  rewrite (acpi_read_u64_agree (len - 212) (advance a 212) (advance b 212))
    by (lia || by apply agree_advance).
  unfold advance at 2 3 4 6 7 8.
  unfold ACPI_GAS_OFFSET_SPACE_ID, ACPI_GAS_OFFSET_BIT_WIDTH, ACPI_GAS_OFFSET_BIT_OFFSET.
  by rewrite !H by lia.
Qed.

Lemma decode_ecam_local a b len g :
  is_u32 len -> agree_on len a b ->
  decode_ecam_allocations a len g = decode_ecam_allocations b len g.
Proof.
  intros Hl H. unfold decode_ecam_allocations.
  destruct (Z.ltb_spec len ACPI_MCFG_FIXED_SIZE); [done|].
  unfold ACPI_MCFG_FIXED_SIZE, ACPI_MCFG_ALLOCATION_SIZE in *.
  rewrite u32_small by (unfold is_u32 in *; lia).
  do 3 (split_if; [done|]). set (n := (len - 44) / 16).
  assert (16 * n <= len - 44) by (apply Z.mul_div_le; lia).
  erewrite (for_each_ext (fun _ => True) (decode_ecam_record (advance a 44))
    (decode_ecam_record (advance b 44))); [done| |done|done].
  intros i s Hi _. apply elem_of_seqZ in Hi.
  assert (agree_on 16 (advance (advance a 44) (i * 16)) (advance (advance b 44) (i * 16))) as Hw.
  { intros j Hj. unfold advance. apply H. lia. }
  assert (ecam_record (advance (advance a 44) (i * 16)) =
          ecam_record (advance (advance b 44) (i * 16))) as E.
  { unfold ecam_record. f_equal; [| |by apply Hw|by apply Hw].
    - by eapply (acpi_read_u64_agree 16), (agree_advance 16 0).
    - by eapply (read_u16_agree 8), (agree_advance 16 8). }
  unfold decode_ecam_record. unfold ACPI_MCFG_ALLOCATION_SIZE. by rewrite E.
Qed.

Section early_map.
Context (m1 m2 : memory) (Hag : agree m1 m2 0 SAPOTE_EARLY_PHYSICAL_LIMIT).

Lemma view_agree a n :
  0 <= a -> a + n <= SAPOTE_EARLY_PHYSICAL_LIMIT ->
  agree_on n (at_address m1 a) (at_address m2 a).
Proof. intros Ha Hn i Hi. apply Hag. lia. Qed.

Lemma validate_root_agree root :
  is_u64 root.(root_address) -> validate_root_table m1 root = validate_root_table m2 root.
Proof.
  intros Ha. unfold validate_root_table.
  split_if; [done|]. split_if; [done|]. bool_hyps.
  rewrite early_mapped_spec in Heqb0 by done.
  assert (agree_on 36 (at_address m1 (root_address root)) (at_address m2 (root_address root)))
    as Hh by (apply view_agree; unfold is_u64, ACPI_SDT_HEADER_SIZE in *; lia).
  destruct (root_format _) as [[s es]|]; [|done].
  rewrite (bytes_equal_agree 4 _ _ _ (agree_on_le 36 4 _ _ ltac:(lia) Hh)).
  rewrite (sdt_length_agree 36 _ _ ltac:(lia) Hh).
  pose proof (sdt_length_range m2 (root_address root)) as Hl.
  do 4 (split_if; [done|]). split_if; [done|]. bool_hyps.
  rewrite early_mapped_spec in * by (done || (unfold is_u32 in *; lia)).
  erewrite byte_sum_agree; [done|]. apply view_agree; [apply Ha|lia].
Qed.

Lemma validate_referenced_agree a :
  is_u64 a -> validate_referenced_table m1 a = validate_referenced_table m2 a.
Proof.
  intros Ha. unfold validate_referenced_table.
  split_if; [done|]. split_if; [done|]. bool_hyps.
  rewrite early_mapped_spec in Heqb0 by done.
  rewrite (sdt_length_agree 36 (at_address m1 a) (at_address m2 a))
    by (lia || (apply view_agree; unfold is_u64, ACPI_SDT_HEADER_SIZE in *; lia)).
  pose proof (sdt_length_range m2 a) as Hl.
  do 2 (split_if; [done|]). bool_hyps.
  rewrite early_mapped_spec in * by (done || (unfold is_u32 in *; lia)).
  erewrite byte_sum_agree; [done|]. apply view_agree; [apply Ha|lia].
Qed.

Lemma find_unique_agree root signature missing dup :
  is_u64 root.(root_address) ->
  find_unique_table m1 root signature missing dup =
  find_unique_table m2 root signature missing dup.
Proof.
  intros Ha. unfold find_unique_table. rewrite validate_root_agree by done.
  destruct (validate_root_table m2 root) as [[[h es] n]|st] eqn:Ev; [|done].
  apply validate_root_spec in Ev as [-> Hr]; [|done].
  erewrite (for_each_ext (fun _ => True)); [done| |done|done].
  intros i s Hi _. apply elem_of_seqZ in Hi. unfold visit_root_entry.
  assert (root_entry m1 (root_address root) es i = root_entry m2 (root_address root) es i) as ->.
  { destruct Hr as [Hs (sg & Ef & _) Hlen Hn Hin _]. unfold root_entry.
    pose proof (root_format_size _ _ _ Ef). unfold ACPI_SDT_HEADER_SIZE in *.
    assert (agree_on es (at_address m1 (root_address root + 36 + i * es))
      (at_address m2 (root_address root + 36 + i * es))) as Hv by (apply view_agree; nia).
    split_if; bool_hyps; [apply (acpi_read_u64_agree es)|apply (acpi_read_u32_agree es)]; done || lia. }
  rewrite validate_referenced_agree by apply root_entry_range.
  destruct (validate_referenced_table m2 _) as [t|st] eqn:Ev; [|done].
  apply validate_referenced_spec in Ev as [-> []]; [|apply root_entry_range].
  rewrite (bytes_equal_agree 4 (at_address m1 _) (at_address m2 (root_entry m2 (root_address root) es i)));
    [done|]. apply view_agree; unfold ACPI_SDT_HEADER_SIZE in *; lia.
Qed.

(** The table a walk yields is valid. *)
Lemma find_unique_ok m root signature missing dup a n :
  is_u64 root.(root_address) ->
  find_unique_table m root signature missing dup = inl (a, n) -> table_ok m a.
Proof.
  intros Ha Hf. apply find_unique_table_spec in Hf as (es & _ & Hall & Hf); [|done].
  eapply Forall_forall; [exact Hall|].
  assert (a ∈ filter (fun t => signed m signature t = true) (root_entries m root es n)) as Hin
    by (rewrite Hf; left).
  by apply list_elem_of_filter in Hin as [_ ?].
Qed.

Lemma table_agree a :
  table_ok m2 a ->
  sdt_length (at_address m1 a) = sdt_length (at_address m2 a) /\
  agree_on (sdt_length (at_address m2 a)) (at_address m1 a) (at_address m2 a).
Proof.
  intros []. unfold ACPI_SDT_HEADER_SIZE in *.
  assert (agree_on (sdt_length (at_address m2 a)) (at_address m1 a) (at_address m2 a))
    by (apply view_agree; lia).
  split; [|done]. by apply (sdt_length_agree (sdt_length (at_address m2 a))); [lia|].
Qed.

Lemma names_agree a :
  table_ok m2 a ->
  sdt_revision (at_address m1 a) = sdt_revision (at_address m2 a) /\
  acpi_copy_string (acpi_bytes_zero 7) (sdt_oem_id (at_address m1 a)) 6 =
  acpi_copy_string (acpi_bytes_zero 7) (sdt_oem_id (at_address m2 a)) 6 /\
  acpi_copy_string (acpi_bytes_zero 9) (sdt_oem_table_id (at_address m1 a)) 8 =
  acpi_copy_string (acpi_bytes_zero 9) (sdt_oem_table_id (at_address m2 a)) 8.
Proof.
  intros Hok. destruct (table_agree a Hok) as [_ Hv]. destruct Hok as [_ [Hlen _] _ _].
  unfold ACPI_SDT_HEADER_SIZE in *.
  split_and!; [apply Hv; lia| |]; rewrite !copy_string_spec by done; f_equal;
    apply list_fmap_ext; intros i x Hi;
    apply list_elem_of_lookup_2, elem_of_seqZ in Hi; apply Hv; lia.
Qed.

Lemma madt_discover_agree root g :
  is_u64 root.(root_address) ->
  acpi_madt_discover m1 (Some root) (Some g) = acpi_madt_discover m2 (Some root) (Some g).
Proof.
  intros Ha. unfold acpi_madt_discover. rewrite find_unique_agree by done.
  destruct (find_unique_table m2 _ _ _ _) as [[a n]|st] eqn:Ef; [|done].
  apply find_unique_ok in Ef; [|done].
  destruct (table_agree a Ef) as [-> Hv]. destruct (names_agree a Ef) as (-> & E1 & E2).
  split_if; [done|]. bool_hyps. unfold ACPI_MADT_FIXED_SIZE in *.
  unfold madt_table_flags, madt_table_local_apic_address.
  set (len := sdt_length (at_address m2 a)) in *.
  rewrite (acpi_read_u32_agree (len - 40) (advance (at_address m1 a) 40)
    (advance (at_address m2 a) 40))
    by (lia || by apply agree_advance).
  rewrite (acpi_read_u32_agree (len - 36) (advance (at_address m1 a) 36)
    (advance (at_address m2 a) 36))
    by (lia || by apply agree_advance).
  simpl. by rewrite E1, E2.
Qed.

Lemma fadt_discover_agree root g :
  is_u64 root.(root_address) ->
  acpi_fadt_discover m1 (Some root) (Some g) = acpi_fadt_discover m2 (Some root) (Some g).
Proof.
  intros Ha. unfold acpi_fadt_discover. rewrite find_unique_agree by done.
  destruct (find_unique_table m2 _ _ _ _) as [[a n]|st] eqn:Ef; [|done].
  apply find_unique_ok in Ef; [|done].
  destruct (table_agree a Ef) as [-> Hv]. destruct (names_agree a Ef) as (-> & E1 & E2).
  rewrite (decode_pm_timer_local _ _ _ _ Hv).
  destruct (decode_pm_timer _ _ _) as [st f] eqn:Ed.
  destruct (negb (is_status st ACPI_STATUS_OK)) eqn:Es; [done|].
  apply negb_false_iff, bool_decide_eq_true in Es. subst st.
  apply decode_pm_timer_spec in Ed as (? & ? & ? & ? & _ & ->); [|apply at_address_bytes].
  simpl. by rewrite E1, E2.
Qed.

Lemma mcfg_discover_agree root g :
  is_u64 root.(root_address) ->
  acpi_mcfg_discover m1 (Some root) (Some g) = acpi_mcfg_discover m2 (Some root) (Some g).
Proof.
  intros Ha. unfold acpi_mcfg_discover. rewrite find_unique_agree by done.
  destruct (find_unique_table m2 _ _ _ _) as [[a n]|st] eqn:Ef; [|done].
  apply find_unique_ok in Ef; [|done].
  destruct (table_agree a Ef) as [-> Hv]. destruct (names_agree a Ef) as (-> & E1 & E2).
  rewrite (decode_ecam_local _ _ _ _ (sdt_length_range m2 a) Hv).
  destruct (decode_ecam_allocations _ _ _) as [st f] eqn:Ed.
  destruct (negb (is_status st ACPI_STATUS_OK)) eqn:Es; [done|].
  apply negb_false_iff, bool_decide_eq_true in Es. subst st.
  apply decode_ecam_spec in Ed as [_ ->]; [|apply at_address_bytes|apply sdt_length_range].
  simpl. by rewrite E1, E2.
Qed.
End early_map.

(** * Properties *)

(** C35 (safety): table discovery reads nothing outside the early map.  Two
    memories that agree on the first 4 GiB give the same MADT, FADT and MCFG,
    whatever a root pointer that is any 64-bit address and the firmware's own
    table addresses and lengths say. *)
Theorem acpi_tables_inside_early_map m1 m2 root madt fadt mcfg :
  agree m1 m2 0 SAPOTE_EARLY_PHYSICAL_LIMIT -> is_u64 root.(root_address) ->
  acpi_madt_discover m1 (Some root) (Some madt) =
    acpi_madt_discover m2 (Some root) (Some madt) /\
  acpi_fadt_discover m1 (Some root) (Some fadt) =
    acpi_fadt_discover m2 (Some root) (Some fadt) /\
  acpi_mcfg_discover m1 (Some root) (Some mcfg) =
    acpi_mcfg_discover m2 (Some root) (Some mcfg).
Proof.
  intros Hag Ha.
  split_and!; [by apply madt_discover_agree|by apply fadt_discover_agree|
    by apply mcfg_discover_agree].
Qed.

(** [acpi_fadt_discover] succeeds exactly when the root table
    and every table it declares are valid, exactly one of them is a FADT, and
    that table describes a power management timer whose four bytes are all I/O
    ports; the port is the extended field's when that names System I/O, else the
    fixed field's, and the counter is 32 bits wide exactly when flag bit 8 is set.
    A refusal leaves a reset structure. *)
Theorem acpi_fadt_discover_exact m root g0 :
  is_u64 root.(root_address) ->
  let '(st, g) := acpi_fadt_discover m (Some root) (Some g0) in
  (st <> ACPI_STATUS_OK -> g = Some fadt_reset) /\
  forall fadt, (st = ACPI_STATUS_OK /\ g = Some fadt) <->
    (exists n, declares m root fadt_signature n [fadt.(fadt_physical_address)]) /\
    fadt_read m fadt.
Proof.
  intros Ha. destruct (acpi_fadt_discover m (Some root) (Some g0)) as [st g] eqn:E. split.
  - unfold acpi_fadt_discover in E.
    destruct (find_unique_table _ _ _ _ _) as [[a n]|st'] eqn:Ef; [|congruence].
    destruct (decode_pm_timer _ _ _) as [st1 f1] eqn:Ed.
    split_if_in E; congruence.
  - intros fadt. split.
    + intros [-> ->]. apply fadt_discover_ok in E as [[n Hf] Hr]. split; [|done].
      exists n. by eapply find_unique_table_spec.
    + intros [[n Hd] Hr].
      rewrite (proj2 (fadt_discover_ok m root g0 fadt)) in E; [by injection E|].
      split; [|done]. exists n. by apply find_unique_table_spec.
Qed.

(** C34 (functional): [acpi_mcfg_discover] succeeds exactly when the root table
    and every table it declares are valid, exactly one of them is an MCFG, and
    its one to eight configuration windows are each a nonempty bus range on a
    bus-aligned base inside the 64-bit address space, no two of them sharing a
    bus of a segment group or a byte of memory; absence is reported exactly when
    a valid root declares no MCFG.  A refusal leaves a reset structure. *)
Theorem acpi_mcfg_discover_exact m root g0 :
  is_u64 root.(root_address) ->
  let '(st, g) := acpi_mcfg_discover m (Some root) (Some g0) in
  (st <> ACPI_STATUS_OK -> g = Some mcfg_reset) /\
  (st = ACPI_STATUS_MISSING_MCFG <-> exists n, declares m root mcfg_signature n []) /\
  forall mcfg, (st = ACPI_STATUS_OK /\ g = Some mcfg) <->
    (exists n, declares m root mcfg_signature n [mcfg.(mcfg_physical_address)]) /\
    mcfg_read m mcfg.
Proof.
  intros Ha. destruct (acpi_mcfg_discover m (Some root) (Some g0)) as [st g] eqn:E. split_and!.
  - unfold acpi_mcfg_discover in E.
    destruct (find_unique_table _ _ _ _ _) as [[a n]|st'] eqn:Ef; [|congruence].
    destruct (decode_ecam_allocations _ _ _) as [st1 f1] eqn:Ed.
    split_if_in E; congruence.
  - rewrite <- (find_unique_table_missing m root mcfg_signature ACPI_STATUS_MISSING_MCFG
      ACPI_STATUS_DUPLICATE_MCFG) by (done || (apply (bool_decide_eq_true_1 _); vm_compute; done)).
    unfold acpi_mcfg_discover in E.
    destruct (find_unique_table _ _ _ _ _) as [[a n]|st'] eqn:Ef; [|naive_solver].
    split; [|done]. intros ->.
    destruct (decode_ecam_allocations _ _ _) as [st1 f1] eqn:Ed.
    split_if_in E; [|done]. injection E as -> _. by apply decode_ecam_never_missing in Ed.
  - intros mcfg. split.
    + intros [-> ->]. apply mcfg_discover_ok in E as [[n Hf] Hr]. split; [|done].
      exists n. by eapply find_unique_table_spec.
    + intros [[n Hd] Hr].
      rewrite (proj2 (mcfg_discover_ok m root g0 mcfg)) in E; [by injection E|].
      split; [|done]. exists n. by apply find_unique_table_spec.
Qed.

(** * The kernel's own test *)

(** A machine whose memory holds [d] outside the test's objects, and the stack
    addresses the test is run at. *)
Definition fixture_address : Z := 0x200000.
Definition fixture_memory (d : Z) : memory :=
  with_object (fun _ => d) fixture_address (prepare_test_fixture fixture_address).

Lemma acpi_tables_self_test_passes :
  acpi_tables_self_test (fun _ => 0) fixture_address 0x201000 0x202000 = true.
Proof. vm_compute. reflexivity. Qed.

(** The fixture's XSDT, and the timer and the windows read through it. *)
Definition fixture_root : acpi_root := test_root fixture_address ACPI_ROOT_XSDT.

Lemma acpi_tables_inside_early_map_witness :
  acpi_mcfg_discover (fixture_memory 0) (Some fixture_root) (Some mcfg_reset) =
  acpi_mcfg_discover
    (fun a => if a <? SAPOTE_EARLY_PHYSICAL_LIMIT then fixture_memory 0 a else 255)
    (Some fixture_root) (Some mcfg_reset) /\
  (acpi_mcfg_discover (fixture_memory 0) (Some fixture_root) (Some mcfg_reset)).1 =
    ACPI_STATUS_OK.
Proof.
  split; [|vm_compute; reflexivity].
  apply (acpi_tables_inside_early_map _ _ fixture_root madt_reset fadt_reset mcfg_reset).
  - intros a Ha. unfold byte_at. by rewrite (proj2 (Z.ltb_lt _ _)) by lia.
  - vm_compute. by split.
Defined.

Lemma acpi_fadt_discover_exact_witness :
  exists fadt, fadt_read (fixture_memory 0) fadt /\
    fadt.(pm_timer_port) = 0x1008 /\ fadt.(pm_timer_counter_bits) = 24.
Proof.
  pose proof (acpi_fadt_discover_exact (fixture_memory 0) fixture_root fadt_reset
    ltac:(vm_compute; by split)) as H.
  assert (is_status (acpi_fadt_discover (fixture_memory 0) (Some fixture_root)
    (Some fadt_reset)).1 ACPI_STATUS_OK = true) as Hok by (vm_compute; reflexivity).
  assert ((fun f => (f.(pm_timer_port), f.(pm_timer_counter_bits))) <$>
    (acpi_fadt_discover (fixture_memory 0) (Some fixture_root) (Some fadt_reset)).2 =
    Some (0x1008, 24)) as Hv by (vm_compute; reflexivity).
  destruct (acpi_fadt_discover _ _ _) as [st [f|]]; [|done]. simpl in *.
  apply bool_decide_eq_true in Hok. destruct H as [_ H].
  exists f. injection Hv as -> ->. split; [|done]. by apply H.
Defined.

Lemma acpi_mcfg_discover_exact_witness :
  exists mcfg, mcfg_read (fixture_memory 0) mcfg /\ mcfg.(allocation_count) = 2.
Proof.
  pose proof (acpi_mcfg_discover_exact (fixture_memory 0) fixture_root mcfg_reset
    ltac:(vm_compute; by split)) as H.
  assert (is_status (acpi_mcfg_discover (fixture_memory 0) (Some fixture_root)
    (Some mcfg_reset)).1 ACPI_STATUS_OK = true) as Hok by (vm_compute; reflexivity).
  assert (allocation_count <$>
    (acpi_mcfg_discover (fixture_memory 0) (Some fixture_root) (Some mcfg_reset)).2 =
    Some 2) as Hv by (vm_compute; reflexivity).
  destruct (acpi_mcfg_discover _ _ _) as [st [f|]]; [|done]. simpl in *.
  apply bool_decide_eq_true in Hok. destruct H as (_ & _ & H).
  exists f. injection Hv as ->. split; [|done]. by apply H.
Defined.

End AcpiTables.
