(* ===== verification/AcpiMadt.v ===== *)
(** Interrupt topology from the MADT: src/src/kernel/acpi_madt.c.

    [acpi_topology_discover] walks the interrupt controller structures of a MADT
    and records processors, I/O APICs and interrupt overrides in fixed arrays.
    The walk has fuel [length / 2 + 1]: every structure it accepts is at least two
    bytes long, and it is proved never to run out.  The specification is the list
    of structures the table is made of ([madt_entries]) and the topology that
    list describes ([topology_of]); discovery is proved to implement exactly
    that, and to leave a zeroed topology behind every refusal. *)
From S2P Require Import Prelude Multiboot2 Acpi AcpiTables.

Module AcpiMadt.
Import Multiboot2 Acpi AcpiTables.

Open Scope Z_scope.

Definition ACPI_MAX_LOCAL_APICS : Z := 64.
Definition ACPI_MAX_IO_APICS : Z := 8.
Definition ACPI_MAX_INTERRUPT_OVERRIDES : Z := 16.
Definition MADT_TYPE_LOCAL_APIC : Z := 0.
Definition MADT_TYPE_IO_APIC : Z := 1.
Definition MADT_TYPE_INTERRUPT_OVERRIDE : Z := 2.
Definition MADT_TYPE_NMI_SOURCE : Z := 3.
Definition MADT_TYPE_LOCAL_APIC_NMI : Z := 4.
Definition MADT_TYPE_LOCAL_APIC_OVERRIDE : Z := 5.
Definition MADT_TYPE_LOCAL_X2APIC : Z := 9.
Definition MADT_ENTRY_HEADER_SIZE : Z := 2.
Definition MADT_LOCAL_APIC_SIZE : Z := 8.
Definition MADT_IO_APIC_SIZE : Z := 12.
Definition MADT_INTERRUPT_OVERRIDE_SIZE : Z := 10.
Definition MADT_NMI_SOURCE_SIZE : Z := 8.
Definition MADT_LOCAL_APIC_NMI_SIZE : Z := 6.
Definition MADT_LOCAL_APIC_OVERRIDE_SIZE : Z := 12.
Definition MADT_LOCAL_X2APIC_SIZE : Z := 16.
Definition MADT_PROCESSOR_ENABLED : Z := 1.
Definition MADT_PROCESSOR_ONLINE_CAPABLE : Z := 2.
Definition MADT_PROCESSOR_VALID_FLAGS : Z :=
  Z.lor MADT_PROCESSOR_ENABLED MADT_PROCESSOR_ONLINE_CAPABLE.
Definition MADT_INTI_VALID_FLAGS : Z := 0x000F.
Definition MADT_BUS_ISA : Z := 0.
Definition MADT_ISA_IRQ_COUNT : Z := 16.
Definition LOCAL_APIC_WINDOW_SIZE : Z := 0x1000.
Definition IO_APIC_WINDOW_SIZE : Z := 0x20.

Record acpi_local_apic : Type := MkLocalApic {
  processor_uid : Z;
  apic_id : Z;
  enabled : bool;
  online_capable : bool
}.

Record acpi_io_apic : Type := MkIoApic {
  identifier : Z;
  io_address : Z;
  interrupt_base : Z
}.

Record acpi_interrupt_override : Type := MkOverride {
  global_system_interrupt : Z;
  override_flags : Z;
  bus : Z;
  source : Z
}.

Record acpi_topology : Type := MkTopology {
  local_apic_address : Z;
  local_apic_address_overridden : bool;
  legacy_pic_present : bool;
  local_apic_count : Z;
  enabled_processor_count : Z;
  io_apic_count : Z;
  interrupt_override_count : Z;
  nmi_entry_count : Z;
  ignored_entry_count : Z;
  local_apics : list acpi_local_apic;
  io_apics : list acpi_io_apic;
  interrupt_overrides : list acpi_interrupt_override
}.

Definition local_apic_zero : acpi_local_apic := MkLocalApic 0 0 false false.
Definition io_apic_zero : acpi_io_apic := MkIoApic 0 0 0.
Definition override_zero : acpi_interrupt_override := MkOverride 0 0 0 0.

(** [acpi_bytes_zero(topology, sizeof( *topology))]. *)
Definition topology_zero : acpi_topology :=
  MkTopology 0 false false 0 0 0 0 0 0
    (replicate (Z.to_nat ACPI_MAX_LOCAL_APICS) local_apic_zero)
    (replicate (Z.to_nat ACPI_MAX_IO_APICS) io_apic_zero)
    (replicate (Z.to_nat ACPI_MAX_INTERRUPT_OVERRIDES) override_zero).

Definition revalidate_madt (m : memory) (madt : acpi_madt) : bytes + acpi_status :=
  let table := at_address m madt.(madt_physical_address) in
  if madt.(madt_physical_address) =? 0 then inr ACPI_STATUS_NULL_TABLE
  else if (madt.(madt_length) <? ACPI_MADT_FIXED_SIZE) ||
          (madt.(madt_length) >? ACPI_MAX_TABLE_SIZE) then
    inr ACPI_STATUS_BAD_MADT_LENGTH
  else if negb (acpi_span_is_early_mapped madt.(madt_physical_address)
                  madt.(madt_length)) then
    inr ACPI_STATUS_TABLE_OUTSIDE_EARLY_MAP
  else if negb (acpi_byte_sum table madt.(madt_length) =? 0) then
    inr ACPI_STATUS_BAD_TABLE_CHECKSUM
  else inl table.

(** The linear scans of the recorded arrays for a repeated key. *)
Definition already_recorded {A} (d : A) (key : A -> Z) (l : list A) (count k : Z) : bool :=
  match
    for_each (fun index (_ : unit) =>
        if key (aget d l index) =? k then Return tt else Next tt) (seqZ 0 count) tt
  with
  | Return _ => true
  | Next _ => false
  end.

Definition record_local_apic (t : acpi_topology) (uid id flags : Z)
  : acpi_status * acpi_topology :=
  if negb (Z.land flags (u32 (Z.lnot MADT_PROCESSOR_VALID_FLAGS)) =? 0) then
    (ACPI_STATUS_BAD_PROCESSOR_FLAGS, t)
  else if already_recorded local_apic_zero processor_uid t.(local_apics)
            t.(local_apic_count) uid then
    (ACPI_STATUS_DUPLICATE_PROCESSOR_UID, t)
  else if t.(local_apic_count) =? ACPI_MAX_LOCAL_APICS then
    (ACPI_STATUS_TOO_MANY_LOCAL_APICS, t)
  else
    let entry :=
      MkLocalApic uid id (negb (Z.land flags MADT_PROCESSOR_ENABLED =? 0))
        (negb (Z.land flags MADT_PROCESSOR_ONLINE_CAPABLE =? 0)) in
    (ACPI_STATUS_OK,
     MkTopology t.(local_apic_address) t.(local_apic_address_overridden)
       t.(legacy_pic_present) (t.(local_apic_count) + 1)
       (if entry.(enabled) then t.(enabled_processor_count) + 1
        else t.(enabled_processor_count))
       t.(io_apic_count) t.(interrupt_override_count) t.(nmi_entry_count)
       t.(ignored_entry_count) (aset t.(local_apics) t.(local_apic_count) entry)
       t.(io_apics) t.(interrupt_overrides)).

Definition record_io_apic (t : acpi_topology) (id address base : Z)
  : acpi_status * acpi_topology :=
  if (address =? 0) || negb (acpi_span_is_early_mapped address IO_APIC_WINDOW_SIZE) then
    (ACPI_STATUS_APIC_OUTSIDE_EARLY_MAP, t)
  else if already_recorded io_apic_zero identifier t.(io_apics) t.(io_apic_count) id then
    (ACPI_STATUS_DUPLICATE_IO_APIC_ID, t)
  else if t.(io_apic_count) =? ACPI_MAX_IO_APICS then
    (ACPI_STATUS_TOO_MANY_IO_APICS, t)
  else
    (ACPI_STATUS_OK,
     MkTopology t.(local_apic_address) t.(local_apic_address_overridden)
       t.(legacy_pic_present) t.(local_apic_count) t.(enabled_processor_count)
       (t.(io_apic_count) + 1) t.(interrupt_override_count) t.(nmi_entry_count)
       t.(ignored_entry_count) t.(local_apics)
       (aset t.(io_apics) t.(io_apic_count) (MkIoApic id address base))
       t.(interrupt_overrides)).

Definition record_interrupt_override (t : acpi_topology) (b src gsi flags : Z)
  : acpi_status * acpi_topology :=
  if negb (b =? MADT_BUS_ISA) then (ACPI_STATUS_BAD_OVERRIDE_BUS, t)
  else if src >=? MADT_ISA_IRQ_COUNT then (ACPI_STATUS_BAD_OVERRIDE_SOURCE, t)
  else if negb (Z.land flags (u16 (Z.lnot MADT_INTI_VALID_FLAGS)) =? 0) then
    (ACPI_STATUS_BAD_OVERRIDE_FLAGS, t)
  else if already_recorded override_zero source t.(interrupt_overrides)
            t.(interrupt_override_count) src then
    (ACPI_STATUS_DUPLICATE_OVERRIDE_SOURCE, t)
  else
    (ACPI_STATUS_OK,
     MkTopology t.(local_apic_address) t.(local_apic_address_overridden)
       t.(legacy_pic_present) t.(local_apic_count) t.(enabled_processor_count)
       t.(io_apic_count) (t.(interrupt_override_count) + 1) t.(nmi_entry_count)
       t.(ignored_entry_count) t.(local_apics) t.(io_apics)
       (aset t.(interrupt_overrides) t.(interrupt_override_count)
          (MkOverride gsi flags b src))).

Definition record_local_apic_override (t : acpi_topology) (address : Z)
  : acpi_status * acpi_topology :=
  if t.(local_apic_address_overridden) then
    (ACPI_STATUS_DUPLICATE_APIC_ADDRESS_OVERRIDE, t)
  else if (address =? 0) ||
          negb (acpi_span_is_early_mapped address LOCAL_APIC_WINDOW_SIZE) then
    (ACPI_STATUS_APIC_OUTSIDE_EARLY_MAP, t)
  else
    (ACPI_STATUS_OK,
     MkTopology address true t.(legacy_pic_present) t.(local_apic_count)
       t.(enabled_processor_count) t.(io_apic_count) t.(interrupt_override_count)
       t.(nmi_entry_count) t.(ignored_entry_count) t.(local_apics) t.(io_apics)
       t.(interrupt_overrides)).

(** The counters of structures that are not recorded. *)
Definition count_ignored (t : acpi_topology) : acpi_topology :=
  MkTopology t.(local_apic_address) t.(local_apic_address_overridden)
    t.(legacy_pic_present) t.(local_apic_count) t.(enabled_processor_count)
    t.(io_apic_count) t.(interrupt_override_count) t.(nmi_entry_count)
    (t.(ignored_entry_count) + 1) t.(local_apics) t.(io_apics) t.(interrupt_overrides).
Definition count_nmi (t : acpi_topology) : acpi_topology :=
  MkTopology t.(local_apic_address) t.(local_apic_address_overridden)
    t.(legacy_pic_present) t.(local_apic_count) t.(enabled_processor_count)
    t.(io_apic_count) t.(interrupt_override_count) (t.(nmi_entry_count) + 1)
    t.(ignored_entry_count) t.(local_apics) t.(io_apics) t.(interrupt_overrides).

(** The first switch of consume_entry. *)
Definition expected_length (type : Z) : option Z :=
  if type =? MADT_TYPE_LOCAL_APIC then Some MADT_LOCAL_APIC_SIZE
  else if type =? MADT_TYPE_IO_APIC then Some MADT_IO_APIC_SIZE
  else if type =? MADT_TYPE_INTERRUPT_OVERRIDE then Some MADT_INTERRUPT_OVERRIDE_SIZE
  else if type =? MADT_TYPE_NMI_SOURCE then Some MADT_NMI_SOURCE_SIZE
  else if type =? MADT_TYPE_LOCAL_APIC_NMI then Some MADT_LOCAL_APIC_NMI_SIZE
  else if type =? MADT_TYPE_LOCAL_APIC_OVERRIDE then Some MADT_LOCAL_APIC_OVERRIDE_SIZE
  else if type =? MADT_TYPE_LOCAL_X2APIC then Some MADT_LOCAL_X2APIC_SIZE
  else None.

Definition consume_entry (t : acpi_topology) (entry : bytes) (length : Z)
  : acpi_status * acpi_topology :=
  let type := entry 0 in
  match expected_length type with
  | None => (ACPI_STATUS_OK, count_ignored t)
  | Some expected =>
      if negb (length =? expected) then (ACPI_STATUS_BAD_MADT_ENTRY_LENGTH, t)
      else if type =? MADT_TYPE_LOCAL_APIC then
        record_local_apic t (entry 2) (entry 3) (acpi_read_u32 (advance entry 4))
      else if type =? MADT_TYPE_IO_APIC then
        record_io_apic t (entry 2) (acpi_read_u32 (advance entry 4))
          (acpi_read_u32 (advance entry 8))
      else if type =? MADT_TYPE_INTERRUPT_OVERRIDE then
        record_interrupt_override t (entry 2) (entry 3)
          (acpi_read_u32 (advance entry 4)) (acpi_read_u16 (advance entry 8))
      else if type =? MADT_TYPE_LOCAL_APIC_OVERRIDE then
        record_local_apic_override t (acpi_read_u64 (advance entry 4))
      else if type =? MADT_TYPE_LOCAL_X2APIC then
        record_local_apic t (acpi_read_u32 (advance entry 12))
          (acpi_read_u32 (advance entry 4)) (acpi_read_u32 (advance entry 8))
      else (ACPI_STATUS_OK, count_nmi t)
  end.

(** The loop of acpi_topology_discover: [inr] of the refusal, [inl] of the
    topology at the end of the table.  [None]: the fuel ran out. *)
Fixpoint entry_loop (fuel : nat) (table : bytes) (madt_length offset : Z)
    (t : acpi_topology) : option (acpi_topology + acpi_status) :=
  match fuel with
  | O => None
  | S fuel =>
      if offset <? madt_length then
        let entry := advance table offset in
        let remaining := u64 (madt_length - offset) in
        if remaining <? MADT_ENTRY_HEADER_SIZE then
          Some (inr ACPI_STATUS_TRUNCATED_MADT_ENTRY)
        else
        let length := entry 1 in
        if length <? MADT_ENTRY_HEADER_SIZE then
          Some (inr ACPI_STATUS_BAD_MADT_ENTRY_LENGTH)
        else if length >? remaining then
          Some (inr ACPI_STATUS_TRUNCATED_MADT_ENTRY)
        else
        let '(status, t) := consume_entry t entry length in
        if negb (is_status status ACPI_STATUS_OK) then Some (inr status)
        else entry_loop fuel table madt_length (u64 (offset + length)) t
      else Some (inl t)
  end.

Definition entry_fuel (madt_length : Z) : nat := S (Z.to_nat (madt_length / 2)).

Definition acpi_topology_discover (m : memory) (madt : option acpi_madt)
    (topology : option acpi_topology) : option (acpi_status * option acpi_topology) :=
  match madt, topology with
  | Some madt, Some _ =>
      let refuse st := Some (st, Some topology_zero) in
      match revalidate_madt m madt with
      | inr st => refuse st
      | inl table =>
          let t :=
            MkTopology madt.(madt_local_apic_address) false
              (negb (Z.land madt.(madt_flags) ACPI_MADT_PCAT_COMPAT =? 0)) 0 0 0 0 0 0
              topology_zero.(local_apics) topology_zero.(io_apics)
              topology_zero.(interrupt_overrides) in
          match entry_loop (entry_fuel madt.(madt_length)) table madt.(madt_length)
                  ACPI_MADT_FIXED_SIZE t with
          | None => None
          | Some (inr st) => refuse st
          | Some (inl t) =>
              if t.(enabled_processor_count) =? 0 then
                refuse ACPI_STATUS_MISSING_BOOT_PROCESSOR
              else if t.(io_apic_count) =? 0 then refuse ACPI_STATUS_MISSING_IO_APIC
              else Some (ACPI_STATUS_OK, Some t)
          end
      end
  | _, _ => Some (ACPI_STATUS_NULL_ARGUMENT, topology)
  end.

(** * The self test

    struct topology_fixture is a byte array on the stack and the length built so
    far.  An entry pointer into it is an offset; [None] is NULL. *)
Definition TEST_MADT_CAPACITY : Z := 640.
Definition TEST_LOCAL_APIC_ADDRESS : Z := 0xFEE00000.
Definition TEST_IO_APIC_ADDRESS : Z := 0xFEC00000.
Definition TEST_MADT_FLAGS : Z := 1.

Record topology_fixture : Type := MkFixture { fx_bytes : list Z; fx_length : Z }.

Definition fixture_begin : topology_fixture :=
  let l := acpi_bytes_zero TEST_MADT_CAPACITY in
  let l := store_list l 0 madt_signature in
  let l := aset l 8 5 in
  let l := store32 l 36 TEST_LOCAL_APIC_ADDRESS in
  let l := store32 l 40 TEST_MADT_FLAGS in
  MkFixture l ACPI_MADT_FIXED_SIZE.

(** [fill] is what the caller then stores through the entry pointer. *)
Definition fixture_append (type length : Z) (fill : list Z -> Z -> list Z)
    (f : topology_fixture) : option topology_fixture :=
  if (length <? MADT_ENTRY_HEADER_SIZE) || (f.(fx_length) + length >? TEST_MADT_CAPACITY)
  then None
  else
    let entry := f.(fx_length) in
    let l := aset f.(fx_bytes) entry type in
    let l := aset l (entry + 1) length in
    Some (MkFixture (fill l entry) (f.(fx_length) + length)).

Definition fixture_seal (f : topology_fixture) : topology_fixture :=
  let l := store32 f.(fx_bytes) 4 (u32 f.(fx_length)) in
  let l := aset l 9 0 in
  let l := aset l 9 (u8 (0 - acpi_byte_sum (of_list l) f.(fx_length))) in
  MkFixture l f.(fx_length).

(** The offset of the entry [wanted] positions on; the fuel is the capacity. *)
Fixpoint fixture_entry (fuel : nat) (f : topology_fixture) (wanted offset : Z) : option Z :=
  match fuel with
  | O => None
  | S fuel =>
      if offset <? f.(fx_length) then
        let length := aget 0 f.(fx_bytes) (offset + 1) in
        if length <? MADT_ENTRY_HEADER_SIZE then None
        else if wanted =? 0 then Some offset
        else fixture_entry fuel f (wanted - 1) (offset + length)
      else None
  end.

Definition fixture_madt (address : Z) (f : topology_fixture) : acpi_madt :=
  MkMadt address (u32 f.(fx_length)) TEST_LOCAL_APIC_ADDRESS TEST_MADT_FLAGS 0 5
    (acpi_bytes_zero 7) (acpi_bytes_zero 9).

Definition append_local_apic (uid id flags : Z) : topology_fixture -> option topology_fixture :=
  fixture_append MADT_TYPE_LOCAL_APIC MADT_LOCAL_APIC_SIZE (fun l entry =>
    store32 (aset (aset l (entry + 2) uid) (entry + 3) id) (entry + 4) flags).

Definition append_io_apic (id address base : Z) : topology_fixture -> option topology_fixture :=
  fixture_append MADT_TYPE_IO_APIC MADT_IO_APIC_SIZE (fun l entry =>
    store32 (store32 (aset l (entry + 2) id) (entry + 4) address) (entry + 8) base).

Definition append_override (src gsi : Z) : topology_fixture -> option topology_fixture :=
  fixture_append MADT_TYPE_INTERRUPT_OVERRIDE MADT_INTERRUPT_OVERRIDE_SIZE (fun l entry =>
    store16 (store32 (aset (aset l (entry + 2) MADT_BUS_ISA) (entry + 3) src)
      (entry + 4) gsi) (entry + 8) 0).

Definition append_apic_address (address : Z) : topology_fixture -> option topology_fixture :=
  fixture_append MADT_TYPE_LOCAL_APIC_OVERRIDE MADT_LOCAL_APIC_OVERRIDE_SIZE (fun l entry =>
    store64 l (entry + 4) address).

(** A fixture built by appending in order, sealed. *)
Definition build (appends : list (topology_fixture -> option topology_fixture))
  : option topology_fixture :=
  fixture_seal <$> foldl (fun f append => f ≫= append) (Some fixture_begin) appends.

Definition build_reference_fixture : option topology_fixture :=
  build [append_local_apic 0 0 MADT_PROCESSOR_ENABLED;
         append_local_apic 1 1 MADT_PROCESSOR_ONLINE_CAPABLE;
         append_io_apic 0 TEST_IO_APIC_ADDRESS 0;
         append_override 0 2;
         fixture_append MADT_TYPE_LOCAL_APIC_NMI MADT_LOCAL_APIC_NMI_SIZE (fun l entry =>
           aset (store16 (aset l (entry + 2) 0xFF) (entry + 3) 5) (entry + 5) 1);
         fixture_append 0x7F 4 (fun l _ => l)].

Section self_test.
Context (m : memory) (address : Z).

(** Discovery over a fixture at [address]. *)
Definition test_topology (f : topology_fixture) : acpi_status * acpi_topology :=
  match acpi_topology_discover (with_object m address f.(fx_bytes))
          (Some (fixture_madt address f)) (Some topology_zero) with
  | Some (st, Some t) => (st, t)
  | _ => (ACPI_STATUS_NULL_ARGUMENT, topology_zero)
  end.

Definition fixture_gives (f : option topology_fixture) (p : acpi_status -> acpi_topology -> bool)
  : bool :=
  match f with
  | None => false
  | Some f => let '(st, t) := test_topology f in p st t
  end.

Definition fixture_is_rejected (f : option topology_fixture) (expected : acpi_status) : bool :=
  fixture_gives f (fun st _ => is_status st expected).

Definition reference_fixture_is_accepted : bool :=
  fixture_gives build_reference_fixture (fun st t =>
    let first := aget local_apic_zero t.(local_apics) 0 in
    let second := aget local_apic_zero t.(local_apics) 1 in
    let io := aget io_apic_zero t.(io_apics) 0 in
    let over := aget override_zero t.(interrupt_overrides) 0 in
    is_status st ACPI_STATUS_OK &&
    (t.(local_apic_address) =? TEST_LOCAL_APIC_ADDRESS) &&
    negb t.(local_apic_address_overridden) && t.(legacy_pic_present) &&
    (t.(local_apic_count) =? 2) && (t.(enabled_processor_count) =? 1) &&
    (first.(processor_uid) =? 0) && first.(enabled) && negb first.(online_capable) &&
    (second.(processor_uid) =? 1) && negb second.(enabled) && second.(online_capable) &&
    (t.(io_apic_count) =? 1) && (io.(io_address) =? TEST_IO_APIC_ADDRESS) &&
    (io.(interrupt_base) =? 0) && (t.(interrupt_override_count) =? 1) &&
    (over.(bus) =? MADT_BUS_ISA) && (over.(source) =? 0) &&
    (over.(global_system_interrupt) =? 2) && (t.(nmi_entry_count) =? 1) &&
    (t.(ignored_entry_count) =? 1)).

Definition x2apic_entry_is_accepted : bool :=
  fixture_gives
    (build [fixture_append MADT_TYPE_LOCAL_X2APIC MADT_LOCAL_X2APIC_SIZE (fun l entry =>
              store32 (store32 (store32 l (entry + 4) 0x01000000) (entry + 8)
                MADT_PROCESSOR_ENABLED) (entry + 12) 0x0000ABCD);
            append_io_apic 0 TEST_IO_APIC_ADDRESS 0])
    (fun st t =>
      let first := aget local_apic_zero t.(local_apics) 0 in
      is_status st ACPI_STATUS_OK && (t.(local_apic_count) =? 1) &&
      (t.(enabled_processor_count) =? 1) && (first.(processor_uid) =? 0x0000ABCD) &&
      (first.(apic_id) =? 0x01000000)).

Definition mutation_is_rejected (entry_index byte_offset value : Z)
    (expected : acpi_status) : bool :=
  match build_reference_fixture with
  | None => false
  | Some f =>
      match fixture_entry (Z.to_nat TEST_MADT_CAPACITY) f entry_index
              ACPI_MADT_FIXED_SIZE with
      | None => false
      | Some entry =>
          fixture_is_rejected
            (Some (fixture_seal
               (MkFixture (aset f.(fx_bytes) (entry + byte_offset) value) f.(fx_length))))
            expected
      end
  end.

Definition truncation_is_rejected : bool :=
  match
    foldl (fun f append => f ≫= append) (Some fixture_begin)
      [append_local_apic 0 0 MADT_PROCESSOR_ENABLED;
       append_io_apic 0 TEST_IO_APIC_ADDRESS 0]
  with
  | None => false
  | Some f =>
      fixture_is_rejected
        (Some (fixture_seal (MkFixture f.(fx_bytes) (f.(fx_length) + 1))))
        ACPI_STATUS_TRUNCATED_MADT_ENTRY
  end &&
  mutation_is_rejected 0 1 0xFF ACPI_STATUS_TRUNCATED_MADT_ENTRY.

Definition wrong_entry_length_is_rejected : bool :=
  fixture_is_rejected
    (build [fixture_append MADT_TYPE_LOCAL_APIC (MADT_LOCAL_APIC_SIZE + 2) (fun l _ => l)])
    ACPI_STATUS_BAD_MADT_ENTRY_LENGTH.

Definition duplicate_structures_are_rejected : bool :=
  let boot := append_local_apic 0 0 MADT_PROCESSOR_ENABLED in
  fixture_is_rejected
    (build [boot; append_io_apic 3 TEST_IO_APIC_ADDRESS 0;
            append_io_apic 3 TEST_IO_APIC_ADDRESS 24])
    ACPI_STATUS_DUPLICATE_IO_APIC_ID &&
  fixture_is_rejected
    (build [boot; append_io_apic 0 TEST_IO_APIC_ADDRESS 0; append_override 9 9;
            append_override 9 11])
    ACPI_STATUS_DUPLICATE_OVERRIDE_SOURCE &&
  fixture_is_rejected
    (build [boot; append_io_apic 0 TEST_IO_APIC_ADDRESS 0;
            append_apic_address TEST_LOCAL_APIC_ADDRESS;
            append_apic_address TEST_LOCAL_APIC_ADDRESS])
    ACPI_STATUS_DUPLICATE_APIC_ADDRESS_OVERRIDE.

Definition apic_addresses_are_bounded : bool :=
  let boot := append_local_apic 0 0 MADT_PROCESSOR_ENABLED in
  let io := append_io_apic 0 TEST_IO_APIC_ADDRESS 0 in
  fixture_is_rejected (build [boot; append_io_apic 0 0 0])
    ACPI_STATUS_APIC_OUTSIDE_EARLY_MAP &&
  fixture_is_rejected (build [boot; append_io_apic 0 0xFFFFFFF0 0])
    ACPI_STATUS_APIC_OUTSIDE_EARLY_MAP &&
  fixture_is_rejected (build [boot; io; append_apic_address SAPOTE_EARLY_PHYSICAL_LIMIT])
    ACPI_STATUS_APIC_OUTSIDE_EARLY_MAP &&
  fixture_gives (build [boot; io; append_apic_address 0xFEE10000]) (fun st t =>
    is_status st ACPI_STATUS_OK && (t.(local_apic_address) =? 0xFEE10000) &&
    t.(local_apic_address_overridden)).

Definition policy_bounds_are_enforced : bool :=
  fixture_is_rejected
    (build (append_io_apic 0 TEST_IO_APIC_ADDRESS 0 ::
       ((fun index => append_local_apic (u8 index) (u8 index) MADT_PROCESSOR_ENABLED) <$>
          seqZ 0 (ACPI_MAX_LOCAL_APICS + 1))))
    ACPI_STATUS_TOO_MANY_LOCAL_APICS &&
  fixture_is_rejected
    (build (append_local_apic 0 0 MADT_PROCESSOR_ENABLED ::
       ((fun index => append_io_apic (u8 index) TEST_IO_APIC_ADDRESS (u32 (index * 24))) <$>
          seqZ 0 (ACPI_MAX_IO_APICS + 1))))
    ACPI_STATUS_TOO_MANY_IO_APICS.

Definition required_controllers_are_enforced : bool :=
  fixture_is_rejected
    (build [append_local_apic 0 0 MADT_PROCESSOR_ONLINE_CAPABLE;
            append_io_apic 0 TEST_IO_APIC_ADDRESS 0])
    ACPI_STATUS_MISSING_BOOT_PROCESSOR &&
  fixture_is_rejected (build [append_local_apic 0 0 MADT_PROCESSOR_ENABLED])
    ACPI_STATUS_MISSING_IO_APIC.

(** Discovery from a MADT record edited after the fixture was built. *)
Definition edited_madt_is_rejected (f : topology_fixture) (madt : acpi_madt)
    (expected : acpi_status) : bool :=
  match acpi_topology_discover (with_object m address f.(fx_bytes)) (Some madt)
          (Some topology_zero) with
  | Some (st, _) => is_status st expected
  | None => false
  end.

Definition with_place (g : acpi_madt) (physical_address length : Z) : acpi_madt :=
  MkMadt physical_address length g.(madt_local_apic_address) g.(madt_flags)
    g.(madt_root_entry_count) g.(madt_revision) g.(madt_oem_id) g.(madt_oem_table_id).

Definition recorded_table_is_revalidated : bool :=
  match build_reference_fixture with
  | None => false
  | Some f =>
      let madt := fixture_madt address f in
      edited_madt_is_rejected f (with_place madt 0 madt.(madt_length))
        ACPI_STATUS_NULL_TABLE &&
      edited_madt_is_rejected f (with_place madt address (ACPI_MADT_FIXED_SIZE - 1))
        ACPI_STATUS_BAD_MADT_LENGTH &&
      edited_madt_is_rejected f
        (with_place madt (SAPOTE_EARLY_PHYSICAL_LIMIT - madt.(madt_length) + 1)
           madt.(madt_length)) ACPI_STATUS_TABLE_OUTSIDE_EARLY_MAP &&
      fixture_is_rejected
        (Some (MkFixture (aset f.(fx_bytes) 9 (Z.lxor (aget 0 f.(fx_bytes) 9) 1))
                 f.(fx_length))) ACPI_STATUS_BAD_TABLE_CHECKSUM
  end.

Definition acpi_topology_self_test : bool :=
  match acpi_topology_discover m None (Some topology_zero) with
  | Some (st, _) => is_status st ACPI_STATUS_NULL_ARGUMENT
  | None => false
  end &&
  reference_fixture_is_accepted && x2apic_entry_is_accepted && truncation_is_rejected &&
  wrong_entry_length_is_rejected &&
  mutation_is_rejected 0 1 1 ACPI_STATUS_BAD_MADT_ENTRY_LENGTH &&
  mutation_is_rejected 0 4 4 ACPI_STATUS_BAD_PROCESSOR_FLAGS &&
  mutation_is_rejected 1 2 0 ACPI_STATUS_DUPLICATE_PROCESSOR_UID &&
  mutation_is_rejected 3 2 1 ACPI_STATUS_BAD_OVERRIDE_BUS &&
  mutation_is_rejected 3 3 16 ACPI_STATUS_BAD_OVERRIDE_SOURCE &&
  mutation_is_rejected 3 9 1 ACPI_STATUS_BAD_OVERRIDE_FLAGS &&
  duplicate_structures_are_rejected && apic_addresses_are_bounded &&
  policy_bounds_are_enforced && required_controllers_are_enforced &&
  recorded_table_is_revalidated.
End self_test.

#[global] Arguments already_recorded : simpl never.
#[global] Arguments expected_length : simpl never.
#[global] Arguments consume_entry : simpl never.

(** * The specification: structures and the topology they describe *)

Inductive madt_entry : Type :=
| Processor (uid id flags : Z)
| IoApic (id address base : Z)
| Override (b src gsi flags : Z)
| ApicAddress (address : Z)
| Nmi
| Unknown.

(** A structure of a known type has the length its type fixes; any other type is
    passed over at whatever length it declares. *)
Definition decode_entry (e : bytes) (len : Z) : option madt_entry :=
  let fixed (n : Z) (x : madt_entry) := if len =? n then Some x else None in
  if e 0 =? 0 then fixed 8 (Processor (e 2) (e 3) (acpi_read_u32 (advance e 4)))
  else if e 0 =? 1 then
    fixed 12 (IoApic (e 2) (acpi_read_u32 (advance e 4)) (acpi_read_u32 (advance e 8)))
  else if e 0 =? 2 then
    fixed 10 (Override (e 2) (e 3) (acpi_read_u32 (advance e 4))
                (acpi_read_u16 (advance e 8)))
  else if e 0 =? 3 then fixed 8 Nmi
  else if e 0 =? 4 then fixed 6 Nmi
  else if e 0 =? 5 then fixed 12 (ApicAddress (acpi_read_u64 (advance e 4)))
  else if e 0 =? 9 then
    fixed 16 (Processor (acpi_read_u32 (advance e 12)) (acpi_read_u32 (advance e 4))
                (acpi_read_u32 (advance e 8)))
  else Some Unknown.

(** The structures from [off] to the end of a table of [len] bytes: they follow
    one another without a gap and end where the table ends. *)
Inductive madt_entries (b : bytes) (len : Z) : Z -> list madt_entry -> Prop :=
| entries_end : madt_entries b len len []
| entries_next off e es :
    2 <= b (off + 1) -> off + b (off + 1) <= len ->
    decode_entry (advance b off) (b (off + 1)) = Some e ->
    madt_entries b len (off + b (off + 1)) es ->
    madt_entries b len off (e :: es).

Definition processor_of (e : madt_entry) : option acpi_local_apic :=
  match e with
  | Processor uid id flags =>
      Some (MkLocalApic uid id (Z.testbit flags 0) (Z.testbit flags 1))
  | _ => None
  end.
Definition io_apic_of (e : madt_entry) : option acpi_io_apic :=
  match e with IoApic id address base => Some (MkIoApic id address base) | _ => None end.
Definition override_of (e : madt_entry) : option acpi_interrupt_override :=
  match e with Override b src gsi flags => Some (MkOverride gsi flags b src) | _ => None end.
Definition apic_address_of (e : madt_entry) : option Z :=
  match e with ApicAddress a => Some a | _ => None end.
Definition is_nmi (e : madt_entry) : bool := match e with Nmi => true | _ => false end.
Definition is_unknown (e : madt_entry) : bool :=
  match e with Unknown => true | _ => false end.

(** What one structure must satisfy by itself. *)
Definition entry_ok (e : madt_entry) : Prop :=
  match e with
  | Processor _ _ flags => 0 <= flags < 4
  | IoApic _ address _ =>
      0 < address /\ address + IO_APIC_WINDOW_SIZE <= SAPOTE_EARLY_PHYSICAL_LIMIT
  | Override b src _ flags => b = MADT_BUS_ISA /\ 0 <= src < 16 /\ 0 <= flags < 16
  | ApicAddress address =>
      0 < address /\ address + LOCAL_APIC_WINDOW_SIZE <= SAPOTE_EARLY_PHYSICAL_LIMIT
  | Nmi | Unknown => True
  end.

(** What the structures must satisfy together. *)
Record entries_ok (es : list madt_entry) : Prop := {
  eo_each : Forall entry_ok es;
  eo_processors : NoDup (processor_uid <$> omap processor_of es);
  eo_processors_fit : zlength (omap processor_of es) <= ACPI_MAX_LOCAL_APICS;
  eo_io_apics : NoDup (identifier <$> omap io_apic_of es);
  eo_io_apics_fit : zlength (omap io_apic_of es) <= ACPI_MAX_IO_APICS;
  eo_overrides : NoDup (source <$> omap override_of es);
  eo_address : zlength (omap apic_address_of es) <= 1
}.

(** An array of [n] slots with [l] at its front. *)
Definition pad {A} (z : A) (n : Z) (l : list A) : list A :=
  l ++ replicate (Z.to_nat (n - zlength l)) z.

(** The topology the structures describe. *)
Definition topology_of (apic : Z) (pic : bool) (es : list madt_entry) : acpi_topology :=
  MkTopology
    (match omap apic_address_of es with a :: _ => a | [] => apic end)
    (match omap apic_address_of es with _ :: _ => true | [] => false end)
    pic
    (zlength (omap processor_of es))
    (countb enabled (omap processor_of es))
    (zlength (omap io_apic_of es))
    (zlength (omap override_of es))
    (countb is_nmi es)
    (countb is_unknown es)
    (pad local_apic_zero ACPI_MAX_LOCAL_APICS (omap processor_of es))
    (pad io_apic_zero ACPI_MAX_IO_APICS (omap io_apic_of es))
    (pad override_zero ACPI_MAX_INTERRUPT_OVERRIDES (omap override_of es)).

(** * Shared lemmas *)

Lemma pad_snoc {A} (z x : A) n l :
  zlength l < n -> aset (pad z n l) (zlength l) x = pad z n (l ++ [x]).
Proof.
  intros Hn. unfold aset, pad, zlength in *. rewrite Nat2Z.id.
  rewrite insert_app_r_alt, Nat.sub_diag by lia. rewrite <- app_assoc. f_equal.
  rewrite length_app. simpl.
  replace (Z.to_nat (n - Z.of_nat (length l))) with (S (Z.to_nat (n - Z.of_nat (length l + 1)))) by lia.
  done.
Qed.

Lemma pad_get {A} (z : A) n l i :
  0 <= i < zlength l -> aget z (pad z n l) i = aget z l i.
Proof.
  intros Hi. unfold pad. rewrite aget_app by lia.
  by rewrite (proj2 (Z.ltb_lt _ _)) by lia.
Qed.

Lemma recorded_spec {A} (d : A) key l count k :
  already_recorded d key l count k = true <->
  exists i, 0 <= i < count /\ key (aget d l i) = k.
Proof.
  unfold already_recorded.
  assert (forall ks, match for_each (fun index (_ : unit) =>
      if key (aget d l index) =? k then Return tt else Next tt) ks tt with
    | Return _ => true | Next _ => false end = true <->
    exists i, i ∈ ks /\ key (aget d l i) = k) as H.
  { induction ks as [|i ks IH]; simpl.
    - split; [done|]. intros (i & Hi & _). by apply not_elem_of_nil in Hi.
    - destruct (Z.eqb_spec (key (aget d l i)) k) as [E|E].
      + split; [intros _; exists i; split; [left|done]|done].
      + rewrite IH. split; intros (j & Hj & Hk); exists j; (split; [|done]);
          [by right|]. apply elem_of_cons in Hj as [->|]; done. }
  rewrite H. split; intros (i & Hi & Hk); exists i; (split; [|done]);
    [apply elem_of_seqZ in Hi; lia|apply elem_of_seqZ; lia].
Qed.

Lemma recorded_pad {A} (d : A) key n l k :
  already_recorded d key (pad d n l) (zlength l) k = true <-> k ∈ key <$> l.
Proof.
  rewrite recorded_spec, list_elem_of_fmap. split.
  - intros (i & Hi & <-). rewrite pad_get by done. exists (aget d l i). split; [done|].
    apply (elem_of_aget d). by exists i.
  - intros (x & -> & Hx). apply (elem_of_aget d) in Hx as (i & Hi & <-).
    exists i. split; [done|]. by rewrite pad_get.
Qed.


(** * One structure *)

(** The step one decoded structure makes. *)
Definition record_entry (t : acpi_topology) (e : madt_entry) : acpi_status * acpi_topology :=
  match e with
  | Processor uid id flags => record_local_apic t uid id flags
  | IoApic id address base => record_io_apic t id address base
  | Override b src gsi flags => record_interrupt_override t b src gsi flags
  | ApicAddress address => record_local_apic_override t address
  | Nmi => (ACPI_STATUS_OK, count_nmi t)
  | Unknown => (ACPI_STATUS_OK, count_ignored t)
  end.

Lemma consume_decode t e len :
  consume_entry t e len =
  match decode_entry e len with
  | Some x => record_entry t x
  | None => (ACPI_STATUS_BAD_MADT_ENTRY_LENGTH, t)
  end.
Proof.
  unfold consume_entry, decode_entry, expected_length, MADT_TYPE_LOCAL_APIC,
    MADT_TYPE_IO_APIC, MADT_TYPE_INTERRUPT_OVERRIDE, MADT_TYPE_NMI_SOURCE,
    MADT_TYPE_LOCAL_APIC_NMI, MADT_TYPE_LOCAL_APIC_OVERRIDE, MADT_TYPE_LOCAL_X2APIC,
    MADT_LOCAL_APIC_SIZE, MADT_IO_APIC_SIZE, MADT_INTERRUPT_OVERRIDE_SIZE,
    MADT_NMI_SOURCE_SIZE, MADT_LOCAL_APIC_NMI_SIZE, MADT_LOCAL_APIC_OVERRIDE_SIZE,
    MADT_LOCAL_X2APIC_SIZE.
  repeat match goal with
  | |- context [e 0 =? ?k] =>
      destruct (Z.eqb_spec (e 0) k) as [E|]; [rewrite ?E; by destruct (len =? _)|]
  end. done.
Qed.

(** The widths of a decoded structure's fields. *)
Definition entry_typed (e : madt_entry) : Prop :=
  match e with
  | Processor _ _ flags => is_u32 flags
  | IoApic _ address _ => is_u32 address
  | Override b src _ flags => 0 <= src < 256 /\ 0 <= flags < 65536
  | ApicAddress address => is_u64 address
  | Nmi | Unknown => True
  end.

Lemma decode_entry_typed e len x :
  is_bytes e -> decode_entry e len = Some x -> entry_typed x.
Proof.
  intros Hb H. unfold decode_entry in H.
  repeat (split_if_in H; [split_if_in H; [|done]; injection H as <-; simpl|]);
    [auto with sapote|auto with sapote| |done|done|auto with sapote|auto with sapote|
     by injection H as <-].
  split; [apply Hb|]. unfold acpi_read_u16, u16. apply Z.mod_pos_bound. lia.
Qed.

Lemma NoDup_snoc {A} (l : list A) x : NoDup (l ++ [x]) <-> NoDup l /\ x ∉ l.
Proof.
  rewrite NoDup_app. split.
  - intros (H & Hd & _). split; [done|]. intros Hx. apply (Hd x Hx). left.
  - intros [H Hx]. split_and!; [done| |apply NoDup_singleton].
    intros y Hy Hin. apply list_elem_of_singleton in Hin. by subst.
Qed.

(** What a further structure must satisfy beside those already recorded. *)
Definition entry_fresh (es : list madt_entry) (x : madt_entry) : Prop :=
  match x with
  | Processor uid _ _ => (uid ∉ (processor_uid <$> omap processor_of es)) /\
      zlength (omap processor_of es) < ACPI_MAX_LOCAL_APICS
  | IoApic id _ _ => (id ∉ (identifier <$> omap io_apic_of es)) /\
      zlength (omap io_apic_of es) < ACPI_MAX_IO_APICS
  | Override _ src _ _ => src ∉ (source <$> omap override_of es)
  | ApicAddress _ => omap apic_address_of es = []
  | Nmi | Unknown => True
  end.

Lemma zlength_zero {A} (l : list A) : zlength l <= 0 <-> l = [].
Proof. unfold zlength. destruct l; simpl; split; [done|done|lia|done]. Qed.

Lemma entries_ok_snoc es x :
  entries_ok (es ++ [x]) <-> entries_ok es /\ entry_ok x /\ entry_fresh es x.
Proof.
  split.
  - intros [H1 H2 H3 H4 H5 H6 H7].
    apply Forall_app in H1 as [H1 [Hx _]%Forall_cons].
    rewrite !omap_app in *.
    destruct x; simpl in *; rewrite ?app_nil_r in *;
      rewrite ?fmap_app, ?zlength_app in *; simpl in *;
      rewrite ?NoDup_snoc, ?zlength_cons in *; change (zlength (@nil _)) with 0 in *;
      split_and!; try split; try done; try lia; try tauto.
    apply zlength_zero. lia.
  - intros ([H1 H2 H3 H4 H5 H6 H7] & Hx & Hf).
    split; rewrite ?omap_app; [by apply Forall_app; split; [|constructor]|..];
      destruct x; simpl in *; rewrite ?app_nil_r; try done;
      rewrite ?fmap_app, ?zlength_app; simpl; rewrite ?NoDup_snoc, ?zlength_cons;
      change (zlength (@nil _)) with 0; try lia; try tauto.
    by rewrite Hf.
Qed.

Lemma entries_ok_nil : entries_ok [].
Proof. split; try done; constructor. Qed.

Lemma entries_ok_prefix es es' : entries_ok (es ++ es') -> entries_ok es.
Proof.
  revert es. induction es' as [|x es' IH]; intros es; [by rewrite app_nil_r|].
  rewrite cons_middle, app_assoc. intros H%IH. by apply entries_ok_snoc in H as [? _].
Qed.

(** The overrides never outgrow their array: their sources are distinct ISA
    interrupts. *)
Lemma overrides_fit es :
  entries_ok es -> zlength (omap override_of es) <= ACPI_MAX_INTERRUPT_OVERRIDES.
Proof.
  intros H. pose proof (eo_overrides _ H) as Hn.
  assert ((source <$> omap override_of es) ⊆+ seqZ 0 16) as Hsub.
  { apply NoDup_submseteq; [done|]. intros s Hs.
    apply list_elem_of_fmap in Hs as (o & -> & Ho).
    apply list_elem_of_omap in Ho as (e & He & Hoe).
    pose proof (proj1 (Forall_forall _ _) (eo_each _ H) e He) as Hok.
    destruct e; simplify_eq/=. apply elem_of_seqZ. lia. }
  apply submseteq_length in Hsub. rewrite length_fmap, length_seqZ in Hsub.
  unfold zlength, ACPI_MAX_INTERRUPT_OVERRIDES. lia.
Qed.

Lemma overrides_room es src :
  entries_ok es -> 0 <= src < 16 -> src ∉ (source <$> omap override_of es) ->
  zlength (omap override_of es) < ACPI_MAX_INTERRUPT_OVERRIDES.
Proof.
  intros H Hs Hf.
  assert (entries_ok (es ++ [Override 0 src 0 0])) as H'
    by (apply entries_ok_snoc; split_and!; try done; simpl; lia).
  apply overrides_fit in H'. rewrite omap_app, zlength_app in H'. simpl in H'.
  rewrite zlength_cons in H'. change (zlength (@nil _)) with 0 in H'. lia.
Qed.

(** Shared by the three arrays: a key not recorded yet. *)
Lemma not_recorded {A} (d : A) key n l k :
  already_recorded d key (pad d n l) (zlength l) k = false <-> k ∉ (key <$> l).
Proof. by rewrite <- (recorded_pad d key n l k), not_true_iff_false. Qed.

Lemma countb_snoc {A} (p : A -> bool) l x :
  countb p (l ++ [x]) = if p x then countb p l + 1 else countb p l.
Proof. rewrite countb_app. simpl. destruct (p x); lia. Qed.

Lemma zlength_snoc {A} (l : list A) x : zlength (l ++ [x]) = zlength l + 1.
Proof. rewrite zlength_app, zlength_cons. by change (zlength (@nil A)) with 0. Qed.

(** Compute the topology of one more structure. *)
Ltac topology_snoc :=
  unfold topology_of; rewrite !omap_app; simpl;
  rewrite ?app_nil_r, ?zlength_snoc, ?countb_snoc; simpl.

Section one.
Context (apic : Z) (pic : bool) (es : list madt_entry) (Hes : entries_ok es).

Lemma record_local_apic_spec uid id flags t :
  is_u32 flags ->
  record_local_apic (topology_of apic pic es) uid id flags = (ACPI_STATUS_OK, t) <->
  (entry_ok (Processor uid id flags) /\ entry_fresh es (Processor uid id flags)) /\
  t = topology_of apic pic (es ++ [Processor uid id flags]).
Proof.
  intros Hf. unfold record_local_apic. simpl.
  assert (Z.land flags (u32 (Z.lnot MADT_PROCESSOR_VALID_FLAGS)) = 0 <-> 0 <= flags < 4) as Hm
    by (apply (masked_zero 2 32); unfold is_u32, UINT32_MAX in *; lia).
  destruct (Z.eqb_spec (Z.land flags (u32 (Z.lnot MADT_PROCESSOR_VALID_FLAGS))) 0); simpl;
    [|split; [done|]; tauto].
  destruct (already_recorded _ _ _ _ _) eqn:Er; [apply recorded_pad in Er; split; [done|]; tauto|].
  apply not_recorded in Er. destruct (Z.eqb_spec (zlength (omap processor_of es))
    ACPI_MAX_LOCAL_APICS) as [E|E]; [split; [done|]; lia|].
  pose proof (eo_processors_fit _ Hes). rewrite pad_snoc by lia.
  change MADT_PROCESSOR_ENABLED with (2 ^ 0). change MADT_PROCESSOR_ONLINE_CAPABLE with (2 ^ 1).
  rewrite !flag_bit by lia. topology_snoc.
  split; [intros [= <-]; split; [|done]; split_and!; lia||tauto|by intros [_ ->]].
Qed.

Lemma window_mapped a n :
  is_u64 a -> 0 <= n ->
  (a =? 0) || negb (acpi_span_is_early_mapped a n) = false <->
  0 < a /\ a < SAPOTE_EARLY_PHYSICAL_LIMIT /\ a + n <= SAPOTE_EARLY_PHYSICAL_LIMIT.
Proof.
  intros Ha Hn. rewrite orb_false_iff, negb_false_iff, Z.eqb_neq, early_mapped_spec by done.
  unfold is_u64 in *. lia.
Qed.

Lemma record_io_apic_spec id address base t :
  is_u32 address ->
  record_io_apic (topology_of apic pic es) id address base = (ACPI_STATUS_OK, t) <->
  (entry_ok (IoApic id address base) /\ entry_fresh es (IoApic id address base)) /\
  t = topology_of apic pic (es ++ [IoApic id address base]).
Proof.
  intros Ha. unfold record_io_apic. simpl.
  assert (is_u64 address) as Hu by (unfold is_u32, is_u64, UINT32_MAX, UINT64_MAX in *; lia).
  pose proof (window_mapped address IO_APIC_WINDOW_SIZE Hu ltac:(done)) as Hw.
  unfold IO_APIC_WINDOW_SIZE in *.
  destruct (_ || _) eqn:Ew;
    [split; [done|]; intros [[? _] _]; discriminate (proj2 Hw ltac:(lia))|].
  pose proof (proj1 Hw eq_refl).
  destruct (already_recorded _ _ _ _ _) eqn:Er; [apply recorded_pad in Er; split; [done|]; tauto|].
  apply not_recorded in Er. destruct (Z.eqb_spec (zlength (omap io_apic_of es))
    ACPI_MAX_IO_APICS) as [E|E]; [split; [done|]; lia|].
  pose proof (eo_io_apics_fit _ Hes). rewrite pad_snoc by lia. topology_snoc.
  split; [intros [= <-]; split; [|done]; split_and!; lia||tauto|by intros [_ ->]].
Qed.

Lemma record_interrupt_override_spec b src gsi flags t :
  0 <= src < 256 -> 0 <= flags < 65536 ->
  record_interrupt_override (topology_of apic pic es) b src gsi flags = (ACPI_STATUS_OK, t) <->
  (entry_ok (Override b src gsi flags) /\ entry_fresh es (Override b src gsi flags)) /\
  t = topology_of apic pic (es ++ [Override b src gsi flags]).
Proof.
  intros Hs Hf. unfold record_interrupt_override. simpl.
  destruct (Z.eqb_spec b MADT_BUS_ISA); simpl; [|split; [done|]; tauto].
  rewrite Z.geb_leb. unfold MADT_ISA_IRQ_COUNT.
  destruct (Z.leb_spec 16 src); [split; [done|]; lia|].
  assert (Z.land flags (u16 (Z.lnot MADT_INTI_VALID_FLAGS)) = 0 <-> 0 <= flags < 16) as Hm
    by (apply (masked_zero 4 16); lia).
  destruct (Z.eqb_spec (Z.land flags (u16 (Z.lnot MADT_INTI_VALID_FLAGS))) 0); simpl;
    [|split; [done|]; tauto].
  destruct (already_recorded _ _ _ _ _) eqn:Er; [apply recorded_pad in Er; split; [done|]; tauto|].
  apply not_recorded in Er. rewrite pad_snoc by (apply (overrides_room es src); done || lia).
  topology_snoc.
  split; [intros [= <-]; split; [|done]; split_and!; lia||tauto|by intros [_ ->]].
Qed.

Lemma record_local_apic_override_spec address t :
  is_u64 address ->
  record_local_apic_override (topology_of apic pic es) address = (ACPI_STATUS_OK, t) <->
  (entry_ok (ApicAddress address) /\ entry_fresh es (ApicAddress address)) /\
  t = topology_of apic pic (es ++ [ApicAddress address]).
Proof.
  intros Hu. unfold record_local_apic_override. simpl.
  topology_snoc. destruct (omap apic_address_of es) as [|a l]; simpl; [|split; naive_solver].
  pose proof (window_mapped address LOCAL_APIC_WINDOW_SIZE Hu ltac:(done)) as Hw.
  unfold LOCAL_APIC_WINDOW_SIZE in *.
  destruct (_ || _) eqn:Ew;
    [split; [done|]; intros [[? _] _]; discriminate (proj2 Hw ltac:(lia))|].
  pose proof (proj1 Hw eq_refl).
  split; [intros [= <-]; split; [|done]; split_and!; lia||tauto|by intros [_ ->]].
Qed.

Lemma record_entry_spec x t :
  entry_typed x ->
  record_entry (topology_of apic pic es) x = (ACPI_STATUS_OK, t) <->
  entries_ok (es ++ [x]) /\ t = topology_of apic pic (es ++ [x]).
Proof.
  intros Hx. rewrite entries_ok_snoc.
  assert (forall A B C : Prop, A -> (A /\ B) /\ C <-> B /\ C) as Hdrop by tauto.
  rewrite (Hdrop (entries_ok es)) by done.
  destruct x; simpl in Hx; simpl record_entry.
  - by apply record_local_apic_spec.
  - by apply record_io_apic_spec.
  - apply record_interrupt_override_spec; apply Hx.
  - by apply record_local_apic_override_spec.
  - unfold count_nmi. topology_snoc.
    split; [by intros [= <-]|by intros [_ ->]].
  - unfold count_ignored. topology_snoc.
    split; [by intros [= <-]|by intros [_ ->]].
Qed.
End one.

(** * The walk *)

Lemma madt_entries_cons b len off es :
  off < len -> madt_entries b len off es ->
  exists e es', es = e :: es' /\ 2 <= b (off + 1) /\ off + b (off + 1) <= len /\
    decode_entry (advance b off) (b (off + 1)) = Some e /\
    madt_entries b len (off + b (off + 1)) es'.
Proof. intros Hlt H. inversion H; subst; [lia|]. by eexists _, _. Qed.

Lemma madt_entries_at_end b len es : is_bytes b -> madt_entries b len len es -> es = [].
Proof. intros Hb H. inversion H; subst; [done|]. lia. Qed.

(** [r] is what the walk from [off] has to come to, with [es] recorded. *)
Definition walked (apic : Z) (pic : bool) (b : bytes) (len off : Z) (es : list madt_entry)
    (r : acpi_topology + acpi_status) : Prop :=
  r <> inr ACPI_STATUS_OK /\
  forall t, r = inl t <-> exists es', madt_entries b len off es' /\
    entries_ok (es ++ es') /\ t = topology_of apic pic (es ++ es').

Section walk.
Context (apic : Z) (pic : bool) (b : bytes) (len : Z) (Hb : is_bytes b).

Lemma walked_refused off es st :
  st <> ACPI_STATUS_OK ->
  (forall es', madt_entries b len off es' -> ~ entries_ok (es ++ es')) ->
  walked apic pic b len off es (inr st).
Proof.
  intros Hst Hno. split; [congruence|]. intros t. split; [done|].
  intros (es' & H1 & H2 & _). by destruct (Hno es').
Qed.

Lemma walked_malformed off es st :
  st <> ACPI_STATUS_OK -> off < len ->
  b (off + 1) < 2 \/ len - off < b (off + 1) \/
    decode_entry (advance b off) (b (off + 1)) = None ->
  walked apic pic b len off es (inr st).
Proof.
  intros Hst Hlt Hbad. apply walked_refused; [done|]. intros es' H _.
  apply madt_entries_cons in H as (? & ? & _ & ? & ? & ? & _); [|done].
  destruct Hbad as [?|[?|?]]; [lia|lia|congruence].
Qed.

Lemma walked_rejected off es x st t :
  entries_ok es -> off < len ->
  decode_entry (advance b off) (b (off + 1)) = Some x ->
  record_entry (topology_of apic pic es) x = (st, t) -> st <> ACPI_STATUS_OK ->
  walked apic pic b len off es (inr st).
Proof.
  intros Hes Hlt Ed Er Hst. apply walked_refused; [done|]. intros es' H Hok.
  apply madt_entries_cons in H as (e & es1 & -> & _ & _ & E & _); [|done].
  assert (e = x) as -> by congruence.
  rewrite cons_middle, app_assoc in Hok. apply entries_ok_prefix in Hok.
  rewrite (proj2 (record_entry_spec apic pic es Hes x _
    (decode_entry_typed _ _ _ (advance_bytes b off Hb) Ed)) (conj Hok eq_refl)) in Er.
  congruence.
Qed.

Lemma walked_next off es x r :
  off < len -> 2 <= b (off + 1) -> off + b (off + 1) <= len ->
  decode_entry (advance b off) (b (off + 1)) = Some x ->
  walked apic pic b len (off + b (off + 1)) (es ++ [x]) r -> walked apic pic b len off es r.
Proof.
  intros Hlt H2 Hfit Ed [Hr1 Hr2]. split; [done|]. intros t. rewrite Hr2. split.
  - intros (es' & H' & Ho & ->). exists (x :: es'). rewrite <- app_assoc in *.
    split_and!; [by constructor|done|done].
  - intros (es' & H' & Ho & ->).
    apply madt_entries_cons in H' as (e & es1 & -> & _ & _ & E & H'); [|done].
    assert (e = x) as -> by congruence. exists es1. by rewrite <- app_assoc.
Qed.

Lemma entry_loop_spec fuel off es :
  0 <= off <= len -> len <= ACPI_MAX_TABLE_SIZE ->
  len - off < 2 * Z.of_nat fuel -> entries_ok es ->
  exists r, entry_loop fuel b len off (topology_of apic pic es) = Some r /\
    walked apic pic b len off es r.
Proof.
  intros Hoff Hmax. unfold ACPI_MAX_TABLE_SIZE in Hmax.
  revert off es Hoff. induction fuel as [|fuel IH]; intros off es Hoff Hfuel Hes; [lia|].
  simpl. destruct (Z.ltb_spec off len) as [Hlt|Hge]; cycle 1.
  { assert (off = len) as -> by lia. eexists. split; [done|]. split; [done|]. intros t. split.
    - intros [= <-]. exists []. rewrite app_nil_r. by split; [constructor|].
    - intros (es' & H & _ & ->). apply madt_entries_at_end in H as ->; [|done].
      by rewrite app_nil_r. }
  change (advance b off 1) with (b (off + 1)). pose proof (Hb (off + 1)) as Hbyte.
  rewrite u64_small by (unfold is_u64, UINT64_MAX; lia). unfold MADT_ENTRY_HEADER_SIZE.
  destruct (Z.ltb_spec (len - off) 2).
  { eexists. split; [done|]. apply walked_malformed; [done|done|lia]. }
  destruct (Z.ltb_spec (b (off + 1)) 2).
  { eexists. split; [done|]. apply walked_malformed; [done|done|lia]. }
  rewrite Z.gtb_ltb. destruct (Z.ltb_spec (len - off) (b (off + 1))).
  { eexists. split; [done|]. apply walked_malformed; [done|done|lia]. }
  rewrite consume_decode.
  destruct (decode_entry (advance b off) (b (off + 1))) as [x|] eqn:Ed; cycle 1.
  { eexists. split; [done|]. apply walked_malformed; [done|done|tauto]. }
  destruct (record_entry (topology_of apic pic es) x) as [st t1] eqn:Er.
  destruct (decide (st = ACPI_STATUS_OK)) as [->|Hst]; cycle 1.
  { unfold is_status. rewrite bool_decide_eq_false_2 by done.
    eexists. split; [done|]. by eapply walked_rejected. }
  apply record_entry_spec in Er as [Hok ->];
    [|done|exact (decode_entry_typed _ _ _ (advance_bytes b off Hb) Ed)].
  change (negb (is_status ACPI_STATUS_OK ACPI_STATUS_OK)) with false. cbv iota.
  rewrite u64_small by (unfold is_u64, UINT64_MAX; lia).
  destruct (IH (off + b (off + 1)) (es ++ [x])) as (r & -> & Hr); [lia|lia|done|].
  eexists. split; [done|]. apply (walked_next off es x); try done; lia.
Qed.
End walk.

(** * Discovery *)

(** The MADT the walk accepts: revalidated, whatever the recorded fields say. *)
Record madt_ok (m : memory) (g : acpi_madt) : Prop := {
  mo_start : 0 < g.(madt_physical_address);
  mo_length : ACPI_MADT_FIXED_SIZE <= g.(madt_length) <= ACPI_MAX_TABLE_SIZE;
  mo_inside : g.(madt_physical_address) + g.(madt_length) <= SAPOTE_EARLY_PHYSICAL_LIMIT;
  mo_checksum : byte_total (at_address m g.(madt_physical_address)) g.(madt_length) mod 256 = 0
}.

Lemma revalidate_spec m g b :
  is_u64 g.(madt_physical_address) ->
  revalidate_madt m g = inl b <-> b = at_address m g.(madt_physical_address) /\ madt_ok m g.
Proof.
  intros Ha. unfold revalidate_madt. rewrite byte_sum_total.
  unfold ACPI_MADT_FIXED_SIZE. split.
  - intros H. repeat (split_if_in H; [done|]). bool_hyps.
    rewrite early_mapped_spec in * by (done || lia).
    injection H as <-. split; [done|]. unfold is_u64 in *. split; try done; try lia.
  - intros [-> []]. unfold ACPI_MADT_FIXED_SIZE in *.
    rewrite (proj2 (Z.eqb_neq _ _)) by lia.
    rewrite (proj2 (Z.ltb_ge _ _)), Z.gtb_ltb, (proj2 (Z.ltb_ge _ _)) by lia.
    rewrite (proj2 (early_mapped_spec _ (madt_length g) Ha ltac:(lia))) by lia.
    by rewrite (proj2 (Z.eqb_eq _ _)).
Qed.

Lemma revalidate_refuses m g st : revalidate_madt m g = inr st -> st <> ACPI_STATUS_OK.
Proof. unfold revalidate_madt. intros H. repeat (split_if_in H; [congruence|]). done. Qed.

(** The structures of a MADT describe a usable machine. *)
Record machine_entries (m : memory) (g : acpi_madt) (es : list madt_entry) : Prop := {
  me_table : madt_ok m g;
  me_entries : madt_entries (at_address m g.(madt_physical_address)) g.(madt_length)
                 ACPI_MADT_FIXED_SIZE es;
  me_ok : entries_ok es;
  me_boot : Exists (fun p => p.(enabled) = true) (omap processor_of es);
  me_io_apic : omap io_apic_of es <> []
}.

Lemma countb_zero_none {A} (p : A -> bool) l :
  countb p l = 0 <-> ~ Exists (fun x => p x = true) l.
Proof.
  induction l as [|x l IH]; simpl.
  - split; [intros _ H; inversion H|done].
  - pose proof (countb_nonneg p l). rewrite Exists_cons. destruct (p x) eqn:E.
    + split; [lia|]. intros H1. exfalso. apply H1. by left.
    + split; [intros H1 [H2|H2]; [congruence|]; apply IH in H2; lia|].
      intros H1. assert (countb p l = 0); [apply IH; tauto|lia].
Qed.

Lemma initial_topology apic flags :
  MkTopology apic false (negb (Z.land flags ACPI_MADT_PCAT_COMPAT =? 0)) 0 0 0 0 0 0
    topology_zero.(local_apics) topology_zero.(io_apics)
    topology_zero.(interrupt_overrides) =
  topology_of apic (Z.testbit flags 0) [].
Proof.
  change ACPI_MADT_PCAT_COMPAT with (2 ^ 0). rewrite flag_bit by lia. reflexivity.
Qed.

(** [st] and [t] are what discovery has to come to. *)
Definition discovered (m : memory) (g : acpi_madt) (st : acpi_status) (t : acpi_topology)
  : Prop :=
  (st <> ACPI_STATUS_OK -> t = topology_zero) /\
  forall t', (st = ACPI_STATUS_OK /\ t = t') <->
    exists es, machine_entries m g es /\
      t' = topology_of g.(madt_local_apic_address) (Z.testbit g.(madt_flags) 0) es.

Lemma discovered_nothing m g st :
  st <> ACPI_STATUS_OK -> (forall es, ~ machine_entries m g es) ->
  discovered m g st topology_zero.
Proof.
  intros Hst Hno. split; [done|]. intros t'. split; [by intros [? _]|].
  intros (es & Hm & _). by destruct (Hno es).
Qed.

(** The checks after the walk. *)
Lemma discovered_conclusion m g es (t := topology_of g.(madt_local_apic_address)
    (Z.testbit g.(madt_flags) 0) es) :
  madt_ok m g -> entries_ok es ->
  madt_entries (at_address m g.(madt_physical_address)) g.(madt_length)
    ACPI_MADT_FIXED_SIZE es ->
  (forall es', machine_entries m g es' ->
     topology_of g.(madt_local_apic_address) (Z.testbit g.(madt_flags) 0) es' = t) ->
  let '(st, t) :=
    if t.(enabled_processor_count) =? 0 then
      (ACPI_STATUS_MISSING_BOOT_PROCESSOR, topology_zero)
    else if t.(io_apic_count) =? 0 then (ACPI_STATUS_MISSING_IO_APIC, topology_zero)
    else (ACPI_STATUS_OK, t) in
  discovered m g st t.
Proof.
  intros Hok Ho He Hdet.
  destruct (Z.eqb_spec t.(enabled_processor_count) 0) as [E0|E0].
  { apply discovered_nothing; [done|]. intros es' Hm. pose proof (Hdet es' Hm) as E.
    rewrite <- E in E0. apply countb_zero_none in E0. apply E0, Hm. }
  destruct (Z.eqb_spec t.(io_apic_count) 0) as [E1|E1].
  { apply discovered_nothing; [done|]. intros es' Hm. pose proof (Hdet es' Hm) as E.
    rewrite <- E in E1. apply (me_io_apic _ _ _ Hm), zlength_zero. simpl in E1. lia. }
  split; [done|]. intros t'. split.
  - intros [_ <-]. exists es. split; [|done]. split; try done.
    + simpl in E0. rewrite countb_zero_none in E0. by apply dec_stable.
    + intros E. apply E1. simpl. by rewrite E.
  - intros (es' & Hm & ->). split; [done|]. symmetry. by apply Hdet.
Qed.

(** Discovery as a whole. *)
Lemma topology_discover_spec m g t0 :
  is_u64 g.(madt_physical_address) ->
  exists st t, acpi_topology_discover m (Some g) (Some t0) = Some (st, Some t) /\
    discovered m g st t.
Proof.
  intros Ha. unfold acpi_topology_discover.
  destruct (revalidate_madt m g) as [b|st] eqn:Ev; cycle 1.
  { eexists _, _. split; [done|]. apply discovered_nothing; [by eapply revalidate_refuses|].
    intros es [Hok _ _ _ _].
    by rewrite (proj2 (revalidate_spec m g _ Ha) (conj eq_refl Hok)) in Ev. }
  apply revalidate_spec in Ev as [-> Hok]; [|done]. rewrite initial_topology.
  destruct (entry_loop_spec g.(madt_local_apic_address) (Z.testbit g.(madt_flags) 0)
    (at_address m g.(madt_physical_address)) g.(madt_length) ltac:(auto with sapote)
    (entry_fuel g.(madt_length)) ACPI_MADT_FIXED_SIZE []) as (r & -> & Hr1 & Hr2).
  { destruct Hok. unfold ACPI_MADT_FIXED_SIZE in *. lia. }
  { apply Hok. }
  { destruct Hok. unfold entry_fuel, ACPI_MADT_FIXED_SIZE in *.
    pose proof (Z.div_mod g.(madt_length) 2). pose proof (Z.mod_pos_bound g.(madt_length) 2).
    lia. }
  { apply entries_ok_nil. }
  assert (forall es', machine_entries m g es' -> r = inl (topology_of
    g.(madt_local_apic_address) (Z.testbit g.(madt_flags) 0) es')) as Hdet.
  { intros es' [_ He Ho _ _]. apply Hr2. by exists es'. }
  destruct r as [t|st]; cycle 1.
  { eexists _, _. split; [done|]. apply discovered_nothing; [congruence|].
    intros es Hm. by specialize (Hdet es Hm). }
  destruct (proj1 (Hr2 t) eq_refl) as (es & He & Ho & ->). simpl app in *.
  pose proof (discovered_conclusion m g es Hok Ho He) as Hc.
  destruct (_ =? 0); [|destruct (_ =? 0)]; (eexists _, _; split; [done|]; apply Hc;
    intros es' Hm; specialize (Hdet es' Hm); by apply inl_inj in Hdet).
Qed.

(** * What discovery reads *)

Lemma fields_agree n a b k :
  agree_on n a b -> 0 <= k ->
  (k + 2 <= n -> acpi_read_u16 (advance a k) = acpi_read_u16 (advance b k)) /\
  (k + 4 <= n -> acpi_read_u32 (advance a k) = acpi_read_u32 (advance b k)) /\
  (k + 8 <= n -> acpi_read_u64 (advance a k) = acpi_read_u64 (advance b k)).
Proof.
  intros H Hk. pose proof (agree_advance n k a b Hk H) as Ha.
  split_and!; intros; [eapply read_u16_agree|eapply acpi_read_u32_agree|
    eapply acpi_read_u64_agree]; try exact Ha; lia.
Qed.

Lemma decode_entry_local n a b :
  2 <= n -> agree_on n a b -> decode_entry a n = decode_entry b n.
Proof.
  intros Hn H. unfold decode_entry. rewrite (H 0) by lia.
  repeat match goal with |- (if b 0 =? ?k then (if n =? ?w then _ else _) else _) = _ =>
    destruct (b 0 =? k); [destruct (Z.eqb_spec n w) as [->|]; [|done]|] end;
    rewrite ?(H 2), ?(H 3) by lia; try done;
    destruct (fields_agree _ a b 4 H ltac:(lia)) as (_ & E4 & F4);
    destruct (fields_agree _ a b 8 H ltac:(lia)) as (D8 & E8 & _);
    destruct (fields_agree _ a b 12 H ltac:(lia)) as (_ & E12 & _);
    by rewrite ?D8, ?E4, ?E8, ?E12, ?F4 by lia.
Qed.

Lemma entry_loop_local a b len fuel off t :
  0 <= off -> len <= ACPI_MAX_TABLE_SIZE -> is_bytes b -> agree_on len a b ->
  entry_loop fuel a len off t = entry_loop fuel b len off t.
Proof.
  intros Hoff Hmax Hb H. unfold ACPI_MAX_TABLE_SIZE in Hmax. revert off t Hoff.
  induction fuel as [|fuel IH]; intros off t Hoff; [done|]. simpl.
  destruct (Z.ltb_spec off len); [|done].
  rewrite u64_small by (unfold is_u64, UINT64_MAX; lia). unfold MADT_ENTRY_HEADER_SIZE.
  destruct (Z.ltb_spec (len - off) 2); [done|].
  change (advance a off 1) with (a (off + 1)). change (advance b off 1) with (b (off + 1)).
  rewrite (H (off + 1)) by lia.
  destruct (Z.ltb_spec (b (off + 1)) 2); [done|]. rewrite Z.gtb_ltb.
  destruct (Z.ltb_spec (len - off) (b (off + 1))); [done|].
  rewrite !consume_decode.
  rewrite (decode_entry_local (b (off + 1)) (advance a off) (advance b off));
    [|done|apply (agree_on_le (len - off)); [lia|by apply agree_advance]].
  destruct (match decode_entry _ _ with Some _ => _ | None => _ end) as [st t1].
  split_if; [done|]. apply IH. apply u64_range.
Qed.

(** A MADT record whose table lies in the early map. *)
Definition madt_placed (g : acpi_madt) : Prop :=
  0 < g.(madt_physical_address) /\ 0 <= g.(madt_length) /\
  g.(madt_physical_address) + g.(madt_length) <= SAPOTE_EARLY_PHYSICAL_LIMIT.

(** The same table at two addresses gives the same answer. *)
Lemma topology_local m1 m2 g1 g2 t0 :
  g1.(madt_length) = g2.(madt_length) ->
  g1.(madt_local_apic_address) = g2.(madt_local_apic_address) ->
  g1.(madt_flags) = g2.(madt_flags) -> madt_placed g1 -> madt_placed g2 ->
  agree_on g1.(madt_length) (at_address m1 g1.(madt_physical_address))
    (at_address m2 g2.(madt_physical_address)) ->
  acpi_topology_discover m1 (Some g1) (Some t0) =
  acpi_topology_discover m2 (Some g2) (Some t0).
Proof.
  intros El Ea Ef (Hs1 & Hl1 & Hi1) (Hs2 & Hl2 & Hi2) Hag. rewrite El in *.
  unfold acpi_topology_discover, revalidate_madt. rewrite El, Ea, Ef.
  rewrite (proj2 (Z.eqb_neq (madt_physical_address g1) _)),
    (proj2 (Z.eqb_neq (madt_physical_address g2) _)) by lia.
  split_if; [done|]. bool_hyps.
  unfold ACPI_MADT_FIXED_SIZE in *.
  assert (is_u64 (madt_physical_address g1) /\ is_u64 (madt_physical_address g2)) as [U1 U2]
    by (unfold is_u64, UINT64_MAX, SAPOTE_EARLY_PHYSICAL_LIMIT in *; lia).
  rewrite (proj2 (early_mapped_spec _ _ U1 Hl2)), (proj2 (early_mapped_spec _ _ U2 Hl2)) by lia.
  rewrite (byte_sum_agree _ _ _ Hag). cbn [negb].
  destruct (negb (acpi_byte_sum _ _ =? 0)); [done|].
  by rewrite (entry_loop_local _ (at_address m2 g2.(madt_physical_address)))
    by (done || auto with sapote).
Qed.

(** * The kernel's own test, wherever its fixtures lie *)

Definition fixture_wf (f : topology_fixture) : bool :=
  (zlength f.(fx_bytes) =? TEST_MADT_CAPACITY) && (0 <=? f.(fx_length)) &&
  (f.(fx_length) <=? TEST_MADT_CAPACITY).

Section anywhere.
Context (m : memory) (address : Z).
Context (Hlo : 0 < address) (Hhi : address + TEST_MADT_CAPACITY <= SAPOTE_EARLY_PHYSICAL_LIMIT).

Lemma test_topology_anywhere f :
  fixture_wf f = true -> test_topology m address f = test_topology (fun _ => 0) 0x1000 f.
Proof.
  intros Hf. unfold fixture_wf in Hf. bool_hyps. unfold test_topology.
  unfold TEST_MADT_CAPACITY in *.
  assert (u32 f.(fx_length) = f.(fx_length)) as Hu
    by (apply u32_small; unfold is_u32, UINT32_MAX; lia).
  rewrite (topology_local (with_object m address f.(fx_bytes))
    (with_object (fun _ => 0) 0x1000 f.(fx_bytes)) (fixture_madt address f)
    (fixture_madt 0x1000 f)); [done..| | |]; unfold madt_placed; simpl; rewrite Hu.
  - lia.
  - unfold SAPOTE_EARLY_PHYSICAL_LIMIT. lia.
  - apply (agree_on_le (zlength f.(fx_bytes))); [lia|apply with_object_agree].
Qed.

Lemma fixture_gives_anywhere f p :
  from_option fixture_wf true f = true ->
  fixture_gives m address f p = fixture_gives (fun _ => 0) 0x1000 f p.
Proof.
  destruct f as [f|]; simpl; [|done]. intros Hf. unfold fixture_gives.
  by rewrite test_topology_anywhere.
Qed.

Lemma fixture_rejected_anywhere f st :
  from_option fixture_wf true f = true ->
  fixture_is_rejected m address f st = fixture_is_rejected (fun _ => 0) 0x1000 f st.
Proof. apply fixture_gives_anywhere. Qed.

Lemma seal_wf l n :
  fixture_wf (MkFixture l n) = true -> fixture_wf (fixture_seal (MkFixture l n)) = true.
Proof.
  intros H. unfold fixture_wf, fixture_seal, store32 in *. simpl in *.
  by rewrite !zlength_aset.
Qed.

Lemma reference_length : fx_length <$> build_reference_fixture = Some 92.
Proof. vm_compute. reflexivity. Qed.

Lemma reference_wf : from_option fixture_wf false build_reference_fixture = true.
Proof. vm_compute. reflexivity. Qed.

Lemma mutation_anywhere i k v st :
  mutation_is_rejected m address i k v st = mutation_is_rejected (fun _ => 0) 0x1000 i k v st.
Proof.
  unfold mutation_is_rejected. pose proof reference_wf as Hf.
  destruct build_reference_fixture as [[l n]|]; [|done]. simpl in Hf.
  destruct (fixture_entry _ _ _ _) as [e|]; [|done].
  apply fixture_rejected_anywhere, seal_wf. unfold fixture_wf in *. simpl in *.
  by rewrite zlength_aset.
Qed.

Lemma truncation_anywhere :
  truncation_is_rejected m address = truncation_is_rejected (fun _ => 0) 0x1000.
Proof.
  unfold truncation_is_rejected. rewrite mutation_anywhere. f_equal.
  assert (from_option (fun f => fixture_wf (MkFixture f.(fx_bytes) (f.(fx_length) + 1))) true
    (foldl (fun f append => f ≫= append) (Some fixture_begin)
      [append_local_apic 0 0 MADT_PROCESSOR_ENABLED;
       append_io_apic 0 TEST_IO_APIC_ADDRESS 0]) = true) as Hf by (vm_compute; reflexivity).
  destruct (foldl _ _ _) as [f|]; [|done].
  by apply fixture_rejected_anywhere, seal_wf.
Qed.

Lemma revalidated_anywhere :
  recorded_table_is_revalidated m address =
  recorded_table_is_revalidated (fun _ => 0) 0x1000.
Proof.
  unfold recorded_table_is_revalidated. pose proof reference_wf as Hf.
  pose proof reference_length as Hn.
  destruct build_reference_fixture as [[l n]|]; [|done].
  injection Hn as ->. simpl in Hf.
  apply (f_equal2 andb); [apply (f_equal2 andb); [apply (f_equal2 andb)|]|].
  - reflexivity.
  - unfold edited_madt_is_rejected, acpi_topology_discover, revalidate_madt. simpl.
    by rewrite (proj2 (Z.eqb_neq _ _)) by lia.
  - reflexivity.
  - apply fixture_rejected_anywhere. simpl. unfold fixture_wf in *. simpl in *.
    by rewrite zlength_aset.
Qed.

(** The kernel's own test of the walk passes, whatever else memory holds. *)
Lemma acpi_topology_self_test_passes : acpi_topology_self_test m address = true.
Proof.
  transitivity (acpi_topology_self_test (fun _ => 0) 0x1000); [|vm_compute; reflexivity].
  unfold acpi_topology_self_test, reference_fixture_is_accepted, x2apic_entry_is_accepted,
    wrong_entry_length_is_rejected, duplicate_structures_are_rejected,
    apic_addresses_are_bounded, policy_bounds_are_enforced, required_controllers_are_enforced.
  rewrite truncation_anywhere, revalidated_anywhere, !mutation_anywhere.
  rewrite !fixture_gives_anywhere by (vm_compute; reflexivity).
  rewrite !fixture_rejected_anywhere by (vm_compute; reflexivity).
  reflexivity.
Qed.
End anywhere.

(** The statuses a structure or the end of the walk is refused with. *)
Definition walk_refusals : list acpi_status :=
  [ACPI_STATUS_TRUNCATED_MADT_ENTRY; ACPI_STATUS_BAD_MADT_ENTRY_LENGTH;
   ACPI_STATUS_BAD_PROCESSOR_FLAGS; ACPI_STATUS_DUPLICATE_PROCESSOR_UID;
   ACPI_STATUS_TOO_MANY_LOCAL_APICS; ACPI_STATUS_DUPLICATE_IO_APIC_ID;
   ACPI_STATUS_TOO_MANY_IO_APICS; ACPI_STATUS_APIC_OUTSIDE_EARLY_MAP;
   ACPI_STATUS_BAD_OVERRIDE_BUS; ACPI_STATUS_BAD_OVERRIDE_SOURCE;
   ACPI_STATUS_BAD_OVERRIDE_FLAGS; ACPI_STATUS_DUPLICATE_OVERRIDE_SOURCE;
   ACPI_STATUS_DUPLICATE_APIC_ADDRESS_OVERRIDE; ACPI_STATUS_MISSING_BOOT_PROCESSOR;
   ACPI_STATUS_MISSING_IO_APIC].

(** Decide [st ∈ l] on a concrete status and list. *)
Ltac elem_decide := apply (bool_decide_eq_true_1 _); vm_compute; reflexivity.

Lemma consume_refuses t e len st t' :
  consume_entry t e len = (st, t') -> st ∈ ACPI_STATUS_OK :: walk_refusals.
Proof.
  rewrite consume_decode.
  destruct (decode_entry e len) as [[]|]; simpl; unfold record_local_apic, record_io_apic,
    record_interrupt_override, record_local_apic_override; intros H;
    repeat (split_if_in H; [injection H as <- _; elem_decide|]);
    injection H as <- _; elem_decide.
Qed.

Lemma entry_loop_refuses fuel b len off t st :
  entry_loop fuel b len off t = Some (inr st) -> st ∈ walk_refusals.
Proof.
  revert off t. induction fuel as [|fuel IH]; intros off t H; [done|]. simpl in H.
  split_if_in H; [|done].
  do 3 (split_if_in H; [injection H as <-; elem_decide|]).
  destruct (consume_entry _ _ _) as [st' t'] eqn:Ec. apply consume_refuses in Ec.
  split_if_in H; [|by apply IH in H].
  injection H as ->. apply elem_of_cons in Ec as [->|]; done.
Qed.

(** A revalidated table is refused only for its structures. *)
Lemma walk_refused_for_entries m g t0 st t :
  is_u64 g.(madt_physical_address) -> madt_ok m g ->
  acpi_topology_discover m (Some g) (Some t0) = Some (st, t) ->
  st ∈ ACPI_STATUS_OK :: walk_refusals.
Proof.
  intros Ha Hok. unfold acpi_topology_discover.
  rewrite (proj2 (revalidate_spec m g _ Ha) (conj eq_refl Hok)).
  destruct (entry_loop _ _ _ _ _) as [[t1|st1]|] eqn:El; [| |done]; intros H.
  - repeat (split_if_in H; [injection H as <- _; elem_decide|]).
    injection H as <- _. elem_decide.
  - injection H as <- _. apply entry_loop_refuses in El. by right.
Qed.

(** * Properties *)

(** The topologies the walk passes through: the initial one, and any it records
    one more structure into. *)
Inductive filled (apic : Z) (pic : bool) : acpi_topology -> Prop :=
| filled_start : filled apic pic (topology_of apic pic [])
| filled_entry t e len t' :
    filled apic pic t -> is_bytes e -> consume_entry t e len = (ACPI_STATUS_OK, t') ->
    filled apic pic t'.

Lemma filled_entries apic pic t :
  filled apic pic t -> exists es, entries_ok es /\ t = topology_of apic pic es.
Proof.
  induction 1 as [|t e len t' _ (es & Hes & ->) He Hc].
  - exists []. split; [apply entries_ok_nil|done].
  - rewrite consume_decode in Hc. destruct (decode_entry e len) as [x|] eqn:Ed; [|done].
    apply record_entry_spec in Hc as [Hok ->]; [by exists (es ++ [x])|done|].
    by eapply decode_entry_typed.
Qed.

Lemma zlength_pad {A} (z : A) n l : zlength l <= n -> zlength (pad z n l) = n.
Proof.
  intros Hn. unfold pad. rewrite zlength_app. unfold zlength in *.
  rewrite length_replicate. lia.
Qed.

(** C32 (refinement): for every memory and MADT record [acpi_topology_discover]
    returns, its fuel never exhausted.  It succeeds exactly when the recorded
    table is inside the early map and sums to zero, its structures follow one
    another from byte 44 to its last byte, each of the length its type fixes, and
    together they describe a machine: valid flags and windows, distinct processor
    and I/O APIC identifiers within their arrays, distinct ISA overrides, at most
    one address override, an enabled processor and an I/O APIC.  The result is the
    topology those structures describe, and a refusal leaves it zeroed. *)
Theorem acpi_topology_discover_exact m g t0 :
  is_u64 g.(madt_physical_address) ->
  exists st t, acpi_topology_discover m (Some g) (Some t0) = Some (st, Some t) /\
    (st <> ACPI_STATUS_OK -> t = topology_zero) /\
    forall t', (st = ACPI_STATUS_OK /\ t = t') <->
      exists es, machine_entries m g es /\
        t' = topology_of g.(madt_local_apic_address) (Z.testbit g.(madt_flags) 0) es.
Proof.
  intros Ha. destruct (topology_discover_spec m g t0 Ha) as (st & t & H & Hd).
  by exists st, t.
Qed.

(** C33 (bounds): whatever bytes the firmware supplies, every record lands inside
    its array.  After any run of accepted structures the counts are within the 64
    processors, 8 I/O APICs and 16 overrides the arrays hold - the overrides
    without a capacity check, because their sources are distinct ISA interrupts -
    the arrays keep their size, and no more processors are enabled than recorded. *)
Theorem topology_arrays_bounded apic pic t :
  filled apic pic t ->
  0 <= t.(local_apic_count) <= zlength t.(local_apics) /\
  0 <= t.(io_apic_count) <= zlength t.(io_apics) /\
  0 <= t.(interrupt_override_count) <= zlength t.(interrupt_overrides) /\
  zlength t.(local_apics) = ACPI_MAX_LOCAL_APICS /\
  zlength t.(io_apics) = ACPI_MAX_IO_APICS /\
  zlength t.(interrupt_overrides) = ACPI_MAX_INTERRUPT_OVERRIDES /\
  0 <= t.(enabled_processor_count) <= t.(local_apic_count).
Proof.
  intros (es & Hes & ->)%filled_entries. simpl.
  pose proof (eo_processors_fit _ Hes). pose proof (eo_io_apics_fit _ Hes).
  pose proof (overrides_fit _ Hes). rewrite !zlength_pad by done.
  split_and!; try done; try apply zlength_nonneg;
    [apply countb_nonneg|apply countb_le_length].
Qed.

(** The topology depends on the bytes of the declared table and on
    nothing else: discovery gives the same answer on two memories that agree
    there, whatever the table's own length bytes say. *)
Theorem acpi_topology_reads_table m1 m2 g t0 :
  is_u64 g.(madt_physical_address) ->
  agree m1 m2 g.(madt_physical_address) (g.(madt_physical_address) + g.(madt_length)) ->
  acpi_topology_discover m1 (Some g) (Some t0) = acpi_topology_discover m2 (Some g) (Some t0).
Proof.
  intros Ha Hag.
  destruct (Z.ltb_spec g.(madt_length) 0) as [Hneg|Hlen].
  { unfold acpi_topology_discover, revalidate_madt. split_if; [done|].
    rewrite (proj2 (Z.ltb_lt (madt_length g) ACPI_MADT_FIXED_SIZE))
      by (unfold ACPI_MADT_FIXED_SIZE; lia). done. }
  assert (Decision (madt_placed g)) as Hdec by (unfold madt_placed; apply _).
  destruct (decide (madt_placed g)) as [Hp|Hp].
  - apply topology_local; try done. intros i Hi. apply Hag. lia.
  - unfold acpi_topology_discover, revalidate_madt.
    destruct (Z.eqb_spec g.(madt_physical_address) 0); [done|].
    destruct (_ || _); [done|].
    destruct (acpi_span_is_early_mapped _ _) eqn:Es; [|done].
    apply early_mapped_spec in Es; [|done|done].
    exfalso. apply Hp. unfold madt_placed, is_u64 in *. lia.
Qed.

(** A MADT record that [acpi_madt_discover] has just filled in is
    never refused for its table: whether the topology is accepted is decided by
    the interrupt controller structures alone. *)
Theorem discovered_madt_walks m root g0 g t0 :
  is_u64 root.(root_address) ->
  acpi_madt_discover m (Some root) (Some g0) = (ACPI_STATUS_OK, Some g) ->
  madt_ok m g /\
  exists st t, acpi_topology_discover m (Some g) (Some t0) = Some (st, Some t) /\
    st ∈ ACPI_STATUS_OK :: walk_refusals.
Proof.
  intros Hr H. apply madt_discover_ok in H as [Hf [Hlen Hmin _ _ _ _ _ _]].
  apply find_unique_ok in Hf as [Hs [_ Hmax] Hin Hsum]; [|done].
  rewrite <- Hlen in *.
  assert (madt_ok m g) as Hok by (split; try done; lia).
  assert (is_u64 g.(madt_physical_address)) as Hu.
  { unfold is_u64, UINT64_MAX, SAPOTE_EARLY_PHYSICAL_LIMIT, ACPI_MADT_FIXED_SIZE in *. lia. }
  split; [done|].
  destruct (topology_discover_spec m g t0 Hu) as (st & t & E & _).
  exists st, t. split; [done|]. by eapply walk_refused_for_entries.
Qed.

(** * Witnesses: the reference fixture at 0x1000 *)

Definition reference : topology_fixture :=
  default fixture_begin build_reference_fixture.
Definition reference_memory (d : Z) : memory :=
  with_object (fun _ => d) 0x1000 reference.(fx_bytes).
Definition reference_madt : acpi_madt := fixture_madt 0x1000 reference.

Lemma acpi_topology_discover_exact_witness :
  exists es t, machine_entries (reference_memory 0) reference_madt es /\
    acpi_topology_discover (reference_memory 0) (Some reference_madt)
      (Some topology_zero) = Some (ACPI_STATUS_OK, Some t) /\
    t = topology_of TEST_LOCAL_APIC_ADDRESS true es /\ t.(local_apic_count) = 2.
Proof.
  destruct (acpi_topology_discover_exact (reference_memory 0) reference_madt topology_zero)
    as (st & t & E & _ & H); [vm_compute; by split|].
  assert ((fun r => match r with (st, Some t) => (st, t.(local_apic_count)) | _ => (st, 0) end)
    <$> acpi_topology_discover (reference_memory 0) (Some reference_madt)
      (Some topology_zero) = Some (ACPI_STATUS_OK, 2)) as Hv by (vm_compute; reflexivity).
  rewrite E in Hv. injection Hv as -> Hc.
  destruct (proj1 (H t) (conj eq_refl eq_refl)) as (es & Hm & Ht).
  exists es, t. split_and!; [done|done|exact Ht|done].
Defined.

Lemma topology_arrays_bounded_witness :
  (consume_entry (topology_of 0 true []) (of_list [0; 8; 3; 3; 1; 0; 0; 0]) 8).2.(local_apic_count) <= 64.
Proof.
  apply (topology_arrays_bounded 0 true (consume_entry (topology_of 0 true [])
    (of_list [0; 8; 3; 3; 1; 0; 0; 0]) 8).2).
  apply (filled_entry 0 true (topology_of 0 true []) (of_list [0; 8; 3; 3; 1; 0; 0; 0]) 8).
  - constructor.
  - intros i. unfold of_list, aget.
    destruct (Z.to_nat i) as [|[|[|[|[|[|[|[|[|n]]]]]]]]]; simpl; lia.
  - reflexivity.
Defined.

Lemma acpi_topology_reads_table_witness :
  acpi_topology_discover (reference_memory 0) (Some reference_madt) (Some topology_zero) =
  acpi_topology_discover (reference_memory 255) (Some reference_madt) (Some topology_zero).
Proof.
  apply acpi_topology_reads_table; [vm_compute; by split|].
  change (madt_physical_address reference_madt) with 0x1000. intros a Ha.
  assert (madt_length reference_madt <= zlength (fx_bytes reference)) as Hl
    by (vm_compute; discriminate).
  unfold byte_at, reference_memory, with_object.
  by rewrite (proj2 (Z.leb_le _ _)), (proj2 (Z.ltb_lt _ _)) by lia.
Defined.

Lemma discovered_madt_walks_witness :
  exists g, acpi_madt_discover (fixture_memory 0) (Some fixture_root) (Some madt_reset) =
    (ACPI_STATUS_OK, Some g) /\ madt_ok (fixture_memory 0) g.
Proof.
  assert (exists g, acpi_madt_discover (fixture_memory 0) (Some fixture_root)
    (Some madt_reset) = (ACPI_STATUS_OK, Some g)) as [g Hg]
    by (eexists; vm_compute; reflexivity).
  exists g. split; [exact Hg|].
  apply (discovered_madt_walks (fixture_memory 0) fixture_root madt_reset g topology_zero);
    [vm_compute; by split|exact Hg].
Defined.

End AcpiMadt.
