(* ===== verification/PhysicalMemory.v ===== *)
(** The physical frame allocator: src/src/kernel/physical_memory.c.

    The two bitmaps are lists of bytes, read and written with the code's masks;
    the file-scope variables are the fields of [allocator].  The size of the
    early map and the kernel image's bounds (the linker's [__kernel_start] and
    [__kernel_end]) are the fields of the class [PhysicalLayout], so that every
    theorem holds of the 4 GiB map of include/sapote/boot.h
    ([sapote_layout]) and of the small map the examples evaluate. *)
From S2P Require Import Prelude Multiboot2.

Module PhysicalMemory.
Import Multiboot2(memory, boot_information, boot_memory_region,
  boot_information_region_at, MULTIBOOT2_MEMORY_AVAILABLE,
  base_address, region_length, region_type, memory_map, memory_map_entry_count,
  information_start, information_end).

Definition SAPOTE_PAGE_SIZE : Z := 4096.
Definition SAPOTE_LOW_MEMORY_RESERVATION : Z := 0x100000.
Definition FRAME_CONTIGUOUS_ALLOCATION_CAPACITY : Z := 32.

(** What the build fixes: the extent of the early map, a whole number of bitmap
    bytes and at most 4 GiB, and where the linker put the kernel. *)
Class PhysicalLayout := {
  early_limit : Z;
  kernel_start_symbol : Z;
  kernel_end_symbol : Z;
  early_limit_bitmap : early_limit mod (8 * SAPOTE_PAGE_SIZE) = 0;
  early_limit_low : SAPOTE_LOW_MEMORY_RESERVATION < early_limit;
  early_limit_high : early_limit <= Multiboot2.SAPOTE_EARLY_PHYSICAL_LIMIT;
  kernel_start_range : is_u64 kernel_start_symbol;
  kernel_end_range : is_u64 kernel_end_symbol
}.

Inductive frame_status : Type :=
| FRAME_STATUS_OK
| FRAME_STATUS_NULL_ARGUMENT
| FRAME_STATUS_NOT_INITIALIZED
| FRAME_STATUS_BAD_MEMORY_MAP
| FRAME_STATUS_RANGE_OVERFLOW
| FRAME_STATUS_RANGE_OUTSIDE_LIMIT
| FRAME_STATUS_OUT_OF_MEMORY
| FRAME_STATUS_UNALIGNED_ADDRESS
| FRAME_STATUS_FRAME_NOT_ALLOCATABLE
| FRAME_STATUS_FRAME_IN_USE
| FRAME_STATUS_DOUBLE_FREE
| FRAME_STATUS_ZERO_PAGE_COUNT
| FRAME_STATUS_BAD_ALIGNMENT
| FRAME_STATUS_ALIGNMENT_UNSATISFIABLE
| FRAME_STATUS_ADDRESS_BOUND_UNSATISFIED
| FRAME_STATUS_TOO_MANY_CONTIGUOUS_ALLOCATIONS
| FRAME_STATUS_BAD_CONTIGUOUS_ALLOCATION
| FRAME_STATUS_COUNT.

#[export] Instance frame_status_eq_dec : EqDecision frame_status.
Proof. solve_decision. Defined.

Record frame_contiguous_request : Type := MkRequest {
  rq_page_count : Z;
  rq_alignment : Z;
  rq_maximum_physical_address : Z
}.

Record frame_contiguous_allocation : Type := MkAllocation {
  al_physical_base : Z;
  al_page_count : Z;
  al_alignment : Z;
  al_maximum_physical_address : Z;
  al_identifier : Z;
  al_active : bool
}.

Record frame_allocator_stats : Type := MkStats {
  addressable_frames : Z;
  allocatable_frames : Z;
  free_frames : Z;
  allocated_frames : Z;
  reserved_frames : Z;
  highest_allocatable_address : Z
}.

Record contiguous_record : Type := MkRecord {
  physical_base : Z;
  page_count : Z;
  identifier : Z;
  active : bool
}.

Record allocator : Type := MkAllocator {
  eligible_bitmap : list Z;
  used_bitmap : list Z;
  allocator_stats : frame_allocator_stats;
  next_search_index : Z;
  allocator_initialized : bool;
  contiguous_records : list contiguous_record;
  next_contiguous_identifier : Z
}.

Definition empty_record : contiguous_record := MkRecord 0 0 0 false.
Definition empty_allocation : frame_contiguous_allocation :=
  MkAllocation 0 0 0 0 0 false.
Definition empty_stats : frame_allocator_stats := MkStats 0 0 0 0 0 0.

(** Field updates of the file-scope state. *)
Definition set_bitmaps (s : allocator) (e u : list Z) : allocator :=
  MkAllocator e u s.(allocator_stats) s.(next_search_index)
    s.(allocator_initialized) s.(contiguous_records) s.(next_contiguous_identifier).
Definition set_stats (s : allocator) (st : frame_allocator_stats) : allocator :=
  MkAllocator s.(eligible_bitmap) s.(used_bitmap) st s.(next_search_index)
    s.(allocator_initialized) s.(contiguous_records) s.(next_contiguous_identifier).
Definition set_search (s : allocator) (i : Z) : allocator :=
  MkAllocator s.(eligible_bitmap) s.(used_bitmap) s.(allocator_stats) i
    s.(allocator_initialized) s.(contiguous_records) s.(next_contiguous_identifier).
Definition set_initialized (s : allocator) (b : bool) : allocator :=
  MkAllocator s.(eligible_bitmap) s.(used_bitmap) s.(allocator_stats)
    s.(next_search_index) b s.(contiguous_records) s.(next_contiguous_identifier).
Definition set_records (s : allocator) (rs : list contiguous_record) (next : Z)
  : allocator :=
  MkAllocator s.(eligible_bitmap) s.(used_bitmap) s.(allocator_stats)
    s.(next_search_index) s.(allocator_initialized) rs next.

(** Moving [n] frames from free to allocated ([free_frames -= n;
    allocated_frames += n]), and back. *)
Definition stats_take (st : frame_allocator_stats) (n : Z) : frame_allocator_stats :=
  MkStats st.(addressable_frames) st.(allocatable_frames)
    (u64 (st.(free_frames) - n)) (u64 (st.(allocated_frames) + n))
    st.(reserved_frames) st.(highest_allocatable_address).
Definition stats_give (st : frame_allocator_stats) (n : Z) : frame_allocator_stats :=
  MkStats st.(addressable_frames) st.(allocatable_frames)
    (u64 (st.(free_frames) + n)) (u64 (st.(allocated_frames) - n))
    st.(reserved_frames) st.(highest_allocatable_address).

(** * Bitmaps *)

Definition bit_mask (frame_index : Z) : Z := u8 (Z.shiftl 1 (frame_index mod 8)).

Definition bitmap_get (bitmap : list Z) (frame_index : Z) : bool :=
  let mask := bit_mask frame_index in
  negb (Z.land (aget 0 bitmap (frame_index / 8)) mask =? 0).

Definition bitmap_set (bitmap : list Z) (frame_index : Z) (value : bool) : list Z :=
  let mask := bit_mask frame_index in
  let byte := aget 0 bitmap (frame_index / 8) in
  aset bitmap (frame_index / 8)
    (if value then u8 (Z.lor byte mask) else Z.land byte (u8 (Z.lnot mask))).

(** * Ranges *)

Definition checked_range_end (base length : Z) : option Z :=
  if length >? u64 (UINT64_MAX - base) then None else Some (u64 (base + length)).

Definition power_of_two (value : Z) : bool :=
  negb (value =? 0) && (Z.land value (u64 (value - 1)) =? 0).

Section layout.
Context {L : PhysicalLayout}.

Definition FRAME_COUNT : Z := early_limit / SAPOTE_PAGE_SIZE.
Definition BITMAP_BYTE_COUNT : Z := (FRAME_COUNT + 7) / 8.

Definition bitmap_fill (value : Z) : list Z :=
  replicate (Z.to_nat BITMAP_BYTE_COUNT) value.

Definition frame_in_contiguous_allocation (s : allocator) (frame : Z) : bool :=
  existsb (fun record =>
      let first := record.(physical_base) / SAPOTE_PAGE_SIZE in
      record.(active) && (frame >=? first) &&
      (u64 (frame - first) <? record.(page_count)))
    s.(contiguous_records).

(** Both bounds functions: a refusal, or the frames [first, past_last). *)
Definition available_frame_bounds (base length : Z) : frame_status + (Z * Z) :=
  let page_mask := SAPOTE_PAGE_SIZE - 1 in
  match checked_range_end base length with
  | None => inl FRAME_STATUS_RANGE_OVERFLOW
  | Some end_ =>
      if (length =? 0) || (base >=? early_limit) then inr (0, 0)
      else
        let clipped_end := if end_ <? early_limit then end_ else early_limit in
        let aligned_base := Z.land (u64 (base + page_mask)) (not64 page_mask) in
        if aligned_base >=? clipped_end then inr (0, 0)
        else
          inr (aligned_base / SAPOTE_PAGE_SIZE,
               Z.land clipped_end (not64 page_mask) / SAPOTE_PAGE_SIZE)
  end.

Definition covering_frame_bounds (base length : Z) : frame_status + (Z * Z) :=
  match checked_range_end base length with
  | None => inl FRAME_STATUS_RANGE_OVERFLOW
  | Some end_ =>
      if length =? 0 then inr (0, 0)
      else if base >=? early_limit then inl FRAME_STATUS_RANGE_OUTSIDE_LIMIT
      else
        let clipped_end := if end_ <? early_limit then end_ else early_limit in
        let past := clipped_end / SAPOTE_PAGE_SIZE in
        inr (base / SAPOTE_PAGE_SIZE,
             if negb (Z.land clipped_end (SAPOTE_PAGE_SIZE - 1) =? 0)
             then past + 1 else past)
  end.

(** The loops that write one bitmap over [first, past). *)
Definition bitmap_set_range (bitmap : list Z) (first past : Z) (value : bool)
  : list Z :=
  foldl (fun b frame => bitmap_set b frame value) bitmap (seqZ first (past - first)).

Definition mark_available_frames (s : allocator) (first past : Z) : allocator :=
  set_bitmaps s (bitmap_set_range s.(eligible_bitmap) first past true)
    (bitmap_set_range s.(used_bitmap) first past false).

Definition mark_reserved_frames (s : allocator) (first past : Z) : allocator :=
  set_bitmaps s (bitmap_set_range s.(eligible_bitmap) first past false)
    (bitmap_set_range s.(used_bitmap) first past true).

Definition reserve_internal (s : allocator) (base length : Z)
  : frame_status * allocator :=
  match covering_frame_bounds base length with
  | inl status => (status, s)
  | inr (first, past) => (FRAME_STATUS_OK, mark_reserved_frames s first past)
  end.

(** * Statistics *)

Definition count_frame (s : allocator) (st : frame_allocator_stats) (frame : Z)
  : frame_allocator_stats :=
  if negb (bitmap_get s.(eligible_bitmap) frame) then
    MkStats st.(addressable_frames) st.(allocatable_frames) st.(free_frames)
      st.(allocated_frames) (u64 (st.(reserved_frames) + 1))
      st.(highest_allocatable_address)
  else
    let highest := u64 (u64 (frame + 1) * SAPOTE_PAGE_SIZE) in
    if bitmap_get s.(used_bitmap) frame then
      MkStats st.(addressable_frames) (u64 (st.(allocatable_frames) + 1))
        st.(free_frames) (u64 (st.(allocated_frames) + 1)) st.(reserved_frames)
        highest
    else
      MkStats st.(addressable_frames) (u64 (st.(allocatable_frames) + 1))
        (u64 (st.(free_frames) + 1)) st.(allocated_frames) st.(reserved_frames)
        highest.

Definition recount (s : allocator) : frame_allocator_stats :=
  foldl (count_frame s) (MkStats FRAME_COUNT 0 0 0 0 0) (seqZ 0 FRAME_COUNT).

Definition recompute_stats (s : allocator) : allocator := set_stats s (recount s).

(** * Initialization *)

(** One region in one pass of apply_memory_map. *)
Definition apply_region (m : memory) (context : boot_information) (pass index : Z)
    (s : allocator) : ctl allocator (frame_status * allocator) :=
  match boot_information_region_at m context index with
  | None => Return (FRAME_STATUS_BAD_MEMORY_MAP, s)
  | Some region =>
      let available := region.(region_type) =? MULTIBOOT2_MEMORY_AVAILABLE in
      if negb (Bool.eqb (pass =? 0) available) then Next s
      else if available then
        match available_frame_bounds region.(base_address) region.(region_length) with
        | inl status => Return (status, s)
        | inr (first, past) => Next (mark_available_frames s first past)
        end
      else
        match covering_frame_bounds region.(base_address) region.(region_length) with
        | inl status =>
            if bool_decide (status = FRAME_STATUS_RANGE_OUTSIDE_LIMIT) then Next s
            else Return (status, s)
        | inr (first, past) => Next (mark_reserved_frames s first past)
        end
  end.

Definition apply_memory_map (m : memory) (context : boot_information) (s : allocator)
  : frame_status * allocator :=
  match
    for_each (fun pass s =>
        for_each (apply_region m context pass)
          (seqZ 0 context.(memory_map_entry_count)) s)
      [0; 1] s
  with
  | Return r => r
  | Next s => (FRAME_STATUS_OK, s)
  end.

Definition reset_allocator (s : allocator) : allocator :=
  MkAllocator (bitmap_fill 0) (bitmap_fill UINT8_MAX) s.(allocator_stats) 0 false
    (replicate (Z.to_nat FRAME_CONTIGUOUS_ALLOCATION_CAPACITY) empty_record) 1.

Definition frame_allocator_initialize (m : memory)
    (context : option boot_information) (s : allocator) : frame_status * allocator :=
  match context with
  | None => (FRAME_STATUS_NULL_ARGUMENT, s)
  | Some context =>
    match context.(memory_map) with
    | None => (FRAME_STATUS_NULL_ARGUMENT, s)
    | Some _ =>
      let s := reset_allocator s in
      match apply_memory_map m context s with
      | (FRAME_STATUS_OK, s) =>
        match reserve_internal s 0 SAPOTE_LOW_MEMORY_RESERVATION with
        | (FRAME_STATUS_OK, s) =>
          if kernel_end_symbol <? kernel_start_symbol then
            (FRAME_STATUS_RANGE_OVERFLOW, s)
          else
          match reserve_internal s kernel_start_symbol
                  (u64 (kernel_end_symbol - kernel_start_symbol)) with
          | (FRAME_STATUS_OK, s) =>
            match reserve_internal s context.(information_start)
                    (u64 (context.(information_end) - context.(information_start)))
            with
            | (FRAME_STATUS_OK, s) =>
                let s := recompute_stats s in
                if s.(allocator_stats).(free_frames) =? 0 then
                  (FRAME_STATUS_OUT_OF_MEMORY, s)
                else
                  let s := set_search s
                    (SAPOTE_LOW_MEMORY_RESERVATION / SAPOTE_PAGE_SIZE) in
                  (FRAME_STATUS_OK, set_initialized s true)
            | r => r
            end
          | r => r
          end
        | r => r
        end
      | r => r
      end
    end
  end.

(** * Single frames *)

Definition frame_available (s : allocator) (frame : Z) : bool :=
  bitmap_get s.(eligible_bitmap) frame && negb (bitmap_get s.(used_bitmap) frame).

(** The frame the search loop examines at [step]. *)
Definition search_frame (s : allocator) (step : Z) : Z :=
  let frame := u64 (s.(next_search_index) + step) in
  if frame >=? FRAME_COUNT then frame - FRAME_COUNT else frame.

(** [destination] is [false] for a NULL pointer; the answer is the status, the
    address stored through the pointer and the new state. *)
Definition frame_allocate (destination : bool) (s : allocator)
  : frame_status * option Z * allocator :=
  if negb destination then (FRAME_STATUS_NULL_ARGUMENT, None, s)
  else if negb s.(allocator_initialized) then (FRAME_STATUS_NOT_INITIALIZED, None, s)
  else if s.(allocator_stats).(free_frames) =? 0 then
    (FRAME_STATUS_OUT_OF_MEMORY, None, s)
  else
    match
      for_each (fun step (_ : unit) =>
          if frame_available s (search_frame s step) then
            Return (search_frame s step)
          else Next tt)
        (seqZ 0 FRAME_COUNT) tt
    with
    | Next _ => (FRAME_STATUS_OUT_OF_MEMORY, None, s)
    | Return frame =>
        let next := if frame + 1 =? FRAME_COUNT then 0 else frame + 1 in
        let s := set_bitmaps s s.(eligible_bitmap)
                   (bitmap_set s.(used_bitmap) frame true) in
        let s := set_stats s (stats_take s.(allocator_stats) 1) in
        (FRAME_STATUS_OK, Some (frame * SAPOTE_PAGE_SIZE), set_search s next)
    end.

Definition frame_release (physical_address : Z) (s : allocator)
  : frame_status * allocator :=
  if negb s.(allocator_initialized) then (FRAME_STATUS_NOT_INITIALIZED, s)
  else if negb (Z.land physical_address (SAPOTE_PAGE_SIZE - 1) =? 0) then
    (FRAME_STATUS_UNALIGNED_ADDRESS, s)
  else if physical_address >=? early_limit then (FRAME_STATUS_RANGE_OUTSIDE_LIMIT, s)
  else
    let frame := physical_address / SAPOTE_PAGE_SIZE in
    if negb (bitmap_get s.(eligible_bitmap) frame) then
      (FRAME_STATUS_FRAME_NOT_ALLOCATABLE, s)
    else if negb (bitmap_get s.(used_bitmap) frame) then
      (FRAME_STATUS_DOUBLE_FREE, s)
    else if frame_in_contiguous_allocation s frame then
      (FRAME_STATUS_FRAME_IN_USE, s)
    else
      let next := if frame <? s.(next_search_index) then frame
                  else s.(next_search_index) in
      let s := set_bitmaps s s.(eligible_bitmap)
                 (bitmap_set s.(used_bitmap) frame false) in
      let s := set_stats s (stats_give s.(allocator_stats) 1) in
      (FRAME_STATUS_OK, set_search s next).

(** * Contiguous runs *)

Definition run_available (s : allocator) (first count : Z) : bool :=
  forallb (fun offset => frame_available s (first + offset)) (seqZ 0 count).

(** The search loop of frame_allocate_contiguous. *)
Definition contiguous_search (s : allocator) (rq : frame_contiguous_request)
    (maximum_past_frame : Z) : ctl unit Z :=
  for_each (fun first (_ : unit) =>
      if negb (Z.land (u64 (first * SAPOTE_PAGE_SIZE))
                 (u64 (rq.(rq_alignment) - 1)) =? 0) then Next tt
      else if run_available s first rq.(rq_page_count) then Return first
      else Next tt)
    (seqZ 0 (u64 (maximum_past_frame - rq.(rq_page_count)) + 1)) tt.

(** The destination is what the caller's handle holds ([None] for NULL); a
    request that is examined at all clears it first. *)
Definition frame_allocate_contiguous (request : option frame_contiguous_request)
    (destination : option frame_contiguous_allocation) (s : allocator)
  : frame_status * option frame_contiguous_allocation * allocator :=
  match request, destination with
  | None, _ | _, None => (FRAME_STATUS_NULL_ARGUMENT, destination, s)
  | Some rq, Some _ =>
    let refuse st := (st, Some empty_allocation, s) in
    let maximum := rq.(rq_maximum_physical_address) in
    if negb s.(allocator_initialized) then refuse FRAME_STATUS_NOT_INITIALIZED
    else if rq.(rq_page_count) =? 0 then refuse FRAME_STATUS_ZERO_PAGE_COUNT
    else if negb (power_of_two rq.(rq_alignment)) ||
            (rq.(rq_alignment) <? SAPOTE_PAGE_SIZE) ||
            negb (rq.(rq_alignment) mod SAPOTE_PAGE_SIZE =? 0) then
      refuse FRAME_STATUS_BAD_ALIGNMENT
    else if (rq.(rq_alignment) >? early_limit) ||
            (rq.(rq_alignment) >?
             u64 (maximum + (if negb (maximum =? UINT64_MAX) then 1 else 0))) then
      refuse FRAME_STATUS_ALIGNMENT_UNSATISFIABLE
    else if rq.(rq_page_count) >? UINT64_MAX / SAPOTE_PAGE_SIZE then
      refuse FRAME_STATUS_RANGE_OVERFLOW
    else
    let length := u64 (rq.(rq_page_count) * SAPOTE_PAGE_SIZE) in
    if (length =? 0) || (maximum <? u64 (length - 1)) then
      refuse FRAME_STATUS_ADDRESS_BOUND_UNSATISFIED
    else
    let bound_end := if maximum =? UINT64_MAX then UINT64_MAX else u64 (maximum + 1) in
    let bound_end := if bound_end >? early_limit then early_limit else bound_end in
    let maximum_past_frame := bound_end / SAPOTE_PAGE_SIZE in
    if maximum_past_frame <? rq.(rq_page_count) then
      refuse FRAME_STATUS_ADDRESS_BOUND_UNSATISFIED
    else
    match find_index (fun r => negb r.(active)) s.(contiguous_records) with
    | None => refuse FRAME_STATUS_TOO_MANY_CONTIGUOUS_ALLOCATIONS
    | Some slot =>
      match contiguous_search s rq maximum_past_frame with
      | Next _ => refuse FRAME_STATUS_OUT_OF_MEMORY
      | Return first =>
          let base := u64 (first * SAPOTE_PAGE_SIZE) in
          let n := rq.(rq_page_count) in
          let id := s.(next_contiguous_identifier) in
          let next_id := if u64 (id + 1) =? 0 then 1 else u64 (id + 1) in
          let next := if first + n >=? FRAME_COUNT then 0 else first + n in
          let s := set_bitmaps s s.(eligible_bitmap)
                     (bitmap_set_range s.(used_bitmap) first (first + n) true) in
          let s := set_records s
                     (aset s.(contiguous_records) slot (MkRecord base n id true))
                     next_id in
          let s := set_stats s (stats_take s.(allocator_stats) n) in
          (FRAME_STATUS_OK,
           Some (MkAllocation base n rq.(rq_alignment) maximum id true),
           set_search s next)
      end
    end
  end.

(** The handle is passed by pointer: the answer carries what it holds after. *)
Definition frame_release_contiguous (allocation : option frame_contiguous_allocation)
    (s : allocator)
  : frame_status * option frame_contiguous_allocation * allocator :=
  match allocation with
  | None => (FRAME_STATUS_NULL_ARGUMENT, None, s)
  | Some al =>
    let refuse st := (st, Some al, s) in
    if negb s.(allocator_initialized) then refuse FRAME_STATUS_NOT_INITIALIZED
    else if negb al.(al_active) then refuse FRAME_STATUS_DOUBLE_FREE
    else
    match find_index (fun r => r.(active) && (r.(identifier) =? al.(al_identifier)))
            s.(contiguous_records) with
    | None => refuse FRAME_STATUS_DOUBLE_FREE
    | Some slot =>
      let record := aget empty_record s.(contiguous_records) slot in
      if negb (record.(physical_base) =? al.(al_physical_base)) ||
         negb (record.(page_count) =? al.(al_page_count)) then
        refuse FRAME_STATUS_BAD_CONTIGUOUS_ALLOCATION
      else
      let first := record.(physical_base) / SAPOTE_PAGE_SIZE in
      let n := record.(page_count) in
      if negb (forallb (fun offset =>
                  bitmap_get s.(eligible_bitmap) (first + offset) &&
                  bitmap_get s.(used_bitmap) (first + offset)) (seqZ 0 n)) then
        refuse FRAME_STATUS_BAD_CONTIGUOUS_ALLOCATION
      else
        let next := if first <? s.(next_search_index) then first
                    else s.(next_search_index) in
        let s := set_bitmaps s s.(eligible_bitmap)
                   (bitmap_set_range s.(used_bitmap) first (first + n) false) in
        let s := set_stats s (stats_give s.(allocator_stats) n) in
        let s := set_search s next in
        let s := set_records s
                   (aset s.(contiguous_records) slot
                      (MkRecord record.(physical_base) n record.(identifier) false))
                   s.(next_contiguous_identifier) in
        (FRAME_STATUS_OK,
         Some (MkAllocation al.(al_physical_base) al.(al_page_count) al.(al_alignment)
                 al.(al_maximum_physical_address) al.(al_identifier) false), s)
    end
  end.

(** * Reservation and queries *)

Definition frame_reserve_range (base length : Z) (s : allocator)
  : frame_status * allocator :=
  if negb s.(allocator_initialized) then (FRAME_STATUS_NOT_INITIALIZED, s)
  else
    match covering_frame_bounds base length with
    | inl status => (status, s)
    | inr (first, past) =>
        if existsb (fun frame => bitmap_get s.(eligible_bitmap) frame &&
                                 bitmap_get s.(used_bitmap) frame)
             (seqZ first (past - first)) then (FRAME_STATUS_FRAME_IN_USE, s)
        else (FRAME_STATUS_OK, recompute_stats (mark_reserved_frames s first past))
    end.

Definition frame_range_overlaps_allocatable_memory (base length : Z) (s : allocator)
  : bool :=
  if negb s.(allocator_initialized) || (length =? 0) then false
  else
    match checked_range_end base length with
    | None => false
    | Some end_ =>
        if base >=? early_limit then false
        else
          let end_ := if end_ >? early_limit then early_limit else end_ in
          let first := base / SAPOTE_PAGE_SIZE in
          let past := end_ / SAPOTE_PAGE_SIZE in
          let past := if negb (Z.land end_ (SAPOTE_PAGE_SIZE - 1) =? 0) then past + 1
                      else past in
          existsb (bitmap_get s.(eligible_bitmap)) (seqZ first (past - first))
    end.

Definition frame_allocator_get_stats (s : allocator) : frame_allocator_stats :=
  s.(allocator_stats).

End layout.

(** * Bitmap lemmas *)

Section bitmaps.
Context {L : PhysicalLayout}.

Lemma frame_count_whole :
  exists q, early_limit = (8 * q) * SAPOTE_PAGE_SIZE /\ FRAME_COUNT = 8 * q.
Proof.
  pose proof early_limit_bitmap as H. apply Z.mod_divide in H as [q H]; [|done].
  exists q. unfold FRAME_COUNT. assert (early_limit = 8 * q * SAPOTE_PAGE_SIZE) as ->
    by (rewrite H; lia). split; [done|]. by rewrite Z.div_mul.
Qed.

Lemma frame_count_bytes : FRAME_COUNT = 8 * BITMAP_BYTE_COUNT.
Proof.
  destruct frame_count_whole as (q & _ & H). unfold BITMAP_BYTE_COUNT.
  rewrite H, (Z.mul_comm 8), (Z.add_comm _ 7), Z.div_add, (Z.div_small 7) by lia.
  lia.
Qed.

Lemma frame_count_limit : FRAME_COUNT * SAPOTE_PAGE_SIZE = early_limit.
Proof. by destruct frame_count_whole as (q & -> & ->). Qed.

Lemma frame_count_range : 256 < FRAME_COUNT <= 1048576.
Proof.
  pose proof frame_count_limit. pose proof early_limit_low.
  pose proof early_limit_high.
  unfold SAPOTE_PAGE_SIZE, SAPOTE_LOW_MEMORY_RESERVATION,
    Multiboot2.SAPOTE_EARLY_PHYSICAL_LIMIT in *. lia.
Qed.

Definition bitmap_ok (bm : list Z) : Prop :=
  zlength bm = BITMAP_BYTE_COUNT /\ Forall (fun b => 0 <= b < 2 ^ 8) bm.

Lemma bit_mask_pow i : 0 <= i -> bit_mask i = 2 ^ (i mod 8).
Proof.
  intros. unfold bit_mask, u8. pose proof (Z.mod_pos_bound i 8).
  rewrite Z.shiftl_1_l. apply Z.mod_small.
  pose proof (Z.pow_lt_mono_r 2 (i mod 8) 8). lia.
Qed.

Lemma testbit_pow2 n m : 0 <= n -> Z.testbit (2 ^ n) m = bool_decide (n = m).
Proof. intros. rewrite Z.pow2_bits_eqb by done. case_bool_decide; lia. Qed.

Lemma bitmap_get_testbit bm i :
  0 <= i -> bitmap_get bm i = Z.testbit (aget 0 bm (i / 8)) (i mod 8).
Proof.
  intros Hi. unfold bitmap_get. rewrite bit_mask_pow by done.
  pose proof (Z.mod_pos_bound i 8). set (b := aget _ _ _). set (k := i mod 8).
  destruct (Z.testbit b k) eqn:E.
  - apply negb_true_iff, Z.eqb_neq. intros H0.
    apply (f_equal (fun x => Z.testbit x k)) in H0.
    rewrite Z.land_spec, E, Z.bits_0, Z.pow2_bits_true in H0 by lia. done.
  - apply negb_false_iff, Z.eqb_eq. apply Z.bits_inj'. intros n Hn.
    rewrite Z.land_spec, Z.bits_0, testbit_pow2 by lia. case_bool_decide; [|lia].
    subst n. by rewrite E.
Qed.

Lemma set_byte_spec b k v :
  0 <= b < 2 ^ 8 -> 0 <= k < 8 ->
  let b' := if v : bool then u8 (Z.lor b (2 ^ k)) else Z.land b (u8 (Z.lnot (2 ^ k))) in
  0 <= b' < 2 ^ 8 /\
  forall n, 0 <= n < 8 -> Z.testbit b' n = if k =? n then v else Z.testbit b n.
Proof.
  intros Hb Hk b'. unfold u8 in b'. change 256 with (2 ^ 8) in b'.
  assert (0 <= b' < 2 ^ 8) as Hr.
  { destruct v; [apply Z.mod_pos_bound; lia|apply land_range; lia]. }
  split; [done|]. intros n Hn. subst b'.
  destruct v; [rewrite Z.mod_pow2_bits_low by lia; rewrite Z.lor_spec|
    rewrite Z.land_spec, Z.mod_pow2_bits_low, Z.lnot_spec by lia];
  rewrite testbit_pow2 by lia; case_bool_decide; destruct (k =? n) eqn:E;
  bool_hyps; subst; try lia; destruct (Z.testbit b n); done.
Qed.

Lemma frame_byte_range i :
  0 <= i < FRAME_COUNT -> 0 <= i / 8 < BITMAP_BYTE_COUNT.
Proof.
  intros. pose proof frame_count_bytes.
  split; [apply Z.div_pos; lia|apply Z.div_lt_upper_bound; lia].
Qed.

Lemma bitmap_byte bm i :
  bitmap_ok bm -> 0 <= i < BITMAP_BYTE_COUNT -> 0 <= aget 0 bm i < 2 ^ 8.
Proof.
  intros [Hl Hb] Hi. rewrite Forall_forall in Hb. apply Hb.
  apply (elem_of_aget 0). exists i. by rewrite Hl.
Qed.

Lemma bitmap_set_ok bm i v :
  bitmap_ok bm -> 0 <= i < FRAME_COUNT -> bitmap_ok (bitmap_set bm i v).
Proof.
  intros Hok Hi. pose proof (frame_byte_range i Hi) as Hr.
  pose proof (Z.mod_pos_bound i 8).
  pose proof (set_byte_spec _ (i mod 8) v (bitmap_byte bm _ Hok Hr)) as [Hb _];
    [lia|]. destruct Hok as [Hl Hf]. unfold bitmap_set.
  rewrite bit_mask_pow by lia. split; [by autorewrite with sapote|].
  apply Forall_insert; done.
Qed.

Lemma bitmap_get_set bm i v j :
  bitmap_ok bm -> 0 <= i < FRAME_COUNT -> 0 <= j ->
  bitmap_get (bitmap_set bm i v) j = if i =? j then v else bitmap_get bm j.
Proof.
  intros Hok Hi Hj. pose proof (frame_byte_range i Hi) as Hr.
  pose proof (Z.mod_pos_bound i 8). pose proof (Z.mod_pos_bound j 8).
  pose proof (set_byte_spec _ (i mod 8) v (bitmap_byte bm _ Hok Hr)) as [_ Hb];
    [lia|]. rewrite !bitmap_get_testbit by done. unfold bitmap_set.
  rewrite bit_mask_pow by lia. destruct Hok as [Hl _].
  rewrite aget_aset by (try apply Z.div_pos; lia).
  pose proof (Z.div_mod i 8). pose proof (Z.div_mod j 8).
  destruct (i / 8 =? j / 8) eqn:E; bool_hyps.
  - rewrite Hb by lia. rewrite E. destruct (i =? j) eqn:E2, (i mod 8 =? j mod 8) eqn:E3;
      bool_hyps; done || lia.
  - destruct (i =? j) eqn:E2; bool_hyps; [subst; lia|done].
Qed.

Lemma bitmap_set_range_spec bm first past v :
  bitmap_ok bm -> 0 <= first -> past <= FRAME_COUNT ->
  bitmap_ok (bitmap_set_range bm first past v) /\
  forall j, 0 <= j -> bitmap_get (bitmap_set_range bm first past v) j =
    if (first <=? j) && (j <? past) then v else bitmap_get bm j.
Proof.
  intros Hok Hf Hp. unfold bitmap_set_range.
  destruct (decide (first <= past)) as [Hle|Hgt].
  2: { rewrite seqZ_nil by lia. split; [done|]. intros j Hj.
       destruct (first <=? j) eqn:?, (j <? past) eqn:?; bool_hyps; done || lia. }
  remember (past - first) as n eqn:Hn.
  assert (past = first + n) as -> by lia. clear Hn.
  assert (0 <= n) as Hn0 by lia. clear Hle. revert Hp. pattern n.
  apply natlike_ind; [| |done]; clear n Hn0.
  - intros _. rewrite seqZ_nil by lia. split; [done|]. intros j Hj.
    destruct (first <=? j) eqn:?, (j <? first + 0) eqn:?; bool_hyps; done || lia.
  - intros n Hn IH Hp. destruct IH as [IHok IHget]; [lia|].
    assert (seqZ first (Z.succ n) = seqZ first n ++ [first + n]) as ->
      by (rewrite <- Z.add_1_r, seqZ_app by lia; done).
    rewrite foldl_app. simpl. split; [apply bitmap_set_ok; done || lia|].
    intros j Hj. rewrite bitmap_get_set by (done || lia). rewrite IHget by done.
    destruct (first + n =? j) eqn:?, (first <=? j) eqn:?, (j <? first + n) eqn:?,
      (j <? first + Z.succ n) eqn:?; bool_hyps; simpl; done || lia.
Qed.

Lemma bitmap_fill_spec b :
  0 <= b < 2 ^ 8 -> bitmap_ok (bitmap_fill b) /\
  forall j, 0 <= j < FRAME_COUNT -> bitmap_get (bitmap_fill b) j = Z.testbit b (j mod 8).
Proof.
  intros Hb. pose proof frame_count_bytes. pose proof frame_count_range.
  split; [split|].
  - unfold zlength, bitmap_fill. rewrite length_replicate. lia.
  - by apply Forall_replicate.
  - intros j Hj. rewrite bitmap_get_testbit by lia. f_equal.
    apply aget_replicate. pose proof (frame_byte_range j Hj). lia.
Qed.
End bitmaps.

(** * Counting *)

Section counting.
Context {L : PhysicalLayout}.

Definition count_frames (p : Z -> bool) : Z := countb p (seqZ 0 FRAME_COUNT).

Definition eligible (s : allocator) (f : Z) : bool := bitmap_get s.(eligible_bitmap) f.
Definition used (s : allocator) (f : Z) : bool := bitmap_get s.(used_bitmap) f.
Definition allocated (s : allocator) (f : Z) : bool := eligible s f && used s f.

(** One past the last frame that satisfies [p], as an address. *)
Definition highest_of (p : Z -> bool) (l : list Z) (h : Z) : Z :=
  foldl (fun h f => if p f then (f + 1) * SAPOTE_PAGE_SIZE else h) h l.

Definition counted (s : allocator) (l : list Z) (h : Z) : frame_allocator_stats :=
  MkStats FRAME_COUNT (countb (eligible s) l) (countb (frame_available s) l)
    (countb (allocated s) l) (countb (fun f => negb (eligible s f)) l)
    (highest_of (eligible s) l h).

Lemma countb_frames_le p : 0 <= count_frames p <= FRAME_COUNT.
Proof.
  pose proof frame_count_range. unfold count_frames.
  pose proof (countb_nonneg p (seqZ 0 FRAME_COUNT)).
  pose proof (countb_le_length p (seqZ 0 FRAME_COUNT)) as Hl.
  unfold zlength in Hl. rewrite length_seqZ in Hl. lia.
Qed.

Lemma recount_prefix s n :
  0 <= n <= FRAME_COUNT ->
  foldl (count_frame s) (MkStats FRAME_COUNT 0 0 0 0 0) (seqZ 0 n) =
  counted s (seqZ 0 n) 0.
Proof.
  intros [Hn Hle]. pose proof frame_count_range as Hfc. revert Hle. pattern n.
  apply natlike_ind; [| |done]; clear n Hn.
  - intros _. by rewrite seqZ_nil.
  - intros n Hn IH Hle.
    assert (seqZ 0 (Z.succ n) = seqZ 0 n ++ [n]) as ->
      by (rewrite <- Z.add_1_r, seqZ_app by lia; done).
    rewrite foldl_app, IH by lia. unfold counted, highest_of.
    rewrite foldl_app, !countb_app. cbn [foldl countb].
    assert (forall p, u64 (countb p (seqZ 0 n) + 1) = countb p (seqZ 0 n) + 1) as Hu.
    { intros p. pose proof (countb_nonneg p (seqZ 0 n)).
      pose proof (countb_le_length p (seqZ 0 n)) as Hl.
      unfold zlength in Hl. rewrite length_seqZ in Hl.
      apply u64_small. unfold is_u64, UINT64_MAX. lia. }
    unfold count_frame. cbn [addressable_frames allocatable_frames free_frames
      allocated_frames reserved_frames highest_allocatable_address].
    rewrite !Hu. rewrite (u64_small (n + 1)) by (unfold is_u64, UINT64_MAX; lia).
    rewrite u64_small by (unfold is_u64, UINT64_MAX, SAPOTE_PAGE_SIZE; lia).
    unfold frame_available, allocated.
    fold (eligible s n) (used s n).
    destruct (eligible s n) eqn:?, (used s n) eqn:?; cbn;
      rewrite ?Z.add_0_r; done.
Qed.

Lemma recount_counted s : recount s = counted s (seqZ 0 FRAME_COUNT) 0.
Proof. apply recount_prefix. pose proof frame_count_range. lia. Qed.

Lemma highest_of_ext p q l h :
  (forall f, f ∈ l -> p f = q f) -> highest_of p l h = highest_of q l h.
Proof.
  unfold highest_of. revert h. induction l as [|f l IH]; intros h H; [done|].
  simpl. rewrite (H f) by left. apply IH. intros. apply H. by right.
Qed.

(** [q] is [p] with [n] frames from [first] on taken away. *)
Lemma count_frames_remove p q first n :
  0 <= first -> 0 <= n -> first + n <= FRAME_COUNT ->
  (forall f, first <= f < first + n -> p f = true /\ q f = false) ->
  (forall f, 0 <= f < FRAME_COUNT -> ~ (first <= f < first + n) -> q f = p f) ->
  count_frames q = count_frames p - n.
Proof.
  intros Hf Hn Hle Hin Hout. unfold count_frames.
  assert (seqZ 0 FRAME_COUNT =
    seqZ 0 first ++ seqZ first n ++ seqZ (first + n) (FRAME_COUNT - first - n)) as ->.
  { rewrite <- (seqZ_app first) by lia. replace (seqZ first) with (seqZ (0 + first))
      by done. rewrite <- seqZ_app by lia. f_equal. lia. }
  rewrite !countb_app.
  rewrite (countb_ext q p (seqZ 0 first)), (countb_ext q p (seqZ (first + n) _)).
  - assert (countb q (seqZ first n) = 0) as ->.
    { apply countb_zero, Forall_forall. intros f Hf'%elem_of_seqZ. by apply Hin. }
    assert (countb p (seqZ first n) = n); [|lia].
    rewrite (countb_ext p (fun _ => true)).
    2: { intros f Hf'%elem_of_seqZ. by apply Hin. }
    transitivity (zlength (seqZ first n)).
    + unfold zlength. induction (seqZ first n); simpl; lia.
    + unfold zlength. rewrite length_seqZ. lia.
  - intros f Hf'%elem_of_seqZ. apply Hout; lia.
  - intros f Hf'%elem_of_seqZ. apply Hout; lia.
Qed.

(** Marking [n] available frames used is what [stats_take] books. *)
Lemma recount_take s s' first n :
  0 <= first -> 0 <= n -> first + n <= FRAME_COUNT ->
  (forall f, 0 <= f < FRAME_COUNT -> eligible s' f = eligible s f) ->
  (forall f, 0 <= f < FRAME_COUNT ->
     used s' f = if (first <=? f) && (f <? first + n) then true else used s f) ->
  (forall f, first <= f < first + n -> frame_available s f = true) ->
  recount s' = stats_take (recount s) n /\ recount s = stats_give (recount s') n.
Proof.
  intros Hf Hn Hle He Hu Hav. rewrite !recount_counted.
  pose proof (countb_frames_le (frame_available s)).
  pose proof (countb_frames_le (frame_available s')).
  pose proof (countb_frames_le (allocated s)).
  pose proof (countb_frames_le (allocated s')). pose proof frame_count_range.
  assert (count_frames (frame_available s') = count_frames (frame_available s) - n)
    as Ha.
  { apply (count_frames_remove _ _ first); try done.
    - intros f Hin. split; [auto|]. unfold frame_available. fold (used s' f).
      rewrite Hu by lia. destruct (first <=? f) eqn:?, (f <? first + n) eqn:?;
        bool_hyps; try lia. by rewrite andb_false_r.
    - intros f Hr Hout. unfold frame_available.
      fold (eligible s' f) (used s' f) (eligible s f) (used s f).
      rewrite He, Hu by done. destruct (first <=? f) eqn:?, (f <? first + n) eqn:?;
        bool_hyps; done || lia. }
  assert (count_frames (allocated s) = count_frames (allocated s') - n) as Hb.
  { apply (count_frames_remove _ _ first); try done.
    - intros f Hin. specialize (Hav f Hin). unfold frame_available in Hav.
      fold (eligible s f) (used s f) in Hav. unfold allocated. rewrite He, Hu by lia.
      destruct (first <=? f) eqn:?, (f <? first + n) eqn:?; bool_hyps; try lia.
      by rewrite H4, H5.
    - intros f Hr Hout. unfold allocated. rewrite He, Hu by done.
      destruct (first <=? f) eqn:?, (f <? first + n) eqn:?; bool_hyps; done || lia. }
  assert (forall q, countb (fun f => q (eligible s' f)) (seqZ 0 FRAME_COUNT) =
                    countb (fun f => q (eligible s f)) (seqZ 0 FRAME_COUNT)) as Hc.
  { intros q. apply countb_ext. intros f Hf'%elem_of_seqZ. f_equal. apply He. lia. }
  pose proof (Hc (fun b => b)) as Hc1. pose proof (Hc negb) as Hc2. cbn in Hc1, Hc2.
  assert (highest_of (eligible s') (seqZ 0 FRAME_COUNT) 0 =
          highest_of (eligible s) (seqZ 0 FRAME_COUNT) 0) as Hh.
  { apply highest_of_ext. intros f Hf'%elem_of_seqZ. apply He. lia. }
  unfold counted, stats_take, stats_give. fold (count_frames (frame_available s)).
  fold (count_frames (frame_available s')). fold (count_frames (allocated s)).
  fold (count_frames (allocated s')).
  change (countb (eligible s') (seqZ 0 FRAME_COUNT)) with
    (countb (fun f => eligible s' f) (seqZ 0 FRAME_COUNT)).
  rewrite Hc1, Hc2, Hh. cbn. rewrite Ha, Hb.
  rewrite !u64_small by (unfold is_u64, UINT64_MAX; lia).
  split; f_equal; lia.
Qed.
End counting.

(** * The invariant *)

Section invariant.
Context {L : PhysicalLayout}.

Definition record_first (r : contiguous_record) : Z :=
  r.(physical_base) / SAPOTE_PAGE_SIZE.
Definition in_record (r : contiguous_record) (f : Z) : Prop :=
  record_first r <= f < record_first r + r.(page_count).

Record record_ok (s : allocator) (r : contiguous_record) : Prop := {
  ro_base : r.(physical_base) = record_first r * SAPOTE_PAGE_SIZE;
  ro_first : 0 <= record_first r;
  ro_count : 1 <= r.(page_count);
  ro_end : record_first r + r.(page_count) <= FRAME_COUNT;
  ro_frames : forall f, in_record r f -> allocated s f = true
}.

Definition record_at (s : allocator) (i : Z) : contiguous_record :=
  aget empty_record s.(contiguous_records) i.

(** What holds of an initialized allocator between operations. *)
Record inv (s : allocator) : Prop := {
  inv_eligible : bitmap_ok s.(eligible_bitmap);
  inv_used : bitmap_ok s.(used_bitmap);
  inv_reserved : forall f, 0 <= f < FRAME_COUNT -> eligible s f = false ->
                 used s f = true;
  inv_stats : s.(allocator_stats) = recount s;
  inv_search : 0 <= s.(next_search_index) < FRAME_COUNT;
  inv_records : zlength s.(contiguous_records) = FRAME_CONTIGUOUS_ALLOCATION_CAPACITY;
  inv_record : forall i, 0 <= i < FRAME_CONTIGUOUS_ALLOCATION_CAPACITY ->
    (record_at s i).(active) = true -> record_ok s (record_at s i);
  inv_disjoint : forall i j f,
    0 <= i < FRAME_CONTIGUOUS_ALLOCATION_CAPACITY ->
    0 <= j < FRAME_CONTIGUOUS_ALLOCATION_CAPACITY ->
    (record_at s i).(active) = true -> (record_at s j).(active) = true ->
    in_record (record_at s i) f -> in_record (record_at s j) f -> i = j
}.

Definition wf (s : allocator) : Prop := s.(allocator_initialized) = true -> inv s.

Lemma available_bits s f :
  frame_available s f = true <-> eligible s f = true /\ used s f = false.
Proof.
  unfold frame_available. fold (eligible s f) (used s f).
  rewrite andb_true_iff, negb_true_iff. done.
Qed.

Lemma allocated_bits s f :
  allocated s f = true <-> eligible s f = true /\ used s f = true.
Proof. unfold allocated. apply andb_true_iff. Qed.

Lemma in_record_range s r f :
  record_ok s r -> in_record r f -> 0 <= f < FRAME_COUNT.
Proof. intros [] H. unfold in_record in H. lia. Qed.

Lemma search_frame_spec s step :
  0 <= s.(next_search_index) < FRAME_COUNT -> 0 <= step < FRAME_COUNT ->
  search_frame s step = (s.(next_search_index) + step) mod FRAME_COUNT /\
  0 <= search_frame s step < FRAME_COUNT.
Proof.
  intros Hn Hs. pose proof frame_count_range. unfold search_frame.
  rewrite u64_small by (unfold is_u64, UINT64_MAX; lia).
  split_if; bool_hyps.
  - split; [|lia]. apply (Z.mod_unique _ _ 1); lia.
  - split; [|lia]. symmetry. apply Z.mod_small. lia.
Qed.

(** Every frame is examined at exactly one step of the search. *)
Lemma search_frame_onto s f :
  0 <= s.(next_search_index) < FRAME_COUNT -> 0 <= f < FRAME_COUNT ->
  exists step, 0 <= step < FRAME_COUNT /\ search_frame s step = f.
Proof.
  intros Hn Hf. pose proof frame_count_range.
  destruct (decide (s.(next_search_index) <= f)).
  - exists (f - s.(next_search_index)). split; [lia|].
    destruct (search_frame_spec s (f - s.(next_search_index))) as [-> _]; [lia..|].
    rewrite Z.mod_small; lia.
  - exists (f - s.(next_search_index) + FRAME_COUNT). split; [lia|].
    destruct (search_frame_spec s (f - s.(next_search_index) + FRAME_COUNT))
      as [-> _]; [lia..|].
    symmetry. apply (Z.mod_unique _ _ 1); lia.
Qed.

Lemma free_frames_count s :
  inv s -> s.(allocator_stats).(free_frames) = count_frames (frame_available s).
Proof. intros H. rewrite (inv_stats _ H), recount_counted. done. Qed.

Lemma free_frames_zero s f :
  inv s -> s.(allocator_stats).(free_frames) = 0 -> 0 <= f < FRAME_COUNT ->
  frame_available s f = false.
Proof.
  intros Hi H0 Hf. rewrite free_frames_count in H0 by done.
  apply countb_zero in H0. rewrite Forall_forall in H0. apply H0, elem_of_seqZ. lia.
Qed.

(** Two states with the same bits on the frames of active records agree on
    which records are sound. *)
Lemma record_ok_keep s s' r :
  (forall f, in_record r f -> allocated s' f = allocated s f) ->
  record_ok s r -> record_ok s' r.
Proof. intros Hb []. split; try done. intros f Hf. rewrite Hb; auto. Qed.

(** An active record's frame is never available. *)
Lemma record_frame_unavailable s i f :
  inv s -> 0 <= i < FRAME_CONTIGUOUS_ALLOCATION_CAPACITY ->
  (record_at s i).(active) = true -> in_record (record_at s i) f ->
  frame_available s f = false.
Proof.
  intros Hi Hr Ha Hf. pose proof (ro_frames _ _ (inv_record _ Hi i Hr Ha) f Hf) as H.
  apply allocated_bits in H as [_ H]. unfold frame_available.
  fold (used s f). by rewrite H, andb_false_r.
Qed.

(** Taking a run of available frames: the part of the invariant that does not
    mention the record table. *)
Lemma take_frames s s' first n :
  inv s -> 0 <= first -> 0 <= n -> first + n <= FRAME_COUNT ->
  (forall f, first <= f < first + n -> frame_available s f = true) ->
  s'.(eligible_bitmap) = s.(eligible_bitmap) ->
  s'.(used_bitmap) = bitmap_set_range s.(used_bitmap) first (first + n) true ->
  bitmap_ok s'.(used_bitmap) /\
  (forall f, 0 <= f -> used s' f =
     if (first <=? f) && (f <? first + n) then true else used s f) /\
  recount s' = stats_take (recount s) n.
Proof.
  intros Hi Hf Hn Hle Hav He Hu.
  destruct (bitmap_set_range_spec s.(used_bitmap) first (first + n) true)
    as [Hok Hget]; [apply Hi|done|done|].
  assert (forall f, 0 <= f -> used s' f =
     if (first <=? f) && (f <? first + n) then true else used s f) as Hus.
  { intros f Hf0. unfold used. rewrite Hu. by apply Hget. }
  rewrite Hu. split_and!; [done|done|].
  apply (recount_take s s' first n); try done.
  - intros f _. unfold eligible. by rewrite He.
  - intros f Hr. apply Hus. lia.
Qed.

Lemma give_frames s s' first n :
  inv s -> 0 <= first -> 0 <= n -> first + n <= FRAME_COUNT ->
  (forall f, first <= f < first + n -> allocated s f = true) ->
  s'.(eligible_bitmap) = s.(eligible_bitmap) ->
  s'.(used_bitmap) = bitmap_set_range s.(used_bitmap) first (first + n) false ->
  bitmap_ok s'.(used_bitmap) /\
  (forall f, 0 <= f -> used s' f =
     if (first <=? f) && (f <? first + n) then false else used s f) /\
  recount s' = stats_give (recount s) n.
Proof.
  intros Hi Hf Hn Hle Hal He Hu.
  destruct (bitmap_set_range_spec s.(used_bitmap) first (first + n) false)
    as [Hok Hget]; [apply Hi|done|done|].
  assert (forall f, 0 <= f -> used s' f =
     if (first <=? f) && (f <? first + n) then false else used s f) as Hus.
  { intros f Hf0. unfold used. rewrite Hu. by apply Hget. }
  rewrite Hu. split_and!; [done|done|].
  apply (recount_take s' s first n); try done.
  - intros f _. unfold eligible. by rewrite He.
  - intros f Hr. rewrite Hus by lia.
    destruct (first <=? f) eqn:?, (f <? first + n) eqn:?; try done. simpl.
    bool_hyps. specialize (Hal f ltac:(lia)). by apply allocated_bits in Hal as [_ ->].
  - intros f Hr. apply available_bits. specialize (Hal f Hr).
    apply allocated_bits in Hal as [He' _]. unfold eligible. rewrite He.
    split; [done|]. rewrite Hus by lia.
    destruct (first <=? f) eqn:?, (f <? first + n) eqn:?; bool_hyps; done || lia.
Qed.

Lemma bitmap_set_one bm f v :
  bitmap_set bm f v = bitmap_set_range bm f (f + 1) v.
Proof.
  unfold bitmap_set_range. replace (f + 1 - f) with 1 by lia.
  rewrite seqZ_cons by lia. by rewrite seqZ_nil by lia.
Qed.

(** Taking a run keeps the invariant, whether the run goes to an anonymous
    owner (the table is unchanged) or to the record at [slot]. *)
Lemma inv_take s s' first n slot :
  inv s -> 0 <= first -> 1 <= n -> first + n <= FRAME_COUNT ->
  (forall f, first <= f < first + n -> frame_available s f = true) ->
  s'.(eligible_bitmap) = s.(eligible_bitmap) ->
  s'.(used_bitmap) = bitmap_set_range s.(used_bitmap) first (first + n) true ->
  s'.(allocator_stats) = stats_take s.(allocator_stats) n ->
  0 <= s'.(next_search_index) < FRAME_COUNT ->
  zlength s'.(contiguous_records) = FRAME_CONTIGUOUS_ALLOCATION_CAPACITY ->
  (forall i, 0 <= i < FRAME_CONTIGUOUS_ALLOCATION_CAPACITY ->
     (record_at s' i).(active) = true ->
     record_at s' i = record_at s i \/
     (i = slot /\ (record_at s' i).(physical_base) = first * SAPOTE_PAGE_SIZE /\
      (record_at s' i).(page_count) = n)) ->
  inv s'.
Proof.
  intros Hi Hf Hn Hle Hav He Hu Hst Hse Hlen Hrec.
  destruct (take_frames s s' first n) as (Hok & Hus & Hre); try done; [lia|].
  assert (forall f, eligible s' f = eligible s f) as Hel.
  { intros f. unfold eligible. by rewrite He. }
  assert (forall i f, 0 <= i < FRAME_CONTIGUOUS_ALLOCATION_CAPACITY ->
    (record_at s i).(active) = true -> in_record (record_at s i) f ->
    ~ first <= f < first + n) as Hold.
  { intros i f Hr Ha Hin Hb. pose proof (record_frame_unavailable s i f Hi Hr Ha Hin).
    rewrite Hav in *; done. }
  assert (forall r, r.(physical_base) = first * SAPOTE_PAGE_SIZE ->
    record_first r = first) as Hfirst.
  { intros r Hr. unfold record_first. rewrite Hr. by apply Z.div_mul. }
  split; try done.
  - rewrite He. apply Hi.
  - intros f Hr. rewrite Hel, Hus by lia. intros Hne. split_if; [done|].
    by apply (inv_reserved _ Hi).
  - by rewrite Hst, Hre, (inv_stats _ Hi).
  - intros i Hr Ha. destruct (Hrec i Hr Ha) as [E|(-> & Hb & Hc)].
    + rewrite E in *. apply (record_ok_keep s); [|by apply Hi].
      intros f Hin. unfold allocated. rewrite Hel.
      pose proof (in_record_range _ _ _ (inv_record _ Hi i Hr Ha) Hin).
      rewrite Hus by lia. specialize (Hold i f Hr Ha Hin).
      destruct (first <=? f) eqn:?, (f <? first + n) eqn:?; bool_hyps; done || lia.
    + specialize (Hfirst _ Hb). split; rewrite ?Hfirst, ?Hc; try done.
      intros f. unfold in_record. rewrite Hfirst, Hc. intros Hin.
      apply allocated_bits. specialize (Hav f Hin). apply available_bits in Hav.
      rewrite Hel, Hus by lia. split; [apply Hav|].
      destruct (first <=? f) eqn:?, (f <? first + n) eqn:?; bool_hyps; done || lia.
  - intros i j f Hri Hrj Hai Haj.
    destruct (Hrec i Hri Hai) as [Ei|(-> & Hbi & Hci)],
      (Hrec j Hrj Haj) as [Ej|(-> & Hbj & Hcj)]; try done.
    + rewrite Ei, Ej in *. by apply (inv_disjoint _ Hi).
    + rewrite Ei in *. intros Hini. unfold in_record at 1.
      rewrite (Hfirst _ Hbj), Hcj. intros Hin. by destruct (Hold i f Hri Hai Hini).
    + rewrite Ej in *. unfold in_record at 1. rewrite (Hfirst _ Hbi), Hci.
      intros Hin Hinj. by destruct (Hold j f Hrj Haj Hinj).
Qed.

(** Giving a run back keeps the invariant when no record that stays active
    holds a frame of it. *)
Lemma inv_give s s' first n :
  inv s -> 0 <= first -> 0 <= n -> first + n <= FRAME_COUNT ->
  (forall f, first <= f < first + n -> allocated s f = true) ->
  s'.(eligible_bitmap) = s.(eligible_bitmap) ->
  s'.(used_bitmap) = bitmap_set_range s.(used_bitmap) first (first + n) false ->
  s'.(allocator_stats) = stats_give s.(allocator_stats) n ->
  0 <= s'.(next_search_index) < FRAME_COUNT ->
  zlength s'.(contiguous_records) = FRAME_CONTIGUOUS_ALLOCATION_CAPACITY ->
  (forall i, 0 <= i < FRAME_CONTIGUOUS_ALLOCATION_CAPACITY ->
     (record_at s' i).(active) = true -> record_at s' i = record_at s i /\
     forall f, in_record (record_at s i) f -> ~ first <= f < first + n) ->
  inv s'.
Proof.
  intros Hi Hf Hn Hle Hal He Hu Hst Hse Hlen Hrec.
  destruct (give_frames s s' first n) as (Hok & Hus & Hre); try done.
  assert (forall f, eligible s' f = eligible s f) as Hel.
  { intros f. unfold eligible. by rewrite He. }
  split; try done.
  - rewrite He. apply Hi.
  - intros f Hr. rewrite Hel, Hus by lia. intros Hne. split_if.
    + bool_hyps. specialize (Hal f ltac:(lia)). apply allocated_bits in Hal as [? _].
      congruence.
    + by apply (inv_reserved _ Hi).
  - by rewrite Hst, Hre, (inv_stats _ Hi).
  - intros i Hr Ha. destruct (Hrec i Hr Ha) as [E Hno]. rewrite E in *.
    apply (record_ok_keep s); [|by apply Hi].
    intros f Hin. unfold allocated. rewrite Hel.
    pose proof (in_record_range _ _ _ (inv_record _ Hi i Hr Ha) Hin).
    rewrite Hus by lia. specialize (Hno f Hin).
    destruct (first <=? f) eqn:?, (f <? first + n) eqn:?; bool_hyps; done || lia.
  - intros i j f Hri Hrj Hai Haj. destruct (Hrec i Hri Hai) as [Ei _],
      (Hrec j Hrj Haj) as [Ej _]. rewrite Ei, Ej in *. by apply (inv_disjoint _ Hi).
Qed.
End invariant.

(** * The operations *)

Section operations.
Context {L : PhysicalLayout}.

(** How many frames the search passes before it reaches [f]. *)
Definition search_distance (s : allocator) (f : Z) : Z :=
  (f - s.(next_search_index)) mod FRAME_COUNT.

Lemma search_distance_step s step :
  0 <= s.(next_search_index) < FRAME_COUNT -> 0 <= step < FRAME_COUNT ->
  search_distance s (search_frame s step) = step.
Proof.
  intros Hn Hs. destruct (search_frame_spec s step Hn Hs) as [-> _].
  unfold search_distance. rewrite Zminus_mod_idemp_l.
  replace (_ + step - _) with step by lia. by apply Z.mod_small.
Qed.

Lemma frame_allocate_spec s :
  inv s -> s.(allocator_initialized) = true ->
  match frame_allocate true s with
  | (FRAME_STATUS_OK, Some a, s') =>
      exists f, a = f * SAPOTE_PAGE_SIZE /\ 0 <= f < FRAME_COUNT /\
        frame_available s f = true /\
        (forall g, 0 <= g < FRAME_COUNT -> frame_available s g = true ->
           search_distance s f <= search_distance s g) /\
        s'.(allocator_initialized) = true /\
        s'.(contiguous_records) = s.(contiguous_records) /\
        s'.(next_contiguous_identifier) = s.(next_contiguous_identifier) /\
        (forall g, eligible s' g = eligible s g) /\
        (forall g, 0 <= g -> used s' g = if f =? g then true else used s g) /\
        inv s'
  | (FRAME_STATUS_OUT_OF_MEMORY, None, s') =>
      s' = s /\ forall g, 0 <= g < FRAME_COUNT -> frame_available s g = false
  | _ => False
  end.
Proof.
  intros Hi Hinit. unfold frame_allocate. rewrite Hinit. cbn [negb].
  split_if; [bool_hyps; split; [done|]; intros; by apply free_frames_zero|].
  rewrite (for_each_scan (fun step => frame_available s (search_frame s step))).
  pose proof (inv_search _ Hi) as Hse. pose proof frame_count_range.
  destruct (List.find _ _) as [step|] eqn:E; cycle 1.
  { split; [done|]. intros g Hg. destruct (search_frame_onto s g Hse Hg)
      as (step & Hs & <-). rewrite find_seqZ_None in E. apply E. lia. }
  apply find_seqZ_Some in E as (Hs & Hav & Hmin).
  destruct (search_frame_spec s step Hse ltac:(lia)) as [_ Hf].
  rewrite Z.add_0_l in Hs. exists (search_frame s step).
  set (f := search_frame s step) in *. set (next := if f + 1 =? FRAME_COUNT then 0 else f + 1).
  assert (0 <= next < FRAME_COUNT) as Hnext.
  { subst next. split_if; bool_hyps; lia. }
  split_and!; try done; try lia.
  - intros g Hg Hga. destruct (search_frame_onto s g Hse Hg) as (k & Hk & <-).
    subst f. rewrite !search_distance_step by (done || lia).
    destruct (decide (step <= k)); [done|]. rewrite Hmin in Hga by lia. done.
  - intros g Hg. unfold used. cbn. apply bitmap_get_set; [apply Hi|done|done].
  - apply (inv_take s _ f 1 0); try done; try lia.
    + intros g Hg. by replace g with f by lia.
    + cbn. apply bitmap_set_one.
    + apply Hi.
    + intros i _ _. by left.
Qed.

Lemma in_contiguous_spec s f :
  inv s -> 0 <= f < FRAME_COUNT ->
  frame_in_contiguous_allocation s f = true <->
  exists i, 0 <= i < FRAME_CONTIGUOUS_ALLOCATION_CAPACITY /\
    (record_at s i).(active) = true /\ in_record (record_at s i) f.
Proof.
  intros Hi Hf. pose proof frame_count_range.
  unfold frame_in_contiguous_allocation. rewrite existsb_exists. split.
  - intros (r & Hr & Ht). apply list_elem_of_In, (elem_of_aget empty_record) in Hr
      as (i & Hri & <-). rewrite (inv_records _ Hi) in Hri.
    fold (record_at s i) in Ht |- *. bool_hyps. exists i. split_and!; try done; try lia.
    fold (record_first (record_at s i)) in *.
    pose proof (inv_record _ Hi i Hri ltac:(done)) as [].
    rewrite u64_small in * by (unfold is_u64, UINT64_MAX; lia).
    unfold in_record. lia.
  - intros (i & Hri & Ha & Hin). exists (record_at s i). split.
    + apply list_elem_of_In, (elem_of_aget empty_record). exists i.
      rewrite (inv_records _ Hi). done.
    + pose proof (inv_record _ Hi i Hri Ha) as []. unfold in_record in Hin.
      fold (record_first (record_at s i)). rewrite Ha. cbn.
      rewrite u64_small by (unfold is_u64, UINT64_MAX; lia).
      apply andb_true_iff. split; [apply Z.geb_le|apply Z.ltb_lt]; lia.
Qed.

Lemma page_aligned a :
  (Z.land a (SAPOTE_PAGE_SIZE - 1) =? 0) = true <->
  a = (a / SAPOTE_PAGE_SIZE) * SAPOTE_PAGE_SIZE.
Proof.
  change (SAPOTE_PAGE_SIZE - 1) with (2 ^ 12 - 1).
  rewrite land_low_mask by lia. change (2 ^ 12) with SAPOTE_PAGE_SIZE.
  rewrite Z.eqb_eq. pose proof (Z.div_mod a SAPOTE_PAGE_SIZE).
  unfold SAPOTE_PAGE_SIZE in *. lia.
Qed.

(** The status frame_release owes its caller, from the bits alone. *)
Definition release_status (s : allocator) (a : Z) : frame_status :=
  let f := a / SAPOTE_PAGE_SIZE in
  if negb (a mod SAPOTE_PAGE_SIZE =? 0) then FRAME_STATUS_UNALIGNED_ADDRESS
  else if a >=? early_limit then FRAME_STATUS_RANGE_OUTSIDE_LIMIT
  else if negb (eligible s f) then FRAME_STATUS_FRAME_NOT_ALLOCATABLE
  else if negb (used s f) then FRAME_STATUS_DOUBLE_FREE
  else if frame_in_contiguous_allocation s f then FRAME_STATUS_FRAME_IN_USE
  else FRAME_STATUS_OK.

Lemma frame_release_spec s a :
  inv s -> s.(allocator_initialized) = true -> is_u64 a ->
  let '(st, s') := frame_release a s in
  let f := a / SAPOTE_PAGE_SIZE in
  st = release_status s a /\
  (st <> FRAME_STATUS_OK -> s' = s) /\
  (st = FRAME_STATUS_OK ->
     0 <= f < FRAME_COUNT /\ a = f * SAPOTE_PAGE_SIZE /\ allocated s f = true /\
     s'.(allocator_initialized) = true /\
     s'.(contiguous_records) = s.(contiguous_records) /\
     (forall g, eligible s' g = eligible s g) /\
     (forall g, 0 <= g -> used s' g = if f =? g then false else used s g) /\
     inv s').
Proof.
  intros Hi Hinit Ha. unfold frame_release, release_status. rewrite Hinit. cbn [negb].
  assert (Z.land a (SAPOTE_PAGE_SIZE - 1) = a mod SAPOTE_PAGE_SIZE) as ->.
  { change (SAPOTE_PAGE_SIZE - 1) with (2 ^ 12 - 1). by rewrite land_low_mask by lia. }
  fold (eligible s (a / SAPOTE_PAGE_SIZE)) (used s (a / SAPOTE_PAGE_SIZE)).
  set (f := a / SAPOTE_PAGE_SIZE).
  do 5 (split_if; [by split_and!|]). split_and!; [done|done|]. intros _. bool_hyps.
  assert (a = f * SAPOTE_PAGE_SIZE) as Hav.
  { pose proof (Z.div_mod a SAPOTE_PAGE_SIZE). unfold SAPOTE_PAGE_SIZE in *. lia. }
  pose proof frame_count_limit.
  assert (0 <= f < FRAME_COUNT) as Hf.
  { unfold is_u64, SAPOTE_PAGE_SIZE in *. lia. }
  assert (allocated s f = true) as Hal by (by apply allocated_bits).
  split_and!; try done; try lia.
  - intros g Hg. unfold used. cbn. apply bitmap_get_set; [apply Hi|done|done].
  - apply (inv_give s _ f 1); try done; try lia.
    + intros g Hg. by replace g with f by lia.
    + cbn. apply bitmap_set_one.
    + cbn. pose proof (inv_search _ Hi). split_if; bool_hyps; lia.
    + apply Hi.
    + intros i Hr Hact. split; [done|]. intros g Hin Hg.
      assert (g = f) as -> by lia.
      assert (frame_in_contiguous_allocation s f = true); [|congruence].
      apply in_contiguous_spec; eauto.
Qed.

Lemma power_of_two_spec x :
  is_u64 x -> power_of_two x = true -> exists k, 0 <= k /\ x = 2 ^ k.
Proof.
  intros Hx H. unfold power_of_two in H. bool_hyps.
  rewrite u64_small in * by (unfold is_u64 in *; lia).
  exists (Z.log2 x). split; [apply Z.log2_nonneg|].
  assert (0 < x) as Hpos by (unfold is_u64 in *; lia).
  pose proof (Z.log2_spec x Hpos) as [Hlo Hhi]. set (k := Z.log2 x) in *.
  destruct (decide (x = 2 ^ k)) as [|Hne]; [done|]. exfalso.
  assert (0 <= k) by apply Z.log2_nonneg.
  assert (Z.log2 (x - 1) = k) as Hk by (apply Z.log2_unique; lia).
  apply (f_equal (fun z => Z.testbit z k)) in H0.
  rewrite Z.land_spec, Z.bits_0 in H0. subst k.
  rewrite Z.bit_log2 in H0 by lia. rewrite <- Hk in H0 at 1.
  pose proof (Z.pow_pos_nonneg 2 (Z.log2 x)).
  rewrite Z.bit_log2 in H0 by lia. done.
Qed.

Lemma aligned_mask a k : 0 <= k -> (Z.land a (2 ^ k - 1) =? 0) = (a mod 2 ^ k =? 0).
Proof. intros. by rewrite land_low_mask. Qed.

Lemma run_available_spec s first n :
  run_available s first n = true <->
  forall f, first <= f < first + n -> frame_available s f = true.
Proof.
  unfold run_available. rewrite forallb_forall. split.
  - intros H f Hf. specialize (H (f - first)). rewrite Zplus_minus in H. apply H.
    apply list_elem_of_In, elem_of_seqZ. lia.
  - intros H o Ho%list_elem_of_In%elem_of_seqZ. apply H. lia.
Qed.

(** The bound a request puts on the last byte it accepts, as a frame count. *)
Definition request_frames (rq : frame_contiguous_request) : Z :=
  Z.min early_limit (rq.(rq_maximum_physical_address) + 1) / SAPOTE_PAGE_SIZE.

(** A place for the request: aligned, below its bound, every frame available. *)
Definition run_fits (s : allocator) (rq : frame_contiguous_request) (first : Z) : Prop :=
  0 <= first /\ first + rq.(rq_page_count) <= request_frames rq /\
  (first * SAPOTE_PAGE_SIZE) mod rq.(rq_alignment) = 0 /\
  run_available s first rq.(rq_page_count) = true.

Record request_ok (rq : frame_contiguous_request) : Prop := {
  rk_count : is_u64 rq.(rq_page_count);
  rk_alignment : is_u64 rq.(rq_alignment);
  rk_maximum : is_u64 rq.(rq_maximum_physical_address)
}.

Lemma contiguous_search_spec s rq m :
  is_u64 rq.(rq_alignment) -> power_of_two rq.(rq_alignment) = true ->
  0 <= rq.(rq_page_count) <= m -> m = request_frames rq -> m <= FRAME_COUNT ->
  match contiguous_search s rq m with
  | Return first => run_fits s rq first /\
      forall g, 0 <= g < first -> ~ run_fits s rq g
  | Next _ => forall g, ~ run_fits s rq g
  end.
Proof.
  intros Hal Hp Hm Hmeq Hmax. pose proof frame_count_range.
  destruct (power_of_two_spec _ Hal Hp) as (k & Hk & Ek).
  pose proof (Z.pow_pos_nonneg 2 k).
  unfold contiguous_search. rewrite (u64_small (m - _)) by (unfold is_u64, UINT64_MAX; lia).
  set (p first := (first * SAPOTE_PAGE_SIZE) mod rq.(rq_alignment) =? 0).
  rewrite (for_each_ext (fun _ => True) _ (fun first (_ : unit) =>
    if p first && run_available s first rq.(rq_page_count) then Return first
    else Next tt)); try done.
  2: { intros f [] Hf%elem_of_seqZ _. subst p. cbv beta.
       rewrite u64_small by (unfold is_u64, UINT64_MAX, SAPOTE_PAGE_SIZE; lia).
       rewrite (u64_small (_ - 1)) by (unfold is_u64 in *; lia).
       rewrite Ek, aligned_mask by done.
       destruct (_ mod _ =? 0); simpl; done. }
  rewrite for_each_scan. rewrite Z.add_1_r.
  assert (forall g, run_fits s rq g -> 0 <= g < Z.succ (m - rq.(rq_page_count)) /\
    p g && run_available s g (rq_page_count rq) = true) as Hfit.
  { intros g (Hg & Hle & Ha & Hr). split; [lia|]. subst p. cbv beta.
    rewrite Ha, Hr. done. }
  destruct (List.find _ _) as [first|] eqn:E.
  - apply find_seqZ_Some in E as (Hf & Hpf & Hmin). subst p. cbv beta in *. bool_hyps.
    split.
    + split_and!; try done; lia.
    + intros g Hg Hrun. destruct (Hfit g Hrun) as [_ Hg2]. rewrite Hmin in Hg2 by lia.
      done.
  - intros g Hrun. destruct (Hfit g Hrun) as [Hr Hg2].
    rewrite find_seqZ_None in E. rewrite E in Hg2 by lia. done.
Qed.

Lemma request_frames_code rq :
  request_ok rq ->
  let maximum := rq.(rq_maximum_physical_address) in
  let bound_end := if maximum =? UINT64_MAX then UINT64_MAX else u64 (maximum + 1) in
  (if bound_end >? early_limit then early_limit else bound_end) / SAPOTE_PAGE_SIZE =
  request_frames rq.
Proof.
  intros [_ _ Hm]. cbv zeta. unfold request_frames. pose proof early_limit_high.
  unfold is_u64, UINT64_MAX, Multiboot2.SAPOTE_EARLY_PHYSICAL_LIMIT in *.
  f_equal. destruct (rq_maximum_physical_address rq =? _) eqn:E; bool_hyps.
  - rewrite E. split_if; bool_hyps; lia.
  - rewrite u64_small by (unfold is_u64, UINT64_MAX; lia). split_if; bool_hyps; lia.
Qed.

Lemma request_frames_max rq : request_frames rq <= FRAME_COUNT.
Proof.
  unfold request_frames, FRAME_COUNT. apply Z.div_le_mono; [done|lia].
Qed.

(** What a successful contiguous allocation did. *)
Record contiguous_taken (s : allocator) (rq : frame_contiguous_request)
    (al : frame_contiguous_allocation) (s' : allocator) (first slot : Z) : Prop := {
  ct_fits : run_fits s rq first;
  ct_lowest : forall g, 0 <= g < first -> ~ run_fits s rq g;
  ct_handle : al = MkAllocation (first * SAPOTE_PAGE_SIZE) rq.(rq_page_count)
                rq.(rq_alignment) rq.(rq_maximum_physical_address)
                s.(next_contiguous_identifier) true;
  ct_slot : 0 <= slot < FRAME_CONTIGUOUS_ALLOCATION_CAPACITY;
  ct_free : (record_at s slot).(active) = false;
  ct_records : s'.(contiguous_records) =
    aset s.(contiguous_records) slot
      (MkRecord (first * SAPOTE_PAGE_SIZE) rq.(rq_page_count)
         s.(next_contiguous_identifier) true);
  ct_initialized : s'.(allocator_initialized) = true;
  ct_eligible : forall g, eligible s' g = eligible s g;
  ct_used : forall g, 0 <= g -> used s' g =
    if (first <=? g) && (g <? first + rq.(rq_page_count)) then true else used s g;
  ct_inv : inv s'
}.

Lemma take_run_inv s rq first slot next next_id :
  inv s -> s.(allocator_initialized) = true -> 1 <= rq.(rq_page_count) ->
  run_fits s rq first ->
  0 <= slot < FRAME_CONTIGUOUS_ALLOCATION_CAPACITY ->
  0 <= next < FRAME_COUNT ->
  let n := rq.(rq_page_count) in
  let rs := aset s.(contiguous_records) slot
    (MkRecord (first * SAPOTE_PAGE_SIZE) n s.(next_contiguous_identifier) true) in
  let s' := MkAllocator s.(eligible_bitmap)
    (bitmap_set_range s.(used_bitmap) first (first + n) true)
    (stats_take s.(allocator_stats) n) next s.(allocator_initialized) rs next_id in
  inv s'.
Proof.
  intros Hi Hinit Hn Hfit Hslot Hnext n rs s'. destruct Hfit as (Hf & Hle & _ & Hrun).
  pose proof (request_frames_max rq).
  apply (inv_take s s' first n slot); try done; try lia.
  - by apply run_available_spec.
  - cbn. subst rs. autorewrite with sapote. apply Hi.
  - intros i Hr. unfold record_at. cbn. subst rs.
    rewrite aget_aset by (rewrite ?(inv_records _ Hi); lia).
    destruct (slot =? i) eqn:?; bool_hyps; [right|by left]. by subst.
Qed.

Lemma frame_allocate_contiguous_spec s rq dest :
  inv s -> s.(allocator_initialized) = true -> request_ok rq ->
  let '(st, al, s') := frame_allocate_contiguous (Some rq) (Some dest) s in
  (st <> FRAME_STATUS_OK -> s' = s /\ al = Some empty_allocation) /\
  (st = FRAME_STATUS_OUT_OF_MEMORY -> forall g, ~ run_fits s rq g) /\
  (st = FRAME_STATUS_OK -> exists h first slot,
     al = Some h /\ contiguous_taken s rq h s' first slot).
Proof.
  intros Hi Hinit Hrq. unfold frame_allocate_contiguous. rewrite Hinit. cbn [negb].
  destruct Hrq as [Hc Hal Hmax] eqn:Erq.
  do 5 (split_if; [by split_and!|]).
  rewrite request_frames_code by done.
  set (m := request_frames rq). split_if; [by split_and!|].
  destruct (find_index _ _) as [slot|] eqn:Eslot; [|by split_and!].
  apply (find_index_Some empty_record) in Eslot as (Hslot & Hfree & _).
  rewrite (inv_records _ Hi) in Hslot. bool_hyps.
  pose proof (request_frames_max rq) as Hmm. fold m in Hmm.
  pose proof (contiguous_search_spec s rq m) as Hs.
  destruct (contiguous_search s rq m) as [|first].
  { split_and!; try done. intros _. apply Hs; unfold is_u64 in *; done || lia. }
  destruct Hs as [Hfit Hlow]; [unfold is_u64 in *; done || lia..|].
  split_and!; [done|done|]. intros _.
  pose proof frame_count_range.
  destruct Hfit as (Hf & Hle & Hrest) eqn:Efit. unfold is_u64 in Hc.
  rewrite (u64_small (first * _)) by (unfold is_u64, UINT64_MAX, SAPOTE_PAGE_SIZE; lia).
  eexists _, first, slot. split; [done|]. split; try done.
  - intros g Hg. unfold used. cbn.
    apply bitmap_set_range_spec; [apply Hi|done|lia|done].
  - apply (take_run_inv s rq first slot); try done; try lia.
    split_if; bool_hyps; lia.
Qed.

(** What a successful contiguous release did. *)
Record contiguous_given (s : allocator) (al al' : frame_contiguous_allocation)
    (s' : allocator) (slot : Z) : Prop := {
  cg_slot : 0 <= slot < FRAME_CONTIGUOUS_ALLOCATION_CAPACITY;
  cg_record : record_at s slot = MkRecord al.(al_physical_base) al.(al_page_count)
                al.(al_identifier) true;
  cg_records : s'.(contiguous_records) =
    aset s.(contiguous_records) slot
      (MkRecord al.(al_physical_base) al.(al_page_count) al.(al_identifier) false);
  cg_handle : al' = MkAllocation al.(al_physical_base) al.(al_page_count)
                al.(al_alignment) al.(al_maximum_physical_address)
                al.(al_identifier) false;
  cg_initialized : s'.(allocator_initialized) = true;
  cg_next_id : s'.(next_contiguous_identifier) = s.(next_contiguous_identifier);
  cg_eligible : forall g, eligible s' g = eligible s g;
  cg_used : forall g, 0 <= g ->
    let first := al.(al_physical_base) / SAPOTE_PAGE_SIZE in
    used s' g =
    if (first <=? g) && (g <? first + al.(al_page_count)) then false else used s g;
  cg_inv : inv s'
}.

Lemma record_frames_allocated s i :
  inv s -> 0 <= i < FRAME_CONTIGUOUS_ALLOCATION_CAPACITY ->
  (record_at s i).(active) = true ->
  forallb (fun offset =>
    bitmap_get s.(eligible_bitmap) (record_first (record_at s i) + offset) &&
    bitmap_get s.(used_bitmap) (record_first (record_at s i) + offset))
    (seqZ 0 (record_at s i).(page_count)) = true.
Proof.
  intros Hi Hr Ha. apply forallb_forall. intros o Ho%list_elem_of_In%elem_of_seqZ.
  apply (ro_frames _ _ (inv_record _ Hi i Hr Ha)). unfold in_record. lia.
Qed.

Lemma give_run_inv s slot next r' :
  inv s -> 0 <= slot < FRAME_CONTIGUOUS_ALLOCATION_CAPACITY ->
  (record_at s slot).(active) = true -> r'.(active) = false ->
  0 <= next < FRAME_COUNT ->
  let r := record_at s slot in
  let s' := MkAllocator s.(eligible_bitmap)
    (bitmap_set_range s.(used_bitmap) (record_first r)
       (record_first r + r.(page_count)) false)
    (stats_give s.(allocator_stats) r.(page_count)) next s.(allocator_initialized)
    (aset s.(contiguous_records) slot r') s.(next_contiguous_identifier) in
  inv s'.
Proof.
  intros Hi Hslot Ha Hr' Hnext r s'.
  pose proof (inv_record _ Hi slot Hslot Ha) as [Hb Hf Hc He Hfr]. fold r in Hb, Hf, Hc, He, Hfr.
  apply (inv_give s s' (record_first r) r.(page_count)); try done; try lia.
  - cbn. autorewrite with sapote. apply Hi.
  - intros i Hri. unfold record_at. cbn.
    rewrite aget_aset by (rewrite ?(inv_records _ Hi); lia).
    destruct (slot =? i) eqn:E; bool_hyps; [congruence|]. intros Hai. split; [done|].
    intros f Hin Hin'. apply E. by apply (inv_disjoint _ Hi slot i f).
Qed.

Lemma frame_release_contiguous_spec s al :
  inv s -> s.(allocator_initialized) = true ->
  let '(st, al', s') := frame_release_contiguous (Some al) s in
  (st <> FRAME_STATUS_OK -> s' = s /\ al' = Some al) /\
  (st = FRAME_STATUS_OK -> al.(al_active) = true /\
     exists h slot, al' = Some h /\ contiguous_given s al h s' slot).
Proof.
  intros Hi Hinit. unfold frame_release_contiguous. rewrite Hinit. cbn [negb].
  destruct al.(al_active) eqn:Hact; cbn [negb]; [|done].
  destruct (find_index _ _) as [slot|] eqn:E; [|done].
  apply (find_index_Some empty_record) in E as (Hslot & Hm & _).
  rewrite (inv_records _ Hi) in Hslot. fold (record_at s slot) in Hm |- *.
  split_if; [done|]. fold (record_first (record_at s slot)). bool_hyps.
  rewrite record_frames_allocated by done. cbn [negb]. split; [done|]. intros _.
  split; [done|].
  assert (record_at s slot = MkRecord al.(al_physical_base) al.(al_page_count)
                al.(al_identifier) true) as Er.
  { destruct (record_at s slot); simpl in *; congruence. }
  assert (record_first (record_at s slot) = al.(al_physical_base) / SAPOTE_PAGE_SIZE)
    as Ef by (unfold record_first; by rewrite Er).
  pose proof (inv_record _ Hi slot Hslot ltac:(done)) as [].
  pose proof (inv_search _ Hi).
  eexists _, slot. split; [done|]. split; try done.
  - cbn. by rewrite Er.
  - intros g Hg. unfold used. cbn. rewrite Er in *. cbn in *.
    unfold record_first in *. cbn in *.
    apply bitmap_set_range_spec; [apply Hi|done|done|done].
  - apply (give_run_inv s slot); try done. cbn [next_search_index set_search].
    split_if; bool_hyps; cbn [next_search_index set_search]; lia.
Qed.

(** Identifiers tell active records apart until the 64-bit counter wraps. *)
Definition ids_unique (s : allocator) : Prop :=
  forall i j, 0 <= i < FRAME_CONTIGUOUS_ALLOCATION_CAPACITY ->
    0 <= j < FRAME_CONTIGUOUS_ALLOCATION_CAPACITY ->
    (record_at s i).(active) = true -> (record_at s j).(active) = true ->
    (record_at s i).(identifier) = (record_at s j).(identifier) -> i = j.

Lemma frame_release_contiguous_live s al slot :
  inv s -> s.(allocator_initialized) = true -> ids_unique s ->
  al.(al_active) = true -> 0 <= slot < FRAME_CONTIGUOUS_ALLOCATION_CAPACITY ->
  record_at s slot = MkRecord al.(al_physical_base) al.(al_page_count)
                al.(al_identifier) true ->
  (frame_release_contiguous (Some al) s).1.1 = FRAME_STATUS_OK.
Proof.
  intros Hi Hinit Hids Hact Hslot Hr. unfold frame_release_contiguous.
  rewrite Hinit, Hact. cbn [negb].
  destruct (find_index _ _) as [slot'|] eqn:E.
  2: { exfalso. apply (find_index_None_aget empty_record _ _ slot) in E.
       - fold (record_at s slot) in E. rewrite Hr in E. cbn in E.
         by rewrite Z.eqb_refl in E.
       - by rewrite (inv_records _ Hi). }
  apply (find_index_Some empty_record) in E as (Hslot' & Hm & _).
  rewrite (inv_records _ Hi) in Hslot'. fold (record_at s slot') in Hm |- *. bool_hyps.
  assert (slot' = slot) as -> by (apply Hids; rewrite ?Hr; done).
  fold (record_first (record_at s slot)).
  rewrite record_frames_allocated by (rewrite ?Hr; done).
  rewrite Hr. cbn. by rewrite !Z.eqb_refl.
Qed.

(** * Ranges of physical addresses *)

(** Frame [f] shares a byte with [base, base + length). *)
Definition frame_overlaps (base length f : Z) : Prop :=
  f * SAPOTE_PAGE_SIZE < base + length /\ base < (f + 1) * SAPOTE_PAGE_SIZE /\
  0 < length.

Lemma checked_range_end_spec base length :
  is_u64 base -> is_u64 length ->
  checked_range_end base length =
  if base + length <=? UINT64_MAX then Some (base + length) else None.
Proof.
  unfold checked_range_end. intros Hb Hl.
  rewrite u64_small by (unfold is_u64 in *; lia).
  destruct (base + length <=? UINT64_MAX) eqn:E, (length >? UINT64_MAX - base) eqn:E2;
    bool_hyps; try done; try lia.
  by rewrite u64_small by (unfold is_u64 in *; lia).
Qed.

Lemma covering_spec base length :
  is_u64 base -> is_u64 length ->
  match covering_frame_bounds base length with
  | inl FRAME_STATUS_RANGE_OVERFLOW => UINT64_MAX < base + length
  | inl FRAME_STATUS_RANGE_OUTSIDE_LIMIT => early_limit <= base
  | inl _ => False
  | inr (first, past) =>
      base + length <= UINT64_MAX /\ 0 <= first /\ past <= FRAME_COUNT /\
      forall f, 0 <= f < FRAME_COUNT ->
        (first <= f < past <-> frame_overlaps base length f)
  end.
Proof.
  intros Hb Hl. unfold covering_frame_bounds, frame_overlaps.
  rewrite checked_range_end_spec by done. pose proof frame_count_range.
  pose proof frame_count_limit. unfold is_u64 in *.
  split_if; bool_hyps; [|done].
  split_if; bool_hyps; [split_and!; try lia|]. split_if; bool_hyps; [lia|].
  change (SAPOTE_PAGE_SIZE - 1) with (2 ^ 12 - 1).
  rewrite land_low_mask by lia. change (2 ^ 12) with SAPOTE_PAGE_SIZE.
  unfold SAPOTE_PAGE_SIZE in *. set (e := if _ <? _ then _ else _).
  assert (e = Z.min (base + length) early_limit) as He.
  { subst e. split_if; bool_hyps; lia. }
  pose proof (Z.div_mod base 4096). pose proof (Z.mod_pos_bound base 4096).
  pose proof (Z.div_mod e 4096). pose proof (Z.mod_pos_bound e 4096).
  split_if; bool_hyps; split_and!; try lia; intros f Hf; lia.
Qed.
End operations.

(** * Initialization *)

Section initialization.
Context {L : PhysicalLayout}.

(** Frame [f] lies whole inside [base, base + length). *)
Definition frame_inside (base length f : Z) : Prop :=
  base <= f * SAPOTE_PAGE_SIZE /\ (f + 1) * SAPOTE_PAGE_SIZE <= base + length.

Lemma available_spec base length :
  is_u64 base -> is_u64 length ->
  match available_frame_bounds base length with
  | inl st => st = FRAME_STATUS_RANGE_OVERFLOW /\ UINT64_MAX < base + length
  | inr (first, past) =>
      base + length <= UINT64_MAX /\ 0 <= first /\ past <= FRAME_COUNT /\
      forall f, 0 <= f < FRAME_COUNT ->
        (first <= f < past <-> frame_inside base length f)
  end.
Proof.
  intros Hb Hl. unfold available_frame_bounds, frame_inside.
  rewrite checked_range_end_spec by done. pose proof frame_count_range.
  pose proof frame_count_limit. pose proof early_limit_high.
  unfold is_u64, UINT64_MAX, Multiboot2.SAPOTE_EARLY_PHYSICAL_LIMIT in *.
  split_if; bool_hyps; [|done].
  destruct ((length =? 0) || (base >=? early_limit)) eqn:E.
  { unfold SAPOTE_PAGE_SIZE in *. bool_hyps. destruct E; bool_hyps; split_and!; lia. }
  bool_hyps. set (e := if _ <? _ then _ else _).
  assert (e = Z.min (base + length) early_limit) as He
    by (subst e; split_if; bool_hyps; lia).
  change (SAPOTE_PAGE_SIZE - 1) with (2 ^ 12 - 1).
  rewrite u64_small by (unfold is_u64, UINT64_MAX; lia).
  rewrite !land_high_mask by (unfold is_u64, UINT64_MAX; lia).
  change (2 ^ 12) with 4096. unfold SAPOTE_PAGE_SIZE in *.
  pose proof (Z.div_mod (base + (4096 - 1)) 4096).
  pose proof (Z.mod_pos_bound (base + (4096 - 1)) 4096).
  pose proof (Z.div_mod e 4096). pose proof (Z.mod_pos_bound e 4096).
  set (q := (base + (4096 - 1)) / 4096) in *. set (r := e / 4096) in *.
  replace (base + (4096 - 1) - _) with (q * 4096) by lia.
  replace (e - _) with (r * 4096) by lia.
  split_if; bool_hyps; [split_and!; lia|].
  rewrite !Z.div_mul by done. split_and!; lia.
Qed.

(** Before the allocator is handed out, a frame is used exactly when it is not
    eligible. *)
Record bits_ok (s : allocator) : Prop := {
  bo_eligible : bitmap_ok s.(eligible_bitmap);
  bo_used : bitmap_ok s.(used_bitmap);
  bo_bits : forall f, 0 <= f < FRAME_COUNT -> used s f = negb (eligible s f)
}.

(** The fields that marking frames leaves alone. *)
Definition rest_of (s : allocator) :=
  (s.(next_search_index), s.(allocator_initialized), s.(contiguous_records),
   s.(next_contiguous_identifier)).

Definition in_span (first past f : Z) : bool := (first <=? f) && (f <? past).

Lemma in_span_spec first past f : in_span first past f = true <-> first <= f < past.
Proof. unfold in_span. rewrite andb_true_iff, Z.leb_le, Z.ltb_lt. done. Qed.

Lemma mark_available_spec s first past :
  bits_ok s -> 0 <= first -> past <= FRAME_COUNT ->
  bits_ok (mark_available_frames s first past) /\
  rest_of (mark_available_frames s first past) = rest_of s /\
  forall f, 0 <= f -> eligible (mark_available_frames s first past) f =
    in_span first past f || eligible s f.
Proof.
  intros [He Hu Hb] Hf Hp.
  destruct (bitmap_set_range_spec s.(eligible_bitmap) first past true) as [Hok1 Hg1];
    [done..|].
  destruct (bitmap_set_range_spec s.(used_bitmap) first past false) as [Hok2 Hg2];
    [done..|].
  split_and!; [split; [done|done|]|done|].
  - intros f Hr. unfold used, eligible. cbn. rewrite Hg1, Hg2 by lia.
    split_if; [done|]. by apply Hb.
  - intros f Hr. unfold eligible. cbn. rewrite Hg1 by lia.
    unfold in_span. by destruct (_ && _).
Qed.

Lemma mark_reserved_spec s first past :
  bits_ok s -> 0 <= first -> past <= FRAME_COUNT ->
  bits_ok (mark_reserved_frames s first past) /\
  rest_of (mark_reserved_frames s first past) = rest_of s /\
  forall f, 0 <= f -> eligible (mark_reserved_frames s first past) f =
    negb (in_span first past f) && eligible s f.
Proof.
  intros [He Hu Hb] Hf Hp.
  destruct (bitmap_set_range_spec s.(eligible_bitmap) first past false) as [Hok1 Hg1];
    [done..|].
  destruct (bitmap_set_range_spec s.(used_bitmap) first past true) as [Hok2 Hg2];
    [done..|].
  split_and!; [split; [done|done|]|done|].
  - intros f Hr. unfold used, eligible. cbn. rewrite Hg1, Hg2 by lia.
    split_if; [done|]. by apply Hb.
  - intros f Hr. unfold eligible. cbn. rewrite Hg1 by lia.
    unfold in_span. by destruct (_ && _).
Qed.

(** Reserving a range takes exactly the frames that touch it. *)
Lemma reserve_internal_spec s base length s' :
  bits_ok s -> is_u64 base -> is_u64 length ->
  reserve_internal s base length = (FRAME_STATUS_OK, s') ->
  bits_ok s' /\ rest_of s' = rest_of s /\
  forall f, 0 <= f < FRAME_COUNT ->
    (eligible s' f = true <-> eligible s f = true /\ ~ frame_overlaps base length f).
Proof.
  intros Hs Hb Hl. unfold reserve_internal. pose proof (covering_spec base length Hb Hl)
    as Hc. destruct (covering_frame_bounds base length) as [st|[first past]].
  { destruct st; try done. }
  intros [= <-]. destruct Hc as (_ & Hf & Hp & Hiff).
  destruct (mark_reserved_spec s first past Hs Hf Hp) as (Hok & Hrest & Hel).
  split_and!; try done. intros f Hr.
  rewrite Hel, andb_true_iff, negb_true_iff, <- not_true_iff_false, in_span_spec, Hiff
    by lia. tauto.
Qed.

Lemma region_at_range m c i r :
  boot_information_region_at m c i = Some r ->
  is_u64 r.(base_address) /\ is_u64 r.(region_length).
Proof.
  unfold boot_information_region_at. destruct c.(memory_map); [|done].
  split_if; [done|]. intros [= <-]. split; apply Multiboot2.read_u64_range.
Qed.

(** Region [i] of the map offers, or withholds, frame [f]. *)
Definition offers (m : memory) (c : boot_information) (i f : Z) : Prop :=
  exists r, boot_information_region_at m c i = Some r /\
    r.(region_type) = MULTIBOOT2_MEMORY_AVAILABLE /\
    frame_inside r.(base_address) r.(region_length) f.
Definition withholds (m : memory) (c : boot_information) (i f : Z) : Prop :=
  exists r, boot_information_region_at m c i = Some r /\
    r.(region_type) <> MULTIBOOT2_MEMORY_AVAILABLE /\
    frame_overlaps r.(base_address) r.(region_length) f.

Lemma apply_region_spec m c pass i s :
  bits_ok s ->
  match apply_region m c pass i s with
  | Return r => r.1 <> FRAME_STATUS_OK
  | Next s' => bits_ok s' /\ rest_of s' = rest_of s /\
      forall f, 0 <= f < FRAME_COUNT ->
        (eligible s' f = true <->
         if pass =? 0 then eligible s f = true \/ offers m c i f
         else eligible s f = true /\ ~ withholds m c i f)
  end.
Proof.
  intros Hs. unfold apply_region, offers, withholds.
  destruct (boot_information_region_at m c i) as [r|] eqn:Er; [|done].
  destruct (region_at_range _ _ _ _ Er) as [Hb Hl].
  destruct (r.(region_type) =? MULTIBOOT2_MEMORY_AVAILABLE) eqn:Et, (pass =? 0) eqn:Ep;
    cbn [Bool.eqb negb]; bool_hyps.
  - pose proof (available_spec _ _ Hb Hl) as Ha.
    destruct (available_frame_bounds _ _) as [st|[first past]].
    { destruct Ha as [-> _]. done. }
    destruct Ha as (_ & Hf & Hp & Hiff).
    destruct (mark_available_spec s first past Hs Hf Hp) as (Hok & Hrest & Hel).
    split_and!; try done. intros f Hr. rewrite Hel, orb_true_iff, in_span_spec, Hiff by lia.
    naive_solver.
  - split_and!; try done. intros f Hr. naive_solver.
  - split_and!; try done. intros f Hr. naive_solver.
  - pose proof (covering_spec _ _ Hb Hl) as Hc.
    destruct (covering_frame_bounds _ _) as [st|[first past]].
    { destruct st; try done. cbn. split_and!; try done. intros f Hr.
      split; [|tauto]. intros He. split; [done|].
      intros (r' & [= <-] & _ & _ & Hov & _). pose proof frame_count_limit.
      unfold SAPOTE_PAGE_SIZE in *. lia. }
    destruct Hc as (_ & Hf & Hp & Hiff).
    destruct (mark_reserved_spec s first past Hs Hf Hp) as (Hok & Hrest & Hel).
    split_and!; try done. intros f Hr.
    rewrite Hel, andb_true_iff, negb_true_iff, <- not_true_iff_false, in_span_spec, Hiff
      by lia. naive_solver.
Qed.

(** One pass over the first [k] regions. *)
Definition pass_done (m : memory) (c : boot_information) (pass : Z) (s0 : allocator)
    (todo : list Z) (s : allocator) : Prop :=
  exists k, 0 <= k /\ todo = seqZ k (c.(memory_map_entry_count) - k) /\
    bits_ok s /\ rest_of s = rest_of s0 /\
    forall f, 0 <= f < FRAME_COUNT ->
      (eligible s f = true <->
       if pass =? 0 then eligible s0 f = true \/ (exists i, 0 <= i < k /\ offers m c i f)
       else eligible s0 f = true /\ forall i, 0 <= i < k -> ~ withholds m c i f).

Lemma pass_done_step m c pass s0 i todo s :
  pass_done m c pass s0 (i :: todo) s ->
  match apply_region m c pass i s with
  | Return r => r.1 <> FRAME_STATUS_OK
  | Next s' => pass_done m c pass s0 todo s'
  end.
Proof.
  intros (k & Hk & Ht & Hs & Hrest & Hel). set (n := c.(memory_map_entry_count)) in *.
  assert (k < n) by (destruct (decide (k < n)); [done|];
    rewrite seqZ_nil in Ht by lia; done).
  rewrite seqZ_cons in Ht by lia. injection Ht as -> ->.
  pose proof (apply_region_spec m c pass k s Hs) as Ha.
  destruct (apply_region m c pass k s) as [s'|r]; [|done].
  destruct Ha as (Hs' & Hrest' & Hel'). exists (Z.succ k).
  split_and!; [lia|f_equal; lia|done|congruence|].
  intros f Hf. rewrite Hel' by done. destruct (pass =? 0); rewrite (Hel f Hf).
  - split.
    + intros [[?|(i & ? & ?)]|?]; [by left|right; exists i; split; [lia|done]|].
      right. exists k. split; [lia|done].
    + intros [?|(i & ? & ?)]; [by left; left|]. destruct (decide (i = k)) as [->|];
        [by right|]. left; right. exists i. split; [lia|done].
  - split.
    + intros [[? Hno] ?]. split; [done|]. intros i Hi.
      destruct (decide (i = k)) as [->|]; [done|]. apply Hno. lia.
    + intros [? Hno]. split; [split; [done|]|apply Hno; lia].
      intros i Hi. apply Hno. lia.
Qed.

Lemma pass_spec m c pass s0 :
  bits_ok s0 ->
  match for_each (apply_region m c pass) (seqZ 0 c.(memory_map_entry_count)) s0 with
  | Return r => r.1 <> FRAME_STATUS_OK
  | Next s => pass_done m c pass s0 [] s
  end.
Proof.
  intros Hs. apply (for_each_inv (pass_done m c pass s0)
    (fun r => r.1 <> FRAME_STATUS_OK)).
  - intros. by apply pass_done_step.
  - exists 0. rewrite Z.sub_0_r. split_and!; [lia|done|done|done|].
    intros f Hf. destruct (pass =? 0); split; [by left|intros [?|(?&?&?)]; [done|lia]|
      intros; split; [done|lia]|by intros []].
Qed.

(** The exact set of frames the memory map makes allocatable. *)
Definition map_offers (m : memory) (c : boot_information) (f : Z) : Prop :=
  (exists i, 0 <= i < c.(memory_map_entry_count) /\ offers m c i f) /\
  forall i, 0 <= i < c.(memory_map_entry_count) -> ~ withholds m c i f.

Lemma pass_done_all m c pass s0 s :
  pass_done m c pass s0 [] s ->
  bits_ok s /\ rest_of s = rest_of s0 /\
  forall f, 0 <= f < FRAME_COUNT ->
    let n := c.(memory_map_entry_count) in
    (eligible s f = true <->
     if pass =? 0 then eligible s0 f = true \/ (exists i, 0 <= i < n /\ offers m c i f)
     else eligible s0 f = true /\ forall i, 0 <= i < n -> ~ withholds m c i f).
Proof.
  intros (k & Hk & Ht & Hs & Hrest & Hel). split_and!; try done.
  intros f Hf n. rewrite (Hel f Hf). fold n in Ht.
  assert (n <= k) as Hnk.
  { destruct (decide (n <= k)); [done|]. rewrite seqZ_cons in Ht by lia. done. }
  destruct (pass =? 0).
  - split; (intros [?|(i & Hi & Ho)]; [by left|]; right; exists i; split; [|done]).
    + destruct Ho as (r & Hr & _). destruct (decide (i < n)); [lia|].
      assert (boot_information_region_at m c i = None); [|congruence].
      apply Multiboot2.region_at_outside. right. lia.
    + lia.
  - split; intros [? Hno]; (split; [done|]); intros i Hi.
    + apply Hno. lia.
    + intros Hw. destruct Hw as (r & Hr & Hrest1) eqn:E. destruct (decide (i < n)).
      * apply (Hno i); [lia|]. exact Hw.
      * assert (boot_information_region_at m c i = None); [|congruence].
        apply Multiboot2.region_at_outside. right. lia.
Qed.

Lemma apply_memory_map_spec m c s0 s :
  bits_ok s0 -> (forall f, 0 <= f < FRAME_COUNT -> eligible s0 f = false) ->
  apply_memory_map m c s0 = (FRAME_STATUS_OK, s) ->
  bits_ok s /\ rest_of s = rest_of s0 /\
  forall f, 0 <= f < FRAME_COUNT -> (eligible s f = true <-> map_offers m c f).
Proof.
  intros Hs Hz. unfold apply_memory_map. cbn [for_each].
  pose proof (pass_spec m c 0 s0 Hs) as H0.
  destruct (for_each (apply_region m c 0) _ s0) as [s1|[st s1]].
  2: { intros [= -> ->]. done. }
  apply pass_done_all in H0 as (Hs1 & Hr1 & He1).
  pose proof (pass_spec m c 1 s1 Hs1) as H1.
  destruct (for_each (apply_region m c 1) _ s1) as [s2|[st s2]].
  2: { intros [= -> ->]. done. }
  apply pass_done_all in H1 as (Hs2 & Hr2 & He2). intros [= <-].
  split_and!; [done|congruence|]. intros f Hf.
  specialize (He1 f Hf). specialize (He2 f Hf). cbn in He1, He2.
  rewrite Hz in He1 by done. unfold map_offers. naive_solver.
Qed.

Lemma reset_bits_ok s :
  bits_ok (reset_allocator s) /\
  forall f, 0 <= f < FRAME_COUNT -> eligible (reset_allocator s) f = false.
Proof.
  destruct (bitmap_fill_spec 0) as [He0 He]; [lia|].
  destruct (bitmap_fill_spec UINT8_MAX) as [Hu0 Hu]; [unfold UINT8_MAX; lia|].
  assert (forall f, 0 <= f < FRAME_COUNT -> eligible (reset_allocator s) f = false) as Hz.
  { intros f Hf. unfold eligible. cbn. rewrite He by done. apply Z.bits_0. }
  split; [|done]. split; [done|done|]. intros f Hf. rewrite Hz by done.
  unfold used. cbn. rewrite Hu by done. change UINT8_MAX with (Z.ones 8).
  pose proof (Z.mod_pos_bound f 8). apply Z.ones_spec_low. lia.
Qed.

(** The exact set of frames an initialized allocator may hand out. *)
Definition boot_allocatable (m : memory) (c : boot_information) (f : Z) : Prop :=
  map_offers m c f /\
  ~ frame_overlaps 0 SAPOTE_LOW_MEMORY_RESERVATION f /\
  ~ frame_overlaps kernel_start_symbol (kernel_end_symbol - kernel_start_symbol) f /\
  ~ frame_overlaps c.(information_start) (c.(information_end) - c.(information_start)) f.

Lemma inv_fresh s :
  bits_ok s -> s.(allocator_stats) = recount s ->
  0 <= s.(next_search_index) < FRAME_COUNT ->
  s.(contiguous_records) =
    replicate (Z.to_nat FRAME_CONTIGUOUS_ALLOCATION_CAPACITY) empty_record ->
  inv s.
Proof.
  intros [He Hu Hb] Hst Hse Hrec.
  assert (forall i, 0 <= i < FRAME_CONTIGUOUS_ALLOCATION_CAPACITY ->
    record_at s i = empty_record) as Hr.
  { intros i Hi. unfold record_at. rewrite Hrec. apply aget_replicate.
    unfold FRAME_CONTIGUOUS_ALLOCATION_CAPACITY in *. lia. }
  split; try done.
  - intros f Hf Hn. rewrite Hb, Hn by done. done.
  - rewrite Hrec. done.
  - intros i Hi. by rewrite Hr by done.
  - intros i j f Hi _. by rewrite Hr by done.
Qed.

Lemma initialize_spec m c s s' :
  is_u64 c.(information_start) -> is_u64 c.(information_end) ->
  c.(information_start) <= c.(information_end) ->
  frame_allocator_initialize m (Some c) s = (FRAME_STATUS_OK, s') ->
  s'.(allocator_initialized) = true /\ inv s' /\ bits_ok s' /\
  0 < s'.(allocator_stats).(free_frames) /\
  s'.(next_contiguous_identifier) = 1 /\
  forall f, 0 <= f < FRAME_COUNT -> (eligible s' f = true <-> boot_allocatable m c f).
Proof.
  intros His Hie Hle. unfold frame_allocator_initialize.
  destruct c.(memory_map); [|done].
  destruct (reset_bits_ok s) as [Hr0 Hz0].
  destruct (apply_memory_map m c (reset_allocator s)) as [[] s1] eqn:E1; try done.
  apply apply_memory_map_spec in E1 as (Hs1 & Hr1 & He1); [|done..].
  destruct (reserve_internal s1 0 _) as [[] s2] eqn:E2; try done.
  apply reserve_internal_spec in E2 as (Hs2 & Hr2 & He2);
    [|done|unfold is_u64, UINT64_MAX; lia|
     unfold is_u64, UINT64_MAX, SAPOTE_LOW_MEMORY_RESERVATION; lia].
  pose proof kernel_start_range as Hks. pose proof kernel_end_range as Hke.
  split_if; [done|]. bool_hyps.
  rewrite u64_small by (unfold is_u64 in *; lia).
  destruct (reserve_internal s2 _ _) as [[] s3] eqn:E3; try done.
  apply reserve_internal_spec in E3 as (Hs3 & Hr3 & He3);
    [|done|done|unfold is_u64 in *; lia].
  rewrite u64_small by (unfold is_u64 in *; lia).
  destruct (reserve_internal s3 _ _) as [[] s4] eqn:E4; try done.
  apply reserve_internal_spec in E4 as (Hs4 & Hr4 & He4);
    [|done|done|unfold is_u64 in *; lia].
  split_if; [done|]. intros [= <-]. cbn [allocator_initialized set_initialized].
  assert (rest_of s4 = rest_of (reset_allocator s)) as [= _ _ Hrec Hid] by congruence.
  pose proof frame_count_range.
  assert (recount s4 = recount (set_initialized (set_search (recompute_stats s4)
    (SAPOTE_LOW_MEMORY_RESERVATION / SAPOTE_PAGE_SIZE)) true)) as Hst by done.
  split_and!; [done| | | |done|].
  - apply inv_fresh; [by destruct Hs4| |cbn|].
    + exact Hst.
    + change (0 <= 256 < FRAME_COUNT). lia.
    + exact Hrec.
  - by destruct Hs4.
  - bool_hyps. cbn in Heqb0 |- *. rewrite recount_counted in *. cbn in *.
    pose proof (countb_nonneg (frame_available s4) (seqZ 0 FRAME_COUNT)). lia.
  - intros f Hf. change (eligible _ f) with (eligible s4 f).
    rewrite He4, He3, He2, He1 by done. unfold boot_allocatable. tauto.
Qed.

(** ** Late reservation *)

Lemma frame_reserve_range_spec s base length :
  inv s -> s.(allocator_initialized) = true -> is_u64 base -> is_u64 length ->
  let '(st, s') := frame_reserve_range base length s in
  (st <> FRAME_STATUS_OK -> s' = s) /\
  (st = FRAME_STATUS_FRAME_IN_USE <->
     base < early_limit /\ base + length <= UINT64_MAX /\
     exists f, 0 <= f < FRAME_COUNT /\ frame_overlaps base length f /\
               allocated s f = true) /\
  (st = FRAME_STATUS_OK ->
     s'.(allocator_initialized) = true /\
     s'.(contiguous_records) = s.(contiguous_records) /\
     (forall f, 0 <= f < FRAME_COUNT -> allocated s' f = allocated s f) /\
     (forall f, 0 <= f < FRAME_COUNT ->
        (eligible s' f = true <-> eligible s f = true /\ ~ frame_overlaps base length f)) /\
     inv s').
Proof.
  intros Hi Hinit Hb Hl. unfold frame_reserve_range. rewrite Hinit. cbn [negb].
  pose proof (covering_spec base length Hb Hl) as Hc.
  pose proof frame_count_limit as Hlim. unfold SAPOTE_PAGE_SIZE in Hlim.
  destruct (covering_frame_bounds base length) as [st|[first past]].
  { split_and!; [done| |by destruct st].
    split; [by destruct st|]. intros (H1 & H2 & _). destruct st; done || lia. }
  destruct Hc as (Hov & Hf & Hp & Hiff).
  destruct (existsb _ _) eqn:Ex.
  - split_and!; [done| |done]. split; [intros _|done].
    apply existsb_exists in Ex as (f & Hin%list_elem_of_In%elem_of_seqZ & Ha).
    assert (0 <= f < FRAME_COUNT) by lia.
    assert (frame_overlaps base length f) as Hfo by (apply Hiff; lia).
    split_and!; [|lia|eauto].
    destruct Hfo as (_ & ? & _). unfold SAPOTE_PAGE_SIZE in *. lia.
  - assert (forall f, first <= f < past -> allocated s f = false) as Hno.
    { intros f Hfr. destruct (allocated s f) eqn:Ea; [|done].
      rewrite <- Ex. symmetry. apply existsb_exists. exists f. split; [|done].
      apply list_elem_of_In, elem_of_seqZ. lia. }
    split_and!; [done| |intros _].
    { split; [done|]. intros (_ & _ & f & Hfr & Ho & Ha).
      rewrite Hno in Ha; [done|]. by apply Hiff. }
    destruct (bitmap_set_range_spec s.(eligible_bitmap) first past false)
      as [Hok1 Hg1]; [apply Hi|done..|].
    destruct (bitmap_set_range_spec s.(used_bitmap) first past true)
      as [Hok2 Hg2]; [apply Hi|done..|].
    set (s' := recompute_stats _).
    assert (forall f, 0 <= f -> eligible s' f =
      if in_span first past f then false else eligible s f) as He
      by (intros; by apply Hg1).
    assert (forall f, 0 <= f -> used s' f =
      if in_span first past f then true else used s f) as Hu
      by (intros; by apply Hg2).
    assert (forall f, 0 <= f < FRAME_COUNT -> allocated s' f = allocated s f) as Hal.
    { intros f Hfr. unfold allocated. rewrite He, Hu by lia.
      destruct (in_span first past f) eqn:Esp; [|done]. apply in_span_spec in Esp.
      symmetry. by apply (Hno f). }
    split_and!; try done.
    + intros f Hfr. rewrite He, <- Hiff, <- in_span_spec by lia.
      destruct (in_span first past f); naive_solver.
    + destruct Hi as [_ _ Hres _ Hse Hlen Hrec Hdis]. split; try done.
      * intros f Hfr. rewrite He, Hu by lia. destruct (in_span first past f); [done|].
        by apply Hres.
      * intros i Hri Ha. apply (record_ok_keep s); [|by apply Hrec].
        intros f Hin. apply Hal. by eapply in_record_range; [apply Hrec|].
Qed.

(** * Reachable states *)

Inductive op : Type :=
| OpInitialize (m : memory) (c : option boot_information)
| OpAllocate (destination : bool)
| OpRelease (address : Z)
| OpAllocateContiguous (rq : option frame_contiguous_request)
    (dest : option frame_contiguous_allocation)
| OpReleaseContiguous (al : option frame_contiguous_allocation)
| OpReserve (base length : Z).

(** Arguments a C caller can pass: 64-bit values, and for the information block
    a context whose end is not before its start, as the parser leaves it. *)
Definition op_ok (o : op) : Prop :=
  match o with
  | OpInitialize _ (Some c) =>
      is_u64 c.(information_start) /\ is_u64 c.(information_end) /\
      c.(information_start) <= c.(information_end)
  | OpRelease a => is_u64 a
  | OpAllocateContiguous (Some rq) _ => request_ok rq
  | OpReserve base length => is_u64 base /\ is_u64 length
  | _ => True
  end.

Definition run (o : op) (s : allocator) : allocator :=
  match o with
  | OpInitialize m c => (frame_allocator_initialize m c s).2
  | OpAllocate d => (frame_allocate d s).2
  | OpRelease a => (frame_release a s).2
  | OpAllocateContiguous rq dest => (frame_allocate_contiguous rq dest s).2
  | OpReleaseContiguous al => (frame_release_contiguous al s).2
  | OpReserve base length => (frame_reserve_range base length s).2
  end.

(** The state at load time: every file-scope object zero. *)
Definition load_state : allocator :=
  MkAllocator (bitmap_fill 0) (bitmap_fill 0) empty_stats 0 false
    (replicate (Z.to_nat FRAME_CONTIGUOUS_ALLOCATION_CAPACITY) empty_record) 0.

Inductive reachable : allocator -> Prop :=
| reachable_load : reachable load_state
| reachable_step o s : reachable s -> op_ok o -> reachable (run o s).

(** Marking and reserving never touch [allocator_initialized]. *)
Lemma reserve_internal_rest s base length :
  rest_of (reserve_internal s base length).2 = rest_of s.
Proof. unfold reserve_internal. by destruct (covering_frame_bounds _ _) as [|[]]. Qed.

Lemma apply_region_rest m c pass i s :
  match apply_region m c pass i s with
  | Next s' => rest_of s' = rest_of s
  | Return r => rest_of r.2 = rest_of s
  end.
Proof.
  unfold apply_region. destruct (boot_information_region_at m c i); [|done].
  split_if; [done|]. split_if.
  - by destruct (available_frame_bounds _ _) as [|[]].
  - destruct (covering_frame_bounds _ _) as [|[]]; [|done]. by split_if.
Qed.

Lemma apply_memory_map_rest m c s : rest_of (apply_memory_map m c s).2 = rest_of s.
Proof.
  assert (forall pass s0, rest_of s0 = rest_of s ->
    match for_each (apply_region m c pass) (seqZ 0 c.(memory_map_entry_count)) s0 with
    | Next s' => rest_of s' = rest_of s
    | Return r => rest_of r.2 = rest_of s
    end) as H.
  { intros pass s0 H0. apply (for_each_inv (fun _ s' => rest_of s' = rest_of s)
      (fun r => rest_of r.2 = rest_of s)); [|done].
    intros i l s' Hs'. pose proof (apply_region_rest m c pass i s') as Hr.
    destruct (apply_region m c pass i s'); congruence. }
  unfold apply_memory_map. cbn [for_each]. pose proof (H 0 s eq_refl) as H0.
  destruct (for_each (apply_region m c 0) _ s) as [s1|r1]; [|done].
  pose proof (H 1 s1 H0). by destruct (for_each (apply_region m c 1) _ s1).
Qed.

(** A failed initialization leaves the allocator refusing every call. *)
Lemma initialize_failed m c s st s' :
  frame_allocator_initialize m c s = (st, s') -> st <> FRAME_STATUS_OK ->
  s' = s \/ s'.(allocator_initialized) = false.
Proof.
  intros H Hst. destruct c as [c|]; [|left; cbn in H; congruence].
  unfold frame_allocator_initialize in H.
  destruct c.(memory_map); [right|left; congruence].
  assert (forall s1, rest_of s1 = rest_of (reset_allocator s) ->
    s1.(allocator_initialized) = false) as Hrest by (intros s1 [= _ -> _ _]; done).
  pose proof (apply_memory_map_rest m c (reset_allocator s)) as Hr1.
  destruct (apply_memory_map m c _) as [[] s1]; cbn [snd] in Hr1;
    try (injection H as <- <-; by apply Hrest).
  pose proof (reserve_internal_rest s1 0 SAPOTE_LOW_MEMORY_RESERVATION) as Hr2.
  destruct (reserve_internal s1 _ _) as [[] s2]; cbn [snd] in Hr2;
    try (injection H as <- <-; apply Hrest; congruence).
  split_if_in H; [injection H as <- <-; apply Hrest; congruence|].
  match type of H with context [reserve_internal s2 ?b ?n] =>
    pose proof (reserve_internal_rest s2 b n) as Hr3 end.
  destruct (reserve_internal s2 _ _) as [[] s3]; cbn [snd] in Hr3;
    try (injection H as <- <-; apply Hrest; congruence).
  match type of H with context [reserve_internal s3 ?b ?n] =>
    pose proof (reserve_internal_rest s3 b n) as Hr4 end.
  destruct (reserve_internal s3 _ _) as [[] s4]; cbn [snd] in Hr4;
    try (injection H as <- <-; apply Hrest; congruence).
  split_if_in H; injection H as <- <-; [apply (Hrest s4); congruence|done].
Qed.

Lemma inv_wf s : inv s -> wf s.
Proof. by intros ? _. Qed.

Lemma run_wf o s : wf s -> op_ok o -> wf (run o s).
Proof.
  intros Hwf Hok. destruct (s.(allocator_initialized)) eqn:Hinit; cycle 1.
  - destruct o as [m [c|]|d|a|[rq|] [d|]|[al|]|base length]; cbn [run]; try done;
      try (unfold frame_allocate, frame_release, frame_allocate_contiguous,
        frame_release_contiguous, frame_reserve_range; rewrite Hinit; cbn;
        try destruct d; done).
    destruct (frame_allocator_initialize m (Some c) s) as [st s'] eqn:E.
    destruct (decide (st = FRAME_STATUS_OK)) as [->|Hne].
    + apply initialize_spec in E as (_ & Hi & _); [by apply inv_wf|apply Hok..].
    + apply initialize_failed in E as [->|Hf]; [done|intros Ht; cbn in Ht; congruence|done].
  - pose proof (Hwf Hinit) as Hinv.
    destruct o as [m [c|]|[]|a|[rq|] [d|]|[al|]|base length]; cbn [run]; try done.
    + destruct (frame_allocator_initialize m (Some c) s) as [st s'] eqn:E.
      destruct (decide (st = FRAME_STATUS_OK)) as [->|Hne].
      * apply initialize_spec in E as (_ & Hi & _); [by apply inv_wf|apply Hok..].
      * apply initialize_failed in E as [->|Hf]; [by apply inv_wf|intros Ht; cbn in Ht; congruence|done].
    + pose proof (frame_allocate_spec s Hinv Hinit) as H.
      destruct (frame_allocate true s) as [[[] [a|]] s']; try done;
        [by apply inv_wf; destruct H as (f & _ & _ & _ & _ & _ & _ & _ & _ & _ & Hi)|].
      destruct H as [-> _]. by apply inv_wf.
    + pose proof (frame_release_spec s a Hinv Hinit Hok) as H.
      destruct (frame_release a s) as [st s'].
      destruct H as (_ & Hne & Heq). destruct (decide (st = FRAME_STATUS_OK)) as [E|E].
      * apply inv_wf. by apply Heq in E as (_ & _ & _ & _ & _ & _ & _ & Hi).
      * rewrite Hne by done. by apply inv_wf.
    + pose proof (frame_allocate_contiguous_spec s rq d Hinv Hinit Hok) as H.
      destruct (frame_allocate_contiguous _ _ s) as [[st al] s'].
      destruct H as (Hne & _ & Heq). destruct (decide (st = FRAME_STATUS_OK)) as [E|E].
      * apply Heq in E as (h & first & slot & _ & []). by apply inv_wf.
      * apply Hne in E as [-> _]. by apply inv_wf.
    + pose proof (frame_release_contiguous_spec s al Hinv Hinit) as H.
      destruct (frame_release_contiguous _ s) as [[st al'] s'].
      destruct H as (Hne & Heq). destruct (decide (st = FRAME_STATUS_OK)) as [E|E].
      * apply Heq in E as (_ & h & slot & _ & []). by apply inv_wf.
      * apply Hne in E as [-> _]. by apply inv_wf.
    + pose proof (frame_reserve_range_spec s base length Hinv Hinit) as H.
      destruct (frame_reserve_range base length s) as [st s'].
      destruct H as (Hne & _ & Heq); [apply Hok..|].
      destruct (decide (st = FRAME_STATUS_OK)) as [E|E].
      * apply inv_wf. by apply Heq in E as (_ & _ & _ & _ & Hi).
      * rewrite Hne by done. by apply inv_wf.
Qed.

Lemma reachable_wf s : reachable s -> wf s.
Proof. induction 1; [done|]. by apply run_wf. Qed.
End initialization.

(** * Layouts *)

(** The layout of the kernel: the 4 GiB early map of include/sapote/boot.h. *)
#[local] Program Instance sapote_layout (kernel_start kernel_end : Z)
    (Hs : is_u64 kernel_start) (He : is_u64 kernel_end) : PhysicalLayout := {
  early_limit := Multiboot2.SAPOTE_EARLY_PHYSICAL_LIMIT;
  kernel_start_symbol := kernel_start;
  kernel_end_symbol := kernel_end
}.
Solve Obligations with (intros; done).

(** A map of 288 frames with the kernel at 1 MiB, for the examples. *)
#[local] Program Instance small_layout : PhysicalLayout := {
  early_limit := 0x120000;
  kernel_start_symbol := 0x100000;
  kernel_end_symbol := 0x104000
}.
Solve Obligations with done.

(** A machine whose only region is available and covers the small map. *)
Definition sample_map_block : list Z :=
  Multiboot2.le32 56 ++ Multiboot2.le32 0 ++
  Multiboot2.le32 6 ++ Multiboot2.le32 40 ++ Multiboot2.le32 24 ++ Multiboot2.le32 0 ++
    Multiboot2.le64 0 ++ Multiboot2.le64 0x120000 ++ Multiboot2.le32 1 ++
    Multiboot2.le32 0 ++
  Multiboot2.le32 0 ++ Multiboot2.le32 8.
Definition sample_machine : memory := fun a => aget 0 sample_map_block (a - 0x1000).
Definition sample_boot : boot_information :=
  match Multiboot2.boot_information_parse sample_machine
          Multiboot2.MULTIBOOT2_BOOT_MAGIC 0x1000
          (Some Multiboot2.boot_information_reset) with
  | Some (_, Some c) => c
  | _ => Multiboot2.boot_information_reset
  end.

Definition sample_state : allocator :=
  run (OpInitialize sample_machine (Some sample_boot)) load_state.

Lemma sample_boot_start : sample_boot.(information_start) = 0x1000.
Proof. vm_compute. reflexivity. Qed.

Lemma sample_boot_end : sample_boot.(information_end) = 0x1038.
Proof. vm_compute. reflexivity. Qed.

Lemma sample_boot_ok : op_ok (OpInitialize sample_machine (Some sample_boot)).
Proof.
  unfold op_ok. rewrite sample_boot_start, sample_boot_end.
  unfold is_u64, UINT64_MAX. lia.
Qed.

Lemma sample_initializes :
  frame_allocator_initialize sample_machine (Some sample_boot) load_state =
  (FRAME_STATUS_OK, sample_state).
Proof. vm_compute. reflexivity. Qed.

Lemma sample_reachable : reachable sample_state.
Proof. constructor; [constructor|apply sample_boot_ok]. Qed.

Lemma sample_initialized : sample_state.(allocator_initialized) = true.
Proof. vm_compute. reflexivity. Qed.

(** * Properties *)

(** C1 (invariant): whatever sequence of calls the kernel makes, an initialized
    allocator has statistics equal to a full recount of its bitmaps, a search
    index inside the map, no reserved frame marked free, and active contiguous
    records that are disjoint runs of frames marked eligible and used. *)
Theorem allocator_reachable_inv {L : PhysicalLayout} (s : allocator) :
  reachable s -> s.(allocator_initialized) = true -> inv s.
Proof. intros Hr Hi. by apply reachable_wf. Qed.

Lemma allocator_reachable_inv_witness : @inv small_layout sample_state.
Proof.
  apply allocator_reachable_inv; [apply sample_reachable|apply sample_initialized].
Defined.

(** On an initialized allocator frame_allocate succeeds
    exactly when some frame is available.  It then hands out the available
    frame the cyclic search from [next_search_index] meets first, marks that
    frame used and no other, and leaves the records alone; when it refuses, the
    state is unchanged. *)
Theorem frame_allocate_correct {L : PhysicalLayout} (s : allocator) :
  reachable s -> s.(allocator_initialized) = true ->
  match frame_allocate true s with
  | (FRAME_STATUS_OK, Some a, s') =>
      exists f, a = f * SAPOTE_PAGE_SIZE /\ 0 <= f < FRAME_COUNT /\
        frame_available s f = true /\
        (forall g, 0 <= g < FRAME_COUNT -> frame_available s g = true ->
           search_distance s f <= search_distance s g) /\
        (forall g, eligible s' g = eligible s g) /\
        (forall g, 0 <= g -> used s' g = if f =? g then true else used s g) /\
        s'.(contiguous_records) = s.(contiguous_records)
  | (FRAME_STATUS_OUT_OF_MEMORY, None, s') =>
      s' = s /\ forall g, 0 <= g < FRAME_COUNT -> frame_available s g = false
  | _ => False
  end.
Proof.
  intros Hr Hi. pose proof (frame_allocate_spec s (reachable_wf s Hr Hi) Hi) as H.
  destruct (frame_allocate true s) as [[[] [a|]] s']; try done.
  destruct H as (f & ? & ? & ? & ? & ? & ? & ? & ? & ? & ?). exists f. done.
Qed.

Lemma frame_allocate_correct_witness :
  exists f, (@frame_allocate small_layout true sample_state).1.2 =
    Some (f * SAPOTE_PAGE_SIZE) /\ frame_available sample_state f = true.
Proof.
  pose proof (@frame_allocate_correct small_layout sample_state sample_reachable
    sample_initialized) as H.
  destruct (frame_allocate true sample_state) as [[st a] s'] eqn:E.
  assert (st = FRAME_STATUS_OK) as ->.
  { apply (f_equal (fun r => r.1.1)) in E. vm_compute in E. by symmetry. }
  clear E. destruct a as [a|]; [|destruct H].
  destruct H as (f & -> & _ & Hf & _). exists f. split; [reflexivity|exact Hf].
Defined.

(** The frames marked used, and the figures, of two states are the same. *)
Definition same_frames {L : PhysicalLayout} (s s' : allocator) : Prop :=
  (forall g, 0 <= g < FRAME_COUNT -> eligible s' g = eligible s g) /\
  (forall g, 0 <= g < FRAME_COUNT -> used s' g = used s g) /\
  s'.(allocator_stats) = s.(allocator_stats).

Lemma recount_ext {L : PhysicalLayout} (s s' : allocator) :
  (forall g, 0 <= g < FRAME_COUNT -> eligible s' g = eligible s g) ->
  (forall g, 0 <= g < FRAME_COUNT -> used s' g = used s g) ->
  recount s' = recount s.
Proof.
  intros He Hu. pose proof frame_count_range.
  destruct (recount_take s s' 0 0) as [-> _]; try lia; try done.
  { intros f Hf. rewrite Hu by done.
    by destruct (0 <=? f) eqn:?, (f <? 0 + 0) eqn:?; bool_hyps; lia || done. }
  rewrite recount_counted. unfold stats_take, counted. cbn.
  pose proof (countb_frames_le (frame_available s)) as H1.
  pose proof (countb_frames_le (allocated s)) as H2. unfold count_frames in *.
  rewrite Z.sub_0_r, Z.add_0_r, !u64_small by (unfold is_u64, UINT64_MAX; lia). done.
Qed.

(** A frame just allocated can be released, which restores
    every bit and every figure of the state before; releasing it once more is
    refused as a double free and changes nothing. *)
Theorem frame_release_roundtrip {L : PhysicalLayout} (s : allocator) a s1 :
  reachable s -> s.(allocator_initialized) = true ->
  frame_allocate true s = (FRAME_STATUS_OK, Some a, s1) ->
  exists s2, frame_release a s1 = (FRAME_STATUS_OK, s2) /\ same_frames s s2 /\
    frame_release a s2 = (FRAME_STATUS_DOUBLE_FREE, s2).
Proof.
  intros Hr Hi Ha. pose proof (reachable_wf s Hr Hi) as Hinv.
  pose proof (frame_allocate_spec s Hinv Hi) as H. rewrite Ha in H.
  destruct H as (f & -> & Hf & Hav & _ & Hi1 & Hrec & _ & He1 & Hu1 & Hinv1).
  apply available_bits in Hav as [Hel Hus].
  pose proof frame_count_limit as Hlim. pose proof frame_count_range.
  assert (f * SAPOTE_PAGE_SIZE / SAPOTE_PAGE_SIZE = f) as Hdiv by (by apply Z.div_mul).
  assert (f * SAPOTE_PAGE_SIZE mod SAPOTE_PAGE_SIZE = 0) as Hmod by (by apply Z.mod_mul).
  assert (is_u64 (f * SAPOTE_PAGE_SIZE)) as Hu64
    by (unfold is_u64, UINT64_MAX, SAPOTE_PAGE_SIZE; lia).
  assert ((f * SAPOTE_PAGE_SIZE >=? early_limit) = false) as Hlow.
  { rewrite <- Hlim. apply not_true_iff_false. rewrite Z.geb_le.
    unfold SAPOTE_PAGE_SIZE. lia. }
  assert (frame_in_contiguous_allocation s1 f = false) as Hnc.
  { apply not_true_iff_false. rewrite in_contiguous_spec by done.
    intros (i & Hir & Hact & Hin). unfold record_at in Hact, Hin. rewrite Hrec in *.
    fold (record_at s i) in Hact, Hin.
    pose proof (ro_frames _ _ (inv_record _ Hinv i Hir Hact) f Hin) as Hal.
    apply allocated_bits in Hal as [_ ?]. congruence. }
  pose proof (frame_release_spec s1 (f * SAPOTE_PAGE_SIZE) Hinv1 Hi1 Hu64) as H2.
  destruct (frame_release (f * SAPOTE_PAGE_SIZE) s1) as [st s2].
  rewrite Hdiv in H2. destruct H2 as (Hst & _ & Hok).
  assert (st = FRAME_STATUS_OK) as ->.
  { rewrite Hst. unfold release_status. rewrite Hdiv, Hmod, Hlow, Hnc, He1, Hel, Hu1 by lia.
    by rewrite !Z.eqb_refl. }
  destruct (Hok eq_refl) as (_ & _ & _ & Hi2 & _ & He2 & Hu2 & Hinv2).
  assert (forall g, 0 <= g < FRAME_COUNT -> used s2 g = used s g) as Hus2.
  { intros g Hg. rewrite Hu2, Hu1 by lia. destruct (f =? g) eqn:?; bool_hyps; congruence. }
  exists s2. split_and!; [done| |].
  - split_and!; [intros; by rewrite He2, He1|done|].
    rewrite (inv_stats _ Hinv2), (inv_stats _ Hinv). apply recount_ext; [|done].
    intros. by rewrite He2, He1.
  - pose proof (frame_release_spec s2 (f * SAPOTE_PAGE_SIZE) Hinv2 Hi2 Hu64) as H3.
    destruct (frame_release (f * SAPOTE_PAGE_SIZE) s2) as [st s3].
    destruct H3 as (-> & Hne & _). revert Hne. unfold release_status.
    rewrite Hdiv, Hmod, Hlow, He2, He1, Hel, Hus2, Hus by lia. cbn.
    intros Hne. by rewrite Hne.
Qed.

Definition sample_allocated : allocator := (@frame_allocate small_layout true sample_state).2.

Lemma sample_allocates :
  @frame_allocate small_layout true sample_state =
  (FRAME_STATUS_OK, Some 0x104000, sample_allocated).
Proof. vm_compute. reflexivity. Qed.

Lemma frame_release_roundtrip_witness :
  exists s2, @frame_release small_layout 0x104000 sample_allocated =
    (FRAME_STATUS_OK, s2) /\ @same_frames small_layout sample_state s2.
Proof.
  destruct (@frame_release_roundtrip small_layout sample_state 0x104000 sample_allocated
    sample_reachable sample_initialized sample_allocates) as (s2 & H1 & H2 & _).
  exists s2. split; [exact H1|exact H2].
Defined.

(** C2 (functional): frame_allocate_contiguous is an exact first fit.  On
    success the run it returns is aligned, lies below the request's inclusive
    bound and was wholly available, and no lower base would have done; the
    handle and the record describe that run.  OUT_OF_MEMORY means that no run
    fits anywhere; and no refusal changes the allocator. *)
Theorem contiguous_first_fit {L : PhysicalLayout} (s : allocator) rq dest :
  reachable s -> s.(allocator_initialized) = true -> request_ok rq ->
  let '(st, al, s') := frame_allocate_contiguous (Some rq) (Some dest) s in
  (st <> FRAME_STATUS_OK -> s' = s /\ al = Some empty_allocation) /\
  (st = FRAME_STATUS_OUT_OF_MEMORY -> forall g, ~ run_fits s rq g) /\
  (st = FRAME_STATUS_OK -> exists h first slot,
     al = Some h /\ contiguous_taken s rq h s' first slot).
Proof.
  intros Hr Hi Hrq. apply frame_allocate_contiguous_spec; [|done|done].
  by apply reachable_wf.
Qed.

Definition sample_request : frame_contiguous_request := MkRequest 3 0x4000 0xffffffff.

Lemma sample_request_ok : request_ok sample_request.
Proof. split; cbn; unfold is_u64, UINT64_MAX; lia. Qed.

Lemma contiguous_first_fit_witness :
  exists h first slot s', @contiguous_taken small_layout sample_state sample_request h s'
    first slot.
Proof.
  pose proof (@contiguous_first_fit small_layout sample_state sample_request
    empty_allocation sample_reachable sample_initialized sample_request_ok) as H.
  destruct (frame_allocate_contiguous _ _ sample_state) as [[st al] s'] eqn:E.
  assert (st = FRAME_STATUS_OK) as Hst.
  { apply (f_equal (fun r => r.1.1)) in E. vm_compute in E. by symmetry. }
  clear E. destruct H as (_ & _ & H). destruct (H Hst) as (h & first & slot & _ & Ht).
  exists h, first, slot, s'. exact Ht.
Defined.

(** The next identifier is not in use, and those in use differ: the state of
    affairs until the 64-bit counter has gone round. *)
Definition ids_fresh {L : PhysicalLayout} (s : allocator) : Prop :=
  ids_unique s /\
  forall i, 0 <= i < FRAME_CONTIGUOUS_ALLOCATION_CAPACITY ->
    (record_at s i).(active) = true ->
    (record_at s i).(identifier) <> s.(next_contiguous_identifier).

Lemma taken_records {L : PhysicalLayout} s rq h s1 first slot i :
  inv s -> contiguous_taken s rq h s1 first slot ->
  0 <= i < FRAME_CONTIGUOUS_ALLOCATION_CAPACITY ->
  record_at s1 i =
  if slot =? i then MkRecord (first * SAPOTE_PAGE_SIZE) rq.(rq_page_count)
                      s.(next_contiguous_identifier) true
  else record_at s i.
Proof.
  intros Hi [] Hr. unfold record_at. rewrite ct_records0.
  apply aget_aset; rewrite ?(inv_records _ Hi); lia.
Qed.

Lemma taken_ids_unique {L : PhysicalLayout} s rq h s1 first slot :
  inv s -> ids_fresh s -> contiguous_taken s rq h s1 first slot -> ids_unique s1.
Proof.
  intros Hi [Hu Hf] Ht i j Hri Hrj.
  rewrite !(taken_records s rq h s1 first slot) by done.
  destruct (slot =? i) eqn:?, (slot =? j) eqn:?; bool_hyps; subst; try done; cbn.
  - intros _ Ha E. by destruct (Hf j Hrj Ha).
  - intros Ha _ E. by destruct (Hf i Hri Ha).
  - by apply Hu.
Qed.

Lemma stale_handle_refused {L : PhysicalLayout} s1 al h s2 slot :
  inv s1 -> ids_unique s1 -> contiguous_given s1 al h s2 slot ->
  al.(al_active) = true ->
  frame_release_contiguous (Some al) s2 = (FRAME_STATUS_DOUBLE_FREE, Some al, s2).
Proof.
  intros Hi Hu [] Hact. unfold frame_release_contiguous.
  rewrite cg_initialized0, Hact. cbn [negb].
  destruct (find_index _ _) as [k|] eqn:E; [|done]. exfalso.
  apply (find_index_Some empty_record) in E as (Hk & Hm & _). bool_hyps.
  rewrite cg_records0, zlength_aset, (inv_records _ Hi) in Hk.
  rewrite cg_records0, aget_aset in * by (rewrite ?(inv_records _ Hi); lia).
  destruct (slot =? k) eqn:?; bool_hyps; [done|].
  fold (record_at s1 k) in *. assert (slot = k); [|done].
  apply Hu; try done; rewrite cg_record0; [done|]. cbn. congruence.
Qed.

(** A frame of a recorded run cannot be released on its own. *)
Lemma taken_frame_in_use {L : PhysicalLayout} s rq h s1 first slot f :
  inv s -> contiguous_taken s rq h s1 first slot ->
  first <= f < first + rq.(rq_page_count) ->
  frame_release (f * SAPOTE_PAGE_SIZE) s1 = (FRAME_STATUS_FRAME_IN_USE, s1).
Proof.
  intros Hinv Ht Hfr. pose proof (ct_slot _ _ _ _ _ _ Ht) as Hsl.
  pose proof (taken_records _ _ _ _ _ _ slot Hinv Ht Hsl) as Hrec.
  rewrite Z.eqb_refl in Hrec. pose proof (ct_inv _ _ _ _ _ _ Ht) as Hinv1.
  pose proof (ct_fits _ _ _ _ _ _ Ht) as (Hf0 & Hle & _ & Hrun).
  pose proof (request_frames_max rq). pose proof frame_count_limit as Hlim.
  pose proof frame_count_range.
  pose proof (proj1 (run_available_spec _ _ _) Hrun f Hfr) as Hav.
  pose proof (frame_release_spec s1 (f * SAPOTE_PAGE_SIZE)) as Hs.
  destruct (frame_release _ s1) as [st s2].
  destruct Hs as (-> & Hne & _); [done|apply Ht|
    unfold is_u64, UINT64_MAX, SAPOTE_PAGE_SIZE; lia|].
  assert (release_status s1 (f * SAPOTE_PAGE_SIZE) = FRAME_STATUS_FRAME_IN_USE) as E;
    [|rewrite E in *; by rewrite Hne].
  unfold release_status. rewrite Z.div_mul, Z.mod_mul by done.
  assert ((f * SAPOTE_PAGE_SIZE >=? early_limit) = false) as ->.
  { rewrite <- Hlim. apply not_true_iff_false. rewrite Z.geb_le.
    unfold SAPOTE_PAGE_SIZE. lia. }
  rewrite (ct_eligible _ _ _ _ _ _ Ht), (ct_used _ _ _ _ _ _ Ht) by lia.
  apply available_bits in Hav as [-> _].
  assert ((first <=? f) && (f <? first + rq.(rq_page_count)) = true) as ->
    by (apply (in_span_spec first _ f); lia).
  assert (frame_in_contiguous_allocation s1 f = true) as ->; [|done].
  apply in_contiguous_spec; [done|lia|]. exists slot. rewrite Hrec.
  split_and!; try done; try lia; unfold in_record, record_first; cbn;
    rewrite Z.div_mul by done; lia.
Qed.

(** Giving back the run just taken restores the frames and the figures. *)
Lemma taken_given_same {L : PhysicalLayout} s rq h s1 first slot h2 s2 slot' :
  inv s -> contiguous_taken s rq h s1 first slot ->
  contiguous_given s1 h h2 s2 slot' -> same_frames s s2.
Proof.
  intros Hinv Ht Hg. pose proof (ct_fits _ _ _ _ _ _ Ht) as (_ & _ & _ & Hrun).
  pose proof (proj1 (run_available_spec _ _ _) Hrun) as Hav.
  assert (forall g, 0 <= g < FRAME_COUNT -> eligible s2 g = eligible s g) as He.
  { intros g Hgr. by rewrite (cg_eligible _ _ _ _ _ Hg), (ct_eligible _ _ _ _ _ _ Ht). }
  assert (forall g, 0 <= g < FRAME_COUNT -> used s2 g = used s g) as Hus.
  { intros g Hgr. rewrite (cg_used _ _ _ _ _ Hg), (ct_used _ _ _ _ _ _ Ht) by lia.
    rewrite (ct_handle _ _ _ _ _ _ Ht). cbn. rewrite Z.div_mul by done.
    destruct (_ && _) eqn:Esp; [|done]. apply (in_span_spec first _ g) in Esp.
    specialize (Hav g Esp). by apply available_bits in Hav as [_ ->]. }
  split_and!; [done|done|].
  rewrite (inv_stats _ (cg_inv _ _ _ _ _ Hg)), (inv_stats _ Hinv). by apply recount_ext.
Qed.

(** A contiguous run just allocated cannot be released frame
    by frame; releasing its handle restores every bit and figure, and a copy of
    the handle kept from before is then refused as a double free. *)
Theorem contiguous_release_roundtrip {L : PhysicalLayout} (s : allocator) rq dest h s1 :
  reachable s -> s.(allocator_initialized) = true -> request_ok rq -> ids_fresh s ->
  frame_allocate_contiguous (Some rq) (Some dest) s = (FRAME_STATUS_OK, Some h, s1) ->
  (forall i, 0 <= i < rq.(rq_page_count) ->
     frame_release (h.(al_physical_base) + i * SAPOTE_PAGE_SIZE) s1 =
     (FRAME_STATUS_FRAME_IN_USE, s1)) /\
  exists h2 s2,
    frame_release_contiguous (Some h) s1 = (FRAME_STATUS_OK, Some h2, s2) /\
    same_frames s s2 /\
    frame_release_contiguous (Some h) s2 = (FRAME_STATUS_DOUBLE_FREE, Some h, s2).
Proof.
  intros Hr Hi Hrq Hids Ha. pose proof (reachable_wf s Hr Hi) as Hinv.
  pose proof (frame_allocate_contiguous_spec s rq dest Hinv Hi Hrq) as H.
  rewrite Ha in H. destruct H as (_ & _ & H).
  destruct (H eq_refl) as (h' & first & slot & [= <-] & Ht). clear H.
  pose proof (ct_handle _ _ _ _ _ _ Ht) as Hh. pose proof (ct_slot _ _ _ _ _ _ Ht) as Hsl.
  pose proof (ct_inv _ _ _ _ _ _ Ht) as Hinv1.
  pose proof (ct_initialized _ _ _ _ _ _ Ht) as Hi1. split.
  - intros i Hir. rewrite Hh. cbn. rewrite <- Z.mul_add_distr_r.
    apply (taken_frame_in_use s rq h s1 first slot); [done|done|lia].
  - pose proof (taken_ids_unique _ _ _ _ _ _ Hinv Hids Ht) as Hu1.
    pose proof (taken_records _ _ _ _ _ _ slot Hinv Ht Hsl) as Hrec.
    rewrite Z.eqb_refl in Hrec.
    pose proof (frame_release_contiguous_live s1 h slot Hinv1 Hi1 Hu1) as Hok.
    rewrite Hrec, Hh in Hok. specialize (Hok eq_refl Hsl eq_refl). rewrite <- Hh in Hok.
    pose proof (frame_release_contiguous_spec s1 h Hinv1 Hi1) as Hs.
    destruct (frame_release_contiguous (Some h) s1) as [[st o] s2]. cbn in Hok. subst st.
    destruct Hs as [_ Hs]. destruct (Hs eq_refl) as (Hact & h2 & slot' & -> & Hg).
    exists h2, s2. split_and!; [done|by apply (taken_given_same s rq h s1 first slot h2 s2 slot')|].
    by eapply stale_handle_refused.
Qed.

Definition sample_run : allocator :=
  (@frame_allocate_contiguous small_layout (Some sample_request) (Some empty_allocation)
     sample_state).2.
Definition sample_handle : frame_contiguous_allocation :=
  MkAllocation 0x104000 3 0x4000 0xffffffff 1 true.

Lemma sample_run_allocates :
  @frame_allocate_contiguous small_layout (Some sample_request) (Some empty_allocation)
    sample_state = (FRAME_STATUS_OK, Some sample_handle, sample_run).
Proof. vm_compute. reflexivity. Qed.

Lemma sample_ids_fresh : @ids_fresh small_layout sample_state.
Proof.
  assert (sample_state.(contiguous_records) =
    replicate (Z.to_nat FRAME_CONTIGUOUS_ALLOCATION_CAPACITY) empty_record) as E
    by (vm_compute; reflexivity).
  assert (forall i, 0 <= i < FRAME_CONTIGUOUS_ALLOCATION_CAPACITY ->
    record_at sample_state i = empty_record) as Hr.
  { intros i Hi. unfold record_at. rewrite E. apply aget_replicate.
    unfold FRAME_CONTIGUOUS_ALLOCATION_CAPACITY in *. lia. }
  split.
  - intros i j Hi Hj. rewrite (Hr i Hi). discriminate 1.
  - intros i Hi. rewrite (Hr i Hi). discriminate 1.
Qed.

Lemma contiguous_release_roundtrip_witness :
  exists h2 s2, frame_release_contiguous (Some sample_handle) sample_run =
    (FRAME_STATUS_OK, Some h2, s2) /\ @same_frames small_layout sample_state s2.
Proof.
  destruct (@contiguous_release_roundtrip small_layout sample_state sample_request
    empty_allocation sample_handle sample_run sample_reachable sample_initialized
    sample_request_ok sample_ids_fresh sample_run_allocates) as (_ & h2 & s2 & H1 & H2 & _).
  exists h2, s2. split; [exact H1|exact H2].
Defined.

(** C3 (functional): after a successful initialization the frames the
    allocator may ever hand out are exactly those that lie whole inside an
    available region of the memory map and touch no other region, not the
    first megabyte, not the kernel image and not the boot information block. *)
Theorem initialize_exact {L : PhysicalLayout} m c (s s' : allocator) f :
  is_u64 c.(information_start) -> is_u64 c.(information_end) ->
  c.(information_start) <= c.(information_end) ->
  frame_allocator_initialize m (Some c) s = (FRAME_STATUS_OK, s') ->
  0 <= f < FRAME_COUNT ->
  (frame_available s' f = true <-> boot_allocatable m c f).
Proof.
  intros Hs He Hle Hi Hf. apply initialize_spec in Hi as (_ & _ & [_ _ Hb] & _ & _ & Hel);
    [|done..].
  rewrite <- (Hel f Hf), available_bits, (Hb f Hf).
  destruct (eligible s' f); naive_solver.
Qed.

Lemma initialize_exact_witness :
  frame_available sample_state 0x105 = true /\
  @boot_allocatable small_layout sample_machine sample_boot 0x105.
Proof.
  assert (frame_available sample_state 0x105 = true) as Ha by (vm_compute; reflexivity).
  split; [exact Ha|].
  apply (@initialize_exact small_layout sample_machine sample_boot load_state sample_state);
    [apply sample_boot_ok|apply sample_boot_ok|apply sample_boot_ok|
     apply sample_initializes|vm_compute; split; [discriminate|reflexivity]|exact Ha].
Defined.

(** A late reservation removes exactly the frames that touch
    the range; it is refused, with nothing changed, when one of them is
    allocated, and it never takes a frame away from its owner. *)
Theorem reserve_range_exact {L : PhysicalLayout} (s : allocator) base length :
  reachable s -> s.(allocator_initialized) = true -> is_u64 base -> is_u64 length ->
  let '(st, s') := frame_reserve_range base length s in
  (st <> FRAME_STATUS_OK -> s' = s) /\
  (st = FRAME_STATUS_FRAME_IN_USE <->
     base < early_limit /\ base + length <= UINT64_MAX /\
     exists f, 0 <= f < FRAME_COUNT /\ frame_overlaps base length f /\
               allocated s f = true) /\
  (st = FRAME_STATUS_OK -> forall f, 0 <= f < FRAME_COUNT ->
     allocated s' f = allocated s f /\
     (eligible s' f = true <-> eligible s f = true /\ ~ frame_overlaps base length f)).
Proof.
  intros Hr Hi Hb Hl.
  pose proof (frame_reserve_range_spec s base length (reachable_wf s Hr Hi) Hi Hb Hl) as H.
  destruct (frame_reserve_range base length s) as [st s'].
  destruct H as (H1 & H2 & H3). split_and!; [done|done|].
  intros E f Hf. destruct (H3 E) as (_ & _ & Ha & He & _). auto.
Qed.

Lemma reserve_range_exact_witness :
  (@frame_reserve_range small_layout 0x104000 1 sample_allocated).1 =
    FRAME_STATUS_FRAME_IN_USE.
Proof.
  assert (reachable sample_allocated) as Hr
    by (exact (reachable_step (OpAllocate true) sample_state sample_reachable I)).
  assert (sample_allocated.(allocator_initialized) = true) as Hi
    by (vm_compute; reflexivity).
  pose proof (@reserve_range_exact small_layout sample_allocated 0x104000 1 Hr Hi
    ltac:(unfold is_u64, UINT64_MAX; lia) ltac:(unfold is_u64, UINT64_MAX; lia)) as H.
  destruct (frame_reserve_range 0x104000 1 sample_allocated) as [st s'].
  apply H. split; [vm_compute; reflexivity|]. split; [vm_compute; discriminate|].
  exists 0x104. split; [vm_compute; split; [discriminate|reflexivity]|].
  split; [unfold frame_overlaps, SAPOTE_PAGE_SIZE; lia|vm_compute; reflexivity].
Defined.

End PhysicalMemory.
