(* ===== verification/Heap.v ===== *)
(** The kernel heap: src/src/kernel/heap.c.

    The block table is the fixed array of the code with its count; the shift
    loops are written as the code writes them, and [live] is the list of blocks
    they describe.  The heap reaches memory only through the frame allocator
    and the page tables: those calls are the class [HeapPlatform] over an
    abstract machine, and what the heap relies on is [PlatformLaws]. *)
From S2P Require Import Prelude PhysicalMemory.

Module Heap.

Definition PAGING_PAGE_SIZE : Z := 4096.
Definition PAGING_WRITE : Z := 1.
Definition HEAP_BASE : Z := 0x400000000.
Definition HEAP_SIZE : Z := 16 * 1024 * 1024.
Definition HEAP_GUARD_BELOW : Z := HEAP_BASE - 4096.
Definition HEAP_GUARD_ABOVE : Z := HEAP_BASE + HEAP_SIZE.
Definition HEAP_ALIGNMENT : Z := 16.
Definition HEAP_MAX_BLOCKS : Z := 256.

Inductive heap_status : Type :=
| HEAP_STATUS_OK
| HEAP_STATUS_NULL_ARGUMENT
| HEAP_STATUS_ALREADY_INITIALIZED
| HEAP_STATUS_NOT_INITIALIZED
| HEAP_STATUS_INTERRUPTS_ENABLED
| HEAP_STATUS_PAGING_INACTIVE
| HEAP_STATUS_GUARD_MAPPED
| HEAP_STATUS_ZERO_SIZE
| HEAP_STATUS_TOO_LARGE
| HEAP_STATUS_OUT_OF_MEMORY
| HEAP_STATUS_OUT_OF_BLOCKS
| HEAP_STATUS_MAPPING_FAILURE
| HEAP_STATUS_BAD_POINTER
| HEAP_STATUS_DOUBLE_FREE
| HEAP_STATUS_VALIDATION_FAILURE.

#[export] Instance heap_status_eq_dec : EqDecision heap_status.
Proof. solve_decision. Defined.

Record heap_block : Type := MkBlock {
  offset : Z;
  size : Z;
  used : bool
}.

#[export] Instance heap_block_eq_dec : EqDecision heap_block.
Proof. solve_decision. Defined.

Record heap_state : Type := MkState {
  base_address : Z;
  window_size : Z;
  committed_bytes : Z;
  allocated_bytes : Z;
  state_block_count : Z;
  live_allocations : Z;
  mapped_pages : Z;
  active : bool
}.

(** The three file-scope objects. *)
Record heap : Type := MkHeap {
  blocks : list heap_block;
  state : heap_state;
  block_count : Z
}.

Definition blank : heap_block := MkBlock 0 0 false.

Definition set_committed (st : heap_state) (v : Z) : heap_state :=
  MkState st.(base_address) st.(window_size) v st.(allocated_bytes)
    st.(state_block_count) st.(live_allocations) st.(mapped_pages) st.(active).
Definition set_mapped (st : heap_state) (v : Z) : heap_state :=
  MkState st.(base_address) st.(window_size) st.(committed_bytes)
    st.(allocated_bytes) st.(state_block_count) st.(live_allocations) v st.(active).
Definition set_figures (st : heap_state) (bytes count live : Z) : heap_state :=
  MkState st.(base_address) st.(window_size) st.(committed_bytes) bytes count live
    st.(mapped_pages) st.(active).
Definition with_state (h : heap) (st : heap_state) : heap :=
  MkHeap h.(blocks) st h.(block_count).
Definition with_table (h : heap) (t : list heap_block) (n : Z) : heap :=
  MkHeap t h.(state) n.

(** * What the heap calls *)

(** paging_translate: a mapping with its frame, permissions and level, the
    NOT_MAPPED status, or any other status. *)
Inductive translation : Type :=
| Mapped (physical_address permissions level : Z)
| NotMapped
| TranslateFails.

(** The calls of heap.c into physical_memory.c and paging.c, on a machine [M].
    An answer of [None] or [false] is any status but OK; paging_map is called
    with one page and PAGING_WRITE only. *)
Class HeapPlatform (M : Type) := {
  frame_allocate : M -> option Z * M;
  frame_release : Z -> M -> M;
  paging_map : Z -> Z -> M -> bool * M;
  paging_unmap : Z -> M -> bool * M;
  paging_translate : M -> Z -> translation;
  paging_is_active : M -> bool;
  cpu_interrupts_enabled : M -> bool
}.

(** * The block table *)

Definition align_up (value alignment : Z) : Z :=
  Z.land (u64 (value + alignment - 1)) (not64 (alignment - 1)).

(** [for position < count]: the first index at which [p] holds. *)
Definition scan (p : heap_block -> bool) (table : list heap_block) (count : Z)
  : option Z :=
  match
    for_each (fun position (_ : unit) =>
        if p (aget blank table position) then Return position else Next tt)
      (seqZ 0 count) tt
  with
  | Return position => Some position
  | Next _ => None
  end.

Definition find_fit (table : list heap_block) (count sz : Z) : option Z :=
  scan (fun b => negb b.(used) && (b.(size) >=? sz)) table count.

Definition block_index_for_offset (table : list heap_block) (count off : Z)
  : option Z :=
  scan (fun b => b.(offset) =? off) table count.

Definition remove_block (table : list heap_block) (count index : Z)
  : list heap_block * Z :=
  (foldl (fun t position => aset t position (aget blank t (position + 1)))
     table (seqZ index (count - 1 - index)),
   u64 (count - 1)).

Definition split_block (table : list heap_block) (count index sz : Z)
  : bool * list heap_block * Z :=
  let b := aget blank table index in
  let remainder := u64 (b.(size) - sz) in
  if remainder >=? HEAP_ALIGNMENT then
    if count =? HEAP_MAX_BLOCKS then (false, table, count)
    else
      let table :=
        foldl (fun t position => aset t position (aget blank t (position - 1)))
          table (reverse (seqZ (index + 2) (count - (index + 1)))) in
      let table := aset table (index + 1)
                     (MkBlock (u64 (b.(offset) + sz)) remainder false) in
      (true, aset table index (MkBlock b.(offset) sz true), count + 1)
  else (true, aset table index (MkBlock b.(offset) b.(size) true), count).

(** [table[i].size += table[j].size; remove_block(table, count, j)]. *)
Definition absorb (table : list heap_block) (count i j : Z) : list heap_block * Z :=
  let b := aget blank table i in
  remove_block
    (aset table i
       (MkBlock b.(offset) (u64 (b.(size) + (aget blank table j).(size))) b.(used)))
    count j.

Definition merge_free_neighbours (table : list heap_block) (count index : Z)
  : list heap_block * Z :=
  let '(table, count) :=
    if (index + 1 <? count) && negb (aget blank table (index + 1)).(used) then
      absorb table count index (index + 1)
    else (table, count) in
  if (index >? 0) && negb (aget blank table (index - 1)).(used) then
    absorb table count (index - 1) index
  else (table, count).

Definition validate_table (table : list heap_block) (count committed : Z) : bool :=
  if count >? HEAP_MAX_BLOCKS then false
  else if count =? 0 then committed =? 0
  else
    match
      for_each (fun position expected =>
          let b := aget blank table position in
          if negb (b.(offset) =? expected) || (b.(size) =? 0) ||
             negb (b.(size) mod HEAP_ALIGNMENT =? 0) then Return false
          else if (position >? 0) &&
                  negb (aget blank table (position - 1)).(used) &&
                  negb b.(used) then Return false
          else Next (u64 (expected + b.(size))))
        (seqZ 0 count) 0
    with
    | Return r => r
    | Next expected => expected =? committed
    end.

(** The bytes and the number of used blocks, as refresh_state and heap_verify
    count them. *)
Definition tally_block (acc : Z * Z) (b : heap_block) : Z * Z :=
  if b.(used) then (u64 (acc.1 + b.(size)), u64 (acc.2 + 1)) else acc.
Definition tally (table : list heap_block) (count : Z) : Z * Z :=
  foldl (fun acc position => tally_block acc (aget blank table position)) (0, 0)
    (seqZ 0 count).

Definition refresh_state (h : heap) : heap :=
  let '(bytes, live) := tally h.(blocks) h.(block_count) in
  with_state h (set_figures h.(state) bytes h.(block_count) live).

Section platform.
Context {M : Type} `{HeapPlatform M}.

(** The page offsets of the half-open range [from, to). *)
Definition page_offsets (from to : Z) : list Z :=
  (fun k => from + k * PAGING_PAGE_SIZE) <$>
  seqZ 0 ((to - from + PAGING_PAGE_SIZE - 1) / PAGING_PAGE_SIZE).

Definition release_page (off : Z) (x : heap_state * M) : heap_state * M :=
  let '(st, m) := x in
  let address := HEAP_BASE + off in
  match paging_translate m address with
  | Mapped physical _ _ =>
      let '(gone, m) := paging_unmap address m in
      if negb gone then (st, m)
      else (set_mapped st (u64 (st.(mapped_pages) - 1)), frame_release physical m)
  | _ => (st, m)
  end.

Definition release_pages (from to : Z) (st : heap_state) (m : M) : heap_state * M :=
  foldl (fun x off => release_page off x) (st, m) (page_offsets from to).

Definition commit_page (from off : Z) (x : heap_state * M)
  : ctl (heap_state * M) (heap_status * (heap_state * M)) :=
  let '(st, m) := x in
  match frame_allocate m with
  | (None, m) => Return (HEAP_STATUS_OUT_OF_MEMORY, release_pages from off st m)
  | (Some frame, m) =>
      let '(mapped, m) := paging_map (HEAP_BASE + off) frame m in
      if negb mapped then
        Return (HEAP_STATUS_MAPPING_FAILURE,
                release_pages from off st (frame_release frame m))
      else Next (set_mapped st (u64 (st.(mapped_pages) + 1)), m)
  end.

Definition commit_pages (from to : Z) (st : heap_state) (m : M)
  : heap_status * (heap_state * M) :=
  match for_each (commit_page from) (page_offsets from to) (st, m) with
  | Return r => r
  | Next x => (HEAP_STATUS_OK, x)
  end.

Definition grow_for (sz : Z) (h : heap) (m : M) : heap_status * Z * heap * M :=
  let last := aget blank h.(blocks) (h.(block_count) - 1) in
  let extend_last := (h.(block_count) >? 0) && negb last.(used) in
  let trailing := if extend_last then last.(size) else 0 in
  let growth := align_up (u64 (sz - trailing)) PAGING_PAGE_SIZE in
  let committed := h.(state).(committed_bytes) in
  if growth >? u64 (HEAP_SIZE - committed) then (HEAP_STATUS_OUT_OF_MEMORY, 0, h, m)
  else if negb extend_last && (h.(block_count) =? HEAP_MAX_BLOCKS) then
    (HEAP_STATUS_OUT_OF_BLOCKS, 0, h, m)
  else
    let '(status, (st, m)) :=
      commit_pages committed (u64 (committed + growth)) h.(state) m in
    let h := with_state h st in
    if negb (bool_decide (status = HEAP_STATUS_OK)) then (status, 0, h, m)
    else
      let h :=
        if extend_last then
          with_table h
            (aset h.(blocks) (h.(block_count) - 1)
               (MkBlock last.(offset) (u64 (last.(size) + growth)) last.(used)))
            h.(block_count)
        else
          with_table h
            (aset h.(blocks) h.(block_count) (MkBlock committed growth false))
            (h.(block_count) + 1) in
      let h := with_state h (set_committed h.(state) (u64 (committed + growth))) in
      (HEAP_STATUS_OK, h.(block_count) - 1, h, m).

Definition is_not_mapped (t : translation) : bool :=
  match t with NotMapped => true | _ => false end.

Definition heap_initialize (h : heap) (m : M) : heap_status * heap :=
  if h.(state).(active) then (HEAP_STATUS_ALREADY_INITIALIZED, h)
  else if negb (paging_is_active m) then (HEAP_STATUS_PAGING_INACTIVE, h)
  else if cpu_interrupts_enabled m then (HEAP_STATUS_INTERRUPTS_ENABLED, h)
  else if negb (is_not_mapped (paging_translate m HEAP_GUARD_BELOW)) ||
          negb (is_not_mapped (paging_translate m HEAP_GUARD_ABOVE)) then
    (HEAP_STATUS_GUARD_MAPPED, h)
  else
    (HEAP_STATUS_OK,
     refresh_state
       (MkHeap h.(blocks)
          (MkState HEAP_BASE HEAP_SIZE 0 h.(state).(allocated_bytes)
             h.(state).(state_block_count) h.(state).(live_allocations) 0 true) 0)).

(** [destination] is [false] for a NULL pointer argument; the second component
    is what was stored through it (0 is NULL). *)
Definition heap_allocate (sz : Z) (destination : bool) (h : heap) (m : M)
  : heap_status * option Z * heap * M :=
  if negb destination then (HEAP_STATUS_NULL_ARGUMENT, None, h, m)
  else if negb h.(state).(active) then (HEAP_STATUS_NOT_INITIALIZED, Some 0, h, m)
  else if sz =? 0 then (HEAP_STATUS_ZERO_SIZE, Some 0, h, m)
  else if sz >? HEAP_SIZE then (HEAP_STATUS_TOO_LARGE, Some 0, h, m)
  else
    let requested := align_up sz HEAP_ALIGNMENT in
    if requested >? HEAP_SIZE then (HEAP_STATUS_TOO_LARGE, Some 0, h, m)
    else
      let '(status, index, h, m) :=
        match find_fit h.(blocks) h.(block_count) requested with
        | Some index => (HEAP_STATUS_OK, index, h, m)
        | None => grow_for requested h m
        end in
      if negb (bool_decide (status = HEAP_STATUS_OK)) then (status, Some 0, h, m)
      else
        match split_block h.(blocks) h.(block_count) index requested with
        | (false, table, count) =>
            (HEAP_STATUS_OUT_OF_BLOCKS, Some 0, with_table h table count, m)
        | (true, table, count) =>
            (HEAP_STATUS_OK, Some (HEAP_BASE + (aget blank table index).(offset)),
             refresh_state (with_table h table count), m)
        end.

(** [pointer] as an integer; 0 is NULL. *)
Definition heap_free (pointer : Z) (h : heap) : heap_status * heap :=
  if negb h.(state).(active) then (HEAP_STATUS_NOT_INITIALIZED, h)
  else if pointer =? 0 then (HEAP_STATUS_NULL_ARGUMENT, h)
  else if (pointer <? HEAP_BASE) ||
          (pointer >=? u64 (HEAP_BASE + h.(state).(committed_bytes))) then
    (HEAP_STATUS_BAD_POINTER, h)
  else
    match block_index_for_offset h.(blocks) h.(block_count) (u64 (pointer - HEAP_BASE))
    with
    | None => (HEAP_STATUS_BAD_POINTER, h)
    | Some index =>
        let b := aget blank h.(blocks) index in
        if negb b.(used) then (HEAP_STATUS_DOUBLE_FREE, h)
        else
          let table := aset h.(blocks) index (MkBlock b.(offset) b.(size) false) in
          let '(table, count) := merge_free_neighbours table h.(block_count) index in
          (HEAP_STATUS_OK, refresh_state (with_table h table count))
    end.

Definition page_is_heap (t : translation) : bool :=
  match t with
  | Mapped _ permissions level => (permissions =? PAGING_WRITE) && (level =? 1)
  | _ => false
  end.

Definition heap_verify (h : heap) (m : M) : heap_status :=
  let st := h.(state) in
  if negb st.(active) then HEAP_STATUS_NOT_INITIALIZED
  else if (st.(committed_bytes) >? HEAP_SIZE) ||
          negb (st.(committed_bytes) mod PAGING_PAGE_SIZE =? 0) ||
          negb (st.(mapped_pages) =? st.(committed_bytes) / PAGING_PAGE_SIZE) then
    HEAP_STATUS_VALIDATION_FAILURE
  else if negb (validate_table h.(blocks) h.(block_count) st.(committed_bytes)) then
    HEAP_STATUS_VALIDATION_FAILURE
  else if negb (is_not_mapped (paging_translate m HEAP_GUARD_BELOW)) ||
          negb (is_not_mapped (paging_translate m HEAP_GUARD_ABOVE)) then
    HEAP_STATUS_GUARD_MAPPED
  else if negb (forallb (fun off => page_is_heap (paging_translate m (HEAP_BASE + off)))
                  (page_offsets 0 st.(committed_bytes))) then
    HEAP_STATUS_VALIDATION_FAILURE
  else
    let '(allocated, live) := tally h.(blocks) h.(block_count) in
    if negb (allocated =? st.(allocated_bytes)) ||
       negb (live =? st.(live_allocations)) ||
       negb (h.(block_count) =? st.(state_block_count)) then
      HEAP_STATUS_VALIDATION_FAILURE
    else HEAP_STATUS_OK.

Definition heap_get_state (h : heap) : heap_state := h.(state).
Definition heap_is_active (h : heap) : bool := h.(state).(active).

(** * The self-test

    The stack tables of the C tests are uninitialized beyond what each test
    writes; [junk] stands for their contents. *)

Definition is_at (o : option Z) (i : Z) : bool := bool_decide (o = Some i).
Definition entry_is (t : list heap_block) (i off sz : Z) (u : bool) : bool :=
  bool_decide (aget blank t i = MkBlock off sz u).
Definition set_used (t : list heap_block) (i : Z) (u : bool) : list heap_block :=
  aset t i (MkBlock (aget blank t i).(offset) (aget blank t i).(size) u).

Definition test_table_operations (junk : heap_block) : bool :=
  let table := replicate (Z.to_nat HEAP_MAX_BLOCKS) junk in
  let table := aset table 0 (MkBlock 0 PAGING_PAGE_SIZE false) in
  if negb (is_at (find_fit table 1 64) 0) then false else
  let '(ok, table, count) := split_block table 1 0 64 in
  if negb ok || negb (count =? 2) || negb (entry_is table 0 0 64 true) ||
     negb (entry_is table 1 64 (PAGING_PAGE_SIZE - 64) false) then false else
  if negb (validate_table table count PAGING_PAGE_SIZE) then false else
  if is_at (find_fit table count 32) 0 then false else
  if negb (is_at (find_fit table count 32) 1) then false else
  let '(ok, table, count) := split_block table count 1 32 in
  if negb ok || negb (count =? 3) || negb (entry_is table 1 64 32 true) ||
     negb ((aget blank table 2).(offset) =? 96) || (aget blank table 2).(used)
  then false else
  let '(table, count) := merge_free_neighbours (set_used table 1 false) count 1 in
  if negb (count =? 2) || negb (entry_is table 1 64 (PAGING_PAGE_SIZE - 64) false)
  then false else
  let '(table, count) := merge_free_neighbours (set_used table 0 false) count 0 in
  if negb (count =? 1) || negb (entry_is table 0 0 PAGING_PAGE_SIZE false)
  then false else
  validate_table table count PAGING_PAGE_SIZE.

Definition test_table_validation : bool :=
  let table := [MkBlock 0 0 false; MkBlock 0 0 false; MkBlock 0 0 false] in
  if negb (validate_table table 0 0) || validate_table table 0 PAGING_PAGE_SIZE
  then false else
  let table := aset (aset table 0 (MkBlock 0 64 true)) 1 (MkBlock 64 64 false) in
  if negb (validate_table table 2 128) then false else
  if validate_table table 2 129 || validate_table table 2 64 then false else
  let table := aset table 1 (MkBlock 80 64 false) in
  if validate_table table 2 144 then false else
  let table := aset table 1 (MkBlock 48 64 false) in
  if validate_table table 2 112 then false else
  let table := aset table 1 (MkBlock 64 65 false) in
  if validate_table table 2 129 then false else
  let table := aset table 1 (MkBlock 64 0 false) in
  if validate_table table 2 64 then false else
  let table := set_used (aset table 1 (MkBlock 64 64 false)) 0 false in
  if validate_table table 2 128 then false else
  validate_table (set_used table 0 true) 2 128.

Definition test_block_lookup_and_capacity (junk : heap_block) : bool :=
  let table := replicate (Z.to_nat HEAP_MAX_BLOCKS) junk in
  let table := aset (aset table 0 (MkBlock 0 64 true)) 1 (MkBlock 64 64 false) in
  if negb (is_at (block_index_for_offset table 2 64) 1) then false else
  if bool_decide (is_Some (block_index_for_offset table 2 32)) ||
     bool_decide (is_Some (block_index_for_offset table 2 128)) ||
     bool_decide (is_Some (block_index_for_offset table 0 0)) then false else
  let count := HEAP_MAX_BLOCKS in
  let table :=
    foldl (fun t position =>
        aset t position (MkBlock (position * HEAP_ALIGNMENT) HEAP_ALIGNMENT true))
      table (seqZ 0 count) in
  let last := aget blank table (count - 1) in
  let table := aset table (count - 1)
                 (MkBlock last.(offset) (HEAP_ALIGNMENT * 4) false) in
  let '(ok, table, count) := split_block table count (count - 1) HEAP_ALIGNMENT in
  if ok then false else
  let '(ok, table, count) :=
    split_block table count (count - 1) (HEAP_ALIGNMENT * 4) in
  if negb ok || negb (count =? HEAP_MAX_BLOCKS) ||
     negb ((aget blank table (count - 1)).(size) =? HEAP_ALIGNMENT * 4) ||
     negb (aget blank table (count - 1)).(used) then false else true.

Definition heap_self_test (junk : heap_block) (h : heap) (m : M) : bool :=
  if negb (test_table_operations junk) || negb test_table_validation ||
     negb (test_block_lookup_and_capacity junk) then false else
  if negb (align_up 0 HEAP_ALIGNMENT =? 0) ||
     negb (align_up 1 HEAP_ALIGNMENT =? HEAP_ALIGNMENT) ||
     negb (align_up HEAP_ALIGNMENT HEAP_ALIGNMENT =? HEAP_ALIGNMENT) ||
     negb (align_up (HEAP_ALIGNMENT + 1) HEAP_ALIGNMENT =? HEAP_ALIGNMENT * 2)
  then false else
  if heap_is_active h then false else
  let '(status, pointer, h, m) := heap_allocate 16 true h m in
  if negb (bool_decide (status = HEAP_STATUS_NOT_INITIALIZED)) ||
     negb (bool_decide (pointer = Some 0)) then false else
  let '(status, h) := heap_free HEAP_BASE h in
  if negb (bool_decide (status = HEAP_STATUS_NOT_INITIALIZED)) ||
     negb (bool_decide (heap_verify h m = HEAP_STATUS_NOT_INITIALIZED)) then false else
  let '(status, _, h, m) := heap_allocate 16 false h m in
  if negb (bool_decide (status = HEAP_STATUS_NULL_ARGUMENT)) then false else
  let snapshot := heap_get_state h in
  negb snapshot.(active) && (snapshot.(committed_bytes) =? 0) &&
  (snapshot.(state_block_count) =? 0) && (snapshot.(live_allocations) =? 0).
End platform.

(** * The table as a list of blocks *)

Definition live (table : list heap_block) (count : Z) : list heap_block :=
  take (Z.to_nat count) table.

Section tables.
Implicit Types (t pre post : list heap_block) (b : heap_block) (n i : Z).

Lemma scan_Some p t n i :
  scan p t n = Some i ->
  0 <= i < n /\ p (aget blank t i) = true /\
  forall j, 0 <= j < i -> p (aget blank t j) = false.
Proof.
  unfold scan. rewrite (for_each_scan (fun i => p (aget blank t i))).
  destruct (List.find _ _) as [k|] eqn:E; [|done]. intros [= <-].
  apply find_seqZ_Some in E as (? & ? & ?). split_and!; done || lia.
Qed.

Lemma scan_None p t n :
  scan p t n = None <-> forall j, 0 <= j < n -> p (aget blank t j) = false.
Proof.
  unfold scan. rewrite (for_each_scan (fun i => p (aget blank t i))).
  destruct (List.find _ _) as [k|] eqn:E.
  - split; [done|]. intros Hno. apply find_seqZ_Some in E as (Hk & Hp & _).
    rewrite Hno in Hp by lia. done.
  - split; [|done]. intros _ j Hj. rewrite find_seqZ_None in E. apply E. lia.
Qed.

(** The loop of remove_block moves a stretch one place down. *)
Lemma shift_down_spec t i k :
  0 <= i -> 0 <= k -> i + k < zlength t ->
  let t' := foldl (fun t p => aset t p (aget blank t (p + 1))) t (seqZ i k) in
  zlength t' = zlength t /\
  forall j, 0 <= j -> aget blank t' j =
    if (i <=? j) && (j <? i + k) then aget blank t (j + 1) else aget blank t j.
Proof.
  intros Hi Hk. pattern k. apply natlike_ind; [| |done]; clear k Hk.
  - intros _. rewrite seqZ_nil by lia. split; [done|]. intros j Hj.
    destruct (i <=? j) eqn:?, (j <? i + 0) eqn:?; bool_hyps; done || lia.
  - intros k Hk IH Hle. destruct IH as [IHl IHg]; [lia|].
    assert (seqZ i (Z.succ k) = seqZ i k ++ [i + k]) as ->
      by (rewrite <- Z.add_1_r, seqZ_app by lia; done).
    rewrite foldl_app. cbn. split; [by rewrite zlength_aset|].
    intros j Hj. rewrite aget_aset by lia.
    destruct (i + k =? j) eqn:?; bool_hyps.
    + rewrite IHg by lia.
      destruct (i <=? i + k + 1) eqn:?, (i + k + 1 <? i + k) eqn:?,
        (i <=? j) eqn:?, (j <? i + Z.succ k) eqn:?; bool_hyps; try lia; subst; done.
    + rewrite IHg by lia.
      destruct (i <=? j) eqn:?, (j <? i + k) eqn:?, (j <? i + Z.succ k) eqn:?;
        bool_hyps; done || lia.
Qed.

(** The loop of split_block moves a stretch one place up. *)
Lemma shift_up_spec t a k :
  1 <= a -> 0 <= k -> a + k <= zlength t ->
  let t' := foldl (fun t p => aset t p (aget blank t (p - 1))) t (reverse (seqZ a k)) in
  zlength t' = zlength t /\
  forall j, 0 <= j -> aget blank t' j =
    if (a <=? j) && (j <? a + k) then aget blank t (j - 1) else aget blank t j.
Proof.
  intros Ha Hk. revert t. pattern k. apply natlike_ind; [| |done]; clear k Hk.
  - intros t _. rewrite seqZ_nil by lia. split; [done|]. intros j Hj.
    destruct (a <=? j) eqn:?, (j <? a + 0) eqn:?; bool_hyps; done || lia.
  - intros k Hk IH t Hle.
    assert (reverse (seqZ a (Z.succ k)) = (a + k) :: reverse (seqZ a k)) as ->.
    { rewrite <- Z.add_1_r, seqZ_app, reverse_app by lia. done. }
    cbn. set (t1 := aset t (a + k) _).
    assert (zlength t1 = zlength t) as Hl by apply zlength_aset.
    destruct (IH t1) as [IHl IHg]; [lia|]. split; [lia|].
    intros j Hj. rewrite IHg by lia.
    assert (forall x, 0 <= x -> aget blank t1 x =
      if a + k =? x then aget blank t (a + k - 1) else aget blank t x) as Hg1
      by (intros; apply aget_aset; lia).
    destruct (a <=? j) eqn:?, (j <? a + k) eqn:?, (j <? a + Z.succ k) eqn:?;
      bool_hyps; try lia; cbn; rewrite Hg1 by lia.
    + destruct (a + k =? j - 1) eqn:?; bool_hyps; [lia|done].
    + destruct (a + k =? j) eqn:?; bool_hyps; [by subst|lia].
    + destruct (a + k =? j) eqn:?; bool_hyps; [lia|done].
    + destruct (a + k =? j) eqn:?; bool_hyps; [lia|done].
Qed.

(** The table holds [pre ++ b :: post]. *)
Definition holds t n pre b post : Prop :=
  0 <= n <= zlength t /\ live t n = pre ++ b :: post.

Lemma live_zlength t n : 0 <= n <= zlength t -> zlength (live t n) = n.
Proof. apply zlength_take. Qed.

Lemma holds_count t n pre b post :
  holds t n pre b post -> n = zlength pre + 1 + zlength post.
Proof.
  intros [Hn E]. rewrite <- (live_zlength t n Hn), E, zlength_app, zlength_cons. lia.
Qed.

Lemma holds_get t n pre b post j :
  holds t n pre b post -> 0 <= j < n ->
  aget blank t j =
  if j <? zlength pre then aget blank pre j
  else if j =? zlength pre then b else aget blank post (j - zlength pre - 1).
Proof.
  intros Hh Hj. pose proof (holds_count _ _ _ _ _ Hh). destruct Hh as [Hn E].
  rewrite <- (aget_take blank n) by done. fold (live t n). rewrite E, aget_app by lia.
  destruct (j <? zlength pre) eqn:?; [done|]. bool_hyps. rewrite aget_cons by lia.
  destruct (j =? zlength pre) eqn:?, (j - zlength pre =? 0) eqn:?; bool_hyps;
    done || lia.
Qed.

Lemma holds_at t n pre b post :
  holds t n pre b post -> aget blank t (zlength pre) = b.
Proof.
  intros Hh. pose proof (holds_count _ _ _ _ _ Hh). pose proof (zlength_nonneg post).
  pose proof (zlength_nonneg pre).
  rewrite (holds_get _ _ _ _ _ _ Hh) by lia.
  by rewrite Z.ltb_irrefl, Z.eqb_refl.
Qed.

(** Every index below the count splits the table. *)
Lemma live_holds t n i :
  0 <= i < n -> n <= zlength t ->
  exists pre post, holds t n pre (aget blank t i) post /\ zlength pre = i.
Proof.
  intros Hi Hn. exists (take (Z.to_nat i) (live t n)), (drop (S (Z.to_nat i)) (live t n)).
  split; [split; [lia|]|].
  - rewrite <- (take_drop (Z.to_nat i) (live t n)) at 1. f_equal.
    rewrite (drop_S _ (aget blank t i)); [done|].
    unfold live. rewrite lookup_take_lt by lia. apply lookup_aget. lia.
  - apply zlength_take. rewrite live_zlength; lia.
Qed.

(** A table is determined below its count by its entries. *)
Lemma live_intro t n l :
  0 <= n <= zlength t -> zlength l = n ->
  (forall j, 0 <= j < n -> aget blank t j = aget blank l j) -> live t n = l.
Proof.
  intros Hn Hl Hg. apply (list_eq_aget blank); rewrite live_zlength by done; [done|].
  intros j Hj. unfold live. rewrite aget_take by done. auto.
Qed.

Lemma holds_update t n pre b post b' :
  holds t n pre b post -> holds (aset t (zlength pre) b') n pre b' post.
Proof.
  intros Hh. pose proof (holds_count _ _ _ _ _ Hh). pose proof (zlength_nonneg pre).
  pose proof (zlength_nonneg post). destruct (Hh) as [Hn E].
  split; [by rewrite zlength_aset|]. apply live_intro;
    [by rewrite zlength_aset|rewrite zlength_app, zlength_cons; lia|].
  intros j Hj. rewrite aget_aset, aget_app by lia.
  rewrite (holds_get _ _ _ _ _ _ Hh) by lia.
  destruct (zlength pre =? j) eqn:?, (j <? zlength pre) eqn:?; bool_hyps; try done || lia;
    rewrite aget_cons by lia; destruct (j =? zlength pre) eqn:?,
    (j - zlength pre =? 0) eqn:?; bool_hyps; done || lia.
Qed.

Lemma remove_block_spec t n pre b post :
  holds t n pre b post -> n <= HEAP_MAX_BLOCKS ->
  let '(t', n') := remove_block t n (zlength pre) in
  n' = n - 1 /\ zlength t' = zlength t /\ live t' n' = pre ++ post.
Proof.
  intros Hh Hmax. pose proof (holds_count _ _ _ _ _ Hh). pose proof (zlength_nonneg pre).
  pose proof (zlength_nonneg post). destruct (Hh) as [Hn E]. unfold remove_block.
  unfold HEAP_MAX_BLOCKS in *.
  destruct (shift_down_spec t (zlength pre) (n - 1 - zlength pre)) as [Hl Hg]; [lia..|].
  rewrite u64_small by (unfold is_u64, UINT64_MAX; lia).
  split_and!; [done|done|]. apply live_intro; [lia|rewrite zlength_app; lia|].
  intros j Hj. rewrite Hg, aget_app by lia.
  replace (zlength pre + (n - 1 - zlength pre)) with (n - 1) by lia.
  destruct (zlength pre <=? j) eqn:?, (j <? n - 1) eqn:?, (j <? zlength pre) eqn:?;
    bool_hyps; try lia; cbn.
  - rewrite (holds_get _ _ _ _ _ _ Hh) by lia.
    destruct (j + 1 <? zlength pre) eqn:?, (j + 1 =? zlength pre) eqn:?; bool_hyps; try lia.
    f_equal. lia.
  - rewrite (holds_get _ _ _ _ _ _ Hh) by lia.
    destruct (j <? zlength pre) eqn:?; bool_hyps; done || lia.
Qed.

(** What split_block does to the list of blocks. *)
Lemma split_block_spec t n pre b post sz :
  holds t n pre b post -> zlength t = HEAP_MAX_BLOCKS ->
  0 <= sz <= b.(size) -> 0 <= b.(offset) -> b.(offset) + b.(size) <= HEAP_SIZE ->
  let '(ok, t', n') := split_block t n (zlength pre) sz in
  zlength t' = HEAP_MAX_BLOCKS /\
  if b.(size) - sz <? HEAP_ALIGNMENT then
    ok = true /\ n' = n /\ aget blank t' (zlength pre) = MkBlock b.(offset) b.(size) true /\
    live t' n' = pre ++ MkBlock b.(offset) b.(size) true :: post
  else if n =? HEAP_MAX_BLOCKS then ok = false /\ t' = t /\ n' = n
  else
    ok = true /\ n' = n + 1 /\ aget blank t' (zlength pre) = MkBlock b.(offset) sz true /\
    live t' n' = pre ++ MkBlock b.(offset) sz true ::
                   MkBlock (b.(offset) + sz) (b.(size) - sz) false :: post.
Proof.
  intros Hh Hlen Hsz Hoff Hend. pose proof (holds_count _ _ _ _ _ Hh).
  pose proof (zlength_nonneg pre). pose proof (zlength_nonneg post).
  pose proof (holds_at _ _ _ _ _ Hh) as Hat.
  destruct (Hh) as [Hn E]. unfold split_block. rewrite Hat.
  unfold HEAP_SIZE, HEAP_ALIGNMENT, HEAP_MAX_BLOCKS in *.
  rewrite !u64_small by (unfold is_u64, UINT64_MAX; lia).
  destruct (size b - sz <? 16) eqn:Er, (size b - sz >=? 16) eqn:Er2; bool_hyps; try lia.
  - destruct (holds_update t n pre b post (MkBlock b.(offset) b.(size) true) Hh) as [_ E'].
    split_and!; try done; [by rewrite zlength_aset|]. by rewrite aget_aset_eq by lia.
  - destruct (n =? 256) eqn:En; bool_hyps; [by split_and!|].
    destruct (shift_up_spec t (zlength pre + 2) (n - (zlength pre + 1))) as [Hl Hg];
      [lia..|].
    set (t1 := foldl _ _ _) in *.
    split; [by rewrite !zlength_aset, Hl|].
    split_and!; try done; [by rewrite aget_aset_eq by (rewrite zlength_aset; lia)|].
    apply live_intro; [rewrite !zlength_aset; lia|
      rewrite zlength_app, !zlength_cons; lia|].
    intros j Hj. rewrite aget_aset by (rewrite ?zlength_aset; lia).
    rewrite aget_aset by lia. rewrite Hg, aget_app by lia.
    destruct (zlength pre =? j) eqn:?, (zlength pre + 1 =? j) eqn:?,
      (j <? zlength pre) eqn:?; bool_hyps; try lia.
    + rewrite aget_cons by lia. destruct (j - zlength pre =? 0) eqn:?; bool_hyps; done || lia.
    + rewrite !aget_cons by lia. destruct (j - zlength pre =? 0) eqn:?; bool_hyps; [lia|].
      destruct (j - zlength pre - 1 =? 0) eqn:?; bool_hyps; done || lia.
    + destruct (zlength pre + 2 <=? j) eqn:?; bool_hyps; [lia|]. cbn.
      rewrite (holds_get _ _ _ _ _ _ Hh) by lia.
      destruct (j <? zlength pre) eqn:?; bool_hyps; done || lia.
    + rewrite !aget_cons by lia. destruct (j - zlength pre =? 0) eqn:?; bool_hyps; [lia|].
      destruct (j - zlength pre - 1 =? 0) eqn:?; bool_hyps; [lia|].
      destruct (zlength pre + 2 <=? j) eqn:?, (j <? zlength pre + 2 + _) eqn:?;
        bool_hyps; try lia. cbn. rewrite (holds_get _ _ _ _ _ _ Hh) by lia.
      destruct (j - 1 <? zlength pre) eqn:?, (j - 1 =? zlength pre) eqn:?;
        bool_hyps; try lia. f_equal. lia.
Qed.

(** Merging a free block into the block after it, and into the one before. *)
Definition join b b' : heap_block := MkBlock b.(offset) (b.(size) + b'.(size)) b.(used).
Definition merge_right b post : heap_block * list heap_block :=
  match post with
  | c :: post' => if c.(used) then (b, post) else (join b c, post')
  | [] => (b, [])
  end.
Definition merge_left pre b : list heap_block :=
  match reverse pre with
  | c :: rest => if c.(used) then pre ++ [b] else reverse rest ++ [join c b]
  | [] => [b]
  end.
Definition merged pre b post : list heap_block :=
  let '(b', post') := merge_right b post in merge_left pre b' ++ post'.

(** Sizes that cannot wrap when two neighbours are added. *)
Definition small b : Prop := 0 <= b.(size) <= HEAP_SIZE.

Lemma holds_next t n pre b c post :
  holds t n pre b (c :: post) -> holds t n (pre ++ [b]) c post.
Proof. intros [Hn E]. split; [done|]. by rewrite <- app_assoc. Qed.

Lemma absorb_spec t n pre b c post :
  holds t n pre b (c :: post) -> zlength t = HEAP_MAX_BLOCKS -> small b -> small c ->
  let '(t', n') := absorb t n (zlength pre) (zlength pre + 1) in
  zlength t' = HEAP_MAX_BLOCKS /\ holds t' n' pre (join b c) post.
Proof.
  intros Hh Hlen Hb Hc. unfold absorb. rewrite (holds_at _ _ _ _ _ Hh).
  pose proof (holds_at _ _ _ _ _ (holds_next _ _ _ _ _ _ Hh)) as Hat.
  rewrite zlength_app, zlength_cons in Hat. change (zlength []) with 0 in Hat.
  rewrite Z.add_0_l in Hat. rewrite Hat.
  unfold small, HEAP_SIZE in *. pose proof (proj1 Hh) as Hn.
  rewrite u64_small by (unfold is_u64, UINT64_MAX; lia). fold (join b c).
  set (t1 := aset t _ _).
  assert (holds t1 n (pre ++ [join b c]) c post) as Hh1.
  { apply holds_next. by apply holds_update with b. }
  pose proof (holds_count _ _ _ _ _ Hh1) as Hcount.
  pose proof (remove_block_spec _ _ _ _ _ Hh1) as Hr.
  rewrite zlength_app, zlength_cons in Hcount, Hr. change (zlength []) with 0 in *.
  rewrite Z.add_0_l in *. pose proof (zlength_nonneg pre). pose proof (zlength_nonneg post).
  destruct (remove_block t1 n (zlength pre + 1)) as [t' n'].
  destruct Hr as (-> & Hl & El); [lia|]. subst t1. rewrite zlength_aset in Hl.
  split; [lia|]. split; [lia|]. by rewrite El, <- app_assoc.
Qed.

(** ** The tiling invariant *)

(** The blocks tile [from, to): each starts where the one before it ends and is
    a positive whole number of allocation units. *)
Fixpoint tiles (bs : list heap_block) (from to : Z) : Prop :=
  match bs with
  | [] => from = to
  | b :: bs =>
      b.(offset) = from /\ 0 < b.(size) /\ b.(size) mod HEAP_ALIGNMENT = 0 /\
      tiles bs (from + b.(size)) to
  end.

(** No two free blocks side by side. *)
Fixpoint coalesced (bs : list heap_block) : Prop :=
  match bs with
  | [] => True
  | b :: bs' =>
      match bs' with
      | [] => True
      | c :: _ => b.(used) = true \/ c.(used) = true
      end /\ coalesced bs'
  end.

Lemma tiles_app l1 l2 from to :
  tiles (l1 ++ l2) from to <-> exists mid, tiles l1 from mid /\ tiles l2 mid to.
Proof.
  revert from. induction l1 as [|b l1 IH]; intros from; cbn.
  - split; [eauto|]. by intros (mid & <- & ?).
  - rewrite IH. naive_solver.
Qed.

Lemma tiles_le bs from to : tiles bs from to -> from <= to.
Proof.
  revert from. induction bs as [|b bs IH]; intros from; cbn; [lia|].
  intros (_ & ? & _ & ?%IH). lia.
Qed.

Lemma tiles_block pre b post from to :
  tiles (pre ++ b :: post) from to ->
  from <= b.(offset) /\ 0 < b.(size) /\ b.(offset) + b.(size) <= to.
Proof.
  rewrite tiles_app. intros (mid & H1%tiles_le & <- & ? & _ & H2%tiles_le). lia.
Qed.

Lemma tiles_elem bs b from to :
  tiles bs from to -> b ∈ bs -> from <= b.(offset) /\ 0 < b.(size) /\
  b.(offset) + b.(size) <= to.
Proof.
  intros Ht (pre & post & ->)%list_elem_of_split. by apply tiles_block in Ht.
Qed.

Lemma tiles_aligned pre b post from to :
  tiles (pre ++ b :: post) from to -> from mod HEAP_ALIGNMENT = 0 ->
  b.(offset) mod HEAP_ALIGNMENT = 0.
Proof.
  unfold HEAP_ALIGNMENT. revert from. induction pre as [|c pre IH]; intros from; cbn.
  - by intros (-> & _).
  - intros (_ & _ & Hm & Ht) Hf. unfold HEAP_ALIGNMENT in Hm. eapply IH; [done|].
    rewrite Z.add_mod, Hf, Hm by lia. done.
Qed.

(** Blocks before [b] end before it, blocks after it start after it. *)
Lemma tiles_order pre b post from to c :
  tiles (pre ++ b :: post) from to ->
  (c ∈ pre -> c.(offset) + c.(size) <= b.(offset)) /\
  (c ∈ post -> b.(offset) + b.(size) <= c.(offset)).
Proof.
  rewrite tiles_app. intros (mid & H1 & Ho & Hs & _ & H2). split; intros Hc.
  - pose proof (tiles_elem _ _ _ _ H1 Hc). lia.
  - pose proof (tiles_elem _ _ _ _ H2 Hc). lia.
Qed.

Lemma tiles_join pre b c post from to :
  tiles (pre ++ b :: c :: post) from to -> tiles (pre ++ join b c :: post) from to.
Proof.
  rewrite !tiles_app. intros (mid & ? & Ho & ? & Hm & Hc & ? & Hm' & ?).
  exists mid. split; [done|]. cbn. unfold HEAP_ALIGNMENT in *. split_and!; try done; [lia| |].
  - rewrite Z.add_mod, Hm, Hm' by lia. done.
  - by rewrite Z.add_assoc.
Qed.

Lemma tiles_small pre b post to :
  tiles (pre ++ b :: post) 0 to -> to <= HEAP_SIZE -> small b.
Proof. intros (? & ? & ?)%tiles_block ?. unfold small. lia. Qed.

Lemma tiles_set_used pre b post u from to :
  tiles (pre ++ b :: post) from to ->
  tiles (pre ++ MkBlock b.(offset) b.(size) u :: post) from to.
Proof. rewrite !tiles_app. done. Qed.

Lemma merge_right_spec t n pre b post to :
  holds t n pre b post -> zlength t = HEAP_MAX_BLOCKS ->
  tiles (pre ++ b :: post) 0 to -> to <= HEAP_SIZE ->
  let '(t', n') :=
    if (zlength pre + 1 <? n) && negb (aget blank t (zlength pre + 1)).(used) then
      absorb t n (zlength pre) (zlength pre + 1)
    else (t, n) in
  let '(b', post') := merge_right b post in
  zlength t' = HEAP_MAX_BLOCKS /\ holds t' n' pre b' post' /\
  tiles (pre ++ b' :: post') 0 to.
Proof.
  intros Hh Hlen Ht Hto. pose proof (holds_count _ _ _ _ _ Hh).
  destruct post as [|c post].
  - change (zlength []) with 0 in *.
    destruct (zlength pre + 1 <? n) eqn:E; bool_hyps; [lia|]. done.
  - rewrite zlength_cons in *. pose proof (zlength_nonneg post).
    destruct (zlength pre + 1 <? n) eqn:E; bool_hyps; [|lia].
    pose proof (holds_at _ _ _ _ _ (holds_next _ _ _ _ _ _ Hh)) as Hc.
    rewrite zlength_app, zlength_cons in Hc. change (zlength []) with 0 in Hc.
    rewrite Z.add_0_l in Hc. rewrite Hc. cbn [merge_right].
    destruct (used c) eqn:Eu; cbn [negb andb]; [done|].
    pose proof (tiles_small _ _ _ _ Ht Hto) as Hsb.
    assert (small c) as Hsc.
    { apply (tiles_small (pre ++ [b]) c post to); [|done]. by rewrite <- app_assoc. }
    pose proof (absorb_spec t n pre b c post Hh Hlen Hsb Hsc) as Hj.
    destruct (absorb t n _ _) as [t' n'].
    destruct Hj as [? ?]. split_and!; try done. by apply tiles_join.
Qed.

Lemma merge_spec t n pre b post to :
  holds t n pre b post -> zlength t = HEAP_MAX_BLOCKS ->
  tiles (pre ++ b :: post) 0 to -> to <= HEAP_SIZE ->
  let '(t', n') := merge_free_neighbours t n (zlength pre) in
  zlength t' = HEAP_MAX_BLOCKS /\ 0 <= n' <= HEAP_MAX_BLOCKS /\
  live t' n' = merged pre b post /\ tiles (merged pre b post) 0 to.
Proof.
  intros Hh Hlen Ht Hto. unfold merge_free_neighbours, merged.
  pose proof (merge_right_spec t n pre b post to Hh Hlen Ht Hto) as H1.
  match type of H1 with context [let '(_, _) := ?r in _] => destruct r as [t1 n1] end.
  destruct (merge_right b post) as [b1 post1]. destruct H1 as (Hl1 & Hh1 & Ht1).
  pose proof (holds_count _ _ _ _ _ Hh1). pose proof (proj1 Hh1).
  unfold merge_left. destruct (reverse pre) as [|c rest] eqn:Er.
  - apply (f_equal reverse) in Er. rewrite reverse_involutive in Er. subst pre.
    change (reverse []) with (@nil heap_block) in *. cbn [zlength length app].
    change (zlength []) with 0. cbn [Z.gtb andb].
    split; [done|]. split; [lia|]. split; [apply Hh1|exact Ht1].
  - apply (f_equal reverse) in Er. rewrite reverse_involutive, reverse_cons in Er.
    subst pre. set (pre := reverse rest) in *.
    rewrite zlength_app, zlength_cons in *. change (zlength []) with 0 in *.
    rewrite Z.add_0_l in *. pose proof (zlength_nonneg pre).
    destruct (zlength pre + 1 >? 0) eqn:E; bool_hyps; [|lia].
    replace (zlength pre + 1 - 1) with (zlength pre) by lia. cbn [andb].
    rewrite <- app_assoc in Ht1. destruct Hh1 as [Hn1 E1].
    rewrite <- app_assoc in E1.
    assert (holds t1 n1 pre c (b1 :: post1)) as Hh2 by done.
    pose proof (holds_at _ _ _ _ _ Hh2) as Hc.
    pose proof (holds_at _ _ _ _ _ (holds_next _ _ _ _ _ _ Hh2)) as Hb.
    rewrite zlength_app, zlength_cons in Hb. change (zlength []) with 0 in Hb.
    rewrite Z.add_0_l in Hb. rewrite Hc. destruct (used c) eqn:Eu; cbn [negb].
    + split_and!; try done; try lia; by rewrite <- !app_assoc.
    + pose proof (tiles_small _ _ _ _ Ht1 Hto) as Hsc.
      assert (small b1) as Hsb.
      { apply (tiles_small (pre ++ [c]) b1 post1 to); [|done]. by rewrite <- app_assoc. }
      pose proof (absorb_spec t1 n1 pre c b1 post1 Hh2 Hl1 Hsc Hsb) as Hj.
      destruct (absorb t1 n1 _ _) as [t' n'].
      destruct Hj as [? [? ?]].
      split_and!; try done; try lia; rewrite <- app_assoc; [done|by apply tiles_join].
Qed.

(** ** Coalescing *)

Definition apart (o o' : option heap_block) : Prop :=
  match o, o' with
  | Some b, Some c => b.(used) = true \/ c.(used) = true
  | _, _ => True
  end.

Lemma coalesced_cons b bs :
  coalesced (b :: bs) <-> apart (Some b) (head bs) /\ coalesced bs.
Proof. by destruct bs. Qed.

Lemma coalesced_app l1 l2 :
  coalesced (l1 ++ l2) <-> coalesced l1 /\ coalesced l2 /\ apart (last l1) (head l2).
Proof.
  induction l1 as [|b l1 IH]; [cbn; tauto|].
  rewrite <- app_comm_cons, !coalesced_cons, IH. destruct l1 as [|c l1].
  - cbn. tauto.
  - change (last (b :: c :: l1)) with (last (c :: l1)). cbn [head app]. tauto.
Qed.

Lemma merge_right_coalesced b post :
  coalesced post -> b.(used) = false ->
  let '(b', post') := merge_right b post in
  b'.(used) = false /\ coalesced (b' :: post') /\
  List.filter used post' = List.filter used post.
Proof.
  intros Hc Hb. destruct post as [|c post]; [done|]. cbn. destruct (used c) eqn:Eu.
  - split_and!; [done|by right|done|]. cbn. by rewrite Eu.
  - apply coalesced_cons in Hc as [Ha Hc]. split_and!; try done.
    apply coalesced_cons. split; [|done]. destruct post; [done|]. cbn in *.
    destruct Ha; [congruence|by right].
Qed.

Lemma merge_left_coalesced pre b :
  coalesced pre -> b.(used) = false ->
  coalesced (merge_left pre b) /\
  (forall o, apart (Some b) o -> apart (last (merge_left pre b)) o) /\
  List.filter used (merge_left pre b) = List.filter used pre.
Proof.
  intros Hc Hb. unfold merge_left. destruct (reverse pre) as [|c rest] eqn:Er.
  - apply (f_equal reverse) in Er. rewrite reverse_involutive in Er. subst pre.
    cbn. rewrite Hb. split_and!; done.
  - apply (f_equal reverse) in Er. rewrite reverse_involutive, reverse_cons in Er.
    subst pre. set (pre := reverse rest) in *. apply coalesced_app in Hc as (H1 & H2 & H3).
    destruct (used c) eqn:Eu.
    + rewrite last_snoc, !List.filter_app. cbn. rewrite Hb, Eu, app_nil_r.
      split_and!; try done. apply coalesced_app. split_and!; try done.
      { apply coalesced_app. split_and!; done. }
      rewrite last_snoc. by left.
    + rewrite last_snoc, !List.filter_app. cbn. rewrite Eu.
      split_and!; try done.
      * by apply coalesced_app; split_and!.
      * intros [o|]; [|done]. cbn. intros [?|?]; [congruence|by right].
Qed.

Lemma merged_spec pre b post :
  coalesced pre -> coalesced post -> b.(used) = false ->
  coalesced (merged pre b post) /\
  List.filter used (merged pre b post) = List.filter used (pre ++ post).
Proof.
  intros Hpre Hpost Hb. unfold merged.
  pose proof (merge_right_coalesced b post Hpost Hb) as H1.
  destruct (merge_right b post) as [b1 post1]. destruct H1 as (Hb1 & Hc1 & Hf1).
  destruct (merge_left_coalesced pre b1 Hpre Hb1) as (Hc2 & Ha2 & Hf2).
  apply coalesced_cons in Hc1 as [Ha1 Hc1]. split.
  - apply coalesced_app. split_and!; try done. by apply Ha2.
  - by rewrite !List.filter_app, Hf1, Hf2.
Qed.

(** ** The code's own check of the invariant *)

Lemma tiles_fun bs from to to' : tiles bs from to -> tiles bs from to' -> to = to'.
Proof.
  revert from. induction bs as [|b bs IH]; intros from; cbn; [congruence|].
  intros (_ & _ & _ & H1) (_ & _ & _ & H2). eauto.
Qed.

(** The loop body of validate_table accepts the next block. *)
Lemma validate_step t n k e c :
  0 <= k < n -> n <= HEAP_MAX_BLOCKS -> zlength t = HEAP_MAX_BLOCKS -> c <= HEAP_SIZE ->
  tiles (live t n) 0 c -> coalesced (live t n) -> tiles (live t k) 0 e ->
  let b := aget blank t k in
  b.(offset) = e /\ b.(size) <> 0 /\ b.(size) mod HEAP_ALIGNMENT = 0 /\
  (0 < k -> (aget blank t (k - 1)).(used) = true \/ b.(used) = true) /\
  tiles (live t (k + 1)) 0 (e + b.(size)) /\ 0 <= e + b.(size) <= HEAP_SIZE.
Proof.
  intros Hk Hn Hl Hc Ht Hco He b.
  destruct (live_holds t n k Hk ltac:(lia)) as (pre & post & Hh & Hpre). fold b in Hh.
  pose proof (zlength_nonneg post). pose proof (holds_count _ _ _ _ _ Hh) as Hcount.
  assert (live t k = pre) as Ek.
  { apply live_intro; [lia|done|]. intros j Hj.
    rewrite (holds_get _ _ _ _ _ _ Hh) by lia.
    destruct (j <? zlength pre) eqn:?; bool_hyps; done || lia. }
  assert (live t (k + 1) = pre ++ [b]) as Ek1.
  { unfold live. rewrite Z2Nat.inj_add, Nat.add_1_r by lia.
    rewrite (take_S_r _ _ b) by (apply lookup_aget; lia). by rewrite <- Ek. }
  destruct Hh as [_ E]. rewrite E in *. rewrite Ek in He.
  pose proof (tiles_block _ _ _ _ _ Ht) as (? & ? & ?).
  apply tiles_app in Ht as (mid & Hp & Ho & Hs & Hm & Hrest).
  assert (mid = e) as -> by (by eapply tiles_fun).
  split_and!; try done; try lia.
  - intros Hpos. apply coalesced_app in Hco as (_ & _ & Ha).
    destruct (last pre) as [c0|] eqn:El.
    + apply last_Some in El as [pre' ->]. rewrite zlength_app, zlength_cons in Hpre.
      change (zlength []) with 0 in Hpre. pose proof (zlength_nonneg pre').
      assert (aget blank t (k - 1) = c0) as ->; [|exact Ha].
      rewrite <- (aget_take blank n) by lia. fold (live t n).
      rewrite E, <- app_assoc, aget_app by lia. cbn [app]. rewrite aget_cons by lia.
      destruct (k - 1 <? zlength pre') eqn:?, (k - 1 - zlength pre' =? 0) eqn:?;
        bool_hyps; done || lia.
    + apply last_None in El as ->. change (zlength []) with 0 in Hpre. lia.
  - rewrite Ek1. apply tiles_app. exists e. split; [done|]. cbn. done.
Qed.

Lemma validate_complete t n c :
  0 <= n <= HEAP_MAX_BLOCKS -> zlength t = HEAP_MAX_BLOCKS -> c <= HEAP_SIZE ->
  tiles (live t n) 0 c -> coalesced (live t n) -> validate_table t n c = true.
Proof.
  intros Hn Hl Hc Ht Hco. unfold validate_table.
  destruct (n >? HEAP_MAX_BLOCKS) eqn:E; bool_hyps; [lia|].
  destruct (n =? 0) eqn:E0; bool_hyps.
  { subst n. cbn in Ht. by apply Z.eqb_eq. }
  match goal with |- context [for_each ?body _ _] => set (f := body) end.
  assert (match for_each f (seqZ 0 n) 0 with
    | Next e => exists k, 0 <= k <= n /\ [] = seqZ k (n - k) /\ tiles (live t k) 0 e
    | Return r => r = true end) as Hloop.
  { apply (for_each_inv (fun todo e => exists k, 0 <= k <= n /\
      todo = seqZ k (n - k) /\ tiles (live t k) 0 e) (fun r => r = true)).
    - intros i todo e (k & Hk & Htodo & He).
      assert (k < n) by (destruct (decide (k < n)); [done|];
        rewrite seqZ_nil in Htodo by lia; done).
      rewrite seqZ_cons in Htodo by lia. injection Htodo as -> ->.
      destruct (validate_step t n k e c) as (Ho & Hs & Hm & Ha & Hnext & Hr); try done;
        [lia..|].
      subst f. cbv beta zeta. apply Z.eqb_eq in Ho, Hm.
      apply Z.eqb_neq in Hs. rewrite Ho, Hm, Hs. cbn [negb orb].
      assert ((k >? 0) && negb (used (aget blank t (k - 1))) &&
        negb (used (aget blank t k)) = false) as ->.
      { destruct (k >? 0) eqn:Ek; [|done]. bool_hyps. destruct (Ha ltac:(lia)) as [Hu|Hu]; rewrite Hu;
          [done|apply andb_false_r]. }
      exists (k + 1). split_and!; [lia|lia|f_equal; lia|].
      rewrite u64_small; [done|]. unfold is_u64, UINT64_MAX, HEAP_SIZE in *. lia.
    - exists 0. rewrite Z.sub_0_r. split_and!; [lia|lia|done|done]. }
  destruct (for_each f (seqZ 0 n) 0) as [e|r]; [|done].
  destruct Hloop as (k & Hk & Hnil & He). apply Z.eqb_eq.
  assert (k = n) as ->.
  { destruct (decide (k < n)); [|lia]. rewrite seqZ_cons in Hnil by lia. done. }
  by eapply tiles_fun.
Qed.

(** ** What refresh_state counts *)

Definition used_bytes (bs : list heap_block) : Z :=
  foldr (fun b total => b.(size) + total) 0 (List.filter used bs).

Lemma used_bytes_le bs from to : tiles bs from to -> 0 <= used_bytes bs <= to - from.
Proof.
  unfold used_bytes. revert from. induction bs as [|b bs IH]; intros from; cbn; [lia|].
  intros (_ & ? & _ & ?%IH). destruct (used b); cbn; lia.
Qed.

Lemma tally_spec t n c :
  0 <= n <= HEAP_MAX_BLOCKS -> zlength t = HEAP_MAX_BLOCKS -> c <= HEAP_SIZE ->
  tiles (live t n) 0 c ->
  tally t n = (used_bytes (live t n), zlength (List.filter used (live t n))).
Proof.
  intros Hn Hl Hc Ht. unfold tally. rewrite foldl_aget by lia.
  fold (live t n). assert (zlength (live t n) = n) as Hz by (apply live_zlength; lia).
  assert (forall bs from to bytes count, tiles bs from to ->
    0 <= bytes -> bytes + (to - from) <= HEAP_SIZE -> 0 <= count ->
    count + zlength bs <= HEAP_MAX_BLOCKS ->
    foldl tally_block (bytes, count) bs =
    (bytes + used_bytes bs, count + zlength (List.filter used bs)))
    as H; [|rewrite (H _ 0 c); try lia; done].
  induction bs as [|b bs IH]; intros from to bytes count Hbs Hb Hle Hcnt Hmax.
  { cbn. by rewrite !Z.add_0_r. }
  cbn in Hbs. destruct Hbs as (Ho & Hs & _ & Hbs). pose proof (tiles_le _ _ _ Hbs).
  rewrite zlength_cons in Hmax. cbn [foldl]. unfold used_bytes, tally_block at 2.
  cbn [List.filter fst snd].
  unfold HEAP_SIZE, HEAP_MAX_BLOCKS in *. pose proof (zlength_nonneg bs).
  destruct (used b) eqn:Eu; cbn [foldr].
  - rewrite !u64_small by (unfold is_u64, UINT64_MAX; lia).
    rewrite (IH _ _ _ _ Hbs) by lia. rewrite zlength_cons. unfold used_bytes. f_equal; lia.
  - by rewrite (IH _ _ _ _ Hbs) by lia.
Qed.
End tables.


(** * What the heap relies on *)

(** Addresses are compared page by page: [a] is the address of a page. *)
Definition page_aligned (a : Z) : Prop := a mod PAGING_PAGE_SIZE = 0.
Definition page (p : Z) : Z := HEAP_BASE + p * PAGING_PAGE_SIZE.

(** The promises of the frame allocator and the page tables to a client:
    [owned m f] says that frame [f] has been handed to a client that has not
    given it back.
    - an allocated frame had no owner, and allocating or releasing one moves no
      translation;
    - paging_map takes an absent page to a writable 4 KiB mapping of the frame
      it is given, moves no other translation, and does nothing when it fails;
    - paging_unmap of such a page succeeds and makes that page, and no other,
      absent. *)
Class PlatformLaws (M : Type) `{HeapPlatform M} := {
  platform_ok : M -> Prop;
  owned : M -> Z -> Prop;
  law_allocate m : platform_ok m ->
    match frame_allocate m with
    | (Some f, m') => platform_ok m' /\ ~ owned m f /\
        (forall g, owned m' g <-> owned m g \/ g = f) /\
        (forall a, page_aligned a -> paging_translate m' a = paging_translate m a)
    | (None, m') => platform_ok m' /\ (forall g, owned m' g <-> owned m g) /\
        (forall a, page_aligned a -> paging_translate m' a = paging_translate m a)
    end;
  law_release m f : platform_ok m -> owned m f ->
    let m' := frame_release f m in
    platform_ok m' /\ (forall g, owned m' g <-> owned m g /\ g <> f) /\
    (forall a, page_aligned a -> paging_translate m' a = paging_translate m a);
  law_map m a f : platform_ok m -> page_aligned a -> owned m f ->
    let '(mapped, m') := paging_map a f m in
    platform_ok m' /\ (forall g, owned m' g <-> owned m g) /\
    (forall a', page_aligned a' -> (mapped = true -> a' <> a) ->
       paging_translate m' a' = paging_translate m a') /\
    (mapped = true -> paging_translate m a = NotMapped /\
       paging_translate m' a = Mapped f PAGING_WRITE 1);
  law_unmap m a f : platform_ok m -> page_aligned a ->
    paging_translate m a = Mapped f PAGING_WRITE 1 ->
    let '(gone, m') := paging_unmap a m in
    gone = true /\ platform_ok m' /\ (forall g, owned m' g <-> owned m g) /\
    (forall a', page_aligned a' -> a' <> a ->
       paging_translate m' a' = paging_translate m a') /\
    paging_translate m' a = NotMapped
}.

Section memory.
Context {M : Type} `{PlatformLaws M}.

(** [m] is [m0] with the pages [lo, hi) backed by the fresh frames [F]. *)
Record backed (m0 m : M) (lo hi : Z) (F : Z -> Z) : Prop := {
  bk_ok : platform_ok m;
  bk_in : forall p, lo <= p < hi ->
    paging_translate m (page p) = Mapped (F p) PAGING_WRITE 1 /\
    paging_translate m0 (page p) = NotMapped;
  bk_out : forall a, page_aligned a -> (forall p, lo <= p < hi -> a <> page p) ->
    paging_translate m a = paging_translate m0 a;
  bk_owned : forall g, owned m g <-> owned m0 g \/ exists p, lo <= p < hi /\ F p = g;
  bk_fresh : forall p, lo <= p < hi -> ~ owned m0 (F p);
  bk_inj : forall p q, lo <= p < hi -> lo <= q < hi -> F p = F q -> p = q
}.

Lemma page_is_aligned p : page_aligned (page p).
Proof.
  unfold page_aligned, page, HEAP_BASE, PAGING_PAGE_SIZE.
  rewrite Z.add_mod, Z.mod_mul by lia. done.
Qed.

Lemma page_inj p q : page p = page q -> p = q.
Proof. unfold page, PAGING_PAGE_SIZE. lia. Qed.

Lemma backed_none m0 F lo : platform_ok m0 -> backed m0 m0 lo lo F.
Proof.
  intros Hok. split; try done; try lia. intros g. split; [by left|].
  intros [?|(p & ? & _)]; [done|lia].
Qed.

(** An empty extent: the machine is as it was. *)
Lemma backed_empty m0 m lo F :
  backed m0 m lo lo F ->
  platform_ok m /\ (forall g, owned m g <-> owned m0 g) /\
  (forall a, page_aligned a -> paging_translate m a = paging_translate m0 a).
Proof.
  intros [Hok _ Hout Hown _ _]. split_and!; [done| |].
  - intros g. rewrite Hown. split; [|by left]. intros [?|(p & ? & _)]; [done|lia].
  - intros a Ha. apply Hout; [done|lia].
Qed.

(** One turn of the loop of commit_pages. *)
Lemma backed_commit m0 m lo hi F :
  backed m0 m lo hi F -> lo <= hi ->
  match frame_allocate m with
  | (None, m1) => backed m0 m1 lo hi F
  | (Some f, m1) =>
      let '(mapped, m2) := paging_map (page hi) f m1 in
      if mapped then
        backed m0 m2 lo (hi + 1) (fun p => if p =? hi then f else F p)
      else backed m0 (frame_release f m2) lo hi F
  end.
Proof.
  intros [Hok Hin Hout Hown Hfresh Hinj] Hle. pose proof (law_allocate m Hok) as Ha.
  destruct (frame_allocate m) as [[f|] m1].
  2: { destruct Ha as (Hok1 & Hown1 & Htr1). split; try done.
       - intros p Hp. rewrite Htr1 by apply page_is_aligned. auto.
       - intros a Haa Hno. rewrite Htr1 by done. auto.
       - intros g. by rewrite Hown1. }
  destruct Ha as (Hok1 & Hno1 & Hown1 & Htr1).
  pose proof (law_map m1 (page hi) f Hok1 (page_is_aligned hi)) as Hm.
  destruct (paging_map (page hi) f m1) as [[] m2].
  - destruct Hm as (Hok2 & Hown2 & Htr2 & Hnew); [apply Hown1; by right|].
    destruct (Hnew eq_refl) as [Hold Hnow].
    assert (forall p, p <> hi -> paging_translate m2 (page p) = paging_translate m (page p))
      as Hother.
    { intros p Hp. rewrite Htr2, Htr1 by (try apply page_is_aligned; intros _ E;
        by apply page_inj in E). done. }
    split; try done.
    + intros p Hp. destruct (p =? hi) eqn:E; bool_hyps.
      * subst p. split; [done|]. rewrite <- (Hout (page hi)), <- Htr1, Hold; try done;
          try apply page_is_aligned. intros p Hp' E'%page_inj. lia.
      * rewrite Hother by done. apply Hin. lia.
    + intros a Haa Hno. rewrite Htr2, Htr1; try done.
      * apply Hout; [done|]. intros p Hp. apply Hno. lia.
      * intros _. apply Hno. lia.
    + intros g. rewrite Hown2, Hown1, Hown. split.
      * intros [[?|(p & Hp & <-)]| ->]; [by left|right|right].
        -- exists p. split; [lia|]. destruct (p =? hi) eqn:E; bool_hyps; [lia|done].
        -- exists hi. split; [lia|]. by rewrite Z.eqb_refl.
      * intros [?|(p & Hp & E)]; [by left; left|].
        destruct (p =? hi) eqn:Ep; bool_hyps; [by right|]. left; right.
        exists p. split; [lia|done].
    + intros p Hp. destruct (p =? hi) eqn:E; bool_hyps; [|apply Hfresh; lia].
      intros Ho. apply Hno1, Hown. by left.
    + intros p q Hp Hq. destruct (p =? hi) eqn:Ep, (q =? hi) eqn:Eq; bool_hyps; try lia.
      * intros ->. exfalso. apply Hno1, Hown. right. exists q. split; [lia|done].
      * intros <-. exfalso. apply Hno1, Hown. right. exists p. split; [lia|done].
      * apply Hinj; lia.
  - destruct Hm as (Hok2 & Hown2 & Htr2 & _); [apply Hown1; by right|].
    destruct (law_release m2 f Hok2) as (Hok3 & Hown3 & Htr3).
    { apply Hown2, Hown1. by right. }
    assert (forall a, page_aligned a ->
      paging_translate (frame_release f m2) a = paging_translate m a) as Hsame.
    { intros a Haa. by rewrite Htr3, Htr2, Htr1 by done. }
    split; try done.
    + intros p Hp. rewrite Hsame by apply page_is_aligned. auto.
    + intros a Haa Hno. rewrite Hsame by done. auto.
    + intros g. rewrite Hown3, Hown2, Hown1, <- Hown.
      split; [tauto|]. intros Hg. split; [by left|]. intros ->. done.
Qed.

(** One turn of the loop of release_pages. *)
Lemma backed_release m0 m lo hi F st :
  backed m0 m lo hi F -> lo < hi ->
  exists m', release_page (lo * PAGING_PAGE_SIZE) (st, m) =
    (set_mapped st (u64 (st.(mapped_pages) - 1)), m') /\ backed m0 m' (lo + 1) hi F.
Proof.
  intros [Hok Hin Hout Hown Hfresh Hinj] Hlt. cbn.
  destruct (Hin lo ltac:(lia)) as [Hlo Habs]. fold (page lo). rewrite Hlo.
  pose proof (law_unmap m (page lo) (F lo) Hok (page_is_aligned lo) Hlo) as Hu.
  destruct (paging_unmap (page lo) m) as [gone m1].
  destruct Hu as (-> & Hok1 & Hown1 & Htr1 & Hgone). cbn [negb].
  destruct (law_release m1 (F lo) Hok1) as (Hok2 & Hown2 & Htr2).
  { apply Hown1, Hown. right. exists lo. split; [lia|done]. }
  eexists. split; [done|]. split; try done.
  - intros p Hp. rewrite Htr2, Htr1 by (try apply page_is_aligned;
      intros E%page_inj; lia). apply Hin. lia.
  - intros a Haa Hno. rewrite Htr2 by done.
    destruct (decide (a = page lo)) as [->|Hne]; [congruence|].
    rewrite Htr1 by done. apply Hout; [done|]. intros p Hp.
    destruct (decide (p = lo)) as [->|]; [done|]. apply Hno. lia.
  - intros g. rewrite Hown2, Hown1, Hown. split.
    + intros [[?|(p & Hp & <-)] Hne]; [by left|right]. exists p. split; [|done].
      destruct (decide (p = lo)) as [->|]; [done|lia].
    + intros [Hg|(p & Hp & <-)].
      * split; [by left|]. intros ->. by apply (Hfresh lo); [lia|].
      * split; [right; exists p; split; [lia|done]|]. intros E.
        assert (p = lo) by (apply Hinj; lia || done). lia.
  - intros p Hp. apply Hfresh. lia.
  - intros p q Hp Hq. apply Hinj; lia.
Qed.

Lemma page_offsets_pages lo hi :
  lo <= hi ->
  page_offsets (lo * PAGING_PAGE_SIZE) (hi * PAGING_PAGE_SIZE) =
  (fun p => p * PAGING_PAGE_SIZE) <$> seqZ lo (hi - lo).
Proof.
  intros Hle. unfold page_offsets, PAGING_PAGE_SIZE.
  replace (hi * 4096 - lo * 4096 + 4096 - 1) with (4095 + (hi - lo) * 4096) by lia.
  rewrite Z.div_add by lia. change (4095 / 4096) with 0. rewrite Z.add_0_l.
  unfold seqZ. rewrite <- !list_fmap_compose. apply list_fmap_ext.
  intros i k _. cbn. lia.
Qed.

Lemma set_mapped_twice st a b : set_mapped (set_mapped st a) b = set_mapped st b.
Proof. done. Qed.

Lemma set_mapped_same st : set_mapped st st.(mapped_pages) = st.
Proof. by destruct st. Qed.

(** release_pages undoes what was backed. *)
Lemma release_pages_spec m0 m lo hi F st :
  backed m0 m lo hi F -> lo <= hi -> hi - lo <= st.(mapped_pages) <= UINT64_MAX ->
  exists m', release_pages (lo * PAGING_PAGE_SIZE) (hi * PAGING_PAGE_SIZE) st m =
    (set_mapped st (st.(mapped_pages) - (hi - lo)), m') /\ backed m0 m' hi hi F.
Proof.
  intros Hb Hle Hst. unfold release_pages. rewrite page_offsets_pages by done.
  remember (hi - lo) as n eqn:En. assert (0 <= n) as Hn by lia. revert lo m st Hb Hle Hst En.
  pattern n. apply natlike_ind; [| |done]; clear n Hn.
  - intros lo m st Hb Hle Hst En. replace lo with hi in * by lia. exists m.
    rewrite seqZ_nil by lia. cbn. by rewrite Z.sub_0_r, set_mapped_same.
  - intros n Hn IH lo m st Hb Hle Hst En. rewrite seqZ_cons by lia. rewrite Z.pred_succ.
    cbn [fmap list_fmap foldl].
    destruct (backed_release m0 m lo hi F st Hb) as (m1 & -> & Hb1); [lia|].
    rewrite u64_small by (unfold is_u64; lia). rewrite <- Z.add_1_r.
    destruct (IH (lo + 1) m1 (set_mapped st (st.(mapped_pages) - 1)) Hb1)
      as (m2 & -> & Hb2); [lia|cbn; lia|lia|].
    exists m2. rewrite set_mapped_twice. split; [|done]. do 2 f_equal. cbn. lia.
Qed.

(** commit_pages is all or nothing. *)
Lemma commit_pages_spec m0 lo hi st :
  platform_ok m0 -> lo <= hi -> 0 <= st.(mapped_pages) ->
  st.(mapped_pages) + (hi - lo) <= UINT64_MAX ->
  let '(status, (st', m')) :=
    commit_pages (lo * PAGING_PAGE_SIZE) (hi * PAGING_PAGE_SIZE) st m0 in
  if bool_decide (status = HEAP_STATUS_OK) then
    st' = set_mapped st (st.(mapped_pages) + (hi - lo)) /\
    exists F, backed m0 m' lo hi F
  else
    (status = HEAP_STATUS_OUT_OF_MEMORY \/ status = HEAP_STATUS_MAPPING_FAILURE) /\
    st' = st /\ exists F, backed m0 m' hi hi F.
Proof.
  intros Hok Hle Hm0 Hmax. unfold commit_pages. rewrite page_offsets_pages by done.
  set (P := fun (todo : list Z) (x : heap_state * M) => exists k F, lo <= k <= hi /\
    todo = (fun p => p * PAGING_PAGE_SIZE) <$> seqZ k (hi - k) /\
    x.1 = set_mapped st (st.(mapped_pages) + (k - lo)) /\ backed m0 x.2 lo k F).
  set (Q := fun (r : heap_status * (heap_state * M)) =>
    (r.1 = HEAP_STATUS_OUT_OF_MEMORY \/ r.1 = HEAP_STATUS_MAPPING_FAILURE) /\
    r.2.1 = st /\ exists F, backed m0 r.2.2 hi hi F).
  assert (forall k F m, lo <= k <= hi -> backed m0 m lo k F ->
    let '(st', m') := release_pages (lo * PAGING_PAGE_SIZE) (k * PAGING_PAGE_SIZE)
      (set_mapped st (st.(mapped_pages) + (k - lo))) m in
    st' = st /\ exists F, backed m0 m' hi hi F) as Hundo.
  { intros k F m Hk Hb. destruct (release_pages_spec m0 m lo k F
      (set_mapped st (st.(mapped_pages) + (k - lo))) Hb) as (m' & -> & Hb');
      [lia|cbn; lia|].
    split; [rewrite set_mapped_twice; cbn; rewrite Z.add_simpl_r; apply set_mapped_same|].
    exists F. destruct Hb'. split; try done; try lia.
    - intros a Ha _. apply bk_out0; [done|lia].
    - intros g. rewrite bk_owned0. split; intros [?|(p & ? & _)]; try lia; by left. }
  assert (match for_each (commit_page (lo * PAGING_PAGE_SIZE))
    ((fun p => p * PAGING_PAGE_SIZE) <$> seqZ lo (hi - lo)) (st, m0) with
    | Next x => P [] x | Return r => Q r end) as Hloop.
  { apply (for_each_inv P Q).
    - intros off todo [st1 m1] (k & F & Hk & Htodo & Hst1 & Hb). cbn in Hst1. subst st1.
      assert (k < hi) by (destruct (decide (k < hi)); [done|];
        rewrite seqZ_nil in Htodo by lia; done).
      rewrite seqZ_cons in Htodo by lia. injection Htodo as -> ->. cbn [snd] in Hb.
      unfold commit_page. fold (page k).
      pose proof (backed_commit m0 m1 lo k F Hb ltac:(lia)) as Hs.
      destruct (frame_allocate m1) as [[f|] m2].
      2: { specialize (Hundo k F m2 ltac:(lia) Hs). split; [by left|].
           destruct (release_pages _ _ _ m2). exact Hundo. }
      destruct (paging_map (page k) f m2) as [[] m3]; cbn [negb].
      + eexists (k + 1), _. split_and!; [lia|lia| | |exact Hs].
        * f_equal. f_equal; lia.
        * cbn [fst]. rewrite set_mapped_twice. cbn [mapped_pages set_mapped].
          rewrite u64_small by (unfold is_u64; lia). f_equal. lia.
      + specialize (Hundo k F _ ltac:(lia) Hs). split; [by right|].
        destruct (release_pages _ _ _ _). exact Hundo.
    - exists lo, (fun _ => 0). split_and!; [lia|lia|done| |by apply backed_none].
      cbn. by rewrite Z.sub_diag, Z.add_0_r, set_mapped_same. }
  destruct (for_each _ _ _) as [[st1 m1]|[status [st1 m1]]].
  - cbn. destruct Hloop as (k & F & Hk & Hnil & Hst & Hb).
    assert (k = hi) as ->.
    { destruct (decide (k < hi)); [|lia]. rewrite seqZ_cons in Hnil by lia. done. }
    split; [exact Hst|]. by exists F.
  - destruct Hloop as (Hstatus & Hst & Hb). cbn in *.
    rewrite bool_decide_false by (by destruct Hstatus as [-> | ->]). done.
Qed.

(** * The invariant of an initialized heap *)

Definition heap_live (h : heap) : list heap_block := live h.(blocks) h.(block_count).
Definition heap_used (h : heap) : list heap_block := List.filter used (heap_live h).
Definition heap_pages (h : heap) : Z := h.(state).(committed_bytes) / PAGING_PAGE_SIZE.

Record inv (h : heap) (m : M) : Prop := {
  hi_active : h.(state).(active) = true;
  hi_table : zlength h.(blocks) = HEAP_MAX_BLOCKS;
  hi_count : 0 <= h.(block_count) <= HEAP_MAX_BLOCKS;
  hi_committed : 0 <= h.(state).(committed_bytes) <= HEAP_SIZE;
  hi_pages : h.(state).(committed_bytes) = heap_pages h * PAGING_PAGE_SIZE;
  hi_mapped : h.(state).(mapped_pages) = heap_pages h;
  hi_tiles : tiles (heap_live h) 0 h.(state).(committed_bytes);
  hi_coalesced : coalesced (heap_live h);
  hi_platform : platform_ok m;
  hi_below : paging_translate m HEAP_GUARD_BELOW = NotMapped;
  hi_above : paging_translate m HEAP_GUARD_ABOVE = NotMapped;
  hi_frames : exists F,
    (forall p, 0 <= p < heap_pages h ->
       paging_translate m (page p) = Mapped (F p) PAGING_WRITE 1 /\ owned m (F p)) /\
    (forall p q, 0 <= p < heap_pages h -> 0 <= q < heap_pages h -> F p = F q -> p = q)
}.

(** The figures heap_get_state reports are those of the table. *)
Definition fresh (h : heap) : Prop :=
  (h.(state).(allocated_bytes), h.(state).(live_allocations)) =
    tally h.(blocks) h.(block_count) /\
  h.(state).(state_block_count) = h.(block_count).

Lemma refresh_fresh h : fresh (refresh_state h).
Proof. unfold fresh, refresh_state. destruct (tally _ _) as [bytes n] eqn:E. done. Qed.

Lemma refresh_inv h m : inv h m -> inv (refresh_state h) m.
Proof.
  intros []. unfold refresh_state. destruct (tally h.(blocks) h.(block_count)). by split.
Qed.

Lemma refresh_live h : heap_live (refresh_state h) = heap_live h.
Proof. unfold refresh_state. by destruct (tally h.(blocks) h.(block_count)). Qed.

(** The machine may change as long as what the heap sees does not. *)
Lemma inv_same_machine h m m' :
  inv h m -> platform_ok m' -> (forall g, owned m' g <-> owned m g) ->
  (forall a, page_aligned a -> paging_translate m' a = paging_translate m a) -> inv h m'.
Proof.
  intros [? ? ? ? ? ? ? ? ? Hb Ha (F & HF & Hinj)] Hok Hown Htr. split; try done.
  - by rewrite Htr.
  - by rewrite Htr.
  - exists F. split; [|done]. intros p Hp. rewrite Htr, Hown by apply page_is_aligned.
    auto.
Qed.

(** A table change that keeps the extent. *)
Lemma inv_with_table h m t n :
  inv h m -> zlength t = HEAP_MAX_BLOCKS -> 0 <= n <= HEAP_MAX_BLOCKS ->
  tiles (live t n) 0 h.(state).(committed_bytes) -> coalesced (live t n) ->
  inv (with_table h t n) m.
Proof. intros []. intros. by split. Qed.

Lemma align_up_spec v k :
  0 <= k < 32 -> 0 <= v <= 2 ^ 32 ->
  v <= align_up v (2 ^ k) < v + 2 ^ k /\ align_up v (2 ^ k) mod 2 ^ k = 0.
Proof.
  intros Hk Hv. unfold align_up. pose proof (Z.pow_pos_nonneg 2 k).
  pose proof (Z.pow_lt_mono_r 2 k 32).
  rewrite u64_small by (unfold is_u64, UINT64_MAX; lia).
  rewrite land_high_mask by (unfold is_u64, UINT64_MAX; lia).
  pose proof (Z.mod_pos_bound (v + 2 ^ k - 1) (2 ^ k)). split; [lia|].
  rewrite Zminus_mod_idemp_r, Z.sub_diag. by apply Z.mod_0_l; lia.
Qed.

(** The trailing free block, if there is one, and how far it must grow. *)
Lemma live_last h m :
  inv h m -> 0 < h.(block_count) ->
  exists pre, heap_live h = pre ++ [aget blank h.(blocks) (h.(block_count) - 1)] /\
    zlength pre = h.(block_count) - 1.
Proof.
  intros [] Hc. destruct (live_holds h.(blocks) h.(block_count) (h.(block_count) - 1))
    as (pre & post & Hh & Hpre); [lia..|].
  pose proof (holds_count _ _ _ _ _ Hh). destruct Hh as [_ E].
  assert (post = []) as ->.
  { destruct post; [done|]. rewrite zlength_cons in *. pose proof (zlength_nonneg post). lia. }
  eauto.
Qed.

(** Growth of the extent by the pages [lo, hi). *)
Lemma inv_grow h m m' F st t n hi :
  inv h m -> backed m m' (heap_pages h) hi F -> heap_pages h <= hi ->
  hi * PAGING_PAGE_SIZE <= HEAP_SIZE ->
  st = set_committed (set_mapped h.(state) (h.(state).(mapped_pages) + (hi - heap_pages h)))
         (hi * PAGING_PAGE_SIZE) ->
  zlength t = HEAP_MAX_BLOCKS -> 0 <= n <= HEAP_MAX_BLOCKS ->
  tiles (live t n) 0 (hi * PAGING_PAGE_SIZE) -> coalesced (live t n) ->
  inv (MkHeap t st n) m'.
Proof.
  intros [? ? ? ? ? ? ? ? ? Hbelow Habove (F0 & HF & Hinj)] Hb Hle Hmax -> Hl Hn Ht Hco.
  destruct Hb as [Hok Hin Hout Hown Hfresh Hinj'].
  assert (heap_pages (MkHeap t (set_committed (set_mapped h.(state)
    (h.(state).(mapped_pages) + (hi - heap_pages h))) (hi * PAGING_PAGE_SIZE)) n) = hi) as Ehi.
  { unfold heap_pages. cbn. unfold PAGING_PAGE_SIZE. by rewrite Z.div_mul. }
  assert (0 <= heap_pages h) as Hpg by (apply Z.div_pos; [lia|done]).
  split; try done; rewrite ?Ehi; try done.
  - cbn. unfold PAGING_PAGE_SIZE in *. lia.
  - cbn. lia.
  - rewrite Hout; [done|done|]. intros p Hp. unfold page, HEAP_GUARD_BELOW, PAGING_PAGE_SIZE.
    lia.
  - rewrite Hout; [done|done|]. intros p Hp.
    unfold page, HEAP_GUARD_ABOVE, PAGING_PAGE_SIZE in *. lia.
  - exists (fun p => if p <? heap_pages h then F0 p else F p). split.
    + intros p Hp. destruct (p <? heap_pages h) eqn:E; bool_hyps.
      * destruct (HF p ltac:(lia)) as [Htr Ho]. split; [|apply Hown; by left].
        rewrite Hout; [done|apply page_is_aligned|]. intros q Hq E'%page_inj. lia.
      * split; [apply Hin; lia|]. apply Hown. right. exists p. split; [lia|done].
    + intros p q Hp Hq.
      destruct (p <? heap_pages h) eqn:Ep, (q <? heap_pages h) eqn:Eq; bool_hyps; intros E.
      * apply Hinj; done || lia.
      * exfalso. apply (Hfresh q); [lia|]. rewrite <- E. apply HF. lia.
      * exfalso. apply (Hfresh p); [lia|]. rewrite E. apply HF. lia.
      * apply Hinj'; done || lia.
Qed.

(** The block grow_for ends with. *)
Definition grown_block (h : heap) (growth : Z) : heap_block * list heap_block :=
  let last := aget blank h.(blocks) (h.(block_count) - 1) in
  if (h.(block_count) >? 0) && negb last.(used) then
    (MkBlock last.(offset) (last.(size) + growth) false,
     take (Z.to_nat (h.(block_count) - 1)) h.(blocks))
  else (MkBlock h.(state).(committed_bytes) growth false, heap_live h).

Lemma grown_block_spec h m growth :
  inv h m -> 0 < growth -> growth mod HEAP_ALIGNMENT = 0 ->
  h.(state).(committed_bytes) + growth <= HEAP_SIZE ->
  let '(b, pre) := grown_block h growth in
  tiles (pre ++ [b]) 0 (h.(state).(committed_bytes) + growth) /\ coalesced (pre ++ [b]) /\
  List.filter used (pre ++ [b]) = heap_used h /\ b.(used) = false.
Proof.
  intros Hi Hg Hgm Hmax. unfold grown_block. set (lb := aget _ _ _).
  destruct ((h.(block_count) >? 0) && negb lb.(used)) eqn:E.
  - apply andb_prop in E as [E Hu]. bool_hyps. destruct (live_last h m Hi) as (pre & El & Hpre); [lia|]. fold lb in El.
    assert (take (Z.to_nat (h.(block_count) - 1)) h.(blocks) = pre) as ->.
    { fold (live h.(blocks) (h.(block_count) - 1)). destruct Hi.
      apply live_intro; [lia|done|]. intros j Hj.
      rewrite <- (aget_take blank h.(block_count)) by lia. fold (live h.(blocks) h.(block_count)).
      fold (heap_live h). rewrite El, aget_app by lia.
      destruct (j <? zlength pre) eqn:?; bool_hyps; done || lia. }
    pose proof (hi_tiles _ _ Hi) as Ht. pose proof (hi_coalesced _ _ Hi) as Hc.
    rewrite El in Ht, Hc. apply tiles_app in Ht as (mid & Ht1 & Ho & Hs & Hm & Hend).
    cbn in Hend. apply coalesced_app in Hc as (Hc1 & _ & Ha). split_and!; try done.
    + apply tiles_app. exists mid. split; [done|]. cbn. unfold HEAP_ALIGNMENT in *.
      split_and!; [done|lia| |lia]. rewrite Z.add_mod, Hm, Hgm by lia. done.
    + apply coalesced_app. split_and!; [done|done|]. destruct (last pre); [|done]. cbn in *.
      destruct Ha; [by left|congruence].
    + unfold heap_used. rewrite El, !List.filter_app. cbn. by rewrite Hu.
  - pose proof (hi_tiles _ _ Hi) as Ht. pose proof (hi_coalesced _ _ Hi) as Hc.
    split_and!; try done.
    + apply tiles_app. exists h.(state).(committed_bytes). split; [done|]. cbn. done.
    + apply coalesced_app. split_and!; [done|done|].
      destruct (decide (0 < h.(block_count))) as [Hpos|Hneg].
      * destruct (live_last h m Hi Hpos) as (pre & El & _). rewrite El, last_snoc.
        fold lb. cbn. left.
        assert ((h.(block_count) >? 0) = true) as Ec by (apply Z.gtb_lt; lia).
        rewrite Ec in E. by destruct (used lb).
      * destruct Hi. unfold heap_live, live. replace (Z.to_nat h.(block_count)) with 0%nat
          by lia. done.
    + unfold heap_used. rewrite List.filter_app. cbn. by rewrite app_nil_r.
Qed.

Lemma grow_table_live h m growth :
  inv h m -> 0 < growth -> h.(state).(committed_bytes) + growth <= HEAP_SIZE ->
  ((h.(block_count) >? 0) && negb (aget blank h.(blocks) (h.(block_count) - 1)).(used)
     = true \/ h.(block_count) < HEAP_MAX_BLOCKS) ->
  let last := aget blank h.(blocks) (h.(block_count) - 1) in
  let extend := (h.(block_count) >? 0) && negb last.(used) in
  let t := if extend then
      aset h.(blocks) (h.(block_count) - 1)
        (MkBlock last.(offset) (u64 (last.(size) + growth)) last.(used))
    else aset h.(blocks) h.(block_count)
           (MkBlock h.(state).(committed_bytes) growth false) in
  let n := if extend then h.(block_count) else h.(block_count) + 1 in
  let '(b, pre) := grown_block h growth in
  zlength t = HEAP_MAX_BLOCKS /\ 0 < n <= HEAP_MAX_BLOCKS /\
  live t n = pre ++ [b] /\ zlength pre = n - 1 /\
  (if extend then last.(size) + growth else growth) = b.(size).
Proof.
  intros Hi Hg Hmax Hroom last extend t n. unfold grown_block. fold last. fold extend.
  fold last in Hroom. fold extend in Hroom. pose proof Hi as [].
  destruct extend eqn:E; subst t n.
  - unfold extend in E. apply andb_prop in E as [Ec Hu]. bool_hyps.
    destruct (live_last h m Hi) as (pre & El & Hpre); [lia|]. fold last in El.
    assert (holds h.(blocks) h.(block_count) pre last []) as Hh by (split; [lia|done]).
    rewrite El in hi_tiles0. pose proof (tiles_block _ _ _ _ _ hi_tiles0) as (? & ? & ?).
    unfold HEAP_SIZE in *.
    rewrite u64_small by (unfold is_u64, UINT64_MAX; lia).
    pose proof (holds_update _ _ _ _ _
      (MkBlock last.(offset) (last.(size) + growth) last.(used)) Hh) as [_ Hlive].
    rewrite Hpre in Hlive. rewrite Hu in *.
    assert (take (Z.to_nat (h.(block_count) - 1)) h.(blocks) = pre) as ->.
    { fold (live h.(blocks) (h.(block_count) - 1)).
      apply live_intro; [lia|done|]. intros j Hj.
      rewrite (holds_get _ _ _ _ _ _ Hh) by lia.
      destruct (j <? zlength pre) eqn:?; bool_hyps; done || lia. }
    split_and!; try done; try lia. by rewrite zlength_aset.
  - destruct Hroom as [|Hroom]; [done|]. unfold HEAP_MAX_BLOCKS in *.
    assert (zlength (heap_live h) = h.(block_count)) as Hz by (apply live_zlength; lia).
    split_and!; try done; try lia.
    + by rewrite zlength_aset.
    + apply live_intro; [rewrite zlength_aset; lia|
        rewrite zlength_app, zlength_cons; change (zlength []) with 0; lia|].
      intros j Hj. rewrite aget_aset, aget_app by lia. rewrite Hz.
      destruct (block_count h =? j) eqn:?, (j <? block_count h) eqn:?; bool_hyps; try lia.
      * subst j. by rewrite Z.sub_diag.
      * unfold heap_live, live. by rewrite aget_take by lia.
Qed.

Lemma grow_for_spec h m sz :
  inv h m -> 0 < sz <= HEAP_SIZE -> sz mod HEAP_ALIGNMENT = 0 ->
  find_fit h.(blocks) h.(block_count) sz = None ->
  let '(status, index, h', m') := grow_for sz h m in
  if bool_decide (status = HEAP_STATUS_OK) then
    inv h' m' /\ heap_pages h < heap_pages h' /\ heap_used h' = heap_used h /\
    exists pre b, heap_live h' = pre ++ [b] /\ zlength pre = index /\
      b.(used) = false /\ sz <= b.(size)
  else
    (status = HEAP_STATUS_OUT_OF_MEMORY \/ status = HEAP_STATUS_OUT_OF_BLOCKS \/
     status = HEAP_STATUS_MAPPING_FAILURE) /\ h' = h /\ inv h m'.
Proof.
  intros Hi Hsz Hal Hfit. pose proof Hi as []. unfold grow_for.
  set (last := aget blank h.(blocks) (h.(block_count) - 1)).
  set (extend := (h.(block_count) >? 0) && negb last.(used)).
  set (trailing := if extend then last.(size) else 0).
  assert (0 <= trailing < sz) as Htr.
  { subst trailing. destruct extend eqn:E; [|lia]. unfold extend in E.
    apply andb_prop in E as [Ec Hu]. bool_hyps.
    destruct (live_last h m Hi) as (pre & El & Hpre); [lia|]. fold last in El.
    rewrite El in hi_tiles0. pose proof (tiles_block _ _ _ _ _ hi_tiles0) as (? & ? & ?).
    unfold find_fit in Hfit. rewrite scan_None in Hfit.
    specialize (Hfit (h.(block_count) - 1) ltac:(lia)). cbv beta in Hfit. fold last in Hfit.
    rewrite Hu in Hfit. cbn in Hfit. bool_hyps. lia. }
  rewrite (u64_small (sz - trailing)) by (unfold is_u64, UINT64_MAX, HEAP_SIZE in *; lia).
  destruct (align_up_spec (sz - trailing) 12) as [Hgr Hgm];
    [lia|unfold HEAP_SIZE in *; lia|]. change (2 ^ 12) with PAGING_PAGE_SIZE in *.
  set (growth := align_up (sz - trailing) PAGING_PAGE_SIZE) in *.
  rewrite (u64_small (HEAP_SIZE - _)) by (unfold is_u64, UINT64_MAX, HEAP_SIZE in *; lia).
  destruct (growth >? HEAP_SIZE - h.(state).(committed_bytes)) eqn:Eg; bool_hyps.
  { cbn. split_and!; [by left|done|done]. }
  destruct (negb extend && (h.(block_count) =? HEAP_MAX_BLOCKS)) eqn:Ef.
  { cbn. split_and!; [by right; left|done|done]. }
  rewrite (u64_small (_ + growth)) by (unfold is_u64, UINT64_MAX, HEAP_SIZE in *; lia).
  set (q := growth / PAGING_PAGE_SIZE).
  assert (growth = q * PAGING_PAGE_SIZE) as Hq.
  { subst q. pose proof (Z.div_mod growth PAGING_PAGE_SIZE). unfold PAGING_PAGE_SIZE in *. lia. }
  assert (h.(state).(committed_bytes) + growth = (heap_pages h + q) * PAGING_PAGE_SIZE)
    as Hend by lia.
  assert (0 < q) as Hq0 by (unfold PAGING_PAGE_SIZE in *; lia).
  assert (0 <= heap_pages h) as Hp0 by (apply Z.div_pos; [lia|done]).
  pose proof (commit_pages_spec m (heap_pages h) (heap_pages h + q) h.(state)
    hi_platform0) as Hc.
  rewrite <- hi_pages0, <- Hend in Hc.
  destruct (commit_pages _ _ _ m) as [status [st m']].
  specialize (Hc ltac:(lia) ltac:(lia)).
  assert (mapped_pages (state h) + (heap_pages h + q - heap_pages h) <= UINT64_MAX) as Hmx
    by (unfold UINT64_MAX, HEAP_SIZE, PAGING_PAGE_SIZE in *; lia).
  specialize (Hc Hmx).
  destruct (bool_decide (status = HEAP_STATUS_OK)) eqn:Es; cbn [negb].
  2: { rewrite Es. destruct Hc as (Hst & -> & F & Hb). split_and!.
       - destruct Hst; [by left|by right; right].
       - by destruct h.
       - destruct (backed_empty _ _ _ _ Hb) as (? & ? & ?). by eapply inv_same_machine. }
  destruct Hc as (-> & F & Hb). clear Es Hmx.
  assert (extend = true \/ h.(block_count) < HEAP_MAX_BLOCKS) as Hroom.
  { destruct extend; [by left|right]. cbn in Ef. bool_hyps. lia. }
  assert (growth mod HEAP_ALIGNMENT = 0) as Hg16.
  { rewrite Hq. unfold PAGING_PAGE_SIZE, HEAP_ALIGNMENT.
    change 4096 with (256 * 16). by rewrite Z.mul_assoc, Z.mod_mul. }
  pose proof (grown_block_spec h m growth Hi ltac:(lia) Hg16 ltac:(lia)) as Hgb.
  pose proof (grow_table_live h m growth Hi ltac:(lia) ltac:(lia) Hroom) as Hgt.
  cbv zeta in Hgt. fold last in Hgt. fold extend in Hgt.
  destruct (grown_block h growth) as [b pre]. destruct Hgb as (Ht & Hco & Hus & Hub).
  destruct Hgt as (Hlen & Hn & Hlive & Hpre & Hsize).
  rewrite <- Hlive in Ht, Hco. rewrite Hend in Ht.
  assert (forall h1, h1 = MkHeap
      (if extend then aset h.(blocks) (h.(block_count) - 1)
         (MkBlock last.(offset) (u64 (last.(size) + growth)) last.(used))
       else aset h.(blocks) h.(block_count) (MkBlock h.(state).(committed_bytes) growth false))
      (set_committed (set_mapped h.(state)
         (h.(state).(mapped_pages) + (heap_pages h + q - heap_pages h)))
         (h.(state).(committed_bytes) + growth))
      (if extend then h.(block_count) else h.(block_count) + 1) ->
    inv h1 m' /\ heap_pages h < heap_pages h1 /\ heap_used h1 = heap_used h /\
    exists pre b, heap_live h1 = pre ++ [b] /\ zlength pre = h1.(block_count) - 1 /\
      b.(used) = false /\ sz <= b.(size)) as Hfinal.
  { intros h1 ->. split_and!.
    - eapply inv_grow; try done; try lia. by rewrite Hend.
    - unfold heap_pages at 2. cbn. rewrite Hend. unfold PAGING_PAGE_SIZE.
      rewrite Z.div_mul by done. lia.
    - unfold heap_used, heap_live. cbn. by rewrite Hlive.
    - exists pre, b. split_and!; try done. rewrite <- Hsize. unfold trailing in Hgr.
      destruct extend; lia. }
  destruct extend; apply Hfinal; done.
Qed.

(** Taking a block that fits: the part heap_allocate does after the search. *)
Lemma split_inv h m pre b post sz :
  inv h m -> heap_live h = pre ++ b :: post -> b.(used) = false ->
  0 < sz <= b.(size) -> sz mod HEAP_ALIGNMENT = 0 ->
  let '(ok, t, n) := split_block h.(blocks) h.(block_count) (zlength pre) sz in
  inv (with_table h t n) m /\
  if ok : bool then
    exists blk, aget blank t (zlength pre) = blk /\ blk.(used) = true /\
      blk.(offset) = b.(offset) /\ sz <= blk.(size) < sz + HEAP_ALIGNMENT /\
      List.filter used (live t n) = List.filter used pre ++ blk :: List.filter used post /\
      ((live t n = pre ++ blk :: post /\ blk.(size) = b.(size)) \/
       live t n = pre ++ blk ::
         MkBlock (b.(offset) + blk.(size)) (b.(size) - blk.(size)) false :: post)
  else t = h.(blocks) /\ n = h.(block_count) /\ n = HEAP_MAX_BLOCKS.
Proof.
  intros Hi El Hu Hsz Hal. pose proof Hi as [].
  assert (holds h.(blocks) h.(block_count) pre b post) as Hh by (split; [lia|done]).
  rewrite El in hi_tiles0, hi_coalesced0.
  pose proof (tiles_block _ _ _ _ _ hi_tiles0) as (Ho & Hs & He).
  pose proof (split_block_spec _ _ _ _ _ sz Hh hi_table0) as Hsp.
  destruct (split_block _ _ _ sz) as [[ok t] n].
  destruct Hsp as [Hlen Hsp]; [lia|lia|lia|].
  pose proof hi_tiles0 as Ht.
  apply tiles_app in Ht as (mid & Ht1 & Hoff & _ & Hm & Ht2).
  apply coalesced_app in hi_coalesced0 as (Hc1 & Hc2 & Ha).
  apply coalesced_cons in Hc2 as [Hb Hc2]. pose proof (holds_count _ _ _ _ _ Hh).
  pose proof (zlength_nonneg pre). pose proof (zlength_nonneg post).
  assert (forall blk, blk.(used) = true -> apart (last pre) (Some blk)) as Hap.
  { intros blk Hblk. destruct (last pre); [by right|done]. }
  destruct (b.(size) - sz <? HEAP_ALIGNMENT) eqn:Er; bool_hyps.
  - destruct Hsp as (-> & -> & Hat & Hl). split.
    + apply inv_with_table; try done; [by rewrite Hl; apply tiles_set_used|].
      rewrite Hl. apply coalesced_app. split_and!; [done| |by apply Hap].
      apply coalesced_cons. split; [|done]. destruct post; [done|by left].
    + eexists. split; [exact Hat|]. rewrite Hl. split_and!; try done; cbn; try lia.
      * rewrite List.filter_app. done.
      * by left.
  - destruct (h.(block_count) =? HEAP_MAX_BLOCKS) eqn:En; bool_hyps.
    + destruct Hsp as (-> & -> & ->). split; [by destruct h|done].
    + destruct Hsp as (-> & -> & Hat & Hl).
      assert ((b.(size) - sz) mod HEAP_ALIGNMENT = 0) as Hrm.
      { unfold HEAP_ALIGNMENT in *. rewrite Zminus_mod, Hm, Hal. done. }
      split.
      * apply inv_with_table; try done; [lia| |]; rewrite Hl.
        -- apply tiles_app. exists mid. split; [done|]. cbn.
           replace (mid + sz + (b.(size) - sz)) with (mid + b.(size)) by lia.
           unfold HEAP_ALIGNMENT in *. split_and!; done || lia.
        -- apply coalesced_app. split_and!; [done| |by apply Hap].
           apply coalesced_cons. split; [by left|]. apply coalesced_cons. split; [|done].
           destruct post; [done|]. cbn in Hb |- *. destruct Hb; [congruence|by right].
      * eexists. split; [exact Hat|]. rewrite Hl. unfold HEAP_ALIGNMENT in *.
        split_and!; try done; cbn; try lia.
        -- rewrite List.filter_app. done.
        -- by right.
Qed.

(** How a successful allocation comes about: the heap [h1] before the split is
    [h] or a grown [h]; a free block [b] of it is cut down to [blk]. *)
Record carved (h h1 h' : heap) (sz : Z) (pre : list heap_block) (b : heap_block)
    (post : list heap_block) (blk : heap_block) : Prop := {
  cv_from : h1 = h \/ heap_pages h < heap_pages h1;
  cv_used : heap_used h1 = heap_used h;
  cv_live : heap_live h1 = pre ++ b :: post;
  cv_tiles : tiles (pre ++ b :: post) 0 h1.(state).(committed_bytes);
  cv_coalesced : coalesced (pre ++ b :: post);
  cv_free : b.(used) = false;
  cv_block : blk.(used) = true /\ blk.(offset) = b.(offset) /\ sz <= blk.(size);
  cv_after : (heap_live h' = pre ++ blk :: post /\ blk.(size) = b.(size)) \/
    heap_live h' = pre ++ blk ::
      MkBlock (b.(offset) + blk.(size)) (b.(size) - blk.(size)) false :: post
}.

Lemma carved_used h h1 h' sz pre b post blk :
  carved h h1 h' sz pre b post blk ->
  heap_used h = List.filter used pre ++ List.filter used post /\
  heap_used h' = List.filter used pre ++ blk :: List.filter used post.
Proof.
  intros [_ <- El _ _ Hu (Hbu & _) Hafter]. unfold heap_used. rewrite El. split.
  - rewrite List.filter_app. cbn. by rewrite Hu.
  - destruct Hafter as [[-> _]| ->]; rewrite List.filter_app; cbn; by rewrite Hbu.
Qed.

(** The block the search or the growth settles on. *)
Definition settled (h h1 : heap) (m1 : M) (rq : Z) (status : heap_status) (index : Z)
  : Prop :=
  inv h1 m1 /\
  if bool_decide (status = HEAP_STATUS_OK) then
    (h1 = h \/ heap_pages h < heap_pages h1) /\ heap_used h1 = heap_used h /\
    exists pre b post, heap_live h1 = pre ++ b :: post /\ zlength pre = index /\
      b.(used) = false /\ rq <= b.(size)
  else h1 = h.

Lemma settle_spec h m rq :
  inv h m -> 0 < rq <= HEAP_SIZE -> rq mod HEAP_ALIGNMENT = 0 ->
  let '(status, index, h1, m1) :=
    match find_fit h.(blocks) h.(block_count) rq with
    | Some index => (HEAP_STATUS_OK, index, h, m)
    | None => grow_for rq h m
    end in
  settled h h1 m1 rq status index.
Proof.
  intros Hi Hrq Hal. destruct (find_fit _ _ rq) as [index|] eqn:Ef.
  - split; [done|]. cbn. split_and!; [by left|done|].
    apply scan_Some in Ef as (Hix & Hp & _). bool_hyps. pose proof Hi as [].
    destruct (live_holds h.(blocks) h.(block_count) index) as (pre & post & [_ E] & Hpre);
      [lia..|].
    exists pre, (aget blank h.(blocks) index), post. split_and!; done || lia.
  - pose proof (grow_for_spec h m rq Hi Hrq Hal Ef) as Hg.
    destruct (grow_for rq h m) as [[[status index] h1] m1]. unfold settled.
    destruct (bool_decide (status = HEAP_STATUS_OK)).
    + destruct Hg as (? & ? & ? & pre & b & ? & ? & ? & ?). split_and!; try done; [by right|].
      by exists pre, b, [].
    + destruct Hg as (_ & -> & ?). done.
Qed.

Lemma heap_allocate_spec sz h m :
  inv h m -> is_u64 sz ->
  let '(status, ptr, h', m') := heap_allocate sz true h m in
  inv h' m' /\
  (fresh h -> status <> HEAP_STATUS_OUT_OF_BLOCKS -> fresh h') /\
  if bool_decide (status = HEAP_STATUS_OK) then
    exists h1 pre b post blk, ptr = Some (HEAP_BASE + blk.(offset)) /\
      carved h h1 h' sz pre b post blk
  else ptr = Some 0 /\ heap_used h' = heap_used h.
Proof.
  intros Hi Hsz. unfold heap_allocate. rewrite (hi_active _ _ Hi). cbn [negb].
  destruct (sz =? 0) eqn:E0; [cbn; done|]. destruct (sz >? HEAP_SIZE) eqn:E1; [cbn; done|].
  bool_hyps. unfold is_u64 in Hsz.
  destruct (align_up_spec sz 4) as [Hrq Hal]; [lia|unfold HEAP_SIZE in *; lia|].
  change (2 ^ 4) with HEAP_ALIGNMENT in *. set (rq := align_up sz HEAP_ALIGNMENT) in *.
  destruct (rq >? HEAP_SIZE) eqn:E2; [cbn; done|]. bool_hyps.
  pose proof (settle_spec h m rq Hi ltac:(lia) Hal) as Hst.
  destruct (match find_fit _ _ rq with Some _ => _ | None => _ end)
    as [[[status index] h1] m1]. destruct Hst as [Hi1 Hst].
  destruct (bool_decide (status = HEAP_STATUS_OK)) eqn:Es; cbn [negb].
  2: { rewrite Es. by subst h1. }
  destruct Hst as (Hfrom & Hus1 & pre & b & post & El & <- & Hu & Hle).
  pose proof (split_inv h1 m1 pre b post rq Hi1 El Hu ltac:(lia) Hal) as Hsp.
  destruct (split_block _ _ _ rq) as [[ok t] n]. destruct Hsp as [Hi2 Hsp]. destruct ok.
  - destruct Hsp as (blk & Hat & Hbu & Hbo & Hbs & _ & Hafter). cbn.
    split_and!; [by apply refresh_inv|intros; apply refresh_fresh|].
    exists h1, pre, b, post, blk. split; [by rewrite Hat|].
    pose proof (hi_tiles _ _ Hi1) as Ht. pose proof (hi_coalesced _ _ Hi1) as Hc.
    rewrite El in Ht, Hc. split; try done; [split_and!; done || lia|].
    rewrite refresh_live. unfold heap_live. cbn. exact Hafter.
  - destruct Hsp as (-> & -> & _). cbn. split_and!; done.
Qed.

(** An offset names at most one block. *)
Lemma tiles_offset_inj pre b post pre' b' post' from to :
  tiles (pre ++ b :: post) from to -> pre ++ b :: post = pre' ++ b' :: post' ->
  b.(offset) = b'.(offset) -> b = b'.
Proof.
  revert from pre'. induction pre as [|c pre IH]; intros from pre' Ht E Ho.
  - destruct pre' as [|c' pre']; [by injection E|]. injection E as -> ->.
    cbn in Ht. destruct Ht as (Hc & Hs & _ & Ht). apply tiles_block in Ht. lia.
  - destruct pre' as [|c' pre']; injection E as -> E.
    + cbn in Ht. destruct Ht as (Hc & Hs & _ & Ht). apply tiles_block in Ht. lia.
    + cbn in Ht. destruct Ht as (_ & _ & _ & Ht). eauto.
Qed.

(** Looking an offset up finds the block that starts there. *)
Lemma block_index_at h m pre b post :
  inv h m -> heap_live h = pre ++ b :: post ->
  block_index_for_offset h.(blocks) h.(block_count) b.(offset) = Some (zlength pre) /\
  aget blank h.(blocks) (zlength pre) = b.
Proof.
  intros Hi El. pose proof Hi as []. unfold block_index_for_offset.
  assert (holds h.(blocks) h.(block_count) pre b post) as Hh by (split; [lia|done]).
  pose proof (holds_count _ _ _ _ _ Hh). pose proof (holds_at _ _ _ _ _ Hh) as Hat.
  pose proof (zlength_nonneg pre). pose proof (zlength_nonneg post). split; [|done].
  destruct (scan _ _ _) as [j|] eqn:E.
  - apply scan_Some in E as (Hj & Hp & Hmin). bool_hyps. f_equal.
    destruct (decide (j = zlength pre)) as [|Hne]; [done|]. exfalso.
    destruct (decide (j < zlength pre)).
    + rewrite El in hi_tiles0. rewrite (holds_get _ _ _ _ _ _ Hh) in Hp by lia.
      destruct (j <? zlength pre) eqn:Ej; bool_hyps; [|lia].
      assert (aget blank pre j ∈ pre) as Hin
        by (apply (elem_of_aget blank); exists j; split; [lia|done]).
      destruct (tiles_order _ _ _ _ _ (aget blank pre j) hi_tiles0) as [Ho _].
      specialize (Ho Hin). pose proof (tiles_elem _ (aget blank pre j) _ _ hi_tiles0) as Hs.
      destruct Hs as (? & ? & ?); [apply elem_of_app; by left|]. lia.
    + specialize (Hmin (zlength pre) ltac:(lia)). rewrite Hat, Z.eqb_refl in Hmin. done.
  - rewrite scan_None in E. specialize (E (zlength pre) ltac:(lia)).
    rewrite Hat, Z.eqb_refl in E. done.
Qed.

(** The entry checks of heap_free pass on the address of a block. *)
Lemma heap_free_at h m pre b post :
  inv h m -> heap_live h = pre ++ b :: post ->
  heap_free (HEAP_BASE + b.(offset)) h =
  if negb b.(used) then (HEAP_STATUS_DOUBLE_FREE, h)
  else
    let '(table, count) :=
      merge_free_neighbours
        (aset h.(blocks) (zlength pre) (MkBlock b.(offset) b.(size) false))
        h.(block_count) (zlength pre) in
    (HEAP_STATUS_OK, refresh_state (with_table h table count)).
Proof.
  intros Hi El. pose proof Hi as []. unfold heap_free. rewrite hi_active0. cbn [negb].
  pose proof (tiles_elem _ b _ _ hi_tiles0) as (? & ? & ?).
  { rewrite El, elem_of_app. right. left. }
  unfold HEAP_BASE, HEAP_SIZE in *.
  destruct (_ + b.(offset) =? 0) eqn:E0; bool_hyps; [lia|].
  rewrite (u64_small (_ + committed_bytes _)) by (unfold is_u64, UINT64_MAX; lia).
  destruct (_ || _) eqn:Er; [bool_hyps; destruct Er; bool_hyps; lia|].
  replace (17179869184 + offset b - 17179869184) with (offset b) by lia.
  rewrite u64_small by (unfold is_u64, UINT64_MAX; lia).
  destruct (block_index_at h m pre b post Hi El) as [-> ->]. done.
Qed.

Lemma heap_free_live h m pre b post :
  inv h m -> heap_live h = pre ++ b :: post -> b.(used) = true ->
  exists h2, heap_free (HEAP_BASE + b.(offset)) h = (HEAP_STATUS_OK, h2) /\
    inv h2 m /\ fresh h2 /\
    heap_live h2 = merged pre (MkBlock b.(offset) b.(size) false) post /\
    heap_used h2 = List.filter used pre ++ List.filter used post.
Proof.
  intros Hi El Hu. rewrite (heap_free_at h m pre b post Hi El), Hu. cbn [negb].
  pose proof Hi as [].
  assert (holds h.(blocks) h.(block_count) pre b post) as Hh by (split; [lia|done]).
  pose proof (holds_update _ _ _ _ _ (MkBlock b.(offset) b.(size) false) Hh) as Hh'.
  rewrite El in hi_tiles0, hi_coalesced0.
  pose proof (merge_spec _ _ _ _ _ h.(state).(committed_bytes) Hh') as Hm.
  destruct (merge_free_neighbours _ _ _) as [t n].
  destruct Hm as (Hlen & Hn & Hl & Ht);
    [by rewrite zlength_aset|by apply tiles_set_used|lia|].
  apply coalesced_app in hi_coalesced0 as (Hc1 & Hc2 & _).
  apply coalesced_cons in Hc2 as [_ Hc2].
  destruct (merged_spec pre (MkBlock b.(offset) b.(size) false) post) as [Hco Hfl]; [done..|].
  eexists. split; [done|]. split_and!.
  - apply refresh_inv, inv_with_table; try done; by rewrite Hl.
  - apply refresh_fresh.
  - rewrite refresh_live. unfold heap_live. cbn. done.
  - unfold heap_used. rewrite refresh_live. unfold heap_live. cbn.
    by rewrite Hl, Hfl, List.filter_app.
Qed.

Lemma heap_free_spec ptr h m :
  inv h m -> is_u64 ptr ->
  let '(status, h') := heap_free ptr h in
  inv h' m /\ (fresh h -> fresh h') /\ (status <> HEAP_STATUS_OK -> h' = h) /\
  match status with
  | HEAP_STATUS_OK => exists l1 b l2, heap_used h = l1 ++ b :: l2 /\
      heap_used h' = l1 ++ l2 /\ ptr = HEAP_BASE + b.(offset)
  | HEAP_STATUS_NULL_ARGUMENT => ptr = 0
  | HEAP_STATUS_DOUBLE_FREE => exists b, b ∈ heap_live h /\ b.(used) = false /\
      ptr = HEAP_BASE + b.(offset)
  | HEAP_STATUS_BAD_POINTER =>
      ptr <> 0 /\ forall b, b ∈ heap_live h -> ptr <> HEAP_BASE + b.(offset)
  | _ => False
  end.
Proof.
  intros Hi Hptr. pose proof Hi as [].
  destruct (decide (ptr = 0)) as [->|Hnz].
  { unfold heap_free. rewrite hi_active0. cbn. done. }
  destruct (decide (ptr - HEAP_BASE ∈ offset <$> heap_live h)) as [Hin|Hno].
  - apply list_elem_of_fmap in Hin as (b & Ho & Hb).
    replace ptr with (HEAP_BASE + b.(offset)) by lia.
    pose proof Hb as (pre & post & El)%list_elem_of_split.
    destruct (used b) eqn:Eu.
    + destruct (heap_free_live h m pre b post Hi El Eu) as (h2 & -> & ? & ? & _ & Hus).
      split_and!; try done. exists (List.filter used pre), b, (List.filter used post).
      split_and!; try done. unfold heap_used. rewrite El, List.filter_app. cbn. by rewrite Eu.
    + rewrite (heap_free_at h m pre b post Hi El), Eu. cbn. eauto 10.
  - assert (forall b, b ∈ heap_live h -> ptr <> HEAP_BASE + b.(offset)) as Hbad.
    { intros b Hb ->. apply Hno, list_elem_of_fmap. exists b. split; [lia|done]. }
    assert (heap_free ptr h = (HEAP_STATUS_BAD_POINTER, h)) as ->; [|done].
    unfold heap_free. rewrite hi_active0. apply Z.eqb_neq in Hnz as ->. cbn [negb].
    destruct (_ || _) eqn:Er; [done|]. bool_hyps.
    rewrite u64_small by (unfold is_u64, HEAP_BASE in *; lia).
    destruct (block_index_for_offset _ _ _) as [j|] eqn:Eb; [|done]. exfalso.
    apply scan_Some in Eb as (Hj & Hp & _). bool_hyps. apply Hno.
    apply list_elem_of_fmap. exists (aget blank h.(blocks) j). split; [done|].
    apply (elem_of_aget blank). exists j. unfold heap_live, live.
    rewrite zlength_take, aget_take by lia. done.
Qed.

(** heap_initialize starts an empty heap, when the window is free. *)
Lemma heap_initialize_spec h m :
  platform_ok m -> zlength h.(blocks) = HEAP_MAX_BLOCKS ->
  let '(status, h') := heap_initialize h m in
  (status <> HEAP_STATUS_OK -> h' = h) /\
  (status = HEAP_STATUS_OK -> inv h' m /\ fresh h' /\ heap_live h' = []).
Proof.
  intros Hok Hl. unfold heap_initialize.
  destruct (h.(state).(active)); [done|]. destruct (negb (paging_is_active m)); [done|].
  destruct (cpu_interrupts_enabled m); [done|].
  destruct (paging_translate m HEAP_GUARD_BELOW) eqn:Eb; try done.
  destruct (paging_translate m HEAP_GUARD_ABOVE) eqn:Ea; try done. cbn.
  split; [done|]. intros _. split_and!; [|done|done].
  split; try done. exists (fun _ => 0). unfold heap_pages. cbn.
  split; [intros p Hp|intros p q Hp]; rewrite Zdiv_0_l in Hp; lia.
Qed.

(** heap_verify accepts a heap in order. *)
Lemma heap_verify_spec h m : inv h m -> fresh h -> heap_verify h m = HEAP_STATUS_OK.
Proof.
  intros [] [Hf1 Hf2]. unfold heap_verify. rewrite hi_active0. cbn [negb].
  assert ((h.(state).(committed_bytes) >? HEAP_SIZE) = false) as ->
    by (apply not_true_iff_false; rewrite Z.gtb_lt; lia).
  assert (h.(state).(committed_bytes) mod PAGING_PAGE_SIZE = 0) as ->
    by (rewrite hi_pages0; by apply Z.mod_mul).
  fold (heap_pages h). rewrite hi_mapped0, Z.eqb_refl. cbn [negb orb Z.eqb].
  rewrite validate_complete by (done || lia). cbn [negb].
  rewrite hi_below0, hi_above0. cbn [is_not_mapped negb orb].
  assert (forallb (fun off => page_is_heap (paging_translate m (HEAP_BASE + off)))
    (page_offsets 0 h.(state).(committed_bytes)) = true) as ->.
  { rewrite hi_pages0. change 0 with (0 * PAGING_PAGE_SIZE).
    assert (0 <= heap_pages h) by (apply Z.div_pos; [lia|done]).
    rewrite page_offsets_pages by lia. apply forallb_forall.
    intros off Hoff%list_elem_of_In%list_elem_of_fmap.
    destruct Hoff as (p & -> & Hp%elem_of_seqZ). destruct hi_frames0 as (F & HF & _).
    fold (page p). destruct (HF p) as [-> _]; [lia|done]. }
  cbn [negb]. rewrite <- Hf1, Hf2, !Z.eqb_refl. done.
Qed.

(** * Reachable heaps *)

Inductive reachable : heap -> M -> Prop :=
| reach_initialize h0 m h :
    zlength h0.(blocks) = HEAP_MAX_BLOCKS -> platform_ok m ->
    heap_initialize h0 m = (HEAP_STATUS_OK, h) -> reachable h m
| reach_allocate h m sz ptr st h' m' :
    reachable h m -> is_u64 sz ->
    heap_allocate sz true h m = (st, ptr, h', m') -> reachable h' m'
| reach_free h m ptr st h' :
    reachable h m -> is_u64 ptr -> heap_free ptr h = (st, h') -> reachable h' m.

Lemma reachable_inv h m : reachable h m -> inv h m.
Proof.
  induction 1 as [h0 m h Hl Hok E|h m sz ptr st h' m' Hr IH Hsz E|h m ptr st h' Hr IH Hp E].
  - pose proof (heap_initialize_spec h0 m Hok Hl) as Hs. rewrite E in Hs. by apply Hs.
  - pose proof (heap_allocate_spec sz h m IH Hsz) as Hs. rewrite E in Hs. apply Hs.
  - pose proof (heap_free_spec ptr h m IH Hp) as Hs. rewrite E in Hs. apply Hs.
Qed.

(** No operation moves the window. *)
Lemma release_pages_base from to st (m : M) :
  (release_pages from to st m).1.(base_address) = st.(base_address).
Proof.
  unfold release_pages. generalize (page_offsets from to). intros l. revert st m.
  induction l as [|off l IH]; intros st m; [done|]. cbn [foldl]. unfold release_page at 2.
  destruct (paging_translate m (HEAP_BASE + off)); [|apply IH..].
  destruct (paging_unmap _ m) as [[] m1]; cbn [negb]; by rewrite IH.
Qed.

Lemma commit_pages_base from to st (m : M) :
  (commit_pages from to st m).2.1.(base_address) = st.(base_address).
Proof.
  unfold commit_pages. generalize (page_offsets from to). intros l.
  assert (match for_each (commit_page from) l (st, m) with
    | Return r => r.2.1.(base_address) = st.(base_address)
    | Next x => x.1.(base_address) = st.(base_address) end) as Hl.
  { revert st m. induction l as [|off l IH]; intros st m; [done|]. cbn [for_each]. unfold commit_page at 1.
    destruct (frame_allocate m) as [[f|] m1]; [|apply release_pages_base].
    destruct (paging_map _ f m1) as [[] m2]; cbn [negb]; [|apply release_pages_base]. exact (IH (set_mapped st _) m2). }
  by destruct (for_each _ l (st, m)) as [x|r].
Qed.

Lemma refresh_base h : (refresh_state h).(state).(base_address) = h.(state).(base_address).
Proof. unfold refresh_state. by destruct (tally _ _). Qed.

Lemma allocate_base sz d h (m : M) :
  (heap_allocate sz d h m).1.2.(state).(base_address) = h.(state).(base_address).
Proof.
  unfold heap_allocate. do 5 (split_if; [done|]).
  assert ((match find_fit h.(blocks) h.(block_count) (align_up sz HEAP_ALIGNMENT) with
    | Some index => (HEAP_STATUS_OK, index, h, m)
    | None => grow_for (align_up sz HEAP_ALIGNMENT) h m end).1.2.(state).(base_address) =
    h.(state).(base_address)) as Hg.
  { destruct (find_fit _ _ _); [done|]. unfold grow_for. do 2 (split_if; [done|]).
    match goal with |- context [commit_pages ?a ?b ?st m] => pose proof (commit_pages_base a b st m) as Hc end.
    destruct (commit_pages _ _ _ m) as [st [hs m1]]. cbn in Hc. split_if; [done|]. by split_if. }
  destruct (match find_fit _ _ _ with Some _ => _ | None => _ end) as [[[st index] h1] m1]. cbn in Hg.
  split_if; [done|]. destruct (split_block _ _ _ _) as [[[] t] n]; cbn; [|done]. by rewrite refresh_base.
Qed.

Lemma reachable_base h m : reachable h m -> h.(state).(base_address) = HEAP_BASE.
Proof.
  induction 1 as [h0 m h Hl Hok E|h m sz ptr st h' m' Hr IH Hsz E|h m ptr st h' Hr IH Hp E].
  - unfold heap_initialize in E. do 4 (split_if_in E; [done|]). injection E as <-. apply refresh_base.
  - pose proof (allocate_base sz true h m) as Hb. rewrite E in Hb. cbn in Hb. congruence.
  - unfold heap_free in E. do 3 (split_if_in E; [by injection E as <- <-|]).
    destruct (block_index_for_offset _ _ _) as [i|]; [|by injection E as <- <-].
    split_if_in E; [by injection E as <- <-|].
    destruct (merge_free_neighbours _ _ _) as [t n]. injection E as <- <-. rewrite refresh_base. exact IH.
Qed.
End memory.

(** * A platform

    The frame allocator of [PhysicalMemory] and a page table of 4 KiB entries,
    as an instance of the interface: the laws hold of the real allocator. *)

Record machine : Type := MkMachine {
  frames : PhysicalMemory.allocator;
  table : Z -> option Z;
  tables_active : bool;
  interrupts : bool
}.

#[local] Arguments PhysicalMemory.frame_allocate : simpl never.
#[local] Arguments PhysicalMemory.frame_release : simpl never.

Section machine.
Context {L : PhysicalMemory.PhysicalLayout}.

#[global] Instance machine_platform : HeapPlatform machine := {
  frame_allocate m :=
    match PhysicalMemory.frame_allocate true m.(frames) with
    | (PhysicalMemory.FRAME_STATUS_OK, Some f, s) =>
        (Some f, MkMachine s m.(table) m.(tables_active) m.(interrupts))
    | (_, _, s) => (None, MkMachine s m.(table) m.(tables_active) m.(interrupts))
    end;
  frame_release f m :=
    MkMachine (PhysicalMemory.frame_release f m.(frames)).2 m.(table)
      m.(tables_active) m.(interrupts);
  paging_map a f m :=
    match m.(table) a with
    | Some _ => (false, m)
    | None =>
        (true, MkMachine m.(frames) (fun a' => if a' =? a then Some f else m.(table) a')
                 m.(tables_active) m.(interrupts))
    end;
  paging_unmap a m :=
    match m.(table) a with
    | None => (false, m)
    | Some _ =>
        (true, MkMachine m.(frames) (fun a' => if a' =? a then None else m.(table) a')
                 m.(tables_active) m.(interrupts))
    end;
  paging_translate m a :=
    match m.(table) a with Some f => Mapped f PAGING_WRITE 1 | None => NotMapped end;
  paging_is_active := tables_active;
  cpu_interrupts_enabled := interrupts
}.

(** A frame handed to a client one at a time, not as part of a run. *)
Definition machine_owned (m : machine) (f : Z) : Prop :=
  exists k, f = k * PhysicalMemory.SAPOTE_PAGE_SIZE /\ 0 <= k < PhysicalMemory.FRAME_COUNT /\
    PhysicalMemory.allocated m.(frames) k = true /\
    PhysicalMemory.frame_in_contiguous_allocation m.(frames) k = false.

Definition machine_ok (m : machine) : Prop :=
  PhysicalMemory.inv m.(frames) /\ m.(frames).(PhysicalMemory.allocator_initialized) = true.

Lemma in_contiguous_records s s' k :
  s'.(PhysicalMemory.contiguous_records) = s.(PhysicalMemory.contiguous_records) ->
  PhysicalMemory.frame_in_contiguous_allocation s' k =
  PhysicalMemory.frame_in_contiguous_allocation s k.
Proof. unfold PhysicalMemory.frame_in_contiguous_allocation. by intros ->. Qed.

Lemma available_not_contiguous s k :
  PhysicalMemory.inv s -> 0 <= k < PhysicalMemory.FRAME_COUNT ->
  PhysicalMemory.frame_available s k = true ->
  PhysicalMemory.frame_in_contiguous_allocation s k = false.
Proof.
  intros Hi Hk Hav. apply not_true_iff_false.
  rewrite PhysicalMemory.in_contiguous_spec by done. intros (i & Hr & Ha & Hin).
  rewrite (PhysicalMemory.record_frame_unavailable s i k) in Hav; done.
Qed.

Lemma machine_allocate m :
  machine_ok m ->
  match frame_allocate m with
  | (Some f, m') => machine_ok m' /\ ~ machine_owned m f /\
      (forall g, machine_owned m' g <-> machine_owned m g \/ g = f) /\
      (forall a, page_aligned a -> paging_translate m' a = paging_translate m a)
  | (None, m') => machine_ok m' /\ (forall g, machine_owned m' g <-> machine_owned m g) /\
      (forall a, page_aligned a -> paging_translate m' a = paging_translate m a)
  end.
Proof.
  intros [Hi Hinit]. cbn.
  pose proof (PhysicalMemory.frame_allocate_spec m.(frames) Hi Hinit) as Hs.
  destruct (PhysicalMemory.frame_allocate true m.(frames)) as [[[] [a|]] s']; try done.
  - destruct Hs as (k & -> & Hk & Hav & _ & Hinit' & Hrec & _ & He & Hu & Hi').
    pose proof (available_not_contiguous _ _ Hi Hk Hav) as Hnc.
    apply PhysicalMemory.available_bits in Hav as [Hel Hun].
    assert (forall j, 0 <= j -> PhysicalMemory.allocated s' j =
      if k =? j then PhysicalMemory.eligible m.(frames) j
      else PhysicalMemory.allocated m.(frames) j) as Hal.
    { intros j Hj. unfold PhysicalMemory.allocated. rewrite He, Hu by done.
      destruct (k =? j); [apply andb_true_r|done]. }
    unfold PhysicalMemory.SAPOTE_PAGE_SIZE. split_and!; try done.
    + intros (j & E & _ & Hj & _). apply PhysicalMemory.allocated_bits in Hj as [_ Hj].
      unfold PhysicalMemory.SAPOTE_PAGE_SIZE in E. assert (j = k) as -> by lia. congruence.
    + intros g. unfold machine_owned, PhysicalMemory.SAPOTE_PAGE_SIZE. cbn. split.
      * intros (j & -> & Hj & Ha & Hc). rewrite Hal in Ha by lia.
        destruct (k =? j) eqn:E; bool_hyps; [right; lia|left].
        exists j. rewrite (in_contiguous_records _ _ _ Hrec) in Hc. done.
      * intros [(j & -> & Hj & Ha & Hc)| ->].
        -- exists j. rewrite (in_contiguous_records _ _ _ Hrec), Hal by lia.
           split_and!; try done; try lia. destruct (k =? j) eqn:E; [|done]. bool_hyps. by subst.
        -- exists k. rewrite (in_contiguous_records _ _ _ Hrec), Hal, Z.eqb_refl by lia.
           split_and!; done || lia.
  - destruct Hs as [-> _]. done.
Qed.

Lemma machine_release_status m f :
  machine_owned m f ->
  PhysicalMemory.release_status m.(frames) f = PhysicalMemory.FRAME_STATUS_OK.
Proof.
  intros (k & -> & Hk & Ha & Hc). pose proof PhysicalMemory.frame_count_limit as Hlim.
  apply PhysicalMemory.allocated_bits in Ha as [Hel Hus].
  unfold PhysicalMemory.release_status, PhysicalMemory.SAPOTE_PAGE_SIZE in *.
  rewrite Z.div_mul, Z.mod_mul, Hel, Hus, Hc by done.
  assert ((k * 4096 >=? PhysicalMemory.early_limit) = false) as ->; [|done].
  apply not_true_iff_false. rewrite Z.geb_le. lia.
Qed.

Lemma machine_release m f :
  machine_ok m -> machine_owned m f ->
  let m' := frame_release f m in
  machine_ok m' /\ (forall g, machine_owned m' g <-> machine_owned m g /\ g <> f) /\
  (forall a, page_aligned a -> paging_translate m' a = paging_translate m a).
Proof.
  intros [Hi Hinit] Hown. pose proof (machine_release_status m f Hown) as Hrs.
  destruct Hown as (k & -> & Hk & Ha & Hc). cbn.
  pose proof PhysicalMemory.frame_count_limit as Hlim.
  pose proof PhysicalMemory.frame_count_range as Hfc.
  pose proof (PhysicalMemory.frame_release_spec m.(frames)
    (k * PhysicalMemory.SAPOTE_PAGE_SIZE) Hi Hinit) as Hs.
  destruct (PhysicalMemory.frame_release _ m.(frames)) as [st s'].
  unfold PhysicalMemory.SAPOTE_PAGE_SIZE in *. rewrite Z.div_mul in Hs by done.
  destruct Hs as (Hst & _ & Hok); [unfold is_u64, UINT64_MAX; lia|].
  pose proof Ha as Hbits. apply PhysicalMemory.allocated_bits in Hbits as [Hel Hus].
  assert (st = PhysicalMemory.FRAME_STATUS_OK) as E by congruence.
  destruct (Hok E) as (_ & _ & _ & Hinit' & Hrec & He & Hu & Hi').
  split_and!; try done.
  intros g. unfold machine_owned, PhysicalMemory.SAPOTE_PAGE_SIZE. cbn. split.
  - intros (j & -> & Hj & Hja & Hjc). rewrite (in_contiguous_records _ _ _ Hrec) in Hjc.
    unfold PhysicalMemory.allocated in Hja. rewrite He, Hu in Hja by lia.
    destruct (k =? j) eqn:Ej; [by rewrite andb_false_r in Hja|]. bool_hyps.
    split; [|lia]. exists j. split_and!; try done; try lia.
    by apply PhysicalMemory.allocated_bits.
  - intros [(j & -> & Hj & Hja & Hjc) Hne]. exists j.
    rewrite (in_contiguous_records _ _ _ Hrec). split_and!; try done; try lia.
    unfold PhysicalMemory.allocated. rewrite He, Hu by lia.
    destruct (k =? j) eqn:Ej; bool_hyps; [subst; lia|]. done.
Qed.

#[global] Program Instance machine_laws : PlatformLaws machine := {
  platform_ok := machine_ok;
  owned := machine_owned;
  law_allocate := machine_allocate;
  law_release := machine_release
}.
Next Obligation.
  intros m a f Hok Ha Ho. cbn. destruct (m.(table) a) as [g|] eqn:E.
  - split_and!; done.
  - split_and!; try done.
    + intros a' _ Hne. cbn. destruct (a' =? a) eqn:Ea; bool_hyps; [by destruct Hne|done].
    + intros _. cbn. by rewrite E, Z.eqb_refl.
Qed.
Next Obligation.
  intros m a f Hok Ha. cbn. destruct (m.(table) a) as [g|] eqn:E; [|done]. intros _.
  split_and!; try done.
  - intros a' _ Hne. cbn. destruct (a' =? a) eqn:Ea; bool_hyps; done.
  - cbn. by rewrite Z.eqb_refl.
Qed.
End machine.

(** The heap at load time: every file-scope object zero. *)
Definition heap_bss : heap :=
  MkHeap (replicate (Z.to_nat HEAP_MAX_BLOCKS) blank)
    (MkState 0 0 0 0 0 0 0 false) 0.

(** ** An example heap *)

#[local] Existing Instance PhysicalMemory.small_layout.

Definition sample_machine : machine :=
  MkMachine PhysicalMemory.sample_state (fun _ => None) true false.
Definition sample_heap : heap := (heap_initialize heap_bss sample_machine).2.

Lemma sample_machine_ok : platform_ok sample_machine.
Proof.
  split; [|apply PhysicalMemory.sample_initialized].
  apply PhysicalMemory.reachable_wf;
    [apply PhysicalMemory.sample_reachable|apply PhysicalMemory.sample_initialized].
Qed.

Lemma sample_heap_initializes :
  heap_initialize heap_bss sample_machine = (HEAP_STATUS_OK, sample_heap).
Proof. reflexivity. Qed.

Lemma sample_heap_reachable : reachable sample_heap sample_machine.
Proof.
  eapply reach_initialize; [|apply sample_machine_ok|apply sample_heap_initializes].
  reflexivity.
Qed.

Definition sample_after : heap := (heap_allocate 100 true sample_heap sample_machine).1.2.
Definition sample_after_machine : machine :=
  (heap_allocate 100 true sample_heap sample_machine).2.

Lemma sample_heap_allocates :
  heap_allocate 100 true sample_heap sample_machine =
  (HEAP_STATUS_OK, Some HEAP_BASE, sample_after, sample_after_machine).
Proof. vm_compute. reflexivity. Qed.

(** * Properties *)

(** C37 (invariant): after any sequence of allocations and frees on an
    initialized heap the blocks tile the committed window in order, no two
    free blocks touch, each committed page is a writable 4 KiB mapping of a
    frame of its own that the heap owns, and both guard pages are absent. *)
Theorem heap_reachable_inv {M} `{PlatformLaws M} (h : heap) (m : M) :
  reachable h m -> inv h m.
Proof. apply reachable_inv. Qed.

Lemma heap_reachable_inv_witness : inv sample_heap sample_machine.
Proof. apply heap_reachable_inv. apply sample_heap_reachable. Defined.

(** The page an address of the committed window lies in. *)
Lemma page_of (h : heap) a :
  h.(state).(committed_bytes) = heap_pages h * PAGING_PAGE_SIZE ->
  HEAP_BASE <= a < HEAP_BASE + h.(state).(committed_bytes) ->
  exists q, 0 <= q < heap_pages h /\ a - a mod PAGING_PAGE_SIZE = page q.
Proof.
  intros Hp Ha. exists ((a - HEAP_BASE) / PAGING_PAGE_SIZE). unfold page, PAGING_PAGE_SIZE, HEAP_BASE in *.
  Z.to_euclidean_division_equations. lia.
Qed.

(** C38 (safety): a pointer heap_allocate returns is aligned to sixteen bytes
    and its bytes lie inside the heap window.  Each of them is in a page that is
    mapped writable to a frame the heap owns, no two such pages to the same
    frame.  They are disjoint from every allocation that was live; those stay
    live where they were, and the new one joins them. *)
Theorem heap_allocate_exclusive {M} `{PlatformLaws M} (h : heap) (m : M) sz p h' m' :
  reachable h m -> is_u64 sz ->
  heap_allocate sz true h m = (HEAP_STATUS_OK, Some p, h', m') ->
  p mod HEAP_ALIGNMENT = 0 /\ HEAP_BASE <= p /\
  p + sz <= HEAP_BASE + h'.(state).(committed_bytes) /\ p + sz <= HEAP_BASE + HEAP_SIZE /\
  (forall a, p <= a < p + sz -> exists f,
     paging_translate m' (a - a mod PAGING_PAGE_SIZE) = Mapped f PAGING_WRITE 1 /\ owned m' f /\
     forall a', p <= a' < p + sz ->
       paging_translate m' (a' - a' mod PAGING_PAGE_SIZE) = Mapped f PAGING_WRITE 1 ->
       a' - a' mod PAGING_PAGE_SIZE = a - a mod PAGING_PAGE_SIZE) /\
  (exists l1 blk l2, heap_used h = l1 ++ l2 /\ heap_used h' = l1 ++ blk :: l2 /\
     p = HEAP_BASE + blk.(offset) /\ sz <= blk.(size)) /\
  forall b, b ∈ heap_used h ->
    p + sz <= HEAP_BASE + b.(offset) \/ HEAP_BASE + b.(offset) + b.(size) <= p.
Proof.
  intros Hr Hsz Ha. pose proof (reachable_inv h m Hr) as Hi.
  pose proof (heap_allocate_spec sz h m Hi Hsz) as Hs. rewrite Ha in Hs.
  destruct Hs as (Hi' & _ & h1 & pre & b & post & blk & [= ->] & Hc).
  destruct (carved_used _ _ _ _ _ _ _ _ Hc) as [Hu Hu'].
  destruct Hc as [_ _ _ _ _ _ (Hbu & Hbo & Hbs) Hafter].
  assert (exists rest, heap_live h' = pre ++ blk :: rest /\ forall c, c ∈ post -> c ∈ rest)
    as (rest & El & Hrest).
  { destruct Hafter as [[-> _]| ->]; [by exists post|].
    eexists. split; [done|]. intros c Hc. by right. }
  pose proof (hi_tiles _ _ Hi') as Ht. rewrite El in Ht.
  pose proof (tiles_block _ _ _ _ _ Ht) as (? & ? & ?).
  pose proof (hi_committed _ _ Hi') as Hcm.
  split_and!; try lia.
  - pose proof (tiles_aligned _ _ _ _ _ Ht eq_refl) as Hal.
    unfold HEAP_BASE, HEAP_ALIGNMENT in *. rewrite Z.add_mod, Hal by lia. done.
  - intros a Ha2. destruct (hi_frames _ _ Hi') as (F & HF & Hinj).
    destruct (page_of h' a (hi_pages _ _ Hi')) as (q & Hq & ->); [lia|].
    exists (F q). destruct (HF q Hq) as [Em Ho]. split_and!; [done|done|].
    intros a' Ha3 Em'. destruct (page_of h' a' (hi_pages _ _ Hi')) as (q' & Hq' & E'); [lia|].
    rewrite E' in *. destruct (HF q' Hq') as [Em2 _]. rewrite Em2 in Em'. injection Em' as EF.
    f_equal. by apply Hinj.
  - exists (List.filter used pre), blk, (List.filter used post). done.
  - intros c Hc. destruct (tiles_order _ _ _ _ _ c Ht) as [Hb Ha'].
    rewrite Hu, elem_of_app in Hc.
    destruct Hc as [Hc|Hc]; apply list_elem_of_In, filter_In in Hc as [Hc%list_elem_of_In _].
    + right. specialize (Hb Hc). lia.
    + left. specialize (Ha' (Hrest c Hc)). lia.
Qed.

Lemma heap_allocate_exclusive_witness :
  HEAP_BASE + 100 <= HEAP_BASE + sample_after.(state).(committed_bytes) /\
  exists f, paging_translate sample_after_machine HEAP_BASE = Mapped f PAGING_WRITE 1.
Proof.
  destruct (heap_allocate_exclusive sample_heap sample_machine 100 HEAP_BASE
    sample_after sample_after_machine sample_heap_reachable) as (_ & _ & H2 & _ & H3 & _).
  - unfold is_u64, UINT64_MAX. lia.
  - exact sample_heap_allocates.
  - split; [exact H2|]. destruct (H3 HEAP_BASE) as (f & Hf & _); [lia|]. exists f. exact Hf.
Defined.

(** [heap_free] succeeds exactly on the address of a live
    allocation, and then forgets that allocation and no other.  The address of
    a free block is a double free, any other address is a bad pointer, and a
    refusal changes nothing. *)
Theorem heap_free_exact {M} `{PlatformLaws M} (h : heap) (m : M) ptr :
  reachable h m -> is_u64 ptr ->
  let '(status, h') := heap_free ptr h in
  (status <> HEAP_STATUS_OK -> h' = h) /\
  match status with
  | HEAP_STATUS_OK => exists l1 b l2, heap_used h = l1 ++ b :: l2 /\
      heap_used h' = l1 ++ l2 /\ ptr = HEAP_BASE + b.(offset)
  | HEAP_STATUS_NULL_ARGUMENT => ptr = 0
  | HEAP_STATUS_DOUBLE_FREE => exists b, b ∈ heap_live h /\ b.(used) = false /\
      ptr = HEAP_BASE + b.(offset)
  | HEAP_STATUS_BAD_POINTER =>
      ptr <> 0 /\ forall b, b ∈ heap_live h -> ptr <> HEAP_BASE + b.(offset)
  | _ => False
  end.
Proof.
  intros Hr Hp. pose proof (heap_free_spec ptr h m (reachable_inv h m Hr) Hp) as Hs.
  destruct (heap_free ptr h) as [st h']. destruct Hs as (_ & _ & ? & ?). done.
Qed.

Lemma heap_free_exact_witness :
  heap_free HEAP_BASE sample_heap = (HEAP_STATUS_BAD_POINTER, sample_heap) /\
  forall b, b ∈ heap_live sample_heap -> HEAP_BASE <> HEAP_BASE + b.(offset).
Proof.
  pose proof (heap_free_exact sample_heap sample_machine HEAP_BASE sample_heap_reachable) as H.
  assert (heap_free HEAP_BASE sample_heap = (HEAP_STATUS_BAD_POINTER, sample_heap)) as E
    by (vm_compute; reflexivity).
  split; [exact E|]. rewrite E in H. destruct H as (_ & _ & H).
  - unfold is_u64, UINT64_MAX, HEAP_BASE. lia.
  - exact H.
Defined.

(** Giving back the block an allocation carved leaves a free block there. *)
Lemma free_carved {M} `{PlatformLaws M} h h1 (h' : heap) (m' : M) sz pre b post blk :
  inv h' m' -> carved h h1 h' sz pre b post blk ->
  exists h2, heap_free (HEAP_BASE + blk.(offset)) h' = (HEAP_STATUS_OK, h2) /\
    inv h2 m' /\ heap_live h2 = pre ++ b :: post.
Proof.
  intros Hi [_ _ _ _ Hco Hu (Hbu & Hbo & _) Hafter].
  assert (exists rest, heap_live h' = pre ++ blk :: rest /\
    merge_right (MkBlock blk.(offset) blk.(size) false) rest = (b, post)) as (rest & El & Hm).
  { apply coalesced_app in Hco as (_ & Hc & _). apply coalesced_cons in Hc as [Ha _].
    destruct b as [bo bs bu]. cbn in *. subst bu. destruct Hafter as [[El Hs]|El].
    - exists post. split; [done|]. rewrite Hbo, Hs. destruct post as [|c post]; [done|].
      cbn in *. destruct Ha; [done|]. by destruct (used c).
    - eexists. split; [exact El|]. cbn. unfold join. cbn. rewrite Hbo. do 2 f_equal. lia. }
  destruct (heap_free_live h' m' pre blk rest Hi El Hbu) as (h2 & Hf & Hi2 & _ & Hl & _).
  exists h2. split_and!; try done. rewrite Hl. unfold merged. rewrite Hm. unfold merge_left.
  apply coalesced_app in Hco as (_ & _ & Hap).
  destruct (reverse pre) as [|c l] eqn:Er.
  - apply (f_equal reverse) in Er. rewrite reverse_involutive in Er. by subst pre.
  - apply (f_equal reverse) in Er. rewrite reverse_involutive, reverse_cons in Er. subst pre.
    rewrite last_snoc in Hap. cbn in Hap. rewrite Hu in Hap. destruct Hap as [->|]; [|done].
    by rewrite <- app_assoc.
Qed.

(** Freeing what was just allocated restores the live
    allocations, and restores the block table exactly when the heap did not
    have to grow; freeing it again is refused as a double free. *)
Theorem heap_roundtrip {M} `{PlatformLaws M} (h : heap) (m : M) sz p h' m' :
  reachable h m -> is_u64 sz ->
  heap_allocate sz true h m = (HEAP_STATUS_OK, Some p, h', m') ->
  exists h2, heap_free p h' = (HEAP_STATUS_OK, h2) /\ heap_used h2 = heap_used h /\
    (h2.(state).(committed_bytes) = h.(state).(committed_bytes) ->
     heap_live h2 = heap_live h) /\
    heap_free p h2 = (HEAP_STATUS_DOUBLE_FREE, h2).
Proof.
  intros Hr Hsz Ha. pose proof (reachable_inv h m Hr) as Hi.
  pose proof (heap_allocate_spec sz h m Hi Hsz) as Hs. rewrite Ha in Hs.
  destruct Hs as (Hi' & _ & h1 & pre & b & post & blk & [= ->] & Hc).
  destruct (carved_used _ _ _ _ _ _ _ _ Hc) as [Hu Hu'].
  destruct (free_carved h h1 h' m' sz pre b post blk Hi' Hc) as (h2 & Hf & Hi2 & Hl).
  destruct Hc as [Hfrom _ El Ht _ Hbf (_ & Hbo & _) _].
  exists h2. split_and!; [done| | |].
  - unfold heap_used at 1. rewrite Hl, Hu, List.filter_app. cbn. by rewrite Hbf.
  - intros Hcom. rewrite Hl. destruct Hfrom as [->|Hgrow]; [done|]. exfalso.
    pose proof (hi_tiles _ _ Hi2) as Ht2. rewrite Hl in Ht2.
    rewrite (tiles_fun _ _ _ _ Ht2 Ht) in Hcom. unfold heap_pages in Hgrow.
    rewrite Hcom in Hgrow. lia.
  - rewrite Hbo, (heap_free_at h2 m' pre b post Hi2 Hl), Hbf. done.
Qed.

Lemma heap_roundtrip_witness :
  exists h2, heap_free HEAP_BASE sample_after = (HEAP_STATUS_OK, h2) /\
    heap_used h2 = heap_used sample_heap.
Proof.
  destruct (heap_roundtrip sample_heap sample_machine 100 HEAP_BASE
    sample_after sample_after_machine sample_heap_reachable) as (h2 & H1 & H2 & _).
  - unfold is_u64, UINT64_MAX. lia.
  - exact sample_heap_allocates.
  - exists h2. exact (conj H1 H2).
Defined.

(** Growth is all or nothing.  Either every page of the range is
    backed by a fresh frame of its own and counted, or the call fails and the
    translations, the frames owned and the page count are what they were. *)
Theorem commit_pages_atomic {M} `{PlatformLaws M} (m : M) lo hi st :
  platform_ok m -> lo <= hi -> 0 <= st.(mapped_pages) ->
  st.(mapped_pages) + (hi - lo) <= UINT64_MAX ->
  let '(status, (st', m')) :=
    commit_pages (lo * PAGING_PAGE_SIZE) (hi * PAGING_PAGE_SIZE) st m in
  if bool_decide (status = HEAP_STATUS_OK) then
    st' = set_mapped st (st.(mapped_pages) + (hi - lo)) /\
    exists F, backed m m' lo hi F
  else
    st' = st /\ platform_ok m' /\ (forall f, owned m' f <-> owned m f) /\
    forall a, page_aligned a -> paging_translate m' a = paging_translate m a.
Proof.
  intros Hok Hle Hz Hmax. pose proof (commit_pages_spec m lo hi st Hok Hle Hz Hmax) as Hs.
  destruct (commit_pages _ _ st m) as [status [st' m']].
  destruct (bool_decide (status = HEAP_STATUS_OK)); [done|].
  destruct Hs as (_ & -> & F & Hb). split; [done|]. by apply backed_empty in Hb.
Qed.

Lemma commit_pages_atomic_witness :
  exists F, backed sample_machine
    (commit_pages 0 8192 sample_heap.(state) sample_machine).2.2 0 2 F.
Proof.
  pose proof (commit_pages_atomic sample_machine 0 2 sample_heap.(state) sample_machine_ok)
    as H.
  change (0 * PAGING_PAGE_SIZE) with 0 in H. change (2 * PAGING_PAGE_SIZE) with 8192 in H.
  assert ((commit_pages 0 8192 sample_heap.(state) sample_machine).1 = HEAP_STATUS_OK) as E
    by (vm_compute; reflexivity).
  destruct (commit_pages 0 8192 sample_heap.(state) sample_machine) as [st [st' m']].
  cbn in E. subst st. cbn [bool_decide] in H. destruct H as [_ H].
  - lia.
  - vm_compute. discriminate.
  - vm_compute. discriminate.
  - exact H.
Defined.

(** Heaps no allocation of which was refused for want of a table entry. *)
Inductive clean {M} `{PlatformLaws M} : heap -> M -> Prop :=
| clean_initialize h0 m h :
    zlength h0.(blocks) = HEAP_MAX_BLOCKS -> platform_ok m ->
    heap_initialize h0 m = (HEAP_STATUS_OK, h) -> clean h m
| clean_allocate h m sz ptr st h' m' :
    clean h m -> is_u64 sz -> heap_allocate sz true h m = (st, ptr, h', m') ->
    st <> HEAP_STATUS_OUT_OF_BLOCKS -> clean h' m'
| clean_free h m ptr st h' :
    clean h m -> is_u64 ptr -> heap_free ptr h = (st, h') -> clean h' m.

(** [heap_verify] finds a heap in order after any sequence of
    allocations and frees, successful or refused, unless an allocation was
    refused because the block table was full. *)
Theorem heap_verify_clean {M} `{PlatformLaws M} (h : heap) (m : M) :
  clean h m -> heap_verify h m = HEAP_STATUS_OK.
Proof.
  intros Hc. cut (inv h m /\ fresh h); [intros []; by apply heap_verify_spec|].
  induction Hc as [h0 m h Hl Hok E|h m sz ptr st h' m' Hr [IH1 IH2] Hsz E Hst|
    h m ptr st h' Hr [IH1 IH2] Hp E].
  - pose proof (heap_initialize_spec h0 m Hok Hl) as Hs. rewrite E in Hs.
    destruct Hs as [_ Hs]. by destruct (Hs eq_refl) as (? & ? & _).
  - pose proof (heap_allocate_spec sz h m IH1 Hsz) as Hs. rewrite E in Hs.
    destruct Hs as (? & Hf & _). auto.
  - pose proof (heap_free_spec ptr h m IH1 Hp) as Hs. rewrite E in Hs.
    destruct Hs as (? & Hf & _). auto.
Qed.

Lemma heap_verify_clean_witness : heap_verify sample_after sample_after_machine = HEAP_STATUS_OK.
Proof.
  apply heap_verify_clean.
  apply (clean_allocate sample_heap sample_machine 100 (Some HEAP_BASE) HEAP_STATUS_OK).
  - eapply clean_initialize; [|apply sample_machine_ok|apply sample_heap_initializes].
    reflexivity.
  - unfold is_u64, UINT64_MAX. lia.
  - exact sample_heap_allocates.
  - discriminate.
Defined.

(** ** A full block table *)

(** One committed page cut into 255 live allocations: one entry left. *)
Definition crowded_table : list heap_block :=
  ((fun i => MkBlock (16 * i) 16 true) <$> seqZ 0 254) ++ [MkBlock 4064 32 true; blank].
Definition crowded_heap : heap :=
  MkHeap crowded_table (MkState HEAP_BASE HEAP_SIZE 4096 4096 255 255 1 true) 255.
Definition crowded_machine : machine :=
  MkMachine PhysicalMemory.sample_allocated
    (fun a => if a =? HEAP_BASE then Some 0x104000 else None) true false.

(** The one way a heap call leaves the heap inconsistent with its
    own figures.  From a heap heap_verify accepts, an allocation that has to
    append the last block table entry and then cannot split it is refused with
    OUT_OF_BLOCKS, but the appended block is kept and the reported block count
    is not refreshed: heap_verify fails from then on. *)
Theorem heap_full_table_breaks_verify :
  heap_verify crowded_heap crowded_machine = HEAP_STATUS_OK /\
  let '(status, ptr, h, m) := heap_allocate 16 true crowded_heap crowded_machine in
  status = HEAP_STATUS_OUT_OF_BLOCKS /\ ptr = Some 0 /\
  h.(block_count) = 256 /\ h.(state).(state_block_count) = 255 /\
  h.(state).(committed_bytes) = 8192 /\
  heap_verify h m = HEAP_STATUS_VALIDATION_FAILURE.
Proof. vm_compute. auto 10. Qed.

(** The kernel's own heap self-test passes before the heap is
    initialized, on any machine and whatever its stack tables held. *)
Theorem heap_self_test_passes {M} `{HeapPlatform M} (junk : heap_block) (m : M) :
  heap_self_test junk heap_bss m = true.
Proof. vm_compute. reflexivity. Qed.

End Heap.
