(* ===== verification/ApicTimer.v ===== *)
(** The local APIC timer: src/src/kernel/apic_timer.c.

    The file-scope objects are the record [apic_timer]; the local APIC's
    registers, the power management timer, the interrupt table and the
    processor are the class [ApicTimerPlatform] over a world [W].  A handler is
    a number (0 is NULL); what the installed expiry handler does is the
    parameter [run_expiry].  The halt of the wait loop is the parameter [halt]:
    whatever interrupts it takes. *)
From S2P Require Import Prelude.

Module ApicTimer.

Definition APIC_REGISTER_LVT_TIMER : Z := 0x0320.
Definition APIC_REGISTER_TIMER_INITIAL_COUNT : Z := 0x0380.
Definition APIC_REGISTER_TIMER_CURRENT_COUNT : Z := 0x0390.
Definition APIC_REGISTER_TIMER_DIVIDE : Z := 0x03E0.
Definition APIC_TIMER_MODE_PERIODIC : Z := 0x00020000.
Definition APIC_TIMER_MODE_ONE_SHOT : Z := 0.
Definition NANOSECONDS_PER_SECOND : Z := 1000000000.
Definition APIC_TIMER_MASKED : Z := 0x00010000.
Definition APIC_TIMER_LVT_WRITABLE_MASK : Z := 0x000707FF.
Definition APIC_TIMER_DIVIDE_BY_SIXTEEN : Z := 3.
Definition APIC_TIMER_MAX_COUNT : Z := 0xFFFFFFFF.
Definition PM_TIMER_FREQUENCY_HZ : Z := 3579545.
Definition REFERENCE_PM_TICKS : Z := PM_TIMER_FREQUENCY_HZ / 10.
Definition APIC_TIMER_VECTOR : Z := 64.
Definition APIC_SPURIOUS_VECTOR : Z := 0xFF.

Inductive apic_timer_status : Type :=
| APIC_TIMER_STATUS_OK
| APIC_TIMER_STATUS_APIC_OFFLINE
| APIC_TIMER_STATUS_INTERRUPTS_ENABLED
| APIC_TIMER_STATUS_ALREADY_CALIBRATED
| APIC_TIMER_STATUS_NOT_CALIBRATED
| APIC_TIMER_STATUS_ALREADY_RUNNING
| APIC_TIMER_STATUS_NOT_RUNNING
| APIC_TIMER_STATUS_REFERENCE_FAILURE
| APIC_TIMER_STATUS_NOT_COUNTING
| APIC_TIMER_STATUS_COUNTER_EXHAUSTED
| APIC_TIMER_STATUS_BAD_FREQUENCY
| APIC_TIMER_STATUS_INTERRUPT_FAILURE
| APIC_TIMER_STATUS_READBACK_MISMATCH
| APIC_TIMER_STATUS_ALREADY_ARMED
| APIC_TIMER_STATUS_NOT_ARMED
| APIC_TIMER_STATUS_BAD_INTERVAL.

#[export] Instance apic_timer_status_eq_dec : EqDecision apic_timer_status.
Proof. solve_decision. Defined.

(** The file-scope objects. *)
Record apic_timer : Type := MkApicTimer {
  tick_counter : Z;
  expiry_counter : Z;
  counts_per_second : Z;
  configured_frequency : Z;
  calibrated : bool;
  running : bool;
  armed : bool;
  expiry_handler : Z;
  expiry_context : Z;
  oneshot_ready : bool
}.

Definition apic_timer_bss : apic_timer := MkApicTimer 0 0 0 0 false false false 0 0 false.

Definition set_ticks (a : apic_timer) (n : Z) : apic_timer :=
  MkApicTimer n a.(expiry_counter) a.(counts_per_second) a.(configured_frequency)
    a.(calibrated) a.(running) a.(armed) a.(expiry_handler) a.(expiry_context)
    a.(oneshot_ready).
Definition set_expiries (a : apic_timer) (n : Z) : apic_timer :=
  MkApicTimer a.(tick_counter) n a.(counts_per_second) a.(configured_frequency)
    a.(calibrated) a.(running) a.(armed) a.(expiry_handler) a.(expiry_context)
    a.(oneshot_ready).
Definition set_rate (a : apic_timer) (rate : Z) : apic_timer :=
  MkApicTimer a.(tick_counter) a.(expiry_counter) rate a.(configured_frequency)
    true a.(running) a.(armed) a.(expiry_handler) a.(expiry_context) a.(oneshot_ready).
Definition set_running (a : apic_timer) (b : bool) (frequency : Z) : apic_timer :=
  MkApicTimer a.(tick_counter) a.(expiry_counter) a.(counts_per_second) frequency
    a.(calibrated) b a.(armed) a.(expiry_handler) a.(expiry_context) a.(oneshot_ready).
Definition set_armed (a : apic_timer) (b : bool) : apic_timer :=
  MkApicTimer a.(tick_counter) a.(expiry_counter) a.(counts_per_second)
    a.(configured_frequency) a.(calibrated) a.(running) b a.(expiry_handler)
    a.(expiry_context) a.(oneshot_ready).
Definition set_handler (a : apic_timer) (handler context : Z) : apic_timer :=
  MkApicTimer a.(tick_counter) a.(expiry_counter) a.(counts_per_second)
    a.(configured_frequency) a.(calibrated) a.(running) a.(armed) handler context
    a.(oneshot_ready).
Definition set_ready (a : apic_timer) (b : bool) : apic_timer :=
  MkApicTimer a.(tick_counter) a.(expiry_counter) a.(counts_per_second)
    a.(configured_frequency) a.(calibrated) a.(running) a.(armed) a.(expiry_handler)
    a.(expiry_context) b.

(** The calls into apic.c, cpu.c, pm_timer.c and interrupts.c; a boolean answer
    says whether the status was OK. *)
Class ApicTimerPlatform (W : Type) := {
  apic_is_online : W -> bool;
  cpu_interrupts_enabled : W -> bool;
  cpu_interrupt_disable : W -> W;
  apic_register_read : Z -> W -> Z * W;
  apic_register_write : Z -> Z -> W -> W;
  pm_timer_is_present : W -> bool;
  pm_timer_wait : Z -> W -> bool * Z * W;
  interrupt_register_handler : Z -> W -> bool * W;
  interrupt_unregister_handler : Z -> W -> bool * W
}.

(** * Arithmetic

    A count is returned with its status; it is 0 (nothing stored) otherwise. *)

Definition count_for_nanoseconds (rate nanoseconds : Z) : apic_timer_status * Z :=
  if (rate =? 0) || (nanoseconds =? 0) then (APIC_TIMER_STATUS_BAD_INTERVAL, 0)
  else if nanoseconds / NANOSECONDS_PER_SECOND >? APIC_TIMER_MAX_COUNT / rate then
    (APIC_TIMER_STATUS_BAD_INTERVAL, 0)
  else
    let requested :=
      u64 (u64 (nanoseconds / NANOSECONDS_PER_SECOND * rate) +
           u64 (nanoseconds mod NANOSECONDS_PER_SECOND * rate) / NANOSECONDS_PER_SECOND) in
    if (requested =? 0) || (requested >? APIC_TIMER_MAX_COUNT) then
      (APIC_TIMER_STATUS_BAD_INTERVAL, 0)
    else (APIC_TIMER_STATUS_OK, u32 requested).

Definition rate_from_countdown (start stop reference_frequency reference_ticks : Z)
  : apic_timer_status * Z :=
  if (reference_frequency =? 0) || (reference_ticks =? 0) then
    (APIC_TIMER_STATUS_BAD_FREQUENCY, 0)
  else if stop =? 0 then (APIC_TIMER_STATUS_COUNTER_EXHAUSTED, 0)
  else if start <=? stop then (APIC_TIMER_STATUS_NOT_COUNTING, 0)
  else
    let elapsed := u64 (start - stop) in
    let rate := u64 (elapsed * reference_frequency) / reference_ticks in
    if rate =? 0 then (APIC_TIMER_STATUS_NOT_COUNTING, 0)
    else (APIC_TIMER_STATUS_OK, rate).

Definition count_for_frequency (rate frequency_hz : Z) : apic_timer_status * Z :=
  if (frequency_hz =? 0) || (rate =? 0) then (APIC_TIMER_STATUS_BAD_FREQUENCY, 0)
  else
    let requested := rate / frequency_hz in
    if (requested =? 0) || (requested >? APIC_TIMER_MAX_COUNT) then
      (APIC_TIMER_STATUS_BAD_FREQUENCY, 0)
    else (APIC_TIMER_STATUS_OK, u32 requested).

Definition is_ok (status : apic_timer_status) : bool :=
  bool_decide (status = APIC_TIMER_STATUS_OK).

Section platform.
Context {W : Type} `{ApicTimerPlatform W}.

(** The code of the installed handler: handler, context, state and world. *)
Variable run_expiry : Z -> Z -> apic_timer -> W -> apic_timer * W.

Definition apic_timer_handler (a : apic_timer) (w : W) : apic_timer * W :=
  let a := set_ticks a (u64 (a.(tick_counter) + 1)) in
  if a.(armed) then
    let a := set_armed a false in
    let a := set_expiries a (u64 (a.(expiry_counter) + 1)) in
    if negb (a.(expiry_handler) =? 0) then
      run_expiry a.(expiry_handler) a.(expiry_context) a w
    else (a, w)
  else (a, w).

Definition stop_counting (w : W) : W :=
  let w := apic_register_write APIC_REGISTER_TIMER_INITIAL_COUNT 0 w in
  apic_register_write APIC_REGISTER_LVT_TIMER
    (Z.lor APIC_TIMER_MASKED APIC_SPURIOUS_VECTOR) w.

Definition apic_timer_calibrate (a : apic_timer) (w : W)
  : apic_timer_status * apic_timer * W :=
  if negb (apic_is_online w) then (APIC_TIMER_STATUS_APIC_OFFLINE, a, w)
  else if cpu_interrupts_enabled w then (APIC_TIMER_STATUS_INTERRUPTS_ENABLED, a, w)
  else if a.(calibrated) then (APIC_TIMER_STATUS_ALREADY_CALIBRATED, a, w)
  else if negb (pm_timer_is_present w) then (APIC_TIMER_STATUS_REFERENCE_FAILURE, a, w)
  else
    let w := apic_register_write APIC_REGISTER_TIMER_DIVIDE
               APIC_TIMER_DIVIDE_BY_SIXTEEN w in
    let w := apic_register_write APIC_REGISTER_LVT_TIMER
               (Z.lor APIC_TIMER_MASKED APIC_SPURIOUS_VECTOR) w in
    let w := apic_register_write APIC_REGISTER_TIMER_INITIAL_COUNT
               APIC_TIMER_MAX_COUNT w in
    let '(start, w) := apic_register_read APIC_REGISTER_TIMER_CURRENT_COUNT w in
    let '(pm_ok, reference_ticks, w) := pm_timer_wait REFERENCE_PM_TICKS w in
    let '(stop, w) := apic_register_read APIC_REGISTER_TIMER_CURRENT_COUNT w in
    let w := stop_counting w in
    if negb pm_ok then (APIC_TIMER_STATUS_REFERENCE_FAILURE, a, w)
    else
      let '(status, rate) :=
        rate_from_countdown start stop PM_TIMER_FREQUENCY_HZ reference_ticks in
      if negb (is_ok status) then (status, a, w)
      else (APIC_TIMER_STATUS_OK, set_rate a rate, w).

Definition apic_timer_start (frequency_hz : Z) (a : apic_timer) (w : W)
  : apic_timer_status * apic_timer * W :=
  if negb (apic_is_online w) then (APIC_TIMER_STATUS_APIC_OFFLINE, a, w)
  else if cpu_interrupts_enabled w then (APIC_TIMER_STATUS_INTERRUPTS_ENABLED, a, w)
  else if negb a.(calibrated) then (APIC_TIMER_STATUS_NOT_CALIBRATED, a, w)
  else if a.(running) then (APIC_TIMER_STATUS_ALREADY_RUNNING, a, w)
  else if a.(armed) || a.(oneshot_ready) then (APIC_TIMER_STATUS_ALREADY_ARMED, a, w)
  else
    let '(status, count) := count_for_frequency a.(counts_per_second) frequency_hz in
    if negb (is_ok status) then (status, a, w)
    else
      let '(ok, w) := interrupt_register_handler APIC_TIMER_VECTOR w in
      if negb ok then (APIC_TIMER_STATUS_INTERRUPT_FAILURE, a, w)
      else
        let a := set_ticks a 0 in
        let lvt := Z.lor APIC_TIMER_MODE_PERIODIC APIC_TIMER_VECTOR in
        let w := apic_register_write APIC_REGISTER_TIMER_DIVIDE
                   APIC_TIMER_DIVIDE_BY_SIXTEEN w in
        let w := apic_register_write APIC_REGISTER_LVT_TIMER lvt w in
        let '(readback, w) := apic_register_read APIC_REGISTER_LVT_TIMER w in
        if negb (Z.land readback APIC_TIMER_LVT_WRITABLE_MASK =? lvt) then
          let w := stop_counting w in
          let '(_, w) := interrupt_unregister_handler APIC_TIMER_VECTOR w in
          (APIC_TIMER_STATUS_READBACK_MISMATCH, a, w)
        else
          let w := apic_register_write APIC_REGISTER_TIMER_INITIAL_COUNT count w in
          (APIC_TIMER_STATUS_OK, set_running a true frequency_hz, w).

Definition apic_timer_stop (a : apic_timer) (w : W) : apic_timer_status * apic_timer * W :=
  if negb a.(running) then (APIC_TIMER_STATUS_NOT_RUNNING, a, w)
  else if cpu_interrupts_enabled w then (APIC_TIMER_STATUS_INTERRUPTS_ENABLED, a, w)
  else
    let w := stop_counting w in
    let '(ok, w) := interrupt_unregister_handler APIC_TIMER_VECTOR w in
    if negb ok then (APIC_TIMER_STATUS_INTERRUPT_FAILURE, a, w)
    else (APIC_TIMER_STATUS_OK, set_running a false 0, w).

(** cpu_enable_and_halt and the interrupts it takes; the fuel bounds how many
    halts are watched ([None]: still waiting). *)
Variable halt : apic_timer -> W -> apic_timer * W.

Fixpoint wait_loop (fuel : nat) (target : Z) (a : apic_timer) (w : W)
  : option (apic_timer * W) :=
  match fuel with
  | O => None
  | S fuel =>
      if a.(tick_counter) <? target then
        let '(a, w) := halt a w in wait_loop fuel target a w
      else Some (a, w)
  end.

Definition apic_timer_wait_for_ticks (fuel : nat) (tick_count : Z) (a : apic_timer) (w : W)
  : option (apic_timer_status * apic_timer * W) :=
  if negb a.(running) then Some (APIC_TIMER_STATUS_NOT_RUNNING, a, w)
  else if cpu_interrupts_enabled w then
    Some (APIC_TIMER_STATUS_INTERRUPTS_ENABLED, a, w)
  else if tick_count =? 0 then Some (APIC_TIMER_STATUS_OK, a, w)
  else
    let target :=
      if tick_count >? u64 (UINT64_MAX - a.(tick_counter)) then UINT64_MAX
      else u64 (a.(tick_counter) + tick_count) in
    match wait_loop fuel target a w with
    | None => None
    | Some (a, w) => Some (APIC_TIMER_STATUS_OK, a, cpu_interrupt_disable w)
    end.

Definition apic_timer_set_expiry_handler (handler context : Z) (a : apic_timer) (w : W)
  : apic_timer_status * apic_timer * W :=
  if cpu_interrupts_enabled w then (APIC_TIMER_STATUS_INTERRUPTS_ENABLED, a, w)
  else if a.(armed) then (APIC_TIMER_STATUS_ALREADY_ARMED, a, w)
  else if negb (handler =? 0) then
    let '(ok, a, w) :=
      if negb a.(oneshot_ready) then
        let '(ok, w) := interrupt_register_handler APIC_TIMER_VECTOR w in
        if negb ok then (false, a, w) else (true, set_ready a true, w)
      else (true, a, w) in
    if negb ok then (APIC_TIMER_STATUS_INTERRUPT_FAILURE, a, w)
    else (APIC_TIMER_STATUS_OK, set_handler a handler context, w)
  else
    let '(ok, a, w) :=
      if a.(oneshot_ready) then
        let w := stop_counting w in
        let '(ok, w) := interrupt_unregister_handler APIC_TIMER_VECTOR w in
        if negb ok then (false, a, w) else (true, set_ready a false, w)
      else (true, a, w) in
    if negb ok then (APIC_TIMER_STATUS_INTERRUPT_FAILURE, a, w)
    else (APIC_TIMER_STATUS_OK, set_handler a 0 0, w).

Definition apic_timer_arm_oneshot (nanoseconds : Z) (a : apic_timer) (w : W)
  : apic_timer_status * apic_timer * W :=
  if negb (apic_is_online w) then (APIC_TIMER_STATUS_APIC_OFFLINE, a, w)
  else if cpu_interrupts_enabled w then (APIC_TIMER_STATUS_INTERRUPTS_ENABLED, a, w)
  else if negb a.(calibrated) then (APIC_TIMER_STATUS_NOT_CALIBRATED, a, w)
  else if a.(running) then (APIC_TIMER_STATUS_ALREADY_RUNNING, a, w)
  else if a.(armed) then (APIC_TIMER_STATUS_ALREADY_ARMED, a, w)
  else if negb a.(oneshot_ready) then (APIC_TIMER_STATUS_INTERRUPT_FAILURE, a, w)
  else
    let '(status, count) := count_for_nanoseconds a.(counts_per_second) nanoseconds in
    if negb (is_ok status) then (status, a, w)
    else
      let lvt := Z.lor APIC_TIMER_MODE_ONE_SHOT APIC_TIMER_VECTOR in
      let w := apic_register_write APIC_REGISTER_TIMER_DIVIDE
                 APIC_TIMER_DIVIDE_BY_SIXTEEN w in
      let w := apic_register_write APIC_REGISTER_LVT_TIMER lvt w in
      let '(readback, w) := apic_register_read APIC_REGISTER_LVT_TIMER w in
      if negb (Z.land readback APIC_TIMER_LVT_WRITABLE_MASK =? lvt) then
        (APIC_TIMER_STATUS_READBACK_MISMATCH, a, stop_counting w)
      else
        let a := set_armed a true in
        let w := apic_register_write APIC_REGISTER_TIMER_INITIAL_COUNT count w in
        (APIC_TIMER_STATUS_OK, a, w).

Definition apic_timer_disarm (a : apic_timer) (w : W) : apic_timer_status * apic_timer * W :=
  if cpu_interrupts_enabled w then (APIC_TIMER_STATUS_INTERRUPTS_ENABLED, a, w)
  else if negb a.(armed) then (APIC_TIMER_STATUS_NOT_ARMED, a, w)
  else (APIC_TIMER_STATUS_OK, set_armed a false, stop_counting w).

Definition apic_timer_is_armed (a : apic_timer) : bool := a.(armed).
Definition apic_timer_expiry_count (a : apic_timer) : Z := a.(expiry_counter).
Definition apic_timer_ticks (a : apic_timer) : Z := a.(tick_counter).
Definition apic_timer_counts_per_second (a : apic_timer) : Z := a.(counts_per_second).
Definition apic_timer_is_calibrated (a : apic_timer) : bool := a.(calibrated).
Definition apic_timer_is_running (a : apic_timer) : bool := a.(running).

(** * The self-test *)

Definition test_countdowns : bool :=
  let F := PM_TIMER_FREQUENCY_HZ in
  bool_decide (rate_from_countdown 0xFFFFFFFF (0xFFFFFFFF - 62500000) F F =
               (APIC_TIMER_STATUS_OK, 62500000)) &&
  bool_decide (rate_from_countdown 0xFFFFFFFF (0xFFFFFFFF - 62500000) F (u64 (F * 2)) =
               (APIC_TIMER_STATUS_OK, 31250000)) &&
  bool_decide ((rate_from_countdown 0xFFFFFFFF 0xFFFFFFFF F F).1 =
               APIC_TIMER_STATUS_NOT_COUNTING) &&
  bool_decide ((rate_from_countdown 1000 2000 F F).1 = APIC_TIMER_STATUS_NOT_COUNTING) &&
  bool_decide ((rate_from_countdown 0xFFFFFFFF 0 F F).1 =
               APIC_TIMER_STATUS_COUNTER_EXHAUSTED) &&
  bool_decide ((rate_from_countdown 0xFFFFFFFF 0xFFFFFFF0 0 F).1 =
               APIC_TIMER_STATUS_BAD_FREQUENCY) &&
  bool_decide ((rate_from_countdown 0xFFFFFFFF 0xFFFFFFF0 F 0).1 =
               APIC_TIMER_STATUS_BAD_FREQUENCY).

Definition test_counts : bool :=
  let R := 62500000 in
  bool_decide (count_for_frequency R 100 = (APIC_TIMER_STATUS_OK, 625000)) &&
  bool_decide ((count_for_frequency R 100000000).1 = APIC_TIMER_STATUS_BAD_FREQUENCY) &&
  bool_decide ((count_for_frequency 0x1000000000 1).1 = APIC_TIMER_STATUS_BAD_FREQUENCY) &&
  bool_decide (count_for_nanoseconds R 1000000 = (APIC_TIMER_STATUS_OK, 62500)) &&
  bool_decide (count_for_nanoseconds R NANOSECONDS_PER_SECOND =
               (APIC_TIMER_STATUS_OK, 62500000)) &&
  bool_decide ((count_for_nanoseconds R 1).1 = APIC_TIMER_STATUS_BAD_INTERVAL) &&
  bool_decide ((count_for_nanoseconds R 0).1 = APIC_TIMER_STATUS_BAD_INTERVAL) &&
  bool_decide ((count_for_nanoseconds 0 1000000).1 = APIC_TIMER_STATUS_BAD_INTERVAL) &&
  bool_decide ((count_for_nanoseconds R (69 * NANOSECONDS_PER_SECOND)).1 =
               APIC_TIMER_STATUS_BAD_INTERVAL) &&
  bool_decide ((count_for_nanoseconds R UINT64_MAX).1 = APIC_TIMER_STATUS_BAD_INTERVAL).

Definition apic_timer_self_test (a : apic_timer) (w : W) : bool :=
  if negb test_countdowns || negb test_counts then false
  else
    let '(st_disarm, a1, w1) := apic_timer_disarm a w in
    if apic_timer_is_armed a ||
       negb (bool_decide (st_disarm = APIC_TIMER_STATUS_NOT_ARMED)) then false
    else
      bool_decide ((count_for_frequency 62500000 0).1 = APIC_TIMER_STATUS_BAD_FREQUENCY) &&
      bool_decide ((fun r => r.1.1) <$> apic_timer_wait_for_ticks 1 1 a1 w1 =
                   Some APIC_TIMER_STATUS_NOT_RUNNING) &&
      bool_decide ((apic_timer_stop a1 w1).1.1 = APIC_TIMER_STATUS_NOT_RUNNING).
End platform.

(** * Arithmetic lemmas *)

(** Converting whole seconds and the rest apart is the single division. *)
Lemma split_division ns rate :
  0 <= ns -> 0 <= rate ->
  ns / NANOSECONDS_PER_SECOND * rate +
    ns mod NANOSECONDS_PER_SECOND * rate / NANOSECONDS_PER_SECOND =
  ns * rate / NANOSECONDS_PER_SECOND.
Proof.
  intros Hn Hr. unfold NANOSECONDS_PER_SECOND.
  rewrite (Z.div_mod ns 1000000000) at 3 by lia.
  replace ((1000000000 * (ns / 1000000000) + ns mod 1000000000) * rate) with
    (ns / 1000000000 * rate * 1000000000 + ns mod 1000000000 * rate) by ring.
  by rewrite Z.div_add_l by lia.
Qed.

(** The whole-seconds guard refuses only what the register cannot hold. *)
Lemma seconds_guard ns rate :
  0 <= ns -> 0 < rate ->
  ns / NANOSECONDS_PER_SECOND > APIC_TIMER_MAX_COUNT / rate ->
  ns * rate / NANOSECONDS_PER_SECOND > APIC_TIMER_MAX_COUNT.
Proof.
  intros Hn Hr Hg. rewrite <- split_division by lia.
  pose proof (Z.div_pos (ns mod NANOSECONDS_PER_SECOND * rate) NANOSECONDS_PER_SECOND) as Hp.
  pose proof (Z.mod_pos_bound ns NANOSECONDS_PER_SECOND ltac:(done)).
  pose proof (Z.mul_succ_div_gt APIC_TIMER_MAX_COUNT rate Hr). 
  unfold NANOSECONDS_PER_SECOND in *. nia.
Qed.

(** The interval conversion is the exact floor of
    nanoseconds * rate / 10^9, with no intermediate overflow, for every rate
    whose product with a remainder below a second fits in 64 bits; it refuses
    exactly the intervals whose count is zero or does not fit the 32-bit count
    register. *)
Theorem count_for_nanoseconds_exact rate ns :
  is_u64 rate -> is_u64 ns -> 999999999 * rate <= UINT64_MAX ->
  let count := ns * rate / NANOSECONDS_PER_SECOND in
  count_for_nanoseconds rate ns =
    if (0 <? count) && (count <=? APIC_TIMER_MAX_COUNT) then (APIC_TIMER_STATUS_OK, count)
    else (APIC_TIMER_STATUS_BAD_INTERVAL, 0).
Proof.
  intros [Hr _] [Hn Hn2] Hfit count. subst count. unfold count_for_nanoseconds.
  destruct ((rate =? 0) || (ns =? 0)) eqn:E0.
  { assert (ns * rate = 0) as ->; [|done]. apply orb_prop in E0.
    destruct E0; bool_hyps; lia. }
  bool_hyps. destruct (_ >? _) eqn:Eg; bool_hyps.
  { pose proof (seconds_guard ns rate ltac:(lia) ltac:(lia)).
    rewrite (proj2 (Z.leb_gt _ _)) by lia. by rewrite andb_false_r. }
  rewrite <- split_division by lia.
  pose proof (Z.mod_pos_bound ns NANOSECONDS_PER_SECOND ltac:(done)) as Hm.
  pose proof (Z.div_pos ns NANOSECONDS_PER_SECOND Hn ltac:(done)) as Hd.
  pose proof (Z.mul_div_le APIC_TIMER_MAX_COUNT rate ltac:(lia)).
  assert (0 <= ns / NANOSECONDS_PER_SECOND * rate <= APIC_TIMER_MAX_COUNT) as Hs by nia.
  assert (0 <= ns mod NANOSECONDS_PER_SECOND * rate <= UINT64_MAX) as Hrem
    by (unfold NANOSECONDS_PER_SECOND, UINT64_MAX in *; nia).
  pose proof (Z.div_le_mono _ _ NANOSECONDS_PER_SECOND ltac:(done) (proj2 Hrem)) as Hq.
  pose proof (Z.div_pos _ NANOSECONDS_PER_SECOND (proj1 Hrem) ltac:(done)) as Hq0.
  assert (UINT64_MAX / NANOSECONDS_PER_SECOND = 18446744073) as Hk by reflexivity.
  rewrite Hk in Hq. set (sec := ns / NANOSECONDS_PER_SECOND * rate) in *.
  set (rest := ns mod NANOSECONDS_PER_SECOND * rate / NANOSECONDS_PER_SECOND) in *.
  assert (APIC_TIMER_MAX_COUNT = 4294967295) as Hmax by done.
  rewrite (u64_small sec), (u64_small (_ mod _ * rate)) by (unfold is_u64, UINT64_MAX in *; lia).
  fold rest. rewrite (u64_small (sec + rest)) by (unfold is_u64, UINT64_MAX; lia).
  destruct (sec + rest =? 0) eqn:Ez; bool_hyps.
  { cbn [orb]. by rewrite Ez. }
  cbn [orb]. rewrite (proj2 (Z.ltb_lt 0 _)) by lia. cbn [andb].
  destruct (sec + rest >? APIC_TIMER_MAX_COUNT) eqn:Em; bool_hyps.
  - by rewrite (proj2 (Z.leb_gt _ _)) by lia.
  - rewrite (proj2 (Z.leb_le _ _)) by lia. by rewrite u32_small by (unfold is_u32, UINT32_MAX; lia).
Qed.

Lemma count_for_nanoseconds_exact_witness :
  count_for_nanoseconds 62500000 69000000000 = (APIC_TIMER_STATUS_BAD_INTERVAL, 0) /\
  count_for_nanoseconds 62500000 1500000 = (APIC_TIMER_STATUS_OK, 93750).
Proof.
  split.
  - rewrite (count_for_nanoseconds_exact 62500000 69000000000); [reflexivity|..];
      unfold is_u64, UINT64_MAX; lia.
  - rewrite (count_for_nanoseconds_exact 62500000 1500000); [reflexivity|..];
      unfold is_u64, UINT64_MAX; lia.
Defined.

(** * Who owns the vector and the count register *)

(** [registered] is whether the interrupt table holds a handler for the timer's
    vector: registering succeeds only when it does not, unregistering only when
    it does, and nothing else the timer calls changes it. *)
Class ApicTimerLaws (W : Type) `{ApicTimerPlatform W} := {
  registered : W -> bool;
  law_register w : let '(ok, w') := interrupt_register_handler APIC_TIMER_VECTOR w in
    if ok then registered w = false /\ registered w' = true
    else registered w' = registered w;
  law_unregister w : let '(ok, w') := interrupt_unregister_handler APIC_TIMER_VECTOR w in
    if ok then registered w = true /\ registered w' = false
    else registered w' = registered w /\
      (registered w = true -> cpu_interrupts_enabled w = true);
  law_register_enabled v w :
    cpu_interrupts_enabled (interrupt_register_handler v w).2 = cpu_interrupts_enabled w;
  law_read_range r w : is_u32 (apic_register_read r w).1;
  law_read r w : registered (apic_register_read r w).2 = registered w /\
    cpu_interrupts_enabled (apic_register_read r w).2 = cpu_interrupts_enabled w;
  law_write r v w : registered (apic_register_write r v w) = registered w /\
    cpu_interrupts_enabled (apic_register_write r v w) = cpu_interrupts_enabled w;
  law_pm_wait n w : registered (pm_timer_wait n w).2 = registered w /\
    is_u64 (pm_timer_wait n w).1.2
}.

Section modes.
Context {W : Type} `{ApicTimerLaws W}.

(** The two modes exclude each other, whichever is on owns the vector, and a
    deadline is armed only with a handler to receive it. *)
Record inv (a : apic_timer) (w : W) : Prop := {
  inv_vector : registered w = a.(running) || a.(oneshot_ready);
  inv_exclusive : a.(running) && a.(oneshot_ready) = false;
  inv_armed : a.(armed) = true -> a.(oneshot_ready) = true;
  inv_handler : a.(oneshot_ready) = negb (a.(expiry_handler) =? 0);
  inv_running : a.(running) = true -> a.(calibrated) = true;
  inv_programmed : a.(armed) = true -> a.(calibrated) = true;
  inv_rate : a.(calibrated) = true -> 0 < a.(counts_per_second)
}.

(** The calls a client, or the installed handler, makes. *)
Inductive call : apic_timer * W -> apic_timer * W -> Prop :=
| call_calibrate a w st a' w' :
    apic_timer_calibrate a w = (st, a', w') -> call (a, w) (a', w')
| call_start f a w st a' w' :
    apic_timer_start f a w = (st, a', w') -> call (a, w) (a', w')
| call_stop a w st a' w' :
    apic_timer_stop a w = (st, a', w') -> call (a, w) (a', w')
| call_set_handler h c a w st a' w' :
    apic_timer_set_expiry_handler h c a w = (st, a', w') -> call (a, w) (a', w')
| call_arm ns a w st a' w' :
    apic_timer_arm_oneshot ns a w = (st, a', w') -> call (a, w) (a', w')
| call_disarm a w st a' w' :
    apic_timer_disarm a w = (st, a', w') -> call (a, w) (a', w').

(** A call, a timer interrupt whose handler only makes calls, or anything that
    leaves the interrupt table alone (interrupts going on or off among them). *)
Inductive step : apic_timer * W -> apic_timer * W -> Prop :=
| step_call x y : call x y -> step x y
| step_interrupt run a w :
    (forall h c a w, rtc call (a, w) (run h c a w)) ->
    step (a, w) (apic_timer_handler run a w)
| step_other a w w' : registered w' = registered w -> step (a, w) (a, w').

Lemma stop_counting_registered w :
  registered (stop_counting w) = registered w /\
  cpu_interrupts_enabled (stop_counting w) = cpu_interrupts_enabled w.
Proof.
  unfold stop_counting. destruct (law_write APIC_REGISTER_TIMER_INITIAL_COUNT 0 w) as [E1 E2].
  match goal with |- context [apic_register_write ?r ?v (apic_register_write _ _ _)] =>
    destruct (law_write r v (apic_register_write APIC_REGISTER_TIMER_INITIAL_COUNT 0 w))
      as [E3 E4] end.
  by rewrite E3, E4.
Qed.

(** Follow the vector's registration through register accesses. *)
Ltac track :=
  repeat match goal with
  | |- context [registered (apic_register_write ?r ?v ?w)] =>
      rewrite (proj1 (law_write r v w))
  | |- context [registered (stop_counting ?w)] =>
      rewrite (proj1 (stop_counting_registered w))
  | E : apic_register_read ?r ?w = (_, ?w') |- context [registered ?w'] =>
      replace (registered w') with (registered w)
        by (rewrite <- (proj1 (law_read r w)); by rewrite E)
  | E : pm_timer_wait ?n ?w = (_, _, ?w') |- context [registered ?w'] =>
      replace (registered w') with (registered w)
        by (rewrite <- (proj1 (law_pm_wait n w)); by rewrite E)
  end.

Lemma inv_world a w w' : inv a w -> registered w' = registered w -> inv a w'.
Proof. intros [] E. split; try done. by rewrite E. Qed.

Lemma rate_positive start stop f t r :
  0 <= t -> rate_from_countdown start stop f t = (APIC_TIMER_STATUS_OK, r) -> 0 < r.
Proof.
  intros Ht. unfold rate_from_countdown. repeat (case_match; try done).
  intros [= <-]. bool_hyps. pose proof (u64_range (u64 (start - stop) * f)) as [? _].
  pose proof (Z.div_pos (u64 (u64 (start - stop) * f)) t). lia.
Qed.

Lemma calibrate_inv a w st a' w' :
  inv a w -> apic_timer_calibrate a w = (st, a', w') -> inv a' w'.
Proof.
  intros Hi. unfold apic_timer_calibrate.
  repeat (case_match; [by intros [= <- <- <-]|]).
  destruct (apic_register_read _ _) as [start w1] eqn:E1.
  destruct (pm_timer_wait _ w1) as [[ok t] w2] eqn:E2.
  pose proof (proj2 (law_pm_wait REFERENCE_PM_TICKS w1)) as Ht. rewrite E2 in Ht. cbn in Ht.
  destruct (apic_register_read _ w2) as [stop w3] eqn:E3.
  assert (registered (stop_counting w3) = registered w) as Er by (track; done).
  destruct ok; cbn [negb]; [|intros [= <- <- <-]; by eapply inv_world].
  destruct (rate_from_countdown _ _ _ _) as [status r] eqn:Ec.
  unfold is_ok. case_bool_decide; cbn [negb]; intros [= <- <- <-]; [|by eapply inv_world].
  subst status. apply rate_positive in Ec; [|apply Ht].
  destruct (inv_world _ _ _ Hi Er). by split.
Qed.

Lemma start_inv f a w st a' w' :
  inv a w -> apic_timer_start f a w = (st, a', w') -> inv a' w'.
Proof.
  intros Hi. unfold apic_timer_start.
  repeat (case_match; [by intros [= <- <- <-]|]). bool_hyps.
  destruct (count_for_frequency _ _) as [status c].
  destruct (is_ok status); cbn [negb]; [|by intros [= <- <- <-]].
  pose proof (law_register w) as Hr. pose proof (law_register_enabled APIC_TIMER_VECTOR w) as He.
  destruct (interrupt_register_handler _ w) as [ok w1]. cbn in He.
  destruct ok; cbn [negb]; [|intros [= <- <- <-]; by eapply inv_world].
  destruct Hr as [_ Hr]. destruct (apic_register_read _ _) as [rb w2] eqn:E2.
  assert (registered w2 = true) as Hr2 by (track; done).
  assert (cpu_interrupts_enabled w2 = false) as He2.
  { match type of E2 with apic_register_read ?r ?x = _ => 
      pose proof (proj2 (law_read r x)) as El end.
    rewrite E2 in El. cbn in El. rewrite El, !(proj2 (law_write _ _ _)). congruence. }
  destruct Hi as [Hv Hx Ha Hh Hrun Hp Hrate]. destruct (negb (Z.land _ _ =? _)).
  - pose proof (law_unregister (stop_counting w2)) as Hu.
    destruct (stop_counting_registered w2) as [S1 S2].
    destruct (interrupt_unregister_handler _ _) as [[] w3]; intros [= <- <- <-].
    + split; cbn; try done. destruct Hu as [_ ->].
      by destruct (running a), (oneshot_ready a), (armed a).
    + destruct Hu as [_ Hu]. specialize (Hu ltac:(congruence)). congruence.
  - intros [= <- <- <-]. split; cbn; try done.
    by track.
Qed.

Lemma stop_inv a w st a' w' :
  inv a w -> apic_timer_stop a w = (st, a', w') -> inv a' w'.
Proof.
  intros Hi. unfold apic_timer_stop.
  repeat (case_match; [by intros [= <- <- <-]|]). bool_hyps.
  destruct (stop_counting_registered w) as [S1 S2].
  pose proof (law_unregister (stop_counting w)) as Hu.
  destruct (interrupt_unregister_handler _ _) as [[] w1]; intros [= <- <- <-].
  - destruct Hi, Hu. split; cbn; try done. by destruct (running a), (oneshot_ready a).
  - destruct Hu as [Hu _]. eapply inv_world; [done|congruence].
Qed.

Lemma arm_inv ns a w st a' w' :
  inv a w -> apic_timer_arm_oneshot ns a w = (st, a', w') -> inv a' w'.
Proof.
  intros Hi. unfold apic_timer_arm_oneshot.
  repeat (case_match; [by intros [= <- <- <-]|]). bool_hyps.
  destruct (count_for_nanoseconds _ _) as [status c].
  destruct (is_ok status); cbn [negb]; [|by intros [= <- <- <-]].
  destruct (apic_register_read _ _) as [rb w1] eqn:E1.
  assert (registered w1 = registered w) as Er by (track; done).
  destruct (negb (Z.land _ _ =? _)); intros [= <- <- <-].
  - eapply inv_world; [done|]. track. done.
  - destruct (inv_world _ _ _ Hi Er). split; cbn; try done.
    by rewrite (proj1 (law_write _ _ _)).
Qed.

Lemma disarm_inv a w st a' w' :
  inv a w -> apic_timer_disarm a w = (st, a', w') -> inv a' w'.
Proof.
  intros Hi. unfold apic_timer_disarm.
  repeat (case_match; [by intros [= <- <- <-]|]). intros [= <- <- <-].
  destruct Hi. split; cbn; try done. by track.
Qed.

Lemma set_expiry_handler_inv h c a w st a' w' :
  inv a w ->
  apic_timer_set_expiry_handler h c a w = (st, a', w') -> inv a' w'.
Proof.
  intros Hi. unfold apic_timer_set_expiry_handler.
  repeat (case_match; [by intros [= <- <- <-]|]). 
  destruct Hi as [Hv Hx Ha Hh Hrun Hp Hrate].
  destruct (negb (h =? 0)) eqn:Eh.
  - destruct (oneshot_ready a) eqn:Eo; cbn [negb].
    + intros [= <- <- <-]. split; cbn; rewrite ?Eo; try done. 
    + pose proof (law_register w) as Hr. destruct (interrupt_register_handler _ w) as [[] w1];
        cbn [negb]; intros [= <- <- <-].
      * destruct Hr as [Hr1 Hr2]. rewrite Hr1 in Hv. rewrite orb_false_r in Hv.
        split; cbn; rewrite <- ?Hv; try done. 
      * split; rewrite ?Eo; try done. congruence.
  - destruct (oneshot_ready a) eqn:Eo.
    + destruct (stop_counting_registered w) as [S1 S2].
      pose proof (law_unregister (stop_counting w)) as Hu.
      destruct (interrupt_unregister_handler _ _) as [[] w1]; cbn [negb]; intros [= <- <- <-].
      * destruct Hu. split; cbn; try done; [|by rewrite andb_false_r|congruence].
        rewrite andb_true_r in Hx. by rewrite Hx.
      * destruct Hu as [Hu _]. split; rewrite ?Eo; try done. congruence.
    + intros [= <- <- <-]. split; cbn; rewrite ?Eo; try done.
Qed.

Lemma call_inv x y : call x y -> inv x.1 x.2 -> inv y.1 y.2.
Proof.
  destruct 1; cbn; eauto using calibrate_inv, start_inv, stop_inv, set_expiry_handler_inv,
    arm_inv, disarm_inv.
Qed.

Lemma handler_inv run a w :
  (forall h c a w, rtc call (a, w) (run h c a w)) -> inv a w ->
  inv (apic_timer_handler run a w).1 (apic_timer_handler run a w).2.
Proof.
  intros Hrun Hi. unfold apic_timer_handler. cbn.
  destruct (armed a) eqn:Ea; [|destruct Hi; by split].
  set (a1 := set_expiries _ _). assert (inv a1 w) as H1 by (destruct Hi; by split).
  destruct (negb _); [|done]. specialize (Hrun a.(expiry_handler) a.(expiry_context) a1 w).
  change (expiry_handler a1) with (expiry_handler a).
  change (expiry_context a1) with (expiry_context a).
  revert Hrun H1. generalize (run (expiry_handler a) (expiry_context a) a1 w).
  intros y Hy Hi1. change a1 with (a1, w).1 in Hi1. change w with (a1, w).2 in Hi1 at 2.
  revert Hi1. induction Hy; eauto using call_inv.
Qed.

Lemma step_inv x y : step x y -> inv x.1 x.2 -> inv y.1 y.2.
Proof.
  destruct 1 as [x y Hc|run a w Hrun|a w w' E]; cbn; intros Hi.
  - by eapply call_inv.
  - by apply handler_inv.
  - by eapply inv_world.
Qed.
End modes.

(** ** A machine *)

Record machine : Type := MkMachine {
  m_enabled : bool;
  m_registered : bool;
  m_lvt : Z;
  m_count : Z
}.

(** A local APIC whose count runs down 6 250 000 counts in a reference wait. *)
#[global] Instance machine_apic : ApicTimerPlatform machine := {
  apic_is_online _ := true;
  cpu_interrupts_enabled := m_enabled;
  cpu_interrupt_disable m := MkMachine false m.(m_registered) m.(m_lvt) m.(m_count);
  apic_register_read r m :=
    (u32 (if r =? APIC_REGISTER_LVT_TIMER then m.(m_lvt)
          else if r =? APIC_REGISTER_TIMER_CURRENT_COUNT then m.(m_count) else 0), m);
  apic_register_write r v m :=
    if r =? APIC_REGISTER_LVT_TIMER then
      MkMachine m.(m_enabled) m.(m_registered) v m.(m_count)
    else if r =? APIC_REGISTER_TIMER_INITIAL_COUNT then
      MkMachine m.(m_enabled) m.(m_registered) m.(m_lvt) v
    else m;
  pm_timer_is_present _ := true;
  pm_timer_wait n m :=
    (true, u64 n, MkMachine m.(m_enabled) m.(m_registered) m.(m_lvt) (m.(m_count) - 6250000));
  interrupt_register_handler v m :=
    if m.(m_enabled) || m.(m_registered) then (false, m)
    else (true, MkMachine m.(m_enabled) true m.(m_lvt) m.(m_count));
  interrupt_unregister_handler v m :=
    if m.(m_enabled) || negb m.(m_registered) then (false, m)
    else (true, MkMachine m.(m_enabled) false m.(m_lvt) m.(m_count))
}.

#[global] Instance machine_apic_laws : ApicTimerLaws machine.
Proof.
  refine {| registered := m_registered |}; cbn.
  - intros [[] [] ? ?]; by cbn.
  - intros [[] [] ? ?]; by cbn.
  - intros v [[] [] ? ?]; by cbn.
  - intros r m. apply u32_range.
  - done.
  - intros r v m. by repeat case_match.
  - intros n m. split; [done|]. apply u64_range.
Defined.

Definition machine_reset : machine := MkMachine false false 0 0.

(** Calibrated, with a handler installed and a deadline a millisecond away. *)
Definition machine_armed : apic_timer * machine :=
  let '(_, a, m) := apic_timer_calibrate apic_timer_bss machine_reset in
  let '(_, a, m) := apic_timer_set_expiry_handler 1 0 a m in
  let '(_, a, m) := apic_timer_arm_oneshot 1000000 a m in (a, m).

Lemma machine_armed_reached : rtc step (apic_timer_bss, machine_reset) machine_armed.
Proof.
  eapply rtc_l; [apply step_call; by eapply call_calibrate|].
  eapply rtc_l; [apply step_call; by eapply (call_set_handler 1 0)|].
  eapply rtc_l; [apply step_call; by eapply (call_arm 1000000)|].
  apply rtc_refl.
Qed.

(** From load time, whatever calls and timer interrupts
    happen, with expiry handlers that themselves only make calls, the periodic
    and the one-shot mode are never both on, the timer's vector is registered
    exactly while one of them is, a deadline is armed only when a handler is
    installed to receive it and the rate is known, and a calibrated rate is
    positive. *)
Theorem apic_timer_reachable_inv {W} `{ApicTimerLaws W} (w0 : W) a w :
  registered w0 = false -> rtc step (apic_timer_bss, w0) (a, w) -> inv a w.
Proof.
  intros H0' Hr.
  assert (inv (apic_timer_bss, w0).1 (apic_timer_bss, w0).2) as Hi by (by split).
  change a with (a, w).1. change w with (a, w).2 at 2.
  revert Hi. induction Hr; eauto using step_inv.
Qed.

Lemma apic_timer_reachable_inv_witness :
  inv machine_armed.1 machine_armed.2 /\ machine_armed.1.(armed) = true /\
  registered machine_armed.2 = true.
Proof.
  split_and!; [|reflexivity..].
  refine (apic_timer_reachable_inv machine_reset machine_armed.1 machine_armed.2 _ _);
    [reflexivity|]. exact machine_armed_reached.
Defined.

(** ** Calibration *)

Lemma rate_from_countdown_ok start stop t r :
  is_u32 start -> is_u32 stop -> is_u64 t ->
  rate_from_countdown start stop PM_TIMER_FREQUENCY_HZ t = (APIC_TIMER_STATUS_OK, r) ->
  0 < stop < start /\ 0 < t /\ r = (start - stop) * PM_TIMER_FREQUENCY_HZ / t /\ 0 < r.
Proof.
  intros Hs He Ht E. pose proof (rate_positive _ _ _ _ _ (proj1 Ht) E) as Hp. revert E.
  unfold rate_from_countdown, is_u32, UINT32_MAX, is_u64 in *.
  repeat (case_match; [done|]). bool_hyps. intros [= <-].
  rewrite (u64_small (start - stop)) in * by (unfold is_u64, UINT64_MAX; lia).
  rewrite u64_small in * by (unfold is_u64, UINT64_MAX, PM_TIMER_FREQUENCY_HZ; lia).
  split_and!; done || lia.
Qed.

(** Calibration either stores the count the APIC timer ran
    down during the reference wait, scaled by the reference rate over the ticks
    the reference really took, computed without overflow, and marks the timer
    calibrated, or leaves every variable as it was. *)
Theorem calibrate_exact {W} `{ApicTimerLaws W} a (w : W) st a' w' :
  apic_timer_calibrate a w = (st, a', w') ->
  (st <> APIC_TIMER_STATUS_OK /\ a' = a) \/
  (st = APIC_TIMER_STATUS_OK /\ a.(calibrated) = false /\
   exists start stop ticks,
     is_u32 start /\ 0 < stop < start /\ 0 < ticks /\
     a' = set_rate a ((start - stop) * PM_TIMER_FREQUENCY_HZ / ticks) /\
     0 < (start - stop) * PM_TIMER_FREQUENCY_HZ / ticks).
Proof.
  unfold apic_timer_calibrate.
  repeat (case_match; [intros [= <- <- <-]; by left|]).
  destruct (apic_register_read _ _) as [start w1] eqn:E1.
  destruct (pm_timer_wait _ w1) as [[ok t] w2] eqn:E2.
  destruct (apic_register_read _ w2) as [stop w3] eqn:E3.
  destruct ok; cbn [negb]; [|intros [= <- <- <-]; by left].
  pose proof (proj2 (law_pm_wait REFERENCE_PM_TICKS w1)) as Ht. rewrite E2 in Ht. cbn in Ht.
  match type of E1 with apic_register_read ?r ?x = _ => pose proof (law_read_range r x) as Hs end.
  rewrite E1 in Hs. cbn in Hs.
  pose proof (law_read_range APIC_REGISTER_TIMER_CURRENT_COUNT w2) as He. rewrite E3 in He. cbn in He.
  destruct (rate_from_countdown _ _ _ _) as [status r] eqn:Ec.
  unfold is_ok. case_bool_decide as Es; cbn [negb]; intros [= <- <- <-]; [right|by left].
  subst status. apply rate_from_countdown_ok in Ec as (? & ? & -> & ?); try done.
  split; [done|]. split; [done|]. by exists start, stop, t.
Qed.

Lemma calibrate_exact_witness :
  exists start stop ticks,
    (apic_timer_calibrate apic_timer_bss machine_reset).1.2 =
      set_rate apic_timer_bss ((start - stop) * PM_TIMER_FREQUENCY_HZ / ticks) /\
    counts_per_second (apic_timer_calibrate apic_timer_bss machine_reset).1.2 = 62500087.
Proof.
  destruct (calibrate_exact apic_timer_bss machine_reset APIC_TIMER_STATUS_OK
    (apic_timer_calibrate apic_timer_bss machine_reset).1.2
    (apic_timer_calibrate apic_timer_bss machine_reset).2)
    as [[E _]|(_ & _ & start & stop & t & _ & _ & _ & E & _)].
  - reflexivity.
  - destruct (E eq_refl).
  - exists start, stop, t. split; [exact E|reflexivity].
Defined.

(** ** Waiting for ticks *)

Lemma wait_loop_spec {W} (halt : apic_timer -> W -> apic_timer * W) target :
  target <= UINT64_MAX ->
  (forall a w, 0 <= a.(tick_counter) < UINT64_MAX ->
     a.(tick_counter) < (halt a w).1.(tick_counter)) ->
  forall fuel a w, 0 <= a.(tick_counter) -> Z.max 0 (target - a.(tick_counter)) < Z.of_nat fuel ->
  exists a' w', wait_loop halt fuel target a w = Some (a', w') /\ target <= a'.(tick_counter).
Proof.
  intros Ht Hp. induction fuel as [|fuel IH]; intros a w H0 Hf; cbn.
  - lia.
  - destruct (tick_counter a <? target) eqn:E; bool_hyps; [|by exists a, w].
    specialize (Hp a w ltac:(lia)). destruct (halt a w) as [a1 w1]. cbn in Hp.
    apply IH; lia.
Qed.

(** A wait for ticks returns.  When every halt takes at least
    one timer interrupt, at most one halt per tick asked for is needed, and the
    counter has then reached the target: the count asked for past its value at
    the call, or the largest counter value where that would overflow. *)
Theorem wait_for_ticks_returns {W} `{ApicTimerPlatform W}
    (halt : apic_timer -> W -> apic_timer * W) n a (w : W) :
  a.(running) = true -> cpu_interrupts_enabled w = false ->
  is_u64 n -> is_u64 a.(tick_counter) ->
  (forall a w, 0 <= a.(tick_counter) < UINT64_MAX ->
     a.(tick_counter) < (halt a w).1.(tick_counter)) ->
  exists a' w',
    apic_timer_wait_for_ticks halt (S (Z.to_nat n)) n a w =
      Some (APIC_TIMER_STATUS_OK, a', w') /\
    Z.min UINT64_MAX (a.(tick_counter) + n) <= a'.(tick_counter).
Proof.
  intros Hr He Hn Ht Hp. unfold apic_timer_wait_for_ticks, is_u64 in *. rewrite Hr, He. cbn [negb].
  destruct (n =? 0) eqn:E0; bool_hyps.
  { exists a, w. split; [done|]. lia. }
  rewrite (u64_small (UINT64_MAX - _)) by (unfold is_u64; lia).
  match goal with |- context [wait_loop _ _ ?t _ _] => set (target := t) end.
  assert (target = Z.min UINT64_MAX (tick_counter a + n)) as Et.
  { subst target. destruct (_ >? _) eqn:Eg; bool_hyps; [lia|].
    rewrite u64_small by (unfold is_u64; lia). lia. }
  destruct (wait_loop_spec halt target ltac:(lia) Hp (S (Z.to_nat n)) a w ltac:(lia) ltac:(lia))
    as (a' & w' & -> & Hle).
  exists a', (cpu_interrupt_disable w'). split; [done|]. lia.
Qed.

(** A timer running at 100 Hz, and a halt that takes one of its interrupts. *)
Definition machine_running : apic_timer * machine :=
  let '(_, a, m) := apic_timer_calibrate apic_timer_bss machine_reset in
  let '(_, a, m) := apic_timer_start 100 a m in (a, m).
Definition tick_once (a : apic_timer) (m : machine) : apic_timer * machine :=
  apic_timer_handler (fun _ _ a m => (a, m)) a m.

Lemma wait_for_ticks_returns_witness :
  exists a' w',
    apic_timer_wait_for_ticks tick_once 4 3 machine_running.1 machine_running.2 =
      Some (APIC_TIMER_STATUS_OK, a', w') /\ 3 <= a'.(tick_counter).
Proof.
  destruct (wait_for_ticks_returns tick_once 3 machine_running.1 machine_running.2)
    as (a' & w' & E & Hle).
  - reflexivity.
  - reflexivity.
  - split; [lia|unfold UINT64_MAX; lia].
  - vm_compute. split; discriminate.
  - intros a w Hlt. unfold tick_once, apic_timer_handler.
    cbn. destruct (armed a); cbn; try (destruct (negb _); cbn);
      rewrite u64_small by (unfold is_u64, UINT64_MAX in *; lia); lia.
  - exists a', w'. split; [exact E|exact Hle].
Defined.

(** The kernel's own self-test of this timer passes at load
    time with interrupts disabled. *)
Theorem apic_timer_self_test_passes {W} `{ApicTimerPlatform W} halt (w : W) :
  cpu_interrupts_enabled w = false ->
  apic_timer_self_test halt apic_timer_bss w = true.
Proof.
  intros He. unfold apic_timer_self_test, apic_timer_disarm. rewrite He.
  vm_compute. reflexivity.
Qed.

Lemma apic_timer_self_test_passes_witness :
  apic_timer_self_test tick_once apic_timer_bss machine_reset = true.
Proof. apply apic_timer_self_test_passes. reflexivity. Defined.

(** The calibration arithmetic can accept a rate above the count
    register, and the interval conversion then overflows in its product: from
    a countdown of all but one count in the reference tenth of a second, an
    interval of 0.45 s is accepted with a count that is not the interval's. *)
Theorem calibrated_rate_unbounded :
  let '(status, rate) :=
    rate_from_countdown 0xFFFFFFFF 1 PM_TIMER_FREQUENCY_HZ REFERENCE_PM_TICKS in
  status = APIC_TIMER_STATUS_OK /\ APIC_TIMER_MAX_COUNT < rate /\
  exists ns, is_u64 ns /\
    let '(st, count) := count_for_nanoseconds rate ns in
    st = APIC_TIMER_STATUS_OK /\ count <> ns * rate / NANOSECONDS_PER_SECOND.
Proof.
  assert (rate_from_countdown 0xFFFFFFFF 1 PM_TIMER_FREQUENCY_HZ REFERENCE_PM_TICKS =
    (APIC_TIMER_STATUS_OK, 42949732933)) as -> by (vm_compute; reflexivity).
  split_and!; [done..|]. exists 450000000.
  split; [unfold is_u64, UINT64_MAX; lia|].
  assert (count_for_nanoseconds 42949732933 450000000 = (APIC_TIMER_STATUS_OK, 880635746))
    as -> by (vm_compute; reflexivity).
  split; [done|]. vm_compute. discriminate.
Qed.

End ApicTimer.
