(* ===== verification/Timer.v ===== *)
(** Deadline timers: src/src/kernel/timer.c.

    The pending table is the list [slots], [capacity] entries long, behind the
    pointer [entries] (0 is NULL).  The local APIC timer, the clock, the
    processor and the heap are the class [TimerPlatform] over a world [W];
    what the timers rely on is [TimerLaws].  A callback is a number (0 is
    NULL) whose code is the parameter [run_callback]: it may arm and cancel
    timers, as timer.h allows.  The loop of expire_reached has fuel, shown to
    be enough. *)
From Stdlib Require Import Sorting.Sorted.
From S2P Require Import Prelude.
From S2P Require Import ApicTimer.

Module Timer.

Definition TIMER_MINIMUM_INTERVAL_NS : Z := 100000.
Definition TIMER_SLEEP_GRACE_NS : Z := 50000000.
Definition TIMER_MAX_PENDING : Z := 32.
Definition TIMER_SELF_TEST_CAPACITY : Z := 8.

(** [sizeof(struct timer_entry)] on this target. *)
Definition sizeof_timer_entry : Z := 40.

Inductive timer_status : Type :=
| TIMER_STATUS_OK
| TIMER_STATUS_NULL_ARGUMENT
| TIMER_STATUS_NOT_STARTED
| TIMER_STATUS_ALREADY_STARTED
| TIMER_STATUS_NO_CLOCK
| TIMER_STATUS_NO_CAPACITY
| TIMER_STATUS_NO_MEMORY
| TIMER_STATUS_BAD_INTERVAL
| TIMER_STATUS_UNKNOWN_TIMER
| TIMER_STATUS_HARDWARE_FAILURE
| TIMER_STATUS_EXPIRED_LATE.

#[export] Instance timer_status_eq_dec : EqDecision timer_status.
Proof. solve_decision. Defined.

Record timer_entry : Type := MkEntry {
  deadline_ns : Z;
  identifier : Z;
  callback : Z;
  context : Z;
  in_use : bool
}.

(** The file-scope objects. *)
Record timers : Type := MkTimers {
  entries : Z;
  slots : list timer_entry;
  capacity : Z;
  next_identifier : Z;
  expiry_counter : Z;
  started : bool;
  sleep_expired : bool
}.

Definition empty_entry : timer_entry := MkEntry 0 0 0 0 false.

Definition set_slots (s : timers) (l : list timer_entry) : timers :=
  MkTimers s.(entries) l s.(capacity) s.(next_identifier) s.(expiry_counter)
    s.(started) s.(sleep_expired).
Definition set_table (s : timers) (p : Z) (l : list timer_entry) (n : Z) : timers :=
  MkTimers p l n s.(next_identifier) s.(expiry_counter) s.(started) s.(sleep_expired).
Definition set_next (s : timers) (n : Z) : timers :=
  MkTimers s.(entries) s.(slots) s.(capacity) n s.(expiry_counter) s.(started)
    s.(sleep_expired).
Definition set_expired (s : timers) (n : Z) : timers :=
  MkTimers s.(entries) s.(slots) s.(capacity) s.(next_identifier) n s.(started)
    s.(sleep_expired).
Definition set_started (s : timers) (b : bool) : timers :=
  MkTimers s.(entries) s.(slots) s.(capacity) s.(next_identifier) s.(expiry_counter) b
    s.(sleep_expired).
Definition set_sleep (s : timers) (b : bool) : timers :=
  MkTimers s.(entries) s.(slots) s.(capacity) s.(next_identifier) s.(expiry_counter)
    s.(started) b.

Definition slot (s : timers) (i : Z) : timer_entry := aget empty_entry s.(slots) i.

(** Clearing one entry, as every path that releases one does. *)
Definition clear_slot (s : timers) (i : Z) : timers :=
  set_slots s (aset s.(slots) i empty_entry).

(** The calls of timer.c into apic_timer.c, clock.c, cpu.c and heap.c.  A
    boolean answer says whether the status was OK. *)
Class TimerPlatform (W : Type) := {
  apic_timer_is_armed : W -> bool;
  apic_timer_disarm : W -> bool * W;
  apic_timer_arm_oneshot : Z -> W -> bool * W;
  apic_timer_set_expiry_handler : bool -> W -> bool * W;
  clock_monotonic_ns : W -> Z * W;
  clock_is_started : W -> bool;
  cpu_interrupts_enabled : W -> bool;
  cpu_interrupt_disable : W -> W;
  heap_allocate : Z -> W -> option Z * W;
  heap_free : Z -> W -> bool * W
}.

(** * Table operations *)

(** The first index below the capacity at which [p] holds, or the capacity. *)
Definition scan (p : timer_entry -> bool) (s : timers) : Z :=
  match
    for_each (fun index (_ : unit) =>
        if p (slot s index) then Return index else Next tt)
      (seqZ 0 s.(capacity)) tt
  with
  | Return index => index
  | Next _ => s.(capacity)
  end.

Definition slot_of (ident : Z) (s : timers) : Z :=
  if ident =? 0 then s.(capacity)
  else scan (fun e => e.(in_use) && (e.(identifier) =? ident)) s.

Definition free_slot (s : timers) : Z := scan (fun e => negb e.(in_use)) s.

Definition earliest_deadline (s : timers) : option Z :=
  foldl (fun found index =>
      let e := slot s index in
      if negb e.(in_use) then found
      else
        match found with
        | None => Some e.(deadline_ns)
        | Some d => if e.(deadline_ns) <? d then Some e.(deadline_ns) else found
        end)
    None (seqZ 0 s.(capacity)).

Definition pending_slots (s : timers) : Z :=
  foldl (fun count index => if (slot s index).(in_use) then u64 (count + 1) else count)
    0 (seqZ 0 s.(capacity)).

(** The inner scan of expire_reached: the slot of the earliest reached
    deadline, or the capacity. *)
Definition choose_step (s : timers) (now_ns chosen index : Z) : Z :=
  if negb (slot s index).(in_use) || ((slot s index).(deadline_ns) >? now_ns) then chosen
  else if (chosen =? s.(capacity)) ||
          ((slot s index).(deadline_ns) <? (slot s chosen).(deadline_ns)) then index
  else chosen.

Definition choose_due (s : timers) (now_ns : Z) : Z :=
  foldl (choose_step s now_ns) s.(capacity) (seqZ 0 s.(capacity)).

Section platform.
Context {W : Type} `{TimerPlatform W}.

(** The code behind a callback: deadline, context, state and world. *)
Variable run_callback : Z -> Z -> Z -> timers -> W -> timers * W.

(** The entries fired, in order; [None] when the fuel runs out.  The C function
    returns the length of the list. *)
Fixpoint expire_reached (fuel : nat) (now_ns : Z) (s : timers) (w : W)
  : option (list timer_entry * timers * W) :=
  match fuel with
  | O => None
  | S fuel =>
      let chosen := choose_due s now_ns in
      if chosen =? s.(capacity) then Some ([], s, w)
      else
        let due := slot s chosen in
        let s := clear_slot s chosen in
        let '(s, w) :=
          if negb (due.(callback) =? 0) then
            run_callback due.(callback) due.(deadline_ns) due.(context) s w
          else (s, w) in
        match expire_reached fuel now_ns s w with
        | Some (fired, s, w) => Some (due :: fired, s, w)
        | None => None
        end
  end.

Definition expire_fuel (s : timers) : nat := S (Z.to_nat s.(capacity)).

Definition reprogram (s : timers) (w : W) : timer_status * W :=
  let '(ok, w) :=
    if apic_timer_is_armed w then apic_timer_disarm w else (true, w) in
  if negb ok then (TIMER_STATUS_HARDWARE_FAILURE, w)
  else
    match earliest_deadline s with
    | None => (TIMER_STATUS_OK, w)
    | Some d =>
        let '(now_ns, w) := clock_monotonic_ns w in
        let interval_ns := if d >? now_ns then u64 (d - now_ns) else 0 in
        let interval_ns :=
          if interval_ns <? TIMER_MINIMUM_INTERVAL_NS then TIMER_MINIMUM_INTERVAL_NS
          else interval_ns in
        let '(ok, w) := apic_timer_arm_oneshot interval_ns w in
        if negb ok then (TIMER_STATUS_HARDWARE_FAILURE, w) else (TIMER_STATUS_OK, w)
    end.

Definition on_expiry (s : timers) (w : W) : option (timers * W) :=
  let '(now_ns, w) := clock_monotonic_ns w in
  match expire_reached (expire_fuel s) now_ns s w with
  | None => None
  | Some (fired, s, w) =>
      let s := set_expired s (u64 (s.(expiry_counter) + zlength fired)) in
      Some (s, (reprogram s w).2)
  end.

Definition clear_all (s : timers) : timers :=
  foldl clear_slot s (seqZ 0 s.(capacity)).

(** [fresh_memory] is what the heap block holds before it is written. *)
Definition timer_start (fresh_memory : list timer_entry) (s : timers) (w : W)
  : timer_status * timers * W :=
  if s.(started) then (TIMER_STATUS_ALREADY_STARTED, s, w)
  else if negb (s.(entries) =? 0) || negb (s.(capacity) =? 0) then
    (TIMER_STATUS_ALREADY_STARTED, s, w)
  else if cpu_interrupts_enabled w then (TIMER_STATUS_HARDWARE_FAILURE, s, w)
  else if negb (clock_is_started w) then (TIMER_STATUS_NO_CLOCK, s, w)
  else
    match heap_allocate (sizeof_timer_entry * TIMER_MAX_PENDING) w with
    | (None, w) => (TIMER_STATUS_NO_MEMORY, s, w)
    | (Some p, w) =>
        let s := clear_all (set_table s p fresh_memory TIMER_MAX_PENDING) in
        let '(ok, w) := apic_timer_set_expiry_handler true w in
        if negb ok then
          let '(_, w) := heap_free s.(entries) w in
          (TIMER_STATUS_HARDWARE_FAILURE, set_table s 0 [] 0, w)
        else (TIMER_STATUS_OK, set_started s true, w)
    end.

Definition timer_stop (s : timers) (w : W) : timer_status * timers * W :=
  if negb s.(started) then (TIMER_STATUS_NOT_STARTED, s, w)
  else if cpu_interrupts_enabled w then (TIMER_STATUS_HARDWARE_FAILURE, s, w)
  else
    let '(ok, w) :=
      if apic_timer_is_armed w then apic_timer_disarm w else (true, w) in
    if negb ok then (TIMER_STATUS_HARDWARE_FAILURE, s, w)
    else
      let s := clear_all s in
      let '(ok, w) := apic_timer_set_expiry_handler false w in
      if negb ok then (TIMER_STATUS_HARDWARE_FAILURE, s, w)
      else
        let '(ok, w) := heap_free s.(entries) w in
        if negb ok then (TIMER_STATUS_NO_MEMORY, s, w)
        else (TIMER_STATUS_OK, set_started (set_table s 0 [] 0) false, w).

Definition timer_is_started (s : timers) : bool := s.(started).

(** [destination] is [false] for a NULL identifier pointer; the second
    component is what was stored through it. *)
Definition timer_arm (deadline cb ctx : Z) (destination : bool) (s : timers) (w : W)
  : timer_status * option Z * timers * W :=
  if (cb =? 0) || negb destination then (TIMER_STATUS_NULL_ARGUMENT, None, s, w)
  else if negb s.(started) then (TIMER_STATUS_NOT_STARTED, Some 0, s, w)
  else
    let '(now_ns, w) := clock_monotonic_ns w in
    if (deadline <? now_ns) || (u64 (deadline - now_ns) <? TIMER_MINIMUM_INTERVAL_NS) then
      (TIMER_STATUS_BAD_INTERVAL, Some 0, s, w)
    else
      let i := free_slot s in
      if i =? s.(capacity) then (TIMER_STATUS_NO_CAPACITY, Some 0, s, w)
      else
        let ident := s.(next_identifier) in
        let s := set_slots s (aset s.(slots) i (MkEntry deadline ident cb ctx true)) in
        let s := set_next s (u64 (ident + 1)) in
        let '(status, w) := reprogram s w in
        if negb (bool_decide (status = TIMER_STATUS_OK)) then
          (TIMER_STATUS_HARDWARE_FAILURE, Some 0, clear_slot s i, w)
        else (TIMER_STATUS_OK, Some (slot s i).(identifier), s, w).

Definition timer_cancel (ident : Z) (s : timers) (w : W) : timer_status * timers * W :=
  let i := slot_of ident s in
  if negb s.(started) then (TIMER_STATUS_NOT_STARTED, s, w)
  else if i =? s.(capacity) then (TIMER_STATUS_UNKNOWN_TIMER, s, w)
  else
    let s := clear_slot s i in
    let '(status, w) := reprogram s w in (status, s, w).

(** The number that stands for sleep_callback, and the wait loop of
    timer_sleep_ns: [halt] is cpu_enable_and_halt with whatever interrupts it
    takes, and the fuel bounds how often the loop is watched ([None]: still
    waiting). *)
Variable SLEEP_CALLBACK : Z.
Variable halt : timers -> W -> timers * W.

Fixpoint sleep_loop (fuel : nat) (ident abandon_ns : Z) (s : timers) (w : W)
  : option (timer_status * timers * W) :=
  match fuel with
  | O => None
  | S fuel =>
      if s.(sleep_expired) then
        Some (TIMER_STATUS_OK, s, cpu_interrupt_disable w)
      else
        let '(now_ns, w) := clock_monotonic_ns w in
        if now_ns >? abandon_ns then
          let '(_, s, w) := timer_cancel ident s w in
          Some (TIMER_STATUS_EXPIRED_LATE, s, w)
        else if negb (apic_timer_is_armed w) then
          let '(_, s, w) := timer_cancel ident s w in
          Some (TIMER_STATUS_HARDWARE_FAILURE, s, w)
        else
          let '(s, w) := halt s w in sleep_loop fuel ident abandon_ns s w
  end.

Definition timer_sleep_ns (fuel : nat) (nanoseconds : Z) (s : timers) (w : W)
  : option (timer_status * timers * W) :=
  if negb s.(started) then Some (TIMER_STATUS_NOT_STARTED, s, w)
  else if nanoseconds <? TIMER_MINIMUM_INTERVAL_NS then
    Some (TIMER_STATUS_BAD_INTERVAL, s, w)
  else
    let '(now_ns, w) := clock_monotonic_ns w in
    let deadline := u64 (now_ns + nanoseconds) in
    let abandon_ns := u64 (u64 (deadline + nanoseconds) + TIMER_SLEEP_GRACE_NS) in
    let s := set_sleep s false in
    let '(status, ident, s, w) := timer_arm deadline SLEEP_CALLBACK 0 true s w in
    if negb (bool_decide (status = TIMER_STATUS_OK)) then Some (status, s, w)
    else sleep_loop fuel (default 0 ident) abandon_ns s w.

Definition timer_capacity (s : timers) : Z := s.(capacity).
Definition timer_pending_count (s : timers) : Z := pending_slots s.
Definition timer_expiry_count (s : timers) : Z := s.(expiry_counter).
End platform.

(** * The self-test

    [SELF_TEST_CALLBACK] stands for self_test_callback, whose effect is on the
    mask of indices fired; its context is the index the C code points at. *)

Definition SELF_TEST_CALLBACK : Z := 1.
Definition self_test_callback (cb deadline ctx : Z) (s : timers) (mask : Z)
  : timers * Z :=
  if cb =? SELF_TEST_CALLBACK then (s, Z.lor mask (u64 (Z.shiftl 1 ctx))) else (s, mask).

(** How many entries an instant fires, the mask and the table it leaves. *)
Definition test_expire (now_ns : Z) (s : timers) (mask : Z) : Z * timers * Z :=
  match expire_reached self_test_callback (expire_fuel s) now_ns s mask with
  | Some (fired, s, mask) => (zlength fired, s, mask)
  | None => (-1, s, mask)
  end.

Definition put (s : timers) (i : Z) (e : timer_entry) : timers :=
  set_slots s (aset s.(slots) i e).
Definition set_in_use (s : timers) (i : Z) (b : bool) : timers :=
  put s i (MkEntry (slot s i).(deadline_ns) (slot s i).(identifier)
             (slot s i).(callback) (slot s i).(context) b).
Definition is_earliest (s : timers) (d : Z) : bool :=
  bool_decide (earliest_deadline s = Some d).
Definition none_pending (s : timers) : bool := bool_decide (earliest_deadline s = None).

Definition test_refusals_before_start {W} `{TimerPlatform W}
    (halt : timers -> W -> timers * W) (s : timers) (w : W) : bool :=
  let '(st_arm, ident, s1, w1) := timer_arm 1000000 SELF_TEST_CALLBACK 0 true s w in
  let '(st_cancel, s2, w2) := timer_cancel 1 s1 w1 in
  let st_sleep := timer_sleep_ns 2 halt 1 1000000 s2 w2 in
  let '(st_stop, s3, w3) := timer_stop s2 w2 in
  if timer_is_started s || negb (timer_pending_count s =? 0) ||
     negb (bool_decide (st_arm = TIMER_STATUS_NOT_STARTED)) ||
     negb (bool_decide (ident = Some 0)) ||
     negb (bool_decide (st_cancel = TIMER_STATUS_NOT_STARTED)) ||
     negb (bool_decide ((fun r => r.1.1) <$> st_sleep = Some TIMER_STATUS_NOT_STARTED)) ||
     negb (bool_decide (st_stop = TIMER_STATUS_NOT_STARTED)) then false
  else
    bool_decide ((timer_arm 1000000 0 0 true s3 w3).1.1.1 = TIMER_STATUS_NULL_ARGUMENT) &&
    bool_decide ((timer_arm 1000000 SELF_TEST_CALLBACK 0 false s3 w3).1.1.1 =
                 TIMER_STATUS_NULL_ARGUMENT) &&
    (timer_capacity s3 =? 0).

Definition test_table_operations (s : timers) : bool :=
  let N := TIMER_SELF_TEST_CAPACITY in
  if negb (none_pending s) || negb (slot_of 0 s =? N) || negb (slot_of 1 s =? N) ||
     negb (free_slot s =? 0) || negb (pending_slots s =? 0) then false else
  let s := put s 0 (MkEntry 300 11 SELF_TEST_CALLBACK 0 true) in
  let s := put s 1 (MkEntry 100 12 SELF_TEST_CALLBACK 1 true) in
  let s := put s 2 (MkEntry 200 13 SELF_TEST_CALLBACK 2 true) in
  if negb (is_earliest s 100) || negb (pending_slots s =? 3) || negb (free_slot s =? 3) ||
     negb (slot_of 12 s =? 1) || negb (slot_of 13 s =? 2) || negb (slot_of 99 s =? N)
  then false else
  let '(n, s, mask) := test_expire 99 s 0 in
  if negb (n =? 0) || negb (mask =? 0) || negb (pending_slots s =? 3) then false else
  let '(n, s, mask) := test_expire 100 s mask in
  if negb (n =? 1) || negb (mask =? 2) || negb (pending_slots s =? 2) ||
     negb (slot_of 12 s =? N) then false else
  let '(n, s, mask) := test_expire 1000 s mask in
  if negb (n =? 2) || negb (mask =? 7) || negb (pending_slots s =? 0) ||
     negb (none_pending s) then false else
  let s :=
    foldl (fun s index => put s index (MkEntry (1000 + index) (100 + index) 0 0 true))
      s (seqZ 0 N) in
  if negb (free_slot s =? N) || negb (pending_slots s =? N) ||
     negb (is_earliest s 1000) then false else
  let '(n, s, mask) := test_expire UINT64_MAX s mask in
  if negb (n =? N) || negb (pending_slots s =? 0) || negb (free_slot s =? 0)
  then false else
  let s := put s 0 (MkEntry 500 21 (slot s 0).(callback) (slot s 0).(context) true) in
  let s := put s 1 (MkEntry 500 22 (slot s 1).(callback) (slot s 1).(context) true) in
  if negb (is_earliest s 500) then false else
  let s := set_in_use (set_in_use s 0 false) 1 false in
  pending_slots s =? 0.

(** [self_test_table] is the address of the static table the test lends, and
    takes back cleared. *)
Definition timer_self_test {W} `{TimerPlatform W} (halt : timers -> W -> timers * W)
    (self_test_table : Z) (s : timers) (w : W) : bool * timers :=
  if s.(started) || negb (s.(entries) =? 0) || negb (s.(capacity) =? 0) then (false, s)
  else if negb (test_refusals_before_start halt s w) then (false, s)
  else
    let lent := set_table s self_test_table
      (replicate (Z.to_nat TIMER_SELF_TEST_CAPACITY) empty_entry)
      TIMER_SELF_TEST_CAPACITY in
    (test_table_operations lent, set_table s 0 [] 0).

(** The timers at load time. *)
Definition timers_bss : timers := MkTimers 0 [] 0 1 0 false false.

(** * Table lemmas *)

Definition wf (s : timers) : Prop := zlength s.(slots) = s.(capacity).

(** An entry this instant has reached. *)
Definition due (now_ns : Z) (e : timer_entry) : bool :=
  e.(in_use) && (e.(deadline_ns) <=? now_ns).

Lemma wf_capacity s : wf s -> 0 <= s.(capacity).
Proof. intros <-. apply zlength_nonneg. Qed.

Lemma slot_put s i e j :
  wf s -> 0 <= i < s.(capacity) -> 0 <= j ->
  slot (set_slots s (aset s.(slots) i e)) j = if i =? j then e else slot s j.
Proof. intros Hwf Hi Hj. unfold slot. cbn. apply aget_aset; [|done]. rewrite Hwf. lia. Qed.

Lemma scan_spec p s :
  wf s ->
  let i := scan p s in
  (i = s.(capacity) /\ forall j, 0 <= j < s.(capacity) -> p (slot s j) = false) \/
  (0 <= i < s.(capacity) /\ p (slot s i) = true /\
   forall j, 0 <= j < i -> p (slot s j) = false).
Proof.
  intros Hwf i. subst i. unfold scan. rewrite (for_each_scan (fun i => p (slot s i))).
  destruct (List.find _ _) as [k|] eqn:E.
  - right. apply find_seqZ_Some in E as (? & ? & ?). split_and!; done || lia.
  - left. split; [done|]. intros j Hj. rewrite find_seqZ_None in E. apply E. lia.
Qed.

(** The prefix of the scan of expire_reached. *)
Definition chosen_upto (s : timers) (now_ns k c : Z) : Prop :=
  (c = s.(capacity) /\ forall j, 0 <= j < k -> due now_ns (slot s j) = false) \/
  (0 <= c < k /\ due now_ns (slot s c) = true /\
   forall j, 0 <= j < k -> due now_ns (slot s j) = true ->
     (slot s c).(deadline_ns) <= (slot s j).(deadline_ns) /\
     (j < c -> (slot s c).(deadline_ns) < (slot s j).(deadline_ns))).

Lemma choose_step_spec s now k c :
  0 <= k < s.(capacity) -> chosen_upto s now k c ->
  chosen_upto s now (k + 1) (choose_step s now c k).
Proof.
  intros Hk Hc. unfold choose_step.
  destruct (due now (slot s k)) eqn:Ed; unfold due in Ed.
  - apply andb_prop in Ed as [Eu El]. rewrite Eu. cbn [negb orb].
    assert (((slot s k).(deadline_ns) >? now) = false) as ->
      by (apply not_true_iff_false; rewrite Z.gtb_lt; bool_hyps; lia).
    destruct Hc as [[-> Hno]|(Hr & Hd & Hmin)].
    + rewrite Z.eqb_refl. cbn [orb]. right. split; [lia|].
      split; [unfold due; by rewrite Eu, El|]. intros j Hj Hdj.
      destruct (decide (j = k)) as [->|]; [lia|]. rewrite Hno in Hdj by lia. done.
    + destruct (c =? s.(capacity)) eqn:Ec; bool_hyps; [lia|]. cbn [orb].
      destruct ((slot s k).(deadline_ns) <? (slot s c).(deadline_ns)) eqn:Elt; bool_hyps; right.
      * split; [lia|]. split; [unfold due; rewrite Eu; cbn; by apply Z.leb_le|].
        intros j Hj Hdj. destruct (decide (j = k)) as [->|]; [lia|].
        destruct (Hmin j ltac:(lia) Hdj). lia.
      * split; [lia|]. split; [done|]. intros j Hj Hdj.
        destruct (decide (j = k)) as [->|]; [lia|]. destruct (Hmin j ltac:(lia) Hdj). lia.
  - assert (negb (slot s k).(in_use) || ((slot s k).(deadline_ns) >? now) = true) as ->.
    { destruct (in_use (slot s k)); [|done]. cbn in Ed |- *. bool_hyps.
      apply Z.gtb_lt. lia. }
    destruct Hc as [[-> Hno]|(Hr & Hd & Hmin)]; [left|right].
    + split; [done|]. intros j Hj. destruct (decide (j = k)) as [->|]; [done|].
      apply Hno. lia.
    + split; [lia|]. split; [done|]. intros j Hj Hdj.
      destruct (decide (j = k)) as [->|]; [unfold due in Hdj; congruence|].
      apply Hmin; [lia|done].
Qed.

Lemma choose_due_spec s now :
  wf s -> chosen_upto s now s.(capacity) (choose_due s now).
Proof.
  intros Hwf. pose proof (wf_capacity s Hwf) as H0.
  assert (forall n, 0 <= n -> n <= s.(capacity) ->
    chosen_upto s now n (foldl (choose_step s now) s.(capacity) (seqZ 0 n))) as H;
    [|by apply H].
  intros n Hn. pattern n. apply natlike_ind; [| |done]; clear n Hn.
  - intros _. left. split; [done|lia].
  - intros n Hn IH Hle. rewrite <- Z.add_1_r.
    assert (seqZ 0 (n + 1) = seqZ 0 n ++ [n]) as -> by (by rewrite seqZ_app by lia).
    rewrite foldl_app. cbn. apply choose_step_spec; [lia|]. apply IH. lia.
Qed.

Lemma earliest_deadline_spec s :
  wf s ->
  match earliest_deadline s with
  | None => forall j, 0 <= j < s.(capacity) -> (slot s j).(in_use) = false
  | Some d =>
      (exists j, 0 <= j < s.(capacity) /\ (slot s j).(in_use) = true /\
         (slot s j).(deadline_ns) = d) /\
      forall j, 0 <= j < s.(capacity) -> (slot s j).(in_use) = true ->
        d <= (slot s j).(deadline_ns)
  end.
Proof.
  intros Hwf. pose proof (wf_capacity s Hwf) as H0. unfold earliest_deadline.
  match goal with |- context [foldl ?f None _] => set (step := f) end.
  assert (forall n, 0 <= n -> n <= s.(capacity) ->
    match foldl step None (seqZ 0 n) with
    | None => forall j, 0 <= j < n -> (slot s j).(in_use) = false
    | Some d =>
        (exists j, 0 <= j < n /\ (slot s j).(in_use) = true /\
           (slot s j).(deadline_ns) = d) /\
        forall j, 0 <= j < n -> (slot s j).(in_use) = true ->
          d <= (slot s j).(deadline_ns)
    end) as H; [|by apply H].
  intros n Hn. pattern n. apply natlike_ind; [| |done]; clear n Hn.
  - intros _ j Hj. lia.
  - intros n Hn IH Hle. specialize (IH ltac:(lia)). rewrite <- Z.add_1_r.
    assert (seqZ 0 (n + 1) = seqZ 0 n ++ [n]) as -> by (by rewrite seqZ_app by lia).
    rewrite foldl_app. cbn. set (found := foldl step None (seqZ 0 n)) in *.
    unfold step. destruct (in_use (slot s n)) eqn:Eu; cbn [negb].
    + destruct found as [d|].
      * destruct IH as [(j0 & Hj0 & Hu0 & Hd0) Hmin].
        destruct (deadline_ns (slot s n) <? d) eqn:E; bool_hyps.
        -- split; [exists n; split_and!; done || lia|]. intros j Hj Hu.
           destruct (decide (j = n)) as [->|]; [lia|].
           specialize (Hmin j ltac:(lia) Hu). lia.
        -- split; [exists j0; split_and!; done || lia|]. intros j Hj Hu.
           destruct (decide (j = n)) as [->|]; [lia|]. apply Hmin; [lia|done].
      * split; [exists n; split_and!; done || lia|]. intros j Hj Hu.
        destruct (decide (j = n)) as [->|]; [lia|]. rewrite IH in Hu by lia. done.
    + destruct found as [d|].
      * destruct IH as [(j0 & Hj0 & Hu0 & Hd0) Hmin].
        split; [exists j0; split_and!; done || lia|]. intros j Hj Hu.
        destruct (decide (j = n)) as [->|]; [congruence|]. apply Hmin; [lia|done].
      * intros j Hj. destruct (decide (j = n)) as [->|]; [done|]. apply IH. lia.
Qed.

(** * What the timers rely on *)

(** The clock does not go back: [time_of w] is a lower bound on every later
    reading, whatever is called in between.  The hardware is armed after an
    arming that succeeded and not after a disarming that did, and the heap never
    hands out NULL. *)
Class TimerLaws (W : Type) `{TimerPlatform W} := {
  time_of : W -> Z;
  law_clock w : let '(t, w') := clock_monotonic_ns w in
    is_u64 t /\ time_of w <= t /\ t <= time_of w';
  law_disarm w : time_of w <= time_of (apic_timer_disarm w).2;
  law_arm i w : time_of w <= time_of (apic_timer_arm_oneshot i w).2;
  law_disarmed w w' : apic_timer_disarm w = (true, w') -> apic_timer_is_armed w' = false;
  law_armed i w w' :
    apic_timer_arm_oneshot i w = (true, w') -> apic_timer_is_armed w' = true;
  law_clock_armed w :
    apic_timer_is_armed (clock_monotonic_ns w).2 = apic_timer_is_armed w;
  law_heap n w p w' : heap_allocate n w = (Some p, w') -> p <> 0
}.

Section callbacks.
Context {W : Type} `{TimerLaws W}.

(** What a callback may do: arm and cancel timers, end a sleep, and let time
    pass.  The index is 1 for a call that may take an identifier. *)
Inductive api : Z -> timers * W -> timers * W -> Prop :=
| api_arm s w deadline cb ctx dest st id s' w' :
    is_u64 deadline ->
    timer_arm deadline cb ctx dest s w = (st, id, s', w') -> api 1 (s, w) (s', w')
| api_cancel s w ident st s' w' :
    timer_cancel ident s w = (st, s', w') -> api 0 (s, w) (s', w')
| api_sleep s w : api 0 (s, w) (set_sleep s true, w)
| api_wait s w w' : time_of w <= time_of w' -> api 0 (s, w) (s, w').

(** A sequence of calls, with how many of them arm. *)
Inductive calls : Z -> timers * W -> timers * W -> Prop :=
| calls_nil x : calls 0 x x
| calls_cons k n x y z : api k x y -> calls n y z -> calls (k + n) x z.

(** A step after the instant [now] brings no new entry the instant reached:
    what is due afterwards was there before, in the same slot. *)
Record shrinks (now : Z) (s s' : timers) : Prop := {
  sh_wf : wf s';
  sh_capacity : s'.(capacity) = s.(capacity);
  sh_due : forall j, 0 <= j < s.(capacity) -> due now (slot s' j) = true ->
    slot s' j = slot s j
}.

Lemma shrinks_refl now s : wf s -> shrinks now s s.
Proof. by split. Qed.

Lemma shrinks_trans now s1 s2 s3 :
  shrinks now s1 s2 -> shrinks now s2 s3 -> shrinks now s1 s3.
Proof.
  intros [H1 H2 H3] [H4 H5 H6]. split; [done|congruence|]. intros j Hj Hd.
  assert (slot s3 j = slot s2 j) as E by (apply H6; [lia|done]).
  rewrite E in *. by apply H3.
Qed.

(** Writing an entry that is not due. *)
Lemma shrinks_put now s i e :
  wf s -> 0 <= i < s.(capacity) -> due now e = false ->
  shrinks now s (set_slots s (aset s.(slots) i e)).
Proof.
  intros Hwf Hi He. split; [|done|].
  - unfold wf. cbn. by rewrite zlength_aset.
  - intros j Hj. rewrite slot_put by (done || lia).
    destruct (i =? j); [congruence|done].
Qed.

Lemma clear_slot_shrinks now s i :
  wf s -> 0 <= i < s.(capacity) -> shrinks now s (clear_slot s i).
Proof. intros. by apply shrinks_put. Qed.

Lemma reprogram_time s w : time_of w <= time_of (reprogram s w).2.
Proof.
  unfold reprogram.
  assert (exists ok w1, (if apic_timer_is_armed w then apic_timer_disarm w else (true, w))
    = (ok, w1) /\ time_of w <= time_of w1) as (ok & w1 & -> & H1).
  { destruct (apic_timer_is_armed w); [|by exists true, w].
    pose proof (law_disarm w). destruct (apic_timer_disarm w) as [ok w1]. eauto. }
  destruct ok; cbn [negb]; [|done]. destruct (earliest_deadline s); [|done].
  pose proof (law_clock w1) as Hc. destruct (clock_monotonic_ns w1) as [t w2].
  match goal with |- context [apic_timer_arm_oneshot ?i w2] =>
    pose proof (law_arm i w2) as Ha; destruct (apic_timer_arm_oneshot i w2) as [[] w3] end;
    cbn in *; lia.
Qed.

(** One call made by a callback after the instant [now]. *)
Lemma api_shrinks now k s w s' w' :
  api k (s, w) (s', w') -> wf s -> now <= time_of w ->
  shrinks now s s' /\ time_of w <= time_of w'.
Proof.
  inversion 1 as [? ? d cb ctx dest st id ? ? Hd E|? ? ident st ? ? E| |? ? ? Ht]; subst;
    intros Hwf Hnow.
  - unfold timer_arm in E.
    destruct ((cb =? 0) || negb dest); [injection E as <- <- <- <-; by split|].
    destruct (negb s.(started)); [injection E as <- <- <- <-; by split|].
    pose proof (law_clock w) as Hcl. destruct (clock_monotonic_ns w) as [t w1].
    destruct Hcl as (Ht & Hle1 & Hle2).
    destruct ((d <? t) || _) eqn:Ei; [injection E as <- <- <- <-; split; [done|lia]|].
    bool_hyps. rewrite u64_small in * by (unfold is_u64 in *; lia).
    destruct (scan_spec (fun e => negb e.(in_use)) s Hwf) as [[Hi _]|(Hi & _ & _)];
      fold (free_slot s) in Hi.
    { rewrite Hi, Z.eqb_refl in E. injection E as <- <- <- <-. split; [done|lia]. }
    destruct (free_slot s =? s.(capacity)) eqn:Ec; bool_hyps; [lia|].
    set (e := MkEntry d _ cb ctx true) in E.
    assert (due now e = false) as He.
    { unfold due. cbn. apply Z.leb_gt. unfold TIMER_MINIMUM_INTERVAL_NS in *. lia. }
    pose proof (shrinks_put now s (free_slot s) e Hwf Hi He) as Hsh.
    set (s1 := set_next _ _) in E.
    assert (shrinks now s s1) as Hsh1 by (by destruct Hsh).
    pose proof (reprogram_time s1 w1). destruct (reprogram s1 w1) as [st1 w2]. cbn in *.
    destruct (negb _); injection E as <- <- <- <-; (split; [|lia]); [|done].
    eapply shrinks_trans; [exact Hsh1|]. apply clear_slot_shrinks; [apply Hsh1|done].
  - unfold timer_cancel in E.
    destruct (negb s.(started)); [injection E as <- <- <-; by split|].
    destruct (slot_of ident s =? s.(capacity)) eqn:Ec; [injection E as <- <- <-; by split|].
    bool_hyps. assert (0 <= slot_of ident s < s.(capacity)) as Hi.
    { unfold slot_of in *. destruct (ident =? 0); [done|].
      destruct (scan_spec (fun e => e.(in_use) && (e.(identifier) =? ident)) s Hwf)
        as [[Hi _]|(Hi & _ & _)]; [done|lia]. }
    pose proof (reprogram_time (clear_slot s (slot_of ident s)) w).
    destruct (reprogram _ w) as [st1 w1]. injection E as <- <- <-. split; [|done].
    by apply clear_slot_shrinks.
  - split; [by destruct (shrinks_refl now s Hwf)|done].
  - split; [by apply shrinks_refl|done].
Qed.

Lemma calls_shrinks now n x y :
  calls n x y -> wf x.1 -> now <= time_of x.2 ->
  shrinks now x.1 y.1 /\ time_of x.2 <= time_of y.2.
Proof.
  induction 1 as [x|k n x y z Hxy Hyz IH]; intros Hwf Hnow.
  { split; [by apply shrinks_refl|done]. }
  destruct x as [s w], y as [s1 w1]. cbn in *.
  destruct (api_shrinks now k s w s1 w1 Hxy Hwf Hnow) as [H1 H2].
  destruct IH as [H3 H4]; [apply H1|lia|]. split; [by eapply shrinks_trans|lia].
Qed.

(** ** Expiry *)

(** The entries the instant has reached, in slot order. *)
Definition reached (now : Z) (s : timers) : list timer_entry :=
  List.filter (due now) s.(slots).

Lemma filter_shrinks (p : timer_entry -> bool) l l' :
  length l' = length l ->
  (forall i e, l' !! i = Some e -> p e = true -> l !! i = Some e) ->
  List.filter p l' `sublist_of` List.filter p l.
Proof.
  revert l. induction l' as [|e l' IH]; intros [|x l] Hlen Hp; try done.
  injection Hlen as Hlen. assert (List.filter p l' `sublist_of` List.filter p l) as IH'.
  { apply IH; [done|]. intros i y Hy Hpy. apply (Hp (S i) y Hy Hpy). }
  cbn. destruct (p e) eqn:Ee.
  - specialize (Hp 0%nat e eq_refl Ee). cbn in Hp. injection Hp as ->. rewrite Ee.
    by apply sublist_skip.
  - destruct (p x); [by apply sublist_cons|done].
Qed.

Lemma reached_shrinks now s s' :
  wf s -> shrinks now s s' -> reached now s' ⊆+ reached now s.
Proof.
  intros Hwf [Hwf' Hcap Hdue]. apply sublist_submseteq, filter_shrinks.
  - unfold wf, zlength in *. lia.
  - intros i e He Hd. pose proof (lookup_lt_Some _ _ _ He) as Hlt.
    unfold wf, zlength in *. specialize (Hdue (Z.of_nat i) ltac:(lia)).
    unfold slot in Hdue. rewrite (aget_lookup _ s'.(slots) (Z.of_nat i) e) in Hdue
      by (by rewrite Nat2Z.id).
    specialize (Hdue Hd). rewrite Hdue, <- (Nat2Z.id i) at 1.
    apply lookup_aget. unfold zlength. lia.
Qed.

Lemma filter_clear (p : timer_entry -> bool) l i e e' :
  l !! i = Some e -> p e = true -> p e' = false ->
  List.filter p l ≡ₚ e :: List.filter p (<[i := e']> l).
Proof.
  intros Hl He He'. revert i Hl. induction l as [|x l IH]; intros [|i] Hl; try done; cbn.
  - injection Hl as ->. by rewrite He, He'.
  - specialize (IH i Hl). destruct (p x); [|done].
    rewrite IH. apply Permutation_swap.
Qed.

Lemma reached_clear now s i :
  wf s -> 0 <= i < s.(capacity) -> due now (slot s i) = true ->
  reached now s ≡ₚ slot s i :: reached now (clear_slot s i).
Proof.
  intros Hwf Hi Hd. unfold reached, clear_slot, aset. cbn. apply filter_clear; try done.
  apply lookup_aget. by rewrite Hwf.
Qed.

(** What the code behind callbacks is assumed to do: nothing but calls. *)
Definition callbacks_ok (run_callback : Z -> Z -> Z -> timers -> W -> timers * W) : Prop :=
  forall cb d c s w, exists n, calls n (s, w) (run_callback cb d c s w).

Definition by_deadline (a b : timer_entry) : Prop := a.(deadline_ns) <= b.(deadline_ns).

Lemma reached_min now s i :
  wf s -> chosen_upto s now s.(capacity) i -> i <> s.(capacity) ->
  0 <= i < s.(capacity) /\ due now (slot s i) = true /\
  Forall (by_deadline (slot s i)) (reached now s).
Proof.
  intros Hwf [[-> _]|(Hi & Hd & Hmin)] Hne; [done|]. split_and!; try done; try lia.
  apply Forall_forall. intros e He. apply list_elem_of_In, filter_In in He as [He Hde].
  apply list_elem_of_In, (elem_of_aget empty_entry) in He as (j & Hj & <-).
  rewrite Hwf in Hj. by apply Hmin.
Qed.

Lemma reached_none now s :
  wf s -> chosen_upto s now s.(capacity) s.(capacity) ->
  reached now s = [] /\ forall j, 0 <= j < s.(capacity) -> due now (slot s j) = false.
Proof.
  intros Hwf [[_ Hno]|(Hi & _)]; [|lia]. split; [|done]. unfold reached.
  destruct (List.filter (due now) s.(slots)) as [|e l] eqn:E; [done|]. exfalso.
  assert (In e (List.filter (due now) s.(slots))) as He by (rewrite E; by left).
  apply filter_In in He as [He Hd].
  apply list_elem_of_In, (elem_of_aget empty_entry) in He as (j & Hj & <-).
  rewrite Hwf in Hj. unfold slot in Hno. rewrite Hno in Hd; done.
Qed.

(** Slot [i] holds the earliest deadline [now] has reached, the lowest slot of
    those with that deadline. *)
Definition first_due (now : Z) (s : timers) (i : Z) : Prop :=
  0 <= i < s.(capacity) /\ due now (slot s i) = true /\
  forall j, 0 <= j < s.(capacity) -> due now (slot s j) = true ->
    (slot s i).(deadline_ns) <= (slot s j).(deadline_ns) /\
    (j < i -> (slot s i).(deadline_ns) < (slot s j).(deadline_ns)).

(** What serving the deadlines [now] has reached consists of: while there is one,
    the earliest leaves the table and its callback, if it has one, is called with
    its deadline and its context, on the timers and the world as the callbacks
    before it left them.  The list holds the entries served, in order. *)
Inductive serves (run : Z -> Z -> Z -> timers -> W -> timers * W) (now : Z)
  : timers -> W -> list timer_entry -> timers -> W -> Prop :=
| sv_done s w : (forall j, 0 <= j < s.(capacity) -> due now (slot s j) = false) ->
    serves run now s w [] s w
| sv_call s w i s1 w1 l s' w' : first_due now s i -> (slot s i).(callback) <> 0 ->
    run (slot s i).(callback) (slot s i).(deadline_ns) (slot s i).(context) (clear_slot s i) w =
      (s1, w1) ->
    serves run now s1 w1 l s' w' -> serves run now s w (slot s i :: l) s' w'
| sv_silent s w i l s' w' : first_due now s i -> (slot s i).(callback) = 0 ->
    serves run now (clear_slot s i) w l s' w' -> serves run now s w (slot s i :: l) s' w'.

Lemma expire_spec run_callback now :
  callbacks_ok run_callback ->
  forall fuel s w, wf s -> now <= time_of w -> (length (reached now s) < fuel)%nat ->
  exists fired s' w', expire_reached run_callback fuel now s w = Some (fired, s', w') /\
    shrinks now s s' /\ time_of w <= time_of w' /\ serves run_callback now s w fired s' w' /\
    fired ⊆+ reached now s /\ StronglySorted by_deadline fired /\
    (forall j, 0 <= j < s.(capacity) -> due now (slot s' j) = false) /\
    ((forall cb d c s w, (run_callback cb d c s w).1 = s) -> fired ≡ₚ reached now s).
Proof.
  intros Hcb. induction fuel as [|fuel IH]; intros s w Hwf Hnow Hfuel; [lia|]. cbn.
  pose proof (choose_due_spec s now Hwf) as Hch.
  destruct (choose_due s now =? s.(capacity)) eqn:E; bool_hyps.
  { rewrite E in Hch. destruct (reached_none now s Hwf Hch) as [Hr Hno].
    exists [], s, w. rewrite Hr. split_and!; done || by apply shrinks_refl || by constructor. }
  destruct (reached_min now s _ Hwf Hch E) as (Hi & Hd & Hmin).
  assert (first_due now s (choose_due s now)) as Hfirst by (by destruct Hch as [[? _]|(_ & _ & ?)]).
  set (i := choose_due s now) in *. set (e := slot s i) in *.
  pose proof (reached_clear now s i Hwf Hi Hd) as Hperm. fold e in Hperm.
  pose proof (clear_slot_shrinks now s i Hwf Hi) as Hsh0.
  set (s0 := clear_slot s i) in *.
  assert (exists s1 w1, (if negb (e.(callback) =? 0) then
      run_callback e.(callback) e.(deadline_ns) e.(context) s0 w else (s0, w)) = (s1, w1) /\
    shrinks now s0 s1 /\ time_of w <= time_of w1 /\
    ((forall cb d c s w, (run_callback cb d c s w).1 = s) -> s1 = s0) /\
    (forall l s' w', serves run_callback now s1 w1 l s' w' -> serves run_callback now s w (e :: l) s' w'))
    as (s1 & w1 & -> & Hsh1 & Htime & Hpure & Hserve).
  { destruct (e.(callback) =? 0) eqn:Ecb; cbn [negb]; bool_hyps; cycle 1.
    - destruct (Hcb e.(callback) e.(deadline_ns) e.(context) s0 w) as [n Ha].
      pose proof (calls_shrinks now n _ _ Ha (sh_wf _ _ _ Hsh0) Hnow) as Hs.
      pose proof (fun Hp : (forall cb d c s w, (run_callback cb d c s w).1 = s) =>
        Hp e.(callback) e.(deadline_ns) e.(context) s0 w) as Hp.
      destruct (run_callback _ _ _ s0 w) as [s1 w1] eqn:Erun. cbn in Hs, Hp.
      destruct Hs as [? ?]. exists s1, w1. split_and!; try done.
      intros l s' w'. by apply (sv_call _ _ s w i).
    - exists s0, w. split_and!; try done; [by apply shrinks_refl, Hsh0|].
      intros l s' w'. by apply (sv_silent _ _ s w i). }
  pose proof (reached_shrinks now s0 s1 (sh_wf _ _ _ Hsh0) Hsh1) as Hsub.
  assert (length (reached now s1) < fuel)%nat as Hlen.
  { apply submseteq_length in Hsub. apply Permutation_length in Hperm. rewrite length_cons in Hperm. lia. }
  destruct (IH s1 w1 (sh_wf _ _ _ Hsh1)) as
    (fired & s2 & w2 & -> & Hsh2 & Ht2 & Hsv & Hf & Hsort & Hnone & Hall); [lia|done|].
  exists (e :: fired), s2, w2. rewrite Hperm in Hmin |- *. apply Forall_cons in Hmin as [_ Hmin].
  split_and!; try done.
  - eapply shrinks_trans; [exact Hsh0|]. by eapply shrinks_trans.
  - lia.
  - by apply Hserve.
  - apply submseteq_skip. by etrans.
  - constructor; [done|]. apply Forall_forall. intros x Hx. rewrite Forall_forall in Hmin.
    apply Hmin. eapply elem_of_submseteq; [|exact Hsub]. by eapply elem_of_submseteq.
  - intros j Hj. apply Hnone. rewrite (sh_capacity _ _ _ Hsh1). done.
  - intros Hp. rewrite (Hpure Hp) in Hall. by rewrite (Hall Hp).
Qed.

Lemma expire_fuel_enough now s : wf s -> (length (reached now s) < expire_fuel s)%nat.
Proof.
  intros Hwf. unfold expire_fuel, reached. pose proof (filter_length_le (due now) s.(slots)).
  unfold wf, zlength in Hwf. lia.
Qed.
(** ** The invariant of the table *)

(** A started timer owns a table of TIMER_MAX_PENDING entries and a stopped one
    none; a free entry is blank, and a pending one has a callback. *)
Record table_ok (s : timers) : Prop := {
  tb_wf : wf s;
  tb_started : if s.(started) then s.(capacity) = TIMER_MAX_PENDING /\ s.(entries) <> 0
    else s.(capacity) = 0 /\ s.(entries) = 0;
  tb_clear : forall j, 0 <= j < s.(capacity) -> (slot s j).(in_use) = false ->
    slot s j = empty_entry;
  tb_callback : forall j, 0 <= j < s.(capacity) -> (slot s j).(in_use) = true ->
    (slot s j).(callback) <> 0
}.

(** The identifiers in use after at most [n] arms: each is one that was handed
    out, none is zero, and no two timers share one. *)
Record ids_ok (n : Z) (s : timers) : Prop := {
  id_next : 0 < s.(next_identifier) <= n + 1;
  id_range : forall j, 0 <= j < s.(capacity) -> (slot s j).(in_use) = true ->
    0 < (slot s j).(identifier) < s.(next_identifier);
  id_distinct : forall i j, 0 <= i < s.(capacity) -> 0 <= j < s.(capacity) ->
    (slot s i).(in_use) = true -> (slot s j).(in_use) = true ->
    (slot s i).(identifier) = (slot s j).(identifier) -> i = j
}.

Definition inv (n : Z) (s : timers) : Prop :=
  table_ok s /\ (n < UINT64_MAX -> ids_ok n s).

(** The entry [timer_arm] writes, and the state it leaves. *)
Definition armed_at (s : timers) (i deadline cb ctx : Z) : timers :=
  set_next (set_slots s (aset s.(slots) i
      (MkEntry deadline s.(next_identifier) cb ctx true)))
    (u64 (s.(next_identifier) + 1)).

Definition first_free (s : timers) (i : Z) : Prop :=
  0 <= i < s.(capacity) /\ (slot s i).(in_use) = false /\
  forall j, 0 <= j < i -> (slot s j).(in_use) = true.

Lemma free_slot_spec s :
  wf s ->
  (free_slot s = s.(capacity) /\
   forall j, 0 <= j < s.(capacity) -> (slot s j).(in_use) = true) \/
  (free_slot s <> s.(capacity) /\ first_free s (free_slot s)).
Proof.
  intros Hwf. destruct (scan_spec (fun e => negb e.(in_use)) s Hwf) as [[E Hno]|(Hi & Hp & Hno)];
    fold (free_slot s) in *; [left|right].
  - split; [done|]. intros j Hj. specialize (Hno j Hj). by apply negb_false_iff.
  - split; [lia|]. split; [done|]. split; [by destruct (in_use _)|].
    intros j Hj. specialize (Hno j Hj). by apply negb_false_iff.
Qed.

(** An identifier names the slot of its pending timer. *)
Lemma slot_of_spec ident s :
  wf s ->
  (slot_of ident s = s.(capacity) /\
   (ident <> 0 -> forall j, 0 <= j < s.(capacity) -> (slot s j).(in_use) = true ->
      (slot s j).(identifier) <> ident)) \/
  (slot_of ident s <> s.(capacity) /\ ident <> 0 /\ 0 <= slot_of ident s < s.(capacity) /\
   (slot s (slot_of ident s)).(in_use) = true /\
   (slot s (slot_of ident s)).(identifier) = ident).
Proof.
  intros Hwf. unfold slot_of. destruct (ident =? 0) eqn:E0; bool_hyps; [left; split; [done|congruence]|].
  destruct (scan_spec (fun e => e.(in_use) && (e.(identifier) =? ident)) s Hwf)
    as [[E Hno]|(Hi & Hp & Hno)]; [left|right].
  - split; [done|]. intros _ j Hj Hu Eid. specialize (Hno j Hj). cbn in Hno.
    rewrite Hu, Eid, Z.eqb_refl in Hno. done.
  - bool_hyps. split_and!; done || lia.
Qed.

Lemma reprogram_armed s w w' :
  reprogram s w = (TIMER_STATUS_OK, w') -> wf s ->
  apic_timer_is_armed w' = bool_decide (earliest_deadline s <> None).
Proof.
  unfold reprogram. intros E Hwf.
  assert (exists ok w1, (if apic_timer_is_armed w then apic_timer_disarm w else (true, w))
    = (ok, w1) /\ (ok = true -> apic_timer_is_armed w1 = false)) as (ok & w1 & Eo & H1).
  { destruct (apic_timer_is_armed w) eqn:Ea; [|by exists true, w].
    destruct (apic_timer_disarm w) as [ok w1] eqn:Ed. exists ok, w1. split; [done|].
    intros ->. by eapply law_disarmed. }
  rewrite Eo in E. destruct ok; cbn [negb] in E; [|done].
  destruct (earliest_deadline s); [|injection E as <-; by apply H1].
  destruct (clock_monotonic_ns w1) as [t w2].
  destruct (apic_timer_arm_oneshot _ w2) as [[] w3] eqn:Ea; [|done].
  injection E as <-. by apply law_armed in Ea.
Qed.

(** What [timer_arm] does on each of its branches. *)
Lemma arm_spec d cb ctx dest s w st id s' w' :
  wf s -> is_u64 d -> timer_arm d cb ctx dest s w = (st, id, s', w') ->
  let now := (clock_monotonic_ns w).1 in
  match st with
  | TIMER_STATUS_OK =>
      cb <> 0 /\ s.(started) = true /\ now + TIMER_MINIMUM_INTERVAL_NS <= d /\
      id = Some s.(next_identifier) /\ apic_timer_is_armed w' = true /\
      exists i, first_free s i /\ s' = armed_at s i d cb ctx
  | TIMER_STATUS_NULL_ARGUMENT => (cb = 0 \/ dest = false) /\ s' = s /\ id = None
  | TIMER_STATUS_NOT_STARTED => s.(started) = false /\ s' = s /\ id = Some 0
  | TIMER_STATUS_BAD_INTERVAL =>
      d < now + TIMER_MINIMUM_INTERVAL_NS /\ s' = s /\ id = Some 0
  | TIMER_STATUS_NO_CAPACITY =>
      (forall j, 0 <= j < s.(capacity) -> (slot s j).(in_use) = true) /\
      s' = s /\ id = Some 0
  | TIMER_STATUS_HARDWARE_FAILURE =>
      cb <> 0 /\ s.(started) = true /\ id = Some 0 /\
      exists i, first_free s i /\ s' = clear_slot (armed_at s i d cb ctx) i
  | _ => False
  end.
Proof.
  intros Hwf Hd E. unfold timer_arm in E.
  destruct ((cb =? 0) || negb dest) eqn:E0.
  { injection E as <- <- <- <-. split; [|done]. apply orb_prop in E0.
    destruct E0 as [E0|E0]; [left; by bool_hyps|right; by destruct dest]. }
  bool_hyps. destruct (started s) eqn:Es; cbn [negb] in E;
    [|injection E as <- <- <- <-; by split].
  pose proof (law_clock w) as Hc. destruct (clock_monotonic_ns w) as [now w1].
  destruct Hc as (Hn & _). cbn. unfold is_u64 in Hn, Hd.
  destruct ((d <? now) || _) eqn:Ei.
  { injection E as <- <- <- <-. split; [|done]. apply orb_prop in Ei.
    destruct (d <? now) eqn:El; bool_hyps; unfold TIMER_MINIMUM_INTERVAL_NS in *; [lia|].
    destruct Ei as [|Ei]; [done|]. bool_hyps. rewrite u64_small in Ei by (unfold is_u64; lia). lia. }
  bool_hyps. rewrite u64_small in * by (unfold is_u64; lia).
  destruct (free_slot_spec s Hwf) as [[Ef Hfull]|[Hne Hfree]].
  { rewrite Ef, Z.eqb_refl in E. by injection E as <- <- <- <-. }
  destruct (free_slot s =? capacity s) eqn:Ec; bool_hyps; [lia|].
  fold (armed_at s (free_slot s) d cb ctx) in E.
  set (i := free_slot s) in *. set (s1 := armed_at s i d cb ctx) in *.
  assert (wf s1) as Hwf1 by (unfold wf; cbn; by rewrite zlength_aset).
  assert (slot s1 i = MkEntry d s.(next_identifier) cb ctx true) as Hsi.
  { unfold slot, s1, armed_at. cbn. rewrite aget_aset by (rewrite ?Hwf; destruct Hfree; lia).
    by rewrite Z.eqb_refl. }
  destruct (reprogram s1 w1) as [st1 w2] eqn:Er. case_bool_decide as Est; cbn [negb] in E.
  - injection E as <- <- <- <-. rewrite Hsi. split_and!; try done; try lia; [|eauto].
    subst st1. apply reprogram_armed in Er; [|done]. rewrite Er. apply bool_decide_eq_true.
    intros Hnone. pose proof (earliest_deadline_spec s1 Hwf1) as He. rewrite Hnone in He.
    destruct Hfree as (Hi & _). specialize (He i Hi). by rewrite Hsi in He.
  - injection E as <- <- <- <-. split_and!; try done. eauto.
Qed.
Lemma inv_weaken n k s : 0 <= k -> inv n s -> inv (n + k) s.
Proof.
  intros Hk [Ht Hi]. split; [done|]. intros Hlt. destruct (Hi ltac:(lia)). split; try done. lia.
Qed.

(** Slots agree except for blanked ones: the table facts carry over. *)
Lemma blank_inv n s s' :
  inv n s -> wf s' -> s'.(capacity) = s.(capacity) -> s'.(started) = s.(started) ->
  s'.(entries) = s.(entries) -> s'.(next_identifier) = s.(next_identifier) ->
  (forall j, 0 <= j < s.(capacity) -> slot s' j = slot s j \/ slot s' j = empty_entry) ->
  inv n s'.
Proof.
  intros [[Hwf Hs Hc Hcb] Hid] Hwf' Ec Es Ee En Hj.
  assert (forall j, 0 <= j < s.(capacity) -> (slot s' j).(in_use) = true ->
    slot s' j = slot s j) as Hu.
  { intros j Hr Hu. destruct (Hj j Hr) as [|E]; [done|]. by rewrite E in Hu. }
  split.
  - split; [done|by rewrite Es, Ec, Ee|..]; rewrite Ec; intros j Hr Hu'.
    + destruct (Hj j Hr) as [E|E]; [|done]. rewrite E in *. by apply Hc.
    + rewrite Hu in * by done. by apply Hcb.
  - intros Hlt. destruct (Hid Hlt) as [Hn Hr Hd]. split; rewrite ?Ec, ?En; [done|..].
    + intros j Hj' Hu'. rewrite Hu in * by done. by apply Hr.
    + intros j k Hj' Hk' Hu1 Hu2. rewrite (Hu j), (Hu k) in * by done. by apply Hd.
Qed.

Lemma clear_inv n s i : inv n s -> 0 <= i < s.(capacity) -> inv n (clear_slot s i).
Proof.
  intros Hi Hr. pose proof (tb_wf _ (proj1 Hi)) as Hwf.
  apply (blank_inv n s); try done.
  - unfold wf. cbn. by rewrite zlength_aset.
  - intros j Hj. unfold clear_slot. rewrite slot_put by (done || lia).
    destruct (i =? j); auto.
Qed.

Lemma armed_inv n s i d cb ctx :
  inv n s -> 0 <= i < s.(capacity) -> (slot s i).(in_use) = false -> cb <> 0 ->
  inv (n + 1) (armed_at s i d cb ctx).
Proof.
  intros [[Hwf Hs Hc Hcb] Hid] Hi Hfree Hne.
  assert (forall j, 0 <= j -> slot (armed_at s i d cb ctx) j =
    if i =? j then MkEntry d s.(next_identifier) cb ctx true else slot s j) as Hsl.
  { intros j Hj. exact (slot_put s i _ j Hwf Hi Hj). }
  split.
  - split; cbn; [unfold wf; cbn; by rewrite zlength_aset|done|..]; intros j Hj;
      rewrite Hsl by lia; destruct (i =? j) eqn:E; cbn; auto; discriminate.
  - intros Hlt. destruct (Hid ltac:(lia)) as [Hn Hr Hd].
    assert (u64 (s.(next_identifier) + 1) = s.(next_identifier) + 1) as Hu
      by (rewrite u64_small; [done|unfold is_u64; lia]).
    split; cbn [next_identifier armed_at set_next capacity set_slots]; rewrite ?Hu; [lia|..].
    + intros j Hj. rewrite Hsl by lia. destruct (i =? j) eqn:E; cbn; [lia|].
      intros Hj'. specialize (Hr j Hj Hj'). lia.
    + intros j k Hj Hk. rewrite !Hsl by lia.
      destruct (i =? j) eqn:E1, (i =? k) eqn:E2; bool_hyps; cbn; try lia; auto;
        intros Hu1 Hu2 Eid; [specialize (Hr k Hk Hu2)|specialize (Hr j Hj Hu1)]; lia.
Qed.

Lemma api_inv k n s w s' w' :
  api k (s, w) (s', w') -> inv n s -> inv (n + k) s'.
Proof.
  inversion 1 as [? ? d cb ctx dest st id ? ? Hd E|? ? ident st ? ? E| |]; subst; intros Hi;
    rewrite ?Z.add_0_r; try done; pose proof (tb_wf _ (proj1 Hi)) as Hwf.
  - pose proof (inv_weaken n 1 s ltac:(lia) Hi) as Hi1.
    apply arm_spec in E; [|done..]. cbv zeta in E. destruct st; try done.
    + destruct E as (? & ? & _ & _ & _ & i & (? & ? & _) & ->). by apply armed_inv.
    + by destruct E as (_ & -> & _).
    + by destruct E as (_ & -> & _).
    + by destruct E as (_ & -> & _).
    + by destruct E as (_ & -> & _).
    + destruct E as (? & ? & _ & i & (? & ? & _) & ->). apply clear_inv; [|done].
      by apply armed_inv.
  - unfold timer_cancel in E. destruct (negb s.(started)); [by injection E as <- <- <-|].
    destruct (slot_of_spec ident s Hwf) as [[Es _]|(Hne & _ & Hr & _)].
    + rewrite Es, Z.eqb_refl in E. by injection E as <- <- <-.
    + destruct (slot_of ident s =? s.(capacity)); [by injection E as <- <- <-|].
      destruct (reprogram _ w). injection E as <- <- <-. by apply clear_inv.
  - by apply (blank_inv n s); auto.
Qed.

Lemma calls_inv k n x y : calls k x y -> inv n x.1 -> inv (n + k) y.1.
Proof.
  intros Hc. revert n. induction Hc as [x|k m x y z Hxy Hyz IH]; intros n Hi.
  - by rewrite Z.add_0_r.
  - rewrite Z.add_assoc. apply IH. destruct x, y. by eapply api_inv.
Qed.
(** Clearing the whole table. *)
Lemma clear_all_spec s :
  wf s ->
  wf (clear_all s) /\ (clear_all s).(capacity) = s.(capacity) /\
  (clear_all s).(started) = s.(started) /\ (clear_all s).(entries) = s.(entries) /\
  (clear_all s).(next_identifier) = s.(next_identifier) /\
  forall j, 0 <= j < s.(capacity) -> slot (clear_all s) j = empty_entry.
Proof.
  intros Hwf. unfold clear_all. pose proof (wf_capacity s Hwf) as H0'.
  assert (forall n, 0 <= n -> n <= s.(capacity) ->
    let s' := foldl clear_slot s (seqZ 0 n) in
    wf s' /\ s'.(capacity) = s.(capacity) /\ s'.(started) = s.(started) /\
    s'.(entries) = s.(entries) /\ s'.(next_identifier) = s.(next_identifier) /\
    forall j, 0 <= j < n -> slot s' j = empty_entry) as Hn; [|by apply Hn].
  intros n Hn. pattern n. apply natlike_ind; [| |done]; clear n Hn.
  - intros _. cbn. split_and!; try done. lia.
  - intros n Hn IH Hle. rewrite <- Z.add_1_r.
    assert (seqZ 0 (n + 1) = seqZ 0 n ++ [n]) as -> by (by rewrite seqZ_app by lia).
    rewrite foldl_app. cbn [foldl]. specialize (IH ltac:(lia)). cbv zeta in *.
    set (s1 := foldl clear_slot s (seqZ 0 n)) in *.
    destruct IH as (Hw & Hc & Hs & He & Hx & Hj). split_and!; try done.
    + unfold wf. cbn. by rewrite zlength_aset.
    + intros j Hjr. unfold clear_slot. rewrite slot_put by (done || lia).
      destruct (n =? j) eqn:E; [done|]. bool_hyps. apply Hj. lia.
Qed.

Lemma table_ok_blank s :
  wf s -> (forall j, 0 <= j < s.(capacity) -> slot s j = empty_entry) ->
  (if s.(started) then s.(capacity) = TIMER_MAX_PENDING /\ s.(entries) <> 0
   else s.(capacity) = 0 /\ s.(entries) = 0) -> table_ok s.
Proof.
  intros Hwf Hb Hs. split; try done; intros j Hj; rewrite Hb by done; done.
Qed.

Lemma ids_ok_blank n s :
  0 < s.(next_identifier) <= n + 1 ->
  (forall j, 0 <= j < s.(capacity) -> slot s j = empty_entry) -> ids_ok n s.
Proof.
  intros Hn Hb. split; [done|..].
  - intros j Hj. by rewrite Hb.
  - intros i j Hi Hj. by rewrite Hb.
Qed.

Lemma inv_blank n s s' :
  inv n s -> wf s' -> s'.(next_identifier) = s.(next_identifier) ->
  (forall j, 0 <= j < s'.(capacity) -> slot s' j = empty_entry) ->
  (if s'.(started) then s'.(capacity) = TIMER_MAX_PENDING /\ s'.(entries) <> 0
   else s'.(capacity) = 0 /\ s'.(entries) = 0) -> inv n s'.
Proof.
  intros [_ Hid] Hwf En Hb Hs. split; [by apply table_ok_blank|].
  intros Hlt. apply ids_ok_blank; [|done]. rewrite En. apply (Hid Hlt).
Qed.

Lemma timer_start_inv n fresh s w st s' w' :
  zlength fresh = TIMER_MAX_PENDING -> inv n s ->
  timer_start fresh s w = (st, s', w') -> inv n s'.
Proof.
  intros Hf Hi E. unfold timer_start in E.
  destruct (started s) eqn:Es; [by injection E as <- <- <-|].
  repeat (case_match; [by injection E as <- <- <-|]).
  destruct (heap_allocate _ w) as [[p|] w1] eqn:Eh; [|by injection E as <- <- <-].
  destruct (clear_all_spec (set_table s p fresh TIMER_MAX_PENDING)) as
    (Hw & Hc & Hst & He & Hx & Hj); [done|].
  set (s1 := clear_all _) in *. apply law_heap in Eh.
  destruct (apic_timer_set_expiry_handler true w1) as [[] w2]; cbn [negb] in E.
  - injection E as <- <- <-. apply (inv_blank n s); try done.
  - destruct (heap_free _ w2). injection E as <- <- <-. apply (inv_blank n s); try done.
    + cbn. intros j Hr. lia.
    + cbn. rewrite Hst. cbn. by rewrite Es.
Qed.

Lemma timer_stop_inv n s w st s' w' : inv n s -> timer_stop s w = (st, s', w') -> inv n s'.
Proof.
  intros Hi E. unfold timer_stop in E.
  destruct (started s) eqn:Es; cbn [negb] in E; [|by injection E as <- <- <-].
  destruct (cpu_interrupts_enabled w); [by injection E as <- <- <-|].
  destruct (if apic_timer_is_armed w then _ else _) as [[] w1]; cbn [negb] in E;
    [|by injection E as <- <- <-].
  destruct (clear_all_spec s (tb_wf _ (proj1 Hi))) as (Hw & Hc & Hst & He & Hx & Hj).
  pose proof (tb_started _ (proj1 Hi)) as Hs. rewrite Es in Hs.
  assert (inv n (clear_all s)) as Hi1.
  { apply (inv_blank n s); try done; [by rewrite Hc|]. by rewrite Hst, Es, Hc, He. }
  destruct (apic_timer_set_expiry_handler false w1) as [[] w2]; cbn [negb] in E;
    [|by injection E as <- <- <-].
  destruct (heap_free _ w2) as [[] w3]; cbn [negb] in E; [|by injection E as <- <- <-].
  injection E as <- <- <-. apply (inv_blank n s); try done. cbn. intros j Hr. lia.
Qed.

(** ** Sequences of operations *)

(** The callbacks make calls only, at most [B] of them arming. *)
Definition callbacks_bounded (B : Z)
    (run_callback : Z -> Z -> Z -> timers -> W -> timers * W) : Prop :=
  forall cb d c s w, exists k, 0 <= k <= B /\ calls k (s, w) (run_callback cb d c s w).

Lemma bounded_ok B run : callbacks_bounded B run -> callbacks_ok run.
Proof. intros Hb cb d c s w. destruct (Hb cb d c s w) as (k & _ & Hk). eauto. Qed.

(** An operation of a client or the timer interrupt, with a bound on how many
    identifiers it takes. *)
Inductive step : Z -> timers * W -> timers * W -> Prop :=
| step_api k x y : api k x y -> step k x y
| step_start fresh s w st s' w' :
    zlength fresh = TIMER_MAX_PENDING ->
    timer_start fresh s w = (st, s', w') -> step 0 (s, w) (s', w')
| step_stop s w st s' w' : timer_stop s w = (st, s', w') -> step 0 (s, w) (s', w')
| step_expiry B run s w s' w' :
    0 <= B -> callbacks_bounded B run -> on_expiry run s w = Some (s', w') ->
    step (B * s.(capacity)) (s, w) (s', w').

Inductive steps : Z -> timers * W -> timers * W -> Prop :=
| steps_nil x : steps 0 x x
| steps_snoc k n x y z : steps n x y -> step k y z -> steps (n + k) x z.

Lemma expire_inv B run now n :
  0 <= B -> callbacks_bounded B run ->
  forall fuel s w fired s' w',
    expire_reached run fuel now s w = Some (fired, s', w') ->
    inv n s -> inv (n + B * zlength fired) s'.
Proof.
  intros HB Hb fuel. revert n. induction fuel as [|fuel IH]; intros n s w fired s' w' E Hi; [done|].
  cbn in E. pose proof (tb_wf _ (proj1 Hi)) as Hwf.
  pose proof (choose_due_spec s now Hwf) as Hch.
  destruct (choose_due s now =? s.(capacity)) eqn:Ec; bool_hyps.
  { injection E as <- <- <-. unfold zlength. cbn. by rewrite Z.mul_0_r, Z.add_0_r. }
  destruct (reached_min now s _ Hwf Hch Ec) as (Hr & _).
  pose proof (clear_inv n s _ Hi Hr) as Hi0.
  set (s0 := clear_slot s _) in *. set (e := slot s _) in *.
  assert (exists s1 w1, (if negb (e.(callback) =? 0) then
      run e.(callback) e.(deadline_ns) e.(context) s0 w else (s0, w)) = (s1, w1) /\
    inv (n + B) s1) as (s1 & w1 & Er & Hi1).
  { destruct (negb _).
    - destruct (Hb e.(callback) e.(deadline_ns) e.(context) s0 w) as (k & Hk & Hcalls).
      destruct (run _ _ _ s0 w) as [s1 w1]. exists s1, w1. split; [done|].
      apply (calls_inv k n) in Hcalls; [|done].
      replace (n + B) with (n + k + (B - k)) by lia. by apply inv_weaken; [lia|].
    - exists s0, w. split; [done|]. by apply inv_weaken. }
  rewrite Er in E. destruct (expire_reached run fuel now s1 w1) as [[[f2 s2] w2]|] eqn:E2; [|done].
  injection E as <- <- <-. apply (IH (n + B)) in E2; [|done].
  rewrite zlength_cons. by replace (n + B * (zlength f2 + 1)) with (n + B + B * zlength f2) by ring.
Qed.
(** The timer interrupt returns, having fired what its instant reached. *)
Lemma on_expiry_spec run s w :
  callbacks_ok run -> wf s ->
  exists fired s1 w1,
    let now := (clock_monotonic_ns w).1 in
    expire_reached run (expire_fuel s) now s (clock_monotonic_ns w).2 = Some (fired, s1, w1) /\
    on_expiry run s w =
      (let s2 := set_expired s1 (u64 (s1.(expiry_counter) + zlength fired)) in
       Some (s2, (reprogram s2 w1).2)) /\
    serves run now s (clock_monotonic_ns w).2 fired s1 w1 /\
    fired ⊆+ reached now s /\ StronglySorted by_deadline fired /\
    (forall j, 0 <= j < s.(capacity) -> due now (slot s1 j) = false) /\
    ((forall cb d c s w, (run cb d c s w).1 = s) -> fired ≡ₚ reached now s).
Proof.
  intros Hcb Hwf. unfold on_expiry. pose proof (law_clock w) as Hc.
  destruct (clock_monotonic_ns w) as [now w0]. destruct Hc as (_ & _ & Hnow). cbn [fst snd].
  destruct (expire_spec run now Hcb (expire_fuel s) s w0 Hwf Hnow (expire_fuel_enough now s Hwf))
    as (fired & s1 & w1 & E & _ & _ & Hrest).
  exists fired, s1, w1. cbv zeta. cbn [fst snd]. by rewrite E.
Qed.

Lemma reached_length now s : wf s -> Z.of_nat (length (reached now s)) <= s.(capacity).
Proof.
  intros Hwf. pose proof (expire_fuel_enough now s Hwf). unfold expire_fuel in *.
  pose proof (wf_capacity s Hwf). lia.
Qed.

Lemma expiry_inv B run n s w s' w' :
  0 <= B -> callbacks_bounded B run -> inv n s -> on_expiry run s w = Some (s', w') ->
  inv (n + B * s.(capacity)) s'.
Proof.
  intros HB Hb Hi E. pose proof (tb_wf _ (proj1 Hi)) as Hwf.
  destruct (on_expiry_spec run s w (bounded_ok B run Hb) Hwf)
    as (fired & s1 & w1 & Ee & Eo & _ & Hsub & _).
  rewrite Eo in E. cbv zeta in E. injection E as <- _.
  apply (expire_inv B run _ n HB Hb) in Ee; [|done].
  apply submseteq_length in Hsub. pose proof (reached_length (clock_monotonic_ns w).1 s Hwf).
  replace (n + B * s.(capacity)) with
    (n + B * zlength fired + B * (s.(capacity) - zlength fired)) by ring.
  apply inv_weaken; [unfold zlength; nia|].
  apply (blank_inv _ s1); try done; [apply (tb_wf _ (proj1 Ee))|auto].
Qed.

Lemma timer_step_inv k n x y : step k x y -> inv n x.1 -> inv (n + k) y.1.
Proof.
  destruct 1 as [k [s w] [s' w'] Ha|fresh s w st s' w' Hf E|s w st s' w' E|B run s w s' w' HB Hb E];
    cbn; intros Hi; rewrite ?Z.add_0_r.
  - by eapply api_inv.
  - by eapply timer_start_inv.
  - by eapply timer_stop_inv.
  - by eapply expiry_inv.
Qed.

Lemma steps_inv k n x y : steps k x y -> inv n x.1 -> inv (n + k) y.1.
Proof.
  induction 1 as [x|k m x y z Hxy IH Hyz]; intros Hi; [by rewrite Z.add_0_r|].
  rewrite Z.add_assoc. eapply timer_step_inv; [exact Hyz|]. by apply IH.
Qed.

Lemma inv_bss : inv 0 timers_bss.
Proof.
  split.
  - apply table_ok_blank; [done| |done]. cbn. intros j Hj. lia.
  - intros _. apply ids_ok_blank; [cbn; lia|]. cbn. intros j Hj. lia.
Qed.

Lemma reach_inv n w0 s w : steps n (timers_bss, w0) (s, w) -> inv n s.
Proof. intros Hs. apply (steps_inv n 0) in Hs; [|exact inv_bss]. done. Qed.

(** ** Cancelling and sleeping *)

Definition no_pending (ident : Z) (s : timers) : Prop :=
  forall j, 0 <= j < s.(capacity) -> (slot s j).(in_use) = true ->
    (slot s j).(identifier) <> ident.

Lemma cancel_clears n ident s w st s' w' :
  ident <> 0 -> inv n s -> n < UINT64_MAX -> timer_cancel ident s w = (st, s', w') ->
  no_pending ident s' /\ inv n s'.
Proof.
  intros Hne Hi Hn E. pose proof (tb_wf _ (proj1 Hi)) as Hwf. unfold timer_cancel in E.
  destruct (started s) eqn:Es; cbn [negb] in E.
  - destruct (slot_of_spec ident s Hwf) as [[Eq Hno]|(Hc & _ & Hr & Hu & Hid)].
    + rewrite Eq, Z.eqb_refl in E. injection E as <- <- <-. split; [exact (Hno Hne)|done].
    + destruct (slot_of ident s =? s.(capacity)) eqn:Eq; bool_hyps; [lia|].
      set (i := slot_of ident s) in *. destruct (reprogram _ w). injection E as <- <- <-.
      split; [|by apply clear_inv]. intros j Hj. cbn in Hj. unfold clear_slot.
      rewrite slot_put by (done || lia). destruct (i =? j) eqn:Eij; [done|]. bool_hyps.
      intros Hu' Eid. destruct Hi as [_ Hi]. destruct (Hi Hn) as [_ _ Hd].
      apply Eij. apply Hd; try done. congruence.
  - injection E as <- <- <-. split; [|done]. intros j Hj.
    pose proof (tb_started _ (proj1 Hi)) as Hs. rewrite Es in Hs. lia.
Qed.

(** What may happen while the processor halts: interrupts and other operations,
    at most [B] of them arming. *)
Definition halt_bounded (B : Z) (halt : timers -> W -> timers * W) : Prop :=
  forall s w, exists k, 0 <= k <= B /\ steps k (s, w) (halt s w).

Lemma sleep_loop_spec B halt n fuel ident abandon s w st s' w' :
  0 <= B -> halt_bounded B halt -> ident <> 0 -> inv n s ->
  n + B * Z.of_nat fuel < UINT64_MAX ->
  sleep_loop halt fuel ident abandon s w = Some (st, s', w') ->
  inv (n + B * Z.of_nat fuel) s' /\
  (st = TIMER_STATUS_OK /\ s'.(sleep_expired) = true \/
   st <> TIMER_STATUS_OK /\ no_pending ident s').
Proof.
  intros HB Hh Hne. revert n s w. induction fuel as [|fuel IH]; intros n s w Hi Hn E; [done|].
  assert (0 <= B * Z.of_nat (S fuel)) as H1 by nia. cbn in E.
  destruct (sleep_expired s) eqn:Ex.
  { injection E as <- <- <-. split; [by apply inv_weaken|by left]. }
  destruct (clock_monotonic_ns w) as [now w1].
  destruct (now >? abandon).
  { destruct (timer_cancel ident s w1) as [[st1 s1] w2] eqn:Ec. injection E as <- <- <-.
    apply (cancel_clears n) in Ec as [? ?]; try done; [|lia].
    split; [by apply inv_weaken|by right]. }
  destruct (negb (apic_timer_is_armed w1)).
  { destruct (timer_cancel ident s w1) as [[st1 s1] w2] eqn:Ec. injection E as <- <- <-.
    apply (cancel_clears n) in Ec as [? ?]; try done; [|lia].
    split; [by apply inv_weaken|by right]. }
  destruct (Hh s w1) as (k & Hk & Hs). destruct (halt s w1) as [s1 w2].
  apply (steps_inv k n) in Hs; [|done]. cbn in Hs.
  assert (inv (n + B) s1) as Hs1.
  { replace (n + B) with (n + k + (B - k)) by lia. by apply inv_weaken; [lia|]. }
  apply (IH (n + B)) in E; [|done|lia].
  replace (n + B * Z.of_nat (S fuel)) with (n + B + B * Z.of_nat fuel) by lia. done.
Qed.
End callbacks.

(** ** A machine with the local APIC timer of apic_timer.c *)

Record clockwork : Type := MkClockwork {
  cw_apic : ApicTimer.apic_timer;
  cw_machine : ApicTimer.machine;
  cw_now : Z
}.

(** Run an operation of apic_timer.c in the machine. *)
Definition on_apic
    (f : ApicTimer.apic_timer -> ApicTimer.machine ->
         ApicTimer.apic_timer_status * ApicTimer.apic_timer * ApicTimer.machine)
    (w : clockwork) : bool * clockwork :=
  let '(st, a, m) := f w.(cw_apic) w.(cw_machine) in
  (ApicTimer.is_ok st, MkClockwork a m w.(cw_now)).

Definition cw_time (w : clockwork) : Z := Z.max 0 (Z.min UINT64_MAX w.(cw_now)).
Definition cw_table : Z := 0x200000.

(** The number that stands for on_expiry as the local APIC timer's handler. *)
Definition ON_EXPIRY : Z := 1.

#[export] Instance clockwork_platform : TimerPlatform clockwork := {
  apic_timer_is_armed w := ApicTimer.apic_timer_is_armed w.(cw_apic);
  apic_timer_disarm := on_apic ApicTimer.apic_timer_disarm;
  apic_timer_arm_oneshot ns := on_apic (ApicTimer.apic_timer_arm_oneshot ns);
  apic_timer_set_expiry_handler b :=
    on_apic (ApicTimer.apic_timer_set_expiry_handler (if b then ON_EXPIRY else 0) 0);
  clock_monotonic_ns w := (cw_time w, w);
  clock_is_started _ := true;
  cpu_interrupts_enabled w := w.(cw_machine).(ApicTimer.m_enabled);
  cpu_interrupt_disable w :=
    MkClockwork w.(cw_apic) (ApicTimer.cpu_interrupt_disable w.(cw_machine)) w.(cw_now);
  heap_allocate _ w := (Some cw_table, w);
  heap_free _ w := (true, w)
}.

Lemma on_apic_time f w : cw_time (on_apic f w).2 = cw_time w.
Proof. unfold on_apic. by destruct (f _ _) as [[st a] m]. Qed.

Lemma on_apic_ok f w w' :
  on_apic f w = (true, w') ->
  f w.(cw_apic) w.(cw_machine) =
    (ApicTimer.APIC_TIMER_STATUS_OK, w'.(cw_apic), w'.(cw_machine)).
Proof.
  unfold on_apic. destruct (f _ _) as [[st a] m]. intros E. injection E as Eo <-.
  unfold ApicTimer.is_ok in Eo. apply bool_decide_eq_true in Eo. by subst.
Qed.

(** apic_timer.c keeps what the timers rely on. *)
Lemma disarm_armed {W} `{ApicTimer.ApicTimerPlatform W} a (w : W) a' w' :
  ApicTimer.apic_timer_disarm a w = (ApicTimer.APIC_TIMER_STATUS_OK, a', w') ->
  ApicTimer.armed a' = false.
Proof. unfold ApicTimer.apic_timer_disarm. repeat case_match; try done. by intros [= <- _]. Qed.

Lemma arm_oneshot_armed {W} `{ApicTimer.ApicTimerPlatform W} ns a (w : W) a' w' :
  ApicTimer.apic_timer_arm_oneshot ns a w = (ApicTimer.APIC_TIMER_STATUS_OK, a', w') ->
  ApicTimer.armed a' = true.
Proof.
  unfold ApicTimer.apic_timer_arm_oneshot. repeat (case_match; [done|]).
  destruct (ApicTimer.count_for_nanoseconds _ _) as [st c]. unfold ApicTimer.is_ok.
  case_bool_decide; cbn [negb]; [|intros [= ->]; congruence].
  destruct (ApicTimer.apic_register_read _ _) as [rb w1].
  destruct (negb (Z.land _ _ =? _)); [done|]. by intros [= <- _].
Qed.

#[export] Instance clockwork_laws : TimerLaws clockwork.
Proof.
  refine {| time_of := cw_time |}; cbn.
  - intros w. split; [|lia]. unfold is_u64, cw_time, UINT64_MAX. lia.
  - intros w. by rewrite on_apic_time.
  - intros i w. by rewrite on_apic_time.
  - intros w w' E. apply on_apic_ok in E. by eapply disarm_armed.
  - intros i w w' E. apply on_apic_ok in E. by eapply arm_oneshot_armed.
  - done.
  - intros n w p w' E. injection E as <- _. done.
Defined.

(** Calibrated, nothing installed, one second after the clock started. *)
Definition cw_calibrated : clockwork :=
  let '(_, a, m) :=
    ApicTimer.apic_timer_calibrate ApicTimer.apic_timer_bss ApicTimer.machine_reset in
  MkClockwork a m 1000000000.

Definition cw_fresh : list timer_entry :=
  replicate (Z.to_nat TIMER_MAX_PENDING) (MkEntry 7 7 7 7 true).

(** Started timers. *)
Definition cw_started : timers * clockwork :=
  let '(_, s, w) := timer_start cw_fresh timers_bss cw_calibrated in (s, w).

Definition cw_later (ns : Z) (w : clockwork) : clockwork :=
  MkClockwork w.(cw_apic) w.(cw_machine) (w.(cw_now) + ns).

(** The timer interrupt: the handler of apic_timer.c, whose expiry handler is
    on_expiry. *)
Definition cw_interrupt (run : Z -> Z -> Z -> timers -> clockwork -> timers * clockwork)
    (s : timers) (w : clockwork) : option (timers * clockwork) :=
  let '(a, m) := ApicTimer.apic_timer_handler (fun _ _ a m => (a, m))
                   w.(cw_apic) w.(cw_machine) in
  on_expiry run s (MkClockwork a m w.(cw_now)).

(** Two timers armed from one second on: three and two milliseconds away. *)
Definition cw_one_armed : timers * clockwork :=
  let '(_, _, s, w) := timer_arm 1003000000 5 50 true cw_started.1 cw_started.2 in (s, w).
Definition cw_two_armed : timers * clockwork :=
  let '(_, _, s, w) := timer_arm 1002000000 6 60 true cw_one_armed.1 cw_one_armed.2 in (s, w).

(** Callbacks that do nothing. *)
Definition quiet (cb d c : Z) (s : timers) (w : clockwork) : timers * clockwork := (s, w).

Lemma quiet_bounded : callbacks_bounded 0 quiet.
Proof. intros cb d c s w. exists 0. split; [done|constructor]. Qed.

(** * Properties *)

(** From load time, through any sequence of timer_start,
    timer_stop, timer_arm, timer_cancel and timer interrupts whose callbacks arm
    and cancel timers, as long as fewer than 2^64 - 1 timers were armed: the
    table is held exactly while the timers are started and then has 32 entries,
    a free entry is blank and a pending one has a callback, pending identifiers
    are non-zero, were all handed out and are distinct. *)
Theorem timers_reachable_inv {W} `{TimerLaws W} n (w0 : W) s w :
  steps n (timers_bss, w0) (s, w) -> n < UINT64_MAX -> table_ok s /\ ids_ok n s.
Proof.
  intros Hs Hn. apply reach_inv in Hs as [? Hid]. split; [done|]. by apply Hid.
Qed.

Lemma cw_started_eq :
  timer_start cw_fresh timers_bss cw_calibrated =
    (TIMER_STATUS_OK, cw_started.1, cw_started.2).
Proof. vm_compute. reflexivity. Qed.

Lemma cw_one_armed_eq :
  timer_arm 1003000000 5 50 true cw_started.1 cw_started.2 =
    (TIMER_STATUS_OK, Some 1, cw_one_armed.1, cw_one_armed.2).
Proof. vm_compute. reflexivity. Qed.

Lemma cw_two_armed_eq :
  timer_arm 1002000000 6 60 true cw_one_armed.1 cw_one_armed.2 =
    (TIMER_STATUS_OK, Some 2, cw_two_armed.1, cw_two_armed.2).
Proof. vm_compute. reflexivity. Qed.

Lemma cw_two_armed_reached :
  steps 2 (timers_bss, cw_calibrated) (cw_two_armed.1, cw_two_armed.2).
Proof.
  apply (steps_snoc 1 1 _ (cw_one_armed.1, cw_one_armed.2)).
  - apply (steps_snoc 1 0 _ (cw_started.1, cw_started.2)).
    + apply (steps_snoc 0 0 _ (timers_bss, cw_calibrated)); [apply steps_nil|].
      eapply step_start; [|exact cw_started_eq]. reflexivity.
    + apply step_api. eapply api_arm; [|exact cw_one_armed_eq]. unfold is_u64, UINT64_MAX. lia.
  - apply step_api. eapply api_arm; [|exact cw_two_armed_eq]. unfold is_u64, UINT64_MAX. lia.
Qed.

Lemma cw_two_armed_inv : inv 2 cw_two_armed.1.
Proof. exact (reach_inv 2 cw_calibrated cw_two_armed.1 cw_two_armed.2 cw_two_armed_reached). Qed.

Lemma timers_reachable_inv_witness :
  table_ok cw_two_armed.1 /\ ids_ok 2 cw_two_armed.1 /\ pending_slots cw_two_armed.1 = 2.
Proof.
  assert (table_ok cw_two_armed.1 /\ ids_ok 2 cw_two_armed.1) as [Ht Hi].
  { refine (timers_reachable_inv 2 cw_calibrated cw_two_armed.1 cw_two_armed.2 _ _).
    - exact cw_two_armed_reached.
    - unfold UINT64_MAX. lia. }
  split; [exact Ht|]. split; [exact Hi|]. vm_compute. reflexivity.
Defined.

Lemma reached_callbacks now s :
  table_ok s -> Forall (fun e => e.(callback) <> 0) (reached now s).
Proof.
  intros Ht. apply Forall_forall. intros e He. apply list_elem_of_In, filter_In in He as [He Hd].
  apply list_elem_of_In, (elem_of_aget empty_entry) in He as (j & Hj & <-).
  rewrite (tb_wf _ Ht) in Hj. apply (tb_callback _ Ht j Hj). unfold due in Hd. bool_hyps. done.
Qed.

(** C39 (functional): the timer interrupt returns, having served the deadlines
    its clock reading has reached: one after the other, earliest first, each
    leaves the table and its callback is called with its own deadline and
    context, whatever timers the callbacks arm and cancel, until none is left.
    Only deadlines that were pending are served, all of them with a callback,
    and when the callbacks touch no timer exactly the reached ones, each once.
    The expiry counter grows by the number served, and the hardware is programmed
    for what is still pending. *)
Theorem expiry_interrupt_correct {W} `{TimerLaws W} run s (w : W) :
  callbacks_ok run -> table_ok s ->
  exists fired s1 w1,
    let now := (clock_monotonic_ns w).1 in
    on_expiry run s w =
      (let s2 := set_expired s1 (u64 (s1.(expiry_counter) + zlength fired)) in
       Some (s2, (reprogram s2 w1).2)) /\
    serves run now s (clock_monotonic_ns w).2 fired s1 w1 /\
    fired ⊆+ reached now s /\ StronglySorted by_deadline fired /\
    Forall (fun e => e.(callback) <> 0) fired /\
    (forall j, 0 <= j < s.(capacity) -> due now (slot s1 j) = false) /\
    ((forall cb d c s w, (run cb d c s w).1 = s) -> fired ≡ₚ reached now s).
Proof.
  intros Hcb Ht. destruct (on_expiry_spec run s w Hcb (tb_wf _ Ht))
    as (fired & s1 & w1 & _ & E & Hsv & Hsub & Hrest). exists fired, s1, w1.
  split_and!; try done; try apply Hrest. pose proof (reached_callbacks (clock_monotonic_ns w).1 s Ht) as Hc.
  rewrite Forall_forall in *. intros e He. apply Hc. by eapply elem_of_submseteq.
Qed.

(** Two deadlines are reached: the nearer one's callback is called first. *)
Lemma expiry_interrupt_correct_witness :
  let w := cw_later 5000000 cw_two_armed.2 in
  exists a b s1 w1,
    on_expiry quiet cw_two_armed.1 w =
      (let s2 := set_expired s1 (u64 (s1.(expiry_counter) + 2)) in
       Some (s2, (reprogram s2 w1).2)) /\
    [a; b] ≡ₚ reached 1005000000 cw_two_armed.1 /\ a.(deadline_ns) <= b.(deadline_ns) /\
    a.(callback) <> 0 /\ b.(callback) <> 0.
Proof.
  intros w. destruct (expiry_interrupt_correct quiet cw_two_armed.1 w)
    as (fired & s1 & w1 & E & _ & _ & Hs & Hc & _ & Hp).
  - exact (bounded_ok 0 quiet quiet_bounded).
  - exact (proj1 cw_two_armed_inv).
  - assert (fired ≡ₚ reached 1005000000 cw_two_armed.1) as Hp' by (apply Hp; reflexivity).
    assert (length (reached 1005000000 cw_two_armed.1) = 2%nat) as El by (vm_compute; reflexivity).
    rewrite <- (Permutation_length Hp') in El.
    destruct fired as [|a [|b [|? ?]]]; try discriminate El. exists a, b, s1, w1.
    inversion Hs as [|? ? _ Hab]. inversion Hab as [|? ? Hle _].
    inversion Hc as [|? ? Ha Hc']. inversion Hc' as [|? ? Hb _].
    split; [exact E|]. split; [exact Hp'|]. split; [exact Hle|]. split; [exact Ha|exact Hb].
Defined.

(** [timer_arm] on every branch.  It succeeds with an
    entry in the lowest free slot, the next identifier, and the hardware armed;
    it refuses a missing argument, a stopped timer, a deadline nearer than the
    minimum interval and a full table with nothing changed; and when the
    hardware refuses, the entry it had written is blank again. *)
Theorem timer_arm_exact {W} `{TimerLaws W} d cb ctx dest s (w : W) st id s' w' :
  wf s -> is_u64 d -> timer_arm d cb ctx dest s w = (st, id, s', w') ->
  let now := (clock_monotonic_ns w).1 in
  match st with
  | TIMER_STATUS_OK =>
      cb <> 0 /\ s.(started) = true /\ now + TIMER_MINIMUM_INTERVAL_NS <= d /\
      id = Some s.(next_identifier) /\ apic_timer_is_armed w' = true /\
      exists i, first_free s i /\ s' = armed_at s i d cb ctx
  | TIMER_STATUS_NULL_ARGUMENT => (cb = 0 \/ dest = false) /\ s' = s /\ id = None
  | TIMER_STATUS_NOT_STARTED => s.(started) = false /\ s' = s /\ id = Some 0
  | TIMER_STATUS_BAD_INTERVAL =>
      d < now + TIMER_MINIMUM_INTERVAL_NS /\ s' = s /\ id = Some 0
  | TIMER_STATUS_NO_CAPACITY =>
      (forall j, 0 <= j < s.(capacity) -> (slot s j).(in_use) = true) /\
      s' = s /\ id = Some 0
  | TIMER_STATUS_HARDWARE_FAILURE =>
      cb <> 0 /\ s.(started) = true /\ id = Some 0 /\
      exists i, first_free s i /\ s' = clear_slot (armed_at s i d cb ctx) i
  | _ => False
  end.
Proof. apply arm_spec. Qed.

Lemma timer_arm_exact_witness :
  let '(st, id, s', w') := timer_arm 1003000000 5 50 true cw_started.1 cw_started.2 in
  st = TIMER_STATUS_OK /\ id = Some 1 /\ apic_timer_is_armed w' = true /\
  exists i, first_free cw_started.1 i /\ s' = armed_at cw_started.1 i 1003000000 5 50.
Proof.
  destruct (timer_arm 1003000000 5 50 true cw_started.1 cw_started.2)
    as [[[st id] s'] w'] eqn:E.
  assert (st = TIMER_STATUS_OK) as -> by (vm_compute in E; congruence).
  pose proof (timer_arm_exact 1003000000 5 50 true cw_started.1 cw_started.2 TIMER_STATUS_OK
    id s' w') as T. cbv zeta in T.
  destruct T as (_ & _ & _ & Hid & Ha & Hi).
  - vm_compute. reflexivity.
  - unfold is_u64, UINT64_MAX. lia.
  - exact E.
  - split; [reflexivity|]. split; [exact Hid|]. split; [exact Ha|exact Hi].
Defined.

(** Writing a slot and blanking it again. *)
Lemma armed_cleared s i d cb ctx :
  wf s -> 0 <= i < s.(capacity) -> slot s i = empty_entry ->
  clear_slot (armed_at s i d cb ctx) i = set_next s (u64 (s.(next_identifier) + 1)).
Proof.
  intros Hwf Hi Hs. unfold clear_slot, armed_at, set_next, set_slots. cbn. f_equal.
  unfold aset. rewrite list_insert_insert, decide_True by done. apply list_insert_id.
  rewrite <- Hs. apply lookup_aget. by rewrite Hwf.
Qed.

(** An armed timer is cancelled by its identifier, and by it
    once.  The identifier is not zero; cancelling restores the table as it was
    before arming, and cancelling again is refused and changes nothing. *)
Theorem timer_cancel_roundtrip {W} `{TimerLaws W} n d cb ctx s (w : W) id s1 w1 st2 s2 w2 :
  inv n s -> n + 1 < UINT64_MAX -> is_u64 d ->
  timer_arm d cb ctx true s w = (TIMER_STATUS_OK, Some id, s1, w1) ->
  timer_cancel id s1 w1 = (st2, s2, w2) ->
  id <> 0 /\ s2 = set_next s (s.(next_identifier) + 1) /\
  (st2 = TIMER_STATUS_OK \/ st2 = TIMER_STATUS_HARDWARE_FAILURE) /\
  forall w3, timer_cancel id s2 w3 = (TIMER_STATUS_UNKNOWN_TIMER, s2, w3).
Proof.
  intros Hi Hn Hd Ea Ec. pose proof (tb_wf _ (proj1 Hi)) as Hwf.
  destruct (proj2 Hi ltac:(lia)) as [Hnext Hr Hdist].
  apply arm_spec in Ea; [|done..]. destruct Ea as (Hcb & Hst & _ & [= ->] & _ & i & Hf & ->).
  destruct Hf as (Hi' & Hfree & _).
  pose proof (armed_inv n s i d cb ctx Hi Hi' Hfree Hcb) as Hi1.
  set (s1 := armed_at s i d cb ctx) in *. set (k := next_identifier s) in *.
  assert (slot s1 i = MkEntry d k cb ctx true) as Hsi.
  { etransitivity; [exact (slot_put s i _ i Hwf Hi' ltac:(lia))|]. by rewrite Z.eqb_refl. }
  assert (slot_of k s1 = i /\ slot_of k s1 <> s1.(capacity)) as [Hsl Hne].
  { destruct (slot_of_spec k s1 (tb_wf _ (proj1 Hi1))) as [[_ Hno]|(Hne & _ & Hj & Hu & Hid)].
    - exfalso. eapply (Hno ltac:(lia) i); [done|by rewrite Hsi|by rewrite Hsi].
    - split; [|done]. destruct (proj2 Hi1 Hn) as [_ _ Hd1]. apply Hd1; try done.
      + by rewrite Hsi.
      + by rewrite Hid, Hsi. }
  pose proof (cancel_clears (n + 1) k s1 w1 st2 s2 w2 ltac:(lia) Hi1 Hn Ec) as [Hnone Hi2].
  unfold timer_cancel in Ec. change (started s1) with (started s) in Ec.
  rewrite Hst, Hsl in Ec. cbn [negb] in Ec.
  destruct (i =? s1.(capacity)) eqn:Eq; bool_hyps; [congruence|].
  destruct (reprogram (clear_slot s1 i) w1) as [st3 w3] eqn:Er. injection Ec as <- <- <-.
  assert (slot s i = empty_entry) as Hblank by (by apply (tb_clear _ (proj1 Hi))).
  split; [lia|]. split.
  { unfold s1. rewrite armed_cleared by done. f_equal. apply u64_small. unfold is_u64. lia. }
  split.
  { unfold reprogram in Er. repeat case_match; injection Er as <- <-; auto. }
  intros w4. unfold timer_cancel.
  change (started (clear_slot s1 i)) with (started s). rewrite Hst. cbn [negb].
  destruct (slot_of_spec k (clear_slot s1 i) (tb_wf _ (proj1 Hi2)))
    as [[-> _]|(_ & _ & Hj & Hu & Hid)]; [by rewrite Z.eqb_refl|].
  by destruct (Hnone _ Hj Hu).
Qed.

Lemma timer_cancel_roundtrip_witness :
  let '(_, id, s1, w1) := timer_arm 1004000000 8 80 true cw_two_armed.1 cw_two_armed.2 in
  let '(_, s2, w2) := timer_cancel 3 s1 w1 in
  id = Some 3 /\ s2 = set_next cw_two_armed.1 4 /\
  timer_cancel 3 s2 w2 = (TIMER_STATUS_UNKNOWN_TIMER, s2, w2).
Proof.
  destruct (timer_arm 1004000000 8 80 true cw_two_armed.1 cw_two_armed.2)
    as [[[st id] s1] w1] eqn:E.
  destruct (timer_cancel 3 s1 w1) as [[st2 s2] w2] eqn:Ec.
  assert (st = TIMER_STATUS_OK /\ id = Some 3) as [-> ->] by (vm_compute in E; split; congruence).
  destruct (timer_cancel_roundtrip 2 1004000000 8 80 cw_two_armed.1 cw_two_armed.2 3 s1 w1
    st2 s2 w2) as (_ & -> & _ & Hagain).
  - exact cw_two_armed_inv.
  - unfold UINT64_MAX. lia.
  - unfold is_u64, UINT64_MAX. lia.
  - exact E.
  - exact Ec.
  - split; [reflexivity|]. split; [reflexivity|]. apply Hagain.
Defined.

Lemma no_pending_next n s : inv n s -> n < UINT64_MAX -> no_pending s.(next_identifier) s.
Proof.
  intros Hi Hn j Hj Hu. destruct (proj2 Hi Hn) as [_ Hr _]. specialize (Hr j Hj Hu). lia.
Qed.

Lemma arm_refused_pending {W : Type} `{TimerLaws W} n d cb ctx s (w : W) st id s' w' :
  inv n s -> n + 1 < UINT64_MAX -> is_u64 d ->
  timer_arm d cb ctx true s w = (st, id, s', w') ->
  inv (n + 1) s' /\
  (st = TIMER_STATUS_OK /\ id = Some s.(next_identifier) /\ s.(next_identifier) <> 0 \/
   st <> TIMER_STATUS_OK /\ no_pending s.(next_identifier) s').
Proof.
  intros Hi Hn Hd E. pose proof (tb_wf _ (proj1 Hi)) as Hwf.
  split; [eapply api_inv; [by eapply api_arm|done]|].
  pose proof (no_pending_next n s Hi ltac:(lia)) as Hno.
  pose proof (id_next _ _ (proj2 Hi ltac:(lia))) as Hid.
  apply arm_spec in E; [|done..]. cbv zeta in E. destruct st; try done.
  - destruct E as (_ & _ & _ & -> & _). left. split_and!; done || lia.
  - right. by destruct E as (_ & -> & _).
  - right. by destruct E as (_ & -> & _).
  - right. by destruct E as (_ & -> & _).
  - right. by destruct E as (_ & -> & _).
  - right. split; [done|]. destruct E as (_ & _ & _ & i & (Hr & Hf & _) & ->).
    rewrite armed_cleared; [done..|]. by apply (tb_clear _ (proj1 Hi)).
Qed.

(** A sleep that does not return OK leaves nothing behind.
    Whatever interrupts and calls happen while it halts, a sleep that returns
    keeps the table's invariant; it returns OK only after its own callback ran,
    and after any other status (late, no hardware, refused) the identifier it
    armed is not pending, so it cannot fire into a caller that has given up. *)
Theorem sleep_leaves_nothing_pending {W} `{TimerLaws W} B SLEEP halt n fuel ns s (w : W)
    st s' w' :
  0 <= B -> halt_bounded B halt -> inv n s ->
  n + 1 + B * Z.of_nat fuel < UINT64_MAX ->
  timer_sleep_ns SLEEP halt fuel ns s w = Some (st, s', w') ->
  inv (n + 1 + B * Z.of_nat fuel) s' /\
  (st = TIMER_STATUS_OK /\ s'.(sleep_expired) = true \/
   st <> TIMER_STATUS_OK /\ no_pending s.(next_identifier) s').
Proof.
  intros HB Hh Hi Hn E. assert (0 <= B * Z.of_nat fuel) as HBf by nia.
  pose proof (no_pending_next n s Hi ltac:(lia)) as Hno.
  assert (inv (n + 1 + B * Z.of_nat fuel) s) as Hiw.
  { rewrite <- Z.add_assoc. by apply inv_weaken; [lia|]. }
  unfold timer_sleep_ns in E.
  destruct (negb (started s)); [injection E as <- <- <-; split; [done|by right]|].
  destruct (ns <? _); [injection E as <- <- <-; split; [done|by right]|].
  destruct (clock_monotonic_ns w) as [now w1].
  set (s1 := set_sleep s false) in E. set (abandon := u64 (_ + TIMER_SLEEP_GRACE_NS)) in E.
  pose proof (tb_wf _ (proj1 Hi)) as Hwf.
  assert (inv n s1) as Hi1 by (apply (blank_inv n s); auto).
  destruct (timer_arm _ SLEEP 0 true s1 w1) as [[[st1 id] s2] w2] eqn:Ea.
  apply (arm_refused_pending n) in Ea as [Hi2 Hcase]; [|done|lia|apply u64_range].
  case_bool_decide as Est; cbn [negb] in E.
  - subst st1. destruct Hcase as [(_ & -> & Hne)|[? _]]; [|done]. cbn [default] in E.
    apply (sleep_loop_spec B halt (n + 1)) in E; try done.
  - injection E as <- <- <-. split; [by apply inv_weaken|].
    destruct Hcase as [[? _]|[_ ?]]; [done|by right].
Qed.

(** A halt during which nothing but time passes. *)
Definition cw_halt (s : timers) (w : clockwork) : timers * clockwork := (s, cw_later 60000000 w).

Lemma cw_halt_bounded : halt_bounded 0 cw_halt.
Proof.
  intros s w. exists 0. split; [done|]. apply (steps_snoc 0 0 _ (s, w)); [apply steps_nil|].
  apply step_api, api_wait. cbn. unfold cw_time. cbn. lia.
Qed.

Lemma sleep_leaves_nothing_pending_witness :
  exists s' w',
    timer_sleep_ns 9 cw_halt 3 1000000 cw_two_armed.1 cw_two_armed.2 =
      Some (TIMER_STATUS_EXPIRED_LATE, s', w') /\
    no_pending 3 s' /\ pending_slots s' = 2.
Proof.
  destruct (timer_sleep_ns 9 cw_halt 3 1000000 cw_two_armed.1 cw_two_armed.2)
    as [[[st s'] w']|] eqn:E; [|vm_compute in E; discriminate E].
  assert (st = TIMER_STATUS_EXPIRED_LATE /\ pending_slots s' = 2) as [-> Hp]
    by (vm_compute in E; injection E as <- <- <-; split; vm_compute; reflexivity).
  exists s', w'. split; [reflexivity|]. split; [|exact Hp].
  destruct (sleep_leaves_nothing_pending 0 9 cw_halt 2 3 1000000 cw_two_armed.1
    cw_two_armed.2 TIMER_STATUS_EXPIRED_LATE s' w') as [_ [[Hc _]|[_ Hn]]].
  - lia.
  - exact cw_halt_bounded.
  - exact cw_two_armed_inv.
  - unfold UINT64_MAX. lia.
  - exact E.
  - discriminate Hc.
  - exact Hn.
Defined.

(** The kernel's own timer self-test passes at load time, on
    any platform, and leaves the timers as they were. *)
Theorem timer_self_test_passes {W} `{TimerPlatform W} halt self_test_table (w : W) :
  timer_self_test halt self_test_table timers_bss w = (true, timers_bss).
Proof. vm_compute. reflexivity. Qed.

End Timer.
