(* ===== verification/PageTable.v ===== *)
(** Page-table hierarchies: src/src/kernel/paging.c, from the entry bits to
    map_range, unmap_range, protect_range, translate_address and the audit.

    Physical memory is the finite map [words] from the address of a 64-bit word
    to its value.  A hierarchy draws its tables from a bump arena or from the
    frame allocator, which is the class [TableFrames].  The invlpg instructions
    a live hierarchy issues are the list [flushed].  What a hierarchy means is
    [leaf]: the entry the processor's walk of an address ends at. *)
From stdpp Require Import gmap.
From S2P Require Import Prelude.

Module PageTable.

(** * Entry bits *)

Definition PAGE_PRESENT : Z := Z.shiftl 1 0.
Definition PAGE_WRITABLE : Z := Z.shiftl 1 1.
Definition PAGE_USER : Z := Z.shiftl 1 2.
Definition PAGE_WRITE_THROUGH : Z := Z.shiftl 1 3.
Definition PAGE_CACHE_DISABLE : Z := Z.shiftl 1 4.
Definition PAGE_HUGE : Z := Z.shiftl 1 7.
Definition PAGE_LARGE_PAT : Z := Z.shiftl 1 12.
Definition PAGE_NO_EXECUTE : Z := Z.shiftl 1 63.
Definition PAGE_FRAME_MASK : Z := 0x000FFFFFFFFFF000.
Definition PAGE_PHYSICAL_LIMIT : Z := Z.shiftl 1 52.

Definition PAT_TYPE_UNCACHEABLE : Z := 0.
Definition PAT_TYPE_WRITE_COMBINING : Z := 1.
Definition PAT_TYPE_WRITE_THROUGH : Z := 4.
Definition PAT_TYPE_WRITE_PROTECTED : Z := 5.
Definition PAT_TYPE_WRITE_BACK : Z := 6.
Definition PAT_TYPE_UNCACHED_MINUS : Z := 7.
Definition PAT_WRITE_BACK_ENTRY : Z := 0.
Definition PAT_WRITE_COMBINING_ENTRY : Z := 1.
Definition PAT_DEVICE_ENTRY : Z := 3.

Definition PAGING_LEVEL_COUNT : Z := 4.
Definition PAGING_ENTRIES_PER_TABLE : Z := 512.
Definition PAGING_PAGE_SIZE : Z := 4096.
Definition PAGING_HUGE_PAGE_SIZE : Z := 0x200000.
Definition SAPOTE_EARLY_PHYSICAL_LIMIT : Z := 0x100000000.

Definition PAGING_READ : Z := 0.
Definition PAGING_WRITE : Z := Z.shiftl 1 0.
Definition PAGING_EXECUTE : Z := Z.shiftl 1 1.
Definition PAGING_UNCACHED : Z := Z.shiftl 1 2.
Definition PAGING_WRITE_COMBINING : Z := Z.shiftl 1 3.

Inductive paging_status : Type :=
| PAGING_STATUS_OK
| PAGING_STATUS_NULL_ARGUMENT
| PAGING_STATUS_ALREADY_INITIALIZED
| PAGING_STATUS_NOT_INITIALIZED
| PAGING_STATUS_INTERRUPTS_ENABLED
| PAGING_STATUS_NO_EXECUTE_UNSUPPORTED
| PAGING_STATUS_NO_EXECUTE_INACTIVE
| PAGING_STATUS_WRITE_PROTECT_INACTIVE
| PAGING_STATUS_FIVE_LEVEL_PAGING
| PAGING_STATUS_PHYSICAL_EXTENSION_DISABLED
| PAGING_STATUS_PAT_UNSUPPORTED
| PAGING_STATUS_PAT_LAYOUT_UNSAFE
| PAGING_STATUS_PAT_READBACK_MISMATCH
| PAGING_STATUS_BAD_KERNEL_LAYOUT
| PAGING_STATUS_BAD_DEVICE_WINDOW_KIND
| PAGING_STATUS_BAD_DEVICE_WINDOW_INSTANCE
| PAGING_STATUS_UNSUPPORTED_DEVICE_WINDOW_MEMORY_TYPE
| PAGING_STATUS_BAD_DEVICE_WINDOW_PERMISSIONS
| PAGING_STATUS_ZERO_LENGTH_DEVICE_WINDOW
| PAGING_STATUS_UNALIGNED_DEVICE_WINDOW
| PAGING_STATUS_DEVICE_WINDOW_RANGE_OVERFLOW
| PAGING_STATUS_DEVICE_WINDOW_UNSUPPORTED_RANGE
| PAGING_STATUS_TOO_MANY_DEVICE_WINDOWS
| PAGING_STATUS_CONFLICTING_DEVICE_WINDOW_OVERLAP
| PAGING_STATUS_OVERLAPPING_DEVICE_WINDOWS
| PAGING_STATUS_DUPLICATE_DEVICE_WINDOW
| PAGING_STATUS_REQUIRED_DEVICE_WINDOW_MISSING
| PAGING_STATUS_DEVICE_WINDOW_KERNEL_OVERLAP
| PAGING_STATUS_INSTALLED_DEVICE_WINDOW_MISMATCH
| PAGING_STATUS_ZERO_LENGTH
| PAGING_STATUS_UNALIGNED_ADDRESS
| PAGING_STATUS_NONCANONICAL_ADDRESS
| PAGING_STATUS_RANGE_OVERFLOW
| PAGING_STATUS_PHYSICAL_TOO_WIDE
| PAGING_STATUS_BAD_PERMISSIONS
| PAGING_STATUS_CONFLICTING_MEMORY_TYPES
| PAGING_STATUS_MEMORY_TYPE_CHANGE_UNSAFE
| PAGING_STATUS_WRITABLE_AND_EXECUTABLE
| PAGING_STATUS_ALREADY_MAPPED
| PAGING_STATUS_NOT_MAPPED
| PAGING_STATUS_HUGE_PAGE_PRESENT
| PAGING_STATUS_OUT_OF_FRAMES
| PAGING_STATUS_VALIDATION_FAILURE
| PAGING_STATUS_PROCESS_BUSY
| PAGING_STATUS_PROCESS_BAD_TOKEN
| PAGING_STATUS_PROCESS_BAD_STATE
| PAGING_STATUS_PROCESS_BAD_MAPPING
| PAGING_STATUS_PROCESS_ALIAS_STATE
| PAGING_STATUS_SUPERVISOR_INTENT_FULL.

#[export] Instance paging_status_eq_dec : EqDecision paging_status.
Proof. solve_decision. Defined.

Inductive paging_memory_type : Type :=
| PAGING_MEMORY_WRITE_BACK
| PAGING_MEMORY_WRITE_COMBINING
| PAGING_MEMORY_UNCACHEABLE
| PAGING_MEMORY_WRITE_THROUGH
| PAGING_MEMORY_WRITE_PROTECTED
| PAGING_MEMORY_UNCACHED_MINUS
| PAGING_MEMORY_INVALID.

#[export] Instance paging_memory_type_eq_dec : EqDecision paging_memory_type.
Proof. solve_decision. Defined.

Definition is_ok (s : paging_status) : bool := bool_decide (s = PAGING_STATUS_OK).

(** [(x & flag) != 0] *)
Definition has (x flag : Z) : bool := negb (Z.land x flag =? 0).

Definition pat_entry (pat index : Z) : Z := u8 (Z.shiftr pat (index * 8)).

Definition pat_replace_entry (pat index memory_type : Z) : Z :=
  let shift := index * 8 in
  let mask := u64 (Z.shiftl 0xFF shift) in
  Z.lor (Z.land pat (not64 mask)) (u64 (Z.shiftl memory_type shift)).

Definition decode_pat_type (memory_type : Z) : paging_memory_type :=
  if memory_type =? PAT_TYPE_WRITE_BACK then PAGING_MEMORY_WRITE_BACK
  else if memory_type =? PAT_TYPE_WRITE_COMBINING then PAGING_MEMORY_WRITE_COMBINING
  else if memory_type =? PAT_TYPE_UNCACHEABLE then PAGING_MEMORY_UNCACHEABLE
  else if memory_type =? PAT_TYPE_WRITE_THROUGH then PAGING_MEMORY_WRITE_THROUGH
  else if memory_type =? PAT_TYPE_WRITE_PROTECTED then PAGING_MEMORY_WRITE_PROTECTED
  else if memory_type =? PAT_TYPE_UNCACHED_MINUS then PAGING_MEMORY_UNCACHED_MINUS
  else PAGING_MEMORY_INVALID.

Definition leaf_pat_index (entry level : Z) : Z :=
  let pat_bit := if level =? 1 then PAGE_HUGE else PAGE_LARGE_PAT in
  let index := 0 in
  let index := if has entry PAGE_WRITE_THROUGH then Z.lor index 1 else index in
  let index := if has entry PAGE_CACHE_DISABLE then Z.lor index 2 else index in
  if has entry pat_bit then Z.lor index 4 else index.

Definition leaf_memory_type (entry level pat : Z) : paging_memory_type :=
  decode_pat_type (pat_entry pat (leaf_pat_index entry level)).

Definition table_index (virtual_address level : Z) : Z :=
  Z.land (Z.shiftr virtual_address (12 + 9 * (level - 1))) (PAGING_ENTRIES_PER_TABLE - 1).

Definition level_page_size (level : Z) : Z := Z.shiftl 1 (12 + 9 * (level - 1)).

Definition address_is_canonical (virtual_address : Z) : bool :=
  let high := Z.shiftr virtual_address 47 in (high =? 0) || (high =? 0x1FFFF).

Definition permissions_to_flags (permissions : Z) : Z :=
  let flags := PAGE_PRESENT in
  let flags := if has permissions PAGING_WRITE then Z.lor flags PAGE_WRITABLE else flags in
  let flags := if negb (has permissions PAGING_EXECUTE) then Z.lor flags PAGE_NO_EXECUTE
               else flags in
  let flags := if has permissions PAGING_UNCACHED then
                 Z.lor flags (Z.lor PAGE_CACHE_DISABLE PAGE_WRITE_THROUGH) else flags in
  if has permissions PAGING_WRITE_COMBINING then Z.lor flags PAGE_WRITE_THROUGH else flags.

(** What the memory type contributes to a permission word. *)
Definition type_permissions (permissions : Z) (memory_type : paging_memory_type) : Z :=
  match memory_type with
  | PAGING_MEMORY_UNCACHEABLE => Z.lor permissions PAGING_UNCACHED
  | PAGING_MEMORY_WRITE_COMBINING => Z.lor permissions PAGING_WRITE_COMBINING
  | _ => permissions
  end.

Definition flags_to_permissions (entry level pat : Z) : Z :=
  let permissions := PAGING_READ in
  let permissions := if has entry PAGE_WRITABLE then Z.lor permissions PAGING_WRITE
                     else permissions in
  let permissions := if negb (has entry PAGE_NO_EXECUTE) then
                       Z.lor permissions PAGING_EXECUTE else permissions in
  type_permissions permissions (leaf_memory_type entry level pat).

Definition validate_permissions (permissions : Z) : paging_status :=
  let known := Z.lor (Z.lor (Z.lor PAGING_WRITE PAGING_EXECUTE) PAGING_UNCACHED)
                 PAGING_WRITE_COMBINING in
  if negb (Z.land permissions (u32 (Z.lnot known)) =? 0) then PAGING_STATUS_BAD_PERMISSIONS
  else if has permissions PAGING_WRITE && has permissions PAGING_EXECUTE then
    PAGING_STATUS_WRITABLE_AND_EXECUTABLE
  else if has permissions PAGING_UNCACHED && has permissions PAGING_WRITE_COMBINING then
    PAGING_STATUS_CONFLICTING_MEMORY_TYPES
  else PAGING_STATUS_OK.

Definition validate_virtual_range (virtual_address length page_size : Z) : paging_status :=
  if length =? 0 then PAGING_STATUS_ZERO_LENGTH
  else if negb (Z.land virtual_address (page_size - 1) =? 0) ||
          negb (Z.land length (page_size - 1) =? 0) then PAGING_STATUS_UNALIGNED_ADDRESS
  else if negb (address_is_canonical virtual_address) then
    PAGING_STATUS_NONCANONICAL_ADDRESS
  else if length >? UINT64_MAX - virtual_address then PAGING_STATUS_RANGE_OVERFLOW
  else if negb (address_is_canonical (u64 (virtual_address + length - 1))) then
    PAGING_STATUS_NONCANONICAL_ADDRESS
  else PAGING_STATUS_OK.

Definition validate_physical_range (physical_address length page_size : Z)
  : paging_status :=
  if negb (Z.land physical_address (page_size - 1) =? 0) then
    PAGING_STATUS_UNALIGNED_ADDRESS
  else if length >? UINT64_MAX - physical_address then PAGING_STATUS_RANGE_OVERFLOW
  else if u64 (physical_address + length) >? PAGE_PHYSICAL_LIMIT then
    PAGING_STATUS_PHYSICAL_TOO_WIDE
  else PAGING_STATUS_OK.

(** * Hierarchies *)

Record page_hierarchy : Type := MkHierarchy {
  root : Z;
  arena_base : Z;
  arena_capacity : Z;
  arena_used : Z;
  table_frames : Z;
  live : bool
}.

Record paging_translation : Type := MkTranslation {
  physical_address : Z;
  permissions : Z;
  memory_type : paging_memory_type;
  level : Z;
  user : bool
}.

Record paging_audit : Type := MkAudit {
  leaf_count : Z;
  huge_leaves : Z;
  writable_leaves : Z;
  executable_leaves : Z;
  write_execute_leaves : Z;
  user_leaves : Z
}.

(** The calls into physical_memory.c. *)
Class TableFrames (F : Type) := {
  frame_allocate : F -> option Z * F;
  frame_release : Z -> F -> F
}.

(** A hierarchy, physical memory, the frame allocator and the pages the
    processor was told to forget. *)
Record space (F : Type) : Type := MkSpace {
  hier : page_hierarchy;
  words : gmap Z Z;
  frames : F;
  flushed : list Z
}.
Arguments MkSpace {F} _ _ _ _.
Arguments hier {F} _.
Arguments words {F} _.
Arguments frames {F} _.
Arguments flushed {F} _.

Definition set_used (h : page_hierarchy) (n : Z) : page_hierarchy :=
  MkHierarchy h.(root) h.(arena_base) h.(arena_capacity) n h.(table_frames) h.(live).
Definition set_table_frames (h : page_hierarchy) (n : Z) : page_hierarchy :=
  MkHierarchy h.(root) h.(arena_base) h.(arena_capacity) h.(arena_used) n h.(live).

Definition set_root (h : page_hierarchy) (r : Z) : page_hierarchy :=
  MkHierarchy r h.(arena_base) h.(arena_capacity) h.(arena_used) h.(table_frames) h.(live).
Definition set_live (h : page_hierarchy) (b : bool) : page_hierarchy :=
  MkHierarchy h.(root) h.(arena_base) h.(arena_capacity) h.(arena_used) h.(table_frames) b.

(** A hierarchy before it has a root: paging_initialize asks for no arena, the
    self-test's reset_test_hierarchy for one. *)
Definition reset_hierarchy (base capacity : Z) : page_hierarchy :=
  MkHierarchy 0 base capacity 0 0 false.

Section hierarchy.
Context {F : Type} `{TableFrames F}.

Definition set_hier (s : space F) (h : page_hierarchy) : space F :=
  MkSpace h s.(words) s.(frames) s.(flushed).
Definition set_frames (s : space F) (f : F) : space F :=
  MkSpace s.(hier) s.(words) f s.(flushed).

Definition load (s : space F) (address : Z) : Z := default 0 (s.(words) !! address).
Definition store (s : space F) (address value : Z) : space F :=
  MkSpace s.(hier) (<[address := value]> s.(words)) s.(frames) s.(flushed).

(** [&table_at(table)[index]] *)
Definition slot_at (table index : Z) : Z := table + 8 * index.

Definition zero_table (table : Z) (s : space F) : space F :=
  foldl (fun s index => store s (slot_at table index) 0) s
    (seqZ 0 PAGING_ENTRIES_PER_TABLE).

(** Where a table frame comes from: the arena, or the frame allocator. *)
Definition take_frame (s : space F) : option Z * space F :=
  let h := s.(hier) in
  if negb (h.(arena_capacity) =? 0) then
    if h.(arena_used) =? h.(arena_capacity) then (None, s)
    else (Some (u64 (h.(arena_base) + h.(arena_used) * PAGING_PAGE_SIZE)),
          set_hier s (set_used h (h.(arena_used) + 1)))
  else
    let '(frame, f) := frame_allocate s.(frames) in (frame, set_frames s f).

Definition allocate_table (s : space F) : paging_status * Z * space F :=
  match take_frame s with
  | (None, s) => (PAGING_STATUS_OUT_OF_FRAMES, 0, s)
  | (Some frame, s) =>
      if frame >=? SAPOTE_EARLY_PHYSICAL_LIMIT then (PAGING_STATUS_PHYSICAL_TOO_WIDE, 0, s)
      else
        let s := zero_table frame s in
        (PAGING_STATUS_OK, frame,
         set_hier s (set_table_frames s.(hier) (u64 (s.(hier).(table_frames) + 1))))
  end.

Definition invalidate (virtual_address : Z) (s : space F) : space F :=
  if s.(hier).(live) then
    MkSpace s.(hier) s.(words) s.(frames) (virtual_address :: s.(flushed))
  else s.

(** The walk of entry_for: [n] levels are left above the target; the answer is
    the address of the entry. *)
Fixpoint entry_walk (n : nat) (level table virtual_address : Z) (create : bool)
    (s : space F) : paging_status * Z * space F :=
  match n with
  | O => (PAGING_STATUS_OK, slot_at table (table_index virtual_address level), s)
  | S n =>
      let slot := slot_at table (table_index virtual_address level) in
      if negb (has (load s slot) PAGE_PRESENT) then
        if negb create then (PAGING_STATUS_NOT_MAPPED, 0, s)
        else
          let '(status, next, s) := allocate_table s in
          if negb (is_ok status) then (status, 0, s)
          else
            let s := store s slot (Z.lor (Z.lor next PAGE_PRESENT) PAGE_WRITABLE) in
            entry_walk n (level - 1) next virtual_address create s
      else if has (load s slot) PAGE_HUGE then (PAGING_STATUS_HUGE_PAGE_PRESENT, 0, s)
      else entry_walk n (level - 1) (Z.land (load s slot) PAGE_FRAME_MASK)
             virtual_address create s
  end.

Definition entry_for (virtual_address target_level : Z) (create : bool) (s : space F)
  : paging_status * Z * space F :=
  entry_walk (Z.to_nat (PAGING_LEVEL_COUNT - target_level)) PAGING_LEVEL_COUNT
    s.(hier).(root) virtual_address create s.

Definition table_is_empty (table : Z) (s : space F) : bool :=
  forallb (fun index => negb (has (load s (slot_at table index)) PAGE_PRESENT))
    (seqZ 0 PAGING_ENTRIES_PER_TABLE).

Definition release_table (physical : Z) (s : space F) : space F :=
  let s := if s.(hier).(arena_capacity) =? 0 then
             set_frames s (frame_release physical s.(frames)) else s in
  set_hier s (set_table_frames s.(hier) (u64 (s.(hier).(table_frames) - 1))).

(** The way down of reclaim_empty_tables: the tables of levels 1 to 4 on the
    path, lowest first, unless the path is cut short. *)
Fixpoint reclaim_path (n : nat) (level table virtual_address : Z) (s : space F)
    (above : list Z) : option (list Z) :=
  match n with
  | O => Some (table :: above)
  | S n =>
      let entry := load s (slot_at table (table_index virtual_address level)) in
      if negb (has entry PAGE_PRESENT) || has entry PAGE_HUGE then None
      else reclaim_path n (level - 1) (Z.land entry PAGE_FRAME_MASK) virtual_address s
             (table :: above)
  end.

(** The climb: [tables] are the tables from [level] up to the root. *)
Fixpoint reclaim_climb (level : Z) (tables : list Z) (virtual_address : Z) (s : space F)
  : space F :=
  match tables with
  | table :: ((parent :: _) as above) =>
      if negb (table_is_empty table s) then s
      else
        let s := store s (slot_at parent (table_index virtual_address (level + 1))) 0 in
        let s := release_table table s in
        reclaim_climb (level + 1) above virtual_address s
  | _ => s
  end.

Definition reclaim_empty_tables (virtual_address : Z) (s : space F) : space F :=
  match reclaim_path (Z.to_nat (PAGING_LEVEL_COUNT - 1)) PAGING_LEVEL_COUNT
          s.(hier).(root) virtual_address s [] with
  | None => s
  | Some tables => reclaim_climb 1 tables virtual_address s
  end.

(** The offsets of [for (offset = 0; offset < length; offset += page_size)]. *)
Definition offsets (length page_size : Z) : list Z :=
  (fun k => k * page_size) <$> seqZ 0 ((length + page_size - 1) / page_size).

Definition clear_page (virtual_address level : Z) (s : space F) (offset : Z) : space F :=
  let address := u64 (virtual_address + offset) in
  let '(status, entry, s) := entry_for address level false s in
  if negb (is_ok status) then s
  else
    let s := invalidate address (store s entry 0) in
    if level =? 1 then reclaim_empty_tables address s else s.

Definition clear_range (virtual_address length level : Z) (s : space F) : space F :=
  foldl (clear_page virtual_address level) s (offsets length (level_page_size level)).

(** The first pass of map_range: nothing may be mapped yet. *)
Definition check_unmapped (virtual_address length level : Z) (s : space F)
  : paging_status :=
  match
    for_each (fun offset (_ : unit) =>
        let '(status, entry, _) := entry_for (u64 (virtual_address + offset)) level false s in
        if is_ok status then
          if has (load s entry) PAGE_PRESENT then Return PAGING_STATUS_ALREADY_MAPPED
          else Next tt
        else if negb (bool_decide (status = PAGING_STATUS_NOT_MAPPED)) then Return status
        else Next tt)
      (offsets length (level_page_size level)) tt
  with
  | Return status => status
  | Next _ => PAGING_STATUS_OK
  end.

(** One page of the second pass. *)
Definition map_page (virtual_address physical permissions level : Z) (offset : Z)
    (s : space F) : ctl (space F) (paging_status * space F) :=
  let address := u64 (virtual_address + offset) in
  let '(status, entry, s) := entry_for address level true s in
  if negb (is_ok status) then
    Return (status, clear_range virtual_address offset level s)
  else
    let value := Z.lor (u64 (physical + offset)) (permissions_to_flags permissions) in
    let value := if level >? 1 then Z.lor value PAGE_HUGE else value in
    Next (invalidate address (store s entry value)).

Definition map_range (virtual_address physical length permissions level : Z) (s : space F)
  : paging_status * space F :=
  let page_size := level_page_size level in
  let status := validate_permissions permissions in
  if negb (is_ok status) then (status, s)
  else
  let status := validate_virtual_range virtual_address length page_size in
  if negb (is_ok status) then (status, s)
  else
  let status := validate_physical_range physical length page_size in
  if negb (is_ok status) then (status, s)
  else
  let status := check_unmapped virtual_address length level s in
  if negb (is_ok status) then (status, s)
  else
    match for_each (map_page virtual_address physical permissions level)
            (offsets length page_size) s with
    | Return r => r
    | Next s => (PAGING_STATUS_OK, s)
    end.

Definition require_mapped_range (virtual_address length : Z) (s : space F)
  : paging_status :=
  match
    for_each (fun offset (_ : unit) =>
        let '(status, entry, _) := entry_for (u64 (virtual_address + offset)) 1 false s in
        if negb (is_ok status) then Return status
        else if negb (has (load s entry) PAGE_PRESENT) then Return PAGING_STATUS_NOT_MAPPED
        else Next tt)
      (offsets length PAGING_PAGE_SIZE) tt
  with
  | Return status => status
  | Next _ => PAGING_STATUS_OK
  end.

Definition unmap_range (virtual_address length : Z) (s : space F)
  : paging_status * space F :=
  let status := validate_virtual_range virtual_address length PAGING_PAGE_SIZE in
  if negb (is_ok status) then (status, s)
  else
  let status := require_mapped_range virtual_address length s in
  if negb (is_ok status) then (status, s)
  else (PAGING_STATUS_OK, clear_range virtual_address length 1 s).

Definition apply_page (virtual_address flags : Z) (s : space F) (offset : Z) : space F :=
  let address := u64 (virtual_address + offset) in
  let '(status, entry, s) := entry_for address 1 false s in
  if negb (is_ok status) then s
  else invalidate address
         (store s entry (Z.lor (Z.land (load s entry) PAGE_FRAME_MASK) flags)).

Definition apply_permissions (virtual_address length permissions : Z) (s : space F)
  : space F :=
  foldl (apply_page virtual_address (permissions_to_flags permissions)) s
    (offsets length PAGING_PAGE_SIZE).

(** The memory-type pass of protect_range. *)
Definition check_types (virtual_address length pat : Z)
    (requested_type : paging_memory_type) (s : space F) : paging_status :=
  match
    for_each (fun offset (_ : unit) =>
        let '(status, entry, _) := entry_for (u64 (virtual_address + offset)) 1 false s in
        if negb (is_ok status) then Return status
        else if negb (bool_decide (leaf_memory_type (load s entry) 1 pat = requested_type))
        then Return PAGING_STATUS_MEMORY_TYPE_CHANGE_UNSAFE
        else Next tt)
      (offsets length PAGING_PAGE_SIZE) tt
  with
  | Return status => status
  | Next _ => PAGING_STATUS_OK
  end.

Definition protect_range (virtual_address length permissions pat : Z) (s : space F)
  : paging_status * space F :=
  let status := validate_permissions permissions in
  if negb (is_ok status) then (status, s)
  else
  let requested_type := leaf_memory_type (permissions_to_flags permissions) 1 pat in
  let status := validate_virtual_range virtual_address length PAGING_PAGE_SIZE in
  if negb (is_ok status) then (status, s)
  else
  let status := require_mapped_range virtual_address length s in
  if negb (is_ok status) then (status, s)
  else
  let status := check_types virtual_address length pat requested_type s in
  if negb (is_ok status) then (status, s)
  else (PAGING_STATUS_OK, apply_permissions virtual_address length permissions s).

Definition fill_translation (entry virtual_address level : Z)
    (writable executable user : bool) (pat : Z) : paging_translation :=
  let page_size := level_page_size level in
  let memory_type := leaf_memory_type entry level pat in
  let permissions := PAGING_READ in
  let permissions := if writable then Z.lor permissions PAGING_WRITE else permissions in
  let permissions := if executable then Z.lor permissions PAGING_EXECUTE else permissions in
  let permissions := type_permissions permissions memory_type in
  MkTranslation
    (Z.lor (Z.land (Z.land entry PAGE_FRAME_MASK) (not64 (page_size - 1)))
       (Z.land virtual_address (page_size - 1)))
    permissions memory_type level user.

Definition no_translation : paging_translation :=
  MkTranslation 0 PAGING_READ PAGING_MEMORY_INVALID 0 false.

Fixpoint translate_walk (n : nat) (level table virtual_address : Z)
    (writable executable user : bool) (pat : Z) (s : space F)
  : paging_status * paging_translation :=
  let entry := load s (slot_at table (table_index virtual_address level)) in
  if negb (has entry PAGE_PRESENT) then (PAGING_STATUS_NOT_MAPPED, no_translation)
  else
    let writable := writable && has entry PAGE_WRITABLE in
    let executable := executable && negb (has entry PAGE_NO_EXECUTE) in
    let user := user && has entry PAGE_USER in
    let found := (PAGING_STATUS_OK,
      fill_translation entry virtual_address level writable executable user pat) in
    match n with
    | O => found
    | S n =>
        if has entry PAGE_HUGE then found
        else translate_walk n (level - 1) (Z.land entry PAGE_FRAME_MASK) virtual_address
               writable executable user pat s
    end.

Definition translate_address (virtual_address pat : Z) (s : space F)
  : paging_status * paging_translation :=
  if negb (address_is_canonical virtual_address) then
    (PAGING_STATUS_NONCANONICAL_ADDRESS, no_translation)
  else translate_walk (Z.to_nat (PAGING_LEVEL_COUNT - 1)) PAGING_LEVEL_COUNT s.(hier).(root)
         virtual_address true true true pat s.

(** One leaf of the audit. *)
Definition audit_leaf (level : Z) (writable executable user : bool) (a : paging_audit)
  : paging_audit :=
  let bump (b : bool) (n : Z) := if b then n + 1 else n in
  MkAudit (a.(leaf_count) + 1) (bump (level >? 1) a.(huge_leaves))
    (bump writable a.(writable_leaves)) (bump executable a.(executable_leaves))
    (bump (writable && executable) a.(write_execute_leaves))
    (bump user a.(user_leaves)).

Fixpoint audit_table (n : nat) (table : Z) (writable executable user : bool)
    (s : space F) (a : paging_audit) : paging_audit :=
  foldl (fun a index =>
      let entry := load s (slot_at table index) in
      if negb (has entry PAGE_PRESENT) then a
      else
        let leaf_writable := writable && has entry PAGE_WRITABLE in
        let leaf_executable := executable && negb (has entry PAGE_NO_EXECUTE) in
        let leaf_user := user && has entry PAGE_USER in
        match n with
        | S n =>
            if negb (has entry PAGE_HUGE) then
              audit_table n (Z.land entry PAGE_FRAME_MASK) leaf_writable leaf_executable
                leaf_user s a
            else audit_leaf (Z.of_nat n + 2) leaf_writable leaf_executable leaf_user a
        | O => audit_leaf 1 leaf_writable leaf_executable leaf_user a
        end)
    a (seqZ 0 PAGING_ENTRIES_PER_TABLE).

(** The start of a hierarchy: its root table. *)
Definition create_hierarchy (base capacity : Z) (s : space F) : paging_status * space F :=
  let s := set_hier s (reset_hierarchy base capacity) in
  let '(status, root, s) := allocate_table s in
  if negb (is_ok status) then (status, s)
  else (PAGING_STATUS_OK, set_hier s (set_root s.(hier) root)).

(** The hierarchy the processor walks: invlpg from here on. *)
Definition activate (s : space F) : space F := set_hier s (set_live s.(hier) true).

Definition audit_hierarchy (s : space F) : paging_audit :=
  audit_table 3 s.(hier).(root) true true true s (MkAudit 0 0 0 0 0 0).
End hierarchy.

(** * Bits and indices *)

Lemma has_bit x k : 0 <= k -> has x (Z.shiftl 1 k) = Z.testbit x k.
Proof.
  intros Hk. unfold has.
  assert (Z.land x (Z.shiftl 1 k) = if Z.testbit x k then 2 ^ k else 0) as ->.
  { rewrite Z.shiftl_1_l. apply Z.bits_inj'. intros n Hn.
    rewrite Z.land_spec, Z.pow2_bits_eqb by done.
    destruct (Z.eqb_spec k n) as [->|Hne].
    - destruct (Z.testbit x n); [by rewrite Z.pow2_bits_true|by rewrite Z.bits_0].
    - rewrite andb_false_r. destruct (Z.testbit x k);
        [by rewrite Z.pow2_bits_false|by rewrite Z.bits_0]. }
  destruct (Z.testbit x k); [|done].
  pose proof (Z.pow_pos_nonneg 2 k ltac:(lia) Hk).
  destruct (2 ^ k =? 0) eqn:E; bool_hyps; [lia|done].
Qed.

Lemma has_lor x y k : 0 <= k ->
  has (Z.lor x y) (Z.shiftl 1 k) = has x (Z.shiftl 1 k) || has y (Z.shiftl 1 k).
Proof. intros Hk. rewrite !has_bit by done. apply Z.lor_spec. Qed.

(** A word that names a page: aligned, below the physical limit. *)
Definition is_frame (t : Z) : Prop := t mod 4096 = 0 /\ 0 <= t < 2 ^ 52.

Lemma frame_mask_bits n : 0 <= n ->
  Z.testbit PAGE_FRAME_MASK n = (12 <=? n) && (n <? 52).
Proof.
  intros Hn. replace PAGE_FRAME_MASK with (Z.shiftl (Z.ones 40) 12) by reflexivity.
  destruct (Z.leb_spec 12 n).
  - rewrite Z.shiftl_spec by lia. cbn [andb].
    destruct (Z.ltb_spec n 52); [apply Z.ones_spec_low|apply Z.ones_spec_high]; lia.
  - by rewrite Z.shiftl_spec_low.
Qed.

Lemma is_frame_bits t n :
  is_frame t -> 0 <= n -> (n < 12 \/ 52 <= n) -> Z.testbit t n = false.
Proof.
  intros [Ha [H0 Hlt]] Hn [Hlow|Hhigh].
  - rewrite <- (Z.mod_pow2_bits_low t 12 n) by lia. change (2 ^ 12) with 4096.
    by rewrite Ha, Z.bits_0.
  - destruct (decide (t = 0)) as [->|]; [apply Z.bits_0|].
    apply Z.bits_above_log2; [done|]. apply Z.log2_lt_pow2; [lia|].
    eapply Z.lt_le_trans; [exact Hlt|]. by apply Z.pow_le_mono_r.
Qed.

(** Composing a frame with flag bits keeps both readable. *)
Lemma frame_of_lor t f :
  is_frame t -> Z.land f PAGE_FRAME_MASK = 0 ->
  Z.land (Z.lor t f) PAGE_FRAME_MASK = t.
Proof.
  intros Ht Hf. rewrite Z.land_lor_distr_l, Hf, Z.lor_0_r.
  apply Z.bits_inj'. intros n Hn. rewrite Z.land_spec, frame_mask_bits by done.
  destruct (Z.leb_spec 12 n), (Z.ltb_spec n 52); cbn;
    rewrite ?andb_true_r, ?andb_false_r; try done;
    symmetry; apply is_frame_bits; done || lia.
Qed.

Lemma has_frame_lor t f k :
  is_frame t -> 0 <= k -> (k < 12 \/ 52 <= k) ->
  has (Z.lor t f) (Z.shiftl 1 k) = has f (Z.shiftl 1 k).
Proof.
  intros Ht Hk Hr. rewrite has_lor by done.
  rewrite (has_bit t k) by done. by rewrite is_frame_bits.
Qed.

Lemma frame_of_land x : 0 <= x -> is_frame (Z.land x PAGE_FRAME_MASK).
Proof.
  intros Hx. split.
  - apply Z.bits_inj'. intros n Hn. rewrite Z.bits_0. change 4096 with (2 ^ 12).
    destruct (Z.ltb_spec n 12).
    + rewrite Z.mod_pow2_bits_low, Z.land_spec, frame_mask_bits by done.
      destruct (Z.leb_spec 12 n); [lia|]. by rewrite andb_false_r.
    + by rewrite Z.mod_pow2_bits_high by lia.
  - split; [apply Z.land_nonneg; by left|].
    apply Z.log2_lt_cancel. rewrite Z.log2_pow2 by lia.
    assert (Z.log2 PAGE_FRAME_MASK = 51) as Hm by reflexivity.
    pose proof (Z.log2_land x PAGE_FRAME_MASK Hx ltac:(done)). lia.
Qed.

Lemma index_spec va l :
  1 <= l <= 4 -> table_index va l = va / 2 ^ (12 + 9 * (l - 1)) mod 512.
Proof.
  intros Hl. unfold table_index, PAGING_ENTRIES_PER_TABLE.
  change (512 - 1) with (Z.ones 9). rewrite Z.land_ones by lia.
  by rewrite Z.shiftr_div_pow2 by lia.
Qed.

Lemma index_range va l : 1 <= l <= 4 -> 0 <= table_index va l < 512.
Proof. intros Hl. rewrite index_spec by done. by apply Z.mod_pos_bound. Qed.

(** The bits of an address above those a table of level [l] covers. *)
Definition vpre (va l : Z) : Z := va mod 2 ^ 48 / 2 ^ (12 + 9 * l).

Lemma vpre_top va : vpre va 4 = 0.
Proof. unfold vpre. apply Z.div_small. apply Z.mod_pos_bound. done. Qed.

Lemma vpre_step va l :
  1 <= l <= 4 -> vpre va (l - 1) = vpre va l * 512 + table_index va l.
Proof.
  intros Hl. rewrite index_spec by done. unfold vpre.
  set (a := va mod 2 ^ 48). set (k := 12 + 9 * (l - 1)).
  assert (va / 2 ^ k mod 512 = a / 2 ^ k mod 512) as ->.
  { subst a. rewrite (Z.div_mod va (2 ^ 48)) at 1 by done.
    assert (2 ^ 48 = 2 ^ (48 - k - 9) * 512 * 2 ^ k) as Hp.
    { change 512 with (2 ^ 9). rewrite <- !Z.pow_add_r by lia. f_equal. lia. }
    rewrite Hp at 1.
    replace (2 ^ (48 - k - 9) * 512 * 2 ^ k * (va / 2 ^ 48) + va mod 2 ^ 48) with
      (2 ^ (48 - k - 9) * 512 * (va / 2 ^ 48) * 2 ^ k + va mod 2 ^ 48) by ring.
    rewrite Z.div_add_l by (apply Z.pow_nonzero; lia).
    replace (2 ^ (48 - k - 9) * 512 * (va / 2 ^ 48) + va mod 2 ^ 48 / 2 ^ k) with
      (va mod 2 ^ 48 / 2 ^ k + 2 ^ (48 - k - 9) * (va / 2 ^ 48) * 512) by ring.
    by rewrite Z.mod_add. }
  replace (12 + 9 * l) with (k + 9) by lia. rewrite Z.pow_add_r by lia.
  rewrite <- Z.div_div by (try apply Z.pow_pos_nonneg; lia).
  change (2 ^ 9) with 512. rewrite Z.mul_comm. by apply Z.div_mod.
Qed.

(** Two addresses with the same page number agree at every level. *)
Lemma vpre_agree va va' l l' :
  0 <= l <= l' -> vpre va l = vpre va' l -> vpre va l' = vpre va' l'.
Proof.
  intros Hl E. unfold vpre in *.
  replace (12 + 9 * l') with (12 + 9 * l + 9 * (l' - l)) by lia.
  rewrite Z.pow_add_r by lia. rewrite <- !Z.div_div by (try apply Z.pow_pos_nonneg; lia).
  by rewrite E.
Qed.

Lemma index_agree va va' l l' :
  0 <= l < l' -> l' <= 4 -> vpre va l = vpre va' l -> table_index va l' = table_index va' l'.
Proof.
  intros Hl Hl' E.
  pose proof (vpre_step va l' ltac:(lia)) as E1. pose proof (vpre_step va' l' ltac:(lia)) as E2.
  rewrite (vpre_agree va va' l (l' - 1) ltac:(lia) E) in E1.
  rewrite (vpre_agree va va' l l' ltac:(lia) E) in E1. lia.
Qed.

Lemma slot_at_inj t t' i j :
  is_frame t -> is_frame t' -> 0 <= i < 512 -> 0 <= j < 512 ->
  slot_at t i = slot_at t' j -> t = t' /\ i = j.
Proof.
  intros [Ht _] [Ht' _] Hi Hj. unfold slot_at.
  pose proof (Z.div_mod t 4096 ltac:(lia)). pose proof (Z.div_mod t' 4096 ltac:(lia)). lia.
Qed.

(** * What a hierarchy means *)

Lemma bool_decide_ext_if {A} (P Q : Prop) `{Decision P} `{Decision Q} (x y : A) :
  (P <-> Q) ->
  (if bool_decide P then x else y) = (if bool_decide Q then x else y).
Proof. intros E. by rewrite (bool_decide_ext P Q E). Qed.

Section meaning.
Context {F : Type}.

(** The entry a walk of [n + 1] levels from [table] ends at, with its level. *)
Fixpoint walk (n : nat) (level table va : Z) (s : space F) : option (Z * Z) :=
  let entry := load s (slot_at table (table_index va level)) in
  if negb (has entry PAGE_PRESENT) then None
  else
    match n with
    | O => Some (level, entry)
    | S n =>
        if has entry PAGE_HUGE then Some (level, entry)
        else walk n (level - 1) (Z.land entry PAGE_FRAME_MASK) va s
    end.

Definition leaf (s : space F) (va : Z) : option (Z * Z) := walk 3 4 s.(hier).(root) va s.

(** The interior entry that links a table. *)
Definition interior (t : Z) : Z := Z.lor (Z.lor t PAGE_PRESENT) PAGE_WRITABLE.

Lemma interior_spec t :
  is_frame t ->
  has (interior t) PAGE_PRESENT = true /\ has (interior t) PAGE_HUGE = false /\
  has (interior t) PAGE_WRITABLE = true /\ has (interior t) PAGE_NO_EXECUTE = false /\
  has (interior t) PAGE_USER = false /\ Z.land (interior t) PAGE_FRAME_MASK = t.
Proof.
  intros Ht. unfold interior. rewrite <- Z.lor_assoc.
  unfold PAGE_PRESENT, PAGE_HUGE, PAGE_WRITABLE, PAGE_NO_EXECUTE, PAGE_USER.
  rewrite !(has_frame_lor t) by (done || lia). split_and!; try reflexivity.
  by apply frame_of_lor.
Qed.

(** The tables of a hierarchy form a tree: [T] gives the level of each table
    and the address prefix it covers. *)
Record tree (T : gmap Z (Z * Z)) (s : space F) : Prop := {
  tr_root : T !! s.(hier).(root) = Some (4, 0);
  tr_table : forall t l pre, T !! t = Some (l, pre) -> is_frame t /\ 1 <= l <= 4;
  tr_inj : forall t t' x, T !! t = Some x -> T !! t' = Some x -> t = t';
  tr_child : forall t l pre i, T !! t = Some (l, pre) -> 1 < l -> 0 <= i < 512 ->
    has (load s (slot_at t i)) PAGE_PRESENT = true ->
    has (load s (slot_at t i)) PAGE_HUGE = false ->
    exists c, load s (slot_at t i) = interior c /\ T !! c = Some (l - 1, pre * 512 + i);
  tr_parent : forall t l pre, T !! t = Some (l, pre) -> l < 4 ->
    exists p, T !! p = Some (l + 1, pre / 512) /\
      load s (slot_at p (pre mod 512)) = interior t;
  tr_word : forall t l pre i, T !! t = Some (l, pre) -> 0 <= i < 512 ->
    0 <= load s (slot_at t i);
  tr_top : forall t pre, T !! t = Some (4, pre) -> pre = 0
}.

Lemma tr_frame T s t x : tree T s -> T !! t = Some x -> is_frame t.
Proof. destruct x as [l pre]. intros Ht Hl. by destruct (tr_table _ _ Ht t l pre Hl). Qed.

Lemma tr_range T s t l pre : tree T s -> T !! t = Some (l, pre) -> 1 <= l <= 4.
Proof. intros Ht Hl. by destruct (tr_table _ _ Ht t l pre Hl). Qed.

Lemma tree_child_frame T s t l pre i :
  tree T s -> T !! t = Some (l, pre) -> 1 < l -> 0 <= i < 512 ->
  has (load s (slot_at t i)) PAGE_PRESENT = true ->
  has (load s (slot_at t i)) PAGE_HUGE = false ->
  T !! Z.land (load s (slot_at t i)) PAGE_FRAME_MASK = Some (l - 1, pre * 512 + i).
Proof.
  intros Ht Hl H1 Hi Hp Hh. destruct (tr_child _ _ Ht t l pre i) as (c & E & Hc); try done.
  rewrite E. destruct (interior_spec c) as (_ & _ & _ & _ & _ & ->); [|done].
  by eapply tr_frame.
Qed.

Lemma vpre_split va l : 0 <= l < 4 ->
  vpre va l / 512 = vpre va (l + 1) /\ vpre va l mod 512 = table_index va (l + 1).
Proof.
  intros Hl. pose proof (vpre_step va (l + 1) ltac:(lia)) as E.
  replace (l + 1 - 1) with l in E by lia. rewrite E.
  pose proof (index_range va (l + 1) ltac:(lia)). split.
  - rewrite Z.div_add_l by lia. rewrite Z.div_small by lia. lia.
  - rewrite Z.add_comm, Z.mod_add by lia. by apply Z.mod_small.
Qed.

(** A table covers exactly the addresses with its prefix: the walk of such an
    address goes through it. *)
Lemma walk_reach T s va t l :
  tree T s -> T !! t = Some (l, vpre va l) ->
  leaf s va = walk (Z.to_nat (l - 1)) l t va s.
Proof.
  intros Ht Hl. pose proof (tr_table _ _ Ht _ _ _ Hl) as [_ Hr].
  assert (forall k : nat, forall t l, T !! t = Some (l, vpre va l) -> l = 4 - Z.of_nat k ->
    1 <= l -> leaf s va = walk (Z.to_nat (l - 1)) l t va s) as Hk.
  { clear t l Hl Hr. induction k as [|k IH]; intros t l Hl E Hr.
    - assert (l = 4) as -> by lia. rewrite vpre_top in Hl.
      rewrite <- (tr_inj _ _ Ht _ _ _ (tr_root _ _ Ht) Hl). done.
    - destruct (tr_parent _ _ Ht t l (vpre va l) Hl ltac:(lia)) as (p & Hp & Hload).
      destruct (vpre_split va l ltac:(lia)) as [E1 E2]. rewrite E1 in Hp. rewrite E2 in Hload.
      rewrite (IH p (l + 1) Hp ltac:(lia) ltac:(lia)).
      replace (Z.to_nat (l + 1 - 1)) with (S (Z.to_nat (l - 1))) by lia. cbn [walk].
      rewrite Hload. destruct (interior_spec t) as (-> & -> & _ & _ & _ & ->);
        [by eapply tr_frame|]. cbn [negb].
      by replace (l + 1 - 1) with l by lia. }
  apply (Hk (Z.to_nat (4 - l)) t l Hl); lia.
Qed.

(** Memory that agrees on the tables of the tree gives the same walks. *)
Lemma walk_ext T s s' va n l t :
  tree T s -> T !! t = Some (l, vpre va l) -> l = Z.of_nat n + 1 ->
  (forall t l, T !! t = Some (l, vpre va l) ->
     load s' (slot_at t (table_index va l)) = load s (slot_at t (table_index va l))) ->
  walk n l t va s' = walk n l t va s.
Proof.
  intros Ht. revert t l. induction n as [|n IH]; intros t l Hl En Hsame; cbn [walk];
    rewrite Hsame by done; [done|].
  destruct (has (load s _) PAGE_PRESENT) eqn:Ep; [|done]. cbn [negb].
  destruct (has (load s _) PAGE_HUGE) eqn:Eh; [done|].
  apply IH; [|lia|done].
  pose proof (tr_table _ _ Ht _ _ _ Hl) as [_ Hr].
  rewrite (vpre_step va l Hr). apply tree_child_frame; try done; [lia|by apply index_range].
Qed.

Lemma load_store (s : space F) a v b : load (store s a v) b = if a =? b then v else load s b.
Proof.
  unfold load, store. cbn. destruct (Z.eqb_spec a b) as [->|Hne].
  - by rewrite lookup_insert_eq.
  - by rewrite lookup_insert_ne.
Qed.

(** Storing into a slot of the tree. *)
Lemma load_slot_other T s t l pre i v t' l' pre' j :
  tree T s -> T !! t = Some (l, pre) -> 0 <= i < 512 ->
  T !! t' = Some (l', pre') -> 0 <= j < 512 ->
  load (store s (slot_at t i) v) (slot_at t' j) =
    if bool_decide (t = t' /\ i = j) then v else load s (slot_at t' j).
Proof.
  intros Ht Hl Hi Hl' Hj. rewrite load_store.
  destruct (Z.eqb_spec (slot_at t i) (slot_at t' j)) as [E|Hne].
  - apply slot_at_inj in E; try done; [|by eapply tr_frame..].
    by rewrite bool_decide_true.
  - rewrite bool_decide_false; [done|]. by intros [-> ->].
Qed.

(** An address outside the range an entry covers does not see it change. *)
Lemma leaf_store_other T s t l pre i v va :
  tree T s -> T !! t = Some (l, pre) -> 0 <= i < 512 ->
  ~ (vpre va l = pre /\ table_index va l = i) ->
  leaf (store s (slot_at t i) v) va = leaf s va.
Proof.
  intros Ht Hl Hi Hout. apply (walk_ext T); try done.
  - cbn. rewrite vpre_top. apply (tr_root _ _ Ht).
  - intros t' l' Hl'. pose proof (tr_range _ _ _ _ _ Ht Hl') as Hr.
    rewrite (load_slot_other T s t l pre i v t' l' (vpre va l')); try done;
      [|by apply index_range].
    rewrite bool_decide_false; [done|]. intros [<- E]. apply Hout.
    rewrite Hl in Hl'. by injection Hl' as <- ->.
Qed.

(** An entry that does not link a table: absent, a large leaf, or of level 1. *)
Definition no_link (l e : Z) : Prop :=
  l = 1 \/ has e PAGE_PRESENT = false \/ has e PAGE_HUGE = true.

(** A link does not satisfy it. *)
Lemma no_link_interior l c : is_frame c -> no_link l (interior c) -> l = 1.
Proof.
  intros Hc [?|[E|E]]; [done|..]; destruct (interior_spec c Hc) as (E1 & E2 & _); congruence.
Qed.

(** Replacing an entry that links nothing by another keeps the tree. *)
Lemma tree_store T s t l pre i v :
  tree T s -> T !! t = Some (l, pre) -> 0 <= i < 512 -> 0 <= v ->
  no_link l v -> no_link l (load s (slot_at t i)) -> tree T (store s (slot_at t i) v).
Proof.
  intros Ht Hl Hi Hv Hn Ho. pose proof Ht as [Hroot Htab Hinj Hch Hpar Hw Htop]. split; try done.
  - intros t' l' pre' j Hl' H1 Hj. rewrite (load_slot_other T s t l pre i v t' l' pre'); try done.
    case_bool_decide as E; [|by apply Hch]. destruct E as [<- <-].
    rewrite Hl in Hl'. injection Hl' as <- <-. intros Hp Hh.
    destruct Hn as [?|[?|?]]; [lia|congruence..].
  - intros t' l' pre' Hl' H4. destruct (Hpar t' l' pre' Hl' H4) as (p & Hp & Hload).
    exists p. split; [done|]. pose proof (Z.mod_pos_bound pre' 512 ltac:(lia)) as Hm.
    rewrite (load_slot_other T s t l pre i v p (l' + 1) (pre' / 512)); try done.
    case_bool_decide as E; [|done]. destruct E as [<- ->]. rewrite Hload in Ho.
    apply no_link_interior in Ho; [|by eapply tr_frame].
    rewrite Hl in Hp. injection Hp as -> _. destruct (Htab _ _ _ Hl') as [_ ?]. lia.
  - intros t' l' pre' j Hl' Hj. rewrite (load_slot_other T s t l pre i v t' l' pre'); try done.
    case_bool_decide; [done|]. by eapply Hw.
Qed.

(** An address the entry covers sees the new entry. *)
Lemma leaf_store_here T s t l va v :
  tree T s -> T !! t = Some (l, vpre va l) -> 0 <= v ->
  no_link l v -> no_link l (load s (slot_at t (table_index va l))) ->
  leaf (store s (slot_at t (table_index va l)) v) va =
    if has v PAGE_PRESENT then Some (l, v) else None.
Proof.
  intros Ht Hl Hv Hn Ho. pose proof (tr_range _ _ _ _ _ Ht Hl) as Hr.
  pose proof (index_range va l Hr) as Hi.
  pose proof (tree_store T s t l _ _ v Ht Hl Hi Hv Hn Ho) as Ht'.
  rewrite (walk_reach T _ va t l Ht' Hl).
  assert (load (store s (slot_at t (table_index va l)) v) (slot_at t (table_index va l)) = v)
    as E by (by rewrite load_store, Z.eqb_refl).
  destruct (Z.to_nat (l - 1)) as [|n] eqn:En; cbn [walk]; rewrite E;
    destruct (has v PAGE_PRESENT) eqn:Ep; cbn [negb]; try done.
  destruct Hn as [?|[?|Eh]]; [lia|congruence|by rewrite Eh].
Qed.
End meaning.

(** * Where tables come from *)

(** The frame allocator hands out frames nobody holds, and takes back frames
    that are held. *)
Class TableFramesLaws (F : Type) `{TableFrames F} := {
  frames_ok : F -> Prop;
  held : F -> Z -> Prop;
  law_allocate f : frames_ok f ->
    match frame_allocate f with
    | (None, f') => frames_ok f' /\ forall q, held f' q <-> held f q
    | (Some p, f') => frames_ok f' /\ is_frame p /\ ~ held f p /\
        forall q, held f' q <-> held f q \/ q = p
    end;
  law_release f p : frames_ok f -> held f p ->
    frames_ok (frame_release p f) /\
    forall q, held (frame_release p f) q <-> held f q /\ q <> p
}.

Section supply.
Context {F : Type} `{TableFramesLaws F}.

(** The tables were all handed out by the hierarchy's supply. *)
Definition supply (T : gmap Z (Z * Z)) (s : space F) : Prop :=
  let h := s.(hier) in
  if h.(arena_capacity) =? 0 then
    frames_ok s.(frames) /\ forall t x, T !! t = Some x -> held s.(frames) t
  else
    is_frame h.(arena_base) /\ 0 <= h.(arena_used) <= h.(arena_capacity) /\
    h.(arena_base) + h.(arena_capacity) * 4096 <= 2 ^ 52 /\
    forall t x, T !! t = Some x ->
      exists i, 0 <= i < h.(arena_used) /\ t = h.(arena_base) + i * 4096.

(** What holds of a hierarchy between operations. *)
Record ok (T : gmap Z (Z * Z)) (s : space F) : Prop := {
  ok_tree : tree T s;
  ok_supply : supply T s;
  ok_count : s.(hier).(table_frames) = u64 (Z.of_nat (size T))
}.

(** From [s] to [s'] the supply lost or kept nothing but tables: the frames it
    holds beside the tables are the same, and a hierarchy with an arena leaves
    the frame allocator alone. *)
Definition same_rest (T T' : gmap Z (Z * Z)) (s s' : space F) : Prop :=
  s'.(hier).(arena_capacity) = s.(hier).(arena_capacity) /\
  if s.(hier).(arena_capacity) =? 0 then
    forall q, held s'.(frames) q /\ T' !! q = None <-> held s.(frames) q /\ T !! q = None
  else s'.(frames) = s.(frames).

Lemma same_rest_refl T s s' :
  s'.(hier).(arena_capacity) = s.(hier).(arena_capacity) -> s'.(frames) = s.(frames) ->
  same_rest T T s s'.
Proof. intros E1 E2. split; [done|]. rewrite E2. by destruct (_ =? 0). Qed.

Lemma same_rest_trans T1 T2 T3 s1 s2 s3 :
  same_rest T1 T2 s1 s2 -> same_rest T2 T3 s2 s3 -> same_rest T1 T3 s1 s3.
Proof.
  intros [A1 A2] [B1 B2]. split; [congruence|]. rewrite A1 in B2.
  destruct (_ =? 0); [|congruence]. intros q. by rewrite B2.
Qed.

(** With the same tables the supply holds the same frames. *)
Lemma same_rest_held T s s' :
  ok T s -> ok T s' -> same_rest T T s s' ->
  if s.(hier).(arena_capacity) =? 0
  then forall q, held s'.(frames) q <-> held s.(frames) q
  else s'.(frames) = s.(frames).
Proof.
  intros [_ Hs _] [_ Hs' _] [E Hr]. unfold supply in *. rewrite E in Hs'.
  destruct (_ =? 0); [|done]. intros q. destruct (T !! q) as [x|] eqn:Eq.
  - split; intros _; [by eapply Hs|by eapply Hs'].
  - specialize (Hr q). naive_solver.
Qed.

Lemma zero_table_spec t (s : space F) :
  is_frame t ->
  (zero_table t s).(hier) = s.(hier) /\ (zero_table t s).(frames) = s.(frames) /\
  (zero_table t s).(flushed) = s.(flushed) /\
  (forall i, 0 <= i < 512 -> load (zero_table t s) (slot_at t i) = 0) /\
  (forall t' i, is_frame t' -> t' <> t -> 0 <= i < 512 ->
     load (zero_table t s) (slot_at t' i) = load s (slot_at t' i)).
Proof.
  intros Ht. unfold zero_table, PAGING_ENTRIES_PER_TABLE.
  assert (forall n, 0 <= n -> n <= 512 ->
    let s' := foldl (fun s index => store s (slot_at t index) 0) s (seqZ 0 n) in
    s'.(hier) = s.(hier) /\ s'.(frames) = s.(frames) /\ s'.(flushed) = s.(flushed) /\
    (forall i, 0 <= i < n -> load s' (slot_at t i) = 0) /\
    (forall t' i, is_frame t' -> t' <> t -> 0 <= i < 512 ->
       load s' (slot_at t' i) = load s (slot_at t' i))) as Hn; [|by apply Hn].
  intros n Hn. pattern n. apply natlike_ind; [| |done]; clear n Hn.
  - intros _. cbn. split_and!; try done. lia.
  - intros n Hn IH Hle. specialize (IH ltac:(lia)). cbv zeta in *. rewrite <- Z.add_1_r.
    assert (seqZ 0 (n + 1) = seqZ 0 n ++ [n]) as -> by (by rewrite seqZ_app by lia).
    rewrite foldl_app. cbn [foldl].
    destruct IH as (E1 & E2 & E3 & Hz & Ho). split_and!; try done.
    + intros i Hi. rewrite load_store.
      destruct (Z.eqb_spec (slot_at t n) (slot_at t i)) as [E|E]; [done|].
      apply Hz. destruct (decide (i = n)) as [->|]; [done|lia].
    + intros t' i Ht' Hne Hi. rewrite load_store.
      destruct (Z.eqb_spec (slot_at t n) (slot_at t' i)) as [E|E]; [|by apply Ho].
      apply slot_at_inj in E; [|done..|lia|done]. by destruct E as [-> _].
Qed.

(** Taking a frame from the supply. *)
Lemma take_frame_spec T s :
  supply T s ->
  let '(frame, s') := take_frame s in
  s'.(words) = s.(words) /\ s'.(flushed) = s.(flushed) /\
  s'.(hier).(root) = s.(hier).(root) /\ s'.(hier).(live) = s.(hier).(live) /\
  s'.(hier).(table_frames) = s.(hier).(table_frames) /\
  supply T s' /\
  match frame with
  | None => True
  | Some p => is_frame p /\ T !! p = None /\
      (forall x, supply (<[p := x]> T) s') /\
      forall x, same_rest T (<[p := x]> T) s s'
  end.
Proof.
  intros Hs. unfold take_frame, supply in *.
  destruct (arena_capacity (hier s) =? 0) eqn:Ec; cbn [negb].
  - destruct Hs as [Hok Hheld]. pose proof (law_allocate (frames s) Hok) as Ha.
    destruct (frame_allocate (frames s)) as [[p|] f'] eqn:Ef; cbn; rewrite Ec.
    + destruct Ha as (Hok' & Hp & Hn & Hq). split_and!; try done.
      * intros t x Hx. apply Hq. left. by eapply Hheld.
      * destruct (T !! p) as [x|] eqn:E; [|done]. destruct Hn. by eapply Hheld.
      * intros x. split; [done|]. intros t y.
        destruct (decide (t = p)) as [->|]; [intros _; apply Hq; by right|].
        rewrite lookup_insert_ne by done. intros Hy. apply Hq. left. by eapply Hheld.
      * intros x. split; [done|]. rewrite Ec. intros q. cbn. rewrite Hq, lookup_insert_None.
        split; [intros ([? | ->] & ? & ?); done|]. intros [Hh Hx]. split; [by left|].
        split; [done|]. by intros <-.
    + destruct Ha as (Hok' & Hq). split_and!; try done.
      intros t x Hx. apply Hq. by eapply Hheld.
  - bool_hyps. destruct Hs as (Hb & Hu & Hlim & Hin).
    destruct (arena_used (hier s) =? arena_capacity (hier s)) eqn:Eu; bool_hyps;
      pose proof (proj2 (Z.eqb_neq _ _) Ec) as Ec';
      [rewrite Ec'; split_and!; done || lia|].
    cbn. rewrite Ec'. unfold PAGING_PAGE_SIZE.
    destruct Hb as [Hba Hbr]. assert (is_u64 (arena_base (hier s) + arena_used (hier s) * 4096))
      as Hu64 by (unfold is_u64, UINT64_MAX; lia).
    rewrite u64_small by done.
    assert (is_frame (arena_base (hier s) + arena_used (hier s) * 4096)) as Hfr.
    { split; [|lia]. rewrite Z.mod_add by lia. done. }
    split_and!; try done; try lia.
    + intros t x Hx. destruct (Hin t x Hx) as (i & Hi & ->). exists i. split; [lia|done].
    + destruct (T !! _) as [x|] eqn:E; [|done]. destruct (Hin _ _ E) as (i & Hi & Ei). lia.
    + intros x. split_and!; try done; try lia. intros t y.
      destruct (decide (t = arena_base (hier s) + arena_used (hier s) * 4096)) as [->|].
      * intros _. exists (arena_used (hier s)). split; [lia|done].
      * rewrite lookup_insert_ne by done. intros Hy. destruct (Hin t y Hy) as (i & Hi & ->).
        exists i. split; [lia|done].
    + intros x. split; [done|]. by rewrite Ec'.
Qed.

(** Making room for [va]: from [s] to [s'] only empty tables of level [L] and
    above were linked in, on its path, so no address reads differently. *)
Record extends (va L : Z) (T T' : gmap Z (Z * Z)) (s s' : space F) : Prop := {
  ex_sub : T ⊆ T';
  ex_leaf : forall va, leaf s' va = leaf s va;
  ex_root : s'.(hier).(root) = s.(hier).(root);
  ex_live : s'.(hier).(live) = s.(hier).(live);
  ex_flushed : s'.(flushed) = s.(flushed);
  ex_old : forall t l pre i, T !! t = Some (l, pre) -> l <= L -> 0 <= i < 512 ->
    load s' (slot_at t i) = load s (slot_at t i);
  ex_new : forall t l pre i, T' !! t = Some (l, pre) -> T !! t = None -> l <= L ->
    0 <= i < 512 -> load s' (slot_at t i) = 0;
  ex_keep : forall t x i, T !! t = Some x -> 0 <= i < 512 ->
    has (load s (slot_at t i)) PAGE_PRESENT = true ->
    load s' (slot_at t i) = load s (slot_at t i);
  ex_path : forall t l pre, T' !! t = Some (l, pre) -> T !! t = None ->
    pre = vpre va l /\ L <= l
}.

Lemma extends_refl va L T s : extends va L T T s s.
Proof. split; try done; intros; congruence. Qed.

Lemma extends_trans va L T1 T2 T3 s1 s2 s3 :
  extends va L T1 T2 s1 s2 -> extends va L T2 T3 s2 s3 -> extends va L T1 T3 s1 s3.
Proof.
  intros [A1 A2 A3 A4 A5 A6 A7 A8 A9] [B1 B2 B3 B4 B5 B6 B7 B8 B9]. split; try congruence.
  - by etrans.
  - intros t l pre i Ht Hl Hi. rewrite (B6 t l pre); try done; [by eapply A6|].
    by eapply lookup_weaken.
  - intros t l pre i Ht Hn Hl Hi. destruct (T2 !! t) as [[l2 pre2]|] eqn:E2.
    + pose proof (lookup_weaken _ _ _ _ E2 B1) as E3. rewrite Ht in E3. injection E3 as <- <-.
      rewrite (B6 t l pre); try done. by eapply A7.
    + by eapply B7.
  - intros t x i Ht Hi Hp. pose proof (A8 t x i Ht Hi Hp) as E. rewrite <- E in Hp |- *.
    eapply B8; [by eapply lookup_weaken|done|done].
  - intros t l pre Ht Hn. destruct (T2 !! t) as [x|] eqn:E2.
    + pose proof (lookup_weaken _ _ _ _ E2 B1) as E3. rewrite Ht in E3. injection E3 as <-.
      by apply (A9 t).
    + by apply (B9 t).
Qed.

(** States that agree on memory and root read the same. *)
Lemma leaf_same (s s' : space F) :
  s'.(words) = s.(words) -> s'.(hier).(root) = s.(hier).(root) ->
  forall va, leaf s' va = leaf s va.
Proof.
  intros Ew Er va. unfold leaf. rewrite Er. generalize (root (hier s)) as t.
  intros t. assert (forall a, load s' a = load s a) as Hl by (intros a; unfold load; by rewrite Ew).
  generalize 4 as l. generalize 3%nat as n. intros n. revert t.
  induction n as [|n IH]; intros t l; cbn [walk]; rewrite Hl; [done|].
  by rewrite IH.
Qed.

Lemma tree_same T (s s' : space F) :
  tree T s -> s'.(words) = s.(words) -> s'.(hier).(root) = s.(hier).(root) -> tree T s'.
Proof.
  intros [] Ew Er. assert (forall a, load s' a = load s a) as Hl
    by (intros a; unfold load; by rewrite Ew).
  split; try done.
  - by rewrite Er.
  - intros t l pre i. rewrite Hl. eauto.
  - intros t l pre. setoid_rewrite Hl. eauto.
  - intros t l pre i. rewrite Hl. eauto.
Qed.

(** A fresh, empty table [p] linked into the absent entry of [va] in [t]. *)
Record linked (T : gmap Z (Z * Z)) (s s2 : space F) (t l va p : Z) : Prop := {
  lk_table : T !! t = Some (l, vpre va l);
  lk_level : 1 < l;
  lk_absent : has (load s (slot_at t (table_index va l))) PAGE_PRESENT = false;
  lk_frame : is_frame p;
  lk_fresh : T !! p = None;
  lk_root : s2.(hier).(root) = s.(hier).(root);
  lk_old : forall t' j x, T !! t' = Some x -> 0 <= j < 512 ->
    load s2 (slot_at t' j) =
      if bool_decide (t = t' /\ table_index va l = j) then interior p
      else load s (slot_at t' j);
  lk_new : forall j, 0 <= j < 512 -> load s2 (slot_at p j) = 0
}.

Definition with_link (T : gmap Z (Z * Z)) (l va p : Z) : gmap Z (Z * Z) :=
  <[p := (l - 1, vpre va (l - 1))]> T.

Lemma with_link_cases T l va p t x :
  with_link T l va p !! t = Some x ->
  (t = p /\ x = (l - 1, vpre va (l - 1))) \/ (t <> p /\ T !! t = Some x).
Proof.
  unfold with_link. destruct (decide (t = p)) as [->|Hne].
  - rewrite lookup_insert_eq. intros [= <-]. by left.
  - rewrite lookup_insert_ne by done. by right.
Qed.

Lemma linked_none T s s2 t l va p :
  tree T s -> linked T s s2 t l va p -> forall t', T !! t' <> Some (l - 1, vpre va (l - 1)).
Proof.
  intros Ht [Hl H1 Habs _ _ _ _ _] t' Hx. pose proof (tr_range _ _ _ _ _ Ht Hl) as Hr.
  destruct (tr_parent _ _ Ht _ _ _ Hx ltac:(lia)) as (q & Hq & Hload).
  destruct (vpre_split va (l - 1) ltac:(lia)) as [E1 E2].
  replace (l - 1 + 1) with l in * by lia. rewrite E1 in Hq. rewrite E2 in Hload.
  rewrite (tr_inj _ _ Ht _ _ _ Hq Hl) in Hload. rewrite Hload in Habs.
  destruct (interior_spec t') as [E _]; [by eapply tr_frame|]. congruence.
Qed.

Lemma linked_tree T s s2 t l va p :
  tree T s -> linked T s s2 t l va p -> tree (with_link T l va p) s2.
Proof.
  intros Ht Hk. pose proof (linked_none _ _ _ _ _ _ _ Ht Hk) as Hnone.
  destruct Hk as [Hl H1 Habs Hp Hfresh Hroot Hold Hnew].
  pose proof (tr_range _ _ _ _ _ Ht Hl) as Hr. pose proof (index_range va l Hr) as Hi.
  pose proof (vpre_step va l Hr) as Hpre.
  assert (forall t' x, T !! t' = Some x -> with_link T l va p !! t' = Some x) as Hsub.
  { intros t' x Hx. unfold with_link. rewrite lookup_insert_ne; [done|]. congruence. }
  assert (has 0 PAGE_PRESENT = false) as H0p by reflexivity.
  split.
  - rewrite Hroot. apply Hsub, (tr_root _ _ Ht).
  - intros t' l' pre' [[-> [= -> ->]]|[_ Hx]]%with_link_cases;
      [split; [done|lia]|by eapply tr_table].
  - intros t1 t2 x [[-> ->]|[_ H1']]%with_link_cases [[-> E]|[_ H2']]%with_link_cases; try done.
    + by destruct (Hnone t2).
    + subst x. by destruct (Hnone t1).
    + by eapply tr_inj.
  - intros t' l' pre' j [[-> [= -> ->]]|[_ Hx]]%with_link_cases Hl1 Hj.
    + rewrite Hnew by done. congruence.
    + rewrite (Hold t' j _ Hx Hj). case_bool_decide as E.
      * destruct E as [<- <-]. rewrite Hl in Hx. injection Hx as <- <-. intros _ _.
        exists p. split; [done|]. rewrite <- Hpre. unfold with_link. apply lookup_insert_eq.
      * intros Hpr Hhu. destruct (tr_child _ _ Ht t' l' pre' j) as (c & Ec & Hc); try done.
        exists c. split; [done|]. by apply Hsub.
  - intros t' l' pre' [[-> [= -> ->]]|[_ Hx]]%with_link_cases Hl4.
    + exists t. destruct (vpre_split va (l - 1) ltac:(lia)) as [E1 E2].
      replace (l - 1 + 1) with l in * by lia. rewrite E1, E2. split; [by apply Hsub|].
      rewrite (Hold t _ _ Hl Hi). by rewrite bool_decide_true.
    + destruct (tr_parent _ _ Ht _ _ _ Hx Hl4) as (q & Hq & Hload). exists q.
      split; [by apply Hsub|]. pose proof (Z.mod_pos_bound pre' 512 ltac:(lia)) as Hm.
      rewrite (Hold q _ _ Hq Hm). case_bool_decide as E; [|done]. destruct E as [<- E].
      rewrite E, Hload in Habs. destruct (interior_spec t') as [E' _]; [by eapply tr_frame|].
      congruence.
  - intros t' l' pre' j [[-> _]|[_ Hx]]%with_link_cases Hj; [by rewrite Hnew|].
    rewrite (Hold t' j _ Hx Hj). case_bool_decide; [|by eapply tr_word].
    unfold interior. destruct Hp as [_ [Hp _]]. rewrite !Z.lor_nonneg. by split_and!.
  - intros t' pre' [[-> [= E _]]|[_ Hx]]%with_link_cases; [lia|by eapply tr_top].
Qed.

Lemma linked_leaf T s s2 t l va p :
  tree T s -> linked T s s2 t l va p -> forall va', leaf s2 va' = leaf s va'.
Proof.
  intros Ht Hk va'. pose proof (linked_tree _ _ _ _ _ _ _ Ht Hk) as Ht2.
  destruct Hk as [Hl H1 Habs Hp Hfresh Hroot Hold Hnew].
  pose proof (tr_range _ _ _ _ _ Ht Hl) as Hr. pose proof (index_range va l Hr) as Hi.
  destruct (decide (vpre va' (l - 1) = vpre va (l - 1))) as [E|Hne].
  - assert (leaf s va' = None) as ->.
    { rewrite (walk_reach T s va' t l Ht);
        [|by rewrite (vpre_agree va' va (l - 1) l ltac:(lia) E)].
      destruct (Z.to_nat (l - 1)); cbn [walk];
        rewrite (index_agree va' va (l - 1) l ltac:(lia) ltac:(lia) E), Habs; done. }
    rewrite (walk_reach _ s2 va' p (l - 1) Ht2);
      [|rewrite E; unfold with_link; apply lookup_insert_eq].
    assert (has 0 PAGE_PRESENT = false) as H0p by reflexivity.
    destruct (Z.to_nat (l - 1 - 1)); cbn [walk];
      rewrite Hnew by (apply index_range; lia); by rewrite H0p.
  - unfold leaf. rewrite Hroot. apply (walk_ext T); try done.
    + rewrite vpre_top. apply (tr_root _ _ Ht).
    + intros t' l' Hl'. pose proof (tr_range _ _ _ _ _ Ht Hl') as Hr'.
      rewrite (Hold t' _ _ Hl' (index_range va' l' Hr')). case_bool_decide as E; [|done].
      destruct E as [<- E]. rewrite Hl in Hl'. injection Hl' as <- Ev. destruct Hne.
      rewrite !vpre_step by done. congruence.
Qed.

(** A table from the supply, zeroed and linked. *)
Lemma link_spec T s t l va next s1 :
  ok T s -> T !! t = Some (l, vpre va l) -> 1 < l ->
  has (load s (slot_at t (table_index va l))) PAGE_PRESENT = false ->
  allocate_table s = (PAGING_STATUS_OK, next, s1) ->
  let s2 := store s1 (slot_at t (table_index va l)) (interior next) in
  linked T s s2 t l va next /\ supply (with_link T l va next) s2 /\
  s2.(hier).(table_frames) = u64 (s.(hier).(table_frames) + 1) /\
  s2.(flushed) = s.(flushed) /\ s2.(hier).(live) = s.(hier).(live) /\
  same_rest T (with_link T l va next) s s2.
Proof.
  intros [Ht Hs Hc] Hl H1 Habs E s2. unfold allocate_table in E.
  pose proof (take_frame_spec T s Hs) as Htake.
  destruct (take_frame s) as [[p|] s0]; [|done].
  destruct Htake as (Ew & Ef & Er & Eli & Ecnt & _ & Hp & Hfresh & Hsup & Hrest).
  destruct (p >=? _); [done|]. injection E as <- <-.
  destruct (zero_table_spec p s0 Hp) as (Zh & Zf & Zfl & Zz & Zo).
  set (sz := zero_table p s0) in *.
  pose proof (tr_range _ _ _ _ _ Ht Hl) as Hr. pose proof (index_range va l Hr) as Hi.
  assert (forall a, load s0 a = load s a) as Hl0 by (intros a; unfold load; by rewrite Ew).
  subst s2. split_and!.
  - split; try done.
    + intros t' j x Hx Hj. rewrite load_store.
      change (load (set_hier sz _)) with (load sz).
      rewrite Zo; [|by eapply tr_frame|congruence|done]. rewrite Hl0.
      destruct (Z.eqb_spec (slot_at t (table_index va l)) (slot_at t' j)) as [E|E].
      * apply slot_at_inj in E; try done; [|by eapply tr_frame..]. by rewrite bool_decide_true.
      * rewrite bool_decide_false; [done|]. by intros [-> <-].
    + intros j Hj. rewrite load_store. change (load (set_hier sz _)) with (load sz).
      rewrite Zz by done. by destruct (_ =? _) eqn:E; [|done];
        apply Z.eqb_eq, slot_at_inj in E as [-> _]; try congruence; try by eapply tr_frame.
  - unfold with_link. specialize (Hsup (l - 1, vpre va (l - 1))). unfold supply in *. cbn.
    by rewrite Zf.
  - cbn. by rewrite Ecnt.
  - cbn. by rewrite Zfl.
  - done.
  - specialize (Hrest (l - 1, vpre va (l - 1))). unfold with_link, same_rest in *. cbn.
    rewrite Zf. done.
Qed.

Lemma extends_mono va L L' T T' s s' :
  L' <= L -> extends va L T T' s s' -> extends va L' T T' s s'.
Proof.
  intros HL [A1 A2 A3 A4 A5 A6 A7 A8 A9]. split; try done; intros t l pre.
  - intros i ? ? ?. eapply A6; done || lia.
  - intros i ? ? ? ?. eapply A7; done || lia.
  - intros Ht Hn. destruct (A9 t l pre Ht Hn). split; [done|lia].
Qed.

Lemma linked_extends T s s2 t l va p :
  tree T s -> linked T s s2 t l va p -> s2.(flushed) = s.(flushed) ->
  s2.(hier).(live) = s.(hier).(live) -> extends va (l - 1) T (with_link T l va p) s s2.
Proof.
  intros Ht Hk Ef El. pose proof (linked_leaf _ _ _ _ _ _ _ Ht Hk) as Hleaf.
  destruct Hk as [Hl H1 Habs Hp Hfresh Hroot Hold Hnew]. split; try done.
  - unfold with_link. by apply insert_subseteq.
  - intros t' l' pre' i Hx Hle Hi. rewrite (Hold t' i _ Hx Hi).
    case_bool_decide as E; [|done]. destruct E as [<- _]. rewrite Hl in Hx.
    injection Hx as <- <-. lia.
  - intros t' l' pre' i [[-> _]|[_ Hx]]%with_link_cases Hn Hle Hi; [by apply Hnew|congruence].
  - intros t' x i Hx Hi Hpr. rewrite (Hold t' i x Hx Hi). case_bool_decide as E; [|done].
    destruct E as [<- <-]. congruence.
  - intros t' l' pre' [[-> [= -> ->]]|[_ Hx]]%with_link_cases Hn; [done|congruence].
Qed.

Lemma linked_ok T s s2 t l va p :
  ok T s -> linked T s s2 t l va p -> supply (with_link T l va p) s2 ->
  s2.(hier).(table_frames) = u64 (s.(hier).(table_frames) + 1) ->
  ok (with_link T l va p) s2.
Proof.
  intros [Ht Hs Hc] Hk Hsup Hcnt. split; [by eapply linked_tree|done|].
  rewrite Hcnt, Hc. unfold with_link. rewrite map_size_insert_None by (apply Hk).
  unfold u64. rewrite Zplus_mod_idemp_l. f_equal. lia.
Qed.

(** What entry_for answers about an address and a target level. *)
Definition entry_answer (T T' : gmap Z (Z * Z)) (s s' : space F) (va target : Z)
    (create : bool) (status : paging_status) (a : Z) : Prop :=
  match status with
  | PAGING_STATUS_OK =>
      same_rest T T' s s' /\
      exists t, T' !! t = Some (target, vpre va target) /\
        a = slot_at t (table_index va target)
  | PAGING_STATUS_HUGE_PAGE_PRESENT =>
      s' = s /\ T' = T /\ exists l e, leaf s va = Some (l, e) /\ target < l
  | PAGING_STATUS_NOT_MAPPED =>
      create = false /\
      (forall va', vpre va' target = vpre va target -> leaf s va' = None) /\
      forall t, T !! t <> Some (target, vpre va target)
  | PAGING_STATUS_OUT_OF_FRAMES | PAGING_STATUS_PHYSICAL_TOO_WIDE => create = true
  | _ => False
  end.

Lemma allocate_fails T s status next s1 :
  ok T s -> allocate_table s = (status, next, s1) -> status <> PAGING_STATUS_OK ->
  ok T s1 /\ (forall va, extends va 4 T T s s1) /\
  (status = PAGING_STATUS_OUT_OF_FRAMES \/ status = PAGING_STATUS_PHYSICAL_TOO_WIDE).
Proof.
  intros [Ht Hs Hc] E Hne. unfold allocate_table in E.
  pose proof (take_frame_spec T s Hs) as Htake. destruct (take_frame s) as [p s0].
  destruct Htake as (Ew & Ef & Er & Eli & Ecnt & Hs0 & _).
  assert (ok T s0 /\ forall va, extends va 4 T T s s0) as [Hok Hex].
  { split; [split; [by eapply tree_same|done|congruence]|]. intros va. split; try done.
    - by apply leaf_same.
    - intros t l pre i _ _ _. unfold load. by rewrite Ew.
    - intros; congruence.
    - intros t x i _ _ _. unfold load. by rewrite Ew.
    - intros; congruence. }
  destruct p as [p|]; [destruct (p >=? _)|]; injection E as <- <- <-; try done;
    split_and!; auto.
Qed.

(** Every table on the path above a table of the tree is in it. *)
Lemma table_above T (s : space F) va k t :
  tree T s -> T !! t = Some (k, vpre va k) ->
  forall m, k <= m <= 4 -> exists p, T !! p = Some (m, vpre va m).
Proof.
  intros Ht Hk. pose proof (tr_range _ _ _ _ _ Ht Hk) as Hr.
  assert (forall n : nat, forall m, m = k + Z.of_nat n -> m <= 4 ->
    exists p, T !! p = Some (m, vpre va m)) as Hn.
  { induction n as [|n IH]; intros m Em Hm.
    - assert (m = k) as -> by lia. by exists t.
    - destruct (IH (m - 1) ltac:(lia) ltac:(lia)) as (q & Hq).
      destruct (tr_parent _ _ Ht _ _ _ Hq ltac:(lia)) as (p & Hp & _).
      destruct (vpre_split va (m - 1) ltac:(lia)) as [E _].
      replace (m - 1 + 1) with m in * by lia. rewrite E in Hp. by exists p. }
  intros m Hm. apply (Hn (Z.to_nat (m - k))); lia.
Qed.

(** The entry of a path table is the link to the next one down. *)
Lemma link_below T (s : space F) va l t d :
  tree T s -> T !! t = Some (l, vpre va l) -> T !! d = Some (l - 1, vpre va (l - 1)) ->
  load s (slot_at t (table_index va l)) = interior d.
Proof.
  intros Ht Hl Hd. pose proof (tr_range _ _ _ _ _ Ht Hl) as Hr.
  pose proof (tr_range _ _ _ _ _ Ht Hd) as Hrd.
  destruct (tr_parent _ _ Ht _ _ _ Hd ltac:(lia)) as (q & Hq & Hload).
  destruct (vpre_split va (l - 1) ltac:(lia)) as [E1 E2].
  replace (l - 1 + 1) with l in * by lia. rewrite E1 in Hq. rewrite E2 in Hload.
  by rewrite (tr_inj _ _ Ht _ _ _ Hq Hl) in Hload.
Qed.

Lemma entry_walk_spec va create n : forall T s l t target,
  ok T s -> T !! t = Some (l, vpre va l) -> 1 <= target -> l = target + Z.of_nat n ->
  let '(status, a, s') := entry_walk n l t va create s in
  exists T', ok T' s' /\ extends va target T T' s s' /\
    entry_answer T T' s s' va target create status a /\
    (create = false -> s' = s /\ T' = T).
Proof.
  induction n as [|n IH]; intros T s l t target Hok Hl H1 En; cbn [entry_walk].
  { assert (l = target) as -> by lia. exists T.
    split_and!; [done|apply extends_refl| |done].
    split; [by apply same_rest_refl|by exists t]. }
  pose proof (ok_tree _ _ Hok) as Ht. pose proof (tr_range _ _ _ _ _ Ht Hl) as Hr.
  pose proof (index_range va l Hr) as Hi. set (slot := slot_at t (table_index va l)) in *.
  assert (has (load s slot) PAGE_PRESENT = false ->
    (forall va', vpre va' target = vpre va target -> leaf s va' = None) /\
    forall t', T !! t' <> Some (target, vpre va target)) as Habs.
  { intros Hp. split.
    - intros va' E. rewrite (walk_reach T s va' t l Ht)
        by (by rewrite (vpre_agree va' va target l ltac:(lia) E)).
      destruct (Z.to_nat (l - 1)); cbn [walk];
        rewrite (index_agree va' va target l ltac:(lia) ltac:(lia) E); fold slot; by rewrite Hp.
    - intros t' Hx. destruct (table_above T s va target t' Ht Hx (l - 1) ltac:(lia)) as (d & Hd).
      pose proof (link_below T s va l t d Ht Hl Hd) as Hload. fold slot in Hload.
      rewrite Hload in Hp. destruct (interior_spec d) as [E _]; [by eapply tr_frame|]. congruence. }
  destruct (has (load s slot) PAGE_PRESENT) eqn:Ep; cbn [negb].
  - destruct (has (load s slot) PAGE_HUGE) eqn:Eh.
    + exists T. split_and!; [done|apply extends_refl| |done]. split_and!; try done.
      exists l, (load s slot). split; [|lia]. rewrite (walk_reach T s va t l Ht Hl).
      replace (Z.to_nat (l - 1)) with (S (Z.to_nat (l - 2))) by lia. cbn [walk]. fold slot.
      by rewrite Ep, Eh.
    + apply IH; [done| |done|lia]. rewrite (vpre_step va l Hr).
      apply tree_child_frame; done || lia.
  - destruct create; cbn [negb].
    + destruct (allocate_table s) as [[st next] s1] eqn:Ea. unfold is_ok.
      case_bool_decide as Est; cbn [negb].
      * subst st. destruct (link_spec T s t l va next s1) as (Hk & Hsup & Hcnt & Hfl & Hli & Hrest);
          try done; [lia|].
        fold slot in Hk, Hsup, Hcnt, Hfl, Hli, Hrest. set (s2 := store s1 slot (interior next)) in *.
        pose proof (linked_ok _ _ _ _ _ _ _ Hok Hk Hsup Hcnt) as Hok2.
        pose proof (linked_extends _ _ _ _ _ _ _ Ht Hk Hfl Hli) as Hex.
        pose proof (IH (with_link T l va next) s2 (l - 1) next target Hok2) as IH'.
        change (store s1 slot (Z.lor (Z.lor next PAGE_PRESENT) PAGE_WRITABLE)) with s2.
        destruct (entry_walk n (l - 1) next va true s2) as [[st a] s3].
        destruct IH' as (T3 & Hok3 & Hex3 & Hans & _); [apply lookup_insert_eq|done|lia|].
        exists T3. split; [done|]. split.
        { eapply extends_trans; [|exact Hex3]. eapply extends_mono; [|exact Hex]. lia. }
        split; [|done]. unfold entry_answer in *. destruct st; try done.
        -- destruct Hans as [Hrest3 ?]. split; [by eapply same_rest_trans|done].
        -- by destruct Hans.
        -- destruct Hans as (_ & _ & l' & e & Hlf & _).
           rewrite (ex_leaf _ _ _ _ _ _ Hex) in Hlf. destruct (Habs eq_refl) as [E _].
           rewrite E in Hlf; done.
      * destruct (allocate_fails T s st next s1 Hok Ea Est) as (Hok1 & Hex1 & Hst).
        exists T. split_and!; [done| | |done].
        -- eapply extends_mono; [|exact (Hex1 va)]. lia.
        -- by destruct Hst as [-> | ->].
    + exists T. split_and!; [done|apply extends_refl| |done].
      destruct (Habs eq_refl). by split_and!.
Qed.

Lemma entry_for_spec T s va target create :
  ok T s -> 1 <= target <= 4 ->
  let '(status, a, s') := entry_for va target create s in
  exists T', ok T' s' /\ extends va target T T' s s' /\
    entry_answer T T' s s' va target create status a /\
    (create = false -> s' = s /\ T' = T).
Proof.
  intros Hok Ht. apply entry_walk_spec; [done| |lia|unfold PAGING_LEVEL_COUNT; lia].
  unfold PAGING_LEVEL_COUNT. rewrite vpre_top. apply (tr_root _ _ (ok_tree _ _ Hok)).
Qed.

(** ** Giving tables back *)

Lemma table_is_empty_spec t (s : space F) :
  table_is_empty t s = true <->
  forall i, 0 <= i < 512 -> has (load s (slot_at t i)) PAGE_PRESENT = false.
Proof.
  unfold table_is_empty, PAGING_ENTRIES_PER_TABLE. rewrite forallb_forall. split.
  - intros Hf i Hi. apply negb_true_iff, Hf. apply list_elem_of_In, elem_of_seqZ. lia.
  - intros Hf i Hi%list_elem_of_In%elem_of_seqZ. apply negb_true_iff, Hf. lia.
Qed.

Lemma table_nonempty t (s : space F) :
  table_is_empty t s = false ->
  exists i, 0 <= i < 512 /\ has (load s (slot_at t i)) PAGE_PRESENT = true.
Proof.
  intros E. destruct (decide (Exists (fun i => has (load s (slot_at t i)) PAGE_PRESENT = true)
    (seqZ 0 512))) as [Hx|Hn].
  - apply Exists_exists in Hx as (i & Hi%elem_of_seqZ & Hp). exists i. split; [lia|done].
  - exfalso. apply not_true_iff_false in E. apply E, table_is_empty_spec. intros i Hi.
    apply not_true_iff_false. intros Hp. apply Hn, Exists_exists. exists i.
    split; [apply elem_of_seqZ; lia|done].
Qed.

(** The empty table [t] of level [l] on the path of [va] is unlinked from its
    parent [p] and handed back. *)
Definition unlink (p t l va : Z) (s : space F) : space F :=
  release_table t (store s (slot_at p (table_index va (l + 1))) 0).

Lemma unlink_load p t l va s a :
  load (unlink p t l va s) a =
    if slot_at p (table_index va (l + 1)) =? a then 0 else load s a.
Proof.
  rewrite <- load_store. unfold unlink, release_table, load. by destruct (_ =? 0).
Qed.

Lemma unlink_rest p t l va s :
  (unlink p t l va s).(hier).(root) = s.(hier).(root) /\
  (unlink p t l va s).(hier).(live) = s.(hier).(live) /\
  (unlink p t l va s).(flushed) = s.(flushed) /\
  (unlink p t l va s).(hier).(table_frames) = u64 (s.(hier).(table_frames) - 1).
Proof. unfold unlink, release_table. cbn. by destruct (_ =? 0). Qed.

Lemma unlink_supply T p t l va s x :
  supply T s -> T !! t = Some x -> supply (delete t T) (unlink p t l va s).
Proof.
  intros Hs Hx. unfold supply, unlink, release_table in *. cbn.
  destruct (arena_capacity (hier s) =? 0) eqn:Ec; cbn; rewrite Ec.
  - destruct Hs as [Hok Hh]. destruct (law_release _ t Hok (Hh _ _ Hx)) as [Hok' Hq].
    split; [done|]. intros t' y [Hne Hy]%lookup_delete_Some. apply Hq. split; [by eapply Hh|done].
  - destruct Hs as (? & ? & ? & Hh). split_and!; try done; try lia.
    intros t' y [Hne Hy]%lookup_delete_Some. by eapply Hh.
Qed.

Lemma unlink_same_rest T p t l va s x :
  supply T s -> T !! t = Some x -> same_rest T (delete t T) s (unlink p t l va s).
Proof.
  intros Hs Hx. unfold supply, same_rest, unlink, release_table in *. cbn.
  destruct (arena_capacity (hier s) =? 0) eqn:Ec; cbn; split; try done.
  destruct Hs as [Hok Hh]. destruct (law_release _ t Hok (Hh _ _ Hx)) as [_ Hq].
  intros q. rewrite Hq, lookup_delete_None.
  split; [intros [[? ?] [?|?]]; by try subst|]. intros [Hhq Hn]. split; [|by right].
  split; [done|]. intros ->. congruence.
Qed.

Section unlinking.
Context (T : gmap Z (Z * Z)) (s : space F) (p t l va : Z).
Hypothesis Htree : tree T s.
Hypothesis Hl : T !! t = Some (l, vpre va l).
Hypothesis Hp : T !! p = Some (l + 1, vpre va (l + 1)).
Hypothesis Hlt : l < 4.
Hypothesis Hempty : forall i, 0 <= i < 512 -> has (load s (slot_at t i)) PAGE_PRESENT = false.

(** The parent's entry is the link, and the only one. *)
Lemma unlink_parent : load s (slot_at p (table_index va (l + 1))) = interior t.
Proof.
  pose proof (tr_range _ _ _ _ _ Htree Hl) as Hr.
  destruct (tr_parent _ _ Htree _ _ _ Hl Hlt) as (q & Hq & Hload).
  destruct (vpre_split va l ltac:(lia)) as [E1 E2]. rewrite E1 in Hq. rewrite E2 in Hload.
  by rewrite (tr_inj _ _ Htree _ _ _ Hq Hp) in Hload.
Qed.

Lemma unlink_load_table t' l' pre' j :
  T !! t' = Some (l', pre') -> 0 <= j < 512 ->
  load (unlink p t l va s) (slot_at t' j) =
    if bool_decide (p = t' /\ table_index va (l + 1) = j) then 0 else load s (slot_at t' j).
Proof.
  intros Ht' Hj. pose proof (tr_range _ _ _ _ _ Htree Hp) as Hr.
  pose proof (index_range va (l + 1) Hr) as Hi. rewrite unlink_load, <- load_store.
  by eapply load_slot_other.
Qed.

Lemma unlink_tree : tree (delete t T) (unlink p t l va s).
Proof.
  pose proof (tr_range _ _ _ _ _ Htree Hl) as Hr. pose proof (tr_range _ _ _ _ _ Htree Hp) as Hr'.
  pose proof (index_range va (l + 1) Hr') as Hi. pose proof unlink_parent as Hlink.
  destruct (unlink_rest p t l va s) as (Hroot & _).
  assert (has 0 PAGE_PRESENT = false) as H0p by reflexivity. split.
  - rewrite Hroot, lookup_delete_ne; [apply (tr_root _ _ Htree)|]. intros ->.
    rewrite (tr_root _ _ Htree) in Hl. injection Hl. lia.
  - intros t' l' pre' [_ Hx]%lookup_delete_Some. by eapply tr_table.
  - intros t1 t2 x [_ H1]%lookup_delete_Some [_ H2]%lookup_delete_Some. by eapply tr_inj.
  - intros t' l' pre' j [Hne Hx]%lookup_delete_Some H1 Hj.
    rewrite (unlink_load_table t' l' pre' j Hx Hj). case_bool_decide as E; [congruence|].
    intros Hpr Hhu. destruct (tr_child _ _ Htree t' l' pre' j) as (c & Ec & Hc); try done.
    exists c. split; [done|]. rewrite lookup_delete_ne; [done|]. intros <-. apply E.
    rewrite Hl in Hc. injection Hc as E1 E2. destruct (vpre_split va l ltac:(lia)) as [E3 E4].
    rewrite E2 in E3, E4. rewrite Z.div_add_l, Z.div_small in E3 by lia.
    rewrite Z.add_comm, Z.mod_add, Z.mod_small in E4 by lia.
    split; [|done]. eapply (tr_inj _ _ Htree); [exact Hp|]. rewrite Hx. f_equal. f_equal; lia.
  - intros t' l' pre' [Hne Hx]%lookup_delete_Some H4.
    destruct (tr_parent _ _ Htree _ _ _ Hx H4) as (q & Hq & Hload).
    pose proof (Z.mod_pos_bound pre' 512 ltac:(lia)) as Hm.
    assert (is_frame t') as Hf' by (by eapply tr_frame). exists q. split.
    + rewrite lookup_delete_ne; [done|]. intros ->. specialize (Hempty _ Hm).
      rewrite Hload in Hempty. destruct (interior_spec t' Hf') as [E _]. congruence.
    + rewrite (unlink_load_table q _ _ _ Hq Hm). case_bool_decide as E; [|done].
      destruct E as [-> E]. rewrite <- E, Hlink in Hload. destruct Hne.
      destruct (interior_spec t' Hf') as (_ & _ & _ & _ & _ & E1).
      destruct (interior_spec t) as (_ & _ & _ & _ & _ & E2); [by eapply tr_frame|].
      by rewrite Hload, E1 in E2.
  - intros t' l' pre' j [_ Hx]%lookup_delete_Some Hj.
    rewrite (unlink_load_table t' l' pre' j Hx Hj). case_bool_decide; [done|]. by eapply tr_word.
  - intros t' pre' [_ Hx]%lookup_delete_Some. by eapply tr_top.
Qed.

Lemma unlink_leaf va' : leaf (unlink p t l va s) va' = leaf s va'.
Proof.
  pose proof (tr_range _ _ _ _ _ Htree Hl) as Hr.
  destruct (unlink_rest p t l va s) as (Hroot & _). pose proof unlink_tree as Ht2.
  destruct (decide (vpre va' l = vpre va l)) as [E|Hne].
  - rewrite (walk_reach T s va' t l Htree) by (by rewrite E).
    transitivity (None : option (Z * Z)).
    + rewrite (walk_reach (delete t T) _ va' p (l + 1) Ht2).
      * replace (Z.to_nat (l + 1 - 1)) with (S (Z.to_nat (l - 1))) by lia. cbn [walk].
        rewrite (index_agree va' va l (l + 1) ltac:(lia) ltac:(lia) E), unlink_load, Z.eqb_refl.
        done.
      * rewrite (vpre_agree va' va l (l + 1) ltac:(lia) E), lookup_delete_ne; [done|].
        intros ->. rewrite Hl in Hp. injection Hp. lia.
    + symmetry. destruct (Z.to_nat (l - 1)); cbn [walk];
        rewrite Hempty by (apply index_range; lia); done.
  - unfold leaf. rewrite Hroot. apply (walk_ext T); try done.
    + rewrite vpre_top. apply (tr_root _ _ Htree).
    + intros t' l' Hl'. pose proof (tr_range _ _ _ _ _ Htree Hl') as Hr'.
      rewrite (unlink_load_table t' _ _ _ Hl' (index_range va' l' Hr')).
      case_bool_decide as E; [|done]. destruct E as [<- E].
      rewrite Hp in Hl'. injection Hl' as <- Ev. destruct Hne.
      pose proof (vpre_step va (l + 1) ltac:(lia)) as E1.
      pose proof (vpre_step va' (l + 1) ltac:(lia)) as E2.
      replace (l + 1 - 1) with l in * by lia. congruence.
Qed.
End unlinking.

Definition occupied (s : space F) (t : Z) : Prop :=
  exists i, 0 <= i < 512 /\ has (load s (slot_at t i)) PAGE_PRESENT = true.

(** No table but the root is empty. *)
Definition packed (T : gmap Z (Z * Z)) (s : space F) : Prop :=
  forall t l pre, T !! t = Some (l, pre) -> l < 4 -> occupied s t.

(** No table is empty but those from level [k] up on the path of [va]. *)
Definition packed_off (va k : Z) (T : gmap Z (Z * Z)) (s : space F) : Prop :=
  forall t l pre, T !! t = Some (l, pre) -> l < 4 ->
    (pre = vpre va l /\ k <= l) \/ occupied s t.

(** The tables of the path of [va] from level [k] to the root. *)
Fixpoint path (T : gmap Z (Z * Z)) (va k : Z) (tables : list Z) : Prop :=
  match tables with
  | [] => k = 5
  | t :: above => T !! t = Some (k, vpre va k) /\ path T va (k + 1) above
  end.

(** What reclaiming keeps. *)
Record trimmed (T T' : gmap Z (Z * Z)) (s s' : space F) : Prop := {
  tm_sub : T' ⊆ T;
  tm_leaf : forall va, leaf s' va = leaf s va;
  tm_root : s'.(hier).(root) = s.(hier).(root);
  tm_live : s'.(hier).(live) = s.(hier).(live);
  tm_flushed : s'.(flushed) = s.(flushed);
  tm_rest : same_rest T T' s s';
  tm_low : forall t pre i, T' !! t = Some (1, pre) -> 0 <= i < 512 ->
    load s' (slot_at t i) = load s (slot_at t i)
}.

Lemma trimmed_refl T s : trimmed T T s s.
Proof. split; try done. by apply same_rest_refl. Qed.

Lemma trimmed_trans T1 T2 T3 s1 s2 s3 :
  trimmed T1 T2 s1 s2 -> trimmed T2 T3 s2 s3 -> trimmed T1 T3 s1 s3.
Proof.
  intros [A1 A2 A3 A4 A5 A6 A7] [B1 B2 B3 B4 B5 B6 B7].
  split; try congruence; [by etrans|by eapply same_rest_trans|].
  intros t pre i Ht Hi. rewrite (B7 t pre) by done. eapply A7; [|done]. by eapply lookup_weaken.
Qed.

Lemma unlink_ok T s p t l va :
  ok T s -> T !! t = Some (l, vpre va l) -> T !! p = Some (l + 1, vpre va (l + 1)) ->
  l < 4 -> (forall i, 0 <= i < 512 -> has (load s (slot_at t i)) PAGE_PRESENT = false) ->
  ok (delete t T) (unlink p t l va s) /\ trimmed T (delete t T) s (unlink p t l va s).
Proof.
  intros [Ht Hs Hc] Hl Hp H4 He. destruct (unlink_rest p t l va s) as (R1 & R2 & R3 & R4).
  pose proof (tr_range _ _ _ _ _ Ht Hl) as Hr. split.
  - split; [by apply unlink_tree|by eapply unlink_supply|].
    rewrite R4, Hc, map_size_delete_Some by eauto.
    assert (size T <> 0%nat) as Hsz.
    { intros E%map_size_empty_inv. rewrite E, lookup_empty in Hl. done. }
    unfold u64. rewrite Zminus_mod_idemp_l. f_equal. lia.
  - split; try done.
    + apply delete_subseteq.
    + intros va'. by apply (unlink_leaf T).
    + by eapply unlink_same_rest.
    + intros t' pre i [_ Hx]%lookup_delete_Some Hi.
      rewrite (unlink_load_table T s p t l va Ht Hp t' 1 pre i Hx Hi).
      case_bool_decide as E; [|done]. destruct E as [<- _].
      rewrite Hp in Hx. injection Hx. lia.
Qed.

(** A path table above an occupied one is occupied by the link to it. *)
Lemma path_occupied T s va k t : 
  tree T s -> T !! t = Some (k, vpre va k) -> occupied s t ->
  forall t' l', T !! t' = Some (l', vpre va l') -> k <= l' -> occupied s t'.
Proof.
  intros Ht Hk Hocc.
  intros t' l' Hl' Hle. pose proof (tr_range _ _ _ _ _ Ht Hl') as Hr.
  destruct (decide (l' = k)) as [->|Hne]; [by rewrite (tr_inj _ _ Ht _ _ _ Hl' Hk)|].
  destruct (table_above T s va k t Ht Hk (l' - 1) ltac:(lia)) as (d & Hd).
  exists (table_index va l'). split; [by apply index_range|].
  rewrite (link_below T s va l' t' d Ht Hl' Hd).
  destruct (interior_spec d) as [-> _]; [by eapply tr_frame|done].
Qed.

Lemma reclaim_climb_spec va tables : forall T s k,
  ok T s -> path T va k tables -> 1 <= k ->
  let s' := reclaim_climb k tables va s in
  exists T', ok T' s' /\ trimmed T T' s s' /\ (packed_off va k T s -> packed T' s').
Proof.
  induction tables as [|t above IH]; intros T s k Hok Hpath Hk; cbn.
  { exists T. cbn in Hpath. split_and!; [done|apply trimmed_refl|]. subst k.
    intros Hoff t l pre Hl H4. destruct (Hoff t l pre Hl H4) as [[_ ?]|]; [lia|done]. }
  destruct Hpath as [Hl Hpath]. pose proof (ok_tree _ _ Hok) as Ht.
  pose proof (tr_range _ _ _ _ _ Ht Hl) as Hr. destruct above as [|p above].
  { exists T. cbn in Hpath. split_and!; [done|apply trimmed_refl|]. assert (k = 4) as -> by lia.
    intros Hoff t' l pre Hl' H4. destruct (Hoff t' l pre Hl' H4) as [[_ ?]|]; [lia|done]. }
  pose proof Hpath as [Hp _]. pose proof (tr_range _ _ _ _ _ Ht Hp) as Hrp.
  destruct (table_is_empty t s) eqn:Ee; cbn [negb].
  - rewrite table_is_empty_spec in Ee. fold (unlink p t k va s).
    destruct (unlink_ok T s p t k va Hok Hl Hp ltac:(lia) Ee) as [Hok1 Htr1].
    assert (path (delete t T) va (k + 1) (p :: above)) as Hpath1.
    { clear -Hpath Hl. revert Hpath. generalize (p :: above) as ts.
      assert (k < k + 1) as Hlt by lia. revert Hlt. generalize (k + 1) as m. intros m Hlt ts.
      revert m Hlt. induction ts as [|x ts IH]; intros m Hlt; [done|]. intros [Hx Hr].
      split; [|apply IH; [lia|done]]. rewrite lookup_delete_ne; [done|]. intros ->.
      rewrite Hl in Hx. injection Hx. lia. }
    destruct (IH (delete t T) _ (k + 1) Hok1 Hpath1 ltac:(lia)) as (T' & Hok' & Htr & Hpk).
    exists T'. split_and!; [done|by eapply trimmed_trans|]. intros Hoff. apply Hpk.
    intros t' l pre [Hne Hx]%lookup_delete_Some H4.
    destruct (Hoff t' l pre Hx H4) as [[-> Hle]|(i & Hi & Hpr)].
    + left. split; [done|]. destruct (decide (l = k)) as [->|]; [|lia].
      destruct Hne. by eapply tr_inj.
    + destruct (decide (p = t')) as [<-|Hpt].
      * left. rewrite Hp in Hx. injection Hx as <- <-. split; [done|lia].
      * right. exists i. split; [done|].
        rewrite (unlink_load_table T s p t k va Ht Hp t' l pre i Hx Hi).
        rewrite bool_decide_false; [done|]. by intros [? _].
  - exists T. split_and!; [done|apply trimmed_refl|]. intros Hoff t' l pre Hx H4.
    destruct (Hoff t' l pre Hx H4) as [[-> Hle]|]; [|done].
    eapply (path_occupied T s va k t); try done. by apply table_nonempty.
Qed.

Lemma reclaim_path_spec T s va : ok T s -> forall n l t above,
  T !! t = Some (l, vpre va l) -> l = Z.of_nat n + 1 -> path T va (l + 1) above ->
  (exists c, T !! c = Some (1, vpre va 1)) ->
  exists tables, reclaim_path n l t va s above = Some tables /\ path T va 1 tables.
Proof.
  intros Hok. pose proof (ok_tree _ _ Hok) as Ht.
  induction n as [|n IH]; intros l t above Hl En Hpath Hlow; cbn [reclaim_path].
  { assert (l = 1) as -> by lia. eexists. split; [done|]. by split. }
  pose proof (tr_range _ _ _ _ _ Ht Hl) as Hr. pose proof (index_range va l Hr) as Hi.
  destruct Hlow as (c & Hc).
  destruct (table_above T s va 1 c Ht Hc (l - 1) ltac:(lia)) as (d & Hd).
  pose proof (link_below T s va l t d Ht Hl Hd) as Hload.
  rewrite Hload. destruct (interior_spec d) as (-> & -> & _ & _ & _ & ->); [by eapply tr_frame|].
  cbn [negb orb]. apply IH; [done|lia| |eauto]. replace (l - 1 + 1) with l by lia. by split.
Qed.

Lemma reclaim_spec T s va :
  ok T s -> (exists c, T !! c = Some (1, vpre va 1)) ->
  let s' := reclaim_empty_tables va s in
  exists T', ok T' s' /\ trimmed T T' s s' /\ (packed_off va 1 T s -> packed T' s').
Proof.
  intros Hok Hlow. unfold reclaim_empty_tables.
  destruct (reclaim_path_spec T s va Hok (Z.to_nat (PAGING_LEVEL_COUNT - 1)) PAGING_LEVEL_COUNT
    s.(hier).(root) []) as (tables & -> & Hpath); try done.
  - unfold PAGING_LEVEL_COUNT. rewrite vpre_top. apply (tr_root _ _ (ok_tree _ _ Hok)).
  - by apply reclaim_climb_spec.
Qed.

(** ** Writing entries *)

Lemma ok_store T s t l pre i v :
  ok T s -> T !! t = Some (l, pre) -> 0 <= i < 512 -> 0 <= v ->
  no_link l v -> no_link l (load s (slot_at t i)) -> ok T (store s (slot_at t i) v).
Proof. intros [Ht Hs Hc] Hl Hi Hv Hn Ho. split; [by eapply tree_store|done|done]. Qed.

Lemma invalidate_spec T a s :
  ok T s ->
  ok T (invalidate a s) /\ (forall va, leaf (invalidate a s) va = leaf s va) /\
  (forall b, load (invalidate a s) b = load s b) /\
  (invalidate a s).(hier) = s.(hier) /\ (invalidate a s).(frames) = s.(frames) /\
  (invalidate a s).(flushed) = if s.(hier).(live) then a :: s.(flushed) else s.(flushed).
Proof.
  intros [Ht Hs Hc]. unfold invalidate. destruct (live (hier s)) eqn:El; [|by split_and!].
  split_and!; try done. split; [by eapply tree_same|done|done].
Qed.

(** A store of a leaf or of an empty entry, then the invalidation. *)
Lemma write_entry_spec T s t L va v :
  ok T s -> T !! t = Some (L, vpre va L) -> 0 <= v ->
  no_link L v -> no_link L (load s (slot_at t (table_index va L))) ->
  let s' := invalidate va (store s (slot_at t (table_index va L)) v) in
  ok T s' /\
  (forall va', leaf s' va' =
     if decide (vpre va' (L - 1) = vpre va (L - 1)) then
       (if has v PAGE_PRESENT then Some (L, v) else None)
     else leaf s va') /\
  (forall t' l' pre' j, T !! t' = Some (l', pre') -> 0 <= j < 512 ->
     load s' (slot_at t' j) =
       if bool_decide (t = t' /\ table_index va L = j) then v else load s (slot_at t' j)) /\
  s'.(hier) = s.(hier) /\ s'.(frames) = s.(frames) /\
  s'.(flushed) = if s.(hier).(live) then va :: s.(flushed) else s.(flushed).
Proof.
  intros Hok Hl Hv Hn Ho s'. pose proof (ok_tree _ _ Hok) as Ht.
  pose proof (tr_range _ _ _ _ _ Ht Hl) as Hr. pose proof (index_range va L Hr) as Hi.
  pose proof (ok_store T s t L _ _ v Hok Hl Hi Hv Hn Ho) as Hok1.
  destruct (invalidate_spec T va _ Hok1) as (Hok2 & Hlf & Hld & Hh & Hfr & Hfl).
  fold s' in Hok2, Hlf, Hld, Hh, Hfr, Hfl.
  split_and!; try done.
  - intros va'. rewrite Hlf. case_decide as E.
    + assert (vpre va' L = vpre va L) as E1 by (by apply (vpre_agree va' va (L - 1)); [lia|]).
      assert (table_index va' L = table_index va L) as E2
        by (by apply (index_agree va' va (L - 1)); [lia|lia|]).
      rewrite <- E2 in *. rewrite <- E1 in Hl. by apply (leaf_store_here T).
    + apply (leaf_store_other T s t L (vpre va L)); try done. intros [E1 E2]. apply E.
      rewrite !vpre_step by done. congruence.
  - intros t' l' pre' j Hl' Hj. rewrite Hld. by eapply load_slot_other.
Qed.

(** What clearing one page does. *)
Record cleared (L a : Z) (T T' : gmap Z (Z * Z)) (s s' : space F) : Prop := {
  cl_ok : ok T' s';
  cl_sub : T' ⊆ T;
  cl_leaf : forall va, leaf s' va =
    if decide (vpre va (L - 1) = vpre a (L - 1)) then None else leaf s va;
  cl_root : s'.(hier).(root) = s.(hier).(root);
  cl_live : s'.(hier).(live) = s.(hier).(live);
  cl_load : forall t pre i, T' !! t = Some (L, pre) -> 0 <= i < 512 ->
    load s' (slot_at t i) =
      if bool_decide (pre = vpre a L /\ i = table_index a L) then 0
      else load s (slot_at t i);
  cl_flushed : s'.(flushed) = (if s.(hier).(live) then a :: s.(flushed) else s.(flushed)) \/
    (s'.(flushed) = s.(flushed) /\
     forall va, vpre va (L - 1) = vpre a (L - 1) -> leaf s va = None);
  cl_packed : L = 1 -> packed T s -> packed T' s';
  cl_rest : same_rest T T' s s'
}.

Lemma clear_page_spec T s va off L :
  ok T s -> 1 <= L <= 4 ->
  let a := u64 (va + off) in
  (forall l e, leaf s a = Some (l, e) -> l <= L) ->
  (forall t, T !! t = Some (L, vpre a L) -> no_link L (load s (slot_at t (table_index a L)))) ->
  exists T', cleared L a T T' s (clear_page va L s off).
Proof.
  intros Hok HL a Hlow Hnl. unfold clear_page. fold a.
  pose proof (entry_for_spec T s a L false Hok HL) as He.
  destruct (entry_for a L false s) as [[st slot] s1].
  destruct He as (T1 & _ & _ & Hans & Hsame). destruct (Hsame eq_refl) as [-> ->].
  pose proof (ok_tree _ _ Hok) as Ht.
  assert (st <> PAGING_STATUS_OK -> forall va', vpre va' (L - 1) = vpre a (L - 1) ->
    leaf s va' = None) as Hfail.
  { intros Hst va' E. destruct st; try done; cbn in Hans.
    - destruct Hans as (_ & Hno & _). apply Hno. by apply (vpre_agree va' a (L - 1)); [lia|].
    - destruct Hans as (_ & _ & l & e & E' & ?). apply Hlow in E'. lia. }
  unfold is_ok. case_bool_decide as Est; cbn [negb].
  - subst st. destruct Hans as (_ & t & Hl & ->). pose proof (index_range a L HL) as Hi.
    destruct (write_entry_spec T s t L a 0 Hok Hl ltac:(lia)) as (Hok2 & Hlf & Hld & Hh & Hfr & Hfl);
      [right; by left|by apply Hnl|].
    set (s2 := invalidate a _) in *.
    assert (forall t' pre i, T !! t' = Some (L, pre) -> 0 <= i < 512 ->
      load s2 (slot_at t' i) =
        if bool_decide (pre = vpre a L /\ i = table_index a L) then 0
        else load s (slot_at t' i)) as Hld2.
    { intros t' pre i Hx Hi'. rewrite (Hld t' L pre i Hx Hi'). apply bool_decide_ext_if.
      split; intros [E1 E2].
      - subst t'. rewrite Hl in Hx. by injection Hx as <-.
      - subst pre. split; [by eapply tr_inj|done]. }
    destruct (L =? 1) eqn:E1; bool_hyps.
    + subst L. destruct (reclaim_spec T s2 a Hok2 ltac:(eauto)) as (T' & Hok3 & Htr & Hpk).
      destruct Htr as [Hsub Hlf3 Hr3 Hli3 Hfl3 Hrest3 Hlow3]. exists T'. split; try done.
      * intros va'. rewrite Hlf3. apply Hlf.
      * by rewrite Hr3, Hh.
      * by rewrite Hli3, Hh.
      * intros t' pre i Hx Hi'. rewrite (Hlow3 t' pre i Hx Hi'). apply (Hld2 t'); [|done].
        by eapply lookup_weaken.
      * left. by rewrite Hfl3.
      * intros _ Hp. apply Hpk. intros t' l pre Hx H4.
        destruct (decide (t = t')) as [<-|Hne].
        -- left. rewrite Hl in Hx. injection Hx as <- <-. split; [done|lia].
        -- right. destruct (Hp t' l pre Hx H4) as (i & Hi' & Hpr). exists i. split; [done|].
           rewrite (Hld t' l pre i Hx Hi'), bool_decide_false; [done|]. by intros [? _].
      * eapply same_rest_trans; [|exact Hrest3]. apply same_rest_refl; [by rewrite Hh|done].
    + exists T. split; try done; [by rewrite Hh|by rewrite Hh|by left|].
      apply same_rest_refl; [by rewrite Hh|done].
  - exists T. specialize (Hfail Est). split; try done.
    + intros va'. case_decide; [by apply Hfail|done].
    + intros t pre i Hx Hi'. case_bool_decide as E; [|done]. destruct E as [-> ->].
      destruct st; try done; cbn in Hans; [by destruct Hans as (_ & _ & Hno); destruct (Hno t)|].
      destruct Hans as (_ & _ & l & e & E' & ?). apply Hlow in E'. lia.
    + right. done.
    + by apply same_rest_refl.
Qed.
End supply.

End PageTable.
