(* ===== verification/PageRange.v ===== *)
(** Ranges of pages: what clear_range, map_range, unmap_range and protect_range
    of src/src/kernel/paging.c do to the meaning of a hierarchy, what
    translate_address reads from it, and what the audit finds in it. *)
From stdpp Require Import gmap.
From S2P Require Import Prelude PageTable.
Import PageTable.

Module PageRange.

Section ranges.
Context {F : Type} `{TableFramesLaws F}.
Implicit Types (s : space F) (T : gmap Z (Z * Z)).

(** * Ranges of pages *)

(** [va'] lies on one of the pages of level [L] at [va + off]. *)
Definition covered (va L : Z) (offs : list Z) (va' : Z) : Prop :=
  Exists (fun off => vpre va' (L - 1) = vpre (u64 (va + off)) (L - 1)) offs.

#[local] Instance covered_dec va L offs va' : Decision (covered va L offs va').
Proof. unfold covered. apply _. Defined.

Lemma covered_cons va L off offs va' :
  covered va L (off :: offs) va' <->
  vpre va' (L - 1) = vpre (u64 (va + off)) (L - 1) \/ covered va L offs va'.
Proof. apply Exists_cons. Qed.

(** From [s] to [s'] the processor was told to forget every page that changed. *)
Definition told (L : Z) (s s' : space F) : Prop :=
  exists fl : list Z, s'.(flushed) = (fl ++ s.(flushed))%list /\
    (s.(hier).(live) = true -> forall va, leaf s' va <> leaf s va ->
       exists a, a ∈ fl /\ vpre a (L - 1) = vpre va (L - 1)).

Lemma told_refl L s s' :
  s'.(flushed) = s.(flushed) -> (forall va, leaf s' va = leaf s va) -> told L s s'.
Proof. intros Ef El. exists []. split; [done|]. intros _ va Hne. by destruct Hne. Qed.

Lemma told_trans L s1 s2 s3 :
  s2.(hier).(live) = s1.(hier).(live) -> told L s1 s2 -> told L s2 s3 -> told L s1 s3.
Proof.
  intros El (f1 & E1 & H1) (f2 & E2 & H2). exists (f2 ++ f1). split.
  { by rewrite E2, E1, app_assoc. }
  intros Hl va Hne. destruct (decide (leaf s2 va = leaf s1 va)) as [E|Hn].
  - rewrite <- E in Hne. destruct (H2 ltac:(congruence) va Hne) as (a & Ha & Hp).
    exists a. split; [set_solver|done].
  - destruct (H1 Hl va Hn) as (a & Ha & Hp). exists a. split; [set_solver|done].
Qed.

Lemma cleared_told L a T T' s s' : cleared L a T T' s s' -> told L s s'.
Proof.
  intros Hc. destruct (cl_flushed _ _ _ _ _ _ Hc) as [Ef|[Ef Hnone]].
  - exists (if live (hier s) then [a] else []). split; [rewrite Ef; by destruct (live _)|].
    intros Hl va Hne. rewrite Hl. exists a. split; [set_solver|].
    rewrite (cl_leaf _ _ _ _ _ _ Hc) in Hne. by case_decide.
  - apply told_refl; [done|]. intros va. rewrite (cl_leaf _ _ _ _ _ _ Hc).
    case_decide as E; [|done]. by rewrite (Hnone va E).
Qed.

(** What has to hold of a page for clearing it to be meaningful. *)
Definition clearable (L a : Z) (T : gmap Z (Z * Z)) (s : space F) : Prop :=
  (forall l e, leaf s a = Some (l, e) -> l <= L) /\
  (forall t, T !! t = Some (L, vpre a L) -> no_link L (load s (slot_at t (table_index a L)))).

Lemma clearable_cleared L a b T T' s s' :
  1 <= L <= 4 -> cleared L a T T' s s' -> clearable L b T s -> clearable L b T' s'.
Proof.
  intros HL Hc [Hlow Hnl]. split.
  - intros l e. rewrite (cl_leaf _ _ _ _ _ _ Hc). case_decide; [done|]. apply Hlow.
  - intros t Ht. rewrite (cl_load _ _ _ _ _ _ Hc t _ _ Ht (index_range b L HL)).
    case_bool_decide; [right; by left|]. apply Hnl.
    eapply lookup_weaken; [done|apply (cl_sub _ _ _ _ _ _ Hc)].
Qed.

(** What clearing a list of pages does. *)
Record wiped (va L : Z) (offs : list Z) (T T' : gmap Z (Z * Z)) (s s' : space F) : Prop := {
  wp_ok : ok T' s';
  wp_sub : T' ⊆ T;
  wp_leaf : forall va', leaf s' va' =
    if decide (covered va L offs va') then None else leaf s va';
  wp_root : s'.(hier).(root) = s.(hier).(root);
  wp_live : s'.(hier).(live) = s.(hier).(live);
  wp_told : told L s s';
  wp_packed : L = 1 -> packed T s -> packed T' s';
  wp_rest : same_rest T T' s s'
}.

Lemma clear_loop_spec va L offs : 1 <= L <= 4 -> forall T s,
  ok T s -> (forall off, off ∈ offs -> clearable L (u64 (va + off)) T s) ->
  exists T', wiped va L offs T T' s (foldl (clear_page va L) s offs).
Proof.
  intros HL. induction offs as [|off offs IH]; intros T s Hok Hcl; cbn [foldl].
  { exists T. split; try done; [by apply told_refl|by apply same_rest_refl]. }
  destruct (Hcl off ltac:(set_solver)) as [Hlow Hnl].
  destruct (clear_page_spec T s va off L Hok HL Hlow Hnl) as (T1 & Hc).
  destruct (IH T1 (clear_page va L s off)) as (T' & Hw).
  { apply Hc. }
  { intros o Ho. eapply clearable_cleared; [done|done|]. apply Hcl. set_solver. }
  exists T'. split.
  - apply Hw.
  - etrans; [apply Hw|apply Hc].
  - intros va'. rewrite (wp_leaf _ _ _ _ _ _ _ Hw), (cl_leaf _ _ _ _ _ _ Hc).
    pose proof (covered_cons va L off offs va'). repeat case_decide; naive_solver.
  - rewrite (wp_root _ _ _ _ _ _ _ Hw). apply Hc.
  - rewrite (wp_live _ _ _ _ _ _ _ Hw). apply Hc.
  - eapply told_trans; [apply Hc|by eapply cleared_told|apply Hw].
  - intros E Hp. apply (wp_packed _ _ _ _ _ _ _ Hw E). by apply (cl_packed _ _ _ _ _ _ Hc E).
  - eapply same_rest_trans; [apply Hc|apply Hw].
Qed.
(** ** Offsets and addresses *)

Lemma level_page_size_eq L : level_page_size L = 2 ^ (12 + 9 * (L - 1)).
Proof. apply Z.shiftl_1_l. Qed.

Lemma page_size_pos L : 1 <= L -> 0 < level_page_size L.
Proof. intros HL. rewrite level_page_size_eq. apply Z.pow_pos_nonneg; lia. Qed.

Lemma elem_of_offsets length ps off :
  off ∈ offsets length ps <-> exists k, 0 <= k < (length + ps - 1) / ps /\ off = k * ps.
Proof.
  unfold offsets. rewrite list_elem_of_fmap. split.
  - intros (k & -> & Hk%elem_of_seqZ). exists k. split; [lia|done].
  - intros (k & Hk & ->). exists k. split; [done|]. apply elem_of_seqZ. lia.
Qed.

(** On a multiple of the page size the loop visits [0, ps, ..., length - ps]. *)
Lemma elem_of_offsets_mult n ps off :
  0 < ps -> 0 <= n -> (off ∈ offsets (n * ps) ps <-> exists k, 0 <= k < n /\ off = k * ps).
Proof.
  intros Hps Hn. rewrite elem_of_offsets.
  replace ((n * ps + ps - 1) / ps) with n; [done|].
  replace (n * ps + ps - 1) with (n * ps + (ps - 1)) by lia.
  rewrite Z.div_add_l by lia. rewrite Z.div_small by lia. lia.
Qed.

(** The offsets before [x] are those of a loop that stops at [x]. *)
Lemma offsets_before n ps d x rest :
  0 < ps -> 0 <= n -> offsets (n * ps) ps = d ++ (x :: rest) ->
  offsets x ps = d /\ (x ∉ d) /\ (x ∉ rest).
Proof.
  intros Hps Hn. unfold offsets.
  assert (forall m, (m * ps + ps - 1) / ps = m) as Hm.
  { intros m. replace (m * ps + ps - 1) with (m * ps + (ps - 1)) by lia.
    rewrite Z.div_add_l by lia. rewrite Z.div_small by lia. lia. }
  rewrite Hm. intros (d' & r' & -> & Er & E)%fmap_app_inv.
  destruct r' as [|k r']; [done|]. injection Er as -> ->.
  assert (seqZ 0 n !! length d' = Some k) as Hk by (by rewrite E, list_lookup_middle).
  apply lookup_seqZ in Hk as [Ek Hlt]. rewrite Hm.
  assert (k = Z.of_nat (length d')) as Ek' by lia. clear Ek.
  assert (seqZ 0 n = seqZ 0 k ++ seqZ k (n - k)) as Es.
  { replace n with (k + (n - k)) at 1 by lia. by rewrite seqZ_app by lia. }
  rewrite E in Es. apply app_inj_1 in Es as [Ed _]; [|rewrite length_seqZ; lia].
  pose proof (NoDup_seqZ 0 n) as Hnd. rewrite E in Hnd.
  apply NoDup_app in Hnd as (_ & Hd & Hr). apply NoDup_cons in Hr as [Hr _].
  rewrite <- Ed. split_and!; [done|..].
  - intros (k' & Ek1 & Hk1)%list_elem_of_fmap. apply (Hd k' Hk1).
    assert (k = k') as -> by nia. set_solver.
  - intros (k' & Ek1 & Hk1)%list_elem_of_fmap. apply Hr. assert (k = k') as -> by nia. done.
Qed.

Definition canonical (va : Z) : Prop := 0 <= va < 2 ^ 47 \/ 2 ^ 64 - 2 ^ 47 <= va < 2 ^ 64.

Lemma address_is_canonical_spec va :
  is_u64 va -> (address_is_canonical va = true <-> canonical va).
Proof.
  unfold is_u64, UINT64_MAX, address_is_canonical, canonical. intros Hva.
  rewrite Z.shiftr_div_pow2 by lia. rewrite orb_true_iff, !Z.eqb_eq.
  pose proof (Z.div_mod va (2 ^ 47) ltac:(lia)). pose proof (Z.mod_pos_bound va (2 ^ 47)).
  split; intros; lia.
Qed.

(** Canonical addresses have the same prefix exactly when they share the page. *)
Lemma vpre_page a b l :
  0 <= l <= 3 -> canonical a -> canonical b ->
  (vpre a l = vpre b l <-> a / 2 ^ (12 + 9 * l) = b / 2 ^ (12 + 9 * l)).
Proof.
  intros Hl Ha Hb. unfold vpre.
  set (ps := 2 ^ (12 + 9 * l)).
  assert (exists m, 0 < m /\ 2 ^ 47 = m * ps /\ 0 < ps) as (m & Hm & Em & Hps).
  { exists (2 ^ (47 - (12 + 9 * l))). split_and!; [apply Z.pow_pos_nonneg; lia| |
      apply Z.pow_pos_nonneg; lia]. unfold ps. rewrite <- Z.pow_add_r by lia. f_equal. lia. }
  assert (forall x, canonical x ->
    (x mod 2 ^ 48 / ps = x / ps /\ 0 <= x / ps < m) \/
    (x mod 2 ^ 48 / ps = x / ps - (2 ^ 17 - 2) * m /\ m <= x mod 2 ^ 48 / ps /\
     (2 ^ 17 - 1) * m <= x / ps)) as Hx.
  { intros x [Hx|Hx].
    - left. rewrite Z.mod_small by lia. split; [done|]. split; [by apply Z.div_pos; lia|].
      apply Z.div_lt_upper_bound; [done|]. lia.
    - right. assert (x mod 2 ^ 48 = x - (2 ^ 17 - 2) * m * ps) as ->.
      { rewrite <- Z.mul_assoc, <- Em. symmetry. apply (Z.mod_unique_pos _ _ (2 ^ 16 - 1)); lia. }
      replace (x - (2 ^ 17 - 2) * m * ps) with (x + (- ((2 ^ 17 - 2) * m)) * ps) by ring.
      rewrite Z.div_add by lia. split_and!; [lia| |].
      + pose proof (Z.div_le_mono (2 ^ 64 - 2 ^ 47) x ps Hps ltac:(lia)) as Hx'.
        replace (2 ^ 64 - 2 ^ 47) with ((2 ^ 17 - 1) * m * ps) in Hx'
          by (rewrite <- Z.mul_assoc, <- Em; reflexivity).
        rewrite Z.div_mul in Hx' by lia. lia.
      + replace ((2 ^ 17 - 1) * m) with ((2 ^ 17 - 1) * m * ps / ps) by (apply Z.div_mul; lia).
        apply Z.div_le_mono; [done|]. rewrite <- Z.mul_assoc, <- Em. lia. }
  destruct (Hx a Ha) as [[Ea Ra]|(Ea & Ra & Ra')], (Hx b Hb) as [[Eb Rb]|(Eb & Rb & Rb')]; lia.
Qed.

(** What a validated virtual range is. *)
Record vrange (va length L : Z) : Prop := {
  vr_va : is_u64 va;
  vr_level : 1 <= L <= 4;
  vr_pos : 0 < length;
  vr_aligned : va mod level_page_size L = 0;
  vr_pages : length mod level_page_size L = 0;
  vr_end : va + length <= UINT64_MAX;
  vr_first : canonical va;
  vr_last : canonical (va + length - 1)
}.

Lemma land_page_mask x L : 1 <= L -> Z.land x (level_page_size L - 1) = x mod level_page_size L.
Proof. intros HL. rewrite level_page_size_eq. apply land_low_mask. lia. Qed.

Lemma validate_virtual_range_ok va length L :
  is_u64 va -> is_u64 length -> 1 <= L <= 4 ->
  (validate_virtual_range va length (level_page_size L) = PAGING_STATUS_OK <->
   vrange va length L).
Proof.
  intros Hva Hlen HL. unfold validate_virtual_range.
  rewrite !land_page_mask by lia.
  assert (forall x, is_u64 x -> address_is_canonical x = false -> ~ canonical x) as Hno.
  { intros x Hx E Hc. apply address_is_canonical_spec in Hc; [congruence|done]. }
  unfold is_u64 in *. split.
  - intros E. repeat split_if_in E; try done. bool_hyps.
    assert (u64 (va + length - 1) = va + length - 1) as Eu
      by (apply u64_small; unfold is_u64; lia).
    rewrite Eu in *. split; try lia; try done;
      apply address_is_canonical_spec; unfold is_u64; try lia; assumption.
  - intros [_ _ Hpos Ha Hp Hend Hf Hl].
    assert (u64 (va + length - 1) = va + length - 1) as Eu
      by (apply u64_small; unfold is_u64; lia).
    rewrite Ha, Hp, Eu. cbn [negb orb Z.eqb].
    apply address_is_canonical_spec in Hf, Hl; unfold is_u64; try lia. rewrite Hf, Hl.
    cbn [negb]. repeat split_if; bool_hyps; try done; lia.
Qed.

(** A range within the physical limit lies in one half of the address space. *)
Definition one_half (va length : Z) : Prop :=
  va + length <= 2 ^ 47 \/ 2 ^ 64 - 2 ^ 47 <= va.

Lemma vrange_half va length L : vrange va length L -> length <= 2 ^ 52 -> one_half va length.
Proof.
  intros [Hva _ Hpos _ _ Hend Hf Hl] Hlen. unfold is_u64, UINT64_MAX, canonical, one_half in *.
  lia.
Qed.

Section validated.
Context (va length L : Z) (V : vrange va length L) (Hhalf : one_half va length).

Lemma vrange_count : length = length / level_page_size L * level_page_size L.
Proof.
  destruct V. pose proof (page_size_pos L ltac:(lia)).
  pose proof (Z.div_mod length (level_page_size L)). lia.
Qed.

Lemma elem_of_range off :
  off ∈ offsets length (level_page_size L) <->
  exists k, 0 <= k < length / level_page_size L /\ off = k * level_page_size L.
Proof.
  pose proof (page_size_pos L ltac:(destruct V; lia)). rewrite vrange_count at 1.
  apply elem_of_offsets_mult; [done|]. apply Z.div_pos; destruct V; lia.
Qed.

Lemma range_offset off :
  off ∈ offsets length (level_page_size L) ->
  0 <= off /\ off + level_page_size L <= length /\ u64 (va + off) = va + off /\
  canonical (va + off).
Proof.
  intros (k & Hk & ->)%elem_of_range. pose proof vrange_count as E. destruct V.
  pose proof (page_size_pos L ltac:(lia)). set (ps := level_page_size L) in *.
  set (n := length / ps) in *. assert (0 <= k * ps /\ k * ps + ps <= length) as Hr by nia.
  split_and!; try lia.
  - apply u64_small. unfold is_u64 in *. lia.
  - unfold canonical, one_half in *. lia.
Qed.

(** The pages of a validated range cover exactly its addresses. *)
Lemma covered_range va' :
  canonical va' ->
  (covered va L (offsets length (level_page_size L)) va' <-> va <= va' < va + length).
Proof.
  intros Hc. unfold covered. rewrite Exists_exists. pose proof vrange_count as E.
  pose proof (vr_aligned _ _ _ V) as Ha. pose proof (vr_level _ _ _ V) as HL.
  pose proof (page_size_pos L ltac:(lia)) as Hps.
  assert (forall off, off ∈ offsets length (level_page_size L) ->
    (vpre va' (L - 1) = vpre (u64 (va + off)) (L - 1) <->
     va' / level_page_size L = (va + off) / level_page_size L)) as Hoff.
  { intros off Hin. destruct (range_offset off Hin) as (_ & _ & -> & Hco).
    rewrite vpre_page by (done || lia). by rewrite level_page_size_eq. }
  pose proof (Z.div_mod va (level_page_size L) ltac:(lia)) as Ev. rewrite Ha in Ev.
  pose proof (Z.div_mod va' (level_page_size L) ltac:(lia)) as Ev'.
  pose proof (Z.mod_pos_bound va' (level_page_size L) Hps) as Hm.
  set (ps := level_page_size L) in *. set (n := length / ps) in *.
  assert (forall k, (va + k * ps) / ps = va / ps + k) as Hdiv by (intros; apply Z.div_add; lia).
  split.
  - intros (off & Hin & Hp). apply Hoff in Hp; [|done].
    apply elem_of_range in Hin as (k & Hk & ->). fold ps n in Hk, Hp. rewrite Hdiv in Hp. nia.
  - intros Hr. exists ((va' / ps - va / ps) * ps).
    assert ((va' / ps - va / ps) * ps ∈ offsets length ps) as Hin.
    { apply elem_of_range. exists (va' / ps - va / ps). split; [|done]. fold ps n. nia. }
    split; [done|]. apply Hoff; [done|]. rewrite Hdiv. lia.
Qed.

(** Different offsets are different pages. *)
Lemma range_distinct o1 o2 :
  o1 ∈ offsets length (level_page_size L) -> o2 ∈ offsets length (level_page_size L) ->
  vpre (u64 (va + o1)) (L - 1) = vpre (u64 (va + o2)) (L - 1) -> o1 = o2.
Proof.
  intros H1 H2. pose proof (range_offset o1 H1) as (_ & _ & -> & Hc1).
  pose proof (range_offset o2 H2) as (_ & _ & -> & Hc2).
  pose proof (vr_level _ _ _ V) as HL. pose proof (page_size_pos L ltac:(lia)) as Hps.
  rewrite vpre_page, <- level_page_size_eq by (done || lia).
  apply elem_of_range in H1 as (k1 & _ & ->). apply elem_of_range in H2 as (k2 & _ & ->).
  rewrite !Z.div_add by lia. intros. f_equal. lia.
Qed.
End validated.

(** ** Mapping *)

(** Nothing is mapped on a page, and its entry is free. *)
Definition vacant (T : gmap Z (Z * Z)) (s : space F) (a L : Z) : Prop :=
  (forall va', vpre va' (L - 1) = vpre a (L - 1) -> leaf s va' = None) /\
  (forall t, T !! t = Some (L, vpre a L) ->
     has (load s (slot_at t (table_index a L))) PAGE_PRESENT = false).

(** The leaf map_range writes for the page at [off]. *)
Definition page_value (physical permissions L off : Z) : Z :=
  let value := Z.lor (u64 (physical + off)) (permissions_to_flags permissions) in
  if L >? 1 then Z.lor value PAGE_HUGE else value.

Lemma flags_present p : has (permissions_to_flags p) PAGE_PRESENT = true.
Proof.
  unfold permissions_to_flags. cbv zeta.
  repeat case_match; unfold PAGE_PRESENT, PAGE_WRITABLE, PAGE_NO_EXECUTE, PAGE_CACHE_DISABLE,
    PAGE_WRITE_THROUGH; rewrite ?has_lor by lia; reflexivity.
Qed.

Lemma flags_nonneg p : 0 <= permissions_to_flags p.
Proof.
  unfold permissions_to_flags. cbv zeta.
  repeat case_match; rewrite ?Z.lor_nonneg; split_and?; done.
Qed.

Lemma page_value_spec pa p L off :
  1 <= L -> 0 <= page_value pa p L off /\ no_link L (page_value pa p L off) /\
  has (page_value pa p L off) PAGE_PRESENT = true.
Proof.
  intros HL. pose proof (u64_range (pa + off)) as [Hu _]. pose proof (flags_nonneg p) as Hf.
  pose proof (flags_present p) as Hp. unfold page_value.
  assert (has (Z.lor (u64 (pa + off)) (permissions_to_flags p)) PAGE_PRESENT = true) as Hp'.
  { unfold PAGE_PRESENT in *. rewrite has_lor by lia. rewrite Hp. apply orb_true_r. }
  assert (0 <= Z.lor (u64 (pa + off)) (permissions_to_flags p)) as Hnn
    by (apply Z.lor_nonneg; by split).
  destruct (L >? 1) eqn:E; bool_hyps; split_and!; try done.
  - by apply Z.lor_nonneg.
  - right. right. unfold PAGE_HUGE. rewrite has_lor by lia. by rewrite orb_comm.
  - unfold PAGE_PRESENT in *. rewrite has_lor by lia. by rewrite Hp'.
  - left. lia.
Qed.

Lemma walk_level (s : space F) va n : forall l t l' e,
  walk n l t va s = Some (l', e) -> l - Z.of_nat n <= l' <= l.
Proof.
  induction n as [|n IH]; intros l t l' e; cbn [walk];
    (destruct (has _ PAGE_PRESENT); [|done]); cbn [negb]; [intros [= <- <-]; lia|].
  destruct (has _ PAGE_HUGE); [intros [= <- <-]; lia|]. intros E%IH. lia.
Qed.

Lemma leaf_level (s : space F) va l e : leaf s va = Some (l, e) -> 1 <= l <= 4.
Proof. intros E%walk_level. lia. Qed.

(** The entry of a leaf, in the table of its level. *)
Lemma leaf_slot T s va t L v :
  tree T s -> T !! t = Some (L, vpre va L) -> leaf s va = Some (L, v) ->
  load s (slot_at t (table_index va L)) = v /\ no_link L v.
Proof.
  intros Ht Hl. pose proof (tr_range _ _ _ _ _ Ht Hl) as Hr.
  rewrite (walk_reach T s va t L Ht Hl). destruct (Z.to_nat (L - 1)) as [|n] eqn:En; cbn [walk];
    (destruct (has _ PAGE_PRESENT); [|done]); cbn [negb].
  - intros [= <-]. split; [done|]. left. lia.
  - destruct (has _ PAGE_HUGE) eqn:Eh; [intros [= <-]; split; [done|by right; right]|].
    intros E%walk_level. lia.
Qed.

(** Why the first pass of map_range refuses. *)
Definition map_refusal (T : gmap Z (Z * Z)) (s : space F) (va L : Z) (offs : list Z)
    (status : paging_status) : Prop :=
  match status with
  | PAGING_STATUS_ALREADY_MAPPED => exists off t, off ∈ offs /\
      T !! t = Some (L, vpre (u64 (va + off)) L) /\
      has (load s (slot_at t (table_index (u64 (va + off)) L))) PAGE_PRESENT = true
  | PAGING_STATUS_HUGE_PAGE_PRESENT => exists off l e,
      off ∈ offs /\ leaf s (u64 (va + off)) = Some (l, e) /\ L < l
  | _ => False
  end.

(** What entry_for says of a page without changing anything. *)
Lemma probe_spec T s a L :
  ok T s -> 1 <= L <= 4 ->
  let '(st, slot, s') := entry_for a L false s in
  s' = s /\
  match st with
  | PAGING_STATUS_OK => exists t, T !! t = Some (L, vpre a L) /\
      slot = slot_at t (table_index a L)
  | PAGING_STATUS_NOT_MAPPED => vacant T s a L
  | PAGING_STATUS_HUGE_PAGE_PRESENT => exists l e, leaf s a = Some (l, e) /\ L < l
  | _ => False
  end.
Proof.
  intros Hok HL. pose proof (entry_for_spec T s a L false Hok HL) as He.
  destruct (entry_for a L false s) as [[st slot] s'].
  destruct He as (T1 & _ & _ & Hans & Hsame). destruct (Hsame eq_refl) as [-> ->].
  split; [done|]. destruct st; try done; cbn in Hans.
  - by destruct Hans as [_ ?].
  - destruct Hans as (_ & Hno & Hno'). split.
    + intros va' E. apply Hno. by apply (vpre_agree va' a (L - 1)); [lia|].
    + intros t Ht. by destruct (Hno' t).
  - by destruct Hans as (_ & _ & ?).
Qed.

(** A free entry in the table of its level means nothing is mapped there. *)
Lemma vacant_slot T s t a L :
  ok T s -> T !! t = Some (L, vpre a L) ->
  has (load s (slot_at t (table_index a L))) PAGE_PRESENT = false -> vacant T s a L.
Proof.
  intros [Ht _ _] Hl Hp. pose proof (tr_range _ _ _ _ _ Ht Hl) as Hr. split.
  - intros va' E. rewrite (walk_reach T s va' t L Ht)
      by (by rewrite (vpre_agree va' a (L - 1) L ltac:(lia) E)).
    destruct (Z.to_nat (L - 1)); cbn [walk];
      rewrite (index_agree va' a (L - 1) L ltac:(lia) ltac:(lia) E); by rewrite Hp.
  - intros t' Hl'. by rewrite (tr_inj _ _ Ht _ _ _ Hl' Hl).
Qed.

Lemma check_unmapped_spec T s va length L :
  ok T s -> 1 <= L <= 4 ->
  let offs := offsets length (level_page_size L) in
  let st := check_unmapped va length L s in
  if is_ok st then forall off, off ∈ offs -> vacant T s (u64 (va + off)) L
  else map_refusal T s va L offs st.
Proof.
  intros Hok HL offs. unfold check_unmapped. fold offs.
  match goal with |- context [for_each ?b offs tt] => set (body := b) end.
  pose proof (for_each_inv
    (fun rest (_ : unit) => (forall off, off ∈ rest -> off ∈ offs) /\
       forall off, off ∈ offs -> off ∈ rest \/ vacant T s (u64 (va + off)) L)
    (map_refusal T s va L offs) body offs tt) as Hinv.
  destruct (for_each body offs tt) as [u|st].
  2: assert (map_refusal T s va L offs st) as Hr; [|by destruct st].
  1: intros off Hin; destruct Hinv as [_ Hv];
    [|by auto|by destruct (Hv off Hin) as [?%not_elem_of_nil|?]].
  2: apply Hinv; [|by auto].
  all: clear -Hok HL; intros off rest [] [Hsub Hv]; unfold body.
  all: pose proof (probe_spec T s (u64 (va + off)) L Hok HL) as Hp.
  all: destruct (entry_for _ L false s) as [[st' slot] s'] eqn:Ee; destruct Hp as [-> Hst].
  all: assert (vacant T s (u64 (va + off)) L -> (forall o, o ∈ rest -> o ∈ offs) /\
    forall o, o ∈ offs -> o ∈ rest \/ vacant T s (u64 (va + o)) L) as Hnext
    by (intros Hvac; split; [set_solver|]; intros o Ho;
        destruct (Hv o Ho) as [[->|?]%elem_of_cons|?]; auto).
  all: destruct st'; try done; unfold is_ok; repeat (case_bool_decide; try done); cbn [negb];
    auto.
  2,4: destruct Hst as (l & e & Hlf & ?); exists off, l, e; split; [set_solver|done].
  all: destruct Hst as (t & Hl & ->); cbn;
    destruct (has (load s _) PAGE_PRESENT) eqn:Epr.
  all: try (apply Hnext; by eapply vacant_slot).
  all: exists off, t; split; [set_solver|done].
Qed.
(** [extends] keeps a vacant page vacant. *)
Lemma vacant_extends T T' s s' a b L :
  1 <= L <= 4 -> extends a L T T' s s' -> vacant T s b L -> vacant T' s' b L.
Proof.
  intros HL Hex [Hlf Hsl]. split.
  - intros va' E. rewrite (ex_leaf _ _ _ _ _ _ Hex). by apply Hlf.
  - intros t Hl. pose proof (index_range b L HL) as Hi. destruct (T !! t) as [[l pre]|] eqn:E.
    + pose proof (lookup_weaken _ _ _ _ E (ex_sub _ _ _ _ _ _ Hex)) as E'.
      rewrite Hl in E'. injection E' as <- <-.
      rewrite (ex_old _ _ _ _ _ _ Hex t L (vpre b L)) by (done || lia). by apply Hsl.
    + by rewrite (ex_new _ _ _ _ _ _ Hex t L (vpre b L)) by (done || lia).
Qed.

(** The second pass of map_range after the pages [d]. *)
Record mapping (va pa perms L : Z) (offs d : list Z) (T0 T : gmap Z (Z * Z))
    (s0 s : space F) : Prop := {
  mp_ok : ok T s;
  mp_done : forall off va', off ∈ d -> vpre va' (L - 1) = vpre (u64 (va + off)) (L - 1) ->
    leaf s va' = Some (L, page_value pa perms L off);
  mp_else : forall va', ~ covered va L d va' -> leaf s va' = leaf s0 va';
  mp_rest : forall off, off ∈ offs -> off ∉ d -> vacant T s (u64 (va + off)) L;
  mp_root : s.(hier).(root) = s0.(hier).(root);
  mp_live : s.(hier).(live) = s0.(hier).(live);
  mp_told : told L s0 s;
  mp_packed : packed T0 s0 -> packed T s;
  mp_sub : T0 ⊆ T;
  mp_frames : same_rest T0 T s0 s
}.

(** Filling the entry that entry_for made keeps every table occupied. *)
Lemma packed_fill T T1 s s1 s2 a L t v :
  tree T1 s2 -> extends a L T T1 s s1 -> T1 !! t = Some (L, vpre a L) ->
  has v PAGE_PRESENT = true ->
  (forall t' l' pre' j, T1 !! t' = Some (l', pre') -> 0 <= j < 512 ->
     load s2 (slot_at t' j) =
       if bool_decide (t = t' /\ table_index a L = j) then v else load s1 (slot_at t' j)) ->
  packed T s -> packed T1 s2.
Proof.
  intros Ht Hex Hl Hv Hld Hpk t' l pre Hl' H4.
  pose proof (index_range a L (tr_range _ _ _ _ _ Ht Hl)) as Hi.
  destruct (T !! t') as [[l0 pre0]|] eqn:E.
  - pose proof (lookup_weaken _ _ _ _ E (ex_sub _ _ _ _ _ _ Hex)) as E'.
    rewrite Hl' in E'. injection E' as <- <-. destruct (Hpk t' l pre E H4) as (i & Hi' & Hp).
    exists i. split; [done|]. rewrite (Hld t' l pre i Hl' Hi'). case_bool_decide; [done|].
    by rewrite (ex_keep _ _ _ _ _ _ Hex t' _ i E Hi' Hp).
  - destruct (ex_path _ _ _ _ _ _ Hex t' l pre Hl' E) as [-> Hle].
    eapply (path_occupied T1 s2 a L t); try done. exists (table_index a L). split; [done|].
    rewrite (Hld t L _ _ Hl Hi). by rewrite bool_decide_true.
Qed.

Section map_loop.
Context (va pa perms L : Z) (offs : list Z) (T0 : gmap Z (Z * Z)) (s0 : space F).
Context (HL : 1 <= L <= 4).
Context (Hdistinct : forall o1 o2, o1 ∈ offs -> o2 ∈ offs ->
  vpre (u64 (va + o1)) (L - 1) = vpre (u64 (va + o2)) (L - 1) -> o1 = o2).
Context (Hvacant : forall off, off ∈ offs -> vacant T0 s0 (u64 (va + off)) L).

Lemma mapping_start : ok T0 s0 -> mapping va pa perms L offs [] T0 T0 s0 s0.
Proof.
  intros Hok. split; try done; 
    [by intros ?? ?%not_elem_of_nil|by auto|by apply told_refl|by apply same_rest_refl].
Qed.

(** One more page is written. *)
Lemma mapping_next d T s x T1 s1 t :
  mapping va pa perms L offs d T0 T s0 s -> d ⊆ offs -> x ∈ offs -> x ∉ d ->
  let a := u64 (va + x) in let v := page_value pa perms L x in
  ok T1 s1 -> extends a L T T1 s s1 -> same_rest T T1 s s1 -> T1 !! t = Some (L, vpre a L) ->
  mapping va pa perms L offs (d ++ [x]) T0 T1 s0
    (invalidate a (store s1 (slot_at t (table_index a L)) v)).
Proof.
  intros M Hd Hx Hnx a v Hok1 Hex Hrest Hl. destruct (page_value_spec pa perms L x ltac:(lia))
    as (Hv0 & Hvn & Hvp).
  pose proof (vacant_extends _ _ _ _ _ _ _ HL Hex (mp_rest _ _ _ _ _ _ _ _ _ _ M x Hx Hnx))
    as [Hnone Hfree].
  destruct (write_entry_spec T1 s1 t L a v Hok1 Hl Hv0 Hvn) as (Hok2 & Hlf & Hld & Hh & Hff & Hfl).
  { right. left. by apply Hfree. }
  set (s2 := invalidate a _) in *. fold v in Hvp. rewrite Hvp in Hlf. split; try done.
  - intros off va' [Hin|Hin%list_elem_of_singleton]%elem_of_app E.
    + rewrite Hlf. rewrite decide_False.
      * rewrite (ex_leaf _ _ _ _ _ _ Hex). by apply (mp_done _ _ _ _ _ _ _ _ _ _ M).
      * intros E'. destruct Hnx. rewrite (Hdistinct x off); [done|done|by apply Hd|].
        unfold a in *. congruence.
    + subst off. rewrite Hlf. by rewrite decide_True.
  - intros va' Hnc. rewrite Hlf. unfold covered in Hnc. rewrite Exists_app, Exists_cons in Hnc.
    rewrite decide_False by (intros E; apply Hnc; auto).
    rewrite (ex_leaf _ _ _ _ _ _ Hex). apply (mp_else _ _ _ _ _ _ _ _ _ _ M). naive_solver.
  - intros off Hin Hn. rewrite elem_of_app, list_elem_of_singleton in Hn.
    apply Decidable.not_or in Hn as [Hn1 Hn2].
    assert (vpre (u64 (va + off)) (L - 1) <> vpre a (L - 1)) as Hne.
    { intros E. apply Hn2. by apply Hdistinct. }
    destruct (vacant_extends _ _ _ _ _ _ _ HL Hex (mp_rest _ _ _ _ _ _ _ _ _ _ M off Hin Hn1))
      as [Hno Hfr]. split.
    + intros va' E. rewrite Hlf. rewrite decide_False by congruence. by apply Hno.
    + intros t' Hl'. rewrite (Hld t' _ _ _ Hl' (index_range _ _ HL)).
      rewrite bool_decide_false; [by apply Hfr|]. intros [<- E]. apply Hne.
      rewrite Hl in Hl'. injection Hl' as Ep. rewrite !vpre_step by done. congruence.
  - rewrite Hh, (ex_root _ _ _ _ _ _ Hex). apply M.
  - rewrite Hh, (ex_live _ _ _ _ _ _ Hex). apply M.
  - eapply told_trans; [apply M|apply M|].
    exists (if live (hier s1) then [a] else []). split.
    { rewrite Hfl, (ex_flushed _ _ _ _ _ _ Hex). by destruct (live _). }
    intros Hli va' Hne. rewrite (ex_live _ _ _ _ _ _ Hex), Hli. exists a. split; [set_solver|].
    rewrite Hlf in Hne. case_decide; [done|]. by rewrite (ex_leaf _ _ _ _ _ _ Hex) in Hne.
  - intros Hpk. eapply packed_fill; [by apply ok_tree|done|done|exact Hvp|done|]. by apply M.
  - etrans; [apply M|apply Hex].
  - eapply same_rest_trans; [apply M|]. eapply same_rest_trans; [exact Hrest|].
    apply same_rest_refl; [by rewrite Hh|done].
Qed.

(** Out of frames: the pages written so far are cleared again. *)
Lemma mapping_undo d T s x T1 s1 :
  mapping va pa perms L offs d T0 T s0 s -> d ⊆ offs ->
  ok T1 s1 -> extends x L T T1 s s1 ->
  let s2 := foldl (clear_page va L) s1 d in
  exists T2, ok T2 s2 /\ (forall va', leaf s2 va' = leaf s0 va') /\ told L s0 s2 /\
    s2.(hier).(root) = s0.(hier).(root) /\ s2.(hier).(live) = s0.(hier).(live).
Proof.
  intros M Hd Hok1 Hex s2.
  destruct (clear_loop_spec va L d HL T1 s1 Hok1) as (T2 & W).
  { intros off Hin. assert (leaf s1 (u64 (va + off)) = Some (L, page_value pa perms L off)) as E
      by (rewrite (ex_leaf _ _ _ _ _ _ Hex); by apply (mp_done _ _ _ _ _ _ _ _ _ _ M)).
    split; [rewrite E; by intros ? ? [= <- _]|]. intros t Hl.
    by destruct (leaf_slot T1 s1 _ t L _ (ok_tree _ _ Hok1) Hl E) as [-> ?]. }
  exists T2. destruct W. split_and!; try done.
  - intros va'. rewrite wp_leaf0. case_decide as E.
    + unfold covered in E. rewrite Exists_exists in E. destruct E as (off & Hin & E).
      symmetry. by apply (Hvacant off (Hd _ Hin)).
    + rewrite (ex_leaf _ _ _ _ _ _ Hex). by apply (mp_else _ _ _ _ _ _ _ _ _ _ M).
  - eapply told_trans; [apply M|apply M|].
    eapply (told_trans _ _ s1); [apply Hex| |done]. apply told_refl; apply Hex.
  - unfold s2. rewrite wp_root0, (ex_root _ _ _ _ _ _ Hex). apply M.
  - unfold s2. rewrite wp_live0, (ex_live _ _ _ _ _ _ Hex). apply M.
Qed.
End map_loop.

(** What an operation that failed or changed nothing visible leaves. *)
Record unmoved (L : Z) (s s' : space F) : Prop := {
  um_ok : exists T', ok T' s';
  um_leaf : forall va, leaf s' va = leaf s va;
  um_told : told L s s';
  um_root : s'.(hier).(root) = s.(hier).(root);
  um_live : s'.(hier).(live) = s.(hier).(live)
}.

Lemma unmoved_refl L T s : ok T s -> unmoved L s s.
Proof. intros Hok. split; eauto. by apply told_refl. Qed.

(** What a map_range that succeeded leaves. *)
Record mapped (va pa length perms L : Z) (T : gmap Z (Z * Z)) (s s' : space F) : Prop := {
  md_ok : exists T', ok T' s' /\ (packed T s -> packed T' s') /\ T ⊆ T' /\ same_rest T T' s s';
  md_page : forall off va', off ∈ offsets length (level_page_size L) ->
    vpre va' (L - 1) = vpre (u64 (va + off)) (L - 1) ->
    leaf s va' = None /\ leaf s' va' = Some (L, page_value pa perms L off);
  md_else : forall va', ~ covered va L (offsets length (level_page_size L)) va' ->
    leaf s' va' = leaf s va';
  md_told : told L s s';
  md_root : s'.(hier).(root) = s.(hier).(root);
  md_live : s'.(hier).(live) = s.(hier).(live)
}.

Lemma map_loop_spec va pa length perms L T s :
  ok T s -> vrange va length L -> one_half va length ->
  check_unmapped va length L s = PAGING_STATUS_OK ->
  match for_each (map_page va pa perms L) (offsets length (level_page_size L)) s with
  | Next s' => mapped va pa length perms L T s s'
  | Return (st, s') => unmoved L s s' /\
      (st = PAGING_STATUS_OUT_OF_FRAMES \/ st = PAGING_STATUS_PHYSICAL_TOO_WIDE)
  end.
Proof.
  intros Hok V Hh Hchk. pose proof (vr_level _ _ _ V) as HL.
  pose proof (check_unmapped_spec T s va length L Hok HL) as Hvac. cbv zeta in Hvac.
  rewrite Hchk in Hvac. change (is_ok PAGING_STATUS_OK) with true in Hvac. cbv iota in Hvac.
  pose proof (range_distinct va length L V Hh) as Hdist.
  pose proof (vrange_count va length L V) as Ecount.
  pose proof (page_size_pos L ltac:(lia)) as Hps.
  set (ps := level_page_size L) in *. set (offs := offsets length ps) in *.
  pose proof (for_each_inv
    (fun rest s' => exists d T', offs = d ++ rest /\ mapping va pa perms L offs d T T' s s')
    (fun '(st, s') => unmoved L s s' /\
       (st = PAGING_STATUS_OUT_OF_FRAMES \/ st = PAGING_STATUS_PHYSICAL_TOO_WIDE))
    (map_page va pa perms L) offs s) as Hloop.
  destruct (for_each (map_page va pa perms L) offs s) as [s'|[st s']];
    [destruct Hloop as (d & T' & Ed & M)|apply Hloop].
  3: { rewrite app_nil_r in Ed. subst d. split; try apply M; [exists T'; split_and!; apply M|].
       intros off va' Hin E. split; [by apply (Hvac off)|by apply (mp_done _ _ _ _ _ _ _ _ _ _ M)]. }
  2,4: exists [], T; split; [done|by apply mapping_start].
  all: intros x rest s1 (d & T1 & Ed & M); unfold map_page.
  all: assert (offs = offsets (length / ps * ps) ps) as Eo by (unfold offs; by rewrite <- Ecount).
  all: rewrite Eo in Ed; apply offsets_before in Ed as Hbef;
    [|done|by apply Z.div_pos; destruct V; lia]; rewrite <- Eo in Ed.
  all: destruct Hbef as (Ebef & Hxd & _).
  all: assert (d ⊆ offs /\ x ∈ offs) as [Hd Hx] by (rewrite Ed; set_solver).
  all: pose proof (entry_for_spec T1 s1 (u64 (va + x)) L true (mp_ok _ _ _ _ _ _ _ _ _ _ M) HL) as He.
  all: destruct (entry_for _ L true s1) as [[st1 slot] s2]; destruct He as (T2 & Hok2 & Hex & Hans & _).
  all: unfold is_ok; case_bool_decide as Est; cbn [negb].
  1,3: subst st1; destruct Hans as (Hrest & t & Hl & ->); exists (d ++ [x]), T2;
    (split; [by rewrite <- app_assoc|]); by apply (mapping_next va pa perms L offs T s HL Hdist Hvac d T1 s1).
  all: pose proof (mapping_undo va pa perms L offs T s HL Hvac d T1 s1 _ T2 s2 M Hd Hok2 Hex)
    as (T3 & Hok3 & Hlf & Htold & Hr & Hli).
  all: unfold clear_range; fold ps; rewrite Ebef; split; [split; eauto|].
  all: destruct st1; try done; auto; unfold entry_answer in Hans; try (by destruct Hans).
  all: destruct Hans as (_ & _ & l & e & Hlf' & _).
  all: by rewrite (proj1 (mp_rest _ _ _ _ _ _ _ _ _ _ M x Hx Hxd) _ eq_refl) in Hlf'.
Qed.

(** What a validated physical range is. *)
Lemma validate_physical_range_ok pa length L :
  is_u64 pa -> is_u64 length -> 1 <= L <= 4 ->
  (validate_physical_range pa length (level_page_size L) = PAGING_STATUS_OK <->
   pa mod level_page_size L = 0 /\ pa + length <= 2 ^ 52).
Proof.
  intros Hpa Hlen HL. unfold validate_physical_range. rewrite land_page_mask by lia.
  change PAGE_PHYSICAL_LIMIT with (2 ^ 52). unfold is_u64, UINT64_MAX in *. split.
  - intros E. repeat split_if_in E; try done. bool_hyps.
    rewrite u64_small in * by (unfold is_u64, UINT64_MAX; lia). lia.
  - intros [Ha Hlim]. rewrite Ha. cbn [Z.eqb negb].
    rewrite u64_small by (unfold is_u64, UINT64_MAX; lia).
    repeat split_if; bool_hyps; try done; lia.
Qed.

(** The arguments a call of map_range can have. *)
Record map_args (va pa length L : Z) : Prop := {
  ma_va : is_u64 va;
  ma_pa : is_u64 pa;
  ma_length : is_u64 length;
  ma_level : 1 <= L <= 4
}.

Lemma map_range_spec va pa length perms L T s :
  ok T s -> map_args va pa length L ->
  let '(st, s') := map_range va pa length perms L s in
  match st with
  | PAGING_STATUS_OK =>
      validate_permissions perms = PAGING_STATUS_OK /\ vrange va length L /\
      pa mod level_page_size L = 0 /\ pa + length <= 2 ^ 52 /\
      mapped va pa length perms L T s s'
  | PAGING_STATUS_OUT_OF_FRAMES | PAGING_STATUS_PHYSICAL_TOO_WIDE => unmoved L s s'
  | _ => s' = s
  end.
Proof.
  intros Hok [Hva Hpa Hlen HL]. unfold map_range, is_ok.
  case_bool_decide as Eperm; cbn [negb]; [|by destruct (validate_permissions perms);
    try done; by eapply unmoved_refl].
  case_bool_decide as Ev; cbn [negb]; [|by destruct (validate_virtual_range _ _ _);
    try done; by eapply unmoved_refl].
  case_bool_decide as Ep; cbn [negb]; [|by destruct (validate_physical_range _ _ _);
    try done; by eapply unmoved_refl].
  case_bool_decide as Ec; cbn [negb]; [|by destruct (check_unmapped _ _ _ _);
    try done; by eapply unmoved_refl].
  apply validate_virtual_range_ok in Ev; try done.
  apply validate_physical_range_ok in Ep as [Epa Elim]; try done.
  pose proof (map_loop_spec va pa length perms L T s Hok Ev) as Hloop.
  destruct (for_each _ _ s) as [s'|[st s']].
  - split_and!; try done. apply Hloop; [|done]. eapply vrange_half; [done|].
    unfold is_u64 in *. lia.
  - destruct Hloop as [Hu [-> | ->]]; try done. eapply vrange_half; [done|].
    unfold is_u64 in *. lia.
Qed.

(** ** Unmapping and protecting *)

Lemma leaf_page (s : space F) a b : vpre a 0 = vpre b 0 -> leaf s a = leaf s b.
Proof.
  intros E. unfold leaf. generalize (root (hier s)) as t.
  assert (forall n l t, l = Z.of_nat n + 1 -> l <= 4 -> walk n l t a s = walk n l t b s) as Hw;
    [|intros t; by apply Hw].
  induction n as [|n IH]; intros l t El Hl; cbn [walk];
    rewrite (index_agree a b 0 l ltac:(lia) Hl E); [done|].
  by rewrite (IH (l - 1)) by lia.
Qed.

Lemma leaf_here T s t a :
  tree T s -> T !! t = Some (1, vpre a 1) ->
  leaf s a = let e := load s (slot_at t (table_index a 1)) in
             if has e PAGE_PRESENT then Some (1, e) else None.
Proof.
  intros Ht Hl. rewrite (walk_reach T s a t 1 Ht Hl).
  change (Z.to_nat (1 - 1)) with 0%nat. cbn [walk]. cbv zeta. by destruct (has _ PAGE_PRESENT).
Qed.

(** Every page of the range is a 4 KiB leaf. *)
Definition all_mapped (s : space F) (va : Z) (offs : list Z) : Prop :=
  forall off, off ∈ offs -> exists e, leaf s (u64 (va + off)) = Some (1, e).

(** Why require_mapped_range refuses. *)
Definition unmap_refusal (s : space F) (va : Z) (offs : list Z) (status : paging_status)
  : Prop :=
  exists off, off ∈ offs /\
    match status with
    | PAGING_STATUS_NOT_MAPPED => leaf s (u64 (va + off)) = None
    | PAGING_STATUS_HUGE_PAGE_PRESENT => exists l e, leaf s (u64 (va + off)) = Some (l, e) /\ 1 < l
    | _ => False
    end.

Lemma require_mapped_spec T s va length :
  ok T s ->
  let offs := offsets length PAGING_PAGE_SIZE in
  let st := require_mapped_range va length s in
  if is_ok st then all_mapped s va offs else unmap_refusal s va offs st.
Proof.
  intros Hok offs. unfold require_mapped_range. fold offs.
  match goal with |- context [for_each ?b offs tt] => set (body := b) end.
  pose proof (for_each_inv
    (fun rest (_ : unit) => (forall off, off ∈ rest -> off ∈ offs) /\
       forall off, off ∈ offs -> off ∈ rest \/ exists e, leaf s (u64 (va + off)) = Some (1, e))
    (unmap_refusal s va offs) body offs tt) as Hinv.
  destruct (for_each body offs tt) as [u|st].
  2: assert (unmap_refusal s va offs st) as Hr; [|by destruct st; try done; destruct Hr as (? & _ & [])].
  1: intros off Hin; destruct Hinv as [_ Hv];
    [|by auto|by destruct (Hv off Hin) as [?%not_elem_of_nil|?]].
  2: apply Hinv; [|by auto].
  all: clear -Hok; intros off rest [] [Hsub Hv]; unfold body.
  all: pose proof (probe_spec T s (u64 (va + off)) 1 Hok ltac:(lia)) as Hp.
  all: destruct (entry_for _ 1 false s) as [[st' slot] s'] eqn:Ee; destruct Hp as [-> Hst].
  all: assert (off ∈ offs) as Hin by (apply Hsub; left).
  all: unfold is_ok; case_bool_decide as Est; cbn [negb].
  2,4: exists off; split; [done|]; destruct st'; try done;
    first [by apply (proj1 Hst)|done].
  all: subst st'; destruct Hst as (t & Hl & ->);
    pose proof (leaf_here T s t _ (ok_tree _ _ Hok) Hl) as Hlf; cbv zeta in Hlf.
  all: destruct (has (load s _) PAGE_PRESENT) eqn:Epr; cbn [negb]; [|by exists off].
  all: split; [set_solver|]; intros o Ho; destruct (Hv o Ho) as [[->|?]%elem_of_cons|?]; eauto.
Qed.

Lemma page_size_1 : PAGING_PAGE_SIZE = level_page_size 1.
Proof. reflexivity. Qed.

Lemma unmap_range_spec va length T s :
  ok T s -> is_u64 va -> is_u64 length ->
  let offs := offsets length PAGING_PAGE_SIZE in
  let '(st, s') := unmap_range va length s in
  if is_ok st then
    vrange va length 1 /\ all_mapped s va offs /\ exists T', wiped va 1 offs T T' s s'
  else s' = s.
Proof.
  intros Hok Hva Hlen offs. unfold unmap_range. rewrite page_size_1.
  destruct (is_ok (validate_virtual_range va length (level_page_size 1))) eqn:Ev; cbn [negb];
    [|by rewrite Ev].
  pose proof (require_mapped_spec T s va length Hok) as Hreq. cbv zeta in Hreq. fold offs in Hreq.
  destruct (is_ok (require_mapped_range va length s)) eqn:Er; cbn [negb]; [|by rewrite Er].
  change (is_ok PAGING_STATUS_OK) with true. cbv iota.
  apply bool_decide_eq_true in Ev. apply validate_virtual_range_ok in Ev; [|done|done|lia].
  split_and!; [done|done|]. unfold clear_range. rewrite <- page_size_1.
  apply clear_loop_spec; [lia|done|]. intros off Hin. destruct (Hreq off Hin) as (e & E).
  split; [rewrite E; intros ? ? [= <- _]; lia|]. by left.
Qed.

(** What apply_permissions makes of a leaf: its frame under the new flags. *)
Definition reflag (flags : Z) (x : Z * Z) : Z * Z :=
  (x.1, Z.lor (Z.land x.2 PAGE_FRAME_MASK) flags).

Lemma flags_no_frame p : Z.land (permissions_to_flags p) PAGE_FRAME_MASK = 0.
Proof. unfold permissions_to_flags. cbv zeta. repeat case_match; reflexivity. Qed.

Lemma reflag_twice p x :
  reflag (permissions_to_flags p) (reflag (permissions_to_flags p) x) =
  reflag (permissions_to_flags p) x.
Proof.
  destruct x as [l e]. unfold reflag. cbn. do 2 f_equal.
  rewrite Z.land_lor_distr_l, flags_no_frame, Z.lor_0_r, <- Z.land_assoc.
  by rewrite Z.land_diag.
Qed.

(** What protecting a list of pages does. *)
Record reprotected (va perms : Z) (offs : list Z) (T : gmap Z (Z * Z)) (s s' : space F)
  : Prop := {
  rp_ok : ok T s';
  rp_leaf : forall va', leaf s' va' =
    if decide (covered va 1 offs va')
    then reflag (permissions_to_flags perms) <$> leaf s va' else leaf s va';
  rp_told : told 1 s s';
  rp_hier : s'.(hier) = s.(hier);
  rp_packed : packed T s -> packed T s'
}.

Lemma apply_page_spec T s va perms off e :
  ok T s -> leaf s (u64 (va + off)) = Some (1, e) ->
  reprotected va perms [off] T s (apply_page va (permissions_to_flags perms) s off).
Proof.
  intros Hok Hlf. unfold apply_page. set (a := u64 (va + off)) in *.
  pose proof (probe_spec T s a 1 Hok ltac:(lia)) as Hp.
  destruct (entry_for a 1 false s) as [[st slot] s1]. destruct Hp as [-> Hst].
  destruct st; try done.
  2: { destruct Hst as [Hno _]. by rewrite Hno in Hlf. }
  2: { destruct Hst as (l & e' & E & ?). rewrite E in Hlf. injection Hlf as -> ->. lia. }
  destruct Hst as (t & Hl & ->). pose proof (ok_tree _ _ Hok) as Ht.
  destruct (leaf_slot T s a t 1 e Ht Hl Hlf) as [-> _]. cbn [is_ok bool_decide].
  change (is_ok PAGING_STATUS_OK) with true. cbn [negb].
  pose proof (index_range a 1 ltac:(lia)) as Hi.
  pose proof (flags_nonneg perms) as Hf. pose proof (flags_present perms) as Hpr.
  set (v := Z.lor (Z.land e PAGE_FRAME_MASK) (permissions_to_flags perms)).
  assert (has v PAGE_PRESENT = true) as Hv.
  { unfold v, PAGE_PRESENT in *. rewrite has_lor by lia. rewrite Hpr. apply orb_true_r. }
  destruct (write_entry_spec T s t 1 a v Hok Hl) as (Hok2 & Hlf2 & Hld & Hh & _ & Hfl);
    [apply Z.lor_nonneg; split; [apply Z.land_nonneg; by right|done]|by left|by left|].
  set (s2 := invalidate a _) in *. rewrite Hv in Hlf2.
  split; try done.
  - intros va'. rewrite Hlf2. unfold covered. change (1 - 1) with 0. fold a.
    pose proof (Exists_cons (fun o => vpre va' 0 = vpre (u64 (va + o)) 0) off []) as Hcov.
    rewrite Exists_nil in Hcov. fold a in Hcov. repeat case_decide; try naive_solver.
    by rewrite (leaf_page s va' a), Hlf.
  - exists (if live (hier s) then [a] else []). split; [rewrite Hfl; by destruct (live _)|].
    intros Hli va' Hne. rewrite Hli. exists a. split; [set_solver|].
    rewrite Hlf2 in Hne. by case_decide.
  - intros Hpk t' l pre Hl' H4. destruct (Hpk t' l pre Hl' H4) as (i & Hi' & Hpi).
    exists i. split; [done|]. rewrite (Hld t' l pre i Hl' Hi'). by case_bool_decide.
Qed.

Lemma apply_loop_spec va perms offs : forall T s,
  ok T s -> all_mapped s va offs ->
  reprotected va perms offs T s
    (foldl (apply_page va (permissions_to_flags perms)) s offs).
Proof.
  induction offs as [|off offs IH]; intros T s Hok Hall; cbn [foldl].
  { split; try done. by apply told_refl. }
  destruct (Hall off ltac:(set_solver)) as (e & Hlf).
  pose proof (apply_page_spec T s va perms off e Hok Hlf) as P1.
  set (s1 := apply_page va _ s off) in *.
  pose proof (IH T s1 (rp_ok _ _ _ _ _ _ P1)) as P2.
  destruct P2 as [A1 A2 A3 A4 A5].
  { intros o Ho. destruct (Hall o ltac:(set_solver)) as (e' & E).
    rewrite (rp_leaf _ _ _ _ _ _ P1), E. case_decide; by eexists. }
  destruct P1 as [B1 B2 B3 B4 B5]. split; auto.
  - intros va'. rewrite A2, B2. pose proof (covered_cons va 1 off offs va') as Hall2.
    pose proof (covered_cons va 1 off [] va') as Hone.
    assert (~ covered va 1 [] va') as Hnil by (unfold covered; rewrite Exists_nil; tauto).
    assert (covered va 1 (off :: offs) va' <-> covered va 1 [off] va' \/ covered va 1 offs va')
      as Hsplit by tauto. clear Hall2 Hone Hnil.
    destruct (decide (covered va 1 offs va')), (decide (covered va 1 [off] va')),
      (decide (covered va 1 (off :: offs) va')); try done; try tauto.
    destruct (leaf s va'); [cbn|done]. by rewrite reflag_twice.
  - eapply told_trans; [by rewrite B4|done|done].
  - by rewrite A4.
Qed.

Lemma protect_range_spec va length perms pat T s :
  ok T s -> is_u64 va -> is_u64 length ->
  let offs := offsets length PAGING_PAGE_SIZE in
  let '(st, s') := protect_range va length perms pat s in
  if is_ok st then
    validate_permissions perms = PAGING_STATUS_OK /\ vrange va length 1 /\
    all_mapped s va offs /\ reprotected va perms offs T s s'
  else s' = s.
Proof.
  intros Hok Hva Hlen offs. unfold protect_range. rewrite page_size_1.
  destruct (is_ok (validate_permissions perms)) eqn:Ep; cbn [negb]; [|by rewrite Ep].
  destruct (is_ok (validate_virtual_range va length (level_page_size 1))) eqn:Ev; cbn [negb];
    [|by rewrite Ev].
  pose proof (require_mapped_spec T s va length Hok) as Hreq. cbv zeta in Hreq. fold offs in Hreq.
  destruct (is_ok (require_mapped_range va length s)) eqn:Er; cbn [negb]; [|by rewrite Er].
  destruct (is_ok (check_types _ _ _ _ s)) eqn:Et; cbn [negb]; [|by rewrite Et].
  change (is_ok PAGING_STATUS_OK) with true. cbv iota.
  apply bool_decide_eq_true in Ep, Ev. apply validate_virtual_range_ok in Ev; [|done|done|lia].
  split_and!; [done..|]. unfold apply_permissions. fold offs. by apply apply_loop_spec.
Qed.

(** ** Translation *)

(** What translate_address answers about a leaf. *)
Definition leaf_translation (va pat : Z) (x : option (Z * Z))
  : paging_status * paging_translation :=
  match x with
  | None => (PAGING_STATUS_NOT_MAPPED, no_translation)
  | Some (l, e) => (PAGING_STATUS_OK,
      fill_translation e va l (has e PAGE_WRITABLE) (negb (has e PAGE_NO_EXECUTE))
        (bool_decide (l = 4) && has e PAGE_USER) pat)
  end.

(** The links of a tree allow everything but user access, so that the leaf
    alone decides. *)
Lemma translate_spec T s va pat :
  tree T s -> address_is_canonical va = true ->
  translate_address va pat s = leaf_translation va pat (leaf s va).
Proof.
  intros Ht Hc. unfold translate_address. rewrite Hc. cbn [negb].
  unfold PAGING_LEVEL_COUNT, leaf. change (Z.to_nat (4 - 1)) with 3%nat.
  assert (forall n l t, l = Z.of_nat n + 1 -> T !! t = Some (l, vpre va l) ->
    translate_walk n l t va true true (bool_decide (l = 4)) pat s =
    leaf_translation va pat (walk n l t va s)) as Hw.
  { induction n as [|n IH]; intros l t El Hl; cbn [translate_walk walk];
      set (e := load s _); destruct (has e PAGE_PRESENT) eqn:Ep; cbn [negb]; try done.
    destruct (has e PAGE_HUGE) eqn:Eh; [done|].
    pose proof (tr_range _ _ _ _ _ Ht Hl) as Hr. pose proof (index_range va l Hr) as Hi.
    destruct (tr_child _ _ Ht t l _ _ Hl ltac:(lia) Hi Ep Eh) as (c & E & Hch).
    fold e in E. destruct (interior_spec c) as (_ & _ & Ew & Ex & Eu & Ef); [by eapply tr_frame|].
    rewrite E, Ew, Ex, Eu, Ef, andb_false_r. cbn [andb negb].
    rewrite <- (vpre_step va l Hr) in Hch.
    specialize (IH (l - 1) c ltac:(lia) Hch). rewrite bool_decide_false in IH by lia. done. }
  apply (Hw 3%nat 4); [done|]. rewrite vpre_top. apply (tr_root _ _ Ht).
Qed.

(** ** The tables a mapping needs *)

Lemma tr_prefix T s : tree T s -> forall t l pre, T !! t = Some (l, pre) ->
  0 <= pre < 2 ^ (36 - 9 * l).
Proof.
  intros Ht.
  assert (forall n : nat, forall t l pre, T !! t = Some (l, pre) -> l = 4 - Z.of_nat n ->
    1 <= l -> 0 <= pre < 2 ^ (36 - 9 * l)) as Hn.
  { induction n as [|n IH]; intros t l pre Hl El H1.
    - assert (l = 4) as -> by lia. rewrite (tr_top _ _ Ht _ _ Hl). done.
    - destruct (tr_parent _ _ Ht t l pre Hl ltac:(lia)) as (p & Hp & _).
      specialize (IH p (l + 1) (pre / 512) Hp ltac:(lia) ltac:(lia)).
      replace (2 ^ (36 - 9 * l)) with (2 ^ (36 - 9 * (l + 1)) * 512)
        by (change 512 with (2 ^ 9); rewrite <- Z.pow_add_r by lia; f_equal; lia).
      pose proof (Z.div_mod pre 512 ltac:(lia)). pose proof (Z.mod_pos_bound pre 512). nia. }
  intros t l pre Hl. pose proof (tr_range _ _ _ _ _ Ht Hl).
  apply (Hn (Z.to_nat (4 - l)) t); [done|lia..].
Qed.

(** Every prefix is that of an address. *)
Lemma vpre_inverse q l : 0 <= l <= 4 -> 0 <= q < 2 ^ (36 - 9 * l) ->
  vpre (q * 2 ^ (12 + 9 * l)) l = q.
Proof.
  intros Hl Hq. unfold vpre. assert (0 < 2 ^ (12 + 9 * l)) by (apply Z.pow_pos_nonneg; lia).
  rewrite Z.mod_small; [apply Z.div_mul; lia|]. split; [nia|].
  replace (2 ^ 48) with (2 ^ (36 - 9 * l) * 2 ^ (12 + 9 * l))
    by (rewrite <- Z.pow_add_r by lia; f_equal; lia). nia.
Qed.

(** An address under entry [i] of a table. *)
Lemma slot_address T s t l pre i :
  tree T s -> T !! t = Some (l, pre) -> 0 <= i < 512 ->
  exists va, vpre va l = pre /\ table_index va l = i /\ vpre va (l - 1) = pre * 512 + i.
Proof.
  intros Ht Hl Hi. pose proof (tr_range _ _ _ _ _ Ht Hl) as Hr.
  pose proof (tr_prefix T s Ht t l pre Hl) as Hp. exists ((pre * 512 + i) * 2 ^ (12 + 9 * (l - 1))).
  assert (vpre ((pre * 512 + i) * 2 ^ (12 + 9 * (l - 1))) (l - 1) = pre * 512 + i) as E.
  { apply vpre_inverse; [lia|].
    replace (2 ^ (36 - 9 * (l - 1))) with (2 ^ (36 - 9 * l) * 512)
      by (change 512 with (2 ^ 9); rewrite <- Z.pow_add_r by lia; f_equal; lia). nia. }
  rewrite E. destruct (vpre_split ((pre * 512 + i) * 2 ^ (12 + 9 * (l - 1))) (l - 1) ltac:(lia))
    as [E1 E2]. rewrite E in E1, E2. replace (l - 1 + 1) with l in * by lia.
  rewrite <- E1, <- E2. rewrite Z.div_add_l, Z.div_small by lia.
  rewrite (Z.add_comm (pre * 512) i), Z.mod_add, Z.mod_small by lia. split_and!; lia.
Qed.

(** The tables on the way to a leaf. *)
Lemma leaf_tables T s va l e :
  tree T s -> leaf s va = Some (l, e) ->
  forall m, l <= m <= 4 -> exists t, T !! t = Some (m, vpre va m).
Proof.
  intros Ht Hlf.
  assert (forall n k t, k = Z.of_nat n + 1 -> T !! t = Some (k, vpre va k) ->
    walk n k t va s = Some (l, e) ->
    forall m, l <= m <= k -> exists t, T !! t = Some (m, vpre va m)) as Hw.
  { induction n as [|n IH]; intros k t Ek Hk; cbn [walk]; set (w := load s _);
      destruct (has w PAGE_PRESENT) eqn:Ep; cbn [negb]; try done.
    - intros [= <- <-] m Hm. assert (m = k) as -> by lia. eauto.
    - pose proof (tr_range _ _ _ _ _ Ht Hk) as Hr. pose proof (index_range va k Hr) as Hi.
      destruct (has w PAGE_HUGE) eqn:Eh.
      + intros [= <- <-] m Hm. assert (m = k) as -> by lia. eauto.
      + intros Hrec m Hm. destruct (decide (m = k)) as [->|Hne]; [eauto|].
        apply (IH (k - 1) (Z.land w PAGE_FRAME_MASK)); [lia| |done|lia].
        rewrite (vpre_step va k Hr). apply tree_child_frame; done || lia. }
  apply (Hw 3%nat 4 (root (hier s)) eq_refl); [|done]. rewrite vpre_top. apply (tr_root _ _ Ht).
Qed.

(** In a packed hierarchy there is a leaf below every table but the root. *)
Lemma packed_leaf T s :
  tree T s -> packed T s -> forall t l pre, T !! t = Some (l, pre) -> l < 4 ->
  exists va l' e, leaf s va = Some (l', e) /\ l' <= l /\ vpre va l = pre.
Proof.
  intros Ht Hpk.
  assert (forall n : nat, forall t l pre, T !! t = Some (l, pre) -> l = Z.of_nat n -> l < 4 ->
    exists va l' e, leaf s va = Some (l', e) /\ l' <= l /\ vpre va l = pre) as Hn.
  { induction n as [|n IH]; intros t l pre Hl El H4;
      pose proof (tr_range _ _ _ _ _ Ht Hl) as Hr; [lia|].
    destruct (Hpk t l pre Hl H4) as (i & Hi & Hp).
    destruct (slot_address T s t l pre i Ht Hl Hi) as (va & E1 & E2 & E3).
    assert (T !! t = Some (l, vpre va l)) as Hl' by (by rewrite E1).
    pose proof (walk_reach T s va t l Ht Hl') as Hw.
    destruct (decide (l = 1)) as [->|Hl1].
    - exists va, 1, (load s (slot_at t i)). split_and!; [|lia|done]. rewrite Hw.
      change (Z.to_nat (1 - 1)) with 0%nat. cbn [walk]. by rewrite E2, Hp.
    - destruct (has (load s (slot_at t i)) PAGE_HUGE) eqn:Eh.
      + exists va, l, (load s (slot_at t i)). split_and!; [|lia|done]. rewrite Hw.
        replace (Z.to_nat (l - 1)) with (S (Z.to_nat (l - 2))) by lia. cbn [walk].
        by rewrite E2, Hp, Eh.
      + destruct (tr_child _ _ Ht t l pre i Hl ltac:(lia) Hi Hp Eh) as (c & _ & Hc).
        destruct (IH c (l - 1) _ Hc ltac:(lia) ltac:(lia)) as (va' & l' & e & Hlf & Hle & Hpre).
        exists va', l', e. split_and!; [done|lia|]. rewrite <- E3 in Hpre.
        by rewrite (vpre_agree va' va (l - 1) l ltac:(lia) Hpre). }
  intros t l pre Hl. pose proof (tr_range _ _ _ _ _ Ht Hl). apply (Hn (Z.to_nat l) t); [done|lia].
Qed.

(** So its tables are determined by what it maps. *)
Lemma packed_tables T T' s s' :
  tree T s -> packed T s -> tree T' s' -> (forall va, leaf s' va = leaf s va) ->
  forall t x, T !! t = Some x -> exists t', T' !! t' = Some x.
Proof.
  intros Ht Hpk Ht' Hsame t [l pre] Hl. pose proof (tr_range _ _ _ _ _ Ht Hl) as Hr.
  destruct (decide (l = 4)) as [->|].
  - rewrite (tr_top _ _ Ht _ _ Hl). eexists. apply (tr_root _ _ Ht').
  - destruct (packed_leaf T s Ht Hpk t l pre Hl ltac:(lia)) as (va & l' & e & Hlf & Hle & <-).
    rewrite <- Hsame in Hlf. apply (leaf_tables T' s' va l' e); done || lia.
Qed.

(** Nothing else mapped and no new table: the same tables. *)
Lemma packed_same T T1 T' s s1 s' :
  tree T s -> packed T s -> tree T1 s1 -> T ⊆ T1 -> tree T' s' -> packed T' s' -> T' ⊆ T1 ->
  (forall va, leaf s' va = leaf s va) -> T' = T.
Proof.
  intros Ht Hpk Ht1 Hsub Ht' Hpk' Hsub' Hsame. apply map_eq. intros t.
  apply option_eq. intros x. split; intros Hx.
  - destruct (packed_tables T' T s' s Ht' Hpk' Ht (fun va => eq_sym (Hsame va)) t x Hx) as (t' & Hx').
    by rewrite (tr_inj _ _ Ht1 t t' x (lookup_weaken _ _ _ _ Hx Hsub')
      (lookup_weaken _ _ _ _ Hx' Hsub)).
  - destruct (packed_tables T T' s s' Ht Hpk Ht' Hsame t x Hx) as (t' & Hx').
    by rewrite (tr_inj _ _ Ht1 t t' x (lookup_weaken _ _ _ _ Hx Hsub)
      (lookup_weaken _ _ _ _ Hx' Hsub')).
Qed.

(** ** Permissions *)

(** An entry that is not both writable and executable, and not for user mode. *)
Definition strict (e : Z) : bool :=
  negb (has e PAGE_WRITABLE && negb (has e PAGE_NO_EXECUTE)) && negb (has e PAGE_USER).

Definition strict_leaves (s : space F) : Prop :=
  forall va l e, leaf s va = Some (l, e) -> strict e = true.

Lemma flags_strict p : validate_permissions p = PAGING_STATUS_OK ->
  strict (permissions_to_flags p) = true.
Proof.
  unfold validate_permissions, permissions_to_flags. cbv zeta. intros E.
  destruct (negb _) in E; [done|].
  destruct (has p PAGING_WRITE), (has p PAGING_EXECUTE); try done; cbn [andb negb] in *;
    destruct (has p PAGING_UNCACHED), (has p PAGING_WRITE_COMBINING); try done; reflexivity.
Qed.

Lemma strict_frame t f : is_frame t -> strict (Z.lor t f) = strict f.
Proof.
  intros Ht. unfold strict, PAGE_WRITABLE, PAGE_NO_EXECUTE, PAGE_USER.
  rewrite !(has_frame_lor t) by (done || lia). done.
Qed.

Lemma strict_huge f : strict (Z.lor f PAGE_HUGE) = strict f.
Proof.
  unfold strict, PAGE_WRITABLE, PAGE_NO_EXECUTE, PAGE_USER, PAGE_HUGE.
  rewrite !has_lor by lia. by rewrite !orb_false_r.
Qed.

Lemma page_frame va pa length L off :
  vrange va length L -> is_u64 pa -> pa mod level_page_size L = 0 -> pa + length <= 2 ^ 52 ->
  off ∈ offsets length (level_page_size L) ->
  is_frame (u64 (pa + off)) /\ u64 (pa + off) = pa + off /\
  (pa + off) mod level_page_size L = 0.
Proof.
  intros V Hpa Ha Hlim Hin.
  destruct (range_offset va length L V ltac:(eapply vrange_half; [done|]; unfold is_u64 in *; lia)
    off Hin) as (H1 & H2 & _). pose proof (vr_level _ _ _ V) as HL.
  pose proof (page_size_pos L ltac:(lia)) as Hps.
  assert (u64 (pa + off) = pa + off) as ->
    by (apply u64_small; unfold is_u64, UINT64_MAX in *; lia).
  assert ((pa + off) mod level_page_size L = 0) as Hm.
  { apply (elem_of_range va length L V) in Hin as (k & _ & ->). by rewrite Z.mod_add by lia. }
  split_and!; [split; [|unfold is_u64 in *; lia]|done|done].
  apply Z.mod_divide; [done|]. apply Z.mod_divide in Hm; [|lia].
  etrans; [|exact Hm]. rewrite level_page_size_eq. exists (2 ^ (9 * (L - 1))).
  change 4096 with (2 ^ 12). rewrite <- Z.pow_add_r by lia. f_equal. lia.
Qed.

Lemma page_value_strict va pa length perms L off :
  vrange va length L -> is_u64 pa -> pa mod level_page_size L = 0 -> pa + length <= 2 ^ 52 ->
  validate_permissions perms = PAGING_STATUS_OK ->
  off ∈ offsets length (level_page_size L) -> strict (page_value pa perms L off) = true.
Proof.
  intros V Hpa Ha Hlim Hp Hin.
  destruct (page_frame va pa length L off V Hpa Ha Hlim Hin) as (Hf & _).
  unfold page_value. destruct (L >? 1); rewrite ?strict_huge, strict_frame by done;
    by apply flags_strict.
Qed.

(** ** The audit *)

(** A fold that never decreases a measure leaves it alone exactly when every
    step does. *)
Lemma foldl_measure {A B} (m : A -> Z) (good : B -> Prop) (f : A -> B -> A) l : forall a,
  (forall a i, i ∈ l -> m a <= m (f a i) /\ (m (f a i) = m a <-> good i)) ->
  m a <= m (foldl f a l) /\ (m (foldl f a l) = m a <-> Forall good l).
Proof.
  induction l as [|i l IH]; intros a Hf; cbn [foldl]; [split; [lia|by split; constructor]|].
  destruct (Hf a i ltac:(set_solver)) as [H1 H2].
  destruct (IH (f a i)) as [H3 H4]; [intros; apply Hf; set_solver|].
  rewrite Forall_cons. split; [lia|]. rewrite <- H2, <- H4. lia.
Qed.

Section audit.
(** One of the audit's counters, with the leaves it counts. *)
Context (counter : paging_audit -> Z) (bad : bool -> bool -> bool -> bool).
Context (Hcount : forall l w x u a, counter (audit_leaf l w x u a) =
  counter a + if bad w x u then 1 else 0).

Definition bad_leaf (l e : Z) : bool :=
  bad (has e PAGE_WRITABLE) (negb (has e PAGE_NO_EXECUTE)) (bool_decide (l = 4) && has e PAGE_USER).

Lemma audit_table_spec T s : tree T s -> forall n l t pre a,
  l = Z.of_nat n + 1 -> T !! t = Some (l, pre) ->
  let a' := audit_table n t true true (bool_decide (l = 4)) s a in
  counter a <= counter a' /\
  (counter a' = counter a <->
   forall va l' e, vpre va l = pre -> leaf s va = Some (l', e) -> bad_leaf l' e = false).
Proof.
  intros Ht. induction n as [|n IH]; intros l t pre a El Hl a'.
  all: pose proof (tr_range _ _ _ _ _ Ht Hl) as Hr.
  all: set (good := fun i => forall va l' e, vpre va l = pre -> table_index va l = i ->
    leaf s va = Some (l', e) -> bad_leaf l' e = false).
  all: assert ((forall va l' e, vpre va l = pre -> leaf s va = Some (l', e) -> bad_leaf l' e = false)
    <-> Forall good (seqZ 0 512)) as -> by
    (rewrite Forall_forall; split; [intros Hx i _ va l' e ? _ ?; by eapply Hx|];
     intros Hx va l' e Hp Hlf; eapply (Hx (table_index va l)); try done;
     apply elem_of_seqZ; pose proof (index_range va l Hr); lia).
  all: unfold a'; cbn [audit_table]; apply foldl_measure; clear a a'; intros a i Hi%elem_of_seqZ.
  all: set (e := load s (slot_at t i)); destruct (has e PAGE_PRESENT) eqn:Ep; cbn [negb].
  2,4: split; [done|]; split; [|done]; intros _ va l' e' Hp Hidx Hlf;
    rewrite (walk_reach T s va t l Ht) in Hlf by (by rewrite Hp);
    destruct (Z.to_nat (l - 1)); cbn [walk] in Hlf; rewrite Hidx in Hlf; fold e in Hlf;
    by rewrite Ep in Hlf.
  all: destruct (slot_address T s t l pre i Ht Hl ltac:(lia)) as (va0 & E1 & E2 & E3).
  all: assert ((l = 1 \/ has e PAGE_HUGE = true) -> good i <-> bad_leaf l e = false) as Hgood.
  1,3: intros Hleaf;
    assert (forall va, vpre va l = pre -> table_index va l = i -> leaf s va = Some (l, e)) as Hlf
    by (intros va Hp Hidx; rewrite (walk_reach T s va t l Ht) by (by rewrite Hp);
        destruct (Z.to_nat (l - 1)) as [|m] eqn:Em; cbn [walk]; rewrite Hidx; fold e; rewrite Ep;
        cbn [negb]; [done|]; destruct Hleaf as [?|Eh]; [lia|by rewrite Eh]);
    split; [intros Hg; by apply (Hg va0 l e E1 E2), Hlf|];
    intros Hb va l' e' Hp Hidx Hlf'; rewrite (Hlf va Hp Hidx) in Hlf'; by injection Hlf' as <- <-.
  - rewrite Hcount, Hgood by lia. unfold bad_leaf. cbn [andb].
    destruct (bad _ _ _); split; try lia; split; done || lia.
  - destruct (has e PAGE_HUGE) eqn:Eh; cbn [negb].
    + rewrite Hcount, Hgood by (by right). unfold bad_leaf. cbn [andb].
      destruct (bad _ _ _); split; try lia; split; done || lia.
    + destruct (tr_child _ _ Ht t l pre i Hl ltac:(lia) ltac:(lia) Ep Eh) as (c & E & Hch).
      fold e in E. destruct (interior_spec c) as (_ & _ & Ew & Ex & Eu & Ef); [by eapply tr_frame|].
      rewrite E, Ew, Ex, Eu, Ef, andb_false_r. cbn [andb negb].
      specialize (IH (l - 1) c _ a ltac:(lia) Hch). rewrite bool_decide_false in IH by lia.
      destruct IH as [IH1 IH2]. split; [done|]. rewrite IH2. unfold good. split.
      * intros Hx va l' e' Hp Hidx. apply Hx. rewrite (vpre_step va l Hr). congruence.
      * intros Hx va l' e' Hp. rewrite (vpre_step va l Hr) in Hp.
        destruct (vpre_split va (l - 1) ltac:(lia)) as [E4 E5].
        replace (l - 1 + 1) with l in * by lia. rewrite (vpre_step va l Hr), Hp in E4, E5.
        rewrite Z.div_add_l, Z.div_small in E4 by lia.
        rewrite (Z.add_comm (pre * 512)), Z.mod_add, Z.mod_small in E5 by lia.
        apply Hx; lia.
Qed.

Lemma audit_spec T s :
  tree T s -> counter (MkAudit 0 0 0 0 0 0) = 0 ->
  0 <= counter (audit_hierarchy s) /\
  (counter (audit_hierarchy s) = 0 <->
   forall va l e, leaf s va = Some (l, e) -> bad_leaf l e = false).
Proof.
  intros Ht H00. pose proof (audit_table_spec T s Ht 3 4 (root (hier s)) 0
    (MkAudit 0 0 0 0 0 0) eq_refl (tr_root _ _ Ht)) as [H1 H2].
  rewrite H00 in H1, H2. split; [done|]. unfold audit_hierarchy.
  change (bool_decide (4 = 4)) with true in H2. rewrite H2.
  split; intros Hx va l e; [|intros _; by apply Hx]. apply Hx, vpre_top.
Qed.
End audit.

End ranges.

End PageRange.
