(* ===== verification/PageSpace.v ===== *)
(** Address spaces: the states that creating a page-table hierarchy and calling
    map_range, unmap_range and protect_range of src/src/kernel/paging.c can
    reach, and the theorems a client of them relies on: what a mapping
    translates to, what a refusal leaves, that unmapping undoes mapping down to
    the tables, that no page is writable and executable, and that the processor
    forgets every page that changed. *)
From stdpp Require Import gmap.
From S2P Require Import Prelude PhysicalMemory PageTable PageRange.
Import PageTable PageRange.

Module PageSpace.

Section spaces.
Context {F : Type} `{TableFramesLaws F}.
Implicit Types (s : space F) (T : gmap Z (Z * Z)).

(** What creating a hierarchy needs of the frame supply. *)
Definition supply_start (base capacity : Z) (f : F) : Prop :=
  if capacity =? 0 then frames_ok f
  else is_frame base /\ 0 <= capacity /\ base + capacity * 4096 <= 2 ^ 52.

Lemma create_spec base capacity s s' :
  supply_start base capacity s.(frames) ->
  create_hierarchy base capacity s = (PAGING_STATUS_OK, s') ->
  exists T, ok T s' /\ packed T s' /\ (forall va, leaf s' va = None) /\
    s'.(hier).(live) = false.
Proof.
  intros Hs. unfold create_hierarchy, allocate_table.
  set (s0 := set_hier s (reset_hierarchy base capacity)).
  assert (supply ∅ s0) as Hsup.
  { unfold supply, supply_start in *. cbn. destruct (capacity =? 0) eqn:E; [by split|].
    split_and!; try lia; try done; apply Hs. }
  pose proof (take_frame_spec ∅ s0 Hsup) as Htake.
  destruct (take_frame s0) as [[p|] s1]; [|done].
  destruct Htake as (Ew & Ef & Er & Eli & Ecnt & _ & Hp & _ & Hins & _).
  destruct (p >=? _); [done|]. change (is_ok PAGING_STATUS_OK) with true. cbn [negb].
  pose proof (zero_table_spec p s1 Hp) as Hzero. revert Hzero.
  generalize (zero_table p s1) as s2. intros s2 (Zh & Zf & Zfl & Zz & Zo) [= <-].
  set (s3 := set_hier _ _).
  assert (forall i, 0 <= i < 512 -> load s3 (slot_at p i) = 0) as Hz by (intros; by apply Zz).
  assert (has 0 PAGE_PRESENT = false) as H0p by reflexivity.
  exists {[p := (4, 0)]}. split_and!.
  - split.
    + split; cbn; try done.
      * by rewrite lookup_singleton_eq.
      * intros t l pre [<- [= <- <-]]%lookup_singleton_Some. split; [done|lia].
      * by intros t t' x [<- _]%lookup_singleton_Some [<- _]%lookup_singleton_Some.
      * intros t l pre i [<- _]%lookup_singleton_Some _ Hi. by rewrite Hz, H0p.
      * intros t l pre [<- [= <- <-]]%lookup_singleton_Some. lia.
      * intros t l pre i [<- _]%lookup_singleton_Some Hi. by rewrite Hz.
      * by intros t pre [_ [= <-]]%lookup_singleton_Some.
    + specialize (Hins (4, 0)). rewrite insert_empty in Hins. unfold supply in *.
      unfold s3. cbn. by rewrite ?Zh, Zf.
    + unfold s3. cbn. rewrite ?Zh, Ecnt, map_size_singleton. done.
  - intros t l pre [<- [= <- <-]]%lookup_singleton_Some. lia.
  - intros va. unfold leaf. cbn [walk]. cbn [hier root s3 set_hier set_root].
    rewrite Hz by (by apply index_range). by rewrite H0p.
  - unfold s3. cbn. by rewrite ?Zh, Eli.
Qed.

(** The states a hierarchy can be in. *)
Inductive reachable : space F -> Prop :=
| reach_create base capacity s s' :
    supply_start base capacity s.(frames) ->
    create_hierarchy base capacity s = (PAGING_STATUS_OK, s') -> reachable s'
| reach_activate s : reachable s -> reachable (activate s)
| reach_map s va pa length perms L : reachable s -> map_args va pa length L ->
    reachable (map_range va pa length perms L s).2
| reach_unmap s va length : reachable s -> is_u64 va -> is_u64 length ->
    reachable (unmap_range va length s).2
| reach_protect s va length perms pat : reachable s -> is_u64 va -> is_u64 length ->
    reachable (protect_range va length perms pat s).2.

Lemma activate_spec T s :
  ok T s -> ok T (activate s) /\ (forall va, leaf (activate s) va = leaf s va).
Proof.
  intros [Ht Hs Hc]. split; [split; [by eapply tree_same|done|done]|by apply leaf_same].
Qed.

Lemma strict_same s s' :
  (forall va, leaf s' va = leaf s va) -> strict_leaves s -> strict_leaves s'.
Proof. intros E Hs va l e. rewrite E. apply Hs. Qed.

Lemma map_strict va pa length perms L T s :
  ok T s -> map_args va pa length L -> strict_leaves s ->
  strict_leaves (map_range va pa length perms L s).2.
Proof.
  intros Hok Ha Hs. pose proof (map_range_spec va pa length perms L T s Hok Ha) as Hm.
  destruct (map_range va pa length perms L s) as [st s']. cbn.
  destruct st; try (by subst s'); try (eapply strict_same; [apply Hm|done]).
  destruct Hm as (Hp & V & Hal & Hlim & M). intros va' l e Hlf.
  destruct (decide (covered va L (offsets length (level_page_size L)) va')) as [Hc|Hn].
  - unfold covered in Hc. rewrite Exists_exists in Hc. destruct Hc as (off & Hin & E).
    destruct (md_page _ _ _ _ _ _ _ _ M off va' Hin E) as [_ E']. rewrite E' in Hlf.
    injection Hlf as _ <-. eapply page_value_strict; try done. apply Ha.
  - rewrite (md_else _ _ _ _ _ _ _ _ M va' Hn) in Hlf. by eapply Hs.
Qed.

Lemma unmap_strict va length T s :
  ok T s -> is_u64 va -> is_u64 length -> strict_leaves s ->
  strict_leaves (unmap_range va length s).2.
Proof.
  intros Hok Hva Hlen Hs. pose proof (unmap_range_spec va length T s Hok Hva Hlen) as Hu.
  destruct (unmap_range va length s) as [st s']. cbn in *.
  destruct (is_ok st); [|by subst s']. destruct Hu as (_ & _ & T' & W).
  intros va' l e. rewrite (wp_leaf _ _ _ _ _ _ _ W). case_decide; [done|]. apply Hs.
Qed.

Lemma protect_strict va length perms pat T s :
  ok T s -> is_u64 va -> is_u64 length -> strict_leaves s ->
  strict_leaves (protect_range va length perms pat s).2.
Proof.
  intros Hok Hva Hlen Hs.
  pose proof (protect_range_spec va length perms pat T s Hok Hva Hlen) as Hp.
  destruct (protect_range va length perms pat s) as [st s']. cbn in *.
  destruct (is_ok st); [|by subst s']. destruct Hp as (Hperm & _ & _ & R).
  intros va' l e. rewrite (rp_leaf _ _ _ _ _ _ R). case_decide; [|apply Hs].
  destruct (leaf s va') as [[l0 e0]|] eqn:E; cbn; [|done]. intros [= <- <-].
  assert (0 <= Z.land e0 PAGE_FRAME_MASK) by (apply Z.land_nonneg; by right).
  rewrite strict_frame; [by apply flags_strict|].
  rewrite <- (Z.land_diag PAGE_FRAME_MASK), Z.land_assoc. by apply frame_of_land.
Qed.

(** Every reachable hierarchy is a tree of tables its supply handed out, and
    maps no page that is writable and executable or open to user mode. *)
Lemma reachable_ok s : reachable s -> (exists T, ok T s) /\ strict_leaves s.
Proof.
  induction 1 as [base cap s s' Hs E|s Hr [[T Hok] Hst]|s va pa length perms L Hr [[T Hok] Hst] Ha
    |s va length Hr [[T Hok] Hst] Hva Hlen|s va length perms pat Hr [[T Hok] Hst] Hva Hlen].
  - destruct (create_spec base cap s s' Hs E) as (T & Hok & _ & Hno & _). split; [eauto|].
    intros va l e. by rewrite Hno.
  - destruct (activate_spec T s Hok) as [Hok' Hlf]. split; [eauto|]. by eapply strict_same.
  - split; [|by eapply map_strict].
    pose proof (map_range_spec va pa length perms L T s Hok Ha) as Hm.
    destruct (map_range va pa length perms L s) as [st s']. cbn.
    destruct st; try (subst s'; by eauto); try apply Hm.
    destruct Hm as (_ & _ & _ & _ & M). destruct (md_ok _ _ _ _ _ _ _ _ M) as (T' & ? & _). eauto.
  - split; [|by eapply unmap_strict].
    pose proof (unmap_range_spec va length T s Hok Hva Hlen) as Hu.
    destruct (unmap_range va length s) as [st s']. cbn in *.
    destruct (is_ok st); [|subst s'; by eauto]. destruct Hu as (_ & _ & T' & W).
    exists T'. apply W.
  - split; [|by eapply protect_strict].
    pose proof (protect_range_spec va length perms pat T s Hok Hva Hlen) as Hp.
    destruct (protect_range va length perms pat s) as [st s']. cbn in *.
    destruct (is_ok st); [|subst s'; by eauto]. destruct Hp as (_ & _ & _ & R).
    exists T. apply R.
Qed.
(** ** What a mapping translates to *)

(** The memory types the kernel's flags select: decode_processor_support
    requires the entries 0 and 3, paging_initialize programs entry 1. *)
Definition pat_ready (pat : Z) : Prop :=
  pat_entry pat PAT_WRITE_BACK_ENTRY = PAT_TYPE_WRITE_BACK /\
  pat_entry pat PAT_WRITE_COMBINING_ENTRY = PAT_TYPE_WRITE_COMBINING /\
  pat_entry pat PAT_DEVICE_ENTRY = PAT_TYPE_UNCACHEABLE.

Definition permission_type (perms : Z) : paging_memory_type :=
  if has perms PAGING_UNCACHED then PAGING_MEMORY_UNCACHEABLE
  else if has perms PAGING_WRITE_COMBINING then PAGING_MEMORY_WRITE_COMBINING
  else PAGING_MEMORY_WRITE_BACK.

(** The permission words map_range and protect_range accept. *)
Lemma accepted_permissions p :
  is_u32 p -> validate_permissions p = PAGING_STATUS_OK ->
  In p [0; 1; 2; 4; 5; 6; 8; 9; 10].
Proof.
  intros Hp E. assert (0 <= p < 16) as Hr.
  { unfold validate_permissions in E. cbv zeta in E.
    destruct (negb _) eqn:En in E; [done|]. apply negb_false_iff, Z.eqb_eq in En.
    change (u32 _) with (Z.shiftl (Z.ones 28) 4) in En.
    unfold is_u32, UINT32_MAX in Hp. split; [lia|].
    apply Z.log2_lt_cancel. change (Z.log2 16) with 4.
    destruct (Z.lt_ge_cases (Z.log2 p) 4); [done|]. exfalso.
    assert (0 < p) as Hpos by (destruct (decide (p = 0)) as [->|]; [cbn in *; lia|lia]).
    pose proof (Z.bit_log2 p Hpos) as Hb.
    assert (Z.log2 p < 32) as Hlt by (apply Z.log2_lt_pow2; lia).
    assert (Z.testbit (Z.land p (Z.shiftl (Z.ones 28) 4)) (Z.log2 p) = true) as Hbit.
    { rewrite Z.land_spec, Hb, Z.shiftl_spec by lia. apply Z.ones_spec_low. lia. }
    by rewrite En, Z.bits_0 in Hbit. }
  assert (In p (seqZ 0 16)) as Hin by (apply list_elem_of_In, elem_of_seqZ; lia).
  cbn in Hin |- *. revert E. repeat (destruct Hin as [<-|Hin]; [vm_compute; intuition discriminate|]).
  done.
Qed.

(** What the flag bits of a leaf say, for each accepted permission word. *)
Lemma flags_translation p pat :
  is_u32 p -> validate_permissions p = PAGING_STATUS_OK -> pat_ready pat ->
  let f := permissions_to_flags p in
  has f PAGE_WRITABLE = has p PAGING_WRITE /\
  has f PAGE_NO_EXECUTE = negb (has p PAGING_EXECUTE) /\
  has f PAGE_USER = false /\ has f PAGE_HUGE = false /\ has f PAGE_LARGE_PAT = false /\
  decode_pat_type (pat_entry pat (leaf_pat_index f 1)) = permission_type p /\
  type_permissions
    (let r := PAGING_READ in
     let r := if has p PAGING_WRITE then Z.lor r PAGING_WRITE else r in
     if has p PAGING_EXECUTE then Z.lor r PAGING_EXECUTE else r) (permission_type p) = p.
Proof.
  intros Hp E (P0 & P1 & P3).
  pose proof (accepted_permissions p Hp E) as Hin. clear Hp E.
  unfold PAT_WRITE_BACK_ENTRY, PAT_WRITE_COMBINING_ENTRY, PAT_DEVICE_ENTRY in *.
  cbn in Hin. repeat destruct Hin as [<-|Hin]; try done;
    match goal with |- context [leaf_pat_index (permissions_to_flags ?x) 1] =>
      let i := eval vm_compute in (leaf_pat_index (permissions_to_flags x) 1) in
      change (leaf_pat_index (permissions_to_flags x) 1) with i
    end; rewrite ?P0, ?P1, ?P3; vm_compute; by split_and!.
Qed.

Lemma pat_index_frame t f L :
  is_frame t -> 1 <= L -> (L = 1 \/ t mod 2 ^ 13 = 0) ->
  has f PAGE_HUGE = false -> has f PAGE_LARGE_PAT = false ->
  leaf_pat_index (if L >? 1 then Z.lor (Z.lor t f) PAGE_HUGE else Z.lor t f) L =
  leaf_pat_index f 1.
Proof.
  intros Ht HL Hal Hh Hp. unfold leaf_pat_index. change (1 =? 1) with true.
  unfold PAGE_WRITE_THROUGH, PAGE_CACHE_DISABLE, PAGE_HUGE, PAGE_LARGE_PAT in *.
  destruct (L >? 1) eqn:E; bool_hyps.
  - destruct (L =? 1) eqn:E1; bool_hyps; [lia|]. destruct Hal as [?|Hal]; [lia|].
    rewrite !has_lor by lia. rewrite !(has_bit t) by lia.
    assert (Z.testbit t 12 = false) as ->.
    { rewrite <- (Z.mod_pow2_bits_low t 13 12) by lia. by rewrite Hal, Z.bits_0. }
    rewrite !(is_frame_bits t) by (done || lia).
    rewrite Hh, Hp. cbn [orb]. by rewrite !orb_false_r.
  - assert (L = 1) as -> by lia. change (1 =? 1) with true. cbv iota.
    rewrite !(has_frame_lor t) by (done || lia). reflexivity.
Qed.

(** Reading a leaf that map_range wrote. *)
Lemma fill_page_value va pa length perms L off va' pat :
  vrange va length L -> is_u64 pa -> pa mod level_page_size L = 0 -> pa + length <= 2 ^ 52 ->
  is_u32 perms -> validate_permissions perms = PAGING_STATUS_OK -> pat_ready pat ->
  off ∈ offsets length (level_page_size L) -> 0 <= va' ->
  let e := page_value pa perms L off in
  fill_translation e va' L (has e PAGE_WRITABLE) (negb (has e PAGE_NO_EXECUTE))
    (bool_decide (L = 4) && has e PAGE_USER) pat =
  MkTranslation (pa + off + va' mod level_page_size L) perms (permission_type perms) L false.
Proof.
  intros V Hpa Hal Hlim Hp32 Hperm Hpat Hin Hva' e.
  destruct (page_frame va pa length L off V Hpa Hal Hlim Hin) as (Hf & Eu & Hm).
  destruct (flags_translation perms pat Hp32 Hperm Hpat) as (F1 & F2 & F3 & F4 & F5 & F6 & F7).
  pose proof (vr_level _ _ _ V) as HL. rewrite Eu in Hf.
  assert (e = if L >? 1 then Z.lor (Z.lor (pa + off) (permissions_to_flags perms)) PAGE_HUGE
              else Z.lor (pa + off) (permissions_to_flags perms)) as Ee
    by (unfold e, page_value; by rewrite Eu).
  clearbody e. set (t := pa + off) in *. set (f := permissions_to_flags perms) in *.
  assert (forall k, 0 <= k -> (k < 12 \/ 52 <= k) -> k <> 7 ->
    has e (Z.shiftl 1 k) = has f (Z.shiftl 1 k)) as Hbit.
  { intros k Hk Hr H7. rewrite Ee. destruct (L >? 1); [|by apply has_frame_lor].
    unfold PAGE_HUGE. rewrite has_lor, has_frame_lor by done.
    rewrite (has_bit (Z.shiftl 1 7) k), (Z.shiftl_1_l 7), Z.pow2_bits_false by lia.
    apply orb_false_r. }
  assert (Z.land e PAGE_FRAME_MASK = t) as Ht.
  { assert (Z.land f PAGE_FRAME_MASK = 0) as Ef by apply flags_no_frame.
    rewrite Ee. destruct (L >? 1); [|by apply frame_of_lor].
    rewrite <- Z.lor_assoc. apply frame_of_lor; [done|]. by rewrite Z.land_lor_distr_l, Ef. }
  assert (leaf_pat_index e L = leaf_pat_index f 1) as Ei.
  { rewrite Ee. apply pat_index_frame; try done; [lia|]. destruct (decide (L = 1)); [by left|right].
    apply Z.mod_divide in Hm; [|pose proof (page_size_pos L); lia]. apply Z.mod_divide; [lia|].
    etrans; [|exact Hm]. rewrite level_page_size_eq. exists (2 ^ (12 + 9 * (L - 1) - 13)).
    rewrite <- Z.pow_add_r by lia. f_equal. lia. }
  unfold fill_translation, leaf_memory_type. rewrite Ei, F6.
  unfold PAGE_WRITABLE, PAGE_NO_EXECUTE, PAGE_USER in *.
  rewrite !Hbit, F1, F2, F3 by lia. rewrite andb_false_r, negb_involutive, Ht. f_equal.
  - assert (is_u64 t) as Ht64 by (destruct Hf as [_ ?]; unfold is_u64, UINT64_MAX; lia).
    rewrite land_page_mask by lia. rewrite level_page_size_eq in *.
    rewrite land_high_mask by (done || lia). rewrite Hm, Z.sub_0_r.
    rewrite <- (Z.add_lor_land t (va' mod 2 ^ (12 + 9 * (L - 1)))).
    assert (Z.land t (va' mod 2 ^ (12 + 9 * (L - 1))) = 0) as E0; [|rewrite E0; lia].
    apply Z.bits_inj'. intros n Hn. rewrite Z.bits_0, Z.land_spec.
    destruct (Z.lt_ge_cases n (12 + 9 * (L - 1))).
    + rewrite <- (Z.mod_pow2_bits_low t (12 + 9 * (L - 1)) n) by lia. by rewrite Hm, Z.bits_0.
    + rewrite Z.mod_pow2_bits_high by lia. apply andb_false_r.
  - exact F7.
Qed.

(** ** The operations seen through translation *)

(** The page of a validated range an address lies on. *)
Lemma range_page va length L va' :
  vrange va length L -> one_half va length -> canonical va' -> va <= va' < va + length ->
  exists off, off ∈ offsets length (level_page_size L) /\
    vpre va' (L - 1) = vpre (u64 (va + off)) (L - 1) /\
    off + va' mod level_page_size L = va' - va.
Proof.
  intros V Hh Hc Hr. apply (covered_range va length L V Hh va' Hc) in Hr.
  unfold covered in Hr. rewrite Exists_exists in Hr. destruct Hr as (off & Hin & E).
  exists off. split_and!; try done.
  destruct (range_offset va length L V Hh off Hin) as (_ & _ & Eu & Hco). rewrite Eu in E.
  pose proof (vr_level _ _ _ V) as HL. pose proof (page_size_pos L ltac:(lia)) as Hps.
  rewrite vpre_page, <- level_page_size_eq in E by (done || lia).
  apply (elem_of_range va length L V) in Hin as (k & _ & ->).
  pose proof (vr_aligned _ _ _ V) as Ha.
  set (ps := level_page_size L) in *. rewrite Z.div_add in E by lia.
  pose proof (Z.div_mod va' ps ltac:(lia)). pose proof (Z.div_mod va ps ltac:(lia)). nia.
Qed.

Lemma canonical_u64 va : canonical va -> is_u64 va.
Proof. unfold canonical, is_u64, UINT64_MAX. lia. Qed.

Lemma translate_leaf T s va pat :
  ok T s -> canonical va -> translate_address va pat s = leaf_translation va pat (leaf s va).
Proof.
  intros Hok Hc. apply (translate_spec T); [apply Hok|].
  by apply address_is_canonical_spec; [apply canonical_u64|].
Qed.

Lemma mapped_translation va pa length perms L T s s' pat va' :
  mapped va pa length perms L T s s' -> vrange va length L -> is_u64 pa ->
  pa mod level_page_size L = 0 -> pa + length <= 2 ^ 52 ->
  is_u32 perms -> validate_permissions perms = PAGING_STATUS_OK -> pat_ready pat ->
  canonical va' -> va <= va' < va + length ->
  translate_address va' pat s' =
    (PAGING_STATUS_OK, MkTranslation (pa + (va' - va)) perms (permission_type perms) L false).
Proof.
  intros M V Hpa Hal Hlim Hp32 Hperm Hpat Hc Hr.
  assert (one_half va length) as Hh by (eapply vrange_half; [done|]; unfold is_u64 in *; lia).
  destruct (range_page va length L va' V Hh Hc Hr) as (off & Hin & E & Eoff).
  destruct (md_ok _ _ _ _ _ _ _ _ M) as (T' & Hok' & _).
  rewrite (translate_leaf T' s' va' pat Hok' Hc).
  destruct (md_page _ _ _ _ _ _ _ _ M off va' Hin E) as [_ ->]. cbn [leaf_translation].
  rewrite (fill_page_value va pa length perms L off va' pat) by
    (done || apply canonical_u64 in Hc; unfold is_u64 in Hc; lia).
  rewrite <- Eoff. do 2 f_equal. lia.
Qed.

(** The memory types check_types found. *)
Lemma check_types_spec T s va length pat want :
  ok T s -> check_types va length pat want s = PAGING_STATUS_OK ->
  forall off e, off ∈ offsets length PAGING_PAGE_SIZE -> leaf s (u64 (va + off)) = Some (1, e) ->
  leaf_memory_type e 1 pat = want.
Proof.
  intros Hok. unfold check_types. generalize (offsets length PAGING_PAGE_SIZE) as offs.
  induction offs as [|o offs IH]; intros E off e Hin Hlf; [by apply not_elem_of_nil in Hin|].
  cbn [for_each] in E. pose proof (probe_spec T s (u64 (va + o)) 1 Hok ltac:(lia)) as Hp.
  destruct (entry_for (u64 (va + o)) 1 false s) as [[st slot] s'] eqn:Ee. destruct Hp as [-> Hst].
  unfold is_ok in E. case_bool_decide as Est; cbn [negb] in E; [|by subst st].
  case_bool_decide as Ety; cbn [negb] in E; [|done].
  apply elem_of_cons in Hin as [->|Hin]; [|by eapply IH].
  subst st. destruct Hst as (t & Hl & ->).
  by destruct (leaf_slot T s _ t 1 e (ok_tree _ _ Hok) Hl Hlf) as [-> _] in Ety.
Qed.

(** Reading a leaf that protect_range rewrote. *)
Lemma fill_reflag e va' perms pat :
  0 <= e -> is_u32 perms -> validate_permissions perms = PAGING_STATUS_OK -> pat_ready pat ->
  let e' := (reflag (permissions_to_flags perms) (1, e)).2 in
  fill_translation e' va' 1 (has e' PAGE_WRITABLE) (negb (has e' PAGE_NO_EXECUTE))
    (bool_decide (1 = 4) && has e' PAGE_USER) pat =
  MkTranslation (Z.lor (Z.land (Z.land e PAGE_FRAME_MASK) (not64 (level_page_size 1 - 1)))
      (Z.land va' (level_page_size 1 - 1))) perms (permission_type perms) 1 false.
Proof.
  intros He Hp32 Hperm Hpat e'. unfold reflag in e'. cbn [fst snd] in e'.
  destruct (flags_translation perms pat Hp32 Hperm Hpat) as (F1 & F2 & F3 & F4 & F5 & F6 & F7).
  pose proof (frame_of_land e He) as Hf. set (t := Z.land e PAGE_FRAME_MASK) in *.
  set (f := permissions_to_flags perms) in *.
  assert (leaf_pat_index e' 1 = leaf_pat_index f 1) as Ei
    by (apply (pat_index_frame t f 1); try done; by left).
  unfold fill_translation, leaf_memory_type. rewrite Ei, F6.
  unfold e', PAGE_WRITABLE, PAGE_NO_EXECUTE, PAGE_USER in *.
  rewrite !(has_frame_lor t) by (done || lia). rewrite F1, F2, F3, negb_involutive.
  rewrite frame_of_lor by (done || apply flags_no_frame).
  change (bool_decide (1 = 4)) with false. f_equal. exact F7.
Qed.

(** ** Operations *)

(** A call of one of the three range operations. *)
Inductive range_op : Type :=
| MapRange (va pa length perms L : Z)
| UnmapRange (va length : Z)
| ProtectRange (va length perms pat : Z).

Definition run_op (o : range_op) (s : space F) : paging_status * space F :=
  match o with
  | MapRange va pa length perms L => map_range va pa length perms L s
  | UnmapRange va length => unmap_range va length s
  | ProtectRange va length perms pat => protect_range va length perms pat s
  end.

Definition op_args (o : range_op) : Prop :=
  match o with
  | MapRange va pa length _ L => map_args va pa length L
  | UnmapRange va length | ProtectRange va length _ _ => is_u64 va /\ is_u64 length
  end.

(** The level of the pages an operation writes. *)
Definition op_level (o : range_op) : Z :=
  match o with MapRange _ _ _ _ L => L | _ => 1 end.

Lemma run_op_told o T s : ok T s -> op_args o -> told (op_level o) s (run_op o s).2.
Proof.
  intros Hok Ha. destruct o as [va pa length perms L|va length|va length perms pat]; cbn.
  - pose proof (map_range_spec va pa length perms L T s Hok Ha) as Hm.
    destruct (map_range va pa length perms L s) as [st s'].
    destruct st; try (subst s'; by apply told_refl); cbn; try apply Hm.
  - destruct Ha as [Hva Hlen]. pose proof (unmap_range_spec va length T s Hok Hva Hlen) as Hu.
    destruct (unmap_range va length s) as [st s']. cbn in *.
    destruct (is_ok st); [|subst s'; by apply told_refl]. destruct Hu as (_ & _ & T' & W). apply W.
  - destruct Ha as [Hva Hlen].
    pose proof (protect_range_spec va length perms pat T s Hok Hva Hlen) as Hp.
    destruct (protect_range va length perms pat s) as [st s']. cbn in *.
    destruct (is_ok st); [|subst s'; by apply told_refl]. destruct Hp as (_ & _ & _ & R). apply R.
Qed.

(** ** Theorems *)

(** C4 (invariant): in every reachable hierarchy the tables form a tree of
    frames its supply handed out, counted by table_frames, and the audit finds
    no leaf that is writable and executable and none open to user mode. *)
Theorem hierarchy_reachable_safe s :
  reachable s ->
  (exists T, ok T s) /\
  (audit_hierarchy s).(write_execute_leaves) = 0 /\ (audit_hierarchy s).(user_leaves) = 0.
Proof.
  intros [[T Hok] Hst]%reachable_ok. split; [by exists T|].
  assert (forall va l e, leaf s va = Some (l, e) ->
    has e PAGE_WRITABLE && negb (has e PAGE_NO_EXECUTE) = false /\ has e PAGE_USER = false) as Hs.
  { intros va l e Hlf. specialize (Hst va l e Hlf). unfold strict in Hst.
    by apply andb_prop in Hst as [?%negb_true_iff ?%negb_true_iff]. }
  split.
  - apply (audit_spec write_execute_leaves (fun w x _ => w && x)) with (T := T);
      [by intros; cbn; destruct (_ && _); lia|apply Hok|done|].
    intros va l e Hlf. by destruct (Hs va l e Hlf) as [? _].
  - apply (audit_spec user_leaves (fun _ _ u => u)) with (T := T);
      [by intros ?? ? []; cbn; lia|apply Hok|done|].
    intros va l e Hlf. unfold bad_leaf. destruct (Hs va l e Hlf) as [_ ->]. apply andb_false_r.
Qed.

(** The audit's write_execute_leaves is zero exactly when no
    address resolves to a leaf that is writable and executable. *)
Theorem audit_finds_write_execute T s :
  ok T s ->
  ((audit_hierarchy s).(write_execute_leaves) = 0 <->
   forall va l e, leaf s va = Some (l, e) ->
     has e PAGE_WRITABLE && negb (has e PAGE_NO_EXECUTE) = false).
Proof.
  intros Hok. apply (audit_spec write_execute_leaves (fun w x _ => w && x)) with (T := T);
    [by intros; cbn; destruct (_ && _); lia|apply Hok|done].
Qed.

(** C5 (functional): a map_range that succeeds makes every address of the range
    translate to the physical address at the same offset with exactly the
    requested permissions, leaves every other address alone, and found the
    whole range unmapped; a map_range that fails, also half way for want of
    table frames, changes no translation. *)
Theorem map_range_translates T s va pa length perms L pat st s' :
  ok T s -> map_args va pa length L -> is_u32 perms -> pat_ready pat ->
  map_range va pa length perms L s = (st, s') ->
  forall va', canonical va' ->
  translate_address va' pat s' =
    if is_ok st && bool_decide (va <= va' < va + length) then
      (PAGING_STATUS_OK, MkTranslation (pa + (va' - va)) perms (permission_type perms) L false)
    else translate_address va' pat s.
Proof.
  intros Hok Ha Hp32 Hpat E va' Hc.
  pose proof (map_range_spec va pa length perms L T s Hok Ha) as Hm. rewrite E in Hm.
  assert (st <> PAGING_STATUS_OK -> translate_address va' pat s' = translate_address va' pat s)
    as Hfail.
  { intros Hne. destruct st; try (by subst s'); try done; destruct Hm as [[T' Hok'] Hlf _ _ _];
      by rewrite (translate_leaf T' s'), (translate_leaf T s), Hlf. }
  unfold is_ok. case_bool_decide as Est; [|by apply Hfail]. subst st. cbn [andb].
  destruct Hm as (Hperm & V & Hal & Hlim & M). destruct Ha as [_ Hpa _ _].
  case_bool_decide as Hr; [by eapply mapped_translation|].
  destruct (md_ok _ _ _ _ _ _ _ _ M) as (T' & Hok' & _).
  rewrite (translate_leaf T' s'), (translate_leaf T s) by done.
  rewrite (md_else _ _ _ _ _ _ _ _ M); [done|].
  rewrite (covered_range va length L V); [done| |done].
  eapply vrange_half; [done|]. unfold is_u64 in *. lia.
Qed.

(** An unmap_range that succeeds unmaps exactly the addresses
    of the range, all of which were 4 KiB pages, and leaves no empty table
    behind; one that fails changes nothing. *)
Theorem unmap_range_exact T s va length pat st s' :
  ok T s -> is_u64 va -> is_u64 length -> length <= 2 ^ 52 ->
  unmap_range va length s = (st, s') ->
  (is_ok st = false -> s' = s) /\
  (is_ok st = true ->
     (exists T', ok T' s' /\ T' ⊆ T /\ (packed T s -> packed T' s')) /\
     forall va', canonical va' ->
     if decide (va <= va' < va + length)
     then (translate_address va' pat s).2.(level) = 1 /\
          translate_address va' pat s' = (PAGING_STATUS_NOT_MAPPED, no_translation)
     else translate_address va' pat s' = translate_address va' pat s).
Proof.
  intros Hok Hva Hlen Hlim E. pose proof (unmap_range_spec va length T s Hok Hva Hlen) as Hu.
  rewrite E in Hu. cbv zeta in Hu. split; intros Est; rewrite Est in Hu; [done|].
  destruct Hu as (V & Hall & T' & W). rewrite page_size_1 in *.
  pose proof (vrange_half va length 1 V Hlim) as Hh. split.
  { exists T'. split_and!; [apply W|apply W|]. by apply (wp_packed _ _ _ _ _ _ _ W). }
  intros va' Hc. pose proof (covered_range va length 1 V Hh va' Hc) as Hcov.
  rewrite (translate_leaf T' s'), (translate_leaf T s) by (apply W || done).
  rewrite (wp_leaf _ _ _ _ _ _ _ W). case_decide as Hr.
  - rewrite decide_True by (by apply Hcov). split; [|done].
    destruct (range_page va length 1 va' V Hh Hc Hr) as (off & Hin & Ev & _).
    destruct (Hall off Hin) as (e & Elf). by rewrite (leaf_page s va' _ Ev), Elf.
  - by rewrite decide_False by (by rewrite Hcov).
Qed.

(** Unmapping what was just mapped. *)
Lemma map_then_unmap T s va pa length perms s1 :
  ok T s -> map_args va pa length 1 ->
  map_range va pa length perms 1 s = (PAGING_STATUS_OK, s1) ->
  exists s2 T2, unmap_range va length s1 = (PAGING_STATUS_OK, s2) /\
    (forall va', leaf s2 va' = leaf s va') /\ ok T2 s2 /\ same_rest T T2 s s2 /\
    (packed T s -> packed T2 s2 /\ T2 = T).
Proof.
  intros Hok Ha E. pose proof (map_range_spec va pa length perms 1 T s Hok Ha) as Hm.
  rewrite E in Hm. destruct Hm as (_ & V & _ & _ & M).
  destruct (md_ok _ _ _ _ _ _ _ _ M) as (T1 & Hok1 & Hpk1 & Hsub1 & Hrest1).
  pose proof (md_page _ _ _ _ _ _ _ _ M) as Hpage. pose proof (md_else _ _ _ _ _ _ _ _ M) as Helse.
  rewrite <- page_size_1 in Hpage, Helse. destruct Ha as [Hva Hpa Hlen _].
  pose proof (unmap_range_spec va length T1 s1 Hok1 Hva Hlen) as Hu. cbv zeta in Hu.
  assert (is_ok (unmap_range va length s1).1 = true) as Est.
  { unfold unmap_range. pose proof V as V'.
    apply (validate_virtual_range_ok va length 1 Hva Hlen ltac:(lia)) in V'.
    rewrite page_size_1, V'. change (is_ok PAGING_STATUS_OK) with true. cbn [negb].
    pose proof (require_mapped_spec T1 s1 va length Hok1) as Hreq. cbv zeta in Hreq.
    destruct (is_ok (require_mapped_range va length s1)) eqn:Er; cbn [negb]; [done|].
    destruct Hreq as (off & Hin & Hst). destruct (Hpage off _ Hin eq_refl) as [_ Elf].
    rewrite Elf in Hst. clear -Hst. destruct (require_mapped_range va length s1); try done.
    destruct Hst as (l & e & Elf' & ?). injection Elf' as <- _. lia. }
  destruct (unmap_range va length s1) as [st s2]. cbn in Est. rewrite Est in Hu.
  apply bool_decide_eq_true in Est. subst st. destruct Hu as (_ & _ & T2 & W).
  assert (forall va', leaf s2 va' = leaf s va') as Hsame.
  { intros va'. rewrite (wp_leaf _ _ _ _ _ _ _ W). case_decide as Hc; [|by apply Helse].
    unfold covered in Hc. rewrite Exists_exists in Hc. destruct Hc as (off & Hin & Ev).
    by destruct (Hpage off va' Hin Ev) as [-> _]. }
  exists s2, T2. split_and!; [done|done|apply W|eapply same_rest_trans; [done|apply W]|].
  intros Hpk. assert (packed T2 s2) as Hpk2 by (by apply (wp_packed _ _ _ _ _ _ _ W eq_refl), Hpk1).
  split; [done|].
  apply (packed_same T T1 T2 s s1 s2); [apply Hok|done|apply Hok1|done|apply W|done|apply W|done].
Qed.

(** The frame allocator holds the frames it held, or was never asked. *)
Definition frames_restored (s s2 : space F) : Prop :=
  if s.(hier).(arena_capacity) =? 0
  then forall q, held s2.(frames) q <-> held s.(frames) q
  else s2.(frames) = s.(frames).

(** C6 (roundtrip): in a hierarchy in which no table but the root is empty (as
    creation and successful calls leave it), mapping 4 KiB pages and unmapping
    them again succeeds and gives back every translation and every table: the
    tables are the ones before, table_frames counts them, and the frame
    allocator holds exactly the frames it held, or was never asked when the
    hierarchy has an arena. *)
Theorem map_unmap_roundtrip T s va pa length perms s1 :
  ok T s -> packed T s -> map_args va pa length 1 ->
  map_range va pa length perms 1 s = (PAGING_STATUS_OK, s1) ->
  exists s2, unmap_range va length s1 = (PAGING_STATUS_OK, s2) /\
    (forall va', leaf s2 va' = leaf s va') /\
    s2.(hier).(table_frames) = s.(hier).(table_frames) /\
    frames_restored s s2 /\ ok T s2 /\ packed T s2.
Proof.
  intros Hok Hpk Ha E.
  destruct (map_then_unmap T s va pa length perms s1 Hok Ha E)
    as (s2 & T2 & Eu & Hsame & Hok2 & Hrest & Hpk2).
  destruct (Hpk2 Hpk) as [Hp ->]. exists s2. split_and!; try done.
  - by rewrite (ok_count _ _ Hok2), (ok_count _ _ Hok).
  - by apply (same_rest_held T s s2).
Qed.

(** A protect_range that succeeds keeps the physical address
    and the memory type of every page of the range and gives it exactly the
    requested permissions; no other address changes, and a refusal changes
    nothing. *)
Theorem protect_range_exact T s va length perms pat st s' :
  ok T s -> is_u64 va -> is_u64 length -> length <= 2 ^ 52 ->
  is_u32 perms -> pat_ready pat ->
  protect_range va length perms pat s = (st, s') ->
  (is_ok st = false -> s' = s) /\
  (is_ok st = true -> forall va', canonical va' ->
     translate_address va' pat s' =
     if decide (va <= va' < va + length) then
       let old := (translate_address va' pat s).2 in
       (PAGING_STATUS_OK,
        MkTranslation old.(physical_address) perms old.(memory_type) 1 false)
     else translate_address va' pat s).
Proof.
  intros Hok Hva Hlen Hlim Hp32 Hpat E.
  pose proof (protect_range_spec va length perms pat T s Hok Hva Hlen) as Hp.
  rewrite E in Hp. cbv zeta in Hp. split; intros Est; rewrite Est in Hp; [done|].
  destruct Hp as (Hperm & V & Hall & R). intros va' Hc.
  assert (check_types va length pat (leaf_memory_type (permissions_to_flags perms) 1 pat) s =
    PAGING_STATUS_OK) as Hty.
  { apply bool_decide_eq_true in Est. subst st. unfold protect_range in E.
    repeat (split_if_in E; [injection E as E _; by rewrite E in *|]).
    by apply negb_false_iff, bool_decide_eq_true in Heqb2. }
  pose proof (vrange_half va length 1 V Hlim) as Hh.
  pose proof (covered_range va length 1 V Hh va' Hc) as Hcov.
  rewrite (translate_leaf T s'), (translate_leaf T s) by (apply R || done).
  rewrite (rp_leaf _ _ _ _ _ _ R). rewrite page_size_1 in *.
  destruct (decide (va <= va' < va + length)) as [Hr|Hr].
  - rewrite decide_True by (by apply Hcov).
    destruct (range_page va length 1 va' V Hh Hc Hr) as (off & Hin & Ev & _).
    destruct (Hall off Hin) as (e & Elf).
    pose proof (check_types_spec T s va length pat _ Hok Hty off e Hin Elf) as Ht.
    rewrite (leaf_page s va' _ Ev), Elf. cbn [fmap option_fmap option_map].
    assert (0 <= e) as He.
    { destruct (leaf_tables T s _ 1 e (ok_tree _ _ Hok) Elf 1 ltac:(lia)) as (t & Hl).
      destruct (leaf_slot T s _ t 1 e (ok_tree _ _ Hok) Hl Elf) as [<- _].
      eapply tr_word; [apply Hok|done|by apply index_range]. }
    pose proof (fill_reflag e va' perms pat He Hp32 Hperm Hpat) as Hfill.
    unfold reflag in *. cbn [fst snd] in *. cbn [leaf_translation]. rewrite Hfill.
    cbn [fill_translation snd physical_address memory_type]. rewrite Ht.
    do 2 f_equal. symmetry.
    destruct (flags_translation perms pat Hp32 Hperm Hpat) as (_ & _ & _ & _ & _ & F6 & _).
    exact F6.
  - by rewrite decide_False by (by rewrite Hcov).
Qed.

(** C7 (safety): when a live hierarchy changes, the processor is told to forget
    every page whose leaf changed: each such address shares its page with an
    address of an invlpg issued by the operation, failed operations included. *)
Theorem changed_pages_flushed T s o va :
  ok T s -> op_args o -> s.(hier).(live) = true ->
  leaf (run_op o s).2 va <> leaf s va ->
  exists issued a, (run_op o s).2.(flushed) = (issued ++ s.(flushed))%list /\ a ∈ issued /\
    vpre a (op_level o - 1) = vpre va (op_level o - 1).
Proof.
  intros Hok Ha Hl Hne. destruct (run_op_told o T s Hok Ha) as (fl & Ef & Hfl).
  destruct (Hfl Hl va Hne) as (a & Hin & Hp). by exists fl, a.
Qed.

End spaces.

(** * The kernel's frame allocator as the supply *)

Section kernel_frames.
Context {L : PhysicalMemory.PhysicalLayout}.
Implicit Types (f : PhysicalMemory.allocator).

#[export] Instance kernel_table_frames : TableFrames PhysicalMemory.allocator := {
  frame_allocate f :=
    let '(status, frame, f) := PhysicalMemory.frame_allocate true f in
    match status with
    | PhysicalMemory.FRAME_STATUS_OK => (frame, f)
    | _ => (None, f)
    end;
  frame_release p f := (PhysicalMemory.frame_release p f).2
}.

(** A frame handed out singly. *)
Definition single_frame f (p : Z) : Prop :=
  exists g, p = g * PhysicalMemory.SAPOTE_PAGE_SIZE /\ 0 <= g < PhysicalMemory.FRAME_COUNT /\
    PhysicalMemory.allocated f g = true /\
    PhysicalMemory.frame_in_contiguous_allocation f g = false.

Definition allocator_ok f : Prop :=
  PhysicalMemory.inv f /\ PhysicalMemory.allocator_initialized f = true.

Lemma same_contiguous f f' g :
  PhysicalMemory.contiguous_records f' = PhysicalMemory.contiguous_records f ->
  PhysicalMemory.frame_in_contiguous_allocation f' g =
  PhysicalMemory.frame_in_contiguous_allocation f g.
Proof. unfold PhysicalMemory.frame_in_contiguous_allocation. by intros ->. Qed.

Lemma kernel_allocate f : allocator_ok f ->
  match frame_allocate f with
  | (None, f') => allocator_ok f' /\ forall q, single_frame f' q <-> single_frame f q
  | (Some p, f') => allocator_ok f' /\ is_frame p /\ ~ single_frame f p /\
      forall q, single_frame f' q <-> single_frame f q \/ q = p
  end.
Proof.
  intros [Hi Hinit]. unfold frame_allocate, kernel_table_frames.
  pose proof (PhysicalMemory.frame_allocate_spec f Hi Hinit) as Hs.
  destruct (PhysicalMemory.frame_allocate true f) as [[[] [a|]] f']; try done;
    [|destruct Hs as [-> _]; by split].
  destruct Hs as (g & -> & Hg & Hav & _ & Hinit' & Hrec & _ & He & Hu & Hi').
  apply PhysicalMemory.available_bits in Hav as [Heg Hug].
  assert (PhysicalMemory.frame_in_contiguous_allocation f g = false) as Hnc.
  { apply not_true_iff_false. intros (i & Hr & Ha & Hin)%PhysicalMemory.in_contiguous_spec; try done.
    pose proof (PhysicalMemory.ro_frames _ _ (PhysicalMemory.inv_record _ Hi i Hr Ha) g Hin) as Hal.
    apply PhysicalMemory.allocated_bits in Hal as [_ Hal]. congruence. }
  unfold PhysicalMemory.SAPOTE_PAGE_SIZE in *. split_and!; try done.
  - split; [by rewrite Z.mod_mul|]. pose proof PhysicalMemory.frame_count_range. lia.
  - intros (g' & E & _ & Hal & _). assert (g' = g) as -> by (unfold PhysicalMemory.SAPOTE_PAGE_SIZE in E; lia).
    apply PhysicalMemory.allocated_bits in Hal as [_ Hal]. congruence.
  - intros q. unfold single_frame, PhysicalMemory.SAPOTE_PAGE_SIZE.
    setoid_rewrite PhysicalMemory.allocated_bits. split.
    + intros (g' & -> & Hg' & [He' Hu'] & Hc). rewrite He in He'. rewrite Hu in Hu' by lia.
      destruct (Z.eqb_spec g g') as [->|Hne]; [by right|left]. exists g'.
      by rewrite (same_contiguous f f') in Hc.
    + intros [(g' & -> & Hg' & [He' Hu'] & Hc) | ->].
      * exists g'. rewrite He, Hu, (same_contiguous f f') by (done || lia).
        split_and!; try done; try lia. by destruct (g =? g').
      * exists g. rewrite He, Hu, (same_contiguous f f'), Z.eqb_refl by (done || lia).
        split_and!; done || lia.
Qed.

Lemma kernel_release f p : allocator_ok f -> single_frame f p ->
  allocator_ok (frame_release p f) /\
  forall q, single_frame (frame_release p f) q <-> single_frame f q /\ q <> p.
Proof.
  intros [Hi Hinit] (g & -> & Hg & Hal & Hnc). unfold frame_release, kernel_table_frames.
  pose proof PhysicalMemory.frame_count_range as Hfc.
  assert (is_u64 (g * PhysicalMemory.SAPOTE_PAGE_SIZE)) as Hu64
    by (unfold is_u64, UINT64_MAX, PhysicalMemory.SAPOTE_PAGE_SIZE; lia).
  pose proof (PhysicalMemory.frame_release_spec f _ Hi Hinit Hu64) as Hs.
  destruct (PhysicalMemory.frame_release _ f) as [st f']. cbn.
  destruct Hs as (Est & _ & Hok).
  assert (st = PhysicalMemory.FRAME_STATUS_OK) as ->.
  { rewrite Est. unfold PhysicalMemory.release_status.
    pose proof Hal as [He Hu]%PhysicalMemory.allocated_bits.
    assert (g * PhysicalMemory.SAPOTE_PAGE_SIZE / PhysicalMemory.SAPOTE_PAGE_SIZE = g) as ->
      by (apply Z.div_mul; done).
    rewrite Z.mod_mul, He, Hu, Hnc by done. change (negb (0 =? 0)) with false. cbn [negb].
    split_if; [|done]. bool_hyps. destruct PhysicalMemory.frame_count_whole as (k & E1 & E2).
    unfold PhysicalMemory.SAPOTE_PAGE_SIZE in *. lia. }
  destruct (Hok eq_refl) as (_ & _ & _ & Hinit' & Hrec & He & Hu & Hi').
  rewrite Z.div_mul in Hu by done. split; [done|]. intros q. unfold single_frame.
  setoid_rewrite PhysicalMemory.allocated_bits. split.
  - intros (g' & -> & Hg' & [He' Hu'] & Hc). rewrite He in He'. rewrite Hu in Hu' by lia.
    destruct (Z.eqb_spec g g') as [->|Hne]; [done|]. split.
    + exists g'. by rewrite (same_contiguous f f') in Hc.
    + unfold PhysicalMemory.SAPOTE_PAGE_SIZE. lia.
  - intros [(g' & -> & Hg' & [He' Hu'] & Hc) Hne]. exists g'.
    rewrite He, Hu, (same_contiguous f f') by (done || lia).
    destruct (Z.eqb_spec g g') as [->|?]; [done|]. split_and!; done || lia.
Qed.

#[export] Instance kernel_table_frames_laws : TableFramesLaws PhysicalMemory.allocator := {
  frames_ok := allocator_ok;
  held := single_frame;
  law_allocate := kernel_allocate;
  law_release := kernel_release
}.
End kernel_frames.

(** * A concrete address space

    The hierarchy of a machine with 28 free frames, and three pages of it. *)

#[local] Existing Instance PhysicalMemory.small_layout.

Definition empty_space : space PhysicalMemory.allocator :=
  MkSpace (reset_hierarchy 0 0) ∅ PhysicalMemory.sample_state [].
Definition sample_space : space PhysicalMemory.allocator := (create_hierarchy 0 0 empty_space).2.
Definition sample_va : Z := 0x0000000040200000.
Definition sample_pa : Z := 0x0000000000123000.
Definition sample_pat : Z := 0x0007040600070106.
Definition sample_mapped : space PhysicalMemory.allocator :=
  (map_range sample_va sample_pa 0x3000 PAGING_WRITE 1 sample_space).2.
Definition sample_live : space PhysicalMemory.allocator := activate sample_mapped.

Lemma sample_supply : supply_start 0 0 (frames empty_space).
Proof.
  pose proof PhysicalMemory.sample_initialized as Hinit. split; [|done].
  by apply (PhysicalMemory.reachable_wf _ PhysicalMemory.sample_reachable).
Qed.

Lemma sample_created : create_hierarchy 0 0 empty_space = (PAGING_STATUS_OK, sample_space).
Proof.
  unfold sample_space. destruct (create_hierarchy 0 0 empty_space) as [st s] eqn:E.
  assert (st = PAGING_STATUS_OK) as ->; [|done].
  replace st with (create_hierarchy 0 0 empty_space).1 by (by rewrite E).
  vm_compute. reflexivity.
Qed.

Lemma sample_args : map_args sample_va sample_pa 0x3000 1.
Proof. split; unfold is_u64, UINT64_MAX, sample_va, sample_pa; lia. Qed.

Lemma sample_maps :
  map_range sample_va sample_pa 0x3000 PAGING_WRITE 1 sample_space =
  (PAGING_STATUS_OK, sample_mapped).
Proof.
  unfold sample_mapped. destruct (map_range _ _ _ _ _ sample_space) as [st s] eqn:E.
  assert (st = PAGING_STATUS_OK) as ->; [|done].
  replace st with (map_range sample_va sample_pa 0x3000 PAGING_WRITE 1 sample_space).1
    by (by rewrite E).
  vm_compute. reflexivity.
Qed.

Lemma sample_pat_ready : pat_ready sample_pat.
Proof. by split_and!. Qed.

Lemma sample_permissions : is_u32 PAGING_WRITE.
Proof. by vm_compute. Qed.

Lemma sample_read : is_u32 PAGING_READ.
Proof. by vm_compute. Qed.

Lemma sample_canonical_low : canonical (sample_va + 0x40).
Proof. unfold canonical, sample_va. lia. Qed.

Lemma sample_canonical : canonical (sample_va + 0x1040).
Proof. unfold canonical, sample_va. lia. Qed.

(** ** Witnesses *)

Lemma sample_reachable_space : reachable sample_space.
Proof. eapply reach_create; [apply sample_supply|apply sample_created]. Qed.

Lemma sample_reachable_live : reachable sample_live.
Proof.
  apply reach_activate, (reach_map _ sample_va sample_pa 0x3000 PAGING_WRITE 1).
  - apply sample_reachable_space.
  - apply sample_args.
Qed.

Lemma sample_space_ok : exists T, ok T sample_space /\ packed T sample_space.
Proof.
  destruct (create_spec 0 0 empty_space sample_space sample_supply sample_created)
    as (T & Hok & Hpk & _). by exists T.
Qed.

Lemma hierarchy_reachable_safe_witness :
  (audit_hierarchy sample_live).(write_execute_leaves) = 0 /\
  (audit_hierarchy sample_live).(leaf_count) = 3.
Proof.
  destruct (hierarchy_reachable_safe sample_live sample_reachable_live) as (_ & Hwx & _).
  split; [exact Hwx|]. vm_compute. reflexivity.
Defined.

Lemma audit_finds_write_execute_witness :
  exists T, (audit_hierarchy sample_space).(write_execute_leaves) = 0 /\
    ok T sample_space.
Proof.
  destruct sample_space_ok as (T & Hok & _). exists T. split; [|exact Hok].
  apply (audit_finds_write_execute T sample_space Hok). intros va l e Hlf.
  destruct (create_spec 0 0 empty_space sample_space sample_supply sample_created)
    as (T' & _ & _ & Hno & _). rewrite Hno in Hlf. discriminate Hlf.
Defined.

Lemma map_range_translates_witness :
  translate_address (sample_va + 0x1040) sample_pat sample_mapped =
    (PAGING_STATUS_OK, MkTranslation 0x124040 PAGING_WRITE PAGING_MEMORY_WRITE_BACK 1 false).
Proof.
  destruct sample_space_ok as (T & Hok & _).
  exact (map_range_translates T sample_space sample_va sample_pa 0x3000 PAGING_WRITE 1
    sample_pat PAGING_STATUS_OK sample_mapped Hok sample_args
    sample_permissions sample_pat_ready sample_maps
    (sample_va + 0x1040) sample_canonical).
Defined.
Lemma sample_live_ok : exists T, ok T sample_live.
Proof. apply (reachable_ok sample_live sample_reachable_live). Qed.

Lemma status_of {A} (r : paging_status * A) :
  r.1 = PAGING_STATUS_OK -> r = (PAGING_STATUS_OK, r.2).
Proof. destruct r. cbn. by intros ->. Qed.

Lemma sample_words : is_u64 sample_va /\ is_u64 0x1000 /\ 0x1000 <= 2 ^ 52.
Proof. unfold is_u64, UINT64_MAX, sample_va. lia. Qed.

Lemma unmap_range_exact_witness :
  translate_address (sample_va + 0x1040) sample_pat (unmap_range sample_va 0x1000 sample_live).2 =
    translate_address (sample_va + 0x1040) sample_pat sample_live /\
  is_ok (unmap_range sample_va 0x1000 sample_live).1 = true.
Proof.
  destruct sample_live_ok as (T & Hok). destruct sample_words as (W1 & W2 & W3).
  assert ((unmap_range sample_va 0x1000 sample_live).1 = PAGING_STATUS_OK) as Est
    by (vm_compute; reflexivity).
  destruct (unmap_range_exact T sample_live sample_va 0x1000 sample_pat _ _ Hok W1 W2 W3
    (status_of _ Est)) as (_ & Hgood).
  destruct (Hgood eq_refl) as (_ & Hva). specialize (Hva _ sample_canonical).
  rewrite decide_False in Hva by (unfold sample_va; lia).
  split; [exact Hva|]. rewrite Est. reflexivity.
Defined.

Lemma map_unmap_roundtrip_witness :
  exists s2, unmap_range sample_va 0x3000 sample_mapped = (PAGING_STATUS_OK, s2) /\
    s2.(hier).(table_frames) = 1 /\ sample_mapped.(hier).(table_frames) = 4 /\
    forall q, single_frame s2.(frames) q <-> single_frame sample_space.(frames) q.
Proof.
  destruct sample_space_ok as (T & Hok & Hpk).
  destruct (map_unmap_roundtrip T sample_space sample_va sample_pa 0x3000 PAGING_WRITE
    sample_mapped Hok Hpk sample_args sample_maps) as (s2 & E & _ & Hcount & Hheld & _).
  assert ((arena_capacity (hier sample_space) =? 0) = true) as Ec by (vm_compute; reflexivity).
  unfold frames_restored in Hheld. rewrite Ec in Hheld. exists s2. split; [exact E|]. rewrite Hcount.
  split; [vm_compute; reflexivity|]. split; [vm_compute; reflexivity|exact Hheld].
Defined.

Lemma protect_range_exact_witness :
  translate_address (sample_va + 0x40) sample_pat
    (protect_range sample_va 0x1000 PAGING_READ sample_pat sample_live).2 =
  (PAGING_STATUS_OK, MkTranslation 0x123040 PAGING_READ PAGING_MEMORY_WRITE_BACK 1 false).
Proof.
  destruct sample_live_ok as (T & Hok). destruct sample_words as (W1 & W2 & W3).
  assert ((protect_range sample_va 0x1000 PAGING_READ sample_pat sample_live).1 =
    PAGING_STATUS_OK) as Est by (vm_compute; reflexivity).
  destruct (protect_range_exact T sample_live sample_va 0x1000 PAGING_READ sample_pat _ _ Hok
    W1 W2 W3 sample_read sample_pat_ready (status_of _ Est)) as (_ & Hgood).
  specialize (Hgood eq_refl _ sample_canonical_low). rewrite decide_True in Hgood by (unfold sample_va; lia).
  assert ((translate_address (sample_va + 0x40) sample_pat sample_live).2 =
    MkTranslation 0x123040 PAGING_WRITE PAGING_MEMORY_WRITE_BACK 1 false) as Eold
    by (vm_compute; reflexivity).
  rewrite Eold in Hgood. exact Hgood.
Defined.

Lemma changed_pages_flushed_witness :
  exists issued a,
    (unmap_range sample_va 0x1000 sample_live).2.(flushed) =
      (issued ++ sample_live.(flushed))%list /\
    a ∈ issued /\ vpre a 0 = vpre sample_va 0.
Proof.
  destruct sample_live_ok as (T & Hok). destruct sample_words as (W1 & W2 & _).
  apply (changed_pages_flushed T sample_live (UnmapRange sample_va 0x1000) sample_va Hok
    (conj W1 W2) eq_refl).
  vm_compute. discriminate.
Defined.

(** Running out of table frames half way undoes the mapping but
    keeps the interior tables it had linked. With an arena of three frames a
    4 KiB mapping needs a fourth: map_range answers OUT_OF_FRAMES, no address
    translates, and table_frames has grown from one to three. *)
Theorem failed_map_keeps_tables :
  let s0 : space PhysicalMemory.allocator :=
    MkSpace (reset_hierarchy 0 0) ∅ PhysicalMemory.sample_state [] in
  let s1 := (create_hierarchy 0x200000 3 s0).2 in
  let r := map_range sample_va sample_pa 0x1000 PAGING_WRITE 1 s1 in
  r.1 = PAGING_STATUS_OUT_OF_FRAMES /\
  (translate_address sample_va sample_pat r.2).1 = PAGING_STATUS_NOT_MAPPED /\
  s1.(hier).(table_frames) = 1 /\ r.2.(hier).(table_frames) = 3.
Proof. vm_compute. by split_and!. Qed.

End PageSpace.
