(* ===== verification/DeviceWindows.v ===== *)
(** The device-window registry: the part of src/src/kernel/paging.c in which the
    boot code declares the physical ranges of devices and
    paging_device_windows_validate turns them into one canonical list.

    A registry is its [count] and its array of entries. What validation
    promises is that acceptance does not depend on the order of declaration and
    that an accepted registry is sorted, disjoint, one window per device, inside
    the early map and page aligned. *)
From Stdlib Require Import Sorted.
From stdpp Require Import sorting.
From S2P Require Import Prelude PageTable.
Import PageTable.

Module DeviceWindows.

Definition ACPI_MAX_IO_APICS : Z := 8.
Definition PAGING_VGA_TEXT_BUFFER_BASE : Z := 0x000B8000.
Definition PAGING_ECAM_WINDOW_SIZE : Z := PAGING_HUGE_PAGE_SIZE.
Definition PAGING_MAX_FRAMEBUFFER_REGIONS : Z := 8.
Definition PAGING_DEVICE_WINDOW_CAPACITY : Z := 4 + ACPI_MAX_IO_APICS.
Definition PAGING_DEVICE_WINDOW_MAX_LENGTH : Z :=
  PAGING_MAX_FRAMEBUFFER_REGIONS * PAGING_HUGE_PAGE_SIZE.

(** enum paging_device_window_kind: a caller can pass any integer. *)
Definition PAGING_DEVICE_WINDOW_VGA_TEXT : Z := 0.
Definition PAGING_DEVICE_WINDOW_LOCAL_APIC : Z := 1.
Definition PAGING_DEVICE_WINDOW_IO_APIC : Z := 2.
Definition PAGING_DEVICE_WINDOW_PCI_ECAM : Z := 3.
Definition PAGING_DEVICE_WINDOW_FRAMEBUFFER : Z := 4.
Definition PAGING_DEVICE_WINDOW_KIND_COUNT : Z := 5.
Definition PAGING_DEVICE_WINDOW_WRITE : Z := Z.shiftl 1 0.

Record paging_device_window : Type := MkWindow {
  kind : Z;
  instance : Z;
  physical_base : Z;
  length : Z;
  memory_type : paging_memory_type;
  permissions : Z
}.

#[export] Instance paging_device_window_eq_dec : EqDecision paging_device_window.
Proof. solve_decision. Defined.

Record paging_device_windows : Type := MkWindows {
  count : Z;
  entries : list paging_device_window
}.

Definition no_window : paging_device_window := MkWindow 0 0 0 0 PAGING_MEMORY_WRITE_BACK 0.

Definition paging_device_windows_reset (windows : option paging_device_windows)
  : option paging_device_windows :=
  match windows with
  | None => None
  | Some w => Some (MkWindows 0 w.(entries))
  end.

Definition device_memory_type_supported (t : paging_memory_type) : bool :=
  bool_decide (t = PAGING_MEMORY_WRITE_BACK) ||
  bool_decide (t = PAGING_MEMORY_WRITE_COMBINING) ||
  bool_decide (t = PAGING_MEMORY_UNCACHEABLE).

Definition validate_device_window_entry (w : paging_device_window) : paging_status :=
  let is_kind k := w.(kind) =? k in
  if (w.(kind) <? PAGING_DEVICE_WINDOW_VGA_TEXT) ||
     (w.(kind) >=? PAGING_DEVICE_WINDOW_KIND_COUNT) then
    PAGING_STATUS_BAD_DEVICE_WINDOW_KIND
  else if (negb (is_kind PAGING_DEVICE_WINDOW_IO_APIC) && negb (w.(instance) =? 0)) ||
          (is_kind PAGING_DEVICE_WINDOW_IO_APIC && (w.(instance) >=? ACPI_MAX_IO_APICS)) then
    PAGING_STATUS_BAD_DEVICE_WINDOW_INSTANCE
  else if negb (device_memory_type_supported w.(memory_type)) then
    PAGING_STATUS_UNSUPPORTED_DEVICE_WINDOW_MEMORY_TYPE
  else if negb (Z.land w.(permissions) (u32 (Z.lnot PAGING_DEVICE_WINDOW_WRITE)) =? 0) then
    PAGING_STATUS_BAD_DEVICE_WINDOW_PERMISSIONS
  else if w.(length) =? 0 then PAGING_STATUS_ZERO_LENGTH_DEVICE_WINDOW
  else if w.(length) >? UINT64_MAX - w.(physical_base) then
    PAGING_STATUS_DEVICE_WINDOW_RANGE_OVERFLOW
  else if negb (Z.land w.(physical_base) (PAGING_PAGE_SIZE - 1) =? 0) ||
          negb (Z.land w.(length) (PAGING_PAGE_SIZE - 1) =? 0) then
    PAGING_STATUS_UNALIGNED_DEVICE_WINDOW
  else if is_kind PAGING_DEVICE_WINDOW_PCI_ECAM &&
          negb (Z.land w.(physical_base) (PAGING_HUGE_PAGE_SIZE - 1) =? 0) then
    PAGING_STATUS_UNALIGNED_DEVICE_WINDOW
  else if (is_kind PAGING_DEVICE_WINDOW_VGA_TEXT &&
             negb (w.(physical_base) =? PAGING_VGA_TEXT_BUFFER_BASE)) ||
          ((is_kind PAGING_DEVICE_WINDOW_VGA_TEXT ||
            is_kind PAGING_DEVICE_WINDOW_LOCAL_APIC ||
            is_kind PAGING_DEVICE_WINDOW_IO_APIC) && negb (w.(length) =? PAGING_PAGE_SIZE)) ||
          (is_kind PAGING_DEVICE_WINDOW_PCI_ECAM &&
             negb (w.(length) =? PAGING_ECAM_WINDOW_SIZE)) then
    PAGING_STATUS_DEVICE_WINDOW_UNSUPPORTED_RANGE
  else if (w.(physical_base) =? 0) || (w.(length) >? PAGING_DEVICE_WINDOW_MAX_LENGTH) ||
          (u64 (w.(physical_base) + w.(length)) >? SAPOTE_EARLY_PHYSICAL_LIMIT) then
    PAGING_STATUS_DEVICE_WINDOW_UNSUPPORTED_RANGE
  else PAGING_STATUS_OK.

Definition paging_device_windows_add (windows : option paging_device_windows)
    (w : paging_device_window) : paging_status * option paging_device_windows :=
  match windows with
  | None => (PAGING_STATUS_NULL_ARGUMENT, None)
  | Some ws =>
      if ws.(count) >=? PAGING_DEVICE_WINDOW_CAPACITY then
        (PAGING_STATUS_TOO_MANY_DEVICE_WINDOWS, Some ws)
      else
        let status := validate_device_window_entry w in
        if negb (is_ok status) then (status, Some ws)
        else (PAGING_STATUS_OK,
              Some (MkWindows (ws.(count) + 1) (aset ws.(entries) ws.(count) w)))
  end.

(** The value of an enumerator of paging_memory_type. *)
Definition memory_type_value (t : paging_memory_type) : Z :=
  match t with
  | PAGING_MEMORY_WRITE_BACK => 0
  | PAGING_MEMORY_WRITE_COMBINING => 1
  | PAGING_MEMORY_UNCACHEABLE => 2
  | PAGING_MEMORY_WRITE_THROUGH => 3
  | PAGING_MEMORY_WRITE_PROTECTED => 4
  | PAGING_MEMORY_UNCACHED_MINUS => 5
  | PAGING_MEMORY_INVALID => 6
  end.

Definition compare_device_windows (left right : paging_device_window) : Z :=
  if negb (left.(physical_base) =? right.(physical_base)) then
    if left.(physical_base) <? right.(physical_base) then -1 else 1
  else if negb (left.(length) =? right.(length)) then
    if left.(length) <? right.(length) then -1 else 1
  else if negb (left.(kind) =? right.(kind)) then
    if left.(kind) <? right.(kind) then -1 else 1
  else if negb (left.(instance) =? right.(instance)) then
    if left.(instance) <? right.(instance) then -1 else 1
  else if negb (memory_type_value left.(memory_type) =? memory_type_value right.(memory_type))
  then
    if memory_type_value left.(memory_type) <? memory_type_value right.(memory_type)
    then -1 else 1
  else if negb (left.(permissions) =? right.(permissions)) then
    if left.(permissions) <? right.(permissions) then -1 else 1
  else 0.

Definition ranges_overlap (left right : paging_device_window) : bool :=
  let left_end := u64 (left.(physical_base) + left.(length)) in
  let right_end := u64 (right.(physical_base) + right.(length)) in
  (left.(physical_base) <? right_end) && (right.(physical_base) <? left_end).

(** What the first loop of validation found. *)
Record found_kinds : Type := MkFound {
  found_vga : bool;
  found_local_apic : bool;
  found_io_apic : bool
}.

Definition note_kind (f : found_kinds) (w : paging_device_window) : found_kinds :=
  if w.(kind) =? PAGING_DEVICE_WINDOW_VGA_TEXT then
    MkFound true f.(found_local_apic) f.(found_io_apic)
  else if w.(kind) =? PAGING_DEVICE_WINDOW_LOCAL_APIC then
    MkFound f.(found_vga) true f.(found_io_apic)
  else if w.(kind) =? PAGING_DEVICE_WINDOW_IO_APIC then
    MkFound f.(found_vga) f.(found_local_apic) true
  else f.

(** What the pairwise loop found. *)
Record pair_faults : Type := MkFaults {
  conflicting_overlap : bool;
  duplicate : bool;
  overlap : bool
}.

Definition note_pair (f : pair_faults) (first second : paging_device_window) : pair_faults :=
  let pair_overlaps := ranges_overlap first second in
  let conflicting :=
    if pair_overlaps && negb (bool_decide (first.(memory_type) = second.(memory_type)))
    then true else f.(conflicting_overlap) in
  if (compare_device_windows first second =? 0) ||
     ((first.(kind) =? second.(kind)) && (first.(instance) =? second.(instance))) then
    MkFaults conflicting true f.(overlap)
  else if pair_overlaps then MkFaults conflicting f.(duplicate) true
  else MkFaults conflicting f.(duplicate) f.(overlap).

Definition pair_loop (n : Z) (es : list paging_device_window) : pair_faults :=
  foldl (fun f left =>
      foldl (fun f right => note_pair f (aget no_window es left) (aget no_window es right))
        f (seqZ (left + 1) (n - (left + 1))))
    (MkFaults false false false) (seqZ 0 n).

(** The inner loop of the insertion sort: [destination] is [d]. *)
Fixpoint sink (d : nat) (current : paging_device_window) (es : list paging_device_window)
  : list paging_device_window :=
  match d with
  | O => aset es 0 current
  | S d' =>
      let below := aget no_window es (Z.of_nat d') in
      if compare_device_windows current below <? 0 then
        sink d' current (aset es (Z.of_nat d) below)
      else aset es (Z.of_nat d) current
  end.

Definition sort_windows (n : Z) (es : list paging_device_window) : list paging_device_window :=
  foldl (fun es index => sink (Z.to_nat index) (aget no_window es index) es) es
    (seqZ 1 (n - 1)).

(** [validated] is the destination, when there is one. The entries of the local
    copy past the count are indeterminate and never read: [no_window]. *)
Definition paging_device_windows_validate (windows validated : option paging_device_windows)
  : paging_status * option paging_device_windows :=
  match windows, validated with
  | Some ws, Some out =>
      let refuse status := (status, Some out) in
      if ws.(count) >? PAGING_DEVICE_WINDOW_CAPACITY then
        refuse PAGING_STATUS_TOO_MANY_DEVICE_WINDOWS
      else
      match
        for_each (fun index found =>
            let w := aget no_window ws.(entries) index in
            let status := validate_device_window_entry w in
            if negb (is_ok status) then Return status else Next (note_kind found w))
          (seqZ 0 ws.(count)) (MkFound false false false)
      with
      | Return status => refuse status
      | Next found =>
          let faults := pair_loop ws.(count) ws.(entries) in
          if faults.(conflicting_overlap) then
            refuse PAGING_STATUS_CONFLICTING_DEVICE_WINDOW_OVERLAP
          else if faults.(duplicate) then refuse PAGING_STATUS_DUPLICATE_DEVICE_WINDOW
          else if faults.(overlap) then refuse PAGING_STATUS_OVERLAPPING_DEVICE_WINDOWS
          else if negb found.(found_vga) || negb found.(found_local_apic) ||
                  negb found.(found_io_apic) then
            refuse PAGING_STATUS_REQUIRED_DEVICE_WINDOW_MISSING
          else
            let normalized := take (Z.to_nat ws.(count)) ws.(entries) ++
              replicate (Z.to_nat (PAGING_DEVICE_WINDOW_CAPACITY - ws.(count))) no_window in
            (PAGING_STATUS_OK, Some (MkWindows ws.(count) (sort_windows ws.(count) normalized)))
      end
  | _, _ => (PAGING_STATUS_NULL_ARGUMENT, validated)
  end.

(** * Registries as lists *)

(** The declared windows. *)
Definition windows_of (ws : paging_device_windows) : list paging_device_window :=
  take (Z.to_nat ws.(count)) ws.(entries).

(** The types of the C fields, and the array bound. *)
Definition typed_window (w : paging_device_window) : Prop :=
  is_u64 w.(physical_base) /\ is_u64 w.(length).
Record typed_windows (ws : paging_device_windows) : Prop := {
  tw_array : zlength ws.(entries) = PAGING_DEVICE_WINDOW_CAPACITY;
  tw_count : 0 <= ws.(count) <= PAGING_DEVICE_WINDOW_CAPACITY;
  tw_typed : Forall typed_window (windows_of ws)
}.

Lemma foldl_seq_drop {A B} (d : A) (g : B -> A -> B) (l : list A) (k : Z) : forall a,
  0 <= k <= zlength l ->
  foldl (fun a i => g a (aget d l i)) a (seqZ k (zlength l - k)) =
  foldl g a (drop (Z.to_nat k) l).
Proof.
  intros a Hk. remember (Z.to_nat (zlength l - k)) as n eqn:En.
  revert a k Hk En. induction n as [|n IH]; intros a k Hk En.
  - assert (k = zlength l) as -> by lia. rewrite Z.sub_diag, seqZ_nil by lia.
    unfold zlength. by rewrite Nat2Z.id, drop_all.
  - rewrite seqZ_cons by lia. cbn [foldl].
    rewrite (drop_S l (aget d l k)) by (apply lookup_aget; lia). cbn [foldl].
    replace (S (Z.to_nat k)) with (Z.to_nat (Z.succ k)) by lia.
    rewrite <- IH by lia. do 2 f_equal. lia.
Qed.

Fixpoint pairs_fold {A B} (g : B -> A -> A -> B) (b : B) (l : list A) : B :=
  match l with
  | [] => b
  | x :: l' => pairs_fold g (foldl (fun b y => g b x y) b l') l'
  end.

(** The pairwise loop is a fold over the pairs of the declared windows. *)
Lemma pair_loop_pairs (l : list paging_device_window) :
  pair_loop (zlength l) l = pairs_fold note_pair (MkFaults false false false) l.
Proof.
  unfold pair_loop. generalize (MkFaults false false false) as f.
  assert (forall n k f, n = Z.to_nat (zlength l - k) -> 0 <= k <= zlength l ->
    foldl (fun f left =>
      foldl (fun f right => note_pair f (aget no_window l left) (aget no_window l right))
        f (seqZ (left + 1) (zlength l - (left + 1)))) f (seqZ k (zlength l - k)) =
    pairs_fold note_pair f (drop (Z.to_nat k) l)) as Hk.
  { induction n as [|n IH]; intros k f En Hk.
    - assert (k = zlength l) as -> by lia. rewrite Z.sub_diag, seqZ_nil by lia.
      unfold zlength. by rewrite Nat2Z.id, drop_all.
    - rewrite seqZ_cons by lia. cbn [foldl].
      rewrite (drop_S l (aget no_window l k)) by (apply lookup_aget; lia). cbn [pairs_fold].
      replace (S (Z.to_nat k)) with (Z.to_nat (Z.succ k)) by lia.
      rewrite <- IH by lia.
      replace (Z.pred (zlength l - k)) with (zlength l - Z.succ k) by lia. f_equal.
      replace (k + 1) with (Z.succ k) by lia.
      apply (foldl_seq_drop no_window (fun f y => note_pair f (aget no_window l k) y)). lia. }
  intros f. specialize (Hk _ 0 f eq_refl). rewrite Z.sub_0_r in Hk. apply Hk.
  pose proof (zlength_nonneg l). lia.
Qed.

(** Some pair, in order, satisfies a test. *)
Fixpoint some_pair {A} (test : A -> A -> bool) (l : list A) : bool :=
  match l with
  | [] => false
  | x :: l' => existsb (test x) l' || some_pair test l'
  end.

Lemma pairs_fold_field {A B} (g : B -> A -> A -> B) (field : B -> bool) (test : A -> A -> bool) l :
  (forall b x y, field (g b x y) = field b || test x y) -> forall b,
  field (pairs_fold g b l) = field b || some_pair test l.
Proof.
  intros Hg. induction l as [|x l IH]; intros b; cbn [pairs_fold some_pair];
    [by rewrite orb_false_r|].
  rewrite IH, orb_assoc. f_equal. clear IH. revert b.
  induction l as [|y l IH]; intros b; cbn [foldl existsb]; [by rewrite orb_false_r|].
  rewrite IH, Hg. by rewrite orb_assoc.
Qed.

Definition same_device (a b : paging_device_window) : bool :=
  (a.(kind) =? b.(kind)) && (a.(instance) =? b.(instance)).
Definition is_duplicate (a b : paging_device_window) : bool :=
  (compare_device_windows a b =? 0) || same_device a b.
Definition conflicts (a b : paging_device_window) : bool :=
  ranges_overlap a b && negb (bool_decide (a.(memory_type) = b.(memory_type))).

Lemma pair_loop_faults l :
  pair_loop (zlength l) l =
  MkFaults (some_pair conflicts l) (some_pair is_duplicate l)
    (some_pair (fun a b => negb (is_duplicate a b) && ranges_overlap a b) l).
Proof.
  rewrite pair_loop_pairs. set (f0 := MkFaults false false false).
  pose proof (pairs_fold_field note_pair conflicting_overlap conflicts l) as H1.
  pose proof (pairs_fold_field note_pair duplicate is_duplicate l) as H2.
  pose proof (pairs_fold_field note_pair overlap
    (fun a b => negb (is_duplicate a b) && ranges_overlap a b) l) as H3.
  destruct (pairs_fold note_pair f0 l) eqn:E.
  specialize (H1 ltac:(intros; unfold note_pair, conflicts, is_duplicate, same_device;
    repeat case_match; cbn; destruct (conflicting_overlap b); done) f0).
  specialize (H2 ltac:(intros; unfold note_pair, is_duplicate, same_device;
    repeat case_match; cbn; destruct (duplicate b); done) f0).
  specialize (H3 ltac:(intros; unfold note_pair, is_duplicate, same_device;
    repeat case_match; cbn; destruct (overlap b); done) f0).
  rewrite E in *. cbn in *. congruence.
Qed.

(** * The order of windows *)

(** The fields compare_device_windows looks at, in its order. *)
Definition window_key (w : paging_device_window) : list Z :=
  [w.(physical_base); w.(length); w.(kind); w.(instance);
   memory_type_value w.(memory_type); w.(permissions)].

(** Lexicographic comparison. *)
Fixpoint lex (a b : list Z) : Z :=
  match a, b with
  | x :: a, y :: b => if x =? y then lex a b else if x <? y then -1 else 1
  | _, _ => 0
  end.

Lemma compare_lex a b : compare_device_windows a b = lex (window_key a) (window_key b).
Proof. unfold compare_device_windows. cbn. repeat case_match; done. Qed.

Lemma lex_opposite a : forall b, lex b a = - lex a b.
Proof.
  induction a as [|x a IH]; intros [|y b]; cbn; try done.
  rewrite (Z.eqb_sym y x). destruct (x =? y) eqn:E; [apply IH|]. bool_hyps.
  destruct (x <? y) eqn:E1, (y <? x) eqn:E2; bool_hyps; lia.
Qed.

Lemma lex_range a : forall b, -1 <= lex a b <= 1.
Proof.
  induction a as [|x a IH]; intros [|y b]; cbn; try lia. destruct (x =? y); [apply IH|].
  destruct (x <? y); lia.
Qed.

Lemma lex_trans a : forall b c, Datatypes.length a = Datatypes.length b ->
  Datatypes.length b = Datatypes.length c -> lex a b <= 0 -> lex b c <= 0 -> lex a c <= 0.
Proof.
  induction a as [|x a IH]; intros [|y b] [|z c]; cbn; try done. intros [= E1] [= E2].
  pose proof (IH b c E1 E2) as IH'.
  destruct (x =? y) eqn:Exy, (y =? z) eqn:Eyz, (x =? z) eqn:Exz,
    (x <? y) eqn:Lxy, (y <? z) eqn:Lyz, (x <? z) eqn:Lxz; bool_hyps; try lia; auto.
Qed.

Lemma lex_zero a : forall b, Datatypes.length a = Datatypes.length b -> lex a b = 0 -> a = b.
Proof.
  induction a as [|x a IH]; intros [|y b]; cbn; try done. intros [= E].
  destruct (x =? y) eqn:Exy; bool_hyps; [|destruct (x <? y); lia].
  intros Hl. subst y. f_equal. by apply IH.
Qed.

Lemma memory_type_value_inj t u : memory_type_value t = memory_type_value u -> t = u.
Proof. by destruct t, u. Qed.

Definition window_le (a b : paging_device_window) : Prop := compare_device_windows a b <= 0.

Lemma compare_zero a b : compare_device_windows a b = 0 <-> a = b.
Proof.
  rewrite compare_lex. split.
  - intros E%lex_zero; [|done]. destruct a, b. unfold window_key in E. cbn in E.
    injection E as -> -> -> -> E ->. apply memory_type_value_inj in E. by subst.
  - intros ->. pose proof (lex_opposite (window_key b) (window_key b)). lia.
Qed.

#[local] Instance window_le_trans : Transitive window_le.
Proof.
  intros a b c. unfold window_le. rewrite !compare_lex. by apply lex_trans.
Qed.

#[local] Instance window_le_antisymm : AntiSymm eq window_le.
Proof.
  intros a b Hab Hba. unfold window_le in *. rewrite compare_lex in *.
  rewrite lex_opposite in Hba. apply compare_zero. rewrite compare_lex. lia.
Qed.

Lemma window_le_total a b : window_le a b \/ window_le b a.
Proof.
  unfold window_le. rewrite !compare_lex, (lex_opposite (window_key a)). lia.
Qed.

Lemma window_le_base a b : window_le a b -> a.(physical_base) <= b.(physical_base).
Proof.
  unfold window_le. rewrite compare_lex. unfold window_key. cbn [lex].
  destruct (_ =? _) eqn:E; bool_hyps; [lia|]. destruct (_ <? _) eqn:E2; bool_hyps; lia.
Qed.

(** * The insertion sort *)

(** What [sink] does to the part below the hole, read downwards. *)
Fixpoint insert_down (x : paging_device_window) (l : list paging_device_window)
  : list paging_device_window :=
  match l with
  | [] => [x]
  | y :: l' => if compare_device_windows x y <? 0 then y :: insert_down x l' else x :: y :: l'
  end.

Lemma sink_insert x below : forall hole above,
  sink (Datatypes.length below) x (rev below ++ hole :: above) =
  rev (insert_down x below) ++ above.
Proof.
  induction below as [|y below IH]; intros hole above; cbn [sink insert_down rev Datatypes.length].
  - done.
  - set (n := Datatypes.length below). assert (Datatypes.length (rev below) = n) as Hn
      by apply length_rev.
    rewrite <- app_assoc. cbn [app].
    assert (aget no_window (rev below ++ y :: hole :: above) (Z.of_nat n) = y) as ->.
    { apply aget_lookup. rewrite Nat2Z.id. by apply list_lookup_middle. }
    assert (forall v, aset (rev below ++ y :: hole :: above) (Z.of_nat (S n)) v =
      rev below ++ y :: v :: above) as Hset.
    { intros v. unfold aset. rewrite Nat2Z.id.
      rewrite insert_app_r_alt by (rewrite Hn; lia). rewrite Hn.
      replace (S n - n)%nat with 1%nat by lia. done. }
    rewrite !Hset. destruct (compare_device_windows x y <? 0) eqn:E.
    + rewrite IH. cbn [rev]. by rewrite <- app_assoc.
    + cbn [rev]. by rewrite <- !app_assoc.
Qed.

Lemma insert_down_perm x l : insert_down x l ≡ₚ x :: l.
Proof.
  induction l as [|y l IH]; cbn; [done|]. destruct (_ <? 0); [|done].
  rewrite IH. apply Permutation_swap.
Qed.

Lemma insert_down_sorted x l :
  StronglySorted (flip window_le) l -> StronglySorted (flip window_le) (insert_down x l).
Proof.
  induction 1 as [|y l Hs IH Hy]; cbn; [by repeat constructor|].
  destruct (compare_device_windows x y <? 0) eqn:E; bool_hyps.
  - constructor; [done|]. rewrite insert_down_perm. constructor; [|done].
    unfold flip, window_le. lia.
  - assert (window_le y x) as Hyx.
    { unfold window_le. rewrite compare_lex in *. rewrite lex_opposite. lia. }
    constructor; [by constructor|]. constructor; [done|].
    eapply Forall_impl; [exact Hy|]. unfold flip. intros z Hz. by etrans.
Qed.

Lemma sort_windows_spec l rest :
  1 <= zlength l ->
  exists l', sort_windows (zlength l) (l ++ rest) = l' ++ rest /\ l' ≡ₚ l /\
    StronglySorted window_le l'.
Proof.
  intros Hlen. unfold sort_windows.
  assert (forall n : nat, (1 <= n <= Datatypes.length l)%nat -> exists q,
    foldl (fun es index => sink (Z.to_nat index) (aget no_window es index) es) (l ++ rest)
      (seqZ 1 (Z.of_nat n - 1)) = rev q ++ drop n l ++ rest /\
    q ≡ₚ take n l /\ StronglySorted (flip window_le) q) as Hn.
  { induction n as [|n IH]; [lia|]. intros Hle. destruct (decide (n = 0%nat)) as [->|Hne].
    - destruct l as [|x l]; [cbn in *; lia|]. exists [x]. split_and!; [done|done|].
      by repeat constructor.
    - destruct (IH ltac:(lia)) as (q & Eq & Hp & Hs).
      replace (Z.of_nat (S n) - 1) with (Z.of_nat n - 1 + 1) by lia.
      rewrite seqZ_app, foldl_app, Eq by lia. cbn [foldl seqZ].
      replace (seqZ (1 + (Z.of_nat n - 1)) 1) with [Z.of_nat n]
        by (rewrite seqZ_cons by lia; f_equal; lia). cbn [foldl]. rewrite Nat2Z.id.
      assert (Datatypes.length q = n) as Hq.
      { rewrite (Permutation_length Hp), length_take. lia. }
      destruct (lookup_lt_is_Some_2 l n ltac:(lia)) as [x Hx].
      rewrite (drop_S l x n Hx). cbn [app].
      assert (aget no_window (rev q ++ x :: drop (S n) l ++ rest) (Z.of_nat n) = x) as ->.
      { apply aget_lookup. rewrite Nat2Z.id. apply list_lookup_middle. by rewrite length_rev. }
      exists (insert_down x q). split_and!.
      + rewrite <- Hq at 1. by rewrite sink_insert.
      + rewrite insert_down_perm, Hp, (take_S_r l n x Hx). apply Permutation_cons_append.
      + by apply insert_down_sorted. }
  unfold zlength in *. destruct (Hn (Datatypes.length l) ltac:(lia)) as (q & Eq & Hp & Hs).
  exists (rev q). rewrite Eq, drop_all. split_and!; [done| |].
  - rewrite <- (Permutation_rev q). by rewrite Hp, take_ge by lia.
  - clear -Hs. induction Hs as [|x q Hs IH Hx]; [constructor|]. cbn.
    apply StronglySorted_app_2; [|done|by repeat constructor].
    intros a b Ha Hb%list_elem_of_singleton. subst b. rewrite Forall_forall in Hx. apply Hx.
    by rewrite <- (Permutation_rev q) in Ha.
Qed.

(** * What validation accepts *)

Definition valid (w : paging_device_window) : Prop :=
  validate_device_window_entry w = PAGING_STATUS_OK.

(** A valid window is a whole number of pages of the early map, not at zero. *)
Lemma valid_range w :
  typed_window w -> valid w ->
  0 < w.(physical_base) /\ 0 < w.(length) <= PAGING_DEVICE_WINDOW_MAX_LENGTH /\
  w.(physical_base) mod 4096 = 0 /\ w.(length) mod 4096 = 0 /\
  w.(physical_base) + w.(length) <= SAPOTE_EARLY_PHYSICAL_LIMIT /\
  0 <= w.(kind) < 5 /\ device_memory_type_supported w.(memory_type) = true.
Proof.
  intros [Hb Hl]. unfold valid, validate_device_window_entry. cbv zeta. intros E.
  repeat (split_if_in E; [done|]). clear E. bool_hyps. unfold is_u64 in *.
  assert (forall x, Z.land x (PAGING_PAGE_SIZE - 1) = x mod 4096) as Hm.
  { intros x. change (PAGING_PAGE_SIZE - 1) with (2 ^ 12 - 1). by rewrite land_low_mask. }
  rewrite !Hm in *. rewrite u64_small in * by (unfold is_u64; lia).
  unfold PAGING_DEVICE_WINDOW_VGA_TEXT, PAGING_DEVICE_WINDOW_KIND_COUNT in *.
  split_and!; done || lia.
Qed.

Definition apart (a b : paging_device_window) : Prop :=
  a.(physical_base) + a.(length) <= b.(physical_base) \/
  b.(physical_base) + b.(length) <= a.(physical_base).

Lemma ranges_overlap_spec a b :
  typed_window a -> valid a -> typed_window b -> valid b ->
  (ranges_overlap a b = false <-> apart a b).
Proof.
  intros Ta Va Tb Vb. pose proof (valid_range a Ta Va) as Ra. pose proof (valid_range b Tb Vb) as Rb.
  unfold ranges_overlap, apart, SAPOTE_EARLY_PHYSICAL_LIMIT in *.
  rewrite !u64_small by (unfold is_u64, UINT64_MAX; lia).
  rewrite andb_false_iff, !Z.ltb_ge. lia.
Qed.

Lemma some_pair_false {A} (test : A -> A -> bool) l :
  some_pair test l = false <-> ForallOrdPairs (fun a b => test a b = false) l.
Proof.
  induction l as [|x l IH]; cbn; [by split; [constructor|]|].
  rewrite orb_false_iff, IH. split.
  - intros [Hx Hl]. constructor; [|done]. rewrite Forall_forall. intros y Hy.
    apply not_true_iff_false. intros Ht. apply not_true_iff_false in Hx. apply Hx.
    apply existsb_exists. exists y. split; [by apply list_elem_of_In|done].
  - inversion 1 as [|? ? Hx Hl]; subst. split; [|done].
    apply not_true_iff_false. intros (y & Hy%list_elem_of_In & Ht)%existsb_exists.
    rewrite Forall_forall in Hx. rewrite Hx in Ht; done.
Qed.

(** A symmetric test does not depend on the order. *)
Lemma some_pair_perm {A} (test : A -> A -> bool) l l' :
  (forall a b, test a b = test b a) -> l ≡ₚ l' -> some_pair test l = some_pair test l'.
Proof.
  intros Hsym. assert (forall x l l', l ≡ₚ l' -> existsb (test x) l = existsb (test x) l') as Hex.
  { clear l l'. intros x l l' Hp. apply eq_iff_eq_true. rewrite !existsb_exists.
    setoid_rewrite <- list_elem_of_In. by setoid_rewrite Hp. }
  induction 1 as [|x l l' Hp IH|x y l|l1 l2 l3 _ IH1 _ IH2]; cbn.
  - done.
  - by rewrite IH, (Hex x l l').
  - rewrite (Hsym y x). destruct (test x y), (existsb (test x) l), (existsb (test y) l); done.
  - congruence.
Qed.

Lemma compare_sym a b : (compare_device_windows a b =? 0) = (compare_device_windows b a =? 0).
Proof.
  rewrite !compare_lex, (lex_opposite (window_key a)).
  destruct (lex (window_key a) (window_key b) =? 0) eqn:E; bool_hyps;
    symmetry; [apply Z.eqb_eq|apply Z.eqb_neq]; lia.
Qed.

Lemma overlap_sym a b : ranges_overlap a b = ranges_overlap b a.
Proof. unfold ranges_overlap. apply andb_comm. Qed.

Lemma same_device_sym a b : same_device a b = same_device b a.
Proof. unfold same_device. by rewrite (Z.eqb_sym (kind a)), (Z.eqb_sym (instance a)). Qed.

Lemma is_duplicate_sym a b : is_duplicate a b = is_duplicate b a.
Proof. unfold is_duplicate. by rewrite compare_sym, same_device_sym. Qed.

Lemma conflicts_sym a b : conflicts a b = conflicts b a.
Proof.
  unfold conflicts. rewrite overlap_sym. do 2 f_equal. apply bool_decide_ext. by split; intros ->.
Qed.

(** The same device twice covers the case of equal windows. *)
Lemma is_duplicate_device a b : is_duplicate a b = same_device a b.
Proof.
  unfold is_duplicate. destruct (_ =? 0) eqn:E; [|done]. bool_hyps.
  apply compare_zero in E. subst b. unfold same_device. by rewrite !Z.eqb_refl.
Qed.

(** The first loop. *)
Definition has_kind (k : Z) (l : list paging_device_window) : bool :=
  existsb (fun w => w.(kind) =? k) l.

Lemma foldl_note_kind l : forall f,
  foldl note_kind f l =
  MkFound (f.(found_vga) || has_kind PAGING_DEVICE_WINDOW_VGA_TEXT l)
    (f.(found_local_apic) || has_kind PAGING_DEVICE_WINDOW_LOCAL_APIC l)
    (f.(found_io_apic) || has_kind PAGING_DEVICE_WINDOW_IO_APIC l).
Proof.
  induction l as [|w l IH]; intros f; cbn [foldl has_kind existsb].
  - rewrite !orb_false_r. by destruct f.
  - rewrite IH. unfold note_kind, has_kind. unfold PAGING_DEVICE_WINDOW_VGA_TEXT,
      PAGING_DEVICE_WINDOW_LOCAL_APIC, PAGING_DEVICE_WINDOW_IO_APIC in *.
    destruct (kind w =? 0) eqn:E0; bool_hyps;
      [rewrite E0; cbn; by rewrite orb_true_r|].
    destruct (kind w =? 1) eqn:E1; bool_hyps;
      [rewrite E1; cbn; by rewrite orb_true_r|].
    destruct (kind w =? 2) eqn:E2; bool_hyps; cbn; [by rewrite orb_true_r|done].
Qed.

Definition entry_step (w : paging_device_window) (found : found_kinds)
  : ctl found_kinds paging_status :=
  if negb (is_ok (validate_device_window_entry w)) then Return (validate_device_window_entry w)
  else Next (note_kind found w).

Lemma for_each_entries {R St} (body : paging_device_window -> St -> ctl St R) l es s :
  take (Z.to_nat (zlength l)) es = l ->
  for_each (fun index s => body (aget no_window es index) s) (seqZ 0 (zlength l)) s =
  for_each body l s.
Proof.
  intros Hl. assert (forall i, 0 <= i < zlength l -> aget no_window es i = aget no_window l i) as Hi.
  { intros i Hi. rewrite <- Hl. symmetry. by apply aget_take. }
  assert (forall k s, 0 <= k <= zlength l ->
    for_each (fun index s => body (aget no_window es index) s) (seqZ k (zlength l - k)) s =
    for_each body (drop (Z.to_nat k) l) s) as Hk.
  { intros k s' Hk. remember (Z.to_nat (zlength l - k)) as n eqn:En.
    revert k s' Hk En. induction n as [|n IH]; intros k s' Hk En.
    - assert (k = zlength l) as -> by lia. rewrite Z.sub_diag, seqZ_nil by lia.
      unfold zlength. by rewrite Nat2Z.id, drop_all.
    - rewrite seqZ_cons by lia. cbn [for_each]. rewrite Hi by lia.
      rewrite (drop_S l (aget no_window l k)) by (apply lookup_aget; lia). cbn [for_each].
      destruct (body (aget no_window l k) s') as [s''|r]; [|done].
      replace (S (Z.to_nat k)) with (Z.to_nat (Z.succ k)) by lia.
      rewrite <- IH by lia. f_equal. f_equal. lia. }
  specialize (Hk 0 s). rewrite Z.sub_0_r in Hk. apply Hk. pose proof (zlength_nonneg l). lia.
Qed.

Lemma entries_valid l : forall f,
  Forall valid l -> for_each entry_step l f = Next (foldl note_kind f l).
Proof.
  induction l as [|w l IH]; intros f Hv; [done|]. inversion Hv as [|? ? Hw Hl]; subst.
  cbn [for_each foldl]. unfold entry_step at 1. rewrite Hw. apply IH. done.
Qed.

Lemma entries_refused l : forall f r,
  for_each entry_step l f = Return r -> r <> PAGING_STATUS_OK /\ ~ Forall valid l.
Proof.
  induction l as [|w l IH]; intros f r; [done|]. cbn [for_each]. unfold entry_step at 1, is_ok.
  case_bool_decide as E; cbn [negb].
  - intros [Hr Hl]%IH. split; [done|]. intros Hv. apply Hl. by inversion Hv.
  - intros [= <-]. split; [done|]. intros Hv. by inversion Hv.
Qed.

(** What the status and the result of validation are, from the list alone. *)
Definition validate_list (l : list paging_device_window) : paging_status :=
  match for_each entry_step l (MkFound false false false) with
  | Return status => status
  | Next _ =>
      if some_pair conflicts l then PAGING_STATUS_CONFLICTING_DEVICE_WINDOW_OVERLAP
      else if some_pair same_device l then PAGING_STATUS_DUPLICATE_DEVICE_WINDOW
      else if some_pair (fun a b => negb (same_device a b) && ranges_overlap a b) l then
        PAGING_STATUS_OVERLAPPING_DEVICE_WINDOWS
      else if has_kind PAGING_DEVICE_WINDOW_VGA_TEXT l &&
              has_kind PAGING_DEVICE_WINDOW_LOCAL_APIC l &&
              has_kind PAGING_DEVICE_WINDOW_IO_APIC l then PAGING_STATUS_OK
      else PAGING_STATUS_REQUIRED_DEVICE_WINDOW_MISSING
  end.

Lemma some_pair_ext {A} (p q : A -> A -> bool) l :
  (forall a b, p a b = q a b) -> some_pair p l = some_pair q l.
Proof.
  intros E. induction l as [|x l IH]; [done|]. cbn. rewrite IH. f_equal.
  clear IH. induction l as [|y l IHl]; [done|]. cbn. by rewrite E, IHl.
Qed.

Lemma pair_loop_take n es l :
  zlength l = n -> take (Z.to_nat n) es = l -> pair_loop n es = pair_loop n l.
Proof.
  intros Hn Hl. unfold pair_loop.
  assert (forall i, 0 <= i < n -> aget no_window es i = aget no_window l i) as Hi.
  { intros i Hi. rewrite <- Hl. symmetry. by apply aget_take. }
  generalize (MkFaults false false false) as f.
  assert (forall ixs, (forall i, i ∈ ixs -> 0 <= i < n) -> forall f,
    foldl (fun f left => foldl (fun f right =>
        note_pair f (aget no_window es left) (aget no_window es right)) f
        (seqZ (left + 1) (n - (left + 1)))) f ixs =
    foldl (fun f left => foldl (fun f right =>
        note_pair f (aget no_window l left) (aget no_window l right)) f
        (seqZ (left + 1) (n - (left + 1)))) f ixs) as Hout.
  { induction ixs as [|i ixs IH]; intros His f; [done|]. cbn [foldl].
    pose proof (His i ltac:(set_solver)) as Hir. rewrite IH by (intros; apply His; set_solver).
    f_equal. assert (forall js, (forall j, j ∈ js -> 0 <= j < n) -> forall f,
      foldl (fun f right => note_pair f (aget no_window es i) (aget no_window es right)) f js =
      foldl (fun f right => note_pair f (aget no_window l i) (aget no_window l right)) f js) as Hin.
    { induction js as [|j js IHj]; intros Hjs g; [done|]. cbn [foldl].
      rewrite IHj by (intros; apply Hjs; set_solver).
      by rewrite !Hi by (done || apply Hjs; set_solver). }
    apply Hin. intros j Hj%elem_of_seqZ. lia. }
  intros f. apply Hout. intros i Hi'%elem_of_seqZ. lia.
Qed.

Lemma windows_of_length ws : typed_windows ws -> zlength (windows_of ws) = ws.(count).
Proof.
  intros [Ha Hc _]. unfold windows_of. apply zlength_take. lia.
Qed.

Lemma validate_spec ws out :
  typed_windows ws ->
  exists r, paging_device_windows_validate (Some ws) (Some out) =
    (validate_list (windows_of ws), Some r) /\
  (validate_list (windows_of ws) <> PAGING_STATUS_OK -> r = out) /\
  (validate_list (windows_of ws) = PAGING_STATUS_OK ->
     r.(count) = ws.(count) /\ windows_of r ≡ₚ windows_of ws /\
     StronglySorted window_le (windows_of r)).
Proof.
  intros Ht. pose proof (windows_of_length ws Ht) as Hlen. destruct Ht as [Ha Hc _].
  set (l := windows_of ws) in *. unfold paging_device_windows_validate.
  destruct (_ >? _) eqn:Ecap; [bool_hyps; lia|].
  pose proof (for_each_entries entry_step l ws.(entries) (MkFound false false false)) as Hfe.
  rewrite Hlen in Hfe. specialize (Hfe eq_refl). unfold entry_step at 1 in Hfe.
  cbv zeta. rewrite Hfe. unfold validate_list.
  destruct (for_each entry_step l (MkFound false false false)) as [found|st] eqn:Ef.
  2: { exists out. split_and!; [done|done|]. intros ->. by apply entries_refused in Ef as [? _]. }
  assert (Forall valid l) as Hv.
  { clear -Ef. revert Ef. generalize (MkFound false false false) as f.
    induction l as [|w l IH]; intros f; [constructor|]. cbn [for_each]. unfold entry_step at 1, is_ok.
    case_bool_decide as E; cbn [negb]; [|done]. intros Ef. constructor; [done|]. by eapply IH. }
  rewrite (entries_valid l _ Hv), foldl_note_kind in Ef. injection Ef as <-.
  cbn [found_vga found_local_apic found_io_apic orb].
  rewrite (pair_loop_take _ _ l Hlen eq_refl), <- Hlen, pair_loop_faults.
  cbn [conflicting_overlap duplicate overlap].
  destruct (some_pair conflicts l) eqn:E1; [by exists out|].
  rewrite (some_pair_ext is_duplicate same_device) by apply is_duplicate_device.
  destruct (some_pair same_device l) eqn:E2; [by exists out|].
  rewrite (some_pair_ext _ (fun a b => negb (same_device a b) && ranges_overlap a b))
    by (intros; by rewrite is_duplicate_device).
  destruct (some_pair (fun a b => negb (same_device a b) && ranges_overlap a b) l) eqn:E3;
    [by exists out|].
  set (v := has_kind PAGING_DEVICE_WINDOW_VGA_TEXT l).
  set (a := has_kind PAGING_DEVICE_WINDOW_LOCAL_APIC l).
  set (i := has_kind PAGING_DEVICE_WINDOW_IO_APIC l).
  assert (negb v || negb a || negb i = negb (v && a && i)) as -> by (by destruct v, a, i).
  destruct (v && a && i) eqn:E4; cbn [negb]; [|by exists out].
  assert (1 <= zlength l) as Hl1.
  { destruct l as [|w l']; [done|]. unfold zlength. cbn. lia. }
  assert (take (Z.to_nat (zlength l)) (entries ws) = l) as -> by (by rewrite Hlen).
  destruct (sort_windows_spec l (replicate (Z.to_nat (PAGING_DEVICE_WINDOW_CAPACITY - zlength l))
    no_window) Hl1) as (l' & -> & Hp & Hs).
  assert (windows_of (MkWindows (zlength l) (l' ++ replicate (Z.to_nat
    (PAGING_DEVICE_WINDOW_CAPACITY - zlength l)) no_window)) = l') as Ew.
  { unfold windows_of. cbn [count entries]. apply take_app_length'.
    rewrite (Permutation_length Hp). unfold zlength. lia. }
  eexists. split_and!; [done|done|]. intros _. rewrite Ew. by split_and!.
Qed.

(** * Theorems *)

(** What an acceptable set of declarations is: valid windows, apart from each
    other, one per device, with the three devices the kernel cannot do without. *)
Record acceptable (l : list paging_device_window) : Prop := {
  ac_valid : Forall valid l;
  ac_apart : ForallOrdPairs apart l;
  ac_devices : ForallOrdPairs (fun a b => same_device a b = false) l;
  ac_vga : has_kind PAGING_DEVICE_WINDOW_VGA_TEXT l = true;
  ac_local_apic : has_kind PAGING_DEVICE_WINDOW_LOCAL_APIC l = true;
  ac_io_apic : has_kind PAGING_DEVICE_WINDOW_IO_APIC l = true
}.

Lemma ForallOrdPairs_combine {A} (P Q R : A -> A -> Prop) (V : A -> Prop) l :
  (forall a b, V a -> V b -> P a b -> Q a b -> R a b) -> Forall V l ->
  ForallOrdPairs P l -> ForallOrdPairs Q l -> ForallOrdPairs R l.
Proof.
  intros Himp HV HP. revert HV. induction HP as [|x l Hx HP IH]; intros HV HQ; [constructor|].
  inversion HV as [|? ? Vx Vl]; inversion HQ as [|? ? Qx Ql]; subst. constructor; [|by apply IH].
  rewrite Forall_forall in *. intros y Hy. apply Himp; auto.
Qed.

Lemma validate_list_ok l :
  Forall typed_window l -> (validate_list l = PAGING_STATUS_OK <-> acceptable l).
Proof.
  intros Ht. unfold validate_list. split.
  - destruct (for_each entry_step l _) as [found|st] eqn:Ef;
      [|intros ->; by apply entries_refused in Ef as [? _]].
    intros E. repeat split_if_in E; try done.
    assert (Forall valid l) as Hv.
    { clear -Ef. revert Ef. generalize (MkFound false false false) as f.
      induction l as [|w l IH]; intros f; [constructor|]. cbn [for_each].
      unfold entry_step at 1, is_ok. case_bool_decide as E; cbn [negb]; [|done].
      intros Ef. constructor; [done|]. by eapply IH. }
    bool_hyps. apply some_pair_false in Heqb0, Heqb1. split; try done.
    assert (Forall (fun w => typed_window w /\ valid w) l) as Htv by (by apply Forall_and).
    eapply (ForallOrdPairs_combine _ _ _ _ l); [|exact Htv|exact Heqb0|exact Heqb1].
    intros a b [Ta Va] [Tb Vb] Hs Ho. cbn in Hs, Ho. rewrite Hs in Ho.
    by apply ranges_overlap_spec in Ho.
  - intros [Hv Ha Hd H1 H2 H3]. rewrite (entries_valid l _ Hv), H1, H2, H3.
    assert (Forall (fun w => typed_window w /\ valid w) l) as Htv by (by apply Forall_and).
    assert (ForallOrdPairs (fun a b => ranges_overlap a b = false) l) as Ho.
    { eapply (ForallOrdPairs_combine _ _ _ _ l); [|exact Htv|exact Ha|exact Ha].
      intros a b [Ta Va] [Tb Vb] Hab _. by apply ranges_overlap_spec. }
    assert (some_pair conflicts l = false) as ->.
    { apply some_pair_false. eapply (ForallOrdPairs_combine _ _ _ _ l); [|exact Htv|exact Ho|exact Ho].
      cbn. intros a b _ _ E _. unfold conflicts. by rewrite E. }
    assert (some_pair same_device l = false) as -> by (by apply some_pair_false).
    assert (some_pair (fun a b => negb (same_device a b) && ranges_overlap a b) l = false) as ->;
      [|done].
    apply some_pair_false. eapply (ForallOrdPairs_combine _ _ _ _ l); [|exact Htv|exact Ho|exact Ho].
    cbn. intros a b _ _ E _. rewrite E. apply andb_false_r.
Qed.

Lemma ForallOrdPairs_perm {A} (R : A -> A -> Prop) l l' :
  Symmetric R -> l ≡ₚ l' -> ForallOrdPairs R l -> ForallOrdPairs R l'.
Proof.
  intros Hsym. induction 1 as [|x l l' Hp IH|x y l|l1 l2 l3 _ IH1 _ IH2]; auto.
  - inversion 1 as [|? ? Hx Hl]; subst. constructor; [by rewrite <- Hp|by apply IH].
  - inversion 1 as [|? ? Hy Hxl]; subst. inversion Hxl as [|? ? Hx Hl]; subst.
    inversion Hy as [|? ? Hyx Hyl]; subst. repeat constructor; auto.
Qed.

(** Validation accepts exactly the acceptable registries,
    whatever the order of the checks; what it writes is a permutation of the
    declarations in which every window ends at or below the start of the next,
    and a refusal writes nothing. *)
Theorem windows_validate_exact ws out st r :
  typed_windows ws ->
  paging_device_windows_validate (Some ws) (Some out) = (st, Some r) ->
  (st = PAGING_STATUS_OK <-> acceptable (windows_of ws)) /\
  (st <> PAGING_STATUS_OK -> r = out) /\
  (st = PAGING_STATUS_OK ->
     windows_of r ≡ₚ windows_of ws /\
     StronglySorted (fun a b => a.(physical_base) + a.(length) <= b.(physical_base))
       (windows_of r)).
Proof.
  intros Ht E. destruct (validate_spec ws out Ht) as (r' & E' & Hbad & Hgood).
  rewrite E in E'. injection E' as -> <-. pose proof (tw_typed _ Ht) as Htl.
  split; [by apply validate_list_ok|]. split; [done|].
  intros Hok. destruct (Hgood Hok) as (_ & Hp & Hs). split; [done|].
  apply validate_list_ok in Hok as [Hv Ha _ _ _ _]; [|done].
  assert (ForallOrdPairs apart (windows_of r)) as Ha'.
  { eapply ForallOrdPairs_perm; [|symmetry; exact Hp|done]. intros a b. unfold apart. tauto. }
  assert (Forall (fun w => typed_window w /\ valid w) (windows_of r)) as Htv
    by (rewrite Hp; by apply Forall_and).
  clear -Hs Ha' Htv. induction Hs as [|w l Hs IH Hw]; [constructor|].
  inversion Ha' as [|? ? Haw Hal]; inversion Htv as [|? ? [Tw Vw] Hl]; subst.
  constructor; [by apply IH|]. rewrite Forall_forall in *. intros b Hb.
  destruct (Hl b Hb) as [Tb Vb]. pose proof (valid_range w Tw Vw). pose proof (valid_range b Tb Vb).
  pose proof (window_le_base w b (Hw b Hb)). destruct (Haw b Hb) as [?|?]; lia.
Qed.

(** The verdict and the canonical list do not depend on the
    order in which valid windows were declared. *)
Theorem windows_validate_order ws1 ws2 out1 out2 st1 st2 r1 r2 :
  typed_windows ws1 -> typed_windows ws2 -> Forall valid (windows_of ws1) ->
  windows_of ws1 ≡ₚ windows_of ws2 ->
  paging_device_windows_validate (Some ws1) (Some out1) = (st1, Some r1) ->
  paging_device_windows_validate (Some ws2) (Some out2) = (st2, Some r2) ->
  st1 = st2 /\ (st1 = PAGING_STATUS_OK -> windows_of r1 = windows_of r2).
Proof.
  intros T1 T2 Hv Hp E1 E2.
  destruct (validate_spec ws1 out1 T1) as (r1' & E1' & _ & G1). rewrite E1 in E1'.
  injection E1' as -> <-.
  destruct (validate_spec ws2 out2 T2) as (r2' & E2' & _ & G2). rewrite E2 in E2'.
  injection E2' as -> <-.
  assert (validate_list (windows_of ws1) = validate_list (windows_of ws2)) as Est.
  { pose proof Hv as Hv2. rewrite Hp in Hv2. unfold validate_list.
    rewrite !entries_valid by done.
    rewrite (some_pair_perm conflicts _ _ conflicts_sym Hp).
    rewrite (some_pair_perm same_device _ _ same_device_sym Hp).
    rewrite (some_pair_perm (fun a b => negb (same_device a b) && ranges_overlap a b) _ _
      ltac:(intros; cbn; by rewrite same_device_sym, overlap_sym) Hp).
    assert (forall k, has_kind k (windows_of ws1) = has_kind k (windows_of ws2)) as Hk;
      [|by rewrite !Hk].
    intros k. apply eq_iff_eq_true. unfold has_kind. rewrite !existsb_exists.
    setoid_rewrite <- list_elem_of_In. by setoid_rewrite Hp. }
  split; [done|]. intros Hok. destruct (G1 Hok) as (_ & P1 & S1).
  rewrite Est in Hok. destruct (G2 Hok) as (_ & P2 & S2).
  apply (StronglySorted_unique window_le); [done|done|]. by rewrite P1, P2.
Qed.

(** * A sample machine *)

Definition vga_window : paging_device_window :=
  MkWindow PAGING_DEVICE_WINDOW_VGA_TEXT 0 0xB8000 0x1000 PAGING_MEMORY_UNCACHEABLE 1.
Definition local_apic_window : paging_device_window :=
  MkWindow PAGING_DEVICE_WINDOW_LOCAL_APIC 0 0xFEE00000 0x1000 PAGING_MEMORY_UNCACHEABLE 1.
Definition io_apic_window : paging_device_window :=
  MkWindow PAGING_DEVICE_WINDOW_IO_APIC 0 0xFEC00000 0x1000 PAGING_MEMORY_UNCACHEABLE 1.
Definition framebuffer_window : paging_device_window :=
  MkWindow PAGING_DEVICE_WINDOW_FRAMEBUFFER 0 0xFD000000 0x300000 PAGING_MEMORY_WRITE_COMBINING 1.

(** A registry filled by paging_device_windows_add. *)
Definition declare (l : list paging_device_window) : paging_device_windows :=
  match foldl (fun ws w => (paging_device_windows_add ws w).2)
          (Some (MkWindows 0 (replicate (Z.to_nat PAGING_DEVICE_WINDOW_CAPACITY) no_window))) l with
  | Some ws => ws
  | None => MkWindows 0 []
  end.

Definition sample_windows : paging_device_windows :=
  declare [vga_window; local_apic_window; io_apic_window; framebuffer_window].
Definition shuffled_windows : paging_device_windows :=
  declare [framebuffer_window; io_apic_window; vga_window; local_apic_window].
Definition empty_windows : paging_device_windows :=
  MkWindows 0 (replicate (Z.to_nat PAGING_DEVICE_WINDOW_CAPACITY) no_window).
Definition sample_canonical : paging_device_windows :=
  default empty_windows
    (paging_device_windows_validate (Some sample_windows) (Some empty_windows)).2.

Lemma sample_typed : Forall typed_window
  [vga_window; local_apic_window; io_apic_window; framebuffer_window].
Proof.
  repeat (constructor; [split; unfold is_u64, UINT64_MAX; cbn; lia|]). constructor.
Qed.

Lemma sample_declared : windows_of sample_windows =
  [vga_window; local_apic_window; io_apic_window; framebuffer_window].
Proof. vm_compute. reflexivity. Qed.

Lemma shuffled_declared : windows_of shuffled_windows =
  [framebuffer_window; io_apic_window; vga_window; local_apic_window].
Proof. vm_compute. reflexivity. Qed.

Lemma sample_shuffled : windows_of sample_windows ≡ₚ windows_of shuffled_windows.
Proof.
  rewrite sample_declared, shuffled_declared.
  apply NoDup_Permutation; [apply (bool_decide_unpack _); vm_compute; exact I..|].
  intros x. rewrite !elem_of_cons. tauto.
Qed.

Lemma sample_windows_typed : typed_windows sample_windows.
Proof.
  split; [reflexivity|vm_compute; split; discriminate|]. rewrite sample_declared.
  apply sample_typed.
Qed.

Lemma shuffled_windows_typed : typed_windows shuffled_windows.
Proof.
  split; [reflexivity|vm_compute; split; discriminate|]. rewrite <- sample_shuffled, sample_declared.
  apply sample_typed.
Qed.

Lemma sample_windows_valid : Forall valid (windows_of sample_windows).
Proof. rewrite sample_declared. repeat constructor. Qed.

Lemma windows_validate_exact_witness :
  (PAGING_STATUS_OK = PAGING_STATUS_OK <-> acceptable (windows_of sample_windows)) /\
  windows_of sample_canonical =
    [vga_window; framebuffer_window; io_apic_window; local_apic_window].
Proof.
  assert (paging_device_windows_validate (Some sample_windows) (Some empty_windows) =
    (PAGING_STATUS_OK, Some sample_canonical)) as E by (vm_compute; reflexivity).
  destruct (windows_validate_exact sample_windows empty_windows PAGING_STATUS_OK sample_canonical
    sample_windows_typed E) as (Hiff & _ & _).
  split; [exact Hiff|vm_compute; reflexivity].
Defined.

Lemma windows_validate_order_witness :
  exists r, paging_device_windows_validate (Some shuffled_windows) (Some empty_windows) =
    (PAGING_STATUS_OK, Some r) /\ windows_of sample_canonical = windows_of r.
Proof.
  assert (paging_device_windows_validate (Some sample_windows) (Some empty_windows) =
    (PAGING_STATUS_OK, Some sample_canonical)) as E1 by (vm_compute; reflexivity).
  pose (r := default empty_windows
    (paging_device_windows_validate (Some shuffled_windows) (Some empty_windows)).2).
  assert (paging_device_windows_validate (Some shuffled_windows) (Some empty_windows) =
    (PAGING_STATUS_OK, Some r)) as E2 by (vm_compute; reflexivity).
  destruct (windows_validate_order sample_windows shuffled_windows empty_windows empty_windows
    PAGING_STATUS_OK PAGING_STATUS_OK sample_canonical r sample_windows_typed
    shuffled_windows_typed sample_windows_valid sample_shuffled E1 E2) as [_ Hr].
  exists r. split; [exact E2|exact (Hr eq_refl)].
Defined.

End DeviceWindows.
