(* ===== verification/IdentityMap.v ===== *)
(** The identity map of src/src/kernel/paging.c: which permissions every page
    below 4 GiB is meant to have, the two loops that build it, the loop that
    reads it back before the processor is switched to it, and the checks of
    the processor and of the kernel image that come first.

    The addresses of the kernel's sections are the linker's: the record
    [kernel_image]. *)
From stdpp Require Import gmap.
From S2P Require Import Prelude PhysicalMemory PageTable PageRange PageSpace DeviceWindows.
Import PageTable PageRange PageSpace.

Module IdentityMap.

Definition PAGING_KERNEL_IMAGE_LIMIT : Z := 0x800000.
Definition CPUID_EXTENDED_FEATURES : Z := 0x80000001.
Definition CPUID_NO_EXECUTE : Z := 0x00100000.
Definition CPUID_PAT : Z := 0x00010000.
Definition CR4_PHYSICAL_ADDRESS_EXTENSION : Z := Z.shiftl 1 5.
Definition CR4_FIVE_LEVEL_PAGING : Z := Z.shiftl 1 12.

Definition decode_processor_support (basic_features_edx extended_root_eax
    extended_features_edx cr4 pat : Z) : paging_status :=
  if (extended_root_eax <? CPUID_EXTENDED_FEATURES) ||
     negb (has extended_features_edx CPUID_NO_EXECUTE) then
    PAGING_STATUS_NO_EXECUTE_UNSUPPORTED
  else if negb (has basic_features_edx CPUID_PAT) then PAGING_STATUS_PAT_UNSUPPORTED
  else if has cr4 CR4_FIVE_LEVEL_PAGING then PAGING_STATUS_FIVE_LEVEL_PAGING
  else if negb (has cr4 CR4_PHYSICAL_ADDRESS_EXTENSION) then
    PAGING_STATUS_PHYSICAL_EXTENSION_DISABLED
  else if existsb (fun index =>
            bool_decide (decode_pat_type (pat_entry pat index) = PAGING_MEMORY_INVALID))
            (seqZ 0 8) then PAGING_STATUS_PAT_LAYOUT_UNSAFE
  else if negb (pat_entry pat PAT_WRITE_BACK_ENTRY =? PAT_TYPE_WRITE_BACK) ||
          negb (pat_entry pat PAT_DEVICE_ENTRY =? PAT_TYPE_UNCACHEABLE) then
    PAGING_STATUS_PAT_LAYOUT_UNSAFE
  else PAGING_STATUS_OK.

(** The linker's symbols. *)
Record kernel_image : Type := MkImage {
  kernel_start : Z;
  kernel_end : Z;
  text_start : Z;
  text_end : Z;
  rodata_start : Z;
  rodata_end : Z;
  data_start : Z
}.

Definition validate_kernel_layout (start stop : Z) : paging_status :=
  if (start >=? stop) || negb (Z.land start (PAGING_PAGE_SIZE - 1) =? 0) ||
     negb (Z.land stop (PAGING_PAGE_SIZE - 1) =? 0) || (stop >? PAGING_KERNEL_IMAGE_LIMIT)
  then PAGING_STATUS_BAD_KERNEL_LAYOUT else PAGING_STATUS_OK.

Record paging_section : Type := MkSection {
  sec_start : Z;
  sec_end : Z;
  sec_permissions : Z
}.

(** The array of sections is filled from its start: a list. *)
Definition add_section (sections : list paging_section) (start stop permissions : Z)
  : list paging_section :=
  if start >=? stop then sections else sections ++ [MkSection start stop permissions].

Definition collect_kernel_sections (k : kernel_image) : list paging_section :=
  let sections := [] in
  let sections := add_section sections k.(kernel_start) k.(text_start) PAGING_READ in
  let sections := add_section sections k.(text_start) k.(text_end) PAGING_EXECUTE in
  let sections := add_section sections k.(rodata_start) k.(rodata_end) PAGING_READ in
  add_section sections k.(data_start) k.(kernel_end) PAGING_WRITE.

Definition in_window (address : Z) (w : DeviceWindows.paging_device_window) : bool :=
  (address >=? w.(DeviceWindows.physical_base)) &&
  (address <? u64 (w.(DeviceWindows.physical_base) + w.(DeviceWindows.length))).

(** The windows are those of the validated registry, in order. *)
Definition device_window_at (windows : list DeviceWindows.paging_device_window) (address : Z)
  : option DeviceWindows.paging_device_window := List.find (in_window address) windows.

Definition region_needs_page_table (windows : list DeviceWindows.paging_device_window)
    (base start stop : Z) : bool :=
  let region_end := u64 (base + PAGING_HUGE_PAGE_SIZE) in
  if (base <? stop) && (start <? region_end) then true
  else existsb (fun w =>
      (base <? u64 (w.(DeviceWindows.physical_base) + w.(DeviceWindows.length))) &&
      (w.(DeviceWindows.physical_base) <? region_end)) windows.

Definition device_window_mapping_permissions (w : DeviceWindows.paging_device_window) : Z :=
  let permissions := PAGING_READ in
  let permissions :=
    if has w.(DeviceWindows.permissions) DeviceWindows.PAGING_DEVICE_WINDOW_WRITE
    then Z.lor permissions PAGING_WRITE else permissions in
  type_permissions permissions w.(DeviceWindows.memory_type).

Definition section_permissions (sections : list paging_section)
    (windows : list DeviceWindows.paging_device_window) (address : Z) : Z :=
  match device_window_at windows address with
  | Some w => device_window_mapping_permissions w
  | None =>
      match List.find (fun sec => (address >=? sec.(sec_start)) && (address <? sec.(sec_end)))
              sections with
      | Some sec => sec.(sec_permissions)
      | None => PAGING_WRITE
      end
  end.

Definition reject_kernel_device_overlap (windows : list DeviceWindows.paging_device_window)
    (k : kernel_image) : paging_status :=
  if existsb (fun w =>
      (w.(DeviceWindows.physical_base) <? k.(kernel_end)) &&
      (k.(kernel_start) <? u64 (w.(DeviceWindows.physical_base) + w.(DeviceWindows.length))))
    windows
  then PAGING_STATUS_DEVICE_WINDOW_KERNEL_OVERLAP else PAGING_STATUS_OK.

Section build.
Context {F : Type} `{TableFrames F}.
Context (k : kernel_image) (windows : list DeviceWindows.paging_device_window).

Definition needs_table (base : Z) : bool :=
  region_needs_page_table windows base k.(kernel_start) k.(kernel_end).
Definition page_permissions (address : Z) : Z :=
  section_permissions (collect_kernel_sections k) windows address.

(** The inner loop of build_identity_map: a region of 4 KiB pages. *)
Definition build_page (base offset : Z) (s : space F)
  : ctl (space F) (paging_status * space F) :=
  let address := u64 (base + offset) in
  if address =? 0 then Next s
  else
    let '(status, s) :=
      map_range address address PAGING_PAGE_SIZE (page_permissions address) 1 s in
    if negb (is_ok status) then Return (status, s) else Next s.

(** The outer loop, with fine_region_count. *)
Definition build_region (base : Z) (x : Z * space F)
  : ctl (Z * space F) (paging_status * Z * space F) :=
  let '(fine_region_count, s) := x in
  if negb (needs_table base) then
    let '(status, s) := map_range base base PAGING_HUGE_PAGE_SIZE PAGING_WRITE 2 s in
    if negb (is_ok status) then Return (status, fine_region_count, s)
    else Next (fine_region_count, s)
  else
    let fine_region_count := fine_region_count + 1 in
    match for_each (build_page base) (offsets PAGING_HUGE_PAGE_SIZE PAGING_PAGE_SIZE) s with
    | Return (status, s) => Return (status, fine_region_count, s)
    | Next s => Next (fine_region_count, s)
    end.

Definition build_identity_map (s : space F) : paging_status * Z * space F :=
  match for_each build_region (offsets SAPOTE_EARLY_PHYSICAL_LIMIT PAGING_HUGE_PAGE_SIZE)
          (0, s) with
  | Return r => r
  | Next (fine_region_count, s) => (PAGING_STATUS_OK, fine_region_count, s)
  end.

(** The checks of validate_identity_map on one region and on one page. *)
Definition region_as_meant (base pat : Z) (s : space F) : bool :=
  let '(status, t) := translate_address base pat s in
  is_ok status && (t.(physical_address) =? base) && (t.(permissions) =? PAGING_WRITE) &&
  bool_decide (t.(memory_type) = PAGING_MEMORY_WRITE_BACK) && (t.(level) =? 2).

Definition page_as_meant (address pat : Z) (s : space F) : bool :=
  let '(status, t) := translate_address address pat s in
  if address =? 0 then bool_decide (status = PAGING_STATUS_NOT_MAPPED)
  else
    is_ok status && (t.(physical_address) =? address) &&
    (t.(permissions) =? page_permissions address) &&
    match device_window_at windows address with
    | Some w => bool_decide (t.(memory_type) = w.(DeviceWindows.memory_type))
    | None => bool_decide (t.(memory_type) = PAGING_MEMORY_WRITE_BACK)
    end && (t.(level) =? 1).

Definition validate_identity_map (pat : Z) (s : space F) : paging_status :=
  match
    for_each (fun base (_ : unit) =>
        if negb (needs_table base) then
          if region_as_meant base pat s then Next tt else Return PAGING_STATUS_VALIDATION_FAILURE
        else
          for_each (fun offset (_ : unit) =>
              if page_as_meant (u64 (base + offset)) pat s then Next tt
              else Return PAGING_STATUS_VALIDATION_FAILURE)
            (offsets PAGING_HUGE_PAGE_SIZE PAGING_PAGE_SIZE) tt)
      (offsets SAPOTE_EARLY_PHYSICAL_LIMIT PAGING_HUGE_PAGE_SIZE) tt
  with
  | Return status => status
  | Next _ => PAGING_STATUS_OK
  end.
End build.

(** * Mapping one free page *)

Section room.
Context {F : Type} `{TableFramesLaws F}.
Implicit Types (s : space F) (T : gmap Z (Z * Z)).

(** Any address with the prefix of a low page reads like one on the page. *)
Lemma low_representative s a L va :
  1 <= L <= 4 -> 0 <= a -> a mod level_page_size L = 0 -> a + level_page_size L <= 2 ^ 47 ->
  vpre va (L - 1) = vpre a (L - 1) ->
  exists va', a <= va' < a + level_page_size L /\ leaf s va = leaf s va'.
Proof.
  intros HL Ha Hal Hlim E. exists (va mod 2 ^ 48). split.
  - unfold vpre in E. rewrite (Z.mod_small a) in E by (pose proof (page_size_pos L); lia).
    rewrite <- level_page_size_eq in E. pose proof (page_size_pos L ltac:(lia)) as Hps.
    set (ps := level_page_size L) in *. set (v := va mod 2 ^ 48) in *.
    pose proof (Z.div_mod v ps ltac:(lia)). pose proof (Z.mod_pos_bound v ps Hps).
    pose proof (Z.div_mod a ps ltac:(lia)). nia.
  - apply leaf_page. unfold vpre. by rewrite Zmod_mod.
Qed.

(** In a packed hierarchy a page on which nothing is mapped has a free entry. *)
Lemma vacant_free T s a L :
  ok T s -> packed T s -> 1 <= L <= 4 -> 0 <= a -> a mod level_page_size L = 0 ->
  a + level_page_size L <= 2 ^ 47 ->
  (forall va', a <= va' < a + level_page_size L -> leaf s va' = None) -> vacant T s a L.
Proof.
  intros Hok Hpk HL Ha Hal Hlim Hnone.
  assert (forall va, vpre va (L - 1) = vpre a (L - 1) -> leaf s va = None) as Hno.
  { intros va E. destruct (low_representative s a L va HL Ha Hal Hlim E) as (va' & Hr & ->).
    by apply Hnone. }
  split; [done|]. intros t Hl. pose proof (ok_tree _ _ Hok) as Ht.
  pose proof (index_range a L HL) as Hi.
  destruct (has (load s (slot_at t (table_index a L))) PAGE_PRESENT) eqn:Ep; [|done]. exfalso.
  destruct (decide (L = 1)) as [->|HL1].
  { specialize (Hno a eq_refl). rewrite (leaf_here T s t a Ht Hl) in Hno. cbv zeta in Hno.
    by rewrite Ep in Hno. }
  destruct (has (load s (slot_at t (table_index a L))) PAGE_HUGE) eqn:Eh.
  { specialize (Hno a eq_refl). rewrite (walk_reach T s a t L Ht Hl) in Hno.
    replace (Z.to_nat (L - 1)) with (S (Z.to_nat (L - 2))) in Hno by lia. cbn [walk] in Hno.
    by rewrite Ep, Eh in Hno. }
  destruct (tr_child _ _ Ht t L _ _ Hl ltac:(lia) Hi Ep Eh) as (c & _ & Hc).
  rewrite <- (vpre_step a L HL) in Hc.
  destruct (packed_leaf T s Ht Hpk c (L - 1) _ Hc ltac:(lia)) as (va & l' & e & Hlf & _ & Hpre).
  by rewrite (Hno va Hpre) in Hlf.
Qed.

(** What mapping one free page does. *)
Record page_added (a perms L : Z) (s s' : space F) : Prop := {
  pa_ok : exists T', ok T' s' /\ packed T' s';
  pa_leaf : forall va, canonical va -> leaf s' va =
    if decide (a <= va < a + level_page_size L) then Some (L, page_value a perms L 0)
    else leaf s va;
  pa_live : s'.(hier).(live) = s.(hier).(live)
}.

Lemma offsets_one L : 1 <= L -> offsets (level_page_size L) (level_page_size L) = [0].
Proof.
  intros HL. pose proof (page_size_pos L HL). unfold offsets.
  replace ((level_page_size L + level_page_size L - 1) / level_page_size L) with 1; [done|].
  apply (Z.div_unique _ _ _ (level_page_size L - 1)); lia.
Qed.

Lemma map_one_page T s a perms L :
  ok T s -> packed T s -> 1 <= L <= 2 -> 0 <= a -> a mod level_page_size L = 0 ->
  a + level_page_size L <= 2 ^ 32 -> validate_permissions perms = PAGING_STATUS_OK ->
  (forall va, canonical va -> a <= va < a + level_page_size L -> leaf s va = None) ->
  let '(st, s') := map_range a a (level_page_size L) perms L s in
  if is_ok st then page_added a perms L s s'
  else st = PAGING_STATUS_OUT_OF_FRAMES \/ st = PAGING_STATUS_PHYSICAL_TOO_WIDE.
Proof.
  intros Hok Hpk HL Ha Hal Hlim Hperm Hnone.
  pose proof (page_size_pos L ltac:(lia)) as Hps.
  assert (vrange a (level_page_size L) L) as V.
  { split; try lia; try done; unfold is_u64, UINT64_MAX, canonical; try lia.
    by rewrite Z.mod_same by lia. }
  assert (is_u64 a /\ is_u64 (level_page_size L)) as [Hu Hul] by (unfold is_u64, UINT64_MAX; lia).
  assert (one_half a (level_page_size L)) as Hh by (left; lia).
  unfold map_range. rewrite Hperm. change (is_ok PAGING_STATUS_OK) with true. cbn [negb].
  pose proof V as Ev. apply (validate_virtual_range_ok a _ L Hu Hul ltac:(lia)) in Ev. rewrite Ev.
  change (is_ok PAGING_STATUS_OK) with true. cbn [negb].
  assert (validate_physical_range a (level_page_size L) (level_page_size L) = PAGING_STATUS_OK)
    as Ep by (apply validate_physical_range_ok; try done; lia).
  rewrite Ep. change (is_ok PAGING_STATUS_OK) with true. cbn [negb].
  assert (vacant T s a L) as Hvac.
  { apply vacant_free; try done; try lia. intros va Hr. apply Hnone; [left; lia|done]. }
  assert (u64 (a + 0) = a) as Ea by (rewrite Z.add_0_r; by apply u64_small).
  pose proof (check_unmapped_spec T s a (level_page_size L) L Hok ltac:(lia)) as Hchk.
  cbv zeta in Hchk. rewrite offsets_one in Hchk by lia.
  destruct (is_ok (check_unmapped a (level_page_size L) L s)) eqn:Ec; cbn [negb].
  - apply bool_decide_eq_true in Ec.
    pose proof (map_loop_spec a a (level_page_size L) perms L T s Hok V Hh Ec) as Hloop.
    destruct (for_each _ _ s) as [s'|[st s']].
    2: { destruct Hloop as [_ Hst]. destruct (is_ok st) eqn:E; [|done].
         apply bool_decide_eq_true in E. subst st. by destruct Hst. }
    change (is_ok PAGING_STATUS_OK) with true. cbv iota. split.
    + destruct (md_ok _ _ _ _ _ _ _ _ Hloop) as (T' & Hok' & Hpk' & _). exists T'. auto.
    + intros va Hc. pose proof (covered_range a _ L V Hh va Hc) as Hcov. case_decide as Hr.
      * apply Hcov in Hr. rewrite offsets_one in Hr by lia.
        apply Exists_cons in Hr as [Hr|Hr%Exists_nil]; [|done].
        apply (md_page _ _ _ _ _ _ _ _ Hloop 0 va); [|done]. rewrite offsets_one by lia. left.
      * apply (md_else _ _ _ _ _ _ _ _ Hloop). by rewrite Hcov.
    + apply Hloop.
  - exfalso. unfold map_refusal in Hchk. destruct (check_unmapped _ _ _ s); try done.
    + destruct Hchk as (off & t & ->%list_elem_of_singleton & Hl & Hp). rewrite Ea in Hl, Hp.
      by rewrite (proj2 Hvac t Hl) in Hp.
    + destruct Hchk as (off & l & e & ->%list_elem_of_singleton & Hlf & _). rewrite Ea in Hlf.
      by rewrite (proj1 Hvac a eq_refl) in Hlf.
Qed.
End room.

(** * Building *)

(** A loop over page offsets, with an invariant of the page number. *)
Lemma for_each_offsets {St R} (P : Z -> St -> Prop) (Q : R -> Prop)
    (body : Z -> St -> ctl St R) n ps s :
  0 < ps -> 0 <= n ->
  (forall i s, 0 <= i < n -> P i s ->
     match body (i * ps) s with Next s' => P (i + 1) s' | Return r => Q r end) ->
  P 0 s ->
  match for_each body (offsets (n * ps) ps) s with Next s' => P n s' | Return r => Q r end.
Proof.
  intros Hps Hn Hstep H0. unfold offsets.
  replace ((n * ps + ps - 1) / ps) with n
    by (apply (Z.div_unique _ _ _ (ps - 1)); lia).
  pose proof (for_each_inv
    (fun rest s => exists i, 0 <= i <= n /\ rest = (fun i => i * ps) <$> seqZ i (n - i) /\ P i s)
    Q body ((fun i => i * ps) <$> seqZ 0 n) s) as Hinv.
  destruct (for_each body _ s) as [s'|r].
  - destruct Hinv as (i & Hi & Hnil & HP); [|exists 0; by rewrite Z.sub_0_r|].
    + intros x rest s1 (i & Hi & E & HP). destruct (decide (i = n)) as [->|Hne].
      { by rewrite Z.sub_diag, seqZ_nil in E by lia. }
      rewrite seqZ_cons in E by lia. injection E as -> ->. specialize (Hstep i s1 ltac:(lia) HP).
      destruct (body (i * ps) s1) as [s2|]; [|done]. exists (i + 1).
      split_and!; [lia..|do 2 f_equal; lia|done].
    + destruct (decide (i = n)) as [->|]; [done|].
      rewrite seqZ_cons in Hnil by lia. done.
  - apply Hinv; [|exists 0; by rewrite Z.sub_0_r].
    intros x rest s1 (i & Hi & E & HP). destruct (decide (i = n)) as [->|Hne].
    { by rewrite Z.sub_diag, seqZ_nil in E by lia. }
    rewrite seqZ_cons in E by lia. injection E as -> ->. specialize (Hstep i s1 ltac:(lia) HP).
    destruct (body (i * ps) s1) as [s2|]; [|done]. exists (i + 1).
    split_and!; [lia..|do 2 f_equal; lia|done].
Qed.

(** ** Permissions *)

Lemma window_permissions_ok w :
  let p := device_window_mapping_permissions w in
  validate_permissions p = PAGING_STATUS_OK /\ is_u32 p /\
  (DeviceWindows.device_memory_type_supported w.(DeviceWindows.memory_type) = true ->
   permission_type p = w.(DeviceWindows.memory_type)).
Proof.
  unfold device_window_mapping_permissions, is_u32, UINT32_MAX. cbv zeta.
  destruct (has w.(DeviceWindows.permissions) _), w.(DeviceWindows.memory_type);
    (split; [reflexivity|]); (split; [vm_compute; split; discriminate|]); done.
Qed.

Lemma collected_permissions k sec :
  In sec (collect_kernel_sections k) ->
  In sec.(sec_permissions) [PAGING_READ; PAGING_WRITE; PAGING_EXECUTE].
Proof.
  assert (forall l a b p, (forall sec, In sec l ->
      In sec.(sec_permissions) [PAGING_READ; PAGING_WRITE; PAGING_EXECUTE]) ->
    In p [PAGING_READ; PAGING_WRITE; PAGING_EXECUTE] ->
    forall sec, In sec (add_section l a b p) ->
      In sec.(sec_permissions) [PAGING_READ; PAGING_WRITE; PAGING_EXECUTE]) as Hadd.
  { intros l a b p Hl Hp sec'. unfold add_section. destruct (_ >=? _); [by apply Hl|].
    rewrite in_app_iff. intros [?|[<-|[]]]; [by apply Hl|done]. }
  unfold collect_kernel_sections. cbv zeta.
  do 4 (apply Hadd; [|by cbn; auto]). done.
Qed.

Lemma page_permissions_ok k windows a :
  let p := page_permissions k windows a in
  validate_permissions p = PAGING_STATUS_OK /\ is_u32 p /\
  (device_window_at windows a = None -> permission_type p = PAGING_MEMORY_WRITE_BACK).
Proof.
  unfold page_permissions, section_permissions. cbv zeta.
  destruct (device_window_at windows a) as [w|].
  { destruct (window_permissions_ok w) as (H1 & H2 & _). by split_and!. }
  assert (forall p, In p [PAGING_READ; PAGING_WRITE; PAGING_EXECUTE] ->
    validate_permissions p = PAGING_STATUS_OK /\ is_u32 p /\
    permission_type p = PAGING_MEMORY_WRITE_BACK) as Hp.
  { intros p Hin. cbn in Hin. repeat destruct Hin as [<-|Hin]; [..|done];
      (split; [reflexivity|]); (split; [vm_compute; split; discriminate|]); reflexivity. }
  destruct (List.find _ (collect_kernel_sections k)) as [sec|] eqn:E.
  - apply List.find_some in E as [Hin _]. destruct (Hp _ (collected_permissions k sec Hin)) as (?&?&?).
    by split_and!.
  - destruct (Hp PAGING_WRITE) as (?&?&?); [by cbn; auto|]. by split_and!.
Qed.

Section built.
Context {F : Type} `{TableFramesLaws F}.
Context (k : kernel_image) (windows : list DeviceWindows.paging_device_window).
Implicit Types (s : space F).

(** The leaf the loops of build_identity_map write for an address, in their own
    terms: a summary of the code for the proofs, not what the map should be. *)
Definition plan_leaf (va : Z) : option (Z * Z) :=
  if negb ((0 <=? va) && (va <? SAPOTE_EARLY_PHYSICAL_LIMIT)) then None
  else
    let base := va / PAGING_HUGE_PAGE_SIZE * PAGING_HUGE_PAGE_SIZE in
    if negb (needs_table k windows base) then Some (2, page_value base PAGING_WRITE 2 0)
    else
      let page := va / PAGING_PAGE_SIZE * PAGING_PAGE_SIZE in
      if page =? 0 then None
      else Some (1, page_value page (page_permissions k windows page) 1 0).

(** Everything below [limit] is as meant, nothing else is mapped. *)
Record built (limit : Z) (s : space F) : Prop := {
  bt_ok : exists T, ok T s /\ packed T s;
  bt_leaf : forall va, canonical va -> leaf s va = if va <? limit then plan_leaf va else None
}.

Lemma plan_fine base a va :
  base mod PAGING_HUGE_PAGE_SIZE = 0 -> needs_table k windows base = true ->
  base <= a -> a + 4096 <= base + PAGING_HUGE_PAGE_SIZE -> a mod 4096 = 0 ->
  0 <= base -> base + PAGING_HUGE_PAGE_SIZE <= SAPOTE_EARLY_PHYSICAL_LIMIT ->
  a <= va < a + 4096 ->
  plan_leaf va = if a =? 0 then None else Some (1, page_value a (page_permissions k windows a) 1 0).
Proof.
  unfold plan_leaf, PAGING_HUGE_PAGE_SIZE, PAGING_PAGE_SIZE, SAPOTE_EARLY_PHYSICAL_LIMIT.
  intros Hb Hn H1 H2 Ha H3 H4 Hva.
  assert (va / 0x200000 * 0x200000 = base) as ->.
  { pose proof (Z.div_mod base 0x200000 ltac:(lia)).
    rewrite <- (Z.div_unique va 0x200000 (base / 0x200000) (va - base)) by lia. lia. }
  assert (va / 4096 * 4096 = a) as ->.
  { pose proof (Z.div_mod a 4096 ltac:(lia)).
    rewrite <- (Z.div_unique va 4096 (a / 4096) (va - a)) by lia. lia. }
  rewrite Hn. cbn [negb]. destruct (negb _) eqn:E; [|done].
  apply negb_true_iff, andb_false_iff in E. rewrite Z.leb_gt, Z.ltb_ge in E. lia.
Qed.

Lemma plan_huge base va :
  base mod PAGING_HUGE_PAGE_SIZE = 0 -> needs_table k windows base = false ->
  0 <= base -> base + PAGING_HUGE_PAGE_SIZE <= SAPOTE_EARLY_PHYSICAL_LIMIT ->
  base <= va < base + PAGING_HUGE_PAGE_SIZE ->
  plan_leaf va = Some (2, page_value base PAGING_WRITE 2 0).
Proof.
  unfold plan_leaf, PAGING_HUGE_PAGE_SIZE, SAPOTE_EARLY_PHYSICAL_LIMIT.
  intros Hb Hn H1 H2 Hva.
  assert (va / 0x200000 * 0x200000 = base) as ->.
  { pose proof (Z.div_mod base 0x200000 ltac:(lia)).
    rewrite <- (Z.div_unique va 0x200000 (base / 0x200000) (va - base)) by lia. lia. }
  rewrite Hn. cbn [negb]. destruct (negb _) eqn:E; [|done].
  apply negb_true_iff, andb_false_iff in E. rewrite Z.leb_gt, Z.ltb_ge in E. lia.
Qed.

(** One more page extends what is built. *)
Lemma built_page a perms L s s' :
  built a s -> page_added a perms L s s' ->
  (forall va, a <= va < a + level_page_size L -> plan_leaf va = Some (L, page_value a perms L 0)) ->
  1 <= L -> built (a + level_page_size L) s'.
Proof.
  intros [_ Hlf] [Hok Hadd _] Hint HL. split; [done|]. intros va Hc.
  rewrite (Hadd va Hc), (Hlf va Hc). pose proof (page_size_pos L HL).
  case_decide as Hr.
  - destruct (va <? a + level_page_size L) eqn:E; bool_hyps; [|lia]. by rewrite Hint.
  - destruct (va <? a) eqn:E1, (va <? a + level_page_size L) eqn:E2; bool_hyps; done || lia.
Qed.

Lemma built_free a s va : built a s -> canonical va -> a <= va -> leaf s va = None.
Proof.
  intros [_ Hlf] Hc Hle. rewrite (Hlf va Hc). destruct (va <? a) eqn:E; bool_hyps; [lia|done].
Qed.

(** Building fails only for want of table frames. *)
Definition starved (st : paging_status) : Prop :=
  st = PAGING_STATUS_OUT_OF_FRAMES \/ st = PAGING_STATUS_PHYSICAL_TOO_WIDE.

Lemma build_page_spec base i s :
  base mod PAGING_HUGE_PAGE_SIZE = 0 -> needs_table k windows base = true ->
  0 <= base -> base + PAGING_HUGE_PAGE_SIZE <= SAPOTE_EARLY_PHYSICAL_LIMIT ->
  0 <= i < 512 -> built (base + i * 4096) s ->
  match build_page k windows base (i * 4096) s with
  | Next s' => built (base + (i + 1) * 4096) s'
  | Return (st, _) => starved st
  end.
Proof.
  intros Hb Hn H1 H2 Hi Hbt. unfold build_page.
  unfold PAGING_HUGE_PAGE_SIZE, SAPOTE_EARLY_PHYSICAL_LIMIT in *.
  rewrite u64_small by (unfold is_u64, UINT64_MAX; lia).
  set (a := base + i * 4096) in *.
  assert (a mod 4096 = 0) as Ha.
  { unfold a. rewrite Z.mod_add by lia. pose proof (Z.div_mod base 0x200000 ltac:(lia)).
    apply Z.mod_divide; [lia|]. exists (512 * (base / 0x200000)). lia. }
  assert (forall va, a <= va < a + 4096 -> plan_leaf va =
    if a =? 0 then None else Some (1, page_value a (page_permissions k windows a) 1 0)) as Hint.
  { intros va Hva. apply (plan_fine base); unfold PAGING_HUGE_PAGE_SIZE,
      SAPOTE_EARLY_PHYSICAL_LIMIT; done || lia. }
  replace (base + (i + 1) * 4096) with (a + 4096) by lia.
  destruct (a =? 0) eqn:E0.
  - split; [apply Hbt|]. intros va Hc. rewrite (bt_leaf _ _ Hbt va Hc).
    destruct (va <? a) eqn:E1, (va <? a + 4096) eqn:E2; bool_hyps; try done; try lia.
    by rewrite Hint by lia.
  - destruct (bt_ok _ _ Hbt) as (T & Hok & Hpk).
    destruct (page_permissions_ok k windows a) as (Hperm & _ & _).
    pose proof (map_one_page T s a (page_permissions k windows a) 1 Hok Hpk ltac:(lia) ltac:(unfold a; lia)
      Ha ltac:(change (level_page_size 1) with 4096; unfold a; lia) Hperm
      (fun va Hc Hr => built_free a s va Hbt Hc (proj1 Hr))) as Hm.
    change (level_page_size 1) with PAGING_PAGE_SIZE in Hm.
    destruct (map_range a a PAGING_PAGE_SIZE _ 1 s) as [st s'].
    destruct (is_ok st); cbn [negb]; [|done].
    change (a + 4096) with (a + level_page_size 1). eapply built_page; [done|done| |lia].
    intros va Hva. by rewrite Hint.
Qed.

Lemma build_region_spec i n s :
  0 <= i < 2048 -> built (i * PAGING_HUGE_PAGE_SIZE) s ->
  match build_region k windows (i * PAGING_HUGE_PAGE_SIZE) (n, s) with
  | Next (_, s') => built ((i + 1) * PAGING_HUGE_PAGE_SIZE) s'
  | Return (st, _, _) => starved st
  end.
Proof.
  intros Hi Hbt. unfold build_region. set (base := i * PAGING_HUGE_PAGE_SIZE) in *.
  assert (base mod PAGING_HUGE_PAGE_SIZE = 0) as Hb by (unfold base; by apply Z.mod_mul).
  assert (0 <= base /\ base + PAGING_HUGE_PAGE_SIZE <= SAPOTE_EARLY_PHYSICAL_LIMIT) as [H1 H2]
    by (unfold base, PAGING_HUGE_PAGE_SIZE, SAPOTE_EARLY_PHYSICAL_LIMIT; lia).
  replace ((i + 1) * PAGING_HUGE_PAGE_SIZE) with (base + PAGING_HUGE_PAGE_SIZE)
    by (unfold base; lia).
  destruct (needs_table k windows base) eqn:En; cbn [negb].
  - pose proof (for_each_offsets (fun j s => built (base + j * 4096) s)
      (fun '(st, _) => starved st) (build_page k windows base) 512 4096 s ltac:(lia) ltac:(lia))
      as Hloop.
    change (512 * 4096) with PAGING_HUGE_PAGE_SIZE in Hloop.
    change PAGING_PAGE_SIZE with 4096.
    assert (forall j s, 0 <= j < 512 -> built (base + j * 4096) s ->
      match build_page k windows base (j * 4096) s with
      | Next s' => built (base + (j + 1) * 4096) s'
      | Return r => let '(st, _) := r in starved st
      end) as Hstep.
    { intros j s1 Hj Hb1. pose proof (build_page_spec base j s1 Hb En H1 H2 Hj Hb1) as Hp.
      by destruct (build_page k windows base (j * 4096) s1) as [|[??]]. }
    specialize (Hloop Hstep). cbv beta in Hloop. rewrite Z.mul_0_l, Z.add_0_r in Hloop.
    specialize (Hloop Hbt).
    by destruct (for_each _ _ s) as [s'|[st s']].
  - destruct (bt_ok _ _ Hbt) as (T & Hok & Hpk).
    pose proof (map_one_page T s base PAGING_WRITE 2 Hok Hpk ltac:(lia) H1
      Hb ltac:(exact H2) eq_refl (fun va Hc Hr => built_free base s va Hbt Hc (proj1 Hr))) as Hm.
    change (level_page_size 2) with PAGING_HUGE_PAGE_SIZE in Hm.
    destruct (map_range base base PAGING_HUGE_PAGE_SIZE _ 2 s) as [st s'].
    destruct (is_ok st); cbn [negb]; [|done].
    change (base + PAGING_HUGE_PAGE_SIZE) with (base + level_page_size 2).
    eapply built_page; [done|done| |lia].
    intros va Hva. by apply (plan_huge base).
Qed.

Lemma build_spec T s :
  ok T s -> packed T s -> (forall va, leaf s va = None) ->
  let '(st, _, s') := build_identity_map k windows s in
  if is_ok st then built SAPOTE_EARLY_PHYSICAL_LIMIT s' else starved st.
Proof.
  intros Hok Hpk Hno. unfold build_identity_map.
  pose proof (for_each_offsets (fun j (x : Z * space F) => built (j * PAGING_HUGE_PAGE_SIZE) x.2)
    (fun '(st, _, _) => starved st) (build_region k windows) 2048 PAGING_HUGE_PAGE_SIZE (0, s)
    ltac:(done) ltac:(lia)) as Hloop.
  change (2048 * PAGING_HUGE_PAGE_SIZE) with SAPOTE_EARLY_PHYSICAL_LIMIT in Hloop.
  assert (forall j (x : Z * space F), 0 <= j < 2048 -> built (j * PAGING_HUGE_PAGE_SIZE) x.2 ->
    match build_region k windows (j * PAGING_HUGE_PAGE_SIZE) x with
    | Next s' => built ((j + 1) * PAGING_HUGE_PAGE_SIZE) s'.2
    | Return r => let '(st, _, _) := r in starved st
    end) as Hstep.
  { intros j [n s1] Hj Hb1. pose proof (build_region_spec j n s1 Hj Hb1) as Hp.
    by destruct (build_region k windows _ (n, s1)) as [[??]|[[??]?]]. }
  specialize (Hloop Hstep). cbn [snd] in Hloop.
  assert (built (0 * PAGING_HUGE_PAGE_SIZE) s) as H0'.
  { split; [eauto|]. intros va Hc. rewrite Hno, Z.mul_0_l.
    destruct (va <? 0) eqn:E; bool_hyps; [|done]. destruct Hc; lia. }
  specialize (Hloop H0').
  destruct (for_each _ _ (0, s)) as [[n s']|[[st n] s']]; cbn [snd] in Hloop; [done|].
  destruct Hloop as [-> | ->]; [by left|by right].
Qed.
End built.

(** * Reading back *)

Section meant.
Context {F : Type} `{TableFramesLaws F}.
Context (k : kernel_image) (windows : list DeviceWindows.paging_device_window).
Context (pat : Z) (Hpat : pat_ready pat).
Implicit Types (s : space F).

(** The translation the leaves the loops write give. *)
Definition plan_translation (va : Z) : paging_status * paging_translation :=
  match plan_leaf k windows va with
  | None => (PAGING_STATUS_NOT_MAPPED, no_translation)
  | Some (2, _) => (PAGING_STATUS_OK, MkTranslation va PAGING_WRITE PAGING_MEMORY_WRITE_BACK 2 false)
  | Some _ =>
      let p := page_permissions k windows (va / PAGING_PAGE_SIZE * PAGING_PAGE_SIZE) in
      (PAGING_STATUS_OK, MkTranslation va p (permission_type p) 1 false)
  end.

Lemma one_page_translation a perms L va :
  1 <= L <= 2 -> 0 <= a -> a mod level_page_size L = 0 -> a + level_page_size L <= 2 ^ 32 ->
  is_u32 perms -> validate_permissions perms = PAGING_STATUS_OK ->
  a <= va < a + level_page_size L ->
  leaf_translation va pat (Some (L, page_value a perms L 0)) =
  (PAGING_STATUS_OK, MkTranslation va perms (permission_type perms) L false).
Proof.
  intros HL Ha Hal Hlim Hp32 Hperm Hva. pose proof (page_size_pos L ltac:(lia)) as Hps.
  cbn [leaf_translation].
  rewrite (fill_page_value a a (level_page_size L) perms L 0 va pat); try done; try lia.
  - do 2 f_equal. pose proof (Z.div_mod a (level_page_size L) ltac:(lia)).
    rewrite <- (Z.mod_unique_pos va (level_page_size L) (a / level_page_size L) (va - a)) by lia. lia.
  - split; try lia; try done; unfold is_u64, UINT64_MAX, canonical; try lia.
    by rewrite Z.mod_same by lia.
  - unfold is_u64, UINT64_MAX. lia.
  - rewrite offsets_one by lia. left.
Qed.

Lemma built_translation s va :
  built k windows SAPOTE_EARLY_PHYSICAL_LIMIT s -> canonical va ->
  translate_address va pat s = plan_translation va.
Proof.
  intros [(T & Hok & _) Hlf] Hc. rewrite (translate_leaf T s va pat Hok Hc), (Hlf va Hc).
  unfold plan_translation. assert (0 <= va) as Hva by (destruct Hc; lia).
  destruct (va <? SAPOTE_EARLY_PHYSICAL_LIMIT) eqn:El; bool_hyps.
  2: { unfold plan_leaf. destruct (negb _) eqn:E; [done|].
       apply negb_false_iff, andb_true_iff in E as [_ E%Z.ltb_lt]. lia. }
  unfold SAPOTE_EARLY_PHYSICAL_LIMIT in El. unfold plan_leaf.
  destruct (negb ((0 <=? va) && _)) eqn:E; [done|].
  destruct (needs_table k windows _) eqn:En; cbn [negb].
  - destruct (_ =? 0) eqn:E0; [done|].
    destruct (page_permissions_ok k windows (va / PAGING_PAGE_SIZE * PAGING_PAGE_SIZE))
      as (Hperm & Hp32 & _).
    apply one_page_translation; try done; change (level_page_size 1) with 4096;
      unfold PAGING_PAGE_SIZE; Z.to_euclidean_division_equations; lia.
  - rewrite (one_page_translation (va / PAGING_HUGE_PAGE_SIZE * PAGING_HUGE_PAGE_SIZE)
      PAGING_WRITE 2 va); try done; change (level_page_size 2) with 0x200000;
      unfold PAGING_HUGE_PAGE_SIZE; Z.to_euclidean_division_equations; lia.
Qed.

(** A region of the map: its start, and that it lies below the limit. *)
Definition region (base : Z) : Prop :=
  base mod PAGING_HUGE_PAGE_SIZE = 0 /\ 0 <= base /\
  base + PAGING_HUGE_PAGE_SIZE <= SAPOTE_EARLY_PHYSICAL_LIMIT.

Lemma region_canonical base va :
  region base -> base <= va < base + PAGING_HUGE_PAGE_SIZE -> canonical va.
Proof. unfold region, SAPOTE_EARLY_PHYSICAL_LIMIT. left. lia. Qed.

Context (Hw : Forall (fun w => DeviceWindows.typed_window w /\ DeviceWindows.valid w) windows).

Lemma page_as_meant_built s base j :
  built k windows SAPOTE_EARLY_PHYSICAL_LIMIT s -> region base ->
  needs_table k windows base = true -> 0 <= j < 512 ->
  page_as_meant k windows (base + j * 4096) pat s = true.
Proof.
  intros Hbt Hreg En Hj. pose proof (region_canonical base (base + j * 4096) Hreg) as Hc.
  destruct Hreg as (Hb & H1 & H2). unfold PAGING_HUGE_PAGE_SIZE in *.
  set (a := base + j * 4096) in *.
  assert (a mod 4096 = 0) as Ha by (unfold a; Z.to_euclidean_division_equations; lia).
  unfold page_as_meant. rewrite (built_translation s a Hbt) by (apply Hc; unfold a; lia).
  unfold plan_translation. rewrite (plan_fine k windows base a a);
    try done; unfold a, PAGING_HUGE_PAGE_SIZE; try lia.
  fold a. destruct (a =? 0) eqn:E0; [done|].
  assert (a / PAGING_PAGE_SIZE * PAGING_PAGE_SIZE = a) as ->
    by (unfold PAGING_PAGE_SIZE; Z.to_euclidean_division_equations; lia).
  cbn [physical_address permissions memory_type level].
  rewrite !Z.eqb_refl. change (is_ok PAGING_STATUS_OK) with true. cbn [andb].
  destruct (page_permissions_ok k windows a) as (_ & _ & Hnw).
  destruct (device_window_at windows a) as [w|] eqn:Ew; cbn [andb].
  - assert (permission_type (page_permissions k windows a) = DeviceWindows.memory_type w) as ->;
      [|by rewrite bool_decide_true].
    unfold page_permissions, section_permissions. rewrite Ew.
    apply window_permissions_ok. apply List.find_some in Ew as [Hin _].
    rewrite Forall_forall in Hw. destruct (Hw w) as [Tw Vw]; [by apply list_elem_of_In|].
    by apply (DeviceWindows.valid_range w Tw Vw).
  - by rewrite (Hnw eq_refl).
Qed.

Lemma region_as_meant_built s base :
  built k windows SAPOTE_EARLY_PHYSICAL_LIMIT s -> region base ->
  needs_table k windows base = false -> region_as_meant base pat s = true.
Proof.
  intros Hbt Hreg En. pose proof (region_canonical base base Hreg) as Hc.
  destruct Hreg as (Hb & H1 & H2). unfold PAGING_HUGE_PAGE_SIZE in *.
  unfold region_as_meant. rewrite (built_translation s base Hbt) by (apply Hc; lia).
  unfold plan_translation. rewrite (plan_huge k windows base base);
    try done; unfold PAGING_HUGE_PAGE_SIZE; try lia.
  cbn [physical_address permissions memory_type level]. by rewrite !Z.eqb_refl.
Qed.

(** A loop whose checks all pass. *)
Lemma for_each_passes {R} (body : Z -> unit -> ctl unit R) n ps :
  0 < ps -> 0 <= n -> (forall i, 0 <= i < n -> body (i * ps) tt = Next tt) ->
  for_each body (offsets (n * ps) ps) tt = Next tt.
Proof.
  intros Hps Hn Hb.
  pose proof (for_each_offsets (fun _ _ => True) (fun _ => False) body n ps tt Hps Hn) as Hloop.
  destruct (for_each body (offsets (n * ps) ps) tt) as [[]|r]; [done|]. destruct Hloop; [|done].
  intros i [] Hi _. by rewrite Hb.
Qed.

Lemma built_validates s :
  built k windows SAPOTE_EARLY_PHYSICAL_LIMIT s ->
  validate_identity_map k windows pat s = PAGING_STATUS_OK.
Proof.
  intros Hbt. unfold validate_identity_map.
  rewrite (for_each_passes _ 2048 PAGING_HUGE_PAGE_SIZE); [done|done|lia|].
  intros i Hi. set (base := i * PAGING_HUGE_PAGE_SIZE).
  assert (region base) as Hreg.
  { split; [by apply Z.mod_mul|].
    unfold base, PAGING_HUGE_PAGE_SIZE, SAPOTE_EARLY_PHYSICAL_LIMIT. lia. }
  destruct (needs_table k windows base) eqn:En; cbn [negb].
  - rewrite (for_each_passes _ 512 PAGING_PAGE_SIZE); [done|done|lia|].
    intros j Hj. rewrite u64_small.
    + change PAGING_PAGE_SIZE with 4096. by rewrite page_as_meant_built.
    + destruct Hreg as (_ & H1 & H2).
      unfold is_u64, UINT64_MAX, PAGING_PAGE_SIZE, PAGING_HUGE_PAGE_SIZE,
        SAPOTE_EARLY_PHYSICAL_LIMIT in *. lia.
  - by rewrite region_as_meant_built.
Qed.
End meant.

(** * The processor's memory types *)

Lemma pat_entry_replace pat i j t :
  is_u64 pat -> 0 <= i < 8 -> 0 <= j < 8 -> 0 <= t < 256 ->
  pat_entry (pat_replace_entry pat i t) j = if i =? j then t else pat_entry pat j.
Proof.
  intros Hp Hi Hj Ht. unfold pat_entry, pat_replace_entry, u8. cbv zeta.
  change 256 with (2 ^ 8) in *. change 0xFF with (Z.ones 8).
  apply Z.bits_inj'. intros n Hn.
  destruct (Z.lt_ge_cases n 8) as [Hlt|Hge].
  2: { rewrite Z.mod_pow2_bits_high by lia. destruct (i =? j).
       - symmetry. rewrite <- (Z.mod_small t (2 ^ 8)) by done. apply Z.mod_pow2_bits_high. lia.
       - by rewrite Z.mod_pow2_bits_high by lia. }
  rewrite Z.mod_pow2_bits_low, Z.shiftr_spec, Z.lor_spec, Z.land_spec by lia.
  unfold not64, u64. change 18446744073709551616 with (2 ^ 64).
  rewrite (Z.mod_pow2_bits_low (Z.lnot _) 64), Z.lnot_spec by lia.
  rewrite (Z.mod_pow2_bits_low (Z.shiftl (Z.ones 8) _) 64) by lia.
  rewrite (Z.mod_pow2_bits_low (Z.shiftl t _) 64) by lia.
  rewrite !Z.shiftl_spec by lia.
  destruct (Z.eqb_spec i j) as [->|Hne].
  - replace (n + j * 8 - j * 8) with n by lia. rewrite Z.ones_spec_low by lia.
    by rewrite andb_false_r.
  - assert (Z.testbit (Z.ones 8) (n + j * 8 - i * 8) = false /\
      Z.testbit t (n + j * 8 - i * 8) = false) as [-> ->].
    { destruct (Z.lt_ge_cases (n + j * 8 - i * 8) 0); [by rewrite !Z.testbit_neg_r|].
      assert (8 <= n + j * 8 - i * 8) as H8 by lia. split; [by apply Z.ones_spec_high; lia|].
      rewrite <- (Z.mod_small t (2 ^ 8)) by done. apply Z.mod_pow2_bits_high. lia. }
    rewrite andb_true_r, orb_false_r. rewrite Z.mod_pow2_bits_low by lia.
    by rewrite Z.shiftr_spec by lia.
Qed.

Lemma supported_pat basic root extended cr4 pat :
  is_u64 pat -> decode_processor_support basic root extended cr4 pat = PAGING_STATUS_OK ->
  pat_ready (pat_replace_entry pat PAT_WRITE_COMBINING_ENTRY PAT_TYPE_WRITE_COMBINING).
Proof.
  intros Hp. unfold decode_processor_support. intros E. repeat (split_if_in E; [done|]).
  apply orb_false_elim in Heqb4 as [E0%negb_false_iff%Z.eqb_eq E3%negb_false_iff%Z.eqb_eq].
  unfold pat_ready, PAT_WRITE_BACK_ENTRY, PAT_WRITE_COMBINING_ENTRY, PAT_DEVICE_ENTRY,
    PAT_TYPE_WRITE_COMBINING in *. rewrite !pat_entry_replace by (done || lia). by split_and!.
Qed.

Lemma valid_vga w :
  DeviceWindows.valid w -> w.(DeviceWindows.kind) = DeviceWindows.PAGING_DEVICE_WINDOW_VGA_TEXT ->
  w.(DeviceWindows.physical_base) = 0xB8000.
Proof.
  unfold DeviceWindows.valid, DeviceWindows.validate_device_window_entry. cbv zeta. intros E Hk.
  rewrite Hk in E. change (DeviceWindows.PAGING_DEVICE_WINDOW_VGA_TEXT =?
    DeviceWindows.PAGING_DEVICE_WINDOW_VGA_TEXT) with true in E. cbn [andb] in E.
  destruct (DeviceWindows.physical_base w =? DeviceWindows.PAGING_VGA_TEXT_BUFFER_BASE) eqn:Eb;
    [by apply Z.eqb_eq in Eb|].
  cbn [negb orb] in E. by repeat (split_if_in E; [done|]).
Qed.

(** The region of the VGA text buffer holds the null page. *)
Lemma null_region_fine k windows :
  Forall DeviceWindows.typed_window windows -> DeviceWindows.acceptable windows ->
  needs_table k windows 0 = true.
Proof.
  intros Hty Hacc. unfold needs_table, region_needs_page_table. split_if; [done|].
  pose proof (DeviceWindows.ac_vga _ Hacc) as Hv. unfold DeviceWindows.has_kind in Hv.
  apply existsb_exists in Hv as (w & Hin & Hk%Z.eqb_eq). apply existsb_exists. exists w.
  split; [done|]. pose proof (DeviceWindows.ac_valid _ Hacc) as Hval.
  rewrite Forall_forall in Hval, Hty. apply list_elem_of_In in Hin.
  pose proof (DeviceWindows.valid_range w (Hty w Hin) (Hval w Hin)) as (H1 & H2 & _ & _ & H3 & _).
  rewrite (valid_vga w (Hval w Hin) Hk) in *. unfold SAPOTE_EARLY_PHYSICAL_LIMIT in H3.
  rewrite !u64_small by (unfold is_u64, UINT64_MAX, PAGING_HUGE_PAGE_SIZE; lia).
  apply andb_true_iff. rewrite !Z.ltb_lt. unfold PAGING_HUGE_PAGE_SIZE. lia.
Qed.

(** * What the map should be

    The image as linker.ld lays it out and asserts it: the sections follow each
    other without a gap, on page boundaries, below the fine-grained limit. *)
Record linked (k : kernel_image) : Prop := {
  ln_aligned : k.(kernel_start) mod 4096 = 0 /\ k.(text_start) mod 4096 = 0 /\
    k.(text_end) mod 4096 = 0 /\ k.(rodata_end) mod 4096 = 0 /\ k.(kernel_end) mod 4096 = 0;
  ln_order : 0 < k.(kernel_start) <= k.(text_start) /\ k.(text_start) < k.(text_end) /\
    k.(text_end) <= k.(rodata_end) <= k.(kernel_end) /\
    k.(kernel_end) <= PAGING_KERNEL_IMAGE_LIMIT;
  ln_rodata : k.(rodata_start) = k.(text_end);
  ln_data : k.(data_start) = k.(rodata_end)
}.

(** What a byte of physical memory belongs to. *)
Inductive contents : Type :=
| Device (w : DeviceWindows.paging_device_window)
| Text
| Constants
| Variables
| Memory.

Definition window_has (w : DeviceWindows.paging_device_window) (a : Z) : Prop :=
  w.(DeviceWindows.physical_base) <= a <
  w.(DeviceWindows.physical_base) + w.(DeviceWindows.length).

Section should.
Context (k : kernel_image) (windows : list DeviceWindows.paging_device_window).

Inductive belongs (a : Z) : contents -> Prop :=
| belongs_device w : w ∈ windows -> window_has w a -> belongs a (Device w)
| belongs_text : (forall w, w ∈ windows -> ~ window_has w a) ->
    k.(text_start) <= a < k.(text_end) -> belongs a Text
| belongs_constants : (forall w, w ∈ windows -> ~ window_has w a) ->
    k.(kernel_start) <= a < k.(text_start) \/ k.(rodata_start) <= a < k.(rodata_end) ->
    belongs a Constants
| belongs_variables : (forall w, w ∈ windows -> ~ window_has w a) ->
    k.(data_start) <= a < k.(kernel_end) -> belongs a Variables
| belongs_memory : (forall w, w ∈ windows -> ~ window_has w a) ->
    ~ (k.(kernel_start) <= a < k.(kernel_end)) -> belongs a Memory.

(** The rights of the contents: writable, executable, memory type. *)
Definition rights (c : contents) : bool * bool * paging_memory_type :=
  match c with
  | Device w => (has w.(DeviceWindows.permissions) DeviceWindows.PAGING_DEVICE_WINDOW_WRITE,
                 false, w.(DeviceWindows.memory_type))
  | Text => (false, true, PAGING_MEMORY_WRITE_BACK)
  | Constants => (false, false, PAGING_MEMORY_WRITE_BACK)
  | Variables | Memory => (true, false, PAGING_MEMORY_WRITE_BACK)
  end.

(** An address mapped to itself with the rights of its contents; by a large
    page exactly when all of the 2 MiB around it is plain memory. *)
Record should_be (va : Z) (t : paging_translation) : Prop := {
  sb_itself : t.(physical_address) = va;
  sb_supervisor : t.(user) = false;
  sb_rights : exists c, belongs va c /\
    (has t.(permissions) PAGING_WRITE, has t.(permissions) PAGING_EXECUTE, t.(memory_type)) =
    rights c;
  sb_level : t.(level) = 1 \/ t.(level) = 2;
  sb_large : t.(level) = 2 <->
    forall a, a / PAGING_HUGE_PAGE_SIZE = va / PAGING_HUGE_PAGE_SIZE -> belongs a Memory
}.

Context (Hk : linked k).
Context (Hty : Forall DeviceWindows.typed_window windows).
Context (Hacc : DeviceWindows.acceptable windows).

Lemma window_good w : w ∈ windows ->
  0 < w.(DeviceWindows.physical_base) /\ 0 < w.(DeviceWindows.length) /\
  w.(DeviceWindows.physical_base) mod 4096 = 0 /\ w.(DeviceWindows.length) mod 4096 = 0 /\
  w.(DeviceWindows.physical_base) + w.(DeviceWindows.length) <= 2 ^ 32 /\
  DeviceWindows.device_memory_type_supported w.(DeviceWindows.memory_type) = true.
Proof.
  intros Hin. pose proof (DeviceWindows.ac_valid _ Hacc) as Hval.
  rewrite Forall_forall in Hval, Hty.
  pose proof (DeviceWindows.valid_range w (Hty w Hin) (Hval w Hin)) as Hr.
  destruct Hr as (R1 & [R2 _] & R3 & R4 & R5 & _ & R6).
  unfold SAPOTE_EARLY_PHYSICAL_LIMIT in R5. split_and!; done || lia.
Qed.

(** A byte belongs to one thing only. *)
Lemma belongs_unique a c c' : belongs a c -> belongs a c' -> c = c'.
Proof.
  destruct Hk as [_ Ho Er Ed]. intros H1 H2.
  destruct H1 as [w Hw Ha|Hn|Hn Hs|Hn|Hn], H2 as [w' Hw' Ha'|Hn'|Hn' Hs'|Hn'|Hn'];
    try done; try (by destruct (Hn _ Hw')); try (by destruct (Hn' _ Hw)); try lia.
  f_equal. pose proof (DeviceWindows.ac_apart _ Hacc) as Hap.
  destruct (ForallOrdPairs_In Hap w w') as [?|[Hp|Hp]]; try (by apply list_elem_of_In); [done|..];
    unfold DeviceWindows.apart, window_has in *; lia.
Qed.

(** The first byte of a page stands for all of them. *)
Lemma window_page w a : w ∈ windows ->
  in_window (a / 4096 * 4096) w = true <-> window_has w a.
Proof.
  intros (H1 & H2 & H3 & H4 & H5 & _)%window_good. unfold in_window, window_has.
  rewrite u64_small by (unfold is_u64, UINT64_MAX; lia).
  rewrite andb_true_iff, Z.geb_leb, Z.leb_le, Z.ltb_lt. Z.to_euclidean_division_equations; lia.
Qed.

Lemma device_page a :
  match device_window_at windows (a / 4096 * 4096) with
  | Some w => w ∈ windows /\ window_has w a
  | None => forall w, w ∈ windows -> ~ window_has w a
  end.
Proof.
  unfold device_window_at. destruct (List.find _ windows) as [w|] eqn:E.
  - apply List.find_some in E as [Hin%list_elem_of_In Ha]. by apply (window_page w a Hin) in Ha.
  - intros w Hin Ha%(window_page w a Hin). apply list_elem_of_In in Hin.
    by rewrite (List.find_none _ _ E w Hin) in Ha.
Qed.

(** The rights a permission word and a memory type give. *)
Definition word_rights (p : Z) (ty : paging_memory_type) : bool * bool * paging_memory_type :=
  (has p PAGING_WRITE, has p PAGING_EXECUTE, ty).

Lemma device_rights w :
  DeviceWindows.device_memory_type_supported w.(DeviceWindows.memory_type) = true ->
  word_rights (device_window_mapping_permissions w)
    (permission_type (device_window_mapping_permissions w)) = rights (Device w).
Proof.
  intros Hs. unfold device_window_mapping_permissions, word_rights, rights. cbv zeta.
  by destruct (has w.(DeviceWindows.permissions) _), w.(DeviceWindows.memory_type).
Qed.

(** The section lookup on an image without gaps. *)
Lemma section_word p :
  match List.find (fun sec => (p >=? sec.(sec_start)) && (p <? sec.(sec_end)))
          (collect_kernel_sections k) with
  | Some sec => sec.(sec_permissions)
  | None => PAGING_WRITE
  end =
  if p <? k.(kernel_start) then PAGING_WRITE
  else if p <? k.(text_start) then PAGING_READ
  else if p <? k.(text_end) then PAGING_EXECUTE
  else if p <? k.(rodata_end) then PAGING_READ
  else PAGING_WRITE.
Proof.
  destruct Hk as [_ (O1 & O2 & O3 & _) Er Ed].
  unfold collect_kernel_sections, add_section. rewrite Er, Ed.
  repeat (split_if; bool_hyps); cbn; repeat (split_if; bool_hyps); done || lia.
Qed.

Lemma page_before a x : x mod 4096 = 0 -> (a / 4096 * 4096 <? x) = (a <? x).
Proof.
  intros Hx. apply eq_bool_prop_intro. rewrite !Is_true_true, !Z.ltb_lt.
  Z.to_euclidean_division_equations; lia.
Qed.

(** The permissions the code looks up for a page are those of its bytes. *)
Lemma page_rights a :
  exists c, belongs a c /\
    word_rights (page_permissions k windows (a / 4096 * 4096))
      (permission_type (page_permissions k windows (a / 4096 * 4096))) = rights c.
Proof.
  unfold page_permissions, section_permissions. pose proof (device_page a) as Hd.
  destruct (device_window_at windows _) as [w|].
  { destruct Hd as [Hin Ha]. exists (Device w). split; [by constructor|].
    by apply device_rights, window_good. }
  rewrite section_word. destruct Hk as [(A1 & A2 & A3 & A4 & A5) (O1 & O2 & O3 & _) Er Ed].
  rewrite !page_before by done. repeat (split_if; bool_hyps).
  - exists Memory. split; [constructor; [done|lia]|done].
  - exists Constants. split; [constructor; [done|lia]|done].
  - exists Text. split; [constructor; [done|lia]|done].
  - exists Constants. split; [constructor; [done|lia]|done].
  - destruct (Z.lt_ge_cases a k.(kernel_end)).
    + exists Variables. split; [constructor; [done|lia]|done].
    + exists Memory. split; [constructor; [done|lia]|done].
Qed.

(** A region is cut into 4 KiB pages exactly when it is not all plain memory. *)
Lemma needs_table_spec base :
  region base ->
  needs_table k windows base = false <->
  forall a, base <= a < base + PAGING_HUGE_PAGE_SIZE -> belongs a Memory.
Proof.
  intros (Hb & H1 & H2). destruct Hk as [_ (O1 & O2 & O3 & _) _ _].
  unfold needs_table, region_needs_page_table, SAPOTE_EARLY_PHYSICAL_LIMIT in *.
  rewrite (u64_small (base + PAGING_HUGE_PAGE_SIZE))
    by (unfold is_u64, UINT64_MAX, PAGING_HUGE_PAGE_SIZE in *; lia).
  assert (forall w, w ∈ windows ->
    (base <? u64 (w.(DeviceWindows.physical_base) + w.(DeviceWindows.length))) &&
    (w.(DeviceWindows.physical_base) <? base + PAGING_HUGE_PAGE_SIZE) = true <->
    exists a, base <= a < base + PAGING_HUGE_PAGE_SIZE /\ window_has w a) as Hw.
  { intros w (W1 & W2 & W3 & W4 & W5 & _)%window_good.
    rewrite u64_small by (unfold is_u64, UINT64_MAX; lia).
    rewrite andb_true_iff, !Z.ltb_lt. unfold window_has. split.
    - intros []. exists (Z.max base w.(DeviceWindows.physical_base)).
      unfold PAGING_HUGE_PAGE_SIZE in *. lia.
    - intros (a & ? & ?). lia. }
  split.
  - intros E a Ha. split_if_in E; [done|]. constructor.
    + intros w Hin Hwa. apply not_true_iff_false in E. apply E, existsb_exists.
      exists w. split; [by apply list_elem_of_In|]. apply (Hw w Hin). eauto.
    + apply andb_false_iff in Heqb. rewrite !Z.ltb_ge in Heqb. lia.
  - intros Hall. split_if.
    + apply andb_true_iff in Heqb. rewrite !Z.ltb_lt in Heqb.
      assert (belongs (Z.max base k.(kernel_start)) Memory) as Hm
        by (apply Hall; unfold PAGING_HUGE_PAGE_SIZE in *; lia).
      inversion Hm; unfold PAGING_HUGE_PAGE_SIZE in *; lia.
    + apply not_true_iff_false. intros (w & Hin%list_elem_of_In & E)%existsb_exists.
      apply Hw in E as (a & Ha & Hwa); [|done]. pose proof (Hall a Ha) as Hm. inversion Hm as [| | | |Hno ?]. by destruct (Hno w).
Qed.

(** Every address the leaves of the loops map is as it should be. *)
Lemma plan_should va :
  canonical va ->
  if decide (4096 <= va < SAPOTE_EARLY_PHYSICAL_LIMIT)
  then exists t, plan_translation k windows va = (PAGING_STATUS_OK, t) /\ should_be va t
  else plan_translation k windows va = (PAGING_STATUS_NOT_MAPPED, no_translation).
Proof.
  intros Hc. assert (0 <= va) as Hva by (destruct Hc; lia).
  unfold plan_translation, plan_leaf. set (base := va / PAGING_HUGE_PAGE_SIZE * PAGING_HUGE_PAGE_SIZE).
  destruct (va <? SAPOTE_EARLY_PHYSICAL_LIMIT) eqn:El; bool_hyps.
  2: { rewrite decide_False by lia. by rewrite andb_false_r. }
  rewrite (proj2 (Z.leb_le 0 va) Hva). cbn [andb negb].
  assert (region base) as Hreg.
  { unfold region, base, PAGING_HUGE_PAGE_SIZE, SAPOTE_EARLY_PHYSICAL_LIMIT in *.
    Z.to_euclidean_division_equations; lia. }
  assert (forall a, a / PAGING_HUGE_PAGE_SIZE = va / PAGING_HUGE_PAGE_SIZE <->
    base <= a < base + PAGING_HUGE_PAGE_SIZE) as Hsame.
  { intros a. unfold base, PAGING_HUGE_PAGE_SIZE. Z.to_euclidean_division_equations; lia. }
  pose proof (needs_table_spec base Hreg) as Hn. destruct (needs_table k windows base) eqn:En.
  - cbn [negb]. unfold PAGING_PAGE_SIZE. destruct (_ =? 0) eqn:E0; bool_hyps.
    { rewrite decide_False; [done|]. Z.to_euclidean_division_equations; lia. }
    rewrite decide_True by (Z.to_euclidean_division_equations; lia).
    eexists. split; [done|]. split; cbn; try done; [apply page_rights|by left|].
    split; [done|]. intros Hall. assert (true = false) by (apply Hn; intros a Ha; by apply Hall, Hsame).
    done.
  - cbn [negb]. destruct (decide _) as [Hr|Hr].
    2: { assert (base = 0) as E0.
         { unfold base, PAGING_HUGE_PAGE_SIZE. Z.to_euclidean_division_equations; lia. }
         rewrite E0, (null_region_fine k windows Hty Hacc) in En. done. }
    assert (forall a, a / PAGING_HUGE_PAGE_SIZE = va / PAGING_HUGE_PAGE_SIZE -> belongs a Memory)
      as Hmem by (intros a Ha; by apply Hn, Hsame).
    eexists. split; [done|]. split; cbn; try done; [|by right].
    exists Memory. split; [by apply Hmem|done].
Qed.
End should.

(** * Theorems *)

(** The finished map, on a processor decode_processor_support accepts. *)
Lemma built_should {F : Type} `{TableFramesLaws F} (T : gmap Z (Z * Z)) (s : space F)
    k windows basic root extended cr4 pat_before n s' :
  ok T s -> packed T s -> (forall va, leaf s va = None) -> is_u64 pat_before ->
  decode_processor_support basic root extended cr4 pat_before = PAGING_STATUS_OK ->
  linked k -> Forall DeviceWindows.typed_window windows -> DeviceWindows.acceptable windows ->
  build_identity_map k windows s = (PAGING_STATUS_OK, n, s') ->
  let pat := pat_replace_entry pat_before PAT_WRITE_COMBINING_ENTRY PAT_TYPE_WRITE_COMBINING in
  (forall va, canonical va ->
     if decide (4096 <= va < SAPOTE_EARLY_PHYSICAL_LIMIT)
     then exists t, translate_address va pat s' = (PAGING_STATUS_OK, t) /\ should_be k windows va t
     else translate_address va pat s' = (PAGING_STATUS_NOT_MAPPED, no_translation)) /\
  validate_identity_map k windows pat s' = PAGING_STATUS_OK.
Proof.
  intros Hok Hpk Hno Hp Hsup Hk Hty Hacc E pat.
  pose proof (supported_pat _ _ _ _ _ Hp Hsup) as Hpat.
  pose proof (build_spec k windows T s Hok Hpk Hno) as Hb. rewrite E in Hb. cbn in Hb. split.
  - intros va Hc. rewrite (built_translation k windows pat Hpat s' va Hb Hc).
    by apply plan_should.
  - apply built_validates; [done| |done]. apply Forall_and. split; [done|apply Hacc].
Qed.

(** C8 (refinement): for an image laid out as linker.ld asserts, an acceptable
    set of device windows and a processor decode_processor_support accepts,
    building the identity map from an empty hierarchy either runs out of table
    frames the early map reaches or succeeds. When it succeeds the null page and everything from
    4 GiB up is unmapped, and every other address resolves to itself with the
    rights of what lies there: the rights and memory type its device declares,
    executable for kernel text, read-only for the header and the constants,
    writable for variables and plain memory. A large page is used exactly where
    all 2 MiB are plain memory. validate_identity_map accepts the result. *)
Theorem identity_map_as_meant {F : Type} `{TableFramesLaws F} (T : gmap Z (Z * Z)) (s : space F)
    k windows basic root extended cr4 pat_before st n s' :
  ok T s -> packed T s -> (forall va, leaf s va = None) -> is_u64 pat_before ->
  decode_processor_support basic root extended cr4 pat_before = PAGING_STATUS_OK ->
  linked k -> Forall DeviceWindows.typed_window windows -> DeviceWindows.acceptable windows ->
  build_identity_map k windows s = (st, n, s') ->
  let pat := pat_replace_entry pat_before PAT_WRITE_COMBINING_ENTRY PAT_TYPE_WRITE_COMBINING in
  if is_ok st then
    (forall va, canonical va ->
       if decide (4096 <= va < SAPOTE_EARLY_PHYSICAL_LIMIT)
       then exists t, translate_address va pat s' = (PAGING_STATUS_OK, t) /\
              should_be k windows va t
       else translate_address va pat s' = (PAGING_STATUS_NOT_MAPPED, no_translation)) /\
    validate_identity_map k windows pat s' = PAGING_STATUS_OK
  else st = PAGING_STATUS_OUT_OF_FRAMES \/ st = PAGING_STATUS_PHYSICAL_TOO_WIDE.
Proof.
  intros Hok Hpk Hno Hp Hsup Hk Hty Hacc E pat. destruct (is_ok st) eqn:Est.
  - apply bool_decide_eq_true in Est. subst st. by eapply built_should.
  - pose proof (build_spec k windows T s Hok Hpk Hno) as Hb. by rewrite E, Est in Hb.
Qed.

(** Without an overlapping device the image keeps its own rights. *)
Lemma kernel_apart k windows w a :
  Forall DeviceWindows.typed_window windows -> DeviceWindows.acceptable windows ->
  reject_kernel_device_overlap windows k = PAGING_STATUS_OK ->
  w ∈ windows -> window_has w a -> ~ (k.(kernel_start) <= a < k.(kernel_end)).
Proof.
  intros Hty Hacc Ho Hin Ha Hka.
  destruct (window_good windows Hty Hacc w Hin) as (W1 & W2 & _ & _ & W5 & _).
  unfold reject_kernel_device_overlap in Ho. split_if_in Ho; [done|].
  apply not_true_iff_false in Heqb. apply Heqb, existsb_exists. exists w.
  split; [by apply list_elem_of_In|]. unfold window_has in Ha.
  rewrite u64_small by (unfold is_u64, UINT64_MAX; lia). apply andb_true_iff. rewrite !Z.ltb_lt. lia.
Qed.

(** C9 (safety): in the map build_identity_map finishes, when the checks of
    paging_initialize passed (no device window over the kernel image), no
    address of the null page translates, what is executable is kernel text and
    not writable, and nothing of the header, the text or the constants is
    writable. *)
Theorem identity_map_hardened {F : Type} `{TableFramesLaws F} (T : gmap Z (Z * Z)) (s : space F)
    k windows basic root extended cr4 pat_before n s' va t :
  ok T s -> packed T s -> (forall va, leaf s va = None) -> is_u64 pat_before ->
  decode_processor_support basic root extended cr4 pat_before = PAGING_STATUS_OK ->
  linked k -> Forall DeviceWindows.typed_window windows -> DeviceWindows.acceptable windows ->
  reject_kernel_device_overlap windows k = PAGING_STATUS_OK ->
  build_identity_map k windows s = (PAGING_STATUS_OK, n, s') -> canonical va ->
  translate_address va
    (pat_replace_entry pat_before PAT_WRITE_COMBINING_ENTRY PAT_TYPE_WRITE_COMBINING) s' =
    (PAGING_STATUS_OK, t) ->
  4096 <= va /\
  (has t.(permissions) PAGING_EXECUTE = true ->
     k.(text_start) <= va < k.(text_end) /\ has t.(permissions) PAGING_WRITE = false) /\
  (k.(kernel_start) <= va < k.(rodata_end) -> has t.(permissions) PAGING_WRITE = false).
Proof.
  intros Hok Hpk Hno Hp Hsup Hk Hty Hacc Hover E Hc Et.
  destruct (built_should T s k windows _ _ _ _ _ _ _ Hok Hpk Hno Hp Hsup Hk Hty Hacc E) as [Hall _].
  specialize (Hall va Hc). rewrite Et in Hall. destruct (decide _) as [Hr|]; [|done].
  destruct Hall as (t' & [= <-] & [_ _ (c & Hb & Hrt) _ _]).
  pose proof (fun w => kernel_apart k windows w va Hty Hacc Hover) as Hap.
  destruct Hk as [_ (O1 & O2 & O3 & _) Er Ed].
  split; [lia|]. destruct Hb as [w Hw Ha|Hn Ha|Hn Ha|Hn Ha|Hn Ha]; injection Hrt as Hwr Hex _;
    rewrite Hwr, Hex; (split; [done || by intros|]); try done; intros; try lia.
  destruct (Hap w Hw Ha). lia.
Qed.

(** * A sample machine *)

#[local] Existing Instance PhysicalMemory.small_layout.

Definition sample_image : kernel_image :=
  MkImage 0x100000 0x140000 0x101000 0x120000 0x120000 0x128000 0x128000.
Definition sample_list : list DeviceWindows.paging_device_window :=
  DeviceWindows.windows_of DeviceWindows.sample_canonical.
Definition sample_built : paging_status * Z * space PhysicalMemory.allocator :=
  build_identity_map sample_image sample_list sample_space.

Lemma sample_build_ok : sample_built.1.1 = PAGING_STATUS_OK.
Proof. vm_compute. reflexivity. Qed.

Lemma sample_list_eq : sample_list =
  [DeviceWindows.vga_window; DeviceWindows.framebuffer_window;
   DeviceWindows.io_apic_window; DeviceWindows.local_apic_window].
Proof. vm_compute. reflexivity. Qed.

Lemma sample_list_typed : Forall DeviceWindows.typed_window sample_list.
Proof.
  rewrite sample_list_eq.
  repeat (constructor; [split; unfold is_u64, UINT64_MAX; cbn; lia|]). constructor.
Qed.

Lemma sample_list_valid : Forall DeviceWindows.valid sample_list.
Proof. rewrite sample_list_eq. repeat constructor. Qed.

Lemma sample_list_acceptable : DeviceWindows.acceptable sample_list.
Proof.
  apply DeviceWindows.validate_list_ok; [apply sample_list_typed|]. vm_compute. reflexivity.
Qed.

Lemma sample_empty : forall va, leaf sample_space va = None.
Proof.
  destruct (create_spec 0 0 empty_space sample_space sample_supply sample_created)
    as (T & _ & _ & Hno & _). exact Hno.
Qed.

Lemma sample_pat_word : is_u64 0x0007040600070406.
Proof. unfold is_u64, UINT64_MAX. lia. Qed.

Lemma sample_text_canonical : canonical 0x101040.
Proof. left. lia. Qed.

Lemma sample_null_canonical : canonical 0x40.
Proof. left. lia. Qed.

Lemma sample_image_linked : linked sample_image.
Proof. split; cbn; unfold PAGING_KERNEL_IMAGE_LIMIT; repeat split; try lia. Qed.

Lemma sample_build_eq : build_identity_map sample_image sample_list sample_space =
  (PAGING_STATUS_OK, sample_built.1.2, sample_built.2).
Proof.
  rewrite <- sample_build_ok. fold sample_built. destruct sample_built as [[a b] c]. reflexivity.
Qed.

Lemma sample_support :
  decode_processor_support 0x00010000 0x80000001 0x00100000 0x20 0x0007040600070406 =
  PAGING_STATUS_OK.
Proof. vm_compute. reflexivity. Qed.

Lemma identity_map_as_meant_witness :
  (exists t, translate_address 0x101040 0x0007040600070106 sample_built.2 =
     (PAGING_STATUS_OK, t) /\ should_be sample_image sample_list 0x101040 t) /\
  translate_address 0x40 0x0007040600070106 sample_built.2 =
    (PAGING_STATUS_NOT_MAPPED, no_translation).
Proof.
  destruct sample_space_ok as (T & Hok & Hpk).
  pose proof (identity_map_as_meant T sample_space sample_image sample_list _ _ _ _ _ _ _ _
    Hok Hpk sample_empty sample_pat_word sample_support sample_image_linked sample_list_typed
    sample_list_acceptable sample_build_eq) as [Htr _].
  split.
  - exact (Htr 0x101040 sample_text_canonical).
  - exact (Htr 0x40 sample_null_canonical).
Defined.

Lemma identity_map_hardened_witness :
  (translate_address 0x101040 0x0007040600070106 sample_built.2).1 = PAGING_STATUS_OK /\
  has (translate_address 0x101040 0x0007040600070106 sample_built.2).2.(permissions)
    PAGING_EXECUTE = true /\
  has (translate_address 0x101040 0x0007040600070106 sample_built.2).2.(permissions)
    PAGING_WRITE = false.
Proof.
  destruct sample_space_ok as (T & Hok & Hpk).
  assert ((translate_address 0x101040 0x0007040600070106 sample_built.2).1 = PAGING_STATUS_OK)
    as Est by (vm_compute; reflexivity).
  assert (reject_kernel_device_overlap sample_list sample_image = PAGING_STATUS_OK) as Hover
    by (vm_compute; reflexivity).
  destruct (identity_map_hardened T sample_space sample_image sample_list _ _ _ _ _ _ _ 0x101040
    _ Hok Hpk sample_empty sample_pat_word sample_support sample_image_linked sample_list_typed
    sample_list_acceptable Hover sample_build_eq sample_text_canonical (status_of _ Est))
    as (_ & _ & Hro).
  split; [exact Est|]. split; [vm_compute; reflexivity|].
  apply Hro. cbn. lia.
Defined.

End IdentityMap.
