(* ===== verification/Paging.v ===== *)
(** The paging interface of src/src/kernel/paging.c: paging_map, paging_unmap,
    paging_protect and paging_translate on the live hierarchy, and the registry
    of supervisor mapping intents from which a private hierarchy is rebuilt.

    The registry is the list of its used entries. A call may name any range:
    one that succeeds on a range that is not an entry of the registry changes
    the live hierarchy and not the registry, and the theorems say that this is
    the only way the two can come apart. *)
From stdpp Require Import gmap.
From S2P Require Import Prelude PhysicalMemory PageTable PageRange PageSpace.
Import PageTable PageRange PageSpace.

Module Paging.

Definition PAGING_SUPERVISOR_INTENT_CAPACITY : Z := 8192.
Definition SIZE_MAX : Z := UINT64_MAX.

Record supervisor_mapping_intent : Type := MkIntent {
  in_virtual : Z;
  in_physical : Z;
  in_length : Z;
  in_permissions : Z
}.

Definition no_intent : supervisor_mapping_intent := MkIntent 0 0 0 0.

(** The live hierarchy, the registry, and the fields of the paging state the
    interface reads and writes. *)
Record paging (F : Type) : Type := MkPaging {
  live_space : space F;
  supervisor_intents : list supervisor_mapping_intent;
  active : bool;
  pat_after : Z;
  state_table_frames : Z
}.
Arguments MkPaging {F} _ _ _ _ _.
Arguments live_space {F} _.
Arguments supervisor_intents {F} _.
Arguments active {F} _.
Arguments pat_after {F} _.
Arguments state_table_frames {F} _.

Definition supervisor_intent_find (intents : list supervisor_mapping_intent)
    (address length : Z) : Z :=
  match find_index (fun i => (i.(in_virtual) =? address) && (i.(in_length) =? length)) intents with
  | Some index => index
  | None => SIZE_MAX
  end.

Definition supervisor_intent_add (intents : list supervisor_mapping_intent)
    (virtual_address physical_address length permissions : Z)
  : paging_status * list supervisor_mapping_intent :=
  if zlength intents =? PAGING_SUPERVISOR_INTENT_CAPACITY then
    (PAGING_STATUS_SUPERVISOR_INTENT_FULL, intents)
  else (PAGING_STATUS_OK,
        intents ++ [MkIntent virtual_address physical_address length permissions]).

(** The entries after [index] move down by one. *)
Definition supervisor_intent_remove (intents : list supervisor_mapping_intent) (index : Z)
  : list supervisor_mapping_intent :=
  let n := zlength intents in
  if index >=? n then intents
  else
    take (Z.to_nat (n - 1))
      (foldl (fun l move => aset l (move - 1) (aget no_intent l move)) intents
         (seqZ (index + 1) (n - (index + 1)))).

Section interface.
Context {F : Type} `{TableFrames F}.

Definition replay_supervisor_intent (intents : list supervisor_mapping_intent) (s : space F)
  : paging_status * space F :=
  match
    for_each (fun i s =>
        let '(status, s) :=
          map_range i.(in_virtual) i.(in_physical) i.(in_length) i.(in_permissions) 1 s in
        if negb (is_ok status) then Return (status, s) else Next s)
      intents s
  with
  | Return r => r
  | Next s => (PAGING_STATUS_OK, s)
  end.

Definition set_space (p : paging F) (s : space F) (intents : list supervisor_mapping_intent)
  : paging F :=
  MkPaging s intents p.(active) p.(pat_after) s.(hier).(table_frames).

Definition paging_map (virtual_address physical_address length permissions : Z) (p : paging F)
  : paging_status * paging F :=
  if negb p.(active) then (PAGING_STATUS_NOT_INITIALIZED, p)
  else
    let '(status, s) :=
      map_range virtual_address physical_address length permissions 1 p.(live_space) in
    if is_ok status then
      let '(status, intents) := supervisor_intent_add p.(supervisor_intents) virtual_address
                                  physical_address length permissions in
      if negb (is_ok status) then
        (status, set_space p (unmap_range virtual_address length s).2 intents)
      else (status, set_space p s intents)
    else (status, set_space p s p.(supervisor_intents)).

Definition paging_unmap (virtual_address length : Z) (p : paging F)
  : paging_status * paging F :=
  if negb p.(active) then (PAGING_STATUS_NOT_INITIALIZED, p)
  else
    let intent := supervisor_intent_find p.(supervisor_intents) virtual_address length in
    let '(status, s) := unmap_range virtual_address length p.(live_space) in
    let intents :=
      if is_ok status && negb (intent =? SIZE_MAX) then
        supervisor_intent_remove p.(supervisor_intents) intent
      else p.(supervisor_intents) in
    (status, set_space p s intents).

Definition paging_protect (virtual_address length permissions : Z) (p : paging F)
  : paging_status * paging F :=
  let intent := supervisor_intent_find p.(supervisor_intents) virtual_address length in
  if negb p.(active) then (PAGING_STATUS_NOT_INITIALIZED, p)
  else
    let '(status, s) :=
      protect_range virtual_address length permissions p.(pat_after) p.(live_space) in
    let intents :=
      if is_ok status && negb (intent =? SIZE_MAX) then
        let i := aget no_intent p.(supervisor_intents) intent in
        aset p.(supervisor_intents) intent
          (MkIntent i.(in_virtual) i.(in_physical) i.(in_length) permissions)
      else p.(supervisor_intents) in
    (status, MkPaging s intents p.(active) p.(pat_after) p.(state_table_frames)).

(** [destination] tells whether the caller passed somewhere to write. *)
Definition paging_translate (virtual_address : Z) (destination : bool) (p : paging F)
  : paging_status * option paging_translation :=
  if negb destination then (PAGING_STATUS_NULL_ARGUMENT, None)
  else if negb p.(active) then (PAGING_STATUS_NOT_INITIALIZED, Some no_translation)
  else
    let '(status, t) := translate_address virtual_address p.(pat_after) p.(live_space) in
    (status, Some t).

Definition paging_audit_hierarchy (destination : bool) (p : paging F)
  : paging_status * option paging_audit :=
  if negb destination then (PAGING_STATUS_NULL_ARGUMENT, None)
  else if negb p.(active) then
    (PAGING_STATUS_NOT_INITIALIZED, Some (MkAudit 0 0 0 0 0 0))
  else (PAGING_STATUS_OK, Some (audit_hierarchy p.(live_space))).
End interface.

(** * The registry *)

Lemma shift_down l index : forall n,
  0 <= index < zlength l -> 0 <= n -> index + n < zlength l ->
  foldl (fun l move => aset l (move - 1) (aget no_intent l move)) l (seqZ (index + 1) n) =
  take (Z.to_nat index) l ++ take (Z.to_nat n) (drop (S (Z.to_nat index)) l) ++
    drop (Z.to_nat (index + n)) l.
Proof.
  intros n Hi Hn. revert n Hn. apply (natlike_ind (fun n => index + n < zlength l -> _)).
  - intros _. rewrite seqZ_nil by lia. cbn [foldl]. rewrite Z.add_0_r.
    change (Z.to_nat 0) with 0%nat. rewrite take_0. cbn [app]. by rewrite take_drop.
  - intros n Hn IH Hlt. specialize (IH ltac:(lia)).
    replace (Z.succ n) with (n + 1) by lia. rewrite seqZ_app, foldl_app, IH by lia.
    assert (seqZ (index + 1 + n) 1 = [index + 1 + n]) as ->
      by (rewrite seqZ_cons by lia; f_equal; lia).
    cbn [foldl]. set (a := take (Z.to_nat index) l).
    set (b := take (Z.to_nat n) (drop (S (Z.to_nat index)) l)).
    assert (length (a ++ b) = Z.to_nat (index + n)) as Hab.
    { unfold a, b. rewrite length_app, !length_take, length_drop. unfold zlength in *. lia. }
    destruct (lookup_lt_is_Some_2 l (Z.to_nat (index + n))) as [y Hy]; [unfold zlength in *; lia|].
    destruct (lookup_lt_is_Some_2 l (S (Z.to_nat (index + n)))) as [x Hx];
      [unfold zlength in *; lia|].
    rewrite (drop_S l y _ Hy), (drop_S l x _ Hx), app_assoc.
    assert (aget no_intent ((a ++ b) ++ y :: x :: drop (S (S (Z.to_nat (index + n)))) l)
      (index + 1 + n) = x) as ->.
    { apply aget_lookup. replace (Z.to_nat (index + 1 + n)) with (length (a ++ b) + 1)%nat by lia.
      rewrite lookup_app_r by lia. by replace (length (a ++ b) + 1 - length (a ++ b))%nat with 1%nat by lia. }
    unfold aset. rewrite insert_app_r_alt by (rewrite Hab; lia). rewrite Hab.
    replace (Z.to_nat (index + 1 + n - 1) - Z.to_nat (index + n))%nat with 0%nat by lia.
    cbn [insert list_insert]. replace (Z.to_nat (n + 1)) with (S (Z.to_nat n)) by lia.
    rewrite (take_S_r _ _ x) by (rewrite lookup_drop; rewrite <- Hx; f_equal; lia).
    fold b. replace (Z.to_nat (index + (n + 1))) with (S (Z.to_nat (index + n))) by lia.
    rewrite (drop_S l x _ Hx). by rewrite <- !app_assoc.
Qed.

(** Removing moves the tail down: the entry is deleted. *)
Lemma supervisor_intent_remove_delete l index :
  0 <= index < zlength l -> supervisor_intent_remove l index = delete (Z.to_nat index) l.
Proof.
  intros Hi. unfold supervisor_intent_remove. destruct (_ >=? _) eqn:E; bool_hyps; [lia|].
  rewrite shift_down by lia. rewrite app_assoc, take_app_length'.
  - rewrite delete_take_drop. f_equal. apply take_ge. rewrite length_drop. unfold zlength in *. lia.
  - rewrite length_app, !length_take, length_drop. unfold zlength in *. lia.
Qed.

Lemma supervisor_intent_find_spec l va len :
  zlength l <= PAGING_SUPERVISOR_INTENT_CAPACITY ->
  let index := supervisor_intent_find l va len in
  ((index =? SIZE_MAX) = true /\ forall i, i ∈ l -> ~ (i.(in_virtual) = va /\ i.(in_length) = len)) \/
  ((index =? SIZE_MAX) = false /\ 0 <= index < zlength l /\
   (aget no_intent l index).(in_virtual) = va /\ (aget no_intent l index).(in_length) = len).
Proof.
  intros Hcap. unfold supervisor_intent_find.
  destruct (find_index _ l) as [index|] eqn:E.
  - right. apply (find_index_Some no_intent) in E as (Hi & Hp & _). bool_hyps.
    unfold PAGING_SUPERVISOR_INTENT_CAPACITY, SIZE_MAX, UINT64_MAX in *.
    split_and!; [apply Z.eqb_neq; lia|lia|lia|done|done].
  - left. split; [done|]. apply find_index_None in E. rewrite Forall_forall in E.
    intros i Hi [<- <-]. specialize (E i Hi). cbn in E. by rewrite !Z.eqb_refl in E.
Qed.

(** * Intents and the live mapping *)

Section mirror.
Context {F : Type} `{TableFramesLaws F}.
(** What was mapped before the first runtime mapping. *)
Context (base : Z -> option (Z * Z)).
Implicit Types (s : space F) (i : supervisor_mapping_intent).

Record good_intent i : Prop := {
  gi_range : vrange i.(in_virtual) i.(in_length) 1;
  gi_args : map_args i.(in_virtual) i.(in_physical) i.(in_length) 1;
  gi_aligned : i.(in_physical) mod level_page_size 1 = 0;
  gi_limit : i.(in_physical) + i.(in_length) <= 2 ^ 52;
  gi_permissions : validate_permissions i.(in_permissions) = PAGING_STATUS_OK
}.

Definition in_intent i (va : Z) : Prop :=
  i.(in_virtual) <= va < i.(in_virtual) + i.(in_length).

Definition intent_leaf i (va : Z) : option (Z * Z) :=
  Some (1, page_value i.(in_physical) i.(in_permissions) 1
             (va - i.(in_virtual) - va mod level_page_size 1)).

(** The live hierarchy maps each intent as recorded and is otherwise what it
    was; no two intents share an address. *)
Record mirrors (l : list supervisor_mapping_intent) s : Prop := {
  mr_ok : exists T, ok T s;
  mr_nodup : NoDup l;
  mr_good : forall i, i ∈ l -> good_intent i;
  mr_apart : forall i j va, i ∈ l -> j ∈ l -> in_intent i va -> in_intent j va -> i = j;
  mr_here : forall i va, i ∈ l -> canonical va -> in_intent i va ->
    leaf s va = intent_leaf i va /\ base va = None;
  mr_else : forall va, canonical va -> (forall i, i ∈ l -> ~ in_intent i va) ->
    leaf s va = base va
}.

Lemma mirrors_perm l l' s : l ≡ₚ l' -> mirrors l s -> mirrors l' s.
Proof.
  intros Hp [M1 M2 M3 M4 M5 M6]. split; try done.
  - by rewrite <- Hp.
  - intros i. rewrite <- Hp. apply M3.
  - intros i j va. rewrite <- Hp. apply M4.
  - intros i va. rewrite <- Hp. apply M5.
  - intros va Hc Hn. apply M6; [done|]. intros i. rewrite Hp. apply Hn.
Qed.

Lemma mirrors_same l s s' :
  (exists T, ok T s') -> (forall va, canonical va -> leaf s' va = leaf s va) ->
  mirrors l s -> mirrors l s'.
Proof.
  intros Hok Hlf [M1 M2 M3 M4 M5 M6]. split; try done.
  - intros i va Hi Hc Hin. rewrite Hlf by done. by apply M5.
  - intros va Hc Hn. rewrite Hlf by done. by apply M6.
Qed.

(** The registry determines what is mapped. *)
Lemma mirrors_determined l s s' va :
  mirrors l s -> mirrors l s' -> canonical va -> leaf s' va = leaf s va.
Proof.
  intros M M' Hc. destruct (decide (Exists (fun i => in_virtual i <= va < in_virtual i + in_length i) l))
    as [(i & Hi & Hin)%Exists_exists|Hno].
  - destruct (mr_here _ _ M' i va Hi Hc Hin) as [-> _].
    by destruct (mr_here _ _ M i va Hi Hc Hin) as [-> _].
  - assert (forall i, i ∈ l -> ~ in_intent i va) as Hn.
    { intros i Hi Hin. apply Hno, Exists_exists. by exists i. }
    by rewrite (mr_else _ _ M' va Hc Hn), (mr_else _ _ M va Hc Hn).
Qed.

Lemma intent_half i : good_intent i -> one_half i.(in_virtual) i.(in_length).
Proof.
  intros G. eapply vrange_half; [apply G|]. pose proof (gi_limit _ G).
  destruct (gi_args _ G) as [_ Hpa _ _]. unfold is_u64 in Hpa. lia.
Qed.

Lemma intent_canonical i va : good_intent i -> in_intent i va -> canonical va.
Proof.
  intros G Hin. pose proof (intent_half i G) as Hh. destruct (gi_range _ G).
  unfold in_intent, one_half, canonical, is_u64, UINT64_MAX in *. lia.
Qed.

(** A successful map_range, in terms of the intent it realizes. *)
Lemma mapped_intent i T s s' :
  good_intent i ->
  mapped i.(in_virtual) i.(in_physical) i.(in_length) i.(in_permissions) 1 T s s' ->
  (exists T', ok T' s') /\
  (forall va, canonical va -> in_intent i va -> leaf s va = None /\ leaf s' va = intent_leaf i va) /\
  (forall va, canonical va -> ~ in_intent i va -> leaf s' va = leaf s va).
Proof.
  intros G M. pose proof (intent_half i G) as Hh. pose proof (gi_range _ G) as V. split_and!.
  - destruct (md_ok _ _ _ _ _ _ _ _ M) as (T' & ? & _). eauto.
  - intros va Hc Hin. destruct (range_page _ _ 1 va V Hh Hc Hin) as (off & Hoff & E & Eo).
    destruct (md_page _ _ _ _ _ _ _ _ M off va Hoff E) as [E1 E2]. split; [done|].
    rewrite E2. unfold intent_leaf. do 3 f_equal. lia.
  - intros va Hc Hn. apply (md_else _ _ _ _ _ _ _ _ M).
    by rewrite (covered_range _ _ 1 V Hh va Hc).
Qed.

Lemma mirrors_map l i T s s' :
  good_intent i -> mirrors l s ->
  mapped i.(in_virtual) i.(in_physical) i.(in_length) i.(in_permissions) 1 T s s' ->
  mirrors (i :: l) s'.
Proof.
  intros G M Hm. destruct (mapped_intent i T s s' G Hm) as (Hok & Hin & Hout).
  destruct M as [M1 M2 M3 M4 M5 M6].
  assert (forall j va, j ∈ l -> in_intent i va -> in_intent j va -> False) as Hfresh.
  { intros j va Hj Hi Hj'. pose proof (intent_canonical i va G Hi) as Hc.
    destruct (Hin va Hc Hi) as [E _]. destruct (M5 j va Hj Hc Hj') as [E' _].
    rewrite E in E'. done. }
  assert (in_intent i i.(in_virtual)) as Hself
    by (destruct (gi_range _ G); unfold in_intent; lia).
  split; [done| | | | |].
  - constructor; [|done]. intros Hi. by apply (Hfresh i (in_virtual i)).
  - intros j [->|Hj]%elem_of_cons; auto.
  - intros j1 j2 va [->|H1]%elem_of_cons [->|H2]%elem_of_cons I1 I2; try done;
      [by destruct (Hfresh j2 va)|by destruct (Hfresh j1 va)|by eapply M4].
  - intros j va [->|Hj]%elem_of_cons Hc Hj'.
    + destruct (Hin va Hc Hj') as [E1 E2]. split; [done|]. rewrite <- E1. symmetry. apply M6; [done|].
      intros j Hj Hx. by apply (Hfresh j va).
    + rewrite Hout; [by apply M5|done|]. intros Hi. by apply (Hfresh j va).
  - intros va Hc Hn. rewrite Hout; [|done|apply Hn; left]. apply M6; [done|].
    intros j Hj. apply Hn. by right.
Qed.

Lemma mirrors_unmap l i s s' :
  mirrors (i :: l) s -> (exists T, ok T s') ->
  (forall va, canonical va ->
     leaf s' va = if decide (i.(in_virtual) <= va < i.(in_virtual) + i.(in_length)) then None
                  else leaf s va) ->
  mirrors l s'.
Proof.
  intros [M1 M2 M3 M4 M5 M6] Hok Hlf. apply NoDup_cons in M2 as [Hni Hnd].
  assert (forall j va, j ∈ l -> in_intent j va -> ~ in_intent i va) as Hother.
  { intros j va Hj I1 I2. destruct Hni. rewrite (M4 i j va); [done|left|by right|done|done]. }
  split; [done|done| | | |].
  - intros j Hj. apply M3. by right.
  - intros j1 j2 va H1 H2. apply M4; by right.
  - intros j va Hj Hc Hin. rewrite (Hlf va Hc).
    rewrite decide_False by (by apply (Hother j va)). apply M5; [by right|done|done].
  - intros va Hc Hn. rewrite (Hlf va Hc). case_decide as Hi.
    + destruct (M5 i va) as [_ ->]; [left|done|done|done].
    + apply M6; [done|]. intros j [->|Hj]%elem_of_cons; [done|by apply Hn].
Qed.
End mirror.

Definition with_permissions (i : supervisor_mapping_intent) (perms : Z)
  : supervisor_mapping_intent :=
  MkIntent i.(in_virtual) i.(in_physical) i.(in_length) perms.

(** New flags on a leaf of the intent make the leaf of the new intent. *)
Lemma reflag_intent_leaf i perms va :
  good_intent i -> canonical va -> in_intent i va ->
  reflag (permissions_to_flags perms) <$> intent_leaf i va =
  intent_leaf (with_permissions i perms) va.
Proof.
  intros G Hc Hin. pose proof (intent_half i G) as Hh. pose proof (gi_range _ G) as V.
  destruct (range_page _ _ 1 va V Hh Hc Hin) as (off & Hoff & _ & Eo).
  unfold intent_leaf. cbn [in_virtual in_physical in_permissions with_permissions fmap
    option_fmap option_map].
  replace (va - in_virtual i - va mod level_page_size 1) with off by lia.
  destruct (page_frame _ _ _ 1 off V (ma_pa _ _ _ _ (gi_args _ G)) (gi_aligned _ G) (gi_limit _ G)
    Hoff) as (Hf & _). unfold reflag. cbn [fst snd]. do 2 f_equal. unfold page_value.
  change (1 >? 1) with false. cbv iota.
  by rewrite frame_of_lor by (done || apply flags_no_frame).
Qed.

Section steps.
Context {F : Type} `{TableFramesLaws F}.
Context (base : Z -> option (Z * Z)).
Implicit Types (s : space F) (i : supervisor_mapping_intent) (p : paging F).

Lemma mirrors_protect l i perms T s s' :
  mirrors base (i :: l) s -> validate_permissions perms = PAGING_STATUS_OK ->
  reprotected i.(in_virtual) perms (offsets i.(in_length) PAGING_PAGE_SIZE) T s s' ->
  mirrors base (with_permissions i perms :: l) s'.
Proof.
  intros M Hperm R. assert (good_intent i) as G by (apply (mr_good _ _ _ M); left).
  pose proof (intent_half i G) as Hh. pose proof (gi_range _ G) as V.
  assert (forall va, canonical va -> leaf s' va =
    if decide (in_virtual i <= va < in_virtual i + in_length i)
    then intent_leaf (with_permissions i perms) va else leaf s va) as Hlf.
  { intros va Hc. rewrite (rp_leaf _ _ _ _ _ _ R). rewrite page_size_1.
    pose proof (covered_range _ _ 1 V Hh va Hc) as Hcov.
    destruct (decide (in_virtual i <= va < in_virtual i + in_length i)) as [Hr|Hr].
    - rewrite decide_True by (by apply Hcov).
      destruct (mr_here _ _ _ M i va) as [-> _]; [left|done|done|]. by apply reflag_intent_leaf.
    - by rewrite decide_False by (by rewrite Hcov). }
  destruct M as [M1 M2 M3 M4 M5 M6]. apply NoDup_cons in M2 as [Hni Hnd].
  assert (forall j va, j ∈ l -> in_intent j va -> ~ in_intent i va) as Hother.
  { intros j va Hj I1 I2. destruct Hni. rewrite (M4 i j va); [done|left|by right|done|done]. }
  split; [exists T; apply R| | | | |].
  - constructor; [|done]. intros Hw. apply (Hother _ (in_virtual i) Hw);
      unfold in_intent; cbn; destruct V; lia.
  - intros j [->|Hj]%elem_of_cons; [|apply M3; by right]. destruct G. by split.
  - intros j1 j2 va [->|H1]%elem_of_cons [->|H2]%elem_of_cons I1 I2; try done.
    + by destruct (Hother j2 va H2 I2).
    + by destruct (Hother j1 va H1 I1).
    + apply (M4 j1 j2 va); [by right|by right|done|done].
  - intros j va [->|Hj]%elem_of_cons Hc Hin; rewrite (Hlf va Hc).
    + rewrite decide_True by done. split; [done|]. apply (M5 i va); [left|done|done].
    + rewrite decide_False by (by apply (Hother j va)). apply M5; [by right|done|done].
  - intros va Hc Hn. rewrite (Hlf va Hc).
    rewrite decide_False by (apply (Hn (with_permissions i perms)); left).
    apply M6; [done|]. intros j [->|Hj]%elem_of_cons; [|apply Hn; by right].
    apply (Hn (with_permissions i perms)). left.
Qed.

(** The interface's state: what holds of it between calls. *)
Record inv p : Prop := {
  inv_active : p.(active) = true;
  inv_capacity : zlength p.(supervisor_intents) <= PAGING_SUPERVISOR_INTENT_CAPACITY;
  inv_mirrors : mirrors base p.(supervisor_intents) p.(live_space);
  inv_frames : p.(state_table_frames) = p.(live_space).(hier).(table_frames)
}.

Definition recorded p (va len : Z) : Prop :=
  Exists (fun i => i.(in_virtual) = va /\ i.(in_length) = len) p.(supervisor_intents).

#[export] Instance recorded_dec p va len : Decision (recorded p va len).
Proof. unfold recorded. apply _. Defined.

(** Any call of the interface. *)
Inductive call : Type :=
| Map (va pa len perms : Z)
| Unmap (va len : Z)
| Protect (va len perms : Z).

Definition call_args (c : call) : Prop :=
  match c with
  | Map va pa len _ => map_args va pa len 1
  | Unmap va len | Protect va len _ => is_u64 va /\ is_u64 len
  end.

Definition run_call (c : call) p : paging_status * paging F :=
  match c with
  | Map va pa len perms => paging_map va pa len perms p
  | Unmap va len => paging_unmap va len p
  | Protect va len perms => paging_protect va len perms p
  end.

Definition run_calls (h : list call) p : paging F := foldl (fun p c => (run_call c p).2) p h.

(** A call that succeeds on a range the registry does not list. *)
Definition strays (c : call) p : Prop :=
  match c with
  | Map _ _ _ _ => False
  | Unmap va len | Protect va len _ => is_ok (run_call c p).1 = true /\ ~ recorded p va len
  end.

#[export] Instance strays_dec c p : Decision (strays c p).
Proof. destruct c; apply _. Defined.

Lemma paging_map_inv p va pa len perms :
  inv p -> map_args va pa len 1 ->
  let '(st, p') := paging_map va pa len perms p in
  inv p' /\
  (is_ok st = false -> p'.(supervisor_intents) = p.(supervisor_intents) /\
     forall va', leaf p'.(live_space) va' = leaf p.(live_space) va') /\
  (is_ok st = true ->
     p'.(supervisor_intents) = p.(supervisor_intents) ++ [MkIntent va pa len perms]).
Proof.
  intros [Ia Ic Im If] Ha. destruct (mr_ok _ _ _ Im) as [T Hok]. unfold paging_map. rewrite Ia.
  cbn [negb]. pose proof (map_range_spec va pa len perms 1 T p.(live_space) Hok Ha) as Hm.
  destruct (map_range va pa len perms 1 p.(live_space)) as [st s'] eqn:Em.
  destruct (is_ok st) eqn:Est.
  - apply bool_decide_eq_true in Est. subst st. destruct Hm as (Hperm & V & Hal & Hlim & M).
    assert (good_intent (MkIntent va pa len perms)) as G by (by split).
    unfold supervisor_intent_add. destruct (zlength _ =? _) eqn:Ecap.
    + change (is_ok PAGING_STATUS_SUPERVISOR_INTENT_FULL) with false. cbn [negb].
      destruct (map_then_unmap T p.(live_space) va pa len perms s' Hok Ha Em)
        as (s2 & T2 & -> & Hsame & Hok2 & _). cbn [snd].
      split_and!; [|by split|done]. split; cbn; try done.
      apply (mirrors_same base _ p.(live_space)); eauto.
    + change (is_ok PAGING_STATUS_OK) with true. cbn [negb]. apply Z.eqb_neq in Ecap.
      split_and!; [|done|done]. split; cbn; try done.
      * rewrite zlength_app. unfold zlength in *. cbn. lia.
      * eapply mirrors_perm; [apply Permutation_cons_append|].
        by eapply (mirrors_map base _ (MkIntent va pa len perms)).
  - cbn [snd]. rewrite Est.
    assert ((exists T', ok T' s') /\ forall va', leaf s' va' = leaf p.(live_space) va')
      as [Hok' Hsame].
    { destruct st; [by vm_compute in Est|..];
        first [rewrite Hm; split; [by exists T|reflexivity]|split; apply Hm]. }
    split_and!; [|by intros _; split|done].
    split; cbn; try done. apply (mirrors_same base _ p.(live_space)); auto.
Qed.
(** The entry a whole-range call finds, and the rest of the registry. *)
Lemma recorded_entry p va len :
  inv p -> recorded p va len ->
  let index := supervisor_intent_find p.(supervisor_intents) va len in
  (index =? SIZE_MAX) = false /\ 0 <= index < zlength p.(supervisor_intents) /\
  let i := aget no_intent p.(supervisor_intents) index in
  i.(in_virtual) = va /\ i.(in_length) = len /\
  p.(supervisor_intents) ≡ₚ i :: delete (Z.to_nat index) p.(supervisor_intents).
Proof.
  intros Hi (j & Hj & E1 & E2)%Exists_exists.
  destruct (supervisor_intent_find_spec p.(supervisor_intents) va len (inv_capacity _ Hi))
    as [[_ Hno]|(Hne & Hr & Hva & Hlen)]; [by destruct (Hno j Hj)|].
  split; [done|]. split; [done|]. cbv zeta. split; [done|]. split; [done|].
  by apply delete_Permutation, lookup_aget.
Qed.

Lemma paging_unmap_inv p va len :
  inv p -> recorded p va len ->
  let '(st, p') := paging_unmap va len p in
  inv p' /\ p'.(live_space) = (unmap_range va len p.(live_space)).2.
Proof.
  intros Hi Hrec. destruct (recorded_entry p va len Hi Hrec) as (Hne & Hr & Hva & Hlen & Hp).
  destruct Hi as [Ia Ic Im If]. unfold paging_unmap. rewrite Ia, Hne. cbn [negb].
  set (index := supervisor_intent_find _ va len) in *.
  set (i := aget no_intent _ index) in *.
  assert (good_intent i) as G by (apply (mr_good _ _ _ Im); rewrite Hp; left).
  destruct (mr_ok _ _ _ Im) as [T Hok]. destruct (gi_args _ G) as [W1 _ W2 _].
  rewrite Hva, Hlen in *.
  pose proof (unmap_range_spec va len T p.(live_space) Hok W1 W2) as Hu.
  destruct (unmap_range va len p.(live_space)) as [st s'].
  destruct (is_ok st) eqn:Est; cbn [andb]; (split; [|done]).
  - destruct Hu as (V & _ & T' & W).
    rewrite supervisor_intent_remove_delete by done. split; cbn; try done.
    + unfold zlength in *. rewrite length_delete; [lia|]. apply lookup_lt_is_Some. lia.
    + apply (mirrors_unmap base _ i p.(live_space)); [by eapply mirrors_perm|exists T'; apply W|].
      intros va' Hc. rewrite (wp_leaf _ _ _ _ _ _ _ W), Hva, Hlen, page_size_1.
      pose proof (intent_half i G) as Hh. rewrite Hva, Hlen in Hh.
      pose proof (covered_range va len 1 V Hh va' Hc) as Hcov.
      repeat case_decide; tauto.
  - change (s' = p.(live_space)) in Hu. subst s'. by split.
Qed.

Lemma paging_protect_inv p va len perms :
  inv p -> recorded p va len ->
  let '(st, p') := paging_protect va len perms p in
  inv p' /\ p'.(live_space) = (protect_range va len perms p.(pat_after) p.(live_space)).2.
Proof.
  intros Hi Hrec. destruct (recorded_entry p va len Hi Hrec) as (Hne & Hr & Hva & Hlen & Hp).
  destruct Hi as [Ia Ic Im If]. unfold paging_protect. rewrite Ia, Hne. cbn [negb].
  set (index := supervisor_intent_find _ va len) in *.
  set (i := aget no_intent _ index) in *.
  assert (good_intent i) as G by (apply (mr_good _ _ _ Im); rewrite Hp; left).
  destruct (mr_ok _ _ _ Im) as [T Hok]. destruct (gi_args _ G) as [W1 _ W2 _].
  rewrite Hva, Hlen in *.
  pose proof (protect_range_spec va len perms p.(pat_after) T p.(live_space) Hok W1 W2) as Hpr.
  destruct (protect_range va len perms p.(pat_after) p.(live_space)) as [st s'].
  destruct (is_ok st) eqn:Est; cbn [andb]; (split; [|done]).
  - destruct Hpr as (Hperm & V & _ & R). split; cbn; try done.
    + by rewrite zlength_aset.
    + change (MkIntent i.(in_virtual) i.(in_physical) i.(in_length) perms)
        with (with_permissions i perms). rewrite <- Hva, <- Hlen.
      apply (mirrors_perm base
        (with_permissions i perms :: delete (Z.to_nat index) p.(supervisor_intents))).
      * symmetry. unfold aset.
        assert (Z.to_nat index < length p.(supervisor_intents))%nat as Hlt
          by (unfold zlength in Hr; lia).
        rewrite (delete_Permutation (<[Z.to_nat index := with_permissions i perms]> _)
          (Z.to_nat index) (with_permissions i perms)) by (by apply list_lookup_insert_eq).
        apply Permutation_cons; [done|]. rewrite !delete_take_drop.
        by rewrite take_insert_ge, drop_insert_lt by lia.
      * eapply mirrors_protect; [by eapply mirrors_perm|done|]. by rewrite Hva, Hlen.
    + by rewrite (rp_hier _ _ _ _ _ _ R).
  - change (s' = p.(live_space)) in Hpr. subst s'. by split.
Qed.

(** The registry does not list the range: nothing is found. *)
Lemma unrecorded_entry p va len :
  inv p -> ~ recorded p va len ->
  (supervisor_intent_find p.(supervisor_intents) va len =? SIZE_MAX) = true.
Proof.
  intros Hi Hn.
  destruct (supervisor_intent_find_spec p.(supervisor_intents) va len (inv_capacity _ Hi))
    as [[-> _]|(_ & Hr & Hva & Hlen)]; [done|]. destruct Hn.
  apply Exists_exists. eexists. split; [|by split].
  eapply list_elem_of_lookup_2, lookup_aget. exact Hr.
Qed.

(** A call that left the registry alone keeps the mirror exactly when it left
    the translations alone. *)
Lemma inv_untouched p p' :
  inv p -> p'.(supervisor_intents) = p.(supervisor_intents) -> p'.(active) = p.(active) ->
  (exists T, ok T p'.(live_space)) ->
  p'.(state_table_frames) = p'.(live_space).(hier).(table_frames) ->
  inv p' <-> forall va, canonical va -> leaf p'.(live_space) va = leaf p.(live_space) va.
Proof.
  intros [Ia Ic Im If] El Ea Hok Ef. split.
  - intros [_ _ Im' _] va Hc. rewrite El in Im'. by eapply mirrors_determined.
  - intros Hsame. split; [congruence|by rewrite El| |done]. rewrite El.
    by eapply mirrors_same.
Qed.

(** An unmap that succeeds changes the first page of its range. *)
Lemma unmap_changes T s va len T' s' :
  vrange va len 1 -> all_mapped s va (offsets len PAGING_PAGE_SIZE) ->
  wiped va 1 (offsets len PAGING_PAGE_SIZE) T T' s s' ->
  exists va', canonical va' /\ leaf s' va' <> leaf s va'.
Proof.
  intros V Hall W. destruct V as [Hva _ Hpos _ _ _ Hc _].
  assert (0 ∈ offsets len PAGING_PAGE_SIZE) as Hz.
  { apply elem_of_offsets. exists 0. split; [|lia]. split; [lia|].
    unfold PAGING_PAGE_SIZE. Z.to_euclidean_division_equations; lia. }
  destruct (Hall 0 Hz) as (e & He). rewrite Z.add_0_r, u64_small in He by done.
  exists va. split; [done|]. rewrite (wp_leaf _ _ _ _ _ _ _ W), He, decide_True; [done|].
  apply Exists_exists. exists 0. split; [done|]. by rewrite Z.add_0_r, u64_small.
Qed.

(** A call that does not stray keeps the mirror; one that does keeps it exactly
    when it changed no translation, and an unmap always changes one. *)
Lemma run_call_exact p c :
  inv p -> call_args c ->
  let p' := (run_call c p).2 in
  (~ strays c p -> inv p') /\
  (strays c p ->
     (inv p' <-> forall va, canonical va -> leaf p'.(live_space) va = leaf p.(live_space) va) /\
     match c with Unmap _ _ => ~ inv p' | _ => True end).
Proof.
  intros Hi Ha. pose proof Hi as [Ia Ic Im If]. destruct (mr_ok _ _ _ Im) as [T Hok].
  destruct c as [va pa len perms|va len|va len perms]; cbn [run_call strays call_args] in *.
  - pose proof (paging_map_inv p va pa len perms Hi Ha) as Hm.
    destruct (paging_map va pa len perms p). split; [intros _; apply Hm|done].
  - destruct Ha as [W1 W2]. destruct (decide (recorded p va len)) as [Hr|Hr].
    { pose proof (paging_unmap_inv p va len Hi Hr) as Hm.
      destruct (paging_unmap va len p). split; [intros _; apply Hm|by intros [_ ?]]. }
    unfold paging_unmap. rewrite Ia, (unrecorded_entry p va len Hi Hr). cbn [negb].
    pose proof (unmap_range_spec va len T p.(live_space) Hok W1 W2) as Hu.
    destruct (unmap_range va len p.(live_space)) as [st s']. rewrite andb_false_r. cbn [fst snd].
    destruct (is_ok st) eqn:Est.
    + destruct Hu as (V & Hall & T' & W). split; [by intros []|]. intros _.
      assert (inv (set_space p s' p.(supervisor_intents)) <->
        forall va, canonical va -> leaf s' va = leaf p.(live_space) va) as E.
      { apply (inv_untouched p); try done. exists T'. apply W. }
      split; [done|]. rewrite E. intros Hs.
      destruct (unmap_changes _ _ _ _ _ _ V Hall W) as (va' & Hc & Hne). by destruct (Hne (Hs va' Hc)).
    + cbv zeta in Hu. subst s'. split; [intros _|by intros [? _]].
      apply (inv_untouched p); try done. by exists T.
  - destruct Ha as [W1 W2]. destruct (decide (recorded p va len)) as [Hr|Hr].
    { pose proof (paging_protect_inv p va len perms Hi Hr) as Hm.
      destruct (paging_protect va len perms p). split; [intros _; apply Hm|by intros [_ ?]]. }
    unfold paging_protect. rewrite Ia, (unrecorded_entry p va len Hi Hr). cbn [negb].
    pose proof (protect_range_spec va len perms p.(pat_after) T p.(live_space) Hok W1 W2) as Hp.
    destruct (protect_range va len perms p.(pat_after) p.(live_space)) as [st s']. rewrite andb_false_r. cbn [fst snd].
    destruct (is_ok st) eqn:Est.
    + destruct Hp as (_ & _ & _ & R). split; [by intros []|]. intros _. split; [|done].
      apply (inv_untouched p); try done; [exists T; apply R|by cbn; rewrite (rp_hier _ _ _ _ _ _ R)].
    + cbv zeta in Hp. subst s'. split; [intros _|by intros [? _]].
      apply (inv_untouched p); try done. by exists T.
Qed.

(** ** Rebuilding *)

(** On 4 KiB pages nothing mapped means room. *)
Lemma map_intent_room T s i :
  ok T s -> good_intent i -> (forall va, canonical va -> in_intent i va -> leaf s va = None) ->
  let '(st, s') := map_range i.(in_virtual) i.(in_physical) i.(in_length) i.(in_permissions) 1 s in
  if is_ok st then mapped i.(in_virtual) i.(in_physical) i.(in_length) i.(in_permissions) 1 T s s'
  else st = PAGING_STATUS_OUT_OF_FRAMES \/ st = PAGING_STATUS_PHYSICAL_TOO_WIDE.
Proof.
  intros Hok G Hno. pose proof (intent_half i G) as Hh. destruct G as [V [W1 W2 W3 _] Hal Hlim Hperm].
  unfold map_range. rewrite Hperm. change (is_ok PAGING_STATUS_OK) with true. cbn [negb].
  pose proof V as Ev. apply (validate_virtual_range_ok _ _ 1 W1 W3 ltac:(lia)) in Ev. rewrite Ev.
  change (is_ok PAGING_STATUS_OK) with true. cbn [negb].
  assert (validate_physical_range i.(in_physical) i.(in_length) (level_page_size 1) =
    PAGING_STATUS_OK) as Ep by (apply validate_physical_range_ok; done || lia).
  rewrite Ep. change (is_ok PAGING_STATUS_OK) with true. cbn [negb].
  assert (forall off, off ∈ offsets i.(in_length) (level_page_size 1) ->
    leaf s (u64 (i.(in_virtual) + off)) = None) as Hoff.
  { intros off Hin. destruct (range_offset _ _ 1 V Hh off Hin) as (H1 & H2 & -> & Hc).
    apply Hno; [done|]. unfold in_intent. pose proof (page_size_pos 1 ltac:(lia)). lia. }
  pose proof (check_unmapped_spec T s i.(in_virtual) i.(in_length) 1 Hok ltac:(lia)) as Hchk.
  cbv zeta in Hchk.
  destruct (is_ok (check_unmapped i.(in_virtual) i.(in_length) 1 s)) eqn:Ec; cbn [negb].
  - apply bool_decide_eq_true in Ec.
    pose proof (map_loop_spec i.(in_virtual) i.(in_physical) i.(in_length) i.(in_permissions) 1
      T s Hok V Hh Ec) as Hloop.
    destruct (for_each _ _ s) as [s'|[st s']]; [done|]. destruct Hloop as [_ Hst].
    destruct (is_ok st) eqn:E; [|done]. apply bool_decide_eq_true in E. subst st. by destruct Hst.
  - exfalso. unfold map_refusal in Hchk. destruct (check_unmapped _ _ _ s); try done.
    + destruct Hchk as (off & t & Hin & Hl & Hp). specialize (Hoff off Hin).
      rewrite (leaf_here T s t _ (ok_tree _ _ Hok) Hl) in Hoff. cbv zeta in Hoff.
      by rewrite Hp in Hoff.
    + destruct Hchk as (off & l & e & Hin & Hlf & _). by rewrite (Hoff off Hin) in Hlf.
Qed.

Lemma replay_spec l s0 :
  (exists T, ok T s0) -> (forall va, canonical va -> leaf s0 va = base va) ->
  NoDup l -> (forall i, i ∈ l -> good_intent i) ->
  (forall i j va, i ∈ l -> j ∈ l -> in_intent i va -> in_intent j va -> i = j) ->
  (forall i va, i ∈ l -> canonical va -> in_intent i va -> base va = None) ->
  let '(st, s1) := replay_supervisor_intent l s0 in
  if is_ok st then mirrors base l s1
  else st = PAGING_STATUS_OUT_OF_FRAMES \/ st = PAGING_STATUS_PHYSICAL_TOO_WIDE.
Proof.
  intros Hok0 Hbase Hnd Hgood Hap Hnone. unfold replay_supervisor_intent.
  match goal with |- context [for_each ?b l s0] => set (body := b) end.
  pose proof (for_each_inv (fun rest s => exists d, l ≡ₚ d ++ rest /\ mirrors base d s)
    (fun '(st, _) => st = PAGING_STATUS_OUT_OF_FRAMES \/ st = PAGING_STATUS_PHYSICAL_TOO_WIDE)
    body l s0) as Hloop.
  assert (forall i rest s, (exists d, l ≡ₚ d ++ i :: rest /\ mirrors base d s) ->
    match body i s with
    | Next s' => exists d, l ≡ₚ d ++ rest /\ mirrors base d s'
    | Return r => let '(st, _) := r in
        st = PAGING_STATUS_OUT_OF_FRAMES \/ st = PAGING_STATUS_PHYSICAL_TOO_WIDE
    end) as Hstep.
  { intros i rest s (d & Hp & M). destruct (mr_ok _ _ _ M) as [T Hok].
    assert (i ∈ l) as Hi by (rewrite Hp; set_solver).
    assert (forall j, j ∈ d -> j ∈ l) as Hd by (intros; rewrite Hp; set_solver).
    assert (i ∉ d) as Hni.
    { rewrite Hp in Hnd. apply NoDup_app in Hnd as (_ & Hx & _). intros Hj. apply (Hx i Hj). left. }
    pose proof (map_intent_room T s i Hok (Hgood i Hi)) as Hm. unfold body.
    destruct (map_range _ _ _ _ 1 s) as [st s'].
    assert (forall va, canonical va -> in_intent i va -> leaf s va = None) as Hfree.
    { intros va Hc Hin. rewrite (mr_else _ _ _ M va Hc); [by apply (Hnone i)|].
      intros j Hj Hin'. destruct Hni. by rewrite (Hap i j va); auto. }
    specialize (Hm Hfree). destruct (is_ok st); cbn [negb]; [|done].
    exists (i :: d). split; [|by eapply mirrors_map; [apply Hgood| |]].
    rewrite Hp. cbn. symmetry. apply Permutation_middle. }
  assert (exists d, l ≡ₚ d ++ l /\ mirrors base d s0) as Hstart.
  { exists []. split; [done|]. split; [done|constructor| | | |].
    - by intros i ?%not_elem_of_nil.
    - by intros i j va ?%not_elem_of_nil.
    - by intros i va ?%not_elem_of_nil.
    - intros va Hc _. by apply Hbase. }
  specialize (Hloop Hstep Hstart).
  destruct (for_each body l s0) as [s1|[st s1]].
  - destruct Hloop as (d & Hp & M). rewrite app_nil_r in Hp. change (is_ok PAGING_STATUS_OK) with true.
    cbv iota. by eapply mirrors_perm.
  - by destruct Hloop as [-> | ->]; [left|right].
Qed.

End steps.

(** * Theorems *)

Section theorems.
Context {F : Type} `{TableFramesLaws F}.
Implicit Types (s : space F) (p : paging F).

(** The interface right after paging_initialize: nothing recorded yet. *)
Record started p : Prop := {
  st_active : p.(active) = true;
  st_intents : p.(supervisor_intents) = [];
  st_ok : exists T, ok T p.(live_space);
  st_frames : p.(state_table_frames) = p.(live_space).(hier).(table_frames)
}.

Lemma started_inv p : started p -> inv (leaf p.(live_space)) p.
Proof.
  intros [Ha Hi Hok Hf]. split; [done|by rewrite Hi| |done]. rewrite Hi.
  split; [done|constructor| | | |done].
  - by intros i ?%not_elem_of_nil.
  - by intros i j va ?%not_elem_of_nil.
  - by intros i va ?%not_elem_of_nil.
Qed.

(** Some call of the history strayed. *)
Definition strayed (h : list call) p : Prop :=
  exists before c after, h = (before ++ c :: after)%list /\ strays c (run_calls before p).

Lemma run_calls_inv base h : forall p,
  inv base p -> Forall call_args h -> inv base (run_calls h p) \/ strayed h p.
Proof.
  induction h as [|c h IH]; intros p Hi Ha; [by left|]. inversion_clear Ha as [|? ? Hc Hh].
  destruct (decide (strays c p)) as [Hs|Hs]; [right; by exists [], c, h|].
  apply (run_call_exact base p c Hi Hc) in Hs.
  destruct (IH (run_call c p).2 Hs Hh) as [Hi'|(before & c' & after & -> & Hs')]; [by left|].
  right. by exists (c :: before), c', after.
Qed.

(** C10 (invariant): after any calls of the interface, refused calls and calls on
    any range included, either the registry lists disjoint ranges, the live
    hierarchy maps each of them with the recorded physical address and
    permissions and nothing else but what it mapped at the start, and the
    reported number of table frames is the hierarchy's; or some call strayed: an
    unmap or a protect succeeded on a range the registry does not list. A call
    that strays breaks the mirror exactly when it changes a translation, and an
    unmap always does. *)
Theorem paging_mirrors_intents p0 h :
  started p0 -> Forall call_args h ->
  let base := leaf p0.(live_space) in
  let p := run_calls h p0 in
  (inv base p \/ strayed h p0) /\
  (inv base p -> forall c, call_args c -> strays c p ->
     let p' := (run_call c p).2 in
     (inv base p' <->
        forall va, canonical va -> leaf p'.(live_space) va = leaf p.(live_space) va) /\
     match c with Unmap _ _ => ~ inv base p' | _ => True end).
Proof.
  intros Hs Ha base p. split; [by apply run_calls_inv; [apply started_inv|]|].
  intros Hi c Hc. by apply run_call_exact.
Qed.

(** C11 (equivalence): after any calls none of which strayed (an unmap or a
    protect of part of a recorded range strays, as does one of a range the boot
    mapped), replaying the registry into a second hierarchy that has only what
    the live one had at the start either runs out of table frames or gives
    every address the translation it has in the live hierarchy. *)
Theorem replay_reproduces_live p0 h s0 st s1 pat :
  started p0 -> Forall call_args h -> ~ strayed h p0 ->
  (exists T, ok T s0) ->
  (forall va, canonical va -> leaf s0 va = leaf p0.(live_space) va) ->
  let p := run_calls h p0 in
  replay_supervisor_intent p.(supervisor_intents) s0 = (st, s1) ->
  if is_ok st then
    forall va, canonical va -> translate_address va pat s1 = translate_address va pat p.(live_space)
  else st = PAGING_STATUS_OUT_OF_FRAMES \/ st = PAGING_STATUS_PHYSICAL_TOO_WIDE.
Proof.
  intros Hs Ha Hn Hok0 Hbase p E.
  destruct (run_calls_inv _ h p0 (started_inv p0 Hs) Ha) as [[_ _ M _]|]; [|done]. fold p in M.
  pose proof M as [[T Hok] Hnd Hgood Hap Hhere Helse].
  pose proof (replay_spec (leaf p0.(live_space)) p.(supervisor_intents) s0 Hok0 Hbase Hnd Hgood Hap)
    as Hr. rewrite E in Hr. specialize (Hr (fun i va Hi Hc Hin => proj2 (Hhere i va Hi Hc Hin))).
  destruct (is_ok st); [|done]. intros va Hc. destruct (mr_ok _ _ _ Hr) as [T1 Hok1].
  rewrite (translate_leaf T1 s1 va pat Hok1 Hc), (translate_leaf T p.(live_space) va pat Hok Hc).
  f_equal. by eapply mirrors_determined.
Qed.

(** C12 (error): a paging_map that fails for any reason - a bad request, pages
    already mapped, no table frames half way, a full registry after the mapping
    was made - leaves every translation and the registry as they were. *)
Theorem paging_map_atomic base p va pa len perms st p' :
  inv base p -> map_args va pa len 1 ->
  paging_map va pa len perms p = (st, p') -> is_ok st = false ->
  p'.(supervisor_intents) = p.(supervisor_intents) /\
  forall va', canonical va' ->
    paging_translate va' true p' = paging_translate va' true p.
Proof.
  intros Hi Ha E Est. pose proof (paging_map_inv base p va pa len perms Hi Ha) as Hm.
  rewrite E in Hm. destruct Hm as (Hi' & Hbad & _). destruct (Hbad Est) as [Hint Hlf].
  split; [done|]. intros va' Hc. unfold paging_translate.
  rewrite (inv_active _ _ Hi), (inv_active _ _ Hi'). cbn [negb].
  destruct (mr_ok _ _ _ (inv_mirrors _ _ Hi)) as [T Hok].
  destruct (mr_ok _ _ _ (inv_mirrors _ _ Hi')) as [T' Hok'].
  rewrite (translate_leaf T _ _ _ Hok Hc), (translate_leaf T' _ _ _ Hok' Hc), Hlf.
  assert (p'.(pat_after) = p.(pat_after)) as ->; [|done].
  clear -E. unfold paging_map in E.
  destruct (negb (active p)); [by injection E as _ <-|].
  destruct (map_range va pa len perms 1 (live_space p)) as [st1 s1].
  destruct (is_ok st1); [|by injection E as _ <-].
  destruct (supervisor_intent_add _ va pa len perms) as [st2 l2].
  destruct (negb (is_ok st2)); by injection E as _ <-.
Qed.
End theorems.

(** * A sample client *)

#[local] Existing Instance PhysicalMemory.small_layout.

Definition sample_paging : paging PhysicalMemory.allocator :=
  MkPaging (activate sample_space) [] true sample_pat 1.
Definition sample_mapped_paging : paging PhysicalMemory.allocator :=
  (paging_map sample_va sample_pa 0x2000 PAGING_WRITE sample_paging).2.
Definition sample_protected : paging PhysicalMemory.allocator :=
  (paging_protect sample_va 0x2000 PAGING_READ sample_mapped_paging).2.

Lemma sample_started : started sample_paging.
Proof.
  split; [done|done| |vm_compute; reflexivity].
  destruct sample_space_ok as (T & Hok & _). exists T. by apply activate_spec.
Qed.

Lemma sample_call_args : map_args sample_va sample_pa 0x2000 1.
Proof. split; unfold is_u64, UINT64_MAX, sample_va, sample_pa; lia. Qed.

Lemma sample_intents : supervisor_intents sample_mapped_paging =
  [MkIntent sample_va sample_pa 0x2000 PAGING_WRITE].
Proof. vm_compute. reflexivity. Qed.

Definition sample_history : list call :=
  [Map sample_va sample_pa 0x2000 PAGING_WRITE; Protect sample_va 0x2000 PAGING_READ].

Lemma sample_history_args : Forall call_args sample_history.
Proof.
  constructor; [apply sample_call_args|]. constructor; [|constructor].
  split; unfold is_u64, UINT64_MAX, sample_va; lia.
Qed.

Lemma sample_history_run : run_calls sample_history sample_paging = sample_protected.
Proof. reflexivity. Qed.

Lemma sample_stays : ~ strayed sample_history sample_paging.
Proof.
  intros (before & c & after & E & Hs). destruct before as [|c1 before].
  - injection E as <- _. exact Hs.
  - injection E as <- E. destruct before as [|c2 before].
    + injection E as <- _. destruct Hs as (_ & Hno). apply Hno.
      change (run_calls [Map sample_va sample_pa 0x2000 PAGING_WRITE] sample_paging)
        with sample_mapped_paging. unfold recorded. rewrite sample_intents. left. by split.
    + injection E as <- E. by destruct before.
Qed.

(** The whole range stays mirrored; unmapping one of its two pages strays. *)
Lemma paging_mirrors_intents_witness :
  inv (leaf (live_space sample_paging)) sample_protected /\
  is_ok (paging_unmap sample_va 0x1000 sample_protected).1 = true /\
  ~ inv (leaf (live_space sample_paging)) (paging_unmap sample_va 0x1000 sample_protected).2.
Proof.
  destruct (paging_mirrors_intents sample_paging sample_history sample_started sample_history_args)
    as [[Hi|Hs] Hstep]; [|destruct (sample_stays Hs)].
  rewrite sample_history_run in Hi, Hstep.
  assert (is_ok (paging_unmap sample_va 0x1000 sample_protected).1 = true) as Est
    by (vm_compute; reflexivity).
  split; [exact Hi|]. split; [exact Est|].
  apply (Hstep Hi (Unmap sample_va 0x1000)); [split; unfold is_u64, UINT64_MAX, sample_va; lia|].
  split; [exact Est|].
  assert (supervisor_intents sample_protected = [MkIntent sample_va sample_pa 0x2000 PAGING_READ])
    as El by (vm_compute; reflexivity).
  unfold recorded. rewrite El. intros Hx. inversion Hx as [? ? [_ E]|? ? Hx']; [discriminate E|].
  inversion Hx'.
Defined.

Lemma sample_space_sound : exists T, ok T sample_space.
Proof. destruct sample_space_ok as (T & Hok & _). by exists T. Qed.

Lemma sample_space_base : forall va, canonical va ->
  leaf sample_space va = leaf (live_space sample_paging) va.
Proof.
  intros va _. destruct sample_space_sound as [T Hok].
  symmetry. exact (proj2 (activate_spec T sample_space Hok) va).
Qed.

Lemma sample_replays :
  (replay_supervisor_intent (supervisor_intents sample_protected) sample_space).1 =
  PAGING_STATUS_OK.
Proof. vm_compute. reflexivity. Qed.

Lemma replay_reproduces_live_witness :
  translate_address (sample_va + 0x1040) sample_pat
    (replay_supervisor_intent (supervisor_intents sample_protected) sample_space).2 =
  translate_address (sample_va + 0x1040) sample_pat (live_space sample_protected).
Proof.
  exact (replay_reproduces_live sample_paging sample_history sample_space _ _ sample_pat
    sample_started sample_history_args sample_stays sample_space_sound sample_space_base
    (status_of _ sample_replays) _ sample_canonical).
Defined.

Lemma sample_protected_inv : inv (leaf (live_space sample_paging)) sample_protected.
Proof.
  destruct (run_calls_inv _ sample_history sample_paging (started_inv _ sample_started)
    sample_history_args) as [Hi|Hs]; [exact Hi|destruct (sample_stays Hs)].
Qed.

Lemma paging_map_atomic_witness :
  (paging_map sample_va sample_pa 0x1000 PAGING_WRITE sample_protected).1 =
    PAGING_STATUS_ALREADY_MAPPED /\
  supervisor_intents (paging_map sample_va sample_pa 0x1000 PAGING_WRITE sample_protected).2 =
    supervisor_intents sample_protected.
Proof.
  assert ((paging_map sample_va sample_pa 0x1000 PAGING_WRITE sample_protected).1 =
    PAGING_STATUS_ALREADY_MAPPED) as Est by (vm_compute; reflexivity).
  split; [exact Est|].
  assert (map_args sample_va sample_pa 0x1000 1) as Ha
    by (split; unfold is_u64, UINT64_MAX, sample_va, sample_pa; lia).
  destruct (paging_map sample_va sample_pa 0x1000 PAGING_WRITE sample_protected) as [st p'] eqn:E.
  cbn [fst] in Est. subst st.
  exact (proj1 (paging_map_atomic (leaf (live_space sample_paging)) sample_protected sample_va
    sample_pa 0x1000 PAGING_WRITE PAGING_STATUS_ALREADY_MAPPED p'
    (sample_protected_inv) Ha E eq_refl)).
Defined.

End Paging.
