(* ===== verification/BootLedger.v ===== *)
(** The boot ledger of src/src/kernel/boot_ledger.c: boot stages declare the
    capabilities they require and provide, a validator turns the declarations
    into one canonical order, an executor runs the stages in it and files a
    receipt for each, and an auditor checks the receipts against the plan.

    A stage's [execute] function pointer is a value of a type [E]; what calling
    it does is the parameter [run_stage] of the execution.  Enumerations whose
    out-of-range values the code checks for are integers, as in C. *)
From S2P Require Import Prelude.
From stdpp Require Import strings.

Open Scope Z_scope.

Module BootLedger.

(** * Constants *)

Definition BOOT_LEDGER_STAGE_CAPACITY : Z := 43.
Definition BOOT_LEDGER_RECEIPT_CAPACITY : Z := 43.
Definition BOOT_STAGE_CAPABILITY_CAPACITY : Z := 18.
Definition BOOT_STAGE_PROOF_COUNTER_CAPACITY : Z := 2.

Definition BOOT_FINGERPRINT_OFFSET : Z := 14695981039346656037.
Definition BOOT_FINGERPRINT_PRIME : Z := 1099511628211.
Definition BOOT_FINGERPRINT_VERSION : Z := 1.
Definition BOOT_NO_PROVIDER : Z := BOOT_LEDGER_STAGE_CAPACITY.

(** [enum boot_stage_id] *)
Definition BOOT_STAGE_INVALID : Z := 0.
Definition BOOT_STAGE_EARLY_SERIAL : Z := 1.
Definition BOOT_STAGE_INTERRUPT_FOUNDATION : Z := 2.
Definition BOOT_STAGE_PURE_SELF_TESTS : Z := 3.
Definition BOOT_STAGE_BOOT_INFORMATION : Z := 4.
Definition BOOT_STAGE_FIRMWARE_DISCOVERY : Z := 5.
Definition BOOT_STAGE_DEVICE_WINDOWS : Z := 6.
Definition BOOT_STAGE_INTERRUPT_CONTROLLERS : Z := 7.
Definition BOOT_STAGE_FRAME_ALLOCATOR : Z := 8.
Definition BOOT_STAGE_PAGING_INSTALL : Z := 9.
Definition BOOT_STAGE_PAGING_PROOFS : Z := 10.
Definition BOOT_STAGE_FRAMEBUFFER_WC : Z := 11.
Definition BOOT_STAGE_MEMORY_RUNTIME : Z := 12.
Definition BOOT_STAGE_FRAMEBUFFER_OUTPUT : Z := 13.
Definition BOOT_STAGE_KEYBOARD : Z := 14.
Definition BOOT_STAGE_SHELL : Z := 15.
Definition BOOT_STAGE_EARLY_SCENARIO : Z := 16.
Definition BOOT_STAGE_INTERRUPT_PROOFS : Z := 17.
Definition BOOT_STAGE_TIMER_ROUTING : Z := 18.
Definition BOOT_STAGE_TIMER_CALIBRATION : Z := 19.
Definition BOOT_STAGE_PCI : Z := 20.
Definition BOOT_STAGE_THREADING : Z := 21.
Definition BOOT_STAGE_SCHEDULER : Z := 22.
Definition BOOT_STAGE_CLOSING_PROOFS : Z := 23.
Definition BOOT_STAGE_UI_FONT : Z := 24.
Definition BOOT_STAGE_POINTER_DECISION : Z := 25.
Definition BOOT_STAGE_POINTER_OUTCOME : Z := 26.
Definition BOOT_STAGE_UI_LAYOUT : Z := 27.
Definition BOOT_STAGE_DESKTOP_CONSTRUCTION : Z := 28.
Definition BOOT_STAGE_DESKTOP_ACTIVATION : Z := 29.
Definition BOOT_STAGE_FIRST_LIGHT_PROOF : Z := 30.
Definition BOOT_STAGE_PCI_RESOURCE_FOUNDATION : Z := 31.
Definition BOOT_STAGE_DYNAMIC_VECTOR_FOUNDATION : Z := 32.
Definition BOOT_STAGE_DMA_FOUNDATION : Z := 33.
Definition BOOT_STAGE_DEVICE_SUBSTRATE_PROOF : Z := 34.
Definition BOOT_STAGE_XHCI_FOUNDATION : Z := 35.
Definition BOOT_STAGE_XHCI_DESCRIPTOR_PROOF : Z := 36.
Definition BOOT_STAGE_NVME_FOUNDATION : Z := 37.
Definition BOOT_STAGE_NVME_READ_PROOF : Z := 38.
Definition BOOT_STAGE_FAT16_FOUNDATION : Z := 39.
Definition BOOT_STAGE_FILESYSTEM_FILE_PROOF : Z := 40.
Definition BOOT_STAGE_PROCESS_ADDRESS_SPACE_FOUNDATION : Z := 41.
Definition BOOT_STAGE_ELF64_LOADER_FOUNDATION : Z := 42.
Definition BOOT_STAGE_PROCESS_INSTALLED_PROOF : Z := 43.
Definition BOOT_STAGE_COUNT : Z := 44.

(** [enum boot_capability] *)
Definition BOOT_CAPABILITY_INVALID : Z := 0.
Definition BOOT_CAPABILITY_EARLY_SERIAL_AVAILABLE : Z := 1.
Definition BOOT_CAPABILITY_BOOT_SELF_TESTS_COMPLETE : Z := 2.
Definition BOOT_CAPABILITY_BOOT_INFORMATION_VALIDATED : Z := 3.
Definition BOOT_CAPABILITY_PHYSICAL_FRAME_ALLOCATOR_AVAILABLE : Z := 4.
Definition BOOT_CAPABILITY_ACPI_ROOT_VALIDATED : Z := 5.
Definition BOOT_CAPABILITY_INTERRUPT_TOPOLOGY_DISCOVERED : Z := 6.
Definition BOOT_CAPABILITY_CLOCKS_DISCOVERED : Z := 7.
Definition BOOT_CAPABILITY_DEVICE_WINDOW_REGISTRY_VALIDATED : Z := 8.
Definition BOOT_CAPABILITY_PAGE_TABLES_INSTALLED : Z := 9.
Definition BOOT_CAPABILITY_WRITE_XOR_EXECUTE_PROVED : Z := 10.
Definition BOOT_CAPABILITY_INSTALLED_DEVICE_WINDOWS_PROVED : Z := 11.
Definition BOOT_CAPABILITY_HEAP_AVAILABLE : Z := 12.
Definition BOOT_CAPABILITY_IDT_INSTALLED : Z := 13.
Definition BOOT_CAPABILITY_INTERRUPT_CONTROLLERS_CONFIGURED : Z := 14.
Definition BOOT_CAPABILITY_INTERRUPTS_ENABLED : Z := 15.
Definition BOOT_CAPABILITY_INTERRUPT_ROUTING_PROVED : Z := 16.
Definition BOOT_CAPABILITY_TIMER_CALIBRATION_COMPLETE : Z := 17.
Definition BOOT_CAPABILITY_PCI_ACCESS_AVAILABLE : Z := 18.
Definition BOOT_CAPABILITY_FRAMEBUFFER_AVAILABILITY_DECIDED : Z := 19.
Definition BOOT_CAPABILITY_FRAMEBUFFER_WC_INDEPENDENTLY_PROVED : Z := 20.
Definition BOOT_CAPABILITY_FRAMEBUFFER_SERIAL_FALLBACK : Z := 21.
Definition BOOT_CAPABILITY_SURFACE_AVAILABLE : Z := 22.
Definition BOOT_CAPABILITY_THREADING_AVAILABLE : Z := 23.
Definition BOOT_CAPABILITY_SCHEDULER_AVAILABLE : Z := 24.
Definition BOOT_CAPABILITY_SHELL_AVAILABLE : Z := 25.
Definition BOOT_CAPABILITY_BOOT_PROOFS_COMPLETE : Z := 26.
Definition BOOT_CAPABILITY_FRAMEBUFFER_OUTPUT_INSTALLED : Z := 27.
Definition BOOT_CAPABILITY_KEYBOARD_AVAILABLE : Z := 28.
Definition BOOT_CAPABILITY_UI_FONT_VERIFIED : Z := 29.
Definition BOOT_CAPABILITY_POINTER_AVAILABILITY_DECIDED : Z := 30.
Definition BOOT_CAPABILITY_POINTER_INPUT_AVAILABLE : Z := 31.
Definition BOOT_CAPABILITY_POINTER_INPUT_ABSENT : Z := 32.
Definition BOOT_CAPABILITY_UI_LAYOUT_VALIDATED : Z := 33.
Definition BOOT_CAPABILITY_DESKTOP_SHELL_AVAILABLE : Z := 34.
Definition BOOT_CAPABILITY_DESKTOP_SHELL_ACTIVATED : Z := 35.
Definition BOOT_CAPABILITY_FIRST_LIGHT_INSTALLED_PROOF_COMPLETE : Z := 36.
Definition BOOT_CAPABILITY_PCI_RESOURCE_OWNERSHIP_AVAILABLE : Z := 37.
Definition BOOT_CAPABILITY_DYNAMIC_VECTOR_FOUNDATION_AVAILABLE : Z := 38.
Definition BOOT_CAPABILITY_DMA_FOUNDATION_AVAILABLE : Z := 39.
Definition BOOT_CAPABILITY_DEVICE_SUBSTRATE_INSTALLED_PROOF_COMPLETE : Z := 40.
Definition BOOT_CAPABILITY_DEVICE_SUBSTRATE_FIXTURE_ABSENT : Z := 41.
Definition BOOT_CAPABILITY_XHCI_FOUNDATION_AVAILABLE : Z := 42.
Definition BOOT_CAPABILITY_XHCI_DESCRIPTOR_PROOF_COMPLETE : Z := 43.
Definition BOOT_CAPABILITY_XHCI_FIXTURE_ABSENT : Z := 44.
Definition BOOT_CAPABILITY_NVME_FOUNDATION_AVAILABLE : Z := 45.
Definition BOOT_CAPABILITY_NVME_READ_PROOF_COMPLETE : Z := 46.
Definition BOOT_CAPABILITY_NVME_FIXTURE_ABSENT : Z := 47.
Definition BOOT_CAPABILITY_FAT16_FOUNDATION_AVAILABLE : Z := 48.
Definition BOOT_CAPABILITY_FILESYSTEM_FILE_PROOF_COMPLETE : Z := 49.
Definition BOOT_CAPABILITY_FILESYSTEM_FIXTURE_ABSENT : Z := 50.
Definition BOOT_CAPABILITY_PRIVATE_ONE_FILE_READ_AVAILABLE : Z := 51.
Definition BOOT_CAPABILITY_PROCESS_ADDRESS_SPACE_FOUNDATION_AVAILABLE : Z := 52.
Definition BOOT_CAPABILITY_ELF64_LOADER_FOUNDATION_AVAILABLE : Z := 53.
Definition BOOT_CAPABILITY_PROCESS_INSTALLED_PROOF_COMPLETE : Z := 54.
Definition BOOT_CAPABILITY_PROCESS_FIXTURE_ABSENT : Z := 55.
Definition BOOT_CAPABILITY_PROCESS_OUTCOME_DECIDED : Z := 56.
Definition BOOT_CAPABILITY_COUNT : Z := 57.

(** [enum boot_phase] *)
Definition BOOT_PHASE_FOUNDATION : Z := 0.
Definition BOOT_PHASE_DISCOVERY : Z := 1.
Definition BOOT_PHASE_CONTROLLERS : Z := 2.
Definition BOOT_PHASE_MEMORY_TRANSITION : Z := 3.
Definition BOOT_PHASE_RUNTIME : Z := 4.
Definition BOOT_PHASE_TIMERS : Z := 5.
Definition BOOT_PHASE_SERVICES : Z := 6.
Definition BOOT_PHASE_PROOFS : Z := 7.
Definition BOOT_PHASE_COUNT : Z := 8.

(** [enum boot_irreversible_class] *)
Definition BOOT_IRREVERSIBLE_NONE : Z := 0.
Definition BOOT_IRREVERSIBLE_PAT_CR3 : Z := 1.
Definition BOOT_IRREVERSIBLE_INTERRUPT_ENABLE : Z := 2.
Definition BOOT_IRREVERSIBLE_FRAMEBUFFER_OUTPUT : Z := 3.
Definition BOOT_IRREVERSIBLE_APIC_TIMER : Z := 4.
Definition BOOT_IRREVERSIBLE_SCHEDULER : Z := 5.
Definition BOOT_IRREVERSIBLE_COUNT : Z := 6.

(** [enum boot_receipt_result] *)
Definition BOOT_RECEIPT_RAN : Z := 0.
Definition BOOT_RECEIPT_SKIPPED : Z := 1.
Definition BOOT_RECEIPT_FAILED : Z := 2.
Definition BOOT_RECEIPT_RESULT_COUNT : Z := 3.

Inductive boot_ledger_status : Set :=
| BOOT_LEDGER_STATUS_OK
| BOOT_LEDGER_STATUS_NULL_ARGUMENT
| BOOT_LEDGER_STATUS_EMPTY_PLAN
| BOOT_LEDGER_STATUS_NOT_VALIDATED
| BOOT_LEDGER_STATUS_ALREADY_EXECUTED
| BOOT_LEDGER_STATUS_UNKNOWN_STAGE_IDENTIFIER
| BOOT_LEDGER_STATUS_UNKNOWN_CAPABILITY
| BOOT_LEDGER_STATUS_TOO_MANY_STAGES
| BOOT_LEDGER_STATUS_TOO_MANY_RECEIPTS
| BOOT_LEDGER_STATUS_TOO_MANY_STAGE_CAPABILITIES
| BOOT_LEDGER_STATUS_INVALID_NEUTRAL_SKIP
| BOOT_LEDGER_STATUS_DUPLICATE_STAGE
| BOOT_LEDGER_STATUS_DUPLICATE_CAPABILITY_REQUIREMENT
| BOOT_LEDGER_STATUS_DUPLICATE_CAPABILITY_PROVIDER
| BOOT_LEDGER_STATUS_MISSING_CAPABILITY_PROVIDER
| BOOT_LEDGER_STATUS_CAPABILITY_DEPENDENCY_CYCLE
| BOOT_LEDGER_STATUS_INVALID_PHASE_TRANSITION
| BOOT_LEDGER_STATUS_IRREVERSIBLE_STAGE_ORDERED_TOO_EARLY
| BOOT_LEDGER_STATUS_REQUIRED_STAGE_SKIPPED
| BOOT_LEDGER_STATUS_UNDECLARED_CAPABILITY_PROVIDED
| BOOT_LEDGER_STATUS_STAGE_EXECUTED_BEFORE_REQUIREMENTS
| BOOT_LEDGER_STATUS_REQUIRED_STAGE_FAILED
| BOOT_LEDGER_STATUS_OPTIONAL_STAGE_FAILED
| BOOT_LEDGER_STATUS_OPTIONAL_STAGE_SKIPPED
| BOOT_LEDGER_STATUS_RECEIPT_MISMATCH
| BOOT_LEDGER_STATUS_PLAN_FINGERPRINT_MISMATCH
| BOOT_LEDGER_STATUS_INSTALLED_PLAN_DIFFERS_VALIDATED_PLAN.

#[export] Instance boot_ledger_status_eq_dec : EqDecision boot_ledger_status.
Proof. solve_decision. Defined.

(** The number C gives a status, which the receipt fingerprint hashes. *)
Definition status_value (s : boot_ledger_status) : Z :=
  match s with
  | BOOT_LEDGER_STATUS_OK => 0
  | BOOT_LEDGER_STATUS_NULL_ARGUMENT => 1
  | BOOT_LEDGER_STATUS_EMPTY_PLAN => 2
  | BOOT_LEDGER_STATUS_NOT_VALIDATED => 3
  | BOOT_LEDGER_STATUS_ALREADY_EXECUTED => 4
  | BOOT_LEDGER_STATUS_UNKNOWN_STAGE_IDENTIFIER => 5
  | BOOT_LEDGER_STATUS_UNKNOWN_CAPABILITY => 6
  | BOOT_LEDGER_STATUS_TOO_MANY_STAGES => 7
  | BOOT_LEDGER_STATUS_TOO_MANY_RECEIPTS => 8
  | BOOT_LEDGER_STATUS_TOO_MANY_STAGE_CAPABILITIES => 9
  | BOOT_LEDGER_STATUS_INVALID_NEUTRAL_SKIP => 10
  | BOOT_LEDGER_STATUS_DUPLICATE_STAGE => 11
  | BOOT_LEDGER_STATUS_DUPLICATE_CAPABILITY_REQUIREMENT => 12
  | BOOT_LEDGER_STATUS_DUPLICATE_CAPABILITY_PROVIDER => 13
  | BOOT_LEDGER_STATUS_MISSING_CAPABILITY_PROVIDER => 14
  | BOOT_LEDGER_STATUS_CAPABILITY_DEPENDENCY_CYCLE => 15
  | BOOT_LEDGER_STATUS_INVALID_PHASE_TRANSITION => 16
  | BOOT_LEDGER_STATUS_IRREVERSIBLE_STAGE_ORDERED_TOO_EARLY => 17
  | BOOT_LEDGER_STATUS_REQUIRED_STAGE_SKIPPED => 18
  | BOOT_LEDGER_STATUS_UNDECLARED_CAPABILITY_PROVIDED => 19
  | BOOT_LEDGER_STATUS_STAGE_EXECUTED_BEFORE_REQUIREMENTS => 20
  | BOOT_LEDGER_STATUS_REQUIRED_STAGE_FAILED => 21
  | BOOT_LEDGER_STATUS_OPTIONAL_STAGE_FAILED => 22
  | BOOT_LEDGER_STATUS_OPTIONAL_STAGE_SKIPPED => 23
  | BOOT_LEDGER_STATUS_RECEIPT_MISMATCH => 24
  | BOOT_LEDGER_STATUS_PLAN_FINGERPRINT_MISMATCH => 25
  | BOOT_LEDGER_STATUS_INSTALLED_PLAN_DIFFERS_VALIDATED_PLAN => 26
  end.

Definition is_ok (s : boot_ledger_status) : bool :=
  match s with BOOT_LEDGER_STATUS_OK => true | _ => false end.

(** * Data *)

(** The first [count] entries of an array: what a loop over the indices below
    [count] visits. *)
Definition entries {A} (array : list A) (count : Z) : list A :=
  take (Z.to_nat count) array.

Record boot_stage_result := MkResult {
  result : Z;
  provided : list Z;
  provided_count : Z;
  proof_counters : list Z;
  proof_counter_count : Z
}.

(** [E] is the type of the function pointers [execute]. *)
Record boot_stage_descriptor {E : Type} := MkDescriptor {
  id : Z;
  name : option string;
  required_capabilities : list Z;
  required_capability_count : Z;
  provided_capabilities : list Z;
  provided_capability_count : Z;
  skipped_capabilities : list Z;
  skipped_capability_count : Z;
  required : bool;
  skip_preserves_health : bool;
  phase : Z;
  irreversible_class : Z;
  execute : option E
}.
Arguments boot_stage_descriptor : clear implicits.

Record boot_stage_receipt := MkReceipt {
  stage_id : Z;
  sequence : Z;
  receipt_provided : list Z;
  receipt_provided_count : Z;
  receipt_status : boot_ledger_status;
  receipt_result : Z;
  receipt_counters : list Z;
  receipt_counter_count : Z
}.

Record boot_ledger {E : Type} := MkLedger {
  descriptors : list (boot_stage_descriptor E);
  descriptor_count : Z;
  canonical_order : list Z;
  validated_stage_ids : list Z;
  planned_count : Z;
  receipts : list boot_stage_receipt;
  receipt_count : Z;
  established_capabilities : list Z;
  established_capability_count : Z;
  status : boot_ledger_status;
  refusal_stage : Z;
  refusal_capability : Z;
  validated_plan_fingerprint : Z;
  fingerprint : Z;
  executed_count : Z;
  optional_skip_count : Z;
  validated : bool;
  executed : bool;
  degraded : bool
}.
Arguments boot_ledger : clear implicits.

(** The zero values [boot_ledger_reset] and the result helpers write byte by
    byte. *)
Definition no_capabilities : list Z :=
  replicate (Z.to_nat BOOT_STAGE_CAPABILITY_CAPACITY) BOOT_CAPABILITY_INVALID.
Definition no_counters : list Z :=
  replicate (Z.to_nat BOOT_STAGE_PROOF_COUNTER_CAPACITY) 0.

Definition zero_descriptor {E} : boot_stage_descriptor E :=
  MkDescriptor E 0 None no_capabilities 0 no_capabilities 0 no_capabilities 0
    false false 0 0 None.

Definition zero_result : boot_stage_result :=
  MkResult BOOT_RECEIPT_RAN no_capabilities 0 no_counters 0.

Definition zero_receipt : boot_stage_receipt :=
  MkReceipt 0 0 no_capabilities 0 BOOT_LEDGER_STATUS_OK BOOT_RECEIPT_RAN no_counters 0.

Section ledger.
Context {E : Type}.
Abbreviation descriptor := (boot_stage_descriptor E).
Abbreviation ledger := (boot_ledger E).

(** ** Assignments to one or several fields of the ledger *)

Definition set_descriptors (l : ledger) ds n : ledger :=
  MkLedger E ds n l.(canonical_order) l.(validated_stage_ids) l.(planned_count)
    l.(receipts) l.(receipt_count) l.(established_capabilities)
    l.(established_capability_count) l.(status) l.(refusal_stage)
    l.(refusal_capability) l.(validated_plan_fingerprint) l.(fingerprint)
    l.(executed_count) l.(optional_skip_count) l.(validated) l.(executed) l.(degraded).

Definition set_flags (l : ledger) valid done st : ledger :=
  MkLedger E l.(descriptors) l.(descriptor_count) l.(canonical_order)
    l.(validated_stage_ids) l.(planned_count) l.(receipts) l.(receipt_count)
    l.(established_capabilities) l.(established_capability_count) st
    l.(refusal_stage) l.(refusal_capability) l.(validated_plan_fingerprint)
    l.(fingerprint) l.(executed_count) l.(optional_skip_count) valid done l.(degraded).

Definition set_plan (l : ledger) order ids n : ledger :=
  MkLedger E l.(descriptors) l.(descriptor_count) order ids n l.(receipts)
    l.(receipt_count) l.(established_capabilities) l.(established_capability_count)
    l.(status) l.(refusal_stage) l.(refusal_capability)
    l.(validated_plan_fingerprint) l.(fingerprint) l.(executed_count)
    l.(optional_skip_count) l.(validated) l.(executed) l.(degraded).

Definition set_receipts (l : ledger) rs n : ledger :=
  MkLedger E l.(descriptors) l.(descriptor_count) l.(canonical_order)
    l.(validated_stage_ids) l.(planned_count) rs n l.(established_capabilities)
    l.(established_capability_count) l.(status) l.(refusal_stage)
    l.(refusal_capability) l.(validated_plan_fingerprint) l.(fingerprint)
    l.(executed_count) l.(optional_skip_count) l.(validated) l.(executed) l.(degraded).

Definition set_established (l : ledger) cs n : ledger :=
  MkLedger E l.(descriptors) l.(descriptor_count) l.(canonical_order)
    l.(validated_stage_ids) l.(planned_count) l.(receipts) l.(receipt_count) cs n
    l.(status) l.(refusal_stage) l.(refusal_capability)
    l.(validated_plan_fingerprint) l.(fingerprint) l.(executed_count)
    l.(optional_skip_count) l.(validated) l.(executed) l.(degraded).

Definition set_fingerprints (l : ledger) plan run : ledger :=
  MkLedger E l.(descriptors) l.(descriptor_count) l.(canonical_order)
    l.(validated_stage_ids) l.(planned_count) l.(receipts) l.(receipt_count)
    l.(established_capabilities) l.(established_capability_count) l.(status)
    l.(refusal_stage) l.(refusal_capability) plan run l.(executed_count)
    l.(optional_skip_count) l.(validated) l.(executed) l.(degraded).

Definition set_totals (l : ledger) ran skips health : ledger :=
  MkLedger E l.(descriptors) l.(descriptor_count) l.(canonical_order)
    l.(validated_stage_ids) l.(planned_count) l.(receipts) l.(receipt_count)
    l.(established_capabilities) l.(established_capability_count) l.(status)
    l.(refusal_stage) l.(refusal_capability) l.(validated_plan_fingerprint)
    l.(fingerprint) ran skips l.(validated) l.(executed) health.

Definition set_refusal (l : ledger) (st : boot_ledger_status) (stage capability : Z)
  : ledger :=
  MkLedger E l.(descriptors) l.(descriptor_count) l.(canonical_order)
    l.(validated_stage_ids) l.(planned_count) l.(receipts) l.(receipt_count)
    l.(established_capabilities) l.(established_capability_count) st stage capability
    l.(validated_plan_fingerprint) l.(fingerprint) l.(executed_count)
    l.(optional_skip_count) l.(validated) l.(executed) l.(degraded).

(** ** Helpers *)

Definition stage_is_known (stage : Z) : bool :=
  (stage >? BOOT_STAGE_INVALID) && (stage <? BOOT_STAGE_COUNT).

Definition capability_is_known (capability : Z) : bool :=
  (capability >? BOOT_CAPABILITY_INVALID) && (capability <? BOOT_CAPABILITY_COUNT).

Definition descriptor_has_capability (capabilities : list Z) (count capability : Z) : bool :=
  existsb (fun c => c =? capability) (entries capabilities count).

Definition optional_outcome_valid (stage_planned complete absent : bool) : bool :=
  negb stage_planned || negb (Bool.eqb complete absent).

Definition descriptor_requires (d : descriptor) (capability : Z) : bool :=
  descriptor_has_capability d.(required_capabilities) d.(required_capability_count)
    capability.

Definition descriptor_for_stage (l : ledger) (stage : Z) : option descriptor :=
  List.find (fun d => d.(id) =? stage) (entries l.(descriptors) l.(descriptor_count)).

Definition descriptor_at (l : ledger) (index : Z) : descriptor :=
  aget zero_descriptor l.(descriptors) index.

(** ** Fingerprints *)

Definition fingerprint_u64 (fp value : Z) : Z :=
  (foldl (fun '(fp, value) (_ : Z) =>
      (u64 (Z.lxor fp (Z.land value 255) * BOOT_FINGERPRINT_PRIME),
       Z.shiftr value 8)) (fp, value) (seqZ 0 8)).1.

Definition fingerprint_capability_set (fp : Z) (capabilities : list Z) (count tag : Z) : Z :=
  let fp := fingerprint_u64 fp tag in
  let fp := fingerprint_u64 fp count in
  foldl (fun fp capability =>
      if descriptor_has_capability capabilities count capability
      then fingerprint_u64 fp capability else fp)
    fp (seqZ (BOOT_CAPABILITY_INVALID + 1) (BOOT_CAPABILITY_COUNT - 1)).

Definition fingerprint_descriptor (fp : Z) (d : descriptor) : Z :=
  let fp := fingerprint_u64 fp d.(id) in
  let fp := fingerprint_u64 fp (Z.b2z d.(required)) in
  let fp := fingerprint_u64 fp (Z.b2z d.(skip_preserves_health)) in
  let fp := fingerprint_u64 fp d.(phase) in
  let fp := fingerprint_u64 fp d.(irreversible_class) in
  let fp := fingerprint_capability_set fp d.(required_capabilities)
              d.(required_capability_count) 0xA1 in
  let fp := fingerprint_capability_set fp d.(provided_capabilities)
              d.(provided_capability_count) 0xA2 in
  fingerprint_capability_set fp d.(skipped_capabilities)
    d.(skipped_capability_count) 0xA3.

Definition fingerprint_plan (l : ledger) : Z :=
  let fp := fingerprint_u64 BOOT_FINGERPRINT_OFFSET BOOT_FINGERPRINT_VERSION in
  let fp := fingerprint_u64 fp l.(planned_count) in
  foldl (fun fp plan_index =>
      fingerprint_descriptor fp (descriptor_at l (aget 0 l.(canonical_order) plan_index)))
    fp (seqZ 0 l.(planned_count)).

Definition fingerprint_receipts (l : ledger) : Z :=
  let fp := fingerprint_u64 l.(validated_plan_fingerprint) 0xB001ED6E in
  let fp := fingerprint_u64 fp l.(receipt_count) in
  foldl (fun fp r =>
      let fp := fingerprint_u64 fp r.(stage_id) in
      let fp := fingerprint_u64 fp r.(sequence) in
      let fp := fingerprint_u64 fp r.(receipt_result) in
      let fp := fingerprint_u64 fp (status_value r.(receipt_status)) in
      fingerprint_capability_set fp r.(receipt_provided) r.(receipt_provided_count) 0xB1)
    fp (entries l.(receipts) l.(receipt_count)).

(** ** Building and validating a plan *)

Definition irreversible_requirements (class : Z) : list Z :=
  if class =? BOOT_IRREVERSIBLE_PAT_CR3 then
    [BOOT_CAPABILITY_DEVICE_WINDOW_REGISTRY_VALIDATED;
     BOOT_CAPABILITY_PHYSICAL_FRAME_ALLOCATOR_AVAILABLE]
  else if class =? BOOT_IRREVERSIBLE_INTERRUPT_ENABLE then
    [BOOT_CAPABILITY_IDT_INSTALLED; BOOT_CAPABILITY_INTERRUPT_CONTROLLERS_CONFIGURED]
  else if class =? BOOT_IRREVERSIBLE_FRAMEBUFFER_OUTPUT then
    [BOOT_CAPABILITY_FRAMEBUFFER_WC_INDEPENDENTLY_PROVED]
  else if class =? BOOT_IRREVERSIBLE_APIC_TIMER then
    [BOOT_CAPABILITY_IDT_INSTALLED; BOOT_CAPABILITY_INTERRUPT_CONTROLLERS_CONFIGURED;
     BOOT_CAPABILITY_INTERRUPTS_ENABLED; BOOT_CAPABILITY_CLOCKS_DISCOVERED]
  else if class =? BOOT_IRREVERSIBLE_SCHEDULER then
    [BOOT_CAPABILITY_HEAP_AVAILABLE; BOOT_CAPABILITY_THREADING_AVAILABLE;
     BOOT_CAPABILITY_TIMER_CALIBRATION_COMPLETE; BOOT_CAPABILITY_INTERRUPTS_ENABLED]
  else [].

Definition irreversible_requirement_at (class index : Z) : option Z :=
  irreversible_requirements class !! Z.to_nat index.

Definition boot_ledger_reset : ledger :=
  MkLedger E (replicate (Z.to_nat BOOT_LEDGER_STAGE_CAPACITY) zero_descriptor) 0
    (replicate (Z.to_nat BOOT_LEDGER_STAGE_CAPACITY) 0)
    (replicate (Z.to_nat BOOT_LEDGER_STAGE_CAPACITY) BOOT_STAGE_INVALID) 0
    (replicate (Z.to_nat BOOT_LEDGER_RECEIPT_CAPACITY) zero_receipt) 0
    (replicate (Z.to_nat BOOT_CAPABILITY_COUNT) BOOT_CAPABILITY_INVALID) 0
    BOOT_LEDGER_STATUS_NOT_VALIDATED BOOT_STAGE_INVALID BOOT_CAPABILITY_INVALID
    0 0 0 0 false false false.

Definition add_stage (d : descriptor) (l : ledger) : boot_ledger_status * ledger :=
  if l.(descriptor_count) >=? BOOT_LEDGER_STAGE_CAPACITY then
    (BOOT_LEDGER_STATUS_TOO_MANY_STAGES,
     set_refusal l BOOT_LEDGER_STATUS_TOO_MANY_STAGES d.(id) BOOT_CAPABILITY_INVALID)
  else
    let l := set_descriptors l (aset l.(descriptors) l.(descriptor_count) d)
               (l.(descriptor_count) + 1) in
    (BOOT_LEDGER_STATUS_OK, set_flags l false false BOOT_LEDGER_STATUS_NOT_VALIDATED).

(** What [set_refusal] records: status, stage and capability. *)
Definition refusal : Type := boot_ledger_status * Z * Z.

Definition refuse {A} (st : boot_ledger_status) (d : descriptor) (capability : Z)
  : ctl A refusal := Return (st, d.(id), capability).

(** The checks of one descriptor that do not involve its capabilities. *)
Definition check_shape (earlier : list descriptor) (d : descriptor) : ctl unit refusal :=
  if negb (stage_is_known d.(id)) then
    refuse BOOT_LEDGER_STATUS_UNKNOWN_STAGE_IDENTIFIER d BOOT_CAPABILITY_INVALID
  else if (d.(phase) >=? BOOT_PHASE_COUNT) ||
          (d.(irreversible_class) >=? BOOT_IRREVERSIBLE_COUNT) ||
          negb (bool_decide (is_Some d.(name))) ||
          negb (bool_decide (is_Some d.(execute))) then
    refuse BOOT_LEDGER_STATUS_INVALID_PHASE_TRANSITION d BOOT_CAPABILITY_INVALID
  else if (d.(required_capability_count) >? BOOT_STAGE_CAPABILITY_CAPACITY) ||
          (d.(provided_capability_count) >? BOOT_STAGE_CAPABILITY_CAPACITY) ||
          (d.(skipped_capability_count) >? BOOT_STAGE_CAPABILITY_CAPACITY) then
    refuse BOOT_LEDGER_STATUS_TOO_MANY_STAGE_CAPABILITIES d BOOT_CAPABILITY_INVALID
  else if d.(skip_preserves_health) &&
          (d.(required) || (d.(skipped_capability_count) =? 0)) then
    refuse BOOT_LEDGER_STATUS_INVALID_NEUTRAL_SKIP d BOOT_CAPABILITY_INVALID
  else
    for_each (fun (other : descriptor) (_ : unit) =>
        if other.(id) =? d.(id) then
          refuse BOOT_LEDGER_STATUS_DUPLICATE_STAGE d BOOT_CAPABILITY_INVALID
        else Next tt) earlier tt.

Definition check_requirements (d : descriptor) : ctl unit refusal :=
  for_each (fun requirement (_ : unit) =>
      let capability := aget 0 d.(required_capabilities) requirement in
      if negb (capability_is_known capability) then
        refuse BOOT_LEDGER_STATUS_UNKNOWN_CAPABILITY d capability
      else if descriptor_has_capability d.(required_capabilities) requirement capability
      then refuse BOOT_LEDGER_STATUS_DUPLICATE_CAPABILITY_REQUIREMENT d capability
      else Next tt)
    (seqZ 0 d.(required_capability_count)) tt.

(** One capability of the provided list, or, past its end, of the skipped one. *)
Definition declare_provider (index : Z) (d : descriptor) (capability_index : Z)
    (providers : list Z) : ctl (list Z) refusal :=
  let skipped := capability_index >=? d.(provided_capability_count) in
  let source_index :=
    if skipped then capability_index - d.(provided_capability_count)
    else capability_index in
  let capability :=
    if skipped then aget 0 d.(skipped_capabilities) source_index
    else aget 0 d.(provided_capabilities) source_index in
  if negb (capability_is_known capability) then
    refuse BOOT_LEDGER_STATUS_UNKNOWN_CAPABILITY d capability
  else
    let common_outcome :=
      skipped && (aget 0 providers capability =? index) &&
      descriptor_has_capability d.(provided_capabilities) d.(provided_capability_count)
        capability &&
      negb (descriptor_has_capability d.(skipped_capabilities) source_index capability) in
    if negb (aget 0 providers capability =? BOOT_NO_PROVIDER) && negb common_outcome then
      refuse BOOT_LEDGER_STATUS_DUPLICATE_CAPABILITY_PROVIDER d capability
    else if aget 0 providers capability =? BOOT_NO_PROVIDER then
      Next (aset providers capability index)
    else Next providers.

Definition check_descriptor (l : ledger) (index : Z) (providers : list Z)
  : ctl (list Z) refusal :=
  let d := descriptor_at l index in
  match check_shape (entries l.(descriptors) index) d with
  | Return r => Return r
  | Next _ =>
      match check_requirements d with
      | Return r => Return r
      | Next _ =>
          for_each (declare_provider index d)
            (seqZ 0 (d.(provided_capability_count) + d.(skipped_capability_count)))
            providers
      end
  end.

Definition provider_of (providers : list Z) (capability : Z) : Z :=
  aget 0 providers capability.

Definition requirements (d : descriptor) : list Z :=
  entries d.(required_capabilities) d.(required_capability_count).

Definition check_missing (l : ledger) (providers : list Z) (index : Z) (_ : unit)
  : ctl unit refusal :=
  let d := descriptor_at l index in
  for_each (fun capability (_ : unit) =>
      if provider_of providers capability =? BOOT_NO_PROVIDER then
        refuse BOOT_LEDGER_STATUS_MISSING_CAPABILITY_PROVIDER d capability
      else Next tt) (requirements d) tt.

(** The loop over [irreversible_requirement_at] ends at the first index that
    has no requirement. *)
Definition check_irreversible (l : ledger) (providers : list Z) (index : Z) (_ : unit)
  : ctl unit refusal :=
  let d := descriptor_at l index in
  for_each (fun capability (_ : unit) =>
      if negb (descriptor_requires d capability) ||
         (provider_of providers capability =? BOOT_NO_PROVIDER) ||
         ((descriptor_at l (provider_of providers capability)).(phase) >? d.(phase)) then
        refuse BOOT_LEDGER_STATUS_IRREVERSIBLE_STAGE_ORDERED_TOO_EARLY d capability
      else Next tt) (irreversible_requirements d.(irreversible_class)) tt.

Definition stage_ready (l : ledger) (providers : list Z) (planned : list bool) (index : Z)
  : bool :=
  negb (aget false planned index) &&
  forallb (fun capability =>
      let provider := provider_of providers capability in
      negb (provider =? BOOT_NO_PROVIDER) && aget false planned provider)
    (requirements (descriptor_at l index)).

Definition select_step (l : ledger) (providers : list Z) (planned : list bool)
    (selected index : Z) : Z :=
  let d := descriptor_at l index in
  let chosen := descriptor_at l selected in
  if negb (stage_ready l providers planned index) then selected
  else if (selected =? BOOT_NO_PROVIDER) || (d.(phase) <? chosen.(phase)) ||
          ((d.(phase) =? chosen.(phase)) && (d.(id) <? chosen.(id))) then index
  else selected.

Definition select_stage (l : ledger) (providers : list Z) (planned : list bool) : Z :=
  foldl (select_step l providers planned) BOOT_NO_PROVIDER (seqZ 0 l.(descriptor_count)).

(** The lowest identifier among the stages a cycle leaves unplanned. *)
Definition cycle_stage (l : ledger) (planned : list bool) : Z :=
  foldl (fun stage index =>
      if negb (aget false planned index) &&
         ((stage =? BOOT_STAGE_INVALID) || ((descriptor_at l index).(id) <? stage))
      then (descriptor_at l index).(id) else stage)
    BOOT_STAGE_INVALID (seqZ 0 l.(descriptor_count)).

(** Each turn of the loop plans one stage or stops, so as many turns as there
    are descriptors are enough fuel. *)
Fixpoint plan_loop (fuel : nat) (providers : list Z) (planned : list bool) (l : ledger)
  : ctl ledger (refusal * ledger) :=
  if l.(planned_count) <? l.(descriptor_count) then
    match fuel with
    | O => Next l
    | S fuel =>
        let selected := select_stage l providers planned in
        if selected =? BOOT_NO_PROVIDER then
          Return ((BOOT_LEDGER_STATUS_CAPABILITY_DEPENDENCY_CYCLE, cycle_stage l planned,
                   BOOT_CAPABILITY_INVALID), l)
        else
          plan_loop fuel providers (aset planned selected true)
            (set_plan l (aset l.(canonical_order) l.(planned_count) selected)
               (aset l.(validated_stage_ids) l.(planned_count)
                  (descriptor_at l selected).(id))
               (l.(planned_count) + 1))
    end
  else Next l.

Definition check_phases (l : ledger) (providers : list Z) (index : Z) (_ : unit)
  : ctl unit refusal :=
  let d := descriptor_at l index in
  for_each (fun capability (_ : unit) =>
      if (descriptor_at l (provider_of providers capability)).(phase) >? d.(phase) then
        refuse BOOT_LEDGER_STATUS_INVALID_PHASE_TRANSITION d capability
      else Next tt) (requirements d) tt.

Definition refused (r : refusal) (l : ledger) : boot_ledger_status * ledger :=
  let '(st, stage, capability) := r in (st, set_refusal l st stage capability).

(** What [boot_ledger_validate] clears before it looks at the stages. *)
Definition prepared (l : ledger) : ledger :=
  let l := set_flags l false false l.(status) in
  let l := set_plan l l.(canonical_order) l.(validated_stage_ids) 0 in
  let l := set_receipts l l.(receipts) 0 in
  set_refusal l l.(status) BOOT_STAGE_INVALID BOOT_CAPABILITY_INVALID.

Definition check_plan (l : ledger) : boot_ledger_status * ledger :=
  let indices := seqZ 0 l.(descriptor_count) in
  if l.(descriptor_count) =? 0 then
    refused (BOOT_LEDGER_STATUS_EMPTY_PLAN, BOOT_STAGE_INVALID, BOOT_CAPABILITY_INVALID) l
  else if l.(descriptor_count) >? BOOT_LEDGER_STAGE_CAPACITY then
    refused (BOOT_LEDGER_STATUS_TOO_MANY_STAGES, BOOT_STAGE_INVALID,
             BOOT_CAPABILITY_INVALID) l
  else
    match for_each (check_descriptor l) indices
            (replicate (Z.to_nat BOOT_CAPABILITY_COUNT) BOOT_NO_PROVIDER) with
    | Return r => refused r l
    | Next providers =>
    match for_each (check_missing l providers) indices tt with
    | Return r => refused r l
    | Next _ =>
    match for_each (check_irreversible l providers) indices tt with
    | Return r => refused r l
    | Next _ =>
    match plan_loop (Z.to_nat l.(descriptor_count)) providers
            (replicate (Z.to_nat BOOT_LEDGER_STAGE_CAPACITY) false) l with
    | Return (r, l) => refused r l
    | Next l =>
    match for_each (check_phases l providers) indices tt with
    | Return r => refused r l
    | Next _ =>
        let l := set_fingerprints l (fingerprint_plan l) 0 in
        (BOOT_LEDGER_STATUS_OK, set_flags l true l.(executed) BOOT_LEDGER_STATUS_OK)
    end end end end end.

Definition validate (l : ledger) : boot_ledger_status * ledger := check_plan (prepared l).

(** The public operations take pointers and refuse NULL. *)
Definition on_ledger (f : ledger -> boot_ledger_status * ledger) (l : option ledger)
  : boot_ledger_status * option ledger :=
  match l with
  | None => (BOOT_LEDGER_STATUS_NULL_ARGUMENT, None)
  | Some l => let '(st, l) := f l in (st, Some l)
  end.

Definition boot_ledger_add_stage (l : option ledger) (d : option descriptor)
  : boot_ledger_status * option ledger :=
  match d with
  | None => (BOOT_LEDGER_STATUS_NULL_ARGUMENT, l)
  | Some d => on_ledger (add_stage d) l
  end.

Definition boot_ledger_validate (l : option ledger) : boot_ledger_status * option ledger :=
  on_ledger validate l.

(** ** Stage results *)

(** [count] entries copied over the start of a zeroed array. *)
Definition copy_capabilities (source : list Z) (count : Z) : list Z :=
  entries source count ++ drop (Z.to_nat count) no_capabilities.

Definition boot_stage_result_succeed (d : descriptor) : boot_stage_result :=
  MkResult BOOT_RECEIPT_RAN
    (copy_capabilities d.(provided_capabilities) d.(provided_capability_count))
    d.(provided_capability_count) no_counters 0.

Definition boot_stage_result_skip (d : descriptor) : boot_stage_result :=
  MkResult BOOT_RECEIPT_SKIPPED
    (copy_capabilities d.(skipped_capabilities) d.(skipped_capability_count))
    d.(skipped_capability_count) no_counters 0.

Definition boot_stage_result_fail : boot_stage_result :=
  MkResult BOOT_RECEIPT_FAILED no_capabilities 0 no_counters 0.

Definition boot_stage_result_provide (r : boot_stage_result) (capability : Z)
  : bool * boot_stage_result :=
  if r.(provided_count) >=? BOOT_STAGE_CAPABILITY_CAPACITY then (false, r)
  else (true, MkResult r.(result) (aset r.(provided) r.(provided_count) capability)
                (r.(provided_count) + 1) r.(proof_counters) r.(proof_counter_count)).

Definition boot_ledger_has_capability (l : ledger) (capability : Z) : bool :=
  capability_is_known capability &&
  descriptor_has_capability l.(established_capabilities)
    l.(established_capability_count) capability.

Definition boot_ledger_fingerprint_valid (l : ledger) : bool :=
  l.(validated) && l.(executed) &&
  (fingerprint_plan l =? l.(validated_plan_fingerprint)) &&
  (fingerprint_receipts l =? l.(fingerprint)).

(** The first requirement that is not established. *)
Definition requirements_established (l : ledger) (d : descriptor) : option Z :=
  List.find (fun capability => negb (boot_ledger_has_capability l capability))
    (requirements d).

(** The capabilities a result has to provide, if it is a result at all. *)
Definition declared_for (d : descriptor) (result : Z) : option (list Z * Z) :=
  if result =? BOOT_RECEIPT_RAN then
    Some (d.(provided_capabilities), d.(provided_capability_count))
  else if result =? BOOT_RECEIPT_SKIPPED then
    Some (d.(skipped_capabilities), d.(skipped_capability_count))
  else if result =? BOOT_RECEIPT_FAILED then Some ([], 0)
  else None.

(** The status, and the capability to blame. *)
Definition validate_result (d : descriptor) (r : boot_stage_result)
  : boot_ledger_status * Z :=
  match declared_for d r.(result) with
  | None => (BOOT_LEDGER_STATUS_RECEIPT_MISMATCH, BOOT_CAPABILITY_INVALID)
  | Some (declared, declared_count) =>
      if (r.(provided_count) >? BOOT_STAGE_CAPABILITY_CAPACITY) ||
         (r.(proof_counter_count) >? BOOT_STAGE_PROOF_COUNTER_CAPACITY) then
        (BOOT_LEDGER_STATUS_RECEIPT_MISMATCH, BOOT_CAPABILITY_INVALID)
      else
        match List.find (fun c => negb (descriptor_has_capability declared declared_count c))
                (entries r.(provided) r.(provided_count)) with
        | Some c => (BOOT_LEDGER_STATUS_UNDECLARED_CAPABILITY_PROVIDED, c)
        | None =>
            if negb (r.(provided_count) =? declared_count) then
              (BOOT_LEDGER_STATUS_RECEIPT_MISMATCH, BOOT_CAPABILITY_INVALID)
            else
              match List.find (fun c => negb (descriptor_has_capability r.(provided)
                                                r.(provided_count) c))
                      (entries declared declared_count) with
              | Some c => (BOOT_LEDGER_STATUS_RECEIPT_MISMATCH, c)
              | None => (BOOT_LEDGER_STATUS_OK, BOOT_CAPABILITY_INVALID)
              end
        end
  end.

Definition put_receipt (l : ledger) (r : boot_stage_receipt) : ledger :=
  set_receipts l (aset l.(receipts) l.(receipt_count) r) l.(receipt_count).

(** One turn of the loop that copies the provided capabilities into the
    receipt and establishes those that are new. *)
Definition establish (d : descriptor) (r : boot_stage_result) (index : Z) (l : ledger)
  : ctl ledger (boot_ledger_status * ledger) :=
  let capability := aget 0 r.(provided) index in
  let receipt := aget zero_receipt l.(receipts) l.(receipt_count) in
  let l := put_receipt l (MkReceipt receipt.(stage_id) receipt.(sequence)
             (aset receipt.(receipt_provided) index capability)
             receipt.(receipt_provided_count) receipt.(receipt_status)
             receipt.(receipt_result) receipt.(receipt_counters)
             receipt.(receipt_counter_count)) in
  if boot_ledger_has_capability l capability then Next l
  else if l.(established_capability_count) >=? BOOT_CAPABILITY_COUNT then
    Return (refused (BOOT_LEDGER_STATUS_RECEIPT_MISMATCH, d.(id), capability) l)
  else
    Next (set_established l
            (aset l.(established_capabilities) l.(established_capability_count) capability)
            (l.(established_capability_count) + 1)).

Definition append_receipt (d : descriptor) (r : boot_stage_result)
    (st : boot_ledger_status) (l : ledger) : boot_ledger_status * ledger :=
  if l.(receipt_count) >=? BOOT_LEDGER_RECEIPT_CAPACITY then
    refused (BOOT_LEDGER_STATUS_TOO_MANY_RECEIPTS, d.(id), BOOT_CAPABILITY_INVALID) l
  else
    let l := put_receipt l (MkReceipt d.(id) (u32 (l.(receipt_count) + 1)) no_capabilities
               r.(provided_count) st r.(result) no_counters r.(proof_counter_count)) in
    match for_each (establish d r) (seqZ 0 r.(provided_count)) l with
    | Return x => x
    | Next l =>
        let receipt := aget zero_receipt l.(receipts) l.(receipt_count) in
        let l := put_receipt l (MkReceipt receipt.(stage_id) receipt.(sequence)
                   receipt.(receipt_provided) receipt.(receipt_provided_count)
                   receipt.(receipt_status) receipt.(receipt_result)
                   (entries r.(proof_counters) r.(proof_counter_count) ++
                    drop (Z.to_nat r.(proof_counter_count)) receipt.(receipt_counters))
                   receipt.(receipt_counter_count)) in
        let l := set_receipts l l.(receipts) (l.(receipt_count) + 1) in
        let skipped := r.(result) =? BOOT_RECEIPT_SKIPPED in
        let unhealthy := negb (r.(result) =? BOOT_RECEIPT_RAN) &&
                         (negb skipped || negb d.(skip_preserves_health)) in
        (BOOT_LEDGER_STATUS_OK,
         set_totals l (if skipped then l.(executed_count) else l.(executed_count) + 1)
           (if skipped then l.(optional_skip_count) + 1 else l.(optional_skip_count))
           (unhealthy || l.(degraded)))
    end.

(** ** Accessors *)

Definition boot_ledger_planned_stage_at (l : ledger) (index : Z) : option descriptor :=
  if (index >=? l.(planned_count)) ||
     (aget 0 l.(canonical_order) index >=? l.(descriptor_count)) then None
  else Some (descriptor_at l (aget 0 l.(canonical_order) index)).

Definition boot_ledger_receipt_at (l : ledger) (index : Z) : option boot_stage_receipt :=
  if index >=? l.(receipt_count) then None
  else Some (aget zero_receipt l.(receipts) index).

Definition boot_ledger_receipt_for (l : ledger) (stage : Z) : option boot_stage_receipt :=
  if negb (stage_is_known stage) then None
  else List.find (fun r => r.(stage_id) =? stage) (entries l.(receipts) l.(receipt_count)).

(** ** The audit of the receipts *)

(** The capability loop of one receipt, over the capabilities seen so far. *)
Definition verify_provided (d : descriptor) (r : boot_stage_receipt)
    (declared : list Z) (declared_count index : Z) (capabilities : list Z)
  : ctl (list Z) refusal :=
  let capability := aget 0 r.(receipt_provided) index in
  if negb (capability_is_known capability) then
    refuse BOOT_LEDGER_STATUS_UNKNOWN_CAPABILITY d capability
  else if negb (descriptor_has_capability declared declared_count capability) then
    refuse BOOT_LEDGER_STATUS_UNDECLARED_CAPABILITY_PROVIDED d capability
  else if descriptor_has_capability r.(receipt_provided) index capability then
    refuse BOOT_LEDGER_STATUS_RECEIPT_MISMATCH d capability
  else if existsb (fun c => c =? capability) capabilities then
    refuse BOOT_LEDGER_STATUS_DUPLICATE_CAPABILITY_PROVIDER d capability
  else if zlength capabilities >=? BOOT_CAPABILITY_COUNT then
    refuse BOOT_LEDGER_STATUS_RECEIPT_MISMATCH d capability
  else Next (capabilities ++ [capability]).

(** The form of a receipt: bounded counts and a status that fits its result. *)
Definition receipt_malformed (r : boot_stage_receipt) : bool :=
  (r.(receipt_provided_count) >? BOOT_STAGE_CAPABILITY_CAPACITY) ||
  (r.(receipt_counter_count) >? BOOT_STAGE_PROOF_COUNTER_CAPACITY) ||
  ((r.(receipt_result) =? BOOT_RECEIPT_RAN) &&
     negb (bool_decide (r.(receipt_status) = BOOT_LEDGER_STATUS_OK))) ||
  ((r.(receipt_result) =? BOOT_RECEIPT_SKIPPED) &&
     negb (bool_decide (r.(receipt_status) = BOOT_LEDGER_STATUS_OPTIONAL_STAGE_SKIPPED))) ||
  ((r.(receipt_result) =? BOOT_RECEIPT_FAILED) &&
     negb (bool_decide (r.(receipt_status) = BOOT_LEDGER_STATUS_OPTIONAL_STAGE_FAILED))) ||
  (r.(receipt_result) >=? BOOT_RECEIPT_RESULT_COUNT).

Definition verify_receipt (l : ledger) (index : Z) (x : list Z * list bool)
  : ctl (list Z * list bool) refusal :=
  let '(capabilities, seen) := x in
  let r := aget zero_receipt l.(receipts) index in
  if negb (stage_is_known r.(stage_id)) then
    Return (BOOT_LEDGER_STATUS_UNKNOWN_STAGE_IDENTIFIER, r.(stage_id),
            BOOT_CAPABILITY_INVALID)
  else
    match boot_ledger_planned_stage_at l index with
    | None => Return (BOOT_LEDGER_STATUS_INSTALLED_PLAN_DIFFERS_VALIDATED_PLAN,
                      r.(stage_id), BOOT_CAPABILITY_INVALID)
    | Some d =>
        if negb (r.(stage_id) =? d.(id)) || negb (r.(sequence) =? index + 1) ||
           aget false seen r.(stage_id) then
          Return (BOOT_LEDGER_STATUS_INSTALLED_PLAN_DIFFERS_VALIDATED_PLAN, r.(stage_id),
                  BOOT_CAPABILITY_INVALID)
        else
          let seen := aset seen r.(stage_id) true in
          if receipt_malformed r then
            refuse BOOT_LEDGER_STATUS_RECEIPT_MISMATCH d BOOT_CAPABILITY_INVALID
          else if d.(required) &&
                  (negb (r.(receipt_result) =? BOOT_RECEIPT_RAN) ||
                   negb (bool_decide (r.(receipt_status) = BOOT_LEDGER_STATUS_OK))) then
            refuse BOOT_LEDGER_STATUS_RECEIPT_MISMATCH d BOOT_CAPABILITY_INVALID
          else
            match (if r.(receipt_result) =? BOOT_RECEIPT_SKIPPED then None
                   else List.find (fun c => negb (existsb (fun c' => c' =? c) capabilities))
                          (requirements d)) with
            | Some c => refuse BOOT_LEDGER_STATUS_STAGE_EXECUTED_BEFORE_REQUIREMENTS d c
            | None =>
                let '(declared, declared_count) :=
                  if r.(receipt_result) =? BOOT_RECEIPT_RAN then
                    (d.(provided_capabilities), d.(provided_capability_count))
                  else if r.(receipt_result) =? BOOT_RECEIPT_SKIPPED then
                    (d.(skipped_capabilities), d.(skipped_capability_count))
                  else ([], 0) in
                if negb (r.(receipt_provided_count) =? declared_count) then
                  refuse BOOT_LEDGER_STATUS_RECEIPT_MISMATCH d BOOT_CAPABILITY_INVALID
                else
                  match for_each (verify_provided d r declared declared_count)
                          (seqZ 0 r.(receipt_provided_count)) capabilities with
                  | Return x => Return x
                  | Next capabilities =>
                      match List.find (fun c => negb (descriptor_has_capability
                                r.(receipt_provided) r.(receipt_provided_count) c))
                              (entries declared declared_count) with
                      | Some c => refuse BOOT_LEDGER_STATUS_RECEIPT_MISMATCH d c
                      | None => Next (capabilities, seen)
                      end
                  end
            end
    end.

Definition verify_receipt_set (l : ledger) : boot_ledger_status * ledger :=
  let mismatch c := (BOOT_LEDGER_STATUS_RECEIPT_MISMATCH, BOOT_STAGE_INVALID, c) in
  if negb (l.(receipt_count) =? l.(planned_count)) then
    refused (mismatch BOOT_CAPABILITY_INVALID) l
  else
    match for_each (verify_receipt l) (seqZ 0 l.(receipt_count))
            ([], replicate (Z.to_nat BOOT_STAGE_COUNT) false) with
    | Return r => refused r l
    | Next (capabilities, _) =>
        if negb (zlength capabilities =? l.(established_capability_count)) then
          refused (mismatch BOOT_CAPABILITY_INVALID) l
        else
          match List.find (fun c => negb (boot_ledger_has_capability l c)) capabilities with
          | Some c => refused (mismatch c) l
          | None => (BOOT_LEDGER_STATUS_OK, l)
          end
    end.
End ledger.

(** ** Execution *)

(** What the ledger calls: a stage's function, which may read the published
    ledger and changes the boot context, and the assignment
    [context->stage_failure_detail = NULL]. *)
Class StageExecution (E C : Type) := {
  clear_failure_detail : C -> C;
  run_stage : E -> boot_ledger E -> C -> boot_stage_descriptor E -> boot_stage_result ->
              C * boot_stage_result
}.

Section execution.
Context {E C : Type} `{StageExecution E C}.
Abbreviation descriptor := (boot_stage_descriptor E).
Abbreviation ledger := (boot_ledger E).

Definition call_execute (d : descriptor) (l : ledger) (context : C)
    (r : boot_stage_result) : C * boot_stage_result :=
  match d.(execute) with
  | Some f => run_stage f l context d r
  | None => (context, r)
  end.

Definition execute_stage (d : descriptor) (l : ledger) (context : C)
  : boot_ledger_status * ledger * C :=
  let context := clear_failure_detail context in
  match requirements_established l d with
  | Some missing =>
      if d.(required) then
        (refused (BOOT_LEDGER_STATUS_STAGE_EXECUTED_BEFORE_REQUIREMENTS, d.(id), missing) l,
         context)
      else
        (append_receipt d (boot_stage_result_skip d)
           BOOT_LEDGER_STATUS_OPTIONAL_STAGE_SKIPPED l, context)
  | None =>
      let '(context, r) := call_execute d l context boot_stage_result_fail in
      let '(st, bad_capability) := validate_result d r in
      if negb (is_ok st) then (refused (st, d.(id), bad_capability) l, context)
      else if (r.(result) =? BOOT_RECEIPT_SKIPPED) && d.(required) then
        let l := (append_receipt d r BOOT_LEDGER_STATUS_REQUIRED_STAGE_SKIPPED l).2 in
        (refused (BOOT_LEDGER_STATUS_REQUIRED_STAGE_SKIPPED, d.(id),
                  BOOT_CAPABILITY_INVALID) l, context)
      else if r.(result) =? BOOT_RECEIPT_FAILED then
        let st := if d.(required) then BOOT_LEDGER_STATUS_REQUIRED_STAGE_FAILED
                  else BOOT_LEDGER_STATUS_OPTIONAL_STAGE_FAILED in
        let l := (append_receipt d r st l).2 in
        if d.(required) then
          (refused (st, d.(id), BOOT_CAPABILITY_INVALID) l, context)
        else (BOOT_LEDGER_STATUS_OK,
              set_totals l l.(executed_count) l.(optional_skip_count) true, context)
      else
        (append_receipt d r
           (if r.(result) =? BOOT_RECEIPT_SKIPPED
            then BOOT_LEDGER_STATUS_OPTIONAL_STAGE_SKIPPED else BOOT_LEDGER_STATUS_OK) l,
         context)
  end.

Definition execute_planned (plan_index : Z) (x : ledger * C)
  : ctl (ledger * C) (boot_ledger_status * ledger * C) :=
  let '(l, context) := x in
  let d := descriptor_at l (aget 0 l.(canonical_order) plan_index) in
  if negb (d.(id) =? aget 0 l.(validated_stage_ids) plan_index) then
    Return (refused (BOOT_LEDGER_STATUS_INSTALLED_PLAN_DIFFERS_VALIDATED_PLAN, d.(id),
                     BOOT_CAPABILITY_INVALID) l, context)
  else
    let '(st, l, context) := execute_stage d l context in
    if negb (is_ok st) then Return (st, l, context) else Next (l, context).

Definition execute_plan (l : ledger) (context : C) : boot_ledger_status * ledger * C :=
  let refuse st := (refused (st, BOOT_STAGE_INVALID, BOOT_CAPABILITY_INVALID) l, context) in
  if negb l.(validated) then refuse BOOT_LEDGER_STATUS_NOT_VALIDATED
  else if l.(executed) then refuse BOOT_LEDGER_STATUS_ALREADY_EXECUTED
  else if negb (fingerprint_plan l =? l.(validated_plan_fingerprint)) then
    refuse BOOT_LEDGER_STATUS_PLAN_FINGERPRINT_MISMATCH
  else
    let l := set_receipts l l.(receipts) 0 in
    let l := set_established l l.(established_capabilities) 0 in
    let l := set_totals l 0 0 false in
    match for_each execute_planned (seqZ 0 l.(planned_count)) (l, context) with
    | Return x => x
    | Next (l, context) =>
        let l := set_fingerprints l l.(validated_plan_fingerprint)
                   (fingerprint_receipts l) in
        (BOOT_LEDGER_STATUS_OK, set_flags l l.(validated) true BOOT_LEDGER_STATUS_OK,
         context)
    end.

Definition boot_ledger_execute (l : option ledger) (context : option C)
  : boot_ledger_status * option ledger * option C :=
  match l, context with
  | Some l, Some context =>
      let '(st, l, context) := execute_plan l context in (st, Some l, Some context)
  | _, _ => (BOOT_LEDGER_STATUS_NULL_ARGUMENT, l, context)
  end.
End execution.
End BootLedger.
