(* ===== verification/BootLedgerPlan.v ===== *)
(** What the planner of the boot ledger promises, and that it keeps it: which
    plans [boot_ledger_validate] accepts, the order it puts the stages in, and
    that both depend only on the set of stages declared. *)
From S2P Require Import Prelude BootLedger.
From stdpp Require Import sorting strings.

Open Scope Z_scope.

Module BootLedgerPlan.
Import BootLedger.

(** * Loops that follow a known sequence of states *)

(** A loop whose body, in the [k]th state of a sequence, goes on exactly when
    [good k] holds, and then to the next state. *)
Lemma for_each_trace {A S R} (body : A -> S -> ctl S R) (xs : list A) (st : nat -> S)
    (good : nat -> Prop) s :
  (forall k x s', xs !! k = Some x -> (forall j, (j < k)%nat -> good j) ->
     body x (st k) = Next s' <-> good k /\ s' = st (Datatypes.S k)) ->
  for_each body xs (st O) = Next s <->
  (forall k, (k < length xs)%nat -> good k) /\ s = st (length xs).
Proof.
  revert st good. induction xs as [|x xs IH]; intros st good Hbody; simpl.
  { split; [intros [= <-]; split; [lia|done]|intros [_ ->]; done]. }
  pose proof (fun s' => Hbody O x s' eq_refl ltac:(lia)) as H0.
  specialize (IH (fun k => st (Datatypes.S k)) (fun k => good (Datatypes.S k))).
  simpl in IH. destruct (body x (st O)) as [s1|r] eqn:E.
  - destruct (proj1 (H0 s1) eq_refl) as [Hg ->].
    rewrite IH.
    + split; intros [H ->]; (split; [|done]); intros k Hk.
      * destruct k as [|k]; [done|]. apply H. lia.
      * apply H. lia.
    + intros k y s' Hk Hhist. apply (Hbody (Datatypes.S k)); [done|].
      intros [|j] Hj; [done|]. apply Hhist. lia.
  - split; [done|]. intros [H _]. specialize (H O ltac:(lia)).
    destruct (H0 (st 1%nat)) as [_ Hb]. discriminate (Hb (conj H eq_refl)).
Qed.

(** And one that stops, stopped in one of those states. *)
Lemma for_each_trace_return {A S R} (body : A -> S -> ctl S R) (xs : list A) (st : nat -> S)
    (good : nat -> Prop) r :
  (forall k x s', xs !! k = Some x -> (forall j, (j < k)%nat -> good j) ->
     body x (st k) = Next s' <-> good k /\ s' = st (Datatypes.S k)) ->
  for_each body xs (st O) = Return r ->
  exists k x, xs !! k = Some x /\ (forall j, (j < k)%nat -> good j) /\ body x (st k) = Return r.
Proof.
  revert st good. induction xs as [|x xs IH]; intros st good Hbody; simpl; [done|].
  pose proof (fun s' => Hbody O x s' eq_refl ltac:(lia)) as H0.
  destruct (body x (st O)) as [s1|r1] eqn:E.
  - destruct (proj1 (H0 s1) eq_refl) as [Hg ->]. intros Hr.
    destruct (IH (fun k => st (Datatypes.S k)) (fun k => good (Datatypes.S k))) as (k & y & Hy & Hh & Hb).
    + intros k y s' Hk Hhist. apply (Hbody (Datatypes.S k)); [done|].
      intros [|j] Hj; [done|]. apply Hhist. lia.
    + done.
    + exists (Datatypes.S k), y. split_and!; [done| |done]. intros [|j] Hj; [done|]. apply Hh. lia.
  - intros [= <-]. exists O, x. split_and!; [done|lia|done].
Qed.

Lemma for_each_return {A R} (body : A -> unit -> ctl unit R) (xs : list A) r :
  for_each body xs tt = Return r -> exists x, x ∈ xs /\ body x tt = Return r.
Proof.
  induction xs as [|x xs IH]; simpl; [done|]. destruct (body x tt) as [[]|r1] eqn:E.
  - intros (y & Hy & Hb)%IH. exists y. split; [by right|done].
  - intros [= <-]. exists x. split; [left|done].
Qed.

(** The loops that only check carry no state. *)
Lemma for_each_check {A R} (body : A -> unit -> ctl unit R) (xs : list A) u :
  for_each body xs tt = Next u <-> Forall (fun x => body x tt = Next tt) xs.
Proof.
  destruct u. induction xs as [|x xs IH]; simpl; [by split; constructor|].
  rewrite Forall_cons. destruct (body x tt) as [[]|r]; [tauto|]. by split; [|intros []].
Qed.

Lemma lookup_seqZ_0 n k i : seqZ 0 n !! k = Some i -> i = Z.of_nat k /\ 0 <= i < n.
Proof. intros [-> ?]%lookup_seqZ. lia. Qed.

Lemma existsb_elem (l : list Z) c : existsb (fun x => x =? c) l = true <-> c ∈ l.
Proof.
  rewrite existsb_exists. split.
  - intros (x & Hx & ->%Z.eqb_eq). by apply list_elem_of_In.
  - intros Hc. exists c. split; [by apply list_elem_of_In|apply Z.eqb_refl].
Qed.

(** ** Prefixes of arrays *)

Lemma entries_lookup {A} (d : A) a n k x :
  0 <= n <= zlength a ->
  entries a n !! k = Some x <-> Z.of_nat k < n /\ x = aget d a (Z.of_nat k).
Proof.
  intros Hn. unfold entries. split.
  - intros [Hk Hlt]%lookup_take_Some. split; [lia|].
    symmetry. apply aget_lookup. by rewrite Nat2Z.id.
  - intros [Hk ->]. rewrite lookup_take_lt by lia. rewrite <- (Nat2Z.id k) at 1.
    apply lookup_aget. lia.
Qed.

Lemma entries_elem {A} (d : A) a n x :
  0 <= n <= zlength a -> x ∈ entries a n <-> exists i, 0 <= i < n /\ x = aget d a i.
Proof.
  intros Hn. rewrite list_elem_of_lookup. setoid_rewrite (entries_lookup d); [|done]. split.
  - intros (k & Hk & ->). exists (Z.of_nat k). split; [lia|done].
  - intros (i & Hi & ->). exists (Z.to_nat i). rewrite Z2Nat.id by lia. split; [lia|done].
Qed.

Lemma entries_length {A} (a : list A) n :
  0 <= n <= zlength a -> length (entries a n) = Z.to_nat n.
Proof. unfold entries, zlength. intros. rewrite length_take. lia. Qed.

Lemma entries_snoc {A} (d : A) a n :
  0 <= n < zlength a -> entries a (n + 1) = entries a n ++ [aget d a n].
Proof.
  intros Hn. unfold entries. rewrite Z2Nat.inj_add by lia. rewrite Nat.add_1_r.
  apply take_S_r, lookup_aget. lia.
Qed.

Lemma entries_aset {A} a n (x : A) :
  0 <= n < zlength a -> entries (aset a n x) (n + 1) = entries a n ++ [x].
Proof.
  intros Hn. rewrite (entries_snoc x) by (rewrite zlength_aset; lia).
  rewrite aget_aset_eq by lia. f_equal. unfold entries, aset.
  apply take_insert_ge. lia.
Qed.

(** No entry occurs before itself: the quadratic duplicate checks. *)
Lemma entries_NoDup a n :
  0 <= n <= zlength a ->
  (forall i, 0 <= i < n -> aget 0 a i ∉ entries a i) <-> NoDup (entries a n).
Proof.
  intros [Hn Hle]. revert Hle. pattern n. apply natlike_ind; [| |done]; clear n Hn.
  - intros _. split; [intros _; constructor|lia].
  - intros n Hn IH Hle. rewrite <- Z.add_1_r, (entries_snoc 0) by lia.
    rewrite NoDup_app, <- IH by lia. split.
    + intros H. split_and!; [intros; apply H; lia| |apply NoDup_singleton].
      intros x Hx ->%list_elem_of_singleton. apply (H n); [lia|done].
    + intros (H & H' & _) i Hi. destruct (decide (i = n)) as [->|]; [|apply H; lia].
      intros Hin. apply (H' _ Hin). set_solver.
Qed.

Section plan.
Context {E : Type}.
Abbreviation descriptor := (boot_stage_descriptor E).
Abbreviation ledger := (boot_ledger E).
Implicit Types (d e p : descriptor) (ds o : list descriptor) (l : ledger) (c : Z).

(** * The specification *)

Definition provides d : list Z := entries d.(provided_capabilities) d.(provided_capability_count).
Definition skips d : list Z := entries d.(skipped_capabilities) d.(skipped_capability_count).

(** The capabilities a stage can establish, by running or by being skipped. *)
Definition outcomes d : list Z := provides d ++ skips d.

Record acceptable_stage d : Prop := {
  as_known : stage_is_known d.(id) = true;
  as_phase : d.(phase) < BOOT_PHASE_COUNT;
  as_class : d.(irreversible_class) < BOOT_IRREVERSIBLE_COUNT;
  as_name : is_Some d.(name);
  as_execute : is_Some d.(execute);
  as_required_bound : d.(required_capability_count) <= BOOT_STAGE_CAPABILITY_CAPACITY;
  as_provided_bound : d.(provided_capability_count) <= BOOT_STAGE_CAPABILITY_CAPACITY;
  as_skipped_bound : d.(skipped_capability_count) <= BOOT_STAGE_CAPABILITY_CAPACITY;
  as_neutral : d.(skip_preserves_health) = true ->
               d.(required) = false /\ d.(skipped_capability_count) <> 0;
  as_requirements : NoDup (requirements d);
  as_provides : NoDup (provides d);
  as_skips : NoDup (skips d);
  as_capabilities : forall c, c ∈ requirements d ++ outcomes d ->
                    capability_is_known c = true
}.

(** Every requirement of [d] is an outcome of a stage of [o]. *)
Definition ready o d : Prop :=
  forall c, c ∈ requirements d -> exists p, p ∈ o /\ c ∈ outcomes p.

(** Every stage comes after the stages that provide what it requires. *)
Definition topological o : Prop :=
  forall o1 d o2, o = o1 ++ d :: o2 -> ready o1 d.

Record acceptable ds : Prop := {
  ac_count : 0 < zlength ds <= BOOT_LEDGER_STAGE_CAPACITY;
  ac_stages : forall d, d ∈ ds -> acceptable_stage d;
  ac_distinct : NoDup (id <$> ds);
  ac_exclusive : forall d e c, d ∈ ds -> e ∈ ds -> c ∈ outcomes d -> c ∈ outcomes e ->
                 d.(id) = e.(id);
  ac_provided : forall d c, d ∈ ds -> c ∈ requirements d ->
                exists p, p ∈ ds /\ c ∈ outcomes p /\ p.(phase) <= d.(phase);
  ac_irreversible : forall d c, d ∈ ds ->
                    c ∈ irreversible_requirements d.(irreversible_class) ->
                    c ∈ requirements d;
  ac_acyclic : exists o, o ≡ₚ ds /\ topological o
}.

(** What is wrong with a plan when it is refused with a status, a stage and a
    capability. *)
Inductive defect ds : boot_ledger_status -> Z -> Z -> Prop :=
| defect_empty : ds = [] ->
    defect ds BOOT_LEDGER_STATUS_EMPTY_PLAN BOOT_STAGE_INVALID BOOT_CAPABILITY_INVALID
| defect_unknown_stage d : d ∈ ds -> stage_is_known d.(id) = false ->
    defect ds BOOT_LEDGER_STATUS_UNKNOWN_STAGE_IDENTIFIER d.(id) BOOT_CAPABILITY_INVALID
| defect_malformed d : d ∈ ds ->
    BOOT_PHASE_COUNT <= d.(phase) \/ BOOT_IRREVERSIBLE_COUNT <= d.(irreversible_class) \/
    d.(name) = None \/ d.(execute) = None ->
    defect ds BOOT_LEDGER_STATUS_INVALID_PHASE_TRANSITION d.(id) BOOT_CAPABILITY_INVALID
| defect_too_many d : d ∈ ds ->
    BOOT_STAGE_CAPABILITY_CAPACITY < d.(required_capability_count) \/
    BOOT_STAGE_CAPABILITY_CAPACITY < d.(provided_capability_count) \/
    BOOT_STAGE_CAPABILITY_CAPACITY < d.(skipped_capability_count) ->
    defect ds BOOT_LEDGER_STATUS_TOO_MANY_STAGE_CAPABILITIES d.(id) BOOT_CAPABILITY_INVALID
| defect_neutral_skip d : d ∈ ds -> d.(skip_preserves_health) = true ->
    d.(required) = true \/ d.(skipped_capability_count) = 0 ->
    defect ds BOOT_LEDGER_STATUS_INVALID_NEUTRAL_SKIP d.(id) BOOT_CAPABILITY_INVALID
| defect_duplicate_stage j k d e : (j < k)%nat -> ds !! j = Some e -> ds !! k = Some d ->
    e.(id) = d.(id) ->
    defect ds BOOT_LEDGER_STATUS_DUPLICATE_STAGE d.(id) BOOT_CAPABILITY_INVALID
| defect_unknown_capability d c : d ∈ ds -> c ∈ requirements d ++ outcomes d ->
    capability_is_known c = false ->
    defect ds BOOT_LEDGER_STATUS_UNKNOWN_CAPABILITY d.(id) c
| defect_duplicate_requirement d c : d ∈ ds -> c ∈ requirements d -> ~ NoDup (requirements d) ->
    defect ds BOOT_LEDGER_STATUS_DUPLICATE_CAPABILITY_REQUIREMENT d.(id) c
| defect_duplicate_provider d c : d ∈ ds -> c ∈ outcomes d ->
    (exists e, e ∈ ds /\ e.(id) <> d.(id) /\ c ∈ outcomes e) \/
    ~ NoDup (provides d) \/ ~ NoDup (skips d) ->
    defect ds BOOT_LEDGER_STATUS_DUPLICATE_CAPABILITY_PROVIDER d.(id) c
| defect_missing_provider d c : d ∈ ds -> c ∈ requirements d ->
    (forall p, p ∈ ds -> c ∉ outcomes p) ->
    defect ds BOOT_LEDGER_STATUS_MISSING_CAPABILITY_PROVIDER d.(id) c
| defect_too_early d c : d ∈ ds -> c ∈ irreversible_requirements d.(irreversible_class) ->
    c ∉ requirements d \/ (exists p, p ∈ ds /\ c ∈ outcomes p /\ d.(phase) < p.(phase)) ->
    defect ds BOOT_LEDGER_STATUS_IRREVERSIBLE_STAGE_ORDERED_TOO_EARLY d.(id) c
| defect_cycle stage :
    (forall d c, d ∈ ds -> c ∈ requirements d -> exists p, p ∈ ds /\ c ∈ outcomes p) ->
    (~ exists o, o ≡ₚ ds /\ topological o) ->
    defect ds BOOT_LEDGER_STATUS_CAPABILITY_DEPENDENCY_CYCLE stage BOOT_CAPABILITY_INVALID
| defect_later_phase d c p : d ∈ ds -> c ∈ requirements d -> p ∈ ds -> c ∈ outcomes p ->
    d.(phase) < p.(phase) ->
    defect ds BOOT_LEDGER_STATUS_INVALID_PHASE_TRANSITION d.(id) c.

(** The key stages are chosen by: phase first, then identifier. *)
Definition before_key d e : Prop :=
  d.(phase) < e.(phase) \/ (d.(phase) = e.(phase) /\ d.(id) <= e.(id)).

(** The canonical order: each stage has the least key of those that are ready. *)
Definition canonical o : Prop :=
  forall o1 d o2, o = o1 ++ d :: o2 ->
    ready o1 d /\ forall e, e ∈ d :: o2 -> ready o1 e -> before_key d e.

(** * The canonical order is unique *)

Lemma acceptable_permutation ds ds' : ds ≡ₚ ds' -> acceptable ds -> acceptable ds'.
Proof.
  intros Hp [H1 H2 H3 H4 H5 H6 (o & Ho & Ht)]. split.
  - unfold zlength in *. by rewrite <- Hp.
  - intros d. rewrite <- Hp. apply H2.
  - by rewrite <- Hp.
  - intros d e c. rewrite <- Hp. apply H4.
  - intros d c. rewrite <- Hp. intros Hd Hc. destruct (H5 d c Hd Hc) as (p & ? & ?).
    exists p. by rewrite <- Hp.
  - intros d c. rewrite <- Hp. apply H6.
  - exists o. split; [by transitivity ds|done].
Qed.

Lemma canonical_topological o : canonical o -> topological o.
Proof. intros H o1 d o2 Heq. by apply (H o1 d o2). Qed.

Lemma before_key_antisym d e : before_key d e -> before_key e d -> d.(id) = e.(id).
Proof. unfold before_key. lia. Qed.

Lemma unique_by_id ds d e :
  NoDup (id <$> ds) -> d ∈ ds -> e ∈ ds -> d.(id) = e.(id) -> d = e.
Proof.
  intros Hnd [i Hi]%list_elem_of_lookup [j Hj]%list_elem_of_lookup Heq.
  assert (i = j) as ->; [|congruence].
  eapply NoDup_lookup; [exact Hnd| |]; rewrite list_lookup_fmap.
  - rewrite Hi. done.
  - rewrite Hj. simpl. by rewrite Heq.
Qed.

Lemma canonical_unique o o' :
  NoDup (id <$> o) -> o ≡ₚ o' -> canonical o -> canonical o' -> o = o'.
Proof.
  intros Hnd Hp Hc Hc'.
  cut (forall n o1 o2 o2', length o2 = n -> o = o1 ++ o2 -> o' = o1 ++ o2' -> o2 = o2').
  { intros H. by apply (H (length o) [] o o'). }
  induction n as [|n IH]; intros o1 o2 o2' Hn Ho Ho'.
  { destruct o2; [|done]. rewrite Ho, Ho' in Hp.
    apply Permutation_app_inv_l, Permutation_nil_l in Hp. done. }
  rewrite Ho, Ho' in Hp. apply Permutation_app_inv_l in Hp.
  destruct o2 as [|d t]; [done|].
  destruct o2' as [|d' t']; [by apply Permutation_nil_r in Hp|].
  destruct (Hc o1 d t Ho) as [Hr Hmin]. destruct (Hc' o1 d' t' Ho') as [Hr' Hmin'].
  assert (d = d') as <-.
  { apply (unique_by_id o); [done|rewrite Ho; set_solver| |].
    - rewrite Ho, elem_of_app, Hp. set_solver.
    - apply before_key_antisym; [apply Hmin|apply Hmin']; [|done| |done].
      + rewrite Hp. set_solver.
      + rewrite <- Hp. set_solver. }
  f_equal. apply (IH (o1 ++ [d])); [simpl in Hn; lia| |]; by rewrite <- app_assoc.
Qed.

(** In a topological order the first stage not yet planned is ready: when none
    is ready no order exists. *)
Lemma topological_progress o (planned : descriptor -> bool) :
  topological o -> (exists d, d ∈ o /\ planned d = false) ->
  exists d, d ∈ o /\ planned d = false /\
    forall c, c ∈ requirements d -> exists p, p ∈ o /\ planned p = true /\ c ∈ outcomes p.
Proof.
  intros Ht (d & Hd & Hf).
  assert (exists o1 e o2, o = o1 ++ e :: o2 /\ planned e = false /\
            Forall (fun p => planned p = true) o1) as (o1 & e & o2 & -> & He & Ho1).
  { clear Ht. induction o as [|x o IH]; [set_solver|].
    destruct (planned x) eqn:Hx.
    - destruct IH as (o1 & e & o2 & -> & ? & ?).
      { apply elem_of_cons in Hd as [->|]; [congruence|done]. }
      exists (x :: o1), e, o2. split_and!; [done|done|by constructor].
    - exists [], x, o. by split_and!. }
  exists e. split_and!; [set_solver|done|]. intros c Hc.
  destruct (Ht o1 e o2 eq_refl c Hc) as (p & Hp & Hpc).
  exists p. rewrite Forall_forall in Ho1. split_and!; [set_solver|by apply Ho1|done].
Qed.

(** Along the canonical order of an acceptable plan phases never go back. *)
Lemma canonical_phases ds o :
  acceptable ds -> o ≡ₚ ds -> canonical o ->
  Sorted (fun d e => d.(phase) <= e.(phase)) o.
Proof.
  intros Ha Hp Hc. cut (forall o1 o2, o = o1 ++ o2 ->
    Sorted (fun d e => d.(phase) <= e.(phase)) o2); [intros H; by apply (H [])|].
  intros o1 o2. revert o1. induction o2 as [|d o2 IH]; intros o1 Ho; [constructor|].
  constructor; [apply (IH (o1 ++ [d])); by rewrite <- app_assoc|].
  destruct o2 as [|e o2]; constructor.
  destruct (Hc o1 d (e :: o2) Ho) as [_ Hmin].
  destruct (Hc (o1 ++ [d]) e o2) as [Hready _]; [by rewrite <- app_assoc|].
  assert (Hde : d ∈ ds /\ e ∈ ds) by (rewrite <- Hp, Ho; set_solver).
  destruct (decide (Exists (fun c => c ∈ outcomes d) (requirements e))) as [Hx|Hx].
  - apply Exists_exists in Hx as (c & Hc1 & Hc2).
    destruct (ac_provided _ Ha e c) as (p & Hpd & Hpc & Hph); [tauto|done|].
    replace d with p; [done|]. apply (unique_by_id ds); [apply Ha|done|tauto|].
    apply (ac_exclusive _ Ha p d c); tauto.
  - destruct (Hmin e) as [|[]]; [set_solver| |lia|lia].
    intros c Hc1. destruct (Hready c Hc1) as (p & [Hpo| ->%list_elem_of_singleton]%elem_of_app & Hpc);
      [eauto|]. destruct Hx. apply Exists_exists. eauto.
Qed.

(** * Ledgers *)

(** The types of the C structures: array lengths and unsigned counts. *)
Record descriptor_typed d : Prop := {
  dt_required : zlength d.(required_capabilities) = BOOT_STAGE_CAPABILITY_CAPACITY;
  dt_provided : zlength d.(provided_capabilities) = BOOT_STAGE_CAPABILITY_CAPACITY;
  dt_skipped : zlength d.(skipped_capabilities) = BOOT_STAGE_CAPABILITY_CAPACITY;
  dt_counts : 0 <= d.(required_capability_count) /\ 0 <= d.(provided_capability_count) /\
              0 <= d.(skipped_capability_count)
}.

Record ledger_typed l : Prop := {
  lt_descriptors : zlength l.(descriptors) = BOOT_LEDGER_STAGE_CAPACITY;
  lt_order : zlength l.(canonical_order) = BOOT_LEDGER_STAGE_CAPACITY;
  lt_ids : zlength l.(validated_stage_ids) = BOOT_LEDGER_STAGE_CAPACITY;
  lt_receipts : zlength l.(receipts) = BOOT_LEDGER_RECEIPT_CAPACITY;
  lt_established : zlength l.(established_capabilities) = BOOT_CAPABILITY_COUNT;
  lt_count : 0 <= l.(descriptor_count) <= BOOT_LEDGER_STAGE_CAPACITY;
  lt_typed : forall d, d ∈ l.(descriptors) -> descriptor_typed d
}.

(** The stages a ledger declares, in the order they were added. *)
Definition stages l : list descriptor := entries l.(descriptors) l.(descriptor_count).

(** The stages in the order of the plan. *)
Definition plan l : list descriptor :=
  descriptor_at l <$> entries l.(canonical_order) l.(planned_count).

Lemma stages_length l : ledger_typed l -> length (stages l) = Z.to_nat l.(descriptor_count).
Proof.
  intros Ht. pose proof (lt_count _ Ht). pose proof (lt_descriptors _ Ht).
  unfold stages, entries, zlength, BOOT_LEDGER_STAGE_CAPACITY in *. rewrite length_take. lia.
Qed.

Lemma stages_lookup l k d :
  ledger_typed l ->
  stages l !! k = Some d <->
  Z.of_nat k < l.(descriptor_count) /\ d = descriptor_at l (Z.of_nat k).
Proof.
  intros Ht. pose proof (lt_count _ Ht). pose proof (lt_descriptors _ Ht).
  unfold stages, entries, descriptor_at. split.
  - intros [Hk Hlt]%lookup_take_Some. split; [lia|].
    symmetry. apply aget_lookup. by rewrite Nat2Z.id.
  - intros [Hk ->]. rewrite lookup_take_lt by lia. rewrite <- (Nat2Z.id k) at 1.
    apply lookup_aget. lia.
Qed.

Lemma stages_elem l d :
  ledger_typed l ->
  d ∈ stages l <-> exists i, 0 <= i < l.(descriptor_count) /\ d = descriptor_at l i.
Proof.
  intros Ht. rewrite list_elem_of_lookup. setoid_rewrite stages_lookup; [|done]. split.
  - intros (k & Hk & ->). exists (Z.of_nat k). split; [lia|done].
  - intros (i & Hi & ->). exists (Z.to_nat i). rewrite Z2Nat.id by lia. split; [lia|done].
Qed.

Lemma stage_typed l i :
  ledger_typed l -> 0 <= i < l.(descriptor_count) -> descriptor_typed (descriptor_at l i).
Proof.
  intros Ht Hi. apply (lt_typed _ Ht). apply (elem_of_aget zero_descriptor). exists i.
  rewrite (lt_descriptors _ Ht). pose proof (lt_count _ Ht). split; [lia|done].
Qed.

Lemma has_capability_elem a n c : descriptor_has_capability a n c = true <-> c ∈ entries a n.
Proof. apply existsb_elem. Qed.

Lemma has_capability_not a n c : descriptor_has_capability a n c = false <-> c ∉ entries a n.
Proof. rewrite <- has_capability_elem. by destruct (descriptor_has_capability a n c). Qed.

(** * The checks of one descriptor *)

Lemma check_shape_ok earlier d u :
  check_shape earlier d = Next u <->
  stage_is_known d.(id) = true /\ d.(phase) < BOOT_PHASE_COUNT /\
  d.(irreversible_class) < BOOT_IRREVERSIBLE_COUNT /\
  is_Some d.(name) /\ is_Some d.(execute) /\
  d.(required_capability_count) <= BOOT_STAGE_CAPABILITY_CAPACITY /\
  d.(provided_capability_count) <= BOOT_STAGE_CAPABILITY_CAPACITY /\
  d.(skipped_capability_count) <= BOOT_STAGE_CAPABILITY_CAPACITY /\
  (d.(skip_preserves_health) = true ->
   d.(required) = false /\ d.(skipped_capability_count) <> 0) /\
  forall e, e ∈ earlier -> e.(id) <> d.(id).
Proof.
  assert (Hloop : for_each (fun (other : descriptor) (_ : unit) =>
        if other.(id) =? d.(id) then
          refuse BOOT_LEDGER_STATUS_DUPLICATE_STAGE d BOOT_CAPABILITY_INVALID
        else Next tt) earlier tt = Next u <-> forall e, e ∈ earlier -> e.(id) <> d.(id)).
  { rewrite for_each_check, Forall_forall. split; intros H e He; specialize (H e He).
    - destruct (_ =? _) eqn:Hb; [done|by bool_hyps].
    - destruct (_ =? _) eqn:Hb; [by bool_hyps|done]. }
  unfold check_shape. repeat (split_if; [split; [done|]; intros H; exfalso|]).
  - destruct H as [H _]. rewrite H in *. done.
  - destruct H as (_ & H1 & H2 & H3 & H4 & _). bool_hyps.
    destruct Heqb0 as [[[Hb|Hb]%orb_true_iff|Hb]%orb_true_iff|Hb].
    + bool_hyps. lia.
    + bool_hyps. lia.
    + rewrite bool_decide_true in Hb by done. done.
    + rewrite bool_decide_true in Hb by done. done.
  - destruct H as (_ & _ & _ & _ & _ & H1 & H2 & H3 & _). bool_hyps.
    destruct Heqb1 as [[Hb|Hb]%orb_true_iff|Hb]; bool_hyps; lia.
  - destruct H as (_ & _ & _ & _ & _ & _ & _ & _ & H & _). bool_hyps.
    destruct H as [Hreq Hz]; [done|]. destruct H1; [congruence|by bool_hyps].
  - rewrite Hloop. bool_hyps. rewrite bool_decide_eq_true in *.
    split; [|tauto]. intros Hall. split_and!; try done; try lia.
    intros Hs. rewrite Hs in *. simpl in *.
    destruct Heqb2 as [|Hb]; [done|by bool_hyps].
Qed.

Lemma Forall_seqZ (P : Z -> Prop) n :
  Forall P (seqZ 0 n) <-> forall i, 0 <= i < n -> P i.
Proof.
  rewrite Forall_forall. split; intros H i.
  - intros Hi. apply H. apply elem_of_seqZ. lia.
  - intros Hi%elem_of_seqZ. apply H. lia.
Qed.

Lemma check_requirements_ok d u :
  descriptor_typed d -> d.(required_capability_count) <= BOOT_STAGE_CAPABILITY_CAPACITY ->
  check_requirements d = Next u <->
  NoDup (requirements d) /\ forall c, c ∈ requirements d -> capability_is_known c = true.
Proof.
  intros Ht Hb. pose proof (dt_counts _ Ht).
  assert (Hn : 0 <= d.(required_capability_count) <= zlength d.(required_capabilities))
    by (rewrite (dt_required _ Ht); lia).
  unfold check_requirements. rewrite for_each_check, Forall_seqZ.
  unfold requirements. rewrite <- entries_NoDup by done. split.
  - intros Hall. split.
    + intros i Hi. specialize (Hall i Hi). cbn zeta in Hall.
      repeat (split_if_in Hall; [done|]). by apply has_capability_not.
    + intros c (i & Hi & ->)%(entries_elem 0); [|done]. specialize (Hall i Hi).
      cbn zeta in Hall.
      repeat (split_if_in Hall; [done|]). by bool_hyps.
  - intros [Hnd Hk] i Hi. cbn zeta.
    rewrite Hk by (apply (entries_elem 0); eauto). simpl.
    rewrite (proj2 (has_capability_not _ _ _)); [done|]. by apply Hnd.
Qed.

(** * The provider table *)

(** [providers] after every capability of [cs] was given provider [i]. *)
Definition mark (i : Z) (cs providers : list Z) : list Z :=
  foldl (fun ps c => aset ps c i) providers cs.

Lemma mark_length i cs ps : zlength (mark i cs ps) = zlength ps.
Proof.
  revert ps. induction cs as [|c cs IH]; intros ps; [done|]. simpl.
  by rewrite IH, zlength_aset.
Qed.

Lemma known_range c : capability_is_known c = true -> 0 < c < BOOT_CAPABILITY_COUNT.
Proof.
  unfold capability_is_known, BOOT_CAPABILITY_INVALID. intros H. bool_hyps. lia.
Qed.

Lemma mark_get i cs ps c :
  zlength ps = BOOT_CAPABILITY_COUNT ->
  (forall c, c ∈ cs -> capability_is_known c = true) -> capability_is_known c = true ->
  aget 0 (mark i cs ps) c = if decide (c ∈ cs) then i else aget 0 ps c.
Proof.
  intros Hlen Hks Hk%known_range. revert ps Hlen.
  induction cs as [|c' cs IH]; intros ps Hlen; [done|]. simpl.
  assert (Hc' : 0 < c' < BOOT_CAPABILITY_COUNT) by (apply known_range, Hks; set_solver).
  rewrite IH; [|set_solver|by rewrite zlength_aset]. rewrite aget_aset by lia.
  destruct (c' =? c) eqn:Heq; bool_hyps.
  - subst. rewrite (decide_True (P := c ∈ c :: cs)) by set_solver. by destruct (decide _).
  - destruct (decide (c ∈ cs)) as [Hin|Hin].
    + by rewrite decide_True by set_solver.
    + by rewrite decide_False by set_solver.
Qed.

Lemma mark_snoc i cs ps k c :
  cs !! k = Some c -> mark i (take (S k) cs) ps = aset (mark i (take k cs) ps) c i.
Proof. intros Hc. unfold mark. by rewrite (take_S_r _ _ _ Hc), foldl_app. Qed.

Lemma aset_id (ps : list Z) c : 0 <= c < zlength ps -> aset ps c (aget 0 ps c) = ps.
Proof. intros Hc. apply list_insert_id. by apply lookup_aget. Qed.

(** What the loop asks of the [k]th outcome of [d]. *)
Definition outcome_fresh d (ps : list Z) (k : nat) : Prop :=
  forall c, outcomes d !! k = Some c ->
    capability_is_known c = true /\ aget 0 ps c = BOOT_NO_PROVIDER /\
    c ∉ (if decide (k < length (provides d))%nat then take k (provides d)
         else take (k - length (provides d)) (skips d)).

Section declare.
Variables (i : Z) (d : descriptor) (ps : list Z).
Hypothesis Hd : descriptor_typed d.
Hypothesis Hpb : d.(provided_capability_count) <= BOOT_STAGE_CAPABILITY_CAPACITY.
Hypothesis Hsb : d.(skipped_capability_count) <= BOOT_STAGE_CAPABILITY_CAPACITY.
Hypothesis Hi : 0 <= i < BOOT_NO_PROVIDER.
Hypothesis Hlen : zlength ps = BOOT_CAPABILITY_COUNT.
Hypothesis Hnew : forall c, capability_is_known c = true -> aget 0 ps c <> i.

Lemma provides_length : Z.of_nat (length (provides d)) = d.(provided_capability_count).
Proof.
  pose proof (dt_counts _ Hd). unfold provides.
  rewrite entries_length by (rewrite (dt_provided _ Hd); lia). lia.
Qed.

Lemma skips_length : Z.of_nat (length (skips d)) = d.(skipped_capability_count).
Proof.
  pose proof (dt_counts _ Hd). unfold skips.
  rewrite entries_length by (rewrite (dt_skipped _ Hd); lia). lia.
Qed.

Lemma provides_lookup k :
  (k < length (provides d))%nat ->
  provides d !! k = Some (aget 0 d.(provided_capabilities) (Z.of_nat k)).
Proof.
  pose proof provides_length. pose proof (dt_counts _ Hd). intros Hk.
  apply (entries_lookup 0); [rewrite (dt_provided _ Hd); lia|]. split; [lia|done].
Qed.

Lemma skips_lookup k :
  (k < length (skips d))%nat ->
  skips d !! k = Some (aget 0 d.(skipped_capabilities) (Z.of_nat k)).
Proof.
  pose proof skips_length. pose proof (dt_counts _ Hd). intros Hk.
  apply (entries_lookup 0); [rewrite (dt_skipped _ Hd); lia|]. split; [lia|done].
Qed.

(** The history of the loop: what it has checked is known and unprovided. *)
Lemma declare_history k c :
  (forall j, (j < k)%nat -> outcome_fresh d ps j) -> c ∈ take k (outcomes d) ->
  capability_is_known c = true /\ aget 0 ps c = BOOT_NO_PROVIDER.
Proof.
  intros Hh [j [Hj Hlt]%lookup_take_Some]%list_elem_of_lookup.
  destruct (Hh j Hlt c Hj) as (? & ? & _). done.
Qed.

Lemma declare_provided k ps' :
  (k < length (provides d))%nat ->
  (forall j, (j < k)%nat -> outcome_fresh d ps j) ->
  declare_provider i d (Z.of_nat k) (mark i (take k (outcomes d)) ps) = Next ps' <->
  outcome_fresh d ps k /\ ps' = mark i (take (S k) (outcomes d)) ps.
Proof.
  intros Hk Hh. pose proof provides_length as Hpl.
  pose proof (provides_lookup k Hk) as Hc. set (c := aget 0 _ _) in Hc.
  assert (Ho : outcomes d !! k = Some c) by (unfold outcomes; by rewrite lookup_app_l).
  assert (Htk : take k (outcomes d) = take k (provides d))
    by (unfold outcomes; rewrite take_app_le by lia; done).
  unfold declare_provider. rewrite Z.geb_leb.
  rewrite (proj2 (Z.leb_gt _ _)) by lia. fold c. simpl. rewrite Bool.andb_true_r.
  rewrite (mark_snoc _ _ _ _ _ Ho).
  unfold outcome_fresh. setoid_rewrite Ho. rewrite decide_True by done.
  destruct (capability_is_known c) eqn:Hkn; simpl.
  2: { split; [done|]. intros [H _]. destruct (H c eq_refl) as [? _]. congruence. }
  rewrite (mark_get i) by (try done; intros; by apply (declare_history k)).
  rewrite Htk. destruct (decide (c ∈ take k (provides d))) as [Hin|Hin].
  - rewrite (proj2 (Z.eqb_neq i _)) by lia. simpl. split; [done|].
    intros [H _]. by destruct (H c eq_refl) as (_ & _ & ?).
  - destruct (_ =? BOOT_NO_PROVIDER) eqn:Heq; simpl; bool_hyps.
    + split; [|by intros [_ ->]]. intros [= <-]. split; [|done]. by intros ? [= <-].
    + split; [done|]. intros [H _]. by destruct (H c eq_refl) as (_ & ? & _).
Qed.

Lemma declare_skipped j ps' :
  (j < length (skips d))%nat ->
  (forall k, (k < length (provides d) + j)%nat -> outcome_fresh d ps k) ->
  let k := (length (provides d) + j)%nat in
  declare_provider i d (Z.of_nat k) (mark i (take k (outcomes d)) ps) = Next ps' <->
  outcome_fresh d ps k /\ ps' = mark i (take (S k) (outcomes d)) ps.
Proof.
  intros Hj Hh k. pose proof provides_length as Hpl.
  pose proof (skips_lookup j Hj) as Hc. set (c := aget 0 _ _) in Hc.
  assert (Ho : outcomes d !! k = Some c)
    by (unfold outcomes, k; rewrite lookup_app_r by lia; rewrite <- Hc; f_equal; lia).
  assert (Htk : take k (outcomes d) = provides d ++ take j (skips d))
    by (unfold outcomes, k; by rewrite take_app_add).
  unfold declare_provider. rewrite Z.geb_leb.
  rewrite (proj2 (Z.leb_le _ _)) by lia.
  replace (Z.of_nat k - _) with (Z.of_nat j) by lia. fold c. simpl.
  rewrite (mark_snoc _ _ _ _ _ Ho).
  unfold outcome_fresh. setoid_rewrite Ho. rewrite decide_False by lia.
  replace (k - length (provides d))%nat with j by lia.
  destruct (capability_is_known c) eqn:Hkn; simpl.
  2: { split; [done|]. intros [H _]. destruct (H c eq_refl) as [? _]. congruence. }
  rewrite (mark_get i) by (try done; intros; by apply (declare_history k)).
  assert (Hsk : entries d.(skipped_capabilities) (Z.of_nat j) = take j (skips d)).
  { unfold skips, entries. rewrite take_take, Nat2Z.id. f_equal.
    pose proof skips_length. lia. }
  destruct (decide (c ∈ take k (outcomes d))) as [Hin|Hin].
  - rewrite (proj2 (Z.eqb_neq i _)) by lia. rewrite Z.eqb_refl. simpl.
    destruct (declare_history k c Hh Hin) as [_ Hno].
    assert (Hget : aget 0 (mark i (take k (outcomes d)) ps) c = i).
    { rewrite (mark_get i) by (try done; intros; by apply (declare_history k)).
      by rewrite decide_True. }
    assert (Hid : aset (mark i (take k (outcomes d)) ps) c i = mark i (take k (outcomes d)) ps).
    { rewrite <- Hget at 2. apply aset_id. rewrite mark_length, Hlen.
      apply known_range in Hkn. lia. }
    rewrite Hid, Htk, elem_of_app in *.
    destruct (descriptor_has_capability d.(skipped_capabilities) _ c) eqn:Hs.
    + apply has_capability_elem in Hs. rewrite Hsk in Hs.
      rewrite Bool.andb_false_r. simpl. split; [done|].
      intros [H _]. by destruct (H c eq_refl) as (_ & _ & ?).
    + apply has_capability_not in Hs. rewrite Hsk in Hs.
      destruct Hin as [Hin|?]; [|done].
      rewrite (proj2 (has_capability_elem _ _ _)) by done. simpl.
      split; [intros [= <-]; split; [|done]; by intros ? [= <-]|by intros [_ ->]].
  - assert (Hns : c ∉ take j (skips d)) by (rewrite Htk in Hin; set_solver).
    destruct (_ =? BOOT_NO_PROVIDER) eqn:Heq; simpl; bool_hyps.
    + split; [|by intros [_ ->]]. intros [= <-]. split; [|done]. by intros ? [= <-].
    + rewrite (proj2 (Z.eqb_neq _ i)) by (by apply Hnew). simpl.
      split; [done|]. intros [H _]. by destruct (H c eq_refl) as (_ & ? & _).
Qed.

Lemma fresh_outcomes :
  (forall k, (k < length (outcomes d))%nat -> outcome_fresh d ps k) <->
  (forall c, c ∈ outcomes d ->
     capability_is_known c = true /\ aget 0 ps c = BOOT_NO_PROVIDER) /\
  NoDup (provides d) /\ NoDup (skips d).
Proof.
  assert (Hskip : forall k c, skips d !! k = Some c ->
            outcomes d !! (length (provides d) + k)%nat = Some c)
    by (intros k c Hk; unfold outcomes; rewrite lookup_app_r by lia; rewrite <- Hk; f_equal; lia).
  assert (Hnd : forall l : list Z, (forall k c, l !! k = Some c -> c ∉ take k l) -> NoDup l).
  { intros l Hl. apply NoDup_alt. intros x y c Hx Hy.
    destruct (decide (x = y)); [done|]. exfalso.
    destruct (decide (x < y)%nat).
    - apply (Hl y c Hy). apply list_elem_of_lookup. exists x. by rewrite lookup_take_lt.
    - apply (Hl x c Hx). apply list_elem_of_lookup. exists y.
      rewrite lookup_take_lt by lia. done. }
  split.
  - intros Hf. split_and!.
    + intros c [k Hk]%list_elem_of_lookup.
      destruct (Hf k (lookup_lt_Some _ _ _ Hk) c Hk) as (? & ? & _). done.
    + apply Hnd. intros k c Hk. pose proof (lookup_lt_Some _ _ _ Hk).
      assert (Ho : outcomes d !! k = Some c) by (unfold outcomes; by rewrite lookup_app_l).
      destruct (Hf k (lookup_lt_Some _ _ _ Ho) c Ho) as (_ & _ & Hc).
      by rewrite decide_True in Hc.
    + apply Hnd. intros k c Hk. pose proof (Hskip k c Hk) as Ho.
      destruct (Hf _ (lookup_lt_Some _ _ _ Ho) c Ho) as (_ & _ & Hc).
      rewrite decide_False in Hc by lia.
      by replace (length (provides d) + k - length (provides d))%nat with k in Hc by lia.
  - intros (Hc & Hp & Hs) k Hk c Ho.
    destruct (Hc c) as [? ?]; [by eapply list_elem_of_lookup_2|]. split_and!; [done|done|].
    assert (Htake : forall (l : list Z) m, NoDup l -> l !! m = Some c -> c ∉ take m l).
    { intros l m Hl Hm [n [Hn Hlt]%lookup_take_Some]%list_elem_of_lookup.
      pose proof (NoDup_lookup l m n c Hl Hm Hn). lia. }
    unfold outcomes in Ho. destruct (decide _) as [Hlt|Hge].
    + rewrite lookup_app_l in Ho by done. by apply Htake.
    + rewrite lookup_app_r in Ho by lia. by apply Htake.
Qed.

(** One turn of the provider loop. *)
Lemma declare_turn k x ps' :
  seqZ 0 (d.(provided_capability_count) + d.(skipped_capability_count)) !! k = Some x ->
  (forall j, (j < k)%nat -> outcome_fresh d ps j) ->
  declare_provider i d x (mark i (take k (outcomes d)) ps) = Next ps' <->
  outcome_fresh d ps k /\ ps' = mark i (take (S k) (outcomes d)) ps.
Proof.
  pose proof provides_length as Hpl. pose proof skips_length as Hsl.
  intros [-> Hr]%lookup_seqZ_0 Hh.
  destruct (decide (k < length (provides d))%nat) as [Hlt|Hge].
  - by apply declare_provided.
  - replace k with (length (provides d) + (k - length (provides d)))%nat in * by lia.
    apply declare_skipped; [lia|done].
Qed.

(** What a turn that stops says. *)
Lemma declare_returns k x ps' r :
  seqZ 0 (d.(provided_capability_count) + d.(skipped_capability_count)) !! k = Some x ->
  declare_provider i d x ps' = Return r ->
  exists c, outcomes d !! k = Some c /\
    r = (if capability_is_known c then BOOT_LEDGER_STATUS_DUPLICATE_CAPABILITY_PROVIDER
         else BOOT_LEDGER_STATUS_UNKNOWN_CAPABILITY, d.(id), c).
Proof.
  pose proof provides_length as Hpl. pose proof skips_length as Hsl.
  intros [-> Hr]%lookup_seqZ_0. unfold declare_provider. cbv zeta. rewrite Z.geb_leb.
  destruct (_ <=? _) eqn:Hle; bool_hyps.
  - assert (Hs : skips d !! (k - length (provides d))%nat =
      Some (aget 0 d.(skipped_capabilities) (Z.of_nat k - d.(provided_capability_count)))).
    { rewrite skips_lookup by lia. do 2 f_equal. lia. }
    intros Hb. eexists. split; [unfold outcomes; rewrite lookup_app_r by lia; exact Hs|].
    destruct (capability_is_known _); cbn [negb] in Hb; [|by injection Hb as <-].
    split_if_in Hb; [by injection Hb as <-|by split_if_in Hb].
  - intros Hb. eexists.
    split; [unfold outcomes; rewrite lookup_app_l by lia; apply provides_lookup; lia|].
    destruct (capability_is_known _); cbn [negb] in Hb; [|by injection Hb as <-].
    split_if_in Hb; [by injection Hb as <-|by split_if_in Hb].
Qed.

(** The provider loop goes on exactly when every outcome is a known capability
    that nothing provides yet and neither list repeats one. *)
Lemma declare_ok ps' :
  for_each (declare_provider i d)
    (seqZ 0 (d.(provided_capability_count) + d.(skipped_capability_count))) ps = Next ps' <->
  ((forall c, c ∈ outcomes d ->
      capability_is_known c = true /\ aget 0 ps c = BOOT_NO_PROVIDER) /\
   NoDup (provides d) /\ NoDup (skips d)) /\ ps' = mark i (outcomes d) ps.
Proof.
  pose proof provides_length as Hpl. pose proof skips_length as Hsl.
  assert (Hol : length (outcomes d) = (length (provides d) + length (skips d))%nat)
    by (unfold outcomes; by rewrite length_app).
  set (xs := seqZ _ _).
  assert (Hxs : length xs = length (outcomes d)) by (unfold xs; rewrite length_seqZ; lia).
  pose proof (for_each_trace (declare_provider i d) xs
    (fun k => mark i (take k (outcomes d)) ps) (outcome_fresh d ps) ps') as Ht.
  rewrite Hxs, firstn_all in Ht. simpl in Ht. rewrite Ht; [by rewrite fresh_outcomes|].
  intros k x s'. apply declare_turn.
Qed.
End declare.

(** * The whole first pass *)

(** The provider table after the first [k] descriptors. *)
Definition table l (k : nat) : list Z :=
  foldl (fun ps i => mark i (outcomes (descriptor_at l i)) ps)
    (replicate (Z.to_nat BOOT_CAPABILITY_COUNT) BOOT_NO_PROVIDER) (seqZ 0 (Z.of_nat k)).

Lemma table_S l k :
  table l (S k) = mark (Z.of_nat k) (outcomes (descriptor_at l (Z.of_nat k))) (table l k).
Proof.
  unfold table. rewrite Nat2Z.inj_succ, <- Z.add_1_r, seqZ_app by lia.
  rewrite foldl_app. done.
Qed.

Lemma table_length l k : zlength (table l k) = BOOT_CAPABILITY_COUNT.
Proof.
  induction k as [|k IH].
  - unfold table. rewrite seqZ_nil by lia. vm_compute. done.
  - by rewrite table_S, mark_length.
Qed.

(** What the first pass asks of the [k]th descriptor. *)
Definition stage_good l (k : nat) : Prop :=
  acceptable_stage (descriptor_at l (Z.of_nat k)) /\
  (forall j, (j < k)%nat -> (descriptor_at l (Z.of_nat j)).(id) <>
                            (descriptor_at l (Z.of_nat k)).(id)) /\
  (forall j c, (j < k)%nat -> c ∈ outcomes (descriptor_at l (Z.of_nat j)) ->
     c ∉ outcomes (descriptor_at l (Z.of_nat k))).

(** Under that, the table names for every capability the stage it is an outcome of. *)
Lemma table_get l k c :
  (forall j, (j < k)%nat -> stage_good l j) -> capability_is_known c = true ->
  (exists j, (j < k)%nat /\ c ∈ outcomes (descriptor_at l (Z.of_nat j)) /\
             aget 0 (table l k) c = Z.of_nat j) \/
  ((forall j, (j < k)%nat -> c ∉ outcomes (descriptor_at l (Z.of_nat j))) /\
   aget 0 (table l k) c = BOOT_NO_PROVIDER).
Proof.
  intros Hg Hc. induction k as [|k IH].
  { right. split; [lia|]. unfold table. rewrite seqZ_nil by lia. cbn [foldl].
    apply aget_replicate. apply known_range in Hc. unfold BOOT_CAPABILITY_COUNT in *. lia. }
  destruct (Hg k ltac:(lia)) as (Ha & _ & Hx).
  rewrite table_S, mark_get; [|apply table_length| |done].
  2: { intros c' Hc'. apply (as_capabilities _ Ha). set_solver. }
  destruct (decide (c ∈ _)) as [Hin|Hin].
  - left. exists k. split_and!; [lia|done|done].
  - destruct IH as [(j & Hj & Hcj & ->)|[Hno ->]]; [intros; apply Hg; lia| |].
    + left. exists j. split_and!; [lia|done|done].
    + right. split; [|done]. intros j Hj.
      destruct (decide (j = k)) as [->|]; [done|apply Hno; lia].
Qed.

Lemma earlier_elem l k e :
  ledger_typed l -> Z.of_nat k <= l.(descriptor_count) ->
  e ∈ entries l.(descriptors) (Z.of_nat k) <->
  exists j, (j < k)%nat /\ e = descriptor_at l (Z.of_nat j).
Proof.
  intros Ht Hk. pose proof (lt_count _ Ht). pose proof (lt_descriptors _ Ht).
  rewrite (entries_elem zero_descriptor) by lia. split.
  - intros (i & Hi & ->). exists (Z.to_nat i). unfold descriptor_at.
    rewrite Z2Nat.id by lia. split; [lia|done].
  - intros (j & Hj & ->). exists (Z.of_nat j). split; [lia|done].
Qed.

Lemma check_descriptor_ok l k ps' :
  ledger_typed l -> Z.of_nat k < l.(descriptor_count) ->
  (forall j, (j < k)%nat -> stage_good l j) ->
  check_descriptor l (Z.of_nat k) (table l k) = Next ps' <->
  stage_good l k /\ ps' = table l (S k).
Proof.
  intros Ht Hk Hh. pose proof (lt_count _ Ht) as Hcount.
  set (d := descriptor_at l (Z.of_nat k)).
  assert (Hd : descriptor_typed d) by (apply stage_typed; [done|lia]).
  assert (Hnew : forall c, capability_is_known c = true -> aget 0 (table l k) c <> Z.of_nat k).
  { intros c Hc. destruct (table_get l k c Hh Hc) as [(j & Hj & _ & ->)|[_ ->]]; [lia|].
    unfold BOOT_NO_PROVIDER. lia. }
  unfold check_descriptor. fold d. rewrite table_S. fold d.
  assert (Hids : (forall e, e ∈ entries l.(descriptors) (Z.of_nat k) -> e.(id) <> d.(id)) <->
    forall j, (j < k)%nat -> (descriptor_at l (Z.of_nat j)).(id) <> d.(id)).
  { setoid_rewrite (earlier_elem l k); [|done|lia]. split; [eauto|].
    intros H e (j & Hj & ->). eauto. }
  destruct (check_shape _ d) as [[]|r] eqn:Hshape.
  2: { split; [done|]. intros [(Ha & Hid & _) _].
       assert (check_shape (entries l.(descriptors) (Z.of_nat k)) d = Next tt); [|congruence].
       apply check_shape_ok. rewrite Hids. destruct Ha. tauto. }
  apply check_shape_ok in Hshape.
  destruct Hshape as (S1 & S2 & S3 & S4 & S5 & S6 & S7 & S8 & S9 & S10).
  rewrite Hids in S10.
  destruct (check_requirements d) as [[]|r] eqn:Hreq.
  2: { split; [done|]. intros [(Ha & _) _].
       assert (check_requirements d = Next tt); [|congruence].
       apply check_requirements_ok; [done..|]. destruct Ha. split; [done|set_solver]. }
  apply check_requirements_ok in Hreq as [Hnd Hkn]; [|done..].
  rewrite declare_ok; [|done|done|done|unfold BOOT_NO_PROVIDER; lia|apply table_length|done].
  split.
  - intros [(Hc & Hp & Hs) ->]. split; [|done]. split; [|split; [done|]].
    + split; try done. set_solver.
    + intros j c Hj Hcj Hcd. destruct (Hc c Hcd) as [Hck Hno].
      destruct (table_get l k c Hh Hck) as [(j' & Hj' & _ & Heq)|[Hall _]];
        [unfold BOOT_NO_PROVIDER in *; lia|by apply (Hall j)].
  - intros [(Ha & _ & Hx) ->]. split; [|done]. destruct Ha. split_and!; [|done|done].
    intros c Hc. assert (Hck : capability_is_known c = true) by set_solver.
    split; [done|]. destruct (table_get l k c Hh Hck) as [(j & Hj & Hcj & _)|[_ ->]]; [|done].
    by destruct (Hx j c Hj Hcj).
Qed.

Lemma first_pass_ok l ps :
  ledger_typed l ->
  for_each (check_descriptor l) (seqZ 0 l.(descriptor_count))
    (replicate (Z.to_nat BOOT_CAPABILITY_COUNT) BOOT_NO_PROVIDER) = Next ps <->
  (forall k, Z.of_nat k < l.(descriptor_count) -> stage_good l k) /\
  ps = table l (Z.to_nat l.(descriptor_count)).
Proof.
  intros Ht. pose proof (lt_count _ Ht).
  assert (Hinit : replicate (Z.to_nat BOOT_CAPABILITY_COUNT) BOOT_NO_PROVIDER = table l 0)
    by (unfold table; by rewrite seqZ_nil).
  rewrite Hinit, (for_each_trace _ _ (table l) (stage_good l)), length_seqZ.
  - split; intros [Hall ->]; (split; [|done]); intros k Hk; apply Hall; lia.
  - intros k x s' [-> Hr]%lookup_seqZ_0 Hh. apply check_descriptor_ok; [done|lia|done].
Qed.

(** * The passes over the requirements *)

Lemma check_pass (f : Z -> unit -> ctl unit refusal) n u :
  for_each f (seqZ 0 n) tt = Next u <-> forall i, 0 <= i < n -> f i tt = Next tt.
Proof. by rewrite for_each_check, Forall_seqZ. Qed.

Lemma for_each_if {A} (b : A -> bool) (r : A -> refusal) (xs : list A) u :
  for_each (fun x (_ : unit) => if b x then Return (r x) else Next tt) xs tt = Next u <->
  forall x, x ∈ xs -> b x = false.
Proof.
  rewrite for_each_check, Forall_forall. split; intros H x Hx; specialize (H x Hx).
  - by destruct (b x).
  - by rewrite H.
Qed.

Section planned.
Variables (l : ledger).
Abbreviation n := (l.(descriptor_count)).
Abbreviation stage := (descriptor_at l).
Abbreviation providers := (table l (Z.to_nat n)).
Hypothesis Ht : ledger_typed l.
Hypothesis Hgood : forall k, Z.of_nat k < n -> stage_good l k.

Lemma stage_acceptable i : 0 <= i < n -> acceptable_stage (stage i).
Proof. intros Hi. destruct (Hgood (Z.to_nat i) ltac:(lia)) as [H _]. by rewrite Z2Nat.id in H by lia. Qed.

Lemma stage_id_inj i j : 0 <= i < n -> 0 <= j < n -> (stage i).(id) = (stage j).(id) -> i = j.
Proof.
  intros Hi Hj Heq. destruct (Z.lt_trichotomy i j) as [Hlt|[->|Hlt]]; [|done|]; exfalso.
  - destruct (Hgood (Z.to_nat j) ltac:(lia)) as (_ & H & _). apply (H (Z.to_nat i)); [lia|].
    by rewrite !Z2Nat.id by lia.
  - destruct (Hgood (Z.to_nat i) ltac:(lia)) as (_ & H & _). apply (H (Z.to_nat j)); [lia|].
    by rewrite !Z2Nat.id by lia.
Qed.

Lemma outcome_exclusive i j c :
  0 <= i < n -> 0 <= j < n -> c ∈ outcomes (stage i) -> c ∈ outcomes (stage j) -> i = j.
Proof.
  intros Hi Hj Hci Hcj. destruct (Z.lt_trichotomy i j) as [Hlt|[->|Hlt]]; [|done|]; exfalso.
  - destruct (Hgood (Z.to_nat j) ltac:(lia)) as (_ & _ & H).
    rewrite Z2Nat.id in H by lia. apply (H (Z.to_nat i) c); [lia| |done].
    by rewrite Z2Nat.id by lia.
  - destruct (Hgood (Z.to_nat i) ltac:(lia)) as (_ & _ & H).
    rewrite Z2Nat.id in H by lia. apply (H (Z.to_nat j) c); [lia| |done].
    by rewrite Z2Nat.id by lia.
Qed.

Lemma provider_is i c :
  0 <= i < n -> c ∈ outcomes (stage i) -> provider_of providers c = i.
Proof.
  intros Hi Hc. pose proof (as_capabilities _ (stage_acceptable i Hi) c ltac:(set_solver)) as Hk.
  destruct (table_get l (Z.to_nat n) c) as [(j & Hj & Hcj & Heq)|[Hno _]]; [|done| |].
  - intros k Hk'. apply Hgood. lia.
  - unfold provider_of. rewrite Heq. symmetry. apply (outcome_exclusive _ _ c); [lia|lia|done|done].
  - exfalso. apply (Hno (Z.to_nat i)); [lia|]. by rewrite Z2Nat.id by lia.
Qed.

Lemma provider_found c :
  capability_is_known c = true -> provider_of providers c <> BOOT_NO_PROVIDER ->
  0 <= provider_of providers c < n /\ c ∈ outcomes (stage (provider_of providers c)).
Proof.
  intros Hk Hne. unfold provider_of in *.
  destruct (table_get l (Z.to_nat n) c) as [(j & Hj & Hcj & Heq)|[_ ?]]; [|done| |done].
  - intros k Hk'. apply Hgood. lia.
  - rewrite Heq. split; [lia|done].
Qed.

Lemma requirement_known i c :
  0 <= i < n -> c ∈ requirements (stage i) -> capability_is_known c = true.
Proof. intros Hi Hc. apply (as_capabilities _ (stage_acceptable i Hi)). set_solver. Qed.

Lemma missing_ok u :
  for_each (check_missing l providers) (seqZ 0 n) tt = Next u <->
  forall i c, 0 <= i < n -> c ∈ requirements (stage i) ->
    exists j, 0 <= j < n /\ c ∈ outcomes (stage j).
Proof.
  pose proof (lt_count _ Ht). unfold BOOT_LEDGER_STAGE_CAPACITY in *.
  rewrite check_pass. unfold check_missing. setoid_rewrite for_each_if.
  split; intros Hall i.
  - intros c Hi Hc. specialize (Hall i Hi c Hc). bool_hyps.
    exists (provider_of providers c). apply provider_found; [by apply (requirement_known i)|done].
  - intros Hi c Hc. destruct (Hall i c Hi Hc) as (j & Hj & Hcj).
    rewrite (provider_is j c) by done. apply Z.eqb_neq.
    unfold BOOT_NO_PROVIDER, BOOT_LEDGER_STAGE_CAPACITY. lia.
Qed.

Lemma phases_ok u :
  (forall i c, 0 <= i < n -> c ∈ requirements (stage i) ->
    exists j, 0 <= j < n /\ c ∈ outcomes (stage j)) ->
  for_each (check_phases l providers) (seqZ 0 n) tt = Next u <->
  forall i j c, 0 <= i < n -> 0 <= j < n -> c ∈ requirements (stage i) ->
    c ∈ outcomes (stage j) -> (stage j).(phase) <= (stage i).(phase).
Proof.
  intros Hmiss. rewrite check_pass. unfold check_phases. setoid_rewrite for_each_if.
  split; intros Hall i.
  - intros j c Hi Hj Hc Hcj. specialize (Hall i Hi c Hc).
    rewrite (provider_is j c) in Hall by done. bool_hyps. lia.
  - intros Hi c Hc. destruct (Hmiss i c Hi Hc) as (j & Hj & Hcj).
    rewrite (provider_is j c) by done. specialize (Hall i j c Hi Hj Hc Hcj).
    rewrite Z.gtb_ltb. apply Z.ltb_ge. lia.
Qed.

Lemma irreversible_ok u :
  (forall i c, 0 <= i < n -> c ∈ requirements (stage i) ->
    exists j, 0 <= j < n /\ c ∈ outcomes (stage j)) ->
  for_each (check_irreversible l providers) (seqZ 0 n) tt = Next u <->
  forall i c, 0 <= i < n -> c ∈ irreversible_requirements (stage i).(irreversible_class) ->
    c ∈ requirements (stage i) /\
    forall j, 0 <= j < n -> c ∈ outcomes (stage j) -> (stage j).(phase) <= (stage i).(phase).
Proof.
  pose proof (lt_count _ Ht). unfold BOOT_LEDGER_STAGE_CAPACITY in *.
  intros Hmiss. rewrite check_pass. unfold check_irreversible. setoid_rewrite for_each_if.
  split; intros Hall i.
  - intros c Hi Hc. specialize (Hall i Hi c Hc). bool_hyps.
    split; [by apply has_capability_elem|]. intros j Hj Hcj.
    rewrite (provider_is j c) in * by done. lia.
  - intros Hi c Hc. destruct (Hall i c Hi Hc) as [Hr Hp].
    destruct (Hmiss i c Hi Hr) as (j & Hj & Hcj). specialize (Hp j Hj Hcj).
    rewrite (provider_is j c) by done.
    unfold descriptor_requires. rewrite (proj2 (has_capability_elem _ _ _)) by done. simpl.
    apply orb_false_intro; [apply Z.eqb_neq|rewrite Z.gtb_ltb; apply Z.ltb_ge; lia].
    unfold BOOT_NO_PROVIDER, BOOT_LEDGER_STAGE_CAPACITY. lia.
Qed.

(** * The planning loop *)

Lemma select_spec (planned : list bool) :
  let s := select_stage l providers planned in
  (s = BOOT_NO_PROVIDER /\
   forall i, 0 <= i < n -> stage_ready l providers planned i = false) \/
  (0 <= s < n /\ stage_ready l providers planned s = true /\
   forall i, 0 <= i < n -> stage_ready l providers planned i = true ->
     before_key (stage s) (stage i)).
Proof.
  pose proof (lt_count _ Ht) as Hn. unfold select_stage.
  cut (forall m, 0 <= m -> m <= n ->
    let s := foldl (select_step l providers planned) BOOT_NO_PROVIDER (seqZ 0 m) in
    (s = BOOT_NO_PROVIDER /\
     forall i, 0 <= i < m -> stage_ready l providers planned i = false) \/
    (0 <= s < m /\ stage_ready l providers planned s = true /\
     forall i, 0 <= i < m -> stage_ready l providers planned i = true ->
       before_key (stage s) (stage i))).
  { intros H. apply H; lia. }
  intros m Hm. pattern m. apply natlike_ind; [| |done]; clear m Hm.
  { intros _. left. split; [done|lia]. }
  intros m Hm IH Hle. cbv zeta. rewrite <- Z.add_1_r, seqZ_app, foldl_app by lia.
  specialize (IH ltac:(lia)). cbv zeta in IH. set (s := foldl _ _ (seqZ 0 m)) in *.
  change (seqZ (0 + m) 1) with [m]. simpl. unfold select_step.
  destruct (stage_ready l providers planned m) eqn:Hr; simpl.
  - destruct IH as [[Hs Hnone]|(Hs & Hrs & Hmin)].
    + right. rewrite Hs. simpl. split_and!; [lia|lia|done|]. intros i Hi Hri.
      destruct (decide (i = m)) as [->|]; [unfold before_key; lia|].
      rewrite Hnone in Hri; [done|lia].
    + rewrite (proj2 (Z.eqb_neq s _)) by (unfold BOOT_NO_PROVIDER; lia). simpl.
      destruct (_ || _) eqn:Hb; right; (split_and!; [lia|lia|done|]); intros i Hi Hri.
      * destruct (decide (i = m)) as [->|]; [unfold before_key; lia|].
        specialize (Hmin i ltac:(lia) Hri). unfold before_key in *.
        bool_hyps. destruct Hb as [Hb|Hb]; bool_hyps; lia.
      * destruct (decide (i = m)) as [->|]; [|apply Hmin; [lia|done]].
        unfold before_key. bool_hyps. destruct H0; bool_hyps; lia.
  - destruct IH as [[Hs Hnone]|(Hs & Hrs & Hmin)]; [left|right].
    + split; [done|]. intros i Hi. destruct (decide (i = m)) as [->|]; [done|apply Hnone; lia].
    + split_and!; [lia|lia|done|]. intros i Hi Hri.
      destruct (decide (i = m)) as [->|]; [congruence|apply Hmin; [lia|done]].
Qed.

(** The indices planned so far and the state of the loop they are in. *)
Definition order_so_far (l' : ledger) : list Z := entries l'.(canonical_order) l'.(planned_count).

Record planning (planned : list bool) (l' : ledger) : Prop := {
  pl_ledger : l' = set_plan l l'.(canonical_order) l'.(validated_stage_ids) l'.(planned_count);
  pl_order : zlength l'.(canonical_order) = BOOT_LEDGER_STAGE_CAPACITY;
  pl_ids : zlength l'.(validated_stage_ids) = BOOT_LEDGER_STAGE_CAPACITY;
  pl_planned : zlength planned = BOOT_LEDGER_STAGE_CAPACITY;
  pl_count : 0 <= l'.(planned_count) <= n;
  pl_bits : forall i, 0 <= i < n -> aget false planned i = true <-> i ∈ order_so_far l';
  pl_range : forall i, i ∈ order_so_far l' -> 0 <= i < n;
  pl_nodup : NoDup (order_so_far l');
  pl_names : entries l'.(validated_stage_ids) l'.(planned_count) =
             (fun i => (stage i).(id)) <$> order_so_far l';
  pl_canonical : forall q1 i q2, order_so_far l' = q1 ++ i :: q2 ->
    ready (stage <$> q1) (stage i) /\
    forall j, 0 <= j < n -> j ∉ q1 -> ready (stage <$> q1) (stage j) ->
      before_key (stage i) (stage j)
}.

Lemma stage_ready_spec planned l' i :
  planning planned l' -> 0 <= i < n ->
  stage_ready l providers planned i = true <->
  (i ∉ order_so_far l') /\ ready (stage <$> order_so_far l') (stage i).
Proof.
  intros Hp Hi. pose proof (lt_count _ Ht) as Hn. unfold stage_ready.
  rewrite andb_true_iff, negb_true_iff, <- not_true_iff_false, (pl_bits _ _ Hp i Hi).
  rewrite forallb_forall. split; intros [Hni Hr]; (split; [done|]).
  - intros c Hc. specialize (Hr c ltac:(by apply list_elem_of_In)). bool_hyps.
    destruct (provider_found c) as [Hrange Hout];
      [by apply (requirement_known i)|done|].
    exists (stage (provider_of providers c)). split; [|done].
    apply list_elem_of_fmap. eexists. split; [done|]. by apply (pl_bits _ _ Hp).
  - intros c Hc%list_elem_of_In. destruct (Hr c Hc) as (p & Hp' & Hout).
    apply list_elem_of_fmap in Hp' as (j & -> & Hj).
    pose proof (pl_range _ _ Hp j Hj) as Hjn. rewrite (provider_is j c) by done.
    rewrite (proj2 (pl_bits _ _ Hp j Hjn)) by done.
    rewrite (proj2 (Z.eqb_neq j _)) by (unfold BOOT_NO_PROVIDER; lia). done.
Qed.

Lemma planning_step planned l' s :
  planning planned l' -> l'.(planned_count) < n -> 0 <= s < n ->
  stage_ready l providers planned s = true ->
  (forall i, 0 <= i < n -> stage_ready l providers planned i = true ->
     before_key (stage s) (stage i)) ->
  planning (aset planned s true)
    (set_plan l' (aset l'.(canonical_order) l'.(planned_count) s)
       (aset l'.(validated_stage_ids) l'.(planned_count) (stage s).(id))
       (l'.(planned_count) + 1)).
Proof.
  intros Hp Hlt Hs Hready Hmin. pose proof (lt_count _ Ht) as Hn.
  pose proof (pl_count _ _ Hp) as Hk. pose proof (pl_order _ _ Hp) as Hlo.
  pose proof (pl_ids _ _ Hp) as Hli. pose proof (pl_planned _ _ Hp) as Hlp.
  unfold BOOT_LEDGER_STAGE_CAPACITY in *.
  destruct (proj1 (stage_ready_spec planned l' s Hp Hs) Hready) as [Hsn Hsr].
  assert (Hord : order_so_far (set_plan l' (aset l'.(canonical_order) l'.(planned_count) s)
       (aset l'.(validated_stage_ids) l'.(planned_count) (stage s).(id))
       (l'.(planned_count) + 1)) = order_so_far l' ++ [s])
    by (unfold order_so_far; simpl; apply entries_aset; lia).
  split; rewrite ?Hord; simpl.
  - rewrite (pl_ledger _ _ Hp) at 1. done.
  - by rewrite zlength_aset.
  - by rewrite zlength_aset.
  - by rewrite zlength_aset.
  - lia.
  - intros i Hi. rewrite aget_aset by lia. rewrite elem_of_app, list_elem_of_singleton.
    destruct (s =? i) eqn:He; bool_hyps; [subst; tauto|]. rewrite (pl_bits _ _ Hp i Hi).
    split; [tauto|]. intros [|]; [done|congruence].
  - intros i [Hi| ->%list_elem_of_singleton]%elem_of_app; [by apply (pl_range _ _ Hp)|done].
  - apply NoDup_app. split_and!; [apply (pl_nodup _ _ Hp)| |apply NoDup_singleton].
    set_solver.
  - rewrite entries_aset by lia. rewrite fmap_app, (pl_names _ _ Hp). done.
  - intros q1 i q2 Hq. destruct q2 as [|x q2 _] using rev_ind.
    + apply app_inj_tail in Hq as [<- <-]. split; [done|]. intros j Hj Hjn Hjr.
      apply Hmin; [done|]. by apply (stage_ready_spec planned l').
    + rewrite app_comm_cons, app_assoc in Hq. apply app_inj_tail in Hq as [Hq _].
      by apply (pl_canonical _ _ Hp q1 i q2).
Qed.

Lemma stages_distinct : NoDup (id <$> stages l).
Proof.
  apply NoDup_alt. intros x y c Hx Hy. rewrite list_lookup_fmap in Hx, Hy.
  destruct (stages l !! x) as [d|] eqn:Ex; [|done].
  destruct (stages l !! y) as [e|] eqn:Ey; [|done]. simplify_eq/=.
  apply stages_lookup in Ex as [Hx' ->]; [|done]. apply stages_lookup in Ey as [Hy' ->]; [|done].
  apply Nat2Z.inj, stage_id_inj; [lia|lia|congruence].
Qed.

(** A loop that gets stuck before every stage is planned met a cycle. *)
Lemma stuck_is_cycle planned l' :
  planning planned l' -> l'.(planned_count) < n ->
  (forall i, 0 <= i < n -> stage_ready l providers planned i = false) ->
  ~ exists o, o ≡ₚ stages l /\ topological o.
Proof.
  intros Hp Hlt Hnone (o & Ho & Htop). pose proof (pl_count _ _ Hp) as Hk.
  pose proof (lt_count _ Ht) as Hn. pose proof (pl_order _ _ Hp) as Hlo.
  set (done := fun d : descriptor =>
    bool_decide (d.(id) ∈ (fun i => (stage i).(id)) <$> order_so_far l')).
  assert (Hdone : forall i, 0 <= i < n -> done (stage i) = true <-> i ∈ order_so_far l').
  { intros i Hi. unfold done. rewrite bool_decide_eq_true, list_elem_of_fmap. split; [|eauto].
    intros (j & Heq & Hj). rewrite (stage_id_inj i j); [done|done| |done].
    by apply (pl_range _ _ Hp). }
  assert (Hel : forall d, d ∈ o <-> exists i, 0 <= i < n /\ d = stage i)
    by (intros d; rewrite Ho; by apply stages_elem).
  destruct (topological_progress o done Htop) as (d & Hd & Hnd & Hreq).
  - destruct (decide (Forall (fun i => i ∈ order_so_far l') (seqZ 0 n))) as [Hall|Hex].
    + exfalso. rewrite Forall_forall in Hall.
      pose proof (NoDup_submseteq _ _ (NoDup_seqZ 0 n) Hall) as Hsub%submseteq_length.
      unfold order_so_far in Hsub. rewrite length_seqZ, entries_length in Hsub by lia. lia.
    + apply not_Forall_Exists, Exists_exists in Hex as (i & Hi%elem_of_seqZ & Hin);
        [|typeclasses eauto]. exists (stage i).
      split; [apply Hel; exists i; split; [lia|done]|].
      apply not_true_is_false. rewrite Hdone by lia. done.
  - apply Hel in Hd as (i & Hi & ->).
    assert (stage_ready l providers planned i = true); [|rewrite Hnone in *; done].
    apply (stage_ready_spec planned l'); [done|done|]. split.
    { rewrite <- Hdone by done. congruence. }
    intros c Hc. destruct (Hreq c Hc) as (p & Hpo & Hpd & Hpc).
    exists p. split; [|done]. apply Hel in Hpo as (j & Hj & ->).
    apply list_elem_of_fmap_2. by apply Hdone.
Qed.

Lemma plan_loop_spec fuel planned l' :
  planning planned l' -> n - l'.(planned_count) <= Z.of_nat fuel ->
  match plan_loop fuel providers planned l' with
  | Next l2 => exists planned2, planning planned2 l2 /\ l2.(planned_count) = n
  | Return (r, l2) =>
      r.1.1 = BOOT_LEDGER_STATUS_CAPABILITY_DEPENDENCY_CYCLE /\
      r.2 = BOOT_CAPABILITY_INVALID /\ l2.(validated) = l.(validated) /\
      ~ exists o, o ≡ₚ stages l /\ topological o
  end.
Proof.
  revert planned l'. induction fuel as [|fuel IH]; intros planned l' Hp Hfuel;
    pose proof (pl_count _ _ Hp) as Hk; rewrite (pl_ledger _ _ Hp); simpl;
    destruct (_ <? _) eqn:Hlt; bool_hyps; simpl.
  - lia.
  - exists planned. rewrite <- (pl_ledger _ _ Hp). split; [done|]. lia.
  - change (select_stage _ providers planned) with (select_stage l providers planned).
    destruct (select_spec planned) as [[-> Hnone]|(Hs & Hr & Hmin)].
    + simpl. split_and!; try done. by apply (stuck_is_cycle planned l').
    + set (s := select_stage l providers planned) in *.
      pose proof (lt_count _ Ht) as Hn.
      rewrite (proj2 (Z.eqb_neq s _)) by (unfold BOOT_NO_PROVIDER; lia).
      pose proof (planning_step planned l' s Hp Hlt Hs Hr Hmin) as Hnext.
      pose proof (IH _ _ Hnext ltac:(simpl; lia)) as Hrest.
      rewrite (pl_ledger _ _ Hp) in Hrest. exact Hrest.
  - exists planned. rewrite <- (pl_ledger _ _ Hp). split; [done|]. lia.
Qed.

(** A finished loop has planned every stage, in the canonical order. *)
Lemma finished_plan planned l' :
  planning planned l' -> l'.(planned_count) = n ->
  plan l' ≡ₚ stages l /\ canonical (plan l').
Proof.
  intros Hp Hall. pose proof (lt_count _ Ht) as Hn. pose proof (pl_order _ _ Hp) as Hlo.
  assert (Hplan : plan l' = stage <$> order_so_far l').
  { unfold plan, order_so_far. rewrite (pl_ledger _ _ Hp). done. }
  assert (Hperm : order_so_far l' ≡ₚ seqZ 0 n).
  { apply submseteq_length_Permutation.
    - apply NoDup_submseteq; [apply (pl_nodup _ _ Hp)|].
      intros i Hi%(pl_range _ _ Hp). apply elem_of_seqZ. lia.
    - unfold order_so_far. rewrite length_seqZ, entries_length by lia. lia. }
  assert (Hstages : stages l = stage <$> seqZ 0 n).
  { apply list_eq. intros k. rewrite list_lookup_fmap.
    destruct (seqZ 0 n !! k) as [i|] eqn:Hi.
    - apply lookup_seqZ_0 in Hi as [-> Hi]. simpl. apply stages_lookup; [done|]. split; [lia|done].
    - simpl. apply lookup_ge_None. rewrite stages_length by done.
      apply lookup_ge_None in Hi. rewrite length_seqZ in Hi. lia. }
  split; [by rewrite Hplan, Hstages, Hperm|].
  intros o1 d o2 Ho. rewrite Hplan in Ho.
  apply fmap_app_inv in Ho as (q1 & q2 & -> & Ho2 & Hq). symmetry in Ho2.
  destruct q2 as [|i q2]; [done|]. simplify_eq/=.
  destruct (pl_canonical _ _ Hp q1 i q2 Hq) as [Hr Hmin]. split; [done|].
  intros e He Hre.
  assert (exists j, j ∈ i :: q2 /\ e = stage j) as (j & Hj & ->).
  { change (stage i :: (stage <$> q2)) with (stage <$> i :: q2) in He.
    apply list_elem_of_fmap in He as (j & -> & Hj). eauto. }
  assert (Hjo : j ∈ order_so_far l') by (rewrite Hq; set_solver).
  apply Hmin; [by apply (pl_range _ _ Hp)| |done].
  pose proof (pl_nodup _ _ Hp) as Hnd. rewrite Hq in Hnd.
  apply NoDup_app in Hnd as (_ & Hd & _). intros Hq1. apply (Hd j Hq1). set_solver.
Qed.

Lemma planning_start :
  l.(planned_count) = 0 ->
  planning (replicate (Z.to_nat BOOT_LEDGER_STAGE_CAPACITY) false) l.
Proof.
  intros H0. pose proof (lt_count _ Ht) as Hn.
  assert (Ho : order_so_far l = []) by (unfold order_so_far; by rewrite H0).
  split; rewrite ?Ho, ?H0.
  - rewrite <- H0 at 1. by destruct l.
  - apply (lt_order _ Ht).
  - apply (lt_ids _ Ht).
  - unfold zlength. by rewrite length_replicate.
  - lia.
  - intros i Hi. rewrite aget_replicate by (unfold BOOT_LEDGER_STAGE_CAPACITY in *; lia).
    set_solver.
  - set_solver.
  - constructor.
  - done.
  - intros q1 i q2 Hq. by destruct q1.
Qed.
End planned.

(** * Validation *)

Lemma prepared_typed l : ledger_typed l -> ledger_typed (prepared l).
Proof. intros []. by split. Qed.

(** What an accepted plan leaves in the ledger. *)
Record validated_plan l l' : Prop := {
  vp_typed : ledger_typed l';
  vp_stages : stages l' = stages l;
  vp_declared : l'.(descriptor_count) = l.(descriptor_count);
  vp_plan : plan l' ≡ₚ stages l;
  vp_canonical : canonical (plan l');
  vp_count : l'.(planned_count) = l.(descriptor_count);
  vp_range : forall i, i ∈ entries l'.(canonical_order) l'.(planned_count) ->
             0 <= i < l.(descriptor_count);
  vp_ids : entries l'.(validated_stage_ids) l'.(planned_count) = id <$> plan l';
  vp_fingerprint : l'.(validated_plan_fingerprint) = fingerprint_plan l';
  vp_flags : l'.(validated) = true /\ l'.(executed) = false /\ l'.(receipt_count) = 0 /\
             l'.(status) = BOOT_LEDGER_STATUS_OK
}.

Lemma stage_good_spec l :
  ledger_typed l ->
  (forall k, Z.of_nat k < l.(descriptor_count) -> stage_good l k) <->
  (forall d, d ∈ stages l -> acceptable_stage d) /\ NoDup (id <$> stages l) /\
  (forall d e c, d ∈ stages l -> e ∈ stages l -> c ∈ outcomes d -> c ∈ outcomes e ->
     d.(id) = e.(id)).
Proof.
  intros Ht. split.
  - intros Hg. split_and!.
    + intros d (i & Hi & ->)%stages_elem; [|done]. by apply stage_acceptable.
    + by apply stages_distinct.
    + intros d e c (i & Hi & ->)%stages_elem (j & Hj & ->)%stages_elem Hc Hc'; [|done..].
      by rewrite (outcome_exclusive l Hg i j c).
  - intros (Ha & Hnd & Hx) k Hk.
    assert (Hlook : forall j, (j <= k)%nat ->
              stages l !! j = Some (descriptor_at l (Z.of_nat j)))
      by (intros j Hj; apply stages_lookup; [done|]; split; [lia|done]).
    assert (Hin : forall j, (j <= k)%nat -> descriptor_at l (Z.of_nat j) ∈ stages l)
      by (intros j Hj; eapply list_elem_of_lookup_2, Hlook, Hj).
    assert (Hid : forall j, (j < k)%nat -> (descriptor_at l (Z.of_nat j)).(id) <>
                            (descriptor_at l (Z.of_nat k)).(id)).
    { intros j Hj Heq. cut (j = k); [lia|].
      eapply NoDup_lookup; [exact Hnd| |]; rewrite list_lookup_fmap, Hlook by lia; [done|].
      simpl. by rewrite Heq. }
    split_and!; [apply Ha, Hin; lia|done|].
    intros j c Hj Hcj Hck. apply (Hid j Hj). apply (Hx _ _ c); [apply Hin; lia..|done|done].
Qed.

Lemma for_each_refusal {A S} (P : refusal -> Prop) (body : A -> S -> ctl S refusal) xs s r :
  (forall x s r, body x s = Return r -> P r) -> for_each body xs s = Return r -> P r.
Proof.
  intros Hb. revert s. induction xs as [|x xs IH]; intros s; simpl; [done|].
  destruct (body x s) eqn:Hx; [apply IH|]. intros [= <-]. by eapply Hb.
Qed.

Definition refuses (r : refusal) : Prop := r.1.1 <> BOOT_LEDGER_STATUS_OK.

Lemma refused_not_ok r l : refuses r -> (refused r l).1 <> BOOT_LEDGER_STATUS_OK.
Proof. by destruct r as [[]]. Qed.

Ltac check_refuses :=
  repeat match goal with
  | H : for_each _ _ _ = Return _ |- _ =>
      revert H; apply for_each_refusal; clear; intros
  | H : (if ?b then _ else _) = Return _ |- _ => destruct b
  | H : match ?x with Next _ => _ | Return _ => _ end = Return _ |- _ => destruct x eqn:?
  | H : Return _ = Return _ |- _ => injection H as <-
  | H : Next _ = Return _ |- _ => discriminate H
  | H : refuse _ _ _ = Return _ |- _ => injection H as <-
  end.

Lemma check_descriptor_refuses l i ps r : check_descriptor l i ps = Return r -> refuses r.
Proof.
  unfold check_descriptor, check_shape, check_requirements, declare_provider.
  intros H. cbv zeta in H. check_refuses; done.
Qed.

Lemma check_missing_refuses l ps i u r : check_missing l ps i u = Return r -> refuses r.
Proof. unfold check_missing. intros H. cbv zeta in H. check_refuses; done. Qed.

Lemma check_irreversible_refuses l ps i u r : check_irreversible l ps i u = Return r -> refuses r.
Proof. unfold check_irreversible. intros H. cbv zeta in H. check_refuses; done. Qed.

Lemma check_phases_refuses l ps i u r : check_phases l ps i u = Return r -> refuses r.
Proof. unfold check_phases. intros H. cbv zeta in H. check_refuses; done. Qed.

Create HintDb ledger.
#[local] Hint Resolve check_descriptor_refuses check_missing_refuses check_irreversible_refuses
  check_phases_refuses refused_not_ok : ledger.

Lemma zlength_stages l : ledger_typed l -> zlength (stages l) = l.(descriptor_count).
Proof. intros Ht. unfold zlength. rewrite stages_length by done. pose proof (lt_count _ Ht). lia. Qed.

(** The requirements of the stages, by index and by descriptor. *)
Lemma provided_by_index l :
  ledger_typed l ->
  (forall i c, 0 <= i < l.(descriptor_count) -> c ∈ requirements (descriptor_at l i) ->
     exists j, 0 <= j < l.(descriptor_count) /\ c ∈ outcomes (descriptor_at l j)) <->
  (forall d c, d ∈ stages l -> c ∈ requirements d -> exists p, p ∈ stages l /\ c ∈ outcomes p).
Proof.
  intros Ht. split.
  - intros H d c (i & Hi & ->)%stages_elem Hc; [|done]. destruct (H i c Hi Hc) as (j & Hj & ?).
    exists (descriptor_at l j). split; [apply stages_elem; eauto|done].
  - intros H i c Hi Hc. destruct (H (descriptor_at l i) c) as (p & Hp & ?); [|done|].
    + apply stages_elem; eauto.
    + apply stages_elem in Hp as (j & Hj & ->); [|done]. eauto.
Qed.

Lemma accepted_ledger l l' planned :
  let l1 := prepared l in
  ledger_typed l -> (forall k, Z.of_nat k < l1.(descriptor_count) -> stage_good l1 k) ->
  planning l1 planned l' -> l'.(planned_count) = l1.(descriptor_count) ->
  validated_plan l (set_flags (set_fingerprints l' (fingerprint_plan l') 0) true
                      l'.(executed) BOOT_LEDGER_STATUS_OK).
Proof.
  intros l1 Ht Hg Hp Hall. pose proof (prepared_typed l Ht) as Ht1. fold l1 in Ht1.
  destruct (finished_plan l1 Ht1 Hg planned l' Hp Hall) as [Hperm Hcan].
  pose proof (pl_names _ _ _ Hp) as Hnames. pose proof (pl_ledger _ _ _ Hp) as Hl.
  split; simpl.
  - pose proof (pl_order _ _ _ Hp). pose proof (pl_ids _ _ _ Hp).
    destruct Ht. rewrite Hl. by split.
  - unfold stages. simpl. by rewrite Hl.
  - by rewrite Hl.
  - exact Hperm.
  - exact Hcan.
  - exact Hall.
  - apply (pl_range _ _ _ Hp).
  - rewrite Hnames. unfold plan, order_so_far. simpl. rewrite <- list_fmap_compose.
    apply list_fmap_ext. intros k i Hi. by rewrite Hl.
  - done.
  - rewrite Hl. done.
Qed.

Lemma plan_validate_spec l :
  ledger_typed l ->
  let '(st, l') := validate l in
  (st = BOOT_LEDGER_STATUS_OK <-> acceptable (stages l)) /\
  (st = BOOT_LEDGER_STATUS_OK -> validated_plan l l').
Proof.
  intros Ht. pose proof (lt_count _ Ht) as Hn. pose proof (prepared_typed l Ht) as Ht1.
  set (l1 := prepared l) in *.
  assert (Hno : forall r l2, refuses r -> ~ acceptable (stages l) ->
    let '(st, l') := refused r l2 in
    (st = BOOT_LEDGER_STATUS_OK <-> acceptable (stages l)) /\
    (st = BOOT_LEDGER_STATUS_OK -> validated_plan l l')).
  { intros [[st stage] c] l2 Hr Ha. unfold refuses in Hr. simpl in *. tauto. }
  unfold validate, check_plan. fold l1.
  cbv zeta. change l1.(descriptor_count) with l.(descriptor_count) at 1 2.
  pose proof (zlength_stages l Ht) as Hz.
  destruct (l.(descriptor_count) =? 0) eqn:H0; bool_hyps.
  { apply Hno; [done|]. intros Ha. pose proof (ac_count _ Ha). lia. }
  rewrite Z.gtb_ltb, (proj2 (Z.ltb_ge _ _)) by lia.
  assert (Hgoods : acceptable (stages l) ->
    forall k, Z.of_nat k < l1.(descriptor_count) -> stage_good l1 k).
  { intros Ha. apply stage_good_spec; [done|]. destruct Ha. done. }
  destruct (for_each (check_descriptor l1) _ _) as [ps|r] eqn:H1.
  2: { apply Hno; [revert H1; apply for_each_refusal; eauto with ledger|]. intros Ha.
       rewrite (proj2 (first_pass_ok l1 (table l1 (Z.to_nat l1.(descriptor_count))) Ht1)) in H1; [done|]. split; [by apply Hgoods|done]. }
  apply first_pass_ok in H1 as [Hg ->]; [|done].
  assert (Hprov : acceptable (stages l) -> forall i c, 0 <= i < l1.(descriptor_count) ->
    c ∈ requirements (descriptor_at l1 i) ->
    exists j, 0 <= j < l1.(descriptor_count) /\ c ∈ outcomes (descriptor_at l1 j)).
  { intros Ha. apply provided_by_index; [done|]. intros d c Hd Hc.
    destruct (ac_provided _ Ha d c Hd Hc) as (p & ? & ? & _). eauto. }
  destruct (for_each (check_missing l1 _) _ _) as [[]|r] eqn:H2.
  2: { apply Hno; [revert H2; apply for_each_refusal; eauto with ledger|]. intros Ha.
       rewrite (proj2 (missing_ok l1 Ht1 Hg tt)) in H2; [done|]. by apply Hprov. }
  pose proof (proj1 (missing_ok l1 Ht1 Hg tt) H2) as Hmiss.
  destruct (for_each (check_irreversible l1 _) _ _) as [[]|r] eqn:H3.
  2: { apply Hno; [revert H3; apply for_each_refusal; eauto with ledger|]. intros Ha.
       rewrite (proj2 (irreversible_ok l1 Ht1 Hg tt Hmiss)) in H3; [done|].
       intros i c Hi Hc.
       assert (Hin : descriptor_at l1 i ∈ stages l) by (apply (stages_elem l1); eauto).
       pose proof (ac_irreversible _ Ha _ c Hin Hc) as Hr. split; [done|].
       intros j Hj Hcj. destruct (ac_provided _ Ha _ c Hin Hr) as (p & Hp & Hpc & Hph).
       apply (stages_elem l1) in Hp as (j' & Hj' & ->); [|done].
       by rewrite (outcome_exclusive l1 Hg j j' c). }
  pose proof (proj1 (irreversible_ok l1 Ht1 Hg tt Hmiss) H3) as Hirr.
  pose proof (plan_loop_spec l1 Ht1 Hg (Z.to_nat l1.(descriptor_count)) _ l1
    (planning_start l1 Ht1 Hg eq_refl) ltac:(simpl; lia)) as Hloop.
  destruct (plan_loop _ _ _ l1) as [l2|[r l2]].
  2: { destruct Hloop as (Hr & _ & _ & Hcyc). apply Hno; [unfold refuses; by rewrite Hr|].
       intros Ha. apply Hcyc, Ha. }
  destruct Hloop as (planned & Hp & Hall).
  assert (Hphase : for_each (check_phases l2 (table l1 (Z.to_nat l1.(descriptor_count))))
            (seqZ 0 l1.(descriptor_count)) tt =
          for_each (check_phases l1 (table l1 (Z.to_nat l1.(descriptor_count))))
            (seqZ 0 l1.(descriptor_count)) tt) by (rewrite (pl_ledger _ _ _ Hp); done).
  rewrite Hphase. destruct (finished_plan l1 Ht1 Hg planned l2 Hp Hall) as [Hperm Hcan].
  destruct (for_each (check_phases l1 _) _ _) as [[]|r] eqn:H4.
  2: { apply Hno; [revert H4; apply for_each_refusal; eauto with ledger|]. intros Ha.
       rewrite (proj2 (phases_ok l1 Ht1 Hg tt Hmiss)) in H4; [done|].
       intros i j c Hi Hj Hc Hcj.
       assert (Hin : descriptor_at l1 i ∈ stages l) by (apply (stages_elem l1); eauto).
       destruct (ac_provided _ Ha _ c Hin Hc) as (p & Hpin & Hpc & Hph).
       apply (stages_elem l1) in Hpin as (j' & Hj' & ->); [|done].
       by rewrite (outcome_exclusive l1 Hg j j' c). }
  pose proof (proj1 (phases_ok l1 Ht1 Hg tt Hmiss) H4) as Hphases.
  split; [|intros _; by apply (accepted_ledger l l2 planned)].
  split; [intros _|done].
  destruct (proj1 (stage_good_spec l1 Ht1) Hg) as (A1 & A2 & A3).
  split.
  - lia.
  - done.
  - done.
  - done.
  - intros d c Hd Hc. apply (stages_elem l1) in Hd as (i & Hi & ->); [|done].
    destruct (Hmiss i c Hi Hc) as (j & Hj & Hcj). exists (descriptor_at l1 j).
    split_and!; [apply (stages_elem l1); eauto|done|by apply (Hphases i j c)].
  - intros d c Hd Hc. apply (stages_elem l1) in Hd as (i & Hi & ->); [|done].
    by apply (Hirr i c Hi).
  - exists (plan l2). split; [exact Hperm|by apply canonical_topological].
Qed.

(** ** What a refusal names *)

Lemma check_shape_defect l k r :
  ledger_typed l -> Z.of_nat k < l.(descriptor_count) ->
  check_shape (entries l.(descriptors) (Z.of_nat k)) (descriptor_at l (Z.of_nat k)) = Return r ->
  defect (stages l) r.1.1 r.1.2 r.2.
Proof.
  intros Ht Hk. set (d := descriptor_at l (Z.of_nat k)).
  assert (Hd : stages l !! k = Some d) by (by apply stages_lookup).
  assert (Hin : d ∈ stages l) by (by eapply list_elem_of_lookup_2).
  unfold check_shape. split_if; [intros [= <-]; constructor; [done|by bool_hyps]|].
  split_if.
  { intros [= <-]. apply defect_malformed; [done|].
    apply orb_true_iff in Heqb0 as [[[Hb|Hb]%orb_true_iff|Hb]%orb_true_iff|Hb];
      bool_hyps; try rewrite bool_decide_eq_false in *; [lia|lia|..].
    - right. right. left. destruct d.(name); [|done]. by destruct Hb.
    - right. right. right. destruct d.(execute); [|done]. by destruct Hb. }
  split_if.
  { intros [= <-]. constructor; [done|].
    apply orb_true_iff in Heqb1 as [[Hb|Hb]%orb_true_iff|Hb]; bool_hyps; lia. }
  split_if.
  { intros [= <-]. apply andb_true_iff in Heqb2 as [Hs [Hb|Hb]%orb_true_iff];
      constructor; try done; [by left|right]. by bool_hyps. }
  intros (e & He & Hb)%for_each_return. split_if_in Hb; [|done]. injection Hb as <-. bool_hyps.
  apply (earlier_elem l k) in He as (j & Hj & ->); [|done|lia].
  eapply (defect_duplicate_stage _ j k); [done|apply stages_lookup; [done|split; [lia|done]]|done|done].
Qed.

Lemma check_requirements_defect ds d r :
  d ∈ ds -> descriptor_typed d -> d.(required_capability_count) <= BOOT_STAGE_CAPABILITY_CAPACITY ->
  check_requirements d = Return r -> defect ds r.1.1 r.1.2 r.2.
Proof.
  intros Hin Ht Hb. pose proof (dt_counts _ Ht).
  assert (Hn : 0 <= d.(required_capability_count) <= zlength d.(required_capabilities))
    by (rewrite (dt_required _ Ht); lia).
  unfold check_requirements. intros (i & Hi%elem_of_seqZ & Hr)%for_each_return. cbn zeta in Hr.
  assert (Hc : aget 0 d.(required_capabilities) i ∈ requirements d)
    by (apply (entries_elem 0); [done|]; exists i; split; [lia|done]).
  split_if_in Hr.
  { injection Hr as <-. constructor; [done|set_solver|by bool_hyps]. }
  split_if_in Hr; [|done]. injection Hr as <-. constructor; [done|done|]. intros Hnd.
  apply (proj2 (entries_NoDup _ _ Hn)) with (i := i) in Hnd; [|lia].
  by apply Hnd, has_capability_elem.
Qed.

Lemma declare_defect l k r :
  ledger_typed l -> Z.of_nat k < l.(descriptor_count) ->
  (forall j, (j < k)%nat -> stage_good l j) ->
  let d := descriptor_at l (Z.of_nat k) in
  (forall j, (j < k)%nat -> (descriptor_at l (Z.of_nat j)).(id) <> d.(id)) ->
  d.(provided_capability_count) <= BOOT_STAGE_CAPABILITY_CAPACITY ->
  d.(skipped_capability_count) <= BOOT_STAGE_CAPABILITY_CAPACITY ->
  for_each (declare_provider (Z.of_nat k) d)
    (seqZ 0 (d.(provided_capability_count) + d.(skipped_capability_count))) (table l k) = Return r ->
  defect (stages l) r.1.1 r.1.2 r.2.
Proof.
  intros Ht Hk Hh d Hid Hpb Hsb Hr. pose proof (lt_count _ Ht) as Hcount.
  assert (Hd : descriptor_typed d) by (apply stage_typed; [done|lia]).
  assert (Hin : d ∈ stages l) by (apply stages_elem; [done|]; exists (Z.of_nat k); split; [lia|done]).
  assert (Hnew : forall c, capability_is_known c = true -> aget 0 (table l k) c <> Z.of_nat k).
  { intros c Hc. destruct (table_get l k c Hh Hc) as [(j & Hj & _ & ->)|[_ ->]]; [lia|].
    unfold BOOT_NO_PROVIDER. lia. }
  assert (Hi : 0 <= Z.of_nat k < BOOT_NO_PROVIDER) by (unfold BOOT_NO_PROVIDER; lia).
  pose proof (declare_turn (Z.of_nat k) d (table l k) Hd Hpb Hsb Hi (table_length l k) Hnew) as Hturn.
  apply (for_each_trace_return _ _ (fun m => mark (Z.of_nat k) (take m (outcomes d)) (table l k))
    (outcome_fresh d (table l k)) r Hturn) in Hr as (m & x & Hx & Hhist & Hb).
  assert (Hno : ~ outcome_fresh d (table l k) m).
  { intros Hf. pose proof (proj2 (Hturn m x _ Hx Hhist) (conj Hf eq_refl)). congruence. }
  apply (declare_returns (Z.of_nat k) d Hd Hpb Hsb m x _ r Hx) in Hb as (c & Hc & ->).
  assert (Hout : c ∈ outcomes d) by (by eapply list_elem_of_lookup_2).
  destruct (capability_is_known c) eqn:Hkn; [|constructor; [done|set_solver|done]].
  constructor; [done|done|].
  destruct (table_get l k c Hh Hkn) as [(j & Hj & Hcj & _)|[_ Hnone]].
  { left. exists (descriptor_at l (Z.of_nat j)). split_and!; [|by apply Hid|done].
    apply stages_elem; [done|]. exists (Z.of_nat j). split; [lia|done]. }
  right. destruct (decide (NoDup (provides d))) as [Hp|]; [|by left].
  destruct (decide (NoDup (skips d))) as [Hs|]; [|by right]. exfalso. apply Hno.
  intros c' Hc'. rewrite Hc in Hc'. injection Hc' as <-. split_and!; [done|done|].
  assert (Htake : forall (q : list Z) n, NoDup q -> q !! n = Some c -> c ∉ take n q).
  { intros q n Hq Hn [y [Hy Hlt]%lookup_take_Some]%list_elem_of_lookup.
    pose proof (NoDup_lookup q n y c Hq Hn Hy). lia. }
  unfold outcomes in Hc. case_decide as Hlt.
  - rewrite lookup_app_l in Hc by done. by apply Htake.
  - rewrite lookup_app_r in Hc by lia. by apply Htake.
Qed.

Lemma check_descriptor_defect l k r :
  ledger_typed l -> Z.of_nat k < l.(descriptor_count) ->
  (forall j, (j < k)%nat -> stage_good l j) ->
  check_descriptor l (Z.of_nat k) (table l k) = Return r -> defect (stages l) r.1.1 r.1.2 r.2.
Proof.
  intros Ht Hk Hh. unfold check_descriptor. set (d := descriptor_at l (Z.of_nat k)).
  destruct (check_shape _ d) as [[]|r'] eqn:Hshape; [|intros [= <-]; by eapply check_shape_defect].
  apply check_shape_ok in Hshape.
  destruct Hshape as (_ & _ & _ & _ & _ & S6 & S7 & S8 & _ & S10).
  destruct (check_requirements d) as [[]|r'] eqn:Hreq.
  - apply declare_defect; try done. intros j Hj. apply S10. apply (earlier_elem l k); [done|lia|].
    exists j. split; [done|done].
  - intros [= <-]. eapply (check_requirements_defect _ d); try done.
    + apply stages_elem; [done|]. exists (Z.of_nat k). split; [lia|done].
    + apply stage_typed; [done|lia].
Qed.

Section refused_passes.
Variables (l : ledger).
Abbreviation n := (l.(descriptor_count)).
Abbreviation providers := (table l (Z.to_nat n)).
Hypothesis Ht : ledger_typed l.
Hypothesis Hgood : forall k, Z.of_nat k < n -> stage_good l k.

Lemma provider_small j : 0 <= j < n -> j <> BOOT_NO_PROVIDER.
Proof.
  pose proof (lt_count _ Ht). intros Hj. unfold BOOT_NO_PROVIDER, BOOT_LEDGER_STAGE_CAPACITY in *. lia.
Qed.

Lemma pass_stage i : i ∈ seqZ 0 n -> 0 <= i < n /\ descriptor_at l i ∈ stages l.
Proof.
  intros Hi%elem_of_seqZ. split; [lia|]. apply stages_elem; [done|]. exists i. split; [lia|done].
Qed.

Lemma check_missing_defect r :
  for_each (check_missing l providers) (seqZ 0 n) tt = Return r -> defect (stages l) r.1.1 r.1.2 r.2.
Proof.
  intros (i & [Hi Hin]%pass_stage & (c & Hc & Hb)%for_each_return)%for_each_return.
  split_if_in Hb; [|done]. injection Hb as <-. bool_hyps. constructor; [done|done|].
  intros p (j & Hj & ->)%stages_elem Hcj; [|done].
  rewrite (provider_is l Ht Hgood j c Hj Hcj) in Heqb. by apply (provider_small j Hj).
Qed.

Hypothesis Hmiss : forall i c, 0 <= i < n -> c ∈ requirements (descriptor_at l i) ->
  exists j, 0 <= j < n /\ c ∈ outcomes (descriptor_at l j).

Lemma check_irreversible_defect r :
  for_each (check_irreversible l providers) (seqZ 0 n) tt = Return r ->
  defect (stages l) r.1.1 r.1.2 r.2.
Proof.
  intros (i & [Hi Hin]%pass_stage & (c & Hc & Hb)%for_each_return)%for_each_return.
  split_if_in Hb; [|done]. injection Hb as <-. constructor; [done|done|].
  destruct (decide (c ∈ requirements (descriptor_at l i))) as [Hr|]; [right|by left].
  destruct (Hmiss i c Hi Hr) as (j & Hj & Hcj). rewrite (provider_is l Ht Hgood j c Hj Hcj) in Heqb.
  unfold descriptor_requires in Heqb. rewrite (proj2 (has_capability_elem _ _ _)) in Heqb by done.
  cbn [negb orb] in Heqb. exists (descriptor_at l j). split_and!; [apply stages_elem; eauto|done|].
  apply orb_true_iff in Heqb as [Hb|Hb]; bool_hyps; [|lia]. by destruct (provider_small j Hj).
Qed.

Lemma check_phases_defect r :
  for_each (check_phases l providers) (seqZ 0 n) tt = Return r -> defect (stages l) r.1.1 r.1.2 r.2.
Proof.
  intros (i & [Hi Hin]%pass_stage & (c & Hc & Hb)%for_each_return)%for_each_return.
  split_if_in Hb; [|done]. injection Hb as <-. bool_hyps.
  destruct (Hmiss i c Hi Hc) as (j & Hj & Hcj). rewrite (provider_is l Ht Hgood j c Hj Hcj) in Heqb.
  apply (defect_later_phase _ _ _ (descriptor_at l j)); [done|done|apply stages_elem; eauto|done|lia].
Qed.
End refused_passes.

(** A refused plan has the defect it is refused for, and the ledger records it. *)
Lemma validate_defect l :
  ledger_typed l ->
  let '(st, l') := validate l in
  st <> BOOT_LEDGER_STATUS_OK ->
  defect (stages l) st l'.(refusal_stage) l'.(refusal_capability) /\
  l'.(status) = st /\ l'.(validated) = false.
Proof.
  intros Ht. pose proof (lt_count _ Ht) as Hn. pose proof (prepared_typed l Ht) as Ht1.
  set (l1 := prepared l) in *.
  assert (Hyes : forall r l2, defect (stages l1) r.1.1 r.1.2 r.2 -> l2.(validated) = false ->
    let '(st, l') := refused r l2 in
    st <> BOOT_LEDGER_STATUS_OK ->
    defect (stages l) st l'.(refusal_stage) l'.(refusal_capability) /\
    l'.(status) = st /\ l'.(validated) = false).
  { intros [[st stage] c] l2 Hr Hv. simpl in *. done. }
  unfold validate, check_plan. fold l1.
  cbv zeta. change l1.(descriptor_count) with l.(descriptor_count) at 1 2.
  pose proof (zlength_stages l Ht) as Hz.
  destruct (l.(descriptor_count) =? 0) eqn:H0; bool_hyps.
  { apply Hyes; [|done]. constructor. apply nil_length_inv. unfold zlength in Hz.
    change (stages l1) with (stages l). lia. }
  rewrite Z.gtb_ltb, (proj2 (Z.ltb_ge _ _)) by lia.
  assert (Hinit : replicate (Z.to_nat BOOT_CAPABILITY_COUNT) BOOT_NO_PROVIDER = table l1 0)
    by (unfold table; by rewrite seqZ_nil).
  destruct (for_each (check_descriptor l1) _ _) as [ps|r] eqn:H1.
  2: { apply Hyes; [|done]. rewrite Hinit in H1.
       apply (for_each_trace_return _ _ (table l1) (stage_good l1)) in H1
         as (k & x & [-> Hx]%lookup_seqZ_0 & Hh & Hb); [by apply (check_descriptor_defect l1 k); [|lia|..]|].
       intros k x s' [-> Hx]%lookup_seqZ_0 Hh. apply check_descriptor_ok; [done|lia|done]. }
  apply first_pass_ok in H1 as [Hg ->]; [|done].
  destruct (for_each (check_missing l1 _) _ _) as [[]|r] eqn:H2.
  2: { apply Hyes; [by apply check_missing_defect|done]. }
  pose proof (proj1 (missing_ok l1 Ht1 Hg tt) H2) as Hmiss.
  destruct (for_each (check_irreversible l1 _) _ _) as [[]|r] eqn:H3.
  2: { apply Hyes; [by apply check_irreversible_defect|done]. }
  pose proof (plan_loop_spec l1 Ht1 Hg (Z.to_nat l1.(descriptor_count)) _ l1
    (planning_start l1 Ht1 Hg eq_refl) ltac:(simpl; lia)) as Hloop.
  destruct (plan_loop _ _ _ l1) as [l2|[r l2]] eqn:Hpl.
  2: { destruct Hloop as (Hr & Hc & Hv & Hcyc). apply Hyes; [|done].
       rewrite Hr, Hc. constructor; [|done]. by apply provided_by_index. }
  destruct Hloop as (planned & Hp & Hall).
  assert (Hphase : for_each (check_phases l2 (table l1 (Z.to_nat l1.(descriptor_count))))
            (seqZ 0 l1.(descriptor_count)) tt =
          for_each (check_phases l1 (table l1 (Z.to_nat l1.(descriptor_count))))
            (seqZ 0 l1.(descriptor_count)) tt) by (rewrite (pl_ledger _ _ _ Hp); done).
  rewrite Hphase. destruct (for_each (check_phases l1 _) _ _) as [[]|r] eqn:H4; [done|].
  apply Hyes; [by apply check_phases_defect|by rewrite (pl_ledger _ _ _ Hp)].
Qed.

(** ** The fingerprint is a function of the plan *)

Lemma fingerprint_of_plan l :
  0 <= l.(planned_count) <= zlength l.(canonical_order) ->
  fingerprint_plan l =
  foldl fingerprint_descriptor
    (fingerprint_u64 (fingerprint_u64 BOOT_FINGERPRINT_OFFSET BOOT_FINGERPRINT_VERSION)
       l.(planned_count)) (plan l).
Proof.
  intros Hn. unfold fingerprint_plan, plan, entries. cbv zeta.
  rewrite (foldl_aget 0 (fun fp i => fingerprint_descriptor fp (descriptor_at l i))) by done.
  generalize (fingerprint_u64 (fingerprint_u64 BOOT_FINGERPRINT_OFFSET BOOT_FINGERPRINT_VERSION)
       l.(planned_count)).
  induction (take _ _) as [|i q IH]; intros fp; [done|]. simpl. apply IH.
Qed.

(** ** Ledgers are well typed *)

Lemma reset_typed : ledger_typed (boot_ledger_reset : ledger).
Proof.
  split; try (unfold zlength; vm_compute; done).
  intros d [_ ->]%elem_of_replicate_inv%(conj I). split; vm_compute; done.
Qed.

Lemma add_stage_typed d l :
  descriptor_typed d -> ledger_typed l -> ledger_typed (add_stage d l).2.
Proof.
  intros Hd Ht. pose proof (lt_count _ Ht) as Hn. unfold add_stage.
  rewrite Z.geb_leb. destruct (_ <=? _) eqn:Hb; bool_hyps; simpl; destruct Ht; [by split|].
  split; simpl; try done.
  - by rewrite zlength_aset.
  - lia.
  - intros e He. unfold aset in He. apply list_elem_of_lookup in He as [k Hk].
    apply list_lookup_insert_Some in Hk as [(_ & <- & _)|[_ Hk]]; [done|].
    apply lt_typed0. by eapply list_elem_of_lookup_2.
Qed.
End plan.

(** * A small plan *)

(** A stage that requires and provides what it is given. *)
Definition sample_stage (stage_id stage_phase : Z) (needs gives : list Z)
  : boot_stage_descriptor unit :=
  MkDescriptor unit stage_id (Some "sample"%string)
    (needs ++ drop (length needs) no_capabilities) (zlength needs)
    (gives ++ drop (length gives) no_capabilities) (zlength gives)
    no_capabilities 0 true false stage_phase BOOT_IRREVERSIBLE_NONE (Some tt).

Definition sample_serial : boot_stage_descriptor unit :=
  sample_stage BOOT_STAGE_EARLY_SERIAL BOOT_PHASE_FOUNDATION []
    [BOOT_CAPABILITY_EARLY_SERIAL_AVAILABLE].
Definition sample_information : boot_stage_descriptor unit :=
  sample_stage BOOT_STAGE_BOOT_INFORMATION BOOT_PHASE_DISCOVERY
    [BOOT_CAPABILITY_EARLY_SERIAL_AVAILABLE] [BOOT_CAPABILITY_BOOT_INFORMATION_VALIDATED].
Definition sample_frames : boot_stage_descriptor unit :=
  sample_stage BOOT_STAGE_FRAME_ALLOCATOR BOOT_PHASE_CONTROLLERS
    [BOOT_CAPABILITY_BOOT_INFORMATION_VALIDATED]
    [BOOT_CAPABILITY_PHYSICAL_FRAME_ALLOCATOR_AVAILABLE].

(** A ledger with the given stages added in order. *)
Definition ledger_of (ds : list (boot_stage_descriptor unit)) : boot_ledger unit :=
  foldl (fun l d => (add_stage d l).2) boot_ledger_reset ds.

Definition sample_forward : boot_ledger unit :=
  ledger_of [sample_serial; sample_information; sample_frames].
Definition sample_backward : boot_ledger unit :=
  ledger_of [sample_frames; sample_information; sample_serial].

Lemma ledger_of_typed ds :
  (forall d, d ∈ ds -> descriptor_typed d) -> ledger_typed (ledger_of ds).
Proof.
  unfold ledger_of. cut (forall l : boot_ledger unit, ledger_typed l ->
    (forall d, d ∈ ds -> descriptor_typed d) ->
    ledger_typed (foldl (fun l d => (add_stage d l).2) l ds)).
  { intros H. apply H, reset_typed. }
  induction ds as [|d ds IH]; intros l Hl Hds; [done|]. simpl.
  apply IH; [apply add_stage_typed; [apply Hds; set_solver|done]|set_solver].
Qed.

Lemma sample_ledgers_typed : ledger_typed sample_forward /\ ledger_typed sample_backward.
Proof.
  split; apply ledger_of_typed; intros d Hd;
    repeat (apply elem_of_cons in Hd as [->|Hd]; [split; vm_compute; done|]); set_solver.
Qed.

(** * Theorems *)


(** Two stages that need each other. *)
Definition sample_cyclic : boot_ledger unit :=
  ledger_of
    [sample_stage BOOT_STAGE_BOOT_INFORMATION 1 [BOOT_CAPABILITY_PHYSICAL_FRAME_ALLOCATOR_AVAILABLE]
       [BOOT_CAPABILITY_BOOT_INFORMATION_VALIDATED];
     sample_stage BOOT_STAGE_FRAME_ALLOCATOR 1 [BOOT_CAPABILITY_BOOT_INFORMATION_VALIDATED]
       [BOOT_CAPABILITY_PHYSICAL_FRAME_ALLOCATOR_AVAILABLE]].

Lemma sample_cyclic_typed : ledger_typed sample_cyclic.
Proof.
  apply ledger_of_typed; intros d Hd;
    repeat (apply elem_of_cons in Hd as [->|Hd]; [split; vm_compute; done|]); set_solver.
Qed.


(** The plan of an accepted ledger holds every stage once, each
    after the stages that provide what it requires and with the least phase and
    identifier among those ready at its turn; its phases never go back, and
    validated_stage_ids lists its identifiers. *)
Theorem validated_order {E} (l l' : boot_ledger E) :
  ledger_typed l -> validate l = (BOOT_LEDGER_STATUS_OK, l') ->
  plan l' ≡ₚ stages l /\ topological (plan l') /\ canonical (plan l') /\
  StronglySorted (fun d e => d.(phase) <= e.(phase)) (plan l') /\
  entries l'.(validated_stage_ids) l'.(planned_count) = id <$> plan l'.
Proof.
  intros Ht Hv. pose proof (plan_validate_spec l Ht) as H. rewrite Hv in H.
  destruct H as [Hacc Hplan]. specialize (Hplan eq_refl).
  split_and!; [apply Hplan|apply canonical_topological, Hplan|apply Hplan| |apply Hplan].
  apply Sorted_StronglySorted; [intros d e f; lia|].
  apply (canonical_phases (stages l)); [by apply Hacc|apply Hplan|apply Hplan].
Qed.

Lemma validated_order_witness :
  topological (plan (validate sample_backward).2) /\
  id <$> plan (validate sample_backward).2 =
  [BOOT_STAGE_EARLY_SERIAL; BOOT_STAGE_BOOT_INFORMATION; BOOT_STAGE_FRAME_ALLOCATOR].
Proof.
  assert (Hv : validate sample_backward =
               (BOOT_LEDGER_STATUS_OK, (validate sample_backward).2))
    by (rewrite (surjective_pairing (validate sample_backward)) at 1; f_equal; vm_compute; done).
  destruct (validated_order sample_backward _ (proj2 sample_ledgers_typed) Hv) as (_ & Htop & _ & _ & Hids).
  split; [exact Htop|]. rewrite <- Hids. vm_compute. done.
Defined.

(** The verdict, the order of the plan and its fingerprint do
    not depend on the order in which the stages were declared. *)
Theorem plan_order_independent {E} (l1 l2 l1' l2' : boot_ledger E) st1 st2 :
  ledger_typed l1 -> ledger_typed l2 -> stages l1 ≡ₚ stages l2 ->
  validate l1 = (st1, l1') -> validate l2 = (st2, l2') ->
  (st1 = BOOT_LEDGER_STATUS_OK <-> st2 = BOOT_LEDGER_STATUS_OK) /\
  (st1 = BOOT_LEDGER_STATUS_OK ->
   plan l1' = plan l2' /\
   l1'.(validated_plan_fingerprint) = l2'.(validated_plan_fingerprint)).
Proof.
  intros Ht1 Ht2 Hperm Hv1 Hv2.
  pose proof (plan_validate_spec l1 Ht1) as H1. pose proof (plan_validate_spec l2 Ht2) as H2.
  rewrite Hv1 in H1. rewrite Hv2 in H2. destruct H1 as [Ha1 Hp1], H2 as [Ha2 Hp2].
  assert (Hiff : st1 = BOOT_LEDGER_STATUS_OK <-> st2 = BOOT_LEDGER_STATUS_OK).
  { rewrite Ha1, Ha2. by split; apply acceptable_permutation; [|symmetry]. }
  split; [done|]. intros Hok. specialize (Hp1 Hok). specialize (Hp2 (proj1 Hiff Hok)).
  assert (Hplan : plan l1' = plan l2').
  { apply canonical_unique; [| |apply Hp1|apply Hp2].
    - rewrite (vp_plan _ _ Hp1). apply ac_distinct, Ha1, Hok.
    - rewrite (vp_plan _ _ Hp1), Hperm. symmetry. apply Hp2. }
  split; [done|]. rewrite (vp_fingerprint _ _ Hp1), (vp_fingerprint _ _ Hp2).
  pose proof (lt_order _ (vp_typed _ _ Hp1)). pose proof (lt_order _ (vp_typed _ _ Hp2)).
  pose proof (lt_count _ Ht1). pose proof (lt_count _ Ht2).
  pose proof (vp_count _ _ Hp1) as Hc1. pose proof (vp_count _ _ Hp2) as Hc2.
  rewrite !fingerprint_of_plan by lia. rewrite Hplan, Hc1, Hc2.
  by rewrite <- (zlength_stages l1), <- (zlength_stages l2) by done; unfold zlength; rewrite Hperm.
Qed.

Lemma plan_order_independent_witness :
  plan (validate sample_forward).2 = plan (validate sample_backward).2.
Proof.
  apply (plan_order_independent sample_forward sample_backward _ _
           (validate sample_forward).1 (validate sample_backward).1);
    [apply sample_ledgers_typed|apply sample_ledgers_typed| |apply surjective_pairing|apply surjective_pairing|].
  - change (stages sample_forward) with [sample_serial; sample_information; sample_frames].
    change (stages sample_backward) with (rev [sample_serial; sample_information; sample_frames]).
    apply Permutation_rev.
  - vm_compute. done.
Defined.

End BootLedgerPlan.
