(* ===== verification/BootLedgerRun.v ===== *)
(** What the executor of the boot ledger promises: the receipts it files, the
    capabilities they establish, and that its own audit accepts them. *)
From S2P Require Import Prelude BootLedger BootLedgerPlan.
From stdpp Require Import strings.

Open Scope Z_scope.

Module BootLedgerRun.
Import BootLedger BootLedgerPlan.

(** * Copying loops *)

Lemma for_each_steps {A S R} (body : A -> S -> ctl S R) (xs : list A) (st : nat -> S) :
  (forall k x, xs !! k = Some x -> body x (st k) = Next (st (Datatypes.S k))) ->
  for_each body xs (st O) = Next (st (length xs)).
Proof.
  intros H. apply (for_each_trace _ _ _ (fun _ => True)); [|done].
  intros k x s' Hk _. rewrite (H k x Hk). split; [by intros [= ->]|by intros [_ ->]].
Qed.

(** [m] entries of [b] written behind the first [n] of [a]. *)
Definition copied (n : Z) (a b : list Z) (m : nat) : list Z :=
  foldl (fun a j => aset a (n + j) (aget 0 b j)) a (seqZ 0 (Z.of_nat m)).

Lemma copied_S n a b m :
  copied n a b (S m) = aset (copied n a b m) (n + Z.of_nat m) (aget 0 b (Z.of_nat m)).
Proof.
  unfold copied. rewrite Nat2Z.inj_succ, <- Z.add_1_r, seqZ_app, foldl_app by lia. done.
Qed.

Lemma copied_length n a b m : zlength (copied n a b m) = zlength a.
Proof.
  induction m as [|m IH]; [done|]. by rewrite copied_S, zlength_aset.
Qed.

Lemma copied_entries n a b m :
  0 <= n -> n + Z.of_nat m <= zlength a -> Z.of_nat m <= zlength b ->
  entries (copied n a b m) (n + Z.of_nat m) = entries a n ++ entries b (Z.of_nat m).
Proof.
  intros Hn Ha Hb. induction m as [|m IH].
  - unfold copied. rewrite seqZ_nil by lia. rewrite Z.add_0_r. unfold entries at 3.
    simpl. by rewrite app_nil_r.
  - rewrite copied_S. rewrite Nat2Z.inj_succ, <- Z.add_1_r, Z.add_assoc.
    rewrite entries_aset by (rewrite copied_length; lia). rewrite IH by lia.
    by rewrite (entries_snoc 0), app_assoc by lia.
Qed.

Section run.
Context {E : Type}.
Abbreviation descriptor := (boot_stage_descriptor E).
Abbreviation ledger := (boot_ledger E).
Implicit Types (d : descriptor) (l : ledger) (c : Z) (r : boot_stage_result)
  (rc : boot_stage_receipt).

(** * The view of a run *)

(** The receipts filed, the capabilities a receipt names and those established. *)
Definition filed l : list boot_stage_receipt := entries l.(receipts) l.(receipt_count).
Definition gives rc : list Z := entries rc.(receipt_provided) rc.(receipt_provided_count).
Definition established l : list Z :=
  entries l.(established_capabilities) l.(established_capability_count).

(** The type of a result: array lengths and unsigned counts. *)
Record result_typed r : Prop := {
  rt_provided : zlength r.(provided) = BOOT_STAGE_CAPABILITY_CAPACITY;
  rt_counters : zlength r.(proof_counters) = BOOT_STAGE_PROOF_COUNTER_CAPACITY;
  rt_counts : 0 <= r.(provided_count) /\ 0 <= r.(proof_counter_count)
}.

(** How the outcome of a stage is recorded: it ran and provides what it
    declared, or it is optional and was skipped or failed. *)
Definition outcome_recorded d rc : Prop :=
  (rc.(receipt_result) = BOOT_RECEIPT_RAN /\ rc.(receipt_status) = BOOT_LEDGER_STATUS_OK /\
   gives rc ≡ₚ provides d) \/
  (d.(required) = false /\ rc.(receipt_result) = BOOT_RECEIPT_SKIPPED /\
   rc.(receipt_status) = BOOT_LEDGER_STATUS_OPTIONAL_STAGE_SKIPPED /\ gives rc ≡ₚ skips d) \/
  (d.(required) = false /\ rc.(receipt_result) = BOOT_RECEIPT_FAILED /\
   rc.(receipt_status) = BOOT_LEDGER_STATUS_OPTIONAL_STAGE_FAILED /\ gives rc = []).

(** The receipt of [d], filed as number [k] when [earlier] was established. *)
Record receipt_of (earlier : list Z) d (k : nat) rc : Prop := {
  ro_stage : rc.(stage_id) = d.(id);
  ro_sequence : rc.(sequence) = Z.of_nat k + 1;
  ro_outcome : outcome_recorded d rc;
  ro_ready : rc.(receipt_result) <> BOOT_RECEIPT_SKIPPED ->
             forall c, c ∈ requirements d -> c ∈ earlier;
  ro_provided : zlength rc.(receipt_provided) = BOOT_STAGE_CAPABILITY_CAPACITY /\
                0 <= rc.(receipt_provided_count) <= BOOT_STAGE_CAPABILITY_CAPACITY;
  ro_counters : 0 <= rc.(receipt_counter_count) <= BOOT_STAGE_PROOF_COUNTER_CAPACITY
}.

(** A validated ledger: what [validate] leaves behind. *)
Record runnable l : Prop := {
  rb_typed : ledger_typed l;
  rb_acceptable : acceptable (stages l);
  rb_plan : plan l ≡ₚ stages l;
  rb_count : l.(planned_count) = l.(descriptor_count);
  rb_range : forall i, i ∈ entries l.(canonical_order) l.(planned_count) ->
             0 <= i < l.(descriptor_count);
  rb_ids : entries l.(validated_stage_ids) l.(planned_count) = id <$> plan l
}.

Lemma validated_runnable l l' : acceptable (stages l) -> validated_plan l l' -> runnable l'.
Proof.
  intros Ha Hv. pose proof (vp_stages _ _ Hv) as Hs. pose proof (vp_declared _ _ Hv) as Hd.
  split; rewrite ?Hs, ?Hd; [apply Hv|done|apply Hv|apply Hv|apply Hv|apply Hv].
Qed.

(** The executor only touches the receipts, the capabilities and the totals. *)
Definition same_plan l l' : Prop :=
  l'.(descriptors) = l.(descriptors) /\ l'.(descriptor_count) = l.(descriptor_count) /\
  l'.(canonical_order) = l.(canonical_order) /\
  l'.(validated_stage_ids) = l.(validated_stage_ids) /\
  l'.(planned_count) = l.(planned_count) /\
  l'.(validated_plan_fingerprint) = l.(validated_plan_fingerprint) /\
  l'.(validated) = l.(validated).

#[global] Instance same_plan_preorder : PreOrder same_plan.
Proof.
  split; unfold same_plan; [done|].
  intros l1 l2 l3 (? & ? & ? & ? & ? & ? & ?) (? & ? & ? & ? & ? & ? & ?).
  split_and!; congruence.
Qed.

Lemma same_plan_plan l l' : same_plan l l' -> plan l' = plan l /\ stages l' = stages l.
Proof.
  intros (Hd & Hn & Ho & _ & Hc & _). unfold plan, stages, descriptor_at.
  by rewrite Hd, Hn, Ho, Hc.
Qed.

Lemma same_plan_fingerprint l l' : same_plan l l' -> fingerprint_plan l' = fingerprint_plan l.
Proof.
  intros (Hd & Hn & Ho & _ & Hc & _). unfold fingerprint_plan, descriptor_at.
  by rewrite Hd, Ho, Hc.
Qed.

(** * Filing one receipt *)

Record arrays_typed l : Prop := {
  at_receipts : zlength l.(receipts) = BOOT_LEDGER_RECEIPT_CAPACITY;
  at_established : zlength l.(established_capabilities) = BOOT_CAPABILITY_COUNT;
  at_count : 0 <= l.(receipt_count) /\ 0 <= l.(established_capability_count)
}.

(** The receipt [append_receipt] files. *)
Definition receipt_for d r (st : boot_ledger_status) (k : Z) (m : nat) : boot_stage_receipt :=
  MkReceipt d.(id) (u32 (k + 1)) (copied 0 no_capabilities r.(provided) m)
    r.(provided_count) st r.(result) no_counters r.(proof_counter_count).

(** The ledger after [m] turns of the loop. *)
Definition filing d r st l (m : nat) : ledger :=
  set_established (put_receipt l (receipt_for d r st l.(receipt_count) m))
    (copied l.(established_capability_count) l.(established_capabilities) r.(provided) m)
    (l.(established_capability_count) + Z.of_nat m).

Lemma aset_aset {A} (a : list A) i x y : aset (aset a i x) i y = aset a i y.
Proof. unfold aset. by rewrite list_insert_insert_eq. Qed.

Lemma known_bound (cs : list Z) :
  NoDup cs -> (forall c, c ∈ cs -> capability_is_known c = true) ->
  zlength cs < BOOT_CAPABILITY_COUNT.
Proof.
  intros Hnd Hk. assert (Hsub : cs ⊆+ seqZ 1 (BOOT_CAPABILITY_COUNT - 1)).
  { apply NoDup_submseteq; [done|]. intros c Hc%Hk%known_range. apply elem_of_seqZ. lia. }
  apply submseteq_length in Hsub. rewrite length_seqZ in Hsub.
  unfold zlength, BOOT_CAPABILITY_COUNT in *. lia.
Qed.

Section filing.
Variables (d : descriptor) (r : boot_stage_result) (st : boot_ledger_status) (l : ledger).
Abbreviation P := (entries r.(provided) r.(provided_count)).
Hypothesis Hl : arrays_typed l.
Hypothesis Hr : result_typed r.
Hypothesis Hroom : l.(receipt_count) < BOOT_LEDGER_RECEIPT_CAPACITY.
Hypothesis Hbound : r.(provided_count) <= BOOT_STAGE_CAPABILITY_CAPACITY.
Hypothesis Hnew : NoDup (established l ++ P).
Hypothesis Hknown : forall c, c ∈ established l ++ P -> capability_is_known c = true.
Hypothesis Hfull : l.(established_capability_count) <= BOOT_CAPABILITY_COUNT.

Lemma provided_length : length P = Z.to_nat r.(provided_count).
Proof.
  pose proof (rt_counts _ Hr). apply entries_length. rewrite (rt_provided _ Hr). lia.
Qed.

Lemma established_length :
  Z.of_nat (length (established l)) = l.(established_capability_count).
Proof.
  pose proof (at_count _ Hl). unfold established.
  rewrite entries_length; [lia|]. rewrite (at_established _ Hl). lia.
Qed.

Lemma established_room m :
  (m <= length P)%nat ->
  l.(established_capability_count) + Z.of_nat m < BOOT_CAPABILITY_COUNT.
Proof.
  intros Hm. pose proof (known_bound _ Hnew Hknown) as Hb.
  unfold zlength in Hb. rewrite length_app in Hb. rewrite <- established_length. lia.
Qed.

Lemma filing_step m c :
  P !! m = Some c ->
  establish d r (Z.of_nat m) (filing d r st l m) = Next (filing d r st l (S m)).
Proof.
  intros Hm. pose proof (lookup_lt_Some _ _ _ Hm) as Hlt.
  pose proof (at_count _ Hl) as [Hc0 Hc1]. pose proof (at_receipts _ Hl) as Hrl.
  pose proof (rt_counts _ Hr) as Hrc. pose proof (rt_provided _ Hr) as Hpl.
  pose proof (established_room (S m) Hlt) as Hroom1. pose proof provided_length as Hplen.
  assert (Hc : aget 0 r.(provided) (Z.of_nat m) = c).
  { apply (entries_lookup 0) in Hm as [_ ->]; [done|lia]. }
  unfold establish. unfold filing at 1 2 3. simpl.
  rewrite aget_aset_eq by (rewrite Hrl; lia). simpl. rewrite Hc.
  assert (Hest : entries (copied l.(established_capability_count)
            l.(established_capabilities) r.(provided) m)
            (l.(established_capability_count) + Z.of_nat m) =
          established l ++ entries r.(provided) (Z.of_nat m))
    by (apply copied_entries; [lia|rewrite (at_established _ Hl); lia|lia]).
  assert (Hfresh : c ∉ established l ++ entries r.(provided) (Z.of_nat m)).
  { assert (Ht : entries r.(provided) (Z.of_nat m) = take m P)
      by (unfold entries; rewrite take_take, Nat2Z.id; f_equal; lia).
    rewrite Ht. apply NoDup_app in Hnew as (_ & Hdis & Hnd).
    rewrite elem_of_app. intros [Hin|Hin].
    - apply (Hdis c Hin). by eapply list_elem_of_lookup_2.
    - apply list_elem_of_lookup in Hin as [j [Hj Hjm]%lookup_take_Some].
      pose proof (NoDup_lookup _ _ _ _ Hnd Hm Hj). lia. }
  unfold boot_ledger_has_capability. simpl. unfold descriptor_has_capability.
  assert (Hex : existsb (fun x => x =? c)
      (established l ++ entries r.(provided) (Z.of_nat m)) = false)
    by (apply not_true_is_false; by rewrite existsb_elem).
  rewrite Hest, Hex, andb_false_r.
  rewrite Z.geb_leb, (proj2 (Z.leb_gt _ _)) by lia.
  unfold filing, receipt_for, put_receipt, set_established, set_receipts. simpl.
  rewrite !copied_S, Z.add_0_l, Hc, aset_aset, Nat2Z.inj_succ, <- Z.add_1_r, Z.add_assoc.
  done.
Qed.

Lemma append_receipt_spec :
  exists l' rc, append_receipt d r st l = (BOOT_LEDGER_STATUS_OK, l') /\
    same_plan l l' /\ arrays_typed l' /\ l'.(receipt_count) = l.(receipt_count) + 1 /\
    l'.(established_capability_count) <= BOOT_CAPABILITY_COUNT /\
    filed l' = filed l ++ [rc] /\ established l' = established l ++ P /\
    l'.(executed) = l.(executed) /\
    rc.(stage_id) = d.(id) /\ rc.(sequence) = l.(receipt_count) + 1 /\
    rc.(receipt_status) = st /\ rc.(receipt_result) = r.(result) /\ gives rc = P /\
    zlength rc.(receipt_provided) = BOOT_STAGE_CAPABILITY_CAPACITY /\
    rc.(receipt_provided_count) = r.(provided_count) /\
    rc.(receipt_counter_count) = r.(proof_counter_count).
Proof.
  pose proof (at_count _ Hl) as [Hc0 Hc1]. pose proof (at_receipts _ Hl) as Hrl.
  pose proof (rt_counts _ Hr) as Hrc. pose proof (rt_provided _ Hr) as Hpl.
  pose proof provided_length as Hplen.
  pose proof (established_room (length P) ltac:(lia)) as Hroom1.
  unfold append_receipt. rewrite Z.geb_leb, (proj2 (Z.leb_gt _ _)) by lia.
  assert (Hstart : put_receipt l (MkReceipt d.(id) (u32 (l.(receipt_count) + 1)) no_capabilities
               r.(provided_count) st r.(result) no_counters r.(proof_counter_count)) =
          filing d r st l 0).
  { unfold filing, copied. simpl. rewrite Z.add_0_r. by destruct l. }
  rewrite Hstart.
  rewrite (for_each_steps _ _ (filing d r st l)).
  2: { intros k x [-> Hx]%lookup_seqZ_0.
       destruct (lookup_lt_is_Some_2 P k) as [c Hc]; [rewrite Hplen; lia|].
       by apply (filing_step k c). }
  rewrite length_seqZ, <- Hplen. unfold filing at 1 2 3 4 5. simpl.
  rewrite aget_aset_eq by (rewrite Hrl; lia). simpl.
  assert (HP : Z.of_nat (length P) = r.(provided_count)) by lia.
  rewrite aset_aset. set (rc := MkReceipt _ _ _ _ _ _ _ _).
  eexists _, rc. split; [reflexivity|].
  pose proof (copied_entries l.(established_capability_count) l.(established_capabilities)
    r.(provided) (length P) ltac:(lia) ltac:(rewrite (at_established _ Hl); lia)
    ltac:(lia)) as Hest.
  pose proof (copied_entries 0 no_capabilities r.(provided) (length P) ltac:(lia)
    ltac:(change (zlength no_capabilities) with BOOT_STAGE_CAPABILITY_CAPACITY; lia)
    ltac:(lia)) as Hgives.
  unfold filed, established, gives. simpl. rewrite HP in *.
  split; [repeat split|]. split.
  { split; simpl; [by rewrite zlength_aset|by rewrite copied_length, (at_established _ Hl)|lia]. }
  split_and!; try done; try lia.
  - apply entries_aset. lia.
  - apply u32_small. unfold is_u32, UINT32_MAX, BOOT_LEDGER_RECEIPT_CAPACITY in *. lia.
  - rewrite copied_length. done.
Qed.
End filing.

(** * Results *)

Lemma find_negb_None {A} (p : A -> bool) (xs : list A) :
  List.find (fun x => negb (p x)) xs = None <-> forall x, x ∈ xs -> p x = true.
Proof.
  split.
  - intros H x Hx%list_elem_of_In. apply negb_false_iff. by apply (find_none _ _ H).
  - intros H. destruct (List.find _ xs) as [x|] eqn:Hf; [|done].
    apply find_some in Hf as [Hin%list_elem_of_In Hn]. rewrite H in Hn; done.
Qed.

(** An accepted result provides exactly what it has to. *)
Lemma validate_result_ok d r c :
  result_typed r -> descriptor_typed d -> acceptable_stage d ->
  validate_result d r = (BOOT_LEDGER_STATUS_OK, c) ->
  r.(provided_count) <= BOOT_STAGE_CAPABILITY_CAPACITY /\
  r.(proof_counter_count) <= BOOT_STAGE_PROOF_COUNTER_CAPACITY /\
  let P := entries r.(provided) r.(provided_count) in
  (r.(result) = BOOT_RECEIPT_RAN /\ P ≡ₚ provides d) \/
  (r.(result) = BOOT_RECEIPT_SKIPPED /\ P ≡ₚ skips d) \/
  (r.(result) = BOOT_RECEIPT_FAILED /\ P = []).
Proof.
  intros Hr Hd Ha Hv. unfold validate_result in Hv.
  destruct (declared_for d r.(result)) as [[declared n]|] eqn:Hdec; [|done].
  destruct (_ || _) eqn:Hb; [done|]. bool_hyps.
  destruct (List.find _ (entries r.(provided) _)) eqn:Hf1; [done|].
  destruct (negb _) eqn:Hcnt; [done|]. bool_hyps.
  destruct (List.find _ (entries declared n)) eqn:Hf2; [done|]. clear Hv.
  pose proof (proj1 (find_negb_None _ _) Hf2) as Hsub.
  setoid_rewrite has_capability_elem in Hsub.
  split_and!; [done|done|]. pose proof (rt_counts _ Hr) as Hrc. pose proof (dt_counts _ Hd) as Hdc.
  assert (Hperm : NoDup (entries declared n) -> zlength declared = BOOT_STAGE_CAPABILITY_CAPACITY ->
            entries r.(provided) r.(provided_count) ≡ₚ entries declared n).
  { intros Hnd Hlen. symmetry. apply submseteq_length_Permutation.
    - by apply NoDup_submseteq.
    - rewrite !entries_length; [lia|lia|rewrite (rt_provided _ Hr); lia]. }
  unfold declared_for in Hdec. cbv zeta.
  destruct (r.(result) =? BOOT_RECEIPT_RAN) eqn:H1; [|
    destruct (r.(result) =? BOOT_RECEIPT_SKIPPED) eqn:H2; [|
      destruct (r.(result) =? BOOT_RECEIPT_FAILED) eqn:H3; [|done]]]; bool_hyps; injection Hdec as <- <-.
  - left. split; [done|]. apply Hperm; [apply Ha|apply Hd].
  - right; left. split; [done|]. apply Hperm; [apply Ha|apply Hd].
  - right; right. split; [done|]. by rewrite Hcnt.
Qed.

Lemma copy_capabilities_entries (a : list Z) n :
  0 <= n <= zlength a -> entries (copy_capabilities a n) n = entries a n.
Proof.
  intros Hn. unfold copy_capabilities, entries at 1.
  rewrite take_app_le by (fold (entries a n); rewrite entries_length by done; lia).
  unfold entries. by rewrite take_take, Nat.min_id.
Qed.

Lemma copy_capabilities_length (a : list Z) n :
  0 <= n <= BOOT_STAGE_CAPABILITY_CAPACITY -> zlength a = BOOT_STAGE_CAPABILITY_CAPACITY ->
  zlength (copy_capabilities a n) = BOOT_STAGE_CAPABILITY_CAPACITY.
Proof.
  intros Hn Ha. unfold copy_capabilities. rewrite zlength_app.
  unfold zlength in *. rewrite entries_length by (unfold zlength; lia). rewrite length_drop.
  change (length no_capabilities) with 18%nat. unfold BOOT_STAGE_CAPABILITY_CAPACITY in *. lia.
Qed.

Lemma skip_result_typed d :
  descriptor_typed d -> acceptable_stage d ->
  result_typed (boot_stage_result_skip d) /\
  entries (boot_stage_result_skip d).(provided) (boot_stage_result_skip d).(provided_count) =
  skips d.
Proof.
  intros Hd Ha. pose proof (dt_counts _ Hd). pose proof (dt_skipped _ Hd).
  pose proof (as_skipped_bound _ Ha). split.
  - split; simpl; [apply copy_capabilities_length; [lia|done]|done|lia].
  - simpl. rewrite copy_capabilities_entries by lia. done.
Qed.

(** * The run *)

(** The capabilities named by a list of receipts. *)
Definition given (rcs : list boot_stage_receipt) : list Z := mjoin (gives <$> rcs).

Lemma given_app rcs rcs' : given (rcs ++ rcs') = given rcs ++ given rcs'.
Proof. unfold given. by rewrite fmap_app, join_app. Qed.

Lemma given_elem rcs c : c ∈ given rcs <-> exists rc, rc ∈ rcs /\ c ∈ gives rc.
Proof.
  unfold given. rewrite list_elem_of_join. split.
  - intros (x & Hc & (rc & -> & Hrc)%list_elem_of_fmap). eauto.
  - intros (rc & Hrc & Hc). exists (gives rc). split; [done|]. by apply list_elem_of_fmap_2.
Qed.

Section execution.
Context (l0 : ledger) (Hrun : runnable l0).

(** After [k] stages: one receipt per stage of the plan, and the capabilities
    they name are those established. *)
Record ran (k : nat) l : Prop := {
  rn_plan : same_plan l0 l;
  rn_arrays : arrays_typed l;
  rn_count : l.(receipt_count) = Z.of_nat k;
  rn_room : l.(established_capability_count) <= BOOT_CAPABILITY_COUNT;
  rn_receipts : forall j rc, filed l !! j = Some rc ->
    exists d, plan l0 !! j = Some d /\ receipt_of (given (take j (filed l))) d j rc;
  rn_established : established l = given (filed l);
  rn_nodup : NoDup (given (filed l))
}.

Lemma planned_stage k d :
  plan l0 !! k = Some d ->
  Z.of_nat k < l0.(planned_count) /\ d = descriptor_at l0 (aget 0 l0.(canonical_order) (Z.of_nat k)) /\
  0 <= aget 0 l0.(canonical_order) (Z.of_nat k) < l0.(descriptor_count) /\
  d ∈ stages l0 /\ descriptor_typed d /\ acceptable_stage d.
Proof.
  pose proof (rb_typed _ Hrun) as Ht. pose proof (lt_count _ Ht). pose proof (rb_count _ Hrun).
  pose proof (lt_order _ Ht) as Ho. unfold plan. rewrite list_lookup_fmap_Some.
  intros (i & -> & Hi). pose proof (list_elem_of_lookup_2 _ _ _ Hi) as Hin%(rb_range _ Hrun).
  apply (entries_lookup 0) in Hi as [Hk ->]; [|lia].
  assert (descriptor_at l0 (aget 0 l0.(canonical_order) (Z.of_nat k)) ∈ stages l0)
    by (apply stages_elem; eauto).
  split_and!; try done; try lia; [by apply stage_typed|].
  by apply (ac_stages _ (rb_acceptable _ Hrun)).
Qed.

Lemma plan_length : Z.of_nat (length (plan l0)) = l0.(planned_count).
Proof.
  pose proof (rb_typed _ Hrun) as Ht. pose proof (lt_count _ Ht). pose proof (rb_count _ Hrun).
  pose proof (lt_order _ Ht). unfold plan. rewrite length_fmap, entries_length by lia. lia.
Qed.

Lemma plan_distinct j k d e :
  plan l0 !! j = Some d -> plan l0 !! k = Some e -> d.(id) = e.(id) -> j = k.
Proof.
  intros Hj Hk Heq. assert (Hnd : NoDup (id <$> plan l0)).
  { rewrite (rb_plan _ Hrun). apply ac_distinct, Hrun. }
  eapply NoDup_lookup; [exact Hnd| |]; rewrite list_lookup_fmap.
  - by rewrite Hj.
  - rewrite Hk. simpl. by rewrite Heq.
Qed.

Lemma recorded_outcomes d rc c : outcome_recorded d rc -> c ∈ gives rc -> c ∈ outcomes d.
Proof.
  unfold outcomes. rewrite elem_of_app.
  intros [(_ & _ & ->)|[(_ & _ & _ & ->)|(_ & _ & _ & ->)]]; [tauto|tauto|set_solver].
Qed.

(** What stage [k] can establish is not established yet. *)
Lemma outcomes_new k l d c :
  ran k l -> plan l0 !! k = Some d -> c ∈ outcomes d -> c ∉ given (filed l).
Proof.
  intros Hk Hd Hc (rc & [j Hj]%list_elem_of_lookup & Hg)%given_elem.
  destruct (rn_receipts _ _ Hk j rc Hj) as (e & He & Hrc).
  pose proof (recorded_outcomes e rc c (ro_outcome _ _ _ _ Hrc) Hg) as Hce.
  destruct (planned_stage j e He) as (_ & _ & _ & Hes & _).
  destruct (planned_stage k d Hd) as (_ & _ & _ & Hds & _).
  assert (j = k) as ->.
  { apply (plan_distinct j k e d He Hd).
    by apply (ac_exclusive _ (rb_acceptable _ Hrun) e d c). }
  pose proof (lookup_lt_Some _ _ _ Hj) as Hlt. unfold filed in Hlt.
  pose proof (rn_count _ _ Hk) as Hn. rewrite Hn in Hlt.
  unfold entries in Hlt. rewrite length_take in Hlt. lia.
Qed.

Lemma filed_length k l :
  ran k l -> (k <= length (plan l0))%nat -> length (filed l) = k.
Proof.
  intros Hk Hle. pose proof plan_length as Hp. pose proof (rb_typed _ Hrun) as Ht.
  pose proof (lt_count _ Ht). pose proof (rb_count _ Hrun).
  pose proof (at_receipts _ (rn_arrays _ _ Hk)) as Hr. unfold filed.
  rewrite (rn_count _ _ Hk), entries_length; [lia|].
  rewrite Hr. unfold BOOT_LEDGER_RECEIPT_CAPACITY, BOOT_LEDGER_STAGE_CAPACITY in *. lia.
Qed.

(** Filing a receipt for the next stage. *)
Lemma ran_append k l d r st :
  ran k l -> plan l0 !! k = Some d -> result_typed r ->
  r.(provided_count) <= BOOT_STAGE_CAPABILITY_CAPACITY ->
  r.(proof_counter_count) <= BOOT_STAGE_PROOF_COUNTER_CAPACITY ->
  (forall rc, rc.(receipt_status) = st -> rc.(receipt_result) = r.(result) ->
     gives rc = entries r.(provided) r.(provided_count) -> outcome_recorded d rc) ->
  NoDup (entries r.(provided) r.(provided_count)) ->
  (r.(result) <> BOOT_RECEIPT_SKIPPED -> forall c, c ∈ requirements d -> c ∈ established l) ->
  exists l', append_receipt d r st l = (BOOT_LEDGER_STATUS_OK, l') /\ ran (S k) l' /\
    l'.(executed) = l.(executed) /\
    exists rc, filed l' = filed l ++ [rc] /\ rc.(receipt_result) = r.(result).
Proof.
  intros Hk Hd Hr Hb Hcb Hout Hnd Hready.
  destruct (planned_stage k d Hd) as (Hlt & _ & _ & _ & Hdt & Hda).
  pose proof (rb_typed _ Hrun) as Ht. pose proof (lt_count _ Ht). pose proof (rb_count _ Hrun).
  pose proof (rn_count _ _ Hk) as Hn. pose proof (rn_established _ _ Hk) as He.
  assert (Houtc : forall c, c ∈ entries r.(provided) r.(provided_count) -> c ∈ outcomes d).
  { intros c Hc. apply (recorded_outcomes d
      (MkReceipt 0 0 r.(provided) r.(provided_count) st r.(result) [] 0)); [|done].
    by apply Hout. }
  assert (Hknown : forall c, c ∈ outcomes d -> capability_is_known c = true)
    by (intros c Hc; apply (as_capabilities _ Hda); set_solver).
  assert (Hold : forall c, c ∈ established l -> capability_is_known c = true).
  { intros c. rewrite He. intros (rc & [j Hj]%list_elem_of_lookup & Hg)%given_elem.
    destruct (rn_receipts _ _ Hk j rc Hj) as (e & He' & Hrc).
    destruct (planned_stage j e He') as (_ & _ & _ & _ & _ & Hea).
    apply (as_capabilities _ Hea).
    pose proof (recorded_outcomes e rc c (ro_outcome _ _ _ _ Hrc) Hg). set_solver. }
  destruct (append_receipt_spec d r st l (rn_arrays _ _ Hk) Hr) as
    (l' & rc & Happ & Hsame & Harr & Hcnt & Hroom & Hfiled & Hest & Hex & R1 & R2 & R3 & R4 & R5 & R6 & R7 & R8).
  { rewrite Hn. unfold BOOT_LEDGER_RECEIPT_CAPACITY, BOOT_LEDGER_STAGE_CAPACITY in *. lia. }
  { done. }
  { rewrite He. apply NoDup_app. split_and!; [apply (rn_nodup _ _ Hk)| |done].
    intros c Hc Hc'. by apply (outcomes_new k l d c Hk Hd (Houtc c Hc')). }
  { intros c [Hc|Hc]%elem_of_app; eauto. }
  { apply (rn_room _ _ Hk). }
  assert (Hgiven : given (filed l') = given (filed l) ++ gives rc)
    by (rewrite Hfiled, given_app; unfold given at 2; simpl; by rewrite app_nil_r).
  pose proof (filed_length k l Hk ltac:(apply lookup_lt_Some in Hd; lia)) as Hfl.
  exists l'. split; [done|]. split; [|split; [done|by exists rc]]. split.
  - by transitivity l; [apply Hk|].
  - done.
  - rewrite Hcnt, Hn. lia.
  - done.
  - intros j rc' Hj. rewrite Hfiled in Hj. apply lookup_app_Some in Hj as [Hj|[Hge Hj]].
    + destruct (rn_receipts _ _ Hk j rc' Hj) as (e & ? & ?). exists e. split; [done|].
      rewrite Hfiled, take_app_le; [done|]. apply lookup_lt_Some in Hj. lia.
    + apply list_lookup_singleton_Some in Hj as [Hj <-].
      assert (j = k) as -> by lia. exists d. split; [done|].
      rewrite Hfiled, take_app_length' by done. split.
      * done.
      * rewrite R2. lia.
      * by apply Hout.
      * rewrite R4. rewrite <- He. exact Hready.
      * pose proof (rt_counts _ Hr). rewrite R6, R7. split; [done|]. lia.
      * pose proof (rt_counts _ Hr). rewrite R8. lia.
  - by rewrite Hest, Hgiven, He, R5.
  - rewrite Hgiven, R5. apply NoDup_app. split_and!; [apply (rn_nodup _ _ Hk)| |done].
    intros c Hc Hc'. by apply (outcomes_new k l d c Hk Hd (Houtc c Hc')).
Qed.

Lemma ran_totals k l a b health : ran k l -> ran k (set_totals l a b health).
Proof. intros []. split; try done. by destruct rn_arrays0. Qed.

Lemma established_requirements l d :
  requirements_established l d = None -> forall c, c ∈ requirements d -> c ∈ established l.
Proof.
  intros H c Hc. pose proof (proj1 (find_negb_None _ _) H c Hc) as Hb.
  unfold boot_ledger_has_capability in Hb. apply andb_true_iff in Hb as [_ Hb].
  by apply has_capability_elem.
Qed.

(** * The audit accepts what the executor filed *)

(** The stages the audit has seen after [k] receipts. *)
Definition seen (k : nat) : list bool :=
  foldl (fun s d => aset s d.(id) true) (replicate (Z.to_nat BOOT_STAGE_COUNT) false)
    (take k (plan l0)).

Lemma known_stage (stage : Z) : stage_is_known stage = true -> 0 < stage < BOOT_STAGE_COUNT.
Proof. unfold stage_is_known, BOOT_STAGE_INVALID. intros H. bool_hyps. lia. Qed.

Lemma seen_S k d : plan l0 !! k = Some d -> seen (S k) = aset (seen k) d.(id) true.
Proof. intros Hd. unfold seen. by rewrite (take_S_r _ _ _ Hd), foldl_app. Qed.

Lemma seen_length k : zlength (seen k) = BOOT_STAGE_COUNT.
Proof.
  unfold seen. generalize (take k (plan l0)). intros o.
  assert (H : zlength (replicate (Z.to_nat BOOT_STAGE_COUNT) false) = BOOT_STAGE_COUNT)
    by (vm_compute; done).
  revert H. generalize (replicate (Z.to_nat BOOT_STAGE_COUNT) false).
  induction o as [|d o IH]; intros s Hs; [done|]. simpl. apply IH. by rewrite zlength_aset.
Qed.

Lemma seen_next k d : plan l0 !! k = Some d -> aget false (seen k) d.(id) = false.
Proof.
  intros Hd. destruct (planned_stage k d Hd) as (_ & _ & _ & _ & _ & Ha).
  pose proof (known_stage _ (as_known _ Ha)) as Hid.
  cut (forall m, (m <= k)%nat -> aget false (seen m) d.(id) = false); [intros H; by apply H|].
  induction m as [|m IH]; intros Hm.
  - unfold seen. simpl. apply (aget_replicate _ _ (Z.to_nat BOOT_STAGE_COUNT)).
    unfold BOOT_STAGE_COUNT in *. lia.
  - pose proof (lookup_lt_Some _ _ _ Hd).
    destruct (lookup_lt_is_Some_2 (plan l0) m) as [e He]; [lia|].
    destruct (planned_stage m e He) as (_ & _ & _ & _ & _ & Hae).
    pose proof (known_stage _ (as_known _ Hae)).
    rewrite (seen_S m e He), aget_aset_ne; [apply IH; lia|lia|lia|].
    intros Heq. pose proof (plan_distinct m k e d He Hd Heq). lia.
Qed.

Section audit.
Variables (n : nat) (l : ledger).
Hypothesis Hn : ran n l.
Hypothesis Hle : (n <= length (plan l0))%nat.

Lemma filed_get j rc :
  filed l !! j = Some rc <-> (j < n)%nat /\ rc = aget zero_receipt l.(receipts) (Z.of_nat j).
Proof.
  pose proof (filed_length n l Hn Hle) as Hf. pose proof (rn_count _ _ Hn) as Hc.
  unfold filed in *. rewrite (entries_lookup zero_receipt), Hc; [split; intros [? ?]; (split; [lia|done])|].
  pose proof (at_count _ (rn_arrays _ _ Hn)). unfold entries in Hf. rewrite length_take in Hf.
  unfold zlength. lia.
Qed.

Lemma given_nodup_at k rc :
  filed l !! k = Some rc ->
  NoDup (gives rc) /\ forall c, c ∈ gives rc -> c ∉ given (take k (filed l)).
Proof.
  intros Hk. pose proof (rn_nodup _ _ Hn) as Hnd.
  rewrite <- (take_drop_middle _ _ _ Hk), given_app in Hnd.
  change (given (rc :: drop (S k) (filed l))) with (gives rc ++ given (drop (S k) (filed l))) in Hnd.
  apply NoDup_app in Hnd as (_ & Hdis & Hnd%NoDup_app). split; [tauto|].
  intros c Hc Hc'. apply (Hdis c Hc'). set_solver.
Qed.

Lemma verify_provided_loop d rc k declared count :
  filed l !! k = Some rc -> receipt_of (given (take k (filed l))) d k rc ->
  acceptable_stage d -> gives rc ≡ₚ entries declared count ->
  for_each (verify_provided d rc declared count) (seqZ 0 rc.(receipt_provided_count))
    (given (take k (filed l))) = Next (given (take k (filed l)) ++ gives rc).
Proof.
  intros Hk Hrc Ha Hperm. destruct (given_nodup_at k rc Hk) as [Hnd Hdis].
  destruct (ro_provided _ _ _ _ Hrc) as [Hlen Hcount].
  assert (Hgl : length (gives rc) = Z.to_nat rc.(receipt_provided_count))
    by (apply entries_length; lia).
  pose proof (for_each_steps (verify_provided d rc declared count)
    (seqZ 0 rc.(receipt_provided_count))
    (fun m => given (take k (filed l)) ++ take m (gives rc))) as Hloop.
  rewrite length_seqZ, <- Hgl, firstn_all in Hloop. simpl in Hloop.
  rewrite app_nil_r in Hloop. apply Hloop. clear Hloop.
  intros m x [-> Hx]%lookup_seqZ_0.
  destruct (lookup_lt_is_Some_2 (gives rc) m) as [c Hc]; [rewrite Hgl; lia|].
  pose proof (list_elem_of_lookup_2 _ _ _ Hc) as Hin.
  assert (Hget : aget 0 rc.(receipt_provided) (Z.of_nat m) = c)
    by (apply (entries_lookup 0) in Hc as [_ ->]; [done|lia]).
  pose proof (recorded_outcomes d rc c (ro_outcome _ _ _ _ Hrc) Hin) as Hout.
  assert (Hsub : entries rc.(receipt_provided) (Z.of_nat m) = take m (gives rc))
    by (unfold gives, entries; rewrite take_take, Nat2Z.id; f_equal; lia).
  assert (Hfresh : c ∉ take m (gives rc)).
  { intros [j [Hj Hlt]%lookup_take_Some]%list_elem_of_lookup.
    pose proof (NoDup_lookup _ _ _ _ Hnd Hc Hj). lia. }
  unfold verify_provided. rewrite Hget.
  rewrite (as_capabilities _ Ha) by set_solver. simpl.
  rewrite (proj2 (has_capability_elem _ _ _)) by (by rewrite <- Hperm). simpl.
  rewrite (proj2 (has_capability_not _ _ _)) by (by rewrite Hsub).
  assert (existsb (fun x => x =? c) (given (take k (filed l)) ++ take m (gives rc)) = false) as ->.
  { apply not_true_is_false. rewrite existsb_elem, elem_of_app.
    intros [?|?]; [by apply (Hdis c)|done]. }
  rewrite Z.geb_leb, (proj2 (Z.leb_gt _ _)).
  - rewrite (take_S_r _ _ _ Hc), app_assoc. done.
  - apply known_bound.
    + assert (Hfull : given (filed l) = given (take k (filed l)) ++ gives rc ++
                given (drop (S k) (filed l)))
        by (rewrite <- (take_drop_middle _ _ _ Hk) at 1; rewrite given_app; done).
      pose proof (rn_nodup _ _ Hn) as Hnd'. rewrite Hfull in Hnd'.
      rewrite <- (take_drop m (gives rc)) in Hnd'. rewrite <- !app_assoc in Hnd'.
      rewrite app_assoc in Hnd'. by apply NoDup_app in Hnd' as [? _].
    + intros c' [Hc'|Hc']%elem_of_app.
      * apply given_elem in Hc' as (rc' & Hin' & Hg).
        apply list_elem_of_lookup in Hin' as [j [Hj _]%lookup_take_Some].
        destruct (rn_receipts _ _ Hn j rc' Hj) as (e & He & Hrc').
        destruct (planned_stage j e He) as (_ & _ & _ & _ & _ & Hae).
        apply (as_capabilities _ Hae).
        pose proof (recorded_outcomes e rc' c' (ro_outcome _ _ _ _ Hrc') Hg). set_solver.
      * apply (as_capabilities _ Ha). apply elem_of_app. right.
        apply (recorded_outcomes d rc c' (ro_outcome _ _ _ _ Hrc)).
        apply list_elem_of_lookup in Hc' as [j [Hj _]%lookup_take_Some].
        by eapply list_elem_of_lookup_2.
Qed.

(** The declared capabilities the audit compares a receipt with. *)
Lemma recorded_declared d rc :
  descriptor_typed d -> acceptable_stage d -> outcome_recorded d rc ->
  exists declared count,
    (if rc.(receipt_result) =? BOOT_RECEIPT_RAN then
       (d.(provided_capabilities), d.(provided_capability_count))
     else if rc.(receipt_result) =? BOOT_RECEIPT_SKIPPED then
       (d.(skipped_capabilities), d.(skipped_capability_count))
     else ([], 0)) = (declared, count) /\
    gives rc ≡ₚ entries declared count /\ Z.of_nat (length (entries declared count)) = count.
Proof.
  intros Hd Ha. pose proof (dt_counts _ Hd).
  intros [(-> & _ & Hg)|[(_ & -> & _ & Hg)|(_ & -> & _ & Hg)]]; simpl; eexists _, _;
    (split; [reflexivity|]).
  - split; [done|]. apply (provides_length d); apply Ha || done.
  - split; [done|]. apply (skips_length d); apply Ha || done.
  - rewrite Hg. done.
Qed.

Lemma recorded_well_formed earlier d k rc :
  receipt_of earlier d k rc ->
  receipt_malformed rc = false /\
  (d.(required) && (negb (rc.(receipt_result) =? BOOT_RECEIPT_RAN) ||
     negb (bool_decide (rc.(receipt_status) = BOOT_LEDGER_STATUS_OK)))) = false.
Proof.
  intros Hrc. destruct (ro_provided _ _ _ _ Hrc) as [_ Hp].
  pose proof (ro_counters _ _ _ _ Hrc) as Hc. unfold receipt_malformed.
  rewrite !Z.gtb_ltb, !(proj2 (Z.ltb_ge _ _)) by lia. simpl.
  destruct (ro_outcome _ _ _ _ Hrc) as [(-> & -> & _)|[(-> & -> & -> & _)|(-> & -> & -> & _)]];
    simpl; [|done|done]. by rewrite andb_false_r.
Qed.

Lemma verify_step k rc :
  filed l !! k = Some rc ->
  verify_receipt l (Z.of_nat k) (given (take k (filed l)), seen k) =
  Next (given (take (S k) (filed l)), seen (S k)).
Proof.
  intros Hk. destruct (rn_receipts _ _ Hn k rc Hk) as (d & Hd & Hrc).
  destruct (planned_stage k d Hd) as (Hlt & Hdeq & Hrange & _ & Hdt & Ha).
  destruct (rn_plan _ _ Hn) as (Sd & Sn & So & _ & Sp & _).
  pose proof (proj1 (filed_get k rc) Hk) as [_ Hget].
  unfold verify_receipt. rewrite <- Hget, (ro_stage _ _ _ _ Hrc), (as_known _ Ha). simpl.
  unfold boot_ledger_planned_stage_at, descriptor_at. rewrite Sd, Sn, So, Sp.
  rewrite !Z.geb_leb, !(proj2 (Z.leb_gt _ _)) by lia. simpl.
  change (aget zero_descriptor l0.(descriptors) _) with
    (descriptor_at l0 (aget 0 l0.(canonical_order) (Z.of_nat k))). rewrite <- Hdeq.
  rewrite Z.eqb_refl, (ro_sequence _ _ _ _ Hrc), Z.eqb_refl, (seen_next k d Hd). simpl.
  destruct (recorded_well_formed _ _ _ _ Hrc) as [-> ->].
  assert (Hreq : (if rc.(receipt_result) =? BOOT_RECEIPT_SKIPPED then None
           else List.find (fun c => negb (existsb (fun c' => c' =? c) (given (take k (filed l)))))
                  (requirements d)) = None).
  { destruct (_ =? BOOT_RECEIPT_SKIPPED) eqn:Hs; [done|]. bool_hyps.
    apply find_negb_None. intros c Hc. apply existsb_elem. by apply (ro_ready _ _ _ _ Hrc). }
  rewrite Hreq.
  destruct (recorded_declared d rc Hdt Ha (ro_outcome _ _ _ _ Hrc))
    as (declared & count & -> & Hperm & Hcount).
  destruct (ro_provided _ _ _ _ Hrc) as [Hlen Hpc].
  assert (Hgl : length (gives rc) = Z.to_nat rc.(receipt_provided_count))
    by (apply entries_length; lia).
  rewrite (proj2 (Z.eqb_eq _ count)) by
    (rewrite <- Hcount, <- (Permutation_length Hperm), Hgl; lia). simpl.
  rewrite (verify_provided_loop d rc k declared count Hk Hrc Ha Hperm).
  rewrite (proj2 (find_negb_None _ _)).
  - rewrite (take_S_r _ _ _ Hk), given_app, (seen_S k d Hd).
    change (given [rc]) with (gives rc ++ []). by rewrite app_nil_r.
  - intros c Hc. apply has_capability_elem. by rewrite Hperm.
Qed.

Lemma verify_complete : n = length (plan l0) -> verify_receipt_set l = (BOOT_LEDGER_STATUS_OK, l).
Proof.
  intros Hall. pose proof plan_length as Hp. destruct (rn_plan _ _ Hn) as (_ & _ & _ & _ & Sp & _).
  pose proof (rn_count _ _ Hn) as Hc. pose proof (filed_length n l Hn Hle) as Hf.
  unfold verify_receipt_set. cbv zeta. rewrite Hc, Sp, (proj2 (Z.eqb_eq _ _)) by lia. cbn [negb].
  pose proof (for_each_steps (verify_receipt l) (seqZ 0 (Z.of_nat n))
    (fun k => (given (take k (filed l)), seen k))) as Hloop.
  rewrite length_seqZ, Nat2Z.id in Hloop. simpl in Hloop.
  change (given (take 0 (filed l))) with (@nil Z) in Hloop.
  change (seen 0) with (replicate (Z.to_nat BOOT_STAGE_COUNT) false) in Hloop.
  rewrite Hloop; clear Hloop.
  2: { intros k x [-> Hx]%lookup_seqZ_0.
       destruct (lookup_lt_is_Some_2 (filed l) k) as [rc Hrc]; [lia|].
       by apply (verify_step k rc). }
  rewrite <- Hf, firstn_all, <- (rn_established _ _ Hn).
  assert (Hel : zlength (established l) = l.(established_capability_count)).
  { pose proof (rn_arrays _ _ Hn) as Ha. pose proof (at_count _ Ha).
    pose proof (rn_room _ _ Hn). unfold zlength, established.
    rewrite entries_length; [lia|]. rewrite (at_established _ Ha). lia. }
  rewrite Hel, Z.eqb_refl. simpl.
  rewrite (proj2 (find_negb_None _ _)); [done|].
  intros c Hc'. unfold boot_ledger_has_capability. apply andb_true_iff. split.
  - rewrite (rn_established _ _ Hn) in Hc'. apply given_elem in Hc' as (rc & Hin & Hg).
    apply list_elem_of_lookup in Hin as [j Hj].
    destruct (rn_receipts _ _ Hn j rc Hj) as (e & He & Hrc).
    destruct (planned_stage j e He) as (_ & _ & _ & _ & _ & Hae).
    apply (as_capabilities _ Hae).
    pose proof (recorded_outcomes e rc c (ro_outcome _ _ _ _ Hrc) Hg). set_solver.
  - by apply has_capability_elem.
Qed.
End audit.
End execution.
End run.

(** * Execution *)

(** What the ledger relies on: the function of a stage the validator accepted
    leaves a result structure. *)
Class StageExecutionLaws (E C : Type) `{StageExecution E C} :=
  run_typed : forall f l context d r,
    descriptor_typed d -> acceptable_stage d -> result_typed r ->
    result_typed (run_stage f l context d r).2.

Section executor.
Context {E C : Type} `{StageExecutionLaws E C}.
Abbreviation descriptor := (boot_stage_descriptor E).
Abbreviation ledger := (boot_ledger E).
Implicit Types (d : descriptor) (l : ledger) (c : Z) (r : boot_stage_result).

Lemma call_typed d l context :
  descriptor_typed d -> acceptable_stage d ->
  result_typed (call_execute d l context boot_stage_result_fail).2.
Proof.
  intros Hd Ha. assert (result_typed boot_stage_result_fail) by (split; vm_compute; done).
  unfold call_execute. destruct d.(execute); [by apply run_typed|done].
Qed.

Lemma execute_stage_ok l0 k l d context l' context' :
  runnable l0 -> ran l0 k l -> plan l0 !! k = Some d ->
  execute_stage d l context = (BOOT_LEDGER_STATUS_OK, l', context') ->
  ran l0 (S k) l' /\ l'.(executed) = l.(executed).
Proof.
  intros Hrun Hk Hd Hx. destruct (planned_stage l0 Hrun k d Hd) as (_ & _ & _ & _ & Hdt & Ha).
  unfold execute_stage in Hx.
  destruct (requirements_established l d) as [missing|] eqn:Hreq.
  - destruct d.(required) eqn:Hr; [done|].
    destruct (skip_result_typed d Hdt Ha) as [Hst Hskips].
    destruct (ran_append l0 Hrun k l d (boot_stage_result_skip d)
      BOOT_LEDGER_STATUS_OPTIONAL_STAGE_SKIPPED Hk Hd Hst) as (l2 & Happ & Hran & Hex & _).
    + apply (as_skipped_bound _ Ha).
    + done.
    + intros rc H1 H2 H3. right; left. rewrite H1, H2, H3, Hskips. done.
    + rewrite Hskips. apply Ha.
    + done.
    + rewrite Happ in Hx. by simplify_eq.
  - pose proof (call_typed d l (clear_failure_detail context) Hdt Ha) as Hrt.
    destruct (call_execute d l _ _) as [ctx r]. simpl in Hrt.
    destruct (validate_result d r) as [st bad] eqn:Hv.
    destruct (is_ok st) eqn:Hok; simpl in Hx; [|destruct st; done].
    assert (st = BOOT_LEDGER_STATUS_OK) as -> by (by destruct st).
    destruct (validate_result_ok d r bad Hrt Hdt Ha Hv) as (Hpb & Hcb & Hout).
    pose proof (established_requirements l d Hreq) as Hest.
    assert (Hnd : NoDup (entries r.(provided) r.(provided_count))).
    { destruct Hout as [[_ ->]|[[_ ->]|[_ ->]]]; [apply Ha|apply Ha|constructor]. }
    pose proof (fun st' Hrec => ran_append l0 Hrun k l d r st' Hk Hd Hrt Hpb Hcb Hrec Hnd
      (fun _ => Hest)) as Happend.
    destruct Hout as [[Hres Hp]|[[Hres Hp]|[Hres Hp]]]; rewrite Hres in Hx; simpl in Hx.
    + destruct (Happend BOOT_LEDGER_STATUS_OK) as (l2 & Happ & Hran & Hex & _).
      { intros rc H1 H2 H3. left. rewrite H1, H2, H3, Hres. done. }
      rewrite Happ in Hx. by simplify_eq.
    + destruct d.(required) eqn:Hr; [done|]. simpl in Hx.
      destruct (Happend BOOT_LEDGER_STATUS_OPTIONAL_STAGE_SKIPPED) as (l2 & Happ & Hran & Hex & _).
      { intros rc H1 H2 H3. right; left. rewrite H1, H2, H3, Hres. done. }
      rewrite Happ in Hx. by simplify_eq.
    + destruct d.(required) eqn:Hr; [done|]. simpl in Hx.
      destruct (Happend BOOT_LEDGER_STATUS_OPTIONAL_STAGE_FAILED) as (l2 & Happ & Hran & Hex & _).
      { intros rc H1 H2 H3. right; right. rewrite H1, H2, H3, Hres. done. }
      rewrite Happ in Hx. simplify_eq/=. split; [by apply ran_totals|done].
Qed.

(** The ledger execution starts from. *)
Definition cleared l : ledger :=
  set_totals (set_established (set_receipts l l.(receipts) 0) l.(established_capabilities) 0)
    0 0 false.

Lemma cleared_ran l : runnable l -> ran l 0 (cleared l).
Proof.
  intros Hrun. pose proof (rb_typed _ Hrun) as Ht. split; simpl.
  - repeat split.
  - split; simpl; [apply Ht|apply Ht|lia].
  - done.
  - unfold BOOT_CAPABILITY_COUNT. lia.
  - intros j rc Hj. unfold filed in Hj. simpl in Hj. done.
  - done.
  - constructor.
Qed.

Lemma execute_planned_step l0 k l context :
  runnable l0 -> (k < length (plan l0))%nat -> ran l0 k l ->
  match execute_planned (Z.of_nat k) (l, context) with
  | Next (l', _) => ran l0 (S k) l' /\ l'.(executed) = l.(executed)
  | Return x => x.1.1 <> BOOT_LEDGER_STATUS_OK
  end.
Proof.
  intros Hrun Hk Hran. destruct (lookup_lt_is_Some_2 _ _ Hk) as [d Hd].
  destruct (planned_stage l0 Hrun k d Hd) as (Hlt & Hdeq & _).
  destruct (rn_plan _ _ _ Hran) as (Sd & _ & So & Si & _).
  unfold execute_planned, descriptor_at. rewrite Sd, So, Si.
  change (aget zero_descriptor l0.(descriptors) _) with
    (descriptor_at l0 (aget 0 l0.(canonical_order) (Z.of_nat k))). rewrite <- Hdeq.
  destruct (negb _) eqn:Hid; [done|].
  destruct (execute_stage d l context) as [[st l'] ctx] eqn:Hx.
  destruct (is_ok st) eqn:Hok; simpl; [|by destruct st].
  assert (st = BOOT_LEDGER_STATUS_OK) as -> by (by destruct st).
  by apply (execute_stage_ok l0 k l d context l' ctx).
Qed.

(** What holds before each turn of the loop over the plan. *)
Definition turn l0 (todo : list Z) (x : ledger * C) : Prop :=
  exists k, todo = seqZ (Z.of_nat k) (l0.(planned_count) - Z.of_nat k) /\
    (k <= length (plan l0))%nat /\ ran l0 k x.1 /\ x.1.(executed) = l0.(executed).

Lemma execute_turn l0 i todo x :
  runnable l0 -> turn l0 (i :: todo) x ->
  match execute_planned i x with
  | Next x' => turn l0 todo x'
  | Return x' => x'.1.1 <> BOOT_LEDGER_STATUS_OK
  end.
Proof.
  intros Hrun (k & Htodo & Hk & Hran & Hex). pose proof (plan_length l0 Hrun) as Hp.
  destruct x as [l context]. cbn [fst] in *.
  destruct (decide (Z.of_nat k = l0.(planned_count))) as [He|Hne].
  { rewrite He, Z.sub_diag, seqZ_nil in Htodo by lia. done. }
  rewrite seqZ_cons in Htodo by lia. injection Htodo as -> ->.
  pose proof (execute_planned_step l0 k l context Hrun ltac:(lia) Hran) as Hstep.
  destruct (execute_planned _ _) as [[l2 c2]|x]; [|done]. destruct Hstep as [Hr2 He2].
  exists (S k). split_and!; [f_equal; lia|lia|done|simpl; congruence].
Qed.

Lemma execute_loop l0 context :
  runnable l0 ->
  match for_each execute_planned (seqZ 0 l0.(planned_count)) (cleared l0, context) with
  | Next (l, _) => ran l0 (length (plan l0)) l /\ l.(executed) = l0.(executed)
  | Return x => x.1.1 <> BOOT_LEDGER_STATUS_OK
  end.
Proof.
  intros Hrun. pose proof (plan_length l0 Hrun) as Hp.
  assert (Hstart : turn l0 (seqZ 0 l0.(planned_count)) (cleared l0, context)).
  { exists O. rewrite Z.sub_0_r. split_and!; [done|lia|by apply cleared_ran|done]. }
  pose proof (for_each_inv (turn l0) (fun x => x.1.1 <> BOOT_LEDGER_STATUS_OK)
    execute_planned _ _ (fun i todo x => execute_turn l0 i todo x Hrun) Hstart) as Hinv.
  destruct (for_each _ _ _) as [[l ctx]|x]; [|done].
  destruct Hinv as (k & Hnil & Hk & Hran & Hex).
  apply (f_equal length) in Hnil. rewrite length_seqZ in Hnil. simpl in *.
  replace (length (plan l0)) with k by lia. done.
Qed.

(** The ledger a finished execution leaves. *)
Lemma execute_plan_ok l context l' context' :
  runnable l -> execute_plan l context = (BOOT_LEDGER_STATUS_OK, l', context') ->
  ran l (length (plan l)) l' /\ l'.(executed) = true /\
  fingerprint_plan l' = l'.(validated_plan_fingerprint) /\
  fingerprint_receipts l' = l'.(fingerprint) /\ l'.(validated) = true.
Proof.
  intros Hrun Hx. unfold execute_plan in Hx. cbv zeta in Hx.
  destruct (negb l.(validated)) eqn:Hval; [done|]. destruct l.(executed); [done|].
  destruct (negb (fingerprint_plan l =? _)) eqn:Hfp; [done|]. bool_hyps.
  pose proof (execute_loop l context Hrun) as Hloop. unfold cleared in Hloop. simpl in *.
  destruct (for_each _ _ _) as [[l2 c2]|[[st l2] c2]].
  2: { simpl in Hloop. by simplify_eq. }
  destruct Hloop as [Hran Hex]. injection Hx as <- <-. simpl.
  pose proof (rn_plan _ _ _ Hran) as Hsame.
  pose proof (same_plan_fingerprint _ _ Hsame) as Hfp2.
  destruct Hsame as (_ & _ & _ & _ & _ & Hvp & Hvv).
  split_and!; [|done| |done|congruence].
  - destruct Hran as [? [] ? ? ? ? ?]. by split.
  - rewrite Hvp, <- Hfp, <- Hfp2. done.
Qed.

(** ** Executions that finish *)

(** What a required stage requires is provided whenever its provider runs, and
    the provider is required too or provides it also when skipped. *)
Definition dependable (ds : list descriptor) : Prop :=
  forall d c, d ∈ ds -> d.(required) = true -> c ∈ requirements d ->
    exists p, p ∈ ds /\ c ∈ provides p /\ (p.(required) = true \/ c ∈ skips p).

(** The stages of [ds] do not fail: a required one runs, an optional one runs
    or is skipped, and either provides what it declared. *)
Definition stages_succeed (ds : list descriptor) : Prop :=
  forall d f l context, d ∈ ds -> d.(execute) = Some f ->
    let r := (run_stage f l context d boot_stage_result_fail).2 in
    (validate_result d r).1 = BOOT_LEDGER_STATUS_OK /\
    (r.(result) = BOOT_RECEIPT_RAN \/
     (d.(required) = false /\ r.(result) = BOOT_RECEIPT_SKIPPED)).

Definition none_failed l : Prop :=
  forall rc, rc ∈ filed l -> rc.(receipt_result) <> BOOT_RECEIPT_FAILED.

Lemma requirements_met l0 k l d :
  runnable l0 -> topological (plan l0) -> dependable (stages l0) -> ran l0 k l ->
  none_failed l -> plan l0 !! k = Some d -> d.(required) = true ->
  requirements_established l d = None.
Proof.
  intros Hrun Htop Hdep Hran Hnf Hd Hreq.
  destruct (planned_stage l0 Hrun k d Hd) as (_ & _ & _ & Hds & _ & Ha).
  apply find_negb_None. intros c Hc. unfold boot_ledger_has_capability.
  apply andb_true_iff. split; [apply (as_capabilities _ Ha); set_solver|].
  apply has_capability_elem. fold (established l). rewrite (rn_established _ _ _ Hran).
  destruct (Hdep d c Hds Hreq Hc) as (p & Hp & Hprov & Hsure).
  destruct (Htop (take k (plan l0)) d (drop (S k) (plan l0))) with (c := c)
    as (q & Hq & Hqc); [by rewrite take_drop_middle|done|].
  apply list_elem_of_lookup in Hq as [j [Hj Hlt]%lookup_take_Some].
  destruct (planned_stage l0 Hrun j q Hj) as (_ & _ & _ & Hqs & _).
  assert (q = p) as ->.
  { apply (unique_by_id (stages l0)); [apply ac_distinct, Hrun|done|done|].
    apply (ac_exclusive _ (rb_acceptable _ Hrun) q p c); [done|done|done|].
    unfold outcomes. set_solver. }
  destruct (lookup_lt_is_Some_2 (filed l) j) as [rc Hrc].
  { rewrite (filed_length l0 Hrun k l Hran); [done|]. apply lookup_lt_Some in Hd. lia. }
  destruct (rn_receipts _ _ _ Hran j rc Hrc) as (e & He & Ho). simplify_eq.
  apply given_elem. exists rc. pose proof (list_elem_of_lookup_2 _ _ _ Hrc) as Hin.
  split; [done|].
  destruct (ro_outcome _ _ _ _ Ho) as [(_ & _ & ->)|[(Hopt & _ & _ & ->)|(_ & Hf & _)]];
    [done| |by destruct (Hnf rc Hin)].
  destruct Hsure; [congruence|done].
Qed.

Lemma execute_stage_finishes l0 k l d context :
  runnable l0 -> topological (plan l0) -> dependable (stages l0) -> stages_succeed (stages l0) ->
  ran l0 k l -> none_failed l -> plan l0 !! k = Some d ->
  exists l' context', execute_stage d l context = (BOOT_LEDGER_STATUS_OK, l', context') /\
    none_failed l'.
Proof.
  intros Hrun Htop Hdep Hsucc Hran Hnf Hd.
  destruct (planned_stage l0 Hrun k d Hd) as (_ & _ & _ & Hds & Hdt & Ha).
  assert (Happend : forall l' rc r, filed l' = filed l ++ [rc] ->
    rc.(receipt_result) = r.(result) -> r.(result) <> BOOT_RECEIPT_FAILED -> none_failed l').
  { intros l' rc r Hf Hrc Hr rc' Hin. rewrite Hf in Hin.
    apply elem_of_app in Hin as [?| ->%list_elem_of_singleton]; [by apply Hnf|congruence]. }
  unfold execute_stage. destruct (requirements_established l d) as [missing|] eqn:Hest.
  - destruct d.(required) eqn:Hreq; [by rewrite (requirements_met l0 k l d) in Hest|].
    destruct (skip_result_typed d Hdt Ha) as [Hst Hskips].
    destruct (ran_append l0 Hrun k l d (boot_stage_result_skip d)
      BOOT_LEDGER_STATUS_OPTIONAL_STAGE_SKIPPED Hran Hd Hst)
      as (l2 & Happ & _ & _ & rc & Hf & Hrc).
    + apply (as_skipped_bound _ Ha).
    + done.
    + intros rc H1 H2 H3. right; left. rewrite H1, H2, H3, Hskips. done.
    + rewrite Hskips. apply Ha.
    + done.
    + rewrite Happ. eexists _, _. split; [done|]. by apply (Happend l2 rc _ Hf Hrc).
  - destruct (as_execute _ Ha) as [fn Hfn].
    pose proof (call_typed d l (clear_failure_detail context) Hdt Ha) as Hrt.
    destruct (Hsucc d fn l (clear_failure_detail context) Hds Hfn) as [Hval Hres].
    unfold call_execute in *. rewrite Hfn in *.
    destruct (run_stage fn l _ d _) as [ctx r]. simpl in Hrt, Hval, Hres.
    destruct (validate_result d r) as [st bad] eqn:Hv. simpl in Hval. subst st. simpl.
    destruct (validate_result_ok d r bad Hrt Hdt Ha Hv) as (Hpb & Hcb & Hout).
    pose proof (established_requirements l d Hest) as Hready.
    assert (Hnd : NoDup (entries r.(provided) r.(provided_count))).
    { destruct Hout as [[_ ->]|[[_ ->]|[_ ->]]]; [apply Ha|apply Ha|constructor]. }
    pose proof (fun st' Hrec => ran_append l0 Hrun k l d r st' Hran Hd Hrt Hpb Hcb Hrec Hnd
      (fun _ => Hready)) as Hfile.
    destruct Hres as [Hres|[Hopt Hres]].
    + assert (HP : entries r.(provided) r.(provided_count) ≡ₚ provides d).
      { destruct Hout as [[_ ?]|[[Hs _]|[Hs _]]]; [done| |]; rewrite Hres in Hs; done. }
      destruct (Hfile BOOT_LEDGER_STATUS_OK) as (l2 & Happ & _ & _ & rc & Hf & Hrc).
      { intros rc H1 H2 H3. left. rewrite H1, H2, H3, Hres. done. }
      rewrite Hres. simpl. rewrite Happ. eexists _, _. split; [done|].
      apply (Happend l2 rc r Hf Hrc). by rewrite Hres.
    + assert (HP : entries r.(provided) r.(provided_count) ≡ₚ skips d).
      { destruct Hout as [[Hs _]|[[_ ?]|[Hs _]]]; [|done|]; rewrite Hres in Hs; done. }
      destruct (Hfile BOOT_LEDGER_STATUS_OPTIONAL_STAGE_SKIPPED)
        as (l2 & Happ & _ & _ & rc & Hf & Hrc).
      { intros rc H1 H2 H3. right; left. rewrite H1, H2, H3, Hres. done. }
      rewrite Hres, Hopt. simpl. rewrite Happ. eexists _, _. split; [done|].
      apply (Happend l2 rc r Hf Hrc). by rewrite Hres.
Qed.

Lemma execute_loop_finishes l0 context :
  runnable l0 -> topological (plan l0) -> dependable (stages l0) -> stages_succeed (stages l0) ->
  exists l' context',
    for_each execute_planned (seqZ 0 l0.(planned_count)) (cleared l0, context) =
    Next (l', context').
Proof.
  intros Hrun Htop Hdep Hsucc. pose proof (plan_length l0 Hrun) as Hp.
  pose proof (for_each_inv (fun todo (x : ledger * C) => turn l0 todo x /\ none_failed x.1)
    (fun _ => False) execute_planned (seqZ 0 l0.(planned_count)) (cleared l0, context)) as Hinv.
  destruct (for_each _ _ _) as [[l c]|x]; [eauto|]. exfalso. apply Hinv; clear Hinv.
  - intros i todo y [Hturn Hnf]. pose proof (execute_turn l0 i todo y Hrun Hturn) as Hnext.
    destruct Hturn as (k & Htodo & Hk & Hran & _). destruct y as [l c]. cbn [fst] in *.
    destruct (decide (Z.of_nat k = l0.(planned_count))) as [He|Hne].
    { rewrite He, Z.sub_diag, seqZ_nil in Htodo by lia. done. }
    rewrite seqZ_cons in Htodo by lia. injection Htodo as -> _.
    destruct (lookup_lt_is_Some_2 (plan l0) k) as [d Hd]; [lia|].
    destruct (execute_stage_finishes l0 k l d c) as (l2 & c2 & Hx & Hnf2); [done..|].
    destruct (planned_stage l0 Hrun k d Hd) as (Hlt & Hdeq & _).
    destruct (rn_plan _ _ _ Hran) as (Sd & _ & So & Si & _).
    assert (Hid : aget 0 l0.(validated_stage_ids) (Z.of_nat k) = d.(id)).
    { pose proof (rb_ids _ Hrun) as Hids. apply (f_equal (fun x => x !! k)) in Hids.
      rewrite list_lookup_fmap, Hd in Hids. simpl in Hids.
      apply (entries_lookup 0) in Hids as [_ ->]; [done|].
      pose proof (rb_typed _ Hrun) as Ht. rewrite (lt_ids _ Ht). pose proof (lt_count _ Ht).
      rewrite (rb_count _ Hrun). lia. }
    assert (Hplan : execute_planned (Z.of_nat k) (l, c) = Next (l2, c2)).
    { unfold execute_planned, descriptor_at. rewrite Sd, So, Si, Hid.
      change (aget zero_descriptor l0.(descriptors) _) with
        (descriptor_at l0 (aget 0 l0.(canonical_order) (Z.of_nat k))).
      rewrite <- Hdeq, Z.eqb_refl. cbn [negb]. by rewrite Hx. }
    rewrite Hplan in *. done.
  - split; [|intros rc Hrc; unfold filed in Hrc; simpl in Hrc; set_solver].
    exists O. rewrite Z.sub_0_r. split_and!; [done|lia|by apply cleared_ran|done].
Qed.
End executor.


(** * A run in which every stage succeeds *)

#[export] Instance sample_execution : StageExecution unit nat := {
  clear_failure_detail context := context;
  run_stage _ _ context d _ := (S context, boot_stage_result_succeed d)
}.

#[export] Instance sample_execution_laws : StageExecutionLaws unit nat.
Proof.
  intros f l context d r Hd Ha _. pose proof (dt_counts _ Hd). split; simpl.
  - apply copy_capabilities_length; [|apply Hd]. pose proof (as_provided_bound _ Ha). lia.
  - done.
  - lia.
Qed.

Definition sample_validated : boot_ledger unit := (validate sample_backward).2.
Abbreviation sample_run := (execute_plan sample_validated 0%nat).

Lemma sample_validates : validate sample_backward = (BOOT_LEDGER_STATUS_OK, sample_validated).
Proof.
  assert (Hs : (validate sample_backward).1 = BOOT_LEDGER_STATUS_OK) by (vm_compute; reflexivity).
  unfold sample_validated. rewrite <- Hs. apply surjective_pairing.
Qed.

Lemma sample_runs :
  execute_plan sample_validated 0%nat = (BOOT_LEDGER_STATUS_OK, sample_run.1.2, sample_run.2).
Proof.
  assert (Hs : sample_run.1.1 = BOOT_LEDGER_STATUS_OK) by (vm_compute; reflexivity).
  revert Hs. generalize sample_run. intros [[st l] c]. simpl. by intros ->.
Qed.

(** * Theorems *)

Lemma validated_execution {E C} `{StageExecutionLaws E C} (l l1 l2 : boot_ledger E)
    (context context' : C) :
  ledger_typed l -> validate l = (BOOT_LEDGER_STATUS_OK, l1) ->
  execute_plan l1 context = (BOOT_LEDGER_STATUS_OK, l2, context') ->
  runnable l1 /\ ran l1 (length (plan l1)) l2 /\ l2.(executed) = true /\
  fingerprint_plan l2 = l2.(validated_plan_fingerprint) /\
  fingerprint_receipts l2 = l2.(fingerprint) /\ l2.(validated) = true.
Proof.
  intros Ht Hv Hx. pose proof (plan_validate_spec l Ht) as Hs. rewrite Hv in Hs.
  destruct Hs as [Hacc Hplan].
  assert (Hrun : runnable l1)
    by (apply (validated_runnable l); [by apply Hacc|by apply Hplan]).
  split; [done|]. by apply (execute_plan_ok l1 context l2 context').
Qed.

(** When the executor finishes, every planned stage has exactly one
    receipt, in plan order; a stage that ran or failed had every requirement
    named by an earlier receipt, a required stage ran, a stage that ran
    provides exactly what it declared, and the established capabilities are
    those of the receipts, each once. *)
Theorem executed_receipts {E C} `{StageExecutionLaws E C} (l l1 l2 : boot_ledger E)
    (context context' : C) :
  ledger_typed l -> validate l = (BOOT_LEDGER_STATUS_OK, l1) ->
  execute_plan l1 context = (BOOT_LEDGER_STATUS_OK, l2, context') ->
  length (filed l2) = length (plan l1) /\
  (forall k d, plan l1 !! k = Some d -> exists rc,
     filed l2 !! k = Some rc /\ receipt_of (given (take k (filed l2))) d k rc) /\
  established l2 = given (filed l2) /\ NoDup (established l2).
Proof.
  intros Ht Hv Hx. destruct (validated_execution l l1 l2 context context' Ht Hv Hx)
    as (Hrun & Hran & _).
  pose proof (filed_length l1 Hrun _ l2 Hran ltac:(lia)) as Hlen.
  split; [done|]. split.
  - intros k d Hd. destruct (lookup_lt_is_Some_2 (filed l2) k) as [rc Hrc].
    { apply lookup_lt_Some in Hd. lia. }
    exists rc. split; [done|]. destruct (rn_receipts _ _ _ Hran k rc Hrc) as (e & He & Ho).
    by simplify_eq.
  - rewrite (rn_established _ _ _ Hran). split; [done|apply (rn_nodup _ _ _ Hran)].
Qed.

Lemma executed_receipts_witness :
  length (filed sample_run.1.2) = 3%nat /\
  established sample_run.1.2 = [BOOT_CAPABILITY_EARLY_SERIAL_AVAILABLE;
    BOOT_CAPABILITY_BOOT_INFORMATION_VALIDATED;
    BOOT_CAPABILITY_PHYSICAL_FRAME_ALLOCATOR_AVAILABLE].
Proof.
  destruct (executed_receipts sample_backward sample_validated sample_run.1.2 0%nat
    sample_run.2 (proj2 sample_ledgers_typed) sample_validates sample_runs) as (Hlen & _ & Hest & _).
  split; [rewrite Hlen; vm_compute; done|]. rewrite Hest. vm_compute. done.
Defined.

(** C14 (refinement): what a finished execution leaves is what the audit of the
    receipts asks for: verify_receipt_set accepts it and changes nothing, and
    both fingerprints hold. *)
Theorem execution_audited {E C} `{StageExecutionLaws E C} (l l1 l2 : boot_ledger E)
    (context context' : C) :
  ledger_typed l -> validate l = (BOOT_LEDGER_STATUS_OK, l1) ->
  execute_plan l1 context = (BOOT_LEDGER_STATUS_OK, l2, context') ->
  verify_receipt_set l2 = (BOOT_LEDGER_STATUS_OK, l2) /\
  boot_ledger_fingerprint_valid l2 = true.
Proof.
  intros Ht Hv Hx. destruct (validated_execution l l1 l2 context context' Ht Hv Hx)
    as (Hrun & Hran & Hex & Hfp & Hfr & Hval).
  split; [by apply (verify_complete l1 Hrun (length (plan l1)) l2 Hran)|].
  unfold boot_ledger_fingerprint_valid. by rewrite Hval, Hex, Hfp, Hfr, !Z.eqb_refl.
Qed.

Lemma execution_audited_witness :
  (verify_receipt_set sample_run.1.2).1 = BOOT_LEDGER_STATUS_OK.
Proof.
  destruct (execution_audited sample_backward sample_validated sample_run.1.2 0%nat
    sample_run.2 (proj2 sample_ledgers_typed) sample_validates sample_runs) as [-> _]. done.
Defined.

Lemma execution_finishes {E C} `{StageExecutionLaws E C} (l l1 : boot_ledger E)
    (context : C) :
  ledger_typed l -> validate l = (BOOT_LEDGER_STATUS_OK, l1) ->
  dependable (stages l) -> stages_succeed (C := C) (stages l) ->
  exists l2 context', execute_plan l1 context = (BOOT_LEDGER_STATUS_OK, l2, context').
Proof.
  intros Ht Hv Hdep Hsucc. pose proof (plan_validate_spec l Ht) as Hs. rewrite Hv in Hs.
  destruct Hs as [Hacc Hplan]. specialize (Hplan eq_refl).
  assert (Hrun : runnable l1) by (apply (validated_runnable l); [by apply Hacc|done]).
  rewrite <- (vp_stages _ _ Hplan) in Hdep, Hsucc.
  destruct (execute_loop_finishes l1 context Hrun) as (l2 & c2 & Hloop); [|done|done|].
  { apply canonical_topological, Hplan. }
  destruct (vp_flags _ _ Hplan) as (F1 & F2 & _).
  unfold execute_plan. rewrite F1, F2, (vp_fingerprint _ _ Hplan), Z.eqb_refl.
  cbv zeta. cbn [negb].
  change (set_totals _ 0 0 false) with (cleared l1).
  change (planned_count (cleared l1)) with l1.(planned_count). rewrite Hloop. eauto.
Qed.

(** When required stages depend only on what a required stage
    provides or an optional one provides either way, and no stage fails, the
    executor runs a validated plan to its end. *)
Theorem execution_completes {E C} `{StageExecutionLaws E C} (l l1 : boot_ledger E)
    (context : C) :
  ledger_typed l -> validate l = (BOOT_LEDGER_STATUS_OK, l1) ->
  dependable (stages l) -> stages_succeed (C := C) (stages l) ->
  exists l2 context', execute_plan l1 context = (BOOT_LEDGER_STATUS_OK, l2, context').
Proof. apply execution_finishes. Qed.

Lemma sample_stages :
  stages sample_backward = [sample_frames; sample_information; sample_serial].
Proof. reflexivity. Qed.

Lemma execution_completes_witness :
  exists l2 context', execute_plan sample_validated 0%nat = (BOOT_LEDGER_STATUS_OK, l2, context').
Proof.
  apply (execution_completes sample_backward sample_validated 0%nat (proj2 sample_ledgers_typed)
           sample_validates); rewrite sample_stages.
  - intros d c Hd _ Hc.
    apply elem_of_cons in Hd as [->|[->|[->|[]%elem_of_nil]%elem_of_cons]%elem_of_cons].
    + exists sample_information. apply list_elem_of_singleton in Hc as ->.
      split_and!; [set_solver|by apply list_elem_of_singleton|by left].
    + exists sample_serial. apply list_elem_of_singleton in Hc as ->.
      split_and!; [set_solver|by apply list_elem_of_singleton|by left].
    + apply elem_of_nil in Hc. done.
  - intros d fn l context Hd _.
    apply elem_of_cons in Hd as [->|[->|[->|[]%elem_of_nil]%elem_of_cons]%elem_of_cons];
      (split; [vm_compute; reflexivity|by left]).
Defined.
End BootLedgerRun.
