(* ===== verification/BootPlan.v ===== *)
(** The boot plan Sapote installs, from src/src/kernel/boot_plan.c: the table
    of stage descriptors, the capabilities each declares, and the checks some
    stages repeat on their own descriptor.  The functions of the stages are the
    values of [executor]; what they do belongs to the components they call. *)
From S2P Require Import Prelude BootLedger BootLedgerPlan BootLedgerRun.
From stdpp Require Import strings.

Open Scope Z_scope.

Module BootPlan.
Import BootLedger BootLedgerPlan BootLedgerRun.

(** The function pointers of the plan. *)
Inductive executor : Set :=
| execute_early_serial
| execute_interrupt_foundation
| execute_pure_self_tests
| execute_boot_information
| execute_firmware_discovery
| execute_device_windows
| execute_interrupt_controllers
| execute_frame_allocator
| execute_paging_install
| execute_paging_proofs
| execute_framebuffer_wc
| execute_memory_runtime
| execute_framebuffer_output
| execute_keyboard
| execute_shell
| execute_ui_font
| execute_pointer_decision
| execute_pointer_outcome
| execute_ui_layout
| execute_early_scenario
| execute_interrupt_proofs
| execute_timer_routing
| execute_timer_calibration
| execute_pci
| execute_pci_resource_foundation
| execute_dynamic_vector_foundation
| execute_dma_foundation
| execute_xhci_foundation
| execute_nvme_foundation
| execute_fat16_foundation
| execute_threading
| execute_scheduler
| execute_process_address_space_foundation
| execute_elf64_loader_foundation
| execute_device_substrate_proof
| execute_xhci_descriptor_proof
| execute_nvme_read_proof
| execute_filesystem_file_proof
| execute_process_installed_proof
| execute_closing_proofs
| execute_desktop_construction
| execute_desktop_activation
| execute_first_light_proof.

#[export] Instance executor_eq_dec : EqDecision executor.
Proof. solve_decision. Defined.

Abbreviation stage := (boot_stage_descriptor executor).

(** The three macros that write one row of the table. *)
Definition stage_row (required neutral : bool) (identifier : Z) (label : string)
    (boot_phase irreversible : Z) (function : executor) : stage :=
  MkDescriptor executor identifier (Some label) no_capabilities 0 no_capabilities 0
    no_capabilities 0 required neutral boot_phase irreversible (Some function).
Definition REQUIRED_STAGE : Z -> string -> Z -> Z -> executor -> stage :=
  stage_row true false.
Definition OPTIONAL_STAGE : Z -> string -> Z -> Z -> executor -> stage :=
  stage_row false false.
Definition OPTIONAL_NEUTRAL_STAGE : Z -> string -> Z -> Z -> executor -> stage :=
  stage_row false true.

Definition installed_descriptors : list stage :=
  [REQUIRED_STAGE BOOT_STAGE_EARLY_SERIAL "early serial"
     BOOT_PHASE_FOUNDATION BOOT_IRREVERSIBLE_NONE execute_early_serial;
   REQUIRED_STAGE BOOT_STAGE_INTERRUPT_FOUNDATION "interrupt foundation"
     BOOT_PHASE_FOUNDATION BOOT_IRREVERSIBLE_NONE execute_interrupt_foundation;
   REQUIRED_STAGE BOOT_STAGE_PURE_SELF_TESTS "pure boot self-tests"
     BOOT_PHASE_FOUNDATION BOOT_IRREVERSIBLE_NONE execute_pure_self_tests;
   REQUIRED_STAGE BOOT_STAGE_BOOT_INFORMATION "boot information"
     BOOT_PHASE_DISCOVERY BOOT_IRREVERSIBLE_NONE execute_boot_information;
   REQUIRED_STAGE BOOT_STAGE_FIRMWARE_DISCOVERY "firmware discovery"
     BOOT_PHASE_DISCOVERY BOOT_IRREVERSIBLE_NONE execute_firmware_discovery;
   REQUIRED_STAGE BOOT_STAGE_DEVICE_WINDOWS "device-window registry"
     BOOT_PHASE_DISCOVERY BOOT_IRREVERSIBLE_NONE execute_device_windows;
   REQUIRED_STAGE BOOT_STAGE_INTERRUPT_CONTROLLERS "interrupt controllers"
     BOOT_PHASE_CONTROLLERS BOOT_IRREVERSIBLE_NONE execute_interrupt_controllers;
   REQUIRED_STAGE BOOT_STAGE_FRAME_ALLOCATOR "physical frame allocator"
     BOOT_PHASE_CONTROLLERS BOOT_IRREVERSIBLE_NONE execute_frame_allocator;
   REQUIRED_STAGE BOOT_STAGE_PAGING_INSTALL "PAT and page-table installation"
     BOOT_PHASE_MEMORY_TRANSITION BOOT_IRREVERSIBLE_PAT_CR3 execute_paging_install;
   REQUIRED_STAGE BOOT_STAGE_PAGING_PROOFS "installed paging proofs"
     BOOT_PHASE_MEMORY_TRANSITION BOOT_IRREVERSIBLE_NONE execute_paging_proofs;
   OPTIONAL_STAGE BOOT_STAGE_FRAMEBUFFER_WC "independent framebuffer WC proof"
     BOOT_PHASE_MEMORY_TRANSITION BOOT_IRREVERSIBLE_NONE execute_framebuffer_wc;
   REQUIRED_STAGE BOOT_STAGE_MEMORY_RUNTIME "heap and paging runtime"
     BOOT_PHASE_RUNTIME BOOT_IRREVERSIBLE_NONE execute_memory_runtime;
   OPTIONAL_STAGE BOOT_STAGE_FRAMEBUFFER_OUTPUT "framebuffer output"
     BOOT_PHASE_RUNTIME BOOT_IRREVERSIBLE_FRAMEBUFFER_OUTPUT execute_framebuffer_output;
   REQUIRED_STAGE BOOT_STAGE_KEYBOARD "keyboard interrupt path"
     BOOT_PHASE_RUNTIME BOOT_IRREVERSIBLE_INTERRUPT_ENABLE execute_keyboard;
   OPTIONAL_STAGE BOOT_STAGE_SHELL "interactive shell"
     BOOT_PHASE_RUNTIME BOOT_IRREVERSIBLE_NONE execute_shell;
   OPTIONAL_STAGE BOOT_STAGE_UI_FONT "First Light UI font"
     BOOT_PHASE_RUNTIME BOOT_IRREVERSIBLE_NONE execute_ui_font;
   OPTIONAL_STAGE BOOT_STAGE_POINTER_DECISION "pointer availability decision"
     BOOT_PHASE_RUNTIME BOOT_IRREVERSIBLE_NONE execute_pointer_decision;
   OPTIONAL_NEUTRAL_STAGE BOOT_STAGE_POINTER_OUTCOME "pointer availability outcome"
     BOOT_PHASE_RUNTIME BOOT_IRREVERSIBLE_NONE execute_pointer_outcome;
   OPTIONAL_STAGE BOOT_STAGE_UI_LAYOUT "First Light layout"
     BOOT_PHASE_RUNTIME BOOT_IRREVERSIBLE_NONE execute_ui_layout;
   REQUIRED_STAGE BOOT_STAGE_EARLY_SCENARIO "early scenario gate"
     BOOT_PHASE_RUNTIME BOOT_IRREVERSIBLE_NONE execute_early_scenario;
   REQUIRED_STAGE BOOT_STAGE_INTERRUPT_PROOFS "interrupt proofs"
     BOOT_PHASE_TIMERS BOOT_IRREVERSIBLE_NONE execute_interrupt_proofs;
   REQUIRED_STAGE BOOT_STAGE_TIMER_ROUTING "interrupt routing"
     BOOT_PHASE_TIMERS BOOT_IRREVERSIBLE_NONE execute_timer_routing;
   REQUIRED_STAGE BOOT_STAGE_TIMER_CALIBRATION "timer calibration"
     BOOT_PHASE_TIMERS BOOT_IRREVERSIBLE_APIC_TIMER execute_timer_calibration;
   REQUIRED_STAGE BOOT_STAGE_PCI "PCI access"
     BOOT_PHASE_SERVICES BOOT_IRREVERSIBLE_NONE execute_pci;
   REQUIRED_STAGE BOOT_STAGE_PCI_RESOURCE_FOUNDATION "PCI resource ownership"
     BOOT_PHASE_SERVICES BOOT_IRREVERSIBLE_NONE execute_pci_resource_foundation;
   REQUIRED_STAGE BOOT_STAGE_DYNAMIC_VECTOR_FOUNDATION "dynamic interrupt vectors"
     BOOT_PHASE_SERVICES BOOT_IRREVERSIBLE_NONE execute_dynamic_vector_foundation;
   REQUIRED_STAGE BOOT_STAGE_DMA_FOUNDATION "DMA foundation"
     BOOT_PHASE_SERVICES BOOT_IRREVERSIBLE_NONE execute_dma_foundation;
   REQUIRED_STAGE BOOT_STAGE_XHCI_FOUNDATION "xHCI host-controller foundation"
     BOOT_PHASE_SERVICES BOOT_IRREVERSIBLE_NONE execute_xhci_foundation;
   REQUIRED_STAGE BOOT_STAGE_NVME_FOUNDATION "NVMe block-controller foundation"
     BOOT_PHASE_SERVICES BOOT_IRREVERSIBLE_NONE execute_nvme_foundation;
   REQUIRED_STAGE BOOT_STAGE_FAT16_FOUNDATION "bounded read-only FAT16 foundation"
     BOOT_PHASE_SERVICES BOOT_IRREVERSIBLE_NONE execute_fat16_foundation;
   REQUIRED_STAGE BOOT_STAGE_THREADING "threading"
     BOOT_PHASE_SERVICES BOOT_IRREVERSIBLE_NONE execute_threading;
   REQUIRED_STAGE BOOT_STAGE_SCHEDULER "scheduler"
     BOOT_PHASE_SERVICES BOOT_IRREVERSIBLE_SCHEDULER execute_scheduler;
   REQUIRED_STAGE BOOT_STAGE_PROCESS_ADDRESS_SPACE_FOUNDATION "private process address-space foundation"
     BOOT_PHASE_SERVICES BOOT_IRREVERSIBLE_NONE execute_process_address_space_foundation;
   REQUIRED_STAGE BOOT_STAGE_ELF64_LOADER_FOUNDATION "bounded ELF64 loader foundation"
     BOOT_PHASE_SERVICES BOOT_IRREVERSIBLE_NONE execute_elf64_loader_foundation;
   OPTIONAL_NEUTRAL_STAGE BOOT_STAGE_DEVICE_SUBSTRATE_PROOF "installed device-substrate proof"
     BOOT_PHASE_SERVICES BOOT_IRREVERSIBLE_NONE execute_device_substrate_proof;
   OPTIONAL_NEUTRAL_STAGE BOOT_STAGE_XHCI_DESCRIPTOR_PROOF "installed xHCI descriptor proof"
     BOOT_PHASE_SERVICES BOOT_IRREVERSIBLE_NONE execute_xhci_descriptor_proof;
   OPTIONAL_NEUTRAL_STAGE BOOT_STAGE_NVME_READ_PROOF "installed NVMe read proof"
     BOOT_PHASE_SERVICES BOOT_IRREVERSIBLE_NONE execute_nvme_read_proof;
   OPTIONAL_NEUTRAL_STAGE BOOT_STAGE_FILESYSTEM_FILE_PROOF "installed FAT16 file-read proof"
     BOOT_PHASE_SERVICES BOOT_IRREVERSIBLE_NONE execute_filesystem_file_proof;
   OPTIONAL_NEUTRAL_STAGE BOOT_STAGE_PROCESS_INSTALLED_PROOF "installed Ring 3 process proof"
     BOOT_PHASE_SERVICES BOOT_IRREVERSIBLE_NONE execute_process_installed_proof;
   REQUIRED_STAGE BOOT_STAGE_CLOSING_PROOFS "closing boot proofs"
     BOOT_PHASE_PROOFS BOOT_IRREVERSIBLE_NONE execute_closing_proofs;
   OPTIONAL_STAGE BOOT_STAGE_DESKTOP_CONSTRUCTION "desktop construction"
     BOOT_PHASE_PROOFS BOOT_IRREVERSIBLE_NONE execute_desktop_construction;
   OPTIONAL_STAGE BOOT_STAGE_DESKTOP_ACTIVATION "desktop activation"
     BOOT_PHASE_PROOFS BOOT_IRREVERSIBLE_NONE execute_desktop_activation;
   OPTIONAL_STAGE BOOT_STAGE_FIRST_LIGHT_PROOF "First Light installed proof"
     BOOT_PHASE_PROOFS BOOT_IRREVERSIBLE_NONE execute_first_light_proof].

Definition filesystem_file_requirements : list Z :=
  [BOOT_CAPABILITY_PAGE_TABLES_INSTALLED; BOOT_CAPABILITY_PCI_ACCESS_AVAILABLE;
   BOOT_CAPABILITY_HEAP_AVAILABLE; BOOT_CAPABILITY_PHYSICAL_FRAME_ALLOCATOR_AVAILABLE;
   BOOT_CAPABILITY_INTERRUPT_CONTROLLERS_CONFIGURED; BOOT_CAPABILITY_INTERRUPTS_ENABLED;
   BOOT_CAPABILITY_TIMER_CALIBRATION_COMPLETE; BOOT_CAPABILITY_THREADING_AVAILABLE;
   BOOT_CAPABILITY_SCHEDULER_AVAILABLE; BOOT_CAPABILITY_PCI_RESOURCE_OWNERSHIP_AVAILABLE;
   BOOT_CAPABILITY_DYNAMIC_VECTOR_FOUNDATION_AVAILABLE;
   BOOT_CAPABILITY_DMA_FOUNDATION_AVAILABLE; BOOT_CAPABILITY_NVME_FOUNDATION_AVAILABLE;
   BOOT_CAPABILITY_FAT16_FOUNDATION_AVAILABLE].

Definition process_proof_requirements : list Z :=
  [BOOT_CAPABILITY_PAGE_TABLES_INSTALLED; BOOT_CAPABILITY_WRITE_XOR_EXECUTE_PROVED;
   BOOT_CAPABILITY_PHYSICAL_FRAME_ALLOCATOR_AVAILABLE; BOOT_CAPABILITY_HEAP_AVAILABLE;
   BOOT_CAPABILITY_IDT_INSTALLED; BOOT_CAPABILITY_INTERRUPT_CONTROLLERS_CONFIGURED;
   BOOT_CAPABILITY_INTERRUPTS_ENABLED; BOOT_CAPABILITY_TIMER_CALIBRATION_COMPLETE;
   BOOT_CAPABILITY_THREADING_AVAILABLE; BOOT_CAPABILITY_SCHEDULER_AVAILABLE;
   BOOT_CAPABILITY_PCI_RESOURCE_OWNERSHIP_AVAILABLE;
   BOOT_CAPABILITY_DYNAMIC_VECTOR_FOUNDATION_AVAILABLE;
   BOOT_CAPABILITY_DMA_FOUNDATION_AVAILABLE; BOOT_CAPABILITY_NVME_FOUNDATION_AVAILABLE;
   BOOT_CAPABILITY_FAT16_FOUNDATION_AVAILABLE;
   BOOT_CAPABILITY_PRIVATE_ONE_FILE_READ_AVAILABLE;
   BOOT_CAPABILITY_PROCESS_ADDRESS_SPACE_FOUNDATION_AVAILABLE;
   BOOT_CAPABILITY_ELF64_LOADER_FOUNDATION_AVAILABLE].

(** Assignments to the first entries of an array, and the count. *)
Definition first_entries (values : list Z) : list Z :=
  values ++ drop (length values) no_capabilities.

Definition declare (d : stage) (requires provided skipped : list Z) : stage :=
  MkDescriptor executor d.(id) d.(name) (first_entries requires) (zlength requires)
    (first_entries provided) (zlength provided) (first_entries skipped) (zlength skipped)
    d.(required) d.(skip_preserves_health) d.(phase) d.(irreversible_class) d.(execute).

(** The capabilities of each stage: required, provided, provided when skipped;
    the cases of the switch, in source order. *)
Definition dependencies_1 (identifier : Z) : option (list Z * list Z * list Z) :=
  if identifier =? BOOT_STAGE_EARLY_SERIAL then
    Some ([],
          [BOOT_CAPABILITY_EARLY_SERIAL_AVAILABLE],
          [])
  else if identifier =? BOOT_STAGE_INTERRUPT_FOUNDATION then
    Some ([BOOT_CAPABILITY_EARLY_SERIAL_AVAILABLE],
          [BOOT_CAPABILITY_IDT_INSTALLED],
          [])
  else if identifier =? BOOT_STAGE_PURE_SELF_TESTS then
    Some ([BOOT_CAPABILITY_EARLY_SERIAL_AVAILABLE; BOOT_CAPABILITY_IDT_INSTALLED],
          [BOOT_CAPABILITY_BOOT_SELF_TESTS_COMPLETE],
          [])
  else if identifier =? BOOT_STAGE_BOOT_INFORMATION then
    Some ([BOOT_CAPABILITY_BOOT_SELF_TESTS_COMPLETE],
          [BOOT_CAPABILITY_BOOT_INFORMATION_VALIDATED],
          [])
  else if identifier =? BOOT_STAGE_FIRMWARE_DISCOVERY then
    Some ([BOOT_CAPABILITY_BOOT_INFORMATION_VALIDATED],
          [BOOT_CAPABILITY_ACPI_ROOT_VALIDATED;
           BOOT_CAPABILITY_INTERRUPT_TOPOLOGY_DISCOVERED; BOOT_CAPABILITY_CLOCKS_DISCOVERED],
          [])
  else if identifier =? BOOT_STAGE_DEVICE_WINDOWS then
    Some ([BOOT_CAPABILITY_BOOT_INFORMATION_VALIDATED;
           BOOT_CAPABILITY_INTERRUPT_TOPOLOGY_DISCOVERED],
          [BOOT_CAPABILITY_DEVICE_WINDOW_REGISTRY_VALIDATED;
           BOOT_CAPABILITY_FRAMEBUFFER_AVAILABILITY_DECIDED],
          [])
  else if identifier =? BOOT_STAGE_INTERRUPT_CONTROLLERS then
    Some ([BOOT_CAPABILITY_ACPI_ROOT_VALIDATED;
           BOOT_CAPABILITY_INTERRUPT_TOPOLOGY_DISCOVERED; BOOT_CAPABILITY_CLOCKS_DISCOVERED;
           BOOT_CAPABILITY_DEVICE_WINDOW_REGISTRY_VALIDATED],
          [BOOT_CAPABILITY_INTERRUPT_CONTROLLERS_CONFIGURED],
          [])
  else if identifier =? BOOT_STAGE_FRAME_ALLOCATOR then
    Some ([BOOT_CAPABILITY_BOOT_INFORMATION_VALIDATED;
           BOOT_CAPABILITY_INTERRUPT_CONTROLLERS_CONFIGURED],
          [BOOT_CAPABILITY_PHYSICAL_FRAME_ALLOCATOR_AVAILABLE],
          [])
  else if identifier =? BOOT_STAGE_PAGING_INSTALL then
    Some ([BOOT_CAPABILITY_DEVICE_WINDOW_REGISTRY_VALIDATED;
           BOOT_CAPABILITY_PHYSICAL_FRAME_ALLOCATOR_AVAILABLE],
          [BOOT_CAPABILITY_PAGE_TABLES_INSTALLED],
          [])
  else if identifier =? BOOT_STAGE_PAGING_PROOFS then
    Some ([BOOT_CAPABILITY_PAGE_TABLES_INSTALLED],
          [BOOT_CAPABILITY_WRITE_XOR_EXECUTE_PROVED;
           BOOT_CAPABILITY_INSTALLED_DEVICE_WINDOWS_PROVED],
          [])
  else if identifier =? BOOT_STAGE_FRAMEBUFFER_WC then
    Some ([BOOT_CAPABILITY_PAGE_TABLES_INSTALLED;
           BOOT_CAPABILITY_INSTALLED_DEVICE_WINDOWS_PROVED;
           BOOT_CAPABILITY_FRAMEBUFFER_AVAILABILITY_DECIDED],
          [BOOT_CAPABILITY_FRAMEBUFFER_WC_INDEPENDENTLY_PROVED],
          [BOOT_CAPABILITY_FRAMEBUFFER_SERIAL_FALLBACK])
  else if identifier =? BOOT_STAGE_MEMORY_RUNTIME then
    Some ([BOOT_CAPABILITY_PAGE_TABLES_INSTALLED; BOOT_CAPABILITY_WRITE_XOR_EXECUTE_PROVED],
          [BOOT_CAPABILITY_HEAP_AVAILABLE],
          [])
  else if identifier =? BOOT_STAGE_FRAMEBUFFER_OUTPUT then
    Some ([BOOT_CAPABILITY_FRAMEBUFFER_WC_INDEPENDENTLY_PROVED;
           BOOT_CAPABILITY_HEAP_AVAILABLE],
          [BOOT_CAPABILITY_SURFACE_AVAILABLE; BOOT_CAPABILITY_FRAMEBUFFER_OUTPUT_INSTALLED],
          [])
  else None.

Definition dependencies_2 (identifier : Z) : option (list Z * list Z * list Z) :=
  if identifier =? BOOT_STAGE_KEYBOARD then
    Some ([BOOT_CAPABILITY_IDT_INSTALLED; BOOT_CAPABILITY_INTERRUPT_CONTROLLERS_CONFIGURED;
           BOOT_CAPABILITY_HEAP_AVAILABLE],
          [BOOT_CAPABILITY_INTERRUPTS_ENABLED; BOOT_CAPABILITY_KEYBOARD_AVAILABLE],
          [])
  else if identifier =? BOOT_STAGE_SHELL then
    Some ([BOOT_CAPABILITY_SURFACE_AVAILABLE; BOOT_CAPABILITY_INTERRUPTS_ENABLED],
          [BOOT_CAPABILITY_SHELL_AVAILABLE],
          [])
  else if identifier =? BOOT_STAGE_UI_FONT then
    Some ([BOOT_CAPABILITY_SURFACE_AVAILABLE],
          [BOOT_CAPABILITY_UI_FONT_VERIFIED],
          [])
  else if identifier =? BOOT_STAGE_POINTER_DECISION then
    Some ([BOOT_CAPABILITY_KEYBOARD_AVAILABLE;
           BOOT_CAPABILITY_INTERRUPT_CONTROLLERS_CONFIGURED],
          [BOOT_CAPABILITY_POINTER_AVAILABILITY_DECIDED],
          [])
  else if identifier =? BOOT_STAGE_POINTER_OUTCOME then
    Some ([BOOT_CAPABILITY_POINTER_AVAILABILITY_DECIDED],
          [BOOT_CAPABILITY_POINTER_INPUT_AVAILABLE],
          [BOOT_CAPABILITY_POINTER_INPUT_ABSENT])
  else if identifier =? BOOT_STAGE_UI_LAYOUT then
    Some ([BOOT_CAPABILITY_SURFACE_AVAILABLE; BOOT_CAPABILITY_UI_FONT_VERIFIED],
          [BOOT_CAPABILITY_UI_LAYOUT_VALIDATED],
          [])
  else if identifier =? BOOT_STAGE_EARLY_SCENARIO then
    Some ([BOOT_CAPABILITY_HEAP_AVAILABLE; BOOT_CAPABILITY_INTERRUPTS_ENABLED],
          [],
          [])
  else if identifier =? BOOT_STAGE_INTERRUPT_PROOFS then
    Some ([BOOT_CAPABILITY_IDT_INSTALLED; BOOT_CAPABILITY_INTERRUPT_CONTROLLERS_CONFIGURED;
           BOOT_CAPABILITY_INTERRUPTS_ENABLED],
          [],
          [])
  else if identifier =? BOOT_STAGE_TIMER_ROUTING then
    Some ([BOOT_CAPABILITY_IDT_INSTALLED; BOOT_CAPABILITY_INTERRUPT_CONTROLLERS_CONFIGURED;
           BOOT_CAPABILITY_INTERRUPTS_ENABLED],
          [BOOT_CAPABILITY_INTERRUPT_ROUTING_PROVED],
          [])
  else if identifier =? BOOT_STAGE_TIMER_CALIBRATION then
    Some ([BOOT_CAPABILITY_IDT_INSTALLED; BOOT_CAPABILITY_INTERRUPT_CONTROLLERS_CONFIGURED;
           BOOT_CAPABILITY_INTERRUPTS_ENABLED; BOOT_CAPABILITY_CLOCKS_DISCOVERED;
           BOOT_CAPABILITY_INTERRUPT_ROUTING_PROVED],
          [BOOT_CAPABILITY_TIMER_CALIBRATION_COMPLETE],
          [])
  else if identifier =? BOOT_STAGE_PCI then
    Some ([BOOT_CAPABILITY_PAGE_TABLES_INSTALLED; BOOT_CAPABILITY_TIMER_CALIBRATION_COMPLETE],
          [BOOT_CAPABILITY_PCI_ACCESS_AVAILABLE],
          [])
  else if identifier =? BOOT_STAGE_PCI_RESOURCE_FOUNDATION then
    Some ([BOOT_CAPABILITY_PCI_ACCESS_AVAILABLE; BOOT_CAPABILITY_PAGE_TABLES_INSTALLED;
           BOOT_CAPABILITY_PHYSICAL_FRAME_ALLOCATOR_AVAILABLE],
          [BOOT_CAPABILITY_PCI_RESOURCE_OWNERSHIP_AVAILABLE],
          [])
  else if identifier =? BOOT_STAGE_DYNAMIC_VECTOR_FOUNDATION then
    Some ([BOOT_CAPABILITY_IDT_INSTALLED; BOOT_CAPABILITY_INTERRUPT_CONTROLLERS_CONFIGURED;
           BOOT_CAPABILITY_INTERRUPTS_ENABLED],
          [BOOT_CAPABILITY_DYNAMIC_VECTOR_FOUNDATION_AVAILABLE],
          [])
  else None.

Definition dependencies_3 (identifier : Z) : option (list Z * list Z * list Z) :=
  if identifier =? BOOT_STAGE_DMA_FOUNDATION then
    Some ([BOOT_CAPABILITY_PHYSICAL_FRAME_ALLOCATOR_AVAILABLE;
           BOOT_CAPABILITY_PAGE_TABLES_INSTALLED],
          [BOOT_CAPABILITY_DMA_FOUNDATION_AVAILABLE],
          [])
  else if identifier =? BOOT_STAGE_THREADING then
    Some ([BOOT_CAPABILITY_HEAP_AVAILABLE; BOOT_CAPABILITY_TIMER_CALIBRATION_COMPLETE],
          [BOOT_CAPABILITY_THREADING_AVAILABLE],
          [])
  else if identifier =? BOOT_STAGE_SCHEDULER then
    Some ([BOOT_CAPABILITY_HEAP_AVAILABLE; BOOT_CAPABILITY_THREADING_AVAILABLE;
           BOOT_CAPABILITY_TIMER_CALIBRATION_COMPLETE; BOOT_CAPABILITY_INTERRUPTS_ENABLED],
          [BOOT_CAPABILITY_SCHEDULER_AVAILABLE],
          [])
  else if identifier =? BOOT_STAGE_DEVICE_SUBSTRATE_PROOF then
    Some ([BOOT_CAPABILITY_PAGE_TABLES_INSTALLED; BOOT_CAPABILITY_PCI_ACCESS_AVAILABLE;
           BOOT_CAPABILITY_HEAP_AVAILABLE;
           BOOT_CAPABILITY_PHYSICAL_FRAME_ALLOCATOR_AVAILABLE;
           BOOT_CAPABILITY_INTERRUPT_CONTROLLERS_CONFIGURED;
           BOOT_CAPABILITY_INTERRUPTS_ENABLED; BOOT_CAPABILITY_THREADING_AVAILABLE;
           BOOT_CAPABILITY_SCHEDULER_AVAILABLE;
           BOOT_CAPABILITY_PCI_RESOURCE_OWNERSHIP_AVAILABLE;
           BOOT_CAPABILITY_DYNAMIC_VECTOR_FOUNDATION_AVAILABLE;
           BOOT_CAPABILITY_DMA_FOUNDATION_AVAILABLE],
          [BOOT_CAPABILITY_DEVICE_SUBSTRATE_INSTALLED_PROOF_COMPLETE],
          [BOOT_CAPABILITY_DEVICE_SUBSTRATE_FIXTURE_ABSENT])
  else if identifier =? BOOT_STAGE_XHCI_FOUNDATION then
    Some ([BOOT_CAPABILITY_PCI_RESOURCE_OWNERSHIP_AVAILABLE;
           BOOT_CAPABILITY_DYNAMIC_VECTOR_FOUNDATION_AVAILABLE;
           BOOT_CAPABILITY_DMA_FOUNDATION_AVAILABLE;
           BOOT_CAPABILITY_TIMER_CALIBRATION_COMPLETE],
          [BOOT_CAPABILITY_XHCI_FOUNDATION_AVAILABLE],
          [])
  else if identifier =? BOOT_STAGE_XHCI_DESCRIPTOR_PROOF then
    Some ([BOOT_CAPABILITY_PAGE_TABLES_INSTALLED; BOOT_CAPABILITY_PCI_ACCESS_AVAILABLE;
           BOOT_CAPABILITY_HEAP_AVAILABLE;
           BOOT_CAPABILITY_PHYSICAL_FRAME_ALLOCATOR_AVAILABLE;
           BOOT_CAPABILITY_INTERRUPT_CONTROLLERS_CONFIGURED;
           BOOT_CAPABILITY_INTERRUPTS_ENABLED; BOOT_CAPABILITY_TIMER_CALIBRATION_COMPLETE;
           BOOT_CAPABILITY_THREADING_AVAILABLE; BOOT_CAPABILITY_SCHEDULER_AVAILABLE;
           BOOT_CAPABILITY_PCI_RESOURCE_OWNERSHIP_AVAILABLE;
           BOOT_CAPABILITY_DYNAMIC_VECTOR_FOUNDATION_AVAILABLE;
           BOOT_CAPABILITY_DMA_FOUNDATION_AVAILABLE;
           BOOT_CAPABILITY_XHCI_FOUNDATION_AVAILABLE],
          [BOOT_CAPABILITY_XHCI_DESCRIPTOR_PROOF_COMPLETE],
          [BOOT_CAPABILITY_XHCI_FIXTURE_ABSENT])
  else if identifier =? BOOT_STAGE_NVME_FOUNDATION then
    Some ([BOOT_CAPABILITY_PCI_RESOURCE_OWNERSHIP_AVAILABLE;
           BOOT_CAPABILITY_DYNAMIC_VECTOR_FOUNDATION_AVAILABLE;
           BOOT_CAPABILITY_DMA_FOUNDATION_AVAILABLE;
           BOOT_CAPABILITY_TIMER_CALIBRATION_COMPLETE],
          [BOOT_CAPABILITY_NVME_FOUNDATION_AVAILABLE],
          [])
  else None.

Definition dependencies_4 (identifier : Z) : option (list Z * list Z * list Z) :=
  if identifier =? BOOT_STAGE_NVME_READ_PROOF then
    Some ([BOOT_CAPABILITY_PAGE_TABLES_INSTALLED; BOOT_CAPABILITY_PCI_ACCESS_AVAILABLE;
           BOOT_CAPABILITY_HEAP_AVAILABLE;
           BOOT_CAPABILITY_PHYSICAL_FRAME_ALLOCATOR_AVAILABLE;
           BOOT_CAPABILITY_INTERRUPT_CONTROLLERS_CONFIGURED;
           BOOT_CAPABILITY_INTERRUPTS_ENABLED; BOOT_CAPABILITY_TIMER_CALIBRATION_COMPLETE;
           BOOT_CAPABILITY_THREADING_AVAILABLE; BOOT_CAPABILITY_SCHEDULER_AVAILABLE;
           BOOT_CAPABILITY_PCI_RESOURCE_OWNERSHIP_AVAILABLE;
           BOOT_CAPABILITY_DYNAMIC_VECTOR_FOUNDATION_AVAILABLE;
           BOOT_CAPABILITY_DMA_FOUNDATION_AVAILABLE;
           BOOT_CAPABILITY_NVME_FOUNDATION_AVAILABLE],
          [BOOT_CAPABILITY_NVME_READ_PROOF_COMPLETE],
          [BOOT_CAPABILITY_NVME_FIXTURE_ABSENT])
  else if identifier =? BOOT_STAGE_FAT16_FOUNDATION then
    Some ([BOOT_CAPABILITY_NVME_FOUNDATION_AVAILABLE],
          [BOOT_CAPABILITY_FAT16_FOUNDATION_AVAILABLE;
           BOOT_CAPABILITY_PRIVATE_ONE_FILE_READ_AVAILABLE],
          [])
  else if identifier =? BOOT_STAGE_FILESYSTEM_FILE_PROOF then
    Some (filesystem_file_requirements,
          [BOOT_CAPABILITY_FILESYSTEM_FILE_PROOF_COMPLETE],
          [BOOT_CAPABILITY_FILESYSTEM_FIXTURE_ABSENT])
  else if identifier =? BOOT_STAGE_PROCESS_ADDRESS_SPACE_FOUNDATION then
    Some ([BOOT_CAPABILITY_PAGE_TABLES_INSTALLED; BOOT_CAPABILITY_WRITE_XOR_EXECUTE_PROVED;
           BOOT_CAPABILITY_PHYSICAL_FRAME_ALLOCATOR_AVAILABLE;
           BOOT_CAPABILITY_HEAP_AVAILABLE; BOOT_CAPABILITY_IDT_INSTALLED;
           BOOT_CAPABILITY_INTERRUPT_CONTROLLERS_CONFIGURED],
          [BOOT_CAPABILITY_PROCESS_ADDRESS_SPACE_FOUNDATION_AVAILABLE],
          [])
  else if identifier =? BOOT_STAGE_ELF64_LOADER_FOUNDATION then
    Some ([BOOT_CAPABILITY_PROCESS_ADDRESS_SPACE_FOUNDATION_AVAILABLE],
          [BOOT_CAPABILITY_ELF64_LOADER_FOUNDATION_AVAILABLE],
          [])
  else if identifier =? BOOT_STAGE_PROCESS_INSTALLED_PROOF then
    Some (process_proof_requirements,
          [BOOT_CAPABILITY_PROCESS_INSTALLED_PROOF_COMPLETE;
           BOOT_CAPABILITY_PROCESS_OUTCOME_DECIDED],
          [BOOT_CAPABILITY_PROCESS_FIXTURE_ABSENT; BOOT_CAPABILITY_PROCESS_OUTCOME_DECIDED])
  else if identifier =? BOOT_STAGE_CLOSING_PROOFS then
    Some ([BOOT_CAPABILITY_PAGE_TABLES_INSTALLED;
           BOOT_CAPABILITY_INSTALLED_DEVICE_WINDOWS_PROVED; BOOT_CAPABILITY_HEAP_AVAILABLE;
           BOOT_CAPABILITY_PCI_ACCESS_AVAILABLE; BOOT_CAPABILITY_SCHEDULER_AVAILABLE;
           BOOT_CAPABILITY_PROCESS_ADDRESS_SPACE_FOUNDATION_AVAILABLE;
           BOOT_CAPABILITY_ELF64_LOADER_FOUNDATION_AVAILABLE;
           BOOT_CAPABILITY_PROCESS_OUTCOME_DECIDED],
          [BOOT_CAPABILITY_BOOT_PROOFS_COMPLETE],
          [])
  else if identifier =? BOOT_STAGE_DESKTOP_CONSTRUCTION then
    Some ([BOOT_CAPABILITY_SURFACE_AVAILABLE; BOOT_CAPABILITY_UI_FONT_VERIFIED;
           BOOT_CAPABILITY_UI_LAYOUT_VALIDATED; BOOT_CAPABILITY_POINTER_AVAILABILITY_DECIDED],
          [BOOT_CAPABILITY_DESKTOP_SHELL_AVAILABLE],
          [])
  else None.

Definition dependencies_5 (identifier : Z) : option (list Z * list Z * list Z) :=
  if identifier =? BOOT_STAGE_DESKTOP_ACTIVATION then
    Some ([BOOT_CAPABILITY_DESKTOP_SHELL_AVAILABLE;
           BOOT_CAPABILITY_FRAMEBUFFER_OUTPUT_INSTALLED;
           BOOT_CAPABILITY_FRAMEBUFFER_WC_INDEPENDENTLY_PROVED;
           BOOT_CAPABILITY_SURFACE_AVAILABLE; BOOT_CAPABILITY_UI_FONT_VERIFIED;
           BOOT_CAPABILITY_UI_LAYOUT_VALIDATED; BOOT_CAPABILITY_KEYBOARD_AVAILABLE;
           BOOT_CAPABILITY_THREADING_AVAILABLE; BOOT_CAPABILITY_SCHEDULER_AVAILABLE;
           BOOT_CAPABILITY_BOOT_PROOFS_COMPLETE],
          [BOOT_CAPABILITY_DESKTOP_SHELL_ACTIVATED],
          [])
  else if identifier =? BOOT_STAGE_FIRST_LIGHT_PROOF then
    Some ([BOOT_CAPABILITY_DESKTOP_SHELL_ACTIVATED;
           BOOT_CAPABILITY_FRAMEBUFFER_WC_INDEPENDENTLY_PROVED;
           BOOT_CAPABILITY_BOOT_PROOFS_COMPLETE],
          [BOOT_CAPABILITY_FIRST_LIGHT_INSTALLED_PROOF_COMPLETE],
          [])
  else None.

Definition dependencies (identifier : Z) : option (list Z * list Z * list Z) :=
  match dependencies_1 identifier with
  | Some x => Some x
  | None => match dependencies_2 identifier with
  | Some x => Some x
  | None => match dependencies_3 identifier with
  | Some x => Some x
  | None => match dependencies_4 identifier with
  | Some x => Some x
  | None => dependencies_5 identifier end end end end.

Definition declare_dependencies (d : stage) : option stage :=
  '(requires, provided, skipped) ← dependencies d.(id);
  Some (declare d requires provided skipped).

Definition boot_plan_build : boot_ledger_status * boot_ledger executor :=
  match for_each (fun row l =>
      match declare_dependencies row with
      | None => Return (refused (BOOT_LEDGER_STATUS_UNKNOWN_STAGE_IDENTIFIER, row.(id),
                                 BOOT_CAPABILITY_INVALID) l)
      | Some d =>
          let '(st, l) := add_stage d l in
          if is_ok st then Next l else Return (st, l)
      end) installed_descriptors boot_ledger_reset with
  | Next l => (BOOT_LEDGER_STATUS_OK, l)
  | Return x => x
  end.

(** ** The checks the proof stages make of their own descriptor *)

Definition dependencies_complete (d : stage) (wanted : list Z) : bool :=
  (d.(required_capability_count) =? zlength wanted) &&
  forallb (fun c => existsb (fun c' => c' =? c) (requirements d)) wanted.

Definition device_proof_dependencies_complete (d : stage) : bool :=
  dependencies_complete d
    [BOOT_CAPABILITY_PAGE_TABLES_INSTALLED; BOOT_CAPABILITY_PCI_ACCESS_AVAILABLE;
     BOOT_CAPABILITY_HEAP_AVAILABLE; BOOT_CAPABILITY_PHYSICAL_FRAME_ALLOCATOR_AVAILABLE;
     BOOT_CAPABILITY_INTERRUPT_CONTROLLERS_CONFIGURED; BOOT_CAPABILITY_INTERRUPTS_ENABLED;
     BOOT_CAPABILITY_THREADING_AVAILABLE; BOOT_CAPABILITY_SCHEDULER_AVAILABLE;
     BOOT_CAPABILITY_PCI_RESOURCE_OWNERSHIP_AVAILABLE;
     BOOT_CAPABILITY_DYNAMIC_VECTOR_FOUNDATION_AVAILABLE;
     BOOT_CAPABILITY_DMA_FOUNDATION_AVAILABLE].

Definition xhci_proof_dependencies_complete (d : stage) : bool :=
  dependencies_complete d
    [BOOT_CAPABILITY_PAGE_TABLES_INSTALLED; BOOT_CAPABILITY_PCI_ACCESS_AVAILABLE;
     BOOT_CAPABILITY_HEAP_AVAILABLE; BOOT_CAPABILITY_PHYSICAL_FRAME_ALLOCATOR_AVAILABLE;
     BOOT_CAPABILITY_INTERRUPT_CONTROLLERS_CONFIGURED; BOOT_CAPABILITY_INTERRUPTS_ENABLED;
     BOOT_CAPABILITY_TIMER_CALIBRATION_COMPLETE; BOOT_CAPABILITY_THREADING_AVAILABLE;
     BOOT_CAPABILITY_SCHEDULER_AVAILABLE; BOOT_CAPABILITY_PCI_RESOURCE_OWNERSHIP_AVAILABLE;
     BOOT_CAPABILITY_DYNAMIC_VECTOR_FOUNDATION_AVAILABLE;
     BOOT_CAPABILITY_DMA_FOUNDATION_AVAILABLE; BOOT_CAPABILITY_XHCI_FOUNDATION_AVAILABLE].

Definition nvme_proof_dependencies_complete (d : stage) : bool :=
  dependencies_complete d
    [BOOT_CAPABILITY_PAGE_TABLES_INSTALLED; BOOT_CAPABILITY_PCI_ACCESS_AVAILABLE;
     BOOT_CAPABILITY_HEAP_AVAILABLE; BOOT_CAPABILITY_PHYSICAL_FRAME_ALLOCATOR_AVAILABLE;
     BOOT_CAPABILITY_INTERRUPT_CONTROLLERS_CONFIGURED; BOOT_CAPABILITY_INTERRUPTS_ENABLED;
     BOOT_CAPABILITY_TIMER_CALIBRATION_COMPLETE; BOOT_CAPABILITY_THREADING_AVAILABLE;
     BOOT_CAPABILITY_SCHEDULER_AVAILABLE; BOOT_CAPABILITY_PCI_RESOURCE_OWNERSHIP_AVAILABLE;
     BOOT_CAPABILITY_DYNAMIC_VECTOR_FOUNDATION_AVAILABLE;
     BOOT_CAPABILITY_DMA_FOUNDATION_AVAILABLE; BOOT_CAPABILITY_NVME_FOUNDATION_AVAILABLE].

Definition filesystem_proof_dependencies_complete (d : stage) : bool :=
  dependencies_complete d
    [BOOT_CAPABILITY_PAGE_TABLES_INSTALLED; BOOT_CAPABILITY_PCI_ACCESS_AVAILABLE;
     BOOT_CAPABILITY_HEAP_AVAILABLE; BOOT_CAPABILITY_PHYSICAL_FRAME_ALLOCATOR_AVAILABLE;
     BOOT_CAPABILITY_INTERRUPT_CONTROLLERS_CONFIGURED; BOOT_CAPABILITY_INTERRUPTS_ENABLED;
     BOOT_CAPABILITY_TIMER_CALIBRATION_COMPLETE; BOOT_CAPABILITY_THREADING_AVAILABLE;
     BOOT_CAPABILITY_SCHEDULER_AVAILABLE; BOOT_CAPABILITY_PCI_RESOURCE_OWNERSHIP_AVAILABLE;
     BOOT_CAPABILITY_DYNAMIC_VECTOR_FOUNDATION_AVAILABLE;
     BOOT_CAPABILITY_DMA_FOUNDATION_AVAILABLE; BOOT_CAPABILITY_NVME_FOUNDATION_AVAILABLE;
     BOOT_CAPABILITY_FAT16_FOUNDATION_AVAILABLE].

Definition process_proof_dependencies_complete (d : stage) : bool :=
  dependencies_complete d process_proof_requirements.



(** * The installed plan *)

Definition installed_ledger : boot_ledger executor := boot_plan_build.2.
Definition validated_ledger : boot_ledger executor := (validate installed_ledger).2.

Lemma installed_builds : boot_plan_build.1 = BOOT_LEDGER_STATUS_OK.
Proof. vm_compute. reflexivity. Qed.

Lemma installed_accepted : (validate installed_ledger).1 = BOOT_LEDGER_STATUS_OK.
Proof. vm_compute. reflexivity. Qed.

Lemma validate_installed : validate installed_ledger = (BOOT_LEDGER_STATUS_OK, validated_ledger).
Proof. unfold validated_ledger. rewrite <- installed_accepted. apply surjective_pairing. Qed.

(** Rows are well typed whatever is declared for them, up to the capacity. *)
Lemma declare_typed d r p s :
  zlength r <= BOOT_STAGE_CAPABILITY_CAPACITY -> zlength p <= BOOT_STAGE_CAPABILITY_CAPACITY ->
  zlength s <= BOOT_STAGE_CAPABILITY_CAPACITY -> descriptor_typed (declare d r p s).
Proof.
  assert (Hlen : forall v : list Z, zlength v <= BOOT_STAGE_CAPABILITY_CAPACITY ->
            zlength (first_entries v) = BOOT_STAGE_CAPABILITY_CAPACITY).
  { intros v Hv. unfold first_entries, zlength in *. rewrite length_app, length_drop.
    change (length no_capabilities) with 18%nat. unfold BOOT_STAGE_CAPABILITY_CAPACITY in *. lia. }
  intros Hr Hp Hs. split; simpl; [by apply Hlen..|]. unfold zlength. lia.
Qed.

Definition declared_stages : list stage := omap declare_dependencies installed_descriptors.

Lemma installed_stages : stages installed_ledger = declared_stages.
Proof. vm_compute. reflexivity. Qed.

Definition row_fits (d : stage) : bool :=
  match dependencies d.(id) with
  | Some (r, p, s) => (zlength r <=? BOOT_STAGE_CAPABILITY_CAPACITY) &&
      (zlength p <=? BOOT_STAGE_CAPABILITY_CAPACITY) &&
      (zlength s <=? BOOT_STAGE_CAPABILITY_CAPACITY)
  | None => true
  end.

Lemma rows_fit : forallb row_fits installed_descriptors = true.
Proof. vm_compute. reflexivity. Qed.

Lemma installed_typed : ledger_typed installed_ledger.
Proof.
  unfold installed_ledger, boot_plan_build.
  set (body := fun row l => _ : ctl (boot_ledger executor) _).
  assert (Hstep : forall row todo l, forallb row_fits (row :: todo) = true /\ ledger_typed l ->
    match body row l with
    | Next l' => forallb row_fits todo = true /\ ledger_typed l'
    | Return x => ledger_typed x.2
    end).
  { intros row todo l [Hfit Hl]. simpl in Hfit. apply andb_true_iff in Hfit as [Hrow Hrest].
    unfold body, declare_dependencies. unfold row_fits in Hrow.
    destruct (dependencies row.(id)) as [[[r p] s]|]; simpl; [|by destruct Hl; split].
    bool_hyps.
    pose proof (add_stage_typed (declare row r p s) l ltac:(by apply declare_typed) Hl) as Hadd.
    destruct (add_stage _ l) as [st l']. simpl in Hadd. by destruct (is_ok st). }
  pose proof (for_each_inv (fun todo l => forallb row_fits todo = true /\ ledger_typed l)
    (fun x : boot_ledger_status * boot_ledger executor => ledger_typed x.2)
    body installed_descriptors boot_ledger_reset Hstep (conj rows_fit reset_typed)) as Hinv.
  destruct (for_each _ _ _) as [l|x]; [apply Hinv|done].
Qed.

(** ** Required stages depend on nothing an optional stage may withhold *)

Definition dependable_on (ds : list stage) (d : stage) (c : Z) : bool :=
  existsb (fun p => existsb (Z.eqb c) (provides p) &&
                    (p.(required) || existsb (Z.eqb c) (skips p))) ds.

Definition dependable_check (ds : list stage) : bool :=
  forallb (fun d => negb d.(required) || forallb (dependable_on ds d) (requirements d)) ds.

Lemma existsb_in c (l : list Z) : existsb (Z.eqb c) l = true <-> c ∈ l.
Proof.
  rewrite existsb_exists. split.
  - intros (x & Hx & ->%Z.eqb_eq). by apply list_elem_of_In.
  - intros Hc. exists c. split; [by apply list_elem_of_In|apply Z.eqb_refl].
Qed.

Lemma dependable_checked ds : dependable_check ds = true -> dependable ds.
Proof.
  unfold dependable_check. rewrite forallb_forall. intros H d c Hd Hreq Hc.
  specialize (H d ltac:(by apply list_elem_of_In)). rewrite Hreq in H. simpl in H.
  rewrite forallb_forall in H. specialize (H c ltac:(by apply list_elem_of_In)).
  apply existsb_exists in H as (p & Hp%list_elem_of_In & Hb).
  apply andb_true_iff in Hb as [Hprov Hb]. exists p. split; [done|].
  split; [by apply existsb_in|]. apply orb_true_iff in Hb as [?|?]; [by left|right].
  by apply existsb_in.
Qed.

Lemma installed_dependable : dependable (stages installed_ledger).
Proof. rewrite installed_stages. apply dependable_checked. vm_compute. reflexivity. Qed.

(** * Theorems *)

(** The plan Sapote installs builds, is acceptable, and its
    canonical order is the one below; the proof stages find on their own
    descriptors exactly the requirements they insist on. *)
Theorem installed_plan_order :
  boot_plan_build.1 = BOOT_LEDGER_STATUS_OK /\ acceptable (stages installed_ledger) /\
  validate installed_ledger = (BOOT_LEDGER_STATUS_OK, validated_ledger) /\
  id <$> plan validated_ledger =
    [BOOT_STAGE_EARLY_SERIAL; BOOT_STAGE_INTERRUPT_FOUNDATION; BOOT_STAGE_PURE_SELF_TESTS;
     BOOT_STAGE_BOOT_INFORMATION; BOOT_STAGE_FIRMWARE_DISCOVERY; BOOT_STAGE_DEVICE_WINDOWS;
     BOOT_STAGE_INTERRUPT_CONTROLLERS; BOOT_STAGE_FRAME_ALLOCATOR; BOOT_STAGE_PAGING_INSTALL;
     BOOT_STAGE_PAGING_PROOFS; BOOT_STAGE_FRAMEBUFFER_WC; BOOT_STAGE_MEMORY_RUNTIME;
     BOOT_STAGE_FRAMEBUFFER_OUTPUT; BOOT_STAGE_KEYBOARD; BOOT_STAGE_SHELL;
     BOOT_STAGE_EARLY_SCENARIO; BOOT_STAGE_UI_FONT; BOOT_STAGE_POINTER_DECISION;
     BOOT_STAGE_POINTER_OUTCOME; BOOT_STAGE_UI_LAYOUT; BOOT_STAGE_INTERRUPT_PROOFS;
     BOOT_STAGE_TIMER_ROUTING; BOOT_STAGE_TIMER_CALIBRATION; BOOT_STAGE_PCI;
     BOOT_STAGE_THREADING; BOOT_STAGE_SCHEDULER; BOOT_STAGE_PCI_RESOURCE_FOUNDATION;
     BOOT_STAGE_DYNAMIC_VECTOR_FOUNDATION; BOOT_STAGE_DMA_FOUNDATION;
     BOOT_STAGE_DEVICE_SUBSTRATE_PROOF; BOOT_STAGE_XHCI_FOUNDATION;
     BOOT_STAGE_XHCI_DESCRIPTOR_PROOF; BOOT_STAGE_NVME_FOUNDATION; BOOT_STAGE_NVME_READ_PROOF;
     BOOT_STAGE_FAT16_FOUNDATION; BOOT_STAGE_FILESYSTEM_FILE_PROOF;
     BOOT_STAGE_PROCESS_ADDRESS_SPACE_FOUNDATION; BOOT_STAGE_ELF64_LOADER_FOUNDATION;
     BOOT_STAGE_PROCESS_INSTALLED_PROOF; BOOT_STAGE_CLOSING_PROOFS;
     BOOT_STAGE_DESKTOP_CONSTRUCTION; BOOT_STAGE_DESKTOP_ACTIVATION;
     BOOT_STAGE_FIRST_LIGHT_PROOF] /\
  (device_proof_dependencies_complete <$>
     descriptor_for_stage installed_ledger BOOT_STAGE_DEVICE_SUBSTRATE_PROOF) = Some true /\
  (xhci_proof_dependencies_complete <$>
     descriptor_for_stage installed_ledger BOOT_STAGE_XHCI_DESCRIPTOR_PROOF) = Some true /\
  (nvme_proof_dependencies_complete <$>
     descriptor_for_stage installed_ledger BOOT_STAGE_NVME_READ_PROOF) = Some true /\
  (filesystem_proof_dependencies_complete <$>
     descriptor_for_stage installed_ledger BOOT_STAGE_FILESYSTEM_FILE_PROOF) = Some true /\
  (process_proof_dependencies_complete <$>
     descriptor_for_stage installed_ledger BOOT_STAGE_PROCESS_INSTALLED_PROOF) = Some true.
Proof.
  split; [apply installed_builds|]. split.
  { pose proof (plan_validate_spec installed_ledger installed_typed) as H.
    rewrite validate_installed in H. by apply H. }
  split; [apply validate_installed|].
  split_and!; vm_compute; reflexivity.
Qed.

(** C15 (liveness): with stages that do not fail - required ones run, optional
    ones run or are skipped - executing the installed plan ends, and the audit
    accepts the receipts. *)
Theorem installed_boot_completes {C} `{StageExecutionLaws executor C} (context : C) :
  stages_succeed (C := C) (stages installed_ledger) ->
  exists l context', execute_plan validated_ledger context =
    (BOOT_LEDGER_STATUS_OK, l, context') /\
    verify_receipt_set l = (BOOT_LEDGER_STATUS_OK, l).
Proof.
  intros Hsucc.
  destruct (execution_finishes installed_ledger validated_ledger context installed_typed
    validate_installed installed_dependable Hsucc) as (l & context' & Hx).
  exists l, context'. split; [done|].
  destruct (validated_execution installed_ledger validated_ledger l context context'
    installed_typed validate_installed Hx) as (Hrun & Hran & _).
  by apply (verify_complete validated_ledger Hrun (length (plan validated_ledger)) l Hran).
Qed.

(** A machine without the optional devices: what can be skipped neutrally is. *)
#[export] Instance bare_machine : StageExecution executor unit := {
  clear_failure_detail context := context;
  run_stage _ _ context d _ :=
    (context, if d.(skip_preserves_health) then boot_stage_result_skip d
              else boot_stage_result_succeed d)
}.

#[export] Instance bare_machine_laws : StageExecutionLaws executor unit.
Proof.
  intros f l context d r Hd Ha _. pose proof (dt_counts _ Hd). simpl.
  destruct d.(skip_preserves_health).
  - by apply skip_result_typed.
  - split; simpl; [|done|lia]. apply copy_capabilities_length; [|apply Hd].
    pose proof (as_provided_bound _ Ha). lia.
Qed.

Definition bare_machine_row (d : stage) : bool :=
  let r := if d.(skip_preserves_health) then boot_stage_result_skip d
           else boot_stage_result_succeed d in
  is_ok (validate_result d r).1 &&
  ((r.(result) =? BOOT_RECEIPT_RAN) ||
   (negb d.(required) && (r.(result) =? BOOT_RECEIPT_SKIPPED))).

Lemma bare_machine_succeeds ds :
  forallb bare_machine_row ds = true -> stages_succeed (C := unit) ds.
Proof.
  rewrite forallb_forall. intros H d f l context Hd _.
  specialize (H d ltac:(by apply list_elem_of_In)). unfold bare_machine_row in H.
  cbv zeta. cbn [snd run_stage bare_machine]. cbv zeta in H.
  set (r := if d.(skip_preserves_health) then boot_stage_result_skip d
            else boot_stage_result_succeed d) in *.
  apply andb_true_iff in H as [Hv Hr]. split; [by destruct (validate_result d r).1|].
  apply orb_true_iff in Hr as [Hr%Z.eqb_eq|Hr]; [by left|right].
  apply andb_true_iff in Hr as [Hq Hr%Z.eqb_eq]. split; [by apply negb_true_iff|done].
Qed.

Lemma installed_boot_completes_witness :
  exists l context', execute_plan validated_ledger tt = (BOOT_LEDGER_STATUS_OK, l, context') /\
    verify_receipt_set l = (BOOT_LEDGER_STATUS_OK, l).
Proof.
  apply (installed_boot_completes tt). rewrite installed_stages.
  apply bare_machine_succeeds. vm_compute. reflexivity.
Defined.

(** * The synthetic plan of the pointer-absence self-test *)

Inductive synthetic : Set := synthetic_stage_success | synthetic_pointer_absent.

#[export] Instance synthetic_execution : StageExecution synthetic unit := {
  clear_failure_detail context := context;
  run_stage f _ context d _ :=
    (context, match f with
              | synthetic_stage_success => boot_stage_result_succeed d
              | synthetic_pointer_absent => boot_stage_result_skip d
              end)
}.

Definition synthetic_row (identifier : Z) (label : string) (requires provided skipped : list Z)
    (required neutral : bool) (boot_phase : Z) (f : synthetic)
  : boot_stage_descriptor synthetic :=
  MkDescriptor synthetic identifier (Some label) (first_entries requires) (zlength requires)
    (first_entries provided) (zlength provided) (first_entries skipped) (zlength skipped)
    required neutral boot_phase BOOT_IRREVERSIBLE_NONE (Some f).

Definition synthetic_descriptors : list (boot_stage_descriptor synthetic) :=
  [synthetic_row BOOT_STAGE_POINTER_DECISION "synthetic pointer decision"
     [] [BOOT_CAPABILITY_POINTER_AVAILABILITY_DECIDED] []
     true false BOOT_PHASE_RUNTIME synthetic_stage_success;
   synthetic_row BOOT_STAGE_POINTER_OUTCOME "synthetic pointer absence"
     [BOOT_CAPABILITY_POINTER_AVAILABILITY_DECIDED]
     [BOOT_CAPABILITY_POINTER_INPUT_AVAILABLE] [BOOT_CAPABILITY_POINTER_INPUT_ABSENT]
     false true BOOT_PHASE_RUNTIME synthetic_pointer_absent;
   synthetic_row BOOT_STAGE_UI_LAYOUT "synthetic keyboard-only layout"
     [BOOT_CAPABILITY_POINTER_AVAILABILITY_DECIDED; BOOT_CAPABILITY_POINTER_INPUT_ABSENT]
     [BOOT_CAPABILITY_UI_LAYOUT_VALIDATED] []
     true false BOOT_PHASE_RUNTIME synthetic_stage_success;
   synthetic_row BOOT_STAGE_DESKTOP_CONSTRUCTION "synthetic keyboard-only desktop"
     [BOOT_CAPABILITY_POINTER_INPUT_ABSENT; BOOT_CAPABILITY_UI_LAYOUT_VALIDATED]
     [BOOT_CAPABILITY_DESKTOP_SHELL_AVAILABLE] []
     true false BOOT_PHASE_PROOFS synthetic_stage_success].

Definition boot_plan_pointer_absence_self_test : bool :=
  match for_each (fun d (l : boot_ledger synthetic) =>
      let '(st, l) := add_stage d l in if is_ok st then Next l else Return tt)
    synthetic_descriptors boot_ledger_reset with
  | Return _ => false
  | Next l =>
      let '(st, l) := validate l in
      let '(st, l, _) := if is_ok st then execute_plan l tt else (st, l, tt) in
      let outcome := boot_ledger_receipt_for l BOOT_STAGE_POINTER_OUTCOME in
      let desktop := boot_ledger_receipt_for l BOOT_STAGE_DESKTOP_CONSTRUCTION in
      is_ok st && l.(executed) && negb l.(degraded) && (l.(optional_skip_count) =? 1) &&
      match outcome with Some r => r.(receipt_result) =? BOOT_RECEIPT_SKIPPED | None => false end &&
      match desktop with Some r => r.(receipt_result) =? BOOT_RECEIPT_RAN | None => false end &&
      boot_ledger_has_capability l BOOT_CAPABILITY_POINTER_AVAILABILITY_DECIDED &&
      boot_ledger_has_capability l BOOT_CAPABILITY_POINTER_INPUT_ABSENT &&
      negb (boot_ledger_has_capability l BOOT_CAPABILITY_POINTER_INPUT_AVAILABLE) &&
      boot_ledger_has_capability l BOOT_CAPABILITY_DESKTOP_SHELL_AVAILABLE &&
      boot_ledger_fingerprint_valid l
  end.

(** The self-test passes. *)
Lemma pointer_absence_self_test_passes : boot_plan_pointer_absence_self_test = true.
Proof. vm_compute. reflexivity. Qed.
End BootPlan.
