(* ===== verification/Dma.v ===== *)
(** DMA buffers: src/src/kernel/dma.c.

    A buffer is a run of contiguous frames that belongs to the processor or to
    a device.  The caller keeps the buffer's handle in memory of its own and
    passes its address, and the code compares that address with the one it
    recorded: the handles are therefore a store [handles] from addresses to
    [dma_allocation] values, which callers can also write behind the code's
    back.  A pointer is [Some p] or, for NULL, [None].  The frame allocator is
    the one of [PhysicalMemory]; paging_translate is an argument of
    [dma_allocate]. *)
From stdpp Require Import gmap.
From S2P Require Import Prelude Multiboot2 PhysicalMemory PageTable.

Module Dma.
Import PageTable PhysicalMemory.

(** enum dma_owner: a handle can hold any integer. *)
Definition DMA_OWNER_NONE : Z := 0.
Definition DMA_OWNER_CPU : Z := 1.
Definition DMA_OWNER_DEVICE : Z := 2.
Definition DMA_OWNER_COUNT : Z := 3.

Inductive dma_status : Type :=
| DMA_STATUS_OK
| DMA_STATUS_NULL_ARGUMENT
| DMA_STATUS_ALREADY_INITIALIZED
| DMA_STATUS_NOT_INITIALIZED
| DMA_STATUS_FRAME_ALLOCATION_FAILURE
| DMA_STATUS_NOT_IDENTITY_MAPPED
| DMA_STATUS_NOT_PREPARED
| DMA_STATUS_WRONG_OWNER
| DMA_STATUS_DOUBLE_FREE
| DMA_STATUS_BAD_ALLOCATION
| DMA_STATUS_COUNT.

#[export] Instance dma_status_eq_dec : EqDecision dma_status.
Proof. solve_decision. Defined.

Record dma_request : Type := MkDmaRequest {
  dr_page_count : Z;
  dr_alignment : Z;
  dr_maximum_physical_address : Z
}.

Record dma_allocation : Type := MkHandle {
  h_frames : frame_contiguous_allocation;
  h_cpu_address : Z;
  h_byte_length : Z;
  h_owner : Z;
  h_initialized : bool;
  h_active : bool
}.

Record dma_state : Type := MkState {
  active_allocations : Z;
  cpu_owned_allocations : Z;
  device_owned_allocations : Z;
  st_active : bool
}.

Record dma_record : Type := MkDmaRecord {
  r_handle : option Z;
  r_frames : frame_contiguous_allocation;
  r_owner : Z;
  r_initialized : bool;
  r_active : bool
}.

(** The file-scope objects, the callers' handles and the frame allocator. *)
Record dma : Type := MkDma {
  state : dma_state;
  records : list dma_record;
  handles : gmap Z dma_allocation;
  frames : allocator
}.

Definition no_record : dma_record := MkDmaRecord None empty_allocation DMA_OWNER_NONE false false.
Definition cleared_handle : dma_allocation :=
  MkHandle empty_allocation 0 0 DMA_OWNER_NONE false false.

(** What the handle at [p] holds; memory nobody wrote reads as cleared. *)
Definition handle_at (w : dma) (p : Z) : dma_allocation :=
  default cleared_handle (w.(handles) !! p).

Definition record_of (w : dma) (i : Z) : dma_record := aget no_record w.(records) i.

Definition set_handle (w : dma) (p : Z) (h : dma_allocation) : dma :=
  MkDma w.(state) w.(records) (<[p := h]> w.(handles)) w.(frames).
Definition set_record (w : dma) (i : Z) (r : dma_record) : dma :=
  MkDma w.(state) (aset w.(records) i r) w.(handles) w.(frames).
Definition set_state (w : dma) (st : dma_state) : dma :=
  MkDma st w.(records) w.(handles) w.(frames).
Definition set_frames (w : dma) (s : allocator) : dma :=
  MkDma w.(state) w.(records) w.(handles) s.

(** The counters [size_t] of the state, moved by [a], [c] and [d]. *)
Definition move_counts (st : dma_state) (a c d : Z) : dma_state :=
  MkState (u64 (st.(active_allocations) + a)) (u64 (st.(cpu_owned_allocations) + c))
    (u64 (st.(device_owned_allocations) + d)) st.(st_active).

Definition record_for (allocation : option Z) (w : dma) : option Z :=
  match allocation with
  | None => None
  | Some p =>
      find_index (fun r => r.(r_active) &&
        (r.(r_frames).(al_identifier) =? (handle_at w p).(h_frames).(al_identifier)))
        w.(records)
  end.

Definition validate_allocation (allocation : option Z) (w : dma) : dma_status :=
  match allocation with
  | None => DMA_STATUS_NULL_ARGUMENT
  | Some p =>
    let h := handle_at w p in
    if negb h.(h_active) || negb h.(h_frames).(al_active) ||
       (h.(h_cpu_address) =? 0) || (h.(h_byte_length) =? 0) ||
       (h.(h_owner) <=? DMA_OWNER_NONE) || (h.(h_owner) >=? DMA_OWNER_COUNT) then
      DMA_STATUS_BAD_ALLOCATION
    else
    match record_for allocation w with
    | None => DMA_STATUS_BAD_ALLOCATION
    | Some i =>
      let r := record_of w i in
      if negb (bool_decide (r.(r_handle) = Some p)) ||
         negb (r.(r_frames).(al_physical_base) =? h.(h_frames).(al_physical_base)) ||
         negb (r.(r_frames).(al_page_count) =? h.(h_frames).(al_page_count)) ||
         negb (r.(r_frames).(al_alignment) =? h.(h_frames).(al_alignment)) ||
         negb (r.(r_frames).(al_maximum_physical_address) =?
               h.(h_frames).(al_maximum_physical_address)) ||
         negb r.(r_frames).(al_active) ||
         negb (h.(h_cpu_address) =? r.(r_frames).(al_physical_base)) ||
         (r.(r_frames).(al_page_count) >? UINT64_MAX / SAPOTE_PAGE_SIZE) ||
         negb (h.(h_byte_length) =? u64 (r.(r_frames).(al_page_count) * SAPOTE_PAGE_SIZE)) ||
         negb (r.(r_owner) =? h.(h_owner)) ||
         negb (Bool.eqb r.(r_initialized) h.(h_initialized)) then
        DMA_STATUS_BAD_ALLOCATION
      else DMA_STATUS_OK
    end
  end.

Definition is_ok (st : dma_status) : bool := bool_decide (st = DMA_STATUS_OK).

Definition dma_initialize (w : dma) : dma_status * dma :=
  if w.(state).(st_active) then (DMA_STATUS_ALREADY_INITIALIZED, w)
  else
    (DMA_STATUS_OK,
     MkDma (MkState 0 0 0 true)
       ((fun r => MkDmaRecord None r.(r_frames) r.(r_owner) r.(r_initialized) false)
          <$> w.(records))
       w.(handles) w.(frames)).

Section allocation.
Context {L : PhysicalLayout}.

(** The test of the two translations dma_allocate asks for. *)
Definition identity_mapped
    (paging_translate : Z -> paging_status * paging_translation) (base byte_length : Z)
  : bool :=
  let '(status_first, first) := paging_translate base in
  let '(status_last, last) := paging_translate (u64 (base + byte_length - 1)) in
  negb (negb (bool_decide (status_first = PAGING_STATUS_OK)) ||
        negb (bool_decide (status_last = PAGING_STATUS_OK)) ||
        negb (first.(physical_address) =? base) ||
        negb (last.(physical_address) =? u64 (base + byte_length - 1)) ||
        negb (bool_decide (first.(memory_type) = PAGING_MEMORY_WRITE_BACK)) ||
        negb (bool_decide (last.(memory_type) = PAGING_MEMORY_WRITE_BACK)) ||
        (Z.land first.(permissions) PAGING_WRITE =? 0) ||
        (Z.land last.(permissions) PAGING_WRITE =? 0)).

Definition dma_allocate (paging_translate : Z -> paging_status * paging_translation)
    (request : option dma_request) (allocation : option Z) (w : dma)
  : dma_status * dma :=
  match request, allocation with
  | None, _ | _, None => (DMA_STATUS_NULL_ARGUMENT, w)
  | Some rq, Some p =>
    let w := set_handle w p cleared_handle in
    if negb w.(state).(st_active) then (DMA_STATUS_NOT_INITIALIZED, w)
    else
    match find_index (fun r => negb r.(r_active)) w.(records) with
    | None => (DMA_STATUS_FRAME_ALLOCATION_FAILURE, w)
    | Some i =>
      let frame_request := MkRequest rq.(dr_page_count) rq.(dr_alignment)
                             rq.(dr_maximum_physical_address) in
      let '(frame_status, fr, s) :=
        frame_allocate_contiguous (Some frame_request)
          (Some (handle_at w p).(h_frames)) w.(frames) in
      let fr := default empty_allocation fr in
      let w := set_frames
        (set_handle w p (MkHandle fr 0 0 DMA_OWNER_NONE false false)) s in
      if negb (bool_decide (frame_status = FRAME_STATUS_OK)) then
        (DMA_STATUS_FRAME_ALLOCATION_FAILURE, w)
      else
      let byte_length := u64 (fr.(al_page_count) * SAPOTE_PAGE_SIZE) in
      if negb (identity_mapped paging_translate fr.(al_physical_base) byte_length) then
        let '(_, fr', s) := frame_release_contiguous (Some fr) w.(frames) in
        let fr' := default empty_allocation fr' in
        (DMA_STATUS_NOT_IDENTITY_MAPPED,
         set_frames (set_handle w p (MkHandle fr' 0 0 DMA_OWNER_NONE false false)) s)
      else
      let w := set_handle w p
        (MkHandle fr fr.(al_physical_base) byte_length DMA_OWNER_CPU false true) in
      let w := set_record w i (MkDmaRecord (Some p) fr DMA_OWNER_CPU false true) in
      (DMA_STATUS_OK, set_state w (move_counts w.(state) 1 1 0))
    end
  end.

Definition dma_mark_initialized (allocation : option Z) (w : dma) : dma_status * dma :=
  let status := validate_allocation allocation w in
  if negb (is_ok status) then (status, w)
  else
  match allocation with
  | None => (status, w)
  | Some p =>
    let h := handle_at w p in
    if negb (h.(h_owner) =? DMA_OWNER_CPU) then (DMA_STATUS_WRONG_OWNER, w)
    else
    match record_for allocation w with
    | None => (DMA_STATUS_BAD_ALLOCATION, w)
    | Some i =>
      let r := record_of w i in
      let w := set_handle w p (MkHandle h.(h_frames) h.(h_cpu_address) h.(h_byte_length)
                 h.(h_owner) true h.(h_active)) in
      (DMA_STATUS_OK,
       set_record w i (MkDmaRecord r.(r_handle) r.(r_frames) r.(r_owner) true r.(r_active)))
    end
  end.

(** Both transfers give the handle and its record the new owner. *)
Definition set_owner (w : dma) (p i owner : Z) : dma :=
  let h := handle_at w p in
  let r := record_of w i in
  set_record
    (set_handle w p (MkHandle h.(h_frames) h.(h_cpu_address) h.(h_byte_length) owner
       h.(h_initialized) h.(h_active)))
    i (MkDmaRecord r.(r_handle) r.(r_frames) owner r.(r_initialized) r.(r_active)).

Definition dma_transfer_to_device (allocation : option Z) (w : dma) : dma_status * dma :=
  let status := validate_allocation allocation w in
  if negb (is_ok status) then (status, w)
  else
  match allocation with
  | None => (status, w)
  | Some p =>
    let h := handle_at w p in
    if negb (h.(h_owner) =? DMA_OWNER_CPU) then (DMA_STATUS_WRONG_OWNER, w)
    else if negb h.(h_initialized) then (DMA_STATUS_NOT_PREPARED, w)
    else
    match record_for allocation w with
    | None => (DMA_STATUS_BAD_ALLOCATION, w)
    | Some i =>
      let w := set_owner w p i DMA_OWNER_DEVICE in
      (DMA_STATUS_OK, set_state w (move_counts w.(state) 0 (-1) 1))
    end
  end.

Definition dma_transfer_to_cpu (allocation : option Z) (w : dma) : dma_status * dma :=
  let status := validate_allocation allocation w in
  if negb (is_ok status) then (status, w)
  else
  match allocation with
  | None => (status, w)
  | Some p =>
    let h := handle_at w p in
    if negb (h.(h_owner) =? DMA_OWNER_DEVICE) then (DMA_STATUS_WRONG_OWNER, w)
    else
    match record_for allocation w with
    | None => (DMA_STATUS_BAD_ALLOCATION, w)
    | Some i =>
      let w := set_owner w p i DMA_OWNER_CPU in
      (DMA_STATUS_OK, set_state w (move_counts w.(state) 0 1 (-1)))
    end
  end.

Definition dma_release (allocation : option Z) (w : dma) : dma_status * dma :=
  match allocation with
  | None => (DMA_STATUS_NULL_ARGUMENT, w)
  | Some p =>
    let h := handle_at w p in
    if negb w.(state).(st_active) then (DMA_STATUS_NOT_INITIALIZED, w)
    else if negb h.(h_active) then (DMA_STATUS_DOUBLE_FREE, w)
    else
    let status := validate_allocation allocation w in
    if negb (is_ok status) then (status, w)
    else if negb (h.(h_owner) =? DMA_OWNER_CPU) then (DMA_STATUS_WRONG_OWNER, w)
    else
    match record_for allocation w with
    | None => (DMA_STATUS_BAD_ALLOCATION, w)
    | Some i =>
      let '(frame_status, fr, s) := frame_release_contiguous (Some h.(h_frames)) w.(frames) in
      let fr := default empty_allocation fr in
      let w := set_frames (set_handle w p (MkHandle fr h.(h_cpu_address) h.(h_byte_length)
                 h.(h_owner) h.(h_initialized) h.(h_active))) s in
      if negb (bool_decide (frame_status = FRAME_STATUS_OK)) then
        (DMA_STATUS_BAD_ALLOCATION, w)
      else
      let r := record_of w i in
      let f := r.(r_frames) in
      let w := set_handle w p (MkHandle fr 0 0 DMA_OWNER_NONE false false) in
      let w := set_record w i
        (MkDmaRecord None
           (MkAllocation f.(al_physical_base) f.(al_page_count) f.(al_alignment)
              f.(al_maximum_physical_address) f.(al_identifier) false)
           DMA_OWNER_NONE false false) in
      (DMA_STATUS_OK, set_state w (move_counts w.(state) (-1) (-1) 0))
    end
  end.

Definition dma_is_device_owned (allocation : option Z) (w : dma) : bool :=
  if negb (is_ok (validate_allocation allocation w)) then false
  else
  match record_for allocation w with
  | None => false
  | Some i => (record_of w i).(r_initialized) && ((record_of w i).(r_owner) =? DMA_OWNER_DEVICE)
  end.

Definition dma_get_state (w : dma) : dma_state := w.(state).

(** One turn of the loop of dma_verify over its three counts. *)
Definition verify_record (w : dma) (index : Z) (counts : Z * Z * Z)
  : ctl (Z * Z * Z) dma_status :=
  let '(active, cpu_owned, device_owned) := counts in
  let record := record_of w index in
  if negb record.(r_active) then Next counts
  else if bool_decide (record.(r_handle) = None) ||
          negb (is_ok (validate_allocation record.(r_handle) w)) then
    Return DMA_STATUS_BAD_ALLOCATION
  else if record.(r_owner) =? DMA_OWNER_CPU then
    Next (active + 1, cpu_owned + 1, device_owned)
  else if record.(r_owner) =? DMA_OWNER_DEVICE then
    Next (active + 1, cpu_owned, device_owned + 1)
  else Return DMA_STATUS_BAD_ALLOCATION.

Definition dma_verify (w : dma) : dma_status :=
  if negb w.(state).(st_active) then DMA_STATUS_NOT_INITIALIZED
  else
  match for_each (verify_record w) (seqZ 0 FRAME_CONTIGUOUS_ALLOCATION_CAPACITY) (0, 0, 0) with
  | Return status => status
  | Next (active, cpu_owned, device_owned) =>
      if negb (active =? w.(state).(active_allocations)) ||
         negb (cpu_owned =? w.(state).(cpu_owned_allocations)) ||
         negb (device_owned =? w.(state).(device_owned_allocations)) ||
         negb (cpu_owned + device_owned =? active) then
        DMA_STATUS_BAD_ALLOCATION
      else DMA_STATUS_OK
  end.

(** The self test puts its handles at the two addresses [allocation] and
    [forged] of its stack frame. *)
Definition dma_self_test (paging_translate : Z -> paging_status * paging_translation)
    (allocation forged : Z) (w : dma) : bool * dma :=
  if negb w.(state).(st_active) then (false, w)
  else
  let before := w.(state) in
  let request := MkDmaRequest 2 (SAPOTE_PAGE_SIZE * 2) UINT32_MAX in
  let a := Some allocation in
  let '(s1, w) := dma_allocate paging_translate None a w in
  if negb (bool_decide (s1 = DMA_STATUS_NULL_ARGUMENT)) then (false, w) else
  let '(s2, w) := dma_allocate paging_translate (Some request) None w in
  if negb (bool_decide (s2 = DMA_STATUS_NULL_ARGUMENT)) then (false, w) else
  let '(s3, w) := dma_allocate paging_translate
    (Some (MkDmaRequest 0 (SAPOTE_PAGE_SIZE * 2) UINT32_MAX)) a w in
  if negb (bool_decide (s3 = DMA_STATUS_FRAME_ALLOCATION_FAILURE)) then (false, w) else
  let '(s4, w) := dma_allocate paging_translate
    (Some (MkDmaRequest 1 (SAPOTE_PAGE_SIZE + 1) UINT32_MAX)) a w in
  if negb (bool_decide (s4 = DMA_STATUS_FRAME_ALLOCATION_FAILURE)) then (false, w) else
  let '(s5, w) := dma_allocate paging_translate
    (Some (MkDmaRequest 1 (early_limit * 2) UINT32_MAX)) a w in
  if negb (bool_decide (s5 = DMA_STATUS_FRAME_ALLOCATION_FAILURE)) then (false, w) else
  let '(s6, w) := dma_allocate paging_translate (Some request) a w in
  let h := handle_at w allocation in
  if negb (is_ok s6) ||
     negb (Z.land h.(h_frames).(al_physical_base) (u64 (request.(dr_alignment) - 1)) =? 0) ||
     (u64 (h.(h_frames).(al_physical_base) + h.(h_byte_length) - 1) >?
      request.(dr_maximum_physical_address)) then (false, w) else
  let '(s7, w) := dma_transfer_to_device a w in
  if negb (bool_decide (s7 = DMA_STATUS_NOT_PREPARED)) then (false, w) else
  let '(s8, w) := dma_mark_initialized a w in
  if negb (is_ok s8) then (false, w) else
  let '(s9, w) := dma_transfer_to_device a w in
  if negb (is_ok s9) then (false, w) else
  let w := set_handle w forged (handle_at w allocation) in
  if negb (dma_is_device_owned a w) || dma_is_device_owned (Some forged) w then (false, w) else
  let '(s10, w) := dma_transfer_to_device a w in
  if negb (bool_decide (s10 = DMA_STATUS_WRONG_OWNER)) then (false, w) else
  let '(s11, w) := dma_mark_initialized a w in
  if negb (bool_decide (s11 = DMA_STATUS_WRONG_OWNER)) then (false, w) else
  let '(s12, w) := dma_release a w in
  if negb (bool_decide (s12 = DMA_STATUS_WRONG_OWNER)) then (false, w) else
  let '(s13, w) := dma_transfer_to_cpu a w in
  if negb (is_ok s13) then (false, w) else
  let '(s14, w) := dma_transfer_to_cpu a w in
  if negb (bool_decide (s14 = DMA_STATUS_WRONG_OWNER)) then (false, w) else
  let '(s15, w) := dma_release a w in
  if negb (is_ok s15) then (false, w) else
  let '(s16, w) := dma_release a w in
  if negb (bool_decide (s16 = DMA_STATUS_DOUBLE_FREE)) then (false, w) else
  ((w.(state).(active_allocations) =? before.(active_allocations)) &&
   (w.(state).(cpu_owned_allocations) =? before.(cpu_owned_allocations)) &&
   (w.(state).(device_owned_allocations) =? before.(device_owned_allocations)) &&
   is_ok (dma_verify w), w).
End allocation.

(** * The invariant *)

Section invariant.
Context {L : PhysicalLayout}.

(** A recorded buffer: owned, prepared before it went to a device, and its run
    recorded by the frame allocator under the same identifier. *)
Record buffer_ok (s : allocator) (r : dma_record) : Prop := {
  bo_handle : is_Some r.(r_handle);
  bo_owner : r.(r_owner) = DMA_OWNER_CPU \/ r.(r_owner) = DMA_OWNER_DEVICE;
  bo_prepared : r.(r_owner) = DMA_OWNER_DEVICE -> r.(r_initialized) = true;
  bo_active : r.(r_frames).(al_active) = true;
  bo_run : exists slot, 0 <= slot < FRAME_CONTIGUOUS_ALLOCATION_CAPACITY /\
    record_at s slot = MkRecord r.(r_frames).(al_physical_base)
      r.(r_frames).(al_page_count) r.(r_frames).(al_identifier) true
}.

Definition owned_by (owner : Z) (r : dma_record) : bool :=
  r.(r_active) && (r.(r_owner) =? owner).

(** The frame allocator's identifiers have not gone round. *)
Record ids_below (s : allocator) : Prop := {
  ib_next : 1 <= s.(next_contiguous_identifier) <= UINT64_MAX;
  ib_records : forall i, 0 <= i < FRAME_CONTIGUOUS_ALLOCATION_CAPACITY ->
    (record_at s i).(active) = true ->
    (record_at s i).(identifier) < s.(next_contiguous_identifier);
  ib_unique : ids_unique s
}.

Record inv (w : dma) : Prop := {
  inv_frames : PhysicalMemory.inv w.(frames);
  inv_ready : w.(frames).(allocator_initialized) = true;
  inv_ids : ids_below w.(frames);
  inv_length : zlength w.(records) = FRAME_CONTIGUOUS_ALLOCATION_CAPACITY;
  inv_buffers : forall i, 0 <= i < FRAME_CONTIGUOUS_ALLOCATION_CAPACITY ->
    (record_of w i).(r_active) = true -> buffer_ok w.(frames) (record_of w i);
  inv_unique : forall i j, 0 <= i < FRAME_CONTIGUOUS_ALLOCATION_CAPACITY ->
    0 <= j < FRAME_CONTIGUOUS_ALLOCATION_CAPACITY ->
    (record_of w i).(r_active) = true -> (record_of w j).(r_active) = true ->
    (record_of w i).(r_frames).(al_identifier) = (record_of w j).(r_frames).(al_identifier) ->
    i = j;
  inv_count : w.(state).(active_allocations) = countb r_active w.(records);
  inv_cpu : w.(state).(cpu_owned_allocations) = countb (owned_by DMA_OWNER_CPU) w.(records);
  inv_device : w.(state).(device_owned_allocations) =
    countb (owned_by DMA_OWNER_DEVICE) w.(records);
  inv_null : eligible w.(frames) 0 = false;
  inv_idle : w.(state).(st_active) = false -> countb r_active w.(records) = 0
}.

(** The handle that agrees with a record. *)
Definition handle_of (r : dma_record) : dma_allocation :=
  MkHandle r.(r_frames) r.(r_frames).(al_physical_base)
    (u64 (r.(r_frames).(al_page_count) * SAPOTE_PAGE_SIZE)) r.(r_owner) r.(r_initialized) true.

(** Record [i] is a live buffer whose handle is kept at [p]. *)
Definition live (w : dma) (p i : Z) : Prop :=
  0 <= i < FRAME_CONTIGUOUS_ALLOCATION_CAPACITY /\
  (record_of w i).(r_active) = true /\ (record_of w i).(r_handle) = Some p.

Lemma live_run w p i :
  inv w -> live w p i ->
  let f := (record_of w i).(r_frames) in
  exists first, f.(al_physical_base) = first * SAPOTE_PAGE_SIZE /\ 1 <= first /\
    1 <= f.(al_page_count) /\ first + f.(al_page_count) <= FRAME_COUNT /\
    forall g, first <= g < first + f.(al_page_count) -> allocated w.(frames) g = true.
Proof.
  intros Hi (Hr & Ha & _). cbv zeta.
  destruct (inv_buffers _ Hi i Hr Ha) as [_ _ _ _ (slot & Hs & E)].
  pose proof (PhysicalMemory.inv_record _ (inv_frames _ Hi) slot Hs) as Hok.
  rewrite E in Hok. destruct (Hok eq_refl) as [Hb Hf Hc He Hal].
  unfold record_first, in_record in *. cbn in *.
  exists (al_physical_base (r_frames (record_of w i)) / SAPOTE_PAGE_SIZE).
  split_and!; try done.
  destruct (decide (al_physical_base (r_frames (record_of w i)) / SAPOTE_PAGE_SIZE = 0)) as [E0|];
    [|lia].
  specialize (Hal 0). unfold record_first in Hal. cbn in Hal. rewrite E0 in Hal.
  pose proof (inv_null _ Hi) as Hn.
  unfold allocated in Hal. rewrite Hn in Hal. cbn in Hal. discriminate Hal. lia.
Qed.

Lemma record_for_live w p i :
  inv w -> live w p i ->
  (handle_at w p).(h_frames).(al_identifier) = (record_of w i).(r_frames).(al_identifier) ->
  record_for (Some p) w = Some i.
Proof.
  intros Hi (Hr & Ha & _) E. unfold record_for.
  destruct (find_index _ _) as [j|] eqn:F.
  - apply (find_index_Some no_record) in F as (Hj & Hm & _). bool_hyps.
    rewrite (inv_length _ Hi) in Hj. f_equal. apply (inv_unique _ Hi); try done.
    unfold record_of at 1. congruence.
  - exfalso. apply (find_index_None_aget no_record _ _ i) in F;
      [|by rewrite (inv_length _ Hi)].
    cbv beta in F. fold (record_of w i) in F. rewrite Ha, E, Z.eqb_refl in F. done.
Qed.

(** What the code's check of a handle means: it is the recorded one, unchanged. *)
Lemma validate_ok w p :
  inv w ->
  validate_allocation (Some p) w = DMA_STATUS_OK <->
  exists i, live w p i /\ handle_at w p = handle_of (record_of w i).
Proof.
  intros Hi. split.
  - unfold validate_allocation. split_if; [done|].
    destruct (record_for (Some p) w) as [i|] eqn:F; [|done]. split_if; [done|]. intros _.
    unfold record_for in F. apply (find_index_Some no_record) in F as (Hr & Hm & _).
    fold (record_of w i) in Hm. rewrite (inv_length _ Hi) in Hr. bool_hyps.
    repeat match goal with H : bool_decide _ = true |- _ => apply bool_decide_eq_true in H
      | H : Bool.eqb _ _ = true |- _ => apply eqb_prop in H end.
    exists i. split; [done|]. unfold handle_of.
    destruct (handle_at w p) as [[] ? ? ? ? ?], (record_of w i) as [? [] ? ? ?].
    cbn in *. congruence.
  - intros (i & Hl & E). pose proof (live_run w p i Hi Hl) as (first & Hb & Hf & Hc & He & _).
    pose proof frame_count_range.
    assert (u64 (al_page_count (r_frames (record_of w i)) * SAPOTE_PAGE_SIZE) =
      al_page_count (r_frames (record_of w i)) * SAPOTE_PAGE_SIZE) as Eb.
    { apply u64_small. unfold is_u64, UINT64_MAX, SAPOTE_PAGE_SIZE. lia. }
    assert (record_for (Some p) w = Some i) as Hrf
      by (apply record_for_live; [done..|by rewrite E]).
    unfold validate_allocation. rewrite Hrf, E. cbn. rewrite Eb.
    destruct Hl as (Hr & Ha & Hh). destruct (inv_buffers _ Hi i Hr Ha) as [_ Ho _ Hact _].
    rewrite Hh, Hact, bool_decide_true, !Z.eqb_refl, eqb_reflx by done. cbn.
    unfold SAPOTE_PAGE_SIZE, UINT64_MAX, DMA_OWNER_NONE, DMA_OWNER_COUNT,
      DMA_OWNER_CPU, DMA_OWNER_DEVICE in *.
    change (18446744073709551615 / 4096) with 4503599627370495.
    do 2 (split_if; [exfalso; lia|]). done.
Qed.

(** A handle whose buffer is not live is refused, whatever it holds. *)
Lemma validate_dead w p :
  inv w -> (forall i, ~ live w p i) -> validate_allocation (Some p) w = DMA_STATUS_BAD_ALLOCATION.
Proof.
  intros Hi Hd. pose proof (proj1 (validate_ok w p Hi)) as H. revert H.
  unfold validate_allocation. split_if; [done|].
  destruct (record_for _ _); [|done]. split_if; [done|]. intros H.
  destruct (H eq_refl) as (i & Hl & _). by destruct (Hd i).
Qed.

Lemma validate_cases w p :
  inv w ->
  (exists i, live w p i /\ handle_at w p = handle_of (record_of w i) /\
     validate_allocation (Some p) w = DMA_STATUS_OK /\ record_for (Some p) w = Some i) \/
  validate_allocation (Some p) w = DMA_STATUS_BAD_ALLOCATION.
Proof.
  intros Hi. destruct (decide (validate_allocation (Some p) w = DMA_STATUS_OK)) as [E|E].
  - left. pose proof (proj1 (validate_ok w p Hi) E) as (i & Hl & Eh). exists i.
    split_and!; try done. apply record_for_live; [done..|by rewrite Eh].
  - right. revert E. unfold validate_allocation. split_if; [done|].
    destruct (record_for _ _); [|done]. by split_if.
Qed.

Lemma record_of_aset w i r j h s st :
  inv w -> 0 <= i < FRAME_CONTIGUOUS_ALLOCATION_CAPACITY -> 0 <= j ->
  record_of (MkDma st (aset w.(records) i r) h s) j = if i =? j then r else record_of w j.
Proof. intros Hi Hr Hj. apply aget_aset; [by rewrite (inv_length _ Hi)|done]. Qed.

Lemma countb_u64 (p : dma_record -> bool) w :
  inv w -> forall i r, 0 <= i < FRAME_CONTIGUOUS_ALLOCATION_CAPACITY ->
  u64 (countb p w.(records) + ((if p r then 1 else 0) - (if p (record_of w i) then 1 else 0))) =
  countb p (aset w.(records) i r).
Proof.
  intros Hi i r Hr. rewrite (countb_aset no_record) by (by rewrite (inv_length _ Hi)).
  fold (record_of w i). rewrite u64_small; [lia|].
  pose proof (countb_nonneg p (aset w.(records) i r)).
  pose proof (countb_le_length p w.(records)) as Hle. rewrite (inv_length _ Hi) in Hle.
  pose proof (countb_nonneg p w.(records)).
  rewrite (countb_aset no_record) in * by (by rewrite (inv_length _ Hi)).
  fold (record_of w i) in *. unfold FRAME_CONTIGUOUS_ALLOCATION_CAPACITY in *.
  unfold is_u64, UINT64_MAX. destruct (p r), (p (record_of w i)); lia.
Qed.

(** The counters after record [i] became [r]. *)
Definition recounted (w : dma) (i : Z) (r : dma_record) : dma_state :=
  let change (p : dma_record -> bool) :=
    (if p r then 1 else 0) - (if p (record_of w i) then 1 else 0) in
  move_counts w.(state) (change r_active) (change (owned_by DMA_OWNER_CPU))
    (change (owned_by DMA_OWNER_DEVICE)).

Lemma inv_write w p h : inv w -> inv (set_handle w p h).
Proof. by intros []. Qed.

(** A live record changes owner or preparation; its run stays. *)
Lemma inv_update w i r h :
  inv w -> 0 <= i < FRAME_CONTIGUOUS_ALLOCATION_CAPACITY ->
  (record_of w i).(r_active) = true -> r.(r_active) = true ->
  r.(r_handle) = (record_of w i).(r_handle) -> r.(r_frames) = (record_of w i).(r_frames) ->
  r.(r_owner) = DMA_OWNER_CPU \/ r.(r_owner) = DMA_OWNER_DEVICE ->
  (r.(r_owner) = DMA_OWNER_DEVICE -> r.(r_initialized) = true) ->
  inv (MkDma (recounted w i r) (aset w.(records) i r) h w.(frames)).
Proof.
  intros Hi Hr Ha Ha' Hh Hf Ho Hp. pose proof (inv_buffers _ Hi i Hr Ha) as [].
  split; cbn [records state recounted move_counts frames]; [apply Hi|apply Hi|apply Hi| | | | | | |apply Hi|].
  - by rewrite zlength_aset, (inv_length _ Hi).
  - intros j Hj. rewrite record_of_aset by (done || lia). destruct (i =? j) eqn:E.
    + intros _. split; rewrite ?Hh, ?Hf; done.
    + by apply (inv_buffers _ Hi).
  - intros j k Hj Hk. rewrite !record_of_aset by (done || lia).
    destruct (i =? j) eqn:E1, (i =? k) eqn:E2; bool_hyps; subst; try done;
      rewrite ?Hf; intros; by apply (inv_unique _ Hi).
  - cbn. rewrite (inv_count _ Hi). by apply countb_u64.
  - cbn. rewrite (inv_cpu _ Hi). by apply countb_u64.
  - cbn. rewrite (inv_device _ Hi). by apply countb_u64.
  - intros Hs. pose proof (inv_idle _ Hi Hs) as Hz. exfalso.
    rewrite countb_zero, Forall_forall in Hz. specialize (Hz (record_of w i)).
    rewrite Ha in Hz. discriminate Hz. apply (elem_of_aget no_record).
    exists i. by rewrite (inv_length _ Hi).
Qed.

#[local] Arguments frame_release_contiguous : simpl never.
#[local] Arguments frame_allocate_contiguous : simpl never.
#[local] Arguments handle_at : simpl never.

(** ** The operations on a handle that agrees with its record *)

Definition matches (w : dma) (p i : Z) : Prop :=
  live w p i /\ handle_at w p = handle_of (record_of w i).

(** Record [i] and its handle at [p] become [r]. *)
Definition updated (w : dma) (p i : Z) (r : dma_record) : dma :=
  MkDma (recounted w i r) (aset w.(records) i r) (<[p := handle_of r]> w.(handles)) w.(frames).

Definition with_owner (r : dma_record) (owner : Z) : dma_record :=
  MkDmaRecord r.(r_handle) r.(r_frames) owner r.(r_initialized) r.(r_active).
Definition prepared (r : dma_record) : dma_record :=
  MkDmaRecord r.(r_handle) r.(r_frames) r.(r_owner) true r.(r_active).

Lemma matches_validate w p i :
  inv w -> matches w p i ->
  validate_allocation (Some p) w = DMA_STATUS_OK /\ record_for (Some p) w = Some i.
Proof.
  intros Hi [Hl E]. split; [apply validate_ok; eauto|].
  apply record_for_live; [done..|by rewrite E].
Qed.

Lemma counts_small w :
  inv w -> move_counts w.(state) 0 0 0 = w.(state).
Proof.
  intros Hi. unfold move_counts. rewrite !Z.add_0_r.
  assert (forall p, is_u64 (countb p w.(records))) as H.
  { intros p. pose proof (countb_nonneg p w.(records)).
    pose proof (countb_le_length p w.(records)) as Hle. rewrite (inv_length _ Hi) in Hle.
    unfold is_u64, UINT64_MAX, FRAME_CONTIGUOUS_ALLOCATION_CAPACITY in *. lia. }
  rewrite !u64_small by (rewrite ?(inv_count _ Hi), ?(inv_cpu _ Hi), ?(inv_device _ Hi); done).
  by destruct (state w).
Qed.

Lemma mark_run w p i :
  inv w -> matches w p i ->
  dma_mark_initialized (Some p) w =
  if (record_of w i).(r_owner) =? DMA_OWNER_CPU
  then (DMA_STATUS_OK, updated w p i (prepared (record_of w i)))
  else (DMA_STATUS_WRONG_OWNER, w).
Proof.
  intros Hi Hm. pose proof (matches_validate w p i Hi Hm) as [Hv Hr].
  unfold dma_mark_initialized. rewrite Hv, Hr. destruct Hm as [Hl Eh]. rewrite Eh. cbn.
  destruct (_ =? _) eqn:Eo; cbn [negb]; [|done]. f_equal. unfold updated, set_record, set_handle.
  cbn. f_equal. unfold recounted, owned_by. cbn. rewrite !Z.sub_diag. by rewrite counts_small.
Qed.

Lemma to_device_run w p i :
  inv w -> matches w p i ->
  dma_transfer_to_device (Some p) w =
  if (record_of w i).(r_owner) =? DMA_OWNER_CPU then
    if (record_of w i).(r_initialized)
    then (DMA_STATUS_OK, updated w p i (with_owner (record_of w i) DMA_OWNER_DEVICE))
    else (DMA_STATUS_NOT_PREPARED, w)
  else (DMA_STATUS_WRONG_OWNER, w).
Proof.
  intros Hi Hm. pose proof (matches_validate w p i Hi Hm) as [Hv Hr].
  unfold dma_transfer_to_device. rewrite Hv, Hr. destruct Hm as [Hl Eh]. rewrite Eh. cbn.
  destruct (_ =? _) eqn:Eo; cbn [negb]; [|done].
  destruct (r_initialized _) eqn:Ei; cbn [negb]; [|done]. f_equal.
  unfold updated, set_owner, set_state, set_record, set_handle, with_owner. rewrite Eh. cbn.
  rewrite Ei. f_equal. unfold recounted, owned_by. cbn.
  destruct Hl as (_ & Ha & _). bool_hyps. by rewrite Ha, Eo.
Qed.

Lemma to_cpu_run w p i :
  inv w -> matches w p i ->
  dma_transfer_to_cpu (Some p) w =
  if (record_of w i).(r_owner) =? DMA_OWNER_DEVICE
  then (DMA_STATUS_OK, updated w p i (with_owner (record_of w i) DMA_OWNER_CPU))
  else (DMA_STATUS_WRONG_OWNER, w).
Proof.
  intros Hi Hm. pose proof (matches_validate w p i Hi Hm) as [Hv Hr].
  unfold dma_transfer_to_cpu. rewrite Hv, Hr. destruct Hm as [Hl Eh]. rewrite Eh. cbn.
  destruct (_ =? _) eqn:Eo; cbn [negb]; [|done]. f_equal.
  unfold updated, set_owner, set_state, set_record, set_handle, with_owner. rewrite Eh. cbn.
  f_equal. unfold recounted, owned_by. cbn. destruct Hl as (_ & Ha & _). bool_hyps.
  by rewrite Ha, Eo.
Qed.

(** The record and the handle of a buffer given back. *)
Definition released_run (f : frame_contiguous_allocation) : frame_contiguous_allocation :=
  MkAllocation f.(al_physical_base) f.(al_page_count) f.(al_alignment)
    f.(al_maximum_physical_address) f.(al_identifier) false.
Definition released (r : dma_record) : dma_record :=
  MkDmaRecord None (released_run r.(r_frames)) DMA_OWNER_NONE false false.
Definition released_handle (f : frame_contiguous_allocation) : dma_allocation :=
  MkHandle (released_run f) 0 0 DMA_OWNER_NONE false false.

Lemma active_state w p i : inv w -> live w p i -> w.(state).(st_active) = true.
Proof.
  intros Hi (Hr & Ha & _). apply not_false_iff_true. intros Hs.
  pose proof (inv_idle _ Hi Hs) as Hz. rewrite countb_zero, Forall_forall in Hz.
  specialize (Hz (record_of w i)). rewrite Ha in Hz. discriminate Hz.
  apply (elem_of_aget no_record). exists i. by rewrite (inv_length _ Hi).
Qed.

(** The run of a live buffer is the allocator's to take back. *)
Lemma run_released w p i :
  inv w -> live w p i ->
  let f := (record_of w i).(r_frames) in
  exists s slot, frame_release_contiguous (Some f) w.(frames) =
    (FRAME_STATUS_OK, Some (released_run f), s) /\
    contiguous_given w.(frames) f (released_run f) s slot.
Proof.
  intros Hi (Hr & Ha & _). cbv zeta.
  destruct (inv_buffers _ Hi i Hr Ha) as [_ _ _ Hact (slot & Hs & E)].
  pose proof (frame_release_contiguous_live _ _ slot (inv_frames _ Hi) (inv_ready _ Hi)
    (ib_unique _ (inv_ids _ Hi)) Hact Hs E) as Hok.
  pose proof (frame_release_contiguous_spec _ (r_frames (record_of w i))
    (inv_frames _ Hi) (inv_ready _ Hi)) as H.
  destruct (frame_release_contiguous _ _) as [[st h] s]. cbn in Hok. subst st.
  destruct H as [_ H]. destruct (H eq_refl) as (_ & h' & slot' & -> & Hg).
  exists s, slot'. pose proof (cg_handle _ _ _ _ _ Hg) as ->. done.
Qed.

Lemma release_run w p i :
  inv w -> matches w p i ->
  (((record_of w i).(r_owner) <> DMA_OWNER_CPU /\
    dma_release (Some p) w = (DMA_STATUS_WRONG_OWNER, w)) \/
   ((record_of w i).(r_owner) = DMA_OWNER_CPU /\
    exists s slot, contiguous_given w.(frames) (record_of w i).(r_frames)
        (released_run (record_of w i).(r_frames)) s slot /\
      dma_release (Some p) w = (DMA_STATUS_OK,
        MkDma (recounted w i (released (record_of w i)))
          (aset w.(records) i (released (record_of w i)))
          (<[p := released_handle (record_of w i).(r_frames)]> w.(handles)) s))).
Proof.
  intros Hi Hm. pose proof (matches_validate w p i Hi Hm) as [Hv Hr].
  unfold dma_release. rewrite Hv, Hr. destruct Hm as [Hl Eh].
  rewrite (active_state w p i), Eh by done. cbn.
  destruct (_ =? _) eqn:Eo; cbn [negb]; bool_hyps; [right|by left]. split; [done|].
  destruct (run_released w p i Hi Hl) as (s & slot & -> & Hg). exists s, slot. split; [done|].
  cbn. f_equal. unfold set_state, set_record, set_handle, set_frames. cbn.
  unfold released, released_handle. f_equal.
  - unfold recounted, owned_by. cbn. destruct Hl as (_ & Ha & _). by rewrite Ha, Eo.
  - by rewrite !insert_insert_eq.
Qed.

(** ** Identifiers *)

Lemma taken_next_id s rq d al s' :
  frame_allocate_contiguous (Some rq) (Some d) s = (FRAME_STATUS_OK, al, s') ->
  s.(next_contiguous_identifier) < UINT64_MAX -> 0 <= s.(next_contiguous_identifier) ->
  s'.(next_contiguous_identifier) = s.(next_contiguous_identifier) + 1.
Proof.
  intros E Hn H0. unfold frame_allocate_contiguous in E. cbv zeta in E.
  repeat (split_if_in E; [discriminate|]).
  destruct (find_index _ _); [|discriminate].
  destruct (contiguous_search _ _ _); [discriminate|]. injection E as _ <-. cbn.
  rewrite u64_small by (unfold is_u64; lia). split_if; bool_hyps; lia.
Qed.

Lemma taken_ids_below s rq h s' first slot :
  PhysicalMemory.inv s -> ids_below s -> contiguous_taken s rq h s' first slot ->
  s.(next_contiguous_identifier) < UINT64_MAX ->
  s'.(next_contiguous_identifier) = s.(next_contiguous_identifier) + 1 -> ids_below s'.
Proof.
  intros Hi [Hn Hr Hu] Ht Hlt E. split; [lia| |].
  - intros i Hri. rewrite (taken_records s rq h s' first slot) by done.
    destruct (slot =? i); cbn; [lia|]. intros Ha. specialize (Hr i Hri Ha). lia.
  - apply (taken_ids_unique s rq h s' first slot); [done| |done]. split; [done|].
    intros i Hri Ha. specialize (Hr i Hri Ha). lia.
Qed.

Lemma given_records s al h s' slot i :
  PhysicalMemory.inv s -> contiguous_given s al h s' slot ->
  0 <= i < FRAME_CONTIGUOUS_ALLOCATION_CAPACITY ->
  record_at s' i = if slot =? i then MkRecord al.(al_physical_base) al.(al_page_count)
                      al.(al_identifier) false else record_at s i.
Proof.
  intros Hi [] Hr. unfold record_at. rewrite cg_records0.
  apply aget_aset; rewrite ?(PhysicalMemory.inv_records _ Hi); lia.
Qed.

Lemma given_ids_below s al h s' slot :
  PhysicalMemory.inv s -> ids_below s -> contiguous_given s al h s' slot -> ids_below s'.
Proof.
  intros Hi [Hn Hr Hu] Hg. rewrite <- (cg_next_id _ _ _ _ _ Hg) in *. split; [done| |].
  - intros i Hri. rewrite (given_records s al h s' slot) by done.
    destruct (slot =? i); cbn; [done|]. by apply Hr.
  - intros i j Hri Hrj. rewrite !(given_records s al h s' slot) by done.
    destruct (slot =? i), (slot =? j); cbn; try done. by apply Hu.
Qed.

(** A frame-allocator step that keeps the recorded runs of the live buffers. *)
Lemma inv_frames_step w s :
  inv w -> PhysicalMemory.inv s -> s.(allocator_initialized) = true -> ids_below s ->
  eligible s 0 = false ->
  (forall i, 0 <= i < FRAME_CONTIGUOUS_ALLOCATION_CAPACITY ->
     (record_of w i).(r_active) = true -> buffer_ok s (record_of w i)) ->
  inv (set_frames w s).
Proof. intros [] **. by split. Qed.

(** A run given back by its own handle leaves every other buffer's run. *)
Lemma given_buffer s al h s' slot r :
  PhysicalMemory.inv s -> contiguous_given s al h s' slot ->
  r.(r_frames).(al_identifier) <> al.(al_identifier) -> buffer_ok s r -> buffer_ok s' r.
Proof.
  intros Hi Hg Hne [? ? ? ? (k & Hk & E)]. split; try done. exists k. split; [done|].
  rewrite (given_records s al h s' slot) by done. destruct (slot =? k) eqn:Es; [|done].
  bool_hyps. subst k. rewrite (cg_record _ _ _ _ _ Hg) in E. by injection E as _ _ E.
Qed.

Lemma taken_buffer s rq h s' first slot r :
  PhysicalMemory.inv s -> contiguous_taken s rq h s' first slot ->
  buffer_ok s r -> buffer_ok s' r.
Proof.
  intros Hi Ht [? ? ? ? (k & Hk & E)]. split; try done. exists k. split; [done|].
  rewrite (taken_records s rq h s' first slot) by done. destruct (slot =? k) eqn:Es; [|done].
  bool_hyps. subst k. pose proof (ct_free _ _ _ _ _ _ Ht) as Hf. by rewrite E in Hf.
Qed.

Lemma inv_released w p i s slot :
  inv w -> live w p i ->
  contiguous_given w.(frames) (record_of w i).(r_frames)
    (released_run (record_of w i).(r_frames)) s slot ->
  forall h, inv (MkDma (recounted w i (released (record_of w i)))
     (aset w.(records) i (released (record_of w i))) h s).
Proof.
  intros Hi (Hr & Ha & Hh) Hg h. pose proof (inv_frames _ Hi) as Hfi.
  split; cbn [frames records state recounted move_counts].
  - apply Hg.
  - apply Hg.
  - by eapply given_ids_below; [|apply Hi|].
  - by rewrite zlength_aset, (inv_length _ Hi).
  - intros j Hj. rewrite record_of_aset by (done || lia). destruct (i =? j) eqn:E; [done|].
    intros Haj. bool_hyps. eapply given_buffer; [done|done| |by apply (inv_buffers _ Hi)].
    intros Eid. apply E. symmetry. by apply (inv_unique _ Hi).
  - intros j k Hj Hk. rewrite !record_of_aset by (done || lia).
    destruct (i =? j), (i =? k); try done. by apply (inv_unique _ Hi).
  - cbn. rewrite (inv_count _ Hi). exact (countb_u64 _ w Hi i (released _) Hr).
  - cbn. rewrite (inv_cpu _ Hi). exact (countb_u64 _ w Hi i (released _) Hr).
  - cbn. rewrite (inv_device _ Hi). exact (countb_u64 _ w Hi i (released _) Hr).
  - rewrite (cg_eligible _ _ _ _ _ Hg). apply Hi.
  - cbn. intros Hs. by rewrite (active_state w p i) in Hs.
Qed.

(** ** Allocation *)

Record dma_request_ok (rq : dma_request) : Prop := {
  dq_count : is_u64 rq.(dr_page_count);
  dq_alignment : is_u64 rq.(dr_alignment);
  dq_maximum : is_u64 rq.(dr_maximum_physical_address)
}.

Definition frame_request (rq : dma_request) : frame_contiguous_request :=
  MkRequest rq.(dr_page_count) rq.(dr_alignment) rq.(dr_maximum_physical_address).

(** The new buffer's record. *)
Definition fresh_record (p : Z) (f : frame_contiguous_allocation) : dma_record :=
  MkDmaRecord (Some p) f DMA_OWNER_CPU false true.

(** What dma_allocate did to the state when it succeeded: the lowest free
    record describes the run the frame allocator found. *)
Record buffer_taken (paging_translate : Z -> paging_status * paging_translation)
    (rq : dma_request) (p : Z) (w w' : dma) (f : frame_contiguous_allocation)
    (first i : Z) : Prop := {
  bt_active : w.(state).(st_active) = true;
  bt_record : 0 <= i < FRAME_CONTIGUOUS_ALLOCATION_CAPACITY;
  bt_free : (record_of w i).(r_active) = false;
  bt_lowest : forall j, 0 <= j < i -> (record_of w j).(r_active) = true;
  bt_taken : exists slot, contiguous_taken w.(frames) (frame_request rq) f w'.(frames) first slot;
  bt_next : w.(frames).(next_contiguous_identifier) < UINT64_MAX ->
    w'.(frames).(next_contiguous_identifier) = w.(frames).(next_contiguous_identifier) + 1;
  bt_mapped : identity_mapped paging_translate f.(al_physical_base)
    (u64 (f.(al_page_count) * SAPOTE_PAGE_SIZE)) = true;
  bt_world : w' = MkDma (recounted w i (fresh_record p f)) (aset w.(records) i (fresh_record p f))
    (<[p := handle_of (fresh_record p f)]> w.(handles)) w'.(frames)
}.

Lemma allocate_run tr rq p w :
  inv w -> dma_request_ok rq -> w.(frames).(next_contiguous_identifier) < UINT64_MAX ->
  let '(st, w') := dma_allocate tr (Some rq) (Some p) w in
  (st = DMA_STATUS_OK /\ exists f first i, buffer_taken tr rq p w w' f first i) \/
  (st = DMA_STATUS_NOT_IDENTITY_MAPPED /\ exists f s1 s2 first slot slot',
     contiguous_taken w.(frames) (frame_request rq) f s1 first slot /\
     s1.(next_contiguous_identifier) = w.(frames).(next_contiguous_identifier) + 1 /\
     contiguous_given s1 f (released_run f) s2 slot' /\
     identity_mapped tr f.(al_physical_base) (u64 (f.(al_page_count) * SAPOTE_PAGE_SIZE)) = false /\
     w' = MkDma w.(state) w.(records) (<[p := released_handle f]> w.(handles)) s2) \/
  ((st = DMA_STATUS_NOT_INITIALIZED \/ st = DMA_STATUS_FRAME_ALLOCATION_FAILURE) /\
   w' = set_handle w p cleared_handle).
Proof.
  intros Hi [Hc Hal Hm] Hlt. pose proof (inv_frames _ Hi) as Hfi.
  unfold dma_allocate. cbn [state set_handle records frames].
  destruct (st_active (state w)) eqn:Hact; cbn [negb]; [|right; right; split; [by left|done]].
  destruct (find_index _ _) as [i|] eqn:Fi; [|right; right; split; [by right|done]].
  apply (find_index_Some no_record) in Fi as (Hri & Hfree & Hlow).
  rewrite (inv_length _ Hi) in Hri. apply negb_true_iff in Hfree.
  fold (record_of w i) in Hfree.
  pose proof (frame_allocate_contiguous_spec w.(frames) (frame_request rq)
    (h_frames (handle_at (set_handle w p cleared_handle) p)) Hfi (inv_ready _ Hi)) as H.
  destruct (frame_allocate_contiguous _ _ _) as [[fs fr] s] eqn:Ef.
  fold (frame_request rq) in *.
  destruct H as (Hne & _ & Hok); [by split|].
  destruct (decide (fs = FRAME_STATUS_OK)) as [->|Hbad]; cycle 1.
  { destruct (Hne Hbad) as [-> ->]. rewrite bool_decide_false by done. right. right.
    split; [by right|]. cbn. unfold set_frames, set_handle. cbn. by rewrite insert_insert_eq. }
  destruct (Hok eq_refl) as (f & first & slot & -> & Ht). cbn [from_option id].
  rewrite bool_decide_true by done. cbn [negb].
  pose proof (taken_next_id _ _ _ _ _ Ef Hlt) as Hnext.
  specialize (Hnext ltac:(pose proof (ib_next _ (inv_ids _ Hi)); lia)).
  destruct (identity_mapped _ _ _) eqn:Em; cbn [negb].
  - left. split; [done|]. exists f, first, i. split; try done.
    + intros j Hj. specialize (Hlow j Hj). by apply negb_false_iff in Hlow.
    + by exists slot.
    + unfold set_state, set_record, set_handle, set_frames, fresh_record, handle_of. cbn.
      rewrite !insert_insert_eq. f_equal. unfold recounted, owned_by.
      by rewrite Hfree.
  - pose proof (taken_ids_below _ _ _ _ _ _ Hfi (inv_ids _ Hi) Ht Hlt Hnext) as [_ _ Hu].
    pose proof (ct_inv _ _ _ _ _ _ Ht) as Hinv1.
    pose proof (frame_release_contiguous_spec s f Hinv1 (ct_initialized _ _ _ _ _ _ Ht)) as Hs.
    assert (record_at s slot = MkRecord f.(al_physical_base) f.(al_page_count)
      f.(al_identifier) true) as Hrec.
    { rewrite (taken_records _ _ _ _ _ _ slot Hfi Ht (ct_slot _ _ _ _ _ _ Ht)), Z.eqb_refl.
      by rewrite (ct_handle _ _ _ _ _ _ Ht). }
    assert (f.(al_active) = true) as Hfa by (by rewrite (ct_handle _ _ _ _ _ _ Ht)).
    pose proof (frame_release_contiguous_live s f slot Hinv1
      (ct_initialized _ _ _ _ _ _ Ht) Hu Hfa (ct_slot _ _ _ _ _ _ Ht) Hrec) as Hlive.
    cbn [from_option id frames set_frames set_handle].
    destruct (frame_release_contiguous (Some f) s) as [[st2 h2] s2]. cbn in Hlive. subst st2.
    destruct Hs as [_ Hs]. destruct (Hs eq_refl) as (_ & h' & slot' & -> & Hg).
    pose proof (cg_handle _ _ _ _ _ Hg) as ->. right. left. split; [done|].
    exists f, s, s2, first, slot, slot'.
    split_and!; try done. cbn. unfold set_frames, set_handle. cbn. by rewrite !insert_insert_eq.
Qed.

Lemma buffer_taken_live tr rq p w w' f first i :
  inv w -> buffer_taken tr rq p w w' f first i -> matches w' p i /\
  record_of w' i = fresh_record p f.
Proof.
  intros Hi Hb. pose proof (bt_record _ _ _ _ _ _ _ _ Hb) as Hr.
  rewrite (bt_world _ _ _ _ _ _ _ _ Hb). unfold matches, live, handle_at.
  rewrite record_of_aset, Z.eqb_refl by (done || lia). cbn [handles].
  by rewrite lookup_insert_eq.
Qed.

Lemma inv_taken tr rq p w w' f first i :
  inv w -> w.(frames).(next_contiguous_identifier) < UINT64_MAX ->
  buffer_taken tr rq p w w' f first i -> inv w'.
Proof.
  intros Hi Hlt [Hact Hr Hfree _ [slot Ht] Hnext _ ->]. cbn [frames] in *.
  specialize (Hnext Hlt). pose proof (inv_frames _ Hi) as Hfi.
  pose proof (ct_handle _ _ _ _ _ _ Ht) as Hf.
  assert (forall j, 0 <= j < FRAME_CONTIGUOUS_ALLOCATION_CAPACITY ->
    (record_of w j).(r_active) = true ->
    (record_of w j).(r_frames).(al_identifier) <> f.(al_identifier)) as Hnew.
  { intros j Hj Ha. destruct (inv_buffers _ Hi j Hj Ha) as [_ _ _ _ (k & Hk & E)].
    pose proof (ib_records _ (inv_ids _ Hi) k Hk) as Hid. rewrite E in Hid.
    specialize (Hid eq_refl). rewrite Hf. cbn in *. lia. }
  split; cbn [frames records state recounted move_counts].
  - apply Ht.
  - apply Ht.
  - by eapply taken_ids_below; [|apply Hi|..].
  - by rewrite zlength_aset, (inv_length _ Hi).
  - intros j Hj. rewrite record_of_aset by (done || lia). destruct (i =? j) eqn:E.
    + intros _. split; cbn; [by eexists|by left|discriminate|by rewrite Hf|]. exists slot.
      split; [apply Ht|]. rewrite (taken_records _ _ _ _ _ _ slot Hfi Ht (ct_slot _ _ _ _ _ _ Ht)).
      by rewrite Z.eqb_refl, Hf.
    + intros Ha. by eapply taken_buffer; [| |by apply (inv_buffers _ Hi)].
  - intros j k Hj Hk. rewrite !record_of_aset by (done || lia).
    destruct (i =? j) eqn:E1, (i =? k) eqn:E2; bool_hyps; subst; try done.
    + intros _ Ha E. by destruct (Hnew k Hk Ha).
    + intros Ha _ E. by destruct (Hnew j Hj Ha).
    + by apply (inv_unique _ Hi).
  - cbn. rewrite (inv_count _ Hi). exact (countb_u64 _ w Hi i (fresh_record p f) Hr).
  - cbn. rewrite (inv_cpu _ Hi). exact (countb_u64 _ w Hi i (fresh_record p f) Hr).
  - cbn. rewrite (inv_device _ Hi). exact (countb_u64 _ w Hi i (fresh_record p f) Hr).
  - rewrite (ct_eligible _ _ _ _ _ _ Ht). apply Hi.
  - cbn. congruence.
Qed.

(** A run taken and given back in the same call. *)
Lemma inv_returned w rq f s1 s2 first slot slot' :
  inv w -> w.(frames).(next_contiguous_identifier) < UINT64_MAX ->
  contiguous_taken w.(frames) rq f s1 first slot ->
  s1.(next_contiguous_identifier) = w.(frames).(next_contiguous_identifier) + 1 ->
  contiguous_given s1 f (released_run f) s2 slot' -> inv (set_frames w s2).
Proof.
  intros Hi Hlt Ht Hn Hg. pose proof (inv_frames _ Hi) as Hfi.
  pose proof (ct_inv _ _ _ _ _ _ Ht) as Hi1.
  pose proof (taken_ids_below _ _ _ _ _ _ Hfi (inv_ids _ Hi) Ht Hlt Hn) as Hb1.
  apply inv_frames_step; try done.
  - apply Hg.
  - apply Hg.
  - by eapply given_ids_below.
  - rewrite (cg_eligible _ _ _ _ _ Hg), (ct_eligible _ _ _ _ _ _ Ht). apply Hi.
  - intros i Hr Ha. pose proof (inv_buffers _ Hi i Hr Ha) as Hb.
    destruct (bo_run _ _ Hb) as (k & Hk & E).
    pose proof (ib_records _ (inv_ids _ Hi) k Hk) as Hid. rewrite E in Hid.
    specialize (Hid eq_refl). cbn in Hid.
    eapply given_buffer; [exact Hi1|exact Hg| |exact (taken_buffer _ _ _ _ _ _ _ Hfi Ht Hb)].
    rewrite (ct_handle _ _ _ _ _ _ Ht). cbn. lia.
Qed.

(** * Reachable states *)

(** What callers can do: the operations of the file on any pointer, writes to a
    handle of theirs, and the frame allocator's other calls. *)
Inductive op : Type :=
| OpInitialize
| OpAllocate (paging_translate : Z -> paging_status * paging_translation)
    (request : option dma_request) (allocation : option Z)
| OpMark (allocation : option Z)
| OpToDevice (allocation : option Z)
| OpToCpu (allocation : option Z)
| OpRelease (allocation : option Z)
| OpWrite (p : Z) (h : dma_allocation)
| OpFrameAllocate (destination : bool)
| OpFrameRelease (address : Z)
| OpFrameReserve (base length : Z).

Definition run (o : op) (w : dma) : dma :=
  match o with
  | OpInitialize => (dma_initialize w).2
  | OpAllocate tr rq p => (dma_allocate tr rq p w).2
  | OpMark p => (dma_mark_initialized p w).2
  | OpToDevice p => (dma_transfer_to_device p w).2
  | OpToCpu p => (dma_transfer_to_cpu p w).2
  | OpRelease p => (dma_release p w).2
  | OpWrite p h => set_handle w p h
  | OpFrameAllocate d => set_frames w (frame_allocate d w.(frames)).2
  | OpFrameRelease a => set_frames w (frame_release a w.(frames)).2
  | OpFrameReserve base length => set_frames w (frame_reserve_range base length w.(frames)).2
  end.

(** Arguments are 64-bit values; a buffer is requested while the allocator's
    64-bit identifiers have not gone round. *)
Definition op_ok (o : op) (w : dma) : Prop :=
  match o with
  | OpAllocate _ (Some rq) _ =>
      dma_request_ok rq /\ w.(frames).(next_contiguous_identifier) < UINT64_MAX
  | OpFrameRelease a => is_u64 a
  | OpFrameReserve base length => is_u64 base /\ is_u64 length
  | _ => True
  end.

(** The file's objects at load time beside an initialized frame allocator. *)
Record start (w : dma) : Prop := {
  sw_state : w.(state) = MkState 0 0 0 false;
  sw_records : w.(records) =
    replicate (Z.to_nat FRAME_CONTIGUOUS_ALLOCATION_CAPACITY) no_record;
  sw_reachable : PhysicalMemory.reachable w.(frames);
  sw_ready : w.(frames).(allocator_initialized) = true;
  sw_ids : ids_below w.(frames);
  sw_null : eligible w.(frames) 0 = false
}.

Inductive reachable : dma -> Prop :=
| reachable_start w : start w -> reachable w
| reachable_step o w : reachable w -> op_ok o w -> reachable (run o w).

Lemma dma_start_inv w : start w -> inv w.
Proof.
  intros [Hs Hr Hreach Hi Hids Hn].
  assert (forall i, 0 <= i < FRAME_CONTIGUOUS_ALLOCATION_CAPACITY ->
    record_of w i = no_record) as Hrec.
  { intros i Hi'. unfold record_of. rewrite Hr. apply aget_replicate.
    unfold FRAME_CONTIGUOUS_ALLOCATION_CAPACITY in *. lia. }
  assert (forall p, p no_record = false -> countb p w.(records) = 0) as Hc.
  { intros p Hp. by rewrite Hr, countb_replicate, Hp. }
  split; try done; try (rewrite ?Hs; symmetry; by apply Hc).
  - by apply reachable_wf.
  - by rewrite Hr.
  - intros i Hi'. by rewrite (Hrec i Hi').
  - intros i j Hi' Hj'. by rewrite (Hrec i Hi').
  - intros _. by apply Hc.
Qed.

(** The calls that do not concern runs leave the records of runs alone. *)
Lemma frame_op_records o s :
  match o with
  | PhysicalMemory.OpAllocate _ | PhysicalMemory.OpRelease _ | PhysicalMemory.OpReserve _ _ =>
      let s' := PhysicalMemory.run o s in
      s'.(contiguous_records) = s.(contiguous_records) /\
      s'.(next_contiguous_identifier) = s.(next_contiguous_identifier) /\
      s'.(allocator_initialized) = s.(allocator_initialized)
  | _ => True
  end.
Proof.
  destruct o as [| | | | |]; try done; cbn [PhysicalMemory.run].
  - unfold frame_allocate. repeat (split_if; try done). by destruct (for_each _ _ _).
  - unfold frame_release. repeat (split_if; try done).
  - unfold frame_reserve_range, reserve_internal. repeat (split_if; try done).
    destruct (covering_frame_bounds _ _) as [|[]]; [done|]. by repeat (split_if; try done).
Qed.

Lemma inv_frame_op o w :
  match o with
  | PhysicalMemory.OpAllocate _ | PhysicalMemory.OpRelease _ | PhysicalMemory.OpReserve _ _ => True
  | _ => False
  end ->
  PhysicalMemory.op_ok o -> inv w -> inv (set_frames w (PhysicalMemory.run o w.(frames))).
Proof.
  intros Hkind Hok Hi. pose proof (frame_op_records o w.(frames)) as Hrec.
  assert (PhysicalMemory.inv (PhysicalMemory.run o w.(frames)) /\
    eligible (PhysicalMemory.run o w.(frames)) 0 = false) as [Hinv Hnull].
  { split.
    - apply (run_wf o); [apply inv_wf, Hi|done|].
      destruct o; try done; destruct Hrec as (_ & _ & ->); apply Hi.
    - destruct o; try done; cbn [PhysicalMemory.run].
      + rewrite <- (inv_null _ Hi). unfold frame_allocate. repeat (split_if; try done).
        by destruct (for_each _ _ _).
      + rewrite <- (inv_null _ Hi). unfold frame_release. repeat (split_if; try done).
      + apply not_true_iff_false. intros He.
        pose proof (frame_reserve_range_spec w.(frames) base length (inv_frames _ Hi)
          (inv_ready _ Hi) (proj1 Hok) (proj2 Hok)) as H.
        destruct (frame_reserve_range _ _ _) as [st s']. cbn in He.
        destruct H as (Hne & _ & Heq). pose proof frame_count_range.
        destruct (decide (st = FRAME_STATUS_OK)) as [E|E].
        * apply Heq in E as (_ & _ & _ & E & _). apply E in He as [He _]; [|lia].
          by rewrite (inv_null _ Hi) in He.
        * rewrite Hne in He by done. by rewrite (inv_null _ Hi) in He. }
  assert (forall s', s'.(contiguous_records) = w.(frames).(contiguous_records) ->
    s'.(next_contiguous_identifier) = w.(frames).(next_contiguous_identifier) ->
    s'.(allocator_initialized) = w.(frames).(allocator_initialized) ->
    PhysicalMemory.inv s' -> eligible s' 0 = false -> inv (set_frames w s')) as Hstep.
  { intros s' Hr Hn Hin Hinv' Hnull'. apply inv_frames_step; try done.
    - rewrite Hin. apply Hi.
    - destruct (inv_ids _ Hi) as [? Hb Hu]. split; unfold ids_unique, record_at in *;
        rewrite ?Hr, ?Hn in *; done.
    - intros i Hri Ha. destruct (inv_buffers _ Hi i Hri Ha). split; try done.
      unfold record_at in *. by rewrite Hr. }
  destruct o; try done; destruct Hrec as (Hr & Hn & Hin); by apply Hstep.
Qed.

Lemma inv_initialize w : inv w -> inv (dma_initialize w).2.
Proof.
  intros Hi. unfold dma_initialize. destruct (st_active (state w)) eqn:Hs; [done|]. cbn [snd].
  set (idle := fun r => MkDmaRecord None r.(r_frames) r.(r_owner) r.(r_initialized) false).
  assert (forall p, (forall r, p (idle r) = false) -> countb p (idle <$> w.(records)) = 0) as Hc.
  { intros p Hp. apply countb_zero, Forall_fmap, Forall_true. intros r. apply Hp. }
  assert (forall i, 0 <= i < FRAME_CONTIGUOUS_ALLOCATION_CAPACITY -> forall st h s,
    (record_of (MkDma st (idle <$> w.(records)) h s) i).(r_active) = false) as Hidle.
  { intros i Hr st h s. unfold record_of. cbn.
    rewrite (aget_lookup no_record (idle <$> w.(records)) i (idle (record_of w i))); [done|].
    rewrite list_lookup_fmap, (lookup_aget no_record) by (by rewrite (inv_length _ Hi)). done. }
  split; cbn [frames state records]; [apply Hi|apply Hi|apply Hi| | | | | | |apply Hi|].
  - unfold zlength. rewrite length_fmap. exact (inv_length _ Hi).
  - intros i Hr Ha. by rewrite Hidle in Ha.
  - intros i j Hr _ Ha. by rewrite Hidle in Ha.
  - symmetry. by apply Hc.
  - symmetry. by apply Hc.
  - symmetry. by apply Hc.
  - done.
Qed.

Lemma inv_updated w p i r :
  inv w -> live w p i -> r.(r_active) = true ->
  r.(r_handle) = (record_of w i).(r_handle) -> r.(r_frames) = (record_of w i).(r_frames) ->
  r.(r_owner) = DMA_OWNER_CPU \/ r.(r_owner) = DMA_OWNER_DEVICE ->
  (r.(r_owner) = DMA_OWNER_DEVICE -> r.(r_initialized) = true) ->
  inv (updated w p i r).
Proof. intros Hi (Hr & Ha & _) **. by apply inv_update. Qed.

(** What each operation on a pointer [p] can have done to a state. *)
Inductive change (to_cpu : bool) (w : dma) (p : Z) : dma -> Prop :=
| ch_none : change to_cpu w p w
| ch_mark i : matches w p i -> (record_of w i).(r_owner) = DMA_OWNER_CPU ->
    change to_cpu w p (updated w p i (prepared (record_of w i)))
| ch_device i : matches w p i -> (record_of w i).(r_owner) = DMA_OWNER_CPU ->
    (record_of w i).(r_initialized) = true ->
    change to_cpu w p (updated w p i (with_owner (record_of w i) DMA_OWNER_DEVICE))
| ch_cpu i : to_cpu = true -> matches w p i -> (record_of w i).(r_owner) = DMA_OWNER_DEVICE ->
    change to_cpu w p (updated w p i (with_owner (record_of w i) DMA_OWNER_CPU))
| ch_release i s slot : matches w p i -> (record_of w i).(r_owner) = DMA_OWNER_CPU ->
    contiguous_given w.(frames) (record_of w i).(r_frames)
      (released_run (record_of w i).(r_frames)) s slot ->
    change to_cpu w p (MkDma (recounted w i (released (record_of w i)))
      (aset w.(records) i (released (record_of w i)))
      (<[p := released_handle (record_of w i).(r_frames)]> w.(handles)) s).

Lemma change_mark w p : inv w -> change false w p (dma_mark_initialized (Some p) w).2.
Proof.
  intros Hi. destruct (validate_cases w p Hi) as [(i & Hl & Eh & _)|Hv].
  - rewrite (mark_run w p i) by done. split_if; [|apply ch_none]. bool_hyps. by apply ch_mark.
  - unfold dma_mark_initialized. rewrite Hv. apply ch_none.
Qed.

Lemma change_device w p : inv w -> change false w p (dma_transfer_to_device (Some p) w).2.
Proof.
  intros Hi. destruct (validate_cases w p Hi) as [(i & Hl & Eh & _)|Hv].
  - rewrite (to_device_run w p i) by done. repeat (split_if; [|apply ch_none]). bool_hyps.
    by apply ch_device.
  - unfold dma_transfer_to_device. rewrite Hv. apply ch_none.
Qed.

Lemma change_cpu w p : inv w -> change true w p (dma_transfer_to_cpu (Some p) w).2.
Proof.
  intros Hi. destruct (validate_cases w p Hi) as [(i & Hl & Eh & _)|Hv].
  - rewrite (to_cpu_run w p i) by done. split_if; [|apply ch_none]. bool_hyps. by apply ch_cpu.
  - unfold dma_transfer_to_cpu. rewrite Hv. apply ch_none.
Qed.

Lemma change_release w p : inv w -> change false w p (dma_release (Some p) w).2.
Proof.
  intros Hi. destruct (validate_cases w p Hi) as [(i & Hl & Eh & _)|Hv].
  - destruct (release_run w p i Hi) as [[_ ->]|(Ho & s & slot & Hg & ->)]; [done|apply ch_none|].
    by eapply ch_release.
  - unfold dma_release. do 2 (split_if; [apply ch_none|]). rewrite Hv. apply ch_none.
Qed.

Lemma change_inv b w p w' : inv w -> change b w p w' -> inv w'.
Proof.
  intros Hi Hc. destruct Hc as [|i [Hl _] Ho|i [Hl _] Ho Hp|i _ [Hl _] Ho|i s slot [Hl _] Ho Hg];
    [done|..].
  - apply inv_updated; cbn; try done; [apply Hl|by left].
  - apply inv_updated; cbn; try done; [apply Hl|by right].
  - apply inv_updated; cbn; try done; [apply Hl|by left].
  - by eapply inv_released.
Qed.

Lemma run_inv o w : inv w -> op_ok o w -> inv (run o w).
Proof.
  intros Hi Hok. destruct o as [|tr [rq|] [p|]|[p|]|[p|]|[p|]|[p|]|p h|d|a|base len]; cbn [run];
    try done.
  - by apply inv_initialize.
  - destruct Hok as [Hrq Hlt]. pose proof (allocate_run tr rq p w Hi Hrq Hlt) as H.
    destruct (dma_allocate _ _ _ w) as [st w']. cbn [snd].
    destruct H as [(_ & f & first & i & Hb)|[(_ & f & s1 & s2 & first & slot & slot' & Ht & Hn & Hg & _ & ->)|[_ ->]]].
    + by eapply inv_taken.
    + apply (inv_write (set_frames w s2) p (released_handle f)). by eapply inv_returned.
    + by apply inv_write.
  - by eapply change_inv, change_mark.
  - by eapply change_inv, change_device.
  - by eapply change_inv, change_cpu.
  - by eapply change_inv, change_release.
  - by apply inv_write.
  - by apply (inv_frame_op (PhysicalMemory.OpAllocate d)).
  - by apply (inv_frame_op (PhysicalMemory.OpRelease a)).
  - by apply (inv_frame_op (PhysicalMemory.OpReserve base len)).
Qed.

Lemma dma_reachable_inv w : reachable w -> inv w.
Proof. induction 1; [by apply dma_start_inv|by apply run_inv]. Qed.

(** * The theorems *)

(** Frame [g] belongs to the run of record [r]. *)
Definition in_run (r : dma_record) (g : Z) : Prop :=
  r.(r_frames).(al_physical_base) <= g * SAPOTE_PAGE_SIZE <
  r.(r_frames).(al_physical_base) + r.(r_frames).(al_page_count) * SAPOTE_PAGE_SIZE.

Lemma in_run_record s r slot g :
  PhysicalMemory.inv s -> 0 <= slot < FRAME_CONTIGUOUS_ALLOCATION_CAPACITY ->
  record_at s slot = MkRecord r.(r_frames).(al_physical_base)
    r.(r_frames).(al_page_count) r.(r_frames).(al_identifier) true ->
  in_run r g <-> in_record (record_at s slot) g.
Proof.
  intros Hi Hs E. pose proof (PhysicalMemory.inv_record _ Hi slot Hs) as Hok.
  rewrite E in Hok. destruct (Hok eq_refl) as [Hb Hf _ _ _].
  rewrite E. unfold in_run, in_record, record_first, SAPOTE_PAGE_SIZE in *. cbn in *. nia.
Qed.

Lemma runs_disjoint w i j g :
  inv w -> 0 <= i < FRAME_CONTIGUOUS_ALLOCATION_CAPACITY ->
  0 <= j < FRAME_CONTIGUOUS_ALLOCATION_CAPACITY ->
  (record_of w i).(r_active) = true -> (record_of w j).(r_active) = true ->
  in_run (record_of w i) g -> in_run (record_of w j) g -> i = j.
Proof.
  intros Hi Hri Hrj Hai Haj. pose proof (inv_frames _ Hi) as Hf.
  destruct (bo_run _ _ (inv_buffers _ Hi i Hri Hai)) as (a & Ha & Ea).
  destruct (bo_run _ _ (inv_buffers _ Hi j Hrj Haj)) as (b & Hb & Eb).
  rewrite (in_run_record _ _ a g Hf Ha Ea), (in_run_record _ _ b g Hf Hb Eb).
  intros Hga Hgb. apply (inv_unique _ Hi); try done.
  assert (a = b) as ->.
  { apply (PhysicalMemory.inv_disjoint _ Hf a b g); try done; by rewrite ?Ea, ?Eb. }
  rewrite Ea in Eb. by injection Eb.
Qed.

(** A device's buffer outlives every call that is not its own return. *)
Lemma device_step o w i :
  inv w -> op_ok o w -> 0 <= i < FRAME_CONTIGUOUS_ALLOCATION_CAPACITY ->
  (record_of w i).(r_active) = true -> (record_of w i).(r_owner) = DMA_OWNER_DEVICE ->
  o <> OpToCpu (record_of w i).(r_handle) -> record_of (run o w) i = record_of w i.
Proof.
  intros Hi Hok Hr Ha Ho Hne.
  destruct (bo_handle _ _ (inv_buffers _ Hi i Hr Ha)) as [q Hq].
  assert (forall b p w', (b = true -> p <> q) -> change b w p w' ->
    record_of w' i = record_of w i) as Hch.
  { intros b p w' Hb Hc. destruct Hc as [|k [(Hk & _) _] Hc|k [(Hk & _) _] Hc _|
      k Hbt [(Hk & _ & Hp) _] Hc|k s slot [(Hk & _) _] Hc _]; [done|..];
      unfold updated; rewrite record_of_aset by (done || lia);
      (destruct (k =? i) eqn:E; [bool_hyps; subst k|done]); try congruence;
      try (by rewrite Hc in Ho).
    apply Hb in Hbt. congruence. }
  destruct o as [|tr [rq|] [p|]|[p|]|[p|]|[p|]|[p|]|p h|d|a|base len]; cbn [run]; try done.
  - unfold dma_initialize. by rewrite (active_state w q i).
  - destruct Hok as [Hrq Hlt]. pose proof (allocate_run tr rq p w Hi Hrq Hlt) as H.
    destruct (dma_allocate _ _ _ w) as [st w']. cbn [snd].
    destruct H as [(_ & f & first & k & Hb)|[(_ & f & s1 & s2 & first & slot & slot' & _ & _ & _ & _ & ->)|[_ ->]]];
      try done. destruct Hb as [_ Hk Hfree _ _ _ _ ->].
    rewrite record_of_aset by (done || lia). destruct (k =? i) eqn:E; [|done].
    bool_hyps. subst k. congruence.
  - by eapply Hch, change_mark.
  - by eapply Hch, change_device.
  - eapply Hch, change_cpu; [|done]. intros _ ->. by rewrite Hq in Hne.
  - by eapply Hch, change_release.
Qed.

(** Sequences of operations. *)
Inductive steps : dma -> list op -> dma -> Prop :=
| steps_nil w : steps w [] w
| steps_cons o os w w' : op_ok o w -> steps (run o w) os w' -> steps w (o :: os) w'.

Lemma dma_steps_inv w os w' : inv w -> steps w os w' -> inv w'.
Proof. intros Hi Hs. induction Hs; [done|]. by apply IHHs, run_inv. Qed.

Lemma run_frame_release w i g :
  inv w -> 0 <= i < FRAME_CONTIGUOUS_ALLOCATION_CAPACITY ->
  (record_of w i).(r_active) = true -> in_run (record_of w i) g ->
  allocated w.(frames) g = true /\
  frame_release (g * SAPOTE_PAGE_SIZE) w.(frames) = (FRAME_STATUS_FRAME_IN_USE, w.(frames)).
Proof.
  intros Hi Hr Ha Hg. pose proof (inv_frames _ Hi) as Hf.
  destruct (bo_run _ _ (inv_buffers _ Hi i Hr Ha)) as (a & Hra & Ea).
  apply (in_run_record _ _ a g Hf Hra Ea) in Hg.
  pose proof (PhysicalMemory.inv_record _ Hf a Hra) as Hok. rewrite Ea in Hok.
  specialize (Hok eq_refl). rewrite <- Ea in Hok.
  pose proof (ro_frames _ _ Hok g Hg) as Hal. split; [done|].
  destruct Hok as [_ Hf0 _ Hend _]. unfold in_record in Hg.
  pose proof frame_count_range. pose proof frame_count_limit as Hlim.
  pose proof (frame_release_spec w.(frames) (g * SAPOTE_PAGE_SIZE) Hf (inv_ready _ Hi)) as H1.
  destruct (frame_release _ _) as [st s'].
  destruct H1 as (Hst & Hsame & _); [unfold is_u64, UINT64_MAX, SAPOTE_PAGE_SIZE; lia|].
  assert (st = FRAME_STATUS_FRAME_IN_USE) as Hs; [|by rewrite Hsame, Hs by (by rewrite Hs)].
  rewrite Hst. unfold release_status. rewrite Z.div_mul, Z.mod_mul by done.
  assert ((g * SAPOTE_PAGE_SIZE >=? early_limit) = false) as ->.
  { rewrite <- Hlim. apply not_true_iff_false. rewrite Z.geb_le. unfold SAPOTE_PAGE_SIZE. lia. }
  unfold allocated in Hal. apply andb_prop in Hal as [-> ->].
  assert (frame_in_contiguous_allocation w.(frames) g = true) as ->; [|done].
  apply in_contiguous_spec; [done|lia|]. exists a. split; [done|]. by rewrite Ea in *.
Qed.

(** ** Callers that leave live handles alone *)

Record honest (w : dma) : Prop := {
  hn_inv : inv w;
  hn_match : forall i p, live w p i -> handle_at w p = handle_of (record_of w i);
  hn_apart : forall i j p, live w p i -> live w p j -> i = j
}.

(** No live handle is overwritten, by a write or by a new allocation. *)
Definition fair (o : op) (w : dma) : Prop :=
  match o with
  | OpWrite p _ | OpAllocate _ (Some _) (Some p) => forall i, ~ live w p i
  | _ => True
  end.

Inductive disciplined : dma -> Prop :=
| disciplined_start w : start w -> disciplined w
| disciplined_step o w : disciplined w -> op_ok o w -> fair o w -> disciplined (run o w).

Lemma handle_at_insert st rs h s p q x :
  handle_at (MkDma st rs (<[p := x]> h) s) q =
  if decide (p = q) then x else default cleared_handle (h !! q).
Proof.
  unfold handle_at. cbn. destruct (decide (p = q)) as [->|];
    [by rewrite lookup_insert_eq|by rewrite lookup_insert_ne].
Qed.

(** Rewriting a record and its handle together keeps them in agreement. *)
Lemma honest_put w p i r st x s :
  honest w -> 0 <= i < FRAME_CONTIGUOUS_ALLOCATION_CAPACITY ->
  inv (MkDma st (aset w.(records) i r) (<[p := x]> w.(handles)) s) ->
  (forall j, live w p j -> j = i) ->
  (r.(r_active) = true -> r.(r_handle) = Some p /\ x = handle_of r) ->
  honest (MkDma st (aset w.(records) i r) (<[p := x]> w.(handles)) s).
Proof.
  intros [Hi Hm Ha] Hr Hinv Hp Hok.
  assert (forall q j, live (MkDma st (aset w.(records) i r) (<[p := x]> w.(handles)) s) q j ->
    (j = i /\ q = p /\ r.(r_active) = true) \/ (j <> i /\ q <> p /\ live w q j)) as Hl.
  { intros q j (Hj & Hact & Hh). rewrite record_of_aset in * by (done || lia).
    destruct (i =? j) eqn:E; bool_hyps.
    - left. destruct (Hok Hact) as [E' _]. split_and!; congruence.
    - right. split_and!; [congruence| |done]. intros ->. apply E. symmetry. by apply Hp. }
  split; [done| |].
  - intros j q Hlive. rewrite record_of_aset, handle_at_insert by (apply Hi || done || apply Hlive).
    destruct (Hl q j Hlive) as [(-> & -> & Hact)|(Hj & Hq & Hlw)].
    + rewrite Z.eqb_refl, decide_True by done. by apply Hok.
    + rewrite decide_False by congruence. destruct (i =? j) eqn:E; bool_hyps; [congruence|].
      by apply Hm.
  - intros j k q Hj Hk. destruct (Hl q j Hj) as [(-> & -> & _)|(? & ? & Hj')],
      (Hl _ k Hk) as [(-> & ? & _)|(? & ? & Hk')]; try done. by eapply Ha.
Qed.

Lemma honest_change b w p w' : honest w -> change b w p w' -> honest w'.
Proof.
  intros Hh Hc. pose proof (change_inv _ _ _ _ (hn_inv _ Hh) Hc) as Hinv.
  destruct Hc as [|i [Hl E]|i [Hl E]|i Hb [Hl E]|i s slot [Hl E]]; [done|..];
    (apply honest_put; [done|apply Hl|done|intros j Hj; by apply (hn_apart _ Hh j i p)|]);
    try done; intros _; split; try done; apply Hl.
Qed.

Lemma honest_write w p h : honest w -> (forall i, ~ live w p i) -> honest (set_handle w p h).
Proof.
  intros [Hi Hm Ha] Hd. split; [by apply inv_write| |done].
  intros i q Hl. unfold set_handle. rewrite handle_at_insert.
  destruct (decide (p = q)) as [->|]; [by destruct (Hd i)|by apply Hm].
Qed.

Lemma honest_frames w s : honest w -> inv (set_frames w s) -> honest (set_frames w s).
Proof. by intros [] ?. Qed.

Lemma honest_taken tr rq p w w' f first i :
  honest w -> w.(frames).(next_contiguous_identifier) < UINT64_MAX ->
  (forall j, ~ live w p j) -> buffer_taken tr rq p w w' f first i -> honest w'.
Proof.
  intros Hh Hlt Hd Hb. pose proof (inv_taken _ _ _ _ _ _ _ _ (hn_inv _ Hh) Hlt Hb) as Hinv.
  pose proof (bt_record _ _ _ _ _ _ _ _ Hb) as Hr. rewrite (bt_world _ _ _ _ _ _ _ _ Hb) in *.
  apply honest_put; try done. intros j Hj. by destruct (Hd j).
Qed.

Lemma honest_initialize w : honest w -> honest (dma_initialize w).2.
Proof.
  intros Hh. pose proof (inv_initialize w (hn_inv _ Hh)) as Hi.
  unfold dma_initialize in *. destruct (st_active (state w)); [done|]. cbn [snd] in *.
  assert (forall q j, ~ live (MkDma (MkState 0 0 0 true)
    ((fun r => MkDmaRecord None r.(r_frames) r.(r_owner) r.(r_initialized) false)
       <$> w.(records)) w.(handles) w.(frames)) q j) as Hd.
  { intros q j (Hj & Ha & _). pose proof (inv_count _ Hi) as Hc. cbn in Hc. symmetry in Hc.
    apply countb_zero in Hc. rewrite Forall_forall in Hc.
    unfold record_of in Ha. cbn in Ha. rewrite Hc in Ha; [done|].
    apply (elem_of_aget no_record). exists j. split; [|done].
    pose proof (inv_length _ Hi) as Hlen. cbn in Hlen. by rewrite Hlen. }
  split; [done| |]; intros; exfalso; by eapply Hd.
Qed.

Lemma run_honest o w : honest w -> op_ok o w -> fair o w -> honest (run o w).
Proof.
  intros Hh Hok Hf. pose proof (hn_inv _ Hh) as Hi. pose proof (run_inv o w Hi Hok) as Hinv.
  destruct o as [|tr [rq|] [p|]|[p|]|[p|]|[p|]|[p|]|p h|d|a|base len]; cbn [run] in *;
    try done; try by apply honest_frames.
  - by apply honest_initialize.
  - destruct Hok as [Hrq Hlt]. pose proof (allocate_run tr rq p w Hi Hrq Hlt) as H.
    destruct (dma_allocate _ _ _ w) as [st w']. cbn [snd] in *.
    destruct H as [(_ & f & first & i & Hb)|[(_ & f & s1 & s2 & first & slot & slot' & Ht & Hn & Hg & _ & ->)|[_ ->]]].
    + by eapply honest_taken.
    + apply (honest_write (set_frames w s2) p (released_handle f)); [|done].
      apply honest_frames; [done|]. by eapply inv_returned.
    + by apply honest_write.
  - by eapply honest_change, change_mark.
  - by eapply honest_change, change_device.
  - by eapply honest_change, change_cpu.
  - by eapply honest_change, change_release.
  - by apply honest_write.
Qed.

Lemma start_dead w p i : start w -> ~ live w p i.
Proof.
  intros [_ Hr _ _ _ _] (Hi & Ha & _). unfold record_of in Ha.
  rewrite Hr, aget_replicate in Ha; [done|].
  unfold FRAME_CONTIGUOUS_ALLOCATION_CAPACITY in *. lia.
Qed.

Lemma disciplined_honest w : disciplined w -> honest w.
Proof.
  induction 1 as [w Hs|o w _ IH Hok Hf]; [|by apply run_honest].
  split; [by apply dma_start_inv| |]; intros; exfalso; by eapply start_dead.
Qed.

(** ** The abstract ownership machine *)

Inductive buffer : Type :=
| Unprepared
| Prepared
| DeviceOwned.

#[export] Instance buffer_eq_dec : EqDecision buffer.
Proof. solve_decision. Defined.

Inductive request : Type :=
| Mark
| ToDevice
| ToCpu
| Release.

(** What a buffer's owner is promised; [held] is the active flag of the handle,
    which alone tells a second release from a forged handle. *)
Definition promised (o : request) (b : option buffer) (held : bool)
  : dma_status * option buffer :=
  match o, b with
  | Release, None =>
      (if held then DMA_STATUS_BAD_ALLOCATION else DMA_STATUS_DOUBLE_FREE, None)
  | _, None => (DMA_STATUS_BAD_ALLOCATION, None)
  | ToCpu, Some DeviceOwned => (DMA_STATUS_OK, Some Prepared)
  | ToCpu, Some _ | _, Some DeviceOwned => (DMA_STATUS_WRONG_OWNER, b)
  | Mark, Some _ => (DMA_STATUS_OK, Some Prepared)
  | ToDevice, Some Prepared => (DMA_STATUS_OK, Some DeviceOwned)
  | ToDevice, Some Unprepared => (DMA_STATUS_NOT_PREPARED, b)
  | Release, Some _ => (DMA_STATUS_OK, None)
  end.

Definition perform (o : request) (allocation : option Z) (w : dma) : dma_status * dma :=
  match o with
  | Mark => dma_mark_initialized allocation w
  | ToDevice => dma_transfer_to_device allocation w
  | ToCpu => dma_transfer_to_cpu allocation w
  | Release => dma_release allocation w
  end.

Definition buffer_of (r : dma_record) : buffer :=
  if r.(r_owner) =? DMA_OWNER_DEVICE then DeviceOwned
  else if r.(r_initialized) then Prepared else Unprepared.

(** The buffer whose handle is at [p]. *)
Definition buffer_at (w : dma) (p : Z) : option buffer :=
  match find_index (fun r => r.(r_active) && bool_decide (r.(r_handle) = Some p))
          w.(records) with
  | Some i => Some (buffer_of (record_of w i))
  | None => None
  end.

Lemma buffer_at_live w p i :
  honest w -> live w p i -> buffer_at w p = Some (buffer_of (record_of w i)).
Proof.
  intros Hh Hl. pose proof (inv_length _ (hn_inv _ Hh)) as Hlen. unfold buffer_at.
  destruct (find_index _ _) as [j|] eqn:F.
  - apply (find_index_Some no_record) in F as (Hj & Hm & _). bool_hyps.
    apply bool_decide_eq_true in H0. rewrite Hlen in Hj.
    by rewrite (hn_apart _ Hh j i p).
  - exfalso. destruct Hl as (Hr & Ha & Hp).
    apply (find_index_None_aget no_record _ _ i) in F; [|by rewrite Hlen].
    cbv beta in F. fold (record_of w i) in F. by rewrite Ha, Hp, bool_decide_true in F.
Qed.

Lemma buffer_at_dead w p :
  inv w -> (forall i, ~ live w p i) -> buffer_at w p = None.
Proof.
  intros Hi Hd. unfold buffer_at. destruct (find_index _ _) as [j|] eqn:F; [|done].
  apply (find_index_Some no_record) in F as (Hj & Hm & _). bool_hyps.
  apply bool_decide_eq_true in H0. rewrite (inv_length _ Hi) in Hj.
  by destruct (Hd j).
Qed.

Lemma live_or_dead w p : inv w -> (exists i, live w p i) \/ (forall i, ~ live w p i).
Proof.
  intros Hi.
  destruct (find_index (fun r => r.(r_active) && bool_decide (r.(r_handle) = Some p)) w.(records))
    as [j|] eqn:F.
  - left. exists j. apply (find_index_Some no_record) in F as (Hj & Hm & _). bool_hyps.
    apply bool_decide_eq_true in H0. by rewrite (inv_length _ Hi) in Hj.
  - right. intros i (Hr & Ha & Hp).
    apply (find_index_None_aget no_record _ _ i) in F; [|by rewrite (inv_length _ Hi)].
    cbv beta in F. fold (record_of w i) in F. by rewrite Ha, Hp, bool_decide_true in F.
Qed.

(** A step that leaves the records of other handles alone. *)
Lemma buffer_at_kept w w' q :
  honest w -> honest w' ->
  (forall j, live w q j -> live w' q j /\ record_of w' j = record_of w j) ->
  (forall j, live w' q j -> live w q j) -> buffer_at w' q = buffer_at w q.
Proof.
  intros Hh Hh' Hto Hfrom. destruct (live_or_dead w q (hn_inv _ Hh)) as [[j Hj]|Hd].
  - destruct (Hto j Hj) as [Hj' E]. by rewrite (buffer_at_live w' q j), E, (buffer_at_live w q j).
  - rewrite (buffer_at_dead w q (hn_inv _ Hh) Hd). apply buffer_at_dead; [apply Hh'|].
    intros j Hj. by apply (Hd j), Hfrom.
Qed.

Lemma put_elsewhere w p i r st x s q :
  honest w -> honest (MkDma st (aset w.(records) i r) (<[p := x]> w.(handles)) s) ->
  0 <= i < FRAME_CONTIGUOUS_ALLOCATION_CAPACITY ->
  ~ live w q i -> (r.(r_active) = true -> r.(r_handle) = Some p) -> q <> p ->
  buffer_at (MkDma st (aset w.(records) i r) (<[p := x]> w.(handles)) s) q = buffer_at w q.
Proof.
  intros Hh Hh' Hr Hd Hp Hq. pose proof (hn_inv _ Hh) as Hi.
  apply buffer_at_kept; [done..| |]; intros j (Hj & Ha & Hjq); unfold live;
    rewrite ?record_of_aset in * by (done || lia); destruct (i =? j) eqn:E; bool_hyps; subst.
  - by destruct Hd.
  - done.
  - rewrite Hp in Hjq by done. congruence.
  - done.
Qed.

Lemma change_elsewhere b w p w' q :
  honest w -> change b w p w' -> q <> p -> buffer_at w' q = buffer_at w q.
Proof.
  intros Hh Hc Hq. pose proof (honest_change _ _ _ _ Hh Hc) as Hh'.
  assert (forall i, live w p i -> ~ live w q i) as Hne
    by (intros i (_ & _ & E) (_ & _ & E'); congruence).
  destruct Hc as [|i [Hl _]|i [Hl _]|i _ [Hl _]|i s slot [Hl _]]; [done|..];
    (apply put_elsewhere; [done|done|apply Hl|by apply Hne| |done]);
    intros; (done || apply Hl).
Qed.

Lemma perform_change o p w :
  inv w -> exists b, change b w p (perform o (Some p) w).2.
Proof.
  intros Hi. destruct o; eexists; [by apply change_mark|by apply change_device|
    by apply change_cpu|by apply change_release].
Qed.

Lemma updated_buffer w p i r :
  honest w -> live w p i -> honest (updated w p i r) -> r.(r_active) = true ->
  r.(r_handle) = Some p -> buffer_at (updated w p i r) p = Some (buffer_of r).
Proof.
  intros Hh Hl Hh' Ha Hp. pose proof Hl as (Hr & _).
  assert (record_of (updated w p i r) i = r) as E.
  { unfold updated. by rewrite record_of_aset, Z.eqb_refl by (apply Hh || done || lia). }
  rewrite (buffer_at_live _ p i), E; [done|done|]. split_and!; [lia..| |]; by rewrite E.
Qed.

Lemma perform_promised o p w :
  honest w -> w.(state).(st_active) = true ->
  (perform o (Some p) w).1 = (promised o (buffer_at w p) (handle_at w p).(h_active)).1 /\
  buffer_at (perform o (Some p) w).2 p =
    (promised o (buffer_at w p) (handle_at w p).(h_active)).2.
Proof.
  intros Hh Hs. pose proof (hn_inv _ Hh) as Hi.
  destruct (perform_change o p w Hi) as [b Hc]. pose proof (honest_change _ _ _ _ Hh Hc) as Hh'.
  clear Hc. destruct (live_or_dead w p Hi) as [[i Hl]|Hd].
  - rewrite (buffer_at_live w p i Hh Hl). pose proof (conj Hl (hn_match _ Hh i p Hl)) as Hm.
    destruct (inv_buffers _ Hi i (proj1 Hl) (proj1 (proj2 Hl))) as [_ Hown Hprep _ _].
    revert Hh'. unfold buffer_of.
    destruct o; cbn [perform]; [rewrite (mark_run w p i Hi Hm)|rewrite (to_device_run w p i Hi Hm)|
      rewrite (to_cpu_run w p i Hi Hm)|].
    1-3: destruct Hown as [Ho|Ho]; rewrite Ho; cbn; [|try specialize (Hprep Ho)];
         destruct (r_initialized (record_of w i)) eqn:Ei; cbn; intros Hh'; try done;
         (split; [done|]); rewrite ?(buffer_at_live w p i) by done;
         rewrite ?updated_buffer by (done || apply Hl); unfold buffer_of, prepared, with_owner;
         cbn; rewrite ?Ho, ?Ei; done.
    destruct (release_run w p i Hi Hm) as [[Ho ->]|(Ho & s & slot & Hg & ->)]; cbn; intros Hh'.
    + destruct Hown as [|Ho']; [done|]. rewrite (buffer_at_live w p i) by done.
      unfold buffer_of. rewrite Ho'. done.
    + rewrite Ho. cbn. rewrite buffer_at_dead; [by destruct (r_initialized _)|apply Hh'|].
      intros j (Hj & Ha & Hp). rewrite record_of_aset in * by (done || apply Hl || lia).
      destruct (i =? j) eqn:E; [done|]. bool_hyps. apply E. by apply (hn_apart _ Hh i j p).
  - pose proof (validate_dead w p Hi Hd) as Hv. rewrite (buffer_at_dead w p Hi Hd).
    destruct o; cbn [perform]; unfold dma_mark_initialized, dma_transfer_to_device,
      dma_transfer_to_cpu, dma_release; rewrite ?Hs, ?Hv; cbn; try (by rewrite buffer_at_dead).
    destruct (h_active _); cbn; by rewrite buffer_at_dead.
Qed.

Lemma device_owned_iff p w :
  honest w ->
  dma_is_device_owned (Some p) w = bool_decide (buffer_at w p = Some DeviceOwned).
Proof.
  intros Hh. pose proof (hn_inv _ Hh) as Hi. unfold dma_is_device_owned.
  destruct (live_or_dead w p Hi) as [[i Hl]|Hd].
  - pose proof (matches_validate w p i Hi (conj Hl (hn_match _ Hh i p Hl))) as [-> ->].
    rewrite (buffer_at_live w p i) by done. cbn. unfold buffer_of.
    destruct (inv_buffers _ Hi i (proj1 Hl) (proj1 (proj2 Hl))) as [_ [Ho|Ho] Hprep _ _];
      rewrite Ho; [by destruct (r_initialized _)|]. by rewrite Hprep.
  - by rewrite (validate_dead w p Hi Hd), (buffer_at_dead w p Hi Hd).
Qed.

(** ** The audit *)

Lemma for_each_fold {A S R} (g : S -> A -> S) (body : A -> S -> ctl S R) l s :
  (forall x s, x ∈ l -> body x s = Next (g s x)) -> for_each body l s = Next (foldl g s l).
Proof.
  revert s. induction l as [|x l IH]; intros s H; [done|]. cbn.
  rewrite H by set_solver. apply IH. set_solver.
Qed.

Definition tally (counts : Z * Z * Z) (r : dma_record) : Z * Z * Z :=
  let '(active, cpu_owned, device_owned) := counts in
  (active + (if r.(r_active) then 1 else 0),
   cpu_owned + (if owned_by DMA_OWNER_CPU r then 1 else 0),
   device_owned + (if owned_by DMA_OWNER_DEVICE r then 1 else 0)).

Lemma tally_counts l a c d :
  foldl tally (a, c, d) l =
  (a + countb r_active l, c + countb (owned_by DMA_OWNER_CPU) l,
   d + countb (owned_by DMA_OWNER_DEVICE) l).
Proof.
  revert a c d. induction l as [|r l IH]; intros a c d; cbn [foldl countb tally];
    [by rewrite !Z.add_0_r|]. rewrite IH. by rewrite !Z.add_assoc.
Qed.

Lemma owners_partition w :
  inv w -> countb (owned_by DMA_OWNER_CPU) w.(records) +
    countb (owned_by DMA_OWNER_DEVICE) w.(records) = countb r_active w.(records).
Proof.
  intros Hi.
  assert (Forall (fun r => r.(r_active) = true ->
    r.(r_owner) = DMA_OWNER_CPU \/ r.(r_owner) = DMA_OWNER_DEVICE) w.(records)) as H.
  { apply Forall_forall. intros r (i & Hr & <-)%(elem_of_aget no_record) Ha.
    rewrite (inv_length _ Hi) in Hr. apply (inv_buffers _ Hi i Hr Ha). }
  induction H as [|r l Hr _ IH]; [done|]. cbn [countb].
  assert ((if owned_by DMA_OWNER_CPU r then 1 else 0) +
    (if owned_by DMA_OWNER_DEVICE r then 1 else 0) = if r.(r_active) then 1 else 0); [|lia].
  unfold owned_by. destruct (r_active r); [|done]. by destruct Hr as [-> | ->].
Qed.

Lemma verify_honest w :
  honest w -> w.(state).(st_active) = true -> dma_verify w = DMA_STATUS_OK.
Proof.
  intros Hh Hs. pose proof (hn_inv _ Hh) as Hi. unfold dma_verify. rewrite Hs. cbn [negb].
  rewrite (for_each_fold (fun x i => tally x (record_of w i))).
  - rewrite (foldl_aget no_record tally w.(records)) by (rewrite (inv_length _ Hi); done).
    rewrite firstn_all2 by (pose proof (inv_length _ Hi); unfold zlength in *; lia).
    rewrite tally_counts. cbn [fst snd]. rewrite !Z.add_0_l.
    rewrite (inv_count _ Hi), (inv_cpu _ Hi), (inv_device _ Hi), owners_partition by done.
    by rewrite !Z.eqb_refl.
  - intros i [[a c] d] Hr%elem_of_seqZ. unfold verify_record, tally, owned_by.
    destruct (r_active (record_of w i)) eqn:Ha; cbn; [|by rewrite !Z.add_0_r].
    assert (0 <= i < FRAME_CONTIGUOUS_ALLOCATION_CAPACITY) as Hr' by lia.
    destruct (inv_buffers _ Hi i Hr' Ha) as [[p Hp] Ho _ _ _].
    assert (live w p i) as Hl by done.
    rewrite Hp. destruct (matches_validate w p i Hi (conj Hl (hn_match _ Hh i p Hl))) as [-> _].
    cbn. destruct Ho as [-> | ->]; cbn; by rewrite ?Z.add_0_r.
Qed.

(** In every state calls can reach, whatever callers write into
    their handles and whatever else the frame allocator is asked, each recorded
    buffer is a run of whole frames above frame 0 that the frame allocator
    counts as allocated, no two buffers share a frame, a device only has
    prepared buffers, and the counters are the numbers of buffers. *)
Theorem dma_buffers_sound w :
  reachable w ->
  (forall i, 0 <= i < FRAME_CONTIGUOUS_ALLOCATION_CAPACITY ->
     (record_of w i).(r_active) = true ->
     exists first n, (record_of w i).(r_frames).(al_physical_base) = first * SAPOTE_PAGE_SIZE /\
       (record_of w i).(r_frames).(al_page_count) = n /\
       1 <= first /\ 1 <= n /\ first + n <= FRAME_COUNT /\
       (forall g, first <= g < first + n -> allocated w.(frames) g = true) /\
       ((record_of w i).(r_owner) = DMA_OWNER_DEVICE -> (record_of w i).(r_initialized) = true)) /\
  (forall i j g, 0 <= i < FRAME_CONTIGUOUS_ALLOCATION_CAPACITY ->
     0 <= j < FRAME_CONTIGUOUS_ALLOCATION_CAPACITY ->
     (record_of w i).(r_active) = true -> (record_of w j).(r_active) = true ->
     in_run (record_of w i) g -> in_run (record_of w j) g -> i = j) /\
  dma_get_state w = MkState (countb r_active w.(records))
    (countb (owned_by DMA_OWNER_CPU) w.(records))
    (countb (owned_by DMA_OWNER_DEVICE) w.(records)) w.(state).(st_active).
Proof.
  intros Hr. pose proof (dma_reachable_inv w Hr) as Hi. split_and!.
  - intros i Hri Ha. pose proof (inv_buffers _ Hi i Hri Ha) as [[p Hp] _ Hprep _ _].
    destruct (live_run w p i Hi) as (first & Hb & Hf & Hn & He & Hal); [done|].
    exists first, (al_page_count (r_frames (record_of w i))). by split_and!.
  - intros i j g. by apply runs_disjoint.
  - unfold dma_get_state. rewrite <- (inv_count _ Hi), <- (inv_cpu _ Hi), <- (inv_device _ Hi).
    by destruct (state w).
Qed.

(** C16 (safety): a buffer handed to a device stays with the device.  Through any
    sequence of calls and of writes to handles that does not contain
    dma_transfer_to_cpu on the buffer's own handle, the record stays as it is,
    its frames stay allocated, and releasing one of them alone is refused. *)
Theorem device_buffer_held w os w' i :
  reachable w -> steps w os w' ->
  0 <= i < FRAME_CONTIGUOUS_ALLOCATION_CAPACITY ->
  (record_of w i).(r_active) = true -> (record_of w i).(r_owner) = DMA_OWNER_DEVICE ->
  OpToCpu (record_of w i).(r_handle) ∉ os ->
  record_of w' i = record_of w i /\
  forall g, in_run (record_of w i) g ->
    allocated w'.(frames) g = true /\
    frame_release (g * SAPOTE_PAGE_SIZE) w'.(frames) = (FRAME_STATUS_FRAME_IN_USE, w'.(frames)).
Proof.
  intros Hreach Hs Hr Ha Ho Hno. pose proof (dma_reachable_inv w Hreach) as Hi. clear Hreach.
  assert (record_of w' i = record_of w i) as E.
  { revert Ha Ho Hno. induction Hs as [|o os w w' Hok Hs IH]; intros Ha Ho Hno; [done|].
    assert (record_of (run o w) i = record_of w i) as E.
    { apply device_step; try done. intros ->. apply Hno. left. }
    rewrite <- E. apply IH; rewrite ?E; try done; [by apply run_inv|].
    intros Hin. apply Hno. by right. }
  split; [done|]. intros g Hg. pose proof (dma_steps_inv _ _ _ Hi Hs) as Hi'.
  rewrite <- E in Ha, Hg. by apply (run_frame_release w' i g).
Qed.

(** C17 (refinement): as long as callers leave live handles alone, the four
    operations on a handle are the ownership machine [promised]: the status and
    the buffer's new state are the promised ones, every other buffer is
    untouched, dma_is_device_owned reads the new state, and the audit accepts
    the result. *)
Theorem ownership_refined o p w :
  disciplined w -> w.(state).(st_active) = true ->
  let '(st, w') := perform o (Some p) w in
  (st, buffer_at w' p) = promised o (buffer_at w p) (handle_at w p).(h_active) /\
  (forall q, q <> p -> buffer_at w' q = buffer_at w q) /\
  dma_is_device_owned (Some p) w' = bool_decide (buffer_at w' p = Some DeviceOwned) /\
  dma_verify w' = DMA_STATUS_OK.
Proof.
  intros Hd Hs. pose proof (disciplined_honest w Hd) as Hh. pose proof (hn_inv _ Hh) as Hi.
  destruct (perform_change o p w Hi) as [b Hc]. pose proof (honest_change _ _ _ _ Hh Hc) as Hh'.
  pose proof (perform_promised o p w Hh Hs) as [H1 H2].
  assert (((perform o (Some p) w).2).(state).(st_active) = true) as Hs'.
  { by destruct Hc. }
  destruct (perform o (Some p) w) as [st w']. cbn in *. split_and!.
  - rewrite H1, H2. by destruct (promised _ _ _).
  - intros q Hq. by eapply change_elsewhere.
  - by apply device_owned_iff.
  - by apply verify_honest.
Qed.

(** ** Allocation as callers see it *)

Lemma taken_elsewhere tr rq p w w' f first i q :
  honest w -> w.(frames).(next_contiguous_identifier) < UINT64_MAX ->
  (forall j, ~ live w p j) -> buffer_taken tr rq p w w' f first i -> q <> p ->
  buffer_at w' q = buffer_at w q.
Proof.
  intros Hh Hlt Hd Hb Hq. pose proof (honest_taken _ _ _ _ _ _ _ _ Hh Hlt Hd Hb) as Hh'.
  rewrite (bt_world _ _ _ _ _ _ _ _ Hb) in *.
  apply put_elsewhere; try done; [apply Hb|]. intros (_ & Ha & _).
  by rewrite (bt_free _ _ _ _ _ _ _ _ Hb) in Ha.
Qed.

(** [dma_allocate] on every branch.  When it succeeds the caller's
    handle describes the run the frame allocator's first fit chose, which is
    mapped one to one as writable write-back memory, and the buffer is the
    processor's and unprepared.  When it fails, for want of frames or records
    or because the memory is not identity mapped, the frames and their figures
    are as before, no buffer appears, and the handle is not active. *)
Theorem dma_allocate_exact tr rq p w :
  disciplined w -> dma_request_ok rq ->
  w.(frames).(next_contiguous_identifier) < UINT64_MAX ->
  (forall i, ~ live w p i) ->
  let '(st, w') := dma_allocate tr (Some rq) (Some p) w in
  (forall q, q <> p -> buffer_at w' q = buffer_at w q) /\
  (st = DMA_STATUS_OK ->
     exists f first slot, contiguous_taken w.(frames) (frame_request rq) f w'.(frames) first slot /\
       handle_at w' p = MkHandle f f.(al_physical_base)
         (rq.(dr_page_count) * SAPOTE_PAGE_SIZE) DMA_OWNER_CPU false true /\
       identity_mapped tr f.(al_physical_base) (rq.(dr_page_count) * SAPOTE_PAGE_SIZE) = true /\
       buffer_at w' p = Some Unprepared) /\
  (st <> DMA_STATUS_OK ->
     same_frames w.(frames) w'.(frames) /\ w'.(state) = w.(state) /\
     w'.(records) = w.(records) /\ buffer_at w' p = None /\
     (handle_at w' p).(h_active) = false).
Proof.
  intros Hdis Hrq Hlt Hd. pose proof (disciplined_honest w Hdis) as Hh.
  pose proof (hn_inv _ Hh) as Hi. pose proof (allocate_run tr rq p w Hi Hrq Hlt) as H.
  destruct (dma_allocate _ _ _ w) as [st w'].
  destruct H as [(-> & f & first & i & Hb)|[(-> & f & s1 & s2 & first & slot & slot' & Ht & Hn & Hg & _ & ->)|[Hst ->]]].
  - split; [intros q Hq; by eapply taken_elsewhere|]. split; [|done]. intros _.
    destruct (bt_taken _ _ _ _ _ _ _ _ Hb) as [slot Ht].
    pose proof (honest_taken _ _ _ _ _ _ _ _ Hh Hlt Hd Hb) as Hh'.
    destruct (buffer_taken_live _ _ _ _ _ _ _ _ Hi Hb) as [[Hl Eh] Er].
    assert (u64 (al_page_count f * SAPOTE_PAGE_SIZE) = dr_page_count rq * SAPOTE_PAGE_SIZE) as Eb.
    { destruct (live_run w' p i (hn_inv _ Hh') Hl) as (fi & _ & Hf & Hc & He & _).
      pose proof frame_count_range. rewrite Er in *. cbn in *.
      rewrite (ct_handle _ _ _ _ _ _ Ht) in *. cbn in *.
      apply u64_small. unfold is_u64, UINT64_MAX, SAPOTE_PAGE_SIZE. lia. }
    exists f, first, slot. rewrite Eh, Er, <- Eb. split_and!; try done; [apply Hb|].
    rewrite (buffer_at_live w' p i Hh' Hl), Er. done.
  - split_and!.
    + intros q Hq. apply buffer_at_kept; try done.
      apply (honest_write (set_frames w s2) p (released_handle f)); [|done].
      apply honest_frames; [done|]. by eapply inv_returned.
    + done.
    + intros _. split_and!; try done.
      * eapply (taken_given_same w.(frames)); [apply Hi|done|done].
      * exact (buffer_at_dead w p Hi Hd).
      * by rewrite handle_at_insert, decide_True.
  - split_and!; [done|by destruct Hst as [-> | ->]|]. intros _.
    split_and!; try done; [exact (buffer_at_dead w p Hi Hd)|].
    unfold set_handle. by rewrite handle_at_insert, decide_True.
Qed.

(** ** The self test *)

(** The run the self test asks for. *)
Definition self_test_request : dma_request := MkDmaRequest 2 (SAPOTE_PAGE_SIZE * 2) UINT32_MAX.

Lemma allocate_refused tr rq p w i :
  inv w -> w.(state).(st_active) = true ->
  find_index (fun r => negb r.(r_active)) w.(records) = Some i -> dma_request_ok rq ->
  (forall d, (frame_allocate_contiguous (Some (frame_request rq)) (Some d) w.(frames)).1.1
     <> FRAME_STATUS_OK) ->
  dma_allocate tr (Some rq) (Some p) w =
  (DMA_STATUS_FRAME_ALLOCATION_FAILURE, set_handle w p cleared_handle).
Proof.
  intros Hi Hs Hf [] Hbad. unfold dma_allocate. cbn [state set_handle records frames].
  rewrite Hs, Hf. cbn [negb]. fold (frame_request rq).
  set (d := h_frames _). specialize (Hbad d).
  pose proof (frame_allocate_contiguous_spec w.(frames) (frame_request rq) d (inv_frames _ Hi)
    (inv_ready _ Hi)) as H.
  destruct (frame_allocate_contiguous _ _ _) as [[fs fr] s]. cbn in Hbad.
  destruct H as (H & _); [by split|]. destruct (H Hbad) as [-> ->].
  rewrite bool_decide_false by done. cbn. unfold set_frames, set_handle. cbn.
  by rewrite insert_insert_eq.
Qed.

(** The requests the self test expects to be refused. *)
Lemma bad_requests_refused w d :
  inv w ->
  (frame_allocate_contiguous (Some (MkRequest 0 (SAPOTE_PAGE_SIZE * 2) UINT32_MAX)) (Some d)
     w.(frames)).1.1 <> FRAME_STATUS_OK /\
  (frame_allocate_contiguous (Some (MkRequest 1 (SAPOTE_PAGE_SIZE + 1) UINT32_MAX)) (Some d)
     w.(frames)).1.1 <> FRAME_STATUS_OK /\
  (frame_allocate_contiguous (Some (MkRequest 1 (early_limit * 2) UINT32_MAX)) (Some d)
     w.(frames)).1.1 <> FRAME_STATUS_OK.
Proof.
  intros Hi. unfold frame_allocate_contiguous. rewrite (inv_ready _ Hi). cbn [negb].
  split_and!; [done|done|]. cbn [rq_page_count rq_alignment]. change (1 =? 0) with false.
  cbv iota. split_if; [done|]. pose proof early_limit_low.
  unfold SAPOTE_LOW_MEMORY_RESERVATION in *.
  assert ((early_limit * 2 >? early_limit) = true) as -> by (rewrite Z.gtb_lt; lia). done.
Qed.

Lemma updated_matches w p i r :
  inv w -> live w p i -> r.(r_active) = true -> r.(r_handle) = Some p ->
  matches (updated w p i r) p i /\ record_of (updated w p i r) i = r.
Proof.
  intros Hi (Hr & _) Ha Hp. unfold matches, live, updated.
  rewrite record_of_aset, Z.eqb_refl by (done || lia).
  by rewrite handle_at_insert, decide_True.
Qed.

(** The second half of the self test, on the buffer it allocated. *)
Lemma self_test_lifecycle w a b i f :
  honest w -> a <> b -> matches w a i -> record_of w i = fresh_record a f ->
  (forall j, ~ live w b j) ->
  exists w8 w9 w10 w13 w15,
    dma_transfer_to_device (Some a) w = (DMA_STATUS_NOT_PREPARED, w) /\
    dma_mark_initialized (Some a) w = (DMA_STATUS_OK, w8) /\
    dma_transfer_to_device (Some a) w8 = (DMA_STATUS_OK, w9) /\
    w10 = set_handle w9 b (handle_at w9 a) /\
    dma_is_device_owned (Some a) w10 = true /\ dma_is_device_owned (Some b) w10 = false /\
    dma_transfer_to_device (Some a) w10 = (DMA_STATUS_WRONG_OWNER, w10) /\
    dma_mark_initialized (Some a) w10 = (DMA_STATUS_WRONG_OWNER, w10) /\
    dma_release (Some a) w10 = (DMA_STATUS_WRONG_OWNER, w10) /\
    dma_transfer_to_cpu (Some a) w10 = (DMA_STATUS_OK, w13) /\
    dma_transfer_to_cpu (Some a) w13 = (DMA_STATUS_WRONG_OWNER, w13) /\
    dma_release (Some a) w13 = (DMA_STATUS_OK, w15) /\
    dma_release (Some a) w15 = (DMA_STATUS_DOUBLE_FREE, w15) /\
    honest w15 /\ w15.(state).(st_active) = true /\
    w15.(records) = aset w.(records) i (released (fresh_record a f)) /\
    exists slot, contiguous_given w.(frames) f (released_run f) w15.(frames) slot.
Proof.
  intros Hh Hab Hm Er Hdb. pose proof (hn_inv _ Hh) as Hi. pose proof Hm as [Hl _].
  pose proof (mark_run w a i Hi Hm) as H8. rewrite Er in H8. cbn in H8.
  pose proof (change_mark w a Hi) as C8. rewrite H8 in C8. cbn [snd] in C8.
  destruct (updated_matches w a i (prepared (fresh_record a f)) Hi Hl) as [Hm8 E8]; [done..|].
  set (w8 := updated w a i _) in *. pose proof (honest_change _ _ _ _ Hh C8) as Hh8.
  pose proof (to_device_run w8 a i (hn_inv _ Hh8) Hm8) as H9. rewrite E8 in H9. cbn in H9.
  pose proof (change_device w8 a (hn_inv _ Hh8)) as C9. rewrite H9 in C9. cbn [snd] in C9.
  destruct (updated_matches w8 a i (with_owner (prepared (fresh_record a f)) DMA_OWNER_DEVICE)
    (hn_inv _ Hh8) (proj1 Hm8)) as [Hm9 E9]; [done..|].
  set (w9 := updated w8 a i _) in *. pose proof (honest_change _ _ _ _ Hh8 C9) as Hh9.
  assert (buffer_at w9 b = None) as Hb9.
  { rewrite (change_elsewhere _ _ _ _ b Hh8 C9), (change_elsewhere _ _ _ _ b Hh C8) by congruence.
    by apply buffer_at_dead. }
  assert (forall j, ~ live w9 b j) as Hd9.
  { intros j Hj. by rewrite (buffer_at_live w9 b j Hh9 Hj) in Hb9. }
  set (w10 := set_handle w9 b (handle_at w9 a)).
  assert (honest w10) as Hh10 by (by apply honest_write).
  assert (matches w10 a i) as Hm10 by (split; [apply Hm9|by apply Hh10, Hm9]).
  assert (record_of w10 i = record_of w9 i) as E10 by done. rewrite E9 in E10.
  pose proof (to_cpu_run w10 a i (hn_inv _ Hh10) Hm10) as H13. rewrite E10 in H13. cbn in H13.
  pose proof (change_cpu w10 a (hn_inv _ Hh10)) as C13. rewrite H13 in C13. cbn [snd] in C13.
  destruct (updated_matches w10 a i (with_owner (with_owner (prepared (fresh_record a f))
    DMA_OWNER_DEVICE) DMA_OWNER_CPU) (hn_inv _ Hh10) (proj1 Hm10)) as [Hm13 E13]; [done..|].
  set (w13 := updated w10 a i _) in *. pose proof (honest_change _ _ _ _ Hh10 C13) as Hh13.
  pose proof (change_release w13 a (hn_inv _ Hh13)) as C15.
  destruct (release_run w13 a i (hn_inv _ Hh13) Hm13) as [[Ho _]|(_ & s & slot & Hg & H15)];
    [by rewrite E13 in Ho|]. rewrite H15 in C15.
  pose proof (honest_change _ _ _ _ Hh13 C15) as Hh15. cbn [snd] in Hh15.
  eexists w8, w9, w10, w13, _. rewrite E13 in *. cbn in H15, Hg.
  split; [by rewrite (to_device_run w a i Hi Hm), Er|]. split; [done|]. split; [done|].
  split; [done|].
  split; [rewrite device_owned_iff by done; rewrite (buffer_at_live w10 a i) by (done || apply Hm10);
    by rewrite E10|].
  split; [rewrite device_owned_iff by done; by rewrite (Hb9 : buffer_at w10 b = None)|].
  split; [by rewrite (to_device_run w10 a i (hn_inv _ Hh10) Hm10), E10|].
  split; [by rewrite (mark_run w10 a i (hn_inv _ Hh10) Hm10), E10|].
  split; [destruct (release_run w10 a i (hn_inv _ Hh10) Hm10) as [[_ ->]|[Ho _]];
    [done|by rewrite E10 in Ho]|].
  split; [done|]. split; [by rewrite (to_cpu_run w13 a i (hn_inv _ Hh13) Hm13), E13|].
  split; [exact H15|].
  split; [unfold dma_release; cbn [state recounted move_counts st_active];
    rewrite handle_at_insert, decide_True by done; cbn;
    by rewrite (active_state w a i Hi Hl)|].
  split; [exact Hh15|]. split; [exact (active_state w a i Hi Hl)|].
  split; [|by exists slot]. unfold w13, w10, w9, w8, updated. cbn. unfold aset.
  by rewrite !list_insert_insert_eq.
Qed.

Lemma counts_restored w i r p :
  inv w -> 0 <= i < FRAME_CONTIGUOUS_ALLOCATION_CAPACITY ->
  (record_of w i).(r_active) = false -> r.(r_active) = false ->
  (forall r, r.(r_active) = false -> p r = false) ->
  countb p (aset w.(records) i r) = countb p w.(records).
Proof.
  intros Hi Hr Ha Ha' Hp. rewrite (countb_aset no_record) by (by rewrite (inv_length _ Hi)).
  fold (record_of w i). rewrite !Hp by done. lia.
Qed.

Lemma allocate_accepted tr rq p w i f s :
  w.(state).(st_active) = true ->
  find_index (fun r => negb r.(r_active)) w.(records) = Some i ->
  frame_allocate_contiguous (Some (frame_request rq)) (Some empty_allocation) w.(frames) =
    (FRAME_STATUS_OK, Some f, s) ->
  identity_mapped tr f.(al_physical_base) (u64 (f.(al_page_count) * SAPOTE_PAGE_SIZE)) = true ->
  (dma_allocate tr (Some rq) (Some p) w).1 = DMA_STATUS_OK /\
  handle_at (dma_allocate tr (Some rq) (Some p) w).2 p = handle_of (fresh_record p f).
Proof.
  intros Hs Hf Ha Hm. unfold dma_allocate.
  assert (handle_at (set_handle w p cleared_handle) p = cleared_handle) as ->.
  { unfold set_handle. by rewrite handle_at_insert, decide_True. }
  cbn [state set_handle records frames h_frames cleared_handle].
  rewrite Hs, Hf. cbn [negb]. fold (frame_request rq). rewrite Ha.
  rewrite bool_decide_true by done. cbn [negb from_option id]. rewrite Hm. split; [done|].
  unfold set_state, set_record, set_handle. cbn. by rewrite handle_at_insert, decide_True.
Qed.

(** The first half of the self test: refusals, then a fresh buffer. *)
Lemma self_test_allocates tr a w f s :
  honest w -> w.(state).(st_active) = true ->
  w.(frames).(next_contiguous_identifier) < UINT64_MAX -> (forall i, ~ live w a i) ->
  (exists i, 0 <= i < FRAME_CONTIGUOUS_ALLOCATION_CAPACITY /\ (record_of w i).(r_active) = false) ->
  frame_allocate_contiguous (Some (frame_request self_test_request)) (Some empty_allocation)
    w.(frames) = (FRAME_STATUS_OK, Some f, s) ->
  identity_mapped tr f.(al_physical_base) (2 * SAPOTE_PAGE_SIZE) = true ->
  let w0 := set_handle w a cleared_handle in
  dma_allocate tr (Some (MkDmaRequest 0 (SAPOTE_PAGE_SIZE * 2) UINT32_MAX)) (Some a) w =
    (DMA_STATUS_FRAME_ALLOCATION_FAILURE, w0) /\
  dma_allocate tr (Some (MkDmaRequest 1 (SAPOTE_PAGE_SIZE + 1) UINT32_MAX)) (Some a) w0 =
    (DMA_STATUS_FRAME_ALLOCATION_FAILURE, w0) /\
  dma_allocate tr (Some (MkDmaRequest 1 (early_limit * 2) UINT32_MAX)) (Some a) w0 =
    (DMA_STATUS_FRAME_ALLOCATION_FAILURE, w0) /\
  exists w6 first i slot, dma_allocate tr (Some self_test_request) (Some a) w0 =
    (DMA_STATUS_OK, w6) /\ buffer_taken tr self_test_request a w0 w6 f first i /\
    contiguous_taken w.(frames) (frame_request self_test_request) f w6.(frames) first slot.
Proof.
  intros Hh Hs Hlt Hd [j [Hj Hja]] Ha Hm. cbv zeta. pose proof (hn_inv _ Hh) as Hi.
  destruct (find_index (fun r => negb r.(r_active)) w.(records)) as [i|] eqn:F; cycle 1.
  { apply (find_index_None_aget no_record _ _ j) in F; [|by rewrite (inv_length _ Hi)].
    cbv beta in F. fold (record_of w j) in F. by rewrite Hja in F. }
  assert (forall w1, w1.(records) = w.(records) -> w1.(state) = w.(state) ->
    w1.(frames) = w.(frames) -> inv w1 -> forall rq, dma_request_ok rq ->
    (forall d, (frame_allocate_contiguous (Some (frame_request rq)) (Some d) w1.(frames)).1.1
       <> FRAME_STATUS_OK) ->
    dma_allocate tr (Some rq) (Some a) w1 =
    (DMA_STATUS_FRAME_ALLOCATION_FAILURE, set_handle w1 a cleared_handle)) as Href.
  { intros w1 Er Es Ef Hi1 rq Hrq Hbad. apply (allocate_refused tr rq a w1 i); try done.
    - by rewrite Es.
    - by rewrite Er. }
  set (w0 := set_handle w a cleared_handle).
  assert (honest w0) as Hh0 by (by apply honest_write).
  assert (set_handle w0 a cleared_handle = w0) as E0.
  { unfold w0, set_handle. cbn. by rewrite insert_insert_eq. }
  assert (0 < early_limit <= 4294967296) as Hlim.
  { pose proof early_limit_low. pose proof early_limit_high.
    unfold SAPOTE_LOW_MEMORY_RESERVATION, Multiboot2.SAPOTE_EARLY_PHYSICAL_LIMIT in *. lia. }
  split_and!.
  - apply Href; try done. intros d. apply (bad_requests_refused w d Hi).
  - rewrite <- E0 at 2. apply Href; try done; [apply Hh0|].
    intros d. apply (bad_requests_refused w d Hi).
  - rewrite <- E0 at 2. apply Href; try done; [apply Hh0| |].
    + split; cbn; unfold is_u64, UINT64_MAX, UINT32_MAX; lia.
    + intros d. apply (bad_requests_refused w d Hi).
  - pose proof (allocate_run tr self_test_request a w0 (hn_inv _ Hh0) ltac:(by split) Hlt) as H.
    pose proof (allocate_accepted tr self_test_request a w0 i f s Hs F Ha) as Hok.
    pose proof (frame_allocate_contiguous_spec w.(frames) (frame_request self_test_request)
      empty_allocation (inv_frames _ Hi) (inv_ready _ Hi)) as Hsp.
    rewrite Ha in Hsp. destruct Hsp as (_ & _ & Hsp); [by split|].
    destruct (Hsp eq_refl) as (f' & first' & slot' & [= <-] & Ht').
    assert (al_page_count f = 2) as E2 by (by rewrite (ct_handle _ _ _ _ _ _ Ht')).
    rewrite E2 in Hok. specialize (Hok Hm).
    destruct (dma_allocate _ _ _ w0) as [st w6]. cbn in Hok. destruct Hok as [-> Hh6].
    destruct H as [(_ & f1 & first & k & Hb)|[(? & _)|[[?|?] _]]]; try done.
    destruct (buffer_taken_live _ _ _ _ _ _ _ _ (hn_inv _ Hh0) Hb) as [[_ E6] Er].
    assert (f1 = f) as -> by (rewrite E6, Er in Hh6; by injection Hh6).
    destruct (bt_taken _ _ _ _ _ _ _ _ Hb) as [slot Ht]. by exists w6, first, k, slot.
Qed.

(** What the self test reads from the handle it was given. *)
Lemma self_test_handle s f s' first slot :
  contiguous_taken s (frame_request self_test_request) f s' first slot ->
  PhysicalMemory.inv s ->
  let h := handle_of (fresh_record 0 f) in
  (Z.land h.(h_frames).(al_physical_base) (u64 (self_test_request.(dr_alignment) - 1)) =? 0) = true /\
  (u64 (h.(h_frames).(al_physical_base) + h.(h_byte_length) - 1) >?
     self_test_request.(dr_maximum_physical_address)) = false.
Proof.
  intros Ht Hi. cbn. pose proof (ct_fits _ _ _ _ _ _ Ht) as (H0 & Hle & Hal & _).
  pose proof (request_frames_max (frame_request self_test_request)). pose proof frame_count_range.
  unfold request_frames in Hle. rewrite (ct_handle _ _ _ _ _ _ Ht). cbn in *.
  unfold SAPOTE_PAGE_SIZE, UINT32_MAX in *.
  assert (Z.min early_limit (4294967295 + 1) / 4096 <= 1048576).
  { change 1048576 with ((4294967295 + 1) / 4096). apply Z.div_le_mono; lia. }
  change (4096 * 2) with (2 ^ 13) in *. split.
  - rewrite (u64_small (2 ^ 13 - 1)) by done. rewrite land_low_mask by done.
    by apply Z.eqb_eq.
  - rewrite (u64_small (2 * 4096)) by done.
    rewrite u64_small by (unfold is_u64, UINT64_MAX; lia).
    rewrite Z.gtb_ltb. apply Z.ltb_ge. lia.
Qed.

(** The DMA self test passes.  In a state with a free record, an
    unbroken, aligned pair of frames below 4 GiB that is identity mapped, and
    two stack addresses no live handle occupies, dma_self_test returns true,
    and the frames and the other buffers are as it found them. *)
Theorem dma_self_test_passes tr a b w f s :
  disciplined w -> w.(state).(st_active) = true ->
  w.(frames).(next_contiguous_identifier) < UINT64_MAX -> a <> b ->
  (forall i, ~ live w a i) -> (forall i, ~ live w b i) ->
  (exists i, 0 <= i < FRAME_CONTIGUOUS_ALLOCATION_CAPACITY /\ (record_of w i).(r_active) = false) ->
  frame_allocate_contiguous (Some (frame_request self_test_request)) (Some empty_allocation)
    w.(frames) = (FRAME_STATUS_OK, Some f, s) ->
  identity_mapped tr f.(al_physical_base) (2 * SAPOTE_PAGE_SIZE) = true ->
  let '(passed, w') := dma_self_test tr a b w in
  passed = true /\ same_frames w.(frames) w'.(frames) /\
  forall q, buffer_at w' q = buffer_at w q.
Proof.
  intros Hdis Hs Hlt Hab Hda Hdb Hfree Ha Hm.
  pose proof (disciplined_honest w Hdis) as Hh. pose proof (hn_inv _ Hh) as Hi.
  destruct (self_test_allocates tr a w f s Hh Hs Hlt Hda Hfree Ha Hm)
    as (E3 & E4 & E5 & w6 & first & i & slot & E6 & Hb & Ht).
  set (w0 := set_handle w a cleared_handle) in *.
  assert (honest w0) as Hh0 by (by apply honest_write).
  pose proof (honest_taken _ _ _ _ _ _ _ _ Hh0 Hlt Hda Hb) as Hh6.
  destruct (buffer_taken_live _ _ _ _ _ _ _ _ (hn_inv _ Hh0) Hb) as [Hm6 Er6].
  assert (forall j, ~ live w6 b j) as Hdb6.
  { intros j Hj. pose proof (taken_elsewhere _ _ _ _ _ _ _ _ b Hh0 Hlt Hda Hb ltac:(congruence)) as E.
    rewrite (buffer_at_live w6 b j Hh6 Hj) in E. rewrite buffer_at_dead in E; [done|apply Hh0|done]. }
  destruct (self_test_lifecycle w6 a b i f Hh6 Hab Hm6 Er6 Hdb6)
    as (w8 & w9 & w10 & w13 & w15 & E7 & E8 & E9 & -> & E10 & E10' & E11 & E12 & E12' & E13 &
        E14 & E15 & E16 & Hh15 & Hs15 & Hr15 & slot' & Hg).
  assert (records w15 = aset w.(records) i (released (fresh_record a f))) as Hrec.
  { rewrite Hr15, (bt_world _ _ _ _ _ _ _ _ Hb). cbn. unfold aset. by rewrite list_insert_insert_eq. }
  pose proof (bt_record _ _ _ _ _ _ _ _ Hb) as Hri.
  pose proof (bt_free _ _ _ _ _ _ _ _ Hb : (record_of w i).(r_active) = false) as Hfi.
  assert (forall p, (forall r, r.(r_active) = false -> p r = false) ->
    countb p w15.(records) = countb p w.(records)) as Hc.
  { intros p Hp. rewrite Hrec. by apply counts_restored. }
  pose proof (hn_inv _ Hh15) as Hi15.
  assert (dma_self_test tr a b w = (true, w15)) as ->.
  { assert (dma_allocate tr None (Some a) w = (DMA_STATUS_NULL_ARGUMENT, w)) as E1 by done.
    assert (dma_allocate tr (Some self_test_request) None w = (DMA_STATUS_NULL_ARGUMENT, w))
      as E2 by done.
    unfold dma_self_test. fold self_test_request. rewrite Hs, E1. cbn [negb].
    rewrite bool_decide_true by done. cbn [negb]. rewrite E2.
    rewrite bool_decide_true by done. cbn [negb]. rewrite E3.
    rewrite bool_decide_true by done. cbn [negb]. rewrite E4.
    rewrite bool_decide_true by done. cbn [negb]. rewrite E5.
    rewrite bool_decide_true by done. cbn [negb]. rewrite E6.
    destruct (self_test_handle _ _ _ _ _ Ht (inv_frames _ Hi)) as [Eal Ebd].
    assert (handle_at w6 a = handle_of (fresh_record 0 f)) as -> by (by destruct Hm6 as [_ ->]; rewrite Er6).
    rewrite Eal, Ebd. cbn [negb orb is_ok]. rewrite E7, E8, E9. cbn [negb orb is_ok].
    rewrite E10, E10', E11, E12, E12', E13, E14, E15, E16.
    change (is_ok DMA_STATUS_OK) with true. rewrite !bool_decide_true by done. cbn [negb orb].
    rewrite (inv_count _ Hi15), (inv_cpu _ Hi15), (inv_device _ Hi15), !Hc
      by (done || (intros r Hr; unfold owned_by; by rewrite Hr)).
    rewrite (inv_count _ Hi), (inv_cpu _ Hi), (inv_device _ Hi), !Z.eqb_refl.
    by rewrite (verify_honest w15). }
  split_and!; [done|by eapply (taken_given_same w.(frames)); [apply Hi|done|done]|].
  intros q. apply buffer_at_kept; try done; intros j (Hj & Haj & Hq); unfold live, record_of in *;
    rewrite ?Hrec, ?aget_aset in * by (rewrite ?(inv_length _ Hi); done || lia);
    destruct (i =? j) eqn:E; bool_hyps; subst; try done. by rewrite Haj in Hfi.
Qed.
End invariant.

(** * A machine the theorems apply to *)

Definition sample_translate (a : Z) : paging_status * paging_translation :=
  (PAGING_STATUS_OK, MkTranslation a PAGING_WRITE PAGING_MEMORY_WRITE_BACK 1 false).

Definition sample_dma : dma :=
  MkDma (MkState 0 0 0 false)
    (replicate (Z.to_nat FRAME_CONTIGUOUS_ALLOCATION_CAPACITY) no_record) ∅ sample_state.

Definition sample_buffer_request : dma_request := MkDmaRequest 3 0x4000 0xffffffff.

(** Four steps: the file is initialized, a buffer is allocated with its handle at
    0x9000, prepared and given to a device. *)
Definition sample_ready : dma := @run small_layout OpInitialize sample_dma.
Definition sample_allocate : op :=
  OpAllocate sample_translate (Some sample_buffer_request) (Some 0x9000).
Definition sample_taken : dma := @run small_layout sample_allocate sample_ready.
Definition sample_prepared : dma := @run small_layout (OpMark (Some 0x9000)) sample_taken.
Definition sample_device : dma := @run small_layout (OpToDevice (Some 0x9000)) sample_prepared.

Lemma sample_start : @start small_layout sample_dma.
Proof.
  split; [reflexivity|reflexivity|exact sample_reachable|exact sample_initialized| |by vm_compute].
  destruct sample_ids_fresh as [Hu Hf]. split; [by vm_compute| |exact Hu].
  intros i Hi. unfold record_at. cbn [frames sample_dma].
  assert (sample_state.(contiguous_records) =
    replicate (Z.to_nat FRAME_CONTIGUOUS_ALLOCATION_CAPACITY) empty_record) as ->
    by (vm_compute; reflexivity).
  rewrite aget_replicate; [done|]. unfold FRAME_CONTIGUOUS_ALLOCATION_CAPACITY in *. lia.
Qed.

Lemma sample_buffer_request_ok : dma_request_ok sample_buffer_request.
Proof. by split. Qed.

Lemma sample_ids_left : sample_ready.(frames).(next_contiguous_identifier) < UINT64_MAX.
Proof. by vm_compute. Qed.

Lemma sample_ready_dead p i : ~ live sample_ready p i.
Proof.
  intros (Hi & Ha & _). unfold record_of in Ha.
  assert (sample_ready.(records) =
    replicate (Z.to_nat FRAME_CONTIGUOUS_ALLOCATION_CAPACITY) no_record) as E
    by (vm_compute; reflexivity).
  rewrite E, aget_replicate in Ha; [done|].
  unfold FRAME_CONTIGUOUS_ALLOCATION_CAPACITY in *. lia.
Qed.

Lemma sample_ready_disciplined : @disciplined small_layout sample_ready.
Proof. apply (@disciplined_step small_layout OpInitialize); [apply disciplined_start, sample_start|done..]. Qed.

Lemma sample_device_disciplined : @disciplined small_layout sample_device.
Proof.
  unfold sample_device, sample_prepared, sample_taken, sample_allocate.
  do 2 (apply disciplined_step; [|done|done]).
  apply disciplined_step; [exact sample_ready_disciplined| |].
  - split; [exact sample_buffer_request_ok|exact sample_ids_left].
  - intros i. apply sample_ready_dead.
Qed.

Lemma disciplined_reachable {L : PhysicalLayout} w : disciplined w -> reachable w.
Proof. induction 1; [by apply reachable_start|by apply reachable_step]. Qed.

Lemma dma_buffers_sound_witness :
  exists first n, (record_of sample_device 0).(r_frames).(al_physical_base) =
      first * SAPOTE_PAGE_SIZE /\ 1 <= first /\
    (forall g, first <= g < first + n -> @allocated sample_device.(frames) g = true).
Proof.
  destruct (@dma_buffers_sound small_layout sample_device
    (disciplined_reachable _ sample_device_disciplined)) as (H & _ & _).
  destruct (H 0) as (first & n & Hb & _ & Hf & _ & _ & Hal & _); [by vm_compute|by vm_compute|].
  exists first, n. split; [exact Hb|]. split; [exact Hf|exact Hal].
Defined.

Lemma device_buffer_held_witness :
  record_of (@run small_layout (OpRelease (Some 0x9000)) sample_device) 0 =
  record_of sample_device 0.
Proof.
  apply (@device_buffer_held small_layout sample_device [OpRelease (Some 0x9000)]).
  - exact (disciplined_reachable _ sample_device_disciplined).
  - apply steps_cons; [exact I|apply steps_nil].
  - by vm_compute.
  - by vm_compute.
  - by vm_compute.
  - intros H. apply list_elem_of_singleton in H. discriminate H.
Defined.

Lemma ownership_refined_witness :
  (dma_release (Some 0x9000) sample_device).1 = DMA_STATUS_WRONG_OWNER.
Proof.
  assert (sample_device.(state).(st_active) = true) as Hs by (vm_compute; reflexivity).
  assert ((promised Release (buffer_at sample_device 0x9000)
    (handle_at sample_device 0x9000).(h_active)).1 = DMA_STATUS_WRONG_OWNER) as Hp
    by (vm_compute; reflexivity).
  pose proof (@ownership_refined small_layout Release 0x9000 sample_device
    sample_device_disciplined Hs) as H. revert H Hp. cbn [perform].
  generalize (promised Release (buffer_at sample_device 0x9000)
    (handle_at sample_device 0x9000).(h_active)).
  generalize (dma_release (Some 0x9000) sample_device).
  intros [st w'] [st' b] [H _] Hp. cbn [fst] in *. injection H as -> _. exact Hp.
Defined.

Lemma dma_allocate_exact_witness :
  buffer_at sample_taken 0x9000 = Some Unprepared.
Proof.
  pose proof (@dma_allocate_exact small_layout sample_translate sample_buffer_request 0x9000
    sample_ready sample_ready_disciplined sample_buffer_request_ok sample_ids_left
    (sample_ready_dead 0x9000)) as H.
  assert ((@dma_allocate small_layout sample_translate (Some sample_buffer_request) (Some 0x9000)
    sample_ready).1 = DMA_STATUS_OK) as Hst by (vm_compute; reflexivity).
  change sample_taken with (@dma_allocate small_layout sample_translate
    (Some sample_buffer_request) (Some 0x9000) sample_ready).2. revert H Hst.
  generalize (@dma_allocate small_layout sample_translate (Some sample_buffer_request)
    (Some 0x9000) sample_ready).
  intros [st w'] (_ & H & _) Hst. destruct (H Hst) as (f & first & slot & _ & _ & _ & Hb).
  exact Hb.
Defined.

Lemma dma_self_test_passes_witness :
  (@dma_self_test small_layout sample_translate 0x8000 0x9000 sample_ready).1 = true.
Proof.
  set (r := @frame_allocate_contiguous small_layout (Some (frame_request self_test_request))
              (Some empty_allocation) sample_ready.(frames)).
  assert (sample_ready.(state).(st_active) = true) as Hs by (vm_compute; reflexivity).
  assert (exists i, 0 <= i < FRAME_CONTIGUOUS_ALLOCATION_CAPACITY /\
    (record_of sample_ready i).(r_active) = false) as Hfree.
  { exists 0. split; [done|vm_compute; reflexivity]. }
  assert (r = (FRAME_STATUS_OK, Some (default empty_allocation r.1.2), r.2)) as Hr
    by (vm_compute; reflexivity).
  assert (identity_mapped sample_translate
    (al_physical_base (default empty_allocation r.1.2)) (2 * SAPOTE_PAGE_SIZE) = true) as Hm
    by (vm_compute; reflexivity).
  pose proof (@dma_self_test_passes small_layout sample_translate 0x8000 0x9000 sample_ready
    (default empty_allocation r.1.2) r.2 sample_ready_disciplined Hs sample_ids_left
    ltac:(done) (sample_ready_dead 0x8000) (sample_ready_dead 0x9000) Hfree Hr Hm) as H.
  revert H. generalize (@dma_self_test small_layout sample_translate 0x8000 0x9000 sample_ready).
  intros [b w'] [H _]. exact H.
Defined.

End Dma.
