(* ===== verification/Thread.v ===== *)
(** Kernel threads: src/src/kernel/thread.c and the context switch of
    src/src/arch/x86_64/thread.S it calls.

    The file-scope objects are the record [scheduler].  A thread that is not
    running is inside thread_switch_context, and what its stack holds decides
    how it goes on: [suspended] says it per slot, and a switch runs the incoming
    thread up to the point where its own code goes on.  An operation is
    therefore a function from the state in which one thread calls it to the
    state in which the running thread, this one or another, executes its own
    code again.  console_panic does not return: [Panics].

    Frames, page tables and interrupts are the interface [Heap.HeapPlatform]
    the heap also uses; the heap, the deadline timer, the clock, the stores to a
    stack and the registers a context switch moves are [ThreadPlatform].  The
    registers of a state are those at the call of thread_switch_context, or where
    it has returned; of RFLAGS only what a call preserves counts, the interrupt
    and direction flags. *)
From stdpp Require Import strings.
From S2P Require Import Prelude Heap.

Open Scope Z_scope.

Module Thread.
Import Heap(HeapPlatform, PlatformLaws, translation, Mapped, NotMapped, TranslateFails,
  PAGING_PAGE_SIZE, PAGING_WRITE, page_aligned, frame_allocate, frame_release, paging_map,
  paging_unmap, paging_translate, paging_is_active, cpu_interrupts_enabled, platform_ok,
  owned, law_allocate, law_release, law_map, law_unmap).


Definition THREAD_STACK_REGION : Z := 0x0000000800000000.
Definition THREAD_STACK_PAGES : Z := 4.
Definition THREAD_STACK_SIZE : Z := THREAD_STACK_PAGES * PAGING_PAGE_SIZE.
Definition THREAD_STACK_STRIDE : Z := THREAD_STACK_SIZE + PAGING_PAGE_SIZE.
Definition THREAD_MAX : Z := 8.
Definition THREAD_QUANTUM_NS : Z := 2000000.
Definition THREAD_ID_NONE : Z := 0.

Definition PREPARED_SLOTS : Z := 8.
Definition PREPARED_FRAME_SIZE : Z := PREPARED_SLOTS * 8.
Definition SLOT_R15 : Z := 0.
Definition SLOT_R14 : Z := 1.
Definition SLOT_R13 : Z := 2.
Definition SLOT_R12 : Z := 3.
Definition SLOT_RBX : Z := 4.
Definition SLOT_RBP : Z := 5.
Definition SLOT_RFLAGS : Z := 6.
Definition SLOT_RETURN : Z := 7.
Definition RFLAGS_RESERVED : Z := 0x0000000000000002.
Definition RFLAGS_INTERRUPT_ENABLE : Z := 0x0000000000000200.
Definition RFLAGS_DIRECTION : Z := 0x0000000000000400.
Definition INITIAL_RFLAGS : Z := Z.lor RFLAGS_RESERVED RFLAGS_INTERRUPT_ENABLE.

(** sizeof(struct thread) on x86_64. *)
Definition sizeof_thread : Z := 64.

Inductive thread_state : Type :=
| THREAD_STATE_UNUSED
| THREAD_STATE_READY
| THREAD_STATE_RUNNING
| THREAD_STATE_EXITED.

#[export] Instance thread_state_eq_dec : EqDecision thread_state.
Proof. solve_decision. Defined.

Inductive thread_status : Type :=
| THREAD_STATUS_OK
| THREAD_STATUS_NULL_ARGUMENT
| THREAD_STATUS_ALREADY_STARTED
| THREAD_STATUS_NOT_STARTED
| THREAD_STATUS_INTERRUPTS_ENABLED
| THREAD_STATUS_NO_HEAP
| THREAD_STATUS_NO_MEMORY
| THREAD_STATUS_NO_CAPACITY
| THREAD_STATUS_OUT_OF_FRAMES
| THREAD_STATUS_MAPPING_FAILURE
| THREAD_STATUS_BAD_IDENTIFIER
| THREAD_STATUS_NOT_THE_BOOT_THREAD
| THREAD_STATUS_THREADS_STILL_RUNNABLE
| THREAD_STATUS_NO_TIMER
| THREAD_STATUS_NO_QUANTUM
| THREAD_STATUS_ALREADY_PREEMPTIVE
| THREAD_STATUS_NOT_PREEMPTIVE
| THREAD_STATUS_VALIDATION_FAILURE.

#[export] Instance thread_status_eq_dec : EqDecision thread_status.
Proof. solve_decision. Defined.

(** Function and data pointers are addresses, 0 for NULL. *)
Record thread : Type := MkThread {
  stack_pointer : Z;
  stack_base : Z;
  stack_top : Z;
  identifier : Z;
  switches : Z;
  entry : Z;
  context : Z;
  tstate : thread_state;
  boot_thread : bool
}.

Record thread_state_report : Type := MkReport {
  rp_identifier : Z;
  rp_stack_base : Z;
  rp_stack_top : Z;
  rp_guard_page : Z;
  rp_switches : Z;
  rp_state : thread_state;
  rp_boot_thread : bool
}.

Record thread_system_state : Type := MkSystem {
  active : bool;
  capacity : Z;
  live : Z;
  ready : Z;
  exited : Z;
  current : Z;
  total_switches : Z;
  stack_frames : Z;
  preemptions : Z;
  preemptive : bool
}.

(** What the stack of a thread that is not running makes it do when resumed:
    enter its entry function through the trampoline, finish switch_to_next with
    the interrupt state it had, or go on in thread_exit. *)
Inductive control : Type :=
| AtTrampoline
| InSwitch (interrupted : bool)
| InExit.

Record scheduler : Type := MkScheduler {
  state : thread_system_state;
  threads : list thread;
  table : Z;
  current_slot : Z;
  next_identifier : Z;
  reschedule_pending : bool;
  quantum_identifier : Z;
  suspended : list control
}.

Definition no_thread : thread :=
  MkThread 0 0 0 THREAD_ID_NONE 0 0 0 THREAD_STATE_UNUSED false.

Definition thread_at (s : scheduler) (slot : Z) : thread := aget no_thread s.(threads) slot.
Definition control_at (s : scheduler) (slot : Z) : control := aget InExit s.(suspended) slot.

Definition with_state (s : scheduler) (st : thread_system_state) : scheduler :=
  MkScheduler st s.(threads) s.(table) s.(current_slot) s.(next_identifier)
    s.(reschedule_pending) s.(quantum_identifier) s.(suspended).
Definition with_thread (s : scheduler) (slot : Z) (t : thread) : scheduler :=
  MkScheduler s.(state) (aset s.(threads) slot t) s.(table) s.(current_slot)
    s.(next_identifier) s.(reschedule_pending) s.(quantum_identifier) s.(suspended).
Definition with_control (s : scheduler) (slot : Z) (c : control) : scheduler :=
  MkScheduler s.(state) s.(threads) s.(table) s.(current_slot) s.(next_identifier)
    s.(reschedule_pending) s.(quantum_identifier) (aset s.(suspended) slot c).
Definition with_slot (s : scheduler) (slot : Z) : scheduler :=
  MkScheduler s.(state) s.(threads) s.(table) slot s.(next_identifier)
    s.(reschedule_pending) s.(quantum_identifier) s.(suspended).
Definition with_next (s : scheduler) (id : Z) : scheduler :=
  MkScheduler s.(state) s.(threads) s.(table) s.(current_slot) id
    s.(reschedule_pending) s.(quantum_identifier) s.(suspended).
Definition with_pending (s : scheduler) (b : bool) : scheduler :=
  MkScheduler s.(state) s.(threads) s.(table) s.(current_slot) s.(next_identifier)
    b s.(quantum_identifier) s.(suspended).
Definition with_quantum (s : scheduler) (id : Z) : scheduler :=
  MkScheduler s.(state) s.(threads) s.(table) s.(current_slot) s.(next_identifier)
    s.(reschedule_pending) id s.(suspended).

Definition set_tstate (t : thread) (x : thread_state) : thread :=
  MkThread t.(stack_pointer) t.(stack_base) t.(stack_top) t.(identifier) t.(switches)
    t.(entry) t.(context) x t.(boot_thread).
Definition set_stack_pointer (t : thread) (sp : Z) : thread :=
  MkThread sp t.(stack_base) t.(stack_top) t.(identifier) t.(switches)
    t.(entry) t.(context) t.(tstate) t.(boot_thread).
Definition set_switches (t : thread) (n : Z) : thread :=
  MkThread t.(stack_pointer) t.(stack_base) t.(stack_top) t.(identifier) n
    t.(entry) t.(context) t.(tstate) t.(boot_thread).

Definition set_active (st : thread_system_state) (b : bool) : thread_system_state :=
  MkSystem b st.(capacity) st.(live) st.(ready) st.(exited) st.(current)
    st.(total_switches) st.(stack_frames) st.(preemptions) st.(preemptive).
Definition set_counts (st : thread_system_state) (l r e : Z) : thread_system_state :=
  MkSystem st.(active) st.(capacity) l r e st.(current) st.(total_switches)
    st.(stack_frames) st.(preemptions) st.(preemptive).
Definition set_switched (st : thread_system_state) (cur total : Z) : thread_system_state :=
  MkSystem st.(active) st.(capacity) st.(live) st.(ready) st.(exited) cur total
    st.(stack_frames) st.(preemptions) st.(preemptive).
Definition set_stack_frames (st : thread_system_state) (n : Z) : thread_system_state :=
  MkSystem st.(active) st.(capacity) st.(live) st.(ready) st.(exited) st.(current)
    st.(total_switches) n st.(preemptions) st.(preemptive).
Definition set_preemption (st : thread_system_state) (n : Z) (b : bool) : thread_system_state :=
  MkSystem st.(active) st.(capacity) st.(live) st.(ready) st.(exited) st.(current)
    st.(total_switches) st.(stack_frames) n b.

(** A call that returns, or a panic with its message. *)
Inductive outcome (A : Type) : Type :=
| Returns (a : A)
| Panics (message : string).
Arguments Returns {A} _.
Arguments Panics {A} _.

(** The callee-saved registers of the System V ABI. *)
Record registers : Type := MkRegisters {
  rbp : Z;
  rbx : Z;
  r12 : Z;
  r13 : Z;
  r14 : Z;
  r15 : Z
}.

(** * What threads call *)

Class ThreadPlatform (M : Type) `{HeapPlatform M} := {
  frame_release_status : Z -> M -> bool;
  cpu_interrupt_disable : M -> M;
  cpu_interrupt_enable : M -> M;
  heap_is_active : M -> bool;
  heap_allocate : Z -> M -> option Z * M;
  heap_free : Z -> M -> bool * M;
  clock_monotonic_ns : M -> Z;
  timer_arm : Z -> M -> option Z * M;
  timer_cancel : Z -> M -> M;
  timer_is_started : M -> bool;
  load : Z -> M -> Z;
  store : Z -> Z -> M -> M;
  (** the address of thread_trampoline, and where the calls of
      thread_switch_context in switch_to_next and thread_exit return *)
  thread_trampoline : Z;
  switch_return : Z;
  exit_return : Z;
  rsp : M -> Z;
  set_rsp : Z -> M -> M;
  callee_saved : M -> registers;
  set_callee_saved : registers -> M -> M;
  rflags : M -> Z;
  set_rflags : Z -> M -> M
}.

(** * The table *)

Definition slot_guard_page (slot : Z) : Z := THREAD_STACK_REGION + slot * THREAD_STACK_STRIDE.
Definition slot_stack_base (slot : Z) : Z := slot_guard_page slot + PAGING_PAGE_SIZE.
Definition slot_stack_top (slot : Z) : Z := slot_stack_base slot + THREAD_STACK_SIZE.

Definition is_state (x : thread_state) (t : thread) : bool := bool_decide (t.(tstate) = x).

Definition slots (s : scheduler) : list Z := seqZ 0 s.(state).(capacity).

(** The slot [find] returns a pointer into. *)
Definition find (id : Z) (s : scheduler) : option Z :=
  if (id =? THREAD_ID_NONE) || (s.(table) =? 0) then None
  else
  match for_each (fun slot (_ : unit) =>
          if negb (is_state THREAD_STATE_UNUSED (thread_at s slot)) &&
             ((thread_at s slot).(identifier) =? id) then Return slot else Next tt)
          (slots s) tt with
  | Return slot => Some slot
  | Next _ => None
  end.

Definition next_ready_slot (from : Z) (s : scheduler) : Z :=
  match for_each (fun step (_ : unit) =>
          let slot := u64 (from + step) mod s.(state).(capacity) in
          if is_state THREAD_STATE_READY (thread_at s slot) then Return slot else Next tt)
          (seqZ 1 s.(state).(capacity)) tt with
  | Return slot => slot
  | Next _ => from
  end.

Definition account_switch (to : Z) (s : scheduler) : scheduler :=
  let t := thread_at s to in
  let s := with_thread s to (set_switches t (u64 (t.(switches) + 1))) in
  let s := with_state s (set_switched s.(state) (thread_at s to).(identifier)
                           (u64 (s.(state).(total_switches) + 1))) in
  with_slot s to.

(** One turn of the loop of recount over [live], [ready] and [exited]. *)
Definition count_thread (c : Z * Z * Z) (t : thread) : Z * Z * Z :=
  let '(l, r, e) := c in
  match t.(tstate) with
  | THREAD_STATE_READY => (l + 1, r + 1, e)
  | THREAD_STATE_RUNNING => (l + 1, r, e)
  | THREAD_STATE_EXITED => (l, r, e + 1)
  | THREAD_STATE_UNUSED => (l, r, e)
  end.

Definition recount (s : scheduler) : scheduler :=
  let '(l, r, e) := foldl (fun c slot => count_thread c (thread_at s slot)) (0, 0, 0) (slots s) in
  with_state s (set_counts s.(state) l r e).

(** clear_slot. *)
Definition clear_slot (slot : Z) (s : scheduler) : scheduler := with_thread s slot no_thread.

Section operations.
Context {M : Type} `{ThreadPlatform M}.

(** * Stacks *)

(** One turn of the mapping loop of map_stack. *)
Definition map_stack_page (base page : Z) (m : M) : ctl M (thread_status * Z * M) :=
  let address := base + page * PAGING_PAGE_SIZE in
  match frame_allocate m with
  | (None, m) => Return (THREAD_STATUS_OUT_OF_FRAMES, page, m)
  | (Some frame, m) =>
      match paging_map address frame m with
      | (false, m) => Return (THREAD_STATUS_MAPPING_FAILURE, page, frame_release frame m)
      | (true, m) => Next m
      end
  end.

(** One turn of its unwinding loop. *)
Definition unwind_stack_page (base : Z) (m : M) (page : Z) : M :=
  let address := base + page * PAGING_PAGE_SIZE in
  match paging_translate m address with
  | Mapped frame _ _ =>
      match paging_unmap address m with
      | (true, m) => frame_release frame m
      | (false, m) => m
      end
  | _ => m
  end.

Definition map_stack (slot : Z) (s : scheduler) (m : M) : thread_status * scheduler * M :=
  let base := slot_stack_base slot in
  match for_each (map_stack_page base) (seqZ 0 THREAD_STACK_PAGES) m with
  | Return (failure, mapped, m) =>
      (failure, s, foldl (unwind_stack_page base) m (seqZ 0 mapped))
  | Next m =>
      (THREAD_STATUS_OK,
       with_state s (set_stack_frames s.(state)
                       (u64 (s.(state).(stack_frames) + THREAD_STACK_PAGES))), m)
  end.

Definition unmap_stack_page (base page : Z) (x : scheduler * M)
  : ctl (scheduler * M) (thread_status * scheduler * M) :=
  let '(s, m) := x in
  let address := base + page * PAGING_PAGE_SIZE in
  match paging_translate m address with
  | Mapped frame _ _ =>
      match paging_unmap address m with
      | (false, m) => Return (THREAD_STATUS_VALIDATION_FAILURE, s, m)
      | (true, m) =>
          let ok := frame_release_status frame m in
          let m := frame_release frame m in
          if negb ok then Return (THREAD_STATUS_VALIDATION_FAILURE, s, m)
          else Next (with_state s (set_stack_frames s.(state)
                                     (u64 (s.(state).(stack_frames) - 1))), m)
      end
  | _ => Return (THREAD_STATUS_VALIDATION_FAILURE, s, m)
  end.

Definition unmap_stack (slot : Z) (s : scheduler) (m : M) : thread_status * scheduler * M :=
  match for_each (unmap_stack_page (slot_stack_base slot)) (seqZ 0 THREAD_STACK_PAGES) (s, m) with
  | Return r => r
  | Next (s, m) => (THREAD_STATUS_OK, s, m)
  end.

(** The words of a new thread's frame, and the thread with its stack pointer. *)
Definition prepare_frame (t : thread) (m : M) : thread * M :=
  let frame := u64 (t.(stack_top) - PREPARED_FRAME_SIZE) in
  let word slot := frame + slot * 8 in
  let m := foldl (fun m slot => store (word slot) 0 m) m (seqZ 0 PREPARED_SLOTS) in
  let m := store (word SLOT_R12) t.(entry) m in
  let m := store (word SLOT_R13) t.(context) m in
  let m := store (word SLOT_RFLAGS) INITIAL_RFLAGS m in
  let m := store (word SLOT_RETURN) thread_trampoline m in
  (set_stack_pointer t frame, m).

(** * Starting and creating *)

Definition thread_start (s : scheduler) (m : M) : thread_status * scheduler * M :=
  if s.(state).(active) then (THREAD_STATUS_ALREADY_STARTED, s, m)
  else if cpu_interrupts_enabled m then (THREAD_STATUS_INTERRUPTS_ENABLED, s, m)
  else if negb (heap_is_active m) || negb (paging_is_active m) then
    (THREAD_STATUS_NO_HEAP, s, m)
  else
  match heap_allocate (THREAD_MAX * sizeof_thread) m with
  | (None, m) => (THREAD_STATUS_NO_MEMORY, s, m)
  | (Some pointer, m) =>
      let boot := MkThread 0 0 0 1 0 0 0 THREAD_STATE_RUNNING true in
      let table := aset (replicate (Z.to_nat THREAD_MAX) no_thread) 0 boot in
      (THREAD_STATUS_OK,
       recount (MkScheduler
         (MkSystem true THREAD_MAX s.(state).(live) s.(state).(ready) s.(state).(exited)
            boot.(identifier) 0 0 0 false)
         table pointer 0 2 false THREAD_ID_NONE
         (replicate (Z.to_nat THREAD_MAX) InExit)), m)
  end.

(** The identifier out-parameter is [false] for NULL; the third component is
    what is stored through it. *)
Definition thread_create (entry_ context_ : Z) (destination : bool) (s : scheduler) (m : M)
  : thread_status * option Z * scheduler * M :=
  if (entry_ =? 0) || negb destination then (THREAD_STATUS_NULL_ARGUMENT, None, s, m)
  else
  let refuse st := (st, Some THREAD_ID_NONE, s, m) in
  if negb s.(state).(active) then refuse THREAD_STATUS_NOT_STARTED
  else if cpu_interrupts_enabled m then refuse THREAD_STATUS_INTERRUPTS_ENABLED
  else
  match for_each (fun slot (_ : unit) =>
          if is_state THREAD_STATE_UNUSED (thread_at s slot) then Return slot else Next tt)
          (seqZ 1 (s.(state).(capacity) - 1)) tt with
  | Next _ => refuse THREAD_STATUS_NO_CAPACITY
  | Return chosen =>
      let '(status, s, m) := map_stack chosen s m in
      if negb (bool_decide (status = THREAD_STATUS_OK)) then
        (status, Some THREAD_ID_NONE, s, m)
      else
      let id := s.(next_identifier) in
      let s := with_next s (u64 (id + 1)) in
      let '(t, m) := prepare_frame
        (MkThread (thread_at s chosen).(stack_pointer) (slot_stack_base chosen)
           (slot_stack_top chosen) id 0 entry_ context_ THREAD_STATE_UNUSED false) m in
      let s := with_thread s chosen (set_tstate t THREAD_STATE_READY) in
      let s := with_control s chosen AtTrampoline in
      (THREAD_STATUS_OK, Some id, recount s, m)
  end.

(** * Switching *)

Definition push_word (word : Z) (m : M) : M :=
  let sp := u64 (rsp m - 8) in set_rsp sp (store sp word m).
Definition pop_word (m : M) : Z * M := (load (rsp m) m, set_rsp (u64 (rsp m + 8)) m).

(** The call and the pushes of thread_switch_context. *)
Definition push_frame (return_address : Z) (m : M) : M :=
  let regs := callee_saved m in
  let m := push_word return_address m in
  let m := push_word (rflags m) m in
  let m := push_word regs.(rbp) m in
  let m := push_word regs.(rbx) m in
  let m := push_word regs.(r12) m in
  let m := push_word regs.(r13) m in
  let m := push_word regs.(r14) m in
  push_word regs.(r15) m.

(** Its pops and its ret; the first component is where it returns to. *)
Definition pop_frame (m : M) : Z * M :=
  let '(r15_, m) := pop_word m in
  let '(r14_, m) := pop_word m in
  let '(r13_, m) := pop_word m in
  let '(r12_, m) := pop_word m in
  let '(rbx_, m) := pop_word m in
  let '(rbp_, m) := pop_word m in
  let m := set_callee_saved (MkRegisters rbp_ rbx_ r12_ r13_ r14_ r15_) m in
  let '(flags, m) := pop_word m in
  pop_word (set_rflags flags m).

(** thread_trampoline up to its call of the entry function. *)
Definition trampoline (m : M) : M :=
  let regs := callee_saved m in
  let m := set_callee_saved (MkRegisters 0 regs.(rbx) regs.(r12) regs.(r13) regs.(r14) regs.(r15)) m in
  set_rsp (Z.land (rsp m) (-16)) m.

Definition return_site (point : control) : Z :=
  match point with
  | AtTrampoline => thread_trampoline
  | InSwitch _ => switch_return
  | InExit => exit_return
  end.

(** The call of thread_switch_context in slot [previous] at [point], and what
    the incoming thread does with the return: [suspended] says which return
    address its stack holds. *)
Definition switch_context (previous next : Z) (point : control) (s : scheduler) (m : M)
  : outcome (scheduler * M) :=
  let incoming := (thread_at s next).(stack_pointer) in
  let m := push_frame (return_site point) m in
  let s := with_thread s previous (set_stack_pointer (thread_at s previous) (rsp m)) in
  let s := with_control s previous point in
  let '(_, m) := pop_frame (set_rsp incoming m) in
  match control_at s next with
  | AtTrampoline => Returns (s, trampoline m)
  | InSwitch interrupted => Returns (s, if interrupted then cpu_interrupt_enable m else m)
  | InExit => Panics "an exited thread was scheduled again"
  end.

Definition switch_to_next (s : scheduler) (m : M) : outcome (scheduler * M) :=
  let interrupted := cpu_interrupts_enabled m in
  let m := cpu_interrupt_disable m in
  let previous := s.(current_slot) in
  let next := next_ready_slot previous s in
  if next =? previous then
    Returns (s, if interrupted then cpu_interrupt_enable m else m)
  else
  let s := if is_state THREAD_STATE_RUNNING (thread_at s previous) then
             with_thread s previous (set_tstate (thread_at s previous) THREAD_STATE_READY)
           else s in
  let s := with_thread s next (set_tstate (thread_at s next) THREAD_STATE_RUNNING) in
  let s := recount (account_switch next s) in
  switch_context previous next (InSwitch interrupted) s m.

Definition thread_yield (s : scheduler) (m : M) : outcome (scheduler * M) :=
  if negb s.(state).(active) then Returns (s, m) else switch_to_next s m.

Definition arm_quantum (s : scheduler) (m : M) : thread_status * scheduler * M :=
  let deadline := u64 (clock_monotonic_ns m + THREAD_QUANTUM_NS) in
  match timer_arm deadline m with
  | (None, m) => (THREAD_STATUS_NO_QUANTUM, with_quantum s THREAD_ID_NONE, m)
  | (Some id, m) => (THREAD_STATUS_OK, with_quantum s id, m)
  end.

(** The timer callback; its two arguments are ignored. *)
Definition quantum_expired (s : scheduler) (m : M) : outcome (scheduler * M) :=
  let s := with_quantum s THREAD_ID_NONE in
  if negb s.(state).(active) || negb s.(state).(preemptive) then Returns (s, m)
  else
  let '(status, s, m) := arm_quantum s m in
  if negb (bool_decide (status = THREAD_STATUS_OK)) then
    Panics "the scheduler could not arm its next quantum"
  else if negb (next_ready_slot s.(current_slot) s =? s.(current_slot)) then
    let s := with_pending s true in
    Returns (with_state s (set_preemption s.(state) (u64 (s.(state).(preemptions) + 1))
                             s.(state).(preemptive)), m)
  else Returns (s, m).

Definition thread_on_interrupt_return (s : scheduler) (m : M) : outcome (scheduler * M) :=
  if negb s.(reschedule_pending) then Returns (s, m)
  else
  let s := with_pending s false in
  if negb s.(state).(active) then Returns (s, m) else switch_to_next s m.

Definition thread_enable_preemption (s : scheduler) (m : M) : thread_status * scheduler * M :=
  if negb s.(state).(active) then (THREAD_STATUS_NOT_STARTED, s, m)
  else if s.(state).(preemptive) then (THREAD_STATUS_ALREADY_PREEMPTIVE, s, m)
  else if negb (timer_is_started m) then (THREAD_STATUS_NO_TIMER, s, m)
  else
  let s := with_state s (set_preemption s.(state) s.(state).(preemptions) true) in
  let '(status, s, m) := arm_quantum s m in
  let s := if negb (bool_decide (status = THREAD_STATUS_OK)) then
             with_state s (set_preemption s.(state) s.(state).(preemptions) false)
           else s in
  (status, s, m).

Definition thread_disable_preemption (s : scheduler) (m : M) : thread_status * scheduler * M :=
  if negb s.(state).(active) then (THREAD_STATUS_NOT_STARTED, s, m)
  else if negb s.(state).(preemptive) then (THREAD_STATUS_NOT_PREEMPTIVE, s, m)
  else
  let s := with_state s (set_preemption s.(state) s.(state).(preemptions) false) in
  let '(s, m) := if negb (s.(quantum_identifier) =? THREAD_ID_NONE) then
                   (with_quantum s THREAD_ID_NONE, timer_cancel s.(quantum_identifier) m)
                 else (s, m) in
  (THREAD_STATUS_OK, with_pending s false, m).

Definition thread_preemption_enabled (s : scheduler) : bool :=
  s.(state).(active) && s.(state).(preemptive).

Definition thread_exit (s : scheduler) (m : M) : outcome (scheduler * M) :=
  if negb s.(state).(active) then Panics "a thread exited before threads were started"
  else
  let m := cpu_interrupt_disable m in
  let previous := s.(current_slot) in
  if (thread_at s previous).(boot_thread) then Panics "the boot thread cannot exit"
  else
  let s := with_thread s previous (set_tstate (thread_at s previous) THREAD_STATE_EXITED) in
  let next := next_ready_slot previous s in
  if next =? previous then Panics "the last runnable thread exited"
  else
  let s := with_thread s next (set_tstate (thread_at s next) THREAD_STATE_RUNNING) in
  let s := recount (account_switch next s) in
  switch_context previous next InExit s m.

(** The loop of thread_join.  When a yield hands the processor over, [away] is
    what happens until this thread runs again; [fuel] bounds the turns. *)
Fixpoint join_loop (fuel : nat) (away : scheduler -> M -> scheduler * M) (self target : Z)
    (s : scheduler) (m : M) : option (outcome (thread_status * scheduler * M)) :=
  match fuel with
  | O => None
  | S fuel =>
      if is_state THREAD_STATE_EXITED (thread_at s target) then
        Some (Returns (THREAD_STATUS_OK, s, m))
      else
      match thread_yield s m with
      | Panics message => Some (Panics message)
      | Returns (s, m) =>
          let '(s, m) := if s.(current_slot) =? self then (s, m) else away s m in
          join_loop fuel away self target s m
      end
  end.

Definition thread_join (fuel : nat) (away : scheduler -> M -> scheduler * M) (id : Z)
    (s : scheduler) (m : M) : option (outcome (thread_status * scheduler * M)) :=
  if negb s.(state).(active) then Some (Returns (THREAD_STATUS_NOT_STARTED, s, m))
  else
  match find id s with
  | None => Some (Returns (THREAD_STATUS_BAD_IDENTIFIER, s, m))
  | Some target =>
      if (thread_at s target).(identifier) =? (thread_at s s.(current_slot)).(identifier) then
        Some (Returns (THREAD_STATUS_BAD_IDENTIFIER, s, m))
      else join_loop fuel away s.(current_slot) target s m
  end.

(** The two loops of thread_stop. *)
Definition still_runnable (s : scheduler) : bool :=
  existsb (fun slot => is_state THREAD_STATE_READY (thread_at s slot) ||
                       is_state THREAD_STATE_RUNNING (thread_at s slot))
    (seqZ 1 (s.(state).(capacity) - 1)).

Definition release_exited (slot : Z) (x : scheduler * M)
  : ctl (scheduler * M) (thread_status * scheduler * M) :=
  let '(s, m) := x in
  if is_state THREAD_STATE_EXITED (thread_at s slot) then
    let '(status, s, m) := unmap_stack slot s m in
    if negb (bool_decide (status = THREAD_STATUS_OK)) then Return (status, s, m)
    else Next (clear_slot slot s, m)
  else Next (s, m).

Definition thread_stop (s : scheduler) (m : M) : thread_status * scheduler * M :=
  if negb s.(state).(active) then (THREAD_STATUS_NOT_STARTED, s, m)
  else if cpu_interrupts_enabled m then (THREAD_STATUS_INTERRUPTS_ENABLED, s, m)
  else if negb (thread_at s s.(current_slot)).(boot_thread) then
    (THREAD_STATUS_NOT_THE_BOOT_THREAD, s, m)
  else
  let '(_, s, m) := if s.(state).(preemptive) then thread_disable_preemption s m
                    else (THREAD_STATUS_OK, s, m) in
  if still_runnable s then (THREAD_STATUS_THREADS_STILL_RUNNABLE, s, m)
  else
  match for_each release_exited (seqZ 1 (s.(state).(capacity) - 1)) (s, m) with
  | Return r => r
  | Next (s, m) =>
      if negb (s.(state).(stack_frames) =? 0) then (THREAD_STATUS_VALIDATION_FAILURE, s, m)
      else
      match heap_free s.(table) m with
      | (false, m) => (THREAD_STATUS_VALIDATION_FAILURE, s, m)
      | (true, m) =>
          let st := s.(state) in
          (THREAD_STATUS_OK,
           MkScheduler
             (MkSystem false 0 0 0 0 THREAD_ID_NONE st.(total_switches) st.(stack_frames)
                st.(preemptions) false)
             s.(threads) 0 0 s.(next_identifier) false THREAD_ID_NONE s.(suspended), m)
      end
  end.

Definition thread_is_started (s : scheduler) : bool := s.(state).(active).

Definition thread_current (s : scheduler) : Z :=
  if s.(state).(active) then (thread_at s s.(current_slot)).(identifier) else THREAD_ID_NONE.

Definition thread_report (id : Z) (destination : bool) (s : scheduler)
  : thread_status * option thread_state_report :=
  if negb destination then (THREAD_STATUS_NULL_ARGUMENT, None)
  else if negb s.(state).(active) then (THREAD_STATUS_NOT_STARTED, None)
  else
  match find id s with
  | None => (THREAD_STATUS_BAD_IDENTIFIER, None)
  | Some slot =>
      let t := thread_at s slot in
      (THREAD_STATUS_OK,
       Some (MkReport t.(identifier) t.(stack_base) t.(stack_top)
               (if t.(boot_thread) then 0 else slot_guard_page slot) t.(switches)
               t.(tstate) t.(boot_thread)))
  end.

Definition thread_get_state (s : scheduler) : thread_system_state := s.(state).

(** The page test of thread_verify. *)
Definition stack_page_present (m : M) (t : thread) (page : Z) : bool :=
  match paging_translate m (u64 (t.(stack_base) + page * PAGING_PAGE_SIZE)) with
  | Mapped _ permissions level => (permissions =? PAGING_WRITE) && (level =? 1)
  | _ => false
  end.

(** One turn of the loop of thread_verify over [live] and [running]. *)
Definition verify_slot (s : scheduler) (m : M) (slot : Z) (counts : Z * Z)
  : ctl (Z * Z) thread_status :=
  let t := thread_at s slot in
  let '(l, running) := counts in
  if is_state THREAD_STATE_UNUSED t then Next counts
  else
  let counts := (l + 1, if is_state THREAD_STATE_RUNNING t then running + 1 else running) in
  if t.(boot_thread) then
    if negb (slot =? 0) || negb (t.(stack_top) =? 0) then
      Return THREAD_STATUS_VALIDATION_FAILURE
    else Next counts
  else if negb (t.(stack_base) =? slot_stack_base slot) ||
          negb (t.(stack_top) =? slot_stack_top slot) then
    Return THREAD_STATUS_VALIDATION_FAILURE
  else if negb (match paging_translate m (slot_guard_page slot) with
                | NotMapped => true | _ => false end) then
    Return THREAD_STATUS_VALIDATION_FAILURE
  else if negb (forallb (stack_page_present m t) (seqZ 0 THREAD_STACK_PAGES)) then
    Return THREAD_STATUS_VALIDATION_FAILURE
  else if negb (is_state THREAD_STATE_EXITED t) && negb (is_state THREAD_STATE_RUNNING t) &&
          ((t.(stack_pointer) <? t.(stack_base)) || (t.(stack_pointer) >? t.(stack_top))) then
    Return THREAD_STATUS_VALIDATION_FAILURE
  else Next counts.

Definition thread_verify (s : scheduler) (m : M) : thread_status :=
  if negb s.(state).(active) then THREAD_STATUS_NOT_STARTED
  else if s.(table) =? 0 then THREAD_STATUS_VALIDATION_FAILURE
  else
  match for_each (verify_slot s m) (slots s) (0, 0) with
  | Return status => status
  | Next (l, running) =>
      if negb (running =? 1) || negb (l =? u64 (s.(state).(live) + s.(state).(exited))) then
        THREAD_STATUS_VALIDATION_FAILURE
      else THREAD_STATUS_OK
  end.

(** * The self test *)

Definition stack_layout_is_disjoint : bool :=
  forallb (fun slot =>
      (slot_stack_base slot =? slot_guard_page slot + PAGING_PAGE_SIZE) &&
      (slot_stack_top slot =? slot_stack_base slot + THREAD_STACK_SIZE) &&
      (negb (slot + 1 <? THREAD_MAX) ||
       (slot_stack_top slot =? slot_guard_page (slot + 1)))) (seqZ 0 THREAD_MAX) &&
  forallb (fun left =>
      negb (slot_stack_base left <? THREAD_STACK_REGION) &&
      forallb (fun right =>
          negb ((slot_stack_base left <? slot_stack_top right) &&
                (slot_stack_base right <? slot_stack_top left)))
        (seqZ (left + 1) (THREAD_MAX - (left + 1)))) (seqZ 0 THREAD_MAX) &&
  (slot_guard_page 0 =? THREAD_STACK_REGION).

(** The private table of the self test, at the address [arena]. *)
Definition blank_table (s : scheduler) (address : Z) : scheduler :=
  MkScheduler s.(state) (replicate (Z.to_nat THREAD_MAX) no_thread) address s.(current_slot)
    s.(next_identifier) s.(reschedule_pending) s.(quantum_identifier) s.(suspended).
Definition set_capacity (s : scheduler) (act : bool) (cap : Z) : scheduler :=
  with_state s (MkSystem act cap s.(state).(live) s.(state).(ready) s.(state).(exited)
    s.(state).(current) s.(state).(total_switches) s.(state).(stack_frames)
    s.(state).(preemptions) s.(state).(preemptive)).
Definition put_state (s : scheduler) (slot : Z) (x : thread_state) : scheduler :=
  with_thread s slot (set_tstate (thread_at s slot) x).

Definition rotation_is_round_robin (self_test_threads : Z) (s : scheduler) : bool :=
  let s := set_capacity (blank_table s self_test_threads) s.(state).(active) THREAD_MAX in
  let s := put_state s 0 THREAD_STATE_RUNNING in
  let s := put_state s 2 THREAD_STATE_READY in
  let s := put_state s 5 THREAD_STATE_READY in
  (next_ready_slot 0 s =? 2) && (next_ready_slot 2 s =? 5) && (next_ready_slot 5 s =? 2) &&
  (next_ready_slot 3 s =? 5) && (next_ready_slot 6 s =? 2) &&
  let s := put_state s 2 THREAD_STATE_EXITED in
  (next_ready_slot 0 s =? 5) &&
  let s := put_state s 5 THREAD_STATE_EXITED in
  (next_ready_slot 0 s =? 0) && (next_ready_slot 3 s =? 3) &&
  let s := put_state s 4 THREAD_STATE_RUNNING in
  (next_ready_slot 0 s =? 0) &&
  let s := put_state s 4 THREAD_STATE_READY in
  (next_ready_slot 0 s =? 4).

(** [arena] is the address of the 64 words of the static array. *)
Definition prepared_frame_is_right (arena : Z) (m : M) : bool * M :=
  let m := foldl (fun m index => store (arena + index * 8) 0xDEADBEEFDEADBEEF m) m (seqZ 0 64) in
  let '(t, m) := prepare_frame
    (MkThread 0 0 (arena + 64 * 8) THREAD_ID_NONE 0 thread_trampoline 0x1234
       THREAD_STATE_UNUSED false) m in
  let frame slot := load (t.(stack_pointer) + slot * 8) m in
  ((t.(stack_pointer) =? t.(stack_top) - PREPARED_FRAME_SIZE) &&
   (frame SLOT_R12 =? t.(entry)) && (frame SLOT_R13 =? t.(context)) &&
   (frame SLOT_RFLAGS =? INITIAL_RFLAGS) && (frame SLOT_RETURN =? thread_trampoline) &&
   (frame SLOT_R15 =? 0) && (frame SLOT_R14 =? 0) && (frame SLOT_RBX =? 0) &&
   (frame SLOT_RBP =? 0) &&
   negb (Z.land INITIAL_RFLAGS RFLAGS_RESERVED =? 0) &&
   negb (Z.land INITIAL_RFLAGS RFLAGS_INTERRUPT_ENABLE =? 0) &&
   (Z.land INITIAL_RFLAGS RFLAGS_DIRECTION =? 0) &&
   (load (arena + (64 - PREPARED_SLOTS - 1) * 8) m =? 0xDEADBEEFDEADBEEF), m).

Definition is_status (st : thread_status) (x : thread_status) : bool := bool_decide (x = st).

(** thread_join is only called where it returns at once, and thread_yield where
    it does nothing. *)
Definition join_refused (st : thread_status) (id : Z) (s : scheduler) (m : M) : bool :=
  match thread_join 0 (fun s m => (s, m)) id s m with
  | Some (Returns (status, _, _)) => is_status st status
  | _ => false
  end.

Definition refusals_are_named (self_test_threads : Z) (s : scheduler) (m : M) : bool :=
  let s0 := set_capacity (MkScheduler s.(state) [] 0 s.(current_slot) s.(next_identifier)
              s.(reschedule_pending) s.(quantum_identifier) s.(suspended)) false 0 in
  let '(created, id, _, _) := thread_create thread_trampoline 0 true s0 m in
  is_status THREAD_STATUS_NULL_ARGUMENT (thread_create 0 0 true s0 m).1.1.1 &&
  is_status THREAD_STATUS_NULL_ARGUMENT (thread_create thread_trampoline 0 false s0 m).1.1.1 &&
  is_status THREAD_STATUS_NULL_ARGUMENT (thread_report 1 false s0).1 &&
  is_status THREAD_STATUS_NOT_STARTED created && bool_decide (id = Some THREAD_ID_NONE) &&
  is_status THREAD_STATUS_NOT_STARTED (thread_stop s0 m).1.1 &&
  join_refused THREAD_STATUS_NOT_STARTED 1 s0 m &&
  is_status THREAD_STATUS_NOT_STARTED (thread_report 1 true s0).1 &&
  is_status THREAD_STATUS_NOT_STARTED (thread_verify s0 m) &&
  (thread_current s0 =? THREAD_ID_NONE) && negb (thread_is_started s0) &&
  let s1 := set_capacity (blank_table s0 self_test_threads) true THREAD_MAX in
  let s1 := with_slot (with_thread s1 0 (MkThread 0 0 0 1 0 0 0 THREAD_STATE_RUNNING true)) 0 in
  bool_decide (find THREAD_ID_NONE s1 = None) && bool_decide (find 9999 s1 = None) &&
  join_refused THREAD_STATUS_BAD_IDENTIFIER 9999 s1 m &&
  is_status THREAD_STATUS_BAD_IDENTIFIER (thread_report 9999 true s1).1 &&
  join_refused THREAD_STATUS_BAD_IDENTIFIER 1 s1 m &&
  match thread_report 1 true s1 with
  | (THREAD_STATUS_OK, Some r) =>
      r.(rp_boot_thread) && (r.(rp_guard_page) =? 0) &&
      bool_decide (r.(rp_state) = THREAD_STATE_RUNNING)
  | _ => false
  end.

Definition thread_self_test (self_test_threads arena : Z) (s : scheduler) (m : M) : bool :=
  stack_layout_is_disjoint && rotation_is_round_robin self_test_threads s &&
  (prepared_frame_is_right arena m).1 &&
  refusals_are_named self_test_threads s (prepared_frame_is_right arena m).2.
End operations.
End Thread.
