(* ===== verification/ThreadRun.v ===== *)
(** What the thread layer of [Thread] promises: which states its operations can
    reach, that exactly one thread runs in each of them, that a ready thread is
    passed over at most six times, that its own audit accepts them, and that
    stacks are mapped and given back exactly. *)
From S2P Require Import Prelude Heap Thread.

Module ThreadRun.
Import Heap(HeapPlatform, PlatformLaws, translation, Mapped, NotMapped, TranslateFails,
  PAGING_PAGE_SIZE, PAGING_WRITE, page_aligned, frame_allocate, frame_release, paging_map,
  paging_unmap, paging_translate, paging_is_active, cpu_interrupts_enabled, platform_ok,
  owned, law_allocate, law_release, law_map, law_unmap).
Import Thread.

(** * The stack region *)

Definition stack_page (slot page : Z) : Z := slot_stack_base slot + page * PAGING_PAGE_SIZE.

(** The pages threads care about: every slot's guard and stack. *)
Definition in_region (a : Z) : Prop :=
  (exists slot, 0 <= slot < THREAD_MAX /\ a = slot_guard_page slot) \/
  (exists slot page, 0 <= slot < THREAD_MAX /\ 0 <= page < THREAD_STACK_PAGES /\
     a = stack_page slot page).

Ltac region := unfold stack_page, slot_stack_top, slot_stack_base, slot_guard_page,
  THREAD_STACK_REGION, THREAD_STACK_STRIDE, THREAD_STACK_SIZE, THREAD_STACK_PAGES,
  THREAD_MAX, PAGING_PAGE_SIZE in *.

Lemma region_aligned a : in_region a -> page_aligned a.
Proof.
  intros [(k & Hk & ->)|(k & p & Hk & Hp & ->)]; unfold page_aligned; region.
  - rewrite <- (Z.mod_mul (8388608 + k * 5) 4096) by done. f_equal. lia.
  - rewrite <- (Z.mod_mul (8388608 + k * 5 + 1 + p) 4096) by done. f_equal. lia.
Qed.

Lemma stack_in_region k p :
  0 <= k < THREAD_MAX -> 0 <= p < THREAD_STACK_PAGES -> in_region (stack_page k p).
Proof. right. eauto. Qed.

Lemma guard_in_region k : 0 <= k < THREAD_MAX -> in_region (slot_guard_page k).
Proof. left. eauto. Qed.

Lemma stack_page_inj k p k' p' :
  0 <= p < THREAD_STACK_PAGES -> 0 <= p' < THREAD_STACK_PAGES ->
  stack_page k p = stack_page k' p' -> k = k' /\ p = p'.
Proof. region. lia. Qed.

Lemma guard_not_stack k k' p :
  0 <= p < THREAD_STACK_PAGES -> slot_guard_page k <> stack_page k' p.
Proof. region. lia. Qed.

(** * What threads rely on *)

Section laws.
Context (M : Type) `{PlatformLaws M}.

(** A call that moves no frame and no mapping. *)
Definition quiet (m m' : M) : Prop :=
  platform_ok m ->
  platform_ok m' /\ (forall g, owned m' g <-> owned m g) /\
  forall a, page_aligned a -> paging_translate m' a = paging_translate m a.

(** What the rest of the kernel may do: it leaves the stack region alone and
    does not give back frames that are mapped there. *)
Definition keeps (m m' : M) : Prop :=
  platform_ok m ->
  platform_ok m' /\
  (forall a, in_region a -> paging_translate m' a = paging_translate m a) /\
  forall a f p l, in_region a -> paging_translate m a = Mapped f p l -> owned m f -> owned m' f.

Lemma quiet_keeps m m' : quiet m m' -> keeps m m'.
Proof.
  intros Hq Hok. destruct (Hq Hok) as (Hok' & Ho & Ht). split_and!; [done| |].
  - intros a Ha. by apply Ht, region_aligned.
  - intros a f p l _ _ Hf. by apply Ho.
Qed.

Lemma quiet_trans m1 m2 m3 : quiet m1 m2 -> quiet m2 m3 -> quiet m1 m3.
Proof.
  intros H1 H2 Hok. destruct (H1 Hok) as (Hok1 & Ho1 & Ht1), (H2 Hok1) as (Hok2 & Ho2 & Ht2).
  split_and!; [done|intros g; by rewrite Ho2|intros; by rewrite Ht2, Ht1].
Qed.

Lemma quiet_keeps_trans m1 m2 m3 : quiet m1 m2 -> keeps m2 m3 -> keeps m1 m3.
Proof.
  intros H1 H2 Hok. destruct (H1 Hok) as (Hok1 & Ho1 & Ht1), (H2 Hok1) as (Hok2 & Ht2 & Ho2).
  split_and!; [done| |].
  - intros a Ha. rewrite Ht2 by done. by apply Ht1, region_aligned.
  - intros a f p l Ha Hta Hof. apply (Ho2 a f p l Ha); [|by apply Ho1].
    by rewrite Ht1 by (by apply region_aligned).
Qed.

Lemma quiet_refl m : quiet m m.
Proof. by intros Hok. Qed.
End laws.
Arguments quiet {M _ _} _ _.
Arguments keeps {M _ _} _ _.

(** A machine's registers and memory words. *)
Definition registers_are {M} `{ThreadPlatform M} (sp : Z) (regs : registers) (flags : Z)
    (word : Z -> Z) (m : M) : Prop :=
  rsp m = sp /\ callee_saved m = regs /\ rflags m = flags /\ forall a, load a m = word a.

(** The promises behind [ThreadPlatform]:
    - releasing an owned frame reports success;
    - interrupts are on when bit 9 of RFLAGS is set; cli and sti clear and set
      that bit and nothing else;
    - loading a register changes that register only, a store no register, and the
      stack pointer holds 64 bits;
    - registers, timers and stores to memory move no frame and no mapping;
    - the heap leaves the stack region alone, and an allocated table is not at
      address 0;
    - a 64-bit word reads back as it was stored, and words a multiple of eight
      bytes apart do not overlap. *)
Class ThreadLaws (M : Type) `{HP : HeapPlatform M} `{!PlatformLaws M} `{!ThreadPlatform M} := {
  tl_release_status (m : M) f : platform_ok m -> owned m f -> frame_release_status f m = true;
  tl_interrupts (m : M) : cpu_interrupts_enabled m = Z.testbit (rflags m) 9;
  tl_disable (m : M) : quiet m (cpu_interrupt_disable m) /\
    registers_are (rsp m) (callee_saved m) (Z.ldiff (rflags m) RFLAGS_INTERRUPT_ENABLE) (fun a => load a m)
      (cpu_interrupt_disable m);
  tl_enable (m : M) : quiet m (cpu_interrupt_enable m) /\
    registers_are (rsp m) (callee_saved m) (Z.lor (rflags m) RFLAGS_INTERRUPT_ENABLE) (fun a => load a m)
      (cpu_interrupt_enable m);
  tl_set_rsp v (m : M) : quiet m (set_rsp v m) /\
    registers_are (u64 v) (callee_saved m) (rflags m) (fun a => load a m) (set_rsp v m);
  tl_set_callee_saved v (m : M) : quiet m (set_callee_saved v m) /\
    registers_are (rsp m) v (rflags m) (fun a => load a m) (set_callee_saved v m);
  tl_set_rflags v (m : M) : quiet m (set_rflags v m) /\
    registers_are (rsp m) (callee_saved m) v (fun a => load a m) (set_rflags v m);
  tl_store_registers a v (m : M) : rsp (store a v m) = rsp m /\
    callee_saved (store a v m) = callee_saved m /\ rflags (store a v m) = rflags m;
  tl_timer_arm d (m : M) : quiet m (timer_arm d m).2;
  tl_timer_cancel id (m : M) : quiet m (timer_cancel id m);
  tl_store a v (m : M) : quiet m (store a v m);
  tl_heap_allocate n (m : M) : keeps m (heap_allocate n m).2 /\
    forall p, (heap_allocate n m).1 = Some p -> p <> 0;
  tl_heap_free p (m : M) : quiet m (heap_free p m).2;
  tl_load_store a b v (m : M) : (8 | a - b) -> load a (store b v m) = if a =? b then v else load a m;
  tl_trampoline : thread_trampoline <> 0
}.

(** * Stacks in memory *)

Section stacks.
Context {M : Type} `{ThreadLaws M}.

(** The stacks of the slots [used] are mapped, each page to a frame of its own;
    everything else in the region is absent. *)
Record stacks_ok (used : Z -> bool) (m : M) : Prop := {
  so_ok : platform_ok m;
  so_guard : forall k, 0 <= k < THREAD_MAX -> paging_translate m (slot_guard_page k) = NotMapped;
  so_absent : forall k p, 0 <= k < THREAD_MAX -> 0 <= p < THREAD_STACK_PAGES -> used k = false ->
    paging_translate m (stack_page k p) = NotMapped;
  so_mapped : forall k p, 0 <= k < THREAD_MAX -> 0 <= p < THREAD_STACK_PAGES -> used k = true ->
    exists f, paging_translate m (stack_page k p) = Mapped f PAGING_WRITE 1 /\ owned m f;
  so_apart : forall k p k' p' f, 0 <= k < THREAD_MAX -> 0 <= p < THREAD_STACK_PAGES ->
    0 <= k' < THREAD_MAX -> 0 <= p' < THREAD_STACK_PAGES ->
    paging_translate m (stack_page k p) = Mapped f PAGING_WRITE 1 ->
    paging_translate m (stack_page k' p') = Mapped f PAGING_WRITE 1 -> k = k' /\ p = p'
}.

Lemma stacks_keep used m m' : keeps m m' -> stacks_ok used m -> stacks_ok used m'.
Proof.
  intros Hk [Hok Hg Ha Hm Hap]. destruct (Hk Hok) as (Hok' & Ht & Ho). split.
  - done.
  - intros k Hk'. rewrite Ht by (by apply guard_in_region). by apply Hg.
  - intros k p Hkr Hp Hu. rewrite Ht by (by apply stack_in_region). by apply Ha.
  - intros k p Hkr Hp Hu. destruct (Hm k p Hkr Hp Hu) as (f & E & Hf). exists f.
    rewrite Ht by (by apply stack_in_region). split; [done|].
    apply (Ho (stack_page k p) f PAGING_WRITE 1); [by apply stack_in_region|done|done].
  - intros k p k' p' f Hkr Hp Hkr' Hp'. rewrite !Ht by (by apply stack_in_region).
    by apply Hap.
Qed.

Lemma stacks_ext used used' m :
  (forall k, 0 <= k < THREAD_MAX -> used' k = used k) -> stacks_ok used m -> stacks_ok used' m.
Proof.
  intros E [Hok Hg Ha Hm Hap]. split; try done; intros k p Hk Hp; rewrite E by done; auto.
Qed.

(** [m] is [m0] with the first [n] pages of slot [k]'s stack mapped to the fresh
    frames [F]. *)
Record gained (m0 m : M) (k n : Z) (F : Z -> Z) : Prop := {
  ga_ok : platform_ok m;
  ga_in : forall p, 0 <= p < n -> paging_translate m (stack_page k p) = Mapped (F p) PAGING_WRITE 1 /\
    paging_translate m0 (stack_page k p) = NotMapped;
  ga_out : forall a, page_aligned a -> (forall p, 0 <= p < n -> a <> stack_page k p) ->
    paging_translate m a = paging_translate m0 a;
  ga_owned : forall g, owned m g <-> owned m0 g \/ exists p, 0 <= p < n /\ F p = g;
  ga_fresh : forall p, 0 <= p < n -> ~ owned m0 (F p);
  ga_inj : forall p q, 0 <= p < n -> 0 <= q < n -> F p = F q -> p = q
}.

(** [m'] is [m] without the first [n] pages of slot [k]'s stack and their frames. *)
Record lost (m m' : M) (k n : Z) (F : Z -> Z) : Prop := {
  lo_ok : platform_ok m';
  lo_in : forall p, 0 <= p < n -> paging_translate m' (stack_page k p) = NotMapped;
  lo_out : forall a, page_aligned a -> (forall p, 0 <= p < n -> a <> stack_page k p) ->
    paging_translate m' a = paging_translate m a;
  lo_owned : forall g, owned m' g <-> owned m g /\ forall p, 0 <= p < n -> F p <> g
}.

(** Machines with the same frames and mappings. *)
Definition same_memory (m m' : M) : Prop :=
  platform_ok m' /\ (forall g, owned m' g <-> owned m g) /\
  forall a, page_aligned a -> paging_translate m' a = paging_translate m a.

Lemma gained_nil m k F : platform_ok m -> gained m m k 0 F.
Proof.
  intros Hok. split; try done; try lia. intros g. split; [by left|]. intros [?|(p & ? & _)]; [done|lia].
Qed.

Lemma lost_nil m k F : platform_ok m -> lost m m k 0 F.
Proof. intros Hok. split; try done; try lia. intros g. split; [|tauto]. intros ?. split; [done|lia]. Qed.

Lemma gained_lost m0 m m' k n F : gained m0 m k n F -> lost m m' k n F -> same_memory m0 m'.
Proof.
  intros [Hok Hin Hout Ho Hf Hi] [Hok' Hin' Hout' Ho']. split_and!; [done| |].
  - intros g. rewrite Ho', Ho. split.
    + intros [[?|(p & Hp & E)] Hne]; [done|]. by destruct (Hne p Hp).
    + intros Hg. split; [by left|]. intros p Hp <-. by apply (Hf p).
  - intros a Ha. destruct (decide (Exists (fun p => a = stack_page k p) (seqZ 0 n))) as [He|Hne].
    + apply Exists_exists in He as (p & Hp%elem_of_seqZ & ->).
      destruct (Hin p) as [_ ->]; [lia|]. apply Hin'. lia.
    + assert (forall p, 0 <= p < n -> a <> stack_page k p) as Hn.
      { intros p Hp ->. apply Hne, Exists_exists. exists p. split; [|done]. apply elem_of_seqZ. lia. }
      by rewrite Hout', Hout.
Qed.

(** One more page mapped. *)
Lemma gained_step m0 m k n F :
  0 <= k < THREAD_MAX -> 0 <= n < THREAD_STACK_PAGES -> gained m0 m k n F ->
  match map_stack_page (slot_stack_base k) n m with
  | Next m' => exists f, gained m0 m' k (n + 1) (fun p => if p =? n then f else F p)
  | Return (st, j, m') => st <> THREAD_STATUS_OK /\ j = n /\ gained m0 m' k n F
  end.
Proof.
  intros Hk Hn [Hok Hin Hout Ho Hf Hi]. unfold map_stack_page. fold (stack_page k n).
  pose proof (region_aligned _ (stack_in_region k n Hk Hn)) as Hal.
  assert (forall p, 0 <= p < n -> stack_page k n <> stack_page k p) as Hne.
  { intros p Hp E. apply stack_page_inj in E; lia. }
  pose proof (law_allocate m Hok) as H1. destruct (frame_allocate m) as [[f|] m1]; cycle 1.
  { destruct H1 as (Hok1 & Ho1 & Ht1). split_and!; [done|done|].
    split; try done.
    - intros p Hp. rewrite Ht1 by (apply region_aligned, stack_in_region; lia || done).
      by apply Hin.
    - intros a Ha Hna. rewrite Ht1 by done. by apply Hout.
    - intros g. by rewrite Ho1, Ho. }
  destruct H1 as (Hok1 & Hnf & Ho1 & Ht1).
  pose proof (law_map m1 (stack_page k n) f Hok1 Hal) as H2.
  destruct (paging_map _ _ m1) as [[] m2]; cycle 1.
  { destruct H2 as (Hok2 & Ho2 & Ht2 & _); [by apply Ho1; right|].
    pose proof (law_release m2 f Hok2) as H3.
    destruct H3 as (Hok3 & Ho3 & Ht3); [by apply Ho2, Ho1; right|].
    split_and!; [done|done|]. split; try done.
    - intros p Hp. assert (page_aligned (stack_page k p)) by (apply region_aligned, stack_in_region; lia || done).
      rewrite Ht3, Ht2, Ht1 by done. by apply Hin.
    - intros a Ha Hna. rewrite Ht3, Ht2, Ht1 by done. by apply Hout.
    - intros g. rewrite Ho3, Ho2, Ho1, Ho. split; [tauto|]. intros Hg. split; [tauto|].
      intros ->. apply Hnf. by apply Ho. }
  destruct H2 as (Hok2 & Ho2 & Ht2 & Hmap); [by apply Ho1; right|].
  destruct (Hmap eq_refl) as [Hno Hnew]. exists f. split; try done.
  - intros p Hp. destruct (p =? n) eqn:E; bool_hyps.
    + subst p. split; [done|]. rewrite <- Hno, Ht1 by done. symmetry. by apply Hout.
    + assert (page_aligned (stack_page k p)) by (apply region_aligned, stack_in_region; lia || done).
      rewrite Ht2, Ht1; [apply Hin; lia|done|done|]. intros _ E'. apply (Hne p); [lia|done].
  - intros a Ha Hna. rewrite Ht2, Ht1; [apply Hout| | |]; try done.
    + intros p Hp. apply Hna. lia.
    + intros _. apply Hna. lia.
  - intros g. rewrite Ho2, Ho1, Ho. split.
    + intros [[?|(p & Hp & E)]|Eg]; [by left| |].
      * right. exists p. split; [lia|]. by destruct (p =? n) eqn:E'; bool_hyps; [lia|].
      * right. exists n. rewrite Z.eqb_refl. split; [lia|done].
    + intros [?|(p & Hp & E)]; [tauto|]. destruct (p =? n) eqn:E'; bool_hyps; [by right|].
      left. right. exists p. split; [lia|done].
  - intros p Hp. destruct (p =? n) eqn:E; bool_hyps; [|apply Hf; lia].
    intros Hg. apply Hnf. apply Ho. by left.
  - intros p q Hp Hq. destruct (p =? n) eqn:E1, (q =? n) eqn:E2; bool_hyps; try lia.
    + intros E. exfalso. apply Hnf, Ho. right. exists q. split; [lia|done].
    + intros E. exfalso. apply Hnf, Ho. right. exists p. split; [lia|done].
    + apply Hi; lia.
Qed.

(** One page given back. *)
Lemma lost_step m m' k n F f :
  0 <= k < THREAD_MAX -> 0 <= n < THREAD_STACK_PAGES -> lost m m' k n F ->
  paging_translate m (stack_page k n) = Mapped f PAGING_WRITE 1 -> F n = f -> owned m f ->
  (forall p, 0 <= p < n -> F p <> f) ->
  exists m1, paging_translate m' (stack_page k n) = Mapped f PAGING_WRITE 1 /\
    paging_unmap (stack_page k n) m' = (true, m1) /\ frame_release_status f m1 = true /\
    lost m (frame_release f m1) k (n + 1) F.
Proof.
  intros Hk Hn [Hok Hin Hout Ho] Ht Hf Hown Hne.
  pose proof (region_aligned _ (stack_in_region k n Hk Hn)) as Hal.
  assert (forall p, 0 <= p < n -> stack_page k n <> stack_page k p) as Hnp.
  { intros p Hp E. apply stack_page_inj in E; lia. }
  assert (paging_translate m' (stack_page k n) = Mapped f PAGING_WRITE 1) as Ht'
    by (by rewrite Hout).
  pose proof (law_unmap m' _ f Hok Hal Ht') as H1. destruct (paging_unmap _ m') as [b m1].
  destruct H1 as (-> & Hok1 & Ho1 & Ht1 & Hgone).
  assert (owned m1 f) as Hf1 by (by apply Ho1, Ho).
  destruct (law_release m1 f Hok1 Hf1) as (Hok2 & Ho2 & Ht2).
  exists m1. split_and!; [done|done|by apply tl_release_status|]. split; [done| | |].
  - intros p Hp. assert (page_aligned (stack_page k p)) by (apply region_aligned, stack_in_region; lia || done).
    rewrite Ht2 by done. destruct (decide (p = n)) as [->|]; [done|].
    rewrite Ht1; [apply Hin; lia|done|]. intros E. apply (Hnp p); [lia|done].
  - intros a Ha Hna. rewrite Ht2, Ht1 by (done || (apply Hna; lia)). apply Hout; [done|].
    intros p Hp. apply Hna. lia.
  - intros g. rewrite Ho2, Ho1, Ho. split.
    + intros [[Hg Hgn] Hgf]. split; [done|]. intros p Hp.
      destruct (decide (p = n)) as [->|]; [congruence|]. apply Hgn. lia.
    + intros [Hg Hgn]. split_and!; [done|intros p Hp; apply Hgn; lia|].
      intros ->. apply (Hgn n); [lia|done].
Qed.

(** Unwinding the pages a failed map_stack had mapped. *)
Lemma unwind_lost m k n F :
  0 <= k < THREAD_MAX -> 0 <= n <= THREAD_STACK_PAGES -> platform_ok m ->
  (forall p, 0 <= p < n -> paging_translate m (stack_page k p) = Mapped (F p) PAGING_WRITE 1 /\
     owned m (F p)) ->
  (forall p q, 0 <= p < n -> 0 <= q < n -> F p = F q -> p = q) ->
  lost m (foldl (unwind_stack_page (slot_stack_base k)) m (seqZ 0 n)) k n F.
Proof.
  intros Hk Hn Hok Hm Hinj. destruct Hn as [Hn0 Hn]. revert Hn Hm Hinj. pattern n.
  apply natlike_ind; [| |done]; clear n Hn0.
  - intros _ _ _. cbn. by apply lost_nil.
  - intros n Hn IH Hle Hm Hinj. rewrite <- Z.add_1_r, seqZ_app, foldl_app, Z.add_0_l by lia.
    rewrite (seqZ_cons n 1), (seqZ_nil (Z.succ n)) by lia. cbn [foldl].
    assert (lost m (foldl (unwind_stack_page (slot_stack_base k)) m (seqZ 0 n)) k n F) as Hl.
    { apply IH; [lia| |]; intros; [apply Hm; lia|apply Hinj; lia || done]. }
    destruct (Hm n) as [Ht Ho]; [lia|].
    destruct (lost_step m _ k n F (F n) Hk ltac:(lia) Hl Ht eq_refl Ho)
      as (m1 & Ht' & Hu & _ & Hl'); [intros p Hp E; apply Hinj in E; lia|].
    revert Ht' Hu. generalize (foldl (unwind_stack_page (slot_stack_base k)) m (seqZ 0 n)).
    intros mn Ht' Hu. unfold unwind_stack_page. fold (stack_page k n). by rewrite Ht', Hu.
Qed.

(** The mapping loop, started after the first [n] pages. *)
Lemma map_loop m0 m k n F :
  0 <= k < THREAD_MAX -> 0 <= n <= THREAD_STACK_PAGES -> gained m0 m k n F ->
  match for_each (map_stack_page (slot_stack_base k)) (seqZ n (THREAD_STACK_PAGES - n)) m with
  | Next m' => exists F', gained m0 m' k THREAD_STACK_PAGES F'
  | Return (st, j, m') => st <> THREAD_STATUS_OK /\ 0 <= j < THREAD_STACK_PAGES /\
      exists F', gained m0 m' k j F'
  end.
Proof.
  intros Hk. remember (Z.to_nat (THREAD_STACK_PAGES - n)) as d eqn:Ed. revert m n F Ed.
  induction d as [|d IH]; intros m n F Ed Hn Hg.
  - rewrite seqZ_nil by lia. cbn. assert (n = THREAD_STACK_PAGES) as -> by lia. eauto.
  - rewrite seqZ_cons by lia. cbn [for_each].
    pose proof (gained_step m0 m k n F Hk ltac:(lia) Hg) as Hs.
    destruct (map_stack_page _ n m) as [m'|[[st j] m']].
    + destruct Hs as [f Hs]. specialize (IH m' (n + 1) _ ltac:(lia) ltac:(lia) Hs).
      replace (Z.pred (THREAD_STACK_PAGES - n)) with (THREAD_STACK_PAGES - (n + 1)) by lia.
      by replace (Z.succ n) with (n + 1) by lia.
    + destruct Hs as (Hst & -> & Hs). split_and!; [done|lia|lia|eauto].
Qed.

Lemma map_stack_spec s m k :
  0 <= k < THREAD_MAX -> platform_ok m ->
  let '(st, s', m') := map_stack k s m in
  (st = THREAD_STATUS_OK /\
   s' = with_state s (set_stack_frames s.(state)
          (u64 (s.(state).(stack_frames) + THREAD_STACK_PAGES))) /\
   exists F, gained m m' k THREAD_STACK_PAGES F) \/
  (st <> THREAD_STATUS_OK /\ s' = s /\ same_memory m m').
Proof.
  intros Hk Hok. unfold map_stack.
  pose proof (map_loop m m k 0 (fun _ => 0) Hk ltac:(done) (gained_nil m k _ Hok)) as Hl.
  rewrite Z.sub_0_r in Hl.
  destruct (for_each _ _ m) as [m'|[[st j] m']]; [by left|].
  right. destruct Hl as (Hst & Hj & F & Hg). split_and!; try done.
  eapply gained_lost; [exact Hg|]. destruct Hg as [Hok' Hin _ Ho _ Hinj].
  apply unwind_lost; try done; try lia.
  intros p Hp. destruct (Hin p Hp) as [Ht _]. split; [done|]. apply Ho. right. eauto.
Qed.

Lemma stacks_gained used m m' k F :
  stacks_ok used m -> 0 <= k < THREAD_MAX -> used k = false ->
  gained m m' k THREAD_STACK_PAGES F -> stacks_ok (fun j => used j || (j =? k)) m'.
Proof.
  intros [Hok Hg Ha Hm Hap] Hk Hu [Hok' Hin Hout Ho Hf Hi].
  assert (forall j p, 0 <= j < THREAD_MAX -> 0 <= p < THREAD_STACK_PAGES -> j <> k ->
    paging_translate m' (stack_page j p) = paging_translate m (stack_page j p)) as Hsame.
  { intros j p Hj Hp Hne. apply Hout; [by apply region_aligned, stack_in_region|].
    intros q Hq E. apply stack_page_inj in E; [|done|done]. lia. }
  split; [done| | | |].
  - intros j Hj. rewrite Hout; [by apply Hg|by apply region_aligned, guard_in_region|].
    intros p Hp. by apply guard_not_stack.
  - intros j p Hj Hp Huj. bool_hyps. rewrite Hsame by done. by apply Ha.
  - intros j p Hj Hp Huj. destruct (decide (j = k)) as [->|Hne].
    + exists (F p). destruct (Hin p Hp) as [Ht _]. split; [done|]. apply Ho. right. eauto.
    + assert (used j = true) as Hj1 by (apply orb_prop in Huj as [?|?]; bool_hyps; done).
      destruct (Hm j p Hj Hp Hj1) as (f & Ht & Hof). exists f. rewrite Hsame by done.
      split; [done|]. apply Ho. by left.
  - assert (forall j p q f, 0 <= j < THREAD_MAX -> 0 <= p < THREAD_STACK_PAGES ->
      0 <= q < THREAD_STACK_PAGES -> j <> k ->
      paging_translate m' (stack_page j p) = Mapped f PAGING_WRITE 1 -> F q <> f) as Hcross.
    { intros j p q f Hj Hp Hq Hne Ht E. rewrite Hsame in Ht by done.
      destruct (used j) eqn:Euj; [|by rewrite Ha in Ht].
      destruct (Hm j p Hj Hp Euj) as (f' & Ht' & Hof). rewrite Ht in Ht'. simplify_eq.
      by apply (Hf q). }
    intros j p j' p' f Hj Hp Hj' Hp'.
    destruct (decide (j = k)) as [->|Hne], (decide (j' = k)) as [->|Hne'].
    + destruct (Hin p Hp) as [-> _], (Hin p' Hp') as [-> _]. intros E1 E2. split; [done|].
      apply Hi; [done|done|]. congruence.
    + destruct (Hin p Hp) as [-> _]. intros [= E1] E2. exfalso. by apply (Hcross j' p' p f).
    + intros E1. destruct (Hin p' Hp') as [-> _]. intros [= E2]. exfalso.
      by apply (Hcross j p p' f).
    + rewrite !Hsame by done. by apply Hap.
Qed.

(** The frame behind a stack page. *)
Definition frame_behind (m : M) (k p : Z) : Z :=
  match paging_translate m (stack_page k p) with Mapped f _ _ => f | _ => 0 end.

Definition less_frames (s : scheduler) (n : Z) : scheduler :=
  with_state s (set_stack_frames s.(state) (s.(state).(stack_frames) - n)).

Lemma unmap_loop used s m s1 m1 k n :
  stacks_ok used m -> 0 <= k < THREAD_MAX -> used k = true ->
  0 <= n <= THREAD_STACK_PAGES ->
  THREAD_STACK_PAGES <= s.(state).(stack_frames) <= UINT64_MAX ->
  s1 = less_frames s n -> lost m m1 k n (frame_behind m k) ->
  exists m', for_each (unmap_stack_page (slot_stack_base k)) (seqZ n (THREAD_STACK_PAGES - n))
    (s1, m1) = Next (less_frames s THREAD_STACK_PAGES, m') /\
    lost m m' k THREAD_STACK_PAGES (frame_behind m k).
Proof.
  intros Hst Hk Hu Hn Hfr. remember (Z.to_nat (THREAD_STACK_PAGES - n)) as d eqn:Ed.
  revert s1 m1 n Ed Hn. induction d as [|d IH]; intros s1 m1 n Ed Hn Es Hl.
  { rewrite seqZ_nil by lia. assert (n = THREAD_STACK_PAGES) as -> by lia. subst s1. by exists m1. }
  rewrite seqZ_cons by lia. cbn [for_each unmap_stack_page]. fold (stack_page k n).
  assert (0 <= n < THREAD_STACK_PAGES) as Hn' by lia.
  destruct (so_mapped _ _ Hst k n Hk Hn' Hu) as (f & Ht & Ho).
  assert (frame_behind m k n = f) as Ef by (unfold frame_behind; by rewrite Ht).
  destruct (lost_step m m1 k n (frame_behind m k) f Hk Hn' Hl Ht Ef Ho) as (m2 & E1 & E2 & E3 & Hl').
  { intros p Hp E. destruct (so_mapped _ _ Hst k p Hk ltac:(lia) Hu) as (f' & Ht' & _).
    unfold frame_behind in E. rewrite Ht' in E. subst f'.
    destruct (so_apart _ _ Hst k p k n f Hk ltac:(lia) Hk Hn' Ht' Ht). lia. }
  rewrite E1, E2, E3. cbn [negb].
  replace (Z.succ n) with (n + 1) by lia.
  replace (Z.pred (THREAD_STACK_PAGES - n)) with (THREAD_STACK_PAGES - (n + 1)) by lia.
  apply IH; [lia|lia| |done]. subst s1. unfold less_frames. cbn [state with_state stack_frames set_stack_frames].
  unfold THREAD_STACK_PAGES in *.
  rewrite u64_small by (unfold is_u64; lia). replace (stack_frames (state s) - n - 1) with
    (stack_frames (state s) - (n + 1)) by lia. done.
Qed.

Lemma unmap_stack_spec used s m k :
  stacks_ok used m -> 0 <= k < THREAD_MAX -> used k = true ->
  THREAD_STACK_PAGES <= s.(state).(stack_frames) <= UINT64_MAX ->
  exists m', unmap_stack k s m = (THREAD_STATUS_OK, less_frames s THREAD_STACK_PAGES, m') /\
    lost m m' k THREAD_STACK_PAGES (frame_behind m k).
Proof.
  intros Hst Hk Hu Hfr.
  destruct (unmap_loop used s m s m k 0 Hst Hk Hu ltac:(done) Hfr) as (m' & E & Hl).
  - unfold less_frames, with_state, set_stack_frames. rewrite Z.sub_0_r. by destruct s as [[] ? ? ? ? ? ? ?].
  - apply lost_nil, Hst.
  - exists m'. split; [|done]. unfold unmap_stack. rewrite Z.sub_0_r in E. by rewrite E.
Qed.

Lemma stacks_lost used m m' k :
  stacks_ok used m -> 0 <= k < THREAD_MAX -> used k = true ->
  lost m m' k THREAD_STACK_PAGES (frame_behind m k) ->
  stacks_ok (fun j => used j && negb (j =? k)) m'.
Proof.
  intros [Hok Hg Ha Hm Hap] Hk Huk [Hok' Hin Hout Ho].
  assert (forall j p, 0 <= j < THREAD_MAX -> 0 <= p < THREAD_STACK_PAGES -> j <> k ->
    paging_translate m' (stack_page j p) = paging_translate m (stack_page j p)) as Hsame.
  { intros j p Hj Hp Hne. apply Hout; [by apply region_aligned, stack_in_region|].
    intros q Hq E. apply stack_page_inj in E; [|done|done]. lia. }
  split; [done| | | |].
  - intros j Hj. rewrite Hout; [by apply Hg|by apply region_aligned, guard_in_region|].
    intros p Hp. by apply guard_not_stack.
  - intros j p Hj Hp Huj. destruct (decide (j = k)) as [->|Hne]; [by apply Hin|].
    rewrite Hsame by done. apply Ha; try done.
    assert ((j =? k) = false) as E by (by apply Z.eqb_neq). by rewrite E, andb_true_r in Huj.
  - intros j p Hj Hp Huj. bool_hyps. destruct (Hm j p Hj Hp) as (f & Ht & Hof); [done|].
    exists f. rewrite Hsame by done. split; [done|]. apply Ho. split; [done|].
    intros q Hq E. destruct (Hm k q Hk Hq Huk) as (f' & Ht' & _).
    unfold frame_behind in E. rewrite Ht' in E. subst f'.
    destruct (Hap j p k q f Hj Hp Hk Hq Ht Ht'). done.
  - intros j p j' p' f Hj Hp Hj' Hp'.
    destruct (decide (j = k)) as [->|Hne]; [by rewrite Hin|].
    destruct (decide (j' = k)) as [->|Hne']; [by intros _; rewrite Hin|].
    rewrite !Hsame by done. by apply Hap.
Qed.
End stacks.

(** * The table *)

Definition in_state (s : scheduler) (k : Z) (x : thread_state) : Prop := (thread_at s k).(tstate) = x.

Lemma is_state_true x t : is_state x t = true <-> t.(tstate) = x.
Proof. unfold is_state. by rewrite bool_decide_eq_true. Qed.
Lemma is_state_false x t : is_state x t = false <-> t.(tstate) <> x.
Proof. unfold is_state. by rewrite bool_decide_eq_false. Qed.

(** A slot whose stack is mapped. *)
Definition used_slot (s : scheduler) (k : Z) : bool :=
  (1 <=? k) && negb (is_state THREAD_STATE_UNUSED (thread_at s k)).

Definition live_thread (t : thread) : bool :=
  is_state THREAD_STATE_READY t || is_state THREAD_STATE_RUNNING t.

Definition count_slots (s : scheduler) (p : thread -> bool) : Z :=
  countb (fun k => p (thread_at s k)) (seqZ 0 THREAD_MAX).

(** What holds of the table of a started scheduler between operations. *)
Record table_ok (s : scheduler) : Prop := {
  ta_len : zlength s.(threads) = THREAD_MAX;
  ta_controls : zlength s.(suspended) = THREAD_MAX;
  ta_active : s.(state).(active) = true;
  ta_capacity : s.(state).(capacity) = THREAD_MAX;
  ta_table : s.(table) <> 0;
  ta_slot : 0 <= s.(current_slot) < THREAD_MAX;
  ta_running : forall k, 0 <= k < THREAD_MAX ->
    in_state s k THREAD_STATE_RUNNING <-> k = s.(current_slot);
  ta_boot : (thread_at s 0).(boot_thread) = true /\ (thread_at s 0).(stack_top) = 0 /\
    ~ in_state s 0 THREAD_STATE_UNUSED /\ ~ in_state s 0 THREAD_STATE_EXITED;
  ta_rest : forall k, 1 <= k < THREAD_MAX -> (thread_at s k).(boot_thread) = false /\
    (~ in_state s k THREAD_STATE_UNUSED ->
     (thread_at s k).(stack_base) = slot_stack_base k /\
     (thread_at s k).(stack_top) = slot_stack_top k);
  ta_blank : forall k, 1 <= k < THREAD_MAX -> in_state s k THREAD_STATE_UNUSED ->
    thread_at s k = no_thread;
  ta_pointer : forall k, 1 <= k < THREAD_MAX -> in_state s k THREAD_STATE_READY ->
    slot_stack_base k <= (thread_at s k).(stack_pointer) <= slot_stack_top k;
  ta_control : forall k, 0 <= k < THREAD_MAX -> in_state s k THREAD_STATE_READY ->
    control_at s k <> InExit;
  ta_next : s.(next_identifier) <= UINT64_MAX;
  ta_ids : forall k, 0 <= k < THREAD_MAX -> ~ in_state s k THREAD_STATE_UNUSED ->
    1 <= (thread_at s k).(identifier) < s.(next_identifier);
  ta_distinct : forall j k, 0 <= j < THREAD_MAX -> 0 <= k < THREAD_MAX ->
    ~ in_state s j THREAD_STATE_UNUSED -> ~ in_state s k THREAD_STATE_UNUSED ->
    (thread_at s j).(identifier) = (thread_at s k).(identifier) -> j = k;
  ta_current : s.(state).(current) = (thread_at s s.(current_slot)).(identifier);
  ta_live : s.(state).(live) = count_slots s live_thread;
  ta_ready : s.(state).(ready) = count_slots s (is_state THREAD_STATE_READY);
  ta_exited : s.(state).(exited) = count_slots s (is_state THREAD_STATE_EXITED);
  ta_frames : s.(state).(stack_frames) =
    THREAD_STACK_PAGES * countb (used_slot s) (seqZ 0 THREAD_MAX)
}.

Lemma count_threads_fold s l a b c :
  foldl (fun c slot => count_thread c (thread_at s slot)) (a, b, c) l =
  (a + countb (fun k => live_thread (thread_at s k)) l,
   b + countb (fun k => is_state THREAD_STATE_READY (thread_at s k)) l,
   c + countb (fun k => is_state THREAD_STATE_EXITED (thread_at s k)) l).
Proof.
  revert a b c. induction l as [|k l IH]; intros a b c; cbn [foldl countb].
  { by rewrite !Z.add_0_r. }
  assert (count_thread (a, b, c) (thread_at s k) =
    (a + (if live_thread (thread_at s k) then 1 else 0),
     b + (if is_state THREAD_STATE_READY (thread_at s k) then 1 else 0),
     c + (if is_state THREAD_STATE_EXITED (thread_at s k) then 1 else 0))) as ->.
  { unfold count_thread, live_thread, is_state.
    destruct (tstate (thread_at s k)); cbn; by rewrite ?Z.add_0_r. }
  by rewrite IH, !Z.add_assoc.
Qed.

Lemma recount_eq s :
  s.(state).(capacity) = THREAD_MAX ->
  recount s = with_state s (set_counts s.(state) (count_slots s live_thread)
    (count_slots s (is_state THREAD_STATE_READY)) (count_slots s (is_state THREAD_STATE_EXITED))).
Proof.
  intros E. unfold recount, slots. rewrite E, count_threads_fold, !Z.add_0_l. done.
Qed.

(** The scan for the next ready slot. *)
Lemma next_ready_spec s from :
  s.(state).(capacity) = THREAD_MAX -> 0 <= from < THREAD_MAX ->
  (next_ready_slot from s = from /\
   forall k, 0 <= k < THREAD_MAX -> k <> from -> ~ in_state s k THREAD_STATE_READY) \/
  (exists d, 1 <= d < THREAD_MAX /\ next_ready_slot from s = (from + d) mod THREAD_MAX /\
     in_state s ((from + d) mod THREAD_MAX) THREAD_STATE_READY /\
     forall e, 1 <= e < d -> ~ in_state s ((from + e) mod THREAD_MAX) THREAD_STATE_READY).
Proof.
  intros Hcap Hf. unfold next_ready_slot. rewrite Hcap.
  set (p step := is_state THREAD_STATE_READY (thread_at s (u64 (from + step) mod THREAD_MAX))).
  rewrite (for_each_scan p (fun step => u64 (from + step) mod THREAD_MAX)).
  assert (forall e, 1 <= e <= THREAD_MAX -> u64 (from + e) = from + e) as Hu.
  { intros e He. apply u64_small. unfold is_u64, UINT64_MAX, THREAD_MAX in *. lia. }
  destruct (List.find p (seqZ 1 THREAD_MAX)) as [d|] eqn:E.
  - apply find_seqZ_Some in E as (Hd & Hp & Hlow). unfold p in Hp. rewrite Hu in * by lia.
    apply is_state_true in Hp.
    assert (forall e, 1 <= e < d -> ~ in_state s ((from + e) mod THREAD_MAX) THREAD_STATE_READY) as Hl.
    { intros e He. specialize (Hlow e He). unfold p in Hlow. rewrite Hu in Hlow by lia.
      by apply is_state_false in Hlow. }
    destruct (decide (d = THREAD_MAX)) as [->|Hne]; [left|right; exists d; split_and!; done || lia].
    assert ((from + THREAD_MAX) mod THREAD_MAX = from) as Efrom.
    { rewrite <- (Z.mod_small from THREAD_MAX Hf) at 2. rewrite <- (Z.mul_1_l THREAD_MAX) at 1.
      by apply Z.mod_add. }
    split; [done|]. intros k Hk Hkf. destruct (decide (from < k)).
    + specialize (Hl (k - from) ltac:(lia)). rewrite Z.mod_small in Hl by lia.
      by replace (from + (k - from)) with k in Hl by lia.
    + specialize (Hl (k - from + THREAD_MAX) ltac:(lia)).
      replace (from + (k - from + THREAD_MAX)) with (k + 1 * THREAD_MAX) in Hl by lia.
      rewrite Z.mod_add, Z.mod_small in Hl by done. done.
  - left. split; [done|]. rewrite find_seqZ_None in E.
    assert (forall e, 1 <= e <= THREAD_MAX -> ~ in_state s ((from + e) mod THREAD_MAX) THREAD_STATE_READY) as Hl.
    { intros e He. specialize (E e ltac:(lia)). unfold p in E. rewrite Hu in E by lia.
      by apply is_state_false in E. }
    intros k Hk Hkf. destruct (decide (from < k)).
    + specialize (Hl (k - from) ltac:(lia)). rewrite Z.mod_small in Hl by lia.
      by replace (from + (k - from)) with k in Hl by lia.
    + specialize (Hl (k - from + THREAD_MAX) ltac:(lia)).
      replace (from + (k - from + THREAD_MAX)) with (k + 1 * THREAD_MAX) in Hl by lia.
      rewrite Z.mod_add, Z.mod_small in Hl by done. done.
Qed.

(** ** Handing the processor over *)

(** [s'] is [s] after the running thread went to state [x], leaving [sp] and
    [point] behind, and slot [next] took the processor. *)
Record handed (s s' : scheduler) (next : Z) (x : thread_state) (sp : Z) (point : control) : Prop := {
  hd_next : 0 <= next < THREAD_MAX;
  hd_other : next <> s.(current_slot);
  hd_ready : in_state s next THREAD_STATE_READY;
  hd_threads : zlength s'.(threads) = THREAD_MAX;
  hd_controls : zlength s'.(suspended) = THREAD_MAX;
  hd_thread : forall k, 0 <= k < THREAD_MAX -> thread_at s' k =
    if k =? next then set_switches (set_tstate (thread_at s next) THREAD_STATE_RUNNING)
                        (u64 ((thread_at s next).(switches) + 1))
    else if k =? s.(current_slot) then
      set_stack_pointer (set_tstate (thread_at s s.(current_slot)) x) sp
    else thread_at s k;
  hd_control : forall k, 0 <= k < THREAD_MAX ->
    control_at s' k = if k =? s.(current_slot) then point else control_at s k;
  hd_slot : s'.(current_slot) = next;
  hd_table : s'.(table) = s.(table);
  hd_id : s'.(next_identifier) = s.(next_identifier);
  hd_quantum : s'.(quantum_identifier) = s.(quantum_identifier);
  hd_state : s'.(state) =
    set_counts (set_switched s.(state) (thread_at s next).(identifier)
                  (u64 (s.(state).(total_switches) + 1)))
      (count_slots s' live_thread) (count_slots s' (is_state THREAD_STATE_READY))
      (count_slots s' (is_state THREAD_STATE_EXITED))
}.

Lemma handed_identifier s s' next x sp point k :
  handed s s' next x sp point -> 0 <= k < THREAD_MAX ->
  (thread_at s' k).(identifier) = (thread_at s k).(identifier) /\
  (thread_at s' k).(boot_thread) = (thread_at s k).(boot_thread) /\
  (thread_at s' k).(stack_base) = (thread_at s k).(stack_base) /\
  (thread_at s' k).(stack_top) = (thread_at s k).(stack_top).
Proof.
  intros Hh Hk. rewrite (hd_thread _ _ _ _ _ _ Hh k Hk).
  destruct (k =? next) eqn:E1; bool_hyps; [by subst|].
  destruct (k =? current_slot s) eqn:E2; bool_hyps; by subst.
Qed.

Lemma handed_state s s' next x sp point k :
  handed s s' next x sp point -> 0 <= k < THREAD_MAX ->
  (thread_at s' k).(tstate) =
  if k =? next then THREAD_STATE_RUNNING else if k =? s.(current_slot) then x
  else (thread_at s k).(tstate).
Proof.
  intros Hh Hk. rewrite (hd_thread _ _ _ _ _ _ Hh k Hk). by repeat split_if.
Qed.

Lemma handed_unused s s' next x sp point k :
  table_ok s -> handed s s' next x sp point -> x <> THREAD_STATE_UNUSED ->
  0 <= k < THREAD_MAX ->
  (thread_at s' k).(tstate) = THREAD_STATE_UNUSED <-> (thread_at s k).(tstate) = THREAD_STATE_UNUSED.
Proof.
  intros Ht Hh Hx Hk. rewrite (handed_state s s' next x sp point k Hh Hk).
  pose proof (hd_ready _ _ _ _ _ _ Hh) as Hr. unfold in_state in Hr.
  pose proof (ta_running _ Ht k Hk) as Hrun. unfold in_state in Hrun.
  destruct (k =? next) eqn:E1; bool_hyps; [subst; split; congruence|].
  destruct (k =? current_slot s) eqn:E2; bool_hyps; [|done].
  rewrite (proj2 Hrun E2). split; congruence.
Qed.

Lemma handed_used s s' next x sp point k :
  table_ok s -> handed s s' next x sp point -> x <> THREAD_STATE_UNUSED ->
  0 <= k < THREAD_MAX -> used_slot s' k = used_slot s k.
Proof.
  intros Ht Hh Hx Hk. unfold used_slot, is_state. f_equal. f_equal. apply bool_decide_ext.
  by apply (handed_unused s s' next x sp point).
Qed.

Lemma handed_ok s s' next x sp point :
  table_ok s -> handed s s' next x sp point ->
  x = THREAD_STATE_READY \/ (x = THREAD_STATE_EXITED /\ 1 <= s.(current_slot)) ->
  (1 <= s.(current_slot) -> x = THREAD_STATE_READY ->
   slot_stack_base s.(current_slot) <= sp <= slot_stack_top s.(current_slot)) ->
  (x = THREAD_STATE_READY -> point <> InExit) -> table_ok s'.
Proof.
  intros Ht Hh Hx Hsp Hpt. assert (x <> THREAD_STATE_UNUSED) as Hxu by (by destruct Hx as [-> |[-> _]]).
  pose proof (fun k Hk => handed_identifier s s' next x sp point k Hh Hk) as Hid.
  pose proof (fun k Hk => handed_state s s' next x sp point k Hh Hk) as Hst.
  pose proof (fun k Hk => handed_unused s s' next x sp point k Ht Hh Hxu Hk) as Hun.
  pose proof (hd_next _ _ _ _ _ _ Hh) as Hn. pose proof (hd_other _ _ _ _ _ _ Hh) as Hno.
  pose proof (hd_ready _ _ _ _ _ _ Hh) as Hnr. pose proof (ta_slot _ Ht) as Hc.
  assert (0 <= 0 < THREAD_MAX) as H0 by done. unfold in_state in *.
  pose proof (hd_state _ _ _ _ _ _ Hh) as Hs'. split.
  - apply Hh.
  - apply Hh.
  - rewrite Hs'. apply (ta_active _ Ht).
  - rewrite Hs'. apply (ta_capacity _ Ht).
  - rewrite (hd_table _ _ _ _ _ _ Hh). apply Ht.
  - rewrite (hd_slot _ _ _ _ _ _ Hh). done.
  - intros k Hk. unfold in_state. rewrite (Hst k Hk), (hd_slot _ _ _ _ _ _ Hh).
    destruct (k =? next) eqn:E; bool_hyps; [done|].
    destruct (k =? current_slot s) eqn:E2; bool_hyps; [split; [|done]; by destruct Hx as [-> |[-> _]]|].
    split; [|done]. intros Hk'. by apply (ta_running _ Ht k Hk) in Hk'.
  - destruct (Hid 0 H0) as (_ & -> & _ & ->). destruct (ta_boot _ Ht) as (Hb & Htop & Hu & He).
    unfold in_state in *. split_and!; [done|done|by rewrite Hun|]. rewrite (Hst 0 H0).
    repeat split_if; try done. bool_hyps. destruct Hx as [-> |[_ Hx]]; [done|lia].
  - intros k Hk. unfold in_state. destruct (Hid k ltac:(lia)) as (_ & -> & -> & ->).
    rewrite Hun by lia.
    by apply (ta_rest _ Ht).
  - intros k Hk Hu. pose proof Hu as Hu'. unfold in_state in Hu, Hu'. rewrite Hun in Hu by lia.
    rewrite (Hst k ltac:(lia)) in Hu'. rewrite (hd_thread _ _ _ _ _ _ Hh k ltac:(lia)).
    destruct (k =? next); [done|]. destruct (k =? current_slot s); [done|]. by apply (ta_blank _ Ht).
  - intros k Hk. unfold in_state. rewrite (Hst k ltac:(lia)), (hd_thread _ _ _ _ _ _ Hh k ltac:(lia)).
    destruct (k =? next) eqn:E; bool_hyps; [done|].
    destruct (k =? current_slot s) eqn:E2; bool_hyps; [|by apply (ta_pointer _ Ht)].
    subst k. intros Hxr. cbn. apply Hsp; [lia|done].
  - intros k Hk. unfold in_state. rewrite (Hst k Hk), (hd_control _ _ _ _ _ _ Hh k Hk).
    destruct (k =? next) eqn:E; bool_hyps; [done|].
    destruct (k =? current_slot s) eqn:E2; bool_hyps; [|by apply (ta_control _ Ht)].
    done.
  - rewrite (hd_id _ _ _ _ _ _ Hh). apply Ht.
  - intros k Hk. unfold in_state. rewrite Hun by done. destruct (Hid k Hk) as (-> & _).
    rewrite (hd_id _ _ _ _ _ _ Hh). by apply (ta_ids _ Ht).
  - intros j k Hj Hk. unfold in_state. rewrite !Hun by done.
    destruct (Hid j Hj) as (-> & _), (Hid k Hk) as (-> & _). by apply (ta_distinct _ Ht).
  - rewrite (hd_slot _ _ _ _ _ _ Hh). destruct (Hid next Hn) as (-> & _).
    by rewrite Hs'.
  - by rewrite Hs'.
  - by rewrite Hs'.
  - by rewrite Hs'.
  - rewrite Hs'. cbn [stack_frames set_counts set_switched]. rewrite (ta_frames _ Ht). f_equal.
    apply countb_ext. intros k Hk%elem_of_seqZ. symmetry.
    by apply (handed_used s s' next x sp point); [..|lia].
Qed.

Section switching.
Context {M : Type} `{ThreadLaws M}.

Lemma thread_at_with s k j t :
  zlength s.(threads) = THREAD_MAX -> 0 <= k < THREAD_MAX -> 0 <= j ->
  thread_at (with_thread s k t) j = if k =? j then t else thread_at s j.
Proof. intros Hl Hk Hj. apply aget_aset; [by rewrite Hl|done]. Qed.

(** * The context switch *)

(** The stack pointer thread_switch_context records for its caller. *)
Definition outgoing_stack_pointer (m : M) : Z := u64 (rsp m - PREPARED_FRAME_SIZE).

(** The words it pushes, by their slots in the frame. *)
Definition frame_word (return_address flags : Z) (regs : registers) (i : Z) : Z :=
  if i =? SLOT_R15 then regs.(r15) else if i =? SLOT_R14 then regs.(r14)
  else if i =? SLOT_R13 then regs.(r13) else if i =? SLOT_R12 then regs.(r12)
  else if i =? SLOT_RBX then regs.(rbx) else if i =? SLOT_RBP then regs.(rbp)
  else if i =? SLOT_RFLAGS then flags else return_address.

(** [m'] holds the frame of a thread that called thread_switch_context on [m] at
    [point]. *)
Definition saved (point : control) (m m' : M) : Prop :=
  PREPARED_FRAME_SIZE <= rsp m <= UINT64_MAX -> forall i, 0 <= i < PREPARED_SLOTS ->
  load (rsp m - PREPARED_FRAME_SIZE + i * 8) m' =
  frame_word (return_site point) (rflags m) (callee_saved m) i.

(** [m] is a machine on which the thread whose frame is at [sp] goes on at
    [point]: its registers hold the words of the frame. *)
Definition resumed (sp : Z) (point : control) (m : M) : Prop :=
  let w i := load (u64 (sp + i * 8)) m in
  let top := u64 (sp + PREPARED_FRAME_SIZE) in
  match point with
  | AtTrampoline =>
      rsp m = Z.land top (-16) /\ rflags m = w SLOT_RFLAGS /\
      callee_saved m = MkRegisters 0 (w SLOT_RBX) (w SLOT_R12) (w SLOT_R13) (w SLOT_R14) (w SLOT_R15)
  | InSwitch interrupted =>
      rsp m = top /\
      rflags m = (if interrupted then Z.lor (w SLOT_RFLAGS) RFLAGS_INTERRUPT_ENABLE else w SLOT_RFLAGS) /\
      callee_saved m =
        MkRegisters (w SLOT_RBP) (w SLOT_RBX) (w SLOT_R12) (w SLOT_R13) (w SLOT_R14) (w SLOT_R15)
  | InExit => False
  end.

Lemma u64_idem_add a b : u64 (u64 a + b) = u64 (a + b).
Proof. apply Zplus_mod_idemp_l. Qed.

Lemma interrupts_off m :
  quiet m (cpu_interrupt_disable m) /\
  cpu_interrupts_enabled (cpu_interrupt_disable m) = false /\
  outgoing_stack_pointer (cpu_interrupt_disable m) = outgoing_stack_pointer m.
Proof.
  destruct (tl_disable m) as (Hq & Hsp & _ & Hf & _). unfold outgoing_stack_pointer.
  rewrite tl_interrupts, Hf, Hsp, Z.ldiff_spec. split_and!; [done| |done]. apply andb_false_r.
Qed.

Lemma interrupts_on m :
  quiet m (cpu_interrupt_enable m) /\ cpu_interrupts_enabled (cpu_interrupt_enable m) = true.
Proof.
  destruct (tl_enable m) as (Hq & _ & _ & Hf & _). rewrite tl_interrupts, Hf, Z.lor_spec.
  split; [done|]. apply orb_true_r.
Qed.

Lemma push_spec word m :
  quiet m (push_word word m) /\ rsp (push_word word m) = u64 (rsp m - 8) /\
  callee_saved (push_word word m) = callee_saved m /\ rflags (push_word word m) = rflags m /\
  forall a, (8 | a - u64 (rsp m - 8)) ->
    load a (push_word word m) = if a =? u64 (rsp m - 8) then word else load a m.
Proof.
  unfold push_word. set (sp := u64 (rsp m - 8)). pose proof (tl_store sp word m) as Hq.
  destruct (tl_store_registers sp word m) as (_ & Hr & Hf).
  destruct (tl_set_rsp sp (store sp word m)) as (Hq2 & -> & -> & -> & Hl).
  split_and!; [by eapply quiet_trans| |done|done|].
  - apply u64_small, u64_range.
  - intros a Ha. rewrite Hl. by apply tl_load_store.
Qed.

Definition pushes (ws : list Z) (m : M) : M := foldl (fun m w => push_word w m) m ws.

Lemma pushes_spec ws m :
  quiet m (pushes ws m) /\ u64 (rsp (pushes ws m)) = u64 (rsp m - zlength ws * 8) /\
  callee_saved (pushes ws m) = callee_saved m /\ rflags (pushes ws m) = rflags m.
Proof.
  revert m. induction ws as [|w ws IH]; intros m; cbn [pushes foldl].
  { split_and!; [apply quiet_refl| |done|done]. f_equal. unfold zlength. cbn. lia. }
  destruct (push_spec w m) as (Hq & Hs & Hr & Hf & _). destruct (IH (push_word w m)) as (Hq2 & Hs2 & Hr2 & Hf2).
  fold (pushes ws (push_word w m)). rewrite Hs2, Hr2, Hf2, Hs, Hr, Hf. split_and!; [by eapply quiet_trans| |done|done].
  rewrite zlength_cons, <- (Z.add_opp_r (u64 _)), u64_idem_add. f_equal. lia.
Qed.

(** Pushed words lie below the stack pointer, the last one lowest. *)
Lemma pushes_words ws m :
  zlength ws * 8 <= rsp m <= UINT64_MAX ->
  (forall i, 0 <= i < zlength ws -> load (rsp m - (i + 1) * 8) (pushes ws m) = aget 0 ws i) /\
  (forall a, (8 | a - rsp m) -> rsp m <= a -> load a (pushes ws m) = load a m).
Proof.
  revert m. induction ws as [|w ws IH]; intros m Hm; cbn [pushes foldl].
  { split; [|done]. unfold zlength. cbn. lia. }
  rewrite zlength_cons in *. pose proof (zlength_nonneg ws).
  destruct (push_spec w m) as (_ & Hs & _ & _ & Hl). fold (pushes ws (push_word w m)).
  rewrite u64_small in Hs, Hl by (unfold is_u64; lia).
  destruct (IH (push_word w m)) as [Hin Hout]; [rewrite Hs; lia|]. rewrite Hs in Hin, Hout.
  split.
  - intros i Hi. destruct (decide (i = 0)) as [->|Hne].
    + rewrite Hout by ((exists 0; lia) || lia). rewrite Hl by (exists 0; lia).
      by rewrite (proj2 (Z.eqb_eq _ _)) by lia.
    + rewrite aget_cons, (proj2 (Z.eqb_neq i 0)) by lia. rewrite <- Hin by lia. f_equal. lia.
  - intros a [c Hc] Ha. rewrite Hout by ((exists (c + 1); lia) || lia).
    rewrite Hl by (exists (c + 1); lia). by rewrite (proj2 (Z.eqb_neq _ _)) by lia.
Qed.

Lemma push_frame_spec return_address m :
  quiet m (push_frame return_address m) /\
  rsp (push_frame return_address m) = outgoing_stack_pointer m /\
  (PREPARED_FRAME_SIZE <= rsp m <= UINT64_MAX -> forall i, 0 <= i < PREPARED_SLOTS ->
     load (rsp m - PREPARED_FRAME_SIZE + i * 8) (push_frame return_address m) =
     frame_word return_address (rflags m) (callee_saved m) i).
Proof.
  set (g := callee_saved m).
  set (ws := [return_address; rflags m; rbp g; rbx g; r12 g; r13 g; r14 g]).
  assert (push_frame return_address m = push_word (r15 g) (pushes ws m)) as E.
  { unfold push_frame. destruct (push_spec return_address m) as (_ & _ & _ & -> & _). done. }
  destruct (push_spec (r15 g) (pushes ws m)) as (Hq & Hs & _).
  destruct (pushes_spec ws m) as (Hq2 & Hs2 & _). split_and!.
  - rewrite E. by eapply quiet_trans.
  - rewrite E, Hs, <- (Z.add_opp_r (rsp _)), <- u64_idem_add, Hs2, u64_idem_add.
    unfold outgoing_stack_pointer. f_equal. change (zlength ws) with 7. unfold PREPARED_FRAME_SIZE, PREPARED_SLOTS. lia.
  - intros Hm i Hi. destruct (pushes_words (ws ++ [r15 g]) m) as [Hw _].
    { change (zlength _) with 8. done. }
    replace (pushes (ws ++ [r15 g]) m) with (push_frame return_address m) in Hw.
    replace (rsp m - PREPARED_FRAME_SIZE + i * 8) with (rsp m - (7 - i + 1) * 8)
      by (unfold PREPARED_FRAME_SIZE, PREPARED_SLOTS; lia).
    unfold PREPARED_SLOTS in Hi. rewrite Hw by (change (zlength _) with 8; lia).
    assert (i = 0 \/ i = 1 \/ i = 2 \/ i = 3 \/ i = 4 \/ i = 5 \/ i = 6 \/ i = 7) as Hcase by lia.
    by destruct Hcase as [->|[->|[->|[->|[->|[->|[->| ->]]]]]]].
Qed.

(** [m] is [m0] but for the registers. *)
Definition loaded (m0 : M) (sp : Z) (regs : registers) (flags : Z) (m : M) : Prop :=
  quiet m0 m /\ registers_are (u64 sp) regs flags (fun a => load a m0) m.

Lemma pop_loaded m0 sp regs flags m :
  loaded m0 sp regs flags m ->
  exists m', pop_word m = (load (u64 sp) m0, m') /\ loaded m0 (sp + 8) regs flags m'.
Proof.
  intros (Hq & Hs & Hr & Hf & Hl). unfold pop_word. rewrite Hs, Hl. eexists. split; [done|].
  destruct (tl_set_rsp (u64 (u64 sp + 8)) m) as (Hq2 & Hs2 & Hr2 & Hf2 & Hl2).
  split; [by eapply quiet_trans|]. split_and!; try congruence.
  - rewrite Hs2. rewrite u64_small by apply u64_range. apply u64_idem_add.
Qed.

Lemma set_callee_saved_loaded m0 sp regs regs' flags m :
  loaded m0 sp regs flags m -> loaded m0 sp regs' flags (set_callee_saved regs' m).
Proof.
  intros (Hq & Hs & Hr & Hf & Hl). destruct (tl_set_callee_saved regs' m) as (Hq2 & Hs2 & Hr2 & Hf2 & Hl2).
  split; [by eapply quiet_trans|]. split_and!; congruence.
Qed.

Lemma set_rflags_loaded m0 sp regs flags flags' m :
  loaded m0 sp regs flags m -> loaded m0 sp regs flags' (set_rflags flags' m).
Proof.
  intros (Hq & Hs & Hr & Hf & Hl). destruct (tl_set_rflags flags' m) as (Hq2 & Hs2 & Hr2 & Hf2 & Hl2).
  split; [by eapply quiet_trans|]. split_and!; congruence.
Qed.

Lemma pop_frame_spec sp m :
  let w i := load (u64 (sp + i * 8)) m in
  loaded m (sp + PREPARED_FRAME_SIZE)
    (MkRegisters (w SLOT_RBP) (w SLOT_RBX) (w SLOT_R12) (w SLOT_R13) (w SLOT_R14) (w SLOT_R15))
    (w SLOT_RFLAGS) (pop_frame (set_rsp sp m)).2.
Proof.
  intros w. destruct (tl_set_rsp sp m) as (Hq & Hr).
  assert (loaded m (sp + 0 * 8) (callee_saved m) (rflags m) (set_rsp sp m)) as H0.
  { split; [done|]. by rewrite Z.add_0_r. }
  unfold pop_frame.
  destruct (pop_loaded _ _ _ _ _ H0) as (m1 & -> & H1).
  destruct (pop_loaded _ _ _ _ _ H1) as (m2 & -> & H2).
  destruct (pop_loaded _ _ _ _ _ H2) as (m3 & -> & H3).
  destruct (pop_loaded _ _ _ _ _ H3) as (m4 & -> & H4).
  destruct (pop_loaded _ _ _ _ _ H4) as (m5 & -> & H5).
  destruct (pop_loaded _ _ _ _ _ H5) as (m6 & -> & H6).
  eapply set_callee_saved_loaded in H6.
  destruct (pop_loaded _ _ _ _ _ H6) as (m7 & -> & H7). eapply set_rflags_loaded in H7.
  destruct (pop_loaded _ _ _ _ _ H7) as (m8 & -> & H8). cbn [snd].
  rewrite <- !Z.add_assoc in H8. exact H8.
Qed.

Lemma align_16 x : Z.land x (-16) = x - x mod 16.
Proof.
  change (-16) with (Z.lnot (Z.ones 4)). rewrite <- Z.ldiff_land, Z.ldiff_ones_r by done.
  rewrite Z.shiftl_mul_pow2, Z.shiftr_div_pow2 by done. change (2 ^ 4) with 16.
  pose proof (Z.div_mod x 16). lia.
Qed.

(** What the incoming thread runs from the return up to its own code. *)
Lemma resume_spec sp point m :
  point <> InExit ->
  let popped := (pop_frame (set_rsp sp m)).2 in
  let m' := match point with
            | AtTrampoline => trampoline popped
            | InSwitch true => cpu_interrupt_enable popped
            | _ => popped
            end in
  quiet m m' /\ resumed sp point m' /\ forall a, load a m' = load a m.
Proof.
  intros Hne popped m'. destruct (pop_frame_spec sp m) as (Hq & Hs & Hr & Hf & Hl). fold popped in Hq, Hs, Hr, Hf, Hl.
  destruct point as [|[]|]; [| | |done].
  - unfold m', trampoline. set (regs := MkRegisters 0 _ _ _ _ _).
    destruct (tl_set_callee_saved regs popped) as (Hq1 & Hs1 & Hr1 & Hf1 & Hl1).
    set (m1 := set_callee_saved regs popped) in *.
    destruct (tl_set_rsp (Z.land (rsp m1) (-16)) m1) as (Hq2 & Hs2 & Hr2 & Hf2 & Hl2).
    assert (forall a, load a (set_rsp (Z.land (rsp m1) (-16)) m1) = load a m) as Hw by congruence.
    split_and!; [by repeat (eapply quiet_trans; [eassumption|])| |done].
    unfold resumed. rewrite !Hw, Hr2, Hf2, Hs2, Hr1, Hf1, Hs1, Hs, Hf. unfold regs. rewrite Hr.
    split_and!; [|done|done]. apply u64_small. unfold PREPARED_FRAME_SIZE, PREPARED_SLOTS.
    pose proof (u64_range (sp + 8 * 8)) as Hx. rewrite align_16. unfold is_u64 in *.
    pose proof (Z.mod_le (u64 (sp + 8 * 8)) 16). pose proof (Z.mod_pos_bound (u64 (sp + 8 * 8)) 16). lia.
  - destruct (tl_enable popped) as (Hq1 & Hs1 & Hr1 & Hf1 & Hl1).
    assert (forall a, load a (cpu_interrupt_enable popped) = load a m) as Hw by congruence.
    unfold m', resumed. rewrite !Hw. split_and!; [by eapply quiet_trans|congruence..|done].
  - unfold m', resumed. rewrite !Hl. by split_and!.
Qed.

(** The steps from choosing [next] to the switch, for a caller that goes to
    state [x]: the table is handed over, the caller's frame is on its stack, and
    the incoming thread goes on with the registers its own frame holds. *)
Lemma switch_handed s m next x point :
  table_ok s -> 0 <= next < THREAD_MAX -> next <> s.(current_slot) ->
  in_state s next THREAD_STATE_READY -> x <> THREAD_STATE_UNUSED ->
  let s1 := with_thread s s.(current_slot) (set_tstate (thread_at s s.(current_slot)) x) in
  let s2 := with_thread s1 next (set_tstate (thread_at s1 next) THREAD_STATE_RUNNING) in
  exists s' m', switch_context s.(current_slot) next point (recount (account_switch next s2)) m =
    Returns (s', m') /\ handed s s' next x (outgoing_stack_pointer m) point /\
    keeps m m' /\ saved point m m' /\
    resumed (thread_at s next).(stack_pointer) (control_at s next) m'.
Proof.
  intros Ht Hn Hne Hr Hx s1 s2. pose proof (ta_slot _ Ht) as Hc.
  assert (zlength s1.(threads) = THREAD_MAX) as Hl1
    by (cbn; autorewrite with sapote; apply Ht).
  assert (zlength s2.(threads) = THREAD_MAX) as Hl2
    by (cbn; autorewrite with sapote; apply Ht).
  pose proof (ta_capacity _ Ht) as Hcap. pose proof (ta_control _ Ht next Hn Hr) as Hctl.
  rewrite recount_eq by done.
  unfold switch_context. set (s3 := with_state _ _).
  destruct (push_frame_spec (return_site point) m) as (Hqp & Hsp & Hw).
  rewrite Hsp. set (m1 := push_frame _ m) in *. set (s4 := with_control _ _ _).
  assert (forall j, 0 <= j -> thread_at s3 j = if next =? j then
      set_switches (thread_at s2 next) (u64 (switches (thread_at s2 next) + 1))
      else thread_at s2 j) as H3.
  { intros j Hj. exact (thread_at_with s2 next j _ Hl2 Hn Hj). }
  assert (forall j, 0 <= j -> thread_at s2 j = if next =? j then
      set_tstate (thread_at s1 next) THREAD_STATE_RUNNING else thread_at s1 j) as H2.
  { intros j Hj. exact (thread_at_with s1 next j _ Hl1 Hn Hj). }
  assert (forall j, 0 <= j -> thread_at s1 j = if current_slot s =? j then
      set_tstate (thread_at s (current_slot s)) x else thread_at s j) as H1.
  { intros j Hj. exact (thread_at_with s _ j _ (ta_len _ Ht) Hc Hj). }
  assert (forall j, 0 <= j -> thread_at s4 j = if current_slot s =? j then
      set_stack_pointer (thread_at s3 (current_slot s)) (outgoing_stack_pointer m)
      else thread_at s3 j) as H4.
  { intros j Hj. refine (thread_at_with s3 _ j _ _ Hc Hj). cbn. autorewrite with sapote. apply Ht. }
  assert (forall k, 0 <= k < THREAD_MAX -> thread_at s4 k =
    if k =? next then set_switches (set_tstate (thread_at s next) THREAD_STATE_RUNNING)
                        (u64 ((thread_at s next).(switches) + 1))
    else if k =? s.(current_slot) then
      set_stack_pointer (set_tstate (thread_at s s.(current_slot)) x) (outgoing_stack_pointer m)
    else thread_at s k) as Hth.
  { intros k Hk. rewrite H4, !H3, !H2, !H1 by lia.
    rewrite (proj2 (Z.eqb_neq next (current_slot s))) by done.
    rewrite (Z.eqb_sym k next), (Z.eqb_sym k (current_slot s)), !Z.eqb_refl.
    rewrite (proj2 (Z.eqb_neq (current_slot s) next)) by done.
    destruct (current_slot s =? k) eqn:E1, (next =? k) eqn:E2; bool_hyps; subst; try done. }
  assert (forall k, 0 <= k < THREAD_MAX -> control_at s4 k =
    if k =? s.(current_slot) then point else control_at s k) as Hco.
  { intros k Hk. rewrite Z.eqb_sym. apply aget_aset; [|lia].
    cbn. rewrite (ta_controls _ Ht). done. }
  assert (handed s s4 next x (outgoing_stack_pointer m) point) as Hh.
  { split; try done.
    - cbn. autorewrite with sapote. apply Ht.
    - cbn. autorewrite with sapote. apply Ht.
    - assert (forall p, (forall t sp, p (set_stack_pointer t sp) = p t) ->
        count_slots s4 p = count_slots (account_switch next s2) p) as Hcount.
      { intros p Hp. apply countb_ext. intros k Hk%elem_of_seqZ. rewrite H4 by lia.
        change (thread_at (account_switch next s2) k) with (thread_at s3 k).
        destruct (_ =? k) eqn:E; bool_hyps; [by subst; rewrite Hp|done]. }
      rewrite !Hcount by done. cbn. f_equal. f_equal.
      rewrite thread_at_with, Z.eqb_refl by (done || lia). cbn.
      rewrite H2, Z.eqb_refl, H1 by lia. by destruct (_ =? next) eqn:E; bool_hyps; [subst|]. }
  pose proof (Hco next Hn) as Hcn. rewrite (proj2 (Z.eqb_neq next _)) in Hcn by done.
  assert (stack_pointer (thread_at s3 next) = stack_pointer (thread_at s next)) as ->.
  { rewrite H3, Z.eqb_refl by lia. cbn. rewrite H2, Z.eqb_refl, H1 by lia.
    by rewrite (proj2 (Z.eqb_neq _ _)) by done. }
  pose proof (resume_spec (stack_pointer (thread_at s next)) (control_at s next) m1 Hctl) as Hres.
  destruct (pop_frame (set_rsp _ m1)) as [ra m2]. cbn [snd] in Hres. rewrite Hcn.
  destruct (control_at s next) as [|[]|]; [| | |done]; destruct Hres as (Hq & Hrs & Hl);
    (eexists s4, _; split_and!; [done|done| | |done]); try (by apply quiet_keeps; eapply quiet_trans);
    intros Hm i Hi; rewrite Hl; by apply Hw.
Qed.

(** The running thread's stack pointer lies in its own stack. *)
Definition on_stack (s : scheduler) (m : M) : Prop :=
  1 <= s.(current_slot) ->
  slot_stack_base s.(current_slot) <= outgoing_stack_pointer m <= slot_stack_top s.(current_slot).

(** What switch_to_next and the calls that end in it do. *)
Inductive switched (s : scheduler) (m : M) : scheduler -> M -> Prop :=
| sw_stay m' : (forall k, 0 <= k < THREAD_MAX -> ~ in_state s k THREAD_STATE_READY) ->
    quiet m m' -> cpu_interrupts_enabled m' = cpu_interrupts_enabled m -> switched s m s m'
| sw_hand s' m' d : 1 <= d < THREAD_MAX ->
    (forall e, 1 <= e < d ->
       ~ in_state s ((s.(current_slot) + e) mod THREAD_MAX) THREAD_STATE_READY) ->
    handed s s' ((s.(current_slot) + d) mod THREAD_MAX) THREAD_STATE_READY
      (outgoing_stack_pointer m) (InSwitch (cpu_interrupts_enabled m)) ->
    keeps m m' ->
    saved (InSwitch (cpu_interrupts_enabled m)) (cpu_interrupt_disable m) m' ->
    resumed (thread_at s ((s.(current_slot) + d) mod THREAD_MAX)).(stack_pointer)
      (control_at s ((s.(current_slot) + d) mod THREAD_MAX)) m' ->
    switched s m s' m'.

Lemma slot_range n : 0 <= n mod THREAD_MAX < THREAD_MAX.
Proof. by apply Z.mod_pos_bound. Qed.

Lemma running_not_ready s k :
  table_ok s -> in_state s k THREAD_STATE_READY -> 0 <= k < THREAD_MAX -> k <> s.(current_slot).
Proof.
  intros Ht Hr Hk ->. pose proof (proj2 (ta_running _ Ht _ (ta_slot _ Ht)) eq_refl) as E.
  unfold in_state in *. congruence.
Qed.

Lemma switch_to_next_spec s m :
  table_ok s -> exists s' m', switch_to_next s m = Returns (s', m') /\ switched s m s' m'.
Proof.
  intros Ht. pose proof (ta_slot _ Ht) as Hc. unfold switch_to_next.
  pose proof (proj2 (ta_running _ Ht _ Hc) eq_refl) as Hrun.
  destruct (interrupts_off m) as (Hqd & Hid & Hsp).
  destruct (next_ready_spec s s.(current_slot) (ta_capacity _ Ht) Hc)
    as [[-> Hno]|(d & Hd & -> & Hr & Hlow)].
  - rewrite Z.eqb_refl. eexists s, _. split; [done|]. apply sw_stay.
    + intros k Hk Hk'. destruct (decide (k = current_slot s)) as [->|]; [|by apply (Hno k)].
      by apply (running_not_ready s _ Ht Hk' Hk).
    + destruct (cpu_interrupts_enabled m); [|done]. eapply quiet_trans; [done|apply interrupts_on].
    + destruct (cpu_interrupts_enabled m); [apply interrupts_on|done].
  - pose proof (slot_range (current_slot s + d)) as Hn.
    pose proof (running_not_ready s _ Ht Hr Hn) as Hne.
    rewrite (proj2 (Z.eqb_neq _ _)) by done.
    rewrite (proj2 (is_state_true _ _) Hrun).
    destruct (switch_handed s (cpu_interrupt_disable m) _ THREAD_STATE_READY
      (InSwitch (cpu_interrupts_enabled m)) Ht Hn Hne Hr ltac:(done))
      as (s' & m' & E & Hh & Hk & Hsv & Hrs).
    exists s', m'. split; [done|]. rewrite Hsp in Hh. apply (sw_hand _ _ _ _ d); try done.
    by eapply quiet_keeps_trans.
Qed.

Lemma switched_ok s m s' m' :
  table_ok s -> on_stack s m -> switched s m s' m' -> table_ok s'.
Proof.
  intros Ht Hs [|s1 m1 d Hd _ Hh _ _ _]; [done|].
  eapply handed_ok; [done|exact Hh|by left| |done]. intros Hc _. by apply Hs.
Qed.

Lemma thread_exit_spec s m :
  table_ok s -> 1 <= s.(current_slot) ->
  exists s' m' next, thread_exit s m = Returns (s', m') /\ keeps m m' /\
    saved InExit (cpu_interrupt_disable m) m' /\
    resumed (thread_at s next).(stack_pointer) (control_at s next) m' /\
    handed s s' next THREAD_STATE_EXITED (outgoing_stack_pointer m) InExit /\
    exists d, 1 <= d < THREAD_MAX /\ next = (s.(current_slot) + d) mod THREAD_MAX /\
      forall e, 1 <= e < d ->
        ~ in_state s ((s.(current_slot) + e) mod THREAD_MAX) THREAD_STATE_READY.
Proof.
  intros Ht Hc. pose proof (ta_slot _ Ht) as Hcr. unfold thread_exit.
  rewrite (ta_active _ Ht). cbn [negb].
  destruct (ta_rest _ Ht s.(current_slot) ltac:(lia)) as [-> _].
  set (s1 := with_thread s s.(current_slot) _).
  assert (forall k, 0 <= k < THREAD_MAX -> k <> s.(current_slot) -> thread_at s1 k = thread_at s k) as H1.
  { intros k Hk Hne. unfold s1. rewrite thread_at_with by (done || apply Ht || lia).
    by rewrite (proj2 (Z.eqb_neq _ _)) by congruence. }
  destruct (interrupts_off m) as (Hqd & Hid & Hsp).
  assert (in_state s 0 THREAD_STATE_READY) as Hboot.
  { destruct (ta_boot _ Ht) as (_ & _ & Hu & He). unfold in_state in *.
    pose proof (ta_running _ Ht 0 ltac:(done)) as Hr. unfold in_state in Hr.
    destruct (tstate (thread_at s 0)); try done. assert (0 = current_slot s) by (by apply Hr). lia. }
  destruct (next_ready_spec s1 s.(current_slot) (ta_capacity _ Ht) Hcr)
    as [[_ Hno]|(d & Hd & -> & Hr & Hlow)].
  { exfalso. apply (Hno 0); [done|lia|]. unfold in_state. rewrite H1 by (done || lia). done. }
  pose proof (slot_range (current_slot s + d)) as Hn.
  assert (forall e, 1 <= e < THREAD_MAX -> (current_slot s + e) mod THREAD_MAX <> current_slot s) as Hmod.
  { intros e He E. unfold THREAD_MAX in *. pose proof (Z.div_mod (current_slot s + e) 8). lia. }
  rewrite (proj2 (Z.eqb_neq _ _)) by (apply Hmod; lia).
  assert (in_state s ((current_slot s + d) mod THREAD_MAX) THREAD_STATE_READY) as Hr'.
  { unfold in_state in *. by rewrite H1 in Hr by (done || apply Hmod; lia). }
  destruct (switch_handed s (cpu_interrupt_disable m) _ THREAD_STATE_EXITED InExit Ht Hn
    (Hmod d ltac:(lia)) Hr' ltac:(done)) as (s' & m' & E & Hh & Hk & Hsv & Hrs).
  exists s', m', ((current_slot s + d) mod THREAD_MAX). rewrite Hsp in Hh. split_and!; [done| |done|done|done|].
  - by eapply quiet_keeps_trans.
  - exists d. split_and!; [lia|lia|done|]. intros e He. specialize (Hlow e He).
    unfold in_state in *. by rewrite H1 in Hlow by (apply slot_range || (apply Hmod; lia)).
Qed.

(** * Reachable states *)

Definition inv (s : scheduler) (m : M) : Prop :=
  if s.(state).(active) then table_ok s /\ stacks_ok (used_slot s) m
  else stacks_ok (fun _ => false) m.

(** The fields preemption changes are not part of the table. *)
Lemma table_ok_preemption s s' :
  table_ok s -> s'.(threads) = s.(threads) -> s'.(suspended) = s.(suspended) ->
  s'.(table) = s.(table) -> s'.(current_slot) = s.(current_slot) ->
  s'.(next_identifier) = s.(next_identifier) ->
  s'.(state) = set_preemption s.(state) s'.(state).(preemptions) s'.(state).(preemptive) ->
  table_ok s'.
Proof.
  intros Ht Eth Esu Eta Ecs Eni Est.
  destruct s as [st th tb cs ni rp qi su], s' as [st' th' tb' cs' ni' rp' qi' su'].
  cbn in Eth, Esu, Eta, Ecs, Eni, Est. subst. revert Est.
  generalize (preemptions st') (preemptive st'). intros n b ->. by destruct Ht.
Qed.

Lemma used_slot_ext s s' k : s'.(threads) = s.(threads) -> used_slot s' k = used_slot s k.
Proof. intros E. unfold used_slot, thread_at. by rewrite E. Qed.

Lemma start_spec s m st s' m' :
  s.(state).(active) = false -> stacks_ok (fun _ => false) m ->
  thread_start s m = (st, s', m') ->
  inv s' m' /\ (st <> THREAD_STATUS_OK -> s' = s) /\
  (st = THREAD_STATUS_OK -> s'.(state).(active) = true /\ s'.(current_slot) = 0 /\
     forall k, 1 <= k < THREAD_MAX -> in_state s' k THREAD_STATE_UNUSED).
Proof.
  intros Ha Hst. unfold thread_start. rewrite Ha.
  assert (inv s m) as Hi by (unfold inv; by rewrite Ha).
  do 2 (split_if; [by intros [= <- <- <-]|]).
  pose proof (tl_heap_allocate (THREAD_MAX * sizeof_thread) m) as [Hk Hp].
  destruct (heap_allocate _ m) as [[pointer|] m1]; cbn in Hk, Hp; cycle 1.
  { intros [= <- <- <-]. split_and!; try done. unfold inv. rewrite Ha.
    by eapply stacks_keep. }
  rewrite recount_eq by done. intros [[<- <-]%pair_eq <-]%pair_eq. split; [|split; [done|]].
  2: { intros _. split_and!; try done. intros k Hk'. unfold in_state, thread_at. cbn [threads with_state].
       rewrite aget_aset_ne, aget_replicate by (unfold THREAD_MAX in *; lia). done. }
  unfold inv. cbn [state with_state set_counts active]. set (s1 := with_state _ _).
  assert (forall k, 0 <= k < THREAD_MAX -> thread_at s1 k =
    if k =? 0 then MkThread 0 0 0 1 0 0 0 THREAD_STATE_RUNNING true else no_thread) as Hth.
  { intros k Hk'. unfold s1, thread_at. cbn [threads with_state].
    rewrite aget_aset by (unfold zlength, THREAD_MAX in *; rewrite ?length_replicate; lia).
    rewrite Z.eqb_sym. destruct (k =? 0) eqn:E; [done|]. bool_hyps. apply aget_replicate.
    unfold THREAD_MAX in *. lia. }
  assert (forall k, 0 <= k < THREAD_MAX -> ~ in_state s1 k THREAD_STATE_UNUSED -> k = 0) as Hz.
  { intros k Hk' Hu. destruct (decide (k = 0)) as [|Hne]; [done|]. exfalso. apply Hu.
    unfold in_state. rewrite Hth by done. by rewrite (proj2 (Z.eqb_neq _ _)). }
  split.
  - split; try done.
    + by apply Hp.
    + intros k Hk'. unfold in_state. rewrite Hth by done. cbn [current_slot s1 with_state].
      destruct (k =? 0) eqn:E; bool_hyps; done.
    + intros k Hk'. rewrite Hth by lia. rewrite (proj2 (Z.eqb_neq k 0)) by lia.
      split; [done|]. intros Hu. apply Hz in Hu; lia.
    + intros k Hk' _. rewrite Hth by lia. by rewrite (proj2 (Z.eqb_neq k 0)) by lia.
    + intros k Hk'. unfold in_state. rewrite Hth by lia. by rewrite (proj2 (Z.eqb_neq k 0)) by lia.
    + intros k Hk'. unfold in_state. rewrite Hth by lia. by destruct (k =? 0).
    + intros k Hk' Hu%Hz; [|done]. subst k. done.
    + intros j k Hj Hk' Hu%Hz Hu'%Hz _; [|done|done]. congruence.
  - eapply stacks_ext; [|by eapply stacks_keep]. intros k Hk'. unfold used_slot, is_state.
    rewrite Hth by done. destruct (k =? 0) eqn:E; bool_hyps; [by subst|].
    rewrite bool_decide_true by done. apply andb_false_r.
Qed.

(** The words thread_switch_context pops from a prepared stack. *)
Definition prepared_word (t : thread) (i : Z) : Z :=
  if i =? SLOT_R12 then t.(entry) else if i =? SLOT_R13 then t.(context)
  else if i =? SLOT_RFLAGS then INITIAL_RFLAGS
  else if i =? SLOT_RETURN then thread_trampoline else 0.

Lemma word_apart a frame i : (8 | a - frame) -> (8 | a - (frame + i * 8)).
Proof.
  intros Ha. replace (a - (frame + i * 8)) with (a - frame - i * 8) by lia.
  apply Z.divide_sub_r; [done|]. by exists i.
Qed.

Lemma store_words (v : Z) (m : M) frame l :
  quiet m (foldl (fun m slot => store (frame + slot * 8) v m) m l) /\
  forall a, (8 | a - frame) -> load a (foldl (fun m slot => store (frame + slot * 8) v m) m l) =
    if bool_decide (Exists (fun slot => a = frame + slot * 8) l) then v else load a m.
Proof.
  revert m. induction l as [|x l IH]; intros m; cbn [foldl].
  { split; [apply quiet_refl|]. intros a _. rewrite bool_decide_false; [done|]. by intros ?%Exists_nil. }
  destruct (IH (store (frame + x * 8) v m)) as [Hq Hl]. split.
  { eapply quiet_trans; [apply tl_store|done]. }
  intros a Ha. rewrite Hl, tl_load_store by (done || by apply word_apart).
  destruct (decide (Exists (fun slot => a = frame + slot * 8) l)) as [He|He].
  - by rewrite !bool_decide_true by (done || by right).
  - rewrite (bool_decide_false _ He). destruct (a =? frame + x * 8) eqn:E; bool_hyps.
    + by rewrite bool_decide_true by (by left).
    + rewrite bool_decide_false; [done|]. by intros [?|?]%Exists_cons.
Qed.

Lemma prepare_frame_spec t (m : M) :
  is_u64 (t.(stack_top) - PREPARED_FRAME_SIZE) ->
  let '(t', m') := prepare_frame t m in
  t' = set_stack_pointer t (t.(stack_top) - PREPARED_FRAME_SIZE) /\ quiet m m' /\
  (forall i, 0 <= i < PREPARED_SLOTS ->
     load (t'.(stack_pointer) + i * 8) m' = prepared_word t i) /\
  (forall a, (8 | a - t'.(stack_pointer)) -> a < t'.(stack_pointer) -> load a m' = load a m).
Proof.
  intros Hu. unfold prepare_frame. rewrite u64_small by done.
  set (frame := stack_top t - PREPARED_FRAME_SIZE).
  destruct (store_words 0 m frame (seqZ 0 PREPARED_SLOTS)) as [Hq Hl].
  set (m1 := foldl _ m _) in *. split_and!; [done| | |].
  - repeat (eapply quiet_trans; [|apply tl_store]). done.
  - intros i Hi. cbn [stack_pointer set_stack_pointer].
    assert (8 | frame + i * 8 - frame) as Hd by (exists i; lia).
    rewrite !tl_load_store, Hl by (done || by apply word_apart).
    rewrite bool_decide_true
      by (apply Exists_exists; exists i; split; [apply elem_of_seqZ; lia|done]).
    assert (forall j, (frame + i * 8 =? frame + j * 8) = (i =? j)) as E.
    { intros j. destruct (i =? j) eqn:Ej; bool_hyps; [subst; apply Z.eqb_refl|apply Z.eqb_neq; lia]. }
    rewrite !E. unfold prepared_word, SLOT_R12, SLOT_R13, SLOT_RFLAGS, SLOT_RETURN.
    repeat split_if; bool_hyps; subst; try done; lia.
  - intros a Hd Ha. cbn [stack_pointer set_stack_pointer] in Hd, Ha.
    rewrite !tl_load_store, Hl by (done || by apply word_apart).
    unfold SLOT_R12, SLOT_R13, SLOT_RFLAGS, SLOT_RETURN.
    rewrite !(proj2 (Z.eqb_neq _ _)) by lia. rewrite bool_decide_false; [done|].
    intros (j & Hj%elem_of_seqZ & ->)%Exists_exists. lia.
Qed.

(** The record thread_create fills in. *)
Definition new_thread (k id entry_ context_ : Z) : thread :=
  MkThread (slot_stack_top k - PREPARED_FRAME_SIZE) (slot_stack_base k) (slot_stack_top k) id 0
    entry_ context_ THREAD_STATE_READY false.

Lemma countb_update (p q : Z -> bool) (k n : Z) :
  0 <= k < n -> p k = false -> q k = true -> (forall j, j <> k -> q j = p j) ->
  countb q (seqZ 0 n) = countb p (seqZ 0 n) + 1.
Proof.
  intros Hk Hp Hq Hr.
  assert (seqZ 0 n = seqZ 0 k ++ k :: seqZ (k + 1) (n - k - 1)) as ->.
  { replace n with (k + (1 + (n - k - 1))) at 1 by lia. rewrite seqZ_app, Z.add_0_l by lia. f_equal.
    rewrite seqZ_app by lia. rewrite (seqZ_cons k 1), (seqZ_nil (Z.succ k)) by lia. done. }
  rewrite !countb_app. cbn [countb]. rewrite Hp, Hq.
  rewrite (countb_ext q p (seqZ 0 k)), (countb_ext q p (seqZ (k + 1) _)); [lia| |];
    intros j Hj%elem_of_seqZ; apply Hr; lia.
Qed.

(** The table after thread_create filled slot [k]. *)
Record created (s s' : scheduler) (k entry_ context_ : Z) : Prop := {
  cr_slot : 1 <= k < THREAD_MAX;
  cr_unused : in_state s k THREAD_STATE_UNUSED;
  cr_lowest : forall j, 1 <= j < k -> ~ in_state s j THREAD_STATE_UNUSED;
  cr_threads : zlength s'.(threads) = THREAD_MAX;
  cr_controls : zlength s'.(suspended) = THREAD_MAX;
  cr_thread : forall j, 0 <= j < THREAD_MAX -> thread_at s' j =
    if j =? k then new_thread k s.(next_identifier) entry_ context_ else thread_at s j;
  cr_control : forall j, 0 <= j < THREAD_MAX ->
    control_at s' j = if j =? k then AtTrampoline else control_at s j;
  cr_current : s'.(current_slot) = s.(current_slot);
  cr_table : s'.(table) = s.(table);
  cr_id : s'.(next_identifier) = s.(next_identifier) + 1;
  cr_state : s'.(state) =
    set_counts (set_stack_frames s.(state) (s.(state).(stack_frames) + THREAD_STACK_PAGES))
      (count_slots s' live_thread) (count_slots s' (is_state THREAD_STATE_READY))
      (count_slots s' (is_state THREAD_STATE_EXITED))
}.

Lemma created_used s s' k e c j :
  created s s' k e c -> 0 <= j < THREAD_MAX -> used_slot s' j = used_slot s j || (j =? k).
Proof.
  intros Hc Hj. unfold used_slot. rewrite (cr_thread _ _ _ _ _ Hc j Hj).
  destruct (j =? k) eqn:E; bool_hyps; [|by rewrite orb_false_r].
  subst j. pose proof (cr_slot _ _ _ _ _ Hc). rewrite (proj2 (Z.leb_le 1 k)) by lia.
  unfold is_state. cbn. by rewrite orb_true_r.
Qed.

Lemma created_ok s s' k e c :
  table_ok s -> s.(next_identifier) < UINT64_MAX -> created s s' k e c -> table_ok s'.
Proof.
  intros Ht Hid Hc. pose proof (cr_slot _ _ _ _ _ Hc) as Hk.
  pose proof (cr_thread _ _ _ _ _ Hc) as Hth. pose proof (cr_state _ _ _ _ _ Hc) as Hs'.
  pose proof (cr_unused _ _ _ _ _ Hc) as Hun. pose proof (ta_slot _ Ht) as Hcur.
  assert (s.(current_slot) <> k) as Hck.
  { intros E. pose proof (proj2 (ta_running _ Ht _ Hcur) eq_refl) as Hr. unfold in_state in *. congruence. }
  assert (forall j, 0 <= j < THREAD_MAX -> ~ in_state s j THREAD_STATE_UNUSED -> j <> k) as Hnk
    by (intros j Hj Hu ->; done).
  assert (forall j, 0 <= j < THREAD_MAX -> j <> k -> thread_at s' j = thread_at s j) as Hsame.
  { intros j Hj Hne. rewrite Hth by done. by rewrite (proj2 (Z.eqb_neq _ _)). }
  assert (thread_at s' k = new_thread k s.(next_identifier) e c) as Hnew
    by (rewrite Hth by lia; by rewrite Z.eqb_refl).
  split.
  - apply Hc.
  - apply Hc.
  - rewrite Hs'. apply (ta_active _ Ht).
  - rewrite Hs'. apply (ta_capacity _ Ht).
  - rewrite (cr_table _ _ _ _ _ Hc). apply Ht.
  - rewrite (cr_current _ _ _ _ _ Hc). apply Ht.
  - intros j Hj. rewrite (cr_current _ _ _ _ _ Hc). unfold in_state.
    destruct (decide (j = k)) as [->|Hne]; [rewrite Hnew; split; [done|congruence]|].
    rewrite Hsame by done. by apply (ta_running _ Ht).
  - unfold in_state. rewrite Hsame by (done || lia). apply Ht.
  - intros j Hj. destruct (decide (j = k)) as [->|Hne]; [by rewrite Hnew|].
    unfold in_state. rewrite Hsame by lia. by apply (ta_rest _ Ht).
  - intros j Hj. unfold in_state. destruct (decide (j = k)) as [->|Hne]; [by rewrite Hnew|].
    rewrite Hsame by lia. by apply (ta_blank _ Ht).
  - intros j Hj. unfold in_state. destruct (decide (j = k)) as [->|Hne].
    + rewrite Hnew. cbn. intros _. unfold PREPARED_FRAME_SIZE, PREPARED_SLOTS. region. lia.
    + rewrite Hsame by lia. by apply (ta_pointer _ Ht).
  - intros j Hj. rewrite (cr_control _ _ _ _ _ Hc) by done. unfold in_state.
    destruct (j =? k) eqn:E; bool_hyps; [done|]. rewrite Hsame by done. by apply (ta_control _ Ht).
  - rewrite (cr_id _ _ _ _ _ Hc). lia.
  - intros j Hj. rewrite (cr_id _ _ _ _ _ Hc). unfold in_state.
    destruct (decide (j = k)) as [->|Hne].
    + rewrite Hnew. cbn. intros _. pose proof (ta_ids _ Ht 0 ltac:(done)) as H0.
      specialize (H0 (proj1 (proj2 (proj2 (ta_boot _ Ht))))). lia.
    + rewrite Hsame by done. intros Hu. pose proof (ta_ids _ Ht j Hj Hu). lia.
  - intros i j Hi Hj. unfold in_state.
    destruct (decide (i = k)) as [->|Hni], (decide (j = k)) as [->|Hnj]; try done;
      rewrite ?Hnew, ?Hsame by done; cbn; intros Hu Hu' E.
    + pose proof (ta_ids _ Ht j Hj Hu'). lia.
    + pose proof (ta_ids _ Ht i Hi Hu). lia.
    + by apply (ta_distinct _ Ht).
  - rewrite (cr_current _ _ _ _ _ Hc), Hsame by done. rewrite Hs'. apply (ta_current _ Ht).
  - by rewrite Hs'.
  - by rewrite Hs'.
  - by rewrite Hs'.
  - rewrite Hs'. cbn [stack_frames set_counts set_stack_frames]. rewrite (ta_frames _ Ht).
    rewrite (countb_ext (used_slot s') (fun j => used_slot s j || (j =? k)))
      by (intros j Hj%elem_of_seqZ; apply (created_used s s' k e c); [done|lia]).
    rewrite (countb_update (used_slot s) (fun j => used_slot s j || (j =? k)) k); try lia.
    + unfold used_slot. rewrite (proj2 (is_state_true _ _) Hun). apply andb_false_r.
    + intros j Hne. cbv beta. rewrite (proj2 (Z.eqb_neq _ _)) by done. apply orb_false_r.
Qed.

Lemma frames_small s : table_ok s -> 0 <= s.(state).(stack_frames) <= 32.
Proof.
  intros Ht. rewrite (ta_frames _ Ht).
  pose proof (countb_nonneg (used_slot s) (seqZ 0 THREAD_MAX)).
  pose proof (countb_le_length (used_slot s) (seqZ 0 THREAD_MAX)) as Hl.
  unfold zlength in Hl. rewrite length_seqZ in Hl. unfold THREAD_STACK_PAGES, THREAD_MAX in *. lia.
Qed.

Lemma thread_create_spec s m entry_ context_ :
  table_ok s -> stacks_ok (used_slot s) m -> s.(next_identifier) < UINT64_MAX ->
  let '(st, id, s', m') := thread_create entry_ context_ true s m in
  (st <> THREAD_STATUS_OK -> s' = s /\ same_memory m m' /\ default THREAD_ID_NONE id = THREAD_ID_NONE) /\
  (st = THREAD_STATUS_OK -> id = Some s.(next_identifier) /\
     stacks_ok (used_slot s') m' /\ exists k F m1, created s s' k entry_ context_ /\
     gained m m1 k THREAD_STACK_PAGES F /\ quiet m1 m' /\
     forall i, 0 <= i < PREPARED_SLOTS ->
       load (slot_stack_top k - PREPARED_FRAME_SIZE + i * 8) m' =
       prepared_word (new_thread k s.(next_identifier) entry_ context_) i).
Proof.
  intros Ht Hst Hid. unfold thread_create.
  assert (same_memory m m) as Hsm by (by split; [apply Hst|]).
  split_if; [by split|]. rewrite (ta_active _ Ht). cbn [negb]. split_if; [by split|].
  rewrite (for_each_scan (fun slot => is_state THREAD_STATE_UNUSED (thread_at s slot)) id).
  destruct (List.find _ _) as [k|] eqn:E; [|by split].
  apply find_seqZ_Some in E as (Hk & Hu & Hlow). rewrite (ta_capacity _ Ht) in Hk.
  apply is_state_true in Hu. unfold id.
  pose proof (map_stack_spec s m k ltac:(lia) (so_ok _ _ Hst)) as Hm.
  destruct (map_stack k s m) as [[st s1] m1].
  destruct Hm as [(-> & -> & F & Hg)|(Hbad & -> & Hsame)]; cycle 1.
  { rewrite bool_decide_false by done. cbn [negb]. by split. }
  rewrite bool_decide_true by done. cbn [negb next_identifier with_state].
  set (t0 := MkThread _ _ _ _ _ _ _ _ _).
  pose proof (prepare_frame_spec t0 m1) as Hp.
  destruct (prepare_frame t0 m1) as [t1 m2].
  destruct Hp as (-> & Hq & Hw & _).
  { unfold t0, is_u64, UINT64_MAX, PREPARED_FRAME_SIZE, PREPARED_SLOTS. cbn. region. lia. }
  split; [done|]. intros _.
  rewrite recount_eq by (cbn; apply Ht).
  set (s2 := with_control _ _ _).
  assert (forall j, 0 <= j < THREAD_MAX -> thread_at s2 j =
    if j =? k then new_thread k s.(next_identifier) entry_ context_ else thread_at s j) as Hth.
  { intros j Hj. unfold s2. cbn [thread_at threads with_control].
    rewrite Z.eqb_sym. refine (aget_aset _ _ _ _ _ _ _); [|lia].
    cbn. rewrite (ta_len _ Ht). lia. }
  pose proof (frames_small s Ht) as Hfs.
  assert (created s (with_state s2 (set_counts s2.(state) (count_slots s2 live_thread)
     (count_slots s2 (is_state THREAD_STATE_READY)) (count_slots s2 (is_state THREAD_STATE_EXITED))))
     k entry_ context_) as Hcr.
  { split; try done; try lia.
    - intros j Hj. by apply is_state_false, Hlow.
    - cbn. autorewrite with sapote. apply Ht.
    - cbn. autorewrite with sapote. apply Ht.
    - intros j Hj. unfold control_at, s2. cbn [suspended with_control with_state].
      rewrite Z.eqb_sym. refine (aget_aset _ _ _ _ _ _ _); [|lia]. cbn. rewrite (ta_controls _ Ht). lia.
    - cbn. pose proof (ta_ids _ Ht 0 ltac:(done) (proj1 (proj2 (proj2 (ta_boot _ Ht))))).
      apply u64_small. unfold is_u64. lia.
    - cbn. f_equal. f_equal. apply u64_small. unfold is_u64, UINT64_MAX, THREAD_STACK_PAGES. lia. }
  split; [done|]. split.
  - eapply stacks_keep; [by apply quiet_keeps|].
    eapply stacks_ext; [intros j Hj; by apply (created_used s _ k entry_ context_)|].
    eapply stacks_gained; [done|lia| |done]. unfold used_slot.
    rewrite (proj2 (is_state_true _ _) Hu). apply andb_false_r.
  - exists k, F, m1. split_and!; [done|done|done|]. intros i Hi. exact (Hw i Hi).
Qed.

(** ** Stopping *)

(** thread_stop has released the stacks of the slots below [j]. *)
Record torn (s : scheduler) (m : M) (j : Z) (s' : scheduler) (m' : M) : Prop := {
  tn_len : zlength s'.(threads) = THREAD_MAX;
  tn_thread : forall k, 0 <= k < THREAD_MAX -> thread_at s' k =
    if (1 <=? k) && (k <? j) then no_thread else thread_at s k;
  tn_state : s'.(state) = set_stack_frames s.(state) s'.(state).(stack_frames);
  tn_table : s'.(table) = s.(table);
  tn_frames : s'.(state).(stack_frames) =
    THREAD_STACK_PAGES * countb (used_slot s') (seqZ 0 THREAD_MAX);
  tn_stacks : stacks_ok (used_slot s') m';
  tn_out : forall a, page_aligned a -> ~ in_region a -> paging_translate m' a = paging_translate m a;
  tn_owned : forall g, owned m' g <-> owned m g /\
    forall k p, 1 <= k < j -> used_slot s k = true -> 0 <= p < THREAD_STACK_PAGES ->
      frame_behind m k p <> g;
  tn_behind : forall k p, j <= k < THREAD_MAX -> 0 <= p < THREAD_STACK_PAGES ->
    frame_behind m' k p = frame_behind m k p
}.

Lemma torn_step s m j s1 m1 :
  1 <= j < THREAD_MAX ->
  (forall k, 1 <= k < THREAD_MAX -> (thread_at s k).(tstate) = THREAD_STATE_UNUSED \/
     (thread_at s k).(tstate) = THREAD_STATE_EXITED) ->
  (forall k, 1 <= k < THREAD_MAX -> (thread_at s k).(tstate) = THREAD_STATE_UNUSED ->
     thread_at s k = no_thread) ->
  torn s m j s1 m1 -> exists s2 m2, release_exited j (s1, m1) = Next (s2, m2) /\ torn s m (j + 1) s2 m2.
Proof.
  intros Hj Hst Hblank Htn. pose proof (tn_thread _ _ _ _ _ Htn) as Hth.
  assert (thread_at s1 j = thread_at s j) as Ej.
  { rewrite Hth by lia. assert ((j <? j) = false) as -> by (apply Z.ltb_ge; lia).
    by rewrite andb_false_r. }
  cbn [release_exited]. rewrite Ej. destruct (Hst j Hj) as [Hu|He].
  - rewrite (proj2 (is_state_false _ _)) by congruence. exists s1, m1. split; [done|].
    destruct Htn as [Hlen _ Hsame Htab Hfr Hstk Hout Hown Hbeh]. split; try done.
    + intros k Hk. rewrite Hth by done.
      destruct (decide (k = j)) as [->|Hne].
      * rewrite (proj2 (Z.leb_le 1 j)), (proj2 (Z.ltb_ge j j)), (proj2 (Z.ltb_lt j (j + 1))) by lia.
        cbn. by apply Hblank.
      * assert ((k <? j + 1) = (k <? j)) as ->; [|done].
        destruct (k <? j) eqn:E1, (k <? j + 1) eqn:E2; bool_hyps; lia.
    + intros g. rewrite Hown. split; intros [Hg Hn]; (split; [done|]); intros k p Hk Huk Hp.
      * destruct (decide (k = j)) as [->|]; [|apply Hn; (done || lia)].
        unfold used_slot in Huk. rewrite (proj2 (is_state_true _ _) Hu), andb_false_r in Huk. done.
      * apply Hn; (done || lia).
    + intros k p Hk Hp. apply Hbeh; lia || done.
  - rewrite (proj2 (is_state_true _ _) He).
    destruct Htn as [Hlen _ Hsame Htab Hfr Hstk Hout Hown Hbeh].
    assert (used_slot s1 j = true) as Huj.
    { unfold used_slot. rewrite Ej, (proj2 (Z.leb_le 1 j)) by lia. cbn.
      by rewrite (proj2 (is_state_false _ _)) by congruence. }
    assert (1 <= countb (used_slot s1) (seqZ 0 THREAD_MAX) <= 8) as Hcnt.
    { split.
      - assert (0 < countb (used_slot s1) (seqZ 0 THREAD_MAX)); [|lia].
        apply countb_pos. exists j. split; [apply elem_of_seqZ; lia|done].
      - pose proof (countb_le_length (used_slot s1) (seqZ 0 THREAD_MAX)) as Hl.
        unfold zlength in Hl. rewrite length_seqZ in Hl. unfold THREAD_MAX in *. lia. }
    destruct (unmap_stack_spec (used_slot s1) s1 m1 j Hstk ltac:(lia) Huj) as (m2 & -> & Hl).
    { rewrite Hfr. unfold THREAD_STACK_PAGES, UINT64_MAX. lia. }
    rewrite bool_decide_true by done. cbn [negb].
    set (s2 := clear_slot j (less_frames s1 THREAD_STACK_PAGES)). exists s2, m2. split; [done|].
    assert (forall k, 0 <= k < THREAD_MAX -> thread_at s2 k = if j =? k then no_thread else thread_at s1 k) as H2.
    { intros k Hk. refine (aget_aset _ _ _ _ _ _ _); [|lia]. cbn. rewrite Hlen. lia. }
    assert (forall k, 0 <= k < THREAD_MAX -> used_slot s2 k = used_slot s1 k && negb (k =? j)) as Hus.
    { intros k Hk. unfold used_slot. rewrite H2 by done. rewrite (Z.eqb_sym j k).
      destruct (k =? j); [|by rewrite andb_true_r]. unfold is_state. cbn. by rewrite !andb_false_r. }
    split.
    + cbn. by rewrite zlength_aset.
    + intros k Hk. rewrite H2, Hth by done.
      destruct (j =? k) eqn:E; bool_hyps.
      * subst k. by rewrite (proj2 (Z.leb_le 1 j)), (proj2 (Z.ltb_lt j (j + 1))) by lia.
      * assert ((k <? j + 1) = (k <? j)) as ->; [|done].
        destruct (k <? j) eqn:E1, (k <? j + 1) eqn:E2; bool_hyps; lia.
    + cbn. rewrite Hsame. done.
    + done.
    + cbn. rewrite Hfr. rewrite (countb_ext (used_slot s2) (fun k => used_slot s1 k && negb (k =? j)))
        by (intros k Hk%elem_of_seqZ; apply Hus; lia).
      rewrite (countb_update (fun k => used_slot s1 k && negb (k =? j)) (used_slot s1) j); try lia;
        [done|]. intros k Hk. rewrite (proj2 (Z.eqb_neq _ _)) by done. symmetry. apply andb_true_r.
    + eapply stacks_ext; [apply Hus|]. by eapply stacks_lost; [|lia|done|].
    + intros a Ha Hna. rewrite (lo_out _ _ _ _ _ Hl); [by apply Hout|done|].
      intros p Hp ->. apply Hna. apply stack_in_region; lia.
    + intros g. rewrite (lo_owned _ _ _ _ _ Hl), Hown. split.
      * intros [[Hg Hn] Hf]. split; [done|]. intros k p Hk Huk Hp.
        destruct (decide (k = j)) as [->|]; [|apply Hn; (done || lia)].
        rewrite <- Hbeh by lia. by apply Hf.
      * intros [Hg Hn]. split_and!; [done| |].
        -- intros k p Hk. apply Hn. lia.
        -- intros p Hp. rewrite Hbeh by lia. apply Hn; [lia| |done].
           unfold used_slot. rewrite <- Ej. exact Huj.
    + intros k p Hk Hp. unfold frame_behind. rewrite (lo_out _ _ _ _ _ Hl).
      * apply Hbeh; lia.
      * apply region_aligned, stack_in_region; lia.
      * intros q Hq E. apply stack_page_inj in E; [|done|done]. lia.
Qed.

Lemma torn_loop s m j s1 m1 :
  1 <= j <= THREAD_MAX ->
  (forall k, 1 <= k < THREAD_MAX -> (thread_at s k).(tstate) = THREAD_STATE_UNUSED \/
     (thread_at s k).(tstate) = THREAD_STATE_EXITED) ->
  (forall k, 1 <= k < THREAD_MAX -> (thread_at s k).(tstate) = THREAD_STATE_UNUSED ->
     thread_at s k = no_thread) ->
  torn s m j s1 m1 -> exists s2 m2,
    for_each release_exited (seqZ j (THREAD_MAX - j)) (s1, m1) = Next (s2, m2) /\
    torn s m THREAD_MAX s2 m2.
Proof.
  intros Hj Hst Hblank. remember (Z.to_nat (THREAD_MAX - j)) as d eqn:Ed. revert s1 m1 j Ed Hj.
  induction d as [|d IH]; intros s1 m1 j Ed Hj Htn.
  - rewrite seqZ_nil by lia. assert (j = THREAD_MAX) as -> by lia. by exists s1, m1.
  - rewrite seqZ_cons by lia. cbn [for_each].
    destruct (torn_step s m j s1 m1 ltac:(lia) Hst Hblank Htn) as (s2 & m2 & -> & Htn2).
    replace (Z.succ j) with (j + 1) by lia.
    replace (Z.pred (THREAD_MAX - j)) with (THREAD_MAX - (j + 1)) by lia.
    apply IH; [lia|lia|done].
Qed.

Lemma boot_is_slot_0 s : table_ok s ->
  (thread_at s s.(current_slot)).(boot_thread) = (s.(current_slot) =? 0).
Proof.
  intros Ht. pose proof (ta_slot _ Ht). destruct (s.(current_slot) =? 0) eqn:E; bool_hyps.
  - rewrite E. apply Ht.
  - apply (ta_rest _ Ht). lia.
Qed.

Lemma runnable_spec s :
  table_ok s -> s.(current_slot) = 0 ->
  still_runnable s = true <-> exists k, 1 <= k < THREAD_MAX /\ in_state s k THREAD_STATE_READY.
Proof.
  intros Ht Hc. unfold still_runnable. rewrite existsb_exists, (ta_capacity _ Ht). split.
  - intros (k & Hk%list_elem_of_In%elem_of_seqZ & Hs). exists k. split; [unfold THREAD_MAX in *; lia|].
    apply orb_prop in Hs as [Hs|Hs]; apply is_state_true in Hs; [done|].
    apply (ta_running _ Ht) in Hs; unfold THREAD_MAX in *; lia.
  - intros (k & Hk & Hr). exists k. split; [apply list_elem_of_In, elem_of_seqZ; unfold THREAD_MAX in *; lia|].
    by rewrite (proj2 (is_state_true _ _) Hr).
Qed.

Lemma disable_spec s m st s' m' :
  table_ok s -> thread_disable_preemption s m = (st, s', m') ->
  table_ok s' /\ quiet m m' /\ s'.(threads) = s.(threads) /\ s'.(table) = s.(table) /\
  s'.(current_slot) = s.(current_slot) /\ s'.(suspended) = s.(suspended).
Proof.
  intros Ht. unfold thread_disable_preemption. rewrite (ta_active _ Ht). cbn [negb].
  split_if; [intros [= <- <- <-]; split_and!; (done || apply quiet_refl)|].
  split_if; intros [[<- <-]%pair_eq <-]%pair_eq;
    (split_and!; [by eapply table_ok_preemption| |done|done|done|done]);
    [apply tl_timer_cancel|apply quiet_refl].
Qed.

Lemma arm_quantum_spec s m st s' m' :
  arm_quantum s m = (st, s', m') -> quiet m m' /\ s' = with_quantum s s'.(quantum_identifier) /\
  (st <> THREAD_STATUS_OK -> st = THREAD_STATUS_NO_QUANTUM /\ s'.(quantum_identifier) = THREAD_ID_NONE).
Proof.
  unfold arm_quantum. pose proof (tl_timer_arm (u64 (clock_monotonic_ns m + THREAD_QUANTUM_NS)) m) as Hq.
  destruct (timer_arm _ m) as [[id|] m1]; intros [[<- <-]%pair_eq <-]%pair_eq; by split_and!.
Qed.

Lemma enable_spec s m st s' m' :
  table_ok s -> thread_enable_preemption s m = (st, s', m') ->
  table_ok s' /\ quiet m m' /\ s'.(threads) = s.(threads) /\ s'.(suspended) = s.(suspended) /\
  (st <> THREAD_STATUS_OK -> s'.(state) = s.(state)).
Proof.
  intros Ht. unfold thread_enable_preemption. rewrite (ta_active _ Ht). cbn [negb].
  do 2 (split_if; [intros [= <- <- <-]; split_and!; (done || apply quiet_refl)|]).
  destruct (arm_quantum _ m) as [[st1 s1] m1] eqn:E. apply arm_quantum_spec in E as (Hq & -> & _).
  intros [[<- <-]%pair_eq <-]%pair_eq. destruct (decide (st1 = THREAD_STATUS_OK)) as [->|Hne].
  - rewrite bool_decide_true by done. cbn [negb]. split_and!; try done.
    by eapply table_ok_preemption.
  - rewrite bool_decide_false by done. cbn [negb]. split_and!; try done.
    + by eapply table_ok_preemption.
    + intros _. cbn. destruct s as [[] ? ? ? ? ? ? ?]. cbn in *. by subst.
Qed.

Lemma quantum_spec s m s' m' :
  table_ok s -> quantum_expired s m = Returns (s', m') ->
  table_ok s' /\ quiet m m' /\ s'.(threads) = s.(threads) /\ s'.(current_slot) = s.(current_slot) /\
  s'.(suspended) = s.(suspended) /\
  (s'.(reschedule_pending) = true -> s.(reschedule_pending) = true \/
     exists k, 0 <= k < THREAD_MAX /\ in_state s k THREAD_STATE_READY).
Proof.
  intros Ht. unfold quantum_expired. cbn [state with_quantum]. rewrite (ta_active _ Ht). cbn [negb orb].
  split_if.
  { intros [= <- <-]. split_and!; [by eapply table_ok_preemption; try done; by destruct s as [[] ? ? ? ? ? ? ?]|
      apply quiet_refl|done|done|done|by left]. }
  destruct (arm_quantum _ m) as [[st1 s1] m1] eqn:E. apply arm_quantum_spec in E as (Hq & -> & _).
  destruct (negb (bool_decide _)); [done|].
  cbn [current_slot with_quantum].
  split_if; intros [= <- <-]; split_and!; try done; try (by left);
    try (eapply table_ok_preemption; [exact Ht|done..|]; cbn; by destruct s as [[] ? ? ? ? ? ? ?]).
  intros _. right. bool_hyps.
  destruct (next_ready_spec s s.(current_slot) (ta_capacity _ Ht) (ta_slot _ Ht))
    as [[E _]|(d & Hd & _ & Hr & _)]; [by destruct Heqb0|].
  exists ((current_slot s + d) mod THREAD_MAX). split; [apply slot_range|done].
Qed.

Lemma stop_spec s m st s' m' :
  table_ok s -> stacks_ok (used_slot s) m ->
  (forall m1 : M, (heap_free s.(table) m1).1 = true) ->
  thread_stop s m = (st, s', m') ->
  (st <> THREAD_STATUS_OK -> table_ok s' /\ quiet m m' /\ s'.(threads) = s.(threads) /\
     s'.(suspended) = s.(suspended)) /\
  (st = THREAD_STATUS_OK <-> cpu_interrupts_enabled m = false /\ s.(current_slot) = 0 /\
     forall k, 1 <= k < THREAD_MAX -> ~ in_state s k THREAD_STATE_READY) /\
  (st = THREAD_STATUS_OK -> s'.(state).(active) = false /\ stacks_ok (fun _ => false) m' /\
     (forall a, page_aligned a -> ~ in_region a -> paging_translate m' a = paging_translate m a) /\
     (forall g, owned m' g <-> owned m g /\
        forall k p, 1 <= k < THREAD_MAX -> used_slot s k = true -> 0 <= p < THREAD_STACK_PAGES ->
          frame_behind m k p <> g)).
Proof.
  intros Ht Hst Hfree. unfold thread_stop. rewrite (ta_active _ Ht). cbn [negb].
  destruct (cpu_interrupts_enabled m) eqn:Hirq.
  { intros [= <- <- <-]. split_and!; [intros _; split_and!; (done || apply quiet_refl)| |done].
    split; [done|]. by intros [? _]. }
  rewrite boot_is_slot_0 by done. destruct (s.(current_slot) =? 0) eqn:Hc; cbn [negb]; bool_hyps; cycle 1.
  { intros [= <- <- <-]. split_and!; [intros _; split_and!; (done || apply quiet_refl)| |done].
    split; [done|]. by intros (_ & ? & _). }
  assert (exists st1 s1 m1, (if s.(state).(preemptive) then thread_disable_preemption s m
    else (THREAD_STATUS_OK, s, m)) = (st1, s1, m1) /\ table_ok s1 /\ quiet m m1 /\
    s1.(threads) = s.(threads) /\ s1.(table) = s.(table) /\ s1.(current_slot) = 0 /\
    s1.(suspended) = s.(suspended))
    as (st1 & s1 & m1 & -> & Ht1 & Hq1 & Eth & Eta & Hc1 & Esu).
  { destruct (preemptive _).
    - destruct (thread_disable_preemption s m) as [[st1 s1] m1] eqn:E.
      apply disable_spec in E as (? & ? & ? & ? & ? & ?); [|done]. exists st1, s1, m1.
      split_and!; try done. congruence.
    - exists THREAD_STATUS_OK, s, m. split_and!; (done || apply quiet_refl). }
  assert (forall k, thread_at s1 k = thread_at s k) as Hth
    by (intros k; unfold thread_at; by rewrite Eth).
  destruct (still_runnable s1) eqn:Hrun.
  { intros [= <- <- <-]. apply runnable_spec in Hrun as (k & Hk & Hr); [|done|done].
    unfold in_state in Hr. rewrite Hth in Hr. split_and!; [by intros _| |done].
    split; [done|]. intros (_ & _ & Hno). by destruct (Hno k Hk). }
  assert (forall k, 1 <= k < THREAD_MAX -> ~ in_state s k THREAD_STATE_READY) as Hno.
  { intros k Hk Hr. apply not_true_iff_false in Hrun. apply Hrun, runnable_spec; [done|done|].
    exists k. split; [done|]. unfold in_state in *. by rewrite Hth. }
  assert (stacks_ok (used_slot s1) m1) as Hst1.
  { eapply stacks_ext; [intros k _; by apply used_slot_ext|].
    eapply stacks_keep; [by apply quiet_keeps|done]. }
  rewrite (ta_capacity _ Ht1).
  destruct (torn_loop s1 m1 1 s1 m1) as (s2 & m2 & -> & Htn).
  { done. }
  { intros k Hk. rewrite Hth. pose proof (ta_running _ Ht k ltac:(lia)) as Hr.
    specialize (Hno k Hk). unfold in_state in *. destruct (tstate (thread_at s k)); auto; [done|].
    assert (k = current_slot s) by (by apply Hr). lia. }
  { intros k Hk Hu. rewrite Hth in *. by apply (ta_blank _ Ht). }
  { split; try done; [exact (ta_len _ Ht1)| | |exact (ta_frames _ Ht1)|].
    - intros k Hk. destruct (1 <=? k) eqn:E1, (k <? 1) eqn:E2; bool_hyps; try done. lia.
    - by destruct s1 as [[] ? ? ? ? ? ? ?].
    - intros g. split; [|tauto]. intros ?. split; [done|]. intros. lia. }
  assert (forall k, 0 <= k < THREAD_MAX -> used_slot s2 k = false) as Hnone.
  { intros k Hk. unfold used_slot. rewrite (tn_thread _ _ _ _ _ Htn) by done.
    rewrite (proj2 (Z.ltb_lt k _)) by lia. destruct (1 <=? k); done. }
  assert (stack_frames (state s2) = 0) as E0.
  { rewrite (tn_frames _ _ _ _ _ Htn). apply Z.eq_mul_0. right. apply countb_zero, Forall_forall.
    intros k Hk%elem_of_seqZ. apply Hnone. lia. }
  rewrite E0. cbn [negb Z.eqb]. pose proof (Hfree m2) as Hf.
  rewrite (tn_table _ _ _ _ _ Htn), Eta. pose proof (tl_heap_free s.(table) m2) as Hqf.
  destruct (heap_free s.(table) m2) as [b m3]. cbn in Hf, Hqf. subst b.
  intros [[<- <-]%pair_eq <-]%pair_eq. split_and!; [done|by split_and!|]. intros _.
  destruct (Hq1 (so_ok _ _ Hst)) as (Hok1 & Ho1 & Htr1).
  destruct (Hqf (so_ok _ _ (tn_stacks _ _ _ _ _ Htn))) as (Hok3 & Ho3 & Htr3).
  assert (forall k p, 0 <= k < THREAD_MAX -> 0 <= p < THREAD_STACK_PAGES ->
    frame_behind m1 k p = frame_behind m k p) as Hfb.
  { intros k p Hk Hp. unfold frame_behind. by rewrite Htr1 by (by apply region_aligned, stack_in_region). }
  split_and!; try done.
  - eapply stacks_ext; [|eapply stacks_keep; [by apply quiet_keeps|apply Htn]].
    intros k Hk. symmetry. by apply Hnone.
  - intros a Ha Hna. rewrite Htr3, (tn_out _ _ _ _ _ Htn), Htr1 by done. done.
  - intros g. rewrite Ho3, (tn_owned _ _ _ _ _ Htn), Ho1. split; intros [Hg Hn]; (split; [done|]).
    + intros k p Hk Hu Hp. rewrite <- Hfb by (done || lia). apply Hn; [done| |done].
      by rewrite (used_slot_ext s s1).
    + intros k p Hk Hu Hp. rewrite Hfb by (done || lia). apply Hn; [done| |done].
      by rewrite <- (used_slot_ext s s1).
Qed.

End switching.
End ThreadRun.
