(* ===== verification/ThreadSteps.v ===== *)
(** The runs of the thread layer: every operation of [Thread], and anything the
    rest of the kernel does, as a step; the states the steps reach, and what
    holds of them and of the runs between them. *)
From stdpp Require Import strings.
From S2P Require Import Prelude PhysicalMemory Heap Thread ThreadRun.

Open Scope Z_scope.

Module ThreadSteps.
Import Heap(HeapPlatform, PlatformLaws, translation, Mapped, NotMapped, TranslateFails,
  PAGING_PAGE_SIZE, PAGING_WRITE, page_aligned, frame_allocate, frame_release, paging_map,
  paging_unmap, paging_translate, paging_is_active, cpu_interrupts_enabled, platform_ok,
  owned, law_allocate, law_release, law_map, law_unmap).
Import Thread ThreadRun.

Section steps.
Context {M : Type} `{ThreadLaws M}.

(** * Steps *)

(** What can happen to a scheduler and its machine: its operations, called as
    threads and the interrupt dispatcher call them, and anything the rest of
    the kernel does.  [b] marks the calls that are to hand the processor over. *)
Inductive step (s : scheduler) (m : M) : bool -> scheduler -> M -> Prop :=
| st_start st s' m' : thread_start s m = (st, s', m') -> step s m false s' m'
| st_create e c d st id s' m' : s.(next_identifier) < UINT64_MAX ->
    thread_create e c d s m = (st, id, s', m') -> step s m false s' m'
| st_yield s' m' : on_stack s m -> thread_yield s m = Returns (s', m') ->
    step s m s.(state).(active) s' m'
| st_interrupt s' m' : on_stack s m -> thread_on_interrupt_return s m = Returns (s', m') ->
    step s m (s.(reschedule_pending) && s.(state).(active)) s' m'
| st_exit s' m' : thread_exit s m = Returns (s', m') -> step s m true s' m'
| st_quantum s' m' : quantum_expired s m = Returns (s', m') -> step s m false s' m'
| st_enable st s' m' : thread_enable_preemption s m = (st, s', m') -> step s m false s' m'
| st_disable st s' m' : thread_disable_preemption s m = (st, s', m') -> step s m false s' m'
| st_stop st s' m' : (forall m1 : M, (heap_free s.(table) m1).1 = true) ->
    thread_stop s m = (st, s', m') -> step s m false s' m'
| st_kernel m' : keeps m m' -> step s m false s m'.

(** Every step either leaves the threads and the running slot as they are,
    fills a slot, or hands the processor over. *)
Inductive effect (s : scheduler) (m : M) : bool -> scheduler -> M -> Prop :=
| ef_same s' m' : table_ok s' -> s'.(threads) = s.(threads) -> s'.(suspended) = s.(suspended) ->
    keeps m m' -> effect s m false s' m'
| ef_idle m' : (forall k, 0 <= k < THREAD_MAX -> ~ in_state s k THREAD_STATE_READY) ->
    forall b s', table_ok s' -> s'.(threads) = s.(threads) -> s'.(suspended) = s.(suspended) ->
    keeps m m' -> effect s m b s' m'
| ef_create s' m' k e c : s.(next_identifier) < UINT64_MAX -> created s s' k e c -> stacks_ok (used_slot s') m' -> effect s m false s' m'
| ef_hand s' m' d x point : 1 <= d < THREAD_MAX ->
    (forall e, 1 <= e < d ->
       ~ in_state s ((s.(current_slot) + e) mod THREAD_MAX) THREAD_STATE_READY) ->
    handed s s' ((s.(current_slot) + d) mod THREAD_MAX) x (outgoing_stack_pointer m) point ->
    (x = THREAD_STATE_READY /\ point = InSwitch (cpu_interrupts_enabled m) \/
     x = THREAD_STATE_EXITED /\ point = InExit /\ 1 <= s.(current_slot)) ->
    keeps m m' ->
    (x = THREAD_STATE_READY -> on_stack s m) ->
    saved point (cpu_interrupt_disable m) m' ->
    resumed (thread_at s ((s.(current_slot) + d) mod THREAD_MAX)).(stack_pointer)
      (control_at s ((s.(current_slot) + d) mod THREAD_MAX)) m' ->
    effect s m true s' m'
| ef_stop s' m' : s'.(state).(active) = false -> stacks_ok (fun _ => false) m' ->
    s.(current_slot) = 0 -> (forall k, 0 <= k < THREAD_MAX -> ~ in_state s k THREAD_STATE_READY) ->
    effect s m false s' m'.

Lemma switched_effect s m s' m' :
  table_ok s -> on_stack s m -> switched s m s' m' -> effect s m true s' m'.
Proof.
  intros Ht Hs [m1 Hno Hq _|s1 m1 d Hd Hlow Hh Hk Hsv Hrs].
  - by apply ef_idle; try done; apply quiet_keeps.
  - eapply ef_hand; try done. by left.
Qed.

Lemma step_effect s m b s' m' :
  table_ok s -> stacks_ok (used_slot s) m -> step s m b s' m' -> effect s m b s' m'.
Proof.
  intros Ht Hst Hstep. pose proof (ta_active _ Ht) as Ha.
  destruct Hstep as [st s' m' E|e c d st id s' m' Hid E|s' m' Hs E|s' m' Hs E|s' m' E|s' m' E|
    st s' m' E|st s' m' E|st s' m' Hf E|m' Hk].
  - unfold thread_start in E. rewrite Ha in E. injection E as <- <- <-.
    apply ef_same; (done || apply quiet_keeps, quiet_refl).
  - destruct d; cycle 1.
    { unfold thread_create in E. rewrite orb_true_r in E. injection E as <- <- <- <-.
      apply ef_same; (done || apply quiet_keeps, quiet_refl). }
    pose proof (thread_create_spec s m e c Ht Hst Hid) as Hc. rewrite E in Hc. destruct Hc as [Hbad Hok].
    destruct (decide (st = THREAD_STATUS_OK)) as [Hs|Hs].
    + destruct (Hok Hs) as (_ & Hst' & k & F & m1 & Hc & _). by eapply ef_create.
    + destruct (Hbad Hs) as (-> & Hsm & _). apply ef_same; try done. by apply quiet_keeps; intros _.
  - unfold thread_yield in E. rewrite Ha in E |- *. cbn [negb] in E.
    destruct (switch_to_next_spec s m Ht) as (s1 & m1 & E1 & Hsw). rewrite E1 in E.
    injection E as <- <-. by apply switched_effect.
  - unfold thread_on_interrupt_return in E. rewrite Ha. destruct (reschedule_pending s) eqn:Ep.
    + cbn [negb] in E. cbn [state with_pending] in E. rewrite Ha in E. cbn [negb] in E.
      assert (table_ok (with_pending s false)) as Ht'
        by (eapply table_ok_preemption; [exact Ht|done..|]; by destruct s as [[] ? ? ? ? ? ? ?]).
      destruct (switch_to_next_spec _ m Ht') as (s1 & m1 & E1 & Hsw). rewrite E1 in E.
      injection E as <- <-. destruct Hsw as [m2 Hno Hq _|s2 m2 d Hd Hlow Hh Hk Hsv Hrs].
      * by apply ef_idle; try done; apply quiet_keeps.
      * eapply (ef_hand s m s2 m2 d THREAD_STATE_READY); try done; [|by left].
        destruct Hh. by split.
    + injection E as <- <-. apply ef_same; (done || apply quiet_keeps, quiet_refl).
  - destruct (decide (1 <= current_slot s)) as [Hc|Hc].
    + destruct (thread_exit_spec s m Ht Hc) as (s1 & m1 & next & E1 & Hk & Hsv & Hrs & Hh & d & Hd & -> & Hlow).
      rewrite E1 in E. injection E as <- <-. eapply ef_hand; try done. by right.
    + unfold thread_exit in E. rewrite Ha in E. cbn [negb] in E. rewrite boot_is_slot_0 in E by done.
      pose proof (ta_slot _ Ht). rewrite (proj2 (Z.eqb_eq _ _)) in E by lia. done.
  - apply quantum_spec in E as (Ht' & Hq & Eth & _ & Esu & _); [|done].
    by apply ef_same; try done; apply quiet_keeps.
  - apply enable_spec in E as (Ht' & Hq & Eth & Esu & _); [|done].
    by apply ef_same; try done; apply quiet_keeps.
  - apply disable_spec in E as (Ht' & Hq & Eth & _ & _ & Esu); [|done].
    by apply ef_same; try done; apply quiet_keeps.
  - pose proof (stop_spec s m st s' m' Ht Hst Hf E) as (Hbad & Hiff & Hok).
    destruct (decide (st = THREAD_STATUS_OK)) as [Hs|Hs].
    + destruct (Hok Hs) as (Hina & Hst' & _). apply Hiff in Hs as (_ & Hc & Hno).
      apply ef_stop; try done. intros k Hk. destruct (decide (k = 0)) as [->|]; [|apply Hno; lia].
      intros Hr. apply (running_not_ready s 0 Ht Hr Hk). done.
    + destruct (Hbad Hs) as (Ht' & Hq & Eth & Esu). by apply ef_same; try done; apply quiet_keeps.
  - by apply ef_same.
Qed.

Lemma effect_inv s m b s' m' :
  table_ok s -> stacks_ok (used_slot s) m -> effect s m b s' m' -> inv s' m'.
Proof.
  intros Ht Hst He. unfold inv.
  destruct He as [s' m' Ht' Eth _ Hk|m' Hno b s' Ht' Eth _ Hk|s' m' k e c Hcr Hc Hst'|
    s' m' d x point Hd Hlow Hh Hx Hk Hs _ _|s' m' Hina Hst' _ _].
  - rewrite (ta_active _ Ht'). split; [done|]. eapply stacks_ext; [|by eapply stacks_keep].
    intros k _. by apply used_slot_ext.
  - rewrite (ta_active _ Ht'). split; [done|]. eapply stacks_ext; [|by eapply stacks_keep].
    intros k _. by apply used_slot_ext.
  - pose proof (created_ok s s' k e c Ht Hcr Hc) as Ht'. by rewrite (ta_active _ Ht').
  - assert (table_ok s') as Ht'.
    { eapply handed_ok; [done|exact Hh| | |].
      - destruct Hx as [[-> _]|(-> & _ & ?)]; auto.
      - intros Hc Hr. by apply Hs.
      - intros ->. by destruct Hx as [[_ ->]|(? & _)]. }
    rewrite (ta_active _ Ht'). split; [done|]. eapply stacks_ext; [|by eapply stacks_keep].
    intros k Hkr. eapply handed_used; [done|exact Hh| |done].
    by destruct Hx as [[-> _]|(-> & _)].
  - by rewrite Hina.
Qed.

(** Before thread_start every call refuses. *)
Lemma step_inactive s m b s' m' :
  s.(state).(active) = false -> stacks_ok (fun _ => false) m -> step s m b s' m' -> inv s' m'.
Proof.
  intros Ha Hst Hstep.
  assert (forall s1 m1, s1.(state).(active) = false -> keeps m m1 -> inv s1 m1) as Hoff.
  { intros s1 m1 H1 Hk. unfold inv. rewrite H1. by eapply stacks_keep. }
  pose proof (quiet_keeps M m m (quiet_refl M m)) as Hkm.
  destruct Hstep as [st s' m' E|e c d st id s' m' _ E|s' m' _ E|s' m' _ E|s' m' E|s' m' E|
    st s' m' E|st s' m' E|st s' m' _ E|m' Hk].
  - by eapply start_spec in E as [? _].
  - unfold thread_create in E. rewrite Ha in E. cbn [negb] in E.
    split_if_in E; injection E as <- <- <- <-; by apply Hoff.
  - unfold thread_yield in E. rewrite Ha in E. injection E as <- <-. by apply Hoff.
  - unfold thread_on_interrupt_return in E. cbn [state with_pending] in E. rewrite Ha in E.
    cbn [negb] in E. split_if_in E; injection E as <- <-; by apply Hoff.
  - unfold thread_exit in E. by rewrite Ha in E.
  - unfold quantum_expired in E. cbn [state with_quantum] in E. rewrite Ha in E. cbn [negb orb] in E.
    injection E as <- <-. by apply Hoff.
  - unfold thread_enable_preemption in E. rewrite Ha in E. injection E as <- <- <-. by apply Hoff.
  - unfold thread_disable_preemption in E. rewrite Ha in E. injection E as <- <- <-. by apply Hoff.
  - unfold thread_stop in E. rewrite Ha in E. injection E as <- <- <-. by apply Hoff.
  - by apply Hoff.
Qed.

Lemma thread_step_inv s m b s' m' : inv s m -> step s m b s' m' -> inv s' m'.
Proof.
  intros Hi Hstep. unfold inv in Hi. destruct (s.(state).(active)) eqn:Ha.
  - destruct Hi as [Ht Hst]. eapply effect_inv; [done|done|]. by apply step_effect.
  - by eapply step_inactive.
Qed.

(** A scheduler that has not started, on a machine with an empty stack region,
    and every state the steps lead to from there. *)
Inductive reachable : scheduler -> M -> Prop :=
| re_boot s m : s.(state).(active) = false -> stacks_ok (fun _ => false) m -> reachable s m
| re_step s m b s' m' : reachable s m -> step s m b s' m' -> reachable s' m'.

Lemma threads_inv s m : reachable s m -> inv s m.
Proof.
  induction 1 as [s m Ha Hst|s m b s' m' _ IH Hstep].
  - unfold inv. by rewrite Ha.
  - by eapply thread_step_inv.
Qed.

Lemma reachable_table s m :
  reachable s m -> s.(state).(active) = true -> table_ok s /\ stacks_ok (used_slot s) m.
Proof. intros Hr Ha. apply threads_inv in Hr. unfold inv in Hr. by rewrite Ha in Hr. Qed.

(** * The audit *)

Definition occupied (t : thread) : bool := negb (is_state THREAD_STATE_UNUSED t).

Lemma stack_page_u64 k p :
  0 <= k < THREAD_MAX -> 0 <= p < THREAD_STACK_PAGES ->
  u64 (slot_stack_base k + p * PAGING_PAGE_SIZE) = stack_page k p.
Proof. intros Hk Hp. apply u64_small. unfold is_u64, UINT64_MAX. region. lia. Qed.

Lemma verify_slot_ok s m k l r :
  table_ok s -> stacks_ok (used_slot s) m -> 0 <= k < THREAD_MAX ->
  verify_slot s m k (l, r) =
  Next (l + (if occupied (thread_at s k) then 1 else 0),
        r + (if is_state THREAD_STATE_RUNNING (thread_at s k) then 1 else 0)).
Proof.
  intros Ht Hst Hk. unfold verify_slot, occupied.
  destruct (is_state THREAD_STATE_UNUSED (thread_at s k)) eqn:Eu; cbn [negb].
  { assert (is_state THREAD_STATE_RUNNING (thread_at s k) = false) as ->.
    { apply is_state_false. apply is_state_true in Eu. by rewrite Eu. }
    by rewrite !Z.add_0_r. }
  pose proof Eu as Hu%is_state_false.
  assert ((if is_state THREAD_STATE_RUNNING (thread_at s k) then r + 1 else r) =
    r + (if is_state THREAD_STATE_RUNNING (thread_at s k) then 1 else 0)) as -> by (split_if; lia).
  destruct (decide (k = 0)) as [->|Hk0].
  { destruct (ta_boot _ Ht) as (-> & -> & _). done. }
  assert (1 <= k < THREAD_MAX) as Hk1 by lia.
  destruct (ta_rest _ Ht k Hk1) as [-> Hb]. destruct (Hb Hu) as [Eb Et].
  rewrite Eb, Et, !Z.eqb_refl, (so_guard _ _ Hst) by done. cbn [negb orb].
  assert (used_slot s k = true) as Hus.
  { unfold used_slot. rewrite Eu, (proj2 (Z.leb_le 1 k)) by lia. done. }
  assert (forallb (stack_page_present m (thread_at s k)) (seqZ 0 THREAD_STACK_PAGES) = true) as ->.
  { apply forallb_forall. intros p Hp%list_elem_of_In%elem_of_seqZ. unfold stack_page_present.
    rewrite Eb, stack_page_u64 by (done || lia).
    destruct (so_mapped _ _ Hst k p Hk ltac:(lia) Hus) as (f & -> & _). by rewrite !Z.eqb_refl. }
  cbn [negb].
  destruct (negb (is_state THREAD_STATE_EXITED (thread_at s k)) &&
            negb (is_state THREAD_STATE_RUNNING (thread_at s k))) eqn:Er; [|done].
  apply andb_true_iff in Er as [E1%negb_true_iff%is_state_false E2%negb_true_iff%is_state_false].
  assert (in_state s k THREAD_STATE_READY) as Hrd by (unfold in_state; destruct (tstate _); done).
  destruct (ta_pointer _ Ht k Hk1 Hrd) as [H1 H2].
  rewrite (proj2 (Z.ltb_ge _ _)) by lia. rewrite Z.gtb_ltb, (proj2 (Z.ltb_ge _ _)) by lia. done.
Qed.

Lemma verify_loop s m l a b :
  table_ok s -> stacks_ok (used_slot s) m -> Forall (fun k => 0 <= k < THREAD_MAX) l ->
  for_each (verify_slot s m) l (a, b) =
  Next (a + countb (fun k => occupied (thread_at s k)) l,
        b + countb (fun k => is_state THREAD_STATE_RUNNING (thread_at s k)) l).
Proof.
  intros Ht Hst Hl. revert a b. induction Hl as [|k l Hk Hl IH]; intros a b; cbn [for_each countb].
  { by rewrite !Z.add_0_r. }
  rewrite verify_slot_ok by done. by rewrite IH, !Z.add_assoc.
Qed.

Lemma occupied_count s l :
  countb (fun k => occupied (thread_at s k)) l =
  countb (fun k => live_thread (thread_at s k)) l +
  countb (fun k => is_state THREAD_STATE_EXITED (thread_at s k)) l.
Proof.
  induction l as [|k l IH]; [done|]. cbn [countb]. rewrite IH. clear IH.
  assert ((if occupied (thread_at s k) then 1 else 0) =
    (if live_thread (thread_at s k) then 1 else 0) +
    (if is_state THREAD_STATE_EXITED (thread_at s k) then 1 else 0)) as ->; [|lia].
  unfold occupied, live_thread, is_state. by destruct (tstate _).
Qed.

Lemma one_running s :
  table_ok s -> countb (fun k => is_state THREAD_STATE_RUNNING (thread_at s k)) (seqZ 0 THREAD_MAX) = 1.
Proof.
  intros Ht. pose proof (ta_slot _ Ht) as Hc.
  rewrite (countb_ext _ (fun k => k =? current_slot s)).
  - rewrite (countb_update (fun _ => false) _ (current_slot s)); [|done|done|apply Z.eqb_refl|].
    + rewrite (proj2 (countb_zero _ _)); [done|]. by apply Forall_forall.
    + intros j Hj. by apply Z.eqb_neq.
  - intros k Hk%elem_of_seqZ. pose proof (ta_running _ Ht k ltac:(lia)) as Hrun.
    apply eq_true_iff_eq. rewrite is_state_true, Z.eqb_eq. exact Hrun.
Qed.

Lemma verify_ok s m :
  table_ok s -> stacks_ok (used_slot s) m -> thread_verify s m = THREAD_STATUS_OK.
Proof.
  intros Ht Hst. unfold thread_verify, slots.
  rewrite (ta_active _ Ht), (ta_capacity _ Ht), (proj2 (Z.eqb_neq _ _) (ta_table _ Ht)). cbn [negb].
  rewrite verify_loop by (done || (apply Forall_forall; intros k Hk%elem_of_seqZ; lia)).
  rewrite one_running, occupied_count, !Z.add_0_l, (ta_live _ Ht), (ta_exited _ Ht) by done.
  unfold count_slots. rewrite <- occupied_count, u64_small; [by rewrite !Z.eqb_refl|].
  pose proof (countb_nonneg (fun k => occupied (thread_at s k)) (seqZ 0 THREAD_MAX)).
  pose proof (countb_le_length (fun k => occupied (thread_at s k)) (seqZ 0 THREAD_MAX)) as Hl.
  unfold zlength in Hl. rewrite length_seqZ in Hl. unfold is_u64, UINT64_MAX, THREAD_MAX in *. lia.
Qed.

(** * Identifiers *)

Lemma find_slot s k :
  table_ok s -> 0 <= k < THREAD_MAX -> ~ in_state s k THREAD_STATE_UNUSED ->
  find (thread_at s k).(identifier) s = Some k.
Proof.
  intros Ht Hk Hu. pose proof (ta_ids _ Ht k Hk Hu) as Hid. unfold find, slots.
  rewrite (proj2 (Z.eqb_neq _ THREAD_ID_NONE)) by (unfold THREAD_ID_NONE; lia).
  rewrite (proj2 (Z.eqb_neq _ _) (ta_table _ Ht)), (ta_capacity _ Ht). cbn [orb].
  set (p j := negb (is_state THREAD_STATE_UNUSED (thread_at s j)) &&
    (identifier (thread_at s j) =? identifier (thread_at s k))).
  rewrite (for_each_scan p (fun j => j)).
  destruct (List.find p (seqZ 0 THREAD_MAX)) as [j|] eqn:E.
  - apply find_seqZ_Some in E as (Hj & Hp & _). unfold p in Hp. bool_hyps. f_equal.
    apply (ta_distinct _ Ht); [lia|done| |done|done]. by apply is_state_false.
  - rewrite find_seqZ_None in E. specialize (E k ltac:(lia)). unfold p in E.
    rewrite Z.eqb_refl, andb_true_r in E. apply negb_false_iff, is_state_true in E. done.
Qed.

Lemma find_sound s id k :
  table_ok s -> find id s = Some k ->
  0 <= k < THREAD_MAX /\ ~ in_state s k THREAD_STATE_UNUSED /\ (thread_at s k).(identifier) = id.
Proof.
  intros Ht. unfold find, slots. rewrite (ta_capacity _ Ht). split_if; [done|].
  set (p j := negb (is_state THREAD_STATE_UNUSED (thread_at s j)) &&
    (identifier (thread_at s j) =? id)).
  rewrite (for_each_scan p (fun j => j)).
  destruct (List.find p (seqZ 0 THREAD_MAX)) as [j|] eqn:E; [|done]. intros [= ->].
  apply find_seqZ_Some in E as (Hj & Hp & _). unfold p in Hp. bool_hyps.
  split_and!; [lia|lia| |done]. by apply is_state_false.
Qed.

(** * Runs *)

(** A run from one state to another in which slot [k] never has the processor;
    [n] counts the calls that hand it over. *)
Inductive waits (k : Z) : nat -> scheduler -> M -> scheduler -> M -> Prop :=
| wa_nil s m : s.(current_slot) <> k -> waits k 0 s m s m
| wa_step n s m s1 m1 b s2 m2 : waits k n s m s1 m1 -> step s1 m1 b s2 m2 ->
    s2.(current_slot) <> k -> waits k (if b then S n else n) s m s2 m2.

(** What a waiting slot keeps. *)
Record parked (s s' : scheduler) (k : Z) : Prop := {
  pk_ready : in_state s' k THREAD_STATE_READY;
  pk_thread : thread_at s' k = thread_at s k;
  pk_control : control_at s' k = control_at s k
}.

(** How far the round robin is from slot [k]. *)
Definition distance (s : scheduler) (k : Z) : Z := (k - s.(current_slot)) mod THREAD_MAX.

Lemma distance_range s k :
  0 <= s.(current_slot) < THREAD_MAX -> 0 <= k < THREAD_MAX -> k <> s.(current_slot) ->
  1 <= distance s k < THREAD_MAX /\ (s.(current_slot) + distance s k) mod THREAD_MAX = k.
Proof.
  intros Hc Hk Hne. unfold distance, THREAD_MAX in *.
  pose proof (Z.div_mod (k - current_slot s) 8). pose proof (Z.mod_pos_bound (k - current_slot s) 8).
  split; [lia|]. rewrite Zplus_mod_idemp_r. replace (current_slot s + (k - current_slot s)) with k by lia.
  by apply Z.mod_small.
Qed.

Lemma distance_shrinks s s' k d :
  0 <= s.(current_slot) < THREAD_MAX -> 0 <= k < THREAD_MAX -> k <> s.(current_slot) ->
  1 <= d <= distance s k -> s'.(current_slot) = (s.(current_slot) + d) mod THREAD_MAX ->
  distance s' k = distance s k - d.
Proof.
  unfold distance, THREAD_MAX. intros Hc Hk Hne Hd ->. rewrite Zminus_mod_idemp_r.
  pose proof (Z.div_mod (k - current_slot s) 8). pose proof (Z.mod_pos_bound (k - current_slot s) 8).
  pose proof (Z.div_mod (k - (current_slot s + d)) 8). pose proof (Z.mod_pos_bound (k - (current_slot s + d)) 8).
  lia.
Qed.

(** One step while slot [k] is ready: it stays parked or takes the processor
    with the registers its stack holds, and a call that hands the
    processor over brings the round robin closer. *)
Lemma ready_step s m b s' m' k :
  table_ok s -> stacks_ok (used_slot s) m -> 0 <= k < THREAD_MAX ->
  in_state s k THREAD_STATE_READY -> step s m b s' m' ->
  s'.(state).(active) = true /\
  (s'.(current_slot) <> k -> parked s s' k /\
     distance s' k <= distance s k - (if b then 1 else 0)) /\
  (s'.(current_slot) = k -> (thread_at s' k).(stack_pointer) = (thread_at s k).(stack_pointer) /\
     resumed (thread_at s k).(stack_pointer) (control_at s k) m').
Proof.
  intros Ht Hst Hk Hrd Hstep.
  pose proof (running_not_ready s k Ht Hrd Hk) as Hne. pose proof (ta_slot _ Ht) as Hc.
  assert (forall s1, table_ok s1 -> s1.(threads) = s.(threads) -> s1.(suspended) = s.(suspended) ->
    s1.(current_slot) = s.(current_slot) /\ parked s s1 k) as Hsame.
  { intros s1 Ht1 Eth Esu. split.
    - pose proof (proj2 (ta_running _ Ht _ Hc) eq_refl) as Hr. symmetry.
      apply (ta_running _ Ht1); [done|]. unfold in_state, thread_at in *. by rewrite Eth.
    - split; unfold in_state, control_at, thread_at in *; by rewrite ?Eth, ?Esu. }
  destruct (step_effect s m b s' m' Ht Hst Hstep) as [s' m' Ht' Eth Esu Hkp|m' Hno b s' Ht' Eth _ Hkp|
    s' m' j e c Hid Hcr Hst'|s' m' d x point Hd Hlow Hh Hx Hkp Hs _ Hrs|s' m' Hina Hst' Hc0 Hno].
  - destruct (Hsame s' Ht' Eth Esu) as [Ec Hp]. split_and!; [by apply Ht'| |congruence].
    intros _. split; [done|]. unfold distance. rewrite Ec. lia.
  - by destruct (Hno k Hk).
  - assert (k <> j) as Hkj.
    { intros ->. unfold in_state in Hrd. pose proof (cr_unused _ _ _ _ _ Hcr) as Hu.
      unfold in_state in Hu. congruence. }
    assert (thread_at s' k = thread_at s k) as Eth.
    { rewrite (cr_thread _ _ _ _ _ Hcr) by done. by rewrite (proj2 (Z.eqb_neq _ _)). }
    assert (control_at s' k = control_at s k) as Eco.
    { rewrite (cr_control _ _ _ _ _ Hcr) by done. by rewrite (proj2 (Z.eqb_neq _ _)). }
    rewrite (cr_current _ _ _ _ _ Hcr). split_and!; [|intros _|congruence].
    + rewrite (cr_state _ _ _ _ _ Hcr). exact (ta_active _ Ht).
    + split; [split; [unfold in_state; by rewrite Eth|done|done]|].
      unfold distance. rewrite (cr_current _ _ _ _ _ Hcr). lia.
  - destruct (distance_range s k Hc Hk Hne) as [Hdr Edr].
    assert (d <= distance s k) as Hle.
    { destruct (decide (d <= distance s k)) as [|Hgt]; [done|]. exfalso.
      apply (Hlow (distance s k)); [lia|]. by rewrite Edr. }
    pose proof (hd_slot _ _ _ _ _ _ Hh) as Es. rewrite Es.
    assert (k <> current_slot s) as Hks by done. split_and!.
    + rewrite (hd_state _ _ _ _ _ _ Hh). exact (ta_active _ Ht).
    + intros Hnk. assert (thread_at s' k = thread_at s k) as Eth.
      { rewrite (hd_thread _ _ _ _ _ _ Hh) by done. by rewrite !(proj2 (Z.eqb_neq _ _)) by done. }
      assert (control_at s' k = control_at s k) as Eco.
      { rewrite (hd_control _ _ _ _ _ _ Hh) by done. by rewrite (proj2 (Z.eqb_neq _ _)). }
      split; [split; [unfold in_state; by rewrite Eth|done|done]|].
      rewrite (distance_shrinks s s' k d) by (done || lia). lia.
    + intros En. split.
      * rewrite (hd_thread _ _ _ _ _ _ Hh), En, Z.eqb_refl by done. done.
      * by rewrite En in Hrs.
  - by destruct (Hno k Hk).
Qed.

Lemma waits_parked k n s m s' m' :
  inv s m -> s.(state).(active) = true -> 0 <= k < THREAD_MAX ->
  in_state s k THREAD_STATE_READY -> waits k n s m s' m' ->
  inv s' m' /\ s'.(state).(active) = true /\ parked s s' k /\
  1 <= distance s' k <= distance s k - Z.of_nat n.
Proof.
  intros Hi Ha Hk Hr Hw. induction Hw as [s m Hne|n s m s1 m1 b s2 m2 Hw IH Hstep Hne].
  - split_and!; try done. unfold inv in Hi. rewrite Ha in Hi. destruct Hi as [Ht _].
    destruct (distance_range s k (ta_slot _ Ht) Hk) as [? _]; [done|]. lia.
    lia.
  - destruct (IH Hi Ha Hr) as (Hi1 & Ha1 & [P1 P2 P3] & Hd).
    pose proof (thread_step_inv s1 m1 b s2 m2 Hi1 Hstep) as Hi2.
    pose proof Hi1 as Hi1'. unfold inv in Hi1'. rewrite Ha1 in Hi1'. destruct Hi1' as [Ht1 Hst1].
    destruct (ready_step s1 m1 b s2 m2 k Ht1 Hst1 Hk P1 Hstep) as (Ha2 & Hp & _).
    destruct (Hp Hne) as [[Q1 Q2 Q3] Hd2].
    pose proof Hi2 as Hi2'. unfold inv in Hi2'. rewrite Ha2 in Hi2'. destruct Hi2' as [Ht2 _].
    destruct (distance_range s2 k (ta_slot _ Ht2) Hk) as [? _]; [done|].
    split_and!; [done|done|split; congruence|lia|]. destruct b; lia.
Qed.

(** * What threads promise *)

(** C18 (invariant): in every state the operations can reach once threads are
    started, exactly one slot is running and it is the one the scheduler calls
    current, thread_current names the thread in it and find takes that name back
    to the slot, no two threads share a name, every thread that can be scheduled
    has its own four mapped stack pages below an absent guard page, and
    thread_verify, which checks all of this at run time, reports OK. *)
Theorem threads_reachable s m :
  reachable s m -> s.(state).(active) = true ->
  (forall k, 0 <= k < THREAD_MAX -> in_state s k THREAD_STATE_RUNNING <-> k = s.(current_slot)) /\
  (forall id k, find id s = Some k <->
     0 <= k < THREAD_MAX /\ ~ in_state s k THREAD_STATE_UNUSED /\ (thread_at s k).(identifier) = id) /\
  find (thread_current s) s = Some s.(current_slot) /\
  (thread_get_state s).(current) = thread_current s /\
  stacks_ok (used_slot s) m /\
  thread_verify s m = THREAD_STATUS_OK.
Proof.
  intros Hr Ha. destruct (reachable_table s m Hr Ha) as [Ht Hst].
  pose proof (ta_slot _ Ht) as Hc.
  assert (~ in_state s (current_slot s) THREAD_STATE_UNUSED) as Hu.
  { pose proof (proj2 (ta_running _ Ht _ Hc) eq_refl) as E. unfold in_state in *. by rewrite E. }
  split_and!; [apply Ht| | | |done|by apply verify_ok].
  - intros id k. split; [by apply find_sound|]. intros (Hk & Huk & <-). by apply find_slot.
  - unfold thread_current. rewrite Ha. by apply find_slot.
  - unfold thread_get_state, thread_current. rewrite Ha. exact (ta_current _ Ht).
Qed.

(** C21 (safety): none of the scheduler's panics can be reached by giving the
    processor up.  In every reachable state thread_yield and the switch on the
    way out of an interrupt return, thread_exit returns from any thread but the
    boot thread, which is the only one it refuses, and the quantum callback
    fails only when the timer has no room for the next quantum. *)
Theorem scheduler_panics_exactly s m :
  reachable s m -> s.(state).(active) = true ->
  (exists r, thread_yield s m = Returns r) /\
  (exists r, thread_on_interrupt_return s m = Returns r) /\
  (if s.(current_slot) =? 0 then thread_exit s m = Panics "the boot thread cannot exit"%string
   else exists r, thread_exit s m = Returns r) /\
  ((exists message, quantum_expired s m = Panics message) <->
   s.(state).(preemptive) = true /\
   (timer_arm (u64 (clock_monotonic_ns m + THREAD_QUANTUM_NS)) m).1 = None).
Proof.
  intros Hr Ha. destruct (reachable_table s m Hr Ha) as [Ht Hst]. split_and!.
  - unfold thread_yield. rewrite Ha. destruct (switch_to_next_spec s m Ht) as (s1 & m1 & -> & _). eauto.
  - unfold thread_on_interrupt_return. destruct (reschedule_pending s); cbn [negb]; [|eauto].
    cbn [state with_pending]. rewrite Ha. cbn [negb].
    assert (table_ok (with_pending s false)) as Ht'
      by (eapply table_ok_preemption; [exact Ht|done..|]; by destruct s as [[] ? ? ? ? ? ? ?]).
    destruct (switch_to_next_spec _ m Ht') as (s1 & m1 & -> & _). eauto.
  - pose proof (ta_slot _ Ht) as Hc. destruct (current_slot s =? 0) eqn:E.
    + unfold thread_exit. by rewrite Ha, boot_is_slot_0, E.
    + bool_hyps. destruct (thread_exit_spec s m Ht ltac:(lia)) as (s1 & m1 & next & -> & _). eauto.
  - unfold quantum_expired. cbn [state with_quantum]. rewrite Ha. cbn [negb orb].
    destruct (preemptive (state s)) eqn:Ep; cbn [negb]; [|split; [by intros [? ?]|by intros [? _]]].
    unfold arm_quantum. destruct (timer_arm _ m) as [[id|] m1];
      [rewrite bool_decide_true by done|rewrite bool_decide_false by done]; cbn [negb fst].
    + split; [|by intros [_ ?]]. intros [msg Hm]. by split_if_in Hm.
    + split; [done|]. intros _. by eexists.
Qed.

(** C19 (liveness): a ready thread is never passed over for a whole turn of the
    round robin.  While it waits it stays ready whatever the other threads, the
    interrupts and the rest of the kernel do, and fewer calls hand the processor
    over than it is slots away, so at most six of the eight slots go first. *)
Theorem ready_thread_runs k n s m s' m' :
  reachable s m -> s.(state).(active) = true -> 0 <= k < THREAD_MAX ->
  in_state s k THREAD_STATE_READY -> waits k n s m s' m' ->
  s'.(state).(active) = true /\ in_state s' k THREAD_STATE_READY /\
  Z.of_nat n < distance s k <= THREAD_MAX - 1.
Proof.
  intros Hr Ha Hk Hrd Hw. apply threads_inv in Hr as Hi.
  destruct (waits_parked k n s m s' m' Hi Ha Hk Hrd Hw) as (_ & Ha' & [P1 _ _] & Hd).
  split_and!; [done|done|lia|]. unfold distance. pose proof (slot_range (k - current_slot s)). lia.
Qed.

Lemma flags_back f :
  (if Z.testbit f 9 then Z.lor (Z.ldiff f RFLAGS_INTERRUPT_ENABLE) RFLAGS_INTERRUPT_ENABLE
   else Z.ldiff f RFLAGS_INTERRUPT_ENABLE) = f.
Proof.
  assert (forall n, Z.testbit RFLAGS_INTERRUPT_ENABLE n = (n =? 9)) as Hb.
  { intros n. change RFLAGS_INTERRUPT_ENABLE with (2 ^ 9). rewrite Z.eqb_sym. by apply Z.pow2_bits_eqb. }
  apply Z.bits_inj'. intros n Hn. destruct (Z.testbit f 9) eqn:E;
    rewrite ?Z.lor_spec, Z.ldiff_spec, Hb; destruct (n =? 9) eqn:En; bool_hyps; subst;
    rewrite ?E, ?andb_true_r, ?orb_false_r; done.
Qed.

(** What a thread finds when its frame still holds what it pushed on [m]. *)
Lemma resumed_saved m m1 m3 :
  let i := cpu_interrupts_enabled m in
  PREPARED_FRAME_SIZE <= rsp m <= UINT64_MAX ->
  saved (InSwitch i) (cpu_interrupt_disable m) m1 ->
  (forall j, 0 <= j < PREPARED_SLOTS -> load (rsp m - PREPARED_FRAME_SIZE + j * 8) m3 =
     load (rsp m - PREPARED_FRAME_SIZE + j * 8) m1) ->
  resumed (outgoing_stack_pointer m) (InSwitch i) m3 ->
  rsp m3 = rsp m /\ callee_saved m3 = callee_saved m /\ rflags m3 = rflags m.
Proof.
  intros i Hm Hsv Heq (Hs & Hf & Hr).
  destruct (tl_disable m) as (_ & Es & Er & Ef & _). unfold saved in Hsv. rewrite Es, Er, Ef in Hsv.
  unfold outgoing_stack_pointer in *. rewrite (u64_small (rsp m - PREPARED_FRAME_SIZE)) in Hs, Hf, Hr by
    (unfold is_u64, PREPARED_FRAME_SIZE, PREPARED_SLOTS in *; lia).
  assert (forall j, 0 <= j < PREPARED_SLOTS ->
    load (u64 (rsp m - PREPARED_FRAME_SIZE + j * 8)) m3 =
    frame_word (return_site (InSwitch i)) (Z.ldiff (rflags m) RFLAGS_INTERRUPT_ENABLE) (callee_saved m) j) as Hw.
  { intros j Hj. rewrite u64_small, Heq by
      (done || unfold is_u64, PREPARED_FRAME_SIZE, PREPARED_SLOTS in *; lia). by apply Hsv. }
  rewrite !Hw in Hr by done. rewrite !Hw in Hf by done. split_and!.
  - rewrite Hs, u64_small; [lia|]. unfold is_u64, PREPARED_FRAME_SIZE, PREPARED_SLOTS in *. lia.
  - rewrite Hr. by destruct (callee_saved m).
  - rewrite Hf. unfold i. rewrite tl_interrupts. apply flags_back.
Qed.

(** C20 (safety): a thread that gives the processor up goes on exactly as it was.
    Its slot keeps the address of the frame the switch pushed for it, and when
    any later step gives it the processor back, after whatever the other threads
    and the rest of the kernel did except overwriting those eight words of its
    stack, its stack pointer, its callee-saved registers and its flags,
    interrupts on or off included, are the ones it had when it yielded. *)
Theorem thread_resumes_as_it_left s m s1 m1 n s2 m2 b s3 m3 :
  let k := s.(current_slot) in
  let frame := rsp m - PREPARED_FRAME_SIZE in
  reachable s m -> s.(state).(active) = true -> on_stack s m ->
  PREPARED_FRAME_SIZE <= rsp m <= UINT64_MAX ->
  thread_yield s m = Returns (s1, m1) -> s1.(current_slot) <> k ->
  waits k n s1 m1 s2 m2 -> step s2 m2 b s3 m3 -> s3.(current_slot) = k ->
  (forall i, 0 <= i < PREPARED_SLOTS -> load (frame + i * 8) m3 = load (frame + i * 8) m1) ->
  (thread_at s2 k).(stack_pointer) = frame /\ (thread_at s3 k).(stack_pointer) = frame /\
  rsp m3 = rsp m /\ callee_saved m3 = callee_saved m /\ rflags m3 = rflags m /\
  cpu_interrupts_enabled m3 = cpu_interrupts_enabled m.
Proof.
  intros k frame Hr Ha Hon Hm Ey Hne Hw Hstep Hk3 Hint. destruct (reachable_table s m Hr Ha) as [Ht Hst].
  pose proof (st_yield s m s1 m1 Hon Ey) as Hs1.
  pose proof (thread_step_inv _ _ _ _ _ (threads_inv _ _ Hr) Hs1) as Hi1.
  unfold thread_yield in Ey. rewrite Ha in Ey. cbn [negb] in Ey.
  destruct (switch_to_next_spec s m Ht) as (s1' & m1' & E1 & Hsw). rewrite E1 in Ey.
  injection Ey as <- <-. destruct Hsw as [|s1 m1 d Hd Hlow Hh Hkp Hsv _]; [done|].
  pose proof (ta_slot _ Ht) as Hc.
  assert (thread_at s1 k = set_stack_pointer (set_tstate (thread_at s k) THREAD_STATE_READY)
    (outgoing_stack_pointer m)) as Eth.
  { rewrite (hd_thread _ _ _ _ _ _ Hh) by done. rewrite (proj2 (Z.eqb_neq k _)).
    - by rewrite Z.eqb_refl.
    - pose proof (hd_other _ _ _ _ _ _ Hh). done. }
  assert (control_at s1 k = InSwitch (cpu_interrupts_enabled m)) as Eco.
  { rewrite (hd_control _ _ _ _ _ _ Hh) by done. by rewrite Z.eqb_refl. }
  assert (s1.(state).(active) = true) as Ha1 by (by rewrite (hd_state _ _ _ _ _ _ Hh)).
  assert (in_state s1 k THREAD_STATE_READY) as Hrd by (unfold in_state; by rewrite Eth).
  destruct (waits_parked k n s1 m1 s2 m2 Hi1 Ha1 Hc Hrd Hw) as (Hi2 & Ha2 & [P1 P2 P3] & _).
  unfold inv in Hi2. rewrite Ha2 in Hi2. destruct Hi2 as [Ht2 Hst2].
  destruct (ready_step s2 m2 b s3 m3 k Ht2 Hst2 Hc P1 Hstep) as (_ & _ & Hrun).
  destruct (Hrun Hk3) as [Esp Hrs]. rewrite P2, P3, Eth, Eco in Hrs. rewrite Esp, P2, Eth.
  destruct (resumed_saved m m1 m3 Hm Hsv Hint Hrs) as (H1 & H2 & H3).
  assert (outgoing_stack_pointer m = frame) as Eo.
  { apply u64_small. unfold is_u64, frame, PREPARED_FRAME_SIZE, PREPARED_SLOTS in *. lia. }
  cbn [stack_pointer set_stack_pointer]. rewrite !tl_interrupts, H3. by split_and!.
Qed.

(** * Creating *)

Lemma stack_top_aligned k : slot_stack_top k mod 16 = 0.
Proof.
  region. rewrite <- (Z.mod_mul ((8388608 + k * 5 + 5) * 256) 16) by done. f_equal. lia.
Qed.

(** The first [p] pages of slot [k]'s stack each got a frame and a mapping,
    taking the machine from [m] to the last one. *)
Inductive climbs (k : Z) (m : M) : Z -> M -> Prop :=
| cl_none : climbs k m 0 m
| cl_page p m1 f m2 m3 : climbs k m p m1 -> frame_allocate m1 = (Some f, m2) ->
    paging_map (stack_page k p) f m2 = (true, m3) -> climbs k m (p + 1) m3.

(** What comes of mapping slot [k]'s stack on [m]. *)
Inductive stack_outcome (k : Z) (m : M) : thread_status -> Prop :=
| so_whole m1 : climbs k m THREAD_STACK_PAGES m1 -> stack_outcome k m THREAD_STATUS_OK
| so_no_frame p m1 m2 : 0 <= p < THREAD_STACK_PAGES -> climbs k m p m1 ->
    frame_allocate m1 = (None, m2) -> stack_outcome k m THREAD_STATUS_OUT_OF_FRAMES
| so_no_mapping p m1 f m2 m3 : 0 <= p < THREAD_STACK_PAGES -> climbs k m p m1 ->
    frame_allocate m1 = (Some f, m2) -> paging_map (stack_page k p) f m2 = (false, m3) ->
    stack_outcome k m THREAD_STATUS_MAPPING_FAILURE.

Lemma map_stack_outcome k s m : stack_outcome k m (map_stack k s m).1.1.
Proof.
  assert (forall d p m1, Z.to_nat (THREAD_STACK_PAGES - p) = d -> 0 <= p <= THREAD_STACK_PAGES ->
    climbs k m p m1 ->
    match for_each (map_stack_page (slot_stack_base k)) (seqZ p (THREAD_STACK_PAGES - p)) m1 with
    | Next _ => stack_outcome k m THREAD_STATUS_OK
    | Return (st, _, _) => stack_outcome k m st
    end) as Hloop.
  { induction d as [|d IH]; intros p m1 Hd Hp Hc.
    - rewrite seqZ_nil by lia. assert (p = THREAD_STACK_PAGES) as -> by lia. by eapply so_whole.
    - rewrite seqZ_cons by lia. cbn [for_each]. unfold map_stack_page at 1. fold (stack_page k p).
      destruct (frame_allocate m1) as [[f|] m2] eqn:Ef; [|by eapply (so_no_frame _ _ p); [lia|..]].
      destruct (paging_map (stack_page k p) f m2) as [[] m3] eqn:Em; [|by eapply (so_no_mapping _ _ p); [lia|..]].
      replace (Z.pred (THREAD_STACK_PAGES - p)) with (THREAD_STACK_PAGES - Z.succ p) by lia.
      apply IH; [lia|lia|]. by eapply cl_page. }
  specialize (Hloop _ 0 m eq_refl ltac:(done) (cl_none k m)). rewrite Z.sub_0_r in Hloop.
  unfold map_stack. by destruct (for_each _ _ m) as [m1|[[st j] m1]].
Qed.

Lemma create_status s (m : M) entry_ context_ :
  table_ok s -> entry_ <> 0 -> cpu_interrupts_enabled m = false ->
  let st := (thread_create entry_ context_ true s m).1.1.1 in
  (st = THREAD_STATUS_NO_CAPACITY /\
   forall j, 1 <= j < THREAD_MAX -> ~ in_state s j THREAD_STATE_UNUSED) \/
  exists k, 1 <= k < THREAD_MAX /\ in_state s k THREAD_STATE_UNUSED /\
    (forall j, 1 <= j < k -> ~ in_state s j THREAD_STATE_UNUSED) /\ stack_outcome k m st.
Proof.
  intros Ht He Hi. unfold thread_create. rewrite (proj2 (Z.eqb_neq _ _) He), (ta_active _ Ht), Hi.
  cbn [negb orb].
  rewrite (for_each_scan (fun slot => is_state THREAD_STATE_UNUSED (thread_at s slot)) id).
  rewrite (ta_capacity _ Ht). destruct (List.find _ _) as [k|] eqn:E; [right|left].
  - apply find_seqZ_Some in E as (Hk & Hu & Hlow). apply is_state_true in Hu. exists k.
    split_and!; [lia|lia|done|intros j Hj; by apply is_state_false, Hlow|].
    unfold id. pose proof (map_stack_outcome k s m) as Hm.
    destruct (map_stack k s m) as [[st s1] m1]. cbn in Hm.
    destruct (decide (st = THREAD_STATUS_OK)) as [->|Hne].
    + rewrite bool_decide_true by done. cbn [negb]. by destruct (prepare_frame _ m1) as [t m2].
    + by rewrite bool_decide_false by done.
  - rewrite find_seqZ_None in E. split; [done|]. intros j Hj. apply is_state_false, E. lia.
Qed.

Lemma reachable_platform s m : reachable s m -> platform_ok m.
Proof.
  intros Hr%threads_inv. unfold inv in Hr. destruct (active _); [destruct Hr as [_ Hr]|]; apply Hr.
Qed.

(** C22 (error): thread_create names the first thing that is wrong, in order: no
    entry or nowhere to put the name, threads not started, interrupts on, no
    free slot; then, page by page of the lowest free slot's stack, the first
    page for which there is no frame (OUT_OF_FRAMES) or whose frame cannot be
    mapped (MAPPING_FAILURE), and success when all four are mapped.  A refusal of
    any kind leaves the scheduler as it was and gives back every frame and
    mapping it had taken.  On success the lowest free slot holds a ready thread
    with a new name and four fresh frames mapped as its stack, whose top words
    make the first switch to it start the trampoline with its entry and context
    and with interrupts on. *)
Theorem thread_create_exact s m entry_ context_ destination :
  reachable s m -> s.(next_identifier) < UINT64_MAX ->
  let '(st, id, s', m') := thread_create entry_ context_ destination s m in
  (if (entry_ =? 0) || negb destination then st = THREAD_STATUS_NULL_ARGUMENT
   else if negb s.(state).(active) then st = THREAD_STATUS_NOT_STARTED
   else if cpu_interrupts_enabled m then st = THREAD_STATUS_INTERRUPTS_ENABLED
   else (st = THREAD_STATUS_NO_CAPACITY /\
         forall j, 1 <= j < THREAD_MAX -> ~ in_state s j THREAD_STATE_UNUSED) \/
        exists k, 1 <= k < THREAD_MAX /\ in_state s k THREAD_STATE_UNUSED /\
          (forall j, 1 <= j < k -> ~ in_state s j THREAD_STATE_UNUSED) /\ stack_outcome k m st) /\
  (st <> THREAD_STATUS_OK -> s' = s /\ same_memory m m' /\ default THREAD_ID_NONE id = THREAD_ID_NONE) /\
  (st = THREAD_STATUS_OK -> id = Some s.(next_identifier) /\
     exists k F m1, created s s' k entry_ context_ /\
     gained m m1 k THREAD_STACK_PAGES F /\ quiet m1 m' /\
     forall i, 0 <= i < PREPARED_SLOTS ->
       load (slot_stack_top k - PREPARED_FRAME_SIZE + i * 8) m' =
       if i =? SLOT_R12 then entry_ else if i =? SLOT_R13 then context_
       else if i =? SLOT_RFLAGS then INITIAL_RFLAGS
       else if i =? SLOT_RETURN then thread_trampoline else 0).
Proof.
  intros Hr Hid. assert (same_memory m m) as Hsm by (by split; [apply (reachable_platform s m Hr)|]).
  destruct ((entry_ =? 0) || negb destination) eqn:E0; [by unfold thread_create; rewrite E0|].
  destruct (s.(state).(active)) eqn:Ha; cycle 1.
  { unfold thread_create. by rewrite E0, Ha. }
  destruct (cpu_interrupts_enabled m) eqn:Hi; cbn [negb].
  { unfold thread_create. by rewrite E0, Ha, Hi. }
  apply orb_false_iff in E0 as [E1 E2%negb_false_iff]. subst destination.
  destruct (reachable_table s m Hr Ha) as [Ht Hst].
  pose proof (create_status s m entry_ context_ Ht (proj1 (Z.eqb_neq _ _) E1) Hi) as Hs.
  pose proof (thread_create_spec s m entry_ context_ Ht Hst Hid) as Hc.
  destruct (thread_create entry_ context_ true s m) as [[[st id] s'] m'].
  destruct Hc as [Hbad Hok]. split_and!; [exact Hs|done|]. intros E. destruct (Hok E) as (-> & _ & Hx).
  by split.
Qed.


(** [thread_stop] undoes everything threads have taken.  Called by
    the boot thread with interrupts off it succeeds exactly when no other thread
    can still run; the stack region is then empty again, every other mapping is
    as it was, the frames still owned are exactly those that were not behind a
    thread's stack, and thread_start finds a scheduler it accepts.  A refusal
    changes no thread and moves no memory. *)
Theorem thread_stop_releases s m :
  reachable s m -> s.(state).(active) = true ->
  (forall m1 : M, (heap_free s.(table) m1).1 = true) ->
  let '(st, s', m') := thread_stop s m in
  (st = THREAD_STATUS_OK <-> cpu_interrupts_enabled m = false /\ s.(current_slot) = 0 /\
     forall k, 1 <= k < THREAD_MAX -> ~ in_state s k THREAD_STATE_READY) /\
  (st <> THREAD_STATUS_OK -> s'.(state).(active) = true /\ s'.(threads) = s.(threads) /\ quiet m m') /\
  (st = THREAD_STATUS_OK -> s'.(state).(active) = false /\ reachable s' m' /\
     (forall a, in_region a -> paging_translate m' a = NotMapped) /\
     (forall a, page_aligned a -> ~ in_region a -> paging_translate m' a = paging_translate m a) /\
     (forall g, owned m' g <-> owned m g /\
        forall k p, 1 <= k < THREAD_MAX -> ~ in_state s k THREAD_STATE_UNUSED ->
          0 <= p < THREAD_STACK_PAGES -> frame_behind m k p <> g)).
Proof.
  intros Hr Ha Hf. destruct (reachable_table s m Hr Ha) as [Ht Hst].
  destruct (thread_stop s m) as [[st s'] m'] eqn:E.
  pose proof (stop_spec s m st s' m' Ht Hst Hf E) as (Hbad & Hiff & Hok). split_and!; [exact Hiff| |].
  - intros Hne. destruct (Hbad Hne) as (Ht' & Hq & Eth & _). split_and!; [apply Ht'|done|done].
  - intros Es. destruct (Hok Es) as (Ha' & Hst' & Hout & Ho). split_and!; [done| | |done|].
    + by eapply re_step; [|eapply st_stop].
    + intros a [(k & Hk & ->)|(k & p & Hk & Hp & ->)]; [by apply Hst'|].
      by apply (so_absent _ _ Hst').
    + intros g. rewrite Ho. split; intros [Hg Hn]; (split; [done|]); intros k p Hk Hu Hp; apply Hn; try done.
      * unfold used_slot. rewrite (proj2 (Z.leb_le 1 k)) by lia.
        by rewrite (proj2 (is_state_false _ _) Hu).
      * unfold used_slot in Hu. bool_hyps. by apply is_state_false.
Qed.

(** * The self test *)

Lemma prepared_frame_ok arena (m : M) :
  is_u64 (arena + 64 * 8 - PREPARED_FRAME_SIZE) -> (prepared_frame_is_right arena m).1 = true.
Proof.
  intros Hu. unfold prepared_frame_is_right.
  destruct (store_words 0xDEADBEEFDEADBEEF m arena (seqZ 0 64)) as [_ Hl].
  set (m1 := foldl _ m _) in *. set (t0 := MkThread _ _ _ _ _ _ _ _ _).
  pose proof (prepare_frame_spec t0 m1) as Hp. destruct (prepare_frame t0 m1) as [t1 m2].
  destruct Hp as (-> & _ & Hw & Hbelow); [done|].
  assert (load (arena + (64 - PREPARED_SLOTS - 1) * 8) m2 = 0xDEADBEEFDEADBEEF) as ->.
  { rewrite Hbelow, Hl.
    - rewrite bool_decide_true; [done|]. apply Exists_exists. exists 55. split; [|done].
      apply elem_of_seqZ. lia.
    - exists 55. unfold PREPARED_SLOTS. lia.
    - exists (-1). unfold t0, PREPARED_FRAME_SIZE, PREPARED_SLOTS. cbn [stack_pointer set_stack_pointer stack_top]. lia.
    - unfold t0, PREPARED_FRAME_SIZE, PREPARED_SLOTS. cbn [stack_pointer set_stack_pointer stack_top]. lia. }
  rewrite !Hw by done. cbn [stack_pointer set_stack_pointer stack_top entry context t0].
  unfold prepared_word, t0. cbn [entry context]. rewrite !Z.eqb_refl. done.
Qed.

Lemma refusals_ok base s (m : M) : base <> 0 -> refusals_are_named base s m = true.
Proof.
  intros Hb. pose proof tl_trampoline as Htr. unfold refusals_are_named.
  destruct s as [[act cap lv rd ex cu ts sf pr pe] th tb cs ni rp qi su].
  unfold thread_create at 1. cbn [set_capacity with_state state active negb].
  rewrite (proj2 (Z.eqb_neq _ _) Htr). cbn [negb orb].
  assert (forall sc, thread_create thread_trampoline 0 false sc m =
    (THREAD_STATUS_NULL_ARGUMENT, None, sc, m)) as ->.
  { intros sc. unfold thread_create. by rewrite orb_true_r. }
  destruct base as [|base|base]; [done|vm_compute; reflexivity..].
Qed.

(** [thread_self_test] passes on every machine: the stack layout
    is disjoint with a guard page under every stack, the rotation visits ready
    slots in turn and skips the others, a prepared frame holds what the switch
    pops and nothing below it is touched, and every refusal has its own name. *)
Theorem thread_self_test_passes base arena s (m : M) :
  base <> 0 -> is_u64 (arena + 64 * 8 - PREPARED_FRAME_SIZE) ->
  thread_self_test base arena s m = true.
Proof.
  intros Hb Hu. unfold thread_self_test. rewrite prepared_frame_ok, refusals_ok by done.
  assert (rotation_is_round_robin base s = true) as ->.
  { unfold rotation_is_round_robin. by destruct s as [[] ? ? ? ? ? ? ?]. }
  done.
Qed.
End steps.

(** * A machine

    The frame allocator and page table behind [Heap.machine], with memory words,
    the registers of a context switch and a count of armed timers. *)

Record machine : Type := MkMachine {
  memory : Heap.machine;
  words : Z -> Z;
  stack : Z;
  saved_registers : registers;
  flags : Z;
  armed : Z
}.

Definition on_memory (m : machine) (b : Heap.machine) : machine :=
  MkMachine b m.(words) m.(stack) m.(saved_registers) m.(flags) m.(armed).
Definition with_flags (m : machine) (f : Z) : machine :=
  MkMachine m.(memory) m.(words) m.(stack) m.(saved_registers) f m.(armed).
Definition with_armed (m : machine) (n : Z) : machine :=
  MkMachine m.(memory) m.(words) m.(stack) m.(saved_registers) m.(flags) n.

Section machine.
Context {L : PhysicalMemory.PhysicalLayout}.

#[global] Instance thread_machine : HeapPlatform machine := {
  frame_allocate m := let '(f, b) := frame_allocate m.(memory) in (f, on_memory m b);
  frame_release f m := on_memory m (frame_release f m.(memory));
  paging_map a f m := let '(r, b) := paging_map a f m.(memory) in (r, on_memory m b);
  paging_unmap a m := let '(r, b) := paging_unmap a m.(memory) in (r, on_memory m b);
  paging_translate m := paging_translate m.(memory);
  paging_is_active m := paging_is_active m.(memory);
  cpu_interrupts_enabled m := Z.testbit m.(flags) 9
}.

#[global] Program Instance thread_machine_laws : PlatformLaws machine := {
  platform_ok m := platform_ok m.(memory);
  owned m := owned m.(memory)
}.
Next Obligation.
  intros m Hok. pose proof (law_allocate m.(memory) Hok) as Hl. cbn -[Heap.machine_platform].
  by destruct (frame_allocate m.(memory)) as [[f|] b].
Qed.
Next Obligation. intros m f Hok Ho. exact (law_release m.(memory) f Hok Ho). Qed.
Next Obligation.
  intros m a f Hok Ha Ho. pose proof (law_map m.(memory) a f Hok Ha Ho) as Hl. cbn -[Heap.machine_platform].
  by destruct (paging_map a f m.(memory)) as [r b].
Qed.
Next Obligation.
  intros m a f Hok Ha Ht. pose proof (law_unmap m.(memory) a f Hok Ha Ht) as Hl. cbn -[Heap.machine_platform].
  by destruct (paging_unmap a m.(memory)) as [r b].
Qed.

#[global] Instance thread_machine_platform : ThreadPlatform machine := {
  frame_release_status f m :=
    match (PhysicalMemory.frame_release f m.(memory).(Heap.frames)).1 with
    | PhysicalMemory.FRAME_STATUS_OK => true
    | _ => false
    end;
  cpu_interrupt_disable m := with_flags m (Z.ldiff m.(flags) RFLAGS_INTERRUPT_ENABLE);
  cpu_interrupt_enable m := with_flags m (Z.lor m.(flags) RFLAGS_INTERRUPT_ENABLE);
  heap_is_active _ := true;
  heap_allocate _ m := (Some Heap.HEAP_BASE, m);
  heap_free _ m := (true, m);
  clock_monotonic_ns _ := 0;
  timer_arm _ m := (Some (m.(armed) + 1), with_armed m (m.(armed) + 1));
  timer_cancel _ m := with_armed m (m.(armed) - 1);
  timer_is_started _ := true;
  load a m := m.(words) a;
  store a v m := MkMachine m.(memory) (fun b => if b =? a then v else m.(words) b) m.(stack)
    m.(saved_registers) m.(flags) m.(armed);
  thread_trampoline := 0x200000;
  switch_return := 0x200400;
  exit_return := 0x200500;
  rsp := stack;
  set_rsp sp m := MkMachine m.(memory) m.(words) (u64 sp) m.(saved_registers) m.(flags) m.(armed);
  callee_saved := saved_registers;
  set_callee_saved r m := MkMachine m.(memory) m.(words) m.(stack) r m.(flags) m.(armed);
  rflags := flags;
  set_rflags f m := with_flags m f
}.

Lemma machine_quiet m m' : m'.(memory) = m.(memory) -> quiet m m'.
Proof.
  intros E Hok. change (platform_ok m.(memory)) in Hok. split_and!.
  - change (platform_ok m'.(memory)). by rewrite E.
  - intros g. change (owned m'.(memory) g <-> owned m.(memory) g). by rewrite E.
  - intros a _. change (paging_translate m'.(memory) a = paging_translate m.(memory) a). by rewrite E.
Qed.

#[global] Instance thread_machine_thread_laws : ThreadLaws machine.
Proof.
  split; try (intros; (split; [by apply machine_quiet|]) || apply machine_quiet; done).
  - intros m f [Hi Hinit] Ho. cbn.
    pose proof (Heap.machine_release_status m.(memory) f Ho) as Hs. destruct Ho as (k & -> & Hk & _).
    pose proof PhysicalMemory.frame_count_limit. pose proof PhysicalMemory.frame_count_range.
    pose proof (PhysicalMemory.frame_release_spec m.(memory).(Heap.frames)
      (k * PhysicalMemory.SAPOTE_PAGE_SIZE) Hi Hinit) as Hr.
    destruct (PhysicalMemory.frame_release _ _) as [st s']. cbn.
    destruct Hr as [E _]; [|by rewrite E, Hs].
    unfold PhysicalMemory.SAPOTE_PAGE_SIZE, is_u64, UINT64_MAX. lia.
  - done.
  - done.
  - intros n m. split; [by apply quiet_keeps, machine_quiet|]. by intros p [= <-].
  - done.
  - done.
Qed.
End machine.

#[local] Existing Instance PhysicalMemory.small_layout.

Definition sample_machine : machine :=
  MkMachine Heap.sample_machine (fun _ => 0) 0x7040 (MkRegisters 11 12 13 14 15 16) RFLAGS_RESERVED 0.

Definition off : scheduler :=
  MkScheduler (MkSystem false 0 0 0 0 THREAD_ID_NONE 0 0 0 false) [] 0 0 0 false THREAD_ID_NONE [].

Lemma off_reachable : reachable off sample_machine.
Proof.
  apply re_boot; [done|]. split; [apply Heap.sample_machine_ok|done..].
Qed.

(** A run: threads start, the boot thread creates two, yields to the first,
    which yields to the second. *)
Definition started : scheduler * machine := let '(_, s, m) := thread_start off sample_machine in (s, m).
Definition create_in (e : Z) (x : scheduler * machine) : scheduler * machine :=
  let '(_, _, s, m) := thread_create e 7 true x.1 x.2 in (s, m).
Definition result (x : scheduler * machine) (o : outcome (scheduler * machine)) : scheduler * machine :=
  match o with Returns y => y | Panics _ => x end.
Definition yield_in (x : scheduler * machine) : scheduler * machine := result x (thread_yield x.1 x.2).
Definition two : scheduler * machine := create_in 0x200200 (create_in 0x200100 started).
Definition away : scheduler * machine := yield_in two.
Definition later : scheduler * machine := yield_in away.
Definition back : scheduler * machine := yield_in later.

Lemma create_reachable e x :
  reachable x.1 x.2 -> x.1.(next_identifier) < UINT64_MAX ->
  reachable (create_in e x).1 (create_in e x).2.
Proof.
  intros Hr Hid. unfold create_in. destruct (thread_create e 7 true x.1 x.2) as [[[st id] s] m] eqn:E.
  by eapply re_step; [|eapply st_create].
Qed.

Lemma yield_step x :
  on_stack x.1 x.2 -> (yield_in x).1.(current_slot) <> x.1.(current_slot) ->
  thread_yield x.1 x.2 = Returns (yield_in x).
Proof.
  intros Hon. unfold yield_in. by destruct (thread_yield x.1 x.2) as [[s m]|].
Qed.

Lemma started_reachable : reachable started.1 started.2.
Proof.
  unfold started. destruct (thread_start off sample_machine) as [[st s] m] eqn:E.
  eapply re_step; [apply off_reachable|]. by eapply st_start.
Qed.

Lemma two_reachable : reachable two.1 two.2.
Proof. by apply create_reachable; [apply create_reachable; [apply started_reachable|]|]. Qed.

Lemma on_stack_at x : (slot_stack_base x.1.(current_slot) <=? u64 (x.2.(stack) - 64)) &&
  (u64 (x.2.(stack) - 64) <=? slot_stack_top x.1.(current_slot)) || (x.1.(current_slot) =? 0) = true ->
  on_stack x.1 x.2.
Proof.
  intros Hb Hc. change (outgoing_stack_pointer x.2) with (u64 (x.2.(stack) - 64)). bool_hyps. lia.
Qed.

Lemma two_yields : on_stack two.1 two.2 /\ thread_yield two.1 two.2 = Returns away.
Proof.
  assert (on_stack two.1 two.2) by (apply on_stack_at; vm_compute; done). split; [done|].
  apply yield_step; [done|vm_compute; done].
Qed.
Lemma away_yields : on_stack away.1 away.2 /\ thread_yield away.1 away.2 = Returns later.
Proof.
  assert (on_stack away.1 away.2) by (apply on_stack_at; vm_compute; done). split; [done|].
  apply yield_step; [done|vm_compute; done].
Qed.
Lemma later_yields : on_stack later.1 later.2 /\ thread_yield later.1 later.2 = Returns back.
Proof.
  assert (on_stack later.1 later.2) by (apply on_stack_at; vm_compute; done). split; [done|].
  apply yield_step; [done|vm_compute; done].
Qed.

Lemma yields_step x y :
  x.1.(state).(active) = true -> on_stack x.1 x.2 /\ thread_yield x.1 x.2 = Returns y ->
  step x.1 x.2 true y.1 y.2.
Proof. intros Ha [Hon E]. rewrite <- Ha. destruct y as [s m]. by apply st_yield. Qed.

Lemma started_active : started.1.(state).(active) = true.
Proof. vm_compute. reflexivity. Qed.
Lemma two_active : two.1.(state).(active) = true.
Proof. vm_compute. reflexivity. Qed.
Lemma away_active : away.1.(state).(active) = true.
Proof. vm_compute. reflexivity. Qed.
Lemma later_active : later.1.(state).(active) = true.
Proof. vm_compute. reflexivity. Qed.

#[local] Opaque started two away later back.

Lemma threads_reachable_witness :
  thread_verify two.1 two.2 = THREAD_STATUS_OK /\ find (thread_current two.1) two.1 = Some 0.
Proof.
  destruct (threads_reachable two.1 two.2 two_reachable two_active)
    as (_ & _ & Hf & _ & _ & Hv).
  split; [exact Hv|]. rewrite Hf. by vm_compute.
Defined.

Lemma scheduler_panics_exactly_witness :
  thread_exit two.1 two.2 = Panics "the boot thread cannot exit"%string.
Proof.
  destruct (scheduler_panics_exactly two.1 two.2 two_reachable two_active)
    as (_ & _ & He & _).
  assert ((current_slot two.1 =? 0) = true) as E by (vm_compute; reflexivity).
  by rewrite E in He.
Defined.

(** After the boot thread and the first thread yielded, the second one runs. *)
Lemma ready_thread_runs_witness :
  distance two.1 2 = 2 /\ in_state away.1 2 THREAD_STATE_READY.
Proof.
  split; [vm_compute; reflexivity|].
  refine (proj1 (proj2 (ready_thread_runs 2 1 two.1 two.2 away.1 away.2 two_reachable
    two_active _ _ _))).
  - by split.
  - vm_compute. reflexivity.
  - eapply (wa_step 2 0 _ _ two.1 two.2 true).
    + apply wa_nil. vm_compute. done.
    + exact (yields_step _ _ two_active two_yields).
    + vm_compute. done.
Defined.

Lemma returns_pair {A B} (o : outcome (A * B)) x : o = Returns x -> o = Returns (x.1, x.2).
Proof. by destruct x. Qed.

Lemma away_waits : waits (current_slot two.1) 1 away.1 away.2 later.1 later.2.
Proof.
  refine (wa_step _ 0 _ _ _ _ true _ _ (wa_nil _ _ _ _) (yields_step _ _ away_active away_yields) _);
    vm_compute; done.
Qed.

Lemma words_kept (m1 m3 : machine) frame :
  map (fun i => load (frame + i * 8) m3) (seqZ 0 8) = map (fun i => load (frame + i * 8) m1) (seqZ 0 8) ->
  forall i, 0 <= i < PREPARED_SLOTS -> load (frame + i * 8) m3 = load (frame + i * 8) m1.
Proof.
  intros E i Hi. assert (forall x, x ∈ seqZ 0 8 -> load (frame + x * 8) m3 = load (frame + x * 8) m1) as Hx.
  { revert E. generalize (seqZ 0 8). intros l. induction l as [|y l IH]; intros E x Hin; [by apply elem_of_nil in Hin|].
    injection E as E1 E2. apply elem_of_cons in Hin as [->|Hin]; [done|by apply IH]. }
  apply Hx, elem_of_seqZ. unfold PREPARED_SLOTS in Hi. lia.
Qed.

Lemma two_state : current_slot two.1 = 0 /\ rsp two.2 = 0x7040 /\
  callee_saved two.2 = MkRegisters 11 12 13 14 15 16 /\ rflags two.2 = RFLAGS_RESERVED.
Proof. vm_compute. done. Qed.

Lemma two_frame_kept i : 0 <= i < PREPARED_SLOTS ->
  load (rsp two.2 - PREPARED_FRAME_SIZE + i * 8) back.2 =
  load (rsp two.2 - PREPARED_FRAME_SIZE + i * 8) away.2.
Proof. apply words_kept. vm_compute. reflexivity. Qed.

(** The boot thread yields, two threads run, and it is back with its registers. *)
Lemma thread_resumes_as_it_left_witness :
  rsp away.2 <> rsp back.2 /\ rsp back.2 = 0x7040 /\ callee_saved back.2 = MkRegisters 11 12 13 14 15 16 /\
  rflags back.2 = RFLAGS_RESERVED.
Proof.
  assert (current_slot away.1 <> current_slot two.1) as Hne by (vm_compute; done).
  assert (current_slot back.1 = current_slot two.1) as Hb by (vm_compute; done).
  pose proof (returns_pair _ _ (proj2 two_yields)) as Ey.
  destruct two_state as (E1 & E2 & E3 & E4).
  assert (PREPARED_FRAME_SIZE <= rsp two.2 <= UINT64_MAX) as Hm
    by (rewrite E2; unfold PREPARED_FRAME_SIZE, PREPARED_SLOTS, UINT64_MAX; lia).
  pose proof (thread_resumes_as_it_left two.1 two.2 away.1 away.2 1 later.1 later.2 true back.1 back.2
    two_reachable two_active (proj1 two_yields) Hm Ey Hne away_waits
    (yields_step _ _ later_active later_yields) Hb
    two_frame_kept) as (_ & _ & H1 & H2 & H3 & _).
  rewrite E2 in H1. rewrite E3 in H2. rewrite E4 in H3.
  split_and!; [vm_compute; done|exact H1|exact H2|exact H3].
Defined.

Lemma started_creates :
  (thread_create 0x200100 7 true started.1 started.2).1.1.1 = THREAD_STATUS_OK /\
  cpu_interrupts_enabled started.2 = false /\ next_identifier started.1 = 2 /\
  is_state THREAD_STATE_UNUSED (thread_at started.1 1) = true.
Proof. vm_compute. done. Qed.

Lemma thread_create_exact_witness :
  exists s' m', thread_create 0x200100 7 true started.1 started.2 = (THREAD_STATUS_OK, Some 2, s', m') /\
    created started.1 s' 1 0x200100 7 /\ stack_outcome 1 started.2 THREAD_STATUS_OK.
Proof.
  pose proof (thread_create_exact started.1 started.2 0x200100 7 true started_reachable
    ltac:(vm_compute; reflexivity)) as Hc.
  destruct started_creates as (E & Ei & En & Eu).
  apply is_state_true in Eu.
  destruct (thread_create 0x200100 7 true started.1 started.2) as [[[st id] s'] m']. cbn [fst] in E. subst st.
  rewrite started_active, Ei in Hc. destruct Hc as ([[? _]|(k & Hk & Hu & Hlow & Hout)] & _ & Hok); [done|].
  destruct (Hok eq_refl) as (-> & k' & F & m1 & Hcr & _).
  assert (k = 1) as -> by (destruct (decide (k = 1)); [done|exfalso; apply (Hlow 1); [lia|exact Eu]]).
  assert (k' = 1) as ->.
  { destruct (decide (k' = 1)) as [|Hne]; [done|]. pose proof (cr_slot _ _ _ _ _ Hcr).
    exfalso. apply (cr_lowest _ _ _ _ _ Hcr 1); [lia|exact Eu]. }
  exists s', m'. rewrite En. split_and!; [reflexivity|exact Hcr|exact Hout].
Defined.

(** A thread created by the boot thread runs when the boot thread yields. *)
Definition one : scheduler * machine := create_in 0x200100 started.
Definition one_away : scheduler * machine := yield_in one.

Lemma one_yields : on_stack one.1 one.2 /\ thread_yield one.1 one.2 = Returns one_away.
Proof.
  assert (on_stack one.1 one.2) by (apply on_stack_at; vm_compute; done). split; [done|].
  apply yield_step; [done|vm_compute; done].
Qed.
Lemma one_active : one.1.(state).(active) = true.
Proof. vm_compute. reflexivity. Qed.

Lemma create_returns e x : (thread_create e 7 true x.1 x.2).1.1.1 = THREAD_STATUS_OK ->
  thread_create e 7 true x.1 x.2 =
  (THREAD_STATUS_OK, (thread_create e 7 true x.1 x.2).1.1.2, (create_in e x).1, (create_in e x).2).
Proof.
  unfold create_in. destruct (thread_create e 7 true x.1 x.2) as [[[st id] s] m]. cbn. by intros ->.
Qed.

Lemma one_frame_kept i : 0 <= i < PREPARED_SLOTS ->
  load (slot_stack_top 1 - PREPARED_FRAME_SIZE + i * 8) one_away.2 =
  load (slot_stack_top 1 - PREPARED_FRAME_SIZE + i * 8) one.2.
Proof. apply words_kept. vm_compute. reflexivity. Qed.

Lemma one_found : find 2 one.1 = Some 1 /\ current_slot one.1 <> 1 /\ current_slot one_away.1 = 1 /\
  next_identifier started.1 < UINT64_MAX.
Proof. vm_compute. done. Qed.

Lemma one_created :
  thread_create 0x200100 7 true started.1 started.2 = (THREAD_STATUS_OK, Some 2, one.1, one.2).
Proof.
  assert ((thread_create 0x200100 7 true started.1 started.2).1.1.2 = Some 2) as E by (vm_compute; reflexivity).
  pose proof (create_returns 0x200100 started (proj1 started_creates)) as Hc. by rewrite E in Hc.
Qed.

#[local] Opaque one one_away.


(** The boot thread alone can stop threads. *)
Lemma thread_stop_releases_witness : (thread_stop started.1 started.2).1.1 = THREAD_STATUS_OK.
Proof.
  pose proof (thread_stop_releases started.1 started.2 started_reachable
    started_active ltac:(done)) as Hs.
  assert (forallb (fun k => negb (is_state THREAD_STATE_READY (thread_at started.1 k))) (seqZ 1 7) &&
    negb (cpu_interrupts_enabled started.2) && (current_slot started.1 =? 0) = true) as E
    by (vm_compute; reflexivity).
  destruct (thread_stop started.1 started.2) as [[st s] m]. apply (proj1 Hs). bool_hyps.
  split_and!; [done|done|]. intros k Hk. apply is_state_false, negb_true_iff.
  assert (k ∈ seqZ 1 7) as Hin by (apply elem_of_seqZ; unfold THREAD_MAX in Hk; lia).
  apply list_elem_of_In in Hin. rewrite forallb_forall in *. auto.
Defined.

Lemma thread_self_test_passes_witness :
  thread_self_test 0x300000 0x301000 off sample_machine = true.
Proof. apply thread_self_test_passes; [done|unfold is_u64, UINT64_MAX, PREPARED_FRAME_SIZE, PREPARED_SLOTS; lia]. Defined.
End ThreadSteps.
