(* ===== verification/Pixels.v ===== *)
(** Pixels in byte memory, shared by [Framebuffer] and [Surface]: 32-bit loads
    and stores, and what a nest of loops that stores one pixel per turn leaves
    behind when the pixels do not overlap and every turn reads what was there
    before the loop. *)
From Stdlib Require Import Sorted.
From S2P Require Import Prelude.

Open Scope Z_scope.

Module Pixels.

(** Bytes by address.  A load reduces what it reads, so any function is a memory. *)
Definition mem : Type := Z -> Z.

Definition load32 (m : mem) (a : Z) : Z :=
  u8 (m a) + 256 * u8 (m (a + 1)) + 65536 * u8 (m (a + 2)) + 16777216 * u8 (m (a + 3)).

Definition store32 (m : mem) (a v : Z) : mem := fun b =>
  if b =? a then u8 v
  else if b =? a + 1 then u8 (v / 256)
  else if b =? a + 2 then u8 (v / 65536)
  else if b =? a + 3 then u8 (v / 16777216)
  else m b.

(** Two words share no byte. *)
Definition apart (a b : Z) : Prop := a + 4 <= b \/ b + 4 <= a.

Lemma load32_u32 m a : is_u32 (load32 m a).
Proof.
  unfold is_u32, load32, u8, UINT32_MAX.
  pose proof (Z.mod_pos_bound (m a) 256). pose proof (Z.mod_pos_bound (m (a + 1)) 256).
  pose proof (Z.mod_pos_bound (m (a + 2)) 256). pose proof (Z.mod_pos_bound (m (a + 3)) 256). lia.
Qed.

Lemma store32_out m a v b : b < a \/ a + 4 <= b -> store32 m a v b = m b.
Proof. intros Hb. unfold store32. by rewrite !(proj2 (Z.eqb_neq _ _)) by lia. Qed.

Lemma load_store_same m a v : is_u32 v -> load32 (store32 m a v) a = v.
Proof.
  unfold is_u32, UINT32_MAX. intros Hv. unfold load32, store32.
  rewrite !Z.eqb_refl, !(proj2 (Z.eqb_neq _ _)) by lia. unfold u8. rewrite !Z.mod_mod by done.
  pose proof (Z.div_mod v 256 ltac:(done)) as E1. pose proof (Z.div_mod (v / 256) 256 ltac:(done)) as E2.
  pose proof (Z.div_mod (v / 65536) 256 ltac:(done)) as E3.
  pose proof (Z.mod_small (v / 16777216) 256).
  assert (v / 65536 = v / 256 / 256) as D2 by (by rewrite Z.div_div).
  assert (v / 16777216 = v / 65536 / 256) as D3 by (by rewrite Z.div_div).
  assert (0 <= v / 16777216 < 256) by (split; [apply Z.div_pos; lia|apply Z.div_lt_upper_bound; lia]).
  lia.
Qed.

Lemma load_ext m m' a : (forall b, a <= b < a + 4 -> m' b = m b) -> load32 m' a = load32 m a.
Proof. intros E. unfold load32. by rewrite !E by lia. Qed.

Lemma load_store_apart m a v b : apart a b -> load32 (store32 m a v) b = load32 m b.
Proof. intros Hab. apply load_ext. intros c Hc. apply store32_out. unfold apart in Hab. lia. Qed.

(** * Loops that paint *)

(** The cells a nest of two loops visits, in its order. *)
Definition cells (ys xs : list Z) : list (Z * Z) := ys ≫= fun y => (fun x => (y, x)) <$> xs.

Lemma elem_of_cells ys xs y x : (y, x) ∈ cells ys xs <-> y ∈ ys /\ x ∈ xs.
Proof.
  unfold cells. rewrite list_elem_of_bind. split.
  - intros (y' & (x' & [= -> ->] & Hx)%list_elem_of_fmap & Hy). done.
  - intros [Hy Hx]. exists y. split; [|done]. apply list_elem_of_fmap. by exists x.
Qed.

Lemma foldl_cells {A} (f : A -> Z * Z -> A) ys xs a :
  foldl (fun a y => foldl (fun a x => f a (y, x)) a xs) a ys = foldl f a (cells ys xs).
Proof.
  revert a. induction ys as [|y ys IH]; intros a; [done|]. unfold cells. cbn [mbind list_bind foldl].
  rewrite foldl_app, IH. f_equal. generalize a. clear. induction xs as [|x xs IH]; intros a; [done|].
  cbn [foldl fmap list_fmap]. apply IH.
Qed.

Lemma foldl_ext_in {A B} (f g : A -> B -> A) a l :
  (forall a x, x ∈ l -> f a x = g a x) -> foldl f a l = foldl g a l.
Proof.
  revert a. induction l as [|x l IH]; intros a Hfg; [done|]. cbn. rewrite Hfg by (by left).
  apply IH. intros b y Hy. apply Hfg. by right.
Qed.

Definition before (Ry Rx : Z -> Z -> Prop) (i j : Z * Z) : Prop :=
  Ry i.1 j.1 \/ i.1 = j.1 /\ Rx i.2 j.2.

Lemma cells_sorted Ry Rx ys xs :
  StronglySorted Ry ys -> StronglySorted Rx xs -> StronglySorted (before Ry Rx) (cells ys xs).
Proof.
  intros Hy Hx. induction Hy as [|y ys Hy IH Hall]; [constructor|].
  unfold cells. cbn [mbind list_bind]. fold (cells ys xs).
  cut (forall xs', StronglySorted Rx xs' ->
    StronglySorted (before Ry Rx) (((fun x => (y, x)) <$> xs') ++ cells ys xs)); [auto|].
  induction 1 as [|x xs' Hx' IHx Hallx]; [exact IH|].
  cbn [fmap list_fmap app]. constructor; [done|]. apply Forall_app. split.
  - apply Forall_fmap. eapply Forall_impl; [exact Hallx|]. intros z Hz. by right.
  - apply Forall_forall. intros [y' x'] [Hy' _]%elem_of_cells. left. cbn.
    by apply (proj1 (Forall_forall _ _) Hall).
Qed.

Lemma seqZ_sorted a n : StronglySorted Z.lt (seqZ a n).
Proof.
  destruct (decide (0 <= n)) as [Hn|]; [|by rewrite seqZ_nil by lia; constructor].
  revert a. pattern n. apply natlike_ind; [| |done]; clear n Hn; [intros; constructor|].
  intros n Hn IH a. rewrite seqZ_cons by lia. rewrite Z.pred_succ. constructor; [apply IH|].
  apply Forall_forall. intros x Hx%elem_of_seqZ. lia.
Qed.

Lemma reverse_seqZ_sorted n : StronglySorted Z.gt (reverse (seqZ 0 n)).
Proof.
  destruct (decide (0 <= n)) as [Hn|]; [|by rewrite seqZ_nil by lia; constructor].
  pattern n. apply natlike_ind; [| |done]; clear n Hn; [constructor|].
  intros n Hn IH. rewrite <- Z.add_1_r, seqZ_app by lia.
  rewrite (seqZ_cons _ 1), (seqZ_nil (Z.succ _)), reverse_snoc by lia. constructor; [done|].
  apply Forall_forall. intros x Hx%list_elem_of_In. rewrite <- list_elem_of_In, elem_of_reverse, elem_of_seqZ in Hx. lia.
Qed.

Lemma sorted_prefix {A} (R : A -> A -> Prop) l l1 i l2 j :
  StronglySorted R l -> l = l1 ++ i :: l2 -> j ∈ l1 -> R j i.
Proof.
  intros Hs -> Hj. induction l1 as [|k l1 IH]; [by apply elem_of_nil in Hj|].
  cbn in Hs. apply StronglySorted_inv in Hs as [Hs Hall]. apply elem_of_cons in Hj as [->|Hj]; [|by apply IH].
  apply (proj1 (Forall_forall _ _) Hall). apply elem_of_app. right. by left.
Qed.

(** A loop that stores one word per turn, at addresses no two of which overlap,
    where what turn [i] stores is [v i] as long as nothing but the words of
    earlier turns has changed. *)
Lemma paint_spec {I} (A : I -> Z) (V : mem -> I -> Z) (v : I -> Z) (m : mem) l :
  NoDup l -> (forall i j, i ∈ l -> j ∈ l -> i <> j -> apart (A i) (A j)) ->
  (forall i, i ∈ l -> is_u32 (v i)) ->
  (forall l1 i l2 m', l = l1 ++ i :: l2 ->
     (forall a, (forall j, j ∈ l1 -> a < A j \/ A j + 4 <= a) -> m' a = m a) -> V m' i = v i) ->
  let m' := foldl (fun m i => store32 m (A i) (V m i)) m l in
  (forall i, i ∈ l -> load32 m' (A i) = v i) /\
  (forall a, (forall i, i ∈ l -> a < A i \/ A i + 4 <= a) -> m' a = m a).
Proof.
  intros Hnd Hap Hu Hv. cut (forall done todo, l = done ++ todo ->
    let m' := foldl (fun m i => store32 m (A i) (V m i)) m done in
    (forall i, i ∈ done -> load32 m' (A i) = v i) /\
    (forall a, (forall i, i ∈ done -> a < A i \/ A i + 4 <= a) -> m' a = m a)).
  { intros Hc. apply (Hc l []). by rewrite app_nil_r. }
  induction done as [|i l1 IH] using rev_ind; intros todo El.
  { split; [|done]. intros i Hi. by apply elem_of_nil in Hi. }
  rewrite <- app_assoc in El. cbn in El. destruct (IH _ El) as [Hin Hout].
  rewrite foldl_app. cbn [foldl]. set (m1 := foldl _ m l1) in *.
  assert (i ∈ l) as Hil by (rewrite El; set_solver).
  assert (V m1 i = v i) as -> by (by eapply Hv).
  split.
  - intros j [Hj1|Hj1]%elem_of_app.
    + rewrite load_store_apart; [by apply Hin|]. apply Hap; [done|rewrite El; set_solver|].
      intros ->. rewrite El in Hnd. apply NoDup_app in Hnd as (_ & Hd & _). apply (Hd j Hj1). by left.
    + apply list_elem_of_singleton in Hj1 as ->. by apply load_store_same, Hu.
  - intros a Ha. rewrite store32_out by (apply Ha; set_solver). apply Hout. intros j Hj. apply Ha. set_solver.
Qed.

(** Cells at a row pitch that leaves room for every column do not overlap. *)
Lemma cells_apart base pitch w y x y' x' :
  4 * w <= pitch -> 0 <= x < w -> 0 <= x' < w -> (y, x) <> (y', x') ->
  apart (base + y * pitch + 4 * x) (base + y' * pitch + 4 * x').
Proof.
  intros Hp Hx Hx' Hne. unfold apart. destruct (Z.lt_trichotomy y y') as [Hy|[->|Hy]].
  - left. nia.
  - destruct (Z.lt_trichotomy x x') as [|[->|]]; [lia|done|lia].
  - right. nia.
Qed.

Lemma sorted_nodup {A} (R : A -> A -> Prop) l :
  (forall x, ~ R x x) -> StronglySorted R l -> NoDup l.
Proof.
  intros Hirr. induction 1 as [|x l Hl IH Hall]; constructor; [|done].
  intros Hx. apply (Hirr x). by apply (proj1 (Forall_forall _ _) Hall).
Qed.

Lemma cells_nodup Ry Rx ys xs :
  (forall y, ~ Ry y y) -> (forall x, ~ Rx x x) ->
  StronglySorted Ry ys -> StronglySorted Rx xs -> NoDup (cells ys xs).
Proof.
  intros Hy Hx Sy Sx. eapply sorted_nodup; [|by eapply cells_sorted]. intros [y x] [H|[_ H]]; [by apply (Hy y)|by apply (Hx x)].
Qed.

(** The address of a pixel in a picture at [base] with rows [pitch] bytes apart. *)
Definition cell (base pitch row column : Z) : Z := base + row * pitch + 4 * column.

(** Nested loops over the rows [ys] and columns [xs] of a rectangle with its
    corner at ([x0], [y0]). *)
Lemma paint_rect base pitch w x0 y0 ys xs Ry Rx (V : mem -> Z * Z -> Z) v m :
  4 * w <= pitch -> (forall c, c ∈ xs -> 0 <= x0 + c < w) ->
  (forall r, ~ Ry r r) -> (forall c, ~ Rx c c) -> StronglySorted Ry ys -> StronglySorted Rx xs ->
  (forall r c, is_u32 (v r c)) ->
  (forall r c m', r ∈ ys -> c ∈ xs ->
     (forall a, (forall r' c', r' ∈ ys -> c' ∈ xs -> before Ry Rx (r', c') (r, c) ->
                   a < cell base pitch (y0 + r') (x0 + c') \/
                   cell base pitch (y0 + r') (x0 + c') + 4 <= a) -> m' a = m a) ->
     V m' (r, c) = v r c) ->
  let m' := foldl (fun m r => foldl (fun m c =>
              store32 m (cell base pitch (y0 + r) (x0 + c)) (V m (r, c))) m xs) m ys in
  (forall r c, r ∈ ys -> c ∈ xs -> load32 m' (cell base pitch (y0 + r) (x0 + c)) = v r c) /\
  (forall a, (forall r c, r ∈ ys -> c ∈ xs -> a < cell base pitch (y0 + r) (x0 + c) \/
                cell base pitch (y0 + r) (x0 + c) + 4 <= a) -> m' a = m a).
Proof.
  intros Hp Hxs Iy Ix Sy Sx Hu HV.
  rewrite (foldl_cells (fun m i => store32 m (cell base pitch (y0 + i.1) (x0 + i.2)) (V m i))).
  pose proof (cells_sorted _ _ _ _ Sy Sx) as Hs.
  destruct (paint_spec (fun i => cell base pitch (y0 + i.1) (x0 + i.2)) V (fun i => v i.1 i.2) m
    (cells ys xs)) as [Hin Hout].
  - exact (cells_nodup _ _ _ _ Iy Ix Sy Sx).
  - intros [r c] [r' c'] [Hr Hc]%elem_of_cells [Hr' Hc']%elem_of_cells Hne. cbn.
    unfold cell. eapply (cells_apart _ _ w); [done|by apply Hxs..|]. intros [= E1 E2]. apply Hne. f_equal; lia.
  - intros [r c] _. apply Hu.
  - intros l1 [r c] l2 m' El Hm. assert ((r, c) ∈ cells ys xs) as Hi by (rewrite El; set_solver).
    apply elem_of_cells in Hi as [Hr Hc]. apply HV; [done|done|]. intros a Ha. apply Hm.
    intros [r' c'] Hj. cbn. assert ((r', c') ∈ cells ys xs) as [Hr' Hc']%elem_of_cells by (rewrite El; set_solver).
    apply Ha; [done|done|]. by eapply sorted_prefix.
  - split.
    + intros r c Hr Hc. apply (Hin (r, c)). by apply elem_of_cells.
    + intros a Ha. apply Hout. intros [r c] [Hr Hc]%elem_of_cells. by apply Ha.
Qed.
End Pixels.
