(* ===== verification/Framebuffer.v ===== *)
(** The framebuffer: src/src/kernel/framebuffer.c.

    The picture is [height] rows of [width] 32-bit pixels, [pitch] bytes apart,
    in byte memory.  What paging knows (the device windows, the translation of
    an address) is an argument. *)
From Stdlib Require Import Sorted.
From S2P Require Import Prelude Multiboot2 PageTable DeviceWindows Pixels.

Open Scope Z_scope.

Module Framebuffer.
Import Pixels.
Import Multiboot2(boot_framebuffer, MkFramebuffer, fb_address, fb_pitch, fb_width, fb_height, fb_size,
  fb_red_position, fb_green_position, fb_blue_position, fb_present, BOOT_FRAMEBUFFER_BYTES_PER_PIXEL).
Import DeviceWindows(paging_device_windows, paging_device_window, count, entries, no_window,
  kind, physical_base, length, PAGING_DEVICE_WINDOW_FRAMEBUFFER).
Import PageTable(paging_translation, physical_address, permissions, memory_type, level,
  PAGING_WRITE, PAGING_WRITE_COMBINING, PAGING_MEMORY_WRITE_COMBINING, PAGING_PAGE_SIZE).

#[local] Existing Instance PageTable.paging_memory_type_eq_dec.

Definition FRAMEBUFFER_BYTES_PER_PIXEL : Z := BOOT_FRAMEBUFFER_BYTES_PER_PIXEL.
Definition FRAMEBUFFER_CHANNEL_MASK : Z := 0xFF.

Inductive framebuffer_status : Type :=
| FRAMEBUFFER_STATUS_OK
| FRAMEBUFFER_STATUS_NULL_ARGUMENT
| FRAMEBUFFER_STATUS_ALREADY_INITIALIZED
| FRAMEBUFFER_STATUS_NOT_INITIALIZED
| FRAMEBUFFER_STATUS_ABSENT
| FRAMEBUFFER_STATUS_NOT_MAPPED
| FRAMEBUFFER_STATUS_BAD_GEOMETRY
| FRAMEBUFFER_STATUS_OUT_OF_BOUNDS
| FRAMEBUFFER_STATUS_VALIDATION_FAILURE.

#[export] Instance framebuffer_status_eq_dec : EqDecision framebuffer_status.
Proof. solve_decision. Defined.

Record framebuffer_state : Type := MkState {
  active : bool;
  address : Z;
  size : Z;
  pitch : Z;
  width : Z;
  height : Z;
  red_position : Z;
  green_position : Z;
  blue_position : Z
}.

Definition pixel_offset (x y : Z) (s : framebuffer_state) : Z :=
  u64 (y * s.(pitch) + x * FRAMEBUFFER_BYTES_PER_PIXEL).

Definition inside (x y : Z) (s : framebuffer_state) : bool :=
  (x <? s.(width)) && (y <? s.(height)).

Definition pixel_at (x y : Z) (s : framebuffer_state) : Z := u64 (s.(address) + pixel_offset x y s).

Definition framebuffer_pack (red green blue : Z) (s : framebuffer_state) : Z :=
  Z.lor (Z.lor (u32 (Z.shiftl red s.(red_position))) (u32 (Z.shiftl green s.(green_position))))
    (u32 (Z.shiftl blue s.(blue_position))).

Definition framebuffer_visible_mask (s : framebuffer_state) : Z :=
  Z.lor (Z.lor (u32 (Z.shiftl FRAMEBUFFER_CHANNEL_MASK s.(red_position)))
               (u32 (Z.shiftl FRAMEBUFFER_CHANNEL_MASK s.(green_position))))
    (u32 (Z.shiftl FRAMEBUFFER_CHANNEL_MASK s.(blue_position))).

(** The scan of the device windows. *)
Definition framebuffer_window (windows : paging_device_windows) : option paging_device_window :=
  match for_each (fun index (_ : unit) =>
          let w := aget no_window windows.(entries) index in
          if w.(kind) =? PAGING_DEVICE_WINDOW_FRAMEBUFFER then Return w else Next tt)
          (seqZ 0 windows.(count)) tt with
  | Return w => Some w
  | Next _ => None
  end.

(** [paging_is_active] and [windows] are what paging answers. *)
Definition framebuffer_initialize (framebuffer : option boot_framebuffer)
    (paging_is_active : bool) (windows : paging_device_windows) (s : framebuffer_state)
  : framebuffer_status * framebuffer_state :=
  match framebuffer with
  | None => (FRAMEBUFFER_STATUS_NULL_ARGUMENT, s)
  | Some fb =>
      if s.(active) then (FRAMEBUFFER_STATUS_ALREADY_INITIALIZED, s)
      else if negb fb.(fb_present) then (FRAMEBUFFER_STATUS_ABSENT, s)
      else if negb paging_is_active then (FRAMEBUFFER_STATUS_NOT_MAPPED, s)
      else
      match framebuffer_window windows with
      | None => (FRAMEBUFFER_STATUS_NOT_MAPPED, s)
      | Some window =>
          if (fb.(fb_size) >? UINT64_MAX - fb.(fb_address)) ||
             (fb.(fb_address) <? window.(physical_base)) ||
             (u64 (fb.(fb_address) + fb.(fb_size)) >?
              u64 (window.(physical_base) + window.(length))) then
            (FRAMEBUFFER_STATUS_NOT_MAPPED, s)
          else if (fb.(fb_width) =? 0) || (fb.(fb_height) =? 0) ||
                  (fb.(fb_pitch) <? u64 (fb.(fb_width) * FRAMEBUFFER_BYTES_PER_PIXEL)) ||
                  negb (u64 (fb.(fb_pitch) * fb.(fb_height)) =? fb.(fb_size)) then
            (FRAMEBUFFER_STATUS_BAD_GEOMETRY, s)
          else
            (FRAMEBUFFER_STATUS_OK,
             MkState true fb.(fb_address) fb.(fb_size) fb.(fb_pitch) fb.(fb_width) fb.(fb_height)
               fb.(fb_red_position) fb.(fb_green_position) fb.(fb_blue_position))
      end
  end.

Definition framebuffer_is_active (s : framebuffer_state) : bool := s.(active).

Definition framebuffer_write_pixel (x y pixel : Z) (s : framebuffer_state) (m : mem)
  : framebuffer_status * mem :=
  if negb s.(active) then (FRAMEBUFFER_STATUS_NOT_INITIALIZED, m)
  else if negb (inside x y s) then (FRAMEBUFFER_STATUS_OUT_OF_BOUNDS, m)
  else (FRAMEBUFFER_STATUS_OK, store32 m (pixel_at x y s) pixel).

(** [destination] is false for a NULL pointer; the second component is what is
    stored through it. *)
Definition framebuffer_read_pixel (x y : Z) (destination : bool) (s : framebuffer_state) (m : mem)
  : framebuffer_status * option Z :=
  if negb destination then (FRAMEBUFFER_STATUS_NULL_ARGUMENT, None)
  else if negb s.(active) then (FRAMEBUFFER_STATUS_NOT_INITIALIZED, Some 0)
  else if negb (inside x y s) then (FRAMEBUFFER_STATUS_OUT_OF_BOUNDS, Some 0)
  else (FRAMEBUFFER_STATUS_OK, Some (load32 m (pixel_at x y s))).

(** One row of the fill loops. *)
Definition fill_row (pixel : Z) (s : framebuffer_state) (m : mem) (y : Z) : mem :=
  let row := pixel_at 0 y s in
  foldl (fun m x => store32 m (row + 4 * x) pixel) m (seqZ 0 s.(width)).

Definition framebuffer_fill (pixel : Z) (s : framebuffer_state) (m : mem)
  : framebuffer_status * mem :=
  if negb s.(active) then (FRAMEBUFFER_STATUS_NOT_INITIALIZED, m)
  else (FRAMEBUFFER_STATUS_OK, foldl (fill_row pixel s) m (seqZ 0 s.(height))).

Definition move_row (rows : Z) (s : framebuffer_state) (m : mem) (y : Z) : mem :=
  let destination := pixel_at 0 y s in
  let source := pixel_at 0 (u32 (y + rows)) s in
  foldl (fun m x => store32 m (destination + 4 * x) (load32 m (source + 4 * x))) m
    (seqZ 0 s.(width)).

(** The first loop runs while [y + rows < height]: [height - rows] turns. *)
Definition framebuffer_scroll_up (rows fill : Z) (s : framebuffer_state) (m : mem)
  : framebuffer_status * mem :=
  if negb s.(active) then (FRAMEBUFFER_STATUS_NOT_INITIALIZED, m)
  else if rows =? 0 then (FRAMEBUFFER_STATUS_OK, m)
  else if rows >=? s.(height) then framebuffer_fill fill s m
  else
  let m := foldl (move_row rows s) m (seqZ 0 (s.(height) - rows)) in
  (FRAMEBUFFER_STATUS_OK, foldl (fill_row fill s) m (seqZ (s.(height) - rows) rows)).

Definition framebuffer_get_state (s : framebuffer_state) : framebuffer_state := s.

(** The page test of framebuffer_verify; [translate] is paging_translate, [None]
    when it does not return OK. *)
Definition verify_page (translate : Z -> option paging_translation) (address : Z) (_ : unit)
  : ctl unit framebuffer_status :=
  match translate address with
  | None => Return FRAMEBUFFER_STATUS_NOT_MAPPED
  | Some t =>
      if negb (t.(physical_address) =? address) || negb (t.(level) =? 1) ||
         negb (t.(permissions) =? Z.lor PAGING_WRITE PAGING_WRITE_COMBINING) ||
         negb (bool_decide (t.(memory_type) = PAGING_MEMORY_WRITE_COMBINING)) then
        Return FRAMEBUFFER_STATUS_VALIDATION_FAILURE
      else Next tt
  end.

(** The pages from the one of [address] to the one of the last byte; the sum
    does not wrap below the end of the address space. *)
Definition framebuffer_verify (translate : Z -> option paging_translation) (s : framebuffer_state)
  : framebuffer_status :=
  let last := u64 (s.(address) + s.(size) - 1) in
  if negb s.(active) then FRAMEBUFFER_STATUS_NOT_INITIALIZED
  else if negb (u64 (s.(pitch) * s.(height)) =? s.(size)) ||
          (s.(pitch) <? u64 (s.(width) * FRAMEBUFFER_BYTES_PER_PIXEL)) then
    FRAMEBUFFER_STATUS_BAD_GEOMETRY
  else
  let first := Z.land s.(address) (not64 (PAGING_PAGE_SIZE - 1)) in
  match for_each (fun k => verify_page translate (first + k * PAGING_PAGE_SIZE))
          (seqZ 0 ((last - first) / PAGING_PAGE_SIZE + 1)) tt with
  | Return status => status
  | Next _ => FRAMEBUFFER_STATUS_OK
  end.

(** * The self test *)

Definition test_state : framebuffer_state := MkState true 0xFD000000 (512 * 50) 512 100 50 16 8 0.
Definition with_pitch (s : framebuffer_state) (p : Z) : framebuffer_state :=
  MkState s.(active) s.(address) s.(size) p s.(width) s.(height) s.(red_position)
    s.(green_position) s.(blue_position).
Definition with_positions (s : framebuffer_state) (r g b : Z) : framebuffer_state :=
  MkState s.(active) s.(address) s.(size) s.(pitch) s.(width) s.(height) r g b.

Definition offsets_are_right : bool :=
  let s := test_state in
  (pixel_offset 0 0 s =? 0) && (pixel_offset 1 0 s =? 4) && (pixel_offset 99 0 s =? 396) &&
  (pixel_offset 0 1 s =? 512) && (pixel_offset 0 2 s =? 1024) && (pixel_offset 1 1 s =? 516) &&
  (pixel_offset (s.(width) - 1) (s.(height) - 1) s + FRAMEBUFFER_BYTES_PER_PIXEL <=? s.(size)) &&
  inside 99 49 s && negb (inside 100 49 s) && negb (inside 99 50 s) && negb (inside 100 50 s) &&
  inside 0 0 s &&
  (pixel_offset 0 1 (with_pitch s (s.(width) * FRAMEBUFFER_BYTES_PER_PIXEL)) =? 400).

Definition packing_is_right (s : framebuffer_state) : bool :=
  let s := with_positions s 16 8 0 in
  (framebuffer_pack 0xFF 0 0 s =? 0x00FF0000) && (framebuffer_pack 0 0xFF 0 s =? 0x0000FF00) &&
  (framebuffer_pack 0 0 0xFF s =? 0x000000FF) && (framebuffer_pack 0x12 0x34 0x56 s =? 0x00123456) &&
  (framebuffer_visible_mask s =? 0x00FFFFFF) &&
  let s := with_positions s 0 8 16 in
  (framebuffer_pack 0x12 0x34 0x56 s =? 0x00563412) && (framebuffer_visible_mask s =? 0x00FFFFFF) &&
  (Z.land (framebuffer_pack 0xFF 0xFF 0xFF s) (u32 (Z.lnot (framebuffer_visible_mask s))) =? 0).

Definition refusals_are_named (paging_is_active : bool) (windows : paging_device_windows)
    (translate : Z -> option paging_translation) (s : framebuffer_state) (m : mem) : bool :=
  let off := MkState false s.(address) s.(size) s.(pitch) s.(width) s.(height) s.(red_position)
               s.(green_position) s.(blue_position) in
  let named st x := bool_decide (x = st) in
  named FRAMEBUFFER_STATUS_NULL_ARGUMENT (framebuffer_initialize None paging_is_active windows off).1 &&
  named FRAMEBUFFER_STATUS_NULL_ARGUMENT (framebuffer_read_pixel 0 0 false off m).1 &&
  named FRAMEBUFFER_STATUS_NOT_INITIALIZED (framebuffer_write_pixel 0 0 0 off m).1 &&
  named FRAMEBUFFER_STATUS_NOT_INITIALIZED (framebuffer_read_pixel 0 0 true off m).1 &&
  named FRAMEBUFFER_STATUS_NOT_INITIALIZED (framebuffer_fill 0 off m).1 &&
  named FRAMEBUFFER_STATUS_NOT_INITIALIZED (framebuffer_verify translate off) &&
  negb (framebuffer_is_active off) &&
  named FRAMEBUFFER_STATUS_ABSENT
    (framebuffer_initialize (Some (MkFramebuffer 0 0 0 0 0 0 0 0 0 false)) paging_is_active windows off).1 &&
  let on := MkState true s.(address) 20000 400 100 50 s.(red_position) s.(green_position)
              s.(blue_position) in
  named FRAMEBUFFER_STATUS_OUT_OF_BOUNDS (framebuffer_write_pixel 100 0 0 on m).1 &&
  named FRAMEBUFFER_STATUS_OUT_OF_BOUNDS (framebuffer_write_pixel 0 50 0 on m).1 &&
  named FRAMEBUFFER_STATUS_OUT_OF_BOUNDS (framebuffer_read_pixel 100 0 true on m).1 &&
  bool_decide (framebuffer_read_pixel 0 50 true on m = (FRAMEBUFFER_STATUS_OUT_OF_BOUNDS, Some 0)).

Definition framebuffer_self_test (paging_is_active : bool) (windows : paging_device_windows)
    (translate : Z -> option paging_translation) (s : framebuffer_state) (m : mem) : bool :=
  offsets_are_right && packing_is_right s &&
  refusals_are_named paging_is_active windows translate s m.

(** * The picture *)

(** What initialization establishes: the rows do not overlap, the picture is its
    declared size and does not wrap around the address space. *)
Record geometry (s : framebuffer_state) : Prop := {
  ge_active : s.(active) = true;
  ge_width : is_u32 s.(width);
  ge_height : is_u32 s.(height);
  ge_pitch : is_u32 s.(pitch);
  ge_row : 4 * s.(width) <= s.(pitch);
  ge_size : s.(size) = s.(pitch) * s.(height);
  ge_span : 0 <= s.(address) /\ s.(address) + s.(size) <= UINT64_MAX
}.

(** The address of a pixel, and the pixel shown there. *)
Definition spot (s : framebuffer_state) (y x : Z) : Z := cell s.(address) s.(pitch) y x.
Definition shown (s : framebuffer_state) (m : mem) (x y : Z) : Z := load32 m (spot s y x).

Definition on_picture (s : framebuffer_state) (x y : Z) : Prop :=
  0 <= x < s.(width) /\ 0 <= y < s.(height).

(** A byte that belongs to no pixel: outside the picture, or padding. *)
Definition off_picture (s : framebuffer_state) (a : Z) : Prop :=
  forall x y, on_picture s x y -> a < spot s y x \/ spot s y x + 4 <= a.

Lemma spot_in_span s x y :
  geometry s -> on_picture s x y ->
  s.(address) <= spot s y x /\ spot s y x + 4 <= s.(address) + s.(size).
Proof.
  intros [_ Hw Hh Hp Hr Hs Hsp] [Hx Hy]. unfold spot, cell. rewrite Hs. unfold is_u32, UINT32_MAX in *.
  assert (0 <= y * pitch s) by nia. assert (y * pitch s + pitch s <= pitch s * height s) by nia. lia.
Qed.

Lemma row_at_spot s x y :
  geometry s -> 0 <= x < s.(width) -> 0 <= y < s.(height) -> pixel_at x y s = spot s y x.
Proof.
  intros Hg Hx Hy. pose proof (spot_in_span s x y Hg (conj Hx Hy)) as Hsp.
  destruct Hg as [_ Hw Hh Hp Hr Hs [H0 Hmax]].
  unfold pixel_at, pixel_offset, FRAMEBUFFER_BYTES_PER_PIXEL, BOOT_FRAMEBUFFER_BYTES_PER_PIXEL.
  unfold spot, cell in *. rewrite (u64_small (y * _ + _)), u64_small.
  - lia.
  - unfold is_u64, is_u32 in *. lia.
  - unfold is_u64, is_u32, UINT64_MAX in *. assert (0 <= y * pitch s) by nia. lia.
Qed.

Lemma spots_apart s x y x' y' :
  geometry s -> on_picture s x y -> on_picture s x' y' -> (y, x) <> (y', x') ->
  apart (spot s y x) (spot s y' x').
Proof.
  intros Hg [Hx Hy] [Hx' Hy'] Hne. by eapply cells_apart; [exact (ge_row _ Hg)|..].
Qed.

(** A nest of loops that stores [V] at the pixels of some rows. *)
Lemma paint_rows s m ys (V : mem -> Z * Z -> Z) v :
  geometry s -> StronglySorted Z.lt ys -> (forall y, y ∈ ys -> 0 <= y < s.(height)) ->
  (forall y x, is_u32 (v y x)) ->
  (forall y x m', y ∈ ys -> 0 <= x < s.(width) ->
     (forall a, (forall y' x', y' <= y -> on_picture s x' y' ->
                   a < spot s y' x' \/ spot s y' x' + 4 <= a \/ (y', x') = (y, x)) -> m' a = m a) ->
     V m' (y, x) = v y x) ->
  let m' := foldl (fun m y => foldl (fun m x => store32 m (spot s y x) (V m (y, x))) m
                                (seqZ 0 s.(width))) m ys in
  (forall x y, 0 <= x < s.(width) -> y ∈ ys -> shown s m' x y = v y x) /\
  (forall a, (forall x y, 0 <= x < s.(width) -> y ∈ ys -> a < spot s y x \/ spot s y x + 4 <= a) ->
     m' a = m a).
Proof.
  intros Hg Hsort Hys Hu HV.
  destruct (paint_rect s.(address) s.(pitch) s.(width) 0 0 ys (seqZ 0 s.(width)) Z.lt Z.lt V v m)
    as [Hin Hout]; try done.
  - apply Hg.
  - intros c Hc%elem_of_seqZ. lia.
  - intros r. lia.
  - intros r. lia.
  - apply seqZ_sorted.
  - intros r c m' Hr Hc%elem_of_seqZ Hm. apply HV; [done|lia|]. intros a Ha. apply Hm.
    intros r' c' Hr' Hc'%elem_of_seqZ Hb. specialize (Hys r' Hr').
    destruct (Ha r' c') as [?|[?|[= -> ->]]]; [| |by left|by right|]; unfold before in Hb; cbn in Hb;
      unfold on_picture; lia.
  - split.
    + intros x y Hx Hy. apply (Hin y x Hy). apply elem_of_seqZ. lia.
    + intros a Ha. apply Hout. intros y x Hy Hx%elem_of_seqZ. apply (Ha x y); [lia|done].
Qed.

Lemma row_start s y x : geometry s -> 0 <= y < s.(height) -> pixel_at 0 y s + 4 * x = spot s y x.
Proof.
  intros [_ Hw Hh Hp Hr Hs [H0 Hmax]] Hy. rewrite Hs in Hmax.
  unfold pixel_at, pixel_offset, spot, cell, is_u32, UINT32_MAX, UINT64_MAX in *.
  assert (0 <= y * pitch s /\ y * pitch s <= pitch s * height s) by nia.
  rewrite Z.mul_0_l, Z.add_0_r, (u64_small (y * _)), u64_small; [lia|unfold is_u64, UINT64_MAX; lia..].
Qed.

Lemma fill_rows s m pixel ys :
  geometry s -> is_u32 pixel -> StronglySorted Z.lt ys -> (forall y, y ∈ ys -> 0 <= y < s.(height)) ->
  let m' := foldl (fill_row pixel s) m ys in
  (forall x y, 0 <= x < s.(width) -> y ∈ ys -> shown s m' x y = pixel) /\
  (forall a, (forall x y, 0 <= x < s.(width) -> y ∈ ys -> a < spot s y x \/ spot s y x + 4 <= a) ->
     m' a = m a).
Proof.
  intros Hg Hp Hs Hys.
  rewrite (foldl_ext_in _ (fun m y => foldl (fun m x => store32 m (spot s y x) pixel) m (seqZ 0 s.(width)))).
  - by apply (paint_rows s m ys (fun _ _ => pixel) (fun _ _ => pixel)).
  - intros m1 y Hy. unfold fill_row. apply foldl_ext_in. intros m2 x _. by rewrite row_start by auto.
Qed.

Lemma move_rows s m rows :
  geometry s -> 0 < rows < s.(height) ->
  let m' := foldl (move_row rows s) m (seqZ 0 (s.(height) - rows)) in
  (forall x y, 0 <= x < s.(width) -> 0 <= y < s.(height) - rows ->
     shown s m' x y = shown s m x (y + rows)) /\
  (forall a, (forall x y, 0 <= x < s.(width) -> 0 <= y < s.(height) - rows ->
                a < spot s y x \/ spot s y x + 4 <= a) -> m' a = m a).
Proof.
  intros Hg Hr. pose proof (ge_height _ Hg) as Hh. unfold is_u32 in Hh.
  rewrite (foldl_ext_in _ (fun m y => foldl (fun m x => store32 m (spot s y x)
    (shown s m x (y + rows))) m (seqZ 0 s.(width)))).
  - destruct (paint_rows s m (seqZ 0 (s.(height) - rows)) (fun m i => shown s m i.2 (i.1 + rows))
      (fun y x => shown s m x (y + rows))) as [Hin Hout]; try done.
    + apply seqZ_sorted.
    + intros y Hy%elem_of_seqZ. lia.
    + intros. apply load32_u32.
    + intros y x m' Hy%elem_of_seqZ Hx Hm. cbn. apply load_ext. intros b Hb. apply Hm.
      intros y' x' Hle [Hx' Hy'].
      assert (apart (spot s (y + rows) x) (spot s y' x')) as Hap.
      { apply spots_apart; [done|split; lia|done|]. intros [= ? ?]. lia. }
      unfold apart in Hap. lia.
    + split; intros; [apply Hin|apply Hout]; try done.
      * apply elem_of_seqZ. lia.
      * intros x y Hx Hy%elem_of_seqZ. apply H; lia.
  - intros m1 y Hy%elem_of_seqZ. unfold move_row. apply foldl_ext_in. intros m2 x _.
    rewrite u32_small by (unfold is_u32; lia). by rewrite !row_start by (done || lia).
Qed.

(** * Properties *)

(** A pixel that is written reads back, and no coordinate
    aliases another.  On a framebuffer initialization accepted, writing inside
    the picture and reading the same coordinate gives the pixel written, every
    other coordinate reads as before, and no byte outside the four of that pixel
    changes; outside the picture both calls refuse and nothing changes. *)
Theorem framebuffer_readback s m x y pixel :
  geometry s -> is_u32 x -> is_u32 y -> is_u32 pixel ->
  let '(st, m') := framebuffer_write_pixel x y pixel s m in
  if (x <? s.(width)) && (y <? s.(height)) then
    st = FRAMEBUFFER_STATUS_OK /\
    (forall x' y', is_u32 x' -> is_u32 y' -> framebuffer_read_pixel x' y' true s m' =
       if (x' =? x) && (y' =? y) then (FRAMEBUFFER_STATUS_OK, Some pixel)
       else framebuffer_read_pixel x' y' true s m) /\
    s.(address) <= pixel_at x y s /\ pixel_at x y s + 4 <= s.(address) + s.(size) /\
    (forall a, a < pixel_at x y s \/ pixel_at x y s + 4 <= a -> m' a = m a)
  else
    st = FRAMEBUFFER_STATUS_OUT_OF_BOUNDS /\ m' = m /\
    framebuffer_read_pixel x y true s m = (FRAMEBUFFER_STATUS_OUT_OF_BOUNDS, Some 0).
Proof.
  intros Hg Hx Hy Hp. unfold framebuffer_write_pixel. rewrite (ge_active _ Hg). cbn [negb].
  unfold inside at 1. destruct ((x <? width s) && (y <? height s)) eqn:Ein; cbn [negb].
  - bool_hyps. unfold is_u32 in Hx, Hy. rewrite row_at_spot by (done || lia).
    assert (on_picture s x y) as Hon by (unfold on_picture; lia).
    destruct (spot_in_span s x y Hg Hon). split_and!; try done.
    + intros x' y' Hx' Hy'. unfold framebuffer_read_pixel, inside. rewrite (ge_active _ Hg). cbn [negb].
      destruct ((x' <? width s) && (y' <? height s)) eqn:Ein'; cbn [negb].
      * bool_hyps. unfold is_u32 in Hx', Hy'. rewrite row_at_spot by (done || lia).
        destruct ((x' =? x) && (y' =? y)) eqn:E.
        -- bool_hyps. subst. by rewrite load_store_same.
        -- rewrite load_store_apart; [done|]. apply spots_apart; [done|done|unfold on_picture; lia|].
           intros [= -> ->]. by rewrite !Z.eqb_refl in E.
      * destruct ((x' =? x) && (y' =? y)) eqn:E; [|done]. bool_hyps. subst.
        rewrite (proj2 (Z.ltb_lt x _)), (proj2 (Z.ltb_lt y _)) in Ein' by lia. naive_solver.
    + intros a Ha. by apply store32_out.
  - unfold framebuffer_read_pixel, inside. rewrite (ge_active _ Hg), Ein. done.
Qed.

(** [framebuffer_scroll_up] moves the picture.  Every row shows
    what was [rows] rows below it, the rows scrolled in show the fill, scrolling
    by the whole height or more clears the picture, and no byte that is not a
    pixel's (padding at the end of a row, memory around the picture) changes. *)
Theorem framebuffer_scroll_exact s m rows fill :
  geometry s -> is_u32 rows -> is_u32 fill ->
  let '(st, m') := framebuffer_scroll_up rows fill s m in
  st = FRAMEBUFFER_STATUS_OK /\
  (forall x y, on_picture s x y ->
     shown s m' x y = if y + rows <? s.(height) then shown s m x (y + rows) else fill) /\
  (forall a, off_picture s a -> m' a = m a).
Proof.
  intros Hg Hr Hf. unfold framebuffer_scroll_up. rewrite (ge_active _ Hg). cbn [negb].
  destruct (rows =? 0) eqn:E0; bool_hyps.
  { subst. split_and!; try done. intros x y [_ Hy]. rewrite Z.add_0_r, (proj2 (Z.ltb_lt _ _)) by lia. done. }
  unfold is_u32 in Hr. destruct (rows >=? height s) eqn:Eh; [rewrite Z.geb_le in Eh|rewrite Z.geb_leb, Z.leb_gt in Eh].
  - unfold framebuffer_fill. rewrite (ge_active _ Hg). cbn [negb].
    destruct (fill_rows s m fill (seqZ 0 (height s)) Hg Hf (seqZ_sorted _ _)) as [Hin Hout].
    { intros y Hy%elem_of_seqZ. lia. }
    split_and!; [done| |].
    + intros x y [Hx Hy]. rewrite (proj2 (Z.ltb_ge _ _)) by lia. apply Hin; [done|]. apply elem_of_seqZ. lia.
    + intros a Ha. apply Hout. intros x y Hx Hy%elem_of_seqZ. apply Ha. unfold on_picture. lia.
  - destruct (move_rows s m rows Hg ltac:(lia)) as [Hin1 Hout1]. set (m1 := foldl _ m _) in *.
    destruct (fill_rows s m1 fill (seqZ (height s - rows) rows) Hg Hf (seqZ_sorted _ _)) as [Hin2 Hout2].
    { intros y Hy%elem_of_seqZ. lia. }
    split_and!; [done| |].
    + intros x y [Hx Hy]. destruct (y + rows <? height s) eqn:E; bool_hyps.
      * rewrite <- Hin1 by lia. apply load_ext. intros b Hb. apply Hout2. intros x' y' Hx' Hy'%elem_of_seqZ.
        assert (apart (spot s y x) (spot s y' x')) as Hap.
        { apply spots_apart; [done|unfold on_picture; lia..|]. intros [= -> ->]. lia. }
        unfold apart in Hap. lia.
      * apply Hin2; [done|]. apply elem_of_seqZ. lia.
    + intros a Ha. rewrite Hout2, Hout1; [done|..]; intros x y Hx Hy;
        rewrite ?elem_of_seqZ in Hy; apply Ha; unfold on_picture; lia.
Qed.

(** A framebuffer is adopted only if every pixel is safe to store.
    For any description the loader can give, framebuffer_initialize that
    succeeds leaves a picture whose rows do not overlap, whose every pixel lies
    inside the declared span, and whose span lies inside a framebuffer window of
    the address space; every refusal leaves the state as it was. *)
Theorem framebuffer_initialize_sound fb paging_is_active windows s :
  is_u64 fb.(fb_address) -> is_u64 fb.(fb_size) ->
  is_u32 fb.(fb_width) -> is_u32 fb.(fb_height) -> is_u32 fb.(fb_pitch) ->
  (forall w, framebuffer_window windows = Some w -> 0 <= w.(physical_base) /\ 0 <= w.(length) /\
     w.(physical_base) + w.(length) <= UINT64_MAX) ->
  let '(st, s') := framebuffer_initialize (Some fb) paging_is_active windows s in
  (st <> FRAMEBUFFER_STATUS_OK -> s' = s) /\
  (st = FRAMEBUFFER_STATUS_OK -> geometry s' /\
     exists w, framebuffer_window windows = Some w /\ w.(kind) = PAGING_DEVICE_WINDOW_FRAMEBUFFER /\
     forall x y, on_picture s' x y ->
       w.(physical_base) <= pixel_at x y s' /\ pixel_at x y s' + 4 <= w.(physical_base) + w.(length)).
Proof.
  intros Ha Hs Hw Hh Hp Hwin. unfold framebuffer_initialize. repeat (split_if; [done|]).
  destruct (framebuffer_window windows) as [w|] eqn:Ew; [|done].
  destruct (Hwin w eq_refl) as (Hb & Hl & Hmax).
  split_if; [done|]. split_if; [done|]. split; [done|]. intros _.
  repeat match goal with H : (_ || _) = false |- _ => apply orb_false_iff in H as [? H] end. bool_hyps.
  unfold is_u64, is_u32, UINT64_MAX, UINT32_MAX in *.
  rewrite ?Z.gtb_ltb, ?Z.ltb_ge, ?Z.eqb_neq in *.
  assert (0 <= fb_pitch fb * fb_height fb < 18446744073709551616) as Hm by nia.
  assert (u64 (fb_width fb * FRAMEBUFFER_BYTES_PER_PIXEL) = 4 * fb_width fb) as E1.
  { rewrite u64_small; unfold FRAMEBUFFER_BYTES_PER_PIXEL, BOOT_FRAMEBUFFER_BYTES_PER_PIXEL;
      [lia|unfold is_u64, UINT64_MAX; lia]. }
  assert (u64 (fb_pitch fb * fb_height fb) = fb_pitch fb * fb_height fb) as E2.
  { apply u64_small. unfold is_u64, UINT64_MAX. lia. }
  assert (u64 (fb_address fb + fb_size fb) = fb_address fb + fb_size fb) as E3.
  { apply u64_small. unfold is_u64, UINT64_MAX. lia. }
  assert (u64 (physical_base w + length w) = physical_base w + length w) as E4.
  { apply u64_small. unfold is_u64, UINT64_MAX. lia. }
  rewrite E1, E2, E3, E4 in *. set (s' := MkState _ _ _ _ _ _ _ _ _).
  assert (geometry s') as Hg.
  { split; unfold is_u32, UINT32_MAX, UINT64_MAX; cbn; try done; lia. }
  split; [done|]. exists w. split_and!; [done| |].
  - unfold framebuffer_window in Ew.
    rewrite (for_each_scan (fun i => kind (aget no_window (entries windows) i) =?
      PAGING_DEVICE_WINDOW_FRAMEBUFFER) (aget no_window (entries windows))) in Ew.
    destruct (List.find _ _) as [i|] eqn:Ei; [|done]. injection Ew as <-.
    apply find_seqZ_Some in Ei as (_ & Hi & _). by bool_hyps.
  - intros x y Hon. destruct (spot_in_span s' x y Hg Hon) as [Hlo Hhi].
    rewrite row_at_spot by (done || apply Hon). cbn in Hlo, Hhi. lia.
Qed.

(** The self test passes whatever paging answers. *)
Lemma framebuffer_self_test_passes paging_is_active windows translate s m :
  framebuffer_self_test paging_is_active windows translate s m = true.
Proof. by destruct s. Qed.

(** ** Examples *)

Definition test_windows : paging_device_windows :=
  DeviceWindows.MkWindows 1 [DeviceWindows.MkWindow PAGING_DEVICE_WINDOW_FRAMEBUFFER 0 0xFD000000
    0x200000 PAGING_MEMORY_WRITE_COMBINING (Z.lor PAGING_WRITE PAGING_WRITE_COMBINING)].
Definition test_framebuffer : boot_framebuffer := MkFramebuffer 0xFD000000 512 100 50 25600 32 16 8 0 true.
Definition unset : framebuffer_state := MkState false 0 0 0 0 0 0 0 0.

Lemma framebuffer_initialize_sound_witness : geometry test_state.
Proof.
  pose proof (framebuffer_initialize_sound test_framebuffer true test_windows unset) as Hs.
  change (framebuffer_initialize (Some test_framebuffer) true test_windows unset)
    with (FRAMEBUFFER_STATUS_OK, test_state) in Hs.
  apply Hs; try (unfold is_u64, is_u32, UINT64_MAX, UINT32_MAX; cbn; lia); [|done].
  intros w Hw. vm_compute in Hw. injection Hw as <-. unfold UINT64_MAX. cbn. lia.
Defined.

Lemma test_geometry : geometry test_state.
Proof. split; unfold is_u32, UINT32_MAX, UINT64_MAX; cbn; lia || done. Qed.

Lemma framebuffer_readback_witness :
  framebuffer_read_pixel 99 49 true test_state
    (framebuffer_write_pixel 99 49 0x123456 test_state (fun _ => 0)).2 =
  (FRAMEBUFFER_STATUS_OK, Some 0x123456).
Proof.
  pose proof (framebuffer_readback test_state (fun _ => 0) 99 49 0x123456 test_geometry) as Hr.
  destruct (framebuffer_write_pixel 99 49 0x123456 test_state (fun _ => 0)) as [st m'].
  cbn [snd]. assert (is_u32 99 /\ is_u32 49 /\ is_u32 0x123456) as (H1 & H2 & H3)
    by (unfold is_u32, UINT32_MAX; lia).
  destruct (Hr H1 H2 H3) as (_ & Hread & _). exact (Hread 99 49 H1 H2).
Defined.

Lemma framebuffer_scroll_exact_witness :
  shown test_state (framebuffer_scroll_up 8 7 test_state (fun a => a)).2 3 49 = 7.
Proof.
  pose proof (framebuffer_scroll_exact test_state (fun a => a) 8 7 test_geometry) as Hr.
  destruct (framebuffer_scroll_up 8 7 test_state (fun a => a)) as [st m']. cbn [snd].
  assert (is_u32 8 /\ is_u32 7) as (H1 & H2) by (unfold is_u32, UINT32_MAX; lia).
  destruct (Hr H1 H2) as (_ & Hs & _). apply (Hs 3 49). split; cbn; lia.
Defined.
End Framebuffer.
