(* ===== verification/Surface.v ===== *)
(** Surfaces: src/src/kernel/surface.c.

    A surface is a picture in ordinary memory with one rectangle of damage: what
    changed since it was last presented to the framebuffer.  Its pixels are
    bytes of [Pixels.mem]; the buffer comes from the kernel heap of [Heap] and
    the framebuffer is that of [Framebuffer]. *)
From Stdlib Require Import Sorted.
From S2P Require Import Prelude PhysicalMemory Heap PageTable Pixels Framebuffer.

Open Scope Z_scope.

Module Surface.
Import Pixels.

Definition SURFACE_BYTES_PER_PIXEL : Z := 4.

Inductive surface_status : Type :=
| SURFACE_STATUS_OK
| SURFACE_STATUS_NULL_ARGUMENT
| SURFACE_STATUS_ALREADY_INITIALIZED
| SURFACE_STATUS_NOT_INITIALIZED
| SURFACE_STATUS_BAD_GEOMETRY
| SURFACE_STATUS_SIZE_OVERFLOW
| SURFACE_STATUS_ALLOCATION_FAILURE
| SURFACE_STATUS_RELEASE_FAILURE
| SURFACE_STATUS_OUT_OF_BOUNDS
| SURFACE_STATUS_RECTANGLE_OVERFLOW
| SURFACE_STATUS_BAD_SOURCE_PITCH
| SURFACE_STATUS_NO_FRAMEBUFFER
| SURFACE_STATUS_FRAMEBUFFER_MISMATCH
| SURFACE_STATUS_PRESENT_FAILURE
| SURFACE_STATUS_VALIDATION_FAILURE.

#[export] Instance surface_status_eq_dec : EqDecision surface_status.
Proof. solve_decision. Defined.
#[local] Existing Instance PageTable.paging_memory_type_eq_dec.
#[local] Existing Instance Heap.heap_status_eq_dec.

Record surface_rect : Type := MkRect { x : Z; y : Z; rwidth : Z; rheight : Z }.

Record surface_damage : Type := MkDamage { pending : bool; rectangle : surface_rect }.

(** [pixels] is an address, 0 for NULL. *)
Record surface : Type := MkSurface {
  active : bool;
  width : Z;
  height : Z;
  pitch : Z;
  pixels : Z;
  damage : surface_damage;
  presents : Z;
  last_present_pixels : Z;
  presented_pixels : Z
}.

#[export] Instance surface_rect_eq_dec : EqDecision surface_rect.
Proof. solve_decision. Defined.

Definition with_damage (s : surface) (d : surface_damage) : surface :=
  MkSurface s.(active) s.(width) s.(height) s.(pitch) s.(pixels) d s.(presents)
    s.(last_present_pixels) s.(presented_pixels).
Definition with_counters (s : surface) (p l t : Z) : surface :=
  MkSurface s.(active) s.(width) s.(height) s.(pitch) s.(pixels) s.(damage) p l t.

Definition minimum (left right : Z) : Z := if left <? right then left else right.

(** row_at and const_row_at: the address of a row. *)
Definition row_at (s : surface) (row : Z) : Z := s.(pixels) + row * s.(pitch).

Definition no_damage : surface_damage := MkDamage false (MkRect 0 0 0 0).
Definition clear_damage (s : surface) : surface := with_damage s no_damage.

Definition add_damage (s : surface) (r : surface_rect) : surface :=
  if (r.(rwidth) =? 0) || (r.(rheight) =? 0) then s
  else if negb s.(damage).(pending) then with_damage s (MkDamage true r)
  else
  let d := s.(damage).(rectangle) in
  let left := minimum d.(x) r.(x) in
  let top := minimum d.(y) r.(y) in
  let right := u32 (d.(x) + d.(rwidth)) in
  let bottom := u32 (d.(y) + d.(rheight)) in
  let right := if u32 (r.(x) + r.(rwidth)) >? right then u32 (r.(x) + r.(rwidth)) else right in
  let bottom := if u32 (r.(y) + r.(rheight)) >? bottom then u32 (r.(y) + r.(rheight)) else bottom in
  with_damage s (MkDamage true (MkRect left top (u32 (right - left)) (u32 (bottom - top)))).

Definition clip_rectangle (s : surface) (requested : surface_rect) : surface_status * surface_rect :=
  let r := requested in
  if (r.(rwidth) =? 0) || (r.(rheight) =? 0) then (SURFACE_STATUS_OK, MkRect r.(x) r.(y) 0 0)
  else if (r.(x) >=? s.(width)) || (r.(y) >=? s.(height)) then (SURFACE_STATUS_OUT_OF_BOUNDS, r)
  else if (r.(rwidth) >? UINT32_MAX - r.(x)) || (r.(rheight) >? UINT32_MAX - r.(y)) then
    (SURFACE_STATUS_RECTANGLE_OVERFLOW, r)
  else
    (SURFACE_STATUS_OK,
     MkRect r.(x) r.(y) (minimum r.(rwidth) (s.(width) - r.(x)))
       (minimum r.(rheight) (s.(height) - r.(y)))).

Definition bind_surface (s : option surface) (w h p ptr : Z) : surface_status * option surface :=
  match s with
  | None => (SURFACE_STATUS_NULL_ARGUMENT, None)
  | Some s =>
      if ptr =? 0 then (SURFACE_STATUS_NULL_ARGUMENT, Some s)
      else if (w =? 0) || (h =? 0) || (w >? UINT32_MAX / SURFACE_BYTES_PER_PIXEL) ||
              (p <? w * SURFACE_BYTES_PER_PIXEL) ||
              negb (p mod SURFACE_BYTES_PER_PIXEL =? 0) then (SURFACE_STATUS_BAD_GEOMETRY, Some s)
      else (SURFACE_STATUS_OK, Some (clear_damage (MkSurface true w h p ptr s.(damage) 0 0 0)))
  end.

Section heap.
Context {M : Type} `{Heap.HeapPlatform M}.

Definition surface_initialize (s : option surface) (w h : Z) (heap : Heap.heap) (m : M)
  : surface_status * option surface * Heap.heap * M :=
  match s with
  | None => (SURFACE_STATUS_NULL_ARGUMENT, None, heap, m)
  | Some s =>
      if s.(active) then (SURFACE_STATUS_ALREADY_INITIALIZED, Some s, heap, m)
      else if (w =? 0) || (h =? 0) then (SURFACE_STATUS_BAD_GEOMETRY, Some s, heap, m)
      else if w >? UINT32_MAX / SURFACE_BYTES_PER_PIXEL then
        (SURFACE_STATUS_SIZE_OVERFLOW, Some s, heap, m)
      else
      let p := u32 (w * SURFACE_BYTES_PER_PIXEL) in
      let size := u64 (p * h) in
      if size >? Heap.HEAP_SIZE then (SURFACE_STATUS_SIZE_OVERFLOW, Some s, heap, m)
      else
      match Heap.heap_allocate size true heap m with
      | (Heap.HEAP_STATUS_OK, allocation, heap, m) =>
          let '(status, s) := bind_surface (Some s) w h p (default 0 allocation) in
          (status, s, heap, m)
      | (_, _, heap, m) => (SURFACE_STATUS_ALLOCATION_FAILURE, Some s, heap, m)
      end
  end.
End heap.

Definition surface_release (s : option surface) (heap : Heap.heap)
  : surface_status * option surface * Heap.heap :=
  match s with
  | None => (SURFACE_STATUS_NULL_ARGUMENT, None, heap)
  | Some s =>
      if negb s.(active) then (SURFACE_STATUS_NOT_INITIALIZED, Some s, heap)
      else
      match Heap.heap_free s.(pixels) heap with
      | (Heap.HEAP_STATUS_OK, heap) =>
          (SURFACE_STATUS_OK, Some (MkSurface false 0 0 0 0 no_damage 0 0 0), heap)
      | (_, heap) => (SURFACE_STATUS_RELEASE_FAILURE, Some s, heap)
      end
  end.

(** * Drawing *)

(** A drawing call on a surface that is there and active; [draw] is the rest. *)
Definition guarded (s : option surface) (m : mem)
    (draw : surface -> surface_status * surface * mem) : surface_status * option surface * mem :=
  match s with
  | None => (SURFACE_STATUS_NULL_ARGUMENT, None, m)
  | Some s =>
      if negb s.(active) then (SURFACE_STATUS_NOT_INITIALIZED, Some s, m)
      else let '(status, s, m) := draw s in (status, Some s, m)
  end.

(** The loops of surface_fill_rect. *)
Definition fill_pixels (s : surface) (r : surface_rect) (pixel : Z) (m : mem) : mem :=
  foldl (fun m row =>
      let base := row_at s (u32 (r.(y) + row)) in
      foldl (fun m column => store32 m (base + 4 * u32 (r.(x) + column)) pixel) m
        (seqZ 0 r.(rwidth))) m (seqZ 0 r.(rheight)).

Definition surface_fill_rect (s : option surface) (r : surface_rect) (pixel : Z) (m : mem)
  : surface_status * option surface * mem :=
  guarded s m (fun s =>
    let '(status, clipped) := clip_rectangle s r in
    if negb (bool_decide (status = SURFACE_STATUS_OK)) || (clipped.(rwidth) =? 0) ||
       (clipped.(rheight) =? 0) then (status, s, m)
    else (SURFACE_STATUS_OK, add_damage s clipped, fill_pixels s clipped pixel m)).

Definition blit_pixels (s : surface) (r : surface_rect) (source source_pitch : Z) (m : mem) : mem :=
  foldl (fun m row =>
      let destination := row_at s (u32 (r.(y) + row)) in
      let source_row := source + row * source_pitch in
      foldl (fun m column => store32 m (destination + 4 * u32 (r.(x) + column))
                               (load32 m (source_row + 4 * column))) m
        (seqZ 0 r.(rwidth))) m (seqZ 0 r.(rheight)).

Definition surface_blit (s : option surface) (dx dy source sw sh sp : Z) (m : mem)
  : surface_status * option surface * mem :=
  if source =? 0 then (SURFACE_STATUS_NULL_ARGUMENT, s, m)
  else
  guarded s m (fun s =>
    if (sw =? 0) || (sh =? 0) then (SURFACE_STATUS_OK, s, m)
    else if (sw >? UINT32_MAX / SURFACE_BYTES_PER_PIXEL) || (sp <? sw * SURFACE_BYTES_PER_PIXEL) ||
            negb (sp mod SURFACE_BYTES_PER_PIXEL =? 0) then (SURFACE_STATUS_BAD_SOURCE_PITCH, s, m)
    else
    let '(status, clipped) := clip_rectangle s (MkRect dx dy sw sh) in
    if negb (bool_decide (status = SURFACE_STATUS_OK)) then (status, s, m)
    else (SURFACE_STATUS_OK, add_damage s clipped, blit_pixels s clipped source sp m)).

(** The columns of one row, in the order given. *)
Definition copy_row (s : surface) (source : surface_rect) (dx dy : Z) (columns : list Z)
    (m : mem) (row : Z) : mem :=
  let destination_row := row_at s (u32 (dy + row)) in
  let source_row := row_at s (u32 (source.(y) + row)) in
  foldl (fun m column => store32 m (destination_row + 4 * u32 (dx + column))
                           (load32 m (source_row + 4 * u32 (source.(x) + column)))) m columns.

(** Rows from the bottom when the destination is below its source, columns from
    the right when it is right of it in the same rows. *)
Definition copy_pixels (s : surface) (source : surface_rect) (dx dy copy_width copy_height : Z)
    (m : mem) : mem :=
  if dy >? source.(y) then
    foldl (copy_row s source dx dy (seqZ 0 copy_width)) m (reverse (seqZ 0 copy_height))
  else
    foldl (copy_row s source dx dy
             (if (dy =? source.(y)) && (dx >? source.(x)) then reverse (seqZ 0 copy_width)
              else seqZ 0 copy_width)) m (seqZ 0 copy_height).

Definition surface_copy_rect (s : option surface) (source : surface_rect) (dx dy : Z) (m : mem)
  : surface_status * option surface * mem :=
  guarded s m (fun s =>
    let '(status, source_clipped) := clip_rectangle s source in
    if negb (bool_decide (status = SURFACE_STATUS_OK)) || (source_clipped.(rwidth) =? 0) ||
       (source_clipped.(rheight) =? 0) then (status, s, m)
    else
    let '(status, destination_clipped) :=
      clip_rectangle s (MkRect dx dy source.(rwidth) source.(rheight)) in
    if negb (bool_decide (status = SURFACE_STATUS_OK)) then (status, s, m)
    else
    let copy_width := minimum source_clipped.(rwidth) destination_clipped.(rwidth) in
    let copy_height := minimum source_clipped.(rheight) destination_clipped.(rheight) in
    (SURFACE_STATUS_OK, add_damage s (MkRect dx dy copy_width copy_height),
     copy_pixels s source dx dy copy_width copy_height m)).

Definition surface_pixel (s : option surface) (px py pixel : Z) (m : mem)
  : surface_status * option surface * mem :=
  guarded s m (fun s =>
    if (px >=? s.(width)) || (py >=? s.(height)) then (SURFACE_STATUS_OUT_OF_BOUNDS, s, m)
    else (SURFACE_STATUS_OK, add_damage s (MkRect px py 1 1), store32 m (row_at s py + 4 * px) pixel)).

(** [destination] is false for a NULL pointer; the second component is what is
    stored through it. *)
Definition surface_read_pixel (s : option surface) (px py : Z) (destination : bool) (m : mem)
  : surface_status * option Z :=
  match s with
  | None => (SURFACE_STATUS_NULL_ARGUMENT, None)
  | Some s =>
      if negb destination then (SURFACE_STATUS_NULL_ARGUMENT, None)
      else if negb s.(active) then (SURFACE_STATUS_NOT_INITIALIZED, Some 0)
      else if (px >=? s.(width)) || (py >=? s.(height)) then (SURFACE_STATUS_OUT_OF_BOUNDS, Some 0)
      else (SURFACE_STATUS_OK, Some (load32 m (row_at s py + 4 * px)))
  end.

(** * Presenting *)

(** The copy loops of surface_present into the framebuffer [fb], and their count. *)
Definition present_pixels (s : surface) (fb : Framebuffer.framebuffer_state) (d : surface_rect)
    (m : mem) : mem :=
  foldl (fun m row =>
      let source := row_at s (u32 (d.(y) + row)) in
      let destination := u64 (fb.(Framebuffer.address) +
                              u64 (u32 (d.(y) + row) * fb.(Framebuffer.pitch))) + 4 * d.(x) in
      foldl (fun m column => store32 m (destination + 4 * column)
                               (load32 m (source + 4 * u32 (d.(x) + column)))) m
        (seqZ 0 d.(rwidth))) m (seqZ 0 d.(rheight)).

Definition copied_pixels (d : surface_rect) : Z :=
  foldl (fun c _ => foldl (fun c _ => u64 (c + 1)) c (seqZ 0 d.(rwidth))) 0 (seqZ 0 d.(rheight)).

Definition surface_present (s : option surface) (fb : Framebuffer.framebuffer_state) (m : mem)
  : surface_status * option surface * mem :=
  guarded s m (fun s =>
    if negb (Framebuffer.framebuffer_is_active fb) then (SURFACE_STATUS_NO_FRAMEBUFFER, s, m)
    else if negb (fb.(Framebuffer.width) =? s.(width)) || negb (fb.(Framebuffer.height) =? s.(height)) then
      (SURFACE_STATUS_FRAMEBUFFER_MISMATCH, s, m)
    else if negb s.(damage).(pending) then
      (SURFACE_STATUS_OK, with_counters s s.(presents) 0 s.(presented_pixels), m)
    else
    let d := s.(damage).(rectangle) in
    let copied := copied_pixels d in
    (SURFACE_STATUS_OK,
     clear_damage (with_counters s (u64 (s.(presents) + 1)) copied (u64 (s.(presented_pixels) + copied))),
     present_pixels s fb d m)).

(** * The audit *)

(** The page test; [translate] is paging_translate, [None] unless it returns OK. *)
Definition page_is_plain (translate : Z -> option PageTable.paging_translation) (page : Z) : bool :=
  match translate page with
  | None => false
  | Some t => (t.(PageTable.permissions) =? PageTable.PAGING_WRITE) &&
      bool_decide (t.(PageTable.memory_type) = PageTable.PAGING_MEMORY_WRITE_BACK)
  end.

Definition surface_verify (translate : Z -> option PageTable.paging_translation) (heap : Heap.heap_state)
    (s : option surface) : surface_status :=
  match s with
  | None => SURFACE_STATUS_NULL_ARGUMENT
  | Some s =>
      let d := s.(damage).(rectangle) in
      if negb s.(active) then SURFACE_STATUS_NOT_INITIALIZED
      else if (s.(pixels) =? 0) || (s.(width) =? 0) || (s.(height) =? 0) ||
              (s.(width) >? UINT32_MAX / SURFACE_BYTES_PER_PIXEL) ||
              negb (s.(pitch) =? s.(width) * SURFACE_BYTES_PER_PIXEL) then SURFACE_STATUS_BAD_GEOMETRY
      else if s.(damage).(pending) &&
              ((d.(rwidth) =? 0) || (d.(rheight) =? 0) || (d.(x) >=? s.(width)) ||
               (d.(y) >=? s.(height)) || (d.(rwidth) >? s.(width) - d.(x)) ||
               (d.(rheight) >? s.(height) - d.(y))) then SURFACE_STATUS_VALIDATION_FAILURE
      else
      let address := s.(pixels) in
      let size := u64 (s.(pitch) * s.(height)) in
      let limit := u64 (heap.(Heap.base_address) + heap.(Heap.committed_bytes)) in
      if negb heap.(Heap.active) || (address <? heap.(Heap.base_address)) || (address >? limit) ||
         (size >? limit - address) then SURFACE_STATUS_VALIDATION_FAILURE
      else
      let first := Z.land address (not64 (PageTable.PAGING_PAGE_SIZE - 1)) in
      if forallb (fun k => page_is_plain translate (first + k * PageTable.PAGING_PAGE_SIZE))
           (seqZ 0 ((address + size - first + PageTable.PAGING_PAGE_SIZE - 1) / PageTable.PAGING_PAGE_SIZE))
      then SURFACE_STATUS_OK else SURFACE_STATUS_VALIDATION_FAILURE
  end.

(** * The self test

    The tests draw on a local array of 5 rows of 8 words at the address [buffer],
    the last two of each row being padding. *)

Definition blank : surface := MkSurface false 0 0 0 0 no_damage 0 0 0.

Definition seed_fixture (s : surface) (m : mem) : surface * mem :=
  (clear_damage s,
   foldl (fun m row =>
       let base := row_at s row in
       let m := foldl (fun m column => store32 m (base + 4 * column) (u32 (row * 16 + column))) m
                  (seqZ 0 s.(width)) in
       store32 (store32 m (base + 4 * 6) 0xA5A5A5A5) (base + 4 * 7) 0x5A5A5A5A) m (seqZ 0 s.(height))).

(** The bound and seeded surface every test starts from. *)
Definition fixture (buffer : Z) (m : mem) : option (surface * mem) :=
  match bind_surface (Some blank) 6 5 (8 * SURFACE_BYTES_PER_PIXEL) buffer with
  | (SURFACE_STATUS_OK, Some s) => Some (seed_fixture s m)
  | _ => None
  end.

Definition is_status (st x : surface_status) : bool := bool_decide (x = st).

Definition fill_and_damage_are_right (buffer : Z) (m : mem) : bool :=
  match fixture buffer m with
  | None => false
  | Some (s, m) =>
      match surface_fill_rect (Some s) (MkRect 4 3 4 4) 0x11223344 m with
      | (SURFACE_STATUS_OK, Some s, m) =>
          s.(damage).(pending) && bool_decide (s.(damage).(rectangle) = MkRect 4 3 2 2) &&
          forallb (fun row => (load32 m (row_at s row + 4 * 6) =? 0xA5A5A5A5) &&
                              (load32 m (row_at s row + 4 * 7) =? 0x5A5A5A5A)) (seqZ 0 s.(height)) &&
          is_status SURFACE_STATUS_RECTANGLE_OVERFLOW
            (surface_fill_rect (Some s) (MkRect 5 0 UINT32_MAX 1) 0 m).1.1
      | _ => false
      end
  end.

(** [source] is the address of the static image. *)
Definition blit_stride_is_right (buffer source : Z) (m : mem) : bool :=
  let m := foldl (fun m i => store32 m (source + 4 * i)
                    (aget 0 [11; 12; 0xDEADBEEF; 21; 22; 0xCAFEBABE] i)) m (seqZ 0 6) in
  match fixture buffer m with
  | None => false
  | Some (s, m) =>
      match surface_blit (Some s) 1 1 source 2 2 (3 * SURFACE_BYTES_PER_PIXEL) m with
      | (SURFACE_STATUS_OK, Some s, m) =>
          (load32 m (row_at s 1 + 4 * 1) =? 11) && (load32 m (row_at s 1 + 4 * 2) =? 12) &&
          (load32 m (row_at s 2 + 4 * 1) =? 21) && (load32 m (row_at s 2 + 4 * 2) =? 22)
      | _ => false
      end
  end.

(** The copied square, with its corner at ([dx], [dy]), holds the seeds from
    ([sx], [sy]) on. *)
Definition square_is (s : surface) (m : mem) (dx dy sx sy : Z) : bool :=
  forallb (fun row => forallb (fun column =>
      load32 m (row_at s (dy + row) + 4 * (dx + column)) =? (sy + row) * 16 + (sx + column))
    (seqZ 0 4)) (seqZ 0 4).

Definition overlap_directions_are_right (buffer : Z) (m : mem) : bool :=
  match fixture buffer m with
  | None => false
  | Some (s, m) =>
      match surface_copy_rect (Some s) (MkRect 0 0 4 4) 1 1 m with
      | (SURFACE_STATUS_OK, Some s, m) =>
          square_is s m 1 1 0 0 &&
          let '(s, m) := seed_fixture s m in
          match surface_copy_rect (Some s) (MkRect 1 1 4 4) 0 0 m with
          | (SURFACE_STATUS_OK, Some s, m) => square_is s m 0 0 1 1
          | _ => false
          end
      | _ => false
      end
  end.

(** The last part, that every status has a message, is about the name table. *)
Definition pixels_and_refusals_are_right (buffer : Z) (m : mem) : bool :=
  is_status SURFACE_STATUS_NOT_INITIALIZED (surface_pixel (Some blank) 0 0 0 m).1.1 &&
  is_status SURFACE_STATUS_NOT_INITIALIZED (surface_read_pixel (Some blank) 0 0 true m).1 &&
  is_status SURFACE_STATUS_NULL_ARGUMENT (surface_read_pixel None 0 0 true m).1 &&
  is_status SURFACE_STATUS_NULL_ARGUMENT (surface_read_pixel (Some blank) 0 0 false m).1 &&
  match fixture buffer m with
  | None => false
  | Some (s, m) =>
      match surface_pixel (Some s) 5 4 0x12345678 m with
      | (SURFACE_STATUS_OK, s, m) =>
          bool_decide (surface_read_pixel s 5 4 true m = (SURFACE_STATUS_OK, Some 0x12345678)) &&
          is_status SURFACE_STATUS_OUT_OF_BOUNDS (surface_pixel s 6 0 0 m).1.1 &&
          is_status SURFACE_STATUS_OUT_OF_BOUNDS (surface_read_pixel s 0 5 true m).1
      | _ => false
      end
  end.

Definition surface_self_test (buffer source : Z) (m : mem) : bool :=
  fill_and_damage_are_right buffer m && blit_stride_is_right buffer source m &&
  overlap_directions_are_right buffer m && pixels_and_refusals_are_right buffer m.

(** * The picture *)

Definition is_rect (r : surface_rect) : Prop :=
  is_u32 r.(x) /\ is_u32 r.(y) /\ is_u32 r.(rwidth) /\ is_u32 r.(rheight).

(** A rectangle that is empty or lies on the surface. *)
Definition fits (s : surface) (r : surface_rect) : Prop :=
  0 <= r.(x) /\ 0 <= r.(y) /\ 0 <= r.(rwidth) /\ 0 <= r.(rheight) /\
  (0 < r.(rwidth) -> 0 < r.(rheight) ->
   r.(x) + r.(rwidth) <= s.(width) /\ r.(y) + r.(rheight) <= s.(height)).

(** An initialized surface: rows that do not overlap, and damage on the surface. *)
Record wf (s : surface) : Prop := {
  wf_active : s.(active) = true;
  wf_width : 0 < s.(width) <= UINT32_MAX;
  wf_height : 0 < s.(height) <= UINT32_MAX;
  wf_row : 4 * s.(width) <= s.(pitch);
  wf_damage : s.(damage).(pending) = true ->
    fits s s.(damage).(rectangle) /\ 0 < s.(damage).(rectangle).(rwidth) /\
    0 < s.(damage).(rectangle).(rheight)
}.

Definition spot (s : surface) (row column : Z) : Z := cell s.(pixels) s.(pitch) row column.
Definition picture (s : surface) (m : mem) (px py : Z) : Z := load32 m (spot s py px).

Definition on (s : surface) (px py : Z) : Prop := 0 <= px < s.(width) /\ 0 <= py < s.(height).

Definition inside (r : surface_rect) (px py : Z) : bool :=
  (r.(x) <=? px) && (px <? r.(x) + r.(rwidth)) && (r.(y) <=? py) && (py <? r.(y) + r.(rheight)).

Definition damaged (s : surface) (px py : Z) : bool :=
  s.(damage).(pending) && inside s.(damage).(rectangle) px py.

(** A byte that is no pixel of the surface. *)
Definition off (s : surface) (a : Z) : Prop :=
  forall px py, on s px py -> a < spot s py px \/ spot s py px + 4 <= a.

(** [s'] is [s] but for its damage and counters. *)
Definition same_shape (s s' : surface) : Prop :=
  s'.(width) = s.(width) /\ s'.(height) = s.(height) /\ s'.(pitch) = s.(pitch) /\
  s'.(pixels) = s.(pixels).

Lemma inside_spec r px py :
  inside r px py = true <->
  r.(x) <= px < r.(x) + r.(rwidth) /\ r.(y) <= py < r.(y) + r.(rheight).
Proof. unfold inside. rewrite !andb_true_iff, !Z.leb_le, !Z.ltb_lt. lia. Qed.

Lemma inside_false r px py :
  inside r px py = false <->
  ~ (r.(x) <= px < r.(x) + r.(rwidth) /\ r.(y) <= py < r.(y) + r.(rheight)).
Proof. by rewrite <- inside_spec, not_true_iff_false. Qed.

Lemma minimum_min a b : minimum a b = Z.min a b.
Proof. unfold minimum. destruct (a <? b) eqn:E; bool_hyps; lia. Qed.

Lemma clip_spec s r :
  wf s -> is_rect r ->
  let '(st, c) := clip_rectangle s r in
  st = SURFACE_STATUS_OK ->
  fits s c /\ c.(x) = r.(x) /\ c.(y) = r.(y) /\ c.(rwidth) <= r.(rwidth) /\ c.(rheight) <= r.(rheight) /\
  is_rect c /\ (forall px py, on s px py -> inside c px py = inside r px py) /\
  (0 < r.(rwidth) -> 0 < r.(rheight) -> r.(x) < s.(width) /\ r.(y) < s.(height) /\
     c.(rwidth) = Z.min r.(rwidth) (s.(width) - r.(x)) /\
     c.(rheight) = Z.min r.(rheight) (s.(height) - r.(y))).
Proof.
  intros Hwf (Hx & Hy & Hrw & Hrh). unfold clip_rectangle.
  pose proof (wf_width _ Hwf) as Hw. pose proof (wf_height _ Hwf) as Hh. unfold is_rect, is_u32 in *.
  destruct ((rwidth r =? 0) || (rheight r =? 0)) eqn:E0.
  { intros _. unfold fits. cbn. split_and!; try lia.
    intros px py _. apply eq_bool_prop_intro.
    split; intros Hi%Is_true_true; exfalso; apply inside_spec in Hi; cbn in Hi; [lia|].
    apply orb_true_iff in E0 as [E0|E0]; apply Z.eqb_eq in E0; lia. }
  split_if; [done|]. split_if; [done|]. intros _.
  repeat match goal with H : (_ || _) = false |- _ => apply orb_false_iff in H as [? H] end.
  rewrite ?Z.geb_leb, ?Z.gtb_ltb, ?Z.leb_gt, ?Z.ltb_ge, ?Z.eqb_neq in *.
  unfold fits. cbn. rewrite !minimum_min. split_and!; try lia.
  intros px py [Hpx Hpy]. apply eq_bool_prop_intro.
  split; intros Hi%Is_true_true; apply Is_true_true; apply inside_spec in Hi; apply inside_spec; cbn in *; lia.
Qed.

Lemma add_damage_spec s r :
  wf s -> fits s r ->
  wf (add_damage s r) /\ same_shape s (add_damage s r) /\
  forall px py, damaged s px py = true \/ inside r px py = true -> damaged (add_damage s r) px py = true.
Proof.
  intros Hwf Hf. pose proof Hwf as [Ha Hw Hh Hrow Hd]. destruct Hf as (Hx & Hy & Hrw & Hrh & Hfit).
  unfold add_damage. destruct ((rwidth r =? 0) || (rheight r =? 0)) eqn:E0.
  { split_and!; [done|done|]. intros px py [?|Hi]; [done|]. exfalso. apply inside_spec in Hi.
    apply orb_true_iff in E0 as [E0|E0]; apply Z.eqb_eq in E0; lia. }
  apply orb_false_iff in E0 as [E1%Z.eqb_neq E2%Z.eqb_neq].
  destruct (Hfit ltac:(lia) ltac:(lia)) as [Hfx Hfy].
  destruct (pending (damage s)) eqn:Ep; cbn [negb].
  2: { split_and!; [|done|].
       - split; cbn; try done. intros _. unfold fits. cbn. lia.
       - intros px py [Hd'|Hi]; [unfold damaged in Hd'; by rewrite Ep in Hd'|done]. }
  destruct (Hd eq_refl) as ((Dx & Dy & Drw & Drh & Dfit) & Dw & Dh).
  destruct (Dfit Dw Dh) as [Dfx Dfy]. set (d := rectangle (damage s)) in *.
  assert (forall a, 0 <= a <= UINT32_MAX -> u32 a = a) as Hu by (intros; by apply u32_small).
  rewrite !minimum_min, !(Hu (_ + _)) by lia.
  assert ((if r.(x) + r.(rwidth) >? d.(x) + d.(rwidth) then r.(x) + r.(rwidth) else d.(x) + d.(rwidth)) =
    Z.max (d.(x) + d.(rwidth)) (r.(x) + r.(rwidth))) as -> by (split_if; lia).
  assert ((if r.(y) + r.(rheight) >? d.(y) + d.(rheight) then r.(y) + r.(rheight) else d.(y) + d.(rheight)) =
    Z.max (d.(y) + d.(rheight)) (r.(y) + r.(rheight))) as -> by (split_if; lia).
  rewrite !Hu by lia. split_and!; [|done|].
  - split; cbn; try done. intros _. unfold fits. cbn. lia.
  - intros px py Hi. unfold damaged. cbn. apply inside_spec. cbn. unfold damaged in Hi. rewrite Ep in Hi.
    fold d in Hi. rewrite !inside_spec in Hi. cbn in Hi. rewrite inside_spec in Hi. lia.
Qed.

(** ** One rectangle *)

(** [m'] is [m] with the pixels of [r], row by row from its corner, set to [v]. *)
Definition repainted (s : surface) (m m' : mem) (r : surface_rect) (v : Z -> Z -> Z) : Prop :=
  (forall px py, on s px py -> picture s m' px py =
     if inside r px py then v (py - r.(y)) (px - r.(x)) else picture s m px py) /\
  (forall a, off s a -> m' a = m a).

Lemma surface_spots_apart s px py px' py' :
  wf s -> on s px py -> on s px' py' -> (py, px) <> (py', px') -> apart (spot s py px) (spot s py' px').
Proof. intros Hwf [Hx Hy] [Hx' Hy'] Hne. by eapply cells_apart; [exact (wf_row _ Hwf)|..]. Qed.

Lemma repaint s m r ys xs Ry Rx V v :
  wf s -> fits s r -> 0 < r.(rwidth) -> 0 < r.(rheight) ->
  (forall i, i ∈ ys <-> 0 <= i < r.(rheight)) -> (forall i, i ∈ xs <-> 0 <= i < r.(rwidth)) ->
  (forall i, ~ Ry i i) -> (forall i, ~ Rx i i) -> StronglySorted Ry ys -> StronglySorted Rx xs ->
  (forall i j, is_u32 (v i j)) ->
  (forall i j m', 0 <= i < r.(rheight) -> 0 <= j < r.(rwidth) ->
     (forall a, (forall i' j', 0 <= i' < r.(rheight) -> 0 <= j' < r.(rwidth) ->
                   before Ry Rx (i', j') (i, j) ->
                   a < spot s (r.(y) + i') (r.(x) + j') \/ spot s (r.(y) + i') (r.(x) + j') + 4 <= a) ->
        m' a = m a) -> V m' (i, j) = v i j) ->
  repainted s m (foldl (fun m i => foldl (fun m j =>
    store32 m (spot s (r.(y) + i) (r.(x) + j)) (V m (i, j))) m xs) m ys) r v.
Proof.
  intros Hwf (Hx & Hy & _ & _ & Hfit) Hrw Hrh Hys Hxs Iy Ix Sy Sx Hu HV.
  destruct (Hfit Hrw Hrh) as [Hfx Hfy].
  destruct (paint_rect s.(pixels) s.(pitch) s.(width) r.(x) r.(y) ys xs Ry Rx V v m) as [Hin Hout]; try done.
  - apply Hwf.
  - intros c Hc%Hxs. lia.
  - intros i j m' Hi%Hys Hj%Hxs Hm. apply HV; [done|done|]. intros a Ha. apply Hm.
    intros i' j' Hi'%Hys Hj'%Hxs Hb. by apply Ha.
  - split.
    + intros px py Hon. destruct (inside r px py) eqn:E.
      * apply inside_spec in E. specialize (Hin (py - r.(y)) (px - r.(x))).
        rewrite Hys, Hxs in Hin. unfold picture, spot. rewrite <- Hin by lia. f_equal. f_equal; lia.
      * apply inside_false in E. apply load_ext. intros b Hb. apply Hout. intros i j Hi%Hys Hj%Hxs.
        assert (apart (spot s py px) (spot s (y r + i) (x r + j))) as Hap.
        { apply surface_spots_apart; [done|done|unfold on; lia|]. intros [= E1 E2]. lia. }
        unfold apart, spot in *. lia.
    + intros a Ha. apply Hout. intros i j Hi%Hys Hj%Hxs. apply Ha. unfold on. lia.
Qed.

Lemma u32_sum s r i j :
  wf s -> fits s r -> 0 <= i < r.(rheight) -> 0 <= j < r.(rwidth) ->
  u32 (r.(y) + i) = r.(y) + i /\ u32 (r.(x) + j) = r.(x) + j.
Proof.
  intros Hwf (Hx & Hy & _ & _ & Hfit) Hi Hj. destruct (Hfit ltac:(lia) ltac:(lia)).
  pose proof (wf_width _ Hwf). pose proof (wf_height _ Hwf). split; apply u32_small; unfold is_u32; lia.
Qed.

Lemma row_spot s row column : row_at s row + 4 * column = spot s row column.
Proof. done. Qed.

Lemma fill_repaints s m r pixel :
  wf s -> fits s r -> 0 < r.(rwidth) -> 0 < r.(rheight) -> is_u32 pixel ->
  repainted s m (fill_pixels s r pixel m) r (fun _ _ => pixel).
Proof.
  intros Hwf Hf Hw Hh Hp. unfold fill_pixels.
  rewrite (foldl_ext_in _ (fun m i => foldl (fun m j => store32 m (spot s (r.(y) + i) (r.(x) + j)) pixel) m
    (seqZ 0 (rwidth r)))).
  - apply (repaint s m r _ _ Z.lt Z.lt (fun _ _ => pixel) (fun _ _ => pixel)); try done;
      try apply seqZ_sorted; intros; rewrite ?elem_of_seqZ; lia.
  - intros m1 i Hi%elem_of_seqZ. apply foldl_ext_in. intros m2 j Hj%elem_of_seqZ.
    destruct (u32_sum s r i j Hwf Hf ltac:(lia) ltac:(lia)) as [-> ->]. by rewrite row_spot.
Qed.

(** The bytes of a source image and of the surface do not meet. *)
Definition source_apart (s : surface) (source sw sh sp : Z) : Prop :=
  forall row column px py, 0 <= row < sh -> 0 <= column < sw -> on s px py ->
    apart (cell source sp row column) (spot s py px).

Lemma blit_repaints s m r source sp sw sh :
  wf s -> fits s r -> 0 < r.(rwidth) <= sw -> 0 < r.(rheight) <= sh ->
  source_apart s source sw sh sp ->
  repainted s m (blit_pixels s r source sp m) r (fun i j => load32 m (cell source sp i j)).
Proof.
  intros Hwf Hf Hw Hh Hsrc. pose proof Hf as (Hx & Hy & _ & _ & Hfit).
  destruct (Hfit ltac:(lia) ltac:(lia)). unfold blit_pixels.
  rewrite (foldl_ext_in _ (fun m i => foldl (fun m j => store32 m (spot s (r.(y) + i) (r.(x) + j))
    (load32 m (cell source sp i j))) m (seqZ 0 (rwidth r)))).
  - apply (repaint s m r _ _ Z.lt Z.lt (fun m i => load32 m (cell source sp i.1 i.2)));
      try done; try lia; try apply seqZ_sorted; try (intros; rewrite ?elem_of_seqZ; lia).
    + intros. apply load32_u32.
    + intros i j m' Hi Hj Hm. cbn. apply load_ext. intros b Hb. apply Hm. intros i' j' Hi' Hj' _.
      assert (on s (x r + j') (y r + i')) as Hon by (unfold on; lia).
      specialize (Hsrc i j _ _ ltac:(lia) ltac:(lia) Hon). unfold apart in Hsrc. lia.
  - intros m1 i Hi%elem_of_seqZ. apply foldl_ext_in. intros m2 j Hj%elem_of_seqZ.
    destruct (u32_sum s r i j Hwf Hf ltac:(lia) ltac:(lia)) as [-> ->]. by rewrite row_spot.
Qed.

(** The order of the two loops makes every overlap behave as a copy through a
    buffer would. *)
Lemma copy_repaints s m source dx dy w h :
  wf s -> fits s (MkRect dx dy w h) -> fits s (MkRect source.(x) source.(y) w h) -> 0 < w -> 0 < h ->
  repainted s m (copy_pixels s source dx dy w h m) (MkRect dx dy w h)
    (fun i j => picture s m (source.(x) + j) (source.(y) + i)).
Proof.
  intros Hwf Hd Hs Hw Hh. pose proof Hd as (Dx & Dy & _ & _ & Dfit). pose proof Hs as (Sx & Sy & _ & _ & Sfit).
  cbn in *. destruct (Dfit Hw Hh) as [Dfx Dfy], (Sfit Hw Hh) as [Sfx Sfy].
  assert (forall rows columns m0, (forall i, i ∈ rows -> 0 <= i < h) -> (forall j, j ∈ columns -> 0 <= j < w) ->
    foldl (copy_row s source dx dy columns) m0 rows =
    foldl (fun m i => foldl (fun m j => store32 m (spot s (dy + i) (dx + j))
      (picture s m (source.(x) + j) (source.(y) + i))) m columns) m0 rows) as Erows.
  { intros rows columns m0 Hr Hc. apply foldl_ext_in. intros m1 i Hi%Hr. unfold copy_row.
    apply foldl_ext_in. intros m2 j Hj%Hc.
    destruct (u32_sum s (MkRect dx dy w h) i j Hwf Hd) as [E1 E2]; [done|done|].
    destruct (u32_sum s (MkRect source.(x) source.(y) w h) i j Hwf Hs) as [E3 E4]; [done|done|].
    cbn in E1, E2, E3, E4. by rewrite E1, E2, E3, E4, !row_spot. }
  assert (forall rows columns Ry Rx,
    (forall i, i ∈ rows <-> 0 <= i < h) -> (forall j, j ∈ columns <-> 0 <= j < w) ->
    (forall i, ~ Ry i i) -> (forall j, ~ Rx j j) -> StronglySorted Ry rows -> StronglySorted Rx columns ->
    (forall i j, ~ before Ry Rx (source.(y) + i - dy, source.(x) + j - dx) (i, j)) ->
    repainted s m (foldl (copy_row s source dx dy columns) m rows) (MkRect dx dy w h)
      (fun i j => picture s m (source.(x) + j) (source.(y) + i))) as Hgo.
  { intros rows columns Ry Rx Hr Hc Iy Ix SRy SRx Hnb. rewrite Erows by (intros; by apply Hr || by apply Hc).
    apply (repaint s m (MkRect dx dy w h) rows columns Ry Rx
      (fun m i => picture s m (source.(x) + i.2) (source.(y) + i.1))); try done.
    - intros. apply load32_u32.
    - intros i j m' Hi Hj Hm. cbn in *. apply load_ext. intros b Hb. apply Hm. intros i' j' Hi' Hj' Hbef.
      assert (apart (spot s (source.(y) + i) (source.(x) + j)) (spot s (dy + i') (dx + j'))) as Hap.
      { apply surface_spots_apart; [done|unfold on; lia..|]. intros [= E1 E2]. apply (Hnb i j).
        replace (source.(y) + i - dy) with i' by lia. by replace (source.(x) + j - dx) with j' by lia. }
      unfold apart in Hap. lia. }
  assert (forall n i, i ∈ seqZ 0 n <-> 0 <= i < n) as Hup by (intros; rewrite elem_of_seqZ; lia).
  assert (forall n i, i ∈ reverse (seqZ 0 n) <-> 0 <= i < n) as Hdown
    by (intros; rewrite elem_of_reverse, elem_of_seqZ; lia).
  unfold copy_pixels. destruct (dy >? source.(y)) eqn:E1; rewrite Z.gtb_ltb in E1; bool_hyps.
  - apply (Hgo _ _ Z.gt Z.lt); try done; try apply reverse_seqZ_sorted; try apply seqZ_sorted; try (intros; lia).
    intros i j [Hb|[Hb _]]; cbn in Hb; lia.
  - destruct ((dy =? source.(y)) && (dx >? source.(x))) eqn:E2; rewrite Z.gtb_ltb in E2; bool_hyps.
    + apply (Hgo _ _ Z.lt Z.gt); try done; try apply reverse_seqZ_sorted; try apply seqZ_sorted; try (intros; lia).
      intros i j [Hb|[Hb Hb2]]; cbn in *; lia.
    + apply (Hgo _ _ Z.lt Z.lt); try done; try apply seqZ_sorted; try (intros; lia).
      intros i j [Hb|[Hb Hb2]]; cbn in *; [lia|].
      destruct E2 as [E2|E2]; [apply Z.eqb_neq in E2|apply Z.ltb_ge in E2]; lia.
Qed.

(** * Drawing against a reference *)

Inductive drawing : Type :=
| Fill (r : surface_rect) (pixel : Z)
| Blit (dx dy source sw sh sp : Z)
| Copy (source : surface_rect) (dx dy : Z)
| Plot (px py pixel : Z).

Definition perform (d : drawing) (s : option surface) (m : mem) : surface_status * option surface * mem :=
  match d with
  | Fill r pixel => surface_fill_rect s r pixel m
  | Blit dx dy source sw sh sp => surface_blit s dx dy source sw sh sp m
  | Copy source dx dy => surface_copy_rect s source dx dy m
  | Plot px py pixel => surface_pixel s px py pixel m
  end.

(** Arguments of their C types; an image to copy from that is not the surface. *)
Definition valid (s : surface) (d : drawing) : Prop :=
  match d with
  | Fill r pixel => is_rect r /\ is_u32 pixel
  | Blit dx dy source sw sh sp => is_rect (MkRect dx dy sw sh) /\ source_apart s source sw sh sp
  | Copy source dx dy => is_rect source /\ is_u32 dx /\ is_u32 dy
  | Plot px py pixel => is_u32 px /\ is_u32 py /\ is_u32 pixel
  end.

(** What a call asks for can be drawn: an empty rectangle, or one with its
    corner on the surface whose far corner does not wrap. *)
Definition drawable_rect (s : surface) (r : surface_rect) : bool :=
  (r.(rwidth) =? 0) || (r.(rheight) =? 0) ||
  (r.(x) <? s.(width)) && (r.(y) <? s.(height)) &&
  (r.(x) + r.(rwidth) <=? UINT32_MAX) && (r.(y) + r.(rheight) <=? UINT32_MAX).

Definition drawable (s : surface) (d : drawing) : bool :=
  match d with
  | Fill r _ => drawable_rect s r
  | Blit dx dy source sw sh sp =>
      negb (source =? 0) &&
      ((sw =? 0) || (sh =? 0) ||
       (4 * sw <=? UINT32_MAX) && (4 * sw <=? sp) && (sp mod 4 =? 0) &&
       drawable_rect s (MkRect dx dy sw sh))
  | Copy r dx dy => drawable_rect s r && drawable_rect s (MkRect dx dy r.(rwidth) r.(rheight))
  | Plot px py _ => (px <? s.(width)) && (py <? s.(height))
  end.

(** The picture a call is to leave of the picture [P] of a [w] by [h] surface;
    [image] is the picture a blit copies. *)
Definition reference (w h : Z) (image : Z -> Z -> Z) (d : drawing) (P : Z -> Z -> Z) (px py : Z) : Z :=
  match d with
  | Fill r pixel => if inside r px py then pixel else P px py
  | Blit dx dy _ sw sh _ => if inside (MkRect dx dy sw sh) px py then image (py - dy) (px - dx) else P px py
  | Copy r dx dy =>
      let sx := r.(x) + (px - dx) in
      let sy := r.(y) + (py - dy) in
      if inside (MkRect dx dy r.(rwidth) r.(rheight)) px py && (sx <? w) && (sy <? h) then P sx sy
      else P px py
  | Plot x' y' pixel => if (px =? x') && (py =? y') then pixel else P px py
  end.

(** The image in memory a blit reads. *)
Definition image (m : mem) (d : drawing) (row column : Z) : Z :=
  match d with Blit _ _ source _ _ sp => load32 m (cell source sp row column) | _ => 0 end.

Definition drawn (s : surface) (m : mem) (d : drawing) : Z -> Z -> Z :=
  reference s.(width) s.(height) (image m d) d (picture s m).

Lemma clip_status s r :
  is_rect r -> (clip_rectangle s r).1 = SURFACE_STATUS_OK <-> drawable_rect s r = true.
Proof.
  intros (Hx & Hy & Hw & Hh). unfold clip_rectangle, drawable_rect.
  destruct ((rwidth r =? 0) || (rheight r =? 0)); [done|]. cbn [orb].
  rewrite !andb_true_iff, !Z.ltb_lt, !Z.leb_le, !Z.geb_leb, !Z.gtb_ltb.
  split_if; [split; [done|]|split_if; [split; [done|]|split; [|done]]];
    repeat match goal with
    | H : (_ || _) = false |- _ => apply orb_false_iff in H as [? H]
    | H : (_ || _) = true |- _ => apply orb_true_iff in H as [H|H]
    end; rewrite ?Z.leb_le, ?Z.ltb_lt, ?Z.leb_gt, ?Z.ltb_ge in *; lia.
Qed.

(** What a drawing call leaves: its picture on the surface, nothing else
    changed, every changed pixel damaged. *)
Record painted (s : surface) (m : mem) (s' : surface) (m' : mem) (P : Z -> Z -> Z) : Prop := {
  pa_wf : wf s';
  pa_shape : same_shape s s';
  pa_picture : forall px py, on s px py -> picture s' m' px py = P px py;
  pa_off : forall a, off s a -> m' a = m a;
  pa_kept : forall px py, damaged s px py = true -> damaged s' px py = true;
  pa_damage : forall px py, on s px py -> picture s' m' px py <> picture s m px py ->
    damaged s' px py = true
}.

Lemma painted_same s m P :
  wf s -> (forall px py, on s px py -> P px py = picture s m px py) -> painted s m s m P.
Proof. intros Hwf HP. split; try done. intros px py Hon. by rewrite HP. Qed.

Lemma picture_shape s s' m px py : same_shape s s' -> picture s' m px py = picture s m px py.
Proof. intros (_ & _ & Ep & Ex). unfold picture, spot. by rewrite Ep, Ex. Qed.

Lemma painted_rect s m m' r v P :
  wf s -> fits s r -> repainted s m m' r v ->
  (forall px py, on s px py -> P px py =
     if inside r px py then v (py - r.(y)) (px - r.(x)) else picture s m px py) ->
  painted s m (add_damage s r) m' P.
Proof.
  intros Hwf Hf [Hp Ho] HP. destruct (add_damage_spec s r Hwf Hf) as (Hwf' & Hsh & Hd).
  split; try done.
  - intros px py Hon. by rewrite (picture_shape s _ m' px py Hsh), Hp, HP.
  - intros px py Hi. apply Hd. by left.
  - intros px py Hon Hne. apply Hd. right. rewrite (picture_shape s _ m' px py Hsh), Hp in Hne by done.
    by destruct (inside r px py).
Qed.

(** The outcome of a call that asks for [d]. *)
Definition draws (d : drawing) (s : surface) (m : mem) (r : surface_status * option surface * mem) : Prop :=
  exists st s' m', r = (st, Some s', m') /\
  (st = SURFACE_STATUS_OK <-> drawable s d = true) /\
  (st <> SURFACE_STATUS_OK -> s' = s /\ m' = m) /\
  (st = SURFACE_STATUS_OK -> painted s m s' m' (drawn s m d)).

Lemma empty_inside r px py : r.(rwidth) = 0 \/ r.(rheight) = 0 -> inside r px py = false.
Proof. intros He. apply inside_false. lia. Qed.

Lemma fill_draws s m r pixel :
  wf s -> valid s (Fill r pixel) -> draws (Fill r pixel) s m (surface_fill_rect (Some s) r pixel m).
Proof.
  intros Hwf [Hr Hp]. unfold draws, surface_fill_rect, guarded. rewrite (wf_active _ Hwf). cbn [negb].
  pose proof (clip_spec s r Hwf Hr) as Hc. pose proof (clip_status s r Hr) as Hst.
  destruct (clip_rectangle s r) as [st c]. cbn in Hst. cbn [drawable].
  destruct (decide (st = SURFACE_STATUS_OK)) as [->|Hne]; cycle 1.
  { rewrite bool_decide_false by done. cbn [negb orb]. by eexists _, _, _. }
  destruct (Hc eq_refl) as (Hf & Ex & Ey & _ & _ & (_ & _ & Hcw & Hch) & Hi & _).
  rewrite bool_decide_true by done. cbn [negb orb]. unfold is_u32 in Hcw, Hch.
  destruct ((rwidth c =? 0) || (rheight c =? 0)) eqn:E0.
  - eexists _, _, _. split_and!; [done|done|done|]. intros _. apply painted_same; [done|].
    intros px py Hon. cbn. rewrite <- Hi, empty_inside by done || (apply orb_true_iff in E0; rewrite !Z.eqb_eq in E0; done).
    done.
  - apply orb_false_iff in E0 as [E1%Z.eqb_neq E2%Z.eqb_neq].
    eexists _, _, _. split_and!; [done|done|done|]. intros _.
    eapply painted_rect; [done|done|apply fill_repaints; (done || lia)|].
    intros px py Hon. cbn. by rewrite Hi.
Qed.

Lemma plot_draws s m px py pixel :
  wf s -> valid s (Plot px py pixel) -> draws (Plot px py pixel) s m (surface_pixel (Some s) px py pixel m).
Proof.
  intros Hwf (Hx & Hy & Hp). unfold draws, surface_pixel, guarded. rewrite (wf_active _ Hwf). cbn [negb drawable].
  unfold is_u32 in Hx, Hy. rewrite !Z.geb_leb. destruct ((width s <=? px) || (height s <=? py)) eqn:E.
  - eexists _, _, _. split_and!; [done| |done|done]. split; [done|]. rewrite andb_true_iff, !Z.ltb_lt.
    rewrite orb_true_iff, !Z.leb_le in E. lia.
  - rewrite orb_false_iff, !Z.leb_gt in E. eexists _, _, _. split_and!; [done| |done|].
    + split; [|done]. intros _. rewrite andb_true_iff, !Z.ltb_lt. lia.
    + intros _. eapply (painted_rect s m _ (MkRect px py 1 1) (fun _ _ => pixel)); [done| | |].
      * unfold fits. cbn. lia.
      * rewrite row_spot. split.
        -- intros qx qy Hon. destruct (inside _ qx qy) eqn:Ei.
           ++ apply inside_spec in Ei. cbn in Ei. assert (qx = px /\ qy = py) as [-> ->] by lia.
              by apply load_store_same.
           ++ apply load_store_apart. apply surface_spots_apart; [done|unfold on; lia|done|].
              intros [= -> ->]. apply inside_false in Ei. cbn in Ei. lia.
        -- intros a Ha. apply store32_out, Ha. unfold on. lia.
      * intros qx qy _. cbn. assert (((qx =? px) && (qy =? py)) = inside (MkRect px py 1 1) qx qy) as ->; [|done].
        apply eq_bool_prop_intro. rewrite !Is_true_true, inside_spec, andb_true_iff, !Z.eqb_eq. cbn. lia.
Qed.

Lemma blit_draws s m dx dy source sw sh sp :
  wf s -> valid s (Blit dx dy source sw sh sp) ->
  draws (Blit dx dy source sw sh sp) s m (surface_blit (Some s) dx dy source sw sh sp m).
Proof.
  intros Hwf [Hr Hsrc]. unfold draws, surface_blit, guarded. rewrite (wf_active _ Hwf). cbn [negb drawable].
  destruct (source =? 0); [by eexists _, _, _|]. cbn [negb andb].
  destruct ((sw =? 0) || (sh =? 0)) eqn:E0.
  { eexists _, _, _. split_and!; [done|done|done|]. intros _. apply painted_same; [done|].
    intros px py Hon. cbn. rewrite empty_inside; [done|]. cbn. by rewrite orb_true_iff, !Z.eqb_eq in E0. }
  cbn [orb]. rewrite orb_false_iff, !Z.eqb_neq in E0.
  assert (((sw >? UINT32_MAX / SURFACE_BYTES_PER_PIXEL) || (sp <? sw * SURFACE_BYTES_PER_PIXEL) ||
    negb (sp mod SURFACE_BYTES_PER_PIXEL =? 0)) =
    negb ((4 * sw <=? UINT32_MAX) && (4 * sw <=? sp) && (sp mod 4 =? 0))) as ->.
  { rewrite !negb_andb. f_equal. f_equal.
    - rewrite Z.gtb_ltb. change (UINT32_MAX / SURFACE_BYTES_PER_PIXEL) with 1073741823. unfold UINT32_MAX.
      destruct (Z.ltb_spec 1073741823 sw), (Z.leb_spec (4 * sw) 4294967295); try done; lia.
    - rewrite <- Z.ltb_antisym. unfold SURFACE_BYTES_PER_PIXEL. f_equal. lia. }
  destruct ((4 * sw <=? UINT32_MAX) && (4 * sw <=? sp) && (sp mod 4 =? 0)); cbn [negb andb]; [|by eexists _, _, _].
  pose proof (clip_spec s _ Hwf Hr) as Hc. pose proof (clip_status s _ Hr) as Hst.
  destruct (clip_rectangle s _) as [st c]. cbn in Hst.
  destruct (decide (st = SURFACE_STATUS_OK)) as [->|Hne]; cycle 1.
  { rewrite bool_decide_false by done. cbn [negb orb]. by eexists _, _, _. }
  destruct (Hc eq_refl) as (Hf & Ex & Ey & Hw & Hh & _ & Hi & _). cbn in Ex, Ey, Hw, Hh.
  rewrite bool_decide_true by done. cbn [negb orb].
  pose proof Hf as (_ & _ & Hcw & Hch & _). destruct Hr as (_ & _ & Hsw & Hsh). unfold is_u32 in Hsw, Hsh. cbn in Hsw, Hsh.
  eexists _, _, _. split_and!; [done|done|done|]. intros _.
  eapply painted_rect; [done|done| |].
  - destruct (decide (0 < rwidth c /\ 0 < rheight c)) as [[H1 H2]|Hz].
    + apply (blit_repaints s m c source sp sw sh); (done || lia).
    + assert (blit_pixels s c source sp m = m) as ->.
      { unfold blit_pixels. destruct (decide (rheight c = 0)) as [->|]; [done|].
        assert (rwidth c = 0) as -> by lia. cbn. generalize (seqZ 0 (rheight c)). induction l; done. }
      split; [|done]. intros px py _. by rewrite empty_inside by lia.
  - intros px py Hon. cbn. by rewrite Hi, Ex, Ey.
Qed.

Lemma copy_draws s m r dx dy :
  wf s -> valid s (Copy r dx dy) -> draws (Copy r dx dy) s m (surface_copy_rect (Some s) r dx dy m).
Proof.
  intros Hwf (Hr & Hdx & Hdy). unfold draws, surface_copy_rect, guarded. rewrite (wf_active _ Hwf).
  cbn [negb drawable].
  assert (is_rect (MkRect dx dy (rwidth r) (rheight r))) as Hd by (destruct Hr as (_ & _ & ? & ?); by split_and!).
  pose proof (clip_spec s r Hwf Hr) as Hc. pose proof (clip_status s r Hr) as Hst.
  destruct (clip_rectangle s r) as [st c]. cbn in Hst.
  destruct (decide (st = SURFACE_STATUS_OK)) as [->|Hne]; cycle 1.
  { rewrite bool_decide_false by done. cbn [negb orb]. eexists _, _, _. split_and!; [done| |done|done].
    rewrite andb_true_iff. tauto. }
  rewrite bool_decide_true by done. cbn [negb orb].
  destruct (Hc eq_refl) as (Hf & Ex & Ey & _ & _ & (_ & _ & Hcw & Hch) & Hi & Hmin).
  pose proof Hr as (Hrx & Hry & Hrw & Hrh). unfold is_u32 in *. rewrite (proj1 Hst eq_refl). cbn [andb].
  destruct (decide (rwidth r = 0 \/ rheight r = 0)) as [He|He].
  { assert ((rwidth c =? 0) || (rheight c =? 0) = true) as ->.
    { apply orb_true_iff. rewrite !Z.eqb_eq. destruct (Hc eq_refl) as (_ & _ & _ & ? & ? & _). lia. }
    eexists _, _, _. split_and!; [done| |done|].
    - split; [|done]. intros _. unfold drawable_rect. cbn. apply orb_true_iff. left. by rewrite orb_true_iff, !Z.eqb_eq.
    - intros _. apply painted_same; [done|]. intros px py Hon. cbn. by rewrite (empty_inside (MkRect _ _ _ _)). }
  destruct (Hmin ltac:(lia) ltac:(lia)) as (Hlx & Hly & Ecw & Ech).
  rewrite (proj2 (Z.eqb_neq (rwidth c) 0)), (proj2 (Z.eqb_neq (rheight c) 0)) by lia. cbn [orb].
  pose proof (clip_spec s _ Hwf Hd) as Hc2. pose proof (clip_status s _ Hd) as Hst2.
  destruct (clip_rectangle s (MkRect _ _ _ _)) as [st2 c2]. cbn in Hst2.
  destruct (decide (st2 = SURFACE_STATUS_OK)) as [->|Hne]; cycle 1.
  { rewrite bool_decide_false by done. by eexists _, _, _. }
  rewrite bool_decide_true by done. cbn [negb].
  destruct (Hc2 eq_refl) as (_ & _ & _ & _ & _ & _ & _ & Hmin2). cbn in Hmin2.
  destruct (Hmin2 ltac:(lia) ltac:(lia)) as (Hlx2 & Hly2 & Ecw2 & Ech2).
  rewrite !minimum_min, Ecw, Ech, Ecw2, Ech2. eexists _, _, _. split_and!; [done|done|done|]. intros _.
  set (cw := Z.min _ _). set (ch := Z.min _ _).
  assert (0 < cw /\ 0 < ch) as [Hcw0 Hch0] by (unfold cw, ch; lia).
  eapply painted_rect; [done| |apply copy_repaints|]; try done; try (unfold fits, cw, ch; cbn; lia).
  intros px py [Hpx Hpy]. cbn. unfold picture.
  assert (inside (MkRect dx dy (rwidth r) (rheight r)) px py && (x r + (px - dx) <? width s) &&
    (y r + (py - dy) <? height s) = inside (MkRect dx dy cw ch) px py) as ->; [|done].
  apply eq_bool_prop_intro. rewrite !Is_true_true, !andb_true_iff, !inside_spec, !Z.ltb_lt. unfold cw, ch. cbn. lia.
Qed.

Lemma perform_draws d s m : wf s -> valid s d -> draws d s m (perform d (Some s) m).
Proof.
  destruct d; [apply fill_draws|apply blit_draws|apply copy_draws|apply plot_draws].
Qed.

(** * Presenting *)

(** The framebuffer is as large as the surface and shares no byte with it. *)
Record screen (s : surface) (fb : Framebuffer.framebuffer_state) : Prop := {
  sc_geometry : Framebuffer.geometry fb;
  sc_width : fb.(Framebuffer.width) = s.(width);
  sc_height : fb.(Framebuffer.height) = s.(height);
  sc_apart : forall px py qx qy, on s px py -> on s qx qy ->
    apart (Framebuffer.spot fb py px) (spot s qy qx)
}.

Lemma copied_area r : 0 <= r.(rwidth) -> 0 <= r.(rheight) -> r.(rwidth) * r.(rheight) <= UINT64_MAX ->
  copied_pixels r = r.(rwidth) * r.(rheight).
Proof.
  intros Hw Hh Hm. unfold copied_pixels.
  assert (forall n c, 0 <= n -> 0 <= c -> c + n <= UINT64_MAX ->
    foldl (fun c _ => u64 (c + 1)) c (seqZ 0 n) = c + n) as Hrow.
  { intros n c Hn. revert c. pattern n. apply natlike_ind; [intros c _ _; change (c = c + 0); lia| |done].
    clear n Hn. intros n Hn IH c Hc Hmax. rewrite <- Z.add_1_r, seqZ_app, foldl_app, IH by lia.
    rewrite (seqZ_cons _ 1), (seqZ_nil (Z.succ _)) by lia. cbn [foldl]. rewrite u64_small by (unfold is_u64; lia). lia. }
  revert Hm. pattern (rheight r). apply natlike_ind; [intros _; change (0 = rwidth r * 0); lia| |done].
  intros n Hn IH Hm. rewrite <- Z.add_1_r, seqZ_app, foldl_app, IH by nia.
  rewrite (seqZ_cons _ 1), (seqZ_nil (Z.succ _)) by lia. cbn [foldl]. rewrite Hrow by nia. lia.
Qed.

Lemma present_copies s fb m d :
  wf s -> screen s fb -> fits s d -> 0 < d.(rwidth) -> 0 < d.(rheight) ->
  let m' := present_pixels s fb d m in
  (forall px py, on s px py -> Framebuffer.shown fb m' px py =
     if inside d px py then picture s m px py else Framebuffer.shown fb m px py) /\
  (forall a, (forall px py, on s px py -> inside d px py = true ->
      a < Framebuffer.spot fb py px \/ Framebuffer.spot fb py px + 4 <= a) -> m' a = m a).
Proof.
  intros Hwf Hsc Hf Hw Hh. pose proof Hf as (Hx & Hy & _ & _ & Hfit). destruct (Hfit Hw Hh) as [Hfx Hfy].
  pose proof (sc_geometry _ _ Hsc) as Hg. cbn. unfold present_pixels.
  rewrite (foldl_ext_in _ (fun m i => foldl (fun m j =>
    store32 m (cell fb.(Framebuffer.address) fb.(Framebuffer.pitch) (d.(y) + i) (d.(x) + j))
      (picture s m (d.(x) + j) (d.(y) + i))) m (seqZ 0 (rwidth d)))).
  2: { intros m1 i Hi%elem_of_seqZ. apply foldl_ext_in. intros m2 j Hj%elem_of_seqZ.
       destruct (u32_sum s d i j Hwf Hf ltac:(lia) ltac:(lia)) as [-> ->]. rewrite row_spot.
       assert (0 <= y d + i < Framebuffer.height fb) as Hrow by (rewrite (sc_height _ _ Hsc); lia).
       pose proof (Framebuffer.row_start fb (y d + i) (x d + j) Hg Hrow) as E.
       unfold Framebuffer.pixel_at, Framebuffer.pixel_offset in E. rewrite Z.mul_0_l, Z.add_0_r in E.
       unfold Framebuffer.spot in E. rewrite <- E. f_equal. lia. }
  destruct (paint_rect fb.(Framebuffer.address) fb.(Framebuffer.pitch) s.(width) d.(x) d.(y)
    (seqZ 0 (rheight d)) (seqZ 0 (rwidth d)) Z.lt Z.lt (fun m i => picture s m (d.(x) + i.2) (d.(y) + i.1))
    (fun i j => picture s m (d.(x) + j) (d.(y) + i)) m) as [Hin Hout]; try (intros; lia); try apply seqZ_sorted.
  - rewrite <- (sc_width _ _ Hsc). apply Hg.
  - intros j Hj%elem_of_seqZ. lia.
  - intros. apply load32_u32.
  - intros i j m' Hi%elem_of_seqZ Hj%elem_of_seqZ Hm. cbn. apply load_ext. intros b Hb. apply Hm.
    intros i' j' Hi'%elem_of_seqZ Hj'%elem_of_seqZ _.
    assert (apart (Framebuffer.spot fb (y d + i') (x d + j')) (spot s (y d + i) (x d + j))) as Hap
      by (apply (sc_apart _ _ Hsc); unfold on; lia).
    unfold apart, Framebuffer.spot in Hap. lia.
  - split.
    + intros px py [Hpx Hpy]. destruct (inside d px py) eqn:E.
      * apply inside_spec in E. specialize (Hin (py - d.(y)) (px - d.(x))). rewrite !elem_of_seqZ in Hin.
        unfold Framebuffer.shown, Framebuffer.spot.
        replace py with (d.(y) + (py - d.(y))) at 1 2 by lia. replace px with (d.(x) + (px - d.(x))) at 1 2 by lia.
        apply Hin; lia.
      * apply inside_false in E. apply load_ext. intros b Hb. apply Hout.
        intros i j Hi%elem_of_seqZ Hj%elem_of_seqZ.
        assert (apart (Framebuffer.spot fb py px) (Framebuffer.spot fb (y d + i) (x d + j))) as Hap.
        { apply Framebuffer.spots_apart; [done|unfold Framebuffer.on_picture..|];
            rewrite ?(sc_width _ _ Hsc), ?(sc_height _ _ Hsc); [lia|lia|]. intros [= E1 E2]. lia. }
        unfold apart, Framebuffer.spot in *. lia.
    + intros a Ha. apply Hout. intros i j Hi%elem_of_seqZ Hj%elem_of_seqZ. apply Ha.
      * unfold on. lia.
      * apply inside_spec. lia.
Qed.

(** The concrete surface and framebuffer stand for the picture [P] and the
    screen [S], and outside the damage the two agree. *)
Record shows (fb : Framebuffer.framebuffer_state) (s : surface) (m : mem) (P S : Z -> Z -> Z) : Prop := {
  sh_wf : wf s;
  sh_screen : screen s fb;
  sh_picture : forall px py, on s px py -> picture s m px py = P px py;
  sh_shown : forall px py, on s px py -> Framebuffer.shown fb m px py = S px py;
  sh_synced : forall px py, on s px py -> damaged s px py = false -> S px py = P px py
}.

Lemma screen_shape s s' fb : same_shape s s' -> screen s fb -> screen s' fb.
Proof.
  intros (Ew & Eh & Ep & Ex) [Hg Hw Hh Ha]. split; [done|congruence|congruence|].
  intros px py qx qy Hp Hq. unfold on, spot in *. rewrite Ew, Eh in *. rewrite Ep, Ex. by apply Ha.
Qed.

Lemma reference_ext w h img d P Q px py :
  (forall qx qy, 0 <= qx < w -> 0 <= qy < h -> P qx qy = Q qx qy) ->
  match d with Copy r _ _ => is_rect r | _ => True end ->
  0 <= px < w -> 0 <= py < h -> reference w h img d P px py = reference w h img d Q px py.
Proof.
  intros HPQ Hr Hx Hy. destruct d as [r v|dx dy src sw sh sp|r dx dy|qx qy v]; cbn.
  - destruct (inside r px py); auto.
  - destruct (inside _ px py); auto.
  - destruct (inside (MkRect dx dy _ _) px py && _ && _) eqn:E; [|auto].
    rewrite !andb_true_iff, inside_spec, !Z.ltb_lt in E. cbn in E. destruct Hr as (Hrx & Hry & _).
    unfold is_u32 in *. apply HPQ; lia.
  - destruct (_ && _); auto.
Qed.

(** * Properties *)

(** C24 (functional): every drawing call does what it says.  On an initialized
    surface a fill, a blit, a copy inside the surface or a single pixel succeeds
    exactly when its rectangles are empty or have their corner on the surface
    without wrapping; a refused call changes nothing.  A successful call leaves
    the visible part of what the reference picture asks for - a copy behaves as
    if through a buffer, whichever way source and destination overlap - changes
    no byte that is not a pixel of the surface, padding included, and every
    pixel it changed is inside the damage rectangle, which stays on the surface. *)
Theorem surface_draw_exact d s m :
  wf s -> valid s d ->
  exists st s' m', perform d (Some s) m = (st, Some s', m') /\
  (st = SURFACE_STATUS_OK <-> drawable s d = true) /\
  (st <> SURFACE_STATUS_OK -> s' = s /\ m' = m) /\
  (st = SURFACE_STATUS_OK ->
     wf s' /\ same_shape s s' /\
     (forall px py, on s px py -> picture s' m' px py =
        reference s.(width) s.(height) (image m d) d (picture s m) px py) /\
     (forall a, off s a -> m' a = m a) /\
     (forall px py, on s px py -> picture s' m' px py <> picture s m px py -> damaged s' px py = true)).
Proof.
  intros Hwf Hv. destruct (perform_draws d s m Hwf Hv) as (st & s' & m' & E & Hst & Hbad & Hok).
  exists st, s', m'. refine (conj E (conj Hst (conj Hbad _))). intros Es. by destruct (Hok Es).
Qed.

(** C23 (refinement): presenting only the damage is presenting the picture.  The
    surface and the framebuffer implement a machine with a picture and a screen:
    a drawing call that succeeds changes the picture as the reference says and
    leaves the screen, one that is refused changes neither, and surface_present
    always succeeds, makes the screen the whole picture, and copies exactly the
    pixels of the damage rectangle. *)
Theorem surface_present_refines fb s m P S :
  shows fb s m P S ->
  (forall d, valid s d -> exists st s' m', perform d (Some s) m = (st, Some s', m') /\
     (st = SURFACE_STATUS_OK <-> drawable s d = true) /\
     shows fb s' m' (if drawable s d then reference s.(width) s.(height) (image m d) d P else P) S) /\
  (exists s' m', surface_present (Some s) fb m = (SURFACE_STATUS_OK, Some s', m') /\
     shows fb s' m' P P /\ damaged s' = (fun _ _ => false) /\
     s'.(last_present_pixels) = if s.(damage).(pending)
       then s.(damage).(rectangle).(rwidth) * s.(damage).(rectangle).(rheight) else 0).
Proof.
  intros [Hwf Hsc HP HS Hsy]. split.
  - intros d Hv. destruct (perform_draws d s m Hwf Hv) as (st & s' & m' & E & Hst & Hbad & Hok).
    exists st, s', m'. refine (conj E (conj Hst _)).
    destruct (drawable s d) eqn:Ed; cycle 1.
    { destruct Hbad as [-> ->]; [by intros ?%Hst|]. by split. }
    destruct (Hok (proj2 Hst eq_refl)) as [Hwf' Hsh Hpic Hoff Hkept Hdam].
    assert (forall px py, on s px py -> Framebuffer.shown fb m' px py = S px py) as HS'.
    { intros px py Hon. rewrite <- HS by done. apply load_ext. intros b Hb. apply Hoff. intros qx qy Hq.
      pose proof (sc_apart _ _ Hsc px py qx qy Hon Hq) as Ha. unfold apart in Ha. lia. }
    destruct Hsh as (Ew & Eh & Ep & Ex).
    assert (forall px py, on s' px py -> on s px py) as Hons by (unfold on; by rewrite Ew, Eh).
    assert (forall px py, on s px py -> picture s' m' px py =
      reference s.(width) s.(height) (image m d) d P px py) as HP'.
    { intros px py Hon. rewrite Hpic by done. unfold drawn.
      apply reference_ext; [intros; by apply HP| |apply Hon|apply Hon]. destruct d; try done. apply Hv. }
    split; [done|by apply (screen_shape s)|by intros; apply HP', Hons|by intros; apply HS', Hons|].
    intros px py Hon%Hons Hnd. rewrite <- HP' by done.
    destruct (decide (picture s' m' px py = picture s m px py)) as [->|Hne];
      [|by rewrite (Hdam px py Hon Hne) in Hnd].
    rewrite HP by done. apply Hsy; [done|]. apply not_true_iff_false. intros ?%Hkept. congruence.
  - unfold surface_present, guarded. rewrite (wf_active _ Hwf). cbn [negb].
    unfold Framebuffer.framebuffer_is_active. rewrite (Framebuffer.ge_active _ (sc_geometry _ _ Hsc)). cbn [negb].
    rewrite (sc_width _ _ Hsc), (sc_height _ _ Hsc), !Z.eqb_refl. cbn [negb orb].
    destruct (pending (damage s)) eqn:Ep; cbn [negb]; cycle 1.
    { assert (damaged s = fun _ _ => false) as Hno by (unfold damaged; by rewrite Ep).
      eexists _, _. split_and!; [done| |done|done].
      split; [by destruct Hwf|by apply (screen_shape s)|done| |done].
      intros px py Hon. rewrite HS by done. apply Hsy; [done|by rewrite Hno]. }
    destruct (wf_damage _ Hwf Ep) as (Hf & Hw & Hh). set (d := rectangle (damage s)) in *.
    destruct (present_copies s fb m d Hwf Hsc Hf Hw Hh) as [Hin Hout].
    pose proof Hf as (Hx & Hy & _ & _ & Hfit). destruct (Hfit Hw Hh) as [Hfx Hfy].
    pose proof (wf_width _ Hwf). pose proof (wf_height _ Hwf).
    eexists _, _. split_and!; [done| |done|].
    + assert (forall px py, on s px py -> picture s (present_pixels s fb d m) px py = P px py) as HP'.
      { intros px py Hon. rewrite <- HP by done. apply load_ext. intros b Hb. apply Hout. intros qx qy Hq _.
        pose proof (sc_apart _ _ Hsc qx qy px py Hq Hon) as Ha. unfold apart in Ha. lia. }
      split; [by destruct Hwf|by apply (screen_shape s)|exact HP'| |done].
      intros px py Hon. rewrite Hin by done. destruct (inside d px py) eqn:Ei; [by apply HP|].
      rewrite HS by done. apply Hsy; [done|]. unfold damaged. fold d. by rewrite Ep, Ei.
    + cbn. apply copied_area; [lia|lia|]. unfold UINT64_MAX, UINT32_MAX in *. nia.
Qed.

(** ** The buffer *)

Section buffer.
Context {M : Type} `{Heap.PlatformLaws M}.

(** What a heap allocation that succeeds is. *)
Lemma allocation_spec (heap : Heap.heap) (m : M) sz ptr heap' m' :
  Heap.reachable heap m -> is_u64 sz ->
  Heap.heap_allocate sz true heap m = (Heap.HEAP_STATUS_OK, ptr, heap', m') ->
  exists p heap2, ptr = Some p /\ Heap.HEAP_BASE <= p /\
    p + sz <= Heap.HEAP_BASE + heap'.(Heap.state).(Heap.committed_bytes) /\
    heap'.(Heap.state).(Heap.active) = true /\ Heap.reachable heap' m' /\
    0 <= heap'.(Heap.state).(Heap.committed_bytes) <= Heap.HEAP_SIZE /\
    Heap.heap_free p heap' = (Heap.HEAP_STATUS_OK, heap2) /\ Heap.heap_used heap2 = Heap.heap_used heap.
Proof.
  intros Hr Hsz E. pose proof (Heap.reachable_inv heap m Hr) as Hi.
  pose proof (Heap.heap_allocate_spec sz heap m Hi Hsz) as Hs. rewrite E in Hs.
  destruct Hs as (Hi' & _ & h1 & pre & b & post & blk & -> & Hc).
  destruct (Heap.heap_roundtrip heap m sz _ heap' m' Hr Hsz E) as (heap2 & Hf & Hu & _).
  destruct Hc as [_ _ _ _ _ _ (_ & _ & Hbs) Hafter].
  assert (exists rest, Heap.heap_live heap' = pre ++ blk :: rest) as (rest & El)
    by (destruct Hafter as [[-> _]| ->]; eauto).
  pose proof (Heap.hi_tiles _ _ Hi') as Ht. rewrite El in Ht.
  pose proof (Heap.tiles_block _ _ _ _ _ Ht) as (? & ? & ?).
  exists (Heap.HEAP_BASE + blk.(Heap.offset)), heap2. split_and!; try done; try lia; try apply Hi'.
  by eapply Heap.reach_allocate.
Qed.

(** The pages the audit visits are the pages of the buffer. *)
Lemma audited_pages address size k :
  0 <= address -> 0 < size -> address + size <= UINT64_MAX ->
  let first := Z.land address (not64 (PageTable.PAGING_PAGE_SIZE - 1)) in
  0 <= k < (address + size - first + PageTable.PAGING_PAGE_SIZE - 1) / PageTable.PAGING_PAGE_SIZE ->
  (first + k * 4096) mod 4096 = 0 /\ address - 4096 < first + k * 4096 < address + size.
Proof.
  intros Ha Hs Hm first Hk. change PageTable.PAGING_PAGE_SIZE with 4096 in *.
  assert (first = address - address mod 4096) as Ef.
  { apply (land_high_mask address 12); [lia|]. unfold is_u64. lia. }
  pose proof (Z.div_mod address 4096 ltac:(done)). pose proof (Z.mod_pos_bound address 4096 ltac:(done)).
  assert (first = address / 4096 * 4096) as E' by lia. rewrite E' in *.
  split; [rewrite <- Z.mul_add_distr_r; by apply Z.mod_mul|].
  destruct Hk as [Hk0 Hk1]. apply Z.lt_le_pred in Hk1.
  assert (4096 * (k + 1) <= address + size - address / 4096 * 4096 + 4096 - 1).
  { etransitivity; [|apply (Z.mul_div_le _ 4096); done]. lia. }
  lia.
Qed.

Lemma heap_page_plain (heap : Heap.heap) (m : M) translate a :
  (forall (m : M) a f, Heap.page_aligned a ->
     Heap.paging_translate m a = Heap.Mapped f Heap.PAGING_WRITE 1 -> page_is_plain (translate m) a = true) ->
  Heap.reachable heap m -> a mod 4096 = 0 -> Heap.HEAP_BASE <= a ->
  a < Heap.HEAP_BASE + heap.(Heap.state).(Heap.committed_bytes) -> page_is_plain (translate m) a = true.
Proof.
  intros Hp Hr Ha Hlo Hhi. pose proof (Heap.reachable_inv heap m Hr) as Hi.
  destruct (Heap.hi_frames _ _ Hi) as (F & HF & _). pose proof (Heap.hi_pages _ _ Hi) as Hpg.
  assert (a = Heap.page ((a - Heap.HEAP_BASE) / 4096)) as E.
  { unfold Heap.page, Heap.HEAP_BASE, Heap.PAGING_PAGE_SIZE in *.
    pose proof (Z.div_mod a 4096 ltac:(done)) as Hd. rewrite Ha in Hd.
    replace (a - 0x400000000) with ((a / 4096 - 4194304) * 4096) by lia. rewrite Z.div_mul by done. lia. }
  destruct (HF ((a - Heap.HEAP_BASE) / 4096)) as [Ht _].
  { unfold Heap.PAGING_PAGE_SIZE in Hpg. split; [apply Z.div_pos; lia|apply Z.div_lt_upper_bound; lia]. }
  rewrite <- E in Ht. by apply (Hp m a _ Ha Ht).
Qed.

(** A surface owns its buffer.  surface_initialize that succeeds
    leaves an empty-damage surface of the size asked for whose rows fill one
    heap allocation without wrapping or overlapping; the audit surface_verify
    accepts it on every machine where a page mapped writable is write-back memory;
    and surface_release gives exactly that allocation back.  A refusal leaves
    the surface as it was, and other allocations are never touched. *)
Theorem surface_owns_buffer (heap : Heap.heap) (m : M) translate s w h :
  Heap.reachable heap m -> is_u32 w -> is_u32 h ->
  (forall (m : M) a f, Heap.page_aligned a ->
     Heap.paging_translate m a = Heap.Mapped f Heap.PAGING_WRITE 1 -> page_is_plain (translate m) a = true) ->
  let '(st, s', heap', m') := surface_initialize (Some s) w h heap m in
  (st <> SURFACE_STATUS_OK -> s' = Some s) /\
  (st = SURFACE_STATUS_OK -> exists s1, s' = Some s1 /\ wf s1 /\
     (s1.(width), s1.(height), s1.(pitch)) = (w, h, 4 * w) /\ damaged s1 = (fun _ _ => false) /\
     Heap.HEAP_BASE <= s1.(pixels) /\
     (forall px py, on s1 px py -> s1.(pixels) <= spot s1 py px /\
        spot s1 py px + 4 <= Heap.HEAP_BASE + heap'.(Heap.state).(Heap.committed_bytes)) /\
     surface_verify (translate m') (Heap.heap_get_state heap') s' = SURFACE_STATUS_OK /\
     exists s2 heap2, surface_release s' heap' = (SURFACE_STATUS_OK, Some s2, heap2) /\
       s2.(active) = false /\ Heap.heap_used heap2 = Heap.heap_used heap).
Proof.
  intros Hr Hw Hh Hplain. unfold surface_initialize. unfold is_u32 in Hw, Hh.
  split_if; [done|]. destruct ((w =? 0) || (h =? 0)) eqn:E0; [done|].
  rewrite orb_false_iff, !Z.eqb_neq in E0.
  change (UINT32_MAX / SURFACE_BYTES_PER_PIXEL) with 1073741823.
  destruct (w >? 1073741823) eqn:E1; [done|]. rewrite Z.gtb_ltb, Z.ltb_ge in E1.
  assert (u32 (w * SURFACE_BYTES_PER_PIXEL) = 4 * w) as ->.
  { unfold SURFACE_BYTES_PER_PIXEL. rewrite u32_small; [lia|]. unfold is_u32, UINT32_MAX. lia. }
  assert (u64 (4 * w * h) = 4 * w * h) as ->.
  { apply u64_small. unfold is_u64, UINT32_MAX, UINT64_MAX in *. nia. }
  destruct (4 * w * h >? Heap.HEAP_SIZE) eqn:E2; [done|]. rewrite Z.gtb_ltb, Z.ltb_ge in E2.
  assert (0 < 4 * w * h) by nia.
  destruct (Heap.heap_allocate (4 * w * h) true heap m) as [[[st ptr] heap'] m'] eqn:E.
  destruct (decide (st = Heap.HEAP_STATUS_OK)) as [->|Hne]; [|by destruct st].
  assert (is_u64 (4 * w * h)) as Hsz by (unfold is_u64, Heap.HEAP_SIZE, UINT64_MAX in *; lia).
  destruct (allocation_spec heap m _ _ _ _ Hr Hsz E)
    as (p & heap2 & -> & Hlo & Hhi & Ha & Hr' & Hcom & Hf & Hu).
  cbn [bind_surface default from_option id]. unfold Heap.HEAP_BASE, Heap.HEAP_SIZE in *.
  rewrite (proj2 (Z.eqb_neq p 0)), (proj2 (Z.eqb_neq w 0)), (proj2 (Z.eqb_neq h 0)) by lia.
  change (UINT32_MAX / SURFACE_BYTES_PER_PIXEL) with 1073741823. unfold SURFACE_BYTES_PER_PIXEL.
  rewrite (Z.gtb_ltb w), (proj2 (Z.ltb_ge 1073741823 w)), (proj2 (Z.ltb_ge (4 * w) (w * 4))) by lia.
  rewrite (Z.mul_comm 4 w), Z.mod_mul by done. cbn [orb negb Z.eqb]. split; [done|]. intros _.
  eexists. split; [done|]. split_and!; try done; try lia.
  - split; cbn; (done || lia).
  - intros px py [Hpx Hpy]. unfold spot, cell. cbn in *. split; nia.
  - unfold surface_verify, Heap.heap_get_state. cbn [active clear_damage with_damage pixels width height pitch damage].
    cbn [negb pending no_damage andb].
    rewrite (proj2 (Z.eqb_neq p 0)), (proj2 (Z.eqb_neq w 0)), (proj2 (Z.eqb_neq h 0)) by lia. cbn [orb].
    change (UINT32_MAX / SURFACE_BYTES_PER_PIXEL) with 1073741823. unfold SURFACE_BYTES_PER_PIXEL.
    rewrite (Z.gtb_ltb w), (proj2 (Z.ltb_ge 1073741823 w)), Z.eqb_refl by lia. cbn [orb negb].
    rewrite (Heap.reachable_base _ _ Hr'), Ha. unfold Heap.HEAP_BASE. cbn [negb orb].
    rewrite !u64_small by (unfold is_u64, UINT64_MAX; nia).
    rewrite (proj2 (Z.ltb_ge p _)), !Z.gtb_ltb, !(proj2 (Z.ltb_ge _ _)) by nia. cbn [orb].
    assert (forallb _ _ = true) as ->; [|done].
    apply forallb_forall. intros k Hk%list_elem_of_In%elem_of_seqZ.
    destruct (audited_pages p (w * 4 * h) k) as [Hal Hin]; [lia|lia|unfold UINT64_MAX; nia|lia|].
    change (k * PageTable.PAGING_PAGE_SIZE) with (k * 4096).
    revert Hal Hin. generalize (Z.land p (not64 (PageTable.PAGING_PAGE_SIZE - 1)) + k * 4096). intros a Hal Hin.
    apply (heap_page_plain heap' m'); try done; unfold Heap.HEAP_BASE; [|lia].
    pose proof (Z.div_mod a 4096 ltac:(done)) as Hdm. rewrite Hal in Hdm. lia.
  - eexists _, heap2. unfold surface_release. cbn [active clear_damage with_damage negb pixels].
    rewrite Hf. done.
Qed.
End buffer.

(** ** Examples *)

Lemma surface_self_test_passes m : surface_self_test 0x1000 0x3000 m = true.
Proof. vm_compute. reflexivity. Qed.

Definition small : surface := MkSurface true 6 5 32 0x1000 no_damage 0 0 0.
Definition small_screen : Framebuffer.framebuffer_state :=
  Framebuffer.MkState true 0x2000 120 24 6 5 16 8 0.

Lemma small_wf : wf small.
Proof. split; unfold UINT32_MAX; cbn; (lia || done). Qed.

Lemma small_shows : screen small small_screen.
Proof.
  split; [|done|done|].
  - split; unfold is_u32, UINT32_MAX, UINT64_MAX; cbn; (lia || done).
  - unfold on, apart, Framebuffer.spot, spot, cell. cbn. lia.
Qed.

Lemma surface_draw_exact_witness :
  (perform (Copy (MkRect 0 0 4 4) 1 1) (Some small) (fun a => a)).1.1 = SURFACE_STATUS_OK.
Proof.
  destruct (surface_draw_exact (Copy (MkRect 0 0 4 4) 1 1) small (fun a => a) small_wf)
    as (st & s' & m' & -> & Hst & _).
  - cbn. unfold is_rect, is_u32, UINT32_MAX. cbn. lia.
  - apply Hst. reflexivity.
Defined.

(** With nothing damaged a present copies nothing. *)
Lemma surface_present_refines_witness :
  exists s' m', surface_present (Some small) small_screen (fun _ => 0) = (SURFACE_STATUS_OK, Some s', m') /\
  s'.(last_present_pixels) = 0.
Proof.
  destruct (surface_present_refines small_screen small (fun _ => 0) (fun _ _ => 0) (fun _ _ => 0))
    as [_ (s' & m' & E & _ & _ & Hl)].
  - split; [apply small_wf|apply small_shows|done|done|done].
  - exists s', m'. exact (conj E Hl).
Defined.

Definition plain (m : Heap.machine) (a : Z) : option PageTable.paging_translation :=
  match Heap.table m a with
  | Some f => Some (PageTable.MkTranslation f PageTable.PAGING_WRITE PageTable.PAGING_MEMORY_WRITE_BACK 1 false)
  | None => None
  end.

#[local] Existing Instance PhysicalMemory.small_layout.

Lemma surface_owns_buffer_witness :
  exists s', (surface_initialize (Some blank) 16 8 Heap.sample_heap Heap.sample_machine).1.1.2 = Some s' /\ wf s'.
Proof.
  pose proof (surface_owns_buffer Heap.sample_heap Heap.sample_machine plain blank 16 8
    Heap.sample_heap_reachable) as Hs.
  assert ((surface_initialize (Some blank) 16 8 Heap.sample_heap Heap.sample_machine).1.1.1 =
    SURFACE_STATUS_OK) as E by (vm_compute; reflexivity).
  destruct (surface_initialize (Some blank) 16 8 Heap.sample_heap Heap.sample_machine) as [[[st s'] h'] m'].
  cbn [fst snd] in *. destruct Hs as [_ Hok].
  - unfold is_u32, UINT32_MAX. lia.
  - unfold is_u32, UINT32_MAX. lia.
  - intros m a f _. cbn. unfold page_is_plain, plain. by destruct (Heap.table m a).
  - destruct (Hok E) as (s1 & -> & Hwf & _). exists s1. exact (conj eq_refl Hwf).
Defined.
End Surface.
