(* ===== verification/Keyboard.v ===== *)
(** The PS/2 keyboard: src/src/kernel/keyboard.c.

    The file-scope objects are the record [keyboard]; the ring holds
    [KEYBOARD_QUEUE_SIZE] events, one slot staying empty.  The ports of the 8042
    controller, the interrupt flag, the interrupt table and the I/O APIC are the
    class [Controller], which the pointer uses too.

    Decoding is compared with a reference layout of the US keyboard; the ring
    with a stream: what is read and what waits is what the controller delivered,
    in order, less exactly the events counted as dropped.  Bring-up installs
    handler and route or leaves nothing behind. *)
From stdpp Require Import strings.
From S2P Require Import Prelude.

Open Scope Z_scope.

Module Keyboard.

(** * What the drivers call *)

(** An answer of [false] is any status but OK. *)
Class Controller (M : Type) := {
  inb : Z -> M -> Z * M;
  outb : Z -> Z -> M -> M;
  cpu_interrupts_enabled : M -> bool;
  cpu_interrupt_disable : M -> M;
  cpu_interrupt_enable : M -> M;
  ioapic_is_initialized : M -> bool;
  interrupt_register_handler : Z -> M -> bool * M;
  interrupt_unregister_handler : Z -> M -> M;
  ioapic_route_isa_irq : Z -> Z -> M -> bool * M;
  ioapic_mask_isa_irq : Z -> M -> M
}.

Definition KEYBOARD_QUEUE_SIZE : Z := 64.
Definition KEYBOARD_DATA_PORT : Z := 0x0060.
Definition KEYBOARD_COMMAND_PORT : Z := 0x0064.
Definition KEYBOARD_STATUS_OUTPUT_FULL : Z := 0x01.
Definition KEYBOARD_STATUS_INPUT_FULL : Z := 0x02.
Definition KEYBOARD_STATUS_AUXILIARY_DATA : Z := 0x20.
Definition KEYBOARD_COMMAND_READ_CONFIGURATION : Z := 0x20.
Definition KEYBOARD_COMMAND_WRITE_CONFIGURATION : Z := 0x60.
Definition KEYBOARD_COMMAND_DISABLE_SECOND_PORT : Z := 0xA7.
Definition KEYBOARD_COMMAND_DISABLE_FIRST_PORT : Z := 0xAD.
Definition KEYBOARD_COMMAND_ENABLE_FIRST_PORT : Z := 0xAE.
Definition KEYBOARD_COMMAND_SELF_TEST : Z := 0xAA.
Definition KEYBOARD_COMMAND_TEST_FIRST_PORT : Z := 0xAB.
Definition KEYBOARD_COMMAND_WRITE_OUTPUT_BUFFER : Z := 0xD2.
Definition KEYBOARD_SELF_TEST_PASSED : Z := 0x55.
Definition KEYBOARD_PORT_TEST_PASSED : Z := 0x00.
Definition KEYBOARD_CONFIGURATION_FIRST_INTERRUPT : Z := 0x01.
Definition KEYBOARD_CONFIGURATION_SECOND_INTERRUPT : Z := 0x02.
Definition KEYBOARD_CONFIGURATION_FIRST_CLOCK_OFF : Z := 0x10.
Definition KEYBOARD_CONFIGURATION_TRANSLATE : Z := 0x40.
Definition KEYBOARD_WAIT_LIMIT : Z := 100000.
Definition INTERRUPT_IOAPIC_BASE : Z := 48.
Definition KEYBOARD_IRQ : Z := 1.
Definition KEYBOARD_VECTOR : Z := u8 (INTERRUPT_IOAPIC_BASE + KEYBOARD_IRQ).
Definition KEYBOARD_RELEASE_BIT : Z := 0x80.
Definition KEYBOARD_EXTENDED_PREFIX : Z := 0xE0.
Definition KEYBOARD_SCANCODE_LEFT_SHIFT : Z := 0x2A.
Definition KEYBOARD_SCANCODE_RIGHT_SHIFT : Z := 0x36.
Definition KEYBOARD_SCANCODE_CAPS_LOCK : Z := 0x3A.
Definition KEYBOARD_QUEUE_MASK : Z := KEYBOARD_QUEUE_SIZE - 1.

Inductive keyboard_status : Type :=
| KEYBOARD_STATUS_OK
| KEYBOARD_STATUS_ALREADY_INITIALIZED
| KEYBOARD_STATUS_NOT_INITIALIZED
| KEYBOARD_STATUS_INTERRUPTS_ENABLED
| KEYBOARD_STATUS_NO_IOAPIC
| KEYBOARD_STATUS_CONTROLLER_TIMEOUT
| KEYBOARD_STATUS_CONTROLLER_REFUSED
| KEYBOARD_STATUS_SELF_TEST_FAILED
| KEYBOARD_STATUS_PORT_TEST_FAILED
| KEYBOARD_STATUS_IOAPIC_FAILURE
| KEYBOARD_STATUS_HANDLER_FAILURE
| KEYBOARD_STATUS_EMPTY.

#[export] Instance keyboard_status_eq_dec : EqDecision keyboard_status.
Proof. solve_decision. Defined.

(** Characters are their ASCII codes. *)
Record keyboard_event : Type := MkEvent {
  scancode : Z;
  pressed : bool;
  event_shift : bool;
  character : Z
}.

#[export] Instance keyboard_event_eq_dec : EqDecision keyboard_event.
Proof. solve_decision. Defined.

Record keyboard_state : Type := MkState {
  active : bool;
  interrupts : Z;
  events : Z;
  dropped : Z;
  extended : Z;
  queued : Z;
  shift : bool;
  caps_lock : bool
}.

Record keyboard : Type := MkKeyboard {
  state : keyboard_state;
  queue : list keyboard_event;
  queue_head : Z;
  queue_tail : Z;
  expecting_extended : bool
}.

Definition no_event : keyboard_event := MkEvent 0 false false 0.

(** The two tables: codes 0 to 57, the other keys silent. *)
Definition unshifted_keys : list Z :=
  [0; 0; 49; 50; 51; 52; 53; 54; 55; 56; 57; 48; 45; 61; 8;
   9; 113; 119; 101; 114; 116; 121; 117; 105; 111; 112; 91; 93; 10;
   0; 97; 115; 100; 102; 103; 104; 106; 107; 108; 59; 39; 96;
   0; 92; 122; 120; 99; 118; 98; 110; 109; 44; 46; 47;
   0; 42; 0; 32].
Definition shifted_keys : list Z :=
  [0; 0; 33; 64; 35; 36; 37; 94; 38; 42; 40; 41; 95; 43; 8;
   9; 81; 87; 69; 82; 84; 89; 85; 73; 79; 80; 123; 125; 10;
   0; 65; 83; 68; 70; 71; 72; 74; 75; 76; 58; 34; 126;
   0; 124; 90; 88; 67; 86; 66; 78; 77; 60; 62; 63;
   0; 42; 0; 32].
Definition unshifted : list Z := unshifted_keys ++ replicate (128 - length unshifted_keys) 0.
Definition shifted : list Z := shifted_keys ++ replicate (128 - length shifted_keys) 0.

Definition with_kstate (k : keyboard) (st : keyboard_state) : keyboard :=
  MkKeyboard st k.(queue) k.(queue_head) k.(queue_tail) k.(expecting_extended).
Definition set_modifiers (st : keyboard_state) (s c : bool) : keyboard_state :=
  MkState st.(active) st.(interrupts) st.(events) st.(dropped) st.(extended) st.(queued) s c.
Definition set_counters (st : keyboard_state) (i e d x : Z) : keyboard_state :=
  MkState st.(active) i e d x st.(queued) st.(shift) st.(caps_lock).

(** * Characters *)

Definition keyboard_character_for (code : Z) (shift_ caps : bool) : Z :=
  let make := Z.land code (u8 (Z.lnot KEYBOARD_RELEASE_BIT)) in
  if make >=? 128 then 0
  else
  let c := if shift_ then aget 0 shifted make else aget 0 unshifted make in
  if caps then
    if (c >=? 97) && (c <=? 122) then c - 97 + 65
    else if (c >=? 65) && (c <=? 90) then c - 65 + 97
    else c
  else c.

(** * The queue *)

Definition enqueue (event : keyboard_event) (k : keyboard) : keyboard :=
  let st := k.(state) in
  let next := Z.land (u64 (k.(queue_tail) + 1)) KEYBOARD_QUEUE_MASK in
  if next =? k.(queue_head) then
    with_kstate k (set_counters st st.(interrupts) st.(events) (u64 (st.(dropped) + 1)) st.(extended))
  else
    MkKeyboard (set_counters st st.(interrupts) (u64 (st.(events) + 1)) st.(dropped) st.(extended))
      (aset k.(queue) k.(queue_tail) event) k.(queue_head) next k.(expecting_extended).

Definition set_expecting (k : keyboard) (b : bool) : keyboard :=
  MkKeyboard k.(state) k.(queue) k.(queue_head) k.(queue_tail) b.

Definition handle_byte (byte : Z) (k : keyboard) : keyboard :=
  let st := k.(state) in
  if byte =? KEYBOARD_EXTENDED_PREFIX then
    with_kstate (set_expecting k true)
      (set_counters st st.(interrupts) st.(events) st.(dropped) (u64 (st.(extended) + 1)))
  else
  let k := set_expecting k false in
  let make := Z.land byte (u8 (Z.lnot KEYBOARD_RELEASE_BIT)) in
  let pressed_ := Z.land byte KEYBOARD_RELEASE_BIT =? 0 in
  let st :=
    if (make =? KEYBOARD_SCANCODE_LEFT_SHIFT) || (make =? KEYBOARD_SCANCODE_RIGHT_SHIFT) then
      set_modifiers st pressed_ st.(caps_lock)
    else if (make =? KEYBOARD_SCANCODE_CAPS_LOCK) && pressed_ then
      set_modifiers st st.(shift) (negb st.(caps_lock))
    else st in
  let k := with_kstate k st in
  enqueue (MkEvent make pressed_ st.(shift)
             (if pressed_ then keyboard_character_for make st.(shift) st.(caps_lock) else 0)) k.

Definition keyboard_is_initialized (k : keyboard) : bool := k.(state).(active).

Definition keyboard_get_state (k : keyboard) : keyboard_state :=
  let st := k.(state) in
  MkState st.(active) st.(interrupts) st.(events) st.(dropped) st.(extended)
    (Z.land (u64 (k.(queue_tail) - k.(queue_head))) KEYBOARD_QUEUE_MASK) st.(shift) st.(caps_lock).

(** * The names of the statuses

    A status is its position in the enumeration; the code is also asked about
    values outside it. *)
Definition all_statuses : list keyboard_status :=
  [KEYBOARD_STATUS_OK; KEYBOARD_STATUS_ALREADY_INITIALIZED; KEYBOARD_STATUS_NOT_INITIALIZED;
   KEYBOARD_STATUS_INTERRUPTS_ENABLED; KEYBOARD_STATUS_NO_IOAPIC;
   KEYBOARD_STATUS_CONTROLLER_TIMEOUT; KEYBOARD_STATUS_CONTROLLER_REFUSED;
   KEYBOARD_STATUS_SELF_TEST_FAILED; KEYBOARD_STATUS_PORT_TEST_FAILED;
   KEYBOARD_STATUS_IOAPIC_FAILURE; KEYBOARD_STATUS_HANDLER_FAILURE; KEYBOARD_STATUS_EMPTY].
Definition status_code (status : keyboard_status) : Z :=
  default 0 (find_index (fun s => bool_decide (s = status)) all_statuses).

Definition messages : list string :=
  ["ok"; "keyboard is already initialized"; "keyboard is not initialized";
   "keyboard bring-up ran with interrupts enabled";
   "keyboard needs the I/O APIC and it is not online";
   "the 8042 controller did not answer within its bound";
   "the 8042 controller refused the request";
   "the 8042 controller failed its own self-test";
   "the 8042 first port failed its test";
   "the keyboard interrupt could not be routed";
   "the keyboard handler could not be installed";
   "no key event is waiting"]%string.
Definition keyboard_status_string (status : Z) : string :=
  if status >=? zlength messages then "unknown keyboard status" else aget ""%string messages status.

Definition refusals_are_named : bool :=
  forallb (fun s => negb (bool_decide (keyboard_status_string (status_code s) = ""%string)))
    all_statuses.

(** * The self-test

    Characters are checked on the tables alone. *)
Definition modifiers_silent : bool :=
  forallb (fun s => forallb (fun c =>
    (keyboard_character_for KEYBOARD_SCANCODE_LEFT_SHIFT s c =? 0) &&
    (keyboard_character_for KEYBOARD_SCANCODE_CAPS_LOCK s c =? 0)) [false; true]) [false; true].

Definition translation_is_right : bool :=
  (keyboard_character_for 0x1E false false =? 97) &&
  (keyboard_character_for 0x1E true false =? 65) &&
  (keyboard_character_for 0x1E false true =? 65) &&
  (keyboard_character_for 0x1E true true =? 97) &&
  (keyboard_character_for 0x02 false true =? 49) &&
  (keyboard_character_for 0x02 true true =? 33) &&
  (keyboard_character_for (u8 (Z.lor 0x1E KEYBOARD_RELEASE_BIT)) false false =? 97) &&
  ((keyboard_character_for 0x39 false false =? 32) &&
   (keyboard_character_for 0x1C false false =? 10) &&
   (keyboard_character_for 0x0E false false =? 8) &&
   (keyboard_character_for 0x0F false false =? 9)) &&
  modifiers_silent &&
  forallb (fun code =>
    let c := keyboard_character_for code false false in
    negb (negb (c =? 0) && ((c <? 32) || (c >? 126)) &&
          negb (c =? 10) && negb (c =? 9) && negb (c =? 8))) (seqZ 0 128) &&
  forallb (fun index =>
    Bool.eqb (aget 0 unshifted index =? 0) (aget 0 shifted index =? 0)) (seqZ 0 128).

Section controller.
Context {M : Type} `{Controller M}.

(** * The controller *)

Definition controller_status (m : M) : Z * M := inb KEYBOARD_COMMAND_PORT m.

(** A bounded wait: [ready] of the status within the limit. *)
Definition wait_for (ready : Z -> bool) (m : M) : bool * M :=
  match for_each (fun (_ : Z) m =>
          let '(status, m) := controller_status m in
          if ready status then Return m else Next m)
          (seqZ 0 KEYBOARD_WAIT_LIMIT) m with
  | Return m => (true, m)
  | Next m => (false, m)
  end.

Definition wait_to_write (m : M) : bool * M :=
  wait_for (fun status => Z.land status KEYBOARD_STATUS_INPUT_FULL =? 0) m.
Definition wait_to_read (m : M) : bool * M :=
  wait_for (fun status => negb (Z.land status KEYBOARD_STATUS_OUTPUT_FULL =? 0)) m.

Definition send_to (port value : Z) (m : M) : keyboard_status * M :=
  match wait_to_write m with
  | (false, m) => (KEYBOARD_STATUS_CONTROLLER_TIMEOUT, m)
  | (true, m) => (KEYBOARD_STATUS_OK, outb port value m)
  end.

Definition send_command (command : Z) (m : M) : keyboard_status * M :=
  send_to KEYBOARD_COMMAND_PORT command m.
Definition send_data (value : Z) (m : M) : keyboard_status * M :=
  send_to KEYBOARD_DATA_PORT value m.

(** The byte is [None] when nothing was stored through the pointer. *)
Definition receive_data (m : M) : keyboard_status * option Z * M :=
  match wait_to_read m with
  | (false, m) => (KEYBOARD_STATUS_CONTROLLER_TIMEOUT, None, m)
  | (true, m) => let '(value, m) := inb KEYBOARD_DATA_PORT m in (KEYBOARD_STATUS_OK, Some value, m)
  end.

Definition drain (m : M) : M :=
  match for_each (fun (_ : Z) m =>
          let '(status, m) := controller_status m in
          if (Z.land status KEYBOARD_STATUS_OUTPUT_FULL =? 0) ||
             negb (Z.land status KEYBOARD_STATUS_AUXILIARY_DATA =? 0) then Return m
          else Next (inb KEYBOARD_DATA_PORT m).2)
          (seqZ 0 KEYBOARD_QUEUE_SIZE) m with
  | Return m | Next m => m
  end.

(** * The interrupt *)

Definition interrupt_turn (_ : Z) (x : keyboard * M) : ctl (keyboard * M) (keyboard * M) :=
  let '(k, m) := x in
  let '(status, m) := controller_status m in
  if Z.land status KEYBOARD_STATUS_OUTPUT_FULL =? 0 then Return (k, m)
  else let '(byte, m) := inb KEYBOARD_DATA_PORT m in Next (handle_byte byte k, m).

Definition keyboard_interrupt (k : keyboard) (m : M) : keyboard * M :=
  let st := k.(state) in
  let k := with_kstate k (set_counters st (u64 (st.(interrupts) + 1)) st.(events) st.(dropped) st.(extended)) in
  match for_each interrupt_turn (seqZ 0 KEYBOARD_QUEUE_SIZE) (k, m) with
  | Return x | Next x => x
  end.

(** * Bring-up *)

(** A step of keyboard_initialize that returns its status unless it is OK. *)
Notation "'checked' ( s , m ) <- e 'else' f ; k" :=
  (let '(s, m) := e in
   if negb (bool_decide (s = KEYBOARD_STATUS_OK)) then (s, f m) else k)
  (at level 60, s name, m name, k at level 200, f at level 10).

Definition keep (m : M) : M := m.
Definition unwind (m : M) : M :=
  interrupt_unregister_handler KEYBOARD_VECTOR (ioapic_mask_isa_irq KEYBOARD_IRQ m).

Definition received (r : keyboard_status * option Z * M) (k : Z -> M -> keyboard_status * M)
  : keyboard_status * M :=
  let '(status, value, m) := r in
  if negb (bool_decide (status = KEYBOARD_STATUS_OK)) then (status, m) else k (default 0 value) m.

Definition quiet_configuration (configuration : Z) : Z :=
  Z.lor (Z.land configuration
           (u8 (Z.lnot (Z.lor (Z.lor KEYBOARD_CONFIGURATION_FIRST_INTERRUPT
                                KEYBOARD_CONFIGURATION_SECOND_INTERRUPT)
                         KEYBOARD_CONFIGURATION_FIRST_CLOCK_OFF))))
    KEYBOARD_CONFIGURATION_TRANSLATE.

(** From the routed interrupt on, a failure takes handler and route back. *)
Definition enable_port (configuration : Z) (m : M) : keyboard_status * M :=
  checked (status, m) <- send_command KEYBOARD_COMMAND_ENABLE_FIRST_PORT m else unwind;
  let configuration := Z.lor configuration KEYBOARD_CONFIGURATION_FIRST_INTERRUPT in
  checked (status, m) <- send_command KEYBOARD_COMMAND_WRITE_CONFIGURATION m else unwind;
  checked (status, m) <- send_data configuration m else unwind;
  (KEYBOARD_STATUS_OK, drain m).

Definition install_handler (configuration : Z) (m : M) : keyboard_status * M :=
  match interrupt_register_handler KEYBOARD_VECTOR m with
  | (false, m) => (KEYBOARD_STATUS_HANDLER_FAILURE, m)
  | (true, m) =>
      match ioapic_route_isa_irq KEYBOARD_IRQ KEYBOARD_VECTOR m with
      | (false, m) => (KEYBOARD_STATUS_IOAPIC_FAILURE, interrupt_unregister_handler KEYBOARD_VECTOR m)
      | (true, m) => enable_port configuration m
      end
  end.

(** The controller from the first command to the installed handler. *)
Definition bring_up (m : M) : keyboard_status * M :=
  checked (status, m) <- send_command KEYBOARD_COMMAND_DISABLE_FIRST_PORT m else keep;
  checked (status, m) <- send_command KEYBOARD_COMMAND_DISABLE_SECOND_PORT m else keep;
  let m := drain m in
  checked (status, m) <- send_command KEYBOARD_COMMAND_READ_CONFIGURATION m else keep;
  received (receive_data m) (fun configuration m =>
    let configuration := quiet_configuration configuration in
    checked (status, m) <- send_command KEYBOARD_COMMAND_WRITE_CONFIGURATION m else keep;
    checked (status, m) <- send_data configuration m else keep;
    checked (status, m) <- send_command KEYBOARD_COMMAND_SELF_TEST m else keep;
    received (receive_data m) (fun answer m =>
      if negb (answer =? KEYBOARD_SELF_TEST_PASSED) then (KEYBOARD_STATUS_SELF_TEST_FAILED, m)
      else
      checked (status, m) <- send_command KEYBOARD_COMMAND_WRITE_CONFIGURATION m else keep;
      checked (status, m) <- send_data configuration m else keep;
      checked (status, m) <- send_command KEYBOARD_COMMAND_TEST_FIRST_PORT m else keep;
      received (receive_data m) (fun answer m =>
        if negb (answer =? KEYBOARD_PORT_TEST_PASSED) then (KEYBOARD_STATUS_PORT_TEST_FAILED, m)
        else install_handler configuration m))).

Definition keyboard_initialize (k : keyboard) (m : M) : keyboard_status * keyboard * M :=
  if k.(state).(active) then (KEYBOARD_STATUS_ALREADY_INITIALIZED, k, m)
  else if cpu_interrupts_enabled m then (KEYBOARD_STATUS_INTERRUPTS_ENABLED, k, m)
  else if negb (ioapic_is_initialized m) then (KEYBOARD_STATUS_NO_IOAPIC, k, m)
  else
  match bring_up m with
  | (KEYBOARD_STATUS_OK, m) =>
      let st := k.(state) in
      (KEYBOARD_STATUS_OK,
       MkKeyboard (MkState true st.(interrupts) st.(events) st.(dropped) st.(extended) st.(queued)
                     st.(shift) st.(caps_lock)) k.(queue) 0 0 false, m)
  | (status, m) => (status, k, m)
  end.

(** * Reading *)

(** [destination] is false for a NULL pointer; the second component is what is
    stored through it. *)
Definition keyboard_read (destination : bool) (k : keyboard) (m : M)
  : keyboard_status * option keyboard_event * keyboard * M :=
  if negb k.(state).(active) then (KEYBOARD_STATUS_NOT_INITIALIZED, None, k, m)
  else if negb destination then (KEYBOARD_STATUS_CONTROLLER_REFUSED, None, k, m)
  else
  let enabled := cpu_interrupts_enabled m in
  let m := if enabled then cpu_interrupt_disable m else m in
  let restore m := if enabled then cpu_interrupt_enable m else m in
  if k.(queue_head) =? k.(queue_tail) then (KEYBOARD_STATUS_EMPTY, None, k, restore m)
  else
  let event := aget no_event k.(queue) k.(queue_head) in
  (KEYBOARD_STATUS_OK, Some event,
   MkKeyboard k.(state) k.(queue) (Z.land (u64 (k.(queue_head) + 1)) KEYBOARD_QUEUE_MASK)
     k.(queue_tail) k.(expecting_extended), restore m).

Definition keyboard_inject_scancode (code : Z) (k : keyboard) (m : M) : keyboard_status * M :=
  if negb k.(state).(active) then (KEYBOARD_STATUS_NOT_INITIALIZED, m)
  else
  checked (status, m) <- send_command KEYBOARD_COMMAND_WRITE_OUTPUT_BUFFER m else keep;
  send_data code m.

(** The tables, the names, then the refusals of a driver that is not up. *)
Definition keyboard_self_test (k : keyboard) (m : M) : bool * M :=
  if negb translation_is_right then (false, m)
  else if negb refusals_are_named then (false, m)
  else if negb k.(state).(active) then
    let '(status, _, _, m) := keyboard_read true k m in
    if negb (bool_decide (status = KEYBOARD_STATUS_NOT_INITIALIZED)) then (false, m)
    else
    let '(status, m) := keyboard_inject_scancode 0x1E k m in
    if negb (bool_decide (status = KEYBOARD_STATUS_NOT_INITIALIZED)) then (false, m) else (true, m)
  else (true, m).
End controller.

(** * Characters against the layout *)

Definition is_lower (c : Z) : bool := (97 <=? c) && (c <=? 122).
Definition is_typed (c : Z) : bool :=
  (c =? 0) || ((32 <=? c) && (c <=? 126)) || (c =? 8) || (c =? 9) || (c =? 10).

Definition layout_of (code : Z) (s c : bool) : bool :=
  let plain := keyboard_character_for code false false in
  let ch := keyboard_character_for code s c in
  (ch =? keyboard_character_for (code mod 128) s c) &&
  (ch =? if is_lower plain then (if xorb s c then plain - 32 else plain)
         else keyboard_character_for code s false) &&
  is_typed ch && Bool.eqb (ch =? 0) (plain =? 0).

Lemma layout_computed :
  forallb (fun code => forallb (fun s => forallb (layout_of code s) [false; true]) [false; true])
    (seqZ 0 256) = true.
Proof. vm_compute. reflexivity. Qed.

Lemma printable_computed :
  forallb (fun ch => existsb (fun code => existsb (fun s =>
    keyboard_character_for code s false =? ch) [false; true]) (seqZ 0 128)) (seqZ 32 95) = true.
Proof. vm_compute. reflexivity. Qed.

Lemma layout_holds code s c : 0 <= code < 256 -> layout_of code s c = true.
Proof.
  intros Hc. pose proof layout_computed as E. rewrite forallb_forall in E.
  specialize (E code). rewrite <- list_elem_of_In, elem_of_seqZ in E.
  specialize (E ltac:(lia)). rewrite forallb_forall in E. specialize (E s).
  assert (In s [false; true]) as Hs by (destruct s; simpl; tauto).
  apply E in Hs. rewrite forallb_forall in Hs. apply Hs. destruct c; simpl; tauto.
Qed.

Lemma printable_typed ch : 32 <= ch <= 126 ->
  exists code s, 0 <= code < 128 /\ keyboard_character_for code s false = ch.
Proof.
  intros Hc. pose proof printable_computed as E. rewrite forallb_forall in E.
  specialize (E ch). rewrite <- list_elem_of_In, elem_of_seqZ in E. specialize (E ltac:(lia)).
  apply existsb_exists in E as (code & Hin & E). apply existsb_exists in E as (s & _ & E).
  rewrite <- list_elem_of_In, elem_of_seqZ in Hin. exists code, s. bool_hyps. split; [lia|done].
Qed.

(** * The ring as a queue *)

Definition ring_ok (k : keyboard) : Prop :=
  zlength k.(queue) = 64 /\ 0 <= k.(queue_head) < 64 /\ 0 <= k.(queue_tail) < 64.

(** What waits in the ring, oldest first. *)
Definition pending (k : keyboard) : list keyboard_event :=
  map (fun i => aget no_event k.(queue) ((k.(queue_head) + i) mod 64))
    (seqZ 0 ((k.(queue_tail) - k.(queue_head)) mod 64)).

Lemma ring_next i : 0 <= i < 64 -> Z.land (u64 (i + 1)) KEYBOARD_QUEUE_MASK = (i + 1) mod 64.
Proof.
  intros. rewrite u64_small by (unfold is_u64, UINT64_MAX; lia).
  apply (land_low_mask _ 6). lia.
Qed.

Lemma zlength_pending k : zlength (pending k) = (k.(queue_tail) - k.(queue_head)) mod 64.
Proof.
  unfold pending, zlength. rewrite length_map, length_seqZ.
  pose proof (Z.mod_pos_bound (k.(queue_tail) - k.(queue_head)) 64). lia.
Qed.

Ltac mod64 := Z.to_euclidean_division_equations; lia.

(** The queue after an event: appended, unless 63 wait, when it is dropped. *)
Lemma enqueue_pending e k :
  ring_ok k ->
  ring_ok (enqueue e k) /\
  if zlength (pending k) <? 63 then
    pending (enqueue e k) = pending k ++ [e] /\
    (enqueue e k).(state) = set_counters k.(state) k.(state).(interrupts)
      (u64 (k.(state).(events) + 1)) k.(state).(dropped) k.(state).(extended)
  else
    pending (enqueue e k) = pending k /\
    (enqueue e k).(state) = set_counters k.(state) k.(state).(interrupts)
      k.(state).(events) (u64 (k.(state).(dropped) + 1)) k.(state).(extended).
Proof.
  intros (Hl & Hh & Ht). rewrite zlength_pending. unfold enqueue. rewrite ring_next by done.
  destruct (_ =? _) eqn:En; destruct (_ <? 63) eqn:Ew; bool_hyps; simpl;
    try (exfalso; mod64).
  - done.
  - split; [|split; [|done]].
    { unfold ring_ok; simpl. rewrite zlength_aset. split_and!; [done|mod64..]. }
    unfold pending; simpl.
    replace (((k.(queue_tail) + 1) mod 64 - k.(queue_head)) mod 64)
      with ((k.(queue_tail) - k.(queue_head)) mod 64 + 1) by mod64.
    rewrite seqZ_app by mod64. rewrite map_app. f_equal.
    + apply map_ext_in. intros i Hi. apply list_elem_of_In, elem_of_seqZ in Hi.
      apply aget_aset_ne; mod64.
    + simpl. f_equal. replace ((k.(queue_head) + _) mod 64) with k.(queue_tail) by mod64.
      apply aget_aset_eq. lia.
Qed.

(** * The stream of events the controller's bytes mean

    The modifiers are carried along; nothing is ever lost here. *)
Definition modify (byte : Z) (mods : bool * bool) : bool * bool :=
  let '(s, c) := mods in
  let make := byte mod 128 in
  if (make =? 0x2A) || (make =? 0x36) then (byte <? 128, c)
  else if (make =? 0x3A) && (byte <? 128) then (s, negb c)
  else (s, c).

Definition event_of (byte : Z) (mods : bool * bool) : keyboard_event :=
  let '(s, c) := modify byte mods in
  MkEvent (byte mod 128) (byte <? 128) s
    (if byte <? 128 then keyboard_character_for byte s c else 0).

Fixpoint decode (mods : bool * bool) (bytes : list Z) : list keyboard_event :=
  match bytes with
  | [] => []
  | byte :: bytes =>
      if byte =? 0xE0 then decode mods bytes
      else event_of byte mods :: decode (modify byte mods) bytes
  end.

Definition mods_of (k : keyboard) : bool * bool := (k.(state).(shift), k.(state).(caps_lock)).

Lemma release_split byte : 0 <= byte < 256 ->
  Z.land byte (u8 (Z.lnot KEYBOARD_RELEASE_BIT)) = byte mod 128 /\
  (Z.land byte KEYBOARD_RELEASE_BIT =? 0) = (byte <? 128).
Proof.
  intros Hb. split; [apply (land_low_mask _ 7); lia|].
  assert (forallb (fun b => Bool.eqb (Z.land b KEYBOARD_RELEASE_BIT =? 0) (b <? 128))
            (seqZ 0 256) = true) as E by (vm_compute; reflexivity).
  rewrite forallb_forall in E. apply Bool.eqb_prop, E.
  apply list_elem_of_In, elem_of_seqZ. lia.
Qed.

(** One byte: the prefix is counted, any other is one event of the stream. *)
Lemma handle_byte_stream byte k :
  0 <= byte < 256 -> ring_ok k ->
  handle_byte byte k =
    if byte =? 0xE0 then
      with_kstate (set_expecting k true)
        (set_counters k.(state) k.(state).(interrupts) k.(state).(events) k.(state).(dropped)
           (u64 (k.(state).(extended) + 1)))
    else
      enqueue (event_of byte (mods_of k))
        (with_kstate (set_expecting k false)
           (set_modifiers k.(state) (modify byte (mods_of k)).1 (modify byte (mods_of k)).2)).
Proof.
  intros Hb Hr. unfold handle_byte. destruct (release_split byte Hb) as [-> ->].
  unfold KEYBOARD_EXTENDED_PREFIX. destruct (byte =? 0xE0); [done|].
  unfold event_of, modify, mods_of, KEYBOARD_SCANCODE_LEFT_SHIFT, KEYBOARD_SCANCODE_RIGHT_SHIFT,
    KEYBOARD_SCANCODE_CAPS_LOCK.
  assert ((byte <? 128) = true -> byte mod 128 = byte) as Hm.
  { intros; bool_hyps. apply Z.mod_small. lia. }
  destruct (_ || _); simpl; [|destruct (_ =? 0x3A), (byte <? 128) eqn:E; simpl];
    try (destruct (byte <? 128) eqn:E'); try rewrite Hm by done;
    destruct k as [[] ? ? ? ?]; done.
Qed.

Fixpoint mods_after (mods : bool * bool) (bytes : list Z) : bool * bool :=
  match bytes with
  | [] => mods
  | byte :: bytes => mods_after (if byte =? 0xE0 then mods else modify byte mods) bytes
  end.

Lemma decode_app mods b1 b2 :
  decode mods (b1 ++ b2) = decode mods b1 ++ decode (mods_after mods b1) b2.
Proof.
  revert mods. induction b1 as [|b b1 IH]; intros mods; [done|]. simpl.
  destruct (b =? 0xE0); rewrite IH; done.
Qed.

Lemma mods_after_app mods b1 b2 :
  mods_after mods (b1 ++ b2) = mods_after (mods_after mods b1) b2.
Proof. revert mods. induction b1 as [|b b1 IH]; intros mods; simpl; [done|apply IH]. Qed.

(** From [k] to [k'] the controller delivered [bytes] and [reads] were taken:
    the stream goes through the ring in order, and what the ring refused is
    counted and happens only when it cannot hold the stream. *)
Definition kept (k : keyboard) (bytes : list Z) (reads : list keyboard_event)
    (k' : keyboard) : Prop :=
  ring_ok k' /\ k'.(state).(active) = k.(state).(active) /\
  mods_of k' = mods_after (mods_of k) bytes /\
  exists lost, 0 <= lost /\
    reads ++ pending k' `sublist_of` pending k ++ decode (mods_of k) bytes /\
    zlength (pending k ++ decode (mods_of k) bytes) = zlength (reads ++ pending k') + lost /\
    u64 k'.(state).(dropped) = u64 (k.(state).(dropped) + lost) /\
    (zlength (pending k ++ decode (mods_of k) bytes) <= 63 -> lost = 0).

Lemma u64_add_u64 a b c d : u64 a = u64 (b + c) -> u64 (a + d) = u64 (b + (c + d)).
Proof.
  unfold u64. intros E. rewrite <- Zplus_mod_idemp_l, E, Zplus_mod_idemp_l. f_equal. lia.
Qed.

Lemma kept_same k k' :
  ring_ok k -> k'.(queue) = k.(queue) -> k'.(queue_head) = k.(queue_head) ->
  k'.(queue_tail) = k.(queue_tail) -> k'.(state).(active) = k.(state).(active) ->
  mods_of k' = mods_of k -> k'.(state).(dropped) = k.(state).(dropped) -> kept k [] [] k'.
Proof.
  intros Hr Hq Hh Ht Ha Hm Hd. unfold kept, ring_ok, pending. rewrite Hq, Hh, Ht, Hd, Hm.
  split_and!; try done; try apply Hr. exists 0. simpl. rewrite !app_nil_r, !Z.add_0_r.
  split_and!; done || lia.
Qed.

Lemma kept_trans k b1 r1 k1 b2 r2 k2 :
  kept k b1 r1 k1 -> kept k1 b2 r2 k2 -> kept k (b1 ++ b2) (r1 ++ r2) k2.
Proof.
  intros (_ & Ha1 & Hm1 & l1 & Hl1 & Hs1 & Hn1 & Hd1 & Hf1)
    (Hr2 & Ha2 & Hm2 & l2 & Hl2 & Hs2 & Hn2 & Hd2 & Hf2).
  split; [done|]. split; [congruence|]. split; [by rewrite Hm2, Hm1, mods_after_app|].
  rewrite Hm1 in *. exists (l1 + l2). rewrite decode_app, !app_assoc, <- (app_assoc r1).
  rewrite !zlength_app in *. split_and!; [lia| |lia| |].
  - trans (r1 ++ pending k1 ++ decode (mods_after (mods_of k) b1) b2).
    + by apply sublist_app.
    + rewrite app_assoc. by apply sublist_app.
  - rewrite Hd2. rewrite (u64_add_u64 _ _ _ l2 Hd1). done.
  - intros. pose proof (zlength_nonneg r1). pose proof (zlength_nonneg r2).
    pose proof (zlength_nonneg (pending k2)).
    pose proof (zlength_nonneg (decode (mods_after (mods_of k) b1) b2)). lia.
Qed.

Lemma handle_byte_kept byte k :
  0 <= byte < 256 -> ring_ok k -> kept k [byte] [] (handle_byte byte k).
Proof.
  intros Hb Hr. rewrite handle_byte_stream by done. unfold kept.
  cbn [decode mods_after app]. destruct (byte =? 0xE0).
  { by apply (kept_same k). }
  set (k0 := with_kstate _ _).
  destruct (enqueue_pending (event_of byte (mods_of k)) k0) as [Hr' Hq]; [done|].
  assert (pending k0 = pending k) as Ep by done. rewrite Ep in Hq.
  rewrite !zlength_app, zlength_cons. change (zlength []) with 0.
  pose proof (zlength_nonneg (pending k)).
  destruct (_ <? 63) eqn:E; bool_hyps; destruct Hq as [Hp Hst]; rewrite Hst, Hp;
    (split; [done|]); (split; [done|]); unfold mods_of at 1; rewrite Hst;
    (split; [by destruct (modify byte (mods_of k))|]).
  - exists 0. rewrite zlength_app, zlength_cons. change (zlength []) with 0.
    split_and!; try done; [lia|]. by rewrite Z.add_0_r.
  - exists 1. split_and!; try done; try lia.
    + by apply sublist_inserts_r.
    + simpl. unfold u64. by rewrite Z.mod_mod.
Qed.

(** * Any interleaving of interrupts and reads *)

(** A port reads a byte, and the interrupt flag is a flag. *)
Class ControllerLaws (M : Type) `{Controller M} : Prop := {
  inb_byte port m : 0 <= (inb port m).1 < 256;
  flag_disabled m : cpu_interrupts_enabled (cpu_interrupt_disable m) = false;
  flag_enabled m : cpu_interrupts_enabled (cpu_interrupt_enable m) = true
}.

Inductive action : Type := Interrupt | Read.

Section streams.
Context {M : Type} `{ControllerLaws M}.

(** The bytes one interrupt takes from the controller: at most 64. *)
Fixpoint delivered (n : nat) (m : M) : list Z * M :=
  match n with
  | O => ([], m)
  | S n =>
      let '(status, m) := controller_status m in
      if Z.land status KEYBOARD_STATUS_OUTPUT_FULL =? 0 then ([], m)
      else let '(byte, m) := inb KEYBOARD_DATA_PORT m in
           let '(bytes, m) := delivered n m in (byte :: bytes, m)
  end.

Fixpoint run (acts : list action) (k : keyboard) (m : M)
  : list Z * list keyboard_event * keyboard * M :=
  match acts with
  | [] => ([], [], k, m)
  | Interrupt :: acts =>
      let bytes := (delivered 64 m).1 in
      let '(k, m) := keyboard_interrupt k m in
      let '(bytes', reads, k, m) := run acts k m in (bytes ++ bytes', reads, k, m)
  | Read :: acts =>
      let '(_, event, k, m) := keyboard_read true k m in
      let '(bytes, reads, k, m) := run acts k m in (bytes, option_list event ++ reads, k, m)
  end.

Lemma interrupt_turns_kept (l : list Z) k (m : M) :
  ring_ok k ->
  match for_each interrupt_turn l (k, m) with
  | Return x | Next x => kept k (delivered (length l) m).1 [] x.1 /\ x.2 = (delivered (length l) m).2
  end.
Proof.
  revert k m. induction l as [|i l IH]; intros k m Hr.
  { simpl. split; [by apply kept_same|done]. }
  cbn [for_each length delivered]. unfold interrupt_turn at 1.
  destruct (controller_status m) as [status m1].
  destruct (_ =? 0); [split; [by apply kept_same|done]|].
  destruct (inb KEYBOARD_DATA_PORT m1) as [byte m2] eqn:E.
  assert (0 <= byte < 256) as Hb by (pose proof (inb_byte KEYBOARD_DATA_PORT m1); by rewrite E in *).
  pose proof (handle_byte_kept byte k Hb Hr) as Hk. specialize (IH (handle_byte byte k) m2 (proj1 Hk)).
  destruct (delivered (length l) m2) as [bytes m3].
  destruct (for_each _ l _); destruct IH as [IH ->]; (split; [|done]); simpl in *;
    apply (kept_trans k [byte] [] _ bytes [] _ Hk IH).
Qed.

Lemma keyboard_interrupt_kept k (m : M) :
  ring_ok k ->
  kept k (delivered 64 m).1 [] (keyboard_interrupt k m).1 /\
  (keyboard_interrupt k m).2 = (delivered 64 m).2.
Proof.
  intros Hr. unfold keyboard_interrupt. set (k0 := with_kstate _ _).
  assert (kept k [] [] k0) as Hk0 by by apply kept_same.
  pose proof (interrupt_turns_kept (seqZ 0 KEYBOARD_QUEUE_SIZE) k0 m (proj1 Hk0)) as Ht.
  change (length (seqZ 0 KEYBOARD_QUEUE_SIZE)) with 64%nat in Ht.
  destruct (for_each _ _ _); destruct Ht as [Ht ->]; (split; [|done]);
    apply (kept_trans k [] [] k0 _ [] _ Hk0 Ht).
Qed.

(** A read takes the oldest event, and leaves the interrupt flag as it was. *)
Lemma keyboard_read_takes k (m : M) :
  ring_ok k -> k.(state).(active) = true ->
  let '(status, event, k', m') := keyboard_read true k m in
  ring_ok k' /\ k'.(state) = k.(state) /\
  cpu_interrupts_enabled m' = cpu_interrupts_enabled m /\
  match pending k with
  | [] => status = KEYBOARD_STATUS_EMPTY /\ event = None /\ k' = k
  | e :: rest => status = KEYBOARD_STATUS_OK /\ event = Some e /\ pending k' = rest
  end.
Proof.
  intros (Hl & Hh & Ht) Ha. unfold keyboard_read. rewrite Ha. simpl.
  assert (forall m', cpu_interrupts_enabled m' = cpu_interrupts_enabled m ->
    cpu_interrupts_enabled (if cpu_interrupts_enabled m then cpu_interrupt_enable
      (if cpu_interrupts_enabled m then cpu_interrupt_disable m' else m')
      else if cpu_interrupts_enabled m then cpu_interrupt_disable m' else m') =
    cpu_interrupts_enabled m) as Hflag.
  { intros m' E. destruct (cpu_interrupts_enabled m); [apply flag_enabled|done]. }
  specialize (Hflag m eq_refl).
  unfold pending. destruct (_ =? _) eqn:E; bool_hyps.
  - rewrite E, Z.sub_diag. split_and!; done || lia.
  - rewrite ring_next by done. rewrite seqZ_cons by mod64. simpl.
    rewrite Z.add_0_r, (Z.mod_small (queue_head k)) by done. split_and!; try done.
    { unfold ring_ok; simpl. split_and!; [done|mod64..]. }
    replace ((queue_tail k - (queue_head k + 1) mod 64) mod 64)
      with (Z.pred ((queue_tail k - queue_head k) mod 64)) by mod64.
    change (Z.succ 0) with (1 + 0). rewrite <- fmap_add_seqZ.
    set (l := seqZ 0 _). change (Z.add 1 <$> l) with (map (Z.add 1) l). rewrite map_map. apply map_ext. intros i. f_equal. mod64.
Qed.

Lemma keyboard_read_kept k (m : M) :
  ring_ok k -> k.(state).(active) = true ->
  kept k [] (option_list (keyboard_read true k m).1.1.2) (keyboard_read true k m).1.2.
Proof.
  intros Hr Ha. pose proof (keyboard_read_takes k m Hr Ha) as Ht.
  destruct (keyboard_read true k m) as [[[status event] k'] m']. simpl.
  destruct Ht as (Hr' & Hst & _ & Hp). unfold kept, mods_of. rewrite Hst. simpl.
  split_and!; try done. exists 0. rewrite app_nil_r, !Z.add_0_r.
  destruct (pending k) as [|e rest] eqn:E.
  - destruct Hp as (_ & -> & ->). simpl. rewrite E. split_and!; done || lia.
  - destruct Hp as (_ & -> & ->). simpl. split_and!; done || lia.
Qed.

Lemma sublist_length_eq {A} (l1 l2 : list A) :
  l1 `sublist_of` l2 -> length l1 = length l2 -> l1 = l2.
Proof.
  induction 1 as [|x l1 l2 _ IH|x l1 l2 Hs _]; simpl; intros E; [done|f_equal; auto|].
  apply sublist_length in Hs. lia.
Qed.

Lemma run_kept acts k (m : M) :
  ring_ok k -> k.(state).(active) = true ->
  let '(bytes, reads, k', _) := run acts k m in kept k bytes reads k'.
Proof.
  revert k m. induction acts as [|a acts IH]; intros k m Hr Ha; simpl.
  { by apply kept_same. }
  destruct a.
  - destruct (keyboard_interrupt_kept k m Hr) as [Hk Em].
    destruct (keyboard_interrupt k m) as [k1 m1]. simpl in Hk.
    specialize (IH k1 m1 (proj1 Hk)). rewrite (proj1 (proj2 Hk)) in IH. specialize (IH Ha).
    destruct (run acts k1 m1) as [[[bytes reads] k2] m2].
    apply (kept_trans k _ [] k1 bytes reads k2 Hk IH).
  - pose proof (keyboard_read_kept k m Hr Ha) as Hk.
    destruct (keyboard_read true k m) as [[[status event] k1] m1]. simpl in Hk.
    specialize (IH k1 m1 (proj1 Hk)). rewrite (proj1 (proj2 Hk)) in IH. specialize (IH Ha).
    destruct (run acts k1 m1) as [[[bytes reads] k2] m2].
    apply (kept_trans k [] _ k1 bytes reads k2 Hk IH).
Qed.

(** C27 (refinement): through any interleaving of keyboard interrupts and reads,
    on any controller, the ring is a queue of the byte stream's meaning.  The
    events read so far followed by the events still waiting are what was waiting
    at first followed by the decoded bytes, in order and with nothing invented;
    exactly the events missing are counted as dropped, none is missing unless 64
    or more had to be held, and the modifiers are those of the whole stream. *)
Theorem keyboard_stream acts k (m : M) :
  ring_ok k -> k.(state).(active) = true ->
  let '(bytes, reads, k', _) := run acts k m in
  ring_ok k' /\ mods_of k' = mods_after (mods_of k) bytes /\
  (keyboard_get_state k').(queued) = zlength (pending k') /\
  reads ++ pending k' `sublist_of` pending k ++ decode (mods_of k) bytes /\
  exists lost, 0 <= lost /\
    zlength (pending k ++ decode (mods_of k) bytes) = zlength (reads ++ pending k') + lost /\
    u64 k'.(state).(dropped) = u64 (k.(state).(dropped) + lost) /\
    (zlength (pending k ++ decode (mods_of k) bytes) <= 63 ->
     reads ++ pending k' = pending k ++ decode (mods_of k) bytes).
Proof.
  intros Hr Ha. pose proof (run_kept acts k m Hr Ha) as Hk.
  destruct (run acts k m) as [[[bytes reads] k'] m'].
  destruct Hk as (Hr' & _ & Hm & lost & Hl & Hs & Hn & Hd & Hf).
  split_and!; [done|done| |done|].
  - simpl. rewrite zlength_pending. destruct Hr' as (_ & Hh & Ht).
    unfold KEYBOARD_QUEUE_MASK, KEYBOARD_QUEUE_SIZE. rewrite (land_low_mask _ 6) by lia.
    unfold u64. change 18446744073709551616 with (2 ^ 6 * 2 ^ 58).
    rewrite Z.rem_mul_r by lia. change (2 ^ 6) with 64.
    rewrite Z.mul_comm, Z_mod_plus_full, Z.mod_mod by lia. done.
  - exists lost. split_and!; try done. intros Hfew. apply sublist_length_eq; [done|].
    rewrite (Hf Hfew) in Hn. unfold zlength in Hn. lia.
Qed.
End streams.

(** * Bring-up

    What the interrupt table and the I/O APIC promise for the vectors of the I/O
    APIC's block, as far as the drivers rely on it: [handler_at] says that a
    vector has a handler, [isa_live] that an ISA interrupt is unmasked. *)
Class BringUpLaws (M : Type) `{Controller M} := {
  handler_at : M -> Z -> bool;
  isa_live : M -> Z -> bool;
  ports_same port value m :
    (forall v, handler_at (inb port m).2 v = handler_at m v /\
               handler_at (outb port value m) v = handler_at m v) /\
    (forall i, isa_live (inb port m).2 i = isa_live m i /\
               isa_live (outb port value m) i = isa_live m i) /\
    cpu_interrupts_enabled (inb port m).2 = cpu_interrupts_enabled m /\
    cpu_interrupts_enabled (outb port value m) = cpu_interrupts_enabled m;
  register_law v m :
    48 <= v < 64 ->
    let '(ok, m') := interrupt_register_handler v m in
    (forall w, handler_at m' w = handler_at m w || (ok && (w =? v))) /\
    (ok = true -> handler_at m v = false) /\
    (forall i, isa_live m' i = isa_live m i) /\
    cpu_interrupts_enabled m' = cpu_interrupts_enabled m;
  unregister_law v m :
    48 <= v < 64 -> cpu_interrupts_enabled m = false ->
    let m' := interrupt_unregister_handler v m in
    (forall w, handler_at m' w = handler_at m w && negb (w =? v)) /\
    (forall i, isa_live m' i = isa_live m i) /\
    cpu_interrupts_enabled m' = cpu_interrupts_enabled m;
  route_law irq v m :
    let '(ok, m') := ioapic_route_isa_irq irq v m in
    (if ok then isa_live m' irq = true else isa_live m' irq = true -> isa_live m irq = true) /\
    (forall w, handler_at m' w = handler_at m w) /\
    cpu_interrupts_enabled m' = cpu_interrupts_enabled m;
  mask_law irq m :
    cpu_interrupts_enabled m = false ->
    let m' := ioapic_mask_isa_irq irq m in
    isa_live m' irq = false /\
    (forall w, handler_at m' w = handler_at m w) /\
    cpu_interrupts_enabled m' = cpu_interrupts_enabled m
}.

Section bringing_up.
Context {M : Type} `{BringUpLaws M}.
Implicit Types m : M.

(** Port traffic touches neither handlers nor routes nor the interrupt flag. *)
Definition same (m m' : M) : Prop :=
  (forall v, handler_at m' v = handler_at m v) /\ (forall i, isa_live m' i = isa_live m i) /\
  cpu_interrupts_enabled m' = cpu_interrupts_enabled m.

#[local] Instance same_preorder : PreOrder same.
Proof.
  split; [done|]. intros x y z (H1 & H2 & H3) (H4 & H5 & H6).
  split_and!; intros; congruence.
Qed.

Lemma same_inb port m : same m (inb port m).2.
Proof. destruct (ports_same port 0 m) as (Hh & Hl & ? & _). split_and!; [apply Hh|apply Hl|done]. Qed.

Lemma same_outb port value m : same m (outb port value m).
Proof. destruct (ports_same port value m) as (Hh & Hl & _ & ?). split_and!; [apply Hh|apply Hl|done]. Qed.

Lemma same_wait ready m : same m (wait_for ready m).2.
Proof.
  unfold wait_for, controller_status.
  match goal with |- context [for_each ?b ?l ?s] =>
    pose proof (for_each_inv (fun _ m' => same m m') (fun m' => same m m') b l s) as Hf;
    destruct (for_each b l s); apply Hf end; try done; intros x l' s' Hs;
    pose proof (same_inb KEYBOARD_COMMAND_PORT s') as Hi;
    destruct (inb KEYBOARD_COMMAND_PORT s') as [status m']; simpl in Hi;
    destruct (ready status); by trans s'.
Qed.

Lemma same_send port value m : same m (send_to port value m).2.
Proof.
  unfold send_to, wait_to_write. set (r := fun _ => _). pose proof (same_wait r m) as Hw.
  destruct (wait_for r m) as [[] m1]; simpl in *; [|done].
  trans m1; [done|]. apply same_outb.
Qed.

Lemma same_receive m : same m (receive_data m).2.
Proof.
  unfold receive_data, wait_to_read. set (r := fun _ => _). pose proof (same_wait r m) as Hw.
  destruct (wait_for r m) as [[] m1]; simpl in *; [|done].
  pose proof (same_inb KEYBOARD_DATA_PORT m1). destruct (inb _ m1). simpl in *. by trans m1.
Qed.

Lemma same_drain m : same m (drain m).
Proof.
  unfold drain, controller_status.
  match goal with |- context [for_each ?b ?l ?s] =>
    pose proof (for_each_inv (fun _ m' => same m m') (fun m' => same m m') b l s) as Hf;
    destruct (for_each b l s); apply Hf end; try done; intros x l' s' Hs;
    pose proof (same_inb KEYBOARD_COMMAND_PORT s') as Hi;
    destruct (inb KEYBOARD_COMMAND_PORT s') as [status m']; simpl in Hi;
    destruct (_ || _); (trans s'; [done|]); [done| |done|]; (trans m'; [done|]); apply same_inb.
Qed.

(** A step of the bring-up that only talks to the ports. *)
Lemma talk_rule (e : keyboard_status * M) (P : keyboard_status -> M -> Prop) m f
    (k : M -> keyboard_status * M) :
  same m e.2 ->
  (forall s m', same m m' -> s <> KEYBOARD_STATUS_OK -> P s (f m')) ->
  (forall m', same m m' -> P (k m').1 (k m').2) ->
  let r := (let '(s, m) := e in
            if negb (bool_decide (s = KEYBOARD_STATUS_OK)) then (s, f m) else k m) in
  P r.1 r.2.
Proof.
  intros He Hf Hk. destruct e as [s m']. simpl in *.
  destruct (bool_decide_reflect (s = KEYBOARD_STATUS_OK)); simpl; [by apply Hk|by apply Hf].
Qed.

(** What is left behind: both installed, or neither. *)
Definition settled (m : M) (s : keyboard_status) (m' : M) : Prop :=
  cpu_interrupts_enabled m' = cpu_interrupts_enabled m /\
  if bool_decide (s = KEYBOARD_STATUS_OK) then
    handler_at m KEYBOARD_VECTOR = false /\
    (forall v, handler_at m' v = handler_at m v || (v =? KEYBOARD_VECTOR)) /\
    isa_live m' KEYBOARD_IRQ = true
  else
    (forall v, handler_at m' v = handler_at m v) /\ isa_live m' KEYBOARD_IRQ = false.

Lemma settled_refused m m' s :
  s <> KEYBOARD_STATUS_OK -> isa_live m KEYBOARD_IRQ = false -> same m m' -> settled m s m'.
Proof.
  intros Hs Hl (H1 & H2 & H3). split; [done|]. rewrite bool_decide_false by done.
  by rewrite H2.
Qed.

Lemma unwind_settled m m1 m' s :
  cpu_interrupts_enabled m = false -> handler_at m KEYBOARD_VECTOR = false ->
  (forall v, handler_at m1 v = handler_at m v || (v =? KEYBOARD_VECTOR)) ->
  cpu_interrupts_enabled m1 = cpu_interrupts_enabled m ->
  same m1 m' -> s <> KEYBOARD_STATUS_OK -> settled m s (unwind m').
Proof.
  intros Hi Hv Hh Hf (S1 & S2 & S3) Hs. unfold unwind.
  destruct (mask_law KEYBOARD_IRQ m') as (L1 & L2 & L3); [congruence|].
  destruct (unregister_law KEYBOARD_VECTOR (ioapic_mask_isa_irq KEYBOARD_IRQ m'))
    as (U1 & U2 & U3); [by vm_compute|congruence|].
  split; [congruence|]. rewrite bool_decide_false by done. split; [|by rewrite U2].
  intros v. rewrite U1, L2, S1, Hh. destruct (v =? KEYBOARD_VECTOR) eqn:E; bool_hyps; subst.
  - by rewrite Hv.
  - by rewrite orb_false_r, andb_true_r.
Qed.

Lemma enable_port_settled m m1 configuration :
  cpu_interrupts_enabled m = false -> handler_at m KEYBOARD_VECTOR = false ->
  (forall v, handler_at m1 v = handler_at m v || (v =? KEYBOARD_VECTOR)) ->
  cpu_interrupts_enabled m1 = cpu_interrupts_enabled m -> isa_live m1 KEYBOARD_IRQ = true ->
  settled m (enable_port configuration m1).1 (enable_port configuration m1).2.
Proof.
  intros Hi Hv Hh Hf Hl.
  assert (forall s m', same m1 m' -> s <> KEYBOARD_STATUS_OK -> settled m s (unwind m')) as Hun
    by (intros; by eapply unwind_settled).
  unfold enable_port. apply (talk_rule _ (settled m) m1); [apply same_send|done|].
  intros m2 Hs. apply (talk_rule _ (settled m) m1); [trans m2; [done|apply same_send]|done|].
  intros m3 Hs3. apply (talk_rule _ (settled m) m1); [trans m3; [done|apply same_send]|done|].
  intros m4 Hs4. simpl. destruct (same_drain m4) as (D1 & D2 & D3). destruct Hs4 as (S1 & S2 & S3).
  split; [congruence|]. rewrite bool_decide_true by done. split; [done|].
  split; [intros v; by rewrite D1, S1|by rewrite D2, S2].
Qed.

Lemma install_settled m m1 configuration :
  cpu_interrupts_enabled m = false -> isa_live m KEYBOARD_IRQ = false -> same m m1 ->
  settled m (install_handler configuration m1).1 (install_handler configuration m1).2.
Proof.
  intros Hi Hl (S1 & S2 & S3). unfold install_handler.
  pose proof (register_law KEYBOARD_VECTOR m1 ltac:(by vm_compute)) as Hr.
  destruct (interrupt_register_handler KEYBOARD_VECTOR m1) as [[] m2];
    destruct Hr as (R1 & R2 & R3 & R4); cbn [andb] in R1.
  2: { simpl; apply settled_refused; [done..|]. split_and!; [intros v|intros i|simpl in *; congruence].
       - by rewrite R1, orb_false_r, S1.
       - by rewrite R3, S2. }
  specialize (R2 eq_refl). rewrite S1 in R2.
  pose proof (route_law KEYBOARD_IRQ KEYBOARD_VECTOR m2) as Ht.
  destruct (ioapic_route_isa_irq KEYBOARD_IRQ KEYBOARD_VECTOR m2) as [[] m3];
    destruct Ht as (T1 & T2 & T3).
  - apply enable_port_settled; try done; [|congruence].
    intros v. by rewrite T2, R1, S1.
  - destruct (unregister_law KEYBOARD_VECTOR m3) as (U1 & U2 & U3); [by vm_compute|congruence|].
    split; [simpl; congruence|]. cbn [fst snd]. rewrite bool_decide_false by done. split.
    + intros v. rewrite U1, T2, R1, S1. destruct (v =? KEYBOARD_VECTOR) eqn:E; bool_hyps; subst.
      * by rewrite R2.
      * by rewrite orb_false_r, andb_true_r.
    + rewrite U2. apply not_true_is_false. intros C. apply T1 in C. rewrite R3, S2 in C. congruence.
Qed.

Lemma received_rule (m : M) m1 (P : keyboard_status -> M -> Prop) k :
  same m m1 ->
  (forall s m', same m m' -> s <> KEYBOARD_STATUS_OK -> P s m') ->
  (forall v m', same m m' -> P (k v m').1 (k v m').2) ->
  P (received (receive_data m1) k).1 (received (receive_data m1) k).2.
Proof.
  intros Hs Hf Hk. unfold received. pose proof (same_receive m1) as Hr.
  destruct (receive_data m1) as [[s value] m2]. simpl in Hr.
  assert (same m m2) as Hs2 by by trans m1.
  destruct (bool_decide_reflect (s = KEYBOARD_STATUS_OK)); simpl; [by apply Hk|by apply Hf].
Qed.

Lemma bring_up_settled m :
  cpu_interrupts_enabled m = false -> isa_live m KEYBOARD_IRQ = false ->
  settled m (bring_up m).1 (bring_up m).2.
Proof.
  intros Hi Hl.
  assert (forall s m', same m m' -> s <> KEYBOARD_STATUS_OK -> settled m s m') as Href
    by (intros; by apply settled_refused).
  assert (forall port value m', same m m' -> same m (send_to port value m').2) as Hsend
    by (intros; etrans; [done|apply same_send]).
  unfold bring_up. apply (talk_rule _ (settled m) m); [by apply Hsend|done|intros m1 H1].
  apply (talk_rule _ (settled m) m); [by apply Hsend|done|intros m2 H2].
  assert (same m (drain m2)) as Hd by (etrans; [done|apply same_drain]).
  apply (talk_rule _ (settled m) m); [by apply Hsend|done|intros m3 H3].
  apply (received_rule m m3 (settled m)); [done..|]. intros c m4 H4.
  apply (talk_rule _ (settled m) m); [by apply Hsend|done|intros m5 H5].
  apply (talk_rule _ (settled m) m); [by apply Hsend|done|intros m6 H6].
  apply (talk_rule _ (settled m) m); [by apply Hsend|done|intros m7 H7].
  apply (received_rule m m7 (settled m)); [done..|]. intros a m8 H8.
  destruct (negb (a =? KEYBOARD_SELF_TEST_PASSED)); [by apply Href|].
  apply (talk_rule _ (settled m) m); [by apply Hsend|done|intros m9 H9].
  apply (talk_rule _ (settled m) m); [by apply Hsend|done|intros m10 H10].
  apply (talk_rule _ (settled m) m); [by apply Hsend|done|intros m11 H11].
  apply (received_rule m m11 (settled m)); [done..|]. intros b m12 H12.
  destruct (negb (b =? KEYBOARD_PORT_TEST_PASSED)); [by apply Href|].
  by apply install_settled.
Qed.

(** [keyboard_initialize] on a machine whose keyboard interrupt is
    masked either succeeds, and then the driver is active with an empty queue,
    its vector was free and now has the handler, and the interrupt is live, or
    it refuses, whatever the controller answered and wherever it stopped, and
    then the driver's state is what it was, every vector has the handler it had
    and the interrupt is still masked.  A driver that is up, enabled interrupts
    and a missing I/O APIC are refused before any port is touched. *)
Theorem keyboard_initialize_exact k m :
  isa_live m KEYBOARD_IRQ = false ->
  let '(status, k', m') := keyboard_initialize k m in
  if bool_decide (status = KEYBOARD_STATUS_OK) then
    k.(state).(active) = false /\ cpu_interrupts_enabled m = false /\
    ioapic_is_initialized m = true /\
    k'.(state).(active) = true /\ pending k' = [] /\ k'.(expecting_extended) = false /\
    handler_at m KEYBOARD_VECTOR = false /\
    (forall v, handler_at m' v = handler_at m v || (v =? KEYBOARD_VECTOR)) /\
    isa_live m' KEYBOARD_IRQ = true
  else
    k' = k /\ (forall v, handler_at m' v = handler_at m v) /\
    isa_live m' KEYBOARD_IRQ = false /\
    (k.(state).(active) = true \/ cpu_interrupts_enabled m = true \/
     ioapic_is_initialized m = false -> m' = m).
Proof.
  intros Hl. unfold keyboard_initialize.
  destruct k.(state).(active) eqn:Ea; [cbv iota beta; by rewrite bool_decide_false by done|].
  destruct (cpu_interrupts_enabled m) eqn:Ei; [cbv iota beta; by rewrite bool_decide_false by done|].
  destruct (ioapic_is_initialized m) eqn:Eo; cbn [negb]; [|cbv iota beta; by rewrite bool_decide_false by done].
  destruct (bring_up_settled m Ei Hl) as [_ Hb].
  destruct (bring_up m) as [s m']. simpl in Hb.
  destruct (bool_decide_reflect (s = KEYBOARD_STATUS_OK)) as [->|Hs].
  - cbv iota beta. rewrite bool_decide_true by done. destruct Hb as (? & ? & ?). split_and!; try done.
  - destruct s; try done; destruct Hb as [? ?]; cbv iota beta; rewrite bool_decide_false by done;
      split_and!; try done; intros [?|[?|?]]; congruence.
Qed.
End bringing_up.

(** What a key types.  For every scancode and state of the
    modifiers the release bit changes nothing; a letter key types the capital
    exactly when one of shift and caps lock is on, and caps lock affects no
    other key; only printable characters, backspace, tab and return come out, a
    key being silent in every state or in none; and every printable ASCII
    character can be typed. *)
Theorem keyboard_types :
  (forall code s c, 0 <= code < 256 ->
    let plain := keyboard_character_for code false false in
    let ch := keyboard_character_for code s c in
    ch = keyboard_character_for (code mod 128) s c /\
    ch = (if (97 <=? plain) && (plain <=? 122) then (if xorb s c then plain - 32 else plain)
          else keyboard_character_for code s false) /\
    (ch = 0 \/ 32 <= ch <= 126 \/ ch = 8 \/ ch = 9 \/ ch = 10) /\ (ch = 0 <-> plain = 0)) /\
  (forall ch, 32 <= ch <= 126 ->
    exists code s, 0 <= code < 128 /\ keyboard_character_for code s false = ch).
Proof.
  split; [|exact printable_typed]. intros code s c Hc plain ch.
  pose proof (layout_holds code s c Hc) as E. unfold layout_of, is_lower, is_typed in E.
  fold plain ch in E. rewrite !andb_true_iff in E. destruct E as [[[E1 E2] E3] E4].
  bool_hyps. apply Bool.eqb_prop in E4.
  split_and!; [done|done| |].
  - rewrite !orb_true_iff, andb_true_iff, !Z.eqb_eq, !Z.leb_le in E3. lia.
  - destruct (ch =? 0) eqn:X, (plain =? 0) eqn:Y; bool_hyps; done || lia.
Qed.

(** [keyboard_self_test] passes in every state. *)
Lemma keyboard_self_test_passes {M} `{Controller M} k (m : M) : keyboard_self_test k m = (true, m).
Proof.
  unfold keyboard_self_test.
  replace translation_is_right with true by (vm_compute; reflexivity).
  replace refusals_are_named with true by (vm_compute; reflexivity). simpl.
  destruct k.(state).(active) eqn:E; simpl; [done|].
  unfold keyboard_read, keyboard_inject_scancode. by rewrite E.
Qed.

(** * A controller that answers *)

(** The output buffer holds bytes of either port; [want] is the command whose
    data byte comes next. *)
Record bench : Type := MkBench {
  output : list (bool * Z);
  configuration_byte : Z;
  want : Z;
  flag : bool;
  handlers : list Z;
  live : list Z
}.

Definition with_output (b : bench) (o : list (bool * Z)) : bench :=
  MkBench o b.(configuration_byte) b.(want) b.(flag) b.(handlers) b.(live).
Definition push (b : bench) (aux : bool) (v : Z) : bench := with_output b (b.(output) ++ [(aux, v)]).
Definition with_want (b : bench) (w : Z) : bench :=
  MkBench b.(output) b.(configuration_byte) w b.(flag) b.(handlers) b.(live).
Definition with_flag (b : bench) (f : bool) : bench :=
  MkBench b.(output) b.(configuration_byte) b.(want) f b.(handlers) b.(live).
Definition with_handlers (b : bench) (h : list Z) : bench :=
  MkBench b.(output) b.(configuration_byte) b.(want) b.(flag) h b.(live).
Definition with_live (b : bench) (l : list Z) : bench :=
  MkBench b.(output) b.(configuration_byte) b.(want) b.(flag) b.(handlers) l.
Definition member (l : list Z) (x : Z) : bool := existsb (Z.eqb x) l.

Definition bench_inb (port : Z) (b : bench) : Z * bench :=
  match b.(output) with
  | [] => (0, b)
  | (aux, v) :: rest =>
      if port =? 0x64 then (if aux then 0x21 else 0x01, b) else (v mod 256, with_output b rest)
  end.

Definition bench_command (v : Z) (b : bench) : bench :=
  let b := with_want b v in
  if v =? 0x20 then push b false b.(configuration_byte)
  else if v =? 0xAA then push b false 0x55
  else if (v =? 0xAB) || (v =? 0xA9) then push b false 0
  else b.

Definition bench_data (v : Z) (b : bench) : bench :=
  if b.(want) =? 0x60 then
    MkBench b.(output) v b.(want) b.(flag) b.(handlers) b.(live)
  else if b.(want) =? 0xD2 then push b false v
  else if b.(want) =? 0xD3 then push b true v
  else if b.(want) =? 0xD4 then push b true 0xFA
  else b.

#[export] Instance bench_controller : Controller bench := {
  inb := bench_inb;
  outb port v b := if port =? 0x64 then bench_command v b else bench_data v b;
  cpu_interrupts_enabled := flag;
  cpu_interrupt_disable b := with_flag b false;
  cpu_interrupt_enable b := with_flag b true;
  ioapic_is_initialized _ := true;
  interrupt_register_handler v b :=
    if member b.(handlers) v || b.(flag) then (false, b) else (true, with_handlers b (v :: b.(handlers)));
  interrupt_unregister_handler v b :=
    if b.(flag) then b else with_handlers b (filter (fun w => negb (w =? v) = true) b.(handlers));
  ioapic_route_isa_irq irq _ b := if b.(flag) then (false, b) else (true, with_live b (irq :: b.(live)));
  ioapic_mask_isa_irq irq b :=
    if b.(flag) then b else with_live b (filter (fun i => negb (i =? irq) = true) b.(live))
}.

#[export] Instance bench_laws : ControllerLaws bench.
Proof.
  split; [|done..]. intros port b. cbn. unfold bench_inb.
  destruct b.(output) as [|[[] v] rest]; [cbn; lia|destruct (port =? 0x64); cbn..]; try lia; by apply Z.mod_pos_bound.
Qed.

Lemma member_filter l v w :
  member (filter (fun w => negb (w =? v) = true) l) w = member l w && negb (w =? v).
Proof.
  unfold member. induction l as [|x l IH]; [done|]. rewrite filter_cons.
  destruct (decide (negb (x =? v) = true)) as [E|E]; cbn [existsb]; rewrite IH.
  - destruct (w =? x) eqn:E2; [|done]. bool_hyps. subst. cbn [orb andb].
    apply Z.eqb_neq in E. by rewrite E.
  - apply not_true_is_false in E. bool_hyps. subst.
    destruct (w =? v); [by rewrite !andb_false_r|done].
Qed.

Lemma bench_ports port value b :
  let b1 := (bench_inb port b).2 in
  let b2 := if port =? 0x64 then bench_command value b else bench_data value b in
  (b1.(handlers) = b.(handlers) /\ b2.(handlers) = b.(handlers)) /\
  (b1.(live) = b.(live) /\ b2.(live) = b.(live)) /\ b1.(flag) = b.(flag) /\ b2.(flag) = b.(flag).
Proof.
  unfold bench_inb, bench_command, bench_data.
  destruct b.(output) as [|[aux v] rest]; destruct (port =? 0x64); repeat (split_if; simpl); done.
Qed.

#[export] Instance bench_bring_up : BringUpLaws bench.
Proof.
  refine {| handler_at b v := member b.(handlers) v; isa_live b i := member b.(live) i |}.
  - intros port value b. destruct (bench_ports port value b) as ((E1 & E2) & (E3 & E4) & E5 & E6).
    cbn. rewrite E1, E2, E3, E4, E5, E6. done.
  - intros v b _. cbn. destruct (member b.(handlers) v) eqn:E; cbn.
    { split_and!; try done. intros w. by rewrite orb_false_r. }
    destruct b.(flag) eqn:Ef; cbn; (split_and!; [|done|done|done]); intros w.
    + by rewrite orb_false_r.
    + by rewrite orb_comm.
  - intros v b _ Hf. cbn in *. rewrite Hf. cbn. split_and!; try done. intros w. apply member_filter.
  - intros irq v b. cbn. destruct b.(flag) eqn:Ef; cbn; split_and!; try done.
    by rewrite Z.eqb_refl.
  - intros irq b Hf. cbn in *. rewrite Hf. cbn. split_and!; try done.
    etrans; [apply member_filter|]. rewrite Z.eqb_refl. apply andb_false_r.
Defined.

Definition bench0 : bench := MkBench [(false, 0x1C)] 0x45 0 false [] [].
Definition keyboard0 : keyboard :=
  MkKeyboard (MkState false 0 0 0 0 0 false false) (replicate 64 no_event) 0 0 false.

Definition keyboard_up : keyboard :=
  MkKeyboard (MkState true 0 0 0 0 0 false false) (replicate 64 no_event) 0 0 false.
Definition bench_up (output : list (bool * Z)) : bench := MkBench output 0x45 0x60 false [49] [1].

(** The waits end at the first look, which only lazy evaluation finds. *)
Lemma bench0_up : keyboard_initialize keyboard0 bench0 = (KEYBOARD_STATUS_OK, keyboard_up, bench_up []).
Proof. lazy. reflexivity. Qed.

Lemma keyboard_initialize_exact_witness :
  let '(status, k', m') := keyboard_initialize keyboard0 bench0 in
  status = KEYBOARD_STATUS_OK /\ pending k' = [] /\ handler_at m' KEYBOARD_VECTOR = true.
Proof.
  pose proof (keyboard_initialize_exact keyboard0 bench0 eq_refl) as H. rewrite bench0_up in *.
  cbv iota beta in *. rewrite bool_decide_true in H by done.
  destruct H as (_ & _ & _ & _ & Hp & _ & _ & Hh & _).
  split_and!; [done|done|]. by rewrite Hh.
Defined.

(** Shift and the a key are pressed and released. *)
Definition typing : bench :=
  bench_up [(false, 0x2A); (false, 0x1E); (false, 0x9E); (false, 0xAA)].
Definition typed : list Z * list keyboard_event * keyboard * bench :=
  Eval vm_compute in run [Interrupt; Read; Read] keyboard_up typing.

Lemma typed_run : run [Interrupt; Read; Read] keyboard_up typing = typed.
Proof. vm_compute. reflexivity. Qed.

Lemma keyboard_stream_witness :
  typed.1.1.1 = [0x2A; 0x1E; 0x9E; 0xAA] /\ map character typed.1.1.2 = [0; 65] /\
  typed.1.1.2 ++ pending typed.1.2 = decode (false, false) typed.1.1.1.
Proof.
  assert (ring_ok keyboard_up) as Hr by (vm_compute; split_and!; congruence).
  pose proof (keyboard_stream [Interrupt; Read; Read] keyboard_up typing Hr eq_refl) as H.
  rewrite typed_run in H. split_and!; [reflexivity..|].
  destruct H as (_ & _ & _ & _ & lost & _ & _ & _ & Hf). apply Hf. vm_compute. congruence.
Defined.

Lemma keyboard_types_witness :
  keyboard_character_for 0x1E true false = 65 /\
  exists code s, 0 <= code < 128 /\ keyboard_character_for code s false = 126.
Proof.
  split; [|apply (proj2 keyboard_types 126); lia].
  destruct (proj1 keyboard_types 0x1E true false) as (_ & E & _); [lia|].
  rewrite E. vm_compute. reflexivity.
Defined.
End Keyboard.
