(* ===== verification/UiLayout.v ===== *)
(** The geometry of the graphical shell: the rectangles, layout, validation and
    hit test of src/src/kernel/ui.c.

    Rectangles are half open and live in 32-bit coordinates; every addition that
    can wrap is written with its reduction.  Identifiers are integers, because
    the code checks them against their enumerations.  The theorems read the
    rectangle operations as operations on sets of points, show that every
    geometry the shell supports gets a layout its own validation accepts, and
    that the hit test of a validated layout is never ambiguous. *)
From stdpp Require Import strings.
From S2P Require Import Prelude.

Open Scope Z_scope.

Module UiLayout.

Definition UI_DOCK_ITEM_COUNT : Z := 4.
Definition UI_CURSOR_WIDTH : Z := 12.
Definition UI_CURSOR_HEIGHT : Z := 18.
Definition UI_CURSOR_HOTSPOT_X : Z := 0.
Definition UI_CURSOR_HOTSPOT_Y : Z := 0.
Definition UI_MIN_WIDTH : Z := 800.
Definition UI_MIN_HEIGHT : Z := 600.
Definition UI_MAX_WIDTH : Z := 1920.
Definition UI_MAX_HEIGHT : Z := 1200.
Definition UI_LOGO_WIDTH : Z := 280.
Definition UI_LOGO_HEIGHT : Z := 248.
Definition UI_MENU_HEIGHT : Z := 24.
Definition UI_WORKSPACE_BAR_HEIGHT : Z := 22.
Definition UI_HERO_WIDTH : Z := 600.
Definition UI_HERO_HEIGHT : Z := 350.
Definition UI_HERO_TITLE_HEIGHT : Z := 26.
Definition UI_DOCK_ITEM_WIDTH : Z := 142.
Definition UI_DOCK_ITEM_HEIGHT : Z := 46.
Definition UI_DOCK_GAP : Z := 4.
Definition UI_DOCK_PADDING : Z := 8.
Definition UI_DOCK_HEIGHT : Z := 64.
Definition UI_FONT_ASCENT : Z := 12.
Definition UI_FONT_DESCENT : Z := 4.

Definition UI_ELEMENT_NONE : Z := 0.
Definition UI_ELEMENT_DOCK_TERMINAL : Z := 1.
Definition UI_ELEMENT_DOCK_LEDGER : Z := 2.
Definition UI_ELEMENT_DOCK_SYSTEM : Z := 3.
Definition UI_ELEMENT_DOCK_ABOUT : Z := 4.
Definition UI_ELEMENT_COUNT : Z := 5.
Definition UI_PANEL_NONE : Z := 0.
Definition UI_PANEL_TERMINAL : Z := 1.
Definition UI_PANEL_LEDGER : Z := 2.
Definition UI_PANEL_SYSTEM : Z := 3.
Definition UI_PANEL_ABOUT : Z := 4.
Definition UI_PANEL_COUNT : Z := 5.
Definition UI_ACTION_NONE : Z := 0.
Definition UI_ACTION_TOGGLE_TERMINAL : Z := 1.
Definition UI_ACTION_TOGGLE_LEDGER : Z := 2.
Definition UI_ACTION_TOGGLE_SYSTEM : Z := 3.
Definition UI_ACTION_TOGGLE_ABOUT : Z := 4.
Definition UI_ACTION_COUNT : Z := 5.

Inductive ui_status : Type :=
| UI_STATUS_OK
| UI_STATUS_NULL_ARGUMENT
| UI_STATUS_ALREADY_INITIALIZED
| UI_STATUS_NOT_INITIALIZED
| UI_STATUS_NOT_ACTIVE
| UI_STATUS_UNSUPPORTED_GEOMETRY
| UI_STATUS_RECTANGLE_OVERFLOW
| UI_STATUS_RECTANGLE_OUT_OF_BOUNDS
| UI_STATUS_DUPLICATE_ELEMENT_ID
| UI_STATUS_DOCK_OVERLAP
| UI_STATUS_EMPTY_PANEL_CLIENT
| UI_STATUS_TEXT_BASELINE_OUT_OF_BOUNDS
| UI_STATUS_BAD_CURSOR_HOTSPOT
| UI_STATUS_HIT_TEST_AMBIGUOUS
| UI_STATUS_EVENT_QUEUE_FULL
| UI_STATUS_BAD_EVENT
| UI_STATUS_BAD_ELEMENT
| UI_STATUS_BAD_PANEL
| UI_STATUS_FONT_FAILURE
| UI_STATUS_SURFACE_FAILURE
| UI_STATUS_LOGO_FAILURE
| UI_STATUS_SCREEN_FAILURE
| UI_STATUS_INSTALLED_PROOF_FAILURE.

#[export] Instance ui_status_eq_dec : EqDecision ui_status.
Proof. solve_decision. Defined.

Record ui_point : Type := MkPoint { point_x : Z; point_y : Z }.
Record ui_rect : Type := MkRect { rx : Z; ry : Z; rwidth : Z; rheight : Z }.

#[export] Instance ui_point_eq_dec : EqDecision ui_point.
Proof. solve_decision. Defined.
#[export] Instance ui_rect_eq_dec : EqDecision ui_rect.
Proof. solve_decision. Defined.

Record ui_dock_item : Type := MkItem {
  id : Z;
  label : option string;
  bounds : ui_rect;
  icon_bounds : ui_rect;
  action : Z;
  panel_of : Z
}.

Record ui_layout : Type := MkLayout {
  surface : ui_rect;
  menu_bar : ui_rect;
  workspace_bar : ui_rect;
  hero_window : ui_rect;
  logo : ui_rect;
  wordmark : ui_rect;
  motto : ui_rect;
  ledger_status : ui_rect;
  dock : ui_rect;
  dock_items : list ui_dock_item;
  panel : ui_rect;
  panel_client : ui_rect;
  menu_baseline : Z;
  hero_title_baseline : Z;
  title_baseline : Z;
  motto_baseline : Z;
  status_baseline : Z;
  dock_label_baseline : Z;
  panel_title_baseline : Z;
  panel_text_baseline : Z
}.

Definition no_rect : ui_rect := MkRect 0 0 0 0.
Definition no_item : ui_dock_item := MkItem 0 None no_rect no_rect 0 0.

(** * Rectangles *)

(** The sum, when it fits. *)
Definition add_u32 (left right : Z) : option Z :=
  if left >? UINT32_MAX - right then None else Some (u32 (left + right)).

(** The right and bottom edges, when the rectangle has an area and both fit. *)
Definition rect_end (r : ui_rect) : option (Z * Z) :=
  if negb (r.(rwidth) =? 0) && negb (r.(rheight) =? 0) then
    match add_u32 r.(rx) r.(rwidth), add_u32 r.(ry) r.(rheight) with
    | Some r_right, Some bottom => Some (r_right, bottom)
    | _, _ => None
    end
  else None.

Definition drop_shadow_bounds (r : ui_rect) (offset : Z) : ui_rect :=
  match add_u32 r.(rwidth) offset, add_u32 r.(rheight) offset with
  | Some width, Some height => MkRect r.(rx) r.(ry) width height
  | _, _ => no_rect
  end.

Definition drop_shadow_draw_rect (r : ui_rect) (offset : Z) : ui_rect :=
  match add_u32 r.(rx) offset, add_u32 r.(ry) offset with
  | Some x, Some y => MkRect x y r.(rwidth) r.(rheight)
  | _, _ => no_rect
  end.

Definition rect_contains_point (r : ui_rect) (p : ui_point) : bool :=
  (p.(point_x) >=? 0) && (p.(point_y) >=? 0) &&
  match rect_end r with
  | Some (r_right, bottom) =>
      (u32 p.(point_x) >=? r.(rx)) && (u32 p.(point_x) <? r_right) &&
      (u32 p.(point_y) >=? r.(ry)) && (u32 p.(point_y) <? bottom)
  | None => false
  end.

Definition rects_intersect (left right : ui_rect) : bool :=
  match rect_end left, rect_end right with
  | Some (left_right, left_bottom), Some (right_right, right_bottom) =>
      (left.(rx) <? right_right) && (right.(rx) <? left_right) &&
      (left.(ry) <? right_bottom) && (right.(ry) <? left_bottom)
  | _, _ => false
  end.

Definition rect_intersection (left right : ui_rect) : ui_rect :=
  if negb (rects_intersect left right) then no_rect
  else
  match rect_end left, rect_end right with
  | Some (left_right, left_bottom), Some (right_right, right_bottom) =>
      let x := if left.(rx) >? right.(rx) then left.(rx) else right.(rx) in
      let y := if left.(ry) >? right.(ry) then left.(ry) else right.(ry) in
      let end_x := if left_right <? right_right then left_right else right_right in
      let end_y := if left_bottom <? right_bottom then left_bottom else right_bottom in
      MkRect x y (u32 (end_x - x)) (u32 (end_y - y))
  | _, _ => no_rect
  end.

Definition rect_union (left right : ui_rect) : ui_rect :=
  if (left.(rwidth) =? 0) || (left.(rheight) =? 0) then right
  else if (right.(rwidth) =? 0) || (right.(rheight) =? 0) then left
  else
  match rect_end left, rect_end right with
  | Some (left_right, left_bottom), Some (right_right, right_bottom) =>
      let start_x := if left.(rx) <? right.(rx) then left.(rx) else right.(rx) in
      let start_y := if left.(ry) <? right.(ry) then left.(ry) else right.(ry) in
      let end_x := if left_right >? right_right then left_right else right_right in
      let end_y := if left_bottom >? right_bottom then left_bottom else right_bottom in
      MkRect start_x start_y (u32 (end_x - start_x)) (u32 (end_y - start_y))
  | _, _ => no_rect
  end.

Definition dock_bounds_for (layout : option ui_layout) (element : Z) : ui_rect :=
  match layout with
  | None => no_rect
  | Some l =>
      if (element <=? UI_ELEMENT_NONE) || (element >=? UI_ELEMENT_COUNT) then no_rect
      else (aget no_item l.(dock_items) (element - 1)).(bounds)
  end.

(** [panel_for_element] of the code reads the layout of the shell's state. *)
Definition panel_for_element (l : ui_layout) (element : Z) : Z :=
  if (element <=? UI_ELEMENT_NONE) || (element >=? UI_ELEMENT_COUNT) then UI_PANEL_NONE
  else (aget no_item l.(dock_items) (element - 1)).(panel_of).

Definition baseline_fits (r : ui_rect) (baseline : Z) : bool :=
  match rect_end r with
  | Some (_, bottom) =>
      (baseline >=? u32 (r.(ry) + UI_FONT_ASCENT)) &&
      (baseline <=? UINT32_MAX - UI_FONT_DESCENT) &&
      (u32 (baseline + UI_FONT_DESCENT) <=? bottom)
  | None => false
  end.

(** * The hit test *)

(** [element] is false for a NULL destination. *)
Definition ui_hit_test (layout : option ui_layout) (p : ui_point) (element : bool)
  : ui_status * option Z :=
  match layout with
  | Some l =>
      if negb element then (UI_STATUS_NULL_ARGUMENT, None)
      else
      match for_each (fun index hit =>
              let item := aget no_item l.(dock_items) index in
              if negb (rect_contains_point item.(bounds) p) then Next hit
              else if negb (hit =? UI_ELEMENT_NONE) then Return tt
              else Next item.(id))
              (seqZ 0 UI_DOCK_ITEM_COUNT) UI_ELEMENT_NONE with
      | Return _ => (UI_STATUS_HIT_TEST_AMBIGUOUS, None)
      | Next hit => (UI_STATUS_OK, Some hit)
      end
  | None => (UI_STATUS_NULL_ARGUMENT, None)
  end.

(** * Validation *)

Definition validate_rect (r s : ui_rect) : ui_status :=
  match rect_end r with
  | None => UI_STATUS_RECTANGLE_OVERFLOW
  | Some (r_right, bottom) =>
      match rect_end s with
      | None => UI_STATUS_RECTANGLE_OVERFLOW
      | Some (surface_right, surface_bottom) =>
          if (r.(rx) <? s.(rx)) || (r.(ry) <? s.(ry)) || (r_right >? surface_right) ||
             (bottom >? surface_bottom)
          then UI_STATUS_RECTANGLE_OUT_OF_BOUNDS
          else UI_STATUS_OK
      end
  end.

Definition rectangles (l : ui_layout) : list ui_rect :=
  [l.(surface); l.(menu_bar); l.(workspace_bar); l.(hero_window); l.(logo); l.(wordmark);
   l.(motto); l.(ledger_status); l.(dock); l.(panel); l.(panel_client);
   drop_shadow_bounds l.(hero_window) 7; drop_shadow_bounds l.(dock) 6;
   drop_shadow_bounds l.(panel) 6].

Definition is_ok (s : ui_status) : bool := bool_decide (s = UI_STATUS_OK).

(** One item of the dock; [seen] holds the identifiers of the items before it. *)
Definition validate_item (l : ui_layout) (index : Z) (seen : list bool)
  : ctl (list bool) ui_status :=
  let item := aget no_item l.(dock_items) index in
  if (item.(id) <=? UI_ELEMENT_NONE) || (item.(id) >=? UI_ELEMENT_COUNT) ||
     (item.(action) <=? UI_ACTION_NONE) || (item.(action) >=? UI_ACTION_COUNT) ||
     (item.(panel_of) <=? UI_PANEL_NONE) || (item.(panel_of) >=? UI_PANEL_COUNT) ||
     bool_decide (item.(label) = None)
  then Return UI_STATUS_BAD_ELEMENT
  else if aget false seen item.(id) then Return UI_STATUS_DUPLICATE_ELEMENT_ID
  else
  let seen := aset seen item.(id) true in
  if negb (is_ok (validate_rect item.(bounds) l.(dock))) ||
     negb (is_ok (validate_rect item.(icon_bounds) item.(bounds)))
  then Return UI_STATUS_RECTANGLE_OUT_OF_BOUNDS
  else if existsb (fun other =>
            rects_intersect item.(bounds) (aget no_item l.(dock_items) other).(bounds))
            (seqZ (index + 1) (UI_DOCK_ITEM_COUNT - (index + 1)))
  then Return UI_STATUS_DOCK_OVERLAP
  else Next seen.

Definition baselines (l : ui_layout) : bool :=
  baseline_fits l.(menu_bar) l.(menu_baseline) &&
  baseline_fits l.(hero_window) l.(hero_title_baseline) &&
  baseline_fits l.(wordmark) l.(title_baseline) &&
  baseline_fits l.(motto) l.(motto_baseline) &&
  baseline_fits l.(ledger_status) l.(status_baseline) &&
  baseline_fits l.(panel) l.(panel_title_baseline) &&
  baseline_fits l.(panel_client) l.(panel_text_baseline).

Definition ui_layout_validate (layout : option ui_layout) : ui_status :=
  match layout with
  | None => UI_STATUS_NULL_ARGUMENT
  | Some l =>
      if (l.(surface).(rwidth) <? UI_MIN_WIDTH) || (l.(surface).(rheight) <? UI_MIN_HEIGHT)
      then UI_STATUS_UNSUPPORTED_GEOMETRY
      else
      match for_each (fun r (_ : unit) =>
              let status := validate_rect r l.(surface) in
              if negb (is_ok status) then Return status else Next tt)
              (rectangles l) tt with
      | Return status => status
      | Next _ =>
          if (l.(panel_client).(rwidth) =? 0) || (l.(panel_client).(rheight) =? 0)
          then UI_STATUS_EMPTY_PANEL_CLIENT
          else
          match for_each (validate_item l) (seqZ 0 UI_DOCK_ITEM_COUNT)
                  (replicate (Z.to_nat UI_ELEMENT_COUNT) false) with
          | Return status => status
          | Next seen =>
              if existsb (fun id => negb (aget false seen id))
                   (seqZ UI_ELEMENT_DOCK_TERMINAL (UI_ELEMENT_COUNT - UI_ELEMENT_DOCK_TERMINAL))
              then UI_STATUS_BAD_ELEMENT
              else if negb (baselines l) then UI_STATUS_TEXT_BASELINE_OUT_OF_BOUNDS
              else if existsb (fun index =>
                        negb (baseline_fits (aget no_item l.(dock_items) index).(bounds)
                                l.(dock_label_baseline)))
                        (seqZ 0 UI_DOCK_ITEM_COUNT)
              then UI_STATUS_TEXT_BASELINE_OUT_OF_BOUNDS
              else if (UI_CURSOR_HOTSPOT_X >=? UI_CURSOR_WIDTH) ||
                      (UI_CURSOR_HOTSPOT_Y >=? UI_CURSOR_HEIGHT)
              then UI_STATUS_BAD_CURSOR_HOTSPOT
              else UI_STATUS_OK
          end
      end
  end.

(** * Building a layout *)

Definition ids : list Z :=
  [UI_ELEMENT_DOCK_TERMINAL; UI_ELEMENT_DOCK_LEDGER; UI_ELEMENT_DOCK_SYSTEM; UI_ELEMENT_DOCK_ABOUT].
Definition labels : list (option string) :=
  [Some "Terminal"; Some "Ledger"; Some "System"; Some "About"]%string.
Definition actions : list Z :=
  [UI_ACTION_TOGGLE_TERMINAL; UI_ACTION_TOGGLE_LEDGER; UI_ACTION_TOGGLE_SYSTEM;
   UI_ACTION_TOGGLE_ABOUT].
Definition panels : list Z :=
  [UI_PANEL_TERMINAL; UI_PANEL_LEDGER; UI_PANEL_SYSTEM; UI_PANEL_ABOUT].

Definition dock_width : Z :=
  UI_DOCK_PADDING * 2 + UI_DOCK_ITEM_COUNT * UI_DOCK_ITEM_WIDTH +
  (UI_DOCK_ITEM_COUNT - 1) * UI_DOCK_GAP.

Definition dock_item_at (d : ui_rect) (index : Z) : ui_dock_item :=
  let x := u32 (u32 (d.(rx) + UI_DOCK_PADDING) + index * (UI_DOCK_ITEM_WIDTH + UI_DOCK_GAP)) in
  MkItem (aget 0 ids index) (aget None labels index)
    (MkRect x (u32 (d.(ry) + 9)) UI_DOCK_ITEM_WIDTH UI_DOCK_ITEM_HEIGHT)
    (MkRect (u32 (x + 8)) (u32 (d.(ry) + 18)) 28 28)
    (aget 0 actions index) (aget 0 panels index).

(** The fields ui_layout_build stores, before it validates them. *)
Definition layout_at (width height : Z) : ui_layout :=
  let hero_y := if height =? UI_MIN_HEIGHT then 56 else 70 in
  let hero := MkRect (u32 (width - UI_HERO_WIDTH) / 2) hero_y UI_HERO_WIDTH UI_HERO_HEIGHT in
  let wordmark_ := MkRect (u32 (hero.(rx) + 330)) (u32 (hero_y + 70)) 224 16 in
  let motto_ := MkRect wordmark_.(rx) (u32 (wordmark_.(ry) + 28)) 224 16 in
  let status := MkRect wordmark_.(rx) (u32 (motto_.(ry) + 110)) 224 28 in
  let dock_ := MkRect (u32 (width - dock_width) / 2) (u32 (u32 (height - 18) - UI_DOCK_HEIGHT))
                 dock_width UI_DOCK_HEIGHT in
  let panel_width := if u32 (width - 64) <? 720 then u32 (width - 64) else 720 in
  let panel_height := if height >=? 720 then 400 else 300 in
  let panel_ := MkRect (u32 (width - panel_width) / 2)
                  (u32 (u32 (dock_.(ry) - panel_height) - 18)) panel_width panel_height in
  let client := MkRect (u32 (panel_.(rx) + 8)) (u32 (panel_.(ry) + 36))
                  (u32 (panel_width - 16)) (u32 (panel_height - 44)) in
  MkLayout (MkRect 0 0 width height) (MkRect 0 0 width UI_MENU_HEIGHT)
    (MkRect 0 UI_MENU_HEIGHT width UI_WORKSPACE_BAR_HEIGHT) hero
    (MkRect (u32 (hero.(rx) + 20)) (u32 (u32 (hero_y + UI_HERO_TITLE_HEIGHT) + 18))
       UI_LOGO_WIDTH UI_LOGO_HEIGHT)
    wordmark_ motto_ status dock_
    (map (dock_item_at dock_) (seqZ 0 UI_DOCK_ITEM_COUNT))
    panel_ client 17 (u32 (hero_y + 19)) (u32 (wordmark_.(ry) + UI_FONT_ASCENT))
    (u32 (motto_.(ry) + UI_FONT_ASCENT)) (u32 (status.(ry) + 18)) (u32 (dock_.(ry) + 39))
    (u32 (panel_.(ry) + 21)) (u32 (client.(ry) + UI_FONT_ASCENT)).

(** [destination] is false for NULL; the second component is what is stored. *)
Definition ui_layout_build (width height : Z) (destination : bool)
  : ui_status * option ui_layout :=
  if negb destination then (UI_STATUS_NULL_ARGUMENT, None)
  else if (width <? UI_MIN_WIDTH) || (height <? UI_MIN_HEIGHT) ||
          (width >? UI_MAX_WIDTH) || (height >? UI_MAX_HEIGHT)
  then (UI_STATUS_UNSUPPORTED_GEOMETRY, None)
  else let l := layout_at width height in (ui_layout_validate (Some l), Some l).

(** * Rectangles as sets of points *)

Lemma existsb_false {A} (p : A -> bool) l : (forall x, x ∈ l -> p x = false) -> existsb p l = false.
Proof.
  intros H. induction l as [|x l IH]; [done|]. simpl. rewrite H by left. apply IH.
  intros y Hy. apply H. by right.
Qed.


Definition is_rect (r : ui_rect) : Prop :=
  is_u32 r.(rx) /\ is_u32 r.(ry) /\ is_u32 r.(rwidth) /\ is_u32 r.(rheight).

(** The edges stay inside the coordinate space. *)
Definition fits (r : ui_rect) : Prop :=
  is_rect r /\ r.(rx) + r.(rwidth) <= UINT32_MAX /\ r.(ry) + r.(rheight) <= UINT32_MAX.

Definition inside (r : ui_rect) (x y : Z) : Prop :=
  r.(rx) <= x < r.(rx) + r.(rwidth) /\ r.(ry) <= y < r.(ry) + r.(rheight).

Definition empty (r : ui_rect) : Prop := r.(rwidth) = 0 \/ r.(rheight) = 0.


Lemma add_u32_fits a b : is_u32 a -> is_u32 b -> a + b <= UINT32_MAX -> add_u32 a b = Some (a + b).
Proof.
  unfold is_u32, add_u32. intros. destruct (_ >? _) eqn:E; bool_hyps; [lia|].
  by rewrite u32_small by (unfold is_u32; lia).
Qed.

Lemma add_u32_Some a b c :
  is_u32 a -> is_u32 b -> add_u32 a b = Some c -> c = a + b /\ a + b <= UINT32_MAX.
Proof.
  unfold is_u32, add_u32. intros Ha Hb H. split_ifs_in H. bool_hyps.
  rewrite u32_small by (unfold is_u32; lia). lia.
Qed.

Lemma rect_end_fits r :
  fits r -> ~ empty r -> rect_end r = Some (r.(rx) + r.(rwidth), r.(ry) + r.(rheight)).
Proof.
  intros ((Hx & Hy & Hw & Hh) & Hr & Hb) He. unfold rect_end, empty in *.
  assert ((r.(rwidth) =? 0) = false) as -> by lia. assert ((r.(rheight) =? 0) = false) as -> by lia.
  simpl. by rewrite !add_u32_fits.
Qed.

Lemma rect_end_Some r e :
  is_rect r -> rect_end r = Some e ->
  fits r /\ ~ empty r /\ e = (r.(rx) + r.(rwidth), r.(ry) + r.(rheight)).
Proof.
  intros Hr. pose proof Hr as (Hx & Hy & Hw & Hh). unfold rect_end, empty, fits.
  destruct (_ =? 0) eqn:E1; [done|]. destruct (r.(rheight) =? 0) eqn:E2; [done|]. simpl.
  destruct (add_u32 r.(rx) r.(rwidth)) as [c|] eqn:Ex; [|done].
  destruct (add_u32 r.(ry) r.(rheight)) as [d|] eqn:Ey; [|done]. intros [= <-].
  apply add_u32_Some in Ex as [-> ?]; [|done..]. apply add_u32_Some in Ey as [-> ?]; [|done..].
  bool_hyps. split_and!; try done; lia.
Qed.

(** A pixel of the screen is in the rectangle exactly when the test says so. *)
Lemma contains_inside r p :
  is_rect r -> fits r -> -2147483648 <= p.(point_x) < 2147483648 ->
  -2147483648 <= p.(point_y) < 2147483648 ->
  rect_contains_point r p = true <-> inside r p.(point_x) p.(point_y).
Proof.
  intros Hr Hf Hx Hy. unfold rect_contains_point. pose proof Hr as (Bx & By & Bw & Bh).
  unfold is_u32, UINT32_MAX in *.
  destruct (p.(point_x) >=? 0) eqn:E1; bool_hyps; [|unfold inside; split; [done|lia]].
  destruct (p.(point_y) >=? 0) eqn:E2; bool_hyps; [|unfold inside; split; [done|lia]].
  rewrite !u32_small by (unfold is_u32, UINT32_MAX; lia). cbn [andb].
  destruct (rect_end r) as [[er eb]|] eqn:E.
  - apply rect_end_Some in E as (_ & _ & [= -> ->]); [|done]. unfold inside.
    rewrite !andb_true_iff, !Z.geb_le, !Z.ltb_lt. lia.
  - split; [done|]. intros Hin. rewrite rect_end_fits in E; [done|done|].
    unfold inside, empty in *. lia.
Qed.

(** Two rectangles intersect when they share a point. *)
Lemma intersect_shared r1 r2 :
  is_rect r1 -> is_rect r2 -> fits r1 -> fits r2 ->
  rects_intersect r1 r2 = true <-> exists x y, inside r1 x y /\ inside r2 x y.
Proof.
  intros R1 R2 F1 F2. unfold rects_intersect, inside.
  destruct (rect_end r1) as [[a b]|] eqn:E1.
  2: { split; [done|]. intros (x & y & H1 & H2). rewrite rect_end_fits in E1; [done|done|].
       unfold empty. lia. }
  destruct (rect_end r2) as [[c d]|] eqn:E2.
  2: { split; [done|]. intros (x & y & H1 & H2). rewrite rect_end_fits in E2; [done|done|].
       unfold empty. lia. }
  apply rect_end_Some in E1 as (_ & N1 & [= -> ->]); [|done].
  apply rect_end_Some in E2 as (_ & N2 & [= -> ->]); [|done].
  unfold empty in *. destruct R1 as (? & ? & ? & ?), R2 as (? & ? & ? & ?). unfold is_u32 in *.
  rewrite !andb_true_iff, !Z.ltb_lt. split.
  - intros. exists (Z.max r1.(rx) r2.(rx)), (Z.max r1.(ry) r2.(ry)). lia.
  - intros (x & y & ? & ?). lia.
Qed.

(** The test of the code for one rectangle in another. *)
Definition within (r s : ui_rect) : Prop :=
  s.(rx) <= r.(rx) /\ r.(rx) + r.(rwidth) <= s.(rx) + s.(rwidth) /\
  s.(ry) <= r.(ry) /\ r.(ry) + r.(rheight) <= s.(ry) + s.(rheight).

Lemma validate_rect_ok r s :
  fits r -> ~ empty r -> fits s -> ~ empty s -> within r s -> validate_rect r s = UI_STATUS_OK.
Proof.
  intros Fr Nr Fs Ns (H1 & H2 & H3 & H4). unfold validate_rect. rewrite !rect_end_fits by done.
  assert ((r.(rx) <? s.(rx)) = false) as -> by lia.
  assert ((r.(ry) <? s.(ry)) = false) as -> by lia.
  assert ((_ >? s.(rx) + s.(rwidth)) = false) as -> by lia.
  assert ((_ >? s.(ry) + s.(rheight)) = false) as -> by lia. done.
Qed.

Lemma validate_rect_inv r s :
  is_rect r -> is_rect s -> validate_rect r s = UI_STATUS_OK ->
  fits r /\ ~ empty r /\ within r s.
Proof.
  intros Hr Hs. unfold validate_rect, within.
  destruct (rect_end r) as [[a b]|] eqn:E1; [|done].
  destruct (rect_end s) as [[c d]|] eqn:E2; [|done].
  apply rect_end_Some in E1 as (F1 & N1 & [= -> ->]); [|done].
  apply rect_end_Some in E2 as (_ & _ & [= -> ->]); [|done].
  destruct (_ || _) eqn:E; [done|]. intros _. bool_hyps. split_and!; done || lia.
Qed.

Lemma baseline_ok r b :
  fits r -> ~ empty r -> r.(ry) + 12 <= b -> b + 4 <= r.(ry) + r.(rheight) ->
  baseline_fits r b = true.
Proof.
  intros Fr Nr H1 H2. unfold baseline_fits. rewrite rect_end_fits by done.
  destruct Fr as ((? & ? & ? & ?) & ? & ?). unfold is_u32, UI_FONT_ASCENT, UI_FONT_DESCENT in *.
  rewrite !u32_small by (unfold is_u32; lia). rewrite !andb_true_iff, Z.geb_le, !Z.leb_le. lia.
Qed.

(** * Every supported geometry *)

Ltac norm32 :=
  repeat match goal with
  | |- context [u32 ?x] =>
      lazymatch x with
      | context [u32 _] => fail
      | _ => rewrite (u32_small x) by (unfold is_u32, UINT32_MAX; lia)
      end
  end.

Ltac geometry :=
  unfold fits, is_rect, empty, within, is_u32, UINT32_MAX in *; cbn [rx ry rwidth rheight] in *;
  norm32; lia.

(** The dock: four items side by side, each with its icon inside. *)
Definition plain_item (dx dy i : Z) : ui_dock_item :=
  MkItem (i + 1) (aget None labels i) (MkRect (dx + 8 + 146 * i) (dy + 9) 142 46)
    (MkRect (dx + 16 + 146 * i) (dy + 18) 28 28) (i + 1) (i + 1).

Lemma dock_item_plain d i :
  0 <= d.(rx) <= 2000 -> 0 <= d.(ry) <= 2000 -> 0 <= i < 4 ->
  dock_item_at d i = plain_item d.(rx) d.(ry) i.
Proof.
  intros Hx Hy Hi. unfold dock_item_at, plain_item, UI_DOCK_PADDING, UI_DOCK_ITEM_WIDTH,
    UI_DOCK_ITEM_HEIGHT, UI_DOCK_GAP. norm32.
  assert (i = 0 \/ i = 1 \/ i = 2 \/ i = 3) as Hc by lia.
  destruct Hc as [-> | [-> | [-> | ->]]]; cbv [aget ids actions panels Z.to_nat nth]; f_equal;
    try done; f_equal; lia.
Qed.

Lemma aget_map_seqZ {A} (d : A) f n i : 0 <= i < n -> aget d (map f (seqZ 0 n)) i = f i.
Proof.
  intros Hi. apply aget_lookup. change (map f (seqZ 0 n)) with (f <$> seqZ 0 n).
  rewrite list_lookup_fmap, lookup_seqZ_lt by lia. simpl. do 2 f_equal. lia.
Qed.

Lemma dock_item_accepted l i seen :
  l.(dock_items) = map (dock_item_at l.(dock)) (seqZ 0 4) ->
  0 <= l.(dock).(rx) <= 2000 -> 0 <= l.(dock).(ry) <= 2000 ->
  l.(dock).(rwidth) = 596 -> l.(dock).(rheight) = 64 -> 0 <= i < 4 ->
  aget false seen (i + 1) = false -> validate_item l i seen = Next (aset seen (i + 1) true).
Proof.
  intros Hl Hx Hy Hw Hh Hi Hseen.
  assert (forall j, 0 <= j < 4 ->
    aget no_item l.(dock_items) j = plain_item l.(dock).(rx) l.(dock).(ry) j) as Hj.
  { intros j Hj. rewrite Hl, aget_map_seqZ by done. by apply dock_item_plain. }
  unfold validate_item. rewrite Hj by done. cbn [id action panel_of label bounds icon_bounds plain_item].
  unfold UI_ELEMENT_NONE, UI_ELEMENT_COUNT, UI_ACTION_NONE, UI_ACTION_COUNT, UI_PANEL_NONE,
    UI_PANEL_COUNT, UI_DOCK_ITEM_COUNT.
  rewrite bool_decide_false.
  2: { assert (i = 0 \/ i = 1 \/ i = 2 \/ i = 3) as [-> | [-> | [-> | ->]]] by lia; done. }
  assert ((i + 1 <=? 0) = false) as -> by lia. assert ((i + 1 >=? 5) = false) as -> by lia.
  cbn [orb]. rewrite Hseen.
  unfold is_ok. rewrite !validate_rect_ok by geometry. rewrite bool_decide_true by done. cbn [negb orb].
  rewrite existsb_false; [done|]. intros j Hjr%elem_of_seqZ. rewrite Hj by lia.
  cbn [bounds plain_item]. apply not_true_is_false. intros C.
  apply intersect_shared in C as (x & y & C1 & C2); [|geometry..].
  unfold inside in *. cbn in *. lia.
Qed.

Lemma drop_shadow_fits r o :
  is_rect r -> 0 <= o -> r.(rwidth) + o <= UINT32_MAX -> r.(rheight) + o <= UINT32_MAX ->
  drop_shadow_bounds r o = MkRect r.(rx) r.(ry) (r.(rwidth) + o) (r.(rheight) + o).
Proof.
  intros (Hx & Hy & Hw & Hh) Ho H1 H2. unfold drop_shadow_bounds.
  rewrite !add_u32_fits; unfold is_u32 in *; done || lia.
Qed.

Lemma rects_accepted l (rs : list ui_rect) :
  Forall (fun r => validate_rect r l.(surface) = UI_STATUS_OK) rs ->
  for_each (fun r (_ : unit) =>
    let status := validate_rect r l.(surface) in
    if negb (is_ok status) then Return status else Next tt) rs tt = Next tt.
Proof. induction 1 as [|r rs Hr _ IH]; [done|]. cbn [for_each]. by rewrite Hr. Qed.

Lemma rects_refuse l (rs : list ui_rect) :
  match for_each (fun r (_ : unit) =>
    let status := validate_rect r l.(surface) in
    if negb (is_ok status) then Return status else Next tt) rs tt with
  | Return s => s <> UI_STATUS_OK
  | Next _ => True
  end.
Proof.
  induction rs as [|r rs IH]; [done|]. cbn [for_each]. unfold is_ok.
  case_bool_decide; [done|]. done.
Qed.

Lemma items_accepted l :
  l.(dock_items) = map (dock_item_at l.(dock)) (seqZ 0 4) ->
  0 <= l.(dock).(rx) <= 2000 -> 0 <= l.(dock).(ry) <= 2000 ->
  l.(dock).(rwidth) = 596 -> l.(dock).(rheight) = 64 ->
  for_each (validate_item l) (seqZ 0 UI_DOCK_ITEM_COUNT)
    (replicate (Z.to_nat UI_ELEMENT_COUNT) false) = Next [false; true; true; true; true].
Proof.
  intros Hl Hx Hy Hw Hh. change (seqZ 0 UI_DOCK_ITEM_COUNT) with [0; 1; 2; 3]. cbn [for_each].
  rewrite !dock_item_accepted by (done || lia). done.
Qed.

#[local] Ltac Zify.zify_post_hook ::= Z.to_euclidean_division_equations.

(** The pieces of the layout, written without reductions. *)
Lemma layout_accepted w h :
  800 <= w <= 1920 -> 600 <= h <= 1200 ->
  let l := layout_at w h in
  Forall (fun r => fits r /\ ~ empty r /\ within r l.(surface)) (rectangles l) /\
  baselines l = true /\
  (l.(dock).(rx) = (w - 596) / 2 /\ l.(dock).(ry) = h - 82 /\ l.(dock).(rwidth) = 596 /\
   l.(dock).(rheight) = 64) /\ l.(dock_label_baseline) = h - 43.
Proof.
  intros Hw Hh l. subst l. unfold layout_at, rectangles, baselines, dock_width,
    UI_MIN_HEIGHT, UI_HERO_WIDTH, UI_HERO_HEIGHT, UI_HERO_TITLE_HEIGHT, UI_DOCK_HEIGHT,
    UI_DOCK_PADDING, UI_DOCK_ITEM_COUNT, UI_DOCK_ITEM_WIDTH, UI_DOCK_GAP, UI_MENU_HEIGHT,
    UI_WORKSPACE_BAR_HEIGHT, UI_LOGO_WIDTH, UI_LOGO_HEIGHT, UI_FONT_ASCENT.
  cbn [rx ry rwidth rheight surface menu_bar workspace_bar hero_window logo wordmark motto
    ledger_status dock panel panel_client menu_baseline hero_title_baseline title_baseline
    motto_baseline status_baseline dock_label_baseline panel_title_baseline panel_text_baseline].
  norm32. destruct (w - 64 <? 720) eqn:E1; destruct (h =? 600) eqn:E2;
    destruct (h >=? 720) eqn:E3; bool_hyps; try (exfalso; lia); cbv iota; norm32;
    rewrite ?drop_shadow_fits by geometry; cbn [rx ry rwidth rheight];
    (split_and!; [repeat (constructor; [geometry|]); constructor| |lia..]);
    rewrite !baseline_ok by geometry; done.
Qed.

Lemma layout_validated w h :
  800 <= w <= 1920 -> 600 <= h <= 1200 -> ui_layout_validate (Some (layout_at w h)) = UI_STATUS_OK.
Proof.
  intros Hw Hh. destruct (layout_accepted w h Hw Hh) as (Hrs & Hb & (Dx & Dy & Dw & Dh) & Db).
  unfold ui_layout_validate.
  assert (dock_items (layout_at w h) = map (dock_item_at (dock (layout_at w h))) (seqZ 0 4))
    as Hitems by done.
  assert (surface (layout_at w h) = MkRect 0 0 w h) as Hs by done.
  set (l := layout_at w h) in *. clearbody l.
  rewrite rects_accepted.
  2: { rewrite Hs in *. eapply Forall_impl; [exact Hrs|]. intros r (F & N & W).
       apply validate_rect_ok; try done; geometry. }
  rewrite items_accepted by (done || lia). rewrite Hs, Hb. unfold UI_MIN_WIDTH, UI_MIN_HEIGHT.
  cbn [rwidth rheight]. assert ((w <? 800) = false) as -> by lia.
  assert ((h <? 600) = false) as -> by lia. cbn [orb negb].
  assert (~ empty l.(panel_client)) as He.
  { unfold rectangles in Hrs. rewrite Forall_forall in Hrs. apply (Hrs l.(panel_client)). set_solver. }
  unfold empty in He. assert ((rwidth l.(panel_client) =? 0) = false) as -> by lia.
  assert ((rheight l.(panel_client) =? 0) = false) as -> by lia. cbn [orb].
  rewrite (existsb_false (fun index => negb (baseline_fits _ _))).
  { vm_compute. reflexivity. }
  intros i Hi%elem_of_seqZ. unfold UI_DOCK_ITEM_COUNT in Hi. apply negb_false_iff.
  rewrite Hitems, aget_map_seqZ, dock_item_plain by lia. rewrite Db, Dx, Dy.
  apply baseline_ok; cbn [bounds plain_item]; geometry.
Qed.

(** On every width and height [ui_layout_build] either refuses,
    exactly when the geometry is outside 800x600 to 1920x1200, or succeeds with a
    layout its own validation accepts: every window, bar, shadow and text region
    lies inside the surface, no intermediate value wraps, and the dock's four
    items stand inside it side by side. *)
Theorem ui_layout_build_exact w h :
  is_u32 w -> is_u32 h ->
  if bool_decide (800 <= w <= 1920 /\ 600 <= h <= 1200) then
    exists l, ui_layout_build w h true = (UI_STATUS_OK, Some l) /\
      ui_layout_validate (Some l) = UI_STATUS_OK /\
      l.(surface) = MkRect 0 0 w h /\
      Forall (fun r => fits r /\ ~ empty r /\ within r l.(surface)) (rectangles l) /\
      forall i, 0 <= i < 4 ->
        aget no_item l.(dock_items) i = plain_item ((w - 596) / 2) (h - 82) i
  else ui_layout_build w h true = (UI_STATUS_UNSUPPORTED_GEOMETRY, None).
Proof.
  intros Hw Hh. unfold ui_layout_build, UI_MIN_WIDTH, UI_MIN_HEIGHT, UI_MAX_WIDTH, UI_MAX_HEIGHT.
  case_bool_decide as Hr; cbn [negb].
  2: { destruct (_ || _) eqn:E; [done|]. bool_hyps. lia. }
  destruct (_ || _) eqn:E; [rewrite !orb_true_iff in E; lia|]. clear E.
  pose proof (layout_validated w h ltac:(lia) ltac:(lia)) as Hv.
  destruct (layout_accepted w h ltac:(lia) ltac:(lia)) as (Hrs & _ & (Dx & Dy & Dw & Dh) & _).
  exists (layout_at w h). split_and!; [by rewrite Hv|done|done|done|].
  intros i Hi. change (dock_items (layout_at w h))
    with (map (dock_item_at (dock (layout_at w h))) (seqZ 0 4)).
  rewrite aget_map_seqZ, dock_item_plain by lia. by rewrite Dx, Dy.
Qed.

Lemma ui_layout_build_exact_witness :
  exists l, ui_layout_build 1024 768 true = (UI_STATUS_OK, Some l) /\
    (aget no_item l.(dock_items) 3).(bounds) = MkRect 660 695 142 46.
Proof.
  pose proof (ui_layout_build_exact 1024 768 ltac:(by vm_compute) ltac:(by vm_compute)) as H.
  rewrite bool_decide_true in H by lia. destruct H as (l & Hb & _ & _ & _ & Hi).
  exists l. split; [done|]. rewrite Hi by lia. vm_compute. reflexivity.
Defined.

(** * What validation promises the hit test *)

Definition is_layout (l : ui_layout) : Prop :=
  is_rect l.(surface) /\ is_rect l.(dock) /\ zlength l.(dock_items) = 4 /\
  Forall (fun i => is_rect i.(bounds) /\ is_rect i.(icon_bounds)) l.(dock_items).

(** The identifiers stored before an item, in the loop over the dock. *)
Lemma items_inv l :
  is_layout l ->
  match for_each (validate_item l) (seqZ 0 UI_DOCK_ITEM_COUNT)
          (replicate (Z.to_nat UI_ELEMENT_COUNT) false) with
  | Next _ => forall i, 0 <= i < 4 ->
      let item := aget no_item l.(dock_items) i in
      fits item.(bounds) /\ ~ empty item.(bounds) /\ within item.(bounds) l.(dock) /\
      1 <= item.(id) <= 4 /\
      forall j, i < j < 4 ->
        rects_intersect item.(bounds) (aget no_item l.(dock_items) j).(bounds) = false
  | Return s => s <> UI_STATUS_OK
  end.
Proof.
  intros (_ & Hd & Hlen & Hall).
  assert (forall i, 0 <= i < 4 -> is_rect (aget no_item l.(dock_items) i).(bounds) /\
    is_rect (aget no_item l.(dock_items) i).(icon_bounds)) as Hr.
  { intros i Hi. rewrite Forall_forall in Hall. apply Hall, (elem_of_aget no_item).
    exists i. split; [lia|done]. }
  assert (forall i seen, 0 <= i < 4 ->
    match validate_item l i seen with
    | Next _ => let item := aget no_item l.(dock_items) i in
        fits item.(bounds) /\ ~ empty item.(bounds) /\ within item.(bounds) l.(dock) /\
        1 <= item.(id) <= 4 /\
        forall j, i < j < 4 ->
          rects_intersect item.(bounds) (aget no_item l.(dock_items) j).(bounds) = false
    | Return s => s <> UI_STATUS_OK
    end) as Hstep.
  { intros i seen Hi. unfold validate_item, UI_ELEMENT_NONE, UI_ELEMENT_COUNT, is_ok.
    destruct (_ || bool_decide _) eqn:E1; [done|]. destruct (aget false seen _); [done|].
    destruct (negb _ || negb _) eqn:E2; [done|]. destruct (existsb _ _) eqn:E3; [done|].
    apply orb_false_elim in E2 as [E2 _]. apply negb_false_iff, bool_decide_eq_true in E2.
    apply validate_rect_inv in E2 as (F & N & W); [|by apply Hr|done]. bool_hyps.
    split_and!; try done; try lia. intros j Hj.
    apply not_true_is_false. intros C. apply not_true_iff_false in E3. apply E3.
    apply existsb_exists. exists j. split; [|done]. apply list_elem_of_In, elem_of_seqZ.
    unfold UI_DOCK_ITEM_COUNT. lia. }
  change (seqZ 0 UI_DOCK_ITEM_COUNT) with [0; 1; 2; 3]. cbn [for_each].
  set (s0 := replicate _ _). clearbody s0.
  pose proof (Hstep 0 s0 ltac:(lia)) as H0. destruct (validate_item l 0 s0) as [s1|]; [|done].
  pose proof (Hstep 1 s1 ltac:(lia)) as H1. destruct (validate_item l 1 s1) as [s2|]; [|done].
  pose proof (Hstep 2 s2 ltac:(lia)) as H2. destruct (validate_item l 2 s2) as [s3|]; [|done].
  pose proof (Hstep 3 s3 ltac:(lia)) as H3. destruct (validate_item l 3 s3) as [s4|]; [|done].
  intros i Hi. assert (i = 0 \/ i = 1 \/ i = 2 \/ i = 3) as [-> | [-> | [-> | ->]]] by lia; done.
Qed.

Definition is_point (p : ui_point) : Prop :=
  -2147483648 <= p.(point_x) < 2147483648 /\ -2147483648 <= p.(point_y) < 2147483648.

(** The loop of the hit test over items no two of which share a point. *)
Lemma hit_loop l p (n : nat) from hit :
  (forall i j, from <= i -> i < j < from + Z.of_nat n ->
     rect_contains_point (aget no_item l.(dock_items) i).(bounds) p = true ->
     rect_contains_point (aget no_item l.(dock_items) j).(bounds) p = false) ->
  (hit <> UI_ELEMENT_NONE -> forall i, from <= i < from + Z.of_nat n ->
     rect_contains_point (aget no_item l.(dock_items) i).(bounds) p = false) ->
  (forall i, from <= i < from + Z.of_nat n -> (aget no_item l.(dock_items) i).(id) <> UI_ELEMENT_NONE) ->
  for_each (fun index hit =>
     let item := aget no_item l.(dock_items) index in
     if negb (rect_contains_point item.(bounds) p) then Next hit
     else if negb (hit =? UI_ELEMENT_NONE) then Return tt
     else Next item.(id)) (seqZ from (Z.of_nat n)) hit =
  Next (match List.find (fun i =>
            rect_contains_point (aget no_item l.(dock_items) i).(bounds) p) (seqZ from (Z.of_nat n)) with
        | Some i => (aget no_item l.(dock_items) i).(id)
        | None => hit
        end).
Proof.
  revert from hit. induction n as [|n IH]; intros from hit Hone Hhit Hids.
  { change (Z.of_nat 0) with 0. by rewrite seqZ_nil by lia. }
  rewrite seqZ_cons by lia. replace (Z.pred (Z.of_nat (S n))) with (Z.of_nat n) by lia.
  cbn [for_each List.find].
  destruct (rect_contains_point _ p) eqn:E; cbn [negb].
  - destruct (hit =? UI_ELEMENT_NONE) eqn:Eh; cbn [negb]; bool_hyps.
    2: { rewrite Hhit in E; [done|done|lia]. }
    rewrite IH; [|intros; apply (Hone i j); lia || done|intros _ i Hi; apply (Hone from i); lia || done
      |intros; apply Hids; lia].
    destruct (List.find _ _) as [i|] eqn:Ef; [|done].
    apply find_seqZ_Some in Ef as (Hi & Hp & _). rewrite (Hone from i) in Hp by (lia || done). done.
  - apply IH; [intros; apply (Hone i j); lia || done|intros ? i Hi; apply Hhit; [done|lia]
      |intros; apply Hids; lia].
Qed.

(** On any layout that validation accepts, built by the kernel or
    not, the hit test is never ambiguous: every point of the screen gets the
    identifier of the one dock item whose half-open bounds hold it, or the
    identifier of no element when there is none. *)
Theorem ui_hit_test_exact l p :
  is_layout l -> is_point p -> ui_layout_validate (Some l) = UI_STATUS_OK ->
  exists e, ui_hit_test (Some l) p true = (UI_STATUS_OK, Some e) /\
    ((e = UI_ELEMENT_NONE /\ forall i, 0 <= i < 4 ->
        ~ inside (aget no_item l.(dock_items) i).(bounds) p.(point_x) p.(point_y)) \/
     exists i, 0 <= i < 4 /\ e = (aget no_item l.(dock_items) i).(id) /\ 1 <= e <= 4 /\
       forall j, 0 <= j < 4 ->
         inside (aget no_item l.(dock_items) j).(bounds) p.(point_x) p.(point_y) <-> j = i).
Proof.
  intros Hl [Hpx Hpy] Hv. pose proof (items_inv l Hl) as Hi. unfold ui_layout_validate in Hv.
  destruct (_ || _); [done|]. destruct (for_each _ (rectangles l) tt) as [[]|s0] eqn:Er.
  2: { exfalso. pose proof (rects_refuse l (rectangles l)) as Hs. cbv zeta in Hs. rewrite Er in Hs. done. }
  destruct (_ || _); [done|].
  destruct (for_each (validate_item l) _ _) as [seen|s1]; [|done]. clear Hv Er.
  assert (forall i, 0 <= i < 4 -> is_rect (aget no_item l.(dock_items) i).(bounds)) as Hr.
  { intros i Hlt. apply Hi in Hlt. apply Hlt. }
  assert (forall i, 0 <= i < 4 ->
    rect_contains_point (aget no_item l.(dock_items) i).(bounds) p = true <->
    inside (aget no_item l.(dock_items) i).(bounds) p.(point_x) p.(point_y)) as Hc.
  { intros i Hlt. apply contains_inside; [by apply Hr| |done..]. by apply Hi. }
  assert (forall i j, 0 <= i -> i < j < 4 ->
    inside (aget no_item l.(dock_items) i).(bounds) p.(point_x) p.(point_y) ->
    ~ inside (aget no_item l.(dock_items) j).(bounds) p.(point_x) p.(point_y)) as Hd.
  { intros i j H0 Hj I1 I2. destruct (Hi i ltac:(lia)) as (F & _ & _ & _ & Hx).
    specialize (Hx j ltac:(lia)). apply not_true_iff_false in Hx. apply Hx.
    apply intersect_shared; [apply Hr; lia..|done|apply Hi; lia|]. eauto. }
  unfold ui_hit_test. cbn [negb]. change UI_DOCK_ITEM_COUNT with (Z.of_nat 4).
  rewrite hit_loop.
  2: { intros i j H0 Hj C. apply not_true_is_false. rewrite Hc in * by lia. by apply (Hd i j). }
  2: { done. }
  2: { intros i Hlt. destruct (Hi i ltac:(lia)) as (_ & _ & _ & ? & _). unfold UI_ELEMENT_NONE. lia. }
  eexists. split; [done|]. destruct (List.find _ _) as [i|] eqn:Ef.
  - right. apply find_seqZ_Some in Ef as (Hlt & Hp & _). rewrite Hc in Hp by lia.
    exists i. split; [lia|]. split; [done|]. split; [apply Hi; lia|]. intros j Hj. split; [|by intros ->].
    intros Ij. destruct (Z.lt_trichotomy i j) as [?|[->|?]]; [|done|]; exfalso.
    + apply (Hd i j); done || lia.
    + apply (Hd j i); done || lia.
  - left. split; [done|]. intros i Hlt C. rewrite find_seqZ_None in Ef.
    apply Hc in C; [|done]. rewrite Ef in C; [done|lia].
Qed.

Lemma ui_hit_test_exact_witness :
  exists e, ui_hit_test (Some (layout_at 1024 768)) (MkPoint 670 700) true = (UI_STATUS_OK, Some e) /\
    1 <= e <= 4.
Proof.
  destruct (ui_hit_test_exact (layout_at 1024 768) (MkPoint 670 700)) as (e & He & Hc).
  - split; [vm_compute; split_and!; congruence|]. split; [vm_compute; split_and!; congruence|].
    split; [reflexivity|].
    let items := eval vm_compute in (dock_items (layout_at 1024 768)) in
    change (dock_items (layout_at 1024 768)) with items.
    repeat (apply Forall_cons; split); try apply Forall_nil; try done;
      (split; vm_compute; split_and!; congruence).
  - vm_compute. split_and!; congruence.
  - vm_compute. reflexivity.
  - exists e. split; [done|]. destruct Hc as [[_ Hn]|(i & _ & _ & Hr & _)]; [|done].
    exfalso. apply (Hn 3 ltac:(lia)). vm_compute. split_and!; congruence.
Defined.

(** * The algebra of damage rectangles *)

Lemma intersection_points r1 r2 :
  fits r1 -> fits r2 ->
  fits (rect_intersection r1 r2) /\
  forall x y, inside (rect_intersection r1 r2) x y <-> inside r1 x y /\ inside r2 x y.
Proof.
  intros F1 F2. pose proof (intersect_shared r1 r2 (proj1 F1) (proj1 F2) F1 F2) as Hs.
  unfold rect_intersection. destruct (rects_intersect r1 r2) eqn:Ei; cbn [negb].
  2: { split; [by vm_compute; split_and!; try congruence|]. intros x y. split.
       - unfold inside, no_rect. cbn. lia.
       - intros [I1 I2]. assert (false = true) as C by (apply Hs; eauto). done. }
  unfold rects_intersect in Ei.
  destruct (rect_end r1) as [[a b]|] eqn:E1; [|done].
  destruct (rect_end r2) as [[c d]|] eqn:E2; [|done].
  apply rect_end_Some in E1 as (_ & N1 & [= -> ->]); [|apply F1].
  apply rect_end_Some in E2 as (_ & N2 & [= -> ->]); [|apply F2].
  rewrite !andb_true_iff, !Z.ltb_lt in Ei. clear Hs.
  destruct F1 as ((? & ? & ? & ?) & ? & ?), F2 as ((? & ? & ? & ?) & ? & ?).
  unfold is_u32, UINT32_MAX in *.
  repeat split_if; bool_hyps; rewrite !u32_small by (unfold is_u32, UINT32_MAX; lia);
    unfold fits, is_rect, inside, is_u32, UINT32_MAX; cbn [rx ry rwidth rheight];
    (split; [lia|intros; lia]).
Qed.

Lemma union_points r1 r2 :
  fits r1 -> fits r2 -> ~ empty r1 -> ~ empty r2 ->
  let u := rect_union r1 r2 in
  fits u /\ u.(rx) = Z.min r1.(rx) r2.(rx) /\ u.(ry) = Z.min r1.(ry) r2.(ry) /\
  u.(rx) + u.(rwidth) = Z.max (r1.(rx) + r1.(rwidth)) (r2.(rx) + r2.(rwidth)) /\
  u.(ry) + u.(rheight) = Z.max (r1.(ry) + r1.(rheight)) (r2.(ry) + r2.(rheight)).
Proof.
  intros F1 F2 N1 N2. unfold rect_union. rewrite !rect_end_fits by done. unfold empty in *.
  destruct (_ || _) eqn:E1; [rewrite orb_true_iff in E1; lia|].
  destruct (_ || _) eqn:E2 in |- *; [rewrite orb_true_iff in E2; lia|]. clear E1 E2.
  destruct F1 as ((? & ? & ? & ?) & ? & ?), F2 as ((? & ? & ? & ?) & ? & ?).
  unfold is_u32, UINT32_MAX in *.
  repeat split_if; bool_hyps; rewrite !u32_small by (unfold is_u32, UINT32_MAX; lia);
    unfold fits, is_rect, is_u32, UINT32_MAX; cbn [rx ry rwidth rheight]; lia.
Qed.

(** On rectangles whose edges stay in the coordinate space the
    operations the shell accumulates damage with are the ones on sets of
    pixels.  The intersection holds exactly the shared pixels; the union covers
    both and nothing any covering rectangle could leave out; neither leaves the
    coordinate space. *)
Theorem rectangle_algebra r1 r2 :
  fits r1 -> fits r2 ->
  (fits (rect_intersection r1 r2) /\
   forall x y, inside (rect_intersection r1 r2) x y <-> inside r1 x y /\ inside r2 x y) /\
  fits (rect_union r1 r2) /\
  (forall x y, inside r1 x y \/ inside r2 x y -> inside (rect_union r1 r2) x y) /\
  (forall r, (forall x y, inside r1 x y \/ inside r2 x y -> inside r x y) ->
     forall x y, inside (rect_union r1 r2) x y -> inside r x y).
Proof.
  intros F1 F2. split; [by apply intersection_points|].
  destruct (decide (r1.(rwidth) = 0 \/ r1.(rheight) = 0)) as [N1|N1].
  { assert (rect_union r1 r2 = r2) as ->.
    { unfold rect_union. destruct (_ || _) eqn:E; [done|]. bool_hyps. lia. }
    split_and!; [done| |eauto]. intros x y [I|I]; [unfold inside in I; lia|done]. }
  destruct (decide (r2.(rwidth) = 0 \/ r2.(rheight) = 0)) as [N2|N2].
  { assert (rect_union r1 r2 = r1) as ->.
    { unfold rect_union. destruct (_ || _) eqn:E; [rewrite orb_true_iff in E; lia|].
      destruct (_ || _) eqn:E2 in |- *; [done|]. bool_hyps. lia. }
    split_and!; [done| |eauto]. intros x y [I|I]; [done|unfold inside in I; lia]. }
  destruct (union_points r1 r2 F1 F2 N1 N2) as (Fu & Ux & Uy & Ur & Ub).
  split; [done|]. unfold inside. split; [intros; lia|]. intros r Hr x y Hxy.
  destruct F1 as ((? & ? & ? & ?) & _), F2 as ((? & ? & ? & ?) & _). unfold is_u32 in *.
  pose proof (Hr r1.(rx) r1.(ry)). pose proof (Hr r2.(rx) r2.(ry)).
  pose proof (Hr (r1.(rx) + r1.(rwidth) - 1) (r1.(ry) + r1.(rheight) - 1)).
  pose proof (Hr (r2.(rx) + r2.(rwidth) - 1) (r2.(ry) + r2.(rheight) - 1)). lia.
Qed.

Lemma rectangle_algebra_witness :
  inside (rect_union (MkRect 10 10 5 5) (MkRect 12 30 8 8)) 19 12 /\
  ~ inside (rect_intersection (MkRect 10 10 5 5) (MkRect 12 30 8 8)) 12 12.
Proof.
  destruct (rectangle_algebra (MkRect 10 10 5 5) (MkRect 12 30 8 8)) as ((_ & Hi) & _ & Hu & _);
    [by vm_compute; split_and!; try congruence..|].
  split; [vm_compute; split_and!; congruence|]. rewrite Hi. intros [_ C]. vm_compute in C.
  destruct C as [_ [C _]]. by apply C.
Defined.
End UiLayout.
