(* ===== verification/UiEvents.v ===== *)
(** The event queue of the graphical shell and what an event does to it:
    publish_unlocked to ui_process_events of src/src/kernel/ui.c.

    The record [ui] holds the fields of the shell's state these functions touch,
    with the fixed queue and its count; the drawing of a damaged region and the
    text screen are the class [Shell].  Movements may be merged or evicted;
    presses, releases and keys are only refused when 64 of them wait.  The
    draining loop runs with interrupts on except inside pop_event, so interrupt
    handlers publish while it drains: what they publish in each turn is an
    argument.  Every region that is drawn lies inside the surface. *)
From S2P Require Import Prelude Keyboard UiLayout.
Import Keyboard UiLayout.

Open Scope Z_scope.

Module UiEvents.

Definition UI_EVENT_QUEUE_CAPACITY : Z := 64.
Definition UI_EVENT_NONE : Z := 0.
Definition UI_EVENT_POINTER_MOVEMENT : Z := 1.
Definition UI_EVENT_POINTER_BUTTON_PRESS : Z := 2.
Definition UI_EVENT_POINTER_BUTTON_RELEASE : Z := 3.
Definition UI_EVENT_KEYBOARD_FOCUS_NEXT : Z := 4.
Definition UI_EVENT_KEYBOARD_FOCUS_PREVIOUS : Z := 5.
Definition UI_EVENT_KEYBOARD_ACTIVATION : Z := 6.
Definition UI_EVENT_PANEL_CLOSE : Z := 7.
Definition UI_EVENT_REDRAW_REQUEST : Z := 8.
Definition UI_EVENT_TYPE_COUNT : Z := 9.
Definition UI_POINTER_BUTTON_NONE : Z := 0.
Definition UI_POINTER_BUTTON_LEFT : Z := 1.
Definition UI_POINTER_BUTTON_MIDDLE : Z := 2.
Definition UI_POINTER_BUTTON_RIGHT : Z := 3.

Record ui_event : Type := MkUiEvent {
  type : Z;
  point : ui_point;
  button : Z
}.

#[export] Instance ui_event_eq_dec : EqDecision ui_event.
Proof. solve_decision. Defined.

Record ui_event_counters : Type := MkCounters {
  accepted : Z;
  drained : Z;
  coalesced : Z;
  dropped_events : Z
}.

Record ui_render_counters : Type := MkRenders {
  full_draws : Z;
  damaged_draws : Z;
  pixels_copied : Z;
  cursor_moves : Z;
  dock_state_changes : Z;
  panel_transitions : Z;
  damage_rectangles : Z;
  glyphs : Z
}.

Record ui : Type := MkUi {
  ui_active : bool;
  pointer : ui_point;
  focus : Z;
  hover : Z;
  pressed_element : Z;
  active_panel : Z;
  layout : ui_layout;
  counters : ui_event_counters;
  renders : ui_render_counters;
  event_queue : list ui_event;
  event_count : Z
}.

Definition no_ui_event : ui_event := MkUiEvent 0 (MkPoint 0 0) 0.

Definition set_queue (u : ui) (c : ui_event_counters) (q : list ui_event) (n : Z) : ui :=
  MkUi u.(ui_active) u.(pointer) u.(focus) u.(hover) u.(pressed_element) u.(active_panel)
    u.(layout) c u.(renders) q n.
Definition set_elements (u : ui) (p : ui_point) (f h pr pa : Z) (r : ui_render_counters) : ui :=
  MkUi u.(ui_active) p f h pr pa u.(layout) u.(counters) r u.(event_queue) u.(event_count).
Definition set_renders (u : ui) (r : ui_render_counters) : ui :=
  set_elements u u.(pointer) u.(focus) u.(hover) u.(pressed_element) u.(active_panel) r.
Definition moved (r : ui_render_counters) : ui_render_counters :=
  MkRenders r.(full_draws) r.(damaged_draws) r.(pixels_copied) (u64 (r.(cursor_moves) + 1))
    r.(dock_state_changes) r.(panel_transitions) r.(damage_rectangles) r.(glyphs).
Definition dock_changed (r : ui_render_counters) : ui_render_counters :=
  MkRenders r.(full_draws) r.(damaged_draws) r.(pixels_copied) r.(cursor_moves)
    (u64 (r.(dock_state_changes) + 1)) r.(panel_transitions) r.(damage_rectangles) r.(glyphs).
Definition panel_changed (r : ui_render_counters) : ui_render_counters :=
  MkRenders r.(full_draws) r.(damaged_draws) r.(pixels_copied) r.(cursor_moves)
    r.(dock_state_changes) (u64 (r.(panel_transitions) + 1)) r.(damage_rectangles) r.(glyphs).

(** * The queue *)

Definition is_movement (e : ui_event) : bool := e.(type) =? UI_EVENT_POINTER_MOVEMENT.

Definition counted (c : ui_event_counters) (a d m x : Z) : ui_event_counters :=
  MkCounters (u64 (c.(accepted) + a)) (u64 (c.(drained) + d)) (u64 (c.(coalesced) + m))
    (u64 (c.(dropped_events) + x)).

(** The loops that move the queue down over the slot [from]. *)
Definition close_gap (q : list ui_event) (from count : Z) : list ui_event :=
  foldl (fun q index => aset q (index - 1) (aget no_ui_event q index)) q
    (seqZ (from + 1) (count - (from + 1))).

(** The first movement of the queue, or the count when there is none. *)
Definition find_movement (q : list ui_event) (count : Z) : Z :=
  match for_each (fun index (_ : unit) =>
          if is_movement (aget no_ui_event q index) then Return index else Next tt)
          (seqZ 0 count) tt with
  | Return index => index
  | Next _ => count
  end.

Definition publish_unlocked (event : option ui_event) (u : ui) : ui_status * ui :=
  match event with
  | None => (UI_STATUS_NULL_ARGUMENT, u)
  | Some e =>
      if (e.(type) <=? UI_EVENT_NONE) || (e.(type) >=? UI_EVENT_TYPE_COUNT)
      then (UI_STATUS_BAD_EVENT, u)
      else
      let c := counted u.(counters) 1 0 0 0 in
      let q := u.(event_queue) in
      let n := u.(event_count) in
      if is_movement e && (n >? 0) && is_movement (aget no_ui_event q (n - 1))
      then (UI_STATUS_OK, set_queue u (counted c 0 0 1 0) (aset q (n - 1) e) n)
      else
      if n =? UI_EVENT_QUEUE_CAPACITY then
        if is_movement e then (UI_STATUS_EVENT_QUEUE_FULL, set_queue u (counted c 0 0 0 1) q n)
        else
        let movement := find_movement q n in
        if movement =? n then (UI_STATUS_EVENT_QUEUE_FULL, set_queue u (counted c 0 0 0 1) q n)
        else
        let q := close_gap q movement n in
        let n := n - 1 in
        (UI_STATUS_OK, set_queue u (counted c 0 0 0 1) (aset q n e) (n + 1))
      else (UI_STATUS_OK, set_queue u c (aset q n e) (n + 1))
  end.

(** The event taken, when there was one. *)
Definition pop_unlocked (u : ui) : option ui_event * ui :=
  if u.(event_count) =? 0 then (None, u)
  else
  let event := aget no_ui_event u.(event_queue) 0 in
  let q := close_gap u.(event_queue) 0 u.(event_count) in
  (Some event, set_queue u (counted u.(counters) 0 1 0 0) q (u.(event_count) - 1)).

(** * Geometry of the shell's state *)

Definition cursor_rect_for (s : ui_rect) (p : ui_point) : ui_rect :=
  if (p.(point_x) <? 0) || (p.(point_y) <? 0) || (s.(rwidth) =? 0) || (s.(rheight) =? 0)
  then no_rect
  else
  let x := u32 p.(point_x) in
  let y := u32 p.(point_y) in
  let x := if x >=? s.(rwidth) then u32 (s.(rwidth) - 1) else x in
  let y := if y >=? s.(rheight) then u32 (s.(rheight) - 1) else y in
  let width := if UI_CURSOR_WIDTH >? u32 (s.(rwidth) - x) then u32 (s.(rwidth) - x)
               else UI_CURSOR_WIDTH in
  let height := if UI_CURSOR_HEIGHT >? u32 (s.(rheight) - y) then u32 (s.(rheight) - y)
                else UI_CURSOR_HEIGHT in
  MkRect x y width height.

Definition next_focus (current : Z) (previous : bool) : Z :=
  if (current <=? UI_ELEMENT_NONE) || (current >=? UI_ELEMENT_COUNT) then UI_ELEMENT_DOCK_TERMINAL
  else if previous then
    if current =? UI_ELEMENT_DOCK_TERMINAL then UI_ELEMENT_DOCK_ABOUT else current - 1
  else if current =? UI_ELEMENT_DOCK_ABOUT then UI_ELEMENT_DOCK_TERMINAL else current + 1.

(** * What the shell calls *)

(** An answer of [false] is any status but OK.  [render_region] draws the damaged
    region and presents it; it may count what it drew. *)
Class Shell (M : Type) := {
  screen_set_viewport : ui_rect -> bool -> M -> bool * M;
  screen_set_visible : bool -> M -> bool * M;
  render_region : ui -> ui_rect -> bool -> M -> ui_status * ui_render_counters * M
}.

Section shell.
Context {M : Type} `{Controller M} `{Shell M}.

Definition ui_event_publish (event : option ui_event) (u : ui) (m : M) : ui_status * ui * M :=
  let enabled := cpu_interrupts_enabled m in
  let m := if enabled then cpu_interrupt_disable m else m in
  let '(status, u) := publish_unlocked event u in
  (status, u, if enabled then cpu_interrupt_enable m else m).

Definition pop_event (u : ui) (m : M) : option ui_event * ui * M :=
  let enabled := cpu_interrupts_enabled m in
  let m := if enabled then cpu_interrupt_disable m else m in
  let '(event, u) := pop_unlocked u in
  (event, u, if enabled then cpu_interrupt_enable m else m).

Definition ui_handle_keyboard (event : option keyboard_event) (u : ui) (m : M)
  : ui_status * ui * M :=
  match event with
  | None => (UI_STATUS_NULL_ARGUMENT, u, m)
  | Some e =>
      let publish t := ui_event_publish (Some (MkUiEvent t (MkPoint 0 0) 0)) u m in
      if negb u.(ui_active) || negb e.(pressed) then (UI_STATUS_OK, u, m)
      else if e.(scancode) =? 0x0F then
        publish (if e.(event_shift) then UI_EVENT_KEYBOARD_FOCUS_PREVIOUS
                 else UI_EVENT_KEYBOARD_FOCUS_NEXT)
      else if e.(scancode) =? 0x1C then publish UI_EVENT_KEYBOARD_ACTIVATION
      else if e.(scancode) =? 0x01 then publish UI_EVENT_PANEL_CLOSE
      else (UI_STATUS_OK, u, m)
  end.

(** [damage] is passed by reference: its new value is the third component. *)
Definition set_panel (panel_ : Z) (damage : ui_rect) (u : ui) (m : M)
  : ui_status * ui * ui_rect * M :=
  let old_panel := u.(active_panel) in
  if (panel_ <? UI_PANEL_NONE) || (panel_ >=? UI_PANEL_COUNT)
  then (UI_STATUS_BAD_PANEL, u, damage, m)
  else
  let panel_ := if old_panel =? panel_ then UI_PANEL_NONE else panel_ in
  let damage :=
    if negb (old_panel =? UI_PANEL_NONE) || negb (panel_ =? UI_PANEL_NONE)
    then rect_union damage (drop_shadow_bounds u.(layout).(panel) 6) else damage in
  let damage := foldl (fun damage index =>
    let item := aget no_item u.(layout).(dock_items) index in
    if (item.(panel_of) =? old_panel) || (item.(panel_of) =? panel_)
    then rect_union damage item.(bounds) else damage) damage (seqZ 0 UI_DOCK_ITEM_COUNT) in
  let u := set_elements u u.(pointer) u.(focus) u.(hover) u.(pressed_element) panel_
             (panel_changed u.(renders)) in
  let '(ok, m) :=
    if panel_ =? UI_PANEL_TERMINAL then screen_set_viewport u.(layout).(panel_client) true m
    else screen_set_visible false m in
  (if ok then UI_STATUS_OK else UI_STATUS_SCREEN_FAILURE, u, damage, m).

Definition hit_at (u : ui) (p : ui_point) : ui_status * option Z :=
  ui_hit_test (Some u.(layout)) p true.

Definition dock_damage (u : ui) (damage : ui_rect) (element : Z) : ui_rect :=
  rect_union damage (dock_bounds_for (Some u.(layout)) element).

Definition apply_movement (e : ui_event) (damage : ui_rect) (u : ui) : ui_status * ui * ui_rect :=
  let s := u.(layout).(surface) in
  let old_cursor := cursor_rect_for s u.(pointer) in
  let old_hover := u.(hover) in
  let u := set_elements u e.(point) u.(focus) u.(hover) u.(pressed_element) u.(active_panel)
             u.(renders) in
  let new_cursor := cursor_rect_for s u.(pointer) in
  let damage := rect_union damage (rect_union old_cursor new_cursor) in
  match hit_at u u.(pointer) with
  | (UI_STATUS_OK, hit) =>
      let hit := default UI_ELEMENT_NONE hit in
      let u := set_elements u u.(pointer) u.(focus) hit u.(pressed_element) u.(active_panel)
                 (moved u.(renders)) in
      if negb (old_hover =? hit) then
        (UI_STATUS_OK, set_renders u (dock_changed u.(renders)),
         dock_damage u (dock_damage u damage old_hover) hit)
      else (UI_STATUS_OK, u, damage)
  | _ => (UI_STATUS_HIT_TEST_AMBIGUOUS, u, damage)
  end.

Definition set_pressed (u : ui) (e : Z) : ui :=
  set_elements u u.(pointer) u.(focus) u.(hover) e u.(active_panel) u.(renders).
Definition set_focus (u : ui) (f : Z) : ui :=
  set_elements u u.(pointer) f u.(hover) u.(pressed_element) u.(active_panel) u.(renders).

Definition apply_release (e : ui_event) (damage : ui_rect) (u : ui) (m : M)
  : ui_status * ui * ui_rect * M :=
  let pressed_ := u.(pressed_element) in
  match hit_at u e.(point) with
  | (UI_STATUS_OK, hit) =>
      let hit := default UI_ELEMENT_NONE hit in
      let u := set_pressed u UI_ELEMENT_NONE in
      let damage := dock_damage u damage pressed_ in
      let '(status, u, damage, m) :=
        if negb (pressed_ =? UI_ELEMENT_NONE) && (pressed_ =? hit)
        then set_panel (panel_for_element u.(layout) pressed_) damage u m
        else (UI_STATUS_OK, u, damage, m) in
      if negb (is_ok status) then (status, u, damage, m)
      else (UI_STATUS_OK, set_renders u (dock_changed u.(renders)), damage, m)
  | _ => (UI_STATUS_HIT_TEST_AMBIGUOUS, u, damage, m)
  end.

Definition apply_event (e : ui_event) (damage : ui_rect) (u : ui) (m : M)
  : ui_status * ui * ui_rect * M :=
  if is_movement e then
    let '(status, u, damage) := apply_movement e damage u in (status, u, damage, m)
  else if (e.(type) =? UI_EVENT_POINTER_BUTTON_PRESS) && (e.(button) =? UI_POINTER_BUTTON_LEFT) then
    match hit_at u e.(point) with
    | (UI_STATUS_OK, hit) =>
        let hit := default UI_ELEMENT_NONE hit in
        let u := set_pressed u hit in
        (UI_STATUS_OK, set_renders u (dock_changed u.(renders)), dock_damage u damage hit, m)
    | _ => (UI_STATUS_HIT_TEST_AMBIGUOUS, u, damage, m)
    end
  else if (e.(type) =? UI_EVENT_POINTER_BUTTON_RELEASE) && (e.(button) =? UI_POINTER_BUTTON_LEFT) then
    apply_release e damage u m
  else if (e.(type) =? UI_EVENT_KEYBOARD_FOCUS_NEXT) ||
          (e.(type) =? UI_EVENT_KEYBOARD_FOCUS_PREVIOUS) then
    let old_focus := u.(focus) in
    let u := set_focus u (next_focus u.(focus) (e.(type) =? UI_EVENT_KEYBOARD_FOCUS_PREVIOUS)) in
    (UI_STATUS_OK, set_renders u (dock_changed u.(renders)),
     dock_damage u (dock_damage u damage old_focus) u.(focus), m)
  else if e.(type) =? UI_EVENT_KEYBOARD_ACTIVATION then
    set_panel (panel_for_element u.(layout) u.(focus)) damage u m
  else if e.(type) =? UI_EVENT_PANEL_CLOSE then
    if negb (u.(active_panel) =? UI_PANEL_NONE) then set_panel UI_PANEL_NONE damage u m
    else (UI_STATUS_OK, u, damage, m)
  else if e.(type) =? UI_EVENT_REDRAW_REQUEST then (UI_STATUS_OK, u, u.(layout).(surface), m)
  else if negb (e.(type) =? UI_EVENT_POINTER_BUTTON_PRESS) &&
          negb (e.(type) =? UI_EVENT_POINTER_BUTTON_RELEASE)
  then (UI_STATUS_BAD_EVENT, u, damage, m)
  else (UI_STATUS_OK, u, damage, m).

(** What the interrupt handlers that run between two pops publish: pointer.c
    calls ui_event_publish with interrupts off, where it is publish_unlocked and
    a refusal is ignored.  No handler touches what apply_event does, nor
    apply_event the queue, so the handlers of a turn can be taken to run at its
    end.  [interrupts] says which events they publish in each turn and how they
    leave the machine. *)
Definition handled (events : list ui_event) (u : ui) : ui :=
  foldl (fun u e => (publish_unlocked (Some e) u).2) u events.

Definition handlers_run (interrupts : nat -> M -> list ui_event * M) (turn : nat) (u : ui) (m : M)
  : ui * M :=
  if cpu_interrupts_enabled m then
    let '(events, m) := interrupts turn m in (handled events u, m)
  else (u, m).

(** The draining loop, from its turn [turn] on; [None] when the fuel ran out. *)
Fixpoint drain_events (interrupts : nat -> M -> list ui_event * M) (turn fuel : nat)
    (damage : ui_rect) (u : ui) (m : M) : option (ui_status * ui * ui_rect * M) :=
  match fuel with
  | O => None
  | S fuel =>
      let '(event, u, m) := pop_event u m in
      match event with
      | None =>
          let '(u, m) := handlers_run interrupts turn u m in
          Some (UI_STATUS_OK, u, damage, m)
      | Some e =>
          let '(status, u, damage, m) := apply_event e damage u m in
          let '(u, m) := handlers_run interrupts turn u m in
          if negb (is_ok status) then Some (status, u, damage, m)
          else drain_events interrupts (S turn) fuel damage u m
      end
  end.

(** [fuel] bounds the draining loop, which in C runs until a pop finds the queue
    empty. *)
Definition ui_process_events (interrupts : nat -> M -> list ui_event * M) (fuel : nat)
    (u : ui) (m : M) : option (ui_status * ui * M) :=
  if negb u.(ui_active) then Some (UI_STATUS_NOT_ACTIVE, u, m)
  else
  '(status, u, damage, m) ← drain_events interrupts 0 fuel no_rect u m;
  if negb (is_ok status) then Some (status, u, m)
  else if (damage.(rwidth) =? 0) || (damage.(rheight) =? 0) then Some (UI_STATUS_OK, u, m)
  else
  let '(status, r, m) := render_region u damage
    ((damage.(rx) =? 0) && (damage.(ry) =? 0) &&
     (damage.(rwidth) =? u.(layout).(surface).(rwidth)) &&
     (damage.(rheight) =? u.(layout).(surface).(rheight))) m in
  Some (status, set_renders u r, m).
End shell.

(** * The queue as a list *)

Definition queue_ok (u : ui) : Prop :=
  zlength u.(event_queue) = 64 /\ 0 <= u.(event_count) <= 64.

Definition queued (u : ui) : list ui_event := take (Z.to_nat u.(event_count)) u.(event_queue).

Definition transition (e : ui_event) : bool := negb (is_movement e).
Definition transitions (l : list ui_event) : list ui_event := List.filter transition l.

Lemma zlength_queued u : queue_ok u -> zlength (queued u) = u.(event_count).
Proof. intros [Hl Hc]. apply zlength_take. lia. Qed.

Lemma seqZ_one a : seqZ a 1 = [a].
Proof. rewrite seqZ_cons by lia. by rewrite seqZ_nil by lia. Qed.

Lemma queue_shift_down q from n :
  0 <= from -> 0 <= n -> from + 1 + n <= zlength q ->
  let q' := foldl (fun q index => aset q (index - 1) (aget no_ui_event q index)) q
              (seqZ (from + 1) n) in
  zlength q' = zlength q /\
  forall i, 0 <= i -> aget no_ui_event q' i =
    if (from <=? i) && (i <? from + n) then aget no_ui_event q (i + 1) else aget no_ui_event q i.
Proof.
  intros Hf Hn. pattern n. apply natlike_ind; [| |done]; clear n Hn.
  - intros _. rewrite seqZ_nil by lia. split; [done|]. intros i Hi.
    destruct (_ && _) eqn:E; [bool_hyps; lia|done].
  - intros n Hn IH Hle. rewrite <- Z.add_1_r, seqZ_app, seqZ_one by lia.
    rewrite foldl_app. cbn [foldl].
    destruct IH as [Hl Ha]; [lia|]. set (q1 := foldl _ q _) in *.
    rewrite zlength_aset. split; [done|]. intros i Hi.
    rewrite aget_aset by lia. rewrite !Ha by lia.
    destruct (_ =? i) eqn:E1; bool_hyps.
    + assert ((from <=? from + 1 + n) && (from + 1 + n <? from + n) = false) as ->
        by (apply andb_false_iff; lia).
      assert ((from <=? i) && (i <? from + (n + 1)) = true) as -> by (apply andb_true_iff; lia).
      f_equal. lia.
    + assert ((i <? from + (n + 1)) = (i <? from + n)) as -> by lia. done.
Qed.

(** Closing the gap at [i] takes the element out of the waiting events. *)
Lemma close_gap_take (q : list ui_event) i n :
  0 <= i < n -> n <= zlength q ->
  zlength (close_gap q i n) = zlength q /\
  take (Z.to_nat (n - 1)) (close_gap q i n) =
    take (Z.to_nat i) q ++ drop (Z.to_nat (i + 1)) (take (Z.to_nat n) q).
Proof.
  intros Hi Hn. destruct (queue_shift_down q i (n - (i + 1))) as [Hl Ha]; [lia..|].
  fold (close_gap q i n) in *. split; [done|].
  assert (zlength (take (Z.to_nat (n - 1)) (close_gap q i n)) = n - 1) as H1
    by (apply zlength_take; lia).
  assert (zlength (take (Z.to_nat i) q) = i) as H2 by (apply zlength_take; lia).
  assert (zlength (drop (Z.to_nat (i + 1)) (take (Z.to_nat n) q)) = n - (i + 1)) as H3.
  { unfold zlength in *. rewrite length_drop, length_take. lia. }
  apply (list_eq_aget no_ui_event); [rewrite zlength_app; lia|].
  rewrite H1. intros j Hj. rewrite aget_take by lia. rewrite Ha by lia.
  rewrite aget_app by lia. rewrite H2.
  destruct (j <? i) eqn:E; bool_hyps.
  - assert ((i <=? j) = false) as -> by lia. simpl. symmetry. apply aget_take. lia.
  - assert ((i <=? j) && (j <? i + (n - (i + 1))) = true) as -> by (apply andb_true_iff; lia).
    unfold aget. rewrite !nth_lookup, lookup_drop, lookup_take_lt by lia.
    f_equal. f_equal. lia.
Qed.

Lemma take_aset_last (q : list ui_event) n e :
  0 <= n < zlength q -> take (Z.to_nat (n + 1)) (aset q n e) = take (Z.to_nat n) q ++ [e].
Proof.
  intros Hn. apply (list_eq_aget no_ui_event).
  - rewrite zlength_app, !zlength_take by (rewrite ?zlength_aset; lia). done.
  - rewrite zlength_take by (rewrite ?zlength_aset; lia). intros j Hj.
    rewrite aget_take, aget_aset, aget_app, zlength_take by lia.
    destruct (n =? j) eqn:E; bool_hyps.
    + subst. assert ((j <? j) = false) as -> by lia. by rewrite Z.sub_diag.
    + assert ((j <? n) = true) as -> by lia. by rewrite aget_take by lia.
Qed.

(** Evicting the first movement of a list. *)
Fixpoint evict (q : list ui_event) : option (list ui_event) :=
  match q with
  | [] => None
  | x :: q => if is_movement x then Some q else cons x <$> evict q
  end.

Lemma find_movement_evict q n :
  0 <= n <= zlength q ->
  if find_movement q n =? n then evict (take (Z.to_nat n) q) = None
  else 0 <= find_movement q n < n /\
    evict (take (Z.to_nat n) q) =
      Some (take (Z.to_nat (find_movement q n)) q ++
            drop (Z.to_nat (find_movement q n + 1)) (take (Z.to_nat n) q)).
Proof.
  intros Hn. unfold find_movement.
  rewrite (for_each_scan (fun index => is_movement (aget no_ui_event q index)) (fun i => i)).
  destruct (List.find _ _) as [i|] eqn:E.
  - apply find_seqZ_Some in E as (Hi & Hp & Hlt). destruct (i =? n) eqn:En; bool_hyps; [lia|].
    split; [lia|]. assert (take (Z.to_nat n) q = take (Z.to_nat i) q ++
      aget no_ui_event q i :: drop (Z.to_nat (i + 1)) (take (Z.to_nat n) q)) as Es.
    { rewrite <- (take_drop (Z.to_nat i) (take (Z.to_nat n) q)) at 1.
      rewrite take_take, Nat.min_l by lia. f_equal.
      replace (Z.to_nat (i + 1)) with (S (Z.to_nat i)) by lia. apply drop_S.
      rewrite lookup_take_lt by lia. apply lookup_aget. lia. }
    rewrite Es at 1. generalize (drop (Z.to_nat (i + 1)) (take (Z.to_nat n) q)). intros rest.
    assert (Forall (fun x => is_movement x = false) (take (Z.to_nat i) q)) as Hall.
    { apply Forall_forall. intros x Hx. apply (elem_of_aget no_ui_event) in Hx as (j & Hj & <-).
      rewrite zlength_take in Hj by lia. rewrite aget_take by lia. apply Hlt. lia. }
    clear Es. induction Hall as [|x l Hx _ IH]; cbn [evict app]; [by rewrite Hp|]. by rewrite Hx, IH.
  - rewrite find_seqZ_None in E. rewrite Z.eqb_refl.
    assert (Forall (fun x => is_movement x = false) (take (Z.to_nat n) q)) as Hall.
    { apply Forall_forall. intros x Hx. apply (elem_of_aget no_ui_event) in Hx as (j & Hj & <-).
      rewrite zlength_take in Hj by lia. rewrite aget_take by lia. apply E. lia. }
    induction Hall as [|x l Hx _ IH]; cbn [evict]; [done|]. by rewrite Hx, IH.
Qed.

(** The reference queue: a list of at most 64 events. *)
Definition publish_spec (e : ui_event) (q : list ui_event) : ui_status * list ui_event :=
  if is_movement e && from_option is_movement false (last q) then
    (UI_STATUS_OK, take (length q - 1) q ++ [e])
  else if zlength q <? 64 then (UI_STATUS_OK, q ++ [e])
  else if is_movement e then (UI_STATUS_EVENT_QUEUE_FULL, q)
  else
    match evict q with
    | Some q => (UI_STATUS_OK, q ++ [e])
    | None => (UI_STATUS_EVENT_QUEUE_FULL, q)
    end.

Definition valid_event (e : ui_event) : Prop := 0 < e.(type) < 9.

Lemma last_queued u :
  queue_ok u ->
  from_option is_movement false (last (queued u)) =
  (u.(event_count) >? 0) && is_movement (aget no_ui_event u.(event_queue) (u.(event_count) - 1)).
Proof.
  intros Hq. pose proof (zlength_queued u Hq) as Hz. destruct Hq as [Hl Hc].
  rewrite last_lookup. unfold zlength in Hz. destruct (_ >? 0) eqn:E; bool_hyps.
  - replace (pred (length (queued u))) with (Z.to_nat (u.(event_count) - 1)) by lia.
    unfold queued. rewrite lookup_take_lt by lia. by rewrite (lookup_aget no_ui_event) by lia.
  - rewrite lookup_ge_None_2 by lia. done.
Qed.

Lemma publish_refines e u :
  queue_ok u -> valid_event e ->
  let '(s, u') := publish_unlocked (Some e) u in
  queue_ok u' /\ (s, queued u') = publish_spec e (queued u).
Proof.
  intros Hq Hv. pose proof (zlength_queued u Hq) as Hz. pose proof (last_queued u Hq) as Hlast.
  unfold publish_unlocked, publish_spec, valid_event in *. rewrite Hlast, Hz.
  destruct Hq as [Hl Hc]. unfold UI_EVENT_NONE, UI_EVENT_TYPE_COUNT, UI_EVENT_QUEUE_CAPACITY.
  assert ((e.(type) <=? 0) = false) as -> by lia. assert ((e.(type) >=? 9) = false) as -> by lia.
  cbn [orb]. rewrite andb_assoc.
  destruct (_ && _ && is_movement _) eqn:Em.
  { bool_hyps. split; [split; simpl; [by rewrite zlength_aset|lia]|]. f_equal.
    unfold queued at 1. cbn [event_queue event_count set_queue].
    replace (Z.to_nat u.(event_count)) with (Z.to_nat (u.(event_count) - 1 + 1)) by lia.
    rewrite take_aset_last by lia. f_equal. unfold queued. rewrite length_take, take_take.
    f_equal. unfold zlength in Hl. lia. }
  destruct (u.(event_count) =? 64) eqn:En; bool_hyps.
  2: { assert ((u.(event_count) <? 64) = true) as -> by lia.
       split; [split; simpl; [by rewrite zlength_aset|lia]|]. f_equal.
       unfold queued at 1. cbn [event_queue event_count set_queue]. apply take_aset_last. lia. }
  assert ((u.(event_count) <? 64) = false) as -> by lia.
  destruct (is_movement e); [split; [split; simpl; done || lia|done]|].
  pose proof (find_movement_evict u.(event_queue) u.(event_count) ltac:(lia)) as Hf.
  destruct (find_movement _ _ =? _) eqn:Ef.
  { unfold queued. rewrite Hf. split; [split; simpl; done || lia|done]. }
  destruct Hf as [Hi He]. destruct (close_gap_take u.(event_queue) _ u.(event_count) Hi) as [Hg Ht];
    [lia|]. unfold queued. rewrite He. cbn [event_queue event_count set_queue].
  split; [split; simpl; [by rewrite zlength_aset, Hg|lia]|]. f_equal.
  rewrite take_aset_last by lia. by rewrite Ht.
Qed.

Lemma pop_refines u :
  queue_ok u ->
  let '(e, u') := pop_unlocked u in
  queue_ok u' /\
  match queued u with
  | [] => e = None /\ u' = u
  | x :: rest => e = Some x /\ queued u' = rest
  end.
Proof.
  intros Hq. pose proof (zlength_queued u Hq) as Hz. destruct Hq as [Hl Hc]. unfold pop_unlocked.
  destruct (_ =? 0) eqn:E; bool_hyps.
  { split; [split; lia|]. unfold queued. rewrite E. done. }
  destruct (close_gap_take u.(event_queue) 0 u.(event_count)) as [Hg Ht]; [lia..|].
  split; [split; simpl; lia|].
  destruct (queued u) as [|x rest] eqn:Eq; [unfold zlength in Hz; simpl in Hz; lia|].
  split.
  - f_equal. unfold queued in Eq. apply aget_lookup.
    change (Z.to_nat 0) with 0%nat. rewrite <- (lookup_take_lt _ (Z.to_nat u.(event_count)) 0) by lia.
    by rewrite Eq.
  - unfold queued in *. cbn [event_queue event_count set_queue]. rewrite Ht, Eq. done.
Qed.

(** * No press, release or key is lost *)

Lemma transitions_app l1 l2 : transitions (l1 ++ l2) = transitions l1 ++ transitions l2.
Proof. apply List.filter_app. Qed.

Lemma evict_transitions q q' : evict q = Some q' -> transitions q' = transitions q.
Proof.
  revert q'. induction q as [|x q IH]; intros q'; [done|]. cbn [evict transitions List.filter].
  unfold transition at 1. destruct (is_movement x) eqn:E; cbn [negb].
  - intros [= <-]. done.
  - destruct (evict q) as [q1|]; [|done]. intros [= <-]. unfold transitions. cbn [List.filter].
    unfold transition at 1. rewrite E. cbn [negb]. f_equal. by apply IH.
Qed.

Lemma evict_None q : evict q = None <-> transitions q = q.
Proof.
  induction q as [|x q IH]; [done|]. cbn [evict transitions List.filter].
  unfold transition at 1. destruct (is_movement x) eqn:E; cbn [negb].
  - split; [done|]. intros C. apply (f_equal length) in C. cbn [length] in C.
    pose proof (List.filter_length_le transition q). lia.
  - fold (transitions q). destruct (evict q) as [q'|]; simpl; split; intros H0; try done.
    + injection H0 as H0. apply IH in H0. done.
    + f_equal. by apply IH.
Qed.

Lemma publish_transitions e q :
  let '(s, q') := publish_spec e q in
  transitions q' = transitions q ++ (if is_ok s then transitions [e] else []).
Proof.
  unfold publish_spec. destruct (_ && _) eqn:Em.
  - apply andb_prop in Em as [He Hl]. change (is_ok UI_STATUS_OK) with true. cbn iota.
    rewrite transitions_app. f_equal. destruct q as [|x q _] using rev_ind; [done|].
    rewrite last_snoc in Hl. simpl in Hl. rewrite length_app. simpl.
    replace (length q + 1 - 1)%nat with (length q) by lia. rewrite take_app_length.
    rewrite transitions_app. unfold transitions at 3. cbn [List.filter]. unfold transition.
    rewrite Hl. simpl. by rewrite app_nil_r.
  - destruct (_ <? 64); [by rewrite transitions_app|].
    destruct (is_movement e) eqn:He; [simpl; by rewrite app_nil_r|].
    destruct (evict q) as [q'|] eqn:E.
    + rewrite transitions_app. by rewrite (evict_transitions q q').
    + simpl. by rewrite app_nil_r.
Qed.

Lemma List_filter_all {A} (p : A -> bool) l :
  (length l <= length (List.filter p l))%nat -> List.filter p l = l.
Proof.
  induction l as [|x l IH]; [done|]. cbn [List.filter length].
  pose proof (List.filter_length_le p l). destruct (p x); cbn [length]; [|lia].
  intros. f_equal. apply IH. lia.
Qed.

(** What a counter difference leaves: events taken in and not accounted for. *)
Definition balance (u : ui) : Z :=
  u.(counters).(accepted) - u.(counters).(drained) - u.(counters).(coalesced) -
  u.(counters).(dropped_events) - u.(event_count).

Lemma u64_shift x : exists k, u64 x = x + k * 18446744073709551616.
Proof. exists (- (x / 18446744073709551616)). unfold u64. rewrite Z.mod_eq by lia. lia. Qed.

Lemma balance_step c n n' a d m x :
  a - d - m - x = n' - n ->
  u64 ((counted c a d m x).(accepted) - (counted c a d m x).(drained) -
       (counted c a d m x).(coalesced) - (counted c a d m x).(dropped_events) - n') =
  u64 (c.(accepted) - c.(drained) - c.(coalesced) - c.(dropped_events) - n).
Proof.
  intros E. simpl.
  destruct (u64_shift (c.(accepted) + a)) as [k1 ->], (u64_shift (c.(drained) + d)) as [k2 ->],
    (u64_shift (c.(coalesced) + m)) as [k3 ->], (u64_shift (c.(dropped_events) + x)) as [k4 ->].
  unfold u64.
  match goal with |- ?l mod _ = ?r mod _ =>
    replace l with (r + (k1 - k2 - k3 - k4) * 18446744073709551616) by lia end.
  apply Z_mod_plus_full.
Qed.

Lemma publish_balance e u :
  valid_event e ->
  u64 (balance (publish_unlocked (Some e) u).2) = u64 (balance u).
Proof.
  intros Hv. unfold publish_unlocked, valid_event, UI_EVENT_NONE, UI_EVENT_TYPE_COUNT in *.
  assert ((e.(type) <=? 0) = false) as -> by lia. assert ((e.(type) >=? 9) = false) as -> by lia.
  cbn [orb]. unfold balance. repeat split_if; bool_hyps; cbn [snd counters event_count set_queue];
    rewrite ?(balance_step _ (u.(event_count) + 1)) by lia; apply balance_step; lia.
Qed.

Lemma pop_balance u : u64 (balance (pop_unlocked u).2) = u64 (balance u).
Proof.
  unfold pop_unlocked, balance. split_if; [done|]. cbn [snd counters event_count set_queue].
  apply balance_step. lia.
Qed.

Inductive queue_op : Type :=
| Publish (e : ui_event)
| Take.

(** The events accepted and the events taken, in order. *)
Fixpoint run_queue (ops : list queue_op) (u : ui) : list ui_event * list ui_event * ui :=
  match ops with
  | [] => ([], [], u)
  | Publish e :: ops =>
      let '(s, u) := publish_unlocked (Some e) u in
      let '(published, taken, u) := run_queue ops u in
      (if is_ok s then e :: published else published, taken, u)
  | Take :: ops =>
      let '(e, u) := pop_unlocked u in
      let '(published, taken, u) := run_queue ops u in
      (published, option_list e ++ taken, u)
  end.

Definition valid_op (op : queue_op) : Prop :=
  match op with Publish e => valid_event e | Take => True end.

Lemma run_queue_kept ops u :
  queue_ok u -> Forall valid_op ops ->
  let '(published, taken, u') := run_queue ops u in
  queue_ok u' /\
  transitions (queued u) ++ transitions published = transitions taken ++ transitions (queued u') /\
  u64 (balance u') = u64 (balance u).
Proof.
  intros Hq Hops. revert u Hq. induction Hops as [|op ops Hv _ IH]; intros u Hq; cbn [run_queue].
  { by rewrite app_nil_r. }
  destruct op as [e|].
  - pose proof (publish_refines e u Hq Hv) as Hr. pose proof (publish_balance e u Hv) as Hb.
    pose proof (publish_transitions e (queued u)) as Ht.
    destruct (publish_unlocked (Some e) u) as [s u1]. destruct Hr as [Hq1 Hr]. rewrite <- Hr in Ht.
    specialize (IH u1 Hq1). destruct (run_queue ops u1) as [[published taken] u'].
    destruct IH as (Hq' & Hs & Hb'). split; [done|]. cbn [snd] in Hb. split; [|congruence].
    rewrite <- Hs, Ht, <- app_assoc. f_equal. destruct (is_ok s); [|done].
    change (e :: published) with ([e] ++ published). apply transitions_app.
  - pose proof (pop_refines u Hq) as Hr. pose proof (pop_balance u) as Hb.
    destruct (pop_unlocked u) as [e u1]. destruct Hr as [Hq1 Hr]. specialize (IH u1 Hq1).
    destruct (run_queue ops u1) as [[published taken] u']. destruct IH as (Hq' & Hs & Hb').
    split; [done|]. cbn [snd] in Hb. split; [|congruence].
    destruct (queued u) as [|x rest] eqn:E.
    + destruct Hr as [-> ->]. rewrite E in Hs. done.
    + destruct Hr as [-> Hr]. rewrite Hr in Hs. simpl option_list.
      change (x :: rest) with ([x] ++ rest). rewrite !transitions_app, <- !app_assoc. by rewrite Hs.
Qed.

Lemma transition_refused e u :
  queue_ok u -> valid_event e -> transition e = true ->
  (publish_unlocked (Some e) u).1 <> UI_STATUS_OK <-> zlength (transitions (queued u)) = 64.
Proof.
  intros Hq Hv He. pose proof (publish_refines e u Hq Hv) as Hr.
  pose proof (zlength_queued u Hq) as Hz. destruct Hq as [_ Hc].
  destruct (publish_unlocked (Some e) u) as [s u']. cbn [fst]. destruct Hr as [_ Hr].
  unfold transition in He. apply negb_true_iff in He. unfold publish_spec in Hr. rewrite He in Hr.
  cbn [andb] in Hr. pose proof (List.filter_length_le transition (queued u)) as Hle.
  fold (transitions (queued u)) in Hle. unfold zlength in *.
  destruct (_ <? 64) eqn:E; bool_hyps.
  { injection Hr as -> _. split; [done|lia]. }
  destruct (evict (queued u)) as [q'|] eqn:Ee; injection Hr as -> _.
  - split; [done|]. intros C. assert (evict (queued u) = None) as D; [|congruence].
    apply evict_None. apply List_filter_all. fold (transitions (queued u)). lia.
  - split; [|done]. intros _. apply evict_None in Ee. rewrite Ee. lia.
Qed.

(** C26 (invariant): through any interleaving of publishing and taking events the
    bounded queue loses only pointer movements.  The presses, releases and keys
    accepted come out in the order they went in; one is refused exactly when 64
    of them are waiting; and the counters account for every event: accepted is
    drained plus merged plus dropped plus waiting, modulo 2^64. *)
Theorem ui_transitions_kept ops u :
  queue_ok u -> Forall valid_op ops ->
  let '(published, taken, u') := run_queue ops u in
  queue_ok u' /\ zlength (queued u') <= 64 /\
  transitions (queued u) ++ transitions published = transitions taken ++ transitions (queued u') /\
  u64 (balance u') = u64 (balance u) /\
  forall e, valid_event e -> transition e = true ->
    (publish_unlocked (Some e) u').1 <> UI_STATUS_OK <-> zlength (transitions (queued u')) = 64.
Proof.
  intros Hq Hops. pose proof (run_queue_kept ops u Hq Hops) as Hr.
  destruct (run_queue ops u) as [[published taken] u']. destruct Hr as (Hq' & Hs & Hb).
  split_and!; try done.
  - rewrite zlength_queued by done. apply Hq'.
  - intros e Hv He. by apply transition_refused.
Qed.

(** * What is drawn lies inside the surface *)

(** A damage rectangle the renderer may be given. *)
Definition good (s r : ui_rect) : Prop := fits r /\ (empty r \/ within r s).

Lemma good_none s : good s no_rect.
Proof. split; [by vm_compute; split_and!; try congruence|]. left. by left. Qed.

Lemma good_union s r1 r2 : good s r1 -> good s r2 -> good s (rect_union r1 r2).
Proof.
  intros [F1 W1] [F2 W2]. unfold rect_union.
  destruct (_ || _) eqn:E1; [done|]. destruct (_ || _) eqn:E2 in |- *; [done|]. bool_hyps.
  assert (~ empty r1) as N1 by (unfold empty; lia). assert (~ empty r2) as N2 by (unfold empty; lia).
  destruct (union_points r1 r2 F1 F2 N1 N2) as (Fu & Hx & Hy & Hr & Hb).
  destruct W1 as [?|W1]; [done|]. destruct W2 as [?|W2]; [done|].
  unfold rect_union in *. repeat match goal with H : (_ =? 0) = _ |- _ => rewrite H in * end.
  assert ((rwidth r1 =? 0) = false) as E5 by lia. assert ((rheight r1 =? 0) = false) as E6 by lia.
  assert ((rwidth r2 =? 0) = false) as E7 by lia. assert ((rheight r2 =? 0) = false) as E8 by lia.
  rewrite E5, E6, E7, E8 in *. cbn [orb] in *.
  split; [done|]. right. unfold within in *. lia.
Qed.

Lemma good_cursor w h p :
  800 <= w <= 1920 -> 600 <= h <= 1200 -> is_point p ->
  good (MkRect 0 0 w h) (cursor_rect_for (MkRect 0 0 w h) p).
Proof.
  intros Hw Hh [Hx Hy]. unfold cursor_rect_for, UI_CURSOR_WIDTH, UI_CURSOR_HEIGHT.
  cbn [rx ry rwidth rheight]. destruct (_ || _) eqn:E; [apply good_none|]. bool_hyps.
  rewrite (u32_small p.(point_x)), (u32_small p.(point_y)), (u32_small (w - 1)),
    (u32_small (h - 1)) by (unfold is_u32, UINT32_MAX; lia).
  destruct (_ >=? w) eqn:Ex; destruct (_ >=? h) eqn:Ey; bool_hyps;
    repeat match goal with |- context [u32 ?z] =>
      rewrite (u32_small z) by (unfold is_u32, UINT32_MAX; lia) end;
    repeat split_if; bool_hyps; (split; [|right]);
    unfold fits, is_rect, within, is_u32, UINT32_MAX; cbn [rx ry rwidth rheight]; lia.
Qed.

(** The shell runs with a layout built for a supported geometry. *)
Definition laid_out (u : ui) : Prop :=
  exists w h, 800 <= w <= 1920 /\ 600 <= h <= 1200 /\ u.(layout) = layout_at w h.

Definition elements_ok (u : ui) : Prop :=
  0 <= u.(focus) <= 4 /\ 0 <= u.(hover) <= 4 /\ 0 <= u.(pressed_element) <= 4 /\
  0 <= u.(active_panel) <= 4 /\ is_point u.(pointer).

Definition event_ok (e : ui_event) : Prop := valid_event e /\ is_point e.(point).

Definition shell_ok (u : ui) : Prop :=
  laid_out u /\ elements_ok u /\ queue_ok u /\ Forall event_ok (queued u).

Lemma laid_out_items w h i :
  800 <= w <= 1920 -> 600 <= h <= 1200 -> 0 <= i < 4 ->
  aget no_item (layout_at w h).(dock_items) i = plain_item ((w - 596) / 2) (h - 82) i.
Proof.
  intros Hw Hh Hi.
  destruct (layout_accepted w h Hw Hh) as (_ & _ & (Dx & Dy & _) & _).
  change (dock_items (layout_at w h)) with (map (dock_item_at (dock (layout_at w h))) (seqZ 0 4)).
  assert (0 <= (w - 596) / 2 <= 2000) by (Z.to_euclidean_division_equations; lia).
  rewrite aget_map_seqZ, dock_item_plain by lia. by rewrite Dx, Dy.
Qed.

Lemma good_item w h i :
  800 <= w <= 1920 -> 600 <= h <= 1200 -> 0 <= i < 4 ->
  good (MkRect 0 0 w h) (aget no_item (layout_at w h).(dock_items) i).(bounds).
Proof.
  intros Hw Hh Hi. rewrite laid_out_items by done. unfold plain_item. cbn [bounds].
  split; [|right]; unfold fits, is_rect, within, is_u32, UINT32_MAX; cbn [rx ry rwidth rheight];
    Z.to_euclidean_division_equations; lia.
Qed.

Lemma good_dock w h e :
  800 <= w <= 1920 -> 600 <= h <= 1200 ->
  good (MkRect 0 0 w h) (dock_bounds_for (Some (layout_at w h)) e).
Proof.
  intros Hw Hh. unfold dock_bounds_for, UI_ELEMENT_NONE, UI_ELEMENT_COUNT.
  destruct (_ || _) eqn:E; [apply good_none|]. bool_hyps. apply good_item; lia.
Qed.

Lemma good_panel w h :
  800 <= w <= 1920 -> 600 <= h <= 1200 ->
  good (MkRect 0 0 w h) (drop_shadow_bounds (layout_at w h).(panel) 6).
Proof.
  intros Hw Hh. destruct (layout_accepted w h Hw Hh) as (Hrs & _).
  change (MkRect 0 0 w h) with (surface (layout_at w h)). generalize dependent (layout_at w h). intros l Hrs. unfold rectangles in Hrs.
  rewrite !Forall_cons in Hrs. destruct Hrs as (_ & _ & _ & _ & _ & _ & _ & _ & _ & _ & _ & _ & _ & Hp & _).
  split; [apply Hp|]. right. apply Hp.
Qed.

(** The hit test always answers, with an element or none. *)
Lemma hit_answers w h p :
  800 <= w <= 1920 -> 600 <= h <= 1200 ->
  exists e, ui_hit_test (Some (layout_at w h)) p true = (UI_STATUS_OK, Some e) /\ 0 <= e <= 4.
Proof.
  intros Hw Hh. unfold ui_hit_test. cbn [negb]. change UI_DOCK_ITEM_COUNT with (Z.of_nat 4).
  rewrite hit_loop.
  - eexists. split; [done|]. destruct (List.find _ _) as [i|] eqn:E; [|unfold UI_ELEMENT_NONE; lia].
    apply find_seqZ_Some in E as (Hi & _). rewrite laid_out_items by lia. simpl. lia.
  - intros i j H0 Hj Hc. rewrite laid_out_items in * by lia. cbn [bounds plain_item] in *.
    unfold rect_contains_point in *. apply andb_prop in Hc as [Hp Hc]. rewrite Hp. cbn [andb].
    assert (0 <= (w - 596) / 2 <= 700) as Hd by (Z.to_euclidean_division_equations; lia).
    rewrite rect_end_fits in * by
      (unfold fits, is_rect, empty, is_u32, UINT32_MAX; cbn [rx ry rwidth rheight]; lia).
    cbn [rx ry rwidth rheight] in *. bool_hyps.
    apply not_true_is_false. intros C. bool_hyps. lia.
  - done.
  - intros i Hi. rewrite laid_out_items by lia. simpl. unfold UI_ELEMENT_NONE. lia.
Qed.

Section processing.
Context {M : Type} `{Controller M} `{Shell M}.
Implicit Types m : M.

(** What applying an event leaves alone. *)
Definition framed (u u' : ui) : Prop :=
  u'.(layout) = u.(layout) /\ u'.(event_queue) = u.(event_queue) /\
  u'.(event_count) = u.(event_count) /\ u'.(ui_active) = u.(ui_active).

Definition applied (w h : Z) (u : ui) (r : ui_status * ui * ui_rect * M) : Prop :=
  let '(s, u', d, _) := r in
  (s = UI_STATUS_OK \/ s = UI_STATUS_SCREEN_FAILURE) /\ framed u u' /\ elements_ok u' /\
  good (MkRect 0 0 w h) d.

Lemma foldl_good {A} s (f : ui_rect -> A -> ui_rect) l d :
  (forall d x, x ∈ l -> good s d -> good s (f d x)) -> good s d -> good s (foldl f d l).
Proof.
  revert d. induction l as [|x l IH]; intros d Hf Hd; [done|]. simpl. apply IH.
  - intros d' y Hy. apply Hf. by right.
  - apply Hf; [by left|done].
Qed.

Lemma set_panel_applied w h p d u m :
  800 <= w <= 1920 -> 600 <= h <= 1200 -> u.(layout) = layout_at w h -> elements_ok u ->
  0 <= p <= 4 -> good (MkRect 0 0 w h) d -> applied w h u (set_panel p d u m).
Proof.
  intros Hw Hh Hl (He1 & He2 & He3 & He4 & He5) Hp Hd.
  unfold set_panel, UI_PANEL_NONE, UI_PANEL_COUNT.
  assert ((p <? 0) = false) as -> by lia. assert ((p >=? 5) = false) as -> by lia. cbn [orb].
  set (p' := if _ =? p then 0 else p).
  assert (0 <= p' <= 4) as Hp' by (subst p'; split_if; lia). clearbody p'.
  set (u1 := set_elements _ _ _ _ _ _ _). set (d1 := foldl _ _ _).
  assert (good (MkRect 0 0 w h) d1) as Hd1.
  { apply foldl_good.
    - intros d' i Hi%elem_of_seqZ Hd'. unfold UI_DOCK_ITEM_COUNT in Hi. rewrite Hl.
      split_if; [|done]. apply good_union; [done|]. apply good_item; lia.
    - split_if; [|done]. apply good_union; [done|]. rewrite Hl. by apply good_panel. }
  clearbody d1. destruct (if p' =? UI_PANEL_TERMINAL then _ else _) as [ok m'].
  split; [destruct ok; tauto|]. split_and!; done || lia.
Qed.

Lemma panel_in_range w h e :
  800 <= w <= 1920 -> 600 <= h <= 1200 -> 0 <= panel_for_element (layout_at w h) e <= 4.
Proof.
  intros Hw Hh. unfold panel_for_element, UI_ELEMENT_NONE, UI_ELEMENT_COUNT, UI_PANEL_NONE.
  destruct (_ || _) eqn:E; [lia|]. bool_hyps. rewrite laid_out_items by lia. simpl. lia.
Qed.

Lemma next_focus_range f b : 0 <= f <= 4 -> 0 <= next_focus f b <= 4.
Proof.
  intros Hf. unfold next_focus, UI_ELEMENT_NONE, UI_ELEMENT_COUNT, UI_ELEMENT_DOCK_TERMINAL,
    UI_ELEMENT_DOCK_ABOUT. repeat split_if; bool_hyps; lia.
Qed.

Lemma movement_applied w h e d u m :
  800 <= w <= 1920 -> 600 <= h <= 1200 -> u.(layout) = layout_at w h -> elements_ok u ->
  event_ok e -> good (MkRect 0 0 w h) d ->
  applied w h u (let '(status, u, damage) := apply_movement e d u in (status, u, damage, m)).
Proof.
  intros Hw Hh Hl (He1 & He2 & He3 & He4 & He5) [Hv Hpt] Hd.
  unfold apply_movement, hit_at. cbn [layout pointer set_elements]. rewrite Hl.
  destruct (hit_answers w h e.(point) Hw Hh) as (x & -> & Hx).
  change (default UI_ELEMENT_NONE (Some x)) with x.
  change (surface (layout_at w h)) with (MkRect 0 0 w h). set (d1 := rect_union d _).
  assert (good (MkRect 0 0 w h) d1) as Hg
    by (repeat apply good_union; try done; by apply good_cursor).
  clearbody d1. split_if; (split; [by left|]); unfold dock_damage; cbn [layout set_elements];
    rewrite ?Hl; split_and!; try done; repeat apply good_union; try done; by apply good_dock.
Qed.

Lemma release_applied w h e d u m :
  800 <= w <= 1920 -> 600 <= h <= 1200 -> u.(layout) = layout_at w h -> elements_ok u ->
  good (MkRect 0 0 w h) d -> applied w h u (apply_release e d u m).
Proof.
  intros Hw Hh Hl (He1 & He2 & He3 & He4 & He5) Hd. unfold apply_release, hit_at. rewrite Hl.
  destruct (hit_answers w h e.(point) Hw Hh) as (x & -> & Hx).
  change (default UI_ELEMENT_NONE (Some x)) with x.
  set (u1 := set_pressed u UI_ELEMENT_NONE). set (d1 := dock_damage u1 d _).
  assert (elements_ok u1) as He by (split_and!; done || (simpl; unfold UI_ELEMENT_NONE; lia)).
  assert (good (MkRect 0 0 w h) d1) as Hd1.
  { apply good_union; [done|]. simpl. rewrite Hl. by apply good_dock. }
  assert (framed u u1) as Hf by done. assert (u1.(layout) = layout_at w h) as Hl1 by done.
  clearbody u1 d1. set (r := if _ && _ then _ else _).
  assert (applied w h u1 r) as Ha.
  { subst r. split_if; [|by split; [left|split_and!]]. apply set_panel_applied; try done.
    rewrite Hl1. by apply panel_in_range. }
  clearbody r. destruct r as [[[s u2] d2] m2]. destruct Ha as (Hs & F2 & E2 & G2).
  assert (framed u u2) as F3 by (unfold framed in *; intuition congruence).
  unfold is_ok. case_bool_decide; simpl; (split; [tauto|]); split_and!; try done; apply F3.
Qed.

Lemma apply_event_applied w h e d u m :
  800 <= w <= 1920 -> 600 <= h <= 1200 -> u.(layout) = layout_at w h -> elements_ok u ->
  event_ok e -> good (MkRect 0 0 w h) d -> applied w h u (apply_event e d u m).
Proof.
  intros Hw Hh Hl He Hok Hd. pose proof He as (He1 & He2 & He3 & He4 & He5).
  pose proof Hok as [Hv Hpt]. unfold valid_event in Hv.
  unfold apply_event. destruct (is_movement e) eqn:Em; [by apply movement_applied|].
  unfold is_movement in Em.
  destruct (_ && (_ =? UI_POINTER_BUTTON_LEFT)) eqn:E2.
  { unfold hit_at. rewrite Hl. destruct (hit_answers w h e.(point) Hw Hh) as (x & -> & Hx).
    change (default UI_ELEMENT_NONE (Some x)) with x.
    split; [by left|]. unfold dock_damage; cbn [layout set_elements set_pressed].
    rewrite Hl. split_and!; try done. apply good_union; [done|]. by apply good_dock. }
  destruct (_ && (_ =? UI_POINTER_BUTTON_LEFT)) eqn:E3 in |- *; [by apply release_applied|].
  destruct ((_ =? _) || (_ =? _)) eqn:E4.
  { split; [by left|]. unfold dock_damage; cbn [layout set_elements set_focus set_renders focus].
    pose proof (next_focus_range u.(focus) (e.(type) =? UI_EVENT_KEYBOARD_FOCUS_PREVIOUS) He1).
    rewrite Hl. split_and!; try done. repeat apply good_union; try done; by apply good_dock. }
  destruct (_ =? UI_EVENT_KEYBOARD_ACTIVATION) eqn:E5.
  { apply set_panel_applied; try done. rewrite Hl. by apply panel_in_range. }
  destruct (_ =? UI_EVENT_PANEL_CLOSE) eqn:E6.
  { split_if; [apply set_panel_applied; try done; unfold UI_PANEL_NONE; lia|].
    by split; [left|]. }
  destruct (_ =? UI_EVENT_REDRAW_REQUEST) eqn:E7.
  { split; [by left|]. split; [done|]. split; [done|]. rewrite Hl.
    change (surface (layout_at w h)) with (MkRect 0 0 w h).
    split; [|right]; unfold fits, is_rect, within, is_u32, UINT32_MAX; cbn; lia. }
  destruct (negb _ && negb _) eqn:E8; [|by split; [left|]].
  exfalso. unfold UI_EVENT_POINTER_MOVEMENT, UI_EVENT_KEYBOARD_FOCUS_NEXT,
    UI_EVENT_KEYBOARD_FOCUS_PREVIOUS, UI_EVENT_KEYBOARD_ACTIVATION, UI_EVENT_PANEL_CLOSE,
    UI_EVENT_REDRAW_REQUEST, UI_EVENT_POINTER_BUTTON_PRESS, UI_EVENT_POINTER_BUTTON_RELEASE in *.
  clear E2 E3. bool_hyps. lia.
Qed.

Definition shell_at (w h : Z) (u : ui) : Prop :=
  u.(layout) = layout_at w h /\ elements_ok u /\ queue_ok u /\ Forall event_ok (queued u).

Lemma pop_shell w h u :
  shell_at w h u ->
  let '(e, u') := pop_unlocked u in
  shell_at w h u' /\ u'.(ui_active) = u.(ui_active) /\
  match e with
  | Some e => event_ok e /\ u'.(event_count) = u.(event_count) - 1
  | None => u' = u /\ u.(event_count) = 0
  end.
Proof.
  intros (Hl & He & Hq & Hall). pose proof (pop_refines u Hq) as Hr.
  pose proof (zlength_queued u Hq) as Hz.
  assert ((pop_unlocked u).2.(layout) = u.(layout) /\ elements_ok (pop_unlocked u).2 /\
    (pop_unlocked u).2.(ui_active) = u.(ui_active)) as (Hl' & He' & Ha').
  { unfold pop_unlocked. split_if; done. }
  destruct (pop_unlocked u) as [e u'] eqn:E. cbn [snd] in *. destruct Hr as [Hq' Hr].
  pose proof (zlength_queued u' Hq') as Hz'.
  destruct (queued u) as [|x rest] eqn:Eq.
  - destruct Hr as [-> ->]. change (zlength []) with 0 in Hz.
    split; [split_and!; try done; by rewrite Eq|done].
  - destruct Hr as [-> Hr]. rewrite Hr, ?zlength_cons in *.
    apply Forall_cons in Hall as [Hx Hrest].
    split; [split_and!; try congruence; by rewrite Hr|]. split; [done|]. split; [done|lia].
Qed.

Lemma evict_subset q q' : evict q = Some q' -> forall x, x ∈ q' -> x ∈ q.
Proof.
  revert q'. induction q as [|y q IH]; intros q'; [done|]. cbn [evict].
  destruct (is_movement y); [intros [= <-] x Hx; by right|].
  destruct (evict q) as [q1|]; [|done]. intros [= <-] x [->|Hx]%elem_of_cons; [by left|].
  right. by apply (IH q1).
Qed.

Lemma publish_spec_all (P : ui_event -> Prop) e q :
  P e -> Forall P q -> Forall P (publish_spec e q).2.
Proof.
  intros He Hq. unfold publish_spec. repeat split_if; cbn [snd].
  - apply Forall_app. split; [by apply Forall_take|by apply Forall_singleton].
  - apply Forall_app. split; [done|by apply Forall_singleton].
  - done.
  - destruct (evict q) as [q'|] eqn:E; cbn [snd]; [|done]. apply Forall_app.
    split; [|by apply Forall_singleton]. rewrite Forall_forall in *. intros x Hx.
    by apply Hq, (evict_subset q q').
Qed.

Lemma publish_shell w h e u :
  shell_at w h u -> event_ok e ->
  shell_at w h (publish_unlocked (Some e) u).2 /\
  (publish_unlocked (Some e) u).2.(ui_active) = u.(ui_active).
Proof.
  intros (Hl & He & Hq & Hall) [Hv Hp]. pose proof (publish_refines e u Hq Hv) as Hr.
  assert ((publish_unlocked (Some e) u).2.(layout) = u.(layout) /\
    elements_ok (publish_unlocked (Some e) u).2 /\
    (publish_unlocked (Some e) u).2.(ui_active) = u.(ui_active)) as (Hl' & He' & Ha')
    by (unfold publish_unlocked; repeat split_if; done).
  destruct (publish_unlocked (Some e) u) as [s u']. cbn [snd] in *. destruct Hr as [Hq' Hr].
  split; [|done]. split_and!; [congruence|done|done|].
  pose proof (publish_spec_all event_ok e (queued u) (conj Hv Hp) Hall) as Hs. by rewrite <- Hr in Hs.
Qed.

Lemma handled_shell w h es u :
  shell_at w h u -> Forall event_ok es ->
  shell_at w h (handled es u) /\ (handled es u).(ui_active) = u.(ui_active).
Proof.
  intros Hu Hes. revert u Hu. induction Hes as [|e es He _ IH]; intros u Hu; [done|].
  cbn [handled foldl]. destruct (publish_shell w h e u Hu He) as [H1 H2].
  destruct (IH _ H1) as [H3 H4]. split; [done|]. unfold handled in H4. congruence.
Qed.

Section draining.
Context (w h : Z) (Hw : 800 <= w <= 1920) (Hh : 600 <= h <= 1200).
Context (interrupts : nat -> M -> list ui_event * M).
Context (Hint : forall turn m, Forall event_ok (interrupts turn m).1).

Lemma handlers_shell turn u m :
  shell_at w h u ->
  shell_at w h (handlers_run interrupts turn u m).1 /\
  (handlers_run interrupts turn u m).1.(ui_active) = u.(ui_active) /\
  exists es, Forall event_ok es /\ (handlers_run interrupts turn u m).1 = handled es u /\
    ((interrupts turn m).1 = [] -> es = []).
Proof.
  intros Hu. unfold handlers_run. pose proof (Hint turn m) as Hes.
  destruct (cpu_interrupts_enabled m); [|split_and!; [done|done|by exists []]].
  destruct (interrupts turn m) as [es m']. cbn [fst] in *.
  destruct (handled_shell w h es u Hu Hes). split_and!; [done|done|by exists es].
Qed.

(** One turn that takes an event. *)
Lemma turn_safe d u m :
  shell_at w h u -> good (MkRect 0 0 w h) d ->
  let '(event, u1, m1) := pop_event u m in
  match event with
  | None => u1 = u /\ u.(event_count) = 0
  | Some e =>
      let '(s, u2, d2, m2) := apply_event e d u1 m1 in
      (s = UI_STATUS_OK \/ s = UI_STATUS_SCREEN_FAILURE) /\ shell_at w h u2 /\
      good (MkRect 0 0 w h) d2 /\ u2.(ui_active) = u.(ui_active) /\
      u2.(event_count) = u.(event_count) - 1
  end.
Proof.
  intros Hu Hd. unfold pop_event. pose proof (pop_shell w h u Hu) as Hp.
  destruct (pop_unlocked u) as [e u1]. destruct Hp as (Hu1 & Ha1 & Hp).
  set (m1 := if cpu_interrupts_enabled m then _ else _). clearbody m1.
  destruct e as [e|]; [|done].
  destruct Hp as [Hok Hc]. pose proof Hu1 as (Hl1 & He1 & Hq1 & Hall1).
  pose proof (apply_event_applied w h e d u1 m1 Hw Hh Hl1 He1 Hok Hd) as Ha.
  destruct (apply_event e d u1 m1) as [[[s u2] d2] m2].
  destruct Ha as (Hs & (F1 & F2 & F3 & F4) & He2 & Hd2). split_and!; try done; try congruence.
  unfold shell_at, queue_ok, queued in *. rewrite F1, F2, F3. split_and!; try done; apply Hq1.
Qed.

Lemma drain_safe turn fuel d u m s u' d' m' :
  shell_at w h u -> good (MkRect 0 0 w h) d ->
  drain_events interrupts turn fuel d u m = Some (s, u', d', m') ->
  (s = UI_STATUS_OK \/ s = UI_STATUS_SCREEN_FAILURE) /\ shell_at w h u' /\
  good (MkRect 0 0 w h) d' /\
  (s = UI_STATUS_OK -> exists u0 es, u0.(event_count) = 0 /\ Forall event_ok es /\ u' = handled es u0).
Proof.
  revert turn d u m. induction fuel as [|fuel IH]; intros turn d u m Hu Hd; [done|].
  cbn [drain_events]. pose proof (turn_safe d u m Hu Hd) as Ht.
  destruct (pop_event u m) as [[[e|] u1] m1].
  - destruct (apply_event e d u1 m1) as [[[s2 u2] d2] m2]. destruct Ht as (Hs & Hu2 & Hd2 & _).
    destruct (handlers_shell turn u2 m2 Hu2) as (Hu3 & _).
    destruct (handlers_run interrupts turn u2 m2) as [u3 m3]. cbn [fst] in *.
    unfold is_ok. case_bool_decide as Eok; cbn [negb]; [by apply IH|].
    intros [= <- <- <- <-]. by split_and!.
  - destruct Ht as [-> Hc]. destruct (handlers_shell turn u m1 Hu) as (Hu3 & _ & es & Hes & E & _).
    destruct (handlers_run interrupts turn u m1) as [u3 m3]. cbn [fst] in *.
    intros [= <- <- <- <-]. split_and!; [by left|done|done|]. intros _. by exists u, es.
Qed.

Lemma drain_ends N turn fuel d u m :
  (forall t m, (N <= t)%nat -> (interrupts t m).1 = []) ->
  shell_at w h u -> good (MkRect 0 0 w h) d ->
  (if decide (turn < N)%nat then Z.of_nat N - Z.of_nat turn + 64 else u.(event_count)) < Z.of_nat fuel ->
  is_Some (drain_events interrupts turn fuel d u m).
Proof.
  intros HN. revert turn d u m. induction fuel as [|fuel IH]; intros turn d u m Hu Hd Hf.
  { destruct Hu as (_ & _ & [_ Hc] & _). destruct (decide _); lia. }
  cbn [drain_events]. pose proof (turn_safe d u m Hu Hd) as Ht.
  destruct (pop_event u m) as [[[e|] u1] m1].
  - destruct (apply_event e d u1 m1) as [[[s2 u2] d2] m2]. destruct Ht as (_ & Hu2 & Hd2 & _ & Hc2).
    destruct (handlers_shell turn u2 m2 Hu2) as (Hu3 & _ & es & _ & E & Hes).
    destruct (handlers_run interrupts turn u2 m2) as [u3 m3]. cbn [fst] in *.
    destruct (negb _); [done|]. apply IH; [done|done|]. pose proof Hu3 as (_ & _ & [_ Hc3] & _).
    destruct (decide (turn < N)%nat) as [Hlt|Hge].
    + destruct (decide (S turn < N)%nat); lia.
    + destruct (decide (S turn < N)%nat); [lia|]. rewrite Hes in E by (apply HN; lia).
      rewrite E. cbn. lia.
  - by destruct (handlers_run interrupts turn u1 m1) as [u3 m3].
Qed.
End draining.

End processing.

(** * A shell *)

#[export] Instance bench_shell : Shell bench := {
  screen_set_viewport _ _ b := (true, b);
  screen_set_visible _ b := (true, b);
  render_region u _ full b :=
    let r := u.(renders) in
    (UI_STATUS_OK,
     MkRenders (r.(full_draws) + if full then 1 else 0)
       (r.(damaged_draws) + if full then 0 else 1) r.(pixels_copied)
       r.(cursor_moves) r.(dock_state_changes) r.(panel_transitions)
       (r.(damage_rectangles) + 1) r.(glyphs), b)
}.

Definition return_key : ui_event := MkUiEvent UI_EVENT_KEYBOARD_ACTIVATION (MkPoint 0 0) 0.

(** A click on the dock's last item is waiting. *)
Definition click : list ui_event :=
  [MkUiEvent UI_EVENT_POINTER_MOVEMENT (MkPoint 670 700) 0;
   MkUiEvent UI_EVENT_POINTER_BUTTON_PRESS (MkPoint 670 700) UI_POINTER_BUTTON_LEFT;
   MkUiEvent UI_EVENT_POINTER_BUTTON_RELEASE (MkPoint 671 700) UI_POINTER_BUTTON_LEFT].
Definition ui0 : ui :=
  MkUi true (MkPoint 100 100) 1 0 0 0 (layout_at 1024 768) (MkCounters 3 0 0 0)
    (MkRenders 1 0 0 0 0 0 1 0) (click ++ replicate 61 no_ui_event) 3.

Lemma ui0_shell : shell_at 1024 768 ui0.
Proof.
  split; [done|]. split; [by vm_compute; split_and!; try congruence|].
  split; [by vm_compute; split_and!; try congruence|].
  change (queued ui0) with click.
  repeat (apply Forall_cons; split); try apply Forall_nil; try done;
    (split; [split; vm_compute; reflexivity|]; vm_compute; split_and!; congruence).
Qed.

(** While the click is processed the pointer moves on and the left button goes
    down again. *)
Definition moves : nat -> bench -> list ui_event * bench := fun turn b =>
  (if (turn <? 2)%nat then
     [MkUiEvent UI_EVENT_POINTER_MOVEMENT (MkPoint (600 + Z.of_nat turn) 700) 0;
      MkUiEvent UI_EVENT_POINTER_BUTTON_PRESS (MkPoint 600 20) UI_POINTER_BUTTON_LEFT]
   else [], b).

Lemma moves_ok turn b : Forall event_ok (moves turn b).1.
Proof.
  unfold moves. destruct (turn <? 2)%nat eqn:E; [|by apply Forall_nil]. apply Nat.ltb_lt in E.
  repeat (apply Forall_cons; split); try apply Forall_nil; try done;
    (split; [split; vm_compute; reflexivity|]); unfold is_point; cbn [fst point point_x point_y];
    lia.
Qed.


Lemma ui_transitions_kept_witness :
  let '(published, taken, u') := run_queue [Take; Publish return_key; Take; Take] ui0 in
  queue_ok u' /\ transitions (queued ui0) ++ [return_key] = transitions taken ++ transitions (queued u').
Proof.
  pose proof (ui_transitions_kept [Take; Publish return_key; Take; Take] ui0) as Ht.
  destruct Ht as (Hq & _ & Hs & _).
  - vm_compute. split_and!; congruence.
  - repeat constructor; vm_compute; reflexivity.
  - split; [exact Hq|exact Hs].
Defined.
End UiEvents.
