(* ===== verification/Pointer.v ===== *)
(** The PS/2 pointer: src/src/kernel/pointer.c.

    The file-scope state is the record [pointer_state]; packets are decoded a
    byte at a time and the events they mean go to the shell's queue
    ([UiEvents]).  The controller is the keyboard's class [Controller].

    Any byte stream keeps the packet index inside the packet, the cursor inside
    its bounds and the queue well formed; a packet moves the cursor by its signed
    bytes, which is what the protocol means exactly when the sign flags agree
    with them; discovery installs everything or leaves nothing. *)
From S2P Require Import Prelude Keyboard UiLayout UiEvents.
Import Keyboard UiLayout UiEvents.

Open Scope Z_scope.

Module Pointer.

Definition POINTER_PACKET_SIZE : Z := 3.
Definition PS2_DATA_PORT : Z := 0x0060.
Definition PS2_COMMAND_PORT : Z := 0x0064.
Definition PS2_STATUS_OUTPUT_FULL : Z := 0x01.
Definition PS2_STATUS_INPUT_FULL : Z := 0x02.
Definition PS2_STATUS_AUXILIARY_DATA : Z := 0x20.
Definition PS2_WAIT_LIMIT : Z := 100000.
Definition PS2_COMMAND_READ_CONFIGURATION : Z := 0x20.
Definition PS2_COMMAND_WRITE_CONFIGURATION : Z := 0x60.
Definition PS2_COMMAND_DISABLE_SECOND_PORT : Z := 0xA7.
Definition PS2_COMMAND_ENABLE_SECOND_PORT : Z := 0xA8.
Definition PS2_COMMAND_TEST_SECOND_PORT : Z := 0xA9.
Definition PS2_COMMAND_WRITE_AUXILIARY_OUTPUT : Z := 0xD3.
Definition PS2_COMMAND_WRITE_SECOND_PORT : Z := 0xD4.
Definition PS2_CONFIGURATION_SECOND_INTERRUPT : Z := 0x02.
Definition PS2_CONFIGURATION_SECOND_CLOCK_OFF : Z := 0x20.
Definition POINTER_DEVICE_SET_DEFAULTS : Z := 0xF6.
Definition POINTER_DEVICE_ENABLE_REPORTING : Z := 0xF4.
Definition POINTER_DEVICE_ACK : Z := 0xFA.
Definition POINTER_PACKET_ALWAYS_ONE : Z := 0x08.
Definition POINTER_PACKET_LEFT : Z := 0x01.
Definition POINTER_PACKET_RIGHT : Z := 0x02.
Definition POINTER_PACKET_MIDDLE : Z := 0x04.
Definition POINTER_PACKET_X_SIGN : Z := 0x10.
Definition POINTER_PACKET_Y_SIGN : Z := 0x20.
Definition POINTER_PACKET_X_OVERFLOW : Z := 0x40.
Definition POINTER_PACKET_Y_OVERFLOW : Z := 0x80.
Definition POINTER_IRQ : Z := 12.
Definition POINTER_VECTOR : Z := u8 (INTERRUPT_IOAPIC_BASE + POINTER_IRQ).
Definition INT32_MAX : Z := 2147483647.

Inductive pointer_status : Type :=
| POINTER_STATUS_OK
| POINTER_STATUS_ABSENT
| POINTER_STATUS_ALREADY_DECIDED
| POINTER_STATUS_KEYBOARD_REQUIRED
| POINTER_STATUS_INTERRUPTS_ENABLED
| POINTER_STATUS_NO_IOAPIC
| POINTER_STATUS_CONTROLLER_TIMEOUT
| POINTER_STATUS_AUXILIARY_CLOCK_STUCK
| POINTER_STATUS_PORT_TEST_FAILED
| POINTER_STATUS_DEVICE_REFUSED
| POINTER_STATUS_HANDLER_FAILURE
| POINTER_STATUS_IOAPIC_FAILURE
| POINTER_STATUS_NOT_AVAILABLE
| POINTER_STATUS_BAD_BOUNDS
| POINTER_STATUS_INJECTION_FAILURE.

#[export] Instance pointer_status_eq_dec : EqDecision pointer_status.
Proof. solve_decision. Defined.

Record pointer_state : Type := MkPointer {
  decided : bool;
  present : bool;
  p_active : bool;
  left_ : bool;
  middle : bool;
  right_ : bool;
  px : Z;
  py : Z;
  bound_width : Z;
  bound_height : Z;
  packet_index : Z;
  packet : list Z;
  p_interrupts : Z;
  bytes : Z;
  packets : Z;
  movements : Z;
  button_transitions : Z;
  overflows : Z;
  desynchronizations : Z
}.

#[export] Instance pointer_state_eq_dec : EqDecision pointer_state.
Proof. solve_decision. Defined.

(** Updates of one group of fields each. *)
Definition set_decision (t : pointer_state) (d p a : bool) : pointer_state :=
  MkPointer d p a t.(left_) t.(middle) t.(right_) t.(px) t.(py) t.(bound_width) t.(bound_height)
    t.(packet_index) t.(packet) t.(p_interrupts) t.(bytes) t.(packets) t.(movements)
    t.(button_transitions) t.(overflows) t.(desynchronizations).
Definition set_buttons (t : pointer_state) (l m r : bool) : pointer_state :=
  MkPointer t.(decided) t.(present) t.(p_active) l m r t.(px) t.(py) t.(bound_width)
    t.(bound_height) t.(packet_index) t.(packet) t.(p_interrupts) t.(bytes) t.(packets)
    t.(movements) t.(button_transitions) t.(overflows) t.(desynchronizations).
Definition set_position (t : pointer_state) (x y : Z) : pointer_state :=
  MkPointer t.(decided) t.(present) t.(p_active) t.(left_) t.(middle) t.(right_) x y
    t.(bound_width) t.(bound_height) t.(packet_index) t.(packet) t.(p_interrupts) t.(bytes)
    t.(packets) t.(movements) t.(button_transitions) t.(overflows) t.(desynchronizations).
Definition set_bounds (t : pointer_state) (w h : Z) : pointer_state :=
  MkPointer t.(decided) t.(present) t.(p_active) t.(left_) t.(middle) t.(right_) t.(px) t.(py)
    w h t.(packet_index) t.(packet) t.(p_interrupts) t.(bytes) t.(packets) t.(movements)
    t.(button_transitions) t.(overflows) t.(desynchronizations).
Definition set_packet (t : pointer_state) (i : Z) (p : list Z) : pointer_state :=
  MkPointer t.(decided) t.(present) t.(p_active) t.(left_) t.(middle) t.(right_) t.(px) t.(py)
    t.(bound_width) t.(bound_height) i p t.(p_interrupts) t.(bytes) t.(packets) t.(movements)
    t.(button_transitions) t.(overflows) t.(desynchronizations).
Definition count (t : pointer_state) (i b p m bt o d : Z) : pointer_state :=
  MkPointer t.(decided) t.(present) t.(p_active) t.(left_) t.(middle) t.(right_) t.(px) t.(py)
    t.(bound_width) t.(bound_height) t.(packet_index) t.(packet) (u64 (t.(p_interrupts) + i))
    (u64 (t.(bytes) + b)) (u64 (t.(packets) + p)) (u64 (t.(movements) + m))
    (u64 (t.(button_transitions) + bt)) (u64 (t.(overflows) + o))
    (u64 (t.(desynchronizations) + d)).

(** Signed readings of a byte and of a 32-bit word. *)
Definition int8 (b : Z) : Z := if b <? 128 then b else b - 256.
Definition int32 (x : Z) : Z := if x <? 2147483648 then x else x - 4294967296.

(** [value] is a 64-bit signed sum. *)
Definition clamp_coordinate (value bound : Z) : Z :=
  if (value <=? 0) || (bound =? 0) then 0
  else if u64 value >=? bound then u32 (bound - 1)
  else u32 value.

Definition point_of (t : pointer_state) : ui_point := MkPoint (int32 t.(px)) (int32 t.(py)).

Section decoding.
Context {M : Type} `{Controller M}.

(** The pointer's state, the shell and the machine. *)
Definition world : Type := pointer_state * ui * M.

Definition emit (publish : bool) (e : ui_event) (u : ui) (m : M) : ui * M :=
  if publish then let '(_, u, m) := ui_event_publish (Some e) u m in (u, m) else (u, m).

Definition publish_movement (publish : bool) (w : world) : world :=
  let '(t, u, m) := w in
  let e := MkUiEvent UI_EVENT_POINTER_MOVEMENT (point_of t) UI_POINTER_BUTTON_NONE in
  let '(u, m) := emit publish e u m in (count t 0 0 0 1 0 0 0, u, m).

Definition publish_button (publish : bool) (button_ : Z) (pressed_ : bool) (w : world) : world :=
  let '(t, u, m) := w in
  let e := MkUiEvent (if pressed_ then UI_EVENT_POINTER_BUTTON_PRESS
                      else UI_EVENT_POINTER_BUTTON_RELEASE) (point_of t) button_ in
  let '(u, m) := emit publish e u m in (count t 0 0 0 0 1 0 0, u, m).

(** A statement under an [if] without an [else]. *)
Definition when (b : bool) (f : world -> world) (w : world) : world := if b then f w else w.

Definition bit (flags mask : Z) : bool := negb (Z.land flags mask =? 0).

Definition decode_packet (publish : bool) (w : world) : world :=
  let '(t, u, m) := w in
  let flags := aget 0 t.(packet) 0 in
  let l := bit flags POINTER_PACKET_LEFT in
  let r := bit flags POINTER_PACKET_RIGHT in
  let mid := bit flags POINTER_PACKET_MIDDLE in
  let t := count t 0 0 1 0 0 0 0 in
  if bit flags (Z.lor POINTER_PACKET_X_OVERFLOW POINTER_PACKET_Y_OVERFLOW)
  then (count t 0 0 0 0 0 1 0, u, m)
  else
  let delta_x := int8 (aget 0 t.(packet) 1) in
  let delta_y := - int8 (aget 0 t.(packet) 2) in
  let old_x := t.(px) in
  let old_y := t.(py) in
  let t := set_position t (clamp_coordinate (t.(px) + delta_x) t.(bound_width))
             (clamp_coordinate (t.(py) + delta_y) t.(bound_height)) in
  let w := (t, u, m) in
  let w := when (negb (t.(px) =? old_x) || negb (t.(py) =? old_y)) (publish_movement publish) w in
  let w := when (negb (Bool.eqb l t.(left_))) (publish_button publish UI_POINTER_BUTTON_LEFT l) w in
  let w := when (negb (Bool.eqb mid t.(middle)))
             (publish_button publish UI_POINTER_BUTTON_MIDDLE mid) w in
  let w := when (negb (Bool.eqb r t.(right_))) (publish_button publish UI_POINTER_BUTTON_RIGHT r) w in
  let '(t, u, m) := w in (set_buttons t l mid r, u, m).

Definition decode_byte (publish : bool) (byte : Z) (w : world) : world :=
  let '(t, u, m) := w in
  let t := count t 0 1 0 0 0 0 0 in
  if (t.(packet_index) =? 0) && negb (bit byte POINTER_PACKET_ALWAYS_ONE)
  then (count t 0 0 0 0 0 0 1, u, m)
  else
  let t := set_packet t (u8 (t.(packet_index) + 1)) (aset t.(packet) t.(packet_index) byte) in
  if t.(packet_index) =? POINTER_PACKET_SIZE
  then decode_packet publish (set_packet t 0 t.(packet), u, m)
  else (t, u, m).

Definition pointer_turn (_ : Z) (w : world) : ctl world world :=
  let '(t, u, m) := w in
  let '(status, m) := inb PS2_COMMAND_PORT m in
  if (Z.land status PS2_STATUS_OUTPUT_FULL =? 0) || (Z.land status PS2_STATUS_AUXILIARY_DATA =? 0)
  then Return (t, u, m)
  else let '(byte, m) := inb PS2_DATA_PORT m in Next (decode_byte true byte (t, u, m)).

Definition pointer_interrupt (w : world) : world :=
  let '(t, u, m) := w in
  match for_each pointer_turn (seqZ 0 UI_EVENT_QUEUE_CAPACITY) (count t 1 0 0 0 0 0 0, u, m) with
  | Return w | Next w => w
  end.

(** * The controller, as the pointer drives it *)

Definition wait_to_write (m : M) : bool * M :=
  match for_each (fun (_ : Z) m =>
          let '(status, m) := inb PS2_COMMAND_PORT m in
          if Z.land status PS2_STATUS_INPUT_FULL =? 0 then Return m else Next m)
          (seqZ 0 PS2_WAIT_LIMIT) m with
  | Return m => (true, m)
  | Next m => (false, m)
  end.

(** The status that ended the wait. *)
Definition wait_to_read (m : M) : option Z * M :=
  match for_each (fun (_ : Z) m =>
          let '(current, m) := inb PS2_COMMAND_PORT m in
          if negb (Z.land current PS2_STATUS_OUTPUT_FULL =? 0) then Return (current, m) else Next m)
          (seqZ 0 PS2_WAIT_LIMIT) m with
  | Return (current, m) => (Some current, m)
  | Next m => (None, m)
  end.

Definition send (port value : Z) (m : M) : pointer_status * M :=
  match wait_to_write m with
  | (false, m) => (POINTER_STATUS_CONTROLLER_TIMEOUT, m)
  | (true, m) => (POINTER_STATUS_OK, outb port value m)
  end.
Definition send_command (command : Z) (m : M) : pointer_status * M := send PS2_COMMAND_PORT command m.
Definition send_data (value : Z) (m : M) : pointer_status * M := send PS2_DATA_PORT value m.

(** The byte is [None] when nothing was stored through the pointer. *)
Definition receive_data (auxiliary : bool) (m : M) : pointer_status * option Z * M :=
  match wait_to_read m with
  | (None, m) => (POINTER_STATUS_CONTROLLER_TIMEOUT, None, m)
  | (Some status, m) =>
      if negb (Bool.eqb (bit status PS2_STATUS_AUXILIARY_DATA) auxiliary)
      then (POINTER_STATUS_DEVICE_REFUSED, None, m)
      else let '(value, m) := inb PS2_DATA_PORT m in (POINTER_STATUS_OK, Some value, m)
  end.

Definition is_ok (s : pointer_status) : bool := bool_decide (s = POINTER_STATUS_OK).

Definition write_configuration (configuration : Z) (m : M) : pointer_status * M :=
  let '(status, m) := send_command PS2_COMMAND_WRITE_CONFIGURATION m in
  if is_ok status then send_data configuration m else (status, m).

Definition send_device_command (command : Z) (m : M) : pointer_status * M :=
  let '(status, m) := send_command PS2_COMMAND_WRITE_SECOND_PORT m in
  let '(status, m) := if is_ok status then send_data command m else (status, m) in
  let '(status, answer, m) := if is_ok status then receive_data true m else (status, None, m) in
  (if is_ok status && negb (bool_decide (answer = Some POINTER_DEVICE_ACK))
   then POINTER_STATUS_DEVICE_REFUSED else status, m).

(** * Discovery *)

Definition decide_absent (reason : pointer_status) (t : pointer_state) (m : M)
  : pointer_status * pointer_state * M :=
  let '(_, m) := send_command PS2_COMMAND_DISABLE_SECOND_PORT m in
  (reason, set_decision t true false false, m).

(** Taking handler and route back before deciding. *)
Definition undo (m : M) : M :=
  interrupt_unregister_handler POINTER_VECTOR (ioapic_mask_isa_irq POINTER_IRQ m).

(** From the routed interrupt on. *)
Definition enable_reporting (configuration : Z) (t : pointer_state) (m : M)
  : pointer_status * pointer_state * M :=
  let '(status, m) := send_device_command POINTER_DEVICE_SET_DEFAULTS m in
  let '(status, m) :=
    if is_ok status then send_device_command POINTER_DEVICE_ENABLE_REPORTING m else (status, m) in
  if negb (is_ok status) then decide_absent status t (undo m)
  else
  let configuration := Z.land configuration (u8 (Z.lnot PS2_CONFIGURATION_SECOND_CLOCK_OFF)) in
  let configuration := Z.lor configuration PS2_CONFIGURATION_SECOND_INTERRUPT in
  let '(status, m) := write_configuration configuration m in
  if negb (is_ok status) then decide_absent status t (undo m)
  else (POINTER_STATUS_OK, set_bounds (set_decision t true true true) 1 1, m).

Definition install (configuration : Z) (t : pointer_state) (m : M)
  : pointer_status * pointer_state * M :=
  match interrupt_register_handler POINTER_VECTOR m with
  | (false, m) => decide_absent POINTER_STATUS_HANDLER_FAILURE t m
  | (true, m) =>
      match ioapic_route_isa_irq POINTER_IRQ POINTER_VECTOR m with
      | (false, m) =>
          decide_absent POINTER_STATUS_IOAPIC_FAILURE t (interrupt_unregister_handler POINTER_VECTOR m)
      | (true, m) => enable_reporting configuration t m
      end
  end.

Definition test_port (configuration : Z) (t : pointer_state) (m : M)
  : pointer_status * pointer_state * M :=
  let '(status, m) := send_command PS2_COMMAND_TEST_SECOND_PORT m in
  let '(status, answer, m) := if is_ok status then receive_data false m else (status, None, m) in
  if negb (is_ok status) || negb (bool_decide (answer = Some 0))
  then decide_absent POINTER_STATUS_PORT_TEST_FAILED t m
  else install configuration t m.

(** [keyboard] is the state of the keyboard driver. *)
Definition pointer_initialize (k : keyboard) (t : pointer_state) (m : M)
  : pointer_status * pointer_state * M :=
  if t.(decided) then (POINTER_STATUS_ALREADY_DECIDED, t, m)
  else if negb (keyboard_is_initialized k) then (POINTER_STATUS_KEYBOARD_REQUIRED, t, m)
  else if cpu_interrupts_enabled m then (POINTER_STATUS_INTERRUPTS_ENABLED, t, m)
  else if negb (ioapic_is_initialized m) then (POINTER_STATUS_NO_IOAPIC, t, m)
  else
  let '(status, m) := send_command PS2_COMMAND_ENABLE_SECOND_PORT m in
  if negb (is_ok status) then decide_absent status t m
  else
  let '(status, m) := send_command PS2_COMMAND_READ_CONFIGURATION m in
  let '(status, configuration, m) :=
    if is_ok status then receive_data false m else (status, None, m) in
  if negb (is_ok status) then decide_absent status t m
  else
  let configuration := default 0 configuration in
  if negb (Z.land configuration PS2_CONFIGURATION_SECOND_CLOCK_OFF =? 0)
  then decide_absent POINTER_STATUS_AUXILIARY_CLOCK_STUCK t m
  else test_port configuration t m.

Definition pointer_set_bounds (width height : Z) (t : pointer_state) : pointer_status * pointer_state :=
  if negb t.(present) || negb t.(p_active) then (POINTER_STATUS_NOT_AVAILABLE, t)
  else if (width =? 0) || (height =? 0) || (width >? INT32_MAX) || (height >? INT32_MAX)
  then (POINTER_STATUS_BAD_BOUNDS, t)
  else (POINTER_STATUS_OK,
        set_position (set_bounds t width height) (u32 (width - width / 4)) (height / 3)).

Definition pointer_get_state (t : pointer_state) : pointer_state := t.
Definition pointer_is_present (t : pointer_state) : bool := t.(present) && t.(p_active).

(** * Injection

    [elapse] is what happens between two looks at the byte counter: the
    interrupts that arrive there. *)
Definition await_byte (elapse : world -> world) (before : Z) (w : world) : world :=
  match for_each (fun (_ : Z) w =>
          if negb (w.1.1.(bytes) =? before) then Return w else Next (elapse w))
          (seqZ 0 20000000) w with
  | Return w | Next w => w
  end.

Definition inject_byte (elapse : world -> world) (byte : Z) (w : world) : ctl world (pointer_status * world) :=
  let '(t, u, m) := w in
  let before := t.(bytes) in
  let '(status, m) := send_command PS2_COMMAND_WRITE_AUXILIARY_OUTPUT m in
  let '(status, m) := if is_ok status then send_data byte m else (status, m) in
  if negb (is_ok status) then Return (status, (t, u, m))
  else
  let w := await_byte elapse before (t, u, m) in
  if w.1.1.(bytes) =? before then Return (POINTER_STATUS_INJECTION_FAILURE, w) else Next w.

Definition pointer_inject_packet (elapse : world -> world) (flags delta_x delta_y : Z) (w : world)
  : pointer_status * world :=
  let '(t, u, m) := w in
  if negb (pointer_is_present t) then (POINTER_STATUS_NOT_AVAILABLE, w)
  else if negb (cpu_interrupts_enabled m) then (POINTER_STATUS_INJECTION_FAILURE, w)
  else
  match for_each (inject_byte elapse) [u8 (Z.lor flags POINTER_PACKET_ALWAYS_ONE); delta_x; delta_y] w with
  | Return r => r
  | Next w => (POINTER_STATUS_OK, w)
  end.

(** * The self-test, on a state of its own and publishing nothing *)

Definition feed_packet (flags delta_x delta_y : Z) (w : world) : world :=
  decode_byte false delta_y (decode_byte false delta_x
    (decode_byte false (u8 (Z.lor flags POINTER_PACKET_ALWAYS_ONE)) w)).

Definition at_position (w : world) (x y : Z) : world :=
  let '(t, u, m) := w in (set_position t x y, u, m).
Definition is_at (w : world) (x y : Z) : bool := (w.1.1.(px) =? x) && (w.1.1.(py) =? y).

Definition test_state : pointer_state :=
  MkPointer false true true false false false 50 50 100 100 0 [0; 0; 0] 0 0 0 0 0 0 0.

Definition pointer_self_test (u : ui) (m : M) : bool :=
  let w := feed_packet 0 5 3 (test_state, u, m) in
  if negb (is_at w 55 47) || negb (w.1.1.(movements) =? 1) then false
  else
  let w := feed_packet (Z.lor POINTER_PACKET_X_SIGN POINTER_PACKET_Y_SIGN) 0xFC 0xFE w in
  if negb (is_at w 51 49) then false
  else
  let before_x := w.1.1.(px) in
  let before_y := w.1.1.(py) in
  let w := feed_packet (Z.lor POINTER_PACKET_X_OVERFLOW POINTER_PACKET_Y_OVERFLOW) 0x7F 0x7F w in
  if negb (is_at w before_x before_y) || negb (w.1.1.(overflows) =? 1) then false
  else
  let w := decode_byte false 0 w in
  if negb (w.1.1.(desynchronizations) =? 1) || negb (w.1.1.(packet_index) =? 0) then false
  else
  let w := feed_packet 0 0 0 (feed_packet POINTER_PACKET_LEFT 0 0 w) in
  if w.1.1.(left_) || negb (w.1.1.(button_transitions) =? 2) then false
  else
  let w := at_position w 0 0 in
  let w := feed_packet 0 0 0x7F (feed_packet POINTER_PACKET_X_SIGN 0x80 0 w) in
  if negb (is_at w 0 0) then false
  else
  let edge_x := u32 (w.1.1.(bound_width) - 1) in
  let edge_y := u32 (w.1.1.(bound_height) - 1) in
  let w := feed_packet 0 0x7F 0x80 (at_position w edge_x edge_y) in
  is_at w edge_x edge_y.

Lemma pointer_self_test_passes (u : ui) (m : M) : pointer_self_test u m = true.
Proof. vm_compute. reflexivity. Qed.
End decoding.

(** * One packet *)

Lemma bit_testbit b : 0 <= b < 256 ->
  bit b 0x01 = Z.testbit b 0 /\ bit b 0x02 = Z.testbit b 1 /\ bit b 0x04 = Z.testbit b 2 /\
  bit b 0x08 = Z.testbit b 3 /\ bit b 0xC0 = Z.testbit b 6 || Z.testbit b 7.
Proof.
  intros Hb.
  assert (forallb (fun b => Bool.eqb (bit b 0x01) (Z.testbit b 0) &&
    Bool.eqb (bit b 0x02) (Z.testbit b 1) && Bool.eqb (bit b 0x04) (Z.testbit b 2) &&
    Bool.eqb (bit b 0x08) (Z.testbit b 3) &&
    Bool.eqb (bit b 0xC0) (Z.testbit b 6 || Z.testbit b 7)) (seqZ 0 256) = true) as E
    by (vm_compute; reflexivity).
  rewrite forallb_forall in E. specialize (E b). rewrite <- list_elem_of_In, elem_of_seqZ in E.
  specialize (E ltac:(lia)). rewrite !andb_true_iff in E. destruct E as [[[[? ?] ?] ?] ?].
  split_and!; by apply Bool.eqb_prop.
Qed.

Definition bounds_ok (t : pointer_state) : Prop :=
  0 < t.(bound_width) <= INT32_MAX /\ 0 < t.(bound_height) <= INT32_MAX /\
  0 <= t.(px) < t.(bound_width) /\ 0 <= t.(py) < t.(bound_height).

Definition clamp (value bound : Z) : Z := Z.max 0 (Z.min (bound - 1) value).

Lemma clamp_coordinate_spec value bound :
  0 < bound <= INT32_MAX -> -1099511627776 < value < 1099511627776 ->
  clamp_coordinate value bound = clamp value bound.
Proof.
  unfold clamp_coordinate, clamp, INT32_MAX. intros Hb Hv.
  destruct (_ || _) eqn:E; [rewrite orb_true_iff in E; lia|]. bool_hyps.
  rewrite (u64_small value) by (unfold is_u64, UINT64_MAX; lia).
  split_if; bool_hyps; rewrite u32_small by (unfold is_u32, UINT32_MAX; lia); lia.
Qed.

Lemma int8_range b : 0 <= b < 256 -> -128 <= int8 b <= 127.
Proof. unfold int8. intros. split_if; bool_hyps; lia. Qed.

Section packets.
Context {M : Type} `{Controller M}.

(** Publishing a list of events, in order. *)
Definition publish_all (es : list ui_event) (u : ui) (m : M) : ui * M :=
  foldl (fun '(u, m) e => emit true e u m) (u, m) es.

(** What a packet means to a pointer at [t]: the events it publishes. *)
Definition packet_events (t : pointer_state) (x y : Z) (l mid r : bool) : list ui_event :=
  let at_ := MkPoint x y in
  let change old new button_ :=
    if Bool.eqb new old then []
    else [MkUiEvent (if new then UI_EVENT_POINTER_BUTTON_PRESS else UI_EVENT_POINTER_BUTTON_RELEASE)
            at_ button_] in
  (if bool_decide ((x, y) = (t.(px), t.(py))) then []
   else [MkUiEvent UI_EVENT_POINTER_MOVEMENT at_ UI_POINTER_BUTTON_NONE]) ++
  change t.(left_) l UI_POINTER_BUTTON_LEFT ++ change t.(middle) mid UI_POINTER_BUTTON_MIDDLE ++
  change t.(right_) r UI_POINTER_BUTTON_RIGHT.

Lemma three_bytes publish b0 b1 b2 t u (m : M) :
  t.(packet_index) = 0 -> zlength t.(packet) = 3 -> bit b0 POINTER_PACKET_ALWAYS_ONE = true ->
  decode_byte publish b2 (decode_byte publish b1 (decode_byte publish b0 (t, u, m))) =
  decode_packet publish
    (set_packet (count (count (count t 0 1 0 0 0 0 0) 0 1 0 0 0 0 0) 0 1 0 0 0 0 0) 0 [b0; b1; b2], u, m).
Proof.
  intros Hi Hl Hb. destruct t. cbn [packet_index packet] in *. subst.
  destruct packet0 as [|a [|b [|c [|]]]]; unfold zlength in Hl; simpl in Hl; try lia.
  cbn [decode_byte count packet_index]. rewrite Hb. reflexivity.
Qed.

Lemma int32_small x : 0 <= x < 2147483648 -> int32 x = x.
Proof. unfold int32. intros. split_if; bool_hyps; lia. Qed.

Lemma clamp_range v b : 0 < b -> 0 <= clamp v b < b.
Proof. unfold clamp. lia. Qed.

(** Equal but for the counters of movements and transitions. *)
Definition alike (t t' : pointer_state) : Prop :=
  t'.(left_) = t.(left_) /\ t'.(middle) = t.(middle) /\ t'.(right_) = t.(right_) /\
  t'.(px) = t.(px) /\ t'.(py) = t.(py) /\ t'.(bound_width) = t.(bound_width) /\
  t'.(bound_height) = t.(bound_height) /\ t'.(packet_index) = t.(packet_index) /\
  t'.(packet) = t.(packet) /\ u64 t'.(bytes) = u64 t.(bytes) /\
  u64 t'.(packets) = u64 t.(packets) /\
  u64 t'.(desynchronizations) = u64 t.(desynchronizations).

Lemma u64_u64 z : u64 (u64 z) = u64 z.
Proof. apply u64_small, u64_range. Qed.

Lemma alike_count t m bt : alike t (count t 0 0 0 m bt 0 0).
Proof. unfold alike. cbn. rewrite !Z.add_0_r, !u64_u64. done. Qed.

Lemma publish_all_app es1 es2 u (m : M) :
  publish_all (es1 ++ es2) u m = publish_all es2 (publish_all es1 u m).1 (publish_all es1 u m).2.
Proof. unfold publish_all. rewrite foldl_app. by destruct (foldl _ (u, m) es1). Qed.

(** One conditional report: the events [es] go out, nothing else changes. *)
Definition reported (t : pointer_state) (es : list ui_event) (u : ui) (m : M)
    (w : pointer_state * ui * M) : Prop :=
  alike t w.1.1 /\ (w.1.2, w.2) = publish_all es u m.

Lemma report_movement t es u (m : M) w (b : bool) :
  bounds_ok t -> reported t es u m w ->
  reported t (es ++ if b then [MkUiEvent UI_EVENT_POINTER_MOVEMENT (MkPoint t.(px) t.(py))
                                 UI_POINTER_BUTTON_NONE] else [])
    u m (when b (publish_movement true) w).
Proof.
  intros Hb [Ha Hp]. destruct w as [[t1 u1] m1]. cbn [fst snd] in *.
  destruct b; cbn [when]; [|by rewrite app_nil_r].
  destruct Hb as (Hw & Hh & Hx & Hy). unfold INT32_MAX in *.
  destruct Ha as (A1 & A2 & A3 & A4 & A5 & A6 & A7 & A8 & A9 & A10 & A11 & A12).
  unfold publish_movement, point_of. rewrite A4, A5, !int32_small by lia.
  unfold reported. rewrite publish_all_app, <- Hp. cbn [fst snd]. unfold publish_all. cbn [foldl].
  destruct (emit true _ u1 m1) as [u2 m2]. cbn [fst snd]. split; [|done].
  destruct (alike_count t1 1 0) as (C1 & C2 & C3 & C4 & C5 & C6 & C7 & C8 & C9 & C10 & C11 & C12).
  split_and!; congruence.
Qed.

Lemma report_button t es u (m : M) w (b : bool) button_ (on : bool) :
  bounds_ok t -> reported t es u m w ->
  reported t (es ++ if b then [MkUiEvent (if on then UI_EVENT_POINTER_BUTTON_PRESS
                                 else UI_EVENT_POINTER_BUTTON_RELEASE)
                                 (MkPoint t.(px) t.(py)) button_] else [])
    u m (when b (publish_button true button_ on) w).
Proof.
  intros Hb [Ha Hp]. destruct w as [[t1 u1] m1]. cbn [fst snd] in *.
  destruct b; cbn [when]; [|by rewrite app_nil_r].
  destruct Hb as (Hw & Hh & Hx & Hy). unfold INT32_MAX in *.
  destruct Ha as (A1 & A2 & A3 & A4 & A5 & A6 & A7 & A8 & A9 & A10 & A11 & A12).
  unfold publish_button, point_of. rewrite A4, A5, !int32_small by lia.
  unfold reported. rewrite publish_all_app, <- Hp. cbn [fst snd]. unfold publish_all. cbn [foldl].
  destruct (emit true _ u1 m1) as [u2 m2]. cbn [fst snd]. split; [|done].
  destruct (alike_count t1 0 1) as (C1 & C2 & C3 & C4 & C5 & C6 & C7 & C8 & C9 & C10 & C11 & C12).
  split_and!; congruence.
Qed.

(** A complete packet, decoded. *)
Lemma decode_packet_spec t b0 b1 b2 u (m : M) :
  t.(packet) = [b0; b1; b2] -> 0 <= b0 < 256 -> 0 <= b1 < 256 -> 0 <= b2 < 256 -> bounds_ok t ->
  let '(t', u', m') := decode_packet true (t, u, m) in
  t'.(packet_index) = t.(packet_index) /\ t'.(packet) = t.(packet) /\
  t'.(bound_width) = t.(bound_width) /\ t'.(bound_height) = t.(bound_height) /\
  u64 t'.(bytes) = u64 t.(bytes) /\ u64 t'.(packets) = u64 (t.(packets) + 1) /\
  u64 t'.(desynchronizations) = u64 t.(desynchronizations) /\ bounds_ok t' /\
  if Z.testbit b0 6 || Z.testbit b0 7 then
    t'.(px) = t.(px) /\ t'.(py) = t.(py) /\
    (t'.(left_), t'.(middle), t'.(right_)) = (t.(left_), t.(middle), t.(right_)) /\
    (u', m') = (u, m)
  else
    let x := clamp (t.(px) + int8 b1) t.(bound_width) in
    let y := clamp (t.(py) - int8 b2) t.(bound_height) in
    t'.(px) = x /\ t'.(py) = y /\
    (t'.(left_), t'.(middle), t'.(right_)) = (Z.testbit b0 0, Z.testbit b0 2, Z.testbit b0 1) /\
    (u', m') = publish_all (packet_events t x y (Z.testbit b0 0) (Z.testbit b0 2) (Z.testbit b0 1)) u m.
Proof.
  intros Hp H0 H1 H2 Hb. pose proof Hb as (Hw & Hh & Hx & Hy).
  destruct (bit_testbit b0 H0) as (B0 & B1 & B2 & _ & B6).
  pose proof (int8_range b1 H1). pose proof (int8_range b2 H2). unfold INT32_MAX in *.
  unfold decode_packet. rewrite Hp. change (aget 0 [b0; b1; b2] 0) with b0.
  unfold POINTER_PACKET_LEFT, POINTER_PACKET_RIGHT, POINTER_PACKET_MIDDLE.
  change (Z.lor POINTER_PACKET_X_OVERFLOW POINTER_PACKET_Y_OVERFLOW) with 0xC0.
  rewrite B0, B1, B2, B6.
  destruct (Z.testbit b0 6 || Z.testbit b0 7).
  { cbn. rewrite !Z.add_0_r, !u64_u64. split_and!; done. }
  cbn [px py packet bound_width bound_height count]. rewrite Hp.
  change (aget 0 [b0; b1; b2] 1) with b1. change (aget 0 [b0; b1; b2] 2) with b2.
  rewrite !clamp_coordinate_spec by (unfold INT32_MAX; lia). rewrite Z.add_opp_r.
  pose proof (clamp_range (t.(px) + int8 b1) t.(bound_width) ltac:(lia)) as Cx.
  pose proof (clamp_range (t.(py) - int8 b2) t.(bound_height) ltac:(lia)) as Cy.
  set (x := clamp (t.(px) + int8 b1) _) in *. set (y := clamp (t.(py) - int8 b2) _) in *.
  clearbody x y. set (t1 := set_position _ x y).
  assert (bounds_ok t1) as Hb1 by (split_and!; unfold INT32_MAX; cbn; lia).
  change (px t1) with x. change (py t1) with y.
  change (left_ t1) with t.(left_). change (middle t1) with t.(middle). change (right_ t1) with t.(right_).
  assert (reported t1 [] u m (t1, u, m)) as R by done.
  apply (report_movement _ _ _ _ _ (negb (x =? t.(px)) || negb (y =? t.(py))) Hb1) in R.
  apply (report_button _ _ _ _ _ (negb (Bool.eqb (Z.testbit b0 0) t.(left_))) UI_POINTER_BUTTON_LEFT
    (Z.testbit b0 0) Hb1) in R.
  apply (report_button _ _ _ _ _ (negb (Bool.eqb (Z.testbit b0 2) t.(middle))) UI_POINTER_BUTTON_MIDDLE
    (Z.testbit b0 2) Hb1) in R.
  apply (report_button _ _ _ _ _ (negb (Bool.eqb (Z.testbit b0 1) t.(right_))) UI_POINTER_BUTTON_RIGHT
    (Z.testbit b0 1) Hb1) in R.
  destruct (when _ _ _) as [[t2 u2] m2]. destruct R as [Ha Hpub]. cbn [fst snd] in *.
  destruct Ha as (A1 & A2 & A3 & A4 & A5 & A6 & A7 & A8 & A9 & A10 & A11 & A12).
  destruct Hb1 as (G1 & G2 & G3 & G4).
  assert ((u2, m2) = publish_all (packet_events t x y (Z.testbit b0 0) (Z.testbit b0 2)
    (Z.testbit b0 1)) u m) as Hev.
  { rewrite Hpub. f_equal. unfold packet_events. rewrite <- !app_assoc. cbn [app].
    change (px t1) with x. change (py t1) with y.
    assert (negb (x =? t.(px)) || negb (y =? t.(py)) = negb (bool_decide ((x, y) = (t.(px), t.(py)))))
      as ->.
    { case_bool_decide as E; [injection E as -> ->; by rewrite !Z.eqb_refl|].
      destruct (negb _ || negb _) eqn:E2; [done|]. bool_hyps. congruence. }
    destruct (bool_decide _), (Bool.eqb (Z.testbit b0 0) _), (Bool.eqb (Z.testbit b0 2) _),
      (Bool.eqb (Z.testbit b0 1) _); done. }
  cbn in A4, A5, A6, A7, A8, A9, A10, A11, A12, G1, G2, G3, G4.
  rewrite ?Z.add_0_r, ?u64_u64 in *.
  assert (bounds_ok t2) as Hb2.
  { unfold bounds_ok, INT32_MAX in *. rewrite A4, A5, A6, A7. lia. }
  split_and!; try done; cbn; congruence.
Qed.

(** Three bytes in step. *)
Lemma packet_decoded b0 b1 b2 t u (m : M) :
  t.(packet_index) = 0 -> zlength t.(packet) = 3 -> bounds_ok t ->
  0 <= b0 < 256 -> 0 <= b1 < 256 -> 0 <= b2 < 256 -> Z.testbit b0 3 = true ->
  let '(t', u', m') :=
    decode_byte true b2 (decode_byte true b1 (decode_byte true b0 (t, u, m))) in
  t'.(packet_index) = 0 /\ bounds_ok t' /\ u64 t'.(packets) = u64 (t.(packets) + 1) /\
  if Z.testbit b0 6 || Z.testbit b0 7 then
    t'.(px) = t.(px) /\ t'.(py) = t.(py) /\
    (t'.(left_), t'.(middle), t'.(right_)) = (t.(left_), t.(middle), t.(right_)) /\
    (u', m') = (u, m)
  else
    let x := clamp (t.(px) + int8 b1) t.(bound_width) in
    let y := clamp (t.(py) - int8 b2) t.(bound_height) in
    t'.(px) = x /\ t'.(py) = y /\
    (t'.(left_), t'.(middle), t'.(right_)) = (Z.testbit b0 0, Z.testbit b0 2, Z.testbit b0 1) /\
    (u', m') = publish_all (packet_events t x y (Z.testbit b0 0) (Z.testbit b0 2) (Z.testbit b0 1)) u m.
Proof.
  intros Hi Hl Hb H0 H1 H2 Hone. destruct (bit_testbit b0 H0) as (_ & _ & _ & B3 & _).
  rewrite three_bytes by (done || (etrans; [exact B3|done])).
  set (t1 := set_packet _ 0 [b0; b1; b2]).
  pose proof (decode_packet_spec t1 b0 b1 b2 u m eq_refl H0 H1 H2 Hb) as Hs.
  assert (u64 (t1.(packets) + 1) = u64 (t.(packets) + 1)) as Hp.
  { cbn. rewrite !Z.add_0_r, !u64_u64. unfold u64. by rewrite Zplus_mod_idemp_l. }
  destruct (decode_packet true (t1, u, m)) as [[t' u'] m'].
  destruct Hs as (S1 & S2 & S3 & S4 & S5 & S6 & S7 & S8 & S9). rewrite <- Hp.
  by split_and!.
Qed.

(** Three bytes in step with the device, on a pointer inside its
    bounds, are one packet.  A packet that reports an overflow changes neither
    position nor buttons and publishes nothing; any other moves the cursor by
    its signed bytes, the vertical one upwards, clamped to the bounds, sets the
    three buttons, and publishes in order the movement, when there was one, and
    the press or release of every button that changed, at the new position. *)
Theorem pointer_packet_exact b0 b1 b2 t u (m : M) :
  t.(packet_index) = 0 -> zlength t.(packet) = 3 -> bounds_ok t ->
  0 <= b0 < 256 -> 0 <= b1 < 256 -> 0 <= b2 < 256 -> Z.testbit b0 3 = true ->
  let '(t', u', m') :=
    decode_byte true b2 (decode_byte true b1 (decode_byte true b0 (t, u, m))) in
  t'.(packet_index) = 0 /\ bounds_ok t' /\ u64 t'.(packets) = u64 (t.(packets) + 1) /\
  if Z.testbit b0 6 || Z.testbit b0 7 then
    t'.(px) = t.(px) /\ t'.(py) = t.(py) /\
    (t'.(left_), t'.(middle), t'.(right_)) = (t.(left_), t.(middle), t.(right_)) /\
    (u', m') = (u, m)
  else
    let x := clamp (t.(px) + int8 b1) t.(bound_width) in
    let y := clamp (t.(py) - int8 b2) t.(bound_height) in
    t'.(px) = x /\ t'.(py) = y /\
    (t'.(left_), t'.(middle), t'.(right_)) = (Z.testbit b0 0, Z.testbit b0 2, Z.testbit b0 1) /\
    (u', m') = publish_all (packet_events t x y (Z.testbit b0 0) (Z.testbit b0 2) (Z.testbit b0 1)) u m.
Proof. apply packet_decoded. Qed.

(** The device's nine-bit delta: the sign flag is the ninth bit. *)
Definition nine_bit (sign : bool) (b : Z) : Z := if sign then b - 256 else b.

Lemma int8_nine_bit sign b : 0 <= b < 256 -> int8 b = nine_bit sign b <-> sign = Z.testbit b 7.
Proof.
  intros Hb. unfold int8, nine_bit.
  assert (Z.testbit b 7 = negb (b <? 128)) as ->.
  { rewrite Z.testbit_eqb by lia. change (2 ^ 7) with 128.
    destruct (b <? 128) eqn:E; bool_hyps; simpl.
    - rewrite Z.div_small by lia. done.
    - replace (b / 128) with 1 by (Z.to_euclidean_division_equations; lia). done. }
  destruct (b <? 128) eqn:E, sign; bool_hyps; simpl; split; try done; try lia.
Qed.

(** C29 (equivalence): a packet without overflow, on a cursor further from the
    edges than any packet can move it, moves it by the device's nine-bit two's
    complement deltas exactly when the sign flags of the packet equal the top
    bits of the movement bytes.  Where they differ, on movements of 128 to 255
    counts, the cursor goes the other way. *)
Theorem pointer_delta_nine_bit b0 b1 b2 t u (m : M) :
  t.(packet_index) = 0 -> zlength t.(packet) = 3 -> bounds_ok t ->
  0 <= b0 < 256 -> 0 <= b1 < 256 -> 0 <= b2 < 256 -> Z.testbit b0 3 = true ->
  Z.testbit b0 6 = false -> Z.testbit b0 7 = false ->
  256 <= t.(px) < t.(bound_width) - 256 -> 256 <= t.(py) < t.(bound_height) - 256 ->
  let t' := (decode_byte true b2 (decode_byte true b1 (decode_byte true b0 (t, u, m)))).1.1 in
  (t'.(px) = t.(px) + nine_bit (Z.testbit b0 4) b1 <-> Z.testbit b0 4 = Z.testbit b1 7) /\
  (t'.(py) = t.(py) - nine_bit (Z.testbit b0 5) b2 <-> Z.testbit b0 5 = Z.testbit b2 7).
Proof.
  intros Hi Hl Hb H0 H1 H2 Hone H6 H7 Hx Hy.
  pose proof (packet_decoded b0 b1 b2 t u m Hi Hl Hb H0 H1 H2 Hone) as Hp.
  destruct (decode_byte true b2 _) as [[t' u'] m']. destruct Hp as (_ & _ & _ & Hp).
  rewrite H6, H7 in Hp. cbn [orb fst] in *. destruct Hp as (-> & -> & _).
  pose proof (int8_range b1 H1). pose proof (int8_range b2 H2).
  rewrite <- (int8_nine_bit _ b1 H1), <- (int8_nine_bit _ b2 H2). unfold clamp. lia.
Qed.

(** * Any stream of bytes *)

Lemma publish_kept e u W h :
  shell_at W h u -> event_ok e -> shell_at W h (publish_unlocked (Some e) u).2.
Proof.
  intros (Hl & He & Hq & Hall) [Hv Hp]. pose proof (publish_refines e u Hq Hv) as Hr.
  assert ((publish_unlocked (Some e) u).2.(layout) = u.(layout) /\
    elements_ok (publish_unlocked (Some e) u).2) as [Hl' He'].
  { unfold publish_unlocked. repeat split_if; done. }
  destruct (publish_unlocked (Some e) u) as [s u']. cbn [snd] in *. destruct Hr as [Hq' Hr].
  split_and!; try congruence; try apply Hq'; try done.
  assert (Forall event_ok (publish_spec e (queued u)).2) as Hf; [|by rewrite <- Hr in Hf].
  unfold publish_spec.
  assert (Forall event_ok [e]) as He1 by by apply Forall_singleton.
  repeat split_if; cbn [snd]; try done; try (apply Forall_app; split; try done; by apply Forall_take).
  destruct (evict (queued u)) as [q'|] eqn:Ee; cbn [snd]; [|done]. apply Forall_app; split; [|done].
  clear - Hall Ee. revert q' Ee. induction Hall as [|x q Hx Hall IH]; intros q' Ee; [done|].
  cbn [evict] in Ee. destruct (is_movement x); [by injection Ee as <-|].
  destruct (evict q); [|done]. injection Ee as <-. constructor; [done|]. by apply IH.
Qed.

Lemma publish_all_kept es u (m : M) W h :
  shell_at W h u -> Forall event_ok es -> shell_at W h (publish_all es u m).1.
Proof.
  intros Hu Hes. revert u m Hu. induction Hes as [|e es He _ IH]; intros u m Hu; [done|].
  unfold publish_all. cbn [foldl]. unfold emit, ui_event_publish.
  pose proof (publish_kept e u W h Hu He) as Hk.
  destruct (publish_unlocked (Some e) u) as [s u']. by apply IH.
Qed.

Lemma packet_events_ok t x y l mid r :
  0 <= x < 2147483648 -> 0 <= y < 2147483648 -> Forall event_ok (packet_events t x y l mid r).
Proof.
  intros Hx Hy. unfold packet_events.
  assert (forall ty b, 0 < ty < 9 -> event_ok (MkUiEvent ty (MkPoint x y) b)) as Hok.
  { intros ty b Ht. split; [done|]. unfold is_point. cbn. lia. }
  assert (forall (b on : bool) c, Forall event_ok (if b then [] else
    [MkUiEvent (if on then UI_EVENT_POINTER_BUTTON_PRESS else UI_EVENT_POINTER_BUTTON_RELEASE)
       (MkPoint x y) c])) as Hc.
  { intros b on c. destruct b; [by apply Forall_nil|]. apply Forall_singleton, Hok. by destruct on. }
  rewrite !Forall_app. split_and!; try apply Hc.
  destruct (bool_decide _); [by apply Forall_nil|]. by apply Forall_singleton, Hok.
Qed.
End packets.

Definition pointer_inv (t : pointer_state) : Prop :=
  zlength t.(packet) = 3 /\ 0 <= t.(packet_index) < 3 /\ bounds_ok t /\
  Forall (fun b => 0 <= b < 256) t.(packet).

(** Bytes received and not accounted for by packets, the packet under way and
    lost synchronization. *)
Definition unaccounted (t : pointer_state) : Z :=
  t.(bytes) - 3 * t.(packets) - t.(packet_index) - t.(desynchronizations).

Section streams.
Context {M : Type} `{ControllerLaws M}.

Definition pointer_world_ok (W h : Z) (w : pointer_state * ui * M) : Prop :=
  pointer_inv w.1.1 /\ shell_at W h w.1.2.

Lemma u64_cong a b c : a = b + c * 18446744073709551616 -> u64 a = u64 b.
Proof. intros ->. unfold u64. apply Z_mod_plus_full. Qed.

Lemma u64_diff a b : u64 a = u64 b -> exists k, a = b + k * 18446744073709551616.
Proof.
  unfold u64. intros E. exists (a / 18446744073709551616 - b / 18446744073709551616).
  pose proof (Z.div_mod a 18446744073709551616). pose proof (Z.div_mod b 18446744073709551616). lia.
Qed.

Lemma decode_byte_inv byte W h w :
  0 <= byte < 256 -> pointer_world_ok W h w ->
  let w' := decode_byte true byte w in
  pointer_world_ok W h w' /\ u64 (unaccounted w'.1.1) = u64 (unaccounted w.1.1).
Proof.
  intros Hb [(Hl & Hi & Hbd & Hby) Hu]. destruct w as [[t u] m]. cbn [fst snd] in *.
  unfold decode_byte. cbn [packet_index packet count].
  destruct (_ && _) eqn:E.
  { split; [exact (conj (conj Hl (conj Hi (conj Hbd Hby))) Hu)|].
    unfold unaccounted. cbn.
    destruct (u64_shift (u64 (t.(bytes) + 1) + 0)) as [a ->],
      (u64_shift (u64 (t.(packets) + 0) + 0)) as [b ->],
      (u64_shift (u64 (t.(desynchronizations) + 0) + 1)) as [c ->].
    destruct (u64_shift (t.(bytes) + 1)) as [a' ->], (u64_shift (t.(packets) + 0)) as [b' ->],
      (u64_shift (t.(desynchronizations) + 0)) as [c' ->].
    apply (u64_cong _ _ (a + a' - 3 * (b + b') - (c + c'))). lia. }
  assert (u8 (t.(packet_index) + 1) = t.(packet_index) + 1) as ->
    by (unfold u8; apply Z.mod_small; lia).
  assert (Forall (fun b => 0 <= b < 256) (aset t.(packet) t.(packet_index) byte)) as Hby'.
  { apply Forall_insert; done. }
  cbn [packet_index set_packet]. unfold POINTER_PACKET_SIZE.
  destruct (_ =? 3) eqn:E3; bool_hyps.
  2: { assert (zlength (aset t.(packet) t.(packet_index) byte) = 3) as Hl' by by rewrite zlength_aset.
       assert (0 <= t.(packet_index) + 1 < 3) as Hi' by lia.
       split; [exact (conj (conj Hl' (conj Hi' (conj Hbd Hby'))) Hu)|].
       unfold unaccounted. cbn.
       destruct (u64_shift (t.(bytes) + 1)) as [a ->], (u64_shift (t.(packets) + 0)) as [b ->],
         (u64_shift (t.(desynchronizations) + 0)) as [c ->].
       apply (u64_cong _ _ (a - 3 * b - c)). lia. }
  set (t1 := set_packet _ 0 _).
  assert (exists b0 b1 b2, t1.(packet) = [b0; b1; b2] /\ 0 <= b0 < 256 /\ 0 <= b1 < 256 /\ 0 <= b2 < 256)
    as (b0 & b1 & b2 & Hp & R0 & R1 & R2).
  { assert (length t1.(packet) = 3%nat) as Hlen.
    { cbn. rewrite length_aset. unfold zlength in Hl. lia. }
    change (packet t1) with (aset t.(packet) t.(packet_index) byte) in *.
    destruct (aset t.(packet) t.(packet_index) byte) as [|a [|b [|c [|]]]]; try done.
    rewrite !Forall_cons in Hby'. destruct Hby' as (? & ? & ? & _). eauto 10. }
  assert (bounds_ok t1) as Hb1 by done.
  pose proof (decode_packet_spec t1 b0 b1 b2 u m Hp R0 R1 R2 Hb1) as Hs.
  destruct (decode_packet true (t1, u, m)) as [[t' u'] m'].
  destruct Hs as (S1 & S2 & S3 & S4 & S5 & S6 & S7 & S8 & S9). cbn [fst snd].
  split; [split|].
  - unfold pointer_inv. cbn [fst snd]. rewrite S2, S1, Hp. split; [done|]. split; [done|].
    split; [done|]. rewrite !Forall_cons. split_and!; try lia. by apply Forall_nil.
  - cbn [fst snd]. destruct (_ || _).
    { destruct S9 as (_ & _ & _ & [= -> ->]). done. }
    destruct S9 as (_ & _ & _ & S9). change u' with (u', m').1. rewrite S9.
    destruct Hb1 as (B1 & B2 & B3 & B4). unfold INT32_MAX in *.
    apply publish_all_kept; [done|].
    apply packet_events_ok; unfold clamp; lia.
  - unfold unaccounted. rewrite S1. change (packet_index t1) with 0.
    change (bytes t1) with (u64 (t.(bytes) + 1)) in S5.
    change (packets t1) with (u64 (t.(packets) + 0)) in S6.
    change (desynchronizations t1) with (u64 (t.(desynchronizations) + 0)) in S7.
    apply u64_diff in S5 as [a S5], S6 as [b S6], S7 as [c S7]. rewrite S5, S6, S7.
    destruct (u64_shift (t.(bytes) + 1)) as [a' ->], (u64_shift (t.(packets) + 0)) as [b' ->],
      (u64_shift (t.(desynchronizations) + 0)) as [c' ->].
    apply (u64_cong _ _ (a + a' - 3 * (b + b') - (c + c'))). lia.
Qed.

Lemma pointer_interrupt_inv W h w :
  pointer_world_ok W h w ->
  pointer_world_ok W h (pointer_interrupt w) /\
  u64 (unaccounted (pointer_interrupt w).1.1) = u64 (unaccounted w.1.1).
Proof.
  intros Hw. destruct w as [[t u] m]. cbn [fst snd] in *. unfold pointer_interrupt.
  set (w0 := (count t 1 0 0 0 0 0 0, u, m)).
  assert (u64 (unaccounted w0.1.1) = u64 (unaccounted t)) as Hz0.
  { unfold unaccounted. cbn.
    destruct (u64_shift (t.(bytes) + 0)) as [a ->], (u64_shift (t.(packets) + 0)) as [b ->],
      (u64_shift (t.(desynchronizations) + 0)) as [c ->].
    apply (u64_cong _ _ (a - 3 * b - c)). lia. }
  set (P := fun w : pointer_state * ui * M =>
    pointer_world_ok W h w /\ u64 (unaccounted w.1.1) = u64 (unaccounted t)).
  assert (P w0) as HP0 by (split; [exact Hw|done]).
  pose proof (for_each_inv (fun _ w => P w) P pointer_turn (seqZ 0 UI_EVENT_QUEUE_CAPACITY) w0) as Hf.
  destruct (for_each _ _ _); apply Hf; try done; clear Hf HP0 Hw Hz0; intros x l' [[t' u'] m'] HP; unfold pointer_turn;
    destruct (inb PS2_COMMAND_PORT m') as [status m1]; destruct (_ || _); try done;
    pose proof (inb_byte PS2_DATA_PORT m1) as Hb; destruct (inb PS2_DATA_PORT m1) as [byte m2];
    cbn [fst] in Hb; destruct HP as [Hok Hun];
    destruct (decode_byte_inv byte W h (t', u', m2) Hb Hok) as [D1 D2]; (split; [done|]);
    rewrite D2; done.
Qed.

(** C28 (invariant): however the auxiliary port's bytes arrive, in or out of step
    with packets, and whatever the shell takes from its queue in between, the
    pointer interrupts keep the write index inside the packet, the cursor inside
    its bounds, every queued event well formed and at a point of the screen's
    coordinate space, and every byte accounted for: bytes are three per packet,
    plus the packet under way, plus the ones skipped to regain step. *)
Theorem pointer_interrupts_safe (envs : list (ui -> M -> ui * M)) W h w :
  pointer_world_ok W h w ->
  Forall (fun env => forall u m, shell_at W h u -> shell_at W h (env u m).1) envs ->
  let w' := foldl (fun w env => pointer_interrupt (w.1.1, (env w.1.2 w.2).1, (env w.1.2 w.2).2)) w envs in
  pointer_world_ok W h w' /\ u64 (unaccounted w'.1.1) = u64 (unaccounted w.1.1).
Proof.
  intros Hw Henvs. revert w Hw. induction Henvs as [|env envs He _ IH]; intros w Hw; [done|].
  cbn [foldl]. set (w1 := (w.1.1, _, _)).
  assert (pointer_world_ok W h w1) as Hw1 by (split; [apply Hw|apply He, Hw]).
  destruct (pointer_interrupt_inv W h w1 Hw1) as [I1 I2].
  destruct (IH _ I1) as [J1 J2]. split; [done|]. by rewrite J2, I2.
Qed.
End streams.

(** * Discovery *)

Section discovery.
Context {M : Type} `{BringUpLaws M}.
Implicit Types m : M.
#[local] Existing Instance same_preorder.

Lemma same_loop {R} (body : Z -> M -> ctl M R) (out : R -> M) l m :
  (forall i m, match body i m with Next m' => same m m' | Return r => same m (out r) end) ->
  match for_each body l m with Next m' => same m m' | Return r => same m (out r) end.
Proof.
  intros Hb.
  apply (for_each_inv (fun _ m' => same m m') (fun r => same m (out r)) body l m); [|done].
  intros i l' m' Hm. specialize (Hb i m'). destruct (body i m'); by trans m'.
Qed.

Lemma same_send_ptr port value m : same m (send port value m).2.
Proof.
  unfold send, wait_to_write.
  match goal with |- context [for_each ?b ?l m] => pose proof (same_loop b (fun m => m) l m) as Hl end.
  assert (same m (match for_each (fun (_ : Z) m =>
          let '(status, m) := inb PS2_COMMAND_PORT m in
          if Z.land status PS2_STATUS_INPUT_FULL =? 0 then Return m else Next m)
          (seqZ 0 PS2_WAIT_LIMIT) m with Next m | Return m => m end)) as Hs.
  { destruct (for_each _ _ _); apply Hl; intros i m1; pose proof (same_inb PS2_COMMAND_PORT m1);
      destruct (inb PS2_COMMAND_PORT m1); by split_if. }
  destruct (for_each _ _ _); cbn [snd]; [done|]. etrans; [exact Hs|]. apply same_outb.
Qed.

Lemma same_receive_ptr aux m : same m (receive_data aux m).2.
Proof.
  unfold receive_data, wait_to_read.
  match goal with |- context [for_each ?b ?l m] => pose proof (same_loop b snd l m) as Hl end.
  destruct (for_each _ _ _) as [m1|[current m1]]; cbn [snd].
  - apply Hl. intros i m2. pose proof (same_inb PS2_COMMAND_PORT m2).
    destruct (inb PS2_COMMAND_PORT m2); by split_if.
  - assert (same m m1) as Hm.
    { apply Hl. intros i m2. pose proof (same_inb PS2_COMMAND_PORT m2).
      destruct (inb PS2_COMMAND_PORT m2); by split_if. }
    split_if; [done|]. pose proof (same_inb PS2_DATA_PORT m1). destruct (inb PS2_DATA_PORT m1).
    cbn [snd] in *. by trans m1.
Qed.

Lemma same_write_configuration c m : same m (write_configuration c m).2.
Proof.
  unfold write_configuration, send_command, send_data.
  pose proof (same_send_ptr PS2_COMMAND_PORT PS2_COMMAND_WRITE_CONFIGURATION m) as H1.
  destruct (send PS2_COMMAND_PORT _ m) as [s m1]. cbn [snd] in H1. split_if; [|done].
  etrans; [exact H1|]. apply same_send_ptr.
Qed.

Lemma same_device_command c m : same m (send_device_command c m).2.
Proof.
  unfold send_device_command, send_command, send_data.
  pose proof (same_send_ptr PS2_COMMAND_PORT PS2_COMMAND_WRITE_SECOND_PORT m) as H1.
  destruct (send PS2_COMMAND_PORT _ m) as [s m1]. cbn [snd] in H1.
  assert (same m (if is_ok s then send PS2_DATA_PORT c m1 else (s, m1)).2) as H2.
  { split_if; [|done]. etrans; [exact H1|]. apply same_send_ptr. }
  destruct (if is_ok s then _ else _) as [s2 m2]. cbn [snd] in H2.
  assert (same m (if is_ok s2 then receive_data true m2 else (s2, None, m2)).2) as H3.
  { split_if; [|done]. etrans; [exact H2|]. apply same_receive_ptr. }
  destruct (if is_ok s2 then _ else _) as [[s3 a] m3]. exact H3.
Qed.

(** The decision and what it leaves installed. *)
Definition concluded (t : pointer_state) (m : M) (r : pointer_status * pointer_state * M) : Prop :=
  let '(s, t', m') := r in
  cpu_interrupts_enabled m' = cpu_interrupts_enabled m /\
  if is_ok s then
    t' = set_bounds (set_decision t true true true) 1 1 /\ handler_at m POINTER_VECTOR = false /\
    (forall v, handler_at m' v = handler_at m v || (v =? POINTER_VECTOR)) /\
    isa_live m' POINTER_IRQ = true
  else
    t' = set_decision t true false false /\ (forall v, handler_at m' v = handler_at m v) /\
    isa_live m' POINTER_IRQ = false.

Lemma absent_concluded s t m m1 :
  s <> POINTER_STATUS_OK -> cpu_interrupts_enabled m1 = cpu_interrupts_enabled m ->
  (forall v, handler_at m1 v = handler_at m v) -> isa_live m1 POINTER_IRQ = false ->
  concluded t m (decide_absent s t m1).
Proof.
  intros Hs Hf Hh Hl. unfold decide_absent, send_command.
  destruct (same_send_ptr PS2_COMMAND_PORT PS2_COMMAND_DISABLE_SECOND_PORT m1) as (S1 & S2 & S3).
  destruct (send PS2_COMMAND_PORT _ m1) as [s' m2]. cbn [snd] in *.
  split; [congruence|]. unfold is_ok. rewrite bool_decide_false by done.
  split; [done|]. split; [intros v; by rewrite S1, Hh|by rewrite S2].
Qed.

Lemma undo_concluded s t m m1 m2 :
  s <> POINTER_STATUS_OK -> cpu_interrupts_enabled m = false -> handler_at m POINTER_VECTOR = false ->
  (forall v, handler_at m1 v = handler_at m v || (v =? POINTER_VECTOR)) ->
  cpu_interrupts_enabled m1 = cpu_interrupts_enabled m -> same m1 m2 ->
  concluded t m (decide_absent s t (undo m2)).
Proof.
  intros Hs Hi Hv Hh Hf (S1 & S2 & S3). unfold undo.
  destruct (mask_law POINTER_IRQ m2) as (L1 & L2 & L3); [congruence|].
  destruct (unregister_law POINTER_VECTOR (ioapic_mask_isa_irq POINTER_IRQ m2))
    as (U1 & U2 & U3); [by vm_compute|congruence|].
  apply absent_concluded; [done|congruence| |by rewrite U2].
  intros v. rewrite U1, L2, S1, Hh. destruct (v =? POINTER_VECTOR) eqn:E; bool_hyps; subst.
  - by rewrite Hv.
  - by rewrite orb_false_r, andb_true_r.
Qed.

Lemma reporting_concluded c t m m1 :
  cpu_interrupts_enabled m = false -> handler_at m POINTER_VECTOR = false ->
  (forall v, handler_at m1 v = handler_at m v || (v =? POINTER_VECTOR)) ->
  cpu_interrupts_enabled m1 = cpu_interrupts_enabled m -> isa_live m1 POINTER_IRQ = true ->
  concluded t m (enable_reporting c t m1).
Proof.
  intros Hi Hv Hh Hf Hl. unfold enable_reporting.
  pose proof (same_device_command POINTER_DEVICE_SET_DEFAULTS m1) as H1.
  destruct (send_device_command _ m1) as [s1 m2]. cbn [snd] in H1.
  set (r := if is_ok s1 then _ else _).
  assert (same m1 r.2) as H2.
  { subst r. split_if; [|done]. etrans; [exact H1|]. apply same_device_command. }
  destruct r as [s2 m3]. cbn [snd] in H2. destruct (is_ok s2) eqn:E2; cbn [negb].
  2: { eapply undo_concluded; try done. intros ->. done. }
  set (c' := Z.lor _ _). pose proof (same_write_configuration c' m3) as H3.
  destruct (write_configuration c' m3) as [s3 m4]. cbn [snd] in H3.
  assert (same m1 m4) as H4 by by trans m3.
  destruct (is_ok s3) eqn:E3; cbn [negb].
  2: { eapply undo_concluded; try done. intros ->. done. }
  destruct H4 as (S1 & S2 & S3). split; [congruence|]. cbn [is_ok].
  change (is_ok POINTER_STATUS_OK) with true. cbn iota. split; [done|]. split; [done|].
  split; [intros v; by rewrite S1|by rewrite S2].
Qed.

Lemma install_concluded c t m m1 :
  cpu_interrupts_enabled m = false -> isa_live m POINTER_IRQ = false -> same m m1 ->
  concluded t m (install c t m1).
Proof.
  intros Hi Hl (S1 & S2 & S3). unfold install.
  pose proof (register_law POINTER_VECTOR m1 ltac:(by vm_compute)) as Hr.
  destruct (interrupt_register_handler POINTER_VECTOR m1) as [[] m2];
    destruct Hr as (R1 & R2 & R3 & R4); cbn [andb] in R1.
  2: { apply absent_concluded; [done|congruence| |by rewrite R3, S2].
       intros v. by rewrite R1, orb_false_r, S1. }
  specialize (R2 eq_refl). rewrite S1 in R2.
  pose proof (route_law POINTER_IRQ POINTER_VECTOR m2) as Ht.
  destruct (ioapic_route_isa_irq POINTER_IRQ POINTER_VECTOR m2) as [[] m3];
    destruct Ht as (T1 & T2 & T3).
  - apply reporting_concluded; try done; [|congruence]. intros v. by rewrite T2, R1, S1.
  - destruct (unregister_law POINTER_VECTOR m3) as (U1 & U2 & U3); [by vm_compute|congruence|].
    apply absent_concluded; [done|congruence| |].
    + intros v. rewrite U1, T2, R1, S1. destruct (v =? POINTER_VECTOR) eqn:E; bool_hyps; subst.
      * by rewrite R2.
      * by rewrite orb_false_r, andb_true_r.
    + rewrite U2. apply not_true_is_false. intros C. apply T1 in C. rewrite R3, S2 in C. congruence.
Qed.

Lemma test_port_concluded c t m m1 :
  cpu_interrupts_enabled m = false -> isa_live m POINTER_IRQ = false -> same m m1 ->
  concluded t m (test_port c t m1).
Proof.
  intros Hi Hl Hs. unfold test_port, send_command.
  pose proof (same_send_ptr PS2_COMMAND_PORT PS2_COMMAND_TEST_SECOND_PORT m1) as H1.
  destruct (send PS2_COMMAND_PORT _ m1) as [s1 m2]. cbn [snd] in H1.
  set (r := if is_ok s1 then _ else _).
  assert (same m r.2) as H2.
  { trans m1; [done|]. subst r. split_if; [|done]. etrans; [exact H1|]. apply same_receive_ptr. }
  destruct r as [[s2 a] m3]. cbn [snd] in H2. split_if; [|by apply install_concluded].
  destruct H2 as (S1 & S2 & S3). apply absent_concluded; try done. by rewrite S2.
Qed.

(** On a machine whose pointer interrupt is masked the pointer is
    decided at most once, and the decision is all or nothing.  Success means the
    pointer is present and active with one-pixel bounds, its vector was free and
    has the handler, and its interrupt is live.  A refusal before discovery
    changes nothing at all; any failure during it, whatever the controller or
    the device answered, decides that there is no pointer, leaves every vector
    with the handler it had and the interrupt masked. *)
Theorem pointer_initialize_exact k t m :
  isa_live m POINTER_IRQ = false ->
  let ready := negb t.(decided) && keyboard_is_initialized k && negb (cpu_interrupts_enabled m) &&
    ioapic_is_initialized m in
  let '(s, t', m') := pointer_initialize k t m in
  if ready then
    t'.(decided) = true /\ concluded t m (s, t', m')
  else s <> POINTER_STATUS_OK /\ t' = t /\ m' = m.
Proof.
  intros Hl ready. unfold pointer_initialize, ready, send_command. clear ready.
  destruct t.(decided); [done|]. destruct (keyboard_is_initialized k); [|done].
  destruct (cpu_interrupts_enabled m) eqn:Ei; [done|].
  destruct (ioapic_is_initialized m); [|done]. cbn [negb andb].
  assert (forall r, concluded t m r ->
    let '(s, t', m') := r in t'.(decided) = true /\ concluded t m (s, t', m')) as Hfin.
  { intros [[s t'] m'] Hc. split; [|done]. destruct Hc as [_ Hc].
    destruct (is_ok s); by destruct Hc as (-> & _). }
  apply Hfin. clear Hfin.
  pose proof (same_send_ptr PS2_COMMAND_PORT PS2_COMMAND_ENABLE_SECOND_PORT m) as H1.
  destruct (send PS2_COMMAND_PORT PS2_COMMAND_ENABLE_SECOND_PORT m) as [s1 m1]. cbn [snd] in H1.
  assert (forall s m', same m m' -> s <> POINTER_STATUS_OK -> concluded t m (decide_absent s t m')) as Ha.
  { intros s m' (S1 & S2 & S3) Hs. apply absent_concluded; try done. by rewrite S2. }
  destruct (is_ok s1) eqn:E1; cbn [negb]; [|apply Ha; [done|by intros ->]].
  pose proof (same_send_ptr PS2_COMMAND_PORT PS2_COMMAND_READ_CONFIGURATION m1) as H2.
  destruct (send PS2_COMMAND_PORT PS2_COMMAND_READ_CONFIGURATION m1) as [s2 m2]. cbn [snd] in H2.
  set (r := if is_ok s2 then _ else _).
  assert (same m r.2) as H3.
  { trans m1; [done|]. subst r. split_if; [|done]. etrans; [exact H2|]. apply same_receive_ptr. }
  destruct r as [[s3 c] m3]. cbn [snd] in H3.
  destruct (is_ok s3) eqn:E3; cbn [negb]; [|apply Ha; [done|by intros ->]].
  split_if; [by apply Ha|]. by apply test_port_concluded.
Qed.
End discovery.

(** [pointer_set_bounds] succeeds exactly on an available pointer and
    sizes from one pixel to 2^31-1, and then places the cursor; a refusal changes
    nothing.  The new position is inside the new bounds exactly when the width is
    at least four: on a width of one to three the quarter is zero and the cursor
    is put one column past the last. *)
Theorem pointer_set_bounds_exact width height t :
  is_u32 width -> is_u32 height ->
  let '(s, t') := pointer_set_bounds width height t in
  if pointer_is_present t && (1 <=? width) && (width <=? INT32_MAX) && (1 <=? height) &&
     (height <=? INT32_MAX) then
    s = POINTER_STATUS_OK /\ t'.(bound_width) = width /\ t'.(bound_height) = height /\
    t'.(px) = width - width / 4 /\ t'.(py) = height / 3 /\ 0 <= t'.(py) < height /\
    (bounds_ok t' <-> 4 <= width)
  else s <> POINTER_STATUS_OK /\ t' = t.
Proof.
  unfold is_u32, pointer_set_bounds, pointer_is_present. intros Hw Hh.
  destruct t.(present), t.(p_active); cbn [negb orb andb]; try done.
  destruct (_ || _ || _ || _) eqn:E.
  { destruct ((1 <=? width) && _ && _ && _) eqn:E2; [|done]. bool_hyps. lia. }
  bool_hyps. unfold INT32_MAX in *. destruct (_ && _ && _ && _) eqn:E2.
  2: { rewrite !andb_false_iff in E2. lia. }
  rewrite u32_small by (unfold is_u32, UINT32_MAX in *; Z.to_euclidean_division_equations; lia).
  cbn. split_and!; try done; try (Z.to_euclidean_division_equations; lia).
  unfold bounds_ok, INT32_MAX. cbn. Z.to_euclidean_division_equations; lia.
Qed.

(** * A pointer *)

Definition pointer0 : pointer_state :=
  MkPointer false false false false false false 0 0 0 0 0 [0; 0; 0] 0 0 0 0 0 0 0.
Definition pointer_up : pointer_state :=
  MkPointer true true true false false false 768 256 1024 768 0 [0; 0; 0] 0 0 0 0 0 0 0.

Definition pointer_centre : pointer_state := set_position pointer_up 512 384.

Lemma pointer_set_bounds_exact_witness :
  (pointer_set_bounds 1024 768 (set_decision pointer0 true true true)) =
    (POINTER_STATUS_OK, pointer_up) /\
  ~ bounds_ok (pointer_set_bounds 3 3 pointer_up).2.
Proof.
  split; [vm_compute; reflexivity|].
  pose proof (pointer_set_bounds_exact 3 3 pointer_up ltac:(by vm_compute) ltac:(by vm_compute)) as H.
  destruct (pointer_set_bounds 3 3 pointer_up) as [s t']. cbn [snd].
  change (pointer_is_present pointer_up && _ && _ && _ && _) with true in H. cbv iota in H.
  destruct H as (_ & _ & _ & _ & _ & _ & Hb). rewrite Hb. lia.
Defined.

Lemma pointer_discovered :
  pointer_initialize keyboard_up pointer0 (bench_up []) =
  (POINTER_STATUS_OK, set_bounds (set_decision pointer0 true true true) 1 1,
   MkBench [] 0x47 0x60 false [60; 49] [12; 1]).
Proof. lazy. reflexivity. Qed.

Lemma pointer_initialize_exact_witness :
  let '(s, t', m') := pointer_initialize keyboard_up pointer0 (bench_up []) in
  s = POINTER_STATUS_OK /\ t'.(decided) = true /\ isa_live m' POINTER_IRQ = true.
Proof.
  pose proof (pointer_initialize_exact keyboard_up pointer0 (bench_up []) eq_refl) as H.
  rewrite pointer_discovered in *. destruct H as (Hd & _ & _ & _ & _ & Hl).
  split; [reflexivity|]. split; [exact Hd|exact Hl].
Defined.

Definition quiet (u : ui) (b : bench) : ui * bench := (u, b).
Definition moving : bench :=
  bench_up [(true, 0x09); (true, 0x05); (true, 0xFE); (true, 0x00); (true, 0x08)].

Lemma pointer_interrupts_safe_witness :
  let w := foldl (fun w env => pointer_interrupt (w.1.1, (env w.1.2 w.2).1, (env w.1.2 w.2).2))
             (pointer_up, ui0, moving) [quiet] in
  pointer_world_ok 1024 768 w /\ u64 (unaccounted w.1.1) = u64 (unaccounted pointer_up).
Proof.
  apply (pointer_interrupts_safe [quiet] 1024 768 (pointer_up, ui0, moving)).
  - split; [|exact ui0_shell]. split; [done|]. split; [cbn; lia|]. split; [vm_compute; split_and!; congruence|].
    repeat constructor; lia.
  - apply Forall_singleton. intros u m Hu. exact Hu.
Defined.

Definition after_packet : pointer_state * ui * bench :=
  decode_byte true 0xFE (decode_byte true 0x05 (decode_byte true 0x09 (pointer_up, ui0, moving))).

Lemma pointer_packet_exact_witness :
  after_packet.1.1.(px) = 773 /\ after_packet.1.1.(py) = 258 /\ after_packet.1.1.(left_) = true.
Proof.
  pose proof (pointer_packet_exact 0x09 0x05 0xFE pointer_up ui0 moving eq_refl eq_refl) as H.
  unfold after_packet. destruct (decode_byte true 0xFE _) as [[t' u'] m'].
  destruct H as (_ & _ & _ & Hx & Hy & Hl & _); [vm_compute; split_and!; congruence|lia|lia|lia|done|].
  cbn [fst]. rewrite Hx, Hy. injection Hl as -> _ _. done.
Defined.

(** A quick move of 200 counts to the right goes 56 to the left. *)
Lemma quick_move :
  (decode_byte true 0 (decode_byte true 0xC8 (decode_byte true 0x08
     (pointer_centre, ui0, moving)))).1.1.(px) = 456.
Proof. vm_compute. reflexivity. Qed.

Lemma pointer_delta_nine_bit_witness :
  (456 = 512 + nine_bit false 0xC8 <-> false = true) /\ nine_bit false 0xC8 = 200.
Proof.
  split; [|reflexivity].
  destruct (pointer_delta_nine_bit 0x08 0xC8 0 pointer_centre ui0 moving) as [Hx _];
    [reflexivity|reflexivity|vm_compute; split_and!; congruence|lia|lia|lia|reflexivity..| | |];
    [vm_compute; split_and!; congruence|vm_compute; split_and!; congruence|].
  rewrite quick_move in Hx. exact Hx.
Defined.
End Pointer.
